(* ===== verification/_CoqProject ===== *)
-Q . S2P
Prelude.v
Multiformats.v
Grammar.v
Dids.v
Identity.v
References.v
ReferenceFacts.v
TextCodecsExample.v
Dtos.v
ChainRepos.v
ObjectRepoFs.v
MetadataChain.v
ChainComparator.v
ChainVisitors.v
ChainValidators.v
ChainRules.v
ChainAppend.v
ChainInvariants.v
ChainExample.v
Dataset.v
Sync.v
SyncFacts.v
EventSourcing.v
TaskSystem.v
FlowSystem.v
FlowTimeWheel.v
FlowStore.v
Outbox.v
OutboxLaws.v
OutboxRelay.v
Messages.v
FlowConfig.v
FlowService.v
FlowServiceInv.v
FlowServiceFacts.v
FlowServiceEnds.v
DatasetChanges.v
Rebac.v
DependencyGraph.v
DependencyGraphExample.v
DatasetOwnership.v
Snapshots.v
DatasetRepositoryFs.v
DatasetRepositoryFacts.v
UseCases.v
Transform.v
TransformFacts.v
Verification.v
VerificationFacts.v
RemoteAliases.v
PullService.v
PushService.v
PullFacts.v
ChainProperties.v
DatasetProperties.v
SystemProperties.v
FlowProperties.v
PlatformProperties.v
IdentityProperties.v
SyncProperties.v
ServiceProperties.v
RepositoryProperties.v
UseCaseProperties.v
TransformProperties.v
VerificationProperties.v
PullProperties.v
