(* ===== verification/Prelude.v ===== *)
(** * A verification library for kamu

    kamu manages datasets as chains of metadata blocks.  A dataset is an
    append-only chain: each block holds one event and the hash of the block
    before it, and the reference [head] points at the newest one.  Ingesting
    data, running a query, or changing a schema appends a block, after the block
    was validated against the chain.  Datasets live in repositories, read each
    other through transforms, and are exchanged by synchronization.  Changes are
    announced by messages, from which services keep a graph of dependencies, owners
    and permissions.  Work on datasets is planned by an event-sourced flow system
    and carried out by an event-sourced task system.

    Paths below are relative to src/ of the repository.

    ** Files

    Shared:
    - [Prelude]: outcomes of fallible code ([res], with panics), actions on a
      state, 64-bit arithmetic, searches in lists, the hint database [kamu] and
      tactics.
    - [Multiformats], [Dids] (utils/multiformats): hashes, multibase, did:key and
      did:odf with their byte and text forms.  [Grammar], [Identity],
      [References], [ReferenceFacts] (domain/opendatafabric/src/identity): the
      grammar, names, aliases, handles, references and patterns with parsers,
      printers, equalities and orderings.  [TextCodecsExample]: text codecs that
      obey the laws.  [Dtos] (domain/opendatafabric/src/dtos, metadata): all
      metadata records, with their constructors and field order.

    Chains and datasets:
    - [ChainRepos] (domain/core/src/repos, infra/core/src/repos): block and
      reference repositories.  [MetadataBlockRepository] and
      [ReferenceRepository] are classes as the traits are; [LawfulBlockRepo] and
      [LawfulRefRepo] say what the chain relies on, and the in-memory stores are
      proved to provide it.  [ObjectRepoFs]: the stores on a local file system.
    - [MetadataChain] (metadata_chain.rs, metadata_chain_impl.rs): options and
      errors, iteration, [set_ref]; [linked] is the specification of a stored
      chain.  [ChainComparator] (metadata_chain_comparator.rs): how two chains are
      related.
    - [ChainVisitors] (metadata_chain_visitor.rs, metadata_chain_visitors.rs): the
      visitor trait as a class, the traversal [accept_by_interval], the searches,
      and [run_visitor], the reference semantics of one visitor alone.
    - [ChainValidators] (metadata_chain_validators.rs): the twelve validators.
      [ChainRules]: the specification [valid_next] of a block that may follow a
      chain, and the theorem that the validators decide it.
    - [ChainAppend]: [append], the specification [chain_state] of the stored
      state, and the step relation [chain_step].  [ChainInvariants]: what follows
      for whole chains.  [ChainExample]: concrete chains and a codec.
    - [Dataset] (dataset_impl.rs, entities/dataset.rs): commits with their files
      and the summary; [dataset_state] is the invariant, [summary_of] the
      reference definition of a summary.
    - [Sync], [SyncFacts] (simple_transfer_protocol.rs): the transfer protocol with
      concurrent downloads, as steps.
    - [DatasetChanges] (dataset_changes_service_impl.rs, reset_service_impl.rs).
    - [Snapshots] (dataset_repository_helpers.rs): creating a dataset from a
      snapshot on any repository, the class [DatasetWorkspace] with its laws.
    - [DatasetRepositoryFs], [DatasetRepositoryFacts]
      (dataset_repository_local_fs.rs, dataset_layout.rs): the multi-tenant
      repository on a local file system, the accounts it shows
      ([repository_state]), and that it is a lawful [DatasetWorkspace].
    - [UseCases] (infra/core/src/use_cases): creating, renaming, deleting,
      committing and appending batches, with permissions and announcements.
    - [Transform], [TransformFacts] (transform_service_impl.rs, engine.rs): the
      planning, running and committing of transforms.
    - [Verification], [VerificationFacts] (verification_service_impl.rs, and the
      replay of transform_service_impl.rs): the integrity of metadata and data, the
      replay of queries, and the verdict, with the calls of the listener.
    - [RemoteAliases] (remote_aliases_registry_impl.rs): which remotes a dataset is
      pulled from and pushed to.  [PullService] (pull_service_impl.rs): the plan of
      a pull in the order of the dependencies, and its run level by level;
      [PushService] (push_service_impl.rs).  The repository and the services they
      call are the classes [PullWorkspace] and [PullServices]; [PullFacts] shows
      that the registry keeps the promises of [LawfulAliases].

    Services and messages:
    - [EventSourcing] (utils/event-sourcing): projections and event stores as
      classes, aggregates, the in-memory store; [replay] is the reference
      semantics of a history.
    - [TaskSystem] (domain/task-system, infra/task-system/inmem).
    - [FlowSystem] (domain/flow-system/domain), [FlowTimeWheel], [FlowStore]
      (infra/flow-system/inmem), [FlowConfig] (flow_configuration_service_impl.rs),
      [FlowService] (flow_service_impl.rs) with [FlowServiceInv] (its invariant),
      [FlowServiceFacts] and [FlowServiceEnds] (what its operations do).
    - [Messages] (the messages components exchange), [Outbox], [OutboxLaws],
      [OutboxRelay] (utils/messaging-outbox): the repositories with laws, the three
      outboxes, and the relay with the steps of its concurrent jobs.
    - [Rebac] (domain/auth-rebac, infra/auth-rebac/inmem), [DependencyGraph] with
      [DependencyGraphExample], [DatasetOwnership] (infra/core/src).

    Properties, each theorem with an application to concrete data:
    [ChainProperties], [DatasetProperties], [SystemProperties], [FlowProperties],
    [PlatformProperties], [IdentityProperties], [SyncProperties],
    [ServiceProperties], [RepositoryProperties], [UseCaseProperties],
    [TransformProperties], [VerificationProperties], [PullProperties].

    ** How the code is modelled

    A function that returns [Result] and may panic returns [res]; a method that
    changes [self] returns the result and the new state, also when it fails.
    [async] code is modelled as the sequence of steps it takes; where tasks run
    concurrently (downloads, consumers of messages) the interleaving is an
    argument or a step relation, and theorems hold for all of them.  A stream is
    the list of what it yields and how it ends.  [u64] and [i64] are [Z] with
    wrap-around written out.

    Loops that follow hash links carry fuel and return [None] when it runs out.  A
    linked chain has no repeated hash, so one unit more than its length is enough,
    and theorems about such loops ask for that much; a seed on an empty chain needs
    one turn, a batch or a snapshot one for each of its blocks besides those
    below, a transform one more than the output for the schema.  That they return
    is part of the theorems ([append_returns], [snapshot_becomes_chain],
    [transforms_keep_datasets_consistent] and the others).  The descent of a pull
    through the dependencies has no bound in the code; it needs two units more
    than the longest chain of dependencies, and never ends on a cycle
    ([pull_ends], [cyclic_dependencies_never_end]).  The levels of a pull need as
    many units as the plan has items.

    Third-party code is a class: [BlockCodec] (serialization and digests),
    [SummaryCodec], [ConfigCodec], [DataHash], [TextCodecs], [UrlCrate], [UrlParts],
    [TextBytes], [DiGraph] (the graph library), [ArrowCrate], [Engines].  What is relied on is a second
    class of laws ([CodecLaws], [LawfulTextCodecs], [LawfulDiGraph], ...), and
    instances show that the laws can be met.  Authorizers and, for the use cases,
    the outbox are parameters that may answer anything.

    ** What the theorems show

    - Appending: a successful append extends a valid chain by exactly the block
      given, it succeeds exactly when the rules hold, always returns, never loses
      a concurrent update, and a failed one changes nothing under the head.
      Every reachable state holds one valid chain.
    - Validation: the validators enforce exactly the declarative rules; hence in
      a whole chain offsets are contiguous, times and watermarks are monotone,
      sequence numbers count blocks, queries read the declared inputs, push and
      polling sources exclude each other and data has a schema.
    - Traversal: serving many visitors in one pass is equivalent to running each
      alone; searches find the newest match; iterations yield the interval.
    - Datasets: every commit, also a failed one, leaves a valid chain that
      names only stored objects; the summary kept up to date from increments is
      the summary of the whole chain; comparisons, increments and resets are exact.
    - Synchronization: an untrusted source cannot damage the destination; two
      stored datasets end up equal; history is not dropped without force.
    - Repositories: a snapshot becomes a dataset as a whole or not at all; the
      directories refine a list of accounts with their datasets, and lookups by
      name, in any case, and by identifier are exact.
    - Use cases: a dataset that others read is not deleted; batches are appended
      as a whole; what is announced keeps the dependency graph in step with the
      chains.
    - Transforms: every data slice of an input is read exactly once and in order;
      what is planned leads to valid blocks whenever the engine keeps its part;
      whatever the engine answers, datasets stay consistent.
    - Verification: it succeeds exactly when the chain is valid, the files are
      intact and the engine answers every query as recorded; the first damaged
      block is named; a replay reads what the query has read.
    - Pull and push: the plan is a topological order whose levels are independent,
      whatever the order of the hash map; a dataset is pulled only after what it
      reads; a single pull has one response; remote aliases refine sets and the
      other end of a new dataset is remembered.
    - Services: the dependency graph refines a relation on datasets, the access
      control service a map of properties and relations; owners follow messages.
    - Event sourcing, tasks and flows: saving and loading are inverse; the task
      queue holds exactly the waiting tasks; in every reachable state of the flow
      service its registries, time wheel, store and scheduler agree; due flows
      get tasks, polling continues, throttling is respected.
    - Messaging: the relay delivers in order and catches up.
    - Identity: parsers match the grammar and invert the printers.

    ** What is not modelled

    - Interleavings inside one [append]: the code compares and then sets the
      reference in two steps.  Hash collisions are excluded by hypotheses
      ([no_collision], [commit_fresh], [NoDup] of the hashes involved).
    - Databases, S3, IPFS, HTTP and the smart transfer protocol, GraphQL, FlightSQL
      and OData adapters, the command line: they consist of calls to services
      outside the repository.  The transaction around a use case is left out.
    - Ingestion, compaction, merge strategies and queries: they work on data files
      through DataFusion, and the engines run in containers.  What they commit
      goes through the modelled commits.
    - The single-tenant layout of the local repository; of the multi-tenant one,
      failures of directory reads and file systems that ignore case.
    - The registry of remote repositories, search and provenance, listeners other
      than those of synchronization and verification, logging.
    - Generated serialization code, which only maps fields; accounts, tokens and
      encryption, which rest on third-party cryptography. *)

From stdpp Require Export base list strings gmap.
From Stdlib Require Export ZArith Lia.

(** * Outcomes of fallible code

    A Rust function of type [Result<A, E>] that may also panic
    ([unwrap] on [None], [unreachable!], [unimplemented!]) returns [res E A].
    A panic unwinds past every caller of the code modelled here, so it is
    absorbing for the sequencing operator. *)

Inductive res (E A : Type) : Type :=
| Ok (a : A)
| Err (e : E)
| Panic.

Arguments Ok {E A} a.
Arguments Err {E A} e.
Arguments Panic {E A}.

Definition res_bind {E A B} (m : res E A) (k : A -> res E B) : res E B :=
  match m with
  | Ok a => k a
  | Err e => Err e
  | Panic => Panic
  end.

(** [Result::map_err]. *)
Definition map_err {E F A} (f : E -> F) (m : res E A) : res F A :=
  match m with
  | Ok a => Ok a
  | Err e => Err (f e)
  | Panic => Panic
  end.

(** An internal error; its boxed source and back trace are erased. *)
Inductive InternalError := mkInternalError.

(** [.int_err()] *)
Definition int_err {E A} (r : res E A) : res InternalError A := map_err (fun _ => mkInternalError) r.

(** [Result::map]. *)
Definition map_ok {E A B} (f : A -> B) (m : res E A) : res E B :=
  match m with
  | Ok a => Ok (f a)
  | Err e => Err e
  | Panic => Panic
  end.

Definition is_ok {E A} (m : res E A) : bool :=
  match m with Ok _ => true | _ => false end.

Definition panics {E A} (m : res E A) : bool :=
  match m with Panic => true | _ => false end.

(** [Option::unwrap]. *)
Definition unwrap {E A} (o : option A) : res E A :=
  match o with
  | Some a => Ok a
  | None => Panic
  end.

Declare Scope kamu_scope.
Delimit Scope kamu_scope with kamu.
Notation "'let!' x ':=' m 'in' k" := (res_bind m (fun x => k))
  (at level 10, x pattern, m at level 100, k at level 200) : kamu_scope.
Open Scope kamu_scope.

(** * Actions

    A method that changes shared state and may fail is an [action] on the state
    [W]: the state is kept also when it fails.  Actions are a monad, with the
    notation [x ← m; k]. *)

Definition action (W E A : Type) : Type := W -> res E A * W.

#[export] Instance action_ret {W E} : MRet (action W E) := fun A a w => (Ok a, w).

#[export] Instance action_bind {W E} : MBind (action W E) := fun A B k m w =>
  match m w with
  | (Ok a, w') => k a w'
  | (Err e, w') => (Err e, w')
  | (Panic, w') => (Panic, w')
  end.

Definition lift {W E A} (r : res E A) : action W E A := fun w => (r, w).
Definition gets {W E A} (f : W -> A) : action W E A := fun w => (Ok (f w), w).
Definition modify {W E} (f : W -> W) : action W E unit := fun w => (Ok tt, f w).
Definition panic {W E A} : action W E A := fun w => (Panic, w).

(** [for x in l { f(x)?; }] *)
Fixpoint for_each {W E A} (f : A -> action W E unit) (l : list A) : action W E unit :=
  match l with
  | [] => mret tt
  | x :: l' => f x ≫= fun _ => for_each f l'
  end.

(** What an action does, from a state in [P] to an outcome and a state in [Q]. *)
Definition triple {W E A} (P : W -> Prop) (m : action W E A) (Q : res E A -> W -> Prop) : Prop :=
  forall w, P w -> Q (m w).1 (m w).2.

(** [I] holds afterwards whatever the outcome. *)
Definition keeps {W E A} (I : W -> Prop) (m : action W E A) : Prop := triple I m (fun _ => I).

(** * Machine integers and time

    [u64] values are integers kept in [0, 2^64).  Release builds of the
    workspace do not enable overflow checks, so arithmetic wraps.  A
    [DateTime<Utc>] is compared only as an instant; it is kept as the number
    of nanoseconds since the epoch. *)

Abbreviation u64 := Z (only parsing).
Abbreviation i32 := Z (only parsing).
Abbreviation u8 := Z (only parsing).
Abbreviation DateTime := Z (only parsing).
Abbreviation PathBuf := string (only parsing).

Definition two64 : Z := 2 ^ 64.
Definition in_u64 (z : Z) : Prop := (0 <= z < two64)%Z.
Definition u64_add (a b : u64) : u64 := ((a + b) mod two64)%Z.
Definition u64_sub (a b : u64) : u64 := ((a - b) mod two64)%Z.

Definition i64_add (a b : Z) : Z := ((a + b + 2 ^ 63) mod two64 - 2 ^ 63)%Z.

(** [usize::try_from(i64).unwrap()] on a 64-bit target. *)
Definition usize_of_i64 {E} (a : Z) : res E nat :=
  if decide (a < 0)%Z then Panic else Ok (Z.to_nat a).

(** * Automation *)

Create HintDb kamu.

(** Splits the [match]es and [if]s on outcomes that block a hypothesis. *)
Ltac res_case :=
  repeat match goal with
  | H : res_bind ?m _ = _ |- _ => destruct m eqn:?; simpl in H; try discriminate H
  | H : context [match ?x with _ => _ end] |- _ =>
      lazymatch type of x with
      | res _ _ => destruct x eqn:?; try discriminate
      | sumbool _ _ => destruct x; try discriminate
      | bool => destruct x eqn:?; try discriminate
      end
  end; simplify_eq.

Ltac res_simp := repeat (progress (simpl in *; simplify_eq; try done)).

(** * Generic lemmas *)

Lemma res_bind_ok {E A B} (m : res E A) (k : A -> res E B) b :
  res_bind m k = Ok b <-> exists a, m = Ok a /\ k a = Ok b.
Proof.
  split.
  - destruct m; simpl; intros; simplify_eq; eauto.
  - intros (a & -> & H); done.
Qed.

Lemma res_bind_not_panic {E A B} (m : res E A) (k : A -> res E B) :
  m <> Panic -> (forall a, m = Ok a -> k a <> Panic) -> res_bind m k <> Panic.
Proof. destruct m; simpl; intros Hm Hk; auto. Qed.

Lemma map_err_ok {E F A} (f : E -> F) (m : res E A) a :
  map_err f m = Ok a <-> m = Ok a.
Proof. destruct m; simpl; split; intros; simplify_eq; done. Qed.

Lemma map_err_panic {E F A} (f : E -> F) (m : res E A) :
  map_err f m = Panic <-> m = Panic.
Proof. destruct m; simpl; split; intros; simplify_eq; done. Qed.

Lemma u64_sub_range a b : in_u64 (u64_sub a b).
Proof. apply Z.mod_pos_bound; done. Qed.

Lemma u64_add_range a b : in_u64 (u64_add a b).
Proof. apply Z.mod_pos_bound; done. Qed.

(** Decrementing an in-range positive number does not wrap. *)
Lemma u64_sub_small a b : in_u64 a -> (0 <= b <= a)%Z -> u64_sub a b = (a - b)%Z.
Proof. unfold in_u64, u64_sub; intros; apply Z.mod_small; lia. Qed.

Lemma u64_add_small a b :
  (0 <= a)%Z -> (0 <= b)%Z -> (a + b < two64)%Z -> u64_add a b = (a + b)%Z.
Proof. unfold u64_add; intros; apply Z.mod_small; lia. Qed.

#[export] Hint Resolve u64_sub_range u64_add_range : kamu.

(** First element of a list that a partial projection selects: Rust's
    [iter().find_map(f)]. *)
Fixpoint find_map {A B} (f : A -> option B) (l : list A) : option B :=
  match l with
  | [] => None
  | x :: l' => match f x with Some y => Some y | None => find_map f l' end
  end.

Lemma find_map_None {A B} (f : A -> option B) l :
  find_map f l = None <-> forall x, x ∈ l -> f x = None.
Proof.
  induction l as [|x l IH]; simpl.
  - split; [intros _ x Hx; by apply elem_of_nil in Hx | done].
  - destruct (f x) eqn:E.
    + split; [done|]. intros H. specialize (H x); rewrite E in H.
      exfalso. assert (Some b = None) by (apply H; left). done.
    + rewrite IH. split.
      * intros H y Hy. apply elem_of_cons in Hy as [->|Hy]; auto.
      * intros H y Hy. apply H. by right.
Qed.

Lemma find_map_app {A B} (f : A -> option B) l1 l2 :
  find_map f (l1 ++ l2) =
  match find_map f l1 with Some y => Some y | None => find_map f l2 end.
Proof. induction l1 as [|x l1 IH]; simpl; [done|]. by destruct (f x). Qed.

(** A successful search splits the list at the first selected element. *)
Lemma find_map_Some {A B} (f : A -> option B) l y :
  find_map f l = Some y ->
  exists l1 x l2, l = l1 ++ x :: l2 /\ f x = Some y /\ find_map f l1 = None.
Proof.
  induction l as [|x l IH]; simpl; [done|].
  destruct (f x) eqn:E; intros H; simplify_eq.
  - by exists [], x, l.
  - destruct (IH H) as (l1 & z & l2 & -> & Hz & Hl1).
    exists (x :: l1), z, l2. simpl. by rewrite E.
Qed.

(** The split at the first selected element is unique. *)
Lemma find_map_split_unique {A B} (f : A -> option B) l1 x l2 l1' x' l2' :
  l1 ++ x :: l2 = l1' ++ x' :: l2' ->
  find_map f l1 = None -> find_map f l1' = None -> f x <> None -> f x' <> None -> l1 = l1'.
Proof.
  revert l1'; induction l1 as [|y l1 IH]; intros [|y' l1'] Heq H1 H2 Hx Hx'; simplify_eq/=.
  - done.
  - by destruct (f y').
  - by destruct (f x').
  - f_equal. destruct (f y'); [done|]. by apply IH.
Qed.

(** * Reasoning about actions *)

Section Actions.
Context {W E : Type}.
Implicit Types (P I : W -> Prop).

Lemma triple_ret {A} P (a : A) (Q : res E A -> W -> Prop) :
  (forall w, P w -> Q (Ok a) w) -> triple P (mret a) Q.
Proof. intros H w. exact (H w). Qed.

Lemma triple_lift {A} P (r : res E A) (Q : res E A -> W -> Prop) :
  (forall w, P w -> Q r w) -> triple P (lift r) Q.
Proof. intros H w. exact (H w). Qed.

Lemma triple_gets {A} P (f : W -> A) (Q : res E A -> W -> Prop) :
  (forall w, P w -> Q (Ok (f w)) w) -> triple P (gets f) Q.
Proof. intros H w. exact (H w). Qed.

Lemma triple_modify P f (Q : res E unit -> W -> Prop) :
  (forall w, P w -> Q (Ok tt) (f w)) -> triple P (modify f) Q.
Proof. intros H w. exact (H w). Qed.

Lemma triple_panic {A} P (Q : res E A -> W -> Prop) :
  (forall w, P w -> Q Panic w) -> triple P panic Q.
Proof. intros H w. exact (H w). Qed.

Lemma triple_conseq {A} (P P' : W -> Prop) (m : action W E A) (Q Q' : res E A -> W -> Prop) :
  triple P' m Q' -> (forall w, P w -> P' w) -> (forall r w, Q' r w -> Q r w) -> triple P m Q.
Proof. intros Hm HP HQ w Hw. apply HQ, Hm, HP, Hw. Qed.

(** An action may be analysed at each state apart. *)
Lemma triple_split {A} P (m : action W E A) (Q : res E A -> W -> Prop) :
  (forall w, P w -> triple (eq w) m Q) -> triple P m Q.
Proof. intros H w Hw. by apply (H w). Qed.

Lemma triple_bind {A B} P (m : action W E A) (k : A -> action W E B)
    (R : A -> W -> Prop) (Q : res E B -> W -> Prop) :
  triple P m (fun r w => match r with Ok a => R a w | Err e => Q (Err e) w | Panic => Q Panic w end) ->
  (forall a, triple (R a) (k a) Q) -> triple P (m ≫= k) Q.
Proof.
  intros Hm Hk w Hw. specialize (Hm w Hw). unfold mbind, action_bind.
  destruct (m w) as [[a|e|] w']; simpl in *; [by apply Hk|done..].
Qed.

Lemma keeps_bind {A B} I (m : action W E A) (k : A -> action W E B) :
  keeps I m -> (forall a, keeps I (k a)) -> keeps I (m ≫= k).
Proof.
  intros Hm Hk. apply (triple_bind _ _ _ (fun _ => I)); [|done].
  eapply triple_conseq; [exact Hm|done|]. by intros [] ?.
Qed.

Lemma keeps_for_each {A} I (f : A -> action W E unit) l :
  (forall x, x ∈ l -> keeps I (f x)) -> keeps I (for_each f l).
Proof.
  induction l as [|x l IH]; intros H; simpl; [by apply (triple_ret I)|].
  apply keeps_bind; [apply H; by left|]. intros _. apply IH. intros y Hy. apply H. by right.
Qed.
End Actions.

#[export] Hint Resolve triple_ret triple_lift triple_gets triple_panic keeps_bind : kamu.

(** Runs an action that is known to succeed. *)
Lemma bind_ok {W E A B} (m : action W E A) (k : A -> action W E B) w a w' :
  m w = (Ok a, w') -> (m ≫= k) w = k a w'.
Proof. unfold mbind, action_bind. by intros ->. Qed.

Lemma bind_err {W E A B} (m : action W E A) (k : A -> action W E B) w e w' :
  m w = (Err e, w') -> (m ≫= k) w = (Err e, w').
Proof. unfold mbind, action_bind. by intros ->. Qed.

Lemma bind_panic {W E A B} (m : action W E A) (k : A -> action W E B) w w' :
  m w = (Panic, w') -> (m ≫= k) w = (Panic, w').
Proof. unfold mbind, action_bind. by intros ->. Qed.

(** A successful sequence is one of successful parts. *)
Lemma bind_ok_inv {W E A B} (m : action W E A) (k : A -> action W E B) w b w' :
  (m ≫= k) w = (Ok b, w') -> exists a w1, m w = (Ok a, w1) /\ k a w1 = (Ok b, w').
Proof.
  unfold mbind, action_bind. destruct (m w) as [[a| |] w1]; intros; simplify_eq. by exists a, w1.
Qed.

(** * Listings *)

(** [l] lists what satisfies [P]: in any order, each once. *)
Definition lists {A} (l : list A) (P : A -> Prop) : Prop := NoDup l /\ forall x, x ∈ l <-> P x.

Lemma lists_ext {A} (l : list A) P Q : (forall x, P x <-> Q x) -> lists l P -> lists l Q.
Proof. intros H [Hn Hl]. split; [done|]. intros x. by rewrite Hl. Qed.
