(* ===== verification/Multiformats.v ===== *)
(** Self-describing hashes and key identifiers: the [multiformats] crate
    (src/utils/multiformats/src) and the [did:odf] wrapper
    (src/domain/opendatafabric/src/formats/did_odf.rs).

    [unsigned_varint] is a third-party crate: its encoder and decoder are
    parameters, used under the documented law that decoding an encoded number
    followed by any bytes returns the number and those bytes. *)

From S2P Require Import Prelude.
From Stdlib Require Import Ascii.

(** * Multicodec *)

Inductive Multicodec :=
| Multicodec_CIDv1
| Multicodec_Sha2_256
| Multicodec_Sha3_256
| Multicodec_Ed25519Pub
| Multicodec_Arrow0_Sha3_256
| Multicodec_ODFMetadataBlock
| Multicodec_ODFDatasetSnapshot.

#[export] Instance Multicodec_eq_dec : EqDecision Multicodec.
Proof. solve_decision. Defined.

(** [value as u32] on the [repr(u32)] enum. *)
Definition Multicodec_as_u32 (c : Multicodec) : Z :=
  match c with
  | Multicodec_CIDv1 => 0x01
  | Multicodec_Sha2_256 => 0x12
  | Multicodec_Sha3_256 => 0x16
  | Multicodec_Ed25519Pub => 0xed
  | Multicodec_Arrow0_Sha3_256 => 0x00300016
  | Multicodec_ODFMetadataBlock => 0x00400000
  | Multicodec_ODFDatasetSnapshot => 0x00400001
  end.

(** [TryFrom<u32> for Multicodec]. *)
Definition Multicodec_try_from_u32 (value : Z) : res Z Multicodec :=
  if decide (value = 0x01)%Z then Ok Multicodec_CIDv1
  else if decide (value = 0x12)%Z then Ok Multicodec_Sha2_256
  else if decide (value = 0x16)%Z then Ok Multicodec_Sha3_256
  else if decide (value = 0xed)%Z then Ok Multicodec_Ed25519Pub
  else if decide (value = 0x00300016)%Z then Ok Multicodec_Arrow0_Sha3_256
  else if decide (value = 0x00400000)%Z then Ok Multicodec_ODFMetadataBlock
  else if decide (value = 0x00400001)%Z then Ok Multicodec_ODFDatasetSnapshot
  else Err value.

(** [FromStr for Multicodec]. *)
Definition Multicodec_from_str (s : string) : res string Multicodec :=
  if decide (s = "cidv1") then Ok Multicodec_CIDv1
  else if decide (s = "sha2-256") then Ok Multicodec_Sha2_256
  else if decide (s = "sha3-256") then Ok Multicodec_Sha3_256
  else if decide (s = "ed25519-pub") then Ok Multicodec_Ed25519Pub
  else if decide (s = "arrow0-sha3-256") then Ok Multicodec_Arrow0_Sha3_256
  else if decide (s = "odf-metadata-block") then Ok Multicodec_ODFMetadataBlock
  else if decide (s = "odf-dataset-snapshot") then Ok Multicodec_ODFDatasetSnapshot
  else Err s.

(** [Display for Multicodec]. *)
Definition Multicodec_to_string (c : Multicodec) : string :=
  match c with
  | Multicodec_CIDv1 => "cidv1"
  | Multicodec_Sha2_256 => "sha2-256"
  | Multicodec_Sha3_256 => "sha3-256"
  | Multicodec_Ed25519Pub => "ed25519-pub"
  | Multicodec_Arrow0_Sha3_256 => "arrow0-sha3-256"
  | Multicodec_ODFMetadataBlock => "odf-metadata-block"
  | Multicodec_ODFDatasetSnapshot => "odf-dataset-snapshot"
  end.

#[export] Instance Multicodec_countable : Countable Multicodec.
Proof.
  refine (inj_countable' Multicodec_to_string
    (fun s => match Multicodec_from_str s with Ok c => c | _ => Multicodec_CIDv1 end) _).
  by intros [].
Defined.

(** * Errors *)

Inductive MultibaseError :=
| MultibaseError_UnsupportedEncoding (code : ascii)
| MultibaseError_BufferTooSmall
| MultibaseError_Malformed.

Inductive DidKeyError := DidKeyError_UnsupportedKeyType (code : Multicodec).

(** The errors a [BoxedError] holds here. *)
Inductive BoxedError :=
| BoxedError_Varint
| BoxedError_UnsupportedMulticodec (code : Z)
| BoxedError_BufferTooSmall
| BoxedError_DidKey (e : DidKeyError)
| BoxedError_Multibase (e : MultibaseError)
| BoxedError_Deserialize (source : option BoxedError)
| BoxedError_Parse (value : list ascii) (source : option BoxedError).

Record ParseError := mkParseError { pe_value : list ascii; pe_source : option BoxedError }.
Record DeserializeError := mkDeserializeError { de_source : option BoxedError }.

Definition ParseError_new (value : list ascii) : ParseError := mkParseError value None.
Definition ParseError_new_from (value : list ascii) (source : BoxedError) : ParseError :=
  mkParseError value (Some source).
Definition DeserializeError_new : DeserializeError := mkDeserializeError None.
Definition DeserializeError_new_from (source : BoxedError) : DeserializeError :=
  mkDeserializeError (Some source).

Definition boxed_parse (e : ParseError) : BoxedError := BoxedError_Parse (pe_value e) (pe_source e).
Definition boxed_deserialize (e : DeserializeError) : BoxedError := BoxedError_Deserialize (de_source e).

(** * Multihash *)

Definition MAX_MULTIHASH_DIGEST_LEN : nat := 32.

(** The digest buffer has [MAX_MULTIHASH_DIGEST_LEN] bytes, of which the first
    [mh_len] are the digest. *)
Record Multihash := mkMultihash {
  mh_buf : list u8;
  mh_len : nat;
  mh_code : Multicodec
}.

#[export] Instance Multihash_eq_dec : EqDecision Multihash.
Proof. solve_decision. Defined.

#[export] Instance Multihash_countable : Countable Multihash.
Proof.
  refine (inj_countable' (fun h => (mh_buf h, mh_len h, mh_code h))
                         (fun '(b, n, c) => mkMultihash b n c) _).
  by intros [].
Defined.

(** [Multihash::new]: fails with [BufferTooSmall] on a long digest. *)
Definition Multihash_new (code : Multicodec) (digest : list u8) : res unit Multihash :=
  if decide (MAX_MULTIHASH_DIGEST_LEN < length digest) then Err tt
  else Ok (mkMultihash (digest ++ replicate (MAX_MULTIHASH_DIGEST_LEN - length digest) 0%Z)
                       (length digest) code).

(** [Multihash::digest]. *)
Definition Multihash_digest (h : Multihash) : list u8 := take (mh_len h) (mh_buf h).

(** [Multihash::from_digest]: the digest function's output must fit. *)
Definition Multihash_from_digest {D : Type} (digest : D -> list u8)
    (code : Multicodec) (data : D) : res unit Multihash :=
  match Multihash_new code (digest data) with
  | Ok h => Ok h
  | _ => Panic
  end.

(** The type invariant every constructor of [Multihash] establishes. *)
Definition Multihash_wf (h : Multihash) : Prop :=
  length (mh_buf h) = MAX_MULTIHASH_DIGEST_LEN /\
  mh_len h <= MAX_MULTIHASH_DIGEST_LEN /\
  mh_buf h = Multihash_digest h ++ replicate (MAX_MULTIHASH_DIGEST_LEN - mh_len h) 0%Z.

Section MultihashBytes.
Context (uvar_encode_u32 : Z -> list u8)
        (uvar_decode_u32 : list u8 -> option (Z * list u8))
        (uvar_decode_usize : list u8 -> option (Z * list u8)).

(** [MultihashBytes::new(h).as_slice()]: code, length, digest. *)
Definition Multihash_as_bytes (h : Multihash) : list u8 :=
  uvar_encode_u32 (Multicodec_as_u32 (mh_code h)) ++
  uvar_encode_u32 (Z.of_nat (mh_len h)) ++
  Multihash_digest h.

(** [Multihash::from_bytes]. *)
Definition Multihash_from_bytes (bytes : list u8) : res DeserializeError Multihash :=
  match uvar_decode_u32 bytes with
  | None => Err (DeserializeError_new_from BoxedError_Varint)
  | Some (code, rest) =>
      match Multicodec_try_from_u32 code with
      | Ok code =>
          match uvar_decode_usize rest with
          | None => Err (DeserializeError_new_from BoxedError_Varint)
          | Some (len, rest) =>
              if decide (len = Z.of_nat (length rest))
              then map_err (fun _ => DeserializeError_new_from BoxedError_BufferTooSmall)
                     (Multihash_new code rest)
              else Err DeserializeError_new
          end
      | Err code => Err (DeserializeError_new_from (BoxedError_UnsupportedMulticodec code))
      | Panic => Panic
      end
  end.

Hypothesis uvar_u32_law : forall z rest,
  (0 <= z < 2 ^ 32)%Z -> uvar_decode_u32 (uvar_encode_u32 z ++ rest) = Some (z, rest).
Hypothesis uvar_usize_law : forall z rest,
  (0 <= z < 2 ^ 32)%Z -> uvar_decode_usize (uvar_encode_u32 z ++ rest) = Some (z, rest).

Lemma Multicodec_u32_range c : (0 <= Multicodec_as_u32 c < 2 ^ 32)%Z.
Proof. destruct c; simpl; lia. Qed.

Lemma Multicodec_u32_inverse c : Multicodec_try_from_u32 (Multicodec_as_u32 c) = Ok c.
Proof. by destruct c. Qed.

Lemma Multihash_new_digest h :
  Multihash_wf h -> Multihash_new (mh_code h) (Multihash_digest h) = Ok h.
Proof.
  intros (Hbuf & Hlen & Hpad).
  assert (Hd : length (Multihash_digest h) = mh_len h)
    by (unfold Multihash_digest; rewrite length_take; lia).
  unfold Multihash_new. rewrite Hd. case_decide; [lia|].
  rewrite <- Hpad. by destruct h.
Qed.

Lemma Multihash_bytes_inverse h :
  Multihash_wf h -> Multihash_from_bytes (Multihash_as_bytes h) = Ok h.
Proof.
  intros Hwf. pose proof Hwf as (Hbuf & Hlen & _).
  unfold Multihash_from_bytes, Multihash_as_bytes.
  rewrite uvar_u32_law by apply Multicodec_u32_range.
  rewrite Multicodec_u32_inverse.
  rewrite uvar_usize_law
    by (unfold MAX_MULTIHASH_DIGEST_LEN in Hlen; split; [lia|];
        apply Z.le_lt_trans with 32%Z; lia).
  rewrite decide_True; [by rewrite Multihash_new_digest|].
  unfold Multihash_digest. rewrite length_take. lia.
Qed.
End MultihashBytes.

Lemma Multihash_new_wf code digest h :
  Multihash_new code digest = Ok h -> Multihash_wf h.
Proof.
  unfold Multihash_new. case_decide; [done|]. intros; simplify_eq.
  unfold Multihash_wf, Multihash_digest; simpl.
  rewrite take_app_length, length_app, length_replicate. repeat split; lia.
Qed.

(** * DIDs *)

(** [DidKey]: an Ed25519 public key ([MAX_DID_KEY_LEN] = 32 bytes). *)
Record DidKey := mkDidKey { dk_public_key : list u8 }.

Record DidOdf := mkDidOdf { do_did : DidKey }.

#[export] Instance DidKey_eq_dec : EqDecision DidKey.
Proof. solve_decision. Defined.
#[export] Instance DidOdf_eq_dec : EqDecision DidOdf.
Proof. solve_decision. Defined.
