(* ===== verification/Grammar.v ===== *)
(** The grammar of names and references
    (src/domain/opendatafabric/src/identity/grammar.rs): the matchers, the
    languages their comments describe, and that they agree.

    A [&str] is the list of its bytes.  All slices of the source end after a
    byte that was compared with an ASCII character, so they never split a
    multi-byte character and do not panic. *)

From S2P Require Import Prelude.
From Stdlib Require Import Ascii.

Local Open Scope char_scope.

Abbreviation str := (list ascii).

(** What a matcher took, and the rest. *)
Abbreviation matcher := (str -> option (str * str)).

(** * Combinators *)

Definition match_non_eof : matcher := fun s =>
  match s with [] => None | _ => Some ([], s) end.

(** The loop of [match_zero_or_many]; [None] is a loop that does not end. *)
Fixpoint zero_or_many_loop (fuel : nat) (m : matcher) (len : nat) (tail : str) : option nat :=
  match fuel with
  | 0 => None
  | S fuel' =>
      match m tail with
      | Some (head, ntail) => zero_or_many_loop fuel' m (len + length head) ntail
      | None => Some len
      end
  end.

Definition match_zero_or_many (m : matcher) : matcher := fun s =>
  len ← zero_or_many_loop (S (length s)) m 0 s;
  Some (take len s, drop len s).

Definition match_one_or_many (m : matcher) : matcher := fun s =>
  '(h, t) ← m s;
  '(hh, tt') ← match_zero_or_many m t;
  Some (take (length h + length hh) s, tt').

Definition match_alt (matcher1 matcher2 : matcher) : matcher := fun s =>
  match matcher1 s with Some r => Some r | None => matcher2 s end.

Definition match_opt (m : matcher) : matcher := fun s =>
  match m s with Some r => Some r | None => Some ([], s) end.

Definition match_one_of_chars (chars : list ascii) : matcher := fun s =>
  match s with
  | c :: _ => if decide (c ∈ chars) then Some (take 1 s, drop 1 s) else None
  | [] => None
  end.

Definition match_char (c : ascii) : matcher := fun s =>
  match s with
  | b :: _ => if decide (b = c) then Some (take 1 s, drop 1 s) else None
  | [] => None
  end.

(** [str::strip_prefix] *)
Fixpoint strip_prefix (prefix s : str) : option str :=
  match prefix, s with
  | [], _ => Some s
  | p :: prefix', c :: s' => if decide (p = c) then strip_prefix prefix' s' else None
  | _ :: _, [] => None
  end.

Definition match_str (prefix : str) : matcher := fun s =>
  rest ← strip_prefix prefix s;
  Some (take (length prefix) s, rest).

(** [bytes().take_while(pred).count()] *)
Fixpoint count_while (pred : ascii -> bool) (s : str) : nat :=
  match s with
  | c :: s' => if pred c then S (count_while pred s') else 0
  | [] => 0
  end.

Definition match_predicate (pred : ascii -> bool) : matcher := fun s =>
  let matched := count_while pred s in
  if decide (matched = 0) then None else Some (take matched s, drop matched s).

Definition in_range (lo hi c : ascii) : bool :=
  (N_of_ascii lo <=? N_of_ascii c)%N && (N_of_ascii c <=? N_of_ascii hi)%N.

(** [u8::is_ascii_alphanumeric] *)
Definition is_ascii_alphanumeric (c : ascii) : bool :=
  in_range "a" "z" c || in_range "A" "Z" c || in_range "0" "9" c.

Definition match_alphanums : matcher := match_predicate is_ascii_alphanumeric.

Definition is_multibase (c : ascii) : bool :=
  is_ascii_alphanumeric c || bool_decide (c ∈ ["+"; "/"; "="]).

Definition match_multibase : matcher := match_predicate is_multibase.

(** A separator and an item, as taken by the loops below. *)
Definition match_piece (sep : ascii) (item : matcher) : matcher := fun s =>
  '(_, t) ← match_char sep s;
  '(h, tt') ← item t;
  Some (take (S (length h)) s, tt').

(** The common shape of [match_scheme], [match_subdomain] and [match_hostname]:
    an item, then items that follow a separator. *)
Definition match_separated (sep : ascii) (item : matcher) : matcher := fun s =>
  '(h, t) ← item s;
  '(hh, tt') ← match_zero_or_many (match_piece sep item) t;
  Some (take (length h + length hh) s, tt').

Definition match_scheme : matcher := match_separated "+" (match_predicate is_ascii_alphanumeric).

Definition match_url : matcher := fun s =>
  '(scheme, t) ← match_scheme s;
  _ ← match_str [":"; "/"; "/"] t;
  Some (scheme, s).

(** * Names *)

Definition match_subdomain : matcher := match_separated "-" match_alphanums.

Definition match_hostname : matcher := match_separated "." match_subdomain.

Definition match_separator : matcher := match_one_of_chars ["."; "-"].

Definition match_hostname_pattern_start_element : matcher := fun s =>
  '(h1, t1) ← match_hostname s;
  '(h2, t2) ← match_opt match_separator t1;
  Some (take (length h1 + length h2) s, t2).

(** The first alternative of a middle element. *)
Definition match_middle_host : matcher := fun s =>
  '(h1, t1) ← match_opt match_separator s;
  '(h2, t2) ← match_hostname t1;
  '(h3, t3) ← match_opt match_separator t2;
  Some (take (length h1 + length h2 + length h3) s, t3).

Definition match_hostname_pattern_middle_element : matcher := fun s =>
  '(h1, t1) ← match_alt match_middle_host match_separator s;
  '(h2, t2) ← match_non_eof t1;
  Some (take (length h1 + length h2) s, t2).

Definition match_hostname_pattern_end_element : matcher := fun s =>
  '(h1, t1) ← match_opt match_separator s;
  '(h2, t2) ← match_hostname t1;
  Some (take (length h1 + length h2) s, t2).

Definition match_wildcards : matcher := match_one_or_many (match_char "%").

(** A run of wildcards and a middle element. *)
Definition match_wild_middle : matcher := fun s =>
  '(h1, t1) ← match_wildcards s;
  '(h2, t2) ← match_hostname_pattern_middle_element t1;
  Some (take (length h1 + length h2) s, t2).

Definition match_hostname_pattern : matcher := fun s =>
  '(h1, t1) ← match_opt match_hostname_pattern_start_element s;
  '(h2, t2) ← match_zero_or_many match_wild_middle t1;
  '(h3, t3) ← match_wildcards t2;
  '(h4, t4) ← match_opt match_hostname_pattern_end_element t3;
  Some (take (length h1 + length h2 + length h3 + length h4) s, t4).

Definition match_dataset_id : matcher := fun s =>
  '(h, t) ← match_str ["d"; "i"; "d"; ":"; "o"; "d"; "f"; ":"] s;
  '(hh, tt') ← match_multibase t;
  Some (take (length h + length hh) s, tt').

Definition match_dataset_name : matcher := match_hostname.

Definition match_dataset_name_pattern : matcher := match_alt match_hostname_pattern match_hostname.

Definition match_account_name : matcher := match_hostname.

Definition match_repo_name : matcher := match_hostname.

(** * References *)

(** [str::split_once] *)
Fixpoint split_once (c : ascii) (s : str) : option (str * str) :=
  match s with
  | [] => None
  | b :: s' =>
      if decide (b = c) then Some ([], s')
      else '(x, y) ← split_once c s'; Some (b :: x, y)
  end.

Definition match_remote_dataset_id (s : str) : option (option str * str * str) :=
  match split_once "/" s with
  | None => '(id, tail) ← match_dataset_id s; Some (None, id, tail)
  | Some (head, tail) =>
      match match_repo_name head with
      | Some (repo, []) => '(id, tail) ← match_dataset_id tail; Some (Some repo, id, tail)
      | _ => None
      end
  end.

Definition match_dataset_alias (s : str) : option (option str * str * str) :=
  match split_once "/" s with
  | None => '(ds, tail) ← match_dataset_name s; Some (None, ds, tail)
  | Some (acc, ds) =>
      match match_account_name acc with
      | Some (acc, []) => '(ds, tail) ← match_dataset_name ds; Some (Some acc, ds, tail)
      | _ => None
      end
  end.

Definition match_dataset_alias_remote (s : str) : option (str * option str * str * str) :=
  match split_once "/" s with
  | None => None
  | Some (repo, rest) =>
      match match_repo_name repo with
      | Some (repo, []) =>
          match split_once "/" rest with
          | Some (acc, rest) =>
              match match_account_name acc with
              | Some (acc, []) =>
                  '(ds, tail) ← match_dataset_name rest; Some (repo, Some acc, ds, tail)
              | _ => None
              end
          | None => '(ds, tail) ← match_dataset_name rest; Some (repo, None, ds, tail)
          end
      | _ => None
      end
  end.

(** * Languages *)

Abbreviation lang := (str -> Prop).

Definition cat (L1 L2 : lang) : lang := fun s => exists x y, s = x ++ y /\ L1 x /\ L2 y.
Definition opt (L : lang) : lang := fun s => s = [] \/ L s.
Definition either (L1 L2 : lang) : lang := fun s => L1 s \/ L2 s.

Inductive many (L : lang) : lang :=
| many_nil : many L []
| many_cons x y : L x -> many L y -> many L (x ++ y).

Inductive separated (sep : ascii) (L : lang) : lang :=
| separated_one x : L x -> separated sep L x
| separated_more x y : L x -> separated sep L y -> separated sep L (x ++ sep :: y).

Definition all_of (pred : ascii -> bool) : lang := fun s => s <> [] /\ Forall (fun c => pred c = true) s.

Definition alphanums : lang := all_of is_ascii_alphanumeric.

(** [Subdomain = [a-zA-Z0-9]+ ("-" [a-zA-Z0-9]+)*] *)
Definition subdomain : lang := separated "-" alphanums.

(** [Hostname = Subdomain ("." Subdomain)*] *)
Definition hostname : lang := separated "." subdomain.

Definition separator : lang := fun s => s = ["."] \/ s = ["-"].

Definition start_element : lang := cat hostname (opt separator).
Definition middle_element : lang :=
  either (cat (opt separator) (cat hostname (opt separator))) separator.
Definition end_element : lang := cat (opt separator) hostname.
Definition wildcards : lang := cat (eq ["%"]) (many (eq ["%"])).

(** [Pattern = StartElement? ("%"+ MiddleElement)* "%"+ EndElement?] *)
Definition hostname_pattern : lang :=
  cat (opt start_element) (cat (many (cat wildcards middle_element)) (cat wildcards (opt end_element))).

(** * Soundness *)

(** Whatever [m] takes is a prefix in [L]. *)
Definition recognizes (m : matcher) (L : lang) : Prop :=
  forall s h t, m s = Some (h, t) -> s = h ++ t /\ L h.

Lemma take_two {A} (x y z : list A) : take (length x + length y) (x ++ y ++ z) = x ++ y.
Proof. by rewrite app_assoc, <- length_app, take_app_length. Qed.

Lemma take_three {A} (x y z t : list A) :
  take (length x + length y + length z) (x ++ y ++ z ++ t) = x ++ y ++ z.
Proof. rewrite !app_assoc, <- !length_app, take_app_length. by rewrite <- app_assoc. Qed.

Ltac split_match :=
  repeat match goal with
  | H : mbind _ _ = Some _ |- _ => apply bind_Some in H as (? & ? & ?)
  | p : _ * _ |- _ => destruct p; simpl in *
  end; simplify_eq/=.

Lemma zero_or_many_loop_sound m L fuel len tail n :
  recognizes m L -> zero_or_many_loop fuel m len tail = Some n ->
  exists x rest, tail = x ++ rest /\ many L x /\ n = len + length x /\ m rest = None.
Proof.
  intros Hm. revert len tail. induction fuel as [|fuel IH]; intros len tail; [done|]. simpl.
  destruct (m tail) as [[h t]|] eqn:Ht.
  - intros Hl. apply Hm in Ht as [-> Hh]. apply IH in Hl as (x & rest & -> & Hx & -> & Hr).
    exists (h ++ x), rest. rewrite length_app. split_and!; [by rewrite app_assoc|by constructor|lia|done].
  - intros [= <-]. exists [], tail. split_and!; [done|constructor|simpl; lia|done].
Qed.

Lemma zero_or_many_recognizes m L :
  recognizes m L -> recognizes (match_zero_or_many m) (many L).
Proof.
  intros Hm s h t Hs. unfold match_zero_or_many in Hs. apply bind_Some in Hs as (len & Hl & [= <- <-]).
  apply (zero_or_many_loop_sound _ _ _ _ _ _ Hm) in Hl as (x & rest & -> & Hx & -> & _). simpl.
  by rewrite take_app_length, drop_app_length.
Qed.

Lemma one_or_many_recognizes m L :
  recognizes m L -> recognizes (match_one_or_many m) (cat L (many L)).
Proof.
  intros Hm s h t Hs. unfold match_one_or_many in Hs. split_match.
  destruct (Hm _ _ _ H) as [-> Hx]. destruct (zero_or_many_recognizes m L Hm _ _ _ H0) as [-> Hy].
  rewrite take_two, app_assoc. split; [done|]. by eexists _, _.
Qed.

Lemma alt_recognizes m1 m2 L1 L2 :
  recognizes m1 L1 -> recognizes m2 L2 -> recognizes (match_alt m1 m2) (either L1 L2).
Proof.
  intros H1 H2 s h t. unfold match_alt. destruct (m1 s) as [[h1 t1]|] eqn:Hs.
  - intros [= <- <-]. apply H1 in Hs as [-> ?]. by split; [|left].
  - intros Hs2. apply H2 in Hs2 as [-> ?]. by split; [|right].
Qed.

Lemma opt_recognizes m L : recognizes m L -> recognizes (match_opt m) (opt L).
Proof.
  intros Hm s h t. unfold match_opt. destruct (m s) as [[h1 t1]|] eqn:Hs.
  - intros [= <- <-]. apply Hm in Hs as [-> ?]. by split; [|right].
  - intros [= <- <-]. by split; [|left].
Qed.

Lemma match_char_cons c s : match_char c (c :: s) = Some ([c], s).
Proof. simpl. by rewrite decide_True by done. Qed.

Lemma char_recognizes c : recognizes (match_char c) (eq [c]).
Proof. intros [|b s] h t; simpl; [done|]. case_decide; [|done]. by intros [= <- <-]; subst. Qed.

Lemma separator_recognizes : recognizes match_separator separator.
Proof.
  intros [|b s] h t; unfold match_separator; simpl; [done|]. case_decide as Hb; [|done].
  intros [= <- <-]. split; [done|]. set_unfold in Hb. unfold separator.
  destruct Hb as [->|[->|[]]]; auto.
Qed.

Lemma count_while_split pred s :
  exists x t, s = x ++ t /\ count_while pred s = length x /\ Forall (fun c => pred c = true) x /\
    match t with c :: _ => pred c = false | [] => True end.
Proof.
  induction s as [|c s IH]; simpl; [by exists [], []|]. destruct (pred c) eqn:Hc.
  - destruct IH as (x & t & -> & -> & Hx & Ht). exists (c :: x), t. by repeat constructor.
  - exists [], (c :: s). by repeat constructor.
Qed.

Lemma predicate_recognizes pred : recognizes (match_predicate pred) (all_of pred).
Proof.
  intros s h t. unfold match_predicate. destruct (count_while_split pred s) as (x & u & -> & -> & Hx & _).
  case_decide as Hl; [done|]. rewrite take_app_length, drop_app_length. intros [= <- <-].
  split; [done|]. split; [by intros ->|done].
Qed.

(** An item, and the pieces that follow it. *)
Lemma separated_pieces sep L x y :
  L x -> many (cat (eq [sep]) L) y -> separated sep L (x ++ y).
Proof.
  intros Hx Hy. revert x Hx. induction Hy as [|p y (u & z & -> & <- & Hz) _ IH]; intros x Hx.
  { rewrite app_nil_r. by apply separated_one. }
  simpl. apply separated_more; [done|]. by apply IH.
Qed.

Lemma separated_inv sep L s :
  separated sep L s -> exists x y, s = x ++ y /\ L x /\ many (cat (eq [sep]) L) y.
Proof.
  intros Hs. induction Hs as [x Hx|x y Hx _ (x' & y' & -> & Hx' & Hy')].
  { exists x, []. rewrite app_nil_r. by repeat constructor. }
  exists x, (sep :: x' ++ y'). split_and!; [done|done|].
  change (sep :: x' ++ y') with (([sep] ++ x') ++ y'). constructor; [|done]. by exists [sep], x'.
Qed.

Lemma piece_recognizes sep item L :
  recognizes item L -> recognizes (match_piece sep item) (cat (eq [sep]) L).
Proof.
  intros Hi s h t Hs. unfold match_piece in Hs. split_match.
  apply char_recognizes in H as [-> <-]. apply Hi in H0 as [-> Hx].
  simpl. rewrite take_app_length. split; [done|]. by exists [sep], l1.
Qed.

Lemma separated_recognizes sep item L :
  recognizes item L -> recognizes (match_separated sep item) (separated sep L).
Proof.
  intros Hi s h t Hs. unfold match_separated in Hs. split_match.
  apply Hi in H as [-> Hx].
  destruct (zero_or_many_recognizes _ _ (piece_recognizes sep item L Hi) _ _ _ H0) as [-> Hy].
  rewrite take_two, app_assoc. split; [done|]. by apply separated_pieces.
Qed.

Lemma hostname_recognizes : recognizes match_hostname hostname.
Proof. do 2 apply separated_recognizes. apply predicate_recognizes. Qed.

(** * Completeness *)

(** [m] takes a whole word of [L] when what follows obeys [F]. *)
Definition accepts (m : matcher) (L F : lang) : Prop :=
  forall x t, L x -> F t -> m (x ++ t) = Some (x, t).

Definition refuses (m : matcher) (F : lang) : Prop := forall t, F t -> m t = None.

Definition nonempty (L : lang) : Prop := forall x, L x -> x <> [].

Lemma predicate_accepts pred :
  accepts (match_predicate pred) (all_of pred)
    (fun t => match t with c :: _ => pred c = false | [] => True end).
Proof.
  intros x t [Hne Hx] Ht. unfold match_predicate.
  assert (Hc : count_while pred (x ++ t) = length x).
  { clear Hne. induction Hx as [|c x Hc _ IH]; simpl; [|by rewrite Hc, IH].
    destruct t as [|c t]; simpl; [done|]. by rewrite Ht. }
  rewrite Hc. case_decide as Hl; [by apply nil_length_inv in Hl|].
  by rewrite take_app_length, drop_app_length.
Qed.

Lemma predicate_refuses pred :
  refuses (match_predicate pred) (fun t => match t with c :: _ => pred c = false | [] => True end).
Proof. intros [|c t] Ht; [done|]. unfold match_predicate. simpl. by rewrite Ht. Qed.

Lemma zero_or_many_accepts m L F F' :
  nonempty L -> accepts m L F -> (forall x t, L x -> F (x ++ t)) ->
  refuses m F' -> (forall t, F' t -> F t) ->
  accepts (match_zero_or_many m) (many L) F'.
Proof.
  intros Hne Hm Hnext Hr Hend x t Hx Ht. unfold match_zero_or_many.
  assert (Hl : forall fuel len, length x < fuel ->
            zero_or_many_loop fuel m len (x ++ t) = Some (len + length x)).
  { induction Hx as [|x y Hx Hy IH]; intros [|fuel] len Hf; [lia| |lia|]; simpl.
    { rewrite Hr by done. f_equal. simpl. lia. }
    assert (HF : F (y ++ t)).
    { destruct Hy as [|p q Hp _]; [by apply Hend|]. rewrite <- app_assoc. by apply Hnext. }
    rewrite <- app_assoc, Hm by done.
    rewrite length_app in *. specialize (Hne x Hx). destruct x as [|c x]; [done|].
    rewrite IH by (simpl in *; lia). f_equal. lia. }
  rewrite Hl by (rewrite length_app; lia). simpl.
  by rewrite take_app_length, drop_app_length.
Qed.

Lemma piece_accepts sep item L F :
  accepts item L F -> accepts (match_piece sep item) (cat (eq [sep]) L) F.
Proof.
  intros Hi _ t (? & x & -> & <- & Hx) Ht. unfold match_piece.
  change (([sep] ++ x) ++ t) with (sep :: x ++ t). rewrite match_char_cons. simpl.
  rewrite Hi by done. simpl. by rewrite take_app_length.
Qed.

Lemma separated_accepts sep item L F :
  accepts item L F -> (forall u, F (sep :: u)) ->
  accepts (match_separated sep item) (separated sep L)
    (fun t => F t /\ forall u, t = sep :: u -> item u = None).
Proof.
  intros Hi Hsep s t Hs [Ht Hstop].
  apply separated_inv in Hs as (x & y & -> & Hx & Hy). unfold match_separated. rewrite <- app_assoc.
  assert (HF : F (y ++ t)).
  { destruct Hy as [|p q (u & z & -> & <- & Hz) _]; [done|]. apply Hsep. }
  rewrite Hi by done. simpl.
  pose proof (zero_or_many_accepts (match_piece sep item) (cat (eq [sep]) L) F
                (fun t => F t /\ forall u, t = sep :: u -> item u = None)) as Hmany.
  rewrite Hmany; [| | | | | |done|done]; simpl.
  - by rewrite take_two.
  - by intros _ (? & z & -> & <- & _).
  - by apply piece_accepts.
  - intros _ t' (? & z & -> & <- & _). apply Hsep.
  - intros [|c t'] [_ Hn]; [done|]. unfold match_piece.
    destruct (decide (c = sep)) as [->|]; [|simpl; by rewrite decide_False].
    rewrite match_char_cons. simpl. by rewrite Hn.
  - by intros ? [].
Qed.

(** What may follow a host name that is taken as a whole. *)
Definition after_subdomain : lang := fun t =>
  match t with c :: _ => is_ascii_alphanumeric c = false | [] => True end /\
  forall u, t = "-" :: u -> match_alphanums u = None.
Definition after_hostname : lang := fun t =>
  after_subdomain t /\ forall u, t = "." :: u -> match_subdomain u = None.

Lemma hostname_accepts : accepts match_hostname hostname after_hostname.
Proof.
  apply (separated_accepts "." match_subdomain subdomain after_subdomain); [|by split].
  apply (separated_accepts "-" match_alphanums alphanums (fun t =>
    match t with c :: _ => is_ascii_alphanumeric c = false | [] => True end)); [|done].
  apply predicate_accepts.
Qed.

Lemma after_hostname_nil : after_hostname [].
Proof. by repeat split. Qed.

(** A character that no host name has. *)
Definition outside (c : ascii) : Prop :=
  is_ascii_alphanumeric c = false /\ c <> "-" /\ c <> ".".

Lemma separated_refuses sep item c u : item (c :: u) = None -> match_separated sep item (c :: u) = None.
Proof. intros H. unfold match_separated. by rewrite H. Qed.

Lemma hostname_refuses c u : is_ascii_alphanumeric c = false -> match_hostname (c :: u) = None.
Proof.
  intros Hc. do 2 apply separated_refuses. by apply (predicate_refuses _ (c :: u)).
Qed.

Lemma hostname_refuses_nil : match_hostname [] = None.
Proof. done. Qed.

Lemma after_hostname_outside c u : outside c -> after_hostname (c :: u).
Proof. intros (Hc & Hd & Hp). by repeat split; simpl; [|intros ? [= ]|intros ? [= ]]. Qed.

Lemma after_hostname_separator x u :
  separator x -> match u with c :: _ => is_ascii_alphanumeric c = false | [] => True end ->
  after_hostname (x ++ u).
Proof.
  intros Hx Hu. destruct u as [|c u]; destruct Hx as [-> | ->]; repeat split; simpl; try done;
    intros u' [= <-]; try done; [apply separated_refuses|]; by apply (predicate_refuses _ (c :: u)).
Qed.

(** The parser of host names accepts exactly the host names. *)
Lemma match_hostname_complete s : match_hostname s = Some (s, []) <-> hostname s.
Proof.
  split; intros H.
  - apply hostname_recognizes in H as [_ H]. done.
  - rewrite <- (app_nil_r s) at 1. apply hostname_accepts; [done|apply after_hostname_nil].
Qed.

Lemma match_hostname_all s h : match_hostname s = Some (h, []) <-> h = s /\ hostname s.
Proof.
  split; [|intros [-> ?]; by apply match_hostname_complete].
  intros H. apply hostname_recognizes in H as [-> H]. by rewrite app_nil_r.
Qed.

(** * Patterns *)

Lemma start_recognizes : recognizes match_hostname_pattern_start_element start_element.
Proof.
  intros s h t Hs. unfold match_hostname_pattern_start_element in Hs. split_match.
  apply hostname_recognizes in H as [-> Hx].
  apply (opt_recognizes _ _ separator_recognizes) in H0 as [-> Hy].
  rewrite take_two, app_assoc. split; [done|]. by eexists _, _.
Qed.

Lemma end_recognizes : recognizes match_hostname_pattern_end_element end_element.
Proof.
  intros s h t Hs. unfold match_hostname_pattern_end_element in Hs. split_match.
  apply (opt_recognizes _ _ separator_recognizes) in H as [-> Hx].
  apply hostname_recognizes in H0 as [-> Hy].
  rewrite take_two, app_assoc. split; [done|]. by eexists _, _.
Qed.

Lemma middle_host_recognizes :
  recognizes match_middle_host (cat (opt separator) (cat hostname (opt separator))).
Proof.
  intros s h t Hs. unfold match_middle_host in Hs. split_match.
  apply (opt_recognizes _ _ separator_recognizes) in H as [-> Hx].
  apply hostname_recognizes in H0 as [-> Hy].
  apply (opt_recognizes _ _ separator_recognizes) in H1 as [-> Hz].
  rewrite take_three, !app_assoc. split; [done|]. rewrite <- app_assoc.
  eexists _, _. split_and!; [done|done|]. by eexists _, _.
Qed.

Lemma middle_recognizes : recognizes match_hostname_pattern_middle_element middle_element.
Proof.
  intros s h t Hs. unfold match_hostname_pattern_middle_element in Hs. split_match.
  apply (alt_recognizes _ _ _ _ middle_host_recognizes separator_recognizes) in H as [-> Hx].
  destruct l0; simplify_eq/=. rewrite Nat.add_0_r, take_app_length. by split.
Qed.

Lemma wildcards_recognizes : recognizes match_wildcards wildcards.
Proof. apply one_or_many_recognizes, char_recognizes. Qed.

Lemma wild_middle_recognizes : recognizes match_wild_middle (cat wildcards middle_element).
Proof.
  intros s h t Hs. unfold match_wild_middle in Hs. split_match.
  apply wildcards_recognizes in H as [-> Hx]. apply middle_recognizes in H0 as [-> Hy].
  rewrite take_two, app_assoc. split; [done|]. by eexists _, _.
Qed.

Lemma hostname_pattern_recognizes : recognizes match_hostname_pattern hostname_pattern.
Proof.
  intros s h t Hs. unfold match_hostname_pattern in Hs. split_match.
  apply (opt_recognizes _ _ start_recognizes) in H as [-> Ha].
  apply (zero_or_many_recognizes _ _ wild_middle_recognizes) in H0 as [-> Hb].
  apply wildcards_recognizes in H1 as [-> Hc].
  apply (opt_recognizes _ _ end_recognizes) in H2 as [-> Hd].
  match goal with |- context [take ?n (?a ++ ?b ++ ?c ++ ?d ++ ?e)] =>
    assert (take n (a ++ b ++ c ++ d ++ e) = a ++ b ++ c ++ d) as ->
      by (rewrite !app_assoc, <- !length_app, take_app_length; by rewrite <- !app_assoc) end.
  rewrite <- !app_assoc. split; [done|]. by repeat (eexists _, _; split_and!; [done|done|]).
Qed.

(** ** Completeness of patterns *)

Definition starts_wild : lang := fun t => exists u, t = "%" :: u.

Lemma outside_wild : outside "%".
Proof. done. Qed.

Lemma separator_cons x u : separator x -> match_separator (x ++ u) = Some (x, u).
Proof. by intros [-> | ->]. Qed.

Lemma separator_refuses c u : c <> "." -> c <> "-" -> match_separator (c :: u) = None.
Proof. intros. unfold match_separator. simpl. rewrite decide_False; [done|]. set_solver. Qed.

(** An optional separator before anything but a separator. *)
Lemma opt_separator_accepts x u :
  opt separator x -> match u with c :: _ => c <> "." /\ c <> "-" | [] => True end ->
  match_opt match_separator (x ++ u) = Some (x, u).
Proof.
  intros [->|Hx] Hu; unfold match_opt; [|by rewrite separator_cons]. simpl.
  destruct u as [|c u]; [done|]. destruct Hu. by rewrite separator_refuses.
Qed.

Lemma hostname_first x : hostname x -> exists c u, x = c :: u /\ is_ascii_alphanumeric c = true.
Proof.
  intros H. apply separated_inv in H as (a & b & -> & Ha & _).
  apply separated_inv in Ha as (d & e & -> & [Hne Hd] & _).
  destruct Hd as [|c d Hc _]; [done|]. by eexists _, _.
Qed.

Lemma alnum_not_separator c : is_ascii_alphanumeric c = true -> c <> "." /\ c <> "-".
Proof. by intros H; split; intros ->. Qed.

Lemma opt_separator_host x h u :
  opt separator x -> hostname h -> match_opt match_separator (x ++ h ++ u) = Some (x, h ++ u).
Proof.
  intros Hx Hh. apply opt_separator_accepts; [done|].
  destruct (hostname_first h Hh) as (c & v & -> & Hc). by apply alnum_not_separator.
Qed.

Lemma starts_wild_after x u : opt separator x -> starts_wild u -> after_hostname (x ++ u).
Proof.
  intros [->|Hx] [v ->]; [by apply after_hostname_outside|]. by apply after_hostname_separator.
Qed.

Lemma opt_separator_wild x u :
  opt separator x -> starts_wild u -> match_opt match_separator (x ++ u) = Some (x, u).
Proof. intros Hx [v ->]. by apply opt_separator_accepts. Qed.

Lemma start_accepts : accepts match_hostname_pattern_start_element start_element starts_wild.
Proof.
  intros _ t (h & x & -> & Hh & Hx) Ht. unfold match_hostname_pattern_start_element.
  rewrite <- app_assoc, hostname_accepts by (try done; by apply starts_wild_after). simpl.
  rewrite opt_separator_wild by done. simpl. by rewrite take_two.
Qed.

Lemma opt_start_accepts : accepts (match_opt match_hostname_pattern_start_element) (opt start_element) starts_wild.
Proof.
  intros x t [->|Hx] Ht; unfold match_opt; [|by rewrite start_accepts]. simpl. destruct Ht as [u ->].
  unfold match_hostname_pattern_start_element. by rewrite hostname_refuses.
Qed.

Lemma middle_accepts : accepts match_hostname_pattern_middle_element middle_element starts_wild.
Proof.
  intros x t Hx Ht. unfold match_hostname_pattern_middle_element.
  assert (match_alt match_middle_host match_separator (x ++ t) = Some (x, t)) as ->.
  { unfold match_alt. destruct Hx as [(a & r & -> & Ha & h & b & -> & Hh & Hb)|Hx].
    - unfold match_middle_host. rewrite <- !app_assoc, opt_separator_host by done. simpl.
      rewrite hostname_accepts by (try done; by apply starts_wild_after). simpl.
      rewrite opt_separator_wild by done. simpl. by rewrite take_three.
    - unfold match_middle_host, match_opt. rewrite separator_cons by done. simpl.
      destruct Ht as [u ->]. by rewrite hostname_refuses. }
  simpl. destruct Ht as [u ->]. simpl. by rewrite Nat.add_0_r, take_app_length.
Qed.

Lemma wildcards_accepts : accepts match_wildcards wildcards
  (fun t => match t with c :: _ => c <> "%" | [] => True end).
Proof.
  intros _ t (? & y & -> & <- & Hy) Ht. unfold match_wildcards, match_one_or_many.
  change ((["%"] ++ y) ++ t) with ("%" :: y ++ t). rewrite match_char_cons. simpl.
  rewrite (zero_or_many_accepts (match_char "%") (eq ["%"]) (fun _ => True)
             (fun t => match t with c :: _ => c <> "%" | [] => True end)); try done.
  - simpl. by rewrite take_app_length.
  - by intros ? <-.
  - intros ? u <- _. apply match_char_cons.
  - intros [|c u] Hu; [done|]. simpl. by rewrite decide_False.
Qed.

Lemma middle_first x : middle_element x -> exists c u, x = c :: u /\ c <> "%".
Proof.
  intros [(a & r & -> & Ha & h & b & -> & Hh & Hb)|[-> | ->]]; [|by eexists _, _..].
  destruct (hostname_first h Hh) as (c & v & -> & Hc).
  destruct Ha as [->|[-> | ->]]; simpl; eexists _, _; split; try done. by intros ->.
Qed.

Lemma wildcards_first x : wildcards x -> starts_wild x.
Proof. intros (? & y & -> & <- & _). by exists y. Qed.

Lemma wild_middle_accepts : accepts match_wild_middle (cat wildcards middle_element) starts_wild.
Proof.
  intros _ t (w & m & -> & Hw & Hm) Ht. unfold match_wild_middle. rewrite <- app_assoc.
  rewrite wildcards_accepts; [|done|by destruct (middle_first m Hm) as (c & u & -> & Hc)]. simpl.
  rewrite middle_accepts by done. simpl. by rewrite take_two.
Qed.

Lemma end_not_wild x : opt end_element x -> match x with c :: _ => c <> "%" | [] => True end.
Proof.
  intros [->|(a & h & -> & Ha & Hh)]; [done|].
  destruct (hostname_first h Hh) as (c & v & -> & Hc).
  destruct Ha as [->|[-> | ->]]; simpl; try done. by intros ->.
Qed.

Lemma end_accepts x : end_element x -> match_hostname_pattern_end_element x = Some (x, []).
Proof.
  intros (a & h & -> & Ha & Hh). unfold match_hostname_pattern_end_element.
  rewrite <- (app_nil_r h) at 1. rewrite opt_separator_host by done. simpl.
  rewrite hostname_accepts by (try done; apply after_hostname_nil). simpl.
  rewrite take_ge; [done|]. by rewrite length_app.
Qed.

(** After the last run of wildcards no middle element is found. *)
Lemma wild_middle_refuses : refuses match_wild_middle (cat wildcards (opt end_element)).
Proof.
  intros _ (w & e & -> & Hw & He). unfold match_wild_middle.
  rewrite wildcards_accepts; [|done|by apply end_not_wild]. simpl.
  unfold match_hostname_pattern_middle_element.
  destruct He as [->|(a & h & -> & Ha & Hh)]; [done|].
  unfold match_alt, match_middle_host.
  rewrite <- (app_nil_r h) at 1. rewrite opt_separator_host by done. simpl.
  by rewrite hostname_accepts by (try done; apply after_hostname_nil).
Qed.

Lemma match_hostname_pattern_complete s :
  match_hostname_pattern s = Some (s, []) <-> hostname_pattern s.
Proof.
  split; [intros H; by apply (hostname_pattern_recognizes _ _ _ H)|].
  intros (a & ? & -> & Ha & b & ? & -> & Hb & c & d & -> & Hc & Hd).
  unfold match_hostname_pattern.
  assert (Hw : starts_wild (c ++ d)) by (destruct (wildcards_first c Hc) as [u ->]; by eexists).
  assert (Hbw : starts_wild (b ++ c ++ d)).
  { destruct Hb as [|p q (w & m & -> & Hw' & _) _]; [done|].
    destruct (wildcards_first w Hw') as [u ->]. by eexists. }
  rewrite opt_start_accepts by done. simpl.
  rewrite (zero_or_many_accepts match_wild_middle (cat wildcards middle_element) starts_wild
             (cat wildcards (opt end_element))); [| | | | | |done|]; simpl.
  - rewrite wildcards_accepts by (try done; by apply end_not_wild). simpl.
    unfold match_opt. destruct Hd as [->|Hd].
    + simpl. rewrite take_ge; [done|]. rewrite !length_app. simpl. lia.
    + rewrite end_accepts by done. simpl. rewrite take_ge; [done|]. rewrite !length_app. lia.
  - intros _ (w & m & -> & Hw' & _). by destruct (wildcards_first w Hw') as [u ->].
  - apply wild_middle_accepts.
  - intros _ t (w & m & -> & Hw' & _). destruct (wildcards_first w Hw') as [u ->]. by eexists.
  - apply wild_middle_refuses.
  - intros _ (w & m & -> & Hw' & _). destruct (wildcards_first w Hw') as [u ->]. by eexists.
  - by eexists _, _.
Qed.

(** * Characters *)

Definition host_char (c : ascii) : Prop := ~ outside c.

Lemma many_chars (P : ascii -> Prop) L s : (forall x, L x -> Forall P x) -> many L s -> Forall P s.
Proof. intros HL Hs. induction Hs; [done|]. apply Forall_app; auto. Qed.

Lemma separated_chars (P : ascii -> Prop) sep L s :
  P sep -> (forall x, L x -> Forall P x) -> separated sep L s -> Forall P s.
Proof.
  intros Hsep HL Hs. induction Hs as [x Hx|x y Hx _ IH]; [by apply HL|].
  apply Forall_app. split; [by apply HL|]. by constructor.
Qed.

Lemma hostname_chars s : hostname s -> Forall host_char s.
Proof.
  apply separated_chars; [by intros (_ & _ & ?)|].
  intros x. apply separated_chars; [by intros (_ & ? & _)|].
  intros y [_ Hy]. eapply Forall_impl; [exact Hy|]. intros c Hc (Hf & _). simpl in Hc. by rewrite Hf in Hc.
Qed.

Lemma hostname_without c s : outside c -> hostname s -> c ∉ s.
Proof.
  intros Hc Hs Hin. apply hostname_chars in Hs. rewrite Forall_forall in Hs. by apply (Hs c Hin).
Qed.

Lemma hostname_nonempty s : hostname s -> s <> [].
Proof. intros Hs. by destruct (hostname_first s Hs) as (c & u & -> & _). Qed.

(** The parser of name patterns accepts exactly the patterns and the names. *)
Lemma pattern_has_wildcard s : hostname_pattern s -> "%" ∈ s.
Proof.
  intros (a & ? & -> & _ & b & ? & -> & _ & c & d & -> & Hc & _).
  destruct (wildcards_first c Hc) as [u ->]. set_solver.
Qed.

Lemma match_dataset_name_pattern_all s h :
  match_dataset_name_pattern s = Some (h, []) <-> h = s /\ (hostname_pattern s \/ hostname s).
Proof.
  split.
  - intros H. unfold match_dataset_name_pattern, match_alt in H.
    destruct (match_hostname_pattern s) as [[h' t]|] eqn:Hp; simplify_eq.
    + apply hostname_pattern_recognizes in Hp as [-> Hp]. rewrite app_nil_r. auto.
    + apply match_hostname_all in H as [-> H]. auto.
  - intros [-> [H|H]]; unfold match_dataset_name_pattern, match_alt.
    + apply match_hostname_pattern_complete in H. by rewrite H.
    + destruct (match_hostname_pattern s) as [[h t]|] eqn:Hp; [|by apply match_hostname_complete].
      exfalso. apply hostname_pattern_recognizes in Hp as [-> Hp].
      apply pattern_has_wildcard in Hp. apply (hostname_without "%") in H; [set_solver|done].
Qed.

(** * References *)

Lemma split_once_some c s x y : split_once c s = Some (x, y) <-> s = x ++ c :: y /\ c ∉ x.
Proof.
  revert x y. induction s as [|b s IH]; intros x y; simpl.
  { split; [done|]. intros [H _]. by destruct x. }
  case_decide as Hb; subst.
  - split; [intros [= <- <-]; split; [done|set_solver]|].
    intros [H Hx]. destruct x as [|b x]; simplify_eq/=; [done|set_solver].
  - split.
    + intros H. split_match. apply IH in H as [-> ?]. split; [done|set_solver].
    + intros [H Hx]. destruct x as [|b' x]; simplify_eq/=.
      assert (split_once c (x ++ c :: y) = Some (x, y)) as -> by (apply IH; split; [done|set_solver]).
      done.
Qed.

Lemma split_once_none c s : split_once c s = None <-> c ∉ s.
Proof.
  induction s as [|b s IH]; simpl; [split; [set_solver|done]|]. case_decide as Hb; subst.
  - split; [done|set_solver].
  - destruct (split_once c s) as [[x y]|]; simpl.
    + split; [done|]. intros H. exfalso. apply not_elem_of_cons in H as [_ H]. by apply IH in H.
    + split; [|done]. intros _. apply not_elem_of_cons. split; [done|]. by apply IH.
Qed.

Lemma outside_slash : outside "/".
Proof. done. Qed.
Lemma outside_colon : outside ":".
Proof. done. Qed.
#[export] Hint Resolve outside_slash outside_colon outside_wild : core.

Lemma split_host h s : hostname h -> split_once "/" (h ++ "/" :: s) = Some (h, s).
Proof. intros Hh. apply split_once_some. split; [done|]. by apply hostname_without. Qed.

Lemma split_host_none h : hostname h -> split_once "/" h = None.
Proof. intros Hh. apply split_once_none. by apply hostname_without. Qed.

(** The words of an alias. *)
Definition alias_words (acc : option str) (ds : str) : str :=
  match acc with Some acc => acc ++ "/" :: ds | None => ds end.

Lemma match_dataset_alias_all s acc ds :
  match_dataset_alias s = Some (acc, ds, []) <->
  s = alias_words acc ds /\ hostname ds /\ from_option hostname True acc.
Proof.
  unfold match_dataset_alias. split.
  - destruct (split_once "/" s) as [[a d]|] eqn:Hs.
    + apply split_once_some in Hs as [-> _].
      destruct (match_account_name a) as [[a' [|]]|] eqn:Ha; [|done..]. intros H. split_match.
      apply match_hostname_all in Ha as [-> Ha]. by apply match_hostname_all in H as [-> H].
    + intros H. split_match. by apply match_hostname_all in H as [-> H].
  - intros (-> & Hd & Ha). destruct acc as [a|]; simpl in *.
    + rewrite split_host by done. unfold match_account_name, match_dataset_name.
      apply match_hostname_complete in Ha as ->. by apply match_hostname_complete in Hd as ->.
    + rewrite split_host_none by done. unfold match_dataset_name.
      by apply match_hostname_complete in Hd as ->.
Qed.

Lemma match_dataset_alias_remote_all s repo acc ds :
  match_dataset_alias_remote s = Some (repo, acc, ds, []) <->
  s = repo ++ "/" :: alias_words acc ds /\ hostname repo /\ hostname ds /\ from_option hostname True acc.
Proof.
  unfold match_dataset_alias_remote. split.
  - destruct (split_once "/" s) as [[r d]|] eqn:Hs; [|done]. apply split_once_some in Hs as [-> _].
    destruct (match_repo_name r) as [[r' [|]]|] eqn:Hr; [|done..].
    apply match_hostname_all in Hr as [-> Hr].
    destruct (split_once "/" d) as [[a d']|] eqn:Hd.
    + apply split_once_some in Hd as [-> _].
      destruct (match_account_name a) as [[a' [|]]|] eqn:Ha; [|done..]. intros H. split_match.
      apply match_hostname_all in Ha as [-> Ha]. by apply match_hostname_all in H as [-> H].
    + intros H. split_match. by apply match_hostname_all in H as [-> H].
  - intros (-> & Hr & Hd & Ha). rewrite split_host by done.
    unfold match_repo_name, match_account_name, match_dataset_name.
    apply match_hostname_complete in Hr as ->. destruct acc as [a|]; simpl in *.
    + rewrite split_host by done.
      apply match_hostname_complete in Ha as ->. by apply match_hostname_complete in Hd as ->.
    + rewrite split_host_none by done. by apply match_hostname_complete in Hd as ->.
Qed.

Definition odf_prefix : str := ["d"; "i"; "d"; ":"; "o"; "d"; "f"; ":"].

Lemma strip_prefix_some p s t : strip_prefix p s = Some t <-> s = p ++ t.
Proof.
  revert s. induction p as [|c p IH]; intros s; simpl; [split; [by intros [= ->]|by intros ->]|].
  destruct s as [|b s]; [done|]. case_decide; subst.
  - rewrite IH. split; [by intros ->|by intros [= ->]].
  - split; [done|]. by intros [= ].
Qed.

Lemma match_dataset_id_all s h :
  match_dataset_id s = Some (h, []) <-> h = s /\ exists m, s = odf_prefix ++ m /\ all_of is_multibase m.
Proof.
  unfold match_dataset_id, match_str. split.
  - intros H. apply bind_Some in H as ([h1 t1] & Hs & H).
    apply bind_Some in Hs as (rest & Hs & [= <- <-]). apply bind_Some in H as ([hh tt'] & Hb & [= <- ->]).
    apply strip_prefix_some in Hs as ->.
    apply (predicate_recognizes is_multibase) in Hb as [-> Hm]. rewrite app_nil_r in *.
    rewrite take_ge by (rewrite length_take, length_app; simpl; lia). eauto.
  - intros (-> & m & -> & Hm).
    assert (strip_prefix odf_prefix (odf_prefix ++ m) = Some m) as Hs by (by apply strip_prefix_some).
    unfold odf_prefix in *. rewrite Hs. cbn [mbind option_bind].
    pose proof (predicate_accepts is_multibase m [] Hm I) as Hb. rewrite app_nil_r in Hb.
    unfold match_multibase. rewrite Hb. cbn [mbind option_bind].
    rewrite take_app_length, take_ge by (rewrite length_app; simpl; lia). done.
Qed.

Definition remote_id_words (repo : option str) (id : str) : str :=
  match repo with Some repo => repo ++ "/" :: id | None => id end.

(** Text without a slash is a dataset id with an optional repository exactly if its
    parts are. *)
Lemma match_remote_dataset_id_sound s repo id :
  match_remote_dataset_id s = Some (repo, id, []) ->
  s = remote_id_words repo id /\ from_option hostname True repo /\
  exists m, id = odf_prefix ++ m /\ all_of is_multibase m.
Proof.
  unfold match_remote_dataset_id. destruct (split_once "/" s) as [[r d]|] eqn:Hs.
  - apply split_once_some in Hs as [-> _].
    destruct (match_repo_name r) as [[r' [|]]|] eqn:Hr; [|done..]. intros H.
    apply bind_Some in H as ([i t] & H & [= <- <- ->]).
    apply match_hostname_all in Hr as [-> Hr]. apply match_dataset_id_all in H as [-> H]. done.
  - intros H. apply bind_Some in H as ([i t] & H & [= <- <- ->]).
    apply match_dataset_id_all in H as [-> H]. done.
Qed.

Lemma match_remote_dataset_id_complete repo m :
  from_option hostname True repo -> all_of is_multibase m -> (repo = None -> "/" ∉ m) ->
  match_remote_dataset_id (remote_id_words repo (odf_prefix ++ m)) = Some (repo, odf_prefix ++ m, []).
Proof.
  intros Hr Hm Hs. unfold match_remote_dataset_id.
  assert (Hi : match_dataset_id (odf_prefix ++ m) = Some (odf_prefix ++ m, []))
    by (apply match_dataset_id_all; eauto).
  destruct repo as [r|]; cbn [remote_id_words]; simpl in Hr.
  - rewrite split_host by done. unfold match_repo_name.
    apply match_hostname_complete in Hr as ->. by rewrite Hi.
  - assert (split_once "/" (odf_prefix ++ m) = None) as ->; [|by rewrite Hi].
    apply split_once_none. specialize (Hs eq_refl). unfold odf_prefix. set_solver.
Qed.

(** No name begins like a DID. *)
Lemma odf_not_hostname m x : hostname x -> ~ exists t, x ++ t = odf_prefix ++ m /\ 4 <= length x.
Proof.
  intros Hx (t & Ht & Hl). apply (hostname_without ":") in Hx; [|done]. apply Hx.
  assert (Hn : (x ++ t) !! 3 = Some ":") by (by rewrite Ht).
  rewrite lookup_app_l in Hn by lia. by apply list_elem_of_lookup_2 in Hn.
Qed.

(** [Scheme = [a-zA-Z0-9]+ ("+" [a-zA-Z0-9]+)*] *)
Definition url_scheme : lang := separated "+" alphanums.

Lemma match_url_all s :
  is_Some (match_url s) <-> exists scheme rest, s = scheme ++ [":"; "/"; "/"] ++ rest /\ url_scheme scheme.
Proof.
  unfold match_url, match_str. split.
  - intros [r H]. apply bind_Some in H as ([scheme t] & Hs & H).
    apply bind_Some in H as (x & Ht & _). apply bind_Some in Ht as (rest & Ht & _).
    apply strip_prefix_some in Ht as ->.
    apply (separated_recognizes _ _ _ (predicate_recognizes is_ascii_alphanumeric)) in Hs as [-> Hs].
    by eexists _, _.
  - intros (scheme & rest & -> & Hs).
    assert (match_scheme (scheme ++ [":"; "/"; "/"] ++ rest) = Some (scheme, [":"; "/"; "/"] ++ rest)) as ->.
    { apply (separated_accepts "+" _ alphanums (fun t =>
        match t with c :: _ => is_ascii_alphanumeric c = false | [] => True end)); [|done|done|done].
      apply predicate_accepts. }
    by eexists.
Qed.
