(* ===== verification/Dids.v ===== *)
(** Text and byte forms of hashes and identifiers: multibase, [did:key] and
    [did:odf] (src/utils/multiformats/src,
    src/domain/opendatafabric/src/formats/did_odf.rs).

    The [hex], [bs58] and [unsigned-varint] crates are parameters.  Text is a
    list of bytes. *)

From S2P Require Import Prelude Multiformats Grammar.
From Stdlib Require Import Ascii.

Local Open Scope char_scope.

(** * Third-party codecs *)

Inductive Bs58Error := Bs58Error_BufferTooSmall | Bs58Error_Other.

Class TextCodecs := {
  hex_encode : list u8 -> str;
  (** [hex::decode_to_slice] into a slice of the given length *)
  hex_decode_to_slice : str -> nat -> option (list u8);
  bs58_encode : list u8 -> str;
  (** [bs58::decode(..).onto(buf)] for a buffer of the given length *)
  bs58_decode_onto : str -> nat -> res Bs58Error (list u8);
  uvar_encode_u32 : Z -> list u8;
  uvar_decode_u32 : list u8 -> option (Z * list u8);
  uvar_decode_usize : list u8 -> option (Z * list u8)
}.

Definition is_byte (z : u8) : Prop := (0 <= z < 256)%Z.

(** What the crates document: decoding inverts encoding, hexadecimal digits and
    the Bitcoin alphabet are alphanumeric, a byte takes two hexadecimal digits
    and at most two of base 58, a varint takes a byte per seven bits. *)
Class LawfulTextCodecs `{TextCodecs} := {
  hex_inverse : forall b, Forall is_byte b -> hex_decode_to_slice (hex_encode b) (length b) = Some b;
  hex_length : forall b, length (hex_encode b) = 2 * length b;
  hex_chars : forall b, Forall is_byte b -> Forall (fun c => is_ascii_alphanumeric c = true) (hex_encode b);
  bs58_inverse : forall b n, Forall is_byte b -> length b <= n ->
    bs58_decode_onto (bs58_encode b) n = Ok b;
  bs58_length : forall b, length (bs58_encode b) <= 2 * length b;
  bs58_chars : forall b, Forall is_byte b -> Forall (fun c => is_ascii_alphanumeric c = true) (bs58_encode b);
  uvar_u32_law : forall z rest, (0 <= z < 2 ^ 32)%Z -> uvar_decode_u32 (uvar_encode_u32 z ++ rest) = Some (z, rest);
  uvar_usize_law : forall z rest, (0 <= z < 2 ^ 32)%Z ->
    uvar_decode_usize (uvar_encode_u32 z ++ rest) = Some (z, rest);
  uvar_length : forall z k, (0 <= z < 2 ^ 32)%Z -> 0 < k -> (z < 2 ^ (7 * Z.of_nat k))%Z ->
    length (uvar_encode_u32 z) <= k;
  uvar_bytes : forall z, (0 <= z < 2 ^ 32)%Z -> Forall is_byte (uvar_encode_u32 z)
}.

(** * Multibase *)

Inductive Multibase := Multibase_Base16 | Multibase_Base58Btc.

Section Codecs.
Context `{TextCodecs}.

(** [Multibase::decode]: the bytes written to the front of the buffer.
    [split_at(1)] panics on empty text. *)
Definition Multibase_decode (s : str) (buf_len : nat) : res MultibaseError (list u8) :=
  match s with
  | [] => Panic
  | prefix :: encoded =>
      if decide (prefix = "f" \/ prefix = "F") then
        let data_len := length encoded / 2 in
        if decide (buf_len < data_len) then Err MultibaseError_BufferTooSmall
        else match hex_decode_to_slice encoded data_len with
             | Some b => Ok b
             | None => Err MultibaseError_Malformed
             end
      else if decide (prefix = "z") then
        match bs58_decode_onto encoded buf_len with
        | Ok b => Ok b
        | Err Bs58Error_BufferTooSmall => Err MultibaseError_BufferTooSmall
        | Err Bs58Error_Other => Err MultibaseError_Malformed
        | Panic => Panic
        end
      else Err (MultibaseError_UnsupportedEncoding prefix)
  end.

(** [MultibaseFmt::<S>::to_str]: the text has to fit into [S] bytes. *)
Definition MultibaseFmt_to_str (size : nat) (bytes : list u8) (encoding : Multibase) : res unit str :=
  match encoding with
  | Multibase_Base16 =>
      let str_len := length bytes * 2 in
      if decide (str_len < size) then Ok ("f" :: hex_encode bytes) else Panic
  | Multibase_Base58Btc =>
      let encoded := bs58_encode bytes in
      if decide (length encoded < size) then Ok ("z" :: encoded) else Panic
  end.

(** * Multihashes as text *)

Definition MAX_VARINT_LEN : nat := 4.
Definition MAX_MULTIHASH_BINARY_REPR_LEN : nat :=
  MAX_VARINT_LEN + MAX_VARINT_LEN + MAX_MULTIHASH_DIGEST_LEN.
Definition MAX_MULTIHASH_MULTIBASE_REPR_LEN : nat := 1 + MAX_MULTIHASH_BINARY_REPR_LEN * 2.
Definition DEFAULT_MULTIHASH_MULTIBASE_ENCODING : Multibase := Multibase_Base16.

(** [write_all(..).unwrap()] into a buffer of the given size. *)
Definition write_buffer (size : nat) (bytes : list u8) : res unit (list u8) :=
  if decide (length bytes <= size) then Ok bytes else Panic.

(** [MultihashBytes::new] *)
Definition MultihashBytes_new (value : Multihash) : res unit (list u8) :=
  write_buffer MAX_MULTIHASH_BINARY_REPR_LEN (Multihash_as_bytes uvar_encode_u32 value).

(** [Multihash::from_multibase] *)
Definition Multihash_from_multibase (s : str) : res ParseError Multihash :=
  match Multibase_decode s MAX_MULTIHASH_BINARY_REPR_LEN with
  | Ok bytes =>
      map_err (fun e => ParseError_new_from s (boxed_deserialize e))
        (Multihash_from_bytes uvar_decode_u32 uvar_decode_usize bytes)
  | Err e => Err (ParseError_new_from s (BoxedError_Multibase e))
  | Panic => Panic
  end.

Record MultihashFmt := mkMultihashFmt {
  mf_value : Multihash;
  mf_encoding : Multibase;
  mf_short_len : option nat
}.

Definition MultihashFmt_new (value : Multihash) (encoding : Multibase) : MultihashFmt :=
  mkMultihashFmt value encoding None.
Definition MultihashFmt_encoding (f : MultihashFmt) (encoding : Multibase) : MultihashFmt :=
  mkMultihashFmt (mf_value f) encoding (mf_short_len f).
Definition MultihashFmt_short_of_length (f : MultihashFmt) (len : nat) : MultihashFmt :=
  mkMultihashFmt (mf_value f) (mf_encoding f) (Some len).
Definition MultihashFmt_short (f : MultihashFmt) : MultihashFmt := MultihashFmt_short_of_length f 8.

Definition Multihash_as_multibase (h : Multihash) : MultihashFmt :=
  MultihashFmt_new h DEFAULT_MULTIHASH_MULTIBASE_ENCODING.

(** [Display for MultihashFmt]: [s.len() - short_len] must not underflow. *)
Definition MultihashFmt_fmt (f : MultihashFmt) : res unit str :=
  let! bytes := MultihashBytes_new (mf_value f) in
  let! s := MultibaseFmt_to_str MAX_MULTIHASH_MULTIBASE_REPR_LEN bytes (mf_encoding f) in
  match mf_short_len f with
  | Some short_len =>
      if decide (short_len <= length s) then Ok (drop (length s - short_len) s) else Panic
  | None => Ok s
  end.

(** * DIDs *)

Definition MAX_DID_KEY_LEN : nat := 32.
Definition MAX_DID_BINARY_REPR_LEN : nat := MAX_VARINT_LEN + MAX_DID_KEY_LEN.
Definition MAX_DID_MULTIBASE_REPR_LEN : nat := 1 + MAX_DID_BINARY_REPR_LEN * 2.
Definition DEFAULT_DID_MULTIBASE_ENCODING : Multibase := Multibase_Base58Btc.

(** [DidKey::new]: a key of another length is an assertion failure. *)
Definition DidKey_new (key_type : Multicodec) (public_key : list u8) : res DidKeyError DidKey :=
  if decide (key_type <> Multicodec_Ed25519Pub) then Err (DidKeyError_UnsupportedKeyType key_type)
  else if decide (length public_key = MAX_DID_KEY_LEN) then Ok (mkDidKey public_key)
  else Panic.

(** [DidKeyBytes::new] *)
Definition DidKeyBytes_new (value : DidKey) : res unit (list u8) :=
  write_buffer MAX_DID_BINARY_REPR_LEN
    (uvar_encode_u32 (Multicodec_as_u32 Multicodec_Ed25519Pub) ++ dk_public_key value).

Definition DidKey_from_bytes (bytes : list u8) : res DeserializeError DidKey :=
  match uvar_decode_u32 bytes with
  | None => Err (DeserializeError_new_from BoxedError_Varint)
  | Some (key_type, key_bytes) =>
      match Multicodec_try_from_u32 key_type with
      | Ok key_type =>
          map_err (fun e => DeserializeError_new_from (BoxedError_DidKey e)) (DidKey_new key_type key_bytes)
      | Err code => Err (DeserializeError_new_from (BoxedError_UnsupportedMulticodec code))
      | Panic => Panic
      end
  end.

Definition DidKey_from_multibase (s : str) : res ParseError DidKey :=
  match Multibase_decode s (MAX_VARINT_LEN + MAX_DID_KEY_LEN) with
  | Ok bytes => map_err (fun e => ParseError_new_from s (boxed_deserialize e)) (DidKey_from_bytes bytes)
  | Err e => Err (ParseError_new_from s (BoxedError_Multibase e))
  | Panic => Panic
  end.

Definition key_prefix : str := ["d"; "i"; "d"; ":"; "k"; "e"; "y"; ":"].

Definition DidKey_from_did_str (s : str) : res ParseError DidKey :=
  match strip_prefix key_prefix s with
  | None => Err (ParseError_new s)
  | Some rest => map_err (fun e => ParseError_new_from s (boxed_parse e)) (DidKey_from_multibase rest)
  end.

(** [Display for DidKeyMultibaseFmt] *)
Definition DidKeyMultibaseFmt_fmt (value : DidKey) (encoding : Multibase) : res unit str :=
  let! bytes := DidKeyBytes_new value in
  MultibaseFmt_to_str MAX_DID_MULTIBASE_REPR_LEN bytes encoding.

(** [Display for DidKeyFmt] *)
Definition DidKeyFmt_fmt (value : DidKey) (encoding : Multibase) : res unit str :=
  let! s := DidKeyMultibaseFmt_fmt value encoding in Ok (key_prefix ++ s).

Definition DidKey_as_did_str (k : DidKey) : res unit str := DidKeyFmt_fmt k DEFAULT_DID_MULTIBASE_ENCODING.
Definition DidKey_as_multibase (k : DidKey) : res unit str :=
  DidKeyMultibaseFmt_fmt k DEFAULT_DID_MULTIBASE_ENCODING.

Definition DidOdf_new (key_type : Multicodec) (public_key : list u8) : res DidKeyError DidOdf :=
  let! did := DidKey_new key_type public_key in Ok (mkDidOdf did).

(** [DidOdf::from_bytes]: the error is unpacked with [source.unwrap()]. *)
Definition DidOdf_from_bytes (bytes : list u8) : res DeserializeError DidOdf :=
  match DidKey_from_bytes bytes with
  | Ok did => Ok (mkDidOdf did)
  | Err e => let! source := unwrap (de_source e) in Err (DeserializeError_new_from source)
  | Panic => Panic
  end.

Definition DidOdf_from_multibase (s : str) : res ParseError DidOdf :=
  match DidKey_from_multibase s with
  | Ok did => Ok (mkDidOdf did)
  | Err e => let! source := unwrap (pe_source e) in Err (ParseError_new_from s source)
  | Panic => Panic
  end.

Definition DidOdf_from_did_str (s : str) : res ParseError DidOdf :=
  match strip_prefix odf_prefix s with
  | None => Err (ParseError_new s)
  | Some rest => map_err (fun e => ParseError_new_from s (boxed_parse e)) (DidOdf_from_multibase rest)
  end.

(** [Display for DidOdfFmt] *)
Definition DidOdfFmt_fmt (value : DidKey) (encoding : Multibase) : res unit str :=
  let! s := DidKeyMultibaseFmt_fmt value encoding in Ok (odf_prefix ++ s).

Definition DidOdf_as_did_str (d : DidOdf) : res unit str := DidOdfFmt_fmt (do_did d) Multibase_Base16.
Definition DidOdf_as_multibase (d : DidOdf) : res unit str :=
  DidKeyMultibaseFmt_fmt (do_did d) Multibase_Base16.
End Codecs.

(** * Round trips and sizes *)

Section Facts.
Context `{LawfulTextCodecs}.

Lemma alphanums_multibase x : Forall (fun c => is_ascii_alphanumeric c = true) x ->
  Forall (fun c => is_multibase c = true) x.
Proof. intros Hx. eapply Forall_impl; [exact Hx|]. intros c Hc. unfold is_multibase. simpl in *. by rewrite Hc. Qed.

(** Encoded text fits, consists of letters and digits, and decodes to the bytes. *)
Lemma multibase_inverse size buf_len b encoding :
  Forall is_byte b -> length b <= buf_len -> 2 * length b < size ->
  exists s, MultibaseFmt_to_str size b encoding = Ok s /\ Multibase_decode s buf_len = Ok b /\
    all_of is_ascii_alphanumeric s.
Proof.
  intros Hb Hn Hs. unfold MultibaseFmt_to_str. destruct encoding.
  - rewrite decide_True by lia. eexists. split; [done|]. split.
    + unfold Multibase_decode. rewrite decide_True by auto. rewrite hex_length.
      assert (2 * length b / 2 = length b) as -> by (rewrite Nat.mul_comm; by apply Nat.div_mul).
      rewrite decide_False by lia. by rewrite hex_inverse.
    + split; [done|]. constructor; [done|]. by apply hex_chars.
  - pose proof (bs58_length b). rewrite decide_True by lia. eexists. split; [done|]. split.
    + unfold Multibase_decode. rewrite decide_False by (by intros [|]). rewrite decide_True by done.
      by rewrite bs58_inverse.
    + split; [done|]. constructor; [done|]. by apply bs58_chars.
Qed.

(** ** Hashes *)

Definition Multihash_bytes_ok (h : Multihash) : Prop := Multihash_wf h /\ Forall is_byte (Multihash_digest h).

Lemma Multicodec_varint c : length (uvar_encode_u32 (Multicodec_as_u32 c)) <= 4.
Proof. apply uvar_length; [apply Multicodec_u32_range|lia|]. by destruct c. Qed.

Lemma multihash_bytes_fit h : Multihash_bytes_ok h ->
  let b := Multihash_as_bytes uvar_encode_u32 h in
  MultihashBytes_new h = Ok b /\ Forall is_byte b /\ length b <= MAX_MULTIHASH_BINARY_REPR_LEN.
Proof.
  intros [(Hbuf & Hlen & _) Hd] b. unfold MAX_MULTIHASH_DIGEST_LEN in *.
  assert (Hl : (0 <= Z.of_nat (mh_len h) < 2 ^ 32)%Z).
  { split; [lia|]. apply Z.le_lt_trans with 32%Z; [lia|done]. }
  assert (Hb : length b <= MAX_MULTIHASH_BINARY_REPR_LEN).
  { subst b. unfold Multihash_as_bytes, MAX_MULTIHASH_BINARY_REPR_LEN, MAX_VARINT_LEN, MAX_MULTIHASH_DIGEST_LEN.
    rewrite !length_app. pose proof (Multicodec_varint (mh_code h)).
    assert (length (uvar_encode_u32 (Z.of_nat (mh_len h))) <= 4).
    { apply uvar_length; [done|lia|]. apply Z.le_lt_trans with 32%Z; [lia|done]. }
    unfold Multihash_digest. rewrite length_take. lia. }
  split; [|split]; [|subst b|done].
  - unfold MultihashBytes_new, write_buffer. by rewrite decide_True.
  - unfold Multihash_as_bytes. rewrite !Forall_app. split_and!; [|by apply uvar_bytes|done].
    apply uvar_bytes, Multicodec_u32_range.
Qed.

(** Printing a hash never panics and reading the text gives it back. *)
Lemma multihash_text_inverse h encoding : Multihash_bytes_ok h ->
  exists s, MultihashFmt_fmt (MultihashFmt_new h encoding) = Ok s /\ Multihash_from_multibase s = Ok h.
Proof.
  intros Hok. destruct (multihash_bytes_fit h Hok) as (Hn & Hb & Hl).
  destruct (multibase_inverse MAX_MULTIHASH_MULTIBASE_REPR_LEN MAX_MULTIHASH_BINARY_REPR_LEN _ encoding
              Hb Hl) as (s & Hs & Hd & _).
  { unfold MAX_MULTIHASH_MULTIBASE_REPR_LEN. lia. }
  exists s. split.
  - unfold MultihashFmt_fmt. simpl. rewrite Hn. simpl. by rewrite Hs.
  - unfold Multihash_from_multibase. rewrite Hd.
    by rewrite (Multihash_bytes_inverse _ _ _ uvar_u32_law uvar_usize_law) by apply Hok.
Qed.

(** The short form is the end of the text. *)
Lemma multihash_short_form h encoding n s : MultihashFmt_fmt (MultihashFmt_new h encoding) = Ok s ->
  MultihashFmt_fmt (MultihashFmt_short_of_length (MultihashFmt_new h encoding) n) =
    (if decide (n <= length s) then Ok (drop (length s - n) s) else Panic).
Proof.
  unfold MultihashFmt_fmt. simpl. destruct (MultihashBytes_new h) as [b| |]; simpl; [|done..].
  destruct (MultibaseFmt_to_str _ b encoding) as [s'| |]; simpl; [|done..]. by intros [= ->].
Qed.

(** ** Keys *)

Definition DidKey_ok (k : DidKey) : Prop :=
  length (dk_public_key k) = MAX_DID_KEY_LEN /\ Forall is_byte (dk_public_key k).

Lemma did_bytes_fit k : DidKey_ok k ->
  exists b, DidKeyBytes_new k = Ok b /\ Forall is_byte b /\ length b <= MAX_DID_BINARY_REPR_LEN /\
    DidKey_from_bytes b = Ok k.
Proof.
  intros [Hlen Hk]. pose proof (Multicodec_varint Multicodec_Ed25519Pub) as Hv.
  eexists. split; [|split_and!].
  - unfold DidKeyBytes_new, write_buffer. rewrite decide_True; [done|].
    rewrite length_app, Hlen. unfold MAX_DID_BINARY_REPR_LEN, MAX_VARINT_LEN. lia.
  - apply Forall_app. split; [|done]. apply uvar_bytes, Multicodec_u32_range.
  - rewrite length_app, Hlen. unfold MAX_DID_BINARY_REPR_LEN, MAX_VARINT_LEN. lia.
  - unfold DidKey_from_bytes. rewrite uvar_u32_law by apply Multicodec_u32_range.
    rewrite Multicodec_u32_inverse. unfold DidKey_new. rewrite decide_False by tauto.
    rewrite decide_True by done. by destruct k.
Qed.

Lemma did_multibase_inverse k encoding : DidKey_ok k ->
  exists s, DidKeyMultibaseFmt_fmt k encoding = Ok s /\ DidKey_from_multibase s = Ok k /\
    all_of is_ascii_alphanumeric s.
Proof.
  intros Hk. destruct (did_bytes_fit k Hk) as (b & Hn & Hb & Hl & Hi).
  destruct (multibase_inverse MAX_DID_MULTIBASE_REPR_LEN MAX_DID_BINARY_REPR_LEN b encoding Hb Hl)
    as (s & Hs & Hd & Hc).
  { unfold MAX_DID_MULTIBASE_REPR_LEN. lia. }
  exists s. split_and!; [|unfold DidKey_from_multibase|done].
  - unfold DidKeyMultibaseFmt_fmt. rewrite Hn. simpl. done.
  - change (MAX_VARINT_LEN + MAX_DID_KEY_LEN) with MAX_DID_BINARY_REPR_LEN. rewrite Hd. by rewrite Hi.
Qed.

Lemma strip_prefix_app p s : strip_prefix p (p ++ s) = Some s.
Proof. by apply strip_prefix_some. Qed.

Lemma did_key_text_inverse k encoding : DidKey_ok k ->
  exists s, DidKeyFmt_fmt k encoding = Ok s /\ DidKey_from_did_str s = Ok k.
Proof.
  intros Hk. destruct (did_multibase_inverse k encoding Hk) as (s & Hs & Hi & _).
  exists (key_prefix ++ s). unfold DidKeyFmt_fmt, DidKey_from_did_str. rewrite Hs, strip_prefix_app. simpl.
  by rewrite Hi.
Qed.

Lemma did_odf_text_inverse d encoding : DidKey_ok (do_did d) ->
  exists m, DidOdfFmt_fmt (do_did d) encoding = Ok (odf_prefix ++ m) /\
    DidOdf_from_did_str (odf_prefix ++ m) = Ok d /\ all_of is_ascii_alphanumeric m.
Proof.
  intros Hk. destruct (did_multibase_inverse (do_did d) encoding Hk) as (s & Hs & Hi & Hc).
  exists s. unfold DidOdfFmt_fmt, DidOdf_from_did_str, DidOdf_from_multibase.
  rewrite Hs, strip_prefix_app, Hi. by destruct d.
Qed.
End Facts.

(** A key is either refused with the right type, or taken, or, when its length is
    not that of an Ed25519 key, aborts the program. *)
Lemma DidKey_new_panics key_type pk :
  panics (DidKey_new key_type pk) = true <->
  key_type = Multicodec_Ed25519Pub /\ length pk <> MAX_DID_KEY_LEN.
Proof.
  unfold DidKey_new. destruct (decide (key_type <> Multicodec_Ed25519Pub)) as [Hk|Hk]; simpl.
  - split; [done|]. naive_solver.
  - destruct (decide (length pk = MAX_DID_KEY_LEN)); simpl; split; try done; [naive_solver|].
    intros _. split; [|done]. by destruct (decide (key_type = Multicodec_Ed25519Pub)).
Qed.
