(* ===== verification/Identity.v ===== *)
(** Dataset identity: names, aliases, handles and references
    (src/domain/opendatafabric/src/identity). *)

From S2P Require Import Prelude Multiformats.
From Stdlib Require Import Ascii String OrderedTypeEx.

(** * Identifiers and names *)

Record DatasetID := mkDatasetID { did_did : DidOdf }.

#[export] Instance DatasetID_eq_dec : EqDecision DatasetID.
Proof. solve_decision. Defined.

#[export] Instance DatasetID_countable : Countable DatasetID.
Proof.
  refine (inj_countable' (fun i => dk_public_key (do_did (did_did i)))
                         (fun k => mkDatasetID (mkDidOdf (mkDidKey k))) _).
  by intros [[[]]].
Defined.

(** [u8::to_ascii_lowercase]. *)
Definition ascii_lower (c : ascii) : ascii :=
  let n := nat_of_ascii c in
  if decide (65 <= n <= 90) then ascii_of_nat (n + 32) else c.

(** [str::to_ascii_lowercase]; [into_lowercase] only avoids the copy when
    nothing changes. *)
Fixpoint to_ascii_lowercase (s : string) : string :=
  match s with
  | EmptyString => EmptyString
  | String c s' => String (ascii_lower c) (to_ascii_lowercase s')
  end.

(** The [newtype_str!] types hold their text as written; equality, hashing and
    ordering ignore ASCII case. *)
Record DatasetName := mkDatasetName { dn_str : string }.
Record AccountName := mkAccountName { an_str : string }.
Record RepoName := mkRepoName { rn_str : string }.

(** [str::eq_ignore_ascii_case]. *)
Definition eq_ignore_ascii_case (a b : string) : bool :=
  bool_decide (to_ascii_lowercase a = to_ascii_lowercase b).

(** [Ord::cmp] of the newtypes: [into_lowercase(self).cmp(into_lowercase(other))]. *)
Definition newtype_str_cmp (a b : string) : comparison :=
  String.compare (to_ascii_lowercase a) (to_ascii_lowercase b).

Definition DatasetName_eq (a b : DatasetName) : bool := eq_ignore_ascii_case (dn_str a) (dn_str b).
Definition AccountName_eq (a b : AccountName) : bool := eq_ignore_ascii_case (an_str a) (an_str b).
Definition RepoName_eq (a b : RepoName) : bool := eq_ignore_ascii_case (rn_str a) (rn_str b).

(** * Aliases, handles and references *)

Record DatasetAlias := mkDatasetAlias {
  da_account_name : option AccountName;
  da_dataset_name : DatasetName
}.

Record DatasetAliasRemote := mkDatasetAliasRemote {
  dar_repo_name : RepoName;
  dar_account_name : option AccountName;
  dar_dataset_name : DatasetName
}.

Record DatasetHandle := mkDatasetHandle {
  dh_id : DatasetID;
  dh_alias : DatasetAlias
}.

Inductive DatasetRef :=
| DatasetRef_ID (id : DatasetID)
| DatasetRef_Alias (alias : DatasetAlias)
| DatasetRef_Handle (hdl : DatasetHandle).

(** [PartialEq] derived through the names' case-insensitive equality. *)
Definition option_eqb {A} (eqb : A -> A -> bool) (x y : option A) : bool :=
  match x, y with
  | Some a, Some b => eqb a b
  | None, None => true
  | _, _ => false
  end.

Definition DatasetAlias_eq (a b : DatasetAlias) : bool :=
  option_eqb AccountName_eq (da_account_name a) (da_account_name b) &&
  DatasetName_eq (da_dataset_name a) (da_dataset_name b).

Definition DatasetHandle_eq (a b : DatasetHandle) : bool :=
  bool_decide (dh_id a = dh_id b) && DatasetAlias_eq (dh_alias a) (dh_alias b).

Definition DatasetRef_eq (a b : DatasetRef) : bool :=
  match a, b with
  | DatasetRef_ID x, DatasetRef_ID y => bool_decide (x = y)
  | DatasetRef_Alias x, DatasetRef_Alias y => DatasetAlias_eq x y
  | DatasetRef_Handle x, DatasetRef_Handle y => DatasetHandle_eq x y
  | _, _ => false
  end.

Definition DatasetRef_id (r : DatasetRef) : option DatasetID :=
  match r with
  | DatasetRef_ID id => Some id
  | DatasetRef_Handle hdl => Some (dh_id hdl)
  | DatasetRef_Alias _ => None
  end.

Definition DatasetRef_alias (r : DatasetRef) : option DatasetAlias :=
  match r with
  | DatasetRef_ID _ => None
  | DatasetRef_Alias alias => Some alias
  | DatasetRef_Handle hdl => Some (dh_alias hdl)
  end.

Definition DatasetRef_account_name (r : DatasetRef) : option AccountName :=
  match r with
  | DatasetRef_ID _ => None
  | DatasetRef_Alias alias => da_account_name alias
  | DatasetRef_Handle hdl => da_account_name (dh_alias hdl)
  end.

Definition DatasetRef_dataset_name (r : DatasetRef) : option DatasetName :=
  match r with
  | DatasetRef_ID _ => None
  | DatasetRef_Alias alias => Some (da_dataset_name alias)
  | DatasetRef_Handle hdl => Some (da_dataset_name (dh_alias hdl))
  end.

(** * Ordering *)

(** Derived [Ord] of [Option]: [None] before [Some]. *)
Definition option_cmp {A} (cmp : A -> A -> comparison) (x y : option A) : comparison :=
  match x, y with
  | None, None => Eq
  | None, Some _ => Lt
  | Some _, None => Gt
  | Some a, Some b => cmp a b
  end.

(** Lexicographic [Ord] of slices and of tuples. *)
Fixpoint list_cmp {A} (cmp : A -> A -> comparison) (x y : list A) : comparison :=
  match x, y with
  | [], [] => Eq
  | [], _ :: _ => Lt
  | _ :: _, [] => Gt
  | a :: x', b :: y' => match cmp a b with Eq => list_cmp cmp x' y' | c => c end
  end.

Definition then_cmp (c d : comparison) : comparison :=
  match c with Eq => d | _ => c end.

(** Derived [Ord] of [DatasetID]: its key bytes. *)
Definition DatasetID_cmp (a b : DatasetID) : comparison :=
  list_cmp Z.compare (dk_public_key (do_did (did_did a))) (dk_public_key (do_did (did_did b))).

(** [Ord for DatasetRef]: the right-hand tuple is built from [self]'s account
    and dataset names and from [other]'s id, as in the source. *)
Definition DatasetRef_cmp (self other : DatasetRef) : comparison :=
  let l := (DatasetRef_account_name self, DatasetRef_dataset_name self, DatasetRef_id self) in
  let r := (DatasetRef_account_name self, DatasetRef_dataset_name self, DatasetRef_id other) in
  then_cmp (option_cmp (fun x y => newtype_str_cmp (an_str x) (an_str y)) l.1.1 r.1.1)
    (then_cmp (option_cmp (fun x y => newtype_str_cmp (dn_str x) (dn_str y)) l.1.2 r.1.2)
       (option_cmp DatasetID_cmp l.2 r.2)).

Lemma newtype_str_cmp_refl s : newtype_str_cmp s s = Eq.
Proof.
  unfold newtype_str_cmp. induction (to_ascii_lowercase s) as [|c t IH]; simpl; [done|].
  unfold Ascii.compare. by rewrite N.compare_refl.
Qed.

Lemma option_cmp_refl {A} (cmp : A -> A -> comparison) x :
  (forall a, cmp a a = Eq) -> option_cmp cmp x x = Eq.
Proof. intros H; destruct x; simpl; auto. Qed.
