(* ===== verification/References.v ===== *)
(** References to datasets, local, remote and ambiguous, and patterns: parsing,
    printing, conversions, matching and orderings
    (src/domain/opendatafabric/src/identity: dataset_identity.rs, dataset_refs.rs,
    dataset_handles.rs, dataset_id.rs).

    The [url] crate and the [like] crate are parameters. *)

From S2P Require Import Prelude Multiformats Grammar Dids Identity.
From Stdlib Require Import Ascii String.

Local Open Scope char_scope.

(** * The url crate *)

Class UrlCrate (Url : Type) := {
  Url_eq_dec :: EqDecision Url;
  Url_from_str : str -> option Url;
  Url_fmt : Url -> str;
  Url_cmp : Url -> Url -> comparison
}.

(** * Data *)

Record DatasetHandleRemote := mkDatasetHandleRemote {
  dhr_id : DatasetID;
  dhr_alias : DatasetAliasRemote
}.

Inductive DatasetRefRemote (Url : Type) :=
| DatasetRefRemote_ID (repo : option RepoName) (id : DatasetID)
| DatasetRefRemote_Alias (alias : DatasetAliasRemote)
| DatasetRefRemote_Url (url : Url)
| DatasetRefRemote_Handle (hdl : DatasetHandleRemote).
Arguments DatasetRefRemote_ID {Url}.
Arguments DatasetRefRemote_Alias {Url}.
Arguments DatasetRefRemote_Url {Url}.
Arguments DatasetRefRemote_Handle {Url}.

Inductive DatasetRefAny (Url : Type) :=
| DatasetRefAny_ID (repo : option RepoName) (id : DatasetID)
| DatasetRefAny_RemoteAlias (repo : RepoName) (account : option AccountName) (name : DatasetName)
| DatasetRefAny_LocalAlias (account : option AccountName) (name : DatasetName)
| DatasetRefAny_AmbiguousAlias (repo_or_account : string) (name : DatasetName)
| DatasetRefAny_Url (url : Url)
| DatasetRefAny_LocalHandle (hdl : DatasetHandle)
| DatasetRefAny_RemoteHandle (hdl : DatasetHandleRemote).
Arguments DatasetRefAny_ID {Url}.
Arguments DatasetRefAny_RemoteAlias {Url}.
Arguments DatasetRefAny_LocalAlias {Url}.
Arguments DatasetRefAny_AmbiguousAlias {Url}.
Arguments DatasetRefAny_Url {Url}.
Arguments DatasetRefAny_LocalHandle {Url}.
Arguments DatasetRefAny_RemoteHandle {Url}.

Record DatasetNamePattern := mkDatasetNamePattern { dnp_str : string }.

Record DatasetAliasPattern := mkDatasetAliasPattern {
  dap_account_name : option AccountName;
  dap_dataset_name_pattern : DatasetNamePattern
}.

Inductive DatasetRefPattern :=
| DatasetRefPattern_Ref (r : DatasetRef)
| DatasetRefPattern_Pattern (p : DatasetAliasPattern).

Record DatasetAmbiguousPattern := mkDatasetAmbiguousPattern { damp_pattern : string }.

Inductive DatasetRefAnyPattern (Url : Type) :=
| DatasetRefAnyPattern_Ref (r : DatasetRefAny Url)
| DatasetRefAnyPattern_PatternRemote (repo : RepoName) (account : AccountName) (name : DatasetNamePattern)
| DatasetRefAnyPattern_PatternAmbiguous (prefix : DatasetAmbiguousPattern) (name : DatasetNamePattern)
| DatasetRefAnyPattern_PatternLocal (name : DatasetNamePattern).
Arguments DatasetRefAnyPattern_Ref {Url}.
Arguments DatasetRefAnyPattern_PatternRemote {Url}.
Arguments DatasetRefAnyPattern_PatternAmbiguous {Url}.
Arguments DatasetRefAnyPattern_PatternLocal {Url}.

(** * Names *)

Abbreviation text := list_ascii_of_string.
Abbreviation untext := string_of_list_ascii.

(** [FromStr] of the [newtype_str!] types. *)
Definition newtype_from_str {A} (new_unchecked : string -> A) (parse : matcher) (s : str) : res ParseError A :=
  match parse s with
  | Some (_, []) => Ok (new_unchecked (untext s))
  | _ => Err (ParseError_new s)
  end.

Definition DatasetName_from_str : str -> res ParseError DatasetName :=
  newtype_from_str mkDatasetName match_dataset_name.
Definition DatasetNamePattern_from_str : str -> res ParseError DatasetNamePattern :=
  newtype_from_str mkDatasetNamePattern match_dataset_name_pattern.
Definition AccountName_from_str : str -> res ParseError AccountName :=
  newtype_from_str mkAccountName match_account_name.
Definition RepoName_from_str : str -> res ParseError RepoName :=
  newtype_from_str mkRepoName match_repo_name.

(** * Aliases *)

Definition DatasetAlias_from_str (s : str) : res ParseError DatasetAlias :=
  match match_dataset_alias s with
  | Some (acc, ds, []) =>
      Ok (mkDatasetAlias ((fun a => mkAccountName (untext a)) <$> acc) (mkDatasetName (untext ds)))
  | _ => Err (ParseError_new s)
  end.

Definition DatasetAlias_fmt (a : DatasetAlias) : str :=
  match da_account_name a with Some acc => text (an_str acc) ++ ["/"] | None => [] end ++
  text (dn_str (da_dataset_name a)).

Definition DatasetAlias_is_multi_tenant (a : DatasetAlias) : bool := bool_decide (is_Some (da_account_name a)).

Definition DatasetAlias_as_remote_alias (a : DatasetAlias) (repo_name : RepoName) : DatasetAliasRemote :=
  mkDatasetAliasRemote repo_name (da_account_name a) (da_dataset_name a).

Definition DatasetAliasRemote_from_str (s : str) : res ParseError DatasetAliasRemote :=
  match match_dataset_alias_remote s with
  | Some (repo, acc, ds, []) =>
      Ok (mkDatasetAliasRemote (mkRepoName (untext repo)) ((fun a => mkAccountName (untext a)) <$> acc)
            (mkDatasetName (untext ds)))
  | _ => Err (ParseError_new s)
  end.

Definition DatasetAliasRemote_fmt (a : DatasetAliasRemote) : str :=
  text (rn_str (dar_repo_name a)) ++ ["/"] ++
  match dar_account_name a with Some acc => text (an_str acc) ++ ["/"] | None => [] end ++
  text (dn_str (dar_dataset_name a)).

Definition DatasetAliasRemote_local_alias (a : DatasetAliasRemote) : DatasetAlias :=
  mkDatasetAlias (dar_account_name a) (dar_dataset_name a).

Definition DatasetHandle_fmt (h : DatasetHandle) : str := DatasetAlias_fmt (dh_alias h).
Definition DatasetHandleRemote_fmt (h : DatasetHandleRemote) : str := DatasetAliasRemote_fmt (dhr_alias h).

Section References.
Context `{TextCodecs} {Url : Type} `{UrlCrate Url}.

(** * References *)

Definition DatasetID_from_did_str (s : str) : res ParseError DatasetID :=
  map_ok mkDatasetID (DidOdf_from_did_str s).
Definition DatasetID_fmt (id : DatasetID) : res unit str := DidOdf_as_did_str (did_did id).

Definition DatasetRef_from_str (s : str) : res ParseError DatasetRef :=
  match DatasetID_from_did_str s with
  | Ok id => Ok (DatasetRef_ID id)
  | Err _ =>
      match DatasetAlias_from_str s with
      | Ok alias => Ok (DatasetRef_Alias alias)
      | Err _ => Err (ParseError_new s)
      | Panic => Panic
      end
  | Panic => Panic
  end.

Definition DatasetRef_fmt (r : DatasetRef) : res unit str :=
  match r with
  | DatasetRef_ID v => DatasetID_fmt v
  | DatasetRef_Alias v => Ok (DatasetAlias_fmt v)
  | DatasetRef_Handle v => Ok (DatasetHandle_fmt v)
  end.

(** [Url::from_str] behind [Grammar::match_url]. *)
Definition url_reference (s : str) : res ParseError Url :=
  match match_url s with
  | Some _ => match Url_from_str s with Some url => Ok url | None => Err (ParseError_new s) end
  | None => Err (ParseError_new s)
  end.

Definition DatasetRefRemote_from_str (s : str) : res ParseError (DatasetRefRemote Url) :=
  match match_remote_dataset_id s with
  | Some (repo, id, []) =>
      match DatasetID_from_did_str id with
      | Ok id => Ok (DatasetRefRemote_ID ((fun r => mkRepoName (untext r)) <$> repo) id)
      | Err _ => Err (ParseError_new s)
      | Panic => Panic
      end
  | _ =>
      match DatasetAliasRemote_from_str s with
      | Ok alias => Ok (DatasetRefRemote_Alias alias)
      | Err _ => map_ok DatasetRefRemote_Url (url_reference s)
      | Panic => Panic
      end
  end.

(** [{repo}/{id}] or [{id}] *)
Definition remote_id_fmt (repo : option RepoName) (id : DatasetID) : res unit str :=
  let! s := DatasetID_fmt id in
  Ok (match repo with Some repo => text (rn_str repo) ++ ["/"] ++ s | None => s end).

Definition DatasetRefRemote_fmt (r : DatasetRefRemote Url) : res unit str :=
  match r with
  | DatasetRefRemote_ID repo id => remote_id_fmt repo id
  | DatasetRefRemote_Alias v => Ok (DatasetAliasRemote_fmt v)
  | DatasetRefRemote_Url v => Ok (Url_fmt v)
  | DatasetRefRemote_Handle v => Ok (DatasetHandleRemote_fmt v)
  end.

Definition DatasetRefAny_from_str (s : str) : res ParseError (DatasetRefAny Url) :=
  match match_remote_dataset_id s with
  | Some (repo, id, []) =>
      match DatasetID_from_did_str id with
      | Ok id => Ok (DatasetRefAny_ID ((fun r => mkRepoName (untext r)) <$> repo) id)
      | Err _ => Err (ParseError_new s)
      | Panic => Panic
      end
  | _ =>
      match DatasetName_from_str s with
      | Ok dataset_name => Ok (DatasetRefAny_LocalAlias None dataset_name)
      | Err _ =>
          match DatasetAliasRemote_from_str s with
          | Ok alias =>
              match dar_account_name alias with
              | Some account_name =>
                  Ok (DatasetRefAny_RemoteAlias (dar_repo_name alias) (Some account_name)
                        (dar_dataset_name alias))
              | None =>
                  Ok (DatasetRefAny_AmbiguousAlias (rn_str (dar_repo_name alias)) (dar_dataset_name alias))
              end
          | Err _ => map_ok DatasetRefAny_Url (url_reference s)
          | Panic => Panic
          end
      | Panic => Panic
      end
  end.

Definition DatasetRefAny_fmt (r : DatasetRefAny Url) : res unit str :=
  match r with
  | DatasetRefAny_ID repo id => remote_id_fmt repo id
  | DatasetRefAny_LocalAlias None name => Ok (text (dn_str name))
  | DatasetRefAny_LocalAlias (Some account) name => Ok (text (an_str account) ++ ["/"] ++ text (dn_str name))
  | DatasetRefAny_RemoteAlias repo None name => Ok (text (rn_str repo) ++ ["/"] ++ text (dn_str name))
  | DatasetRefAny_RemoteAlias repo (Some account) name =>
      Ok (text (rn_str repo) ++ ["/"] ++ text (an_str account) ++ ["/"] ++ text (dn_str name))
  | DatasetRefAny_AmbiguousAlias repo_or_account name =>
      Ok (text repo_or_account ++ ["/"] ++ text (dn_str name))
  | DatasetRefAny_Url v => Ok (Url_fmt v)
  | DatasetRefAny_LocalHandle v => Ok (DatasetHandle_fmt v)
  | DatasetRefAny_RemoteHandle v => Ok (DatasetHandleRemote_fmt v)
  end.

(** ** Conversions *)

Definition DatasetRefAny_id (r : DatasetRefAny Url) : option DatasetID :=
  match r with DatasetRefAny_ID _ id => Some id | _ => None end.

Definition DatasetRefAny_into_local_ref (is_repo : RepoName -> bool) (r : DatasetRefAny Url)
    : res (DatasetRefRemote Url) DatasetRef :=
  match r with
  | DatasetRefAny_ID None id => Ok (DatasetRef_ID id)
  | DatasetRefAny_ID (Some repo) id => Err (DatasetRefRemote_ID (Some repo) id)
  | DatasetRefAny_LocalAlias account_name dataset_name =>
      Ok (DatasetRef_Alias (mkDatasetAlias account_name dataset_name))
  | DatasetRefAny_RemoteAlias repo_name account_name dataset_name =>
      Err (DatasetRefRemote_Alias (mkDatasetAliasRemote repo_name account_name dataset_name))
  | DatasetRefAny_AmbiguousAlias prefix dataset_name =>
      let repo_name := mkRepoName prefix in
      if is_repo repo_name
      then Err (DatasetRefRemote_Alias (mkDatasetAliasRemote repo_name None dataset_name))
      else Ok (DatasetRef_Alias (mkDatasetAlias (Some (mkAccountName (rn_str repo_name))) dataset_name))
  | DatasetRefAny_Url url => Err (DatasetRefRemote_Url url)
  | DatasetRefAny_LocalHandle hdl => Ok (DatasetRef_Handle hdl)
  | DatasetRefAny_RemoteHandle hdl => Err (DatasetRefRemote_Handle hdl)
  end.

Definition DatasetRefAny_into_local_single_tenant_ref (r : DatasetRefAny Url) :=
  DatasetRefAny_into_local_ref (fun _ => true) r.

Definition DatasetRefAny_into_remote_ref (is_repo : RepoName -> bool) (r : DatasetRefAny Url)
    : res DatasetRef (DatasetRefRemote Url) :=
  match r with
  | DatasetRefAny_ID repo id => Ok (DatasetRefRemote_ID repo id)
  | DatasetRefAny_LocalAlias account_name dataset_name =>
      Err (DatasetRef_Alias (mkDatasetAlias account_name dataset_name))
  | DatasetRefAny_RemoteAlias repo_name account_name dataset_name =>
      Ok (DatasetRefRemote_Alias (mkDatasetAliasRemote repo_name account_name dataset_name))
  | DatasetRefAny_AmbiguousAlias prefix dataset_name =>
      let repo_name := mkRepoName prefix in
      if is_repo repo_name
      then Ok (DatasetRefRemote_Alias (mkDatasetAliasRemote repo_name None dataset_name))
      else Err (DatasetRef_Alias (mkDatasetAlias (Some (mkAccountName (rn_str repo_name))) dataset_name))
  | DatasetRefAny_Url url => Ok (DatasetRefRemote_Url url)
  | DatasetRefAny_LocalHandle hdl => Err (DatasetRef_Handle hdl)
  | DatasetRefAny_RemoteHandle hdl => Ok (DatasetRefRemote_Handle hdl)
  end.

(** [From<DatasetRef>] and [From<DatasetRefRemote> for DatasetRefAny] *)
Definition DatasetRefAny_from_local (v : DatasetRef) : DatasetRefAny Url :=
  match v with
  | DatasetRef_ID v => DatasetRefAny_ID None v
  | DatasetRef_Alias v => DatasetRefAny_LocalAlias (da_account_name v) (da_dataset_name v)
  | DatasetRef_Handle v => DatasetRefAny_LocalHandle v
  end.

Definition DatasetRefAny_from_remote (v : DatasetRefRemote Url) : DatasetRefAny Url :=
  match v with
  | DatasetRefRemote_ID repo id => DatasetRefAny_ID repo id
  | DatasetRefRemote_Alias v =>
      DatasetRefAny_RemoteAlias (dar_repo_name v) (dar_account_name v) (dar_dataset_name v)
  | DatasetRefRemote_Url v => DatasetRefAny_Url v
  | DatasetRefRemote_Handle v => DatasetRefAny_RemoteHandle v
  end.

(** ** Parts of a remote reference *)

Definition DatasetRefRemote_id (r : DatasetRefRemote Url) : option DatasetID :=
  match r with
  | DatasetRefRemote_ID _ id => Some id
  | DatasetRefRemote_Alias _ | DatasetRefRemote_Url _ => None
  | DatasetRefRemote_Handle hdl => Some (dhr_id hdl)
  end.

Definition DatasetRefRemote_alias (r : DatasetRefRemote Url) : option DatasetAliasRemote :=
  match r with
  | DatasetRefRemote_ID _ _ | DatasetRefRemote_Url _ => None
  | DatasetRefRemote_Alias alias => Some alias
  | DatasetRefRemote_Handle hdl => Some (dhr_alias hdl)
  end.

Definition DatasetRefRemote_url (r : DatasetRefRemote Url) : option Url :=
  match r with DatasetRefRemote_Url url => Some url | _ => None end.

Definition DatasetRefRemote_dataset_name (r : DatasetRefRemote Url) : option DatasetName :=
  match r with
  | DatasetRefRemote_ID _ _ | DatasetRefRemote_Url _ => None
  | DatasetRefRemote_Alias alias => Some (dar_dataset_name alias)
  | DatasetRefRemote_Handle hdl => Some (dar_dataset_name (dhr_alias hdl))
  end.

Definition DatasetRefRemote_account_name (r : DatasetRefRemote Url) : option AccountName :=
  match r with
  | DatasetRefRemote_ID _ _ | DatasetRefRemote_Url _ => None
  | DatasetRefRemote_Alias alias => dar_account_name alias
  | DatasetRefRemote_Handle hdl => dar_account_name (dhr_alias hdl)
  end.

Definition DatasetRefRemote_repo_name (r : DatasetRefRemote Url) : option RepoName :=
  match r with
  | DatasetRefRemote_ID repo_name _ => repo_name
  | DatasetRefRemote_Alias alias => Some (dar_repo_name alias)
  | DatasetRefRemote_Url _ => None
  | DatasetRefRemote_Handle hdl => Some (dar_repo_name (dhr_alias hdl))
  end.

(** ** Orderings *)

Definition account_cmp (x y : option AccountName) : comparison :=
  option_cmp (fun x y => newtype_str_cmp (an_str x) (an_str y)) x y.

(** [Ord] derived for [DatasetAliasRemote]. *)
Definition DatasetAliasRemote_cmp (x y : DatasetAliasRemote) : comparison :=
  then_cmp (newtype_str_cmp (rn_str (dar_repo_name x)) (rn_str (dar_repo_name y)))
    (then_cmp (account_cmp (dar_account_name x) (dar_account_name y))
       (newtype_str_cmp (dn_str (dar_dataset_name x)) (dn_str (dar_dataset_name y)))).

(** [Ord for DatasetRefRemote]: the URL and the repository of the right-hand side
    are those of [self], as in the source. *)
Definition DatasetRefRemote_cmp (self other : DatasetRefRemote Url) : comparison :=
  then_cmp (option_cmp Url_cmp (DatasetRefRemote_url self) (DatasetRefRemote_url self))
    (then_cmp (option_cmp DatasetAliasRemote_cmp (DatasetRefRemote_alias self) (DatasetRefRemote_alias other))
       (then_cmp (option_cmp (fun x y => newtype_str_cmp (rn_str x) (rn_str y))
                    (DatasetRefRemote_repo_name self) (DatasetRefRemote_repo_name self))
          (option_cmp DatasetID_cmp (DatasetRefRemote_id self) (DatasetRefRemote_id other)))).

(** [tuplify] in [Ord for DatasetRefAny]: repository and account as plain text. *)
Definition tuplify (v : DatasetRefAny Url)
    : option string * option string * option DatasetName * option DatasetID * option Url :=
  match v with
  | DatasetRefAny_ID r id => (rn_str <$> r, None, None, Some id, None)
  | DatasetRefAny_LocalAlias a n => (None, an_str <$> a, Some n, None, None)
  | DatasetRefAny_RemoteAlias r a n => (Some (rn_str r), an_str <$> a, Some n, None, None)
  | DatasetRefAny_AmbiguousAlias ra n => (Some ra, None, Some n, None, None)
  | DatasetRefAny_Url url => (None, None, None, None, Some url)
  | DatasetRefAny_LocalHandle hdl =>
      (None, an_str <$> da_account_name (dh_alias hdl), Some (da_dataset_name (dh_alias hdl)),
       Some (dh_id hdl), None)
  | DatasetRefAny_RemoteHandle hdl =>
      (Some (rn_str (dar_repo_name (dhr_alias hdl))), an_str <$> dar_account_name (dhr_alias hdl),
       Some (dar_dataset_name (dhr_alias hdl)), Some (dhr_id hdl), None)
  end.

Definition DatasetRefAny_cmp (self other : DatasetRefAny Url) : comparison :=
  let '(r, a, n, i, u) := tuplify self in
  let '(r', a', n', i', u') := tuplify other in
  then_cmp (option_cmp String.compare r r')
    (then_cmp (option_cmp String.compare a a')
       (then_cmp (option_cmp (fun x y => newtype_str_cmp (dn_str x) (dn_str y)) n n')
          (then_cmp (option_cmp DatasetID_cmp i i') (option_cmp Url_cmp u u')))).

(** ** Equality *)

Definition DatasetAliasRemote_eq (a b : DatasetAliasRemote) : bool :=
  RepoName_eq (dar_repo_name a) (dar_repo_name b) &&
  option_eqb AccountName_eq (dar_account_name a) (dar_account_name b) &&
  DatasetName_eq (dar_dataset_name a) (dar_dataset_name b).

Definition DatasetHandleRemote_eq (a b : DatasetHandleRemote) : bool :=
  bool_decide (dhr_id a = dhr_id b) && DatasetAliasRemote_eq (dhr_alias a) (dhr_alias b).

Definition DatasetRefAny_eq (a b : DatasetRefAny Url) : bool :=
  match a, b with
  | DatasetRefAny_ID r i, DatasetRefAny_ID r' i' => option_eqb RepoName_eq r r' && bool_decide (i = i')
  | DatasetRefAny_RemoteAlias r x n, DatasetRefAny_RemoteAlias r' x' n' =>
      RepoName_eq r r' && option_eqb AccountName_eq x x' && DatasetName_eq n n'
  | DatasetRefAny_LocalAlias x n, DatasetRefAny_LocalAlias x' n' =>
      option_eqb AccountName_eq x x' && DatasetName_eq n n'
  | DatasetRefAny_AmbiguousAlias p n, DatasetRefAny_AmbiguousAlias p' n' =>
      bool_decide (p = p') && DatasetName_eq n n'
  | DatasetRefAny_Url u, DatasetRefAny_Url u' => bool_decide (u = u')
  | DatasetRefAny_LocalHandle h, DatasetRefAny_LocalHandle h' => DatasetHandle_eq h h'
  | DatasetRefAny_RemoteHandle h, DatasetRefAny_RemoteHandle h' => DatasetHandleRemote_eq h h'
  | _, _ => false
  end.

(** * Patterns *)

Definition DatasetAliasPattern_from_str (s : str) : res ParseError DatasetAliasPattern :=
  match split_once "/" s with
  | Some (account, dataset_name) =>
      match DatasetNamePattern_from_str dataset_name with
      | Ok dataset_name_pattern =>
          match AccountName_from_str account with
          | Ok account_name => Ok (mkDatasetAliasPattern (Some account_name) dataset_name_pattern)
          | Err _ => Err (ParseError_new s)
          | Panic => Panic
          end
      | Err _ => Err (ParseError_new s)
      | Panic => Panic
      end
  | None =>
      match DatasetNamePattern_from_str s with
      | Ok dataset_name_pattern => Ok (mkDatasetAliasPattern None dataset_name_pattern)
      | Err _ => Err (ParseError_new s)
      | Panic => Panic
      end
  end.

Definition DatasetRefPattern_from_str (s : str) : res ParseError DatasetRefPattern :=
  if decide ("%" ∈ s) then
    match DatasetAliasPattern_from_str s with
    | Ok dataset_pattern => Ok (DatasetRefPattern_Pattern dataset_pattern)
    | Err _ => Err (ParseError_new s)
    | Panic => Panic
    end
  else
    match DatasetRef_from_str s with
    | Ok dataset_ref => Ok (DatasetRefPattern_Ref dataset_ref)
    | Err _ => Err (ParseError_new s)
    | Panic => Panic
    end.

Definition DatasetRefPattern_fmt (p : DatasetRefPattern) : res unit str :=
  match p with
  | DatasetRefPattern_Ref dataset_ref => DatasetRef_fmt dataset_ref
  | DatasetRefPattern_Pattern dataset_pattern =>
      Ok (match dap_account_name dataset_pattern with
          | Some account_name => text (an_str account_name) ++ ["/"]
          | None => []
          end ++ text (dnp_str (dap_dataset_name_pattern dataset_pattern)))
  end.

Definition DatasetRefPattern_as_dataset_ref (p : DatasetRefPattern) : option DatasetRef :=
  match p with DatasetRefPattern_Pattern _ => None | DatasetRefPattern_Ref r => Some r end.

Definition DatasetRefPattern_is_pattern (p : DatasetRefPattern) : bool :=
  match p with DatasetRefPattern_Pattern _ => true | _ => false end.

Definition DatasetRefAnyPattern_from_str (s : str) : res ParseError (DatasetRefAnyPattern Url) :=
  if decide ("%" ∈ s) then
    match split_once "/" s with
    | Some (repo, rest) =>
        match RepoName_from_str repo with
        | Ok repo_or_account_name =>
            match split_once "/" rest with
            | Some (account_pattern, dataset_name) =>
                match AccountName_from_str account_pattern with
                | Ok account_name =>
                    match DatasetNamePattern_from_str dataset_name with
                    | Ok p => Ok (DatasetRefAnyPattern_PatternRemote repo_or_account_name account_name p)
                    | Err _ => Err (ParseError_new s)
                    | Panic => Panic
                    end
                | Err _ => Err (ParseError_new s)
                | Panic => Panic
                end
            | None =>
                match DatasetNamePattern_from_str rest with
                | Ok p =>
                    Ok (DatasetRefAnyPattern_PatternAmbiguous
                          (mkDatasetAmbiguousPattern (rn_str repo_or_account_name)) p)
                | Err _ => Err (ParseError_new s)
                | Panic => Panic
                end
            end
        | Err _ => Err (ParseError_new s)
        | Panic => Panic
        end
    | None =>
        match DatasetNamePattern_from_str s with
        | Ok p => Ok (DatasetRefAnyPattern_PatternLocal p)
        | Err _ => Err (ParseError_new s)
        | Panic => Panic
        end
    end
  else
    match DatasetRefAny_from_str s with
    | Ok r => Ok (DatasetRefAnyPattern_Ref r)
    | Err _ => Err (ParseError_new s)
    | Panic => Panic
    end.

Definition DatasetRefAnyPattern_as_dataset_ref_any (p : DatasetRefAnyPattern Url) : option (DatasetRefAny Url) :=
  match p with DatasetRefAnyPattern_Ref r => Some r | _ => None end.

Definition DatasetRefAnyPattern_is_pattern (p : DatasetRefAnyPattern Url) : bool :=
  match p with DatasetRefAnyPattern_Ref _ => false | _ => true end.

Definition DatasetRefAnyPattern_is_remote_pattern (p : DatasetRefAnyPattern Url) (is_multitenant_mode : bool) : bool :=
  match p with
  | DatasetRefAnyPattern_Ref _ | DatasetRefAnyPattern_PatternLocal _ => false
  | DatasetRefAnyPattern_PatternRemote _ _ _ => true
  | DatasetRefAnyPattern_PatternAmbiguous _ _ => negb is_multitenant_mode
  end.

(** [pattern_repo_name]: the prefix is parsed again with [unwrap]. *)
Definition DatasetRefAnyPattern_pattern_repo_name (p : DatasetRefAnyPattern Url) (is_multitenant_mode : bool)
    : res unit (option RepoName) :=
  match p with
  | DatasetRefAnyPattern_Ref _ | DatasetRefAnyPattern_PatternLocal _ => Ok None
  | DatasetRefAnyPattern_PatternRemote repo_name _ _ => Ok (Some repo_name)
  | DatasetRefAnyPattern_PatternAmbiguous account_repo_name _ =>
      if is_multitenant_mode then Ok None
      else match RepoName_from_str (text (damp_pattern account_repo_name)) with
           | Ok r => Ok (Some r)
           | _ => Panic
           end
  end.

(** ** Matching *)

(** [ILike::ilike(value, pattern)] *)
Context (ilike : string -> string -> option bool).

Definition DatasetNamePattern_matches (p : DatasetNamePattern) (dataset_name : DatasetName) : res unit bool :=
  unwrap (ilike (dn_str dataset_name) (dnp_str p)).

Definition DatasetAliasPattern_matches (p : DatasetAliasPattern) (h : DatasetHandle) : res unit bool :=
  if bool_decide (dap_account_name p = None) ||
     option_eqb AccountName_eq (dap_account_name p) (da_account_name (dh_alias h))
  then DatasetNamePattern_matches (dap_dataset_name_pattern p) (da_dataset_name (dh_alias h))
  else Ok false.

Definition DatasetRefPattern_matches (p : DatasetRefPattern) (h : DatasetHandle) : res unit bool :=
  match p with
  | DatasetRefPattern_Ref (DatasetRef_ID dataset_id) => Ok (bool_decide (dataset_id = dh_id h))
  | DatasetRefPattern_Ref (DatasetRef_Alias dataset_alias) => Ok (DatasetAlias_eq dataset_alias (dh_alias h))
  | DatasetRefPattern_Ref (DatasetRef_Handle hdl) => Ok (DatasetHandle_eq hdl h)
  | DatasetRefPattern_Pattern dataset_pattern => DatasetAliasPattern_matches dataset_pattern h
  end.
End References.
