(* ===== verification/ReferenceFacts.v ===== *)
(** What the parsers and printers of references do: they agree with the grammar
    and with each other. *)

From S2P Require Import Prelude Multiformats Grammar Dids Identity References.
From Stdlib Require Import Ascii String.

Local Open Scope char_scope.

(** * Names and aliases *)

Lemma untext_text s : untext (text s) = s.
Proof. apply string_of_list_ascii_of_string. Qed.
Lemma text_untext s : text (untext s) = s.
Proof. apply list_ascii_of_string_of_list_ascii. Qed.

(** A name as the parsers make them. *)
Definition name_ok (s : string) : Prop := hostname (text s).

Definition alias_ok (a : DatasetAlias) : Prop :=
  from_option (fun x => name_ok (an_str x)) True (da_account_name a) /\ name_ok (dn_str (da_dataset_name a)).

Definition remote_alias_ok (a : DatasetAliasRemote) : Prop :=
  name_ok (rn_str (dar_repo_name a)) /\
  from_option (fun x => name_ok (an_str x)) True (dar_account_name a) /\ name_ok (dn_str (dar_dataset_name a)).

Lemma newtype_parse {A} (mk : string -> A) (m : matcher) (L : lang) s x :
  (forall h, m s = Some (h, []) <-> h = s /\ L s) ->
  newtype_from_str mk m s = Ok x <-> L s /\ x = mk (untext s).
Proof.
  intros Hm. unfold newtype_from_str. split.
  - destruct (m s) as [[h [|c t]]|] eqn:Hs; [|done..]. intros [= <-].
    destruct (proj1 (Hm h) eq_refl) as [-> HL]. done.
  - intros [HL ->]. by rewrite (proj2 (Hm s) (conj eq_refl HL)).
Qed.

(** A name is parsed exactly if it is a host name, and kept as it is written. *)
Lemma dataset_name_parse s n : DatasetName_from_str s = Ok n <-> hostname s /\ text (dn_str n) = s.
Proof.
  unfold DatasetName_from_str. rewrite (newtype_parse _ _ hostname) by (apply match_hostname_all).
  split; intros [Hs ?]; (split; [done|]); destruct n as [n]; simplify_eq/=; [apply text_untext|].
  by rewrite untext_text.
Qed.

Lemma account_name_parse s n : AccountName_from_str s = Ok n <-> hostname s /\ text (an_str n) = s.
Proof.
  unfold AccountName_from_str. rewrite (newtype_parse _ _ hostname) by (apply match_hostname_all).
  split; intros [Hs ?]; (split; [done|]); destruct n as [n]; simplify_eq/=; [apply text_untext|].
  by rewrite untext_text.
Qed.

Lemma repo_name_parse s n : RepoName_from_str s = Ok n <-> hostname s /\ text (rn_str n) = s.
Proof.
  unfold RepoName_from_str. rewrite (newtype_parse _ _ hostname) by (apply match_hostname_all).
  split; intros [Hs ?]; (split; [done|]); destruct n as [n]; simplify_eq/=; [apply text_untext|].
  by rewrite untext_text.
Qed.

Lemma name_pattern_parse s n : DatasetNamePattern_from_str s = Ok n <->
  (hostname_pattern s \/ hostname s) /\ text (dnp_str n) = s.
Proof.
  unfold DatasetNamePattern_from_str.
  rewrite (newtype_parse _ _ (fun s => hostname_pattern s \/ hostname s))
    by (apply match_dataset_name_pattern_all).
  split; intros [Hs ?]; (split; [done|]); destruct n as [n]; simplify_eq/=; [apply text_untext|].
  by rewrite untext_text.
Qed.

Lemma alias_words_fmt a :
  alias_words ((fun x => text (an_str x)) <$> da_account_name a) (text (dn_str (da_dataset_name a))) =
  DatasetAlias_fmt a.
Proof. unfold DatasetAlias_fmt. destruct (da_account_name a); simpl; [by rewrite <- app_assoc|done]. Qed.

(** Text is parsed as an alias exactly if it is the alias as printed. *)
Lemma alias_parse s a : DatasetAlias_from_str s = Ok a <-> s = DatasetAlias_fmt a /\ alias_ok a.
Proof.
  unfold DatasetAlias_from_str. split.
  - destruct (match_dataset_alias s) as [[[acc ds] [|c t]]|] eqn:Hm; [|done..].
    apply match_dataset_alias_all in Hm as (-> & Hd & Ha). intros [= <-].
    rewrite <- alias_words_fmt. unfold alias_ok, name_ok. simpl. rewrite text_untext.
    destruct acc as [x|]; simpl in *; by rewrite ?text_untext.
  - intros (-> & Ha & Hd). rewrite <- alias_words_fmt.
    assert (Hm : match_dataset_alias (alias_words ((fun x => text (an_str x)) <$> da_account_name a)
              (text (dn_str (da_dataset_name a)))) =
            Some ((fun x => text (an_str x)) <$> da_account_name a, text (dn_str (da_dataset_name a)), [])).
    { apply match_dataset_alias_all. split_and!; [done|done|]. by destruct (da_account_name a). }
    rewrite Hm. destruct a as [[[x]|] [d]]; simpl; by rewrite !untext_text.
Qed.

Lemma remote_alias_words_fmt a :
  text (rn_str (dar_repo_name a)) ++
  "/" :: alias_words ((fun x => text (an_str x)) <$> dar_account_name a) (text (dn_str (dar_dataset_name a))) =
  DatasetAliasRemote_fmt a.
Proof. unfold DatasetAliasRemote_fmt. destruct (dar_account_name a); simpl; [by rewrite <- app_assoc|done]. Qed.

Lemma remote_alias_parse s a :
  DatasetAliasRemote_from_str s = Ok a <-> s = DatasetAliasRemote_fmt a /\ remote_alias_ok a.
Proof.
  unfold DatasetAliasRemote_from_str. split.
  - destruct (match_dataset_alias_remote s) as [[[[repo acc] ds] [|c t]]|] eqn:Hm; [|done..].
    apply match_dataset_alias_remote_all in Hm as (-> & Hr & Hd & Ha). intros [= <-].
    rewrite <- remote_alias_words_fmt. unfold remote_alias_ok, name_ok. simpl. rewrite !text_untext.
    destruct acc as [x|]; simpl in *; by rewrite ?text_untext.
  - intros (-> & Hr & Ha & Hd). rewrite <- remote_alias_words_fmt.
    assert (Hm : match_dataset_alias_remote (text (rn_str (dar_repo_name a)) ++ "/" ::
              alias_words ((fun x => text (an_str x)) <$> dar_account_name a)
              (text (dn_str (dar_dataset_name a)))) =
            Some (text (rn_str (dar_repo_name a)), (fun x => text (an_str x)) <$> dar_account_name a,
                  text (dn_str (dar_dataset_name a)), [])).
    { apply match_dataset_alias_remote_all. split_and!; [done|done|done|]. by destruct (dar_account_name a). }
    rewrite Hm. destruct a as [[r] [[x]|] [d]]; simpl; by rewrite !untext_text.
Qed.

Lemma alias_parse_err s : (forall a, DatasetAlias_from_str s <> Ok a) ->
  exists e, DatasetAlias_from_str s = Err e.
Proof.
  unfold DatasetAlias_from_str. destruct (match_dataset_alias s) as [[[acc ds] [|c t]]|]; [|eauto..].
  intros Hn. by destruct (Hn _ eq_refl).
Qed.

Lemma remote_alias_parse_err s : (forall a, DatasetAliasRemote_from_str s <> Ok a) ->
  exists e, DatasetAliasRemote_from_str s = Err e.
Proof.
  unfold DatasetAliasRemote_from_str.
  destruct (match_dataset_alias_remote s) as [[[[r acc] ds] [|c t]]|]; [|eauto..].
  intros Hn. by destruct (Hn _ eq_refl).
Qed.

Lemma name_parse_err s : ~ hostname s -> exists e, DatasetName_from_str s = Err e.
Proof.
  intros Hn. unfold DatasetName_from_str, newtype_from_str.
  destruct (match_dataset_name s) as [[h [|c t]]|] eqn:Hm; [|eauto..].
  apply match_hostname_all in Hm as [_ Hm]. done.
Qed.

(** * Text without colons *)

Definition colon_free (s : str) : Prop := ":" ∉ s.

Lemma alias_colon_free a : alias_ok a -> colon_free (DatasetAlias_fmt a).
Proof.
  intros [Ha Hd]. unfold colon_free, DatasetAlias_fmt. apply (hostname_without ":") in Hd; [|done].
  destruct (da_account_name a) as [x|]; simpl in *; [|done].
  apply (hostname_without ":") in Ha; [|done]. set_solver.
Qed.

Lemma remote_alias_colon_free a : remote_alias_ok a -> colon_free (DatasetAliasRemote_fmt a).
Proof.
  intros (Hr & Ha & Hd). unfold colon_free, DatasetAliasRemote_fmt.
  apply (hostname_without ":") in Hd; [|done]. apply (hostname_without ":") in Hr; [|done].
  destruct (dar_account_name a) as [x|]; simpl in *; [|set_solver].
  apply (hostname_without ":") in Ha; [|done]. set_solver.
Qed.

Lemma remote_id_colon s repo id : match_remote_dataset_id s = Some (repo, id, []) -> ~ colon_free s.
Proof.
  intros Hm. apply match_remote_dataset_id_sound in Hm as (-> & _ & m & -> & _). unfold colon_free, odf_prefix.
  destruct repo; simpl; set_solver.
Qed.

(** Text without a colon is not an identifier. *)
Lemma colon_free_not_id s : colon_free s ->
  match match_remote_dataset_id s with Some (_, _, []) => False | _ => True end.
Proof.
  intros Hs. destruct (match_remote_dataset_id s) as [[[repo id] [|]]|] eqn:Hm; [|done..].
  by apply remote_id_colon in Hm.
Qed.

(** * References *)

Class LawfulUrlCrate (Url : Type) `{UrlCrate Url} : Prop := {
  Url_inverse : forall u, Url_from_str (Url_fmt u) = Some u
}.

(** A URL of the form [scheme://...]. *)
Definition url_ok {Url} `{UrlCrate Url} (u : Url) : Prop := is_Some (match_url (Url_fmt u)).

Definition id_ok (id : DatasetID) : Prop := DidKey_ok (do_did (did_did id)).

Definition ref_ok (r : DatasetRef) : Prop :=
  match r with
  | DatasetRef_ID id => id_ok id
  | DatasetRef_Alias a => alias_ok a
  | DatasetRef_Handle h => alias_ok (dh_alias h)
  end.

Definition remote_ref_ok {Url} `{UrlCrate Url} (r : DatasetRefRemote Url) : Prop :=
  match r with
  | DatasetRefRemote_ID repo id => from_option (fun x => name_ok (rn_str x)) True repo /\ id_ok id
  | DatasetRefRemote_Alias a => remote_alias_ok a
  | DatasetRefRemote_Url u => url_ok u
  | DatasetRefRemote_Handle h => remote_alias_ok (dhr_alias h)
  end.

Definition any_ref_ok {Url} `{UrlCrate Url} (r : DatasetRefAny Url) : Prop :=
  match r with
  | DatasetRefAny_ID repo id => from_option (fun x => name_ok (rn_str x)) True repo /\ id_ok id
  | DatasetRefAny_RemoteAlias repo account name => remote_alias_ok (mkDatasetAliasRemote repo account name)
  | DatasetRefAny_LocalAlias account name => alias_ok (mkDatasetAlias account name)
  | DatasetRefAny_AmbiguousAlias prefix name => name_ok prefix /\ name_ok (dn_str name)
  | DatasetRefAny_Url u => url_ok u
  | DatasetRefAny_LocalHandle h => alias_ok (dh_alias h)
  | DatasetRefAny_RemoteHandle h => remote_alias_ok (dhr_alias h)
  end.

(** What printing keeps: handles are printed as aliases, and text does not tell
    accounts from repositories. *)
Definition reread (r : DatasetRef) : DatasetRef :=
  match r with DatasetRef_Handle h => DatasetRef_Alias (dh_alias h) | _ => r end.

Definition reread_remote {Url} (r : DatasetRefRemote Url) : DatasetRefRemote Url :=
  match r with DatasetRefRemote_Handle h => DatasetRefRemote_Alias (dhr_alias h) | _ => r end.

Definition reread_local_alias {Url} (a : DatasetAlias) : DatasetRefAny Url :=
  match da_account_name a with
  | Some x => DatasetRefAny_AmbiguousAlias (an_str x) (da_dataset_name a)
  | None => DatasetRefAny_LocalAlias None (da_dataset_name a)
  end.

Definition reread_remote_alias {Url} (a : DatasetAliasRemote) : DatasetRefAny Url :=
  match dar_account_name a with
  | Some x => DatasetRefAny_RemoteAlias (dar_repo_name a) (Some x) (dar_dataset_name a)
  | None => DatasetRefAny_AmbiguousAlias (rn_str (dar_repo_name a)) (dar_dataset_name a)
  end.

Definition reread_any {Url} (r : DatasetRefAny Url) : DatasetRefAny Url :=
  match r with
  | DatasetRefAny_RemoteAlias repo account name => reread_remote_alias (mkDatasetAliasRemote repo account name)
  | DatasetRefAny_LocalAlias account name => reread_local_alias (mkDatasetAlias account name)
  | DatasetRefAny_LocalHandle h => reread_local_alias (dh_alias h)
  | DatasetRefAny_RemoteHandle h => reread_remote_alias (dhr_alias h)
  | _ => r
  end.

Section RoundTrips.
Context `{LawfulTextCodecs} {Url : Type} `{LawfulUrlCrate Url}.

Lemma colon_free_not_did s : colon_free s -> exists e, DatasetID_from_did_str s = Err e.
Proof.
  intros Hs. unfold DatasetID_from_did_str, DidOdf_from_did_str.
  destruct (strip_prefix odf_prefix s) as [t|] eqn:Hp; [|simpl; eauto].
  apply strip_prefix_some in Hp as ->. exfalso. apply Hs. unfold odf_prefix. set_solver.
Qed.

Lemma id_text_inverse id : id_ok id ->
  exists m, DatasetID_fmt id = Ok (odf_prefix ++ m) /\ DatasetID_from_did_str (odf_prefix ++ m) = Ok id /\
    all_of is_multibase m /\ "/" ∉ m.
Proof.
  intros Hid. destruct (did_odf_text_inverse (did_did id) Multibase_Base16 Hid) as (m & Hf & Hp & Hne & Hm).
  exists m. unfold DatasetID_fmt, DatasetID_from_did_str, DidOdf_as_did_str. rewrite Hf, Hp.
  split_and!; [done|by destruct id|split; [done|by apply alphanums_multibase]|].
  intros Hin. rewrite Forall_forall in Hm. by apply Hm in Hin.
Qed.

(** Printing a local reference and parsing the text gives the reference back. *)
Lemma ref_text_inverse r : ref_ok r ->
  exists s, DatasetRef_fmt r = Ok s /\ DatasetRef_from_str s = Ok (reread r).
Proof.
  assert (Ha : forall a, alias_ok a -> DatasetRef_from_str (DatasetAlias_fmt a) = Ok (DatasetRef_Alias a)).
  { intros a Ha. unfold DatasetRef_from_str. destruct (colon_free_not_did _ (alias_colon_free a Ha)) as [e ->].
    by rewrite (proj2 (alias_parse _ a)). }
  destruct r as [id|a|h]; simpl; intros Hr; [|eauto..].
  destruct (id_text_inverse id Hr) as (m & Hf & Hp & _). exists (odf_prefix ++ m). split; [done|].
  unfold DatasetRef_from_str. by rewrite Hp.
Qed.

(** ** Identifiers with a repository *)

Lemma remote_id_text repo id : from_option (fun x => name_ok (rn_str x)) True repo -> id_ok id ->
  exists s t, remote_id_fmt repo id = Ok s /\
    match_remote_dataset_id s = Some ((fun x => text (rn_str x)) <$> repo, t, []) /\
    DatasetID_from_did_str t = Ok id.
Proof.
  intros Hr Hid. destruct (id_text_inverse id Hid) as (m & Hf & Hp & Hm & Hs).
  exists (remote_id_words ((fun x => text (rn_str x)) <$> repo) (odf_prefix ++ m)), (odf_prefix ++ m).
  split_and!; [|by apply match_remote_dataset_id_complete; [by destruct repo| |]|done].
  unfold remote_id_fmt. rewrite Hf. by destruct repo.
Qed.

Lemma repo_reread (repo : option RepoName) :
  ((fun r => mkRepoName (untext r)) <$> ((fun x => text (rn_str x)) <$> repo)) = repo.
Proof. destruct repo as [[r]|]; simpl; by rewrite ?untext_text. Qed.

(** ** URLs *)

Lemma url_words u : url_ok u ->
  exists scheme rest, Url_fmt u = scheme ++ [":"; "/"; "/"] ++ rest /\ (":" ∉ scheme) /\ ("/" ∉ scheme).
Proof.
  intros Hu. apply match_url_all in Hu as (scheme & rest & -> & Hs). exists scheme, rest. split; [done|].
  assert (Hc : Forall (fun c => c <> ":" /\ c <> "/") scheme).
  { eapply separated_chars; [| |exact Hs]; [done|]. intros x [_ Hx]. eapply Forall_impl; [exact Hx|].
    by intros c Hc; split; intros ->. }
  rewrite Forall_forall in Hc. split; intros Hin; by destruct (Hc _ Hin).
Qed.

Lemma url_colon u : url_ok u -> ~ colon_free (Url_fmt u).
Proof. intros Hu Hc. destruct (url_words u Hu) as (s & r & Hs & _). apply Hc. rewrite Hs. set_solver. Qed.

Lemma url_split u : url_ok u -> exists x y, split_once "/" (Url_fmt u) = Some (x, y) /\ ":" ∈ x /\
  ~ (odf_prefix `prefix_of` Url_fmt u).
Proof.
  intros Hu. destruct (url_words u Hu) as (s & r & -> & Hc & Hs).
  exists (s ++ [":"]), ("/" :: r). split_and!; [|set_solver|].
  - apply split_once_some. rewrite <- app_assoc. split; [done|set_solver].
  - intros [t Ht]. unfold odf_prefix in Ht.
    destruct s as [|c1 [|c2 [|c3 [|c4 s]]]]; simplify_eq/=; set_solver.
Qed.

Lemma url_not_id u : url_ok u ->
  match match_remote_dataset_id (Url_fmt u) with Some (_, _, []) => False | _ => True end.
Proof.
  intros Hu. destruct (match_remote_dataset_id (Url_fmt u)) as [[[repo id] [|]]|] eqn:Hm; [|done..].
  destruct (url_split u Hu) as (x & y & Hs & Hx & Hp). unfold match_remote_dataset_id in Hm.
  rewrite Hs in Hm. destruct (match_repo_name x) as [[r [|]]|] eqn:Hr; [|done..].
  apply match_hostname_all in Hr as [_ Hr]. by apply (hostname_without ":") in Hr.
Qed.

Lemma url_not_alias u : url_ok u -> exists e, DatasetAliasRemote_from_str (Url_fmt u) = Err e.
Proof.
  intros Hu. apply remote_alias_parse_err. intros a Ha. apply remote_alias_parse in Ha as [Hf Ha].
  apply (url_colon u Hu). rewrite Hf. by apply remote_alias_colon_free.
Qed.

Lemma url_reference_fmt u : url_ok u -> url_reference (Url_fmt u) = Ok u.
Proof. intros [x Hu]. unfold url_reference. by rewrite Hu, Url_inverse. Qed.

(** Printing a remote reference and parsing the text gives the reference back. *)
Lemma remote_ref_text_inverse (r : DatasetRefRemote Url) : remote_ref_ok r ->
  exists s, DatasetRefRemote_fmt r = Ok s /\ DatasetRefRemote_from_str s = Ok (reread_remote r).
Proof.
  assert (Ha : forall a, remote_alias_ok a ->
            DatasetRefRemote_from_str (Url := Url) (DatasetAliasRemote_fmt a) = Ok (DatasetRefRemote_Alias a)).
  { intros a Ha. unfold DatasetRefRemote_from_str.
    pose proof (colon_free_not_id _ (remote_alias_colon_free a Ha)) as Hn.
    rewrite (proj2 (remote_alias_parse _ a)) by done.
    destruct (match_remote_dataset_id _) as [[[? ?] [|]]|]; done. }
  destruct r as [repo id|a|u|h]; simpl; intros Hr; [|by eauto| |by eauto].
  - destruct Hr as [Hr Hid]. destruct (remote_id_text repo id Hr Hid) as (s & t & Hf & Hm & Hp).
    exists s. split; [done|]. unfold DatasetRefRemote_from_str. rewrite Hm, Hp. by rewrite repo_reread.
  - eexists. split; [done|]. unfold DatasetRefRemote_from_str.
    pose proof (url_not_id u Hr) as Hn. destruct (url_not_alias u Hr) as [e ->].
    rewrite url_reference_fmt by done. by destruct (match_remote_dataset_id _) as [[[? ?] [|]]|].
Qed.

(** ** References of any kind *)

Lemma any_colon_free s : colon_free s ->
  DatasetRefAny_from_str (Url := Url) s =
    match DatasetName_from_str s with
    | Ok n => Ok (DatasetRefAny_LocalAlias None n)
    | Err _ => match DatasetAliasRemote_from_str s with
               | Ok a => Ok (reread_remote_alias a)
               | Err _ => map_ok DatasetRefAny_Url (url_reference s)
               | Panic => Panic
               end
    | Panic => Panic
    end.
Proof.
  intros Hs. pose proof (colon_free_not_id s Hs) as Hn. unfold DatasetRefAny_from_str, reread_remote_alias.
  destruct (match_remote_dataset_id s) as [[[? ?] [|]]|]; try done;
    repeat case_match; done.
Qed.

Lemma slash_not_name x y : exists e, DatasetName_from_str (x ++ "/" :: y) = Err e.
Proof. apply name_parse_err. intros Hn. apply (hostname_without "/") in Hn; [set_solver|done]. Qed.

Lemma any_remote_alias a : remote_alias_ok a ->
  DatasetRefAny_from_str (Url := Url) (DatasetAliasRemote_fmt a) = Ok (reread_remote_alias a).
Proof.
  intros Ha. rewrite any_colon_free by (by apply remote_alias_colon_free).
  rewrite (proj2 (remote_alias_parse _ a)) by done. rewrite <- remote_alias_words_fmt.
  by destruct (slash_not_name (text (rn_str (dar_repo_name a)))
    (alias_words ((fun x => text (an_str x)) <$> dar_account_name a) (text (dn_str (dar_dataset_name a)))))
    as [e ->].
Qed.

Lemma any_local_alias a : alias_ok a ->
  DatasetRefAny_from_str (Url := Url) (DatasetAlias_fmt a) = Ok (reread_local_alias a).
Proof.
  intros Ha. destruct a as [[x|] n]; unfold reread_local_alias; simpl.
  - pose proof (any_remote_alias (mkDatasetAliasRemote (mkRepoName (an_str x)) None n)) as Hr.
    unfold DatasetAliasRemote_fmt, reread_remote_alias in Hr. simpl in Hr.
    unfold DatasetAlias_fmt. simpl. rewrite <- app_assoc. apply Hr. destruct Ha as [Hx Hn]. by repeat split.
  - rewrite any_colon_free by (by apply alias_colon_free).
    destruct Ha as [_ Hn]. unfold DatasetAlias_fmt. simpl in *.
    by rewrite (proj2 (dataset_name_parse _ n)).
Qed.

Lemma any_ambiguous_alias p n : name_ok p -> name_ok (dn_str n) ->
  DatasetRefAny_from_str (Url := Url) (text p ++ ["/"] ++ text (dn_str n)) =
    Ok (DatasetRefAny_AmbiguousAlias p n).
Proof.
  intros Hp Hn. by apply (any_remote_alias (mkDatasetAliasRemote (mkRepoName p) None n)).
Qed.

(** Printing any reference and parsing the text gives the reference back, up to
    what text cannot tell. *)
Lemma any_ref_text_inverse (r : DatasetRefAny Url) : any_ref_ok r ->
  exists s, DatasetRefAny_fmt r = Ok s /\ DatasetRefAny_from_str s = Ok (reread_any r).
Proof.
  destruct r as [repo id|repo account name|account name|p name|u|h|h]; cbn [any_ref_ok reread_any]; intros Hr.
  - destruct Hr as [Hr Hid]. destruct (remote_id_text repo id Hr Hid) as (s & t & Hf & Hm & Hp).
    exists s. split; [done|]. unfold DatasetRefAny_from_str. rewrite Hm, Hp. by rewrite repo_reread.
  - eexists. split; [|by apply any_remote_alias]. unfold DatasetAliasRemote_fmt. simpl.
    destruct account; simpl; by rewrite <- ?app_assoc.
  - eexists. split; [|by apply any_local_alias]. unfold DatasetAlias_fmt. simpl.
    destruct account; simpl; by rewrite <- ?app_assoc.
  - destruct Hr as [Hp Hn]. eexists. split; [done|]. by apply any_ambiguous_alias.
  - eexists. split; [done|]. unfold DatasetRefAny_from_str.
    pose proof (url_not_id u Hr) as Hn. destruct (url_not_alias u Hr) as [e ->].
    destruct (name_parse_err (Url_fmt u)) as [e' ->].
    { intros Hh. apply (url_colon u Hr). by apply hostname_without. }
    rewrite url_reference_fmt by done. by destruct (match_remote_dataset_id _) as [[[? ?] [|]]|].
  - eexists. split; [done|]. by apply any_local_alias.
  - eexists. split; [done|]. by apply any_remote_alias.
Qed.
End RoundTrips.

(** * Telling local from remote *)

(** [is_repo] knows what the names in [r] stand for. *)
Definition knows {Url} (is_repo : RepoName -> bool) (r : DatasetRefAny Url) : Prop :=
  match r with
  | DatasetRefAny_LocalAlias (Some x) _ => is_repo (mkRepoName (an_str x)) = false
  | DatasetRefAny_RemoteAlias repo None _ => is_repo repo = true
  | DatasetRefAny_LocalHandle h =>
      from_option (fun x => is_repo (mkRepoName (an_str x)) = false) True (da_account_name (dh_alias h))
  | DatasetRefAny_RemoteHandle h =>
      dar_account_name (dhr_alias h) = None -> is_repo (dar_repo_name (dhr_alias h)) = true
  | _ => True
  end.

(** With the right oracle nothing is lost by going through text. *)
Lemma reread_local {Url} is_repo (r : DatasetRefAny Url) : knows is_repo r ->
  DatasetRefAny_into_local_ref is_repo (reread_any r) =
    map_err reread_remote (map_ok reread (DatasetRefAny_into_local_ref is_repo r)).
Proof.
  destruct r as [[]|repo [x|] name|[x|] name|p name|u|[id [[x|] n]]|[id [repo [x|] n]]]; simpl; intros Hk;
    unfold reread_remote_alias, reread_local_alias; simpl; try done;
    try (by destruct (is_repo _)); try (destruct repo; simpl in *; rewrite Hk; done); rewrite Hk; by destruct x.
Qed.

(** A reference is either local or remote, except an identifier without a
    repository, which is both. *)
Lemma local_or_remote {Url} is_repo (r : DatasetRefAny Url) :
  match DatasetRefAny_into_local_ref is_repo r, DatasetRefAny_into_remote_ref is_repo r with
  | Ok l, Err l' => l = l'
  | Err x, Ok x' => x = x'
  | Ok l, Ok x => exists id, l = DatasetRef_ID id /\ x = DatasetRefRemote_ID None id /\ r = DatasetRefAny_ID None id
  | _, _ => False
  end.
Proof.
  destruct r as [[repo|] id|repo account name|account name|p name|u|h|h]; simpl; try done; [by eexists|].
  by destruct (is_repo _).
Qed.

Lemma from_local_inverse {Url} is_repo v :
  DatasetRefAny_into_local_ref (Url := Url) is_repo (DatasetRefAny_from_local v) = Ok v.
Proof. by destruct v as [id|[]|h]. Qed.

Lemma from_remote_inverse {Url} is_repo (v : DatasetRefRemote Url) :
  DatasetRefAny_into_remote_ref is_repo (DatasetRefAny_from_remote v) = Ok v.
Proof. by destruct v as [repo id|[]|u|h]. Qed.

(** * Patterns *)

Definition name_pattern_ok (p : DatasetNamePattern) : Prop :=
  hostname_pattern (text (dnp_str p)) \/ hostname (text (dnp_str p)).

Definition alias_pattern_ok (p : DatasetAliasPattern) : Prop :=
  from_option (fun x => name_ok (an_str x)) True (dap_account_name p) /\
  name_pattern_ok (dap_dataset_name_pattern p).

Definition alias_pattern_fmt (p : DatasetAliasPattern) : str :=
  match dap_account_name p with Some account_name => text (an_str account_name) ++ ["/"] | None => [] end ++
  text (dnp_str (dap_dataset_name_pattern p)).

(** Characters of a pattern. *)
Lemma separator_slash x : opt separator x -> "/" ∉ x.
Proof. intros [->|[-> | ->]]; set_solver. Qed.

Lemma wildcards_slash x : wildcards x -> "/" ∉ x.
Proof.
  intros (? & y & -> & <- & Hy). assert (Forall (fun c => c = "%") y) as Hf.
  { eapply many_chars; [|exact Hy]. intros ? <-. by repeat constructor. }
  rewrite Forall_forall in Hf. intros Hin. rewrite elem_of_app in Hin. destruct Hin as [Hin|Hin]; [set_solver|].
  by apply Hf in Hin.
Qed.

Lemma pattern_slash s : hostname_pattern s -> "/" ∉ s.
Proof.
  assert (Hh : forall x, hostname x -> "/" ∉ x) by (intros; by apply hostname_without).
  assert (Hm : forall x, middle_element x -> "/" ∉ x).
  { intros x [(a & r & -> & Ha & h & b & -> & ?%Hh & ?%separator_slash)|Hx]; [|by apply separator_slash; right].
    apply separator_slash in Ha. set_solver. }
  intros (a & ? & -> & Ha & b & ? & -> & Hb & c & d & -> & Hc%wildcards_slash & Hd).
  assert (Hb' : Forall (fun c => c <> "/") b).
  { eapply many_chars; [|exact Hb]. intros _ (w & m & -> & Hw%wildcards_slash & Hm'%Hm).
    apply Forall_forall. intros x Hx ->. set_solver. }
  rewrite Forall_forall in Hb'.
  assert ("/" ∉ a).
  { destruct Ha as [->|(h & x & -> & ?%Hh & ?%separator_slash)]; set_solver. }
  assert ("/" ∉ d).
  { destruct Hd as [->|(x & h & -> & ?%separator_slash & ?%Hh)]; set_solver. }
  assert ("/" ∉ b) by (intros Hin; by apply Hb' in Hin). set_solver.
Qed.

Lemma name_pattern_slash p : name_pattern_ok p -> "/" ∉ text (dnp_str p).
Proof. intros [Hp|Hp]; [by apply pattern_slash|by apply hostname_without]. Qed.

(** An alias pattern is parsed exactly if it is the text of a pattern of names
    behind an optional account. *)
Lemma alias_pattern_parse s p :
  DatasetAliasPattern_from_str s = Ok p <-> s = alias_pattern_fmt p /\ alias_pattern_ok p.
Proof.
  unfold DatasetAliasPattern_from_str, alias_pattern_fmt, alias_pattern_ok. split.
  - destruct (split_once "/" s) as [[acc d]|] eqn:Hs.
    + apply split_once_some in Hs as [-> _].
      destruct (DatasetNamePattern_from_str d) as [np| |] eqn:Hn; [|done..].
      destruct (AccountName_from_str acc) as [an| |] eqn:Ha; [|done..]. intros [= <-]. simpl.
      apply name_pattern_parse in Hn as [Hn <-]. apply account_name_parse in Ha as [Ha <-].
      by rewrite <- app_assoc.
    + destruct (DatasetNamePattern_from_str s) as [np| |] eqn:Hn; [|done..]. intros [= <-]. simpl.
      by apply name_pattern_parse in Hn as [Hn <-].
  - intros (-> & Ha & Hn). destruct p as [[x|] np]; simpl in *.
    + rewrite <- app_assoc. simpl. rewrite split_host by done.
      rewrite (proj2 (name_pattern_parse _ np)) by done. by rewrite (proj2 (account_name_parse _ x)).
    + rewrite (proj2 (split_once_none _ _)) by (by apply name_pattern_slash).
      by rewrite (proj2 (name_pattern_parse _ np)).
Qed.

(** The repository of a parsed pattern can always be read. *)
Lemma pattern_repo_name_total `{TextCodecs} {Url} `{UrlCrate Url} s (p : DatasetRefAnyPattern Url) mt :
  DatasetRefAnyPattern_from_str s = Ok p ->
  exists r, DatasetRefAnyPattern_pattern_repo_name p mt = Ok r /\
    (is_Some r <-> DatasetRefAnyPattern_is_remote_pattern p mt = true).
Proof.
  intros Hp. unfold DatasetRefAnyPattern_from_str in Hp.
  repeat case_match; simplify_eq/=; try (eexists; split; [done|]; split; [intros [? [=]]|]; done);
    try (eexists; split; [done|]; split; [done|eauto]; done).
  - destruct mt; [eexists; split; [done|]; split; [intros [? [=]]|]; done|].
    match goal with Hr : RepoName_from_str _ = Ok ?r |- _ =>
      apply repo_name_parse in Hr as [Hh Hr]; rewrite Hr; rewrite (proj2 (repo_name_parse _ r)) by done end.
    eexists. split; [done|]. split; eauto.
Qed.

(** * Where the parsers and orderings misbehave *)

(** The parser of local references panics on a DID without a key. *)
Lemma empty_did_panics `{TextCodecs} : DatasetRef_from_str odf_prefix = Panic.
Proof. done. Qed.

(** Equal references may be ordered apart: the ordering sees the case of account
    names and equality does not. *)
Lemma any_cmp_sees_case {Url} `{UrlCrate Url} :
  let a := DatasetRefAny_LocalAlias (Url := Url) (Some (mkAccountName "kamu")) (mkDatasetName "x") in
  let b := DatasetRefAny_LocalAlias (Url := Url) (Some (mkAccountName "KAMU")) (mkDatasetName "x") in
  DatasetRefAny_eq a b = true /\ DatasetRefAny_cmp a b <> Eq.
Proof. by vm_compute. Qed.
