(* ===== verification/TextCodecsExample.v ===== *)
(** Concrete codecs that obey the laws assumed of the text codecs: hexadecimal
    digits, and varints of seven bits per byte. *)

From S2P Require Import Prelude Multiformats Grammar Dids Identity References ReferenceFacts.
From Stdlib Require Import Ascii.

Local Open Scope Z_scope.

(** * Hexadecimal digits *)

Definition hex_digit (n : Z) : ascii :=
  ascii_of_N (Z.to_N (if n <? 10 then n + 48 else n + 87)).

Definition hex_value (c : ascii) : option Z :=
  let n := Z.of_N (N_of_ascii c) in
  if (48 <=? n) && (n <=? 57) then Some (n - 48)
  else if (97 <=? n) && (n <=? 102) then Some (n - 87)
  else None.

Fixpoint to_hex (b : list u8) : str :=
  match b with
  | [] => []
  | x :: b' => hex_digit (x / 16) :: hex_digit (x mod 16) :: to_hex b'
  end.

Fixpoint of_hex (s : str) : option (list u8) :=
  match s with
  | [] => Some []
  | c :: d :: s' =>
      x ← hex_value c; y ← hex_value d; b ← of_hex s'; Some (x * 16 + y :: b)
  | _ => None
  end.

(** * Varints *)

Fixpoint varint (fuel : nat) (z : Z) : list u8 :=
  match fuel with
  | 0%nat => []
  | S fuel' => if z <? 128 then [z] else z mod 128 + 128 :: varint fuel' (z / 128)
  end.

Fixpoint of_varint (l : list u8) : option (Z * list u8) :=
  match l with
  | [] => None
  | b :: l' => if b <? 128 then Some (b, l') else '(z, rest) ← of_varint l'; Some (b - 128 + 128 * z, rest)
  end.

#[export] Instance example_codecs : TextCodecs := {|
  hex_encode := to_hex;
  hex_decode_to_slice s n := b ← of_hex s; if decide (length b = n) then Some b else None;
  bs58_encode := to_hex;
  bs58_decode_onto s n :=
    match of_hex s with
    | Some b => if decide (length b <= n)%nat then Ok b else Err Bs58Error_BufferTooSmall
    | None => Err Bs58Error_Other
    end;
  uvar_encode_u32 := varint 5;
  uvar_decode_u32 := of_varint;
  uvar_decode_usize := of_varint
|}.

(** * The laws *)

Lemma digit_facts n : 0 <= n < 16 ->
  hex_value (hex_digit n) = Some n /\ is_ascii_alphanumeric (hex_digit n) = true.
Proof.
  intros Hn.
  assert (Hall : forallb (fun n => bool_decide (hex_value (hex_digit n) = Some n) &&
            is_ascii_alphanumeric (hex_digit n)) (seqZ 0 16) = true) by (by vm_compute).
  rewrite forallb_forall in Hall. specialize (Hall n).
  rewrite andb_true_iff, bool_decide_eq_true in Hall. apply Hall, list_elem_of_In, elem_of_seqZ. lia.
Qed.

Lemma byte_digits x : is_byte x -> 0 <= x / 16 < 16 /\ 0 <= x mod 16 < 16.
Proof.
  intros [Hl Hh]. split; [|apply Z.mod_pos_bound; lia].
  split; [apply Z.div_pos; lia|]. apply Z.div_lt_upper_bound; lia.
Qed.

Lemma of_hex_to_hex b : Forall is_byte b -> of_hex (to_hex b) = Some b.
Proof.
  intros Hb. induction Hb as [|x b Hx _ IH]; [done|]. destruct (byte_digits x Hx) as [Hq Hr]. simpl.
  rewrite (proj1 (digit_facts _ Hq)), (proj1 (digit_facts _ Hr)), IH. simpl. f_equal. f_equal.
  rewrite Z.mul_comm. symmetry. apply Z.div_mod. lia.
Qed.

Lemma to_hex_length b : length (to_hex b) = (2 * length b)%nat.
Proof. induction b as [|x b IH]; simpl; lia. Qed.

Lemma to_hex_chars b : Forall is_byte b -> Forall (fun c => is_ascii_alphanumeric c = true) (to_hex b).
Proof.
  intros Hb. induction Hb as [|x b Hx _ IH]; [done|]. destruct (byte_digits x Hx) as [Hq Hr]. simpl.
  repeat constructor; [by apply digit_facts..|done].
Qed.

Lemma varint_inverse fuel z rest : 0 <= z < 2 ^ (7 * Z.of_nat fuel) -> (0 < fuel)%nat ->
  of_varint (varint fuel z ++ rest) = Some (z, rest).
Proof.
  revert z. induction fuel as [|fuel IH]; intros z Hz Hf; [lia|]. simpl.
  destruct (z <? 128) eqn:Hs; simpl; [by rewrite Hs|].
  apply Z.ltb_ge in Hs. pose proof (Z.mod_pos_bound z 128 ltac:(lia)) as Hm.
  destruct (z mod 128 + 128 <? 128) eqn:Hb; [apply Z.ltb_lt in Hb; lia|].
  assert (Hp : 2 ^ (7 * Z.of_nat (S fuel)) = 128 * 2 ^ (7 * Z.of_nat fuel)).
  { replace (7 * Z.of_nat (S fuel)) with (7 + 7 * Z.of_nat fuel) by lia. rewrite Z.pow_add_r by lia. done. }
  rewrite IH; simpl.
  - f_equal. f_equal. pose proof (Z.div_mod z 128 ltac:(lia)). lia.
  - split; [apply Z.div_pos; lia|]. apply Z.div_lt_upper_bound; lia.
  - destruct fuel; [|lia]. simpl in *. lia.
Qed.

Lemma varint_length fuel z k : 0 <= z -> (0 < k)%nat -> z < 2 ^ (7 * Z.of_nat k) ->
  (length (varint fuel z) <= k)%nat.
Proof.
  revert z k. induction fuel as [|fuel IH]; intros z k Hz Hk Hlt; simpl; [lia|].
  destruct (z <? 128) eqn:Hs; simpl; [lia|]. apply Z.ltb_ge in Hs.
  destruct k as [|[|k]]; [lia| |]; [change (2 ^ (7 * Z.of_nat 1)) with 128 in Hlt; lia|].
  assert (length (varint fuel (z / 128)) <= S k)%nat; [|lia]. apply IH; [apply Z.div_pos; lia|lia|].
  apply Z.div_lt_upper_bound; [lia|].
  replace (7 * Z.of_nat (S (S k))) with (7 + 7 * Z.of_nat (S k)) in Hlt by lia.
  rewrite Z.pow_add_r in Hlt by lia. done.
Qed.

Lemma varint_bytes fuel z : 0 <= z -> Forall is_byte (varint fuel z).
Proof.
  revert z. induction fuel as [|fuel IH]; intros z Hz; simpl; [done|].
  destruct (z <? 128) eqn:Hs; [apply Z.ltb_lt in Hs; repeat constructor; lia|].
  pose proof (Z.mod_pos_bound z 128 ltac:(lia)). constructor; [split; lia|]. apply IH, Z.div_pos; lia.
Qed.

#[export] Instance example_codecs_lawful : LawfulTextCodecs.
Proof.
  split.
  - intros b Hb. simpl. rewrite of_hex_to_hex by done. simpl. by rewrite decide_True.
  - apply to_hex_length.
  - apply to_hex_chars.
  - intros b n Hb Hn. simpl. rewrite of_hex_to_hex by done. by rewrite decide_True.
  - intros b. simpl. by rewrite to_hex_length.
  - apply to_hex_chars.
  - intros z rest Hz. apply varint_inverse; [|lia]. split; [lia|]. apply Z.lt_trans with (2 ^ 32); [lia|done].
  - intros z rest Hz. apply varint_inverse; [|lia]. split; [lia|]. apply Z.lt_trans with (2 ^ 32); [lia|done].
  - intros z k Hz Hk Hlt. by apply varint_length; [lia| |].
  - intros z Hz. apply varint_bytes. lia.
Qed.

(** * URLs as their text *)

#[export] Instance example_urls : UrlCrate str := {|
  Url_from_str s := Some s;
  Url_fmt u := u;
  Url_cmp x y := list_cmp (fun a b => N.compare (N_of_ascii a) (N_of_ascii b)) x y
|}.

#[export] Instance example_urls_lawful : LawfulUrlCrate str.
Proof. by split. Qed.

Definition example_id : DatasetID := mkDatasetID (mkDidOdf (mkDidKey (replicate 32 7))).

Lemma example_id_ok : id_ok example_id.
Proof. split; [done|]. apply Forall_replicate. split; lia. Qed.
