(* ===== verification/Dtos.v ===== *)
(** The Open Data Fabric data model: every type of
    src/domain/opendatafabric/src/dtos/dtos_generated.rs, the helpers of
    dtos_extra.rs, the event type flags, and the typed and data-stream views
    of metadata blocks (metadata/metadata_block_types.rs).

    A struct [S] is the record [S] with constructor [mkS]; its fields carry a
    short prefix, because field names repeat across structs.  A variant [E::V]
    of an enum is the constructor [E_V]. *)

From S2P Require Import Prelude Multiformats Identity.

(** * Types *)

Record Checkpoint := mkCheckpoint {
  cp_physical_hash : Multihash;
  cp_size : u64
}.

Record OffsetInterval := mkOffsetInterval {
  oi_start : u64;
  oi_end : u64
}.

Record DataSlice := mkDataSlice {
  ds_logical_hash : Multihash;
  ds_physical_hash : Multihash;
  ds_offset_interval : OffsetInterval;
  ds_size : u64
}.

Record SourceState := mkSourceState {
  ss_source_name : string;
  ss_kind : string;
  ss_value : string
}.

Record AddData := mkAddData {
  ad_prev_checkpoint : option Multihash;
  ad_prev_offset : option u64;
  ad_new_data : option DataSlice;
  ad_new_checkpoint : option Checkpoint;
  ad_new_watermark : option DateTime;
  ad_new_source_state : option SourceState
}.

Record MergeStrategyAppend := mkMergeStrategyAppend {}.

Record MergeStrategyLedger := mkMergeStrategyLedger {
  msl_primary_key : list string
}.

Record MergeStrategySnapshot := mkMergeStrategySnapshot {
  mss_primary_key : list string;
  mss_compare_columns : option (list string)
}.

Inductive MergeStrategy :=
| MergeStrategy_Append (v : MergeStrategyAppend)
| MergeStrategy_Ledger (v : MergeStrategyLedger)
| MergeStrategy_Snapshot (v : MergeStrategySnapshot).

Record ReadStepCsv := mkReadStepCsv {
  rsc_schema : option (list string);
  rsc_separator : option string;
  rsc_encoding : option string;
  rsc_quote : option string;
  rsc_escape : option string;
  rsc_header : option bool;
  rsc_infer_schema : option bool;
  rsc_null_value : option string;
  rsc_date_format : option string;
  rsc_timestamp_format : option string
}.

Record ReadStepGeoJson := mkReadStepGeoJson {
  rsg_schema : option (list string)
}.

Record ReadStepEsriShapefile := mkReadStepEsriShapefile {
  rse_schema : option (list string);
  rse_sub_path : option string
}.

Record ReadStepParquet := mkReadStepParquet {
  rsp_schema : option (list string)
}.

Record ReadStepJson := mkReadStepJson {
  rsj_sub_path : option string;
  rsj_schema : option (list string);
  rsj_date_format : option string;
  rsj_encoding : option string;
  rsj_timestamp_format : option string
}.

Record ReadStepNdJson := mkReadStepNdJson {
  rsn_schema : option (list string);
  rsn_date_format : option string;
  rsn_encoding : option string;
  rsn_timestamp_format : option string
}.

Record ReadStepNdGeoJson := mkReadStepNdGeoJson {
  rsng_schema : option (list string)
}.

Inductive ReadStep :=
| ReadStep_Csv (v : ReadStepCsv)
| ReadStep_GeoJson (v : ReadStepGeoJson)
| ReadStep_EsriShapefile (v : ReadStepEsriShapefile)
| ReadStep_Parquet (v : ReadStepParquet)
| ReadStep_Json (v : ReadStepJson)
| ReadStep_NdJson (v : ReadStepNdJson)
| ReadStep_NdGeoJson (v : ReadStepNdGeoJson).

Record SqlQueryStep := mkSqlQueryStep {
  sqs_alias : option string;
  sqs_query : string
}.

Record TemporalTable := mkTemporalTable {
  tt_name : string;
  tt_primary_key : list string
}.

Record TransformSql := mkTransformSql {
  ts_engine : string;
  ts_version : option string;
  ts_query : option string;
  ts_queries : option (list SqlQueryStep);
  ts_temporal_tables : option (list TemporalTable)
}.

Inductive Transform :=
| Transform_Sql (v : TransformSql).

Record AddPushSource := mkAddPushSource {
  aps_source_name : string;
  aps_read : ReadStep;
  aps_preprocess : option Transform;
  aps_merge : MergeStrategy
}.

Record AttachmentEmbedded := mkAttachmentEmbedded {
  ae_path : string;
  ae_content : string
}.

Record AttachmentsEmbedded := mkAttachmentsEmbedded {
  ase_items : list AttachmentEmbedded
}.

Inductive Attachments :=
| Attachments_Embedded (v : AttachmentsEmbedded).

Inductive DatasetKind :=
| DatasetKind_Root
| DatasetKind_Derivative.

Record DisablePollingSource := mkDisablePollingSource {}.

Record DisablePushSource := mkDisablePushSource {
  dps_source_name : string
}.

Record ExecuteTransformInput := mkExecuteTransformInput {
  eti_dataset_id : DatasetID;
  eti_prev_block_hash : option Multihash;
  eti_new_block_hash : option Multihash;
  eti_prev_offset : option u64;
  eti_new_offset : option u64
}.

Record ExecuteTransform := mkExecuteTransform {
  et_query_inputs : list ExecuteTransformInput;
  et_prev_checkpoint : option Multihash;
  et_prev_offset : option u64;
  et_new_data : option DataSlice;
  et_new_checkpoint : option Checkpoint;
  et_new_watermark : option DateTime
}.

Record Seed := mkSeed {
  sd_dataset_id : DatasetID;
  sd_dataset_kind : DatasetKind
}.

Record SetAttachments := mkSetAttachments {
  sa_attachments : Attachments
}.

Record SetDataSchema := mkSetDataSchema {
  sds_schema : list u8
}.

Record SetInfo := mkSetInfo {
  si_description : option string;
  si_keywords : option (list string)
}.

Record SetLicense := mkSetLicense {
  sl_short_name : string;
  sl_name : string;
  sl_spdx_id : option string;
  sl_website_url : string
}.

Record EventTimeSourceFromMetadata := mkEventTimeSourceFromMetadata {}.

Record EventTimeSourceFromPath := mkEventTimeSourceFromPath {
  etsp_pattern : string;
  etsp_timestamp_format : option string
}.

Record EventTimeSourceFromSystemTime := mkEventTimeSourceFromSystemTime {}.

Inductive EventTimeSource :=
| EventTimeSource_FromMetadata (v : EventTimeSourceFromMetadata)
| EventTimeSource_FromPath (v : EventTimeSourceFromPath)
| EventTimeSource_FromSystemTime (v : EventTimeSourceFromSystemTime).

Record RequestHeader := mkRequestHeader {
  rh_name : string;
  rh_value : string
}.

Record SourceCachingForever := mkSourceCachingForever {}.

Inductive SourceCaching :=
| SourceCaching_Forever (v : SourceCachingForever).

Record FetchStepUrl := mkFetchStepUrl {
  fsu_url : string;
  fsu_event_time : option EventTimeSource;
  fsu_cache : option SourceCaching;
  fsu_headers : option (list RequestHeader)
}.

Inductive SourceOrdering :=
| SourceOrdering_ByEventTime
| SourceOrdering_ByName.

Record FetchStepFilesGlob := mkFetchStepFilesGlob {
  fsg_path : string;
  fsg_event_time : option EventTimeSource;
  fsg_cache : option SourceCaching;
  fsg_order : option SourceOrdering
}.

Record EnvVar := mkEnvVar {
  ev_name : string;
  ev_value : option string
}.

Record FetchStepContainer := mkFetchStepContainer {
  fsc_image : string;
  fsc_command : option (list string);
  fsc_args : option (list string);
  fsc_env : option (list EnvVar)
}.

Inductive MqttQos :=
| MqttQos_AtMostOnce
| MqttQos_AtLeastOnce
| MqttQos_ExactlyOnce.

Record MqttTopicSubscription := mkMqttTopicSubscription {
  mts_path : string;
  mts_qos : option MqttQos
}.

Record FetchStepMqtt := mkFetchStepMqtt {
  fsm_host : string;
  fsm_port : i32;
  fsm_username : option string;
  fsm_password : option string;
  fsm_topics : list MqttTopicSubscription
}.

Record FetchStepEthereumLogs := mkFetchStepEthereumLogs {
  fse_chain_id : option u64;
  fse_node_url : option string;
  fse_filter : option string;
  fse_signature : option string
}.

Inductive FetchStep :=
| FetchStep_Url (v : FetchStepUrl)
| FetchStep_FilesGlob (v : FetchStepFilesGlob)
| FetchStep_Container (v : FetchStepContainer)
| FetchStep_Mqtt (v : FetchStepMqtt)
| FetchStep_EthereumLogs (v : FetchStepEthereumLogs).

Inductive CompressionFormat :=
| CompressionFormat_Gzip
| CompressionFormat_Zip.

Record PrepStepDecompress := mkPrepStepDecompress {
  psd_format : CompressionFormat;
  psd_sub_path : option string
}.

Record PrepStepPipe := mkPrepStepPipe {
  psp_command : list string
}.

Inductive PrepStep :=
| PrepStep_Decompress (v : PrepStepDecompress)
| PrepStep_Pipe (v : PrepStepPipe).

Record SetPollingSource := mkSetPollingSource {
  sps_fetch : FetchStep;
  sps_prepare : option (list PrepStep);
  sps_read : ReadStep;
  sps_preprocess : option Transform;
  sps_merge : MergeStrategy
}.

Record TransformInput := mkTransformInput {
  ti_dataset_ref : DatasetRef;
  ti_alias : option string
}.

Record SetTransform := mkSetTransform {
  st_inputs : list TransformInput;
  st_transform : Transform
}.

Record SetVocab := mkSetVocab {
  sv_offset_column : option string;
  sv_operation_type_column : option string;
  sv_system_time_column : option string;
  sv_event_time_column : option string
}.

Inductive MetadataEvent :=
| MetadataEvent_AddData (v : AddData)
| MetadataEvent_ExecuteTransform (v : ExecuteTransform)
| MetadataEvent_Seed (v : Seed)
| MetadataEvent_SetPollingSource (v : SetPollingSource)
| MetadataEvent_SetTransform (v : SetTransform)
| MetadataEvent_SetVocab (v : SetVocab)
| MetadataEvent_SetAttachments (v : SetAttachments)
| MetadataEvent_SetInfo (v : SetInfo)
| MetadataEvent_SetLicense (v : SetLicense)
| MetadataEvent_SetDataSchema (v : SetDataSchema)
| MetadataEvent_AddPushSource (v : AddPushSource)
| MetadataEvent_DisablePushSource (v : DisablePushSource)
| MetadataEvent_DisablePollingSource (v : DisablePollingSource).

Record DatasetSnapshot := mkDatasetSnapshot {
  dsn_name : DatasetAlias;
  dsn_kind : DatasetKind;
  dsn_metadata : list MetadataEvent
}.

Record DatasetVocabulary := mkDatasetVocabulary {
  dv_offset_column : string;
  dv_operation_type_column : string;
  dv_system_time_column : string;
  dv_event_time_column : string
}.

Record MetadataBlock := mkMetadataBlock {
  mb_system_time : DateTime;
  mb_prev_block_hash : option Multihash;
  mb_sequence_number : u64;
  mb_event : MetadataEvent
}.

Record RawQueryRequest := mkRawQueryRequest {
  rqr_input_data_paths : list PathBuf;
  rqr_transform : Transform;
  rqr_output_data_path : PathBuf
}.

Record RawQueryResponseProgress := mkRawQueryResponseProgress {}.

Record RawQueryResponseSuccess := mkRawQueryResponseSuccess {
  rqs_num_records : u64
}.

Record RawQueryResponseInvalidQuery := mkRawQueryResponseInvalidQuery {
  rqi_message : string
}.

Record RawQueryResponseInternalError := mkRawQueryResponseInternalError {
  rqe_message : string;
  rqe_backtrace : option string
}.

Inductive RawQueryResponse :=
| RawQueryResponse_Progress (v : RawQueryResponseProgress)
| RawQueryResponse_Success (v : RawQueryResponseSuccess)
| RawQueryResponse_InvalidQuery (v : RawQueryResponseInvalidQuery)
| RawQueryResponse_InternalError (v : RawQueryResponseInternalError).

Record Watermark := mkWatermark {
  wm_system_time : DateTime;
  wm_event_time : DateTime
}.

Record TransformRequestInput := mkTransformRequestInput {
  tri_dataset_id : DatasetID;
  tri_dataset_alias : DatasetAlias;
  tri_query_alias : string;
  tri_vocab : DatasetVocabulary;
  tri_offset_interval : option OffsetInterval;
  tri_data_paths : list PathBuf;
  tri_schema_file : PathBuf;
  tri_explicit_watermarks : list Watermark
}.

Record TransformRequest := mkTransformRequest {
  trq_dataset_id : DatasetID;
  trq_dataset_alias : DatasetAlias;
  trq_system_time : DateTime;
  trq_vocab : DatasetVocabulary;
  trq_transform : Transform;
  trq_query_inputs : list TransformRequestInput;
  trq_next_offset : u64;
  trq_prev_checkpoint_path : option PathBuf;
  trq_new_checkpoint_path : PathBuf;
  trq_new_data_path : PathBuf
}.

Record TransformResponseProgress := mkTransformResponseProgress {}.

Record TransformResponseSuccess := mkTransformResponseSuccess {
  trs_new_offset_interval : option OffsetInterval;
  trs_new_watermark : option DateTime
}.

Record TransformResponseInvalidQuery := mkTransformResponseInvalidQuery {
  tiq_message : string
}.

Record TransformResponseInternalError := mkTransformResponseInternalError {
  tie_message : string;
  tie_backtrace : option string
}.

Inductive TransformResponse :=
| TransformResponse_Progress (v : TransformResponseProgress)
| TransformResponse_Success (v : TransformResponseSuccess)
| TransformResponse_InvalidQuery (v : TransformResponseInvalidQuery)
| TransformResponse_InternalError (v : TransformResponseInternalError).

#[export] Instance Checkpoint_eq_dec : EqDecision Checkpoint.
Proof. solve_decision. Defined.
#[export] Instance SourceState_eq_dec : EqDecision SourceState.
Proof. solve_decision. Defined.

(** * Helpers of dtos_extra.rs *)

Definition AddData_last_offset (e : AddData) : option u64 :=
  match option_map (fun d => oi_end (ds_offset_interval d)) (ad_new_data e) with
  | Some v => Some v
  | None => ad_prev_offset e
  end.

Definition AddData_is_empty (e : AddData) : bool :=
  bool_decide (ad_new_data e = None) && bool_decide (ad_new_checkpoint e = None) &&
  bool_decide (ad_new_watermark e = None) && bool_decide (ad_new_source_state e = None).

Definition ExecuteTransform_last_offset (e : ExecuteTransform) : option u64 :=
  match option_map (fun d => oi_end (ds_offset_interval d)) (et_new_data e) with
  | Some v => Some v
  | None => et_prev_offset e
  end.

Definition ExecuteTransform_is_empty (e : ExecuteTransform) : bool :=
  bool_decide (et_new_data e = None) && bool_decide (et_new_checkpoint e = None) &&
  bool_decide (et_new_watermark e = None).

Definition ExecuteTransformInput_last_block_hash (i : ExecuteTransformInput) : option Multihash :=
  match eti_new_block_hash i with Some h => Some h | None => eti_prev_block_hash i end.

Definition ExecuteTransformInput_last_offset (i : ExecuteTransformInput) : option u64 :=
  match eti_new_offset i with Some o => Some o | None => eti_prev_offset i end.

Definition ExecuteTransformInput_num_records (i : ExecuteTransformInput) : u64 :=
  match eti_new_offset i with
  | Some new_offset =>
      match eti_prev_offset i with
      | Some prev_offset => u64_sub new_offset prev_offset
      | None => u64_add new_offset 1
      end
  | None => 0%Z
  end.

Definition Transform_engine (t : Transform) : string :=
  match t with Transform_Sql v => ts_engine v end.

Definition DEFAULT_OFFSET_COLUMN_NAME : string := "offset".
Definition DEFAULT_OPERATION_TYPE_COLUMN_NAME : string := "op".
Definition DEFAULT_SYSTEM_TIME_COLUMN_NAME : string := "system_time".
Definition DEFAULT_EVENT_TIME_COLUMN_NAME : string := "event_time".

(** [From<SetVocab> for DatasetVocabulary]. *)
Definition DatasetVocabulary_from_SetVocab (v : SetVocab) : DatasetVocabulary :=
  mkDatasetVocabulary
    (default DEFAULT_OFFSET_COLUMN_NAME (sv_offset_column v))
    (default DEFAULT_OPERATION_TYPE_COLUMN_NAME (sv_operation_type_column v))
    (default DEFAULT_SYSTEM_TIME_COLUMN_NAME (sv_system_time_column v))
    (default DEFAULT_EVENT_TIME_COLUMN_NAME (sv_event_time_column v)).

Definition ReadStep_schema (r : ReadStep) : option (list string) :=
  match r with
  | ReadStep_Csv v => rsc_schema v
  | ReadStep_Json v => rsj_schema v
  | ReadStep_NdJson v => rsn_schema v
  | ReadStep_GeoJson v => rsg_schema v
  | ReadStep_NdGeoJson v => rsng_schema v
  | ReadStep_EsriShapefile v => rse_schema v
  | ReadStep_Parquet v => rsp_schema v
  end.

Definition DataSlice_num_records (d : DataSlice) : u64 :=
  u64_add (u64_sub (oi_end (ds_offset_interval d)) (oi_start (ds_offset_interval d))) 1.

(** * Operation types *)

Inductive OperationType :=
| OperationType_Append
| OperationType_Retract
| OperationType_CorrectFrom
| OperationType_CorrectTo.

Definition OperationType_short_code (o : OperationType) : string :=
  match o with
  | OperationType_Append => "+A"
  | OperationType_Retract => "-R"
  | OperationType_CorrectFrom => "-C"
  | OperationType_CorrectTo => "+C"
  end.

Definition OperationType_try_from (value : u8) : res u8 OperationType :=
  match value with
  | 0 => Ok OperationType_Append
  | 1 => Ok OperationType_Retract
  | 2 => Ok OperationType_CorrectFrom
  | 3 => Ok OperationType_CorrectTo
  | _ => Err value
  end%Z.

Definition OperationType_into (o : OperationType) : u8 :=
  match o with
  | OperationType_Append => 0
  | OperationType_Retract => 1
  | OperationType_CorrectFrom => 2
  | OperationType_CorrectTo => 3
  end.

(** * Event type flags

    The [bitflags!] struct is a 32-bit mask: [contains] tests that every bit
    of the argument is set, [-] clears the bits of the right operand. *)

Abbreviation MetadataEventTypeFlags := N (only parsing).

Module Flag.
Definition ADD_DATA : N := N.shiftl 1 0.
Definition EXECUTE_TRANSFORM : N := N.shiftl 1 1.
Definition SEED : N := N.shiftl 1 2.
Definition SET_POLLING_SOURCE : N := N.shiftl 1 3.
Definition SET_TRANSFORM : N := N.shiftl 1 4.
Definition SET_VOCAB : N := N.shiftl 1 5.
Definition SET_ATTACHMENTS : N := N.shiftl 1 6.
Definition SET_INFO : N := N.shiftl 1 7.
Definition SET_LICENSE : N := N.shiftl 1 8.
Definition SET_DATA_SCHEMA : N := N.shiftl 1 9.
Definition ADD_PUSH_SOURCE : N := N.shiftl 1 10.
Definition DISABLE_PUSH_SOURCE : N := N.shiftl 1 11.
Definition DISABLE_POLLING_SOURCE : N := N.shiftl 1 12.
Definition DATA_BLOCK : N := N.lor ADD_DATA EXECUTE_TRANSFORM.
End Flag.

Definition flags_is_empty (f : MetadataEventTypeFlags) : bool := bool_decide (f = 0%N).
Definition flags_contains (f g : MetadataEventTypeFlags) : bool := bool_decide (N.land f g = g).
Definition flags_difference (f g : MetadataEventTypeFlags) : MetadataEventTypeFlags := N.ldiff f g.

(** [From<&MetadataEvent> for MetadataEventTypeFlags]. *)
Definition event_flag (v : MetadataEvent) : MetadataEventTypeFlags :=
  match v with
  | MetadataEvent_AddData _ => Flag.ADD_DATA
  | MetadataEvent_ExecuteTransform _ => Flag.EXECUTE_TRANSFORM
  | MetadataEvent_Seed _ => Flag.SEED
  | MetadataEvent_SetPollingSource _ => Flag.SET_POLLING_SOURCE
  | MetadataEvent_SetTransform _ => Flag.SET_TRANSFORM
  | MetadataEvent_SetVocab _ => Flag.SET_VOCAB
  | MetadataEvent_SetAttachments _ => Flag.SET_ATTACHMENTS
  | MetadataEvent_SetInfo _ => Flag.SET_INFO
  | MetadataEvent_SetLicense _ => Flag.SET_LICENSE
  | MetadataEvent_SetDataSchema _ => Flag.SET_DATA_SCHEMA
  | MetadataEvent_AddPushSource _ => Flag.ADD_PUSH_SOURCE
  | MetadataEvent_DisablePushSource _ => Flag.DISABLE_PUSH_SOURCE
  | MetadataEvent_DisablePollingSource _ => Flag.DISABLE_POLLING_SOURCE
  end.

(** * Typed views of events: [VariantOf<MetadataEvent>] *)

(** [impl_enum_variant!] generates, for each payload type, the injection into
    the enum and the partial projection out of it. *)
Class VariantOf (T : Type) := {
  variant_into : T -> MetadataEvent;
  into_variant : MetadataEvent -> option T
}.

#[export] Instance variant_AddData : VariantOf AddData := {|
  variant_into := MetadataEvent_AddData;
  into_variant := fun e => match e with MetadataEvent_AddData v => Some v | _ => None end |}.
#[export] Instance variant_ExecuteTransform : VariantOf ExecuteTransform := {|
  variant_into := MetadataEvent_ExecuteTransform;
  into_variant := fun e => match e with MetadataEvent_ExecuteTransform v => Some v | _ => None end |}.
#[export] Instance variant_Seed : VariantOf Seed := {|
  variant_into := MetadataEvent_Seed;
  into_variant := fun e => match e with MetadataEvent_Seed v => Some v | _ => None end |}.
#[export] Instance variant_SetPollingSource : VariantOf SetPollingSource := {|
  variant_into := MetadataEvent_SetPollingSource;
  into_variant := fun e => match e with MetadataEvent_SetPollingSource v => Some v | _ => None end |}.
#[export] Instance variant_SetTransform : VariantOf SetTransform := {|
  variant_into := MetadataEvent_SetTransform;
  into_variant := fun e => match e with MetadataEvent_SetTransform v => Some v | _ => None end |}.
#[export] Instance variant_SetVocab : VariantOf SetVocab := {|
  variant_into := MetadataEvent_SetVocab;
  into_variant := fun e => match e with MetadataEvent_SetVocab v => Some v | _ => None end |}.
#[export] Instance variant_SetAttachments : VariantOf SetAttachments := {|
  variant_into := MetadataEvent_SetAttachments;
  into_variant := fun e => match e with MetadataEvent_SetAttachments v => Some v | _ => None end |}.
#[export] Instance variant_SetInfo : VariantOf SetInfo := {|
  variant_into := MetadataEvent_SetInfo;
  into_variant := fun e => match e with MetadataEvent_SetInfo v => Some v | _ => None end |}.
#[export] Instance variant_SetLicense : VariantOf SetLicense := {|
  variant_into := MetadataEvent_SetLicense;
  into_variant := fun e => match e with MetadataEvent_SetLicense v => Some v | _ => None end |}.
#[export] Instance variant_SetDataSchema : VariantOf SetDataSchema := {|
  variant_into := MetadataEvent_SetDataSchema;
  into_variant := fun e => match e with MetadataEvent_SetDataSchema v => Some v | _ => None end |}.
#[export] Instance variant_AddPushSource : VariantOf AddPushSource := {|
  variant_into := MetadataEvent_AddPushSource;
  into_variant := fun e => match e with MetadataEvent_AddPushSource v => Some v | _ => None end |}.

(** * Typed and data-stream blocks (metadata_block_types.rs) *)

Record MetadataBlockTyped (T : Type) := mkMetadataBlockTyped {
  mbt_system_time : DateTime;
  mbt_prev_block_hash : option Multihash;
  mbt_sequence_number : u64;
  mbt_event : T
}.
Arguments mkMetadataBlockTyped {T}.
Arguments mbt_system_time {T}.
Arguments mbt_prev_block_hash {T}.
Arguments mbt_sequence_number {T}.
Arguments mbt_event {T}.

(** [AsTypedBlock::into_typed]. *)
Definition into_typed {T} `{VariantOf T} (b : MetadataBlock) : option (MetadataBlockTyped T) :=
  option_map (fun e => mkMetadataBlockTyped (mb_system_time b) (mb_prev_block_hash b)
                         (mb_sequence_number b) e)
             (into_variant (mb_event b)).

(** [From<MetadataBlockTyped<T>> for MetadataBlock]. *)
Definition MetadataBlock_from_typed {T} `{VariantOf T} (b : MetadataBlockTyped T) : MetadataBlock :=
  mkMetadataBlock (mbt_system_time b) (mbt_prev_block_hash b) (mbt_sequence_number b)
                  (variant_into (mbt_event b)).

Record MetadataEventDataStream := mkMetadataEventDataStream {
  mds_prev_checkpoint : option Multihash;
  mds_prev_offset : option u64;
  mds_new_data : option DataSlice;
  mds_new_checkpoint : option Checkpoint;
  mds_new_watermark : option DateTime
}.

Definition MetadataEventDataStream_last_offset (e : MetadataEventDataStream) : option u64 :=
  match option_map (fun d => oi_end (ds_offset_interval d)) (mds_new_data e) with
  | Some v => Some v
  | None => mds_prev_offset e
  end.

(** [as_data_stream_event] / [into_data_stream_event]. *)
Definition as_data_stream_event (e : MetadataEvent) : option MetadataEventDataStream :=
  match e with
  | MetadataEvent_AddData e =>
      Some (mkMetadataEventDataStream (ad_prev_checkpoint e) (ad_prev_offset e)
              (ad_new_data e) (ad_new_checkpoint e) (ad_new_watermark e))
  | MetadataEvent_ExecuteTransform e =>
      Some (mkMetadataEventDataStream (et_prev_checkpoint e) (et_prev_offset e)
              (et_new_data e) (et_new_checkpoint e) (et_new_watermark e))
  | _ => None
  end.

Record MetadataBlockDataStream := mkMetadataBlockDataStream {
  mbd_system_time : DateTime;
  mbd_prev_block_hash : option Multihash;
  mbd_event : MetadataEventDataStream
}.

(** [as_data_stream_block] / [into_data_stream_block]. *)
Definition as_data_stream_block (b : MetadataBlock) : option MetadataBlockDataStream :=
  option_map (fun e => mkMetadataBlockDataStream (mb_system_time b) (mb_prev_block_hash b) e)
             (as_data_stream_event (mb_event b)).

(** * Facts about flags and views *)

Lemma event_flag_nonzero e : event_flag e <> 0%N.
Proof. by destruct e. Qed.

(** The data-block mask selects exactly the events with a data-stream view. *)
Lemma data_block_flag e :
  flags_contains Flag.DATA_BLOCK (event_flag e) = bool_decide (is_Some (as_data_stream_event e)).
Proof. by destruct e. Qed.

Lemma into_typed_from_typed {T} (b : MetadataBlock) (H : VariantOf T) t :
  (forall e v, into_variant e = Some v -> variant_into v = e) ->
  into_typed b = Some t -> MetadataBlock_from_typed t = b.
Proof.
  intros Hinv. unfold into_typed, MetadataBlock_from_typed.
  destruct (into_variant (mb_event b)) eqn:E; simpl; intros; simplify_eq; simpl.
  rewrite (Hinv _ _ E). by destruct b.
Qed.
