(* ===== verification/ChainRepos.v ===== *)
(** Storage under a metadata chain: object and named-object repositories, the
    block repository and the reference repository.

    Sources: src/domain/core/src/repos/{object_repository, named_object_repository,
    metadata_block_repository, reference_repository}.rs for the traits, and
    src/infra/core/src/repos for the implementations modelled here.

    A trait is a type class over the repository's state.  Reads are functions
    of the state; writes return the result and the next state.  What the chain
    relies on is stated by the [Lawful...] classes, which the implementations
    discharge at the end of the file. *)

From S2P Require Import Prelude Multiformats Dtos.

(** * Errors

    Boxed error sources are erased. *)

Inductive AccessError :=
| AccessError_ReadOnly
| AccessError_Unauthorized
| AccessError_Forbidden.

Record HashMismatchError := mkHashMismatchError { hme_expected : Multihash; hme_actual : Multihash }.
Record ObjectNotFoundError := mkObjectNotFoundError { onf_hash : Multihash }.
Record BlockNotFoundError := mkBlockNotFoundError { bnf_hash : Multihash }.
Record BlockVersionError := mkBlockVersionError { bve_hash : Multihash }.
Record BlockMalformedError := mkBlockMalformedError { bme_hash : Multihash }.

Inductive ContainsError :=
| ContainsError_Access (e : AccessError)
| ContainsError_Internal (e : InternalError).

Inductive GetError :=
| GetError_NotFound (e : ObjectNotFoundError)
| GetError_Access (e : AccessError)
| GetError_Internal (e : InternalError).

Inductive InsertError :=
| InsertError_HashMismatch (e : HashMismatchError)
| InsertError_Access (e : AccessError)
| InsertError_Internal (e : InternalError).

Inductive DeleteError :=
| DeleteError_Access (e : AccessError)
| DeleteError_Internal (e : InternalError).

Inductive ContainsBlockError :=
| ContainsBlockError_Access (e : AccessError)
| ContainsBlockError_Internal (e : InternalError).

Definition ContainsBlockError_from (v : ContainsError) : ContainsBlockError :=
  match v with
  | ContainsError_Access e => ContainsBlockError_Access e
  | ContainsError_Internal e => ContainsBlockError_Internal e
  end.

Inductive GetBlockError :=
| GetBlockError_NotFound (e : BlockNotFoundError)
| GetBlockError_BlockVersion (e : BlockVersionError)
| GetBlockError_BlockMalformed (e : BlockMalformedError)
| GetBlockError_Access (e : AccessError)
| GetBlockError_Internal (e : InternalError).

Inductive GetBlockDataError :=
| GetBlockDataError_NotFound (e : BlockNotFoundError)
| GetBlockDataError_Access (e : AccessError)
| GetBlockDataError_Internal (e : InternalError).

Definition GetBlockDataError_from (v : GetError) : GetBlockDataError :=
  match v with
  | GetError_NotFound e => GetBlockDataError_NotFound (mkBlockNotFoundError (onf_hash e))
  | GetError_Access e => GetBlockDataError_Access e
  | GetError_Internal e => GetBlockDataError_Internal e
  end.

Definition GetBlockError_from (v : GetBlockDataError) : GetBlockError :=
  match v with
  | GetBlockDataError_NotFound e => GetBlockError_NotFound e
  | GetBlockDataError_Access e => GetBlockError_Access e
  | GetBlockDataError_Internal e => GetBlockError_Internal e
  end.

Inductive InsertBlockError :=
| InsertBlockError_HashMismatch (e : HashMismatchError)
| InsertBlockError_Access (e : AccessError)
| InsertBlockError_Internal (e : InternalError).

Definition InsertBlockError_from (v : InsertError) : InsertBlockError :=
  match v with
  | InsertError_HashMismatch e => InsertBlockError_HashMismatch e
  | InsertError_Access e => InsertBlockError_Access e
  | InsertError_Internal e => InsertBlockError_Internal e
  end.

Record InsertOpts := mkInsertOpts {
  io_precomputed_hash : option Multihash;
  io_expected_hash : option Multihash;
  io_size_hint : option u64
}.

(** * References *)

Inductive BlockRef := BlockRef_Head.

#[export] Instance BlockRef_eq_dec : EqDecision BlockRef.
Proof. solve_decision. Defined.

Definition BlockRef_as_str (r : BlockRef) : string :=
  match r with BlockRef_Head => "head" end.

Definition BlockRef_from_str (s : string) : res InternalError BlockRef :=
  if decide (s = "head") then Ok BlockRef_Head else Err mkInternalError.

Record RefNotFoundError := mkRefNotFoundError { rnf_block_ref : BlockRef }.

Inductive GetRefError :=
| GetRefError_NotFound (e : RefNotFoundError)
| GetRefError_Access (e : AccessError)
| GetRefError_Internal (e : InternalError).

Inductive SetRefErrorRepo :=
| SetRefErrorRepo_Access (e : AccessError)
| SetRefErrorRepo_Internal (e : InternalError).

Inductive DeleteRefError :=
| DeleteRefError_Access (e : AccessError)
| DeleteRefError_Internal (e : InternalError).

Record NotFoundError := mkNotFoundError { nfe_name : string }.

Inductive GetNamedError :=
| GetNamedError_NotFound (e : NotFoundError)
| GetNamedError_Access (e : AccessError)
| GetNamedError_Internal (e : InternalError).

Inductive SetNamedError :=
| SetNamedError_Access (e : AccessError)
| SetNamedError_Internal (e : InternalError).

Inductive DeleteNamedError :=
| DeleteNamedError_Access (e : AccessError)
| DeleteNamedError_Internal (e : InternalError).

(** * Byte formats

    The block format is produced by the [flatbuffers] crate and hashed by the
    [sha3] crate, and references are stored through the [hex] crate: byte
    buffers and these functions are parameters. *)

Inductive SerdeError :=
| SerdeError_UnsupportedVersion
| SerdeError_Other.

Class BlockCodec := {
  Bytes : Type;
  bytes_len : Bytes -> u64;
  write_manifest : MetadataBlock -> res SerdeError Bytes;
  read_manifest : Bytes -> res SerdeError MetadataBlock;
  sha3_256 : Bytes -> list u8;
  to_multibase : Multihash -> Bytes;
  from_multibase : Bytes -> res unit Multihash
}.

(** Documented behaviour of those crates: a written block reads back, a
    SHA3-256 digest has 32 bytes, and a printed multihash parses back. *)
Class CodecLaws (C : BlockCodec) : Prop := {
  write_read : forall b d, write_manifest b = Ok d -> read_manifest d = Ok b;
  write_no_panic : forall b, write_manifest b <> Panic;
  read_no_panic : forall d, read_manifest d <> Panic;
  sha3_256_len : forall d, length (sha3_256 d) = MAX_MULTIHASH_DIGEST_LEN;
  multibase_law : forall h, Multihash_wf h -> from_multibase (to_multibase h) = Ok h
}.

(** * Traits *)

Section Traits.
Context {C : BlockCodec}.

(** What reading a stream to its end gives: all of its bytes, or an error on the
    way. *)
Definition AsyncReadObj : Type := option Bytes.

(** A file to be moved into a repository is its contents. *)
Class ObjectRepository (R : Type) := {
  or_contains : R -> Multihash -> res ContainsError bool;
  or_get_size : R -> Multihash -> res GetError u64;
  or_get_bytes : R -> Multihash -> res GetError Bytes;
  or_get_stream : R -> Multihash -> res GetError AsyncReadObj;
  or_insert_bytes : R -> Bytes -> InsertOpts -> res InsertError Multihash * R;
  or_insert_stream : R -> AsyncReadObj -> InsertOpts -> res InsertError Multihash * R;
  or_insert_file_move : R -> Bytes -> InsertOpts -> res InsertError Multihash * R;
  or_delete : R -> Multihash -> res DeleteError unit * R
}.

Class NamedObjectRepository (R : Type) := {
  nr_get : R -> string -> res GetNamedError Bytes;
  nr_set : R -> string -> Bytes -> res SetNamedError unit * R;
  nr_delete : R -> string -> res DeleteNamedError unit * R
}.

Class MetadataBlockRepository (R : Type) := {
  contains_block : R -> Multihash -> res ContainsBlockError bool;
  get_block : R -> Multihash -> res GetBlockError MetadataBlock;
  get_block_data : R -> Multihash -> res GetBlockDataError Bytes;
  get_block_size : R -> Multihash -> res GetBlockDataError u64;
  insert_block : R -> MetadataBlock -> InsertOpts -> res InsertBlockError Multihash * R;
  insert_block_data : R -> Bytes -> InsertOpts -> res InsertBlockError Multihash * R
}.

Class ReferenceRepository (R : Type) := {
  rr_get : R -> BlockRef -> res GetRefError Multihash;
  rr_set : R -> BlockRef -> Multihash -> res SetRefErrorRepo unit * R;
  rr_delete : R -> BlockRef -> res DeleteRefError unit * R
}.

(** What a chain relies on. *)
Class LawfulBlockRepo (R : Type) `{MetadataBlockRepository R} : Prop := {
  insert_get : forall r b o h r',
    insert_block r b o = (Ok h, r') -> get_block r' h = Ok b;
  insert_frame : forall r b o h r' h',
    insert_block r b o = (Ok h, r') -> h' <> h -> get_block r' h' = get_block r h';
  insert_expected : forall r b o h r' e,
    insert_block r b o = (Ok h, r') -> io_expected_hash o = Some e -> h = e;
  insert_hash_wf : forall r b o h r',
    (forall p, io_precomputed_hash o = Some p -> Multihash_wf p) ->
    insert_block r b o = (Ok h, r') -> Multihash_wf h;
  insert_failed : forall r b o x r',
    insert_block r b o = (x, r') -> is_ok x = false -> r' = r;
  insert_no_panic : forall r b o, (insert_block r b o).1 <> Panic;
  get_no_panic : forall r h, get_block r h <> Panic
}.

Class LawfulRefRepo (R : Type) `{ReferenceRepository R} : Prop := {
  rr_set_get : forall r b h r',
    Multihash_wf h -> rr_set r b h = (Ok tt, r') -> rr_get r' b = Ok h;
  rr_set_failed : forall r b h x r',
    rr_set r b h = (x, r') -> is_ok x = false -> r' = r;
  rr_set_no_panic : forall r b h, (rr_set r b h).1 <> Panic
}.
End Traits.

(** * In-memory object repository *)

Section InMemory.
Context {C : BlockCodec}.

Record ObjectRepositoryInMemory := mkObjectRepositoryInMemory {
  blocks_by_hash : gmap Multihash Bytes
}.

Definition ObjectRepositoryInMemory_new : ObjectRepositoryInMemory :=
  mkObjectRepositoryInMemory ∅.

Definition obj_mem_contains (r : ObjectRepositoryInMemory) (hash : Multihash)
    : res ContainsError bool :=
  Ok (bool_decide (is_Some (blocks_by_hash r !! hash))).

Definition obj_mem_get_size (r : ObjectRepositoryInMemory) (hash : Multihash)
    : res GetError u64 :=
  match blocks_by_hash r !! hash with
  | Some bytes => Ok (bytes_len bytes)
  | None => Err (GetError_NotFound (mkObjectNotFoundError hash))
  end.

Definition obj_mem_get_bytes (r : ObjectRepositoryInMemory) (hash : Multihash)
    : res GetError Bytes :=
  match blocks_by_hash r !! hash with
  | Some bytes => Ok bytes
  | None => Err (GetError_NotFound (mkObjectNotFoundError hash))
  end.

Definition obj_mem_insert_bytes (r : ObjectRepositoryInMemory) (data : Bytes)
    (options : InsertOpts) : res InsertError Multihash * ObjectRepositoryInMemory :=
  let hash : res unit Multihash :=
    match io_precomputed_hash options with
    | Some hash => Ok hash
    | None => Multihash_from_digest sha3_256 Multicodec_Sha3_256 data
    end in
  match hash with
  | Ok hash =>
      let stored := mkObjectRepositoryInMemory (<[hash := data]> (blocks_by_hash r)) in
      match io_expected_hash options with
      | Some expected_hash =>
          if decide (expected_hash <> hash) then
            (Err (InsertError_HashMismatch (mkHashMismatchError expected_hash hash)), r)
          else (Ok hash, stored)
      | None => (Ok hash, stored)
      end
  | _ => (Panic, r)
  end.

(** [panic!("get_stream not allowed for in-memory repository")] *)
Definition obj_mem_get_stream (r : ObjectRepositoryInMemory) (hash : Multihash)
    : res GetError AsyncReadObj := Panic.

(** [panic!("insert_stream not allowed for in-memory repository")] *)
Definition obj_mem_insert_stream (r : ObjectRepositoryInMemory) (src : AsyncReadObj)
    (options : InsertOpts) : res InsertError Multihash * ObjectRepositoryInMemory := (Panic, r).

(** [panic!("insert_file_move not allowed for in-memory repository")] *)
Definition obj_mem_insert_file_move (r : ObjectRepositoryInMemory) (src : Bytes)
    (options : InsertOpts) : res InsertError Multihash * ObjectRepositoryInMemory := (Panic, r).

Definition obj_mem_delete (r : ObjectRepositoryInMemory) (hash : Multihash)
    : res DeleteError unit * ObjectRepositoryInMemory :=
  (Ok tt, mkObjectRepositoryInMemory (delete hash (blocks_by_hash r))).

#[global] Instance object_repository_in_memory : ObjectRepository ObjectRepositoryInMemory := {|
  or_contains := obj_mem_contains;
  or_get_size := obj_mem_get_size;
  or_get_bytes := obj_mem_get_bytes;
  or_get_stream := obj_mem_get_stream;
  or_insert_bytes := obj_mem_insert_bytes;
  or_insert_stream := obj_mem_insert_stream;
  or_insert_file_move := obj_mem_insert_file_move;
  or_delete := obj_mem_delete
|}.

(** ** In-memory named objects *)

Record NamedObjectRepositoryInMemory := mkNamedObjectRepositoryInMemory {
  objects_by_name : gmap string Bytes
}.

Definition NamedObjectRepositoryInMemory_new : NamedObjectRepositoryInMemory :=
  mkNamedObjectRepositoryInMemory ∅.

Definition named_mem_get (r : NamedObjectRepositoryInMemory) (name : string)
    : res GetNamedError Bytes :=
  match objects_by_name r !! name with
  | Some bytes => Ok bytes
  | None => Err (GetNamedError_NotFound (mkNotFoundError name))
  end.

Definition named_mem_set (r : NamedObjectRepositoryInMemory) (name : string) (data : Bytes)
    : res SetNamedError unit * NamedObjectRepositoryInMemory :=
  (Ok tt, mkNamedObjectRepositoryInMemory (<[name := data]> (objects_by_name r))).

Definition named_mem_delete (r : NamedObjectRepositoryInMemory) (name : string)
    : res DeleteNamedError unit * NamedObjectRepositoryInMemory :=
  (Ok tt, mkNamedObjectRepositoryInMemory (delete name (objects_by_name r))).

#[global] Instance named_object_repository_in_memory
  : NamedObjectRepository NamedObjectRepositoryInMemory := {|
  nr_get := named_mem_get;
  nr_set := named_mem_set;
  nr_delete := named_mem_delete
|}.
End InMemory.

(** * Block repository over an object repository *)

Section BlockRepo.
Context {C : BlockCodec} {ObjRepo : Type} `{ObjectRepository ObjRepo}.

Record MetadataBlockRepositoryImpl := mkMetadataBlockRepositoryImpl { obj_repo : ObjRepo }.

(** metadata_block_repository_helpers.rs *)
Definition deserialize_metadata_block (hash : Multihash) (block_bytes : Bytes)
    : res GetBlockError MetadataBlock :=
  map_err (fun e => match e with
                    | SerdeError_UnsupportedVersion =>
                        GetBlockError_BlockVersion (mkBlockVersionError hash)
                    | _ => GetBlockError_BlockMalformed (mkBlockMalformedError hash)
                    end)
          (read_manifest block_bytes).

Definition mbr_contains_block (r : MetadataBlockRepositoryImpl) (hash : Multihash)
    : res ContainsBlockError bool :=
  map_err ContainsBlockError_from (or_contains (obj_repo r) hash).

Definition mbr_get_block_data (r : MetadataBlockRepositoryImpl) (hash : Multihash)
    : res GetBlockDataError Bytes :=
  map_err GetBlockDataError_from (or_get_bytes (obj_repo r) hash).

Definition mbr_get_block (r : MetadataBlockRepositoryImpl) (hash : Multihash)
    : res GetBlockError MetadataBlock :=
  let! block_data := map_err GetBlockError_from (mbr_get_block_data r hash) in
  deserialize_metadata_block hash block_data.

Definition mbr_get_block_size (r : MetadataBlockRepositoryImpl) (hash : Multihash)
    : res GetBlockDataError u64 :=
  map_err GetBlockDataError_from (or_get_size (obj_repo r) hash).

Definition mbr_insert_block_data (r : MetadataBlockRepositoryImpl) (block_data : Bytes)
    (options : InsertOpts) : res InsertBlockError Multihash * MetadataBlockRepositoryImpl :=
  let '(res, repo) := or_insert_bytes (obj_repo r) block_data options in
  (map_err InsertBlockError_from res, mkMetadataBlockRepositoryImpl repo).

Definition mbr_insert_block (r : MetadataBlockRepositoryImpl) (block : MetadataBlock)
    (options : InsertOpts) : res InsertBlockError Multihash * MetadataBlockRepositoryImpl :=
  match write_manifest block with
  | Ok block_data => mbr_insert_block_data r block_data options
  | Err _ => (Err (InsertBlockError_Internal mkInternalError), r)
  | Panic => (Panic, r)
  end.

#[global] Instance metadata_block_repository_impl
  : MetadataBlockRepository MetadataBlockRepositoryImpl := {|
  contains_block := mbr_contains_block;
  get_block := mbr_get_block;
  get_block_data := mbr_get_block_data;
  get_block_size := mbr_get_block_size;
  insert_block := mbr_insert_block;
  insert_block_data := mbr_insert_block_data
|}.
End BlockRepo.

Arguments MetadataBlockRepositoryImpl : clear implicits.
Arguments mkMetadataBlockRepositoryImpl {ObjRepo}.
Arguments obj_repo {ObjRepo}.

(** * Reference repository over named objects *)

Section RefRepo.
Context {C : BlockCodec} {Repo : Type} `{NamedObjectRepository Repo}.

Record ReferenceRepositoryImpl := mkReferenceRepositoryImpl { named_repo : Repo }.

Definition refrepo_get (r : ReferenceRepositoryImpl) (b : BlockRef) : res GetRefError Multihash :=
  let! data :=
    map_err (fun e => match e with
                      | GetNamedError_NotFound _ =>
                          GetRefError_NotFound (mkRefNotFoundError b)
                      | GetNamedError_Access e => GetRefError_Access e
                      | GetNamedError_Internal e => GetRefError_Internal e
                      end)
            (nr_get (named_repo r) (BlockRef_as_str b)) in
  map_err (fun _ => GetRefError_Internal mkInternalError) (from_multibase data).

Definition refrepo_set (r : ReferenceRepositoryImpl) (b : BlockRef) (hash : Multihash)
    : res SetRefErrorRepo unit * ReferenceRepositoryImpl :=
  let '(res, repo) := nr_set (named_repo r) (BlockRef_as_str b) (to_multibase hash) in
  (map_err (fun e => match e with
                     | SetNamedError_Access e => SetRefErrorRepo_Access e
                     | SetNamedError_Internal e => SetRefErrorRepo_Internal e
                     end) res,
   mkReferenceRepositoryImpl repo).

Definition refrepo_delete (r : ReferenceRepositoryImpl) (b : BlockRef)
    : res DeleteRefError unit * ReferenceRepositoryImpl :=
  let '(res, repo) := nr_delete (named_repo r) (BlockRef_as_str b) in
  (map_err (fun e => match e with
                     | DeleteNamedError_Access e => DeleteRefError_Access e
                     | DeleteNamedError_Internal e => DeleteRefError_Internal e
                     end) res,
   mkReferenceRepositoryImpl repo).

#[global] Instance reference_repository_impl : ReferenceRepository ReferenceRepositoryImpl := {|
  rr_get := refrepo_get;
  rr_set := refrepo_set;
  rr_delete := refrepo_delete
|}.
End RefRepo.

Arguments ReferenceRepositoryImpl : clear implicits.
Arguments mkReferenceRepositoryImpl {Repo}.
Arguments named_repo {Repo}.

(** * The in-memory stack is lawful *)

Section InMemoryLaws.
Context {C : BlockCodec} {CL : CodecLaws C}.

Abbreviation BlockRepoMem := (MetadataBlockRepositoryImpl ObjectRepositoryInMemory).
Abbreviation RefRepoMem := (ReferenceRepositoryImpl NamedObjectRepositoryInMemory).

Lemma from_digest_sha3 (d : Bytes) :
  exists h, Multihash_from_digest sha3_256 Multicodec_Sha3_256 d = Ok h /\ Multihash_wf h.
Proof.
  unfold Multihash_from_digest.
  destruct (Multihash_new Multicodec_Sha3_256 (sha3_256 d)) eqn:E.
  - eauto using Multihash_new_wf.
  - revert E. unfold Multihash_new. rewrite sha3_256_len. case_decide; [lia|done].
  - revert E. unfold Multihash_new. case_decide; done.
Qed.

(** Inserting bytes either stores them under the returned hash, which is the
    precomputed one or the digest and agrees with the expected one, or
    reports a mismatch and leaves the repository alone. *)
Lemma obj_mem_insert_spec r data o :
  exists h,
    (io_precomputed_hash o = Some h \/
     (io_precomputed_hash o = None /\
      Multihash_from_digest sha3_256 Multicodec_Sha3_256 data = Ok h /\ Multihash_wf h)) /\
    ((forall e, io_expected_hash o = Some e -> e = h) /\
     obj_mem_insert_bytes r data o =
       (Ok h, mkObjectRepositoryInMemory (<[h := data]> (blocks_by_hash r)))
     \/ exists e, io_expected_hash o = Some e /\ e <> h /\
        obj_mem_insert_bytes r data o =
          (Err (InsertError_HashMismatch (mkHashMismatchError e h)), r)).
Proof.
  unfold obj_mem_insert_bytes. destruct (from_digest_sha3 data) as (d & Hd & Hwf).
  rewrite Hd. destruct (io_precomputed_hash o) as [p|]; [exists p|exists d];
    (split; [by auto|]);
    (destruct (io_expected_hash o) as [e|]; [|by left]);
    (case_decide as Hne; [right; by exists e|]);
    (left; split; [|done]); by intros e' [= <-].
Qed.

Lemma get_block_mem (r : BlockRepoMem) h :
  get_block r h =
  match blocks_by_hash (obj_repo r) !! h with
  | Some d => deserialize_metadata_block h d
  | None => Err (GetBlockError_NotFound (mkBlockNotFoundError h))
  end.
Proof.
  simpl. unfold mbr_get_block, mbr_get_block_data; simpl. unfold obj_mem_get_bytes.
  by destruct (_ !! h).
Qed.

Lemma insert_block_mem (r : BlockRepoMem) b o h r' :
  insert_block r b o = (Ok h, r') ->
  exists d, write_manifest b = Ok d /\
    r' = mkMetadataBlockRepositoryImpl
           (mkObjectRepositoryInMemory (<[h := d]> (blocks_by_hash (obj_repo r)))) /\
    (forall e, io_expected_hash o = Some e -> e = h) /\
    (io_precomputed_hash o = Some h \/ Multihash_wf h).
Proof.
  simpl. unfold mbr_insert_block, mbr_insert_block_data.
  destruct (write_manifest b) as [d| |] eqn:E; simpl; [|done..].
  destruct (obj_mem_insert_spec (obj_repo r) d o) as (h' & Hh & [[He ->]|(e & _ & _ & ->)]);
    simpl; intros; simplify_eq.
  exists d. repeat split; auto. tauto.
Qed.

#[global] Instance block_repo_mem_lawful : LawfulBlockRepo BlockRepoMem.
Proof.
  split.
  - intros r b o h r' (d & Hd & -> & _ & _)%insert_block_mem.
    rewrite get_block_mem; simpl. rewrite lookup_insert_eq.
    unfold deserialize_metadata_block. by rewrite (write_read _ _ Hd).
  - intros r b o h r' h' (d & _ & -> & _ & _)%insert_block_mem Hne.
    rewrite !get_block_mem; simpl. by rewrite lookup_insert_ne.
  - intros r b o h r' e (d & _ & _ & He & _)%insert_block_mem Ho. symmetry; auto.
  - intros r b o h r' Hp (d & _ & _ & _ & [Hpre|Hwf])%insert_block_mem; auto.
  - intros r b o x r'. simpl. unfold mbr_insert_block, mbr_insert_block_data.
    destruct (write_manifest b) as [d| |]; simpl; [|by intros; simplify_eq..].
    destruct (obj_mem_insert_spec (obj_repo r) d o) as (h' & Hh & [[He ->]|(e & _ & _ & ->)]);
      simpl; intros; simplify_eq; simpl in *; try done; by destruct r.
  - intros r b o. simpl. unfold mbr_insert_block, mbr_insert_block_data.
    destruct (write_manifest b) as [d| |] eqn:E; simpl; [|done|by apply write_no_panic in E].
    by destruct (obj_mem_insert_spec (obj_repo r) d o) as (h' & _ & [[_ ->]|(e & _ & _ & ->)]).
  - intros r h. rewrite get_block_mem. destruct (_ !! h); [|done].
    unfold deserialize_metadata_block.
    rewrite map_err_panic. apply read_no_panic.
Qed.

#[global] Instance ref_repo_mem_lawful : LawfulRefRepo RefRepoMem.
Proof.
  split.
  - intros [[m]] [] h r' Hwf; simpl. unfold refrepo_set; simpl. intros; simplify_eq.
    unfold refrepo_get; simpl. unfold named_mem_get; simpl. rewrite lookup_insert_eq; simpl.
    by rewrite (multibase_law _ Hwf).
  - intros [[m]] [] h x r'; simpl. unfold refrepo_set; simpl. intros; simplify_eq; done.
  - done.
Qed.
End InMemoryLaws.
