(* ===== verification/ObjectRepoFs.v ===== *)
(** Object and named-object repositories on a local file system.

    Sources: src/infra/core/src/repos/{object_repository_local_fs,
    object_repository_caching_local_fs, named_object_repository_local_fs}.rs,
    get_file_physical_hash of src/utils/data-utils/src/data/hash.rs.

    A directory is the map from the objects whose files it holds to their
    contents: the name of an object's file is the multibase form of its hash.
    [lfs_writable] tells whether creating, writing and renaming files in it
    succeeds, so that the paths on which those calls fail are modelled.
    Staging files are written before the rename that makes an object visible
    and are never read.  URLs are not modelled. *)

From S2P Require Import Prelude Multiformats Dtos ChainRepos.

Section Fs.
Context {C : BlockCodec}.

(** ** Objects *)

Record ObjectRepositoryLocalFS := mkObjectRepositoryLocalFS {
  lfs_files : gmap Multihash Bytes;
  lfs_writable : bool
}.

(** Reads the file in chunks and finishes one SHA3-256 digest over them. *)
Definition get_file_physical_hash (file : Bytes) : res unit Multihash :=
  Multihash_from_digest sha3_256 Multicodec_Sha3_256 file.

Definition lfs_contains (r : ObjectRepositoryLocalFS) (hash : Multihash)
    : res ContainsError bool :=
  Ok (bool_decide (is_Some (lfs_files r !! hash))).

Definition lfs_get_size (r : ObjectRepositoryLocalFS) (hash : Multihash) : res GetError u64 :=
  match lfs_files r !! hash with
  | None => Err (GetError_NotFound (mkObjectNotFoundError hash))
  | Some data => Ok (bytes_len data)
  end.

Definition lfs_get_bytes (r : ObjectRepositoryLocalFS) (hash : Multihash) : res GetError Bytes :=
  match lfs_files r !! hash with
  | None => Err (GetError_NotFound (mkObjectNotFoundError hash))
  | Some data => Ok data
  end.

(** [path.exists()], then the write to a staging file and the atomic move. *)
Definition lfs_place (r : ObjectRepositoryLocalFS) (hash : Multihash) (data : Bytes)
    : res InsertError Multihash * ObjectRepositoryLocalFS :=
  match lfs_files r !! hash with
  | Some _ => (Ok hash, r)
  | None =>
      if lfs_writable r
      then (Ok hash, mkObjectRepositoryLocalFS (<[hash := data]> (lfs_files r)) (lfs_writable r))
      else (Err (InsertError_Internal mkInternalError), r)
  end.

Definition lfs_insert (actual_hash : res InsertError Multihash) (r : ObjectRepositoryLocalFS)
    (data : Bytes) (options : InsertOpts) : res InsertError Multihash * ObjectRepositoryLocalFS :=
  match match io_precomputed_hash options with Some hash => Ok hash | None => actual_hash end with
  | Ok hash =>
      match io_expected_hash options with
      | Some expected_hash =>
          if decide (expected_hash <> hash)
          then (Err (InsertError_HashMismatch (mkHashMismatchError expected_hash hash)), r)
          else lfs_place r hash data
      | None => lfs_place r hash data
      end
  | Err e => (Err e, r)
  | Panic => (Panic, r)
  end.

Definition lfs_insert_bytes (r : ObjectRepositoryLocalFS) (data : Bytes) (options : InsertOpts)
    : res InsertError Multihash * ObjectRepositoryLocalFS :=
  lfs_insert (map_err (fun _ => InsertError_Internal mkInternalError)
                (Multihash_from_digest sha3_256 Multicodec_Sha3_256 data)) r data options.

Definition lfs_get_stream (r : ObjectRepositoryLocalFS) (hash : Multihash)
    : res GetError AsyncReadObj :=
  match lfs_files r !! hash with
  | None => Err (GetError_NotFound (mkObjectNotFoundError hash))
  | Some data => Ok (Some data)
  end.

(** The digest of what was read of the stream while it was written to a staging
    file, which is created first. *)
Definition write_stream_with_digest (r : ObjectRepositoryLocalFS) (src : AsyncReadObj)
    : res InsertError (Bytes * Multihash) :=
  if lfs_writable r then
    match src with
    | Some data =>
        let! hash := map_err (fun _ => InsertError_Internal mkInternalError)
                       (Multihash_from_digest sha3_256 Multicodec_Sha3_256 data) in
        Ok (data, hash)
    | None => Err (InsertError_Internal mkInternalError)
    end
  else Err (InsertError_Internal mkInternalError).

Definition lfs_insert_stream (r : ObjectRepositoryLocalFS) (src : AsyncReadObj) (options : InsertOpts)
    : res InsertError Multihash * ObjectRepositoryLocalFS :=
  match write_stream_with_digest r src with
  | Ok (data, actual_hash) => lfs_insert (Ok actual_hash) r data options
  | Err e => (Err e, r)
  | Panic => (Panic, r)
  end.

Definition lfs_insert_file_move (r : ObjectRepositoryLocalFS) (src : Bytes) (options : InsertOpts)
    : res InsertError Multihash * ObjectRepositoryLocalFS :=
  lfs_insert (map_err (fun _ => InsertError_Internal mkInternalError)
                (get_file_physical_hash src)) r src options.

Definition lfs_delete (r : ObjectRepositoryLocalFS) (hash : Multihash)
    : res DeleteError unit * ObjectRepositoryLocalFS :=
  match lfs_files r !! hash with
  | None => (Ok tt, r)
  | Some _ =>
      if lfs_writable r
      then (Ok tt, mkObjectRepositoryLocalFS (delete hash (lfs_files r)) (lfs_writable r))
      else (Err (DeleteError_Internal mkInternalError), r)
  end.

#[global] Instance object_repository_local_fs : ObjectRepository ObjectRepositoryLocalFS := {|
  or_contains := lfs_contains;
  or_get_size := lfs_get_size;
  or_get_bytes := lfs_get_bytes;
  or_get_stream := lfs_get_stream;
  or_insert_bytes := lfs_insert_bytes;
  or_insert_stream := lfs_insert_stream;
  or_insert_file_move := lfs_insert_file_move;
  or_delete := lfs_delete
|}.

(** ** Named objects *)

Record NamedObjectRepositoryLocalFS := mkNamedObjectRepositoryLocalFS {
  nfs_files : gmap string Bytes;
  nfs_writable : bool
}.

Definition nfs_get (r : NamedObjectRepositoryLocalFS) (name : string) : res GetNamedError Bytes :=
  match nfs_files r !! name with
  | Some data => Ok data
  | None => Err (GetNamedError_NotFound (mkNotFoundError name))
  end.

Definition nfs_set (r : NamedObjectRepositoryLocalFS) (name : string) (data : Bytes)
    : res SetNamedError unit * NamedObjectRepositoryLocalFS :=
  if nfs_writable r
  then (Ok tt, mkNamedObjectRepositoryLocalFS (<[name := data]> (nfs_files r)) (nfs_writable r))
  else (Err (SetNamedError_Internal mkInternalError), r).

Definition nfs_delete (r : NamedObjectRepositoryLocalFS) (name : string)
    : res DeleteNamedError unit * NamedObjectRepositoryLocalFS :=
  match nfs_files r !! name with
  | None => (Ok tt, r)
  | Some _ =>
      if nfs_writable r
      then (Ok tt, mkNamedObjectRepositoryLocalFS (delete name (nfs_files r)) (nfs_writable r))
      else (Err (DeleteNamedError_Internal mkInternalError), r)
  end.

#[global] Instance named_object_repository_local_fs
  : NamedObjectRepository NamedObjectRepositoryLocalFS := {|
  nr_get := nfs_get;
  nr_set := nfs_set;
  nr_delete := nfs_delete
|}.
End Fs.

(** * Contracts *)

(** What a dataset relies on when it moves files into its repositories:
    objects are never lost by an insertion, and one that succeeds makes the
    object present under the hash it was given. *)
Class LawfulObjectRepo {C : BlockCodec} (R : Type) `{!ObjectRepository R} : Prop := {
  or_move_hash : forall r f o h r' p,
    or_insert_file_move r f o = (Ok h, r') -> io_precomputed_hash o = Some p -> h = p;
  or_move_present : forall r f o h r',
    or_insert_file_move r f o = (Ok h, r') -> or_contains r' h = Ok true;
  or_move_keeps : forall r f o x r' h,
    or_insert_file_move r f o = (x, r') -> or_contains r h = Ok true -> or_contains r' h = Ok true;
  or_move_failed : forall r f o x r',
    or_insert_file_move r f o = (x, r') -> is_ok x = false -> r' = r;
  or_sized_present : forall r h n, or_get_size r h = Ok n -> or_contains r h = Ok true
}.

(** What the transfer of objects between datasets relies on: inserting a stream
    keeps the other objects, and one that succeeds makes the object present under
    the expected hash, with the contents of the stream if it was not there; no
    other object appears. *)
Class LawfulStreamRepo {C : BlockCodec} (R : Type) `{!ObjectRepository R} : Prop := {
  or_stream_expected : forall r s o h r' e,
    or_insert_stream r s o = (Ok h, r') -> io_expected_hash o = Some e -> h = e;
  or_stream_present : forall r s o h r',
    or_insert_stream r s o = (Ok h, r') -> or_contains r' h = Ok true;
  or_stream_bytes : forall r s o h r',
    or_insert_stream r s o = (Ok h, r') -> or_contains r h <> Ok true ->
    exists data, s = Some data /\ or_get_bytes r' h = Ok data;
  or_stream_frame : forall r s o x r' h,
    or_insert_stream r s o = (x, r') -> or_contains r h = Ok true ->
    or_contains r' h = Ok true /\ or_get_bytes r' h = or_get_bytes r h;
  or_stream_only : forall r s o x r' h,
    or_insert_stream r s o = (x, r') -> or_contains r' h = Ok true ->
    or_contains r h = Ok true \/ x = Ok h
}.

(** What the summary relies on: named objects read back. *)
Class LawfulInfoRepo {C : BlockCodec} (R : Type) `{!NamedObjectRepository R} : Prop := {
  nr_set_get : forall r n d r', nr_set r n d = (Ok tt, r') -> nr_get r' n = Ok d
}.

Section Laws.
Context {C : BlockCodec}.

Implicit Types (r : ObjectRepositoryLocalFS).

(** An insertion either places the object, or changes nothing. *)
Lemma lfs_insert_spec m r data o x r' :
  lfs_insert m r data o = (x, r') ->
  (is_ok x = false /\ r' = r) \/
  (exists h, x = Ok h /\ (forall p, io_precomputed_hash o = Some p -> h = p) /\
     (forall e, io_expected_hash o = Some e -> h = e) /\
     lfs_files r' = match lfs_files r !! h with
                    | Some _ => lfs_files r
                    | None => <[h := data]> (lfs_files r)
                    end).
Proof.
  unfold lfs_insert.
  destruct (match io_precomputed_hash o with Some hash => Ok hash | None => m end)
    as [h| |] eqn:Hm; [|by intros [= <- <-]; left..].
  assert (Hp : forall p, io_precomputed_hash o = Some p -> h = p).
  { intros p Hp. rewrite Hp in Hm. by injection Hm. }
  assert (Hplace : (forall e, io_expected_hash o = Some e -> h = e) ->
            lfs_place r h data = (x, r') ->
            is_ok x = false /\ r' = r \/
            exists h, x = Ok h /\ (forall p, io_precomputed_hash o = Some p -> h = p) /\
              (forall e, io_expected_hash o = Some e -> h = e) /\
              lfs_files r' = match lfs_files r !! h with
                             | Some _ => lfs_files r
                             | None => <[h := data]> (lfs_files r)
                             end).
  { intros He. unfold lfs_place. destruct (lfs_files r !! h) eqn:Hl.
    - intros [= <- <-]. right. exists h. by rewrite Hl.
    - destruct (lfs_writable r); intros [= <- <-]; [|by left]. right. exists h. by rewrite Hl. }
  destruct (io_expected_hash o) as [e|]; [|by apply Hplace].
  case_decide as Hd; [by intros [= <- <-]; left|].
  apply Hplace. by intros ? [= <-].
Qed.

Lemma lfs_contains_true r h : or_contains r h = Ok true <-> is_Some (lfs_files r !! h).
Proof.
  simpl. unfold lfs_contains. split; [intros [= H]; by apply bool_decide_eq_true in H|].
  intros H. by rewrite bool_decide_eq_true_2.
Qed.

#[export] Instance local_fs_lawful : LawfulObjectRepo ObjectRepositoryLocalFS.
Proof.
  split.
  - intros r f o h r' p H Hp.
    apply lfs_insert_spec in H as [[? _]|(h' & [= ->] & Hh & _)]; [done|by apply Hh].
  - intros r f o h r' H. apply lfs_contains_true.
    apply lfs_insert_spec in H as [[? _]|(h' & [= <-] & _ & _ & ->)]; [done|].
    destruct (lfs_files r !! h) eqn:Hl; [by rewrite Hl|by rewrite lookup_insert_eq].
  - intros r f o x r' h H. rewrite !lfs_contains_true.
    apply lfs_insert_spec in H as [[_ ->]|(h' & _ & _ & _ & ->)]; [done|].
    destruct (lfs_files r !! h') eqn:Hl; [done|].
    intros Hh. destruct (decide (h' = h)) as [->|]; [by rewrite lookup_insert_eq|].
    by rewrite lookup_insert_ne.
  - intros r f o x r' H Hx. by apply lfs_insert_spec in H as [[_ ->]|(h' & -> & _)].
  - intros r h n. rewrite lfs_contains_true. simpl. unfold lfs_get_size.
    by destruct (lfs_files r !! h).
Qed.

Lemma lfs_insert_stream_spec r s o x r' :
  or_insert_stream r s o = (x, r') ->
  (is_ok x = false /\ r' = r) \/
  (exists h data, x = Ok h /\ s = Some data /\ (forall e, io_expected_hash o = Some e -> h = e) /\
     lfs_files r' = match lfs_files r !! h with
                    | Some _ => lfs_files r
                    | None => <[h := data]> (lfs_files r)
                    end).
Proof.
  simpl. unfold lfs_insert_stream, write_stream_with_digest.
  destruct (lfs_writable r); [|by intros [= <- <-]; left].
  destruct s as [data|]; [|by intros [= <- <-]; left].
  destruct (Multihash_from_digest _ _ data) as [h0| |]; simpl; [|by intros [= <- <-]; left..].
  intros [[? ?]|(h & ? & _ & He & Hf)]%lfs_insert_spec; [by left|].
  right. by exists h, data.
Qed.

#[export] Instance local_fs_stream : LawfulStreamRepo ObjectRepositoryLocalFS.
Proof.
  split.
  - intros r s o h r' e H He.
    apply lfs_insert_stream_spec in H as [[? _]|(h' & data & [= ->] & _ & Hh & _)]; [done|auto].
  - intros r s o h r' H. apply lfs_contains_true.
    apply lfs_insert_stream_spec in H as [[? _]|(h' & data & [= <-] & _ & _ & ->)]; [done|].
    destruct (lfs_files r !! h) eqn:Hl; [by rewrite Hl|by rewrite lookup_insert_eq].
  - intros r s o h r' H. rewrite lfs_contains_true. intros Hn.
    apply lfs_insert_stream_spec in H as [[? _]|(h' & data & [= <-] & -> & _ & Hf)]; [done|].
    exists data. split; [done|]. simpl. unfold lfs_get_bytes. rewrite Hf.
    destruct (lfs_files r !! h) eqn:Hl; [destruct Hn; eauto|by rewrite lookup_insert_eq].
  - intros r s o x r' h H. rewrite !lfs_contains_true. simpl. unfold lfs_get_bytes.
    apply lfs_insert_stream_spec in H as [[_ ->]|(h' & data & _ & _ & _ & ->)]; [done|].
    destruct (lfs_files r !! h') eqn:Hl; [done|].
    intros Hh. destruct (decide (h' = h)) as [->|]; [rewrite Hl in Hh; by destruct Hh|].
    by rewrite lookup_insert_ne.
  - intros r s o x r' h H. rewrite !lfs_contains_true.
    apply lfs_insert_stream_spec in H as [[_ ->]|(h' & data & -> & _ & _ & ->)]; [by left|].
    destruct (lfs_files r !! h') eqn:Hl; [by left|].
    destruct (decide (h' = h)) as [->|]; [by right|]. rewrite lookup_insert_ne by done. by left.
Qed.

#[export] Instance named_local_fs_lawful : LawfulInfoRepo NamedObjectRepositoryLocalFS.
Proof.
  split. intros r n d r'. simpl. unfold nfs_set, nfs_get.
  destruct (nfs_writable r); [|done]. intros [= <-]. simpl. by rewrite lookup_insert_eq.
Qed.

#[export] Instance named_mem_lawful : LawfulInfoRepo NamedObjectRepositoryInMemory.
Proof.
  split. intros r n d r' [= <-]. simpl. unfold named_mem_get. simpl. by rewrite lookup_insert_eq.
Qed.
End Laws.
