(* ===== verification/MetadataChain.v ===== *)
(** The metadata chain: block lists linked by hash, iteration over intervals,
    and updates of references.

    Sources: src/domain/core/src/entities/metadata_chain.rs (the trait, its
    options and errors) and src/infra/core/src/repos/metadata_chain_impl.rs.

    The traversal loops follow [prev_block_hash] links until they end, so they
    carry fuel; [None] means the fuel ran out.  [linked] is the specification
    of a stored chain, and [*_linked] lemmas show that one unit of fuel more
    than its length is enough. *)

From S2P Require Import Prelude Multiformats Dtos ChainRepos.

Abbreviation HashedMetadataBlock := (Multihash * MetadataBlock)%type.

(** * Options and errors *)

Record SetRefOpts := mkSetRefOpts {
  sro_validate_block_present : bool;
  sro_check_ref_is : option (option Multihash)
}.

Definition SetRefOpts_default : SetRefOpts := mkSetRefOpts true None.

Inductive AppendValidation :=
| AppendValidation_None
| AppendValidation_Full.

#[export] Instance AppendValidation_eq_dec : EqDecision AppendValidation.
Proof. solve_decision. Defined.

Record AppendOpts := mkAppendOpts {
  ao_validation : AppendValidation;
  ao_update_ref : option BlockRef;
  ao_check_ref_is_prev_block : bool;
  ao_check_ref_is : option (option Multihash);
  ao_precomputed_hash : option Multihash;
  ao_expected_hash : option Multihash
}.

Definition AppendOpts_default : AppendOpts :=
  mkAppendOpts AppendValidation_Full (Some BlockRef_Head) true None None None.

Record InvalidIntervalError := mkInvalidIntervalError {
  iie_head : Multihash;
  iie_tail : Multihash
}.

Record RefCASError := mkRefCASError {
  rce_reference : BlockRef;
  rce_expected : option Multihash;
  rce_actual : option Multihash
}.

Record InvalidEventError := mkInvalidEventError {
  iee_event : MetadataEvent;
  iee_message : string
}.

Record NoOpEventError := mkNoOpEventError {
  noe_event : MetadataEvent;
  noe_message : string
}.

Record SequenceIntegrityError := mkSequenceIntegrityError {
  sie_prev_block_hash : option Multihash;
  sie_prev_block_sequence_number : option u64;
  sie_next_block_sequence_number : u64
}.

Record OffsetsNotSequentialError := mkOffsetsNotSequentialError {
  one_expected_offset : u64;
  one_new_offset : u64
}.

Inductive IterBlocksError :=
| IterBlocksError_RefNotFound (e : RefNotFoundError)
| IterBlocksError_BlockNotFound (e : BlockNotFoundError)
| IterBlocksError_BlockVersion (e : BlockVersionError)
| IterBlocksError_BlockMalformed (e : BlockMalformedError)
| IterBlocksError_InvalidInterval (e : InvalidIntervalError)
| IterBlocksError_Access (e : AccessError)
| IterBlocksError_Internal (e : InternalError).

Definition IterBlocksError_from_GetRefError (v : GetRefError) : IterBlocksError :=
  match v with
  | GetRefError_NotFound e => IterBlocksError_RefNotFound e
  | GetRefError_Access e => IterBlocksError_Access e
  | GetRefError_Internal e => IterBlocksError_Internal e
  end.

Definition IterBlocksError_from_GetBlockError (v : GetBlockError) : IterBlocksError :=
  match v with
  | GetBlockError_NotFound e => IterBlocksError_BlockNotFound e
  | GetBlockError_BlockVersion e => IterBlocksError_BlockVersion e
  | GetBlockError_BlockMalformed e => IterBlocksError_BlockMalformed e
  | GetBlockError_Access e => IterBlocksError_Access e
  | GetBlockError_Internal e => IterBlocksError_Internal e
  end.

Inductive AcceptVisitorError (E : Type) :=
| AcceptVisitorError_Traversal (e : IterBlocksError)
| AcceptVisitorError_Visitor (e : E).
Arguments AcceptVisitorError_Traversal {E}.
Arguments AcceptVisitorError_Visitor {E}.

Inductive SetRefError :=
| SetRefError_BlockNotFound (e : BlockNotFoundError)
| SetRefError_CASFailed (e : RefCASError)
| SetRefError_Access (e : AccessError)
| SetRefError_Internal (e : InternalError).

Definition SetRefError_from (v : SetRefErrorRepo) : SetRefError :=
  match v with
  | SetRefErrorRepo_Access e => SetRefError_Access e
  | SetRefErrorRepo_Internal e => SetRefError_Internal e
  end.

Inductive AppendValidationError :=
| AppendValidationError_HashMismatch (e : HashMismatchError)
| AppendValidationError_FirstBlockMustBeSeed
| AppendValidationError_AppendingSeedBlockToNonEmptyChain
| AppendValidationError_PrevBlockNotFound (e : BlockNotFoundError)
| AppendValidationError_SequenceIntegrity (e : SequenceIntegrityError)
| AppendValidationError_SystemTimeIsNotMonotonic
| AppendValidationError_WatermarkIsNotMonotonic
| AppendValidationError_OffsetsAreNotSequential (e : OffsetsNotSequentialError)
| AppendValidationError_InvalidEvent (e : InvalidEventError)
| AppendValidationError_NoOpEvent (e : NoOpEventError).

Definition no_op_event (event : MetadataEvent) (message : string) : AppendValidationError :=
  AppendValidationError_NoOpEvent (mkNoOpEventError event message).

Definition empty_event (event : MetadataEvent) : AppendValidationError :=
  no_op_event event "Event is empty".

Inductive AppendError :=
| AppendError_RefNotFound (e : RefNotFoundError)
| AppendError_RefCASFailed (e : RefCASError)
| AppendError_InvalidBlock (e : AppendValidationError)
| AppendError_Access (e : AccessError)
| AppendError_Internal (e : InternalError).

Definition AppendError_from_SetRefErrorRepo (v : SetRefErrorRepo) : AppendError :=
  match v with
  | SetRefErrorRepo_Access e => AppendError_Access e
  | SetRefErrorRepo_Internal e => AppendError_Internal e
  end.

(** * The chain *)

Record MetadataChainImpl (MetaBlockRepo RefRepo : Type) := mkMetadataChainImpl {
  meta_block_repo : MetaBlockRepo;
  ref_repo : RefRepo
}.
Arguments mkMetadataChainImpl {MetaBlockRepo RefRepo}.
Arguments meta_block_repo {MetaBlockRepo RefRepo}.
Arguments ref_repo {MetaBlockRepo RefRepo}.

Section Chain.
Context {C : BlockCodec} {BR RR : Type}
        `{!MetadataBlockRepository BR} `{!ReferenceRepository RR}.

Implicit Types (c : MetadataChainImpl BR RR) (l : list HashedMetadataBlock).

(** The blocks of [l], head first, are stored and linked by hash: the first
    one is [o] and the last one has no predecessor. *)
Inductive linked (r : BR) : option Multihash -> list HashedMetadataBlock -> Prop :=
| linked_nil : linked r None []
| linked_cons h b l :
    get_block r h = Ok b ->
    linked r (mb_prev_block_hash b) l ->
    linked r (Some h) ((h, b) :: l).

Definition resolve_ref c (r : BlockRef) : res GetRefError Multihash := rr_get (ref_repo c) r.

(** ** Iteration *)

(** A stream is what it yields and how it ends. *)
Definition block_stream : Type := list HashedMetadataBlock * res IterBlocksError unit.

(** The [while current.is_some() && current != tail] loop: the blocks it
    yields, and [current] when it is left. *)
Fixpoint interval_loop (fuel : nat) (r : BR) (current tail_hash : option Multihash)
    : option (list HashedMetadataBlock * res IterBlocksError (option Multihash)) :=
  match fuel with
  | 0 => None
  | S fuel' =>
      match current with
      | None => Some ([], Ok None)
      | Some hash =>
          if decide (current = tail_hash) then Some ([], Ok current)
          else
            match get_block r hash with
            | Ok block =>
                match interval_loop fuel' r (mb_prev_block_hash block) tail_hash with
                | Some (l, x) => Some ((hash, block) :: l, x)
                | None => None
                end
            | Err e => Some ([], Err (IterBlocksError_from_GetBlockError e))
            | Panic => Some ([], Panic)
            end
      end
  end.

Definition iter_blocks_interval (fuel : nat) c (head_hash : Multihash)
    (tail_hash : option Multihash) (ignore_missing_tail : bool) : option block_stream :=
  match interval_loop fuel (meta_block_repo c) (Some head_hash) tail_hash with
  | Some (l, Ok current) =>
      Some (l,
        match current, tail_hash with
        | None, Some tail =>
            if negb ignore_missing_tail
            then Err (IterBlocksError_InvalidInterval (mkInvalidIntervalError head_hash tail))
            else Ok tt
        | _, _ => Ok tt
        end)
  | Some (l, Err e) => Some (l, Err e)
  | Some (l, Panic) => Some (l, Panic)
  | None => None
  end.

(** The [loop] of the inclusive iteration: what it yields and the last
    [current]. *)
Fixpoint inclusive_loop (fuel : nat) (r : BR) (current tail_hash : Multihash)
    : option (list HashedMetadataBlock * res IterBlocksError Multihash) :=
  match fuel with
  | 0 => None
  | S fuel' =>
      match get_block r current with
      | Ok block =>
          if decide (current = tail_hash) then Some ([(current, block)], Ok current)
          else
            match mb_prev_block_hash block with
            | None => Some ([(current, block)], Ok current)
            | Some next =>
                match inclusive_loop fuel' r next tail_hash with
                | Some (l, x) => Some ((current, block) :: l, x)
                | None => None
                end
            end
      | Err e => Some ([], Err (IterBlocksError_from_GetBlockError e))
      | Panic => Some ([], Panic)
      end
  end.

Definition iter_blocks_interval_inclusive (fuel : nat) c (head_hash tail_hash : Multihash)
    (ignore_missing_tail : bool) : option block_stream :=
  match inclusive_loop fuel (meta_block_repo c) head_hash tail_hash with
  | Some (l, Ok current) =>
      Some (l,
        if negb ignore_missing_tail && bool_decide (current <> tail_hash)
        then Err (IterBlocksError_InvalidInterval (mkInvalidIntervalError head_hash tail_hash))
        else Ok tt)
  | Some (l, Err e) => Some (l, Err e)
  | Some (l, Panic) => Some (l, Panic)
  | None => None
  end.

Definition iter_blocks_interval_ref (fuel : nat) c (head : BlockRef) (tail : option BlockRef)
    : option block_stream :=
  match resolve_ref c head with
  | Err e => Some ([], Err (IterBlocksError_from_GetRefError e))
  | Panic => Some ([], Panic)
  | Ok head_hash =>
      match tail with
      | None => iter_blocks_interval fuel c head_hash None false
      | Some t =>
          match resolve_ref c t with
          | Err e => Some ([], Err (IterBlocksError_from_GetRefError e))
          | Panic => Some ([], Panic)
          | Ok tail_hash => iter_blocks_interval fuel c head_hash (Some tail_hash) false
          end
      end
  end.

(** [MetadataChainExt]: the convenience methods. *)
Definition try_get_ref c (r : BlockRef) : res InternalError (option Multihash) :=
  match resolve_ref c r with
  | Ok h => Ok (Some h)
  | Err (GetRefError_NotFound _) => Ok None
  | Err _ => Err mkInternalError
  | Panic => Panic
  end.

Definition get_block_by_ref c (r : BlockRef) : res InternalError MetadataBlock :=
  let! h := map_err (fun _ => mkInternalError) (resolve_ref c r) in
  map_err (fun _ => mkInternalError) (get_block (meta_block_repo c) h).

Definition try_get_block c (hash : Multihash) : res InternalError (option MetadataBlock) :=
  match get_block (meta_block_repo c) hash with
  | Ok b => Ok (Some b)
  | Err (GetBlockError_NotFound _) => Ok None
  | Err _ => Err mkInternalError
  | Panic => Panic
  end.

Definition iter_blocks_ref (fuel : nat) c (head : BlockRef) : option block_stream :=
  iter_blocks_interval_ref fuel c head None.

Definition iter_blocks (fuel : nat) c : option block_stream :=
  iter_blocks_interval_ref fuel c BlockRef_Head None.

(** ** Setting references *)

Definition set_ref c (r : BlockRef) (hash : Multihash) (opts : SetRefOpts)
    : res SetRefError unit * MetadataChainImpl BR RR :=
  let present : res SetRefError unit :=
    if sro_validate_block_present opts then
      match contains_block (meta_block_repo c) hash with
      | Ok true => Ok tt
      | Ok false => Err (SetRefError_BlockNotFound (mkBlockNotFoundError hash))
      | Err (ContainsBlockError_Access e) => Err (SetRefError_Access e)
      | Err (ContainsBlockError_Internal e) => Err (SetRefError_Internal e)
      | Panic => Panic
      end
    else Ok tt in
  let cas : res SetRefError unit :=
    match sro_check_ref_is opts with
    | None => Ok tt
    | Some prev_expected =>
        let! prev_actual :=
          match rr_get (ref_repo c) r with
          | Ok h => Ok (Some h)
          | Err (GetRefError_NotFound _) => Ok None
          | Err (GetRefError_Access e) => Err (SetRefError_Access e)
          | Err (GetRefError_Internal e) => Err (SetRefError_Internal e)
          | Panic => Panic
          end in
        if decide (prev_expected <> prev_actual)
        then Err (SetRefError_CASFailed (mkRefCASError r prev_expected prev_actual))
        else Ok tt
    end in
  match (let! _ := present in cas) with
  | Ok _ =>
      let '(x, rr) := rr_set (ref_repo c) r hash in
      (map_err SetRefError_from x, mkMetadataChainImpl (meta_block_repo c) rr)
  | Err e => (Err e, c)
  | Panic => (Panic, c)
  end.

(** * Facts about linked chains *)

Lemma linked_unique r o l1 l2 : linked r o l1 -> linked r o l2 -> l1 = l2.
Proof.
  intros H; revert l2; induction H as [|h b l Hb Hl IH]; intros l2 H2.
  - by inversion H2.
  - inversion H2 as [|h' b' l' Hb' Hl']; subst. rewrite Hb in Hb'.
    injection Hb' as <-. f_equal. auto.
Qed.

Lemma linked_app r o l1 h b l2 :
  linked r o (l1 ++ (h, b) :: l2) -> linked r (Some h) ((h, b) :: l2).
Proof.
  revert o; induction l1 as [|[h' b'] l1 IH]; intros o H; simpl in *; inversion H; subst; eauto.
Qed.

(** No hash occurs twice in a stored chain: links never loop. *)
Lemma linked_nodup r o l : linked r o l -> NoDup (l.*1).
Proof.
  induction 1 as [|h b l Hb Hl IH]; [constructor|]. simpl. constructor; [|done].
  intros (x & Hx & Hin)%list_elem_of_fmap. destruct x as [h' b']; simpl in Hx; subst h'.
  apply list_elem_of_split in Hin as (l1 & l2 & ->).
  pose proof (linked_app _ _ _ _ _ _ Hl) as Hl2.
  assert (H1 : linked r (Some h) ((h, b) :: l1 ++ (h, b') :: l2)) by by constructor.
  pose proof (linked_unique _ _ _ _ H1 Hl2) as Heq.
  apply (f_equal length) in Heq. simpl in Heq. rewrite length_app in Heq. simpl in Heq. lia.
Qed.

Lemma linked_lookup r o l h b : linked r o l -> (h, b) ∈ l -> get_block r h = Ok b.
Proof.
  induction 1 as [|h' b' l Hb Hl IH]; intros Hin; [by apply elem_of_nil in Hin|].
  apply elem_of_cons in Hin as [?|?]; simplify_eq; auto.
Qed.

(** Storing a block under a hash that does not occur in the chain keeps it. *)
Lemma linked_frame r r' h o l :
  linked r o l ->
  (forall h', h' <> h -> get_block r' h' = get_block r h') ->
  (forall b, (h, b) ∈ l -> get_block r' h = Ok b) ->
  linked r' o l.
Proof.
  intros Hl Hframe; induction Hl as [|h' b' l Hb Hl IH]; intros Hh; constructor.
  - destruct (decide (h' = h)) as [->|Hne]; [apply Hh; left|]. by rewrite Hframe.
  - apply IH. intros b Hin. apply Hh. by right.
Qed.

(** ** Iteration is correct *)

Lemma interval_loop_step f r h b tail :
  get_block r h = Ok b -> Some h <> tail ->
  interval_loop (S f) r (Some h) tail =
  match interval_loop f r (mb_prev_block_hash b) tail with
  | Some (l, x) => Some ((h, b) :: l, x)
  | None => None
  end.
Proof. intros Hb Ht; simpl. rewrite decide_False by done. by rewrite Hb. Qed.

(** Without a tail in the way the loop yields the whole chain. *)
Lemma interval_loop_all f r o l tail :
  linked r o l -> length l < f -> (forall t, tail = Some t -> t ∉ l.*1) ->
  interval_loop f r o tail = Some (l, Ok None).
Proof.
  intros Hl; revert f; induction Hl as [|h b l Hb Hl IH]; intros [|f] Hf Ht; try (simpl in *; lia).
  - done.
  - rewrite (interval_loop_step _ _ _ _ _ Hb), IH; [done|simpl in Hf; lia| |].
    + intros t Htl Hin. apply (Ht t Htl). by right.
    + intros <-. apply (Ht h eq_refl). left.
Qed.

(** The loop stops in front of the tail. *)
Lemma interval_loop_tail f r o l1 t b l2 :
  linked r o (l1 ++ (t, b) :: l2) -> length l1 < f ->
  interval_loop f r o (Some t) = Some (l1, Ok (Some t)).
Proof.
  revert f o; induction l1 as [|[h' b'] l1 IH]; intros [|f] o Hl Hf; try (simpl in *; lia).
  - inversion Hl; subst. simpl. by rewrite decide_True.
  - pose proof (linked_nodup _ _ _ Hl) as Hnd.
    inversion Hl; subst.
    rewrite (interval_loop_step f r h' b'); [|done|].
    + erewrite IH; [done|eauto|simpl in Hf; lia].
    + intros [= ->]. simpl in Hnd. apply NoDup_cons in Hnd as [Hni _]. apply Hni.
      rewrite fmap_app. set_solver.
Qed.

Lemma inclusive_loop_tail f r h l1 t b l2 :
  linked r (Some h) (l1 ++ (t, b) :: l2) -> length l1 < f ->
  inclusive_loop f r h t = Some (l1 ++ [(t, b)], Ok t).
Proof.
  revert f h; induction l1 as [|[h' b'] l1 IH]; intros [|f] h Hl Hf; try (simpl in *; lia).
  - inversion Hl as [|? ? ? Hb Hl']; subst. simpl. rewrite Hb. by rewrite decide_True.
  - pose proof (linked_nodup _ _ _ Hl) as Hnd.
    inversion Hl as [|? ? ? Hb Hl']; subst. simpl. rewrite Hb.
    rewrite decide_False.
    + destruct (mb_prev_block_hash b') as [p|] eqn:Hp.
      * erewrite IH; [done|eauto|simpl in Hf; lia].
      * inversion Hl' as [Hnil|]. by destruct l1.
    + intros ->. simpl in Hnd. apply NoDup_cons in Hnd as [Hni _]. apply Hni.
      rewrite fmap_app. set_solver.
Qed.

Lemma inclusive_loop_missing f r h l t :
  linked r (Some h) l -> length l < S f -> t ∉ l.*1 ->
  exists last, inclusive_loop f r h t = Some (l, Ok last) /\ last <> t.
Proof.
  revert f h; induction l as [|[h' b'] l IH]; intros f h Hl Hf Ht; [inversion Hl|].
  inversion Hl as [|? ? ? Hb Hl']; subst. destruct f as [|f]; [simpl in Hf; lia|].
  simpl. rewrite Hb. simpl in Ht. rewrite decide_False by set_solver.
  destruct (mb_prev_block_hash b') as [p|] eqn:Hp.
  - destruct (IH f p Hl') as (last & -> & Hlast); [simpl in Hf; lia|set_solver|]. eauto.
  - inversion Hl'; subst. exists h'. split; [done|set_solver].
Qed.

(** The two interval iterations over a stored chain: up to a block of it, and
    with a tail that is not in it. *)
Lemma iter_interval_found f c h l1 t b l2 ign :
  linked (meta_block_repo c) (Some h) (l1 ++ (t, b) :: l2) -> length l1 < f ->
  iter_blocks_interval f c h (Some t) ign = Some (l1, Ok tt) /\
  iter_blocks_interval_inclusive f c h t ign = Some (l1 ++ [(t, b)], Ok tt).
Proof.
  intros Hl Hf. unfold iter_blocks_interval, iter_blocks_interval_inclusive.
  rewrite (interval_loop_tail _ _ _ _ _ _ _ Hl Hf), (inclusive_loop_tail _ _ _ _ _ _ _ Hl Hf).
  rewrite bool_decide_eq_false_2 by tauto. by rewrite andb_false_r.
Qed.

Definition missing_tail (ign : bool) (h t : Multihash) : res IterBlocksError unit :=
  if ign then Ok tt else Err (IterBlocksError_InvalidInterval (mkInvalidIntervalError h t)).

Lemma iter_interval_missing f c h l t ign :
  linked (meta_block_repo c) (Some h) l -> length l < f -> t ∉ l.*1 ->
  iter_blocks_interval f c h (Some t) ign = Some (l, missing_tail ign h t) /\
  iter_blocks_interval_inclusive f c h t ign = Some (l, missing_tail ign h t).
Proof.
  intros Hl Hf Ht. unfold iter_blocks_interval, iter_blocks_interval_inclusive, missing_tail.
  rewrite (interval_loop_all _ _ _ _ _ Hl Hf) by (by intros ? [= <-]).
  destruct (inclusive_loop_missing f _ _ _ _ Hl ltac:(lia) Ht) as (last & -> & Hlast).
  rewrite bool_decide_eq_true_2 by done. rewrite andb_true_r. by destruct ign.
Qed.

Lemma iter_blocks_all f c h l :
  resolve_ref c BlockRef_Head = Ok h -> linked (meta_block_repo c) (Some h) l -> length l < f ->
  iter_blocks f c = Some (l, Ok tt).
Proof.
  intros Hh Hl Hf. unfold iter_blocks, iter_blocks_interval_ref. rewrite Hh.
  unfold iter_blocks_interval. by rewrite (interval_loop_all _ _ _ _ _ Hl Hf).
Qed.
End Chain.

#[export] Hint Constructors linked : kamu.
#[export] Hint Resolve linked_nodup : kamu.
