(* ===== verification/ChainComparator.v ===== *)
(** Comparison of two metadata chains.

    Source: src/domain/core/src/utils/metadata_chain_comparator.rs.

    [compare_chains] decides whether one chain extends the other, and by which
    blocks, or where they diverge.  It reads as few blocks as it can: it relies
    on sequence numbers to bring both chains to the same level and then walks
    them in step.  The listener, which only reports progress, is left out. *)

From S2P Require Import Prelude Multiformats Dtos ChainRepos MetadataChain.

Inductive CompareChainsResult :=
| CompareChainsResult_Equal
| CompareChainsResult_LhsAhead (lhs_ahead_blocks : list HashedMetadataBlock)
| CompareChainsResult_LhsBehind (rhs_ahead_blocks : list HashedMetadataBlock)
| CompareChainsResult_Divergence (uncommon_blocks_in_lhs uncommon_blocks_in_rhs : u64).

Inductive CommonAncestorCheck :=
| CommonAncestorCheck_Success (ahead_blocks : list HashedMetadataBlock)
| CommonAncestorCheck_Failure (common_ancestor_sequence_number : option u64).

(** The boxed source of the error is left out. *)
Record CorruptedSourceError := mkCorruptedSourceError { cse_message : string }.

Inductive CompareChainsError :=
| CompareChainsError_Corrupted (e : CorruptedSourceError)
| CompareChainsError_Access (e : AccessError)
| CompareChainsError_Internal (e : InternalError).

Definition broken_chain : CompareChainsError :=
  CompareChainsError_Corrupted (mkCorruptedSourceError "Metadata chain is broken").

Definition CompareChainsError_from_GetBlockError (v : GetBlockError) : CompareChainsError :=
  match v with
  | GetBlockError_NotFound _ => broken_chain
  | GetBlockError_BlockVersion _ => broken_chain
  | GetBlockError_BlockMalformed _ => broken_chain
  | GetBlockError_Access e => CompareChainsError_Access e
  | GetBlockError_Internal e => CompareChainsError_Internal e
  end.

(** [InvalidInterval] is unreachable in the conversion. *)
Definition CompareChainsError_from_IterBlocksError {A} (v : IterBlocksError)
    : res CompareChainsError A :=
  match v with
  | IterBlocksError_RefNotFound _ => Err (CompareChainsError_Internal mkInternalError)
  | IterBlocksError_BlockNotFound _ => Err broken_chain
  | IterBlocksError_BlockVersion _ => Err broken_chain
  | IterBlocksError_BlockMalformed _ => Err broken_chain
  | IterBlocksError_InvalidInterval _ => Panic
  | IterBlocksError_Access e => Err (CompareChainsError_Access e)
  | IterBlocksError_Internal e => Err (CompareChainsError_Internal e)
  end.

(** * Streams of blocks *)

(** [try_next]: the next item, or the end, and the rest of the stream. *)
Definition try_next (s : block_stream)
    : res IterBlocksError (option HashedMetadataBlock) * block_stream :=
  match s with
  | (hb :: l, e) => (Ok (Some hb), (l, e))
  | ([], Ok _) => (Ok None, s)
  | ([], Err e) => (Err e, ([], Ok tt))
  | ([], Panic) => (Panic, s)
  end.

(** [take(n)]: the end of the stream is seen only if it comes first. *)
Definition stream_take (n : nat) (s : block_stream) : block_stream :=
  (take n s.1, if decide (n <= length s.1) then Ok tt else s.2).

(** [try_collect().await?] *)
Definition try_collect (s : block_stream) : res CompareChainsError (list HashedMetadataBlock) :=
  match s.2 with
  | Ok _ => Ok s.1
  | Err e => CompareChainsError_from_IterBlocksError e
  | Panic => Panic
  end.

(** [while curr > level { stream.try_next().await.int_err()?; curr -= 1; }] *)
Fixpoint skip_blocks (n : nat) (s : block_stream) : res CompareChainsError block_stream :=
  match n with
  | 0 => Ok s
  | S n' =>
      match try_next s with
      | (Ok _, s') => skip_blocks n' s'
      | (Err _, _) => Err (CompareChainsError_Internal mkInternalError)
      | (Panic, _) => Panic
      end
  end.

(** [stream.try_next().await.int_err()?.unwrap()] *)
Definition next_unwrap (s : block_stream)
    : res CompareChainsError (HashedMetadataBlock * block_stream) :=
  match try_next s with
  | (Ok (Some hb), s') => Ok (hb, s')
  | (Ok None, _) => Panic
  | (Err _, _) => Err (CompareChainsError_Internal mkInternalError)
  | (Panic, _) => Panic
  end.

(** The final [loop]: [curr] is the sequence number of the next block on
    either side. *)
Fixpoint common_loop (curr : nat) (lhs_stream rhs_stream : block_stream)
    : res CompareChainsError (option u64) :=
  let! (lhs, lhs_stream') := next_unwrap lhs_stream in
  let! (rhs, rhs_stream') := next_unwrap rhs_stream in
  if decide (lhs.1 = rhs.1) then Ok (Some (Z.of_nat curr))
  else
    match curr with
    | 0 => Ok None
    | S curr' => common_loop curr' lhs_stream' rhs_stream'
    end.

(** * Comparison *)

Definition describe_divergence (lhs_sequence_number rhs_sequence_number : u64)
    (last_common_sequence_number : option u64) : CompareChainsResult :=
  match last_common_sequence_number with
  | Some last_common =>
      CompareChainsResult_Divergence (u64_sub lhs_sequence_number last_common)
        (u64_sub rhs_sequence_number last_common)
  | None =>
      CompareChainsResult_Divergence (u64_add lhs_sequence_number 1)
        (u64_add rhs_sequence_number 1)
  end.

Section TwoChains.
Context {C : BlockCodec} {BR1 RR1 BR2 RR2 : Type}
        `{!MetadataBlockRepository BR1} `{!MetadataBlockRepository BR2}.

Definition find_common_ancestor_sequence_number (fuel : nat)
    (lhs_chain : MetadataChainImpl BR1 RR1) (lhs_head : Multihash) (lhs_start : u64)
    (rhs_chain : MetadataChainImpl BR2 RR2) (rhs_head : Multihash) (rhs_start : u64)
    : option (res CompareChainsError (option u64)) :=
  match iter_blocks_interval fuel lhs_chain lhs_head None false,
        iter_blocks_interval fuel rhs_chain rhs_head None false with
  | Some lhs_stream, Some rhs_stream =>
      Some
        (let! lhs_stream := skip_blocks (Z.to_nat (lhs_start - rhs_start)) lhs_stream in
         let! rhs_stream := skip_blocks (Z.to_nat (rhs_start - lhs_start)) rhs_stream in
         common_loop (Z.to_nat (Z.min lhs_start rhs_start)) lhs_stream rhs_stream)
  | _, _ => None
  end.

Definition check_expected_common_ancestor (fuel : nat)
    (ahead_chain : MetadataChainImpl BR1 RR1) (ahead_sequence_number : u64) (ahead_head : Multihash)
    (reference_chain : MetadataChainImpl BR2 RR2) (expected_common_sequence_number : u64)
    (expected_common_ancestor_hash : Multihash)
    : option (res CompareChainsError CommonAncestorCheck) :=
  let ahead_size := u64_sub ahead_sequence_number expected_common_sequence_number in
  match iter_blocks_interval fuel ahead_chain ahead_head None false with
  | None => None
  | Some stream =>
      match try_collect (stream_take (Z.to_nat ahead_size) stream) with
      | Err e => Some (Err e)
      | Panic => Some Panic
      | Ok ahead_blocks =>
          match last ahead_blocks with
          | None => Some Panic
          | Some boundary =>
              match mb_prev_block_hash boundary.2 with
              | Some prev =>
                  if decide (prev <> expected_common_ancestor_hash) then
                    match find_common_ancestor_sequence_number fuel ahead_chain prev
                            (u64_sub ahead_sequence_number ahead_size) reference_chain
                            expected_common_ancestor_hash expected_common_sequence_number with
                    | Some m => Some (map_ok CommonAncestorCheck_Failure m)
                    | None => None
                    end
                  else Some (Ok (CommonAncestorCheck_Success ahead_blocks))
              | None => Some (Ok (CommonAncestorCheck_Success ahead_blocks))
              end
          end
      end
  end.
End TwoChains.

Section Compare.
Context {C : BlockCodec} {BR1 RR1 BR2 RR2 : Type}
        `{!MetadataBlockRepository BR1} `{!MetadataBlockRepository BR2}.

Implicit Types (l r : list HashedMetadataBlock).

Definition compare_chains (fuel : nat) (lhs_chain : MetadataChainImpl BR1 RR1)
    (lhs_head : Multihash) (rhs_chain : MetadataChainImpl BR2 RR2) (rhs_head : option Multihash)
    : option (res CompareChainsError CompareChainsResult) :=
  if decide (Some lhs_head = rhs_head) then Some (Ok CompareChainsResult_Equal)
  else
    match get_block (meta_block_repo lhs_chain) lhs_head with
    | Err e => Some (Err (CompareChainsError_from_GetBlockError e))
    | Panic => Some Panic
    | Ok lhs_block =>
        let lhs_sequence_number := mb_sequence_number lhs_block in
        match rhs_head with
        | None =>
            match iter_blocks_interval fuel lhs_chain lhs_head None false with
            | Some s => Some (map_ok CompareChainsResult_LhsAhead (try_collect s))
            | None => None
            end
        | Some rhs_head =>
            match get_block (meta_block_repo rhs_chain) rhs_head with
            | Err e => Some (Err (CompareChainsError_from_GetBlockError e))
            | Panic => Some Panic
            | Ok rhs_block =>
                let rhs_sequence_number := mb_sequence_number rhs_block in
                let diverged :=
                  describe_divergence lhs_sequence_number rhs_sequence_number in
                match (lhs_sequence_number ?= rhs_sequence_number)%Z with
                | Eq =>
                    match find_common_ancestor_sequence_number fuel lhs_chain lhs_head
                            lhs_sequence_number rhs_chain rhs_head rhs_sequence_number with
                    | Some m => Some (map_ok diverged m)
                    | None => None
                    end
                | Gt =>
                    match check_expected_common_ancestor fuel lhs_chain lhs_sequence_number
                            lhs_head rhs_chain rhs_sequence_number rhs_head with
                    | Some m =>
                        Some (map_ok (fun check =>
                          match check with
                          | CommonAncestorCheck_Success blocks =>
                              CompareChainsResult_LhsAhead blocks
                          | CommonAncestorCheck_Failure n => diverged n
                          end) m)
                    | None => None
                    end
                | Lt =>
                    match check_expected_common_ancestor fuel rhs_chain rhs_sequence_number
                            rhs_head lhs_chain lhs_sequence_number lhs_head with
                    | Some m =>
                        Some (map_ok (fun check =>
                          match check with
                          | CommonAncestorCheck_Success blocks =>
                              CompareChainsResult_LhsBehind blocks
                          | CommonAncestorCheck_Failure n => diverged n
                          end) m)
                    | None => None
                    end
                end
            end
        end
    end.
End Compare.

(** * Two stored chains *)

(** Sequence numbers count the blocks below. *)
Definition positions (l : list HashedMetadataBlock) : Prop :=
  forall l1 hb l2, l = l1 ++ hb :: l2 -> mb_sequence_number hb.2 = Z.of_nat (length l2).

(** A hash that occurs in both chains is the hash of the same block. *)
Definition agree (l r : list HashedMetadataBlock) : Prop :=
  forall h b b', (h, b) ∈ l -> (h, b') ∈ r -> b = b'.

(** No hash occurs in both lists. *)
Definition apart (xs ys : list HashedMetadataBlock) : Prop :=
  forall x y, x ∈ xs -> y ∈ ys -> x.1 <> y.1.

(** What the result says about the chains. *)
Definition compare_spec (l r : list HashedMetadataBlock) (result : CompareChainsResult) : Prop :=
  match result with
  | CompareChainsResult_Equal => l = r
  | CompareChainsResult_LhsAhead xs => xs <> [] /\ l = xs ++ r
  | CompareChainsResult_LhsBehind xs => xs <> [] /\ r = xs ++ l
  | CompareChainsResult_Divergence n m =>
      exists xs ys common, l = xs ++ common /\ r = ys ++ common /\ xs <> [] /\ ys <> [] /\
        apart xs ys /\ n = Z.of_nat (length xs) /\ m = Z.of_nat (length ys)
  end.

Lemma agree_sym l r : agree l r -> agree r l.
Proof. intros H h b b' Hb Hb'. symmetry. by eapply H. Qed.

Lemma agree_suffix l1 l2 r1 r2 : agree (l1 ++ l2) (r1 ++ r2) -> agree l2 r2.
Proof. intros H h b b' Hb Hb'. apply (H h); set_solver. Qed.

Lemma positions_suffix l1 l2 : positions (l1 ++ l2) -> positions l2.
Proof. intros H l3 hb l4 ->. apply (H (l1 ++ l3)). by rewrite <- app_assoc. Qed.

Section SharedSuffix.
Context {C : BlockCodec} {BR1 BR2 : Type}
        `{!MetadataBlockRepository BR1} `{!MetadataBlockRepository BR2}.
Implicit Types (l r : list HashedMetadataBlock).

Lemma linked_agree (s1 : BR1) (s2 : BR2) o l r :
  linked s1 o l -> linked s2 o r -> agree l r -> l = r.
Proof.
  intros Hl; revert r; induction Hl as [|h b l Hb Hl IH]; intros r Hr Hag.
  - by inversion Hr.
  - inversion Hr as [|h' b' r' Hb' Hr']; subst.
    assert (b = b') as <- by (apply (Hag h); left). f_equal. apply IH; [done|].
    by eapply (agree_suffix [_] _ [_]).
Qed.

(** From a shared hash on, the chains are the same. *)
Lemma shared_suffix (s1 : BR1) (s2 : BR2) o1 o2 l1 x l2 r1 y r2 :
  linked s1 o1 (l1 ++ x :: l2) -> linked s2 o2 (r1 ++ y :: r2) ->
  agree (l1 ++ x :: l2) (r1 ++ y :: r2) -> x.1 = y.1 -> x :: l2 = y :: r2.
Proof.
  destruct x as [h b], y as [h' b']; simpl. intros Hl Hr Hag <-.
  eapply (linked_agree s1 s2 (Some h)); [by eapply linked_app..|by eapply agree_suffix].
Qed.

(** Blocks at different levels have different hashes. *)
Lemma levels_apart (s1 : BR1) (s2 : BR2) o1 o2 l1 l2 r1 r2 :
  linked s1 o1 (l1 ++ l2) -> linked s2 o2 (r1 ++ r2) -> agree (l1 ++ l2) (r1 ++ r2) ->
  length (r1 ++ r2) <= length l2 -> apart l1 (r1 ++ r2).
Proof.
  intros Hl Hr Hag Hlen x y (la & lb & ->)%list_elem_of_split (ra & rb & Heq)%list_elem_of_split Hxy.
  rewrite Heq, <- app_assoc in *. simpl in *.
  pose proof (shared_suffix _ _ _ _ _ _ _ _ _ _ Hl Hr Hag Hxy) as Heq'.
  apply (f_equal length) in Heq'. simpl in Heq'. rewrite !length_app in *. simpl in *. lia.
Qed.
End SharedSuffix.

Lemma apart_sym xs ys : apart xs ys -> apart ys xs.
Proof. intros H x y Hx Hy Heq. by apply (H y x). Qed.

(** ** Walking in step *)

Section CommonLoop.
Context {C : BlockCodec} {BR1 BR2 : Type}
        `{!MetadataBlockRepository BR1} `{!MetadataBlockRepository BR2}.
Implicit Types (l r : list HashedMetadataBlock).

(** The last common level of two chains of the same length. *)
Definition common_spec (l r : list HashedMetadataBlock) (o : option u64) : Prop :=
  exists xs ys common, l = xs ++ common /\ r = ys ++ common /\ apart xs ys /\
    length xs = length ys /\
    match o with
    | Some n => n = (Z.of_nat (length common) - 1)%Z
    | None => common = []
    end.

Lemma common_loop_spec n (s1 : BR1) (s2 : BR2) o1 o2 l r :
  linked s1 o1 l -> linked s2 o2 r -> agree l r -> length l = S n -> length r = S n ->
  exists o, common_loop n (l, Ok tt) (r, Ok tt) = Ok o /\ common_spec l r o.
Proof.
  revert o1 o2 l r; induction n as [|n IH]; intros o1 o2 [|x l] [|y r] Hl Hr Hag Hn Hm; try done;
    simpl in Hn, Hm; cbn [common_loop]; unfold next_unwrap; simpl;
    (destruct (decide (x.1 = y.1)) as [Heq|Hne];
      [pose proof (shared_suffix s1 s2 _ _ [] x l [] y r Hl Hr Hag Heq) as Hs;
       eexists; split; [done|]; exists [], [], (x :: l); rewrite <- Hs; split_and!;
         [done|done|by intros ? ? ?%elem_of_nil|done|simpl; lia]|]).
  - destruct l, r; try done. exists None. split; [done|]. exists [x], [y], []. split_and!; try done.
    intros ? ? ->%list_elem_of_singleton ->%list_elem_of_singleton. done.
  - assert (exists o1', linked s1 o1' l) as [o1' Hl'] by (inversion Hl; eauto).
    assert (exists o2', linked s2 o2' r) as [o2' Hr'] by (inversion Hr; eauto).
    destruct (IH o1' o2' l r Hl' Hr') as (o & -> & xs & ys & common & -> & -> & Hap & Hlen & Ho);
      [by eapply (agree_suffix [_] _ [_])|lia|lia|].
    exists o. split; [done|]. exists (x :: xs), (y :: ys), common. split_and!; try done; [|simpl; lia].
    assert (Ha1 : apart [x] (ys ++ common)).
    { apply (levels_apart s1 s2 o1 o2' [x] (xs ++ common) [] (ys ++ common)); [done..| |].
      - by apply (agree_suffix [] (x :: xs ++ common) [y] (ys ++ common)).
      - simpl. rewrite !length_app; lia. }
    assert (Ha2 : apart [y] (xs ++ common)).
    { apply (levels_apart s2 s1 o2 o1' [y] (ys ++ common) [] (xs ++ common)); [done..| |].
      - apply agree_sym. by apply (agree_suffix [x] (xs ++ common) [] (y :: ys ++ common)).
      - simpl. rewrite !length_app; lia. }
    intros a b [->|Ha]%elem_of_cons [->|Hb]%elem_of_cons; [done|..].
    + apply Ha1; set_solver.
    + intros Hab. apply (Ha2 y a); [set_solver..|done].
    + by apply Hap.
Qed.
End CommonLoop.

(** ** The comparison *)

Lemma describe_divergence_spec xs ys common o nl nr :
  (nl < two64)%Z -> (nr < two64)%Z ->
  nl = Z.of_nat (length (xs ++ common)) -> nr = Z.of_nat (length (ys ++ common)) ->
  match o with
  | Some n => n = (Z.of_nat (length common) - 1)%Z
  | None => common = ([] : list HashedMetadataBlock)
  end ->
  describe_divergence (nl - 1) (nr - 1) o =
  CompareChainsResult_Divergence (Z.of_nat (length xs)) (Z.of_nat (length ys)).
Proof.
  rewrite !length_app. intros Hl Hr -> -> Ho. destruct o as [n|]; subst; unfold describe_divergence; f_equal;
    unfold u64_sub, u64_add; simpl; rewrite Z.mod_small; unfold two64 in *; lia.
Qed.

Lemma iter_whole {C : BlockCodec} {BR RR} `{!MetadataBlockRepository BR} f
    (c : MetadataChainImpl BR RR) h l :
  linked (meta_block_repo c) (Some h) l -> length l < f ->
  iter_blocks_interval f c h None false = Some (l, Ok tt).
Proof.
  intros Hl Hf. unfold iter_blocks_interval. by rewrite (interval_loop_all _ _ _ _ _ Hl Hf).
Qed.

Section CompareProofs.
Context {C : BlockCodec} {BR1 RR1 BR2 RR2 : Type}
        `{!MetadataBlockRepository BR1} `{!MetadataBlockRepository BR2}.
Implicit Types (c : MetadataChainImpl BR1 RR1) (d : MetadataChainImpl BR2 RR2).

Lemma find_common_ok fuel c h1 d h2 l r n :
  linked (meta_block_repo c) (Some h1) l -> linked (meta_block_repo d) (Some h2) r ->
  agree l r -> length l = S n -> length r = S n -> S n < fuel ->
  exists o, find_common_ancestor_sequence_number fuel c h1 (Z.of_nat n) d h2 (Z.of_nat n)
              = Some (Ok o) /\ common_spec l r o.
Proof.
  intros Hl Hr Hag Hn Hm Hf.
  destruct (common_loop_spec n _ _ _ _ _ _ Hl Hr Hag Hn Hm) as (o & Ho & Hspec).
  exists o. split; [|done]. unfold find_common_ancestor_sequence_number.
  rewrite (iter_whole _ _ _ _ Hl), (iter_whole _ _ _ _ Hr) by lia.
  rewrite Z.sub_diag, Z.min_id, Nat2Z.id. simpl. by rewrite Ho.
Qed.

Lemma last_linked (s : BR1) o xs x l2 :
  linked s o (xs ++ x :: l2) -> l2 <> [] ->
  exists p, mb_prev_block_hash x.2 = Some p /\ linked s (Some p) l2.
Proof.
  destruct x as [h b]. intros Hl%linked_app Hne. inversion Hl as [|? ? ? _ Hl2]; subst. simpl.
  destruct (mb_prev_block_hash b) as [p|]; [by exists p|by inversion Hl2].
Qed.

Lemma check_ancestor_ok fuel c h1 d h2 xs l2 r n :
  linked (meta_block_repo c) (Some h1) (xs ++ l2) -> linked (meta_block_repo d) (Some h2) r ->
  agree (xs ++ l2) r -> xs <> [] -> length l2 = S n -> length r = S n ->
  length (xs ++ l2) < fuel -> (Z.of_nat (length (xs ++ l2)) < two64)%Z ->
  exists check, check_expected_common_ancestor fuel c (Z.of_nat (length (xs ++ l2)) - 1) h1 d
                  (Z.of_nat n) h2 = Some (Ok check) /\
    match check with
    | CommonAncestorCheck_Success blocks => blocks = xs /\ l2 = r
    | CommonAncestorCheck_Failure o => common_spec l2 r o /\ l2 <> r
    end.
Proof.
  intros Hl Hr Hag Hxs Hn Hm Hf Hroom. unfold check_expected_common_ancestor.
  rewrite (iter_whole _ _ _ _ Hl Hf).
  assert (u64_sub (Z.of_nat (length (xs ++ l2)) - 1) (Z.of_nat n) = Z.of_nat (length xs)) as Hsz.
  { rewrite length_app, Hn in *. unfold u64_sub. rewrite Z.mod_small; lia. }
  rewrite Hsz, Nat2Z.id. unfold stream_take. cbn [fst snd].
  rewrite decide_True by (rewrite length_app; lia). rewrite take_app_length.
  unfold try_collect. cbn [fst snd].
  destruct (exists_last Hxs) as (xs' & x & ->). rewrite last_snoc.
  rewrite <- app_assoc in Hl. destruct (last_linked _ _ _ _ _ Hl) as (p & -> & Hl2).
  { by destruct l2. }
  assert (Hag2 : agree l2 r) by (by apply (agree_suffix (xs' ++ [x]) l2 [] r)).
  case_decide as Hp.
  - assert (u64_sub (Z.of_nat (length ((xs' ++ [x]) ++ l2)) - 1) (Z.of_nat (length (xs' ++ [x])))
            = Z.of_nat n) as ->.
    { rewrite (length_app _ l2), Hn in *. unfold u64_sub. rewrite Z.mod_small; lia. }
    destruct (find_common_ok fuel c p d h2 l2 r n Hl2 Hr Hag2 Hn Hm) as (o & -> & Ho).
    { rewrite length_app, Hn in Hf. lia. }
    eexists; split; [done|]. split; [done|]. intros ->.
    inversion Hl2; inversion Hr; congruence.
  - subst p. eexists; split; [done|]. split; [done|].
    exact (linked_agree _ _ _ _ _ Hl2 Hr Hag2).
Qed.
End CompareProofs.

(** Prepending the blocks above the common level to a divergence. *)
Lemma divergence_spec l r o (flip : bool) xs l2 :
  l = xs ++ l2 -> length l2 = length r -> common_spec l2 r o -> l2 <> r -> apart xs r ->
  (Z.of_nat (length l) < two64)%Z ->
  let d := if flip then describe_divergence (Z.of_nat (length r) - 1) (Z.of_nat (length l) - 1) o
           else describe_divergence (Z.of_nat (length l) - 1) (Z.of_nat (length r) - 1) o in
  if flip then compare_spec r l d else compare_spec l r d.
Proof.
  intros -> Hlen (as_ & bs & common & -> & -> & Hap & Hab & Ho) Hne Hxs Hroom.
  assert (Has : as_ <> [] /\ bs <> []).
  { destruct as_, bs; simpl in *; try done; congruence. }
  assert (Hap' : apart (xs ++ as_) bs).
  { intros x y [Hx|Hx]%elem_of_app Hy; [apply Hxs; set_solver|by apply Hap]. }
  rewrite app_assoc in *. rewrite !length_app in Hlen, Hroom.
  destruct flip; cbv zeta.
  - erewrite (describe_divergence_spec bs (xs ++ as_) common o); [|rewrite ?length_app; lia..|done].
    exists bs, (xs ++ as_), common. split_and!; try done; [apply Has| |by apply apart_sym].
    destruct xs, as_; naive_solver.
  - erewrite (describe_divergence_spec (xs ++ as_) bs common o); [|rewrite ?length_app; lia..|done].
    exists (xs ++ as_), bs, common. split_and!; try done; [|apply Has].
    destruct xs, as_; naive_solver.
Qed.

(** The check of the chain that is ahead, seen from either side. *)
Lemma ahead_check {C : BlockCodec} {BR1 RR1 BR2 RR2} `{!MetadataBlockRepository BR1}
    `{!MetadataBlockRepository BR2} fuel (c : MetadataChainImpl BR1 RR1) h1
    (d : MetadataChainImpl BR2 RR2) h2 l r :
  linked (meta_block_repo c) (Some h1) l -> linked (meta_block_repo d) (Some h2) r ->
  agree l r -> r <> [] -> length r < length l -> length l < fuel ->
  (Z.of_nat (length l) < two64)%Z ->
  exists check, check_expected_common_ancestor fuel c (Z.of_nat (length l) - 1) h1 d
                  (Z.of_nat (length r) - 1) h2 = Some (Ok check) /\
    match check with
    | CommonAncestorCheck_Success xs => xs <> [] /\ l = xs ++ r
    | CommonAncestorCheck_Failure o => forall flip : bool,
        if flip
        then compare_spec r l
               (describe_divergence (Z.of_nat (length r) - 1) (Z.of_nat (length l) - 1) o)
        else compare_spec l r
               (describe_divergence (Z.of_nat (length l) - 1) (Z.of_nat (length r) - 1) o)
    end.
Proof.
  intros Hl Hr Hag Hne Hlt Hf Hroom.
  destruct (length r) as [|n] eqn:Hlr; [by destruct r|].
  set (k := length l - S n). pose proof (take_drop k l) as Hsplit.
  assert (Hdrop : length (drop k l) = S n) by (rewrite length_drop; lia).
  assert (Htake : take k l <> []).
  { intros Hx. apply (f_equal length) in Hx. rewrite length_take in Hx. simpl in Hx. lia. }
  rewrite <- Hsplit in Hl, Hag, Hf, Hroom |- *. clear Hlt.
  set (xs := take k l) in *. set (l2 := drop k l) in *.
  destruct (check_ancestor_ok fuel c h1 d h2 xs l2 r n Hl Hr) as (check & Hck & Hspec); try done.
  replace (Z.of_nat (S n) - 1)%Z with (Z.of_nat n) by lia. rewrite Hck.
  eexists; split; [done|]. destruct check as [blocks|o]; [by destruct Hspec as [-> ->]|].
  destruct Hspec as [Ho Hne2]. intros flip.
  pose proof (divergence_spec (xs ++ l2) r o flip xs l2 eq_refl) as H. cbv zeta in H.
  rewrite Hlr in H. replace (Z.of_nat (S n) - 1)%Z with (Z.of_nat n) in H by lia.
  assert (Hap : apart xs r).
  { apply (levels_apart _ _ _ _ xs l2 [] r Hl Hr); [done|simpl; lia]. }
  destruct flip; by apply H.
Qed.

Section CompareTheorem.
Context {C : BlockCodec} {BR1 RR1 BR2 RR2 : Type}
        `{!MetadataBlockRepository BR1} `{!MetadataBlockRepository BR2}.
Implicit Types (c : MetadataChainImpl BR1 RR1) (d : MetadataChainImpl BR2 RR2).

Lemma head_position {BR} `{!MetadataBlockRepository BR} (s : BR) h l :
  linked s (Some h) l -> positions l ->
  exists b, get_block s h = Ok b /\ mb_sequence_number b = (Z.of_nat (length l) - 1)%Z /\ l <> [].
Proof.
  intros Hl Hp. inversion Hl as [|? b l' Hb]; subst. exists b. split_and!; try done.
  specialize (Hp [] (h, b) l' eq_refl). simpl in *. lia.
Qed.

Lemma compare_chains_ok fuel c h1 d o2 l r :
  linked (meta_block_repo c) (Some h1) l -> linked (meta_block_repo d) o2 r ->
  positions l -> positions r -> agree l r ->
  length l < fuel -> length r < fuel ->
  (Z.of_nat (length l) < two64)%Z -> (Z.of_nat (length r) < two64)%Z ->
  exists result, compare_chains fuel c h1 d o2 = Some (Ok result) /\ compare_spec l r result.
Proof.
  intros Hl Hr Hpl Hpr Hag Hfl Hfr Hroom1 Hroom2. unfold compare_chains.
  case_decide as Heq.
  { subst o2. eexists; split; [done|]. exact (linked_agree _ _ _ _ _ Hl Hr Hag). }
  destruct (head_position _ _ _ Hl Hpl) as (b1 & -> & -> & Hne1).
  destruct o2 as [h2|].
  2:{ rewrite (iter_whole _ _ _ _ Hl Hfl). eexists; split; [done|]. inversion Hr; subst. simpl.
      by rewrite app_nil_r. }
  destruct (head_position _ _ _ Hr Hpr) as (b2 & -> & -> & Hne2).
  destruct (Z.compare_spec (Z.of_nat (length l) - 1) (Z.of_nat (length r) - 1)) as [Hc|Hc|Hc].
  - destruct (length r) as [|n] eqn:Hlr; [by destruct r|].
    assert (Hn : length l = S n) by lia. rewrite Hn.
    replace (Z.of_nat (S n) - 1)%Z with (Z.of_nat n) by lia.
    destruct (find_common_ok fuel c h1 d h2 l r n Hl Hr Hag Hn Hlr ltac:(lia)) as (o & -> & Ho).
    eexists; split; [done|].
    pose proof (divergence_spec l r o false [] l eq_refl) as H. simpl in H.
    rewrite Hn, Hlr in H. replace (Z.of_nat (S n) - 1)%Z with (Z.of_nat n) in H by lia.
    apply H; [done|done| |by intros ? ? ?%elem_of_nil|lia].
    intros ->. inversion Hl; inversion Hr; congruence.
  - destruct (ahead_check fuel d h2 c h1 r l Hr Hl (agree_sym _ _ Hag)) as (check & -> & Hs);
      [done|lia|done..|].
    eexists; split; [done|]. destruct check; [exact Hs|apply (Hs true)].
  - destruct (ahead_check fuel c h1 d h2 l r Hl Hr Hag) as (check & -> & Hs); [done|lia|done..|].
    eexists; split; [done|]. destruct check; [exact Hs|apply (Hs false)].
Qed.
End CompareTheorem.
