(* ===== verification/ChainVisitors.v ===== *)
(** Visitors of a metadata chain and the single-pass traversal that serves
    several of them.

    Sources: src/domain/core/src/repos/{metadata_chain_visitor,
    metadata_chain_visitors}.rs and the [accept*], [reduce*] and
    [last_data_block*] methods of src/domain/core/src/entities/metadata_chain.rs.

    [accept_by_interval] walks the chain once, hands a block to a visitor only
    if the visitor asked for it, and leaves early when every visitor has
    stopped.  The reference semantics is [run_one]: each visitor alone, over
    the whole chain.  [accept_list_ok] and [accept_list_fail] relate the two. *)

From S2P Require Import Prelude Multiformats Dtos ChainRepos MetadataChain.

(** * The trait *)

Inductive MetadataVisitorDecision :=
| Decision_Stop
| Decision_Next
| Decision_NextWithHash (h : Multihash)
| Decision_NextOfType (f : MetadataEventTypeFlags).

Class MetadataChainVisitor (E V : Type) := {
  initial_decision : V -> MetadataVisitorDecision;
  visit : V -> HashedMetadataBlock -> res E (MetadataVisitorDecision * V);
  finish : V -> res E unit
}.

(** [dyn MetadataChainVisitor<Error = E>]: a visitor with its type hidden. *)
Record DynVisitor (E : Type) := mkDynVisitor {
  dyn_type : Type;
  dyn_impl : MetadataChainVisitor E dyn_type;
  dyn_self : dyn_type
}.
Arguments mkDynVisitor {E dyn_type dyn_impl} dyn_self.
Arguments dyn_type {E}.
Arguments dyn_impl {E}.
Arguments dyn_self {E}.

#[export] Instance dyn_visitor (E : Type) : MetadataChainVisitor E (DynVisitor E) := {|
  initial_decision v := @initial_decision _ _ (dyn_impl v) (dyn_self v);
  visit v hb :=
    map_ok (fun '(d, s) => (d, @mkDynVisitor _ _ (dyn_impl v) s))
           (@visit _ _ (dyn_impl v) (dyn_self v) hb);
  finish v := @finish _ _ (dyn_impl v) (dyn_self v)
|}.

(** [MetadataChainVisitorMapError]. *)
Record MetadataChainVisitorMapError (V E1 E2 : Type) := mkMetadataChainVisitorMapError {
  mme_visitor : V;
  mme_map_err_fn : E1 -> E2
}.
Arguments mkMetadataChainVisitorMapError {V E1 E2}.
Arguments mme_visitor {V E1 E2}.
Arguments mme_map_err_fn {V E1 E2}.

#[export] Instance map_err_visitor {V E1 E2} `{MetadataChainVisitor E1 V}
  : MetadataChainVisitor E2 (MetadataChainVisitorMapError V E1 E2) := {|
  initial_decision m := initial_decision (mme_visitor m);
  visit m hb :=
    map_err (mme_map_err_fn m)
      (map_ok (fun '(d, v) => (d, mkMetadataChainVisitorMapError v (mme_map_err_fn m)))
              (visit (mme_visitor m) hb));
  finish m := map_err (mme_map_err_fn m) (finish (mme_visitor m))
|}.

(** * Traversal *)

Section Accept.
Context {C : BlockCodec} {BR RR : Type}
        `{!MetadataBlockRepository BR} `{!ReferenceRepository RR}.
Context {E V : Type} `{!MetadataChainVisitor E V}.

Implicit Types (dv : MetadataVisitorDecision * V) (dvs : list (MetadataVisitorDecision * V)).

(** One turn of the inner [for] loop: whether the visitor counts as stopped,
    and its next decision and state. *)
Definition step_visitor (hb : HashedMetadataBlock) dv
    : res E (bool * (MetadataVisitorDecision * V)) :=
  let '(decision, visitor) := dv in
  match decision with
  | Decision_Stop => Ok (true, (Decision_Stop, visitor))
  | Decision_NextOfType type_flags =>
      if flags_is_empty type_flags then Ok (true, (Decision_Stop, visitor))
      else if flags_contains type_flags (event_flag (mb_event hb.2))
      then map_ok (pair false) (visit visitor hb)
      else Ok (false, dv)
  | Decision_Next => map_ok (pair false) (visit visitor hb)
  | Decision_NextWithHash requested_hash =>
      if decide (hb.1 = requested_hash) then map_ok (pair false) (visit visitor hb)
      else Ok (false, dv)
  end.

(** The inner loop: [stopped_visitors] and the updated visitors. *)
Fixpoint visit_all (hb : HashedMetadataBlock) dvs
    : res E (nat * list (MetadataVisitorDecision * V)) :=
  match dvs with
  | [] => Ok (0, [])
  | dv :: dvs' =>
      let! (stopped, dv1) := step_visitor hb dv in
      let! (n, dvs1) := visit_all hb dvs' in
      Ok ((if stopped then S n else n), dv1 :: dvs1)
  end.

(** The outer [while] loop. *)
Fixpoint accept_loop (fuel : nat) (r : BR) (current_hash tail_hash : option Multihash)
    dvs (all_visitors_finished : bool)
    : option (res (AcceptVisitorError E) (list (MetadataVisitorDecision * V))) :=
  match fuel with
  | 0 => None
  | S fuel' =>
      match current_hash with
      | None => Some (Ok dvs)
      | Some hash =>
          if all_visitors_finished then Some (Ok dvs)
          else if decide (tail_hash = Some hash) then Some (Ok dvs)
          else
            match get_block r hash with
            | Ok block =>
                match visit_all (hash, block) dvs with
                | Ok (stopped_visitors, dvs') =>
                    accept_loop fuel' r (mb_prev_block_hash block) tail_hash dvs'
                      (Nat.eqb (length dvs) stopped_visitors)
                | Err e => Some (Err (AcceptVisitorError_Visitor e))
                | Panic => Some Panic
                end
            | Err e =>
                Some (Err (AcceptVisitorError_Traversal (IterBlocksError_from_GetBlockError e)))
            | Panic => Some Panic
            end
      end
  end.

(** [for visitor in visitors { visitor.finish()?; }] *)
Fixpoint finish_all (vs : list V) : res E unit :=
  match vs with
  | [] => Ok tt
  | v :: vs' => let! _ := finish v in finish_all vs'
  end.

Definition accept_by_interval (fuel : nat) (r : BR) (visitors : list V)
    (head_hash tail_hash : option Multihash)
    : option (res (AcceptVisitorError E) (list V)) :=
  match accept_loop fuel r head_hash tail_hash
          (map (fun v => (initial_decision v, v)) visitors) false with
  | None => None
  | Some m =>
      Some (let! dvs := m in
            let! _ := map_err AcceptVisitorError_Visitor (finish_all (map snd dvs)) in
            Ok (map snd dvs))
  end.

Definition accept_by_hash (fuel : nat) (r : BR) (visitors : list V) (head_hash : Multihash)
    : option (res (AcceptVisitorError E) (list V)) :=
  accept_by_interval fuel r visitors (Some head_hash) None.

Definition accept_by_ref (fuel : nat) (c : MetadataChainImpl BR RR) (visitors : list V)
    (head : BlockRef) : option (res (AcceptVisitorError E) (list V)) :=
  match resolve_ref c head with
  | Ok head_hash => accept_by_hash fuel (meta_block_repo c) visitors head_hash
  | Err e => Some (Err (AcceptVisitorError_Traversal (IterBlocksError_from_GetRefError e)))
  | Panic => Some Panic
  end.

Definition accept (fuel : nat) (c : MetadataChainImpl BR RR) (visitors : list V)
    : option (res (AcceptVisitorError E) (list V)) :=
  accept_by_ref fuel c visitors BlockRef_Head.

(** [accept_one_by_hash]: the visitor comes back in its final state. *)
Definition accept_one_by_hash (fuel : nat) (r : BR) (head_hash : Multihash) (visitor : V)
    : option (res (AcceptVisitorError E) V) :=
  match accept_by_interval fuel r [visitor] (Some head_hash) None with
  | Some (Ok (v :: _)) => Some (Ok v)
  | Some (Ok []) => None
  | Some (Err e) => Some (Err e)
  | Some Panic => Some Panic
  | None => None
  end.

Definition accept_one (fuel : nat) (c : MetadataChainImpl BR RR) (visitor : V)
    : option (res (AcceptVisitorError E) V) :=
  match accept fuel c [visitor] with
  | Some (Ok (v :: _)) => Some (Ok v)
  | Some (Ok []) => None
  | Some (Err e) => Some (Err e)
  | Some Panic => Some Panic
  | None => None
  end.

(** * Reference semantics *)

(** One visitor alone, over a list of blocks. *)
Fixpoint run_one (l : list HashedMetadataBlock) dv : res E (MetadataVisitorDecision * V) :=
  match l with
  | [] => Ok dv
  | hb :: l' => let! (_, dv1) := step_visitor hb dv in run_one l' dv1
  end.

(** A visitor alone, from its initial decision to [finish]. *)
Definition run_visitor (l : list HashedMetadataBlock) (v : V) : res E V :=
  let! (_, v') := run_one l (initial_decision v, v) in
  let! _ := finish v' in
  Ok v'.

(** The traversal loop over a list of blocks instead of a store. *)
Fixpoint accept_list (l : list HashedMetadataBlock) dvs (all_visitors_finished : bool)
    : res E (list (MetadataVisitorDecision * V)) :=
  match l with
  | [] => Ok dvs
  | hb :: l' =>
      if all_visitors_finished then Ok dvs
      else
        let! (stopped, dvs') := visit_all hb dvs in
        accept_list l' dvs' (Nat.eqb (length dvs) stopped)
  end.

(** ** The store-level loop computes the list-level one *)

Lemma accept_loop_linked fuel r o l dvs fin :
  linked r o l -> length l < fuel ->
  accept_loop fuel r o None dvs fin =
  Some (map_err AcceptVisitorError_Visitor (accept_list l dvs fin)).
Proof.
  intros Hl; revert fuel dvs fin.
  induction Hl as [|h b l Hb Hl IH]; intros [|fuel] dvs fin Hf; try (simpl in *; lia); [done|].
  simpl. destruct fin; [done|]. rewrite Hb.
  destruct (visit_all (h, b) dvs) as [[n dvs']|e|]; simpl; [|done..].
  apply IH. simpl in Hf; lia.
Qed.

(** ** Single pass versus one pass per visitor *)

Lemma step_stopped hb dv dv' :
  step_visitor hb dv = Ok (true, dv') -> dv'.1 = Decision_Stop.
Proof.
  destruct dv as [[| |h|f] v]; simpl; intros H.
  - by simplify_eq.
  - by destruct (visit v hb) as [?| |].
  - destruct (decide _); [by destruct (visit v hb) as [?| |]|by simplify_eq].
  - destruct (flags_is_empty f); [by simplify_eq|].
    destruct (flags_contains _ _); [by destruct (visit v hb) as [?| |]|by simplify_eq].
Qed.

Lemma run_one_stop l v : run_one l (Decision_Stop, v) = Ok (Decision_Stop, v).
Proof. induction l; simpl; auto. Qed.

Lemma visit_all_ok hb dvs n dvs' :
  visit_all hb dvs = Ok (n, dvs') ->
  n <= length dvs /\ length dvs' = length dvs /\
  (length dvs = n -> Forall (fun dv => dv.1 = Decision_Stop) dvs').
Proof.
  revert n dvs'; induction dvs as [|dv dvs IH]; intros n dvs'; simpl.
  - intros [= <- <-]. repeat split; simpl; auto.
  - intros ((s & dv1) & Hs & ((m & dvs1) & Hv & Heq)%res_bind_ok)%res_bind_ok.
    simplify_eq. destruct (IH _ _ Hv) as (Hle & Hlen & Hall).
    destruct s; simpl; repeat split; try lia.
    + intros [= Heq]. constructor; [by eapply step_stopped|auto].
Qed.

Lemma visit_all_steps hb dvs n dvs' :
  visit_all hb dvs = Ok (n, dvs') ->
  Forall2 (fun dv dv' => exists s, step_visitor hb dv = Ok (s, dv')) dvs dvs'.
Proof.
  revert n dvs'; induction dvs as [|dv dvs IH]; intros n dvs'; simpl.
  - intros [= <- <-]. constructor.
  - intros ((s & dv1) & Hs & ((m & dvs1) & Hv & Heq)%res_bind_ok)%res_bind_ok.
    simplify_eq. constructor; eauto.
Qed.

Lemma visit_all_complete hb dvs dvs' :
  Forall2 (fun dv dv' => exists s, step_visitor hb dv = Ok (s, dv')) dvs dvs' ->
  exists n, visit_all hb dvs = Ok (n, dvs').
Proof.
  induction 1 as [|dv dv' dvs dvs' [s Hs] _ [n IH]]; simpl; [eauto|].
  rewrite Hs; simpl. rewrite IH; simpl. eauto.
Qed.

(** When every visitor has stopped the rest of the chain changes nothing. *)
Lemma run_all_stopped l dvs :
  Forall (fun dv => dv.1 = Decision_Stop) dvs ->
  Forall2 (fun dv dv' => run_one l dv = Ok dv') dvs dvs.
Proof.
  induction 1 as [|[d v] dvs Hd _ IH]; constructor; [|done].
  simpl in Hd; subst d. apply run_one_stop.
Qed.

Lemma Forall2_run_unique l dvs dvs1 dvs2 :
  Forall2 (fun dv dv' => run_one l dv = Ok dv') dvs dvs1 ->
  Forall2 (fun dv dv' => run_one l dv = Ok dv') dvs dvs2 -> dvs1 = dvs2.
Proof.
  intros H; revert dvs2; induction H as [|dv dv1 dvs dvs1 Hr _ IH]; intros dvs2 H2.
  - by inversion H2.
  - inversion H2 as [|? dv2 ? dvs2' Hr2 Hrest]; subst. rewrite Hr in Hr2.
    injection Hr2 as ->. f_equal; auto.
Qed.

Lemma accept_list_ok l dvs fin dvs' :
  (fin = true -> Forall (fun dv => dv.1 = Decision_Stop) dvs) ->
  accept_list l dvs fin = Ok dvs' <->
  Forall2 (fun dv dv' => run_one l dv = Ok dv') dvs dvs'.
Proof.
  revert dvs fin dvs'; induction l as [|hb l IH]; intros dvs fin dvs' Hfin.
  - simpl. split.
    + intros [= <-]. apply Forall_Forall2_diag, Forall_true. done.
    + intros H. f_equal. symmetry. apply list_eq_Forall2.
      eapply Forall2_impl; [by apply Forall2_flip|]. intros x y Hxy; simpl in *. congruence.
  - destruct fin.
    { specialize (Hfin eq_refl). pose proof (run_all_stopped (hb :: l) _ Hfin) as Hrun.
      change (accept_list (hb :: l) dvs true) with (Ok (E:=E) dvs). split.
      - by intros [= <-].
      - intros H. f_equal. by eapply Forall2_run_unique. }
    simpl. split.
    + intros ((n & dvs1) & Hv & Ha)%res_bind_ok.
      destruct (visit_all_ok _ _ _ _ Hv) as (_ & _ & Hall).
      apply IH in Ha; [|by intros ?%Nat.eqb_eq; auto].
      pose proof (visit_all_steps _ _ _ _ Hv) as Hs.
      clear -Hs Ha. revert dvs' Ha. induction Hs as [|dv dv1 dvs dvs1 [s Hs] _ IHs];
        intros dvs' Ha; inversion Ha as [|? dv' ? dvs'' Hr Hrest]; subst; constructor; auto.
      by rewrite Hs.
    + intros H.
      assert (exists dvs1,
        Forall2 (fun dv dv' => exists s, step_visitor hb dv = Ok (s, dv')) dvs dvs1 /\
        Forall2 (fun dv dv' => run_one l dv = Ok dv') dvs1 dvs') as (dvs1 & Hs & Hr).
      { clear -H. induction H as [|dv dv' dvs dvs' Hr _ (dvs1 & Hs & Hr1)]; [by exists []|].
        apply res_bind_ok in Hr as ((s & dv1) & Hs1 & Hr).
        exists (dv1 :: dvs1). split; constructor; eauto. }
      destruct (visit_all_complete _ _ _ Hs) as [n Hv].
      rewrite Hv; simpl. apply IH; [|done].
      intros ?%Nat.eqb_eq. by eapply visit_all_ok.
Qed.

(** A failing traversal fails with a failure of one of the visitors. *)
Definition failed_as (x : res E unit) (m : res E (MetadataVisitorDecision * V)) : Prop :=
  match x, m with
  | Err e, Err e' => e = e'
  | Panic, Panic => True
  | _, _ => False
  end.

Lemma visit_all_fail hb dvs x :
  map_ok (fun _ => tt) (visit_all hb dvs) = x -> x <> Ok tt ->
  exists dv, dv ∈ dvs /\ failed_as x (map_ok snd (step_visitor hb dv)).
Proof.
  revert x; induction dvs as [|dv dvs IH]; intros x Hx Hne; simpl in *; [by subst|].
  destruct (step_visitor hb dv) as [[s dv1]|e|] eqn:Hs; simpl in *.
  - destruct (IH (map_ok (fun _ => tt) (visit_all hb dvs)) eq_refl) as (dv' & Hin & Hf).
    { intros Heq. apply Hne. destruct (visit_all hb dvs) as [[]| |]; by subst. }
    exists dv'. split; [by right|].
    destruct (visit_all hb dvs) as [[]| |]; by subst.
  - exists dv. subst. rewrite Hs. split; [left|done].
  - exists dv. subst. rewrite Hs. split; [left|done].
Qed.

Lemma accept_list_fail l dvs fin x :
  map_ok (fun _ => tt) (accept_list l dvs fin) = x -> x <> Ok tt ->
  exists dv, dv ∈ dvs /\ failed_as x (run_one l dv).
Proof.
  revert dvs fin; induction l as [|hb l IH]; intros dvs fin Hx Hne; simpl in *; [by subst|].
  destruct fin; [by subst|].
  destruct (visit_all hb dvs) as [[n dvs1]|e|] eqn:Hv; simpl in *.
  - destruct (IH _ _ Hx Hne) as (dv1 & Hin & Hf).
    pose proof (visit_all_steps _ _ _ _ Hv) as Hs.
    apply list_elem_of_lookup in Hin as [i Hi].
    destruct (Forall2_lookup_r _ _ _ _ _ Hs Hi) as (dv & Hdv & s & Hs').
    exists dv. split; [by eapply list_elem_of_lookup_2|]. by rewrite Hs'.
  - destruct (visit_all_fail hb dvs x) as (dv & Hin & Hf); [by rewrite Hv|done|].
    exists dv. split; [done|]. by destruct (step_visitor hb dv) as [[]| |], x.
  - destruct (visit_all_fail hb dvs x) as (dv & Hin & Hf); [by rewrite Hv|done|].
    exists dv. split; [done|]. by destruct (step_visitor hb dv) as [[]| |], x.
Qed.

Lemma finish_all_ok (vs : list V) :
  finish_all vs = Ok tt <-> Forall (fun v => finish v = Ok tt) vs.
Proof.
  induction vs as [|v vs IH]; simpl; [split; auto|].
  rewrite Forall_cons, <- IH, res_bind_ok. split.
  - intros ([] & Hf & Hr). auto.
  - intros [Hf Hr]. eauto.
Qed.

Lemma finish_all_fail (vs : list V) x :
  finish_all vs = x -> x <> Ok tt -> exists v, v ∈ vs /\ finish v = x.
Proof.
  induction vs as [|v vs IH]; simpl; intros Hx Hne; [by subst|].
  destruct (finish v) as [[]|e|] eqn:Hf; simpl in Hx.
  - destruct (IH Hx Hne) as (v' & Hin & Hv'). exists v'. split; [by right|done].
  - exists v. subst. split; [left|done].
  - exists v. subst. split; [left|done].
Qed.

Lemma run_visitor_ok l v v' :
  run_visitor l v = Ok v' <->
  exists d, run_one l (initial_decision v, v) = Ok (d, v') /\ finish v' = Ok tt.
Proof.
  unfold run_visitor. rewrite res_bind_ok. split.
  - intros ((d & w) & Hr & Hf). apply res_bind_ok in Hf as ([] & Hf & [= ->]). eauto.
  - intros (d & Hr & Hf). exists (d, v'). split; [done|]. by rewrite Hf.
Qed.

(** The traversal of a stored chain, in terms of the single visitors. *)
Lemma accept_by_interval_ok fuel r o l (vs vs' : list V) :
  linked r o l -> length l < fuel ->
  accept_by_interval fuel r vs o None = Some (Ok vs') <->
  Forall2 (fun v v' => run_visitor l v = Ok v') vs vs'.
Proof.
  intros Hl Hf. unfold accept_by_interval. rewrite (accept_loop_linked _ _ _ _ _ _ Hl Hf).
  split.
  - intros [= H]. apply res_bind_ok in H as (dvs & Ha & H).
    apply map_err_ok in Ha. apply accept_list_ok in Ha; [|done].
    apply res_bind_ok in H as ([] & Hfin & [= <-]).
    apply map_err_ok, finish_all_ok in Hfin.
    revert dvs Ha Hfin. induction vs as [|v vs IH]; intros dvs Ha Hfin;
      inversion Ha as [|? [d w] ? ? Hr Hrest]; subst; simpl; constructor.
    + apply run_visitor_ok. simpl in Hfin. inversion Hfin; subst. eauto.
    + apply IH; [done|]. by inversion Hfin.
  - intros H.
    assert (exists dvs, Forall2 (fun dv dv' => run_one l dv = Ok dv')
              (map (fun v => (initial_decision v, v)) vs) dvs /\ map snd dvs = vs' /\
              Forall (fun v => finish v = Ok tt) vs') as (dvs & Hr & Hs & Hfin).
    { induction H as [|v v' vs vs' Hrun _ (dvs & Hr & Hs & Hfin)]; [by exists []|].
      apply run_visitor_ok in Hrun as (d & Hd & Hfd).
      exists ((d, v') :: dvs). repeat split; [constructor; auto|simpl; congruence|].
      by constructor. }
    apply accept_list_ok with (fin := false) in Hr; [|done].
    rewrite Hr; simpl. rewrite Hs. apply finish_all_ok in Hfin. by rewrite Hfin.
Qed.

(** With enough fuel the traversal of a stored chain always returns, and a
    failure is the failure of a visitor run alone. *)
Lemma accept_by_interval_total fuel r o l (vs : list V) :
  linked r o l -> length l < fuel ->
  exists x, accept_by_interval fuel r vs o None = Some x /\
    (forall e, x = Err e ->
       exists e' v, e = AcceptVisitorError_Visitor e' /\ v ∈ vs /\ run_visitor l v = Err e') /\
    (x = Panic -> exists v, v ∈ vs /\ run_visitor l v = Panic).
Proof.
  intros Hl Hf. unfold accept_by_interval. rewrite (accept_loop_linked _ _ _ _ _ _ Hl Hf).
  set (dvs0 := map (fun v => (initial_decision v, v)) vs).
  assert (Hback : forall dv, dv ∈ dvs0 -> dv.2 ∈ vs /\ dv = (initial_decision dv.2, dv.2)).
  { intros dv (v & -> & Hv)%list_elem_of_fmap. done. }
  destruct (accept_list l dvs0 false) as [dvs|e|] eqn:Ha; simpl.
  - pose proof Ha as Hr. apply accept_list_ok in Hr; [|done].
    assert (Hfin : forall x, finish_all (map snd dvs) = x -> x <> Ok tt ->
              exists v, v ∈ vs /\ run_visitor l v = map_ok (fun _ => v) x).
    { intros x Hx Hne. destruct (finish_all_fail _ _ Hx Hne) as (w & Hin & Hw).
      apply list_elem_of_fmap in Hin as ([d w'] & -> & Hin). simpl in *.
      apply list_elem_of_lookup in Hin as [i Hi].
      destruct (Forall2_lookup_r _ _ _ _ _ Hr Hi) as (dv & Hdv & Hrun).
      apply list_elem_of_lookup_2, Hback in Hdv as [Hv Hdv].
      exists (dv.2). split; [done|]. unfold run_visitor. rewrite <- Hdv, Hrun; simpl.
      rewrite Hw. by destruct x as [[]| |]. }
    destruct (finish_all (map snd dvs)) as [[]|e|]; simpl; eexists; split; try done.
    + destruct (Hfin _ eq_refl) as (v & Hv & Hrun); [done|]. split; [|done].
      intros e' [= <-]. eauto.
    + split; [done|]. intros _. destruct (Hfin _ eq_refl) as (v & Hv & Hrun); [done|]. eauto.
  - eexists; split; [done|]. split; [|done]. intros e' [= <-].
    destruct (accept_list_fail l dvs0 false (Err e)) as (dv & Hin & Hfa); [by rewrite Ha|done|].
    apply Hback in Hin as [Hv Hdv]. exists e, (dv.2). split; [done|]. split; [done|].
    unfold run_visitor. rewrite <- Hdv. destruct (run_one l dv) as [[]| |]; simpl in *; by subst.
  - eexists; split; [done|]. split; [done|]. intros _.
    destruct (accept_list_fail l dvs0 false Panic) as (dv & Hin & Hfa); [by rewrite Ha|done|].
    apply Hback in Hin as [Hv Hdv]. exists (dv.2). split; [done|].
    unfold run_visitor. rewrite <- Hdv. destruct (run_one l dv) as [[]| |]; simpl in *; by subst.
Qed.
End Accept.

(** * Skipping to the requested blocks *)

(** The first block whose event type is among [f], and what is behind it. *)
Fixpoint first_of (f : MetadataEventTypeFlags) (l : list HashedMetadataBlock)
    : option (HashedMetadataBlock * list HashedMetadataBlock) :=
  match l with
  | [] => None
  | hb :: l' =>
      if flags_contains f (event_flag (mb_event hb.2)) then Some (hb, l') else first_of f l'
  end.

Section RunLemmas.
Context {E V : Type} `{!MetadataChainVisitor E V}.

(** A request for block types jumps to the first block of those types. *)
Lemma run_one_next_of_type f (v : V) l :
  flags_is_empty f = false ->
  run_one l (Decision_NextOfType f, v) =
  match first_of f l with
  | None => Ok (Decision_NextOfType f, v)
  | Some (hb, rest) => let! dv := visit v hb in run_one rest dv
  end.
Proof.
  intros Hf. induction l as [|hb l IH]; simpl; [done|]. rewrite Hf.
  destruct (flags_contains f (event_flag (mb_event hb.2))); simpl; [|done].
  by destruct (visit v hb) as [[]| |].
Qed.

Lemma run_one_next (v : V) l :
  run_one l (Decision_Next, v) =
  match l with
  | [] => Ok (Decision_Next, v)
  | hb :: rest => let! dv := visit v hb in run_one rest dv
  end.
Proof. destruct l as [|hb l]; simpl; [done|]. by destruct (visit v hb) as [[]| |]. Qed.

Lemma run_one_empty_flags (v : V) l :
  exists d, run_one l (Decision_NextOfType 0, v) = Ok (d, v).
Proof. destruct l as [|hb l]; simpl; [eauto|]. rewrite run_one_stop. eauto. Qed.
End RunLemmas.

Lemma first_of_Some f l hb rest :
  first_of f l = Some (hb, rest) ->
  exists l1, l = l1 ++ hb :: rest /\ flags_contains f (event_flag (mb_event hb.2)) = true /\
    Forall (fun x => flags_contains f (event_flag (mb_event x.2)) = false) l1.
Proof.
  induction l as [|x l IH]; simpl; [done|].
  destruct (flags_contains f (event_flag (mb_event x.2))) eqn:Hx; intros H.
  - simplify_eq. exists []. repeat split; auto.
  - destruct (IH H) as (l1 & -> & Hhb & Hl1). exists (x :: l1). repeat split; auto.
Qed.

Lemma first_of_None f l :
  first_of f l = None ->
  Forall (fun x => flags_contains f (event_flag (mb_event x.2)) = false) l.
Proof.
  induction l as [|x l IH]; simpl; [constructor|].
  destruct (flags_contains f (event_flag (mb_event x.2))) eqn:Hx; [done|]. auto.
Qed.

(** Searching by type agrees with searching by a projection the type has. *)
Lemma first_of_find {T} f (g : MetadataEvent -> option T) l :
  (forall e, flags_contains f (event_flag e) = bool_decide (is_Some (g e))) ->
  find_map (fun hb : HashedMetadataBlock => g (mb_event hb.2)) l =
  match first_of f l with Some (hb, _) => g (mb_event hb.2) | None => None end.
Proof.
  intros Hg. induction l as [|hb l IH]; simpl; [done|]. rewrite Hg.
  destruct (g (mb_event hb.2)) eqn:E; simpl; [by rewrite E|done].
Qed.

(** * Search visitors *)

(** The type of errors that are never built. *)
Inductive Infallible := .

(** A payload type together with its flag. *)
Class FlaggedVariant (T : Type) `{VariantOf T} := {
  variant_flag : MetadataEventTypeFlags;
  variant_flag_spec : forall e,
    flags_contains variant_flag (event_flag e) = bool_decide (is_Some (into_variant (T := T) e));
  variant_flag_nonempty : flags_is_empty variant_flag = false
}.

Ltac solve_flagged := first [by intros [] | done].

#[export] Instance flagged_SetVocab : FlaggedVariant SetVocab.
Proof. refine {| variant_flag := Flag.SET_VOCAB |}; solve_flagged. Defined.
#[export] Instance flagged_Seed : FlaggedVariant Seed.
Proof. refine {| variant_flag := Flag.SEED |}; solve_flagged. Defined.
#[export] Instance flagged_SetPollingSource : FlaggedVariant SetPollingSource.
Proof. refine {| variant_flag := Flag.SET_POLLING_SOURCE |}; solve_flagged. Defined.
#[export] Instance flagged_SetTransform : FlaggedVariant SetTransform.
Proof. refine {| variant_flag := Flag.SET_TRANSFORM |}; solve_flagged. Defined.
#[export] Instance flagged_SetDataSchema : FlaggedVariant SetDataSchema.
Proof. refine {| variant_flag := Flag.SET_DATA_SCHEMA |}; solve_flagged. Defined.
#[export] Instance flagged_ExecuteTransform : FlaggedVariant ExecuteTransform.
Proof. refine {| variant_flag := Flag.EXECUTE_TRANSFORM |}; solve_flagged. Defined.
#[export] Instance flagged_SetInfo : FlaggedVariant SetInfo.
Proof. refine {| variant_flag := Flag.SET_INFO |}; solve_flagged. Defined.
#[export] Instance flagged_SetAttachments : FlaggedVariant SetAttachments.
Proof. refine {| variant_flag := Flag.SET_ATTACHMENTS |}; solve_flagged. Defined.
#[export] Instance flagged_SetLicense : FlaggedVariant SetLicense.
Proof. refine {| variant_flag := Flag.SET_LICENSE |}; solve_flagged. Defined.
#[export] Instance flagged_AddData : FlaggedVariant AddData.
Proof. refine {| variant_flag := Flag.ADD_DATA |}; solve_flagged. Defined.

Record SearchSingleTypedBlockVisitor (T : Type) := mkSearchSingleTypedBlockVisitor {
  sst_requested_flag : MetadataEventTypeFlags;
  sst_hashed_block : option (Multihash * MetadataBlockTyped T)
}.
Arguments mkSearchSingleTypedBlockVisitor {T}.
Arguments sst_requested_flag {T}.
Arguments sst_hashed_block {T}.

(** [SearchSetVocabVisitor::new()] and its siblings: the macro passes the
    payload type's own flag. *)
Definition SearchSingleTypedBlockVisitor_new (T : Type) `{FlaggedVariant T}
    : SearchSingleTypedBlockVisitor T :=
  mkSearchSingleTypedBlockVisitor (variant_flag (T := T)) None.

Definition into_event {T} (v : SearchSingleTypedBlockVisitor T) : option T :=
  option_map (fun hb => mbt_event hb.2) (sst_hashed_block v).

Definition search_typed_visit {T} `{VariantOf T} (v : SearchSingleTypedBlockVisitor T)
    (hb : HashedMetadataBlock)
    : res Infallible (MetadataVisitorDecision * SearchSingleTypedBlockVisitor T) :=
  let flag := event_flag (mb_event hb.2) in
  if negb (flags_contains (sst_requested_flag v) flag) then Panic
  else
    let! block := unwrap (into_typed hb.2) in
    Ok (Decision_Stop,
        mkSearchSingleTypedBlockVisitor (sst_requested_flag v) (Some (hb.1, block))).

#[export] Instance search_typed_visitor {T} `{VariantOf T}
  : MetadataChainVisitor Infallible (SearchSingleTypedBlockVisitor T) := {|
  initial_decision v := Decision_NextOfType (sst_requested_flag v);
  visit := search_typed_visit;
  finish _ := Ok tt
|}.

Inductive SearchSingleDataBlockVisitorKind :=
| NextDataBlock
| NextFilledNewData.

Record SearchSingleDataBlockVisitor := mkSearchSingleDataBlockVisitor {
  ssd_kind : SearchSingleDataBlockVisitorKind;
  ssd_hashed_block : option (Multihash * MetadataBlockDataStream)
}.

Definition SearchSingleDataBlockVisitor_next : SearchSingleDataBlockVisitor :=
  mkSearchSingleDataBlockVisitor NextDataBlock None.
Definition SearchSingleDataBlockVisitor_next_with_new_data : SearchSingleDataBlockVisitor :=
  mkSearchSingleDataBlockVisitor NextFilledNewData None.

Definition search_data_visit (v : SearchSingleDataBlockVisitor) (hb : HashedMetadataBlock)
    : res Infallible (MetadataVisitorDecision * SearchSingleDataBlockVisitor) :=
  match as_data_stream_block hb.2 with
  | None => Ok (Decision_NextOfType Flag.DATA_BLOCK, v)
  | Some data_block =>
      let has_data_block_found :=
        match ssd_kind v with
        | NextDataBlock => true
        | NextFilledNewData => bool_decide (is_Some (mds_new_data (mbd_event data_block)))
        end in
      if has_data_block_found then
        Ok (Decision_Stop, mkSearchSingleDataBlockVisitor (ssd_kind v) (Some (hb.1, data_block)))
      else Ok (Decision_NextOfType Flag.DATA_BLOCK, v)
  end.

#[export] Instance search_data_visitor
  : MetadataChainVisitor Infallible SearchSingleDataBlockVisitor := {|
  initial_decision _ := Decision_NextOfType Flag.DATA_BLOCK;
  visit := search_data_visit;
  finish _ := Ok tt
|}.

Record SearchSourceStateVisitor := mkSearchSourceStateVisitor {
  sss_source_name : option string;
  sss_source_state : option SourceState
}.

Definition SearchSourceStateVisitor_new (source_name : option string) : SearchSourceStateVisitor :=
  mkSearchSourceStateVisitor source_name None.

Definition search_source_state_visit (v : SearchSourceStateVisitor) (hb : HashedMetadataBlock)
    : res Infallible (MetadataVisitorDecision * SearchSourceStateVisitor) :=
  match mb_event hb.2 with
  | MetadataEvent_AddData e =>
      match ad_new_source_state e, sss_source_name v with
      | Some ss, Some sn =>
          if decide (sn <> ss_source_name ss) then Panic
          else Ok (Decision_Stop,
                   mkSearchSourceStateVisitor (sss_source_name v) (ad_new_source_state e))
      | _, _ =>
          Ok (Decision_Stop,
              mkSearchSourceStateVisitor (sss_source_name v) (ad_new_source_state e))
      end
  | _ => Panic
  end.

#[export] Instance search_source_state_visitor
  : MetadataChainVisitor Infallible SearchSourceStateVisitor := {|
  initial_decision _ := Decision_NextOfType Flag.ADD_DATA;
  visit := search_source_state_visit;
  finish _ := Ok tt
|}.

(** ** Callback visitors *)

Record GenericFallibleCallbackVisitor (S E : Type) := mkGenericFallibleCallbackVisitor {
  gfc_state : S;
  gfc_initial_decision : MetadataVisitorDecision;
  gfc_visit_callback : S -> HashedMetadataBlock -> res E (MetadataVisitorDecision * S)
}.
Arguments mkGenericFallibleCallbackVisitor {S E}.
Arguments gfc_state {S E}.
Arguments gfc_initial_decision {S E}.
Arguments gfc_visit_callback {S E}.

#[export] Instance generic_fallible_callback_visitor {S E}
  : MetadataChainVisitor E (GenericFallibleCallbackVisitor S E) := {|
  initial_decision := gfc_initial_decision;
  visit v hb :=
    map_ok (fun '(d, s) =>
              (d, mkGenericFallibleCallbackVisitor s (gfc_initial_decision v)
                    (gfc_visit_callback v)))
           (gfc_visit_callback v (gfc_state v) hb);
  finish _ := Ok tt
|}.

(** [From<AcceptVisitorError<Infallible>> for IterBlocksError], under [?]. *)
Definition IterBlocksError_from_AcceptVisitorError (v : AcceptVisitorError Infallible)
    : IterBlocksError :=
  match v with
  | AcceptVisitorError_Traversal err => err
  | AcceptVisitorError_Visitor e => match e with end
  end.

Section Reduce.
Context {C : BlockCodec} {BR : Type} `{!MetadataBlockRepository BR} {S E : Type}.

Definition try_reduce_by_hash (fuel : nat) (r : BR) (head_hash : Multihash) (state : S)
    (initial_decision : MetadataVisitorDecision)
    (callback : S -> HashedMetadataBlock -> res E (MetadataVisitorDecision * S))
    : option (res (AcceptVisitorError E) S) :=
  match accept_one_by_hash fuel r head_hash
          (mkGenericFallibleCallbackVisitor state initial_decision callback) with
  | Some m => Some (map_ok gfc_state m)
  | None => None
  end.

(** [GenericCallbackVisitor] is the fallible one with an infallible callback. *)
Definition reduce_by_hash (fuel : nat) (r : BR) (head_hash : Multihash) (state : S)
    (initial_decision : MetadataVisitorDecision)
    (callback : S -> HashedMetadataBlock -> MetadataVisitorDecision * S)
    : option (res IterBlocksError S) :=
  match accept_one_by_hash (E := Infallible) fuel r head_hash
          (mkGenericFallibleCallbackVisitor state initial_decision
             (fun s hb => Ok (callback s hb))) with
  | Some m => Some (map_err IterBlocksError_from_AcceptVisitorError (map_ok gfc_state m))
  | None => None
  end.
End Reduce.

Section ReduceHead.
Context {C : BlockCodec} {BR RR : Type}
        `{!MetadataBlockRepository BR} `{!ReferenceRepository RR} {S E : Type}.
Implicit Types c : MetadataChainImpl BR RR.

Definition reduce (fuel : nat) c (state : S) (initial_decision : MetadataVisitorDecision)
    (callback : S -> HashedMetadataBlock -> MetadataVisitorDecision * S)
    : option (res IterBlocksError S) :=
  match resolve_ref c BlockRef_Head with
  | Ok head_hash =>
      reduce_by_hash fuel (meta_block_repo c) head_hash state initial_decision callback
  | Err e => Some (Err (IterBlocksError_from_GetRefError e))
  | Panic => Some Panic
  end.

Definition try_reduce (fuel : nat) c (state : S) (initial_decision : MetadataVisitorDecision)
    (callback : S -> HashedMetadataBlock -> res E (MetadataVisitorDecision * S))
    : option (res (AcceptVisitorError E) S) :=
  match resolve_ref c BlockRef_Head with
  | Ok head_hash =>
      try_reduce_by_hash fuel (meta_block_repo c) head_hash state initial_decision callback
  | Err e => Some (Err (AcceptVisitorError_Traversal (IterBlocksError_from_GetRefError e)))
  | Panic => Some Panic
  end.

Definition last_data_block (fuel : nat) c : option (res IterBlocksError SearchSingleDataBlockVisitor) :=
  option_map (map_err IterBlocksError_from_AcceptVisitorError)
    (accept_one fuel c SearchSingleDataBlockVisitor_next).

Definition last_data_block_with_new_data (fuel : nat) c
    : option (res IterBlocksError SearchSingleDataBlockVisitor) :=
  option_map (map_err IterBlocksError_from_AcceptVisitorError)
    (accept_one fuel c SearchSingleDataBlockVisitor_next_with_new_data).
End ReduceHead.

(** * What the searches find *)

Section SearchSpecs.
Context {C : BlockCodec} {BR : Type} `{!MetadataBlockRepository BR}.

Lemma accept_one_by_hash_run {E V} `{!MetadataChainVisitor E V} fuel (r : BR) h l (v v' : V) :
  linked r (Some h) l -> length l < fuel -> run_visitor l v = Ok v' ->
  accept_one_by_hash fuel r h v = Some (Ok v').
Proof.
  intros Hl Hf Hr. unfold accept_one_by_hash.
  destruct (accept_by_interval_ok fuel r (Some h) l [v] [v'] Hl Hf) as [_ H].
  rewrite H; [done|]. by repeat constructor.
Qed.

Lemma run_search_typed {T} `{FlaggedVariant T} l :
  run_visitor l (SearchSingleTypedBlockVisitor_new T) =
  Ok (mkSearchSingleTypedBlockVisitor (variant_flag (T := T))
        (find_map (fun hb : HashedMetadataBlock =>
                     option_map (pair hb.1) (into_typed hb.2)) l)).
Proof.
  unfold run_visitor; simpl. rewrite run_one_next_of_type by apply variant_flag_nonempty.
  set (g := fun hb : HashedMetadataBlock => option_map (pair hb.1) (into_typed (T := T) hb.2)).
  assert (Hg : find_map g l =
               match first_of (variant_flag (T := T)) l with Some (hb, _) => g hb | None => None end).
  { induction l as [|hb l IH]; simpl; [done|]. rewrite variant_flag_spec.
    unfold g at 1, into_typed. destruct (into_variant (mb_event hb.2)) eqn:Ev; simpl; [|done].
    unfold g, into_typed. by rewrite Ev. }
  rewrite Hg. destruct (first_of _ l) as [[hb rest]|] eqn:Hfo; simpl; [|done].
  destruct (first_of_Some _ _ _ _ Hfo) as (_ & _ & Hc & _).
  unfold search_typed_visit; simpl. rewrite Hc; simpl.
  rewrite variant_flag_spec in Hc. apply bool_decide_eq_true in Hc as [e He].
  unfold g, into_typed. rewrite He; simpl. by rewrite run_one_stop.
Qed.

Lemma accept_one_run {RR E V} `{!ReferenceRepository RR} `{!MetadataChainVisitor E V} fuel
    (c : MetadataChainImpl BR RR) h l (v v' : V) :
  resolve_ref c BlockRef_Head = Ok h -> linked (meta_block_repo c) (Some h) l ->
  length l < fuel -> run_visitor l v = Ok v' -> accept_one fuel c v = Some (Ok v').
Proof.
  intros Hh Hl Hf Hr. pose proof (accept_one_by_hash_run _ _ _ _ _ _ Hl Hf Hr) as H.
  unfold accept_one, accept, accept_by_ref. by rewrite Hh.
Qed.

Definition data_block_matches (k : SearchSingleDataBlockVisitorKind) (hb : HashedMetadataBlock)
    : option (Multihash * MetadataBlockDataStream) :=
  match as_data_stream_block hb.2 with
  | Some d =>
      match k with
      | NextDataBlock => Some (hb.1, d)
      | NextFilledNewData =>
          if decide (is_Some (mds_new_data (mbd_event d))) then Some (hb.1, d) else None
      end
  | None => None
  end.

Lemma as_data_stream_block_None b :
  as_data_stream_block b = None <-> flags_contains Flag.DATA_BLOCK (event_flag (mb_event b)) = false.
Proof.
  rewrite data_block_flag. unfold as_data_stream_block.
  by destruct (as_data_stream_event (mb_event b)); simpl.
Qed.

Lemma run_search_data k l :
  run_visitor l (mkSearchSingleDataBlockVisitor k None) =
  Ok (mkSearchSingleDataBlockVisitor k (find_map (data_block_matches k) l)).
Proof.
  unfold run_visitor; simpl.
  induction l as [|hb l IH]; simpl; [done|].
  destruct (flags_contains Flag.DATA_BLOCK (event_flag (mb_event hb.2))) eqn:Hc; simpl.
  - unfold data_block_matches, search_data_visit.
    destruct (as_data_stream_block hb.2) as [d|] eqn:Hd;
      [|apply as_data_stream_block_None in Hd; congruence].
    destruct k; simpl; [by rewrite run_one_stop|].
    case_decide; [rewrite bool_decide_eq_true_2 by done|rewrite bool_decide_eq_false_2 by done];
      simpl; [by rewrite run_one_stop|done].
  - apply as_data_stream_block_None in Hc. unfold data_block_matches at 1. rewrite Hc. done.
Qed.
End SearchSpecs.

(** * Hiding the type of a visitor changes nothing *)

Section Dyn.
Context {E V : Type} {I : MetadataChainVisitor E V}.

Lemma step_visitor_dyn hb d (v : V) :
  step_visitor hb (d, mkDynVisitor v) =
  map_ok (fun '(s, (d', v')) => (s, (d', mkDynVisitor v'))) (step_visitor hb (d, v)).
Proof.
  destruct d; simpl; [done|..]; repeat case_match; simpl; try done;
    by destruct (visit v hb) as [[]| |].
Qed.

Lemma run_one_dyn l d (v : V) :
  run_one l (d, mkDynVisitor v) =
  map_ok (fun '(d', v') => (d', mkDynVisitor v')) (run_one l (d, v)).
Proof.
  revert d v; induction l as [|hb l IH]; intros d v; [done|].
  cbn [run_one]. rewrite step_visitor_dyn.
  destruct (step_visitor hb (d, v)) as [[s [d' v']]| |]; [apply IH|done..].
Qed.

Lemma run_visitor_dyn l (v : V) :
  run_visitor l (mkDynVisitor v) = map_ok mkDynVisitor (run_visitor l v).
Proof.
  unfold run_visitor; simpl. rewrite run_one_dyn.
  destruct (run_one l (initial_decision v, v)) as [[d v']| |]; simpl; [|done..].
  by destruct (finish v') as [[]| |].
Qed.
End Dyn.

(** * Visitors that look at one block *)

Section Once.
Context {E V : Type} {I : MetadataChainVisitor E V}.

Lemma run_visitor_stop l (v : V) :
  initial_decision v = Decision_Stop -> finish v = Ok tt -> run_visitor l v = Ok v.
Proof. intros Hd Hf. unfold run_visitor. rewrite Hd, run_one_stop; simpl. by rewrite Hf. Qed.

(** A visitor that asks for one block of the types [f], checks it and stops. *)
Lemma run_visitor_once {T} f (g : MetadataEvent -> option T) (k : T -> res E unit) (v : V) l :
  initial_decision v = Decision_NextOfType f ->
  flags_is_empty f = false ->
  (forall e, flags_contains f (event_flag e) = bool_decide (is_Some (g e))) ->
  (forall hb t, g (mb_event hb.2) = Some t ->
     visit v hb = (let! _ := k t in Ok (Decision_Stop, v))) ->
  finish v = Ok tt ->
  run_visitor l v =
  match find_map (fun hb : HashedMetadataBlock => g (mb_event hb.2)) l with
  | None => Ok v
  | Some t => let! _ := k t in Ok v
  end.
Proof.
  intros Hd Hne Hg Hv Hf. unfold run_visitor. rewrite Hd, run_one_next_of_type by done.
  rewrite (first_of_find f g) by done.
  destruct (first_of f l) as [[hb rest]|] eqn:Hfo; simpl; [|by rewrite Hf].
  destruct (first_of_Some _ _ _ _ Hfo) as (_ & _ & Hc & _).
  rewrite Hg in Hc. apply bool_decide_eq_true in Hc as [t Ht].
  rewrite Ht, (Hv _ _ Ht). destruct (k t); simpl; [|done..].
  rewrite run_one_stop; simpl. by rewrite Hf.
Qed.
End Once.
