(* ===== verification/ChainValidators.v ===== *)
(** The validators run on every appended block.

    Source: src/infra/core/src/repos/metadata_chain_validators.rs.  Each visitor
    is a record with its [new] and [visit] (and [finish]) as in the source; the
    second half of the file computes what running it over a chain gives. *)

From S2P Require Import Prelude Multiformats Identity Dtos ChainRepos MetadataChain ChainVisitors.

Abbreviation VErr := AppendValidationError.

(** [invalid_event!]. *)
Definition invalid_event {A} (e : MetadataEvent) (msg : string) : res VErr A :=
  Err (AppendValidationError_InvalidEvent (mkInvalidEventError e msg)).

Definition is_some {A} (o : option A) : bool := match o with Some _ => true | None => false end.
Definition is_none {A} (o : option A) : bool := negb (is_some o).

(** * Helpers *)

(** The loop over all queries but the last. *)
Fixpoint validate_aliases (e : MetadataEvent) (queries : list SqlQueryStep) : res VErr unit :=
  match queries with
  | [] => Ok tt
  | q :: qs =>
      if is_none (sqs_alias q)
      then invalid_event e "In a transform all queries except the last one must have aliases"
      else validate_aliases e qs
  end.

Definition validate_transform (e : MetadataEvent) (transform : Transform) : res VErr unit :=
  match transform with
  | Transform_Sql transform =>
      if is_some (ts_query transform) then invalid_event e "Transform queries must be normalized"
      else
        match ts_queries transform with
        | None | Some [] => invalid_event e "Transform must have at least one query"
        | Some queries =>
            let! last_query := unwrap (last queries) in
            if is_some (sqs_alias last_query)
            then invalid_event e
              "Last query in a transform must have no alias an will be treated as an output"
            else validate_aliases e (take (length queries - 1) queries)
        end
  end.

(** * ValidateSeedBlockOrderVisitor *)

Record ValidateSeedBlockOrderVisitor := mkValidateSeedBlockOrderVisitor {}.

Definition ValidateSeedBlockOrderVisitor_new (block : MetadataBlock)
    : res VErr ValidateSeedBlockOrderVisitor :=
  match mb_event block with
  | MetadataEvent_Seed _ =>
      if is_some (mb_prev_block_hash block)
      then Err AppendValidationError_AppendingSeedBlockToNonEmptyChain
      else Ok mkValidateSeedBlockOrderVisitor
  | _ =>
      if is_none (mb_prev_block_hash block)
      then Err AppendValidationError_FirstBlockMustBeSeed
      else Ok mkValidateSeedBlockOrderVisitor
  end.

#[export] Instance seed_block_order_visitor
  : MetadataChainVisitor VErr ValidateSeedBlockOrderVisitor := {|
  initial_decision _ := Decision_Stop;
  visit _ _ := Panic;
  finish _ := Ok tt
|}.

(** * ValidateSequenceNumbersIntegrityVisitor *)

Record ValidateSequenceNumbersIntegrityVisitor := mkValidateSequenceNumbersIntegrityVisitor {
  appended_sequence_number : u64
}.

Definition ValidateSequenceNumbersIntegrityVisitor_new (block : MetadataBlock)
    : res VErr ValidateSequenceNumbersIntegrityVisitor :=
  if is_none (mb_prev_block_hash block) && bool_decide (mb_sequence_number block <> 0%Z)
  then Err (AppendValidationError_SequenceIntegrity
              (mkSequenceIntegrityError None None (mb_sequence_number block)))
  else Ok (mkValidateSequenceNumbersIntegrityVisitor (mb_sequence_number block)).

Definition sequence_numbers_visit (v : ValidateSequenceNumbersIntegrityVisitor)
    (hb : HashedMetadataBlock)
    : res VErr (MetadataVisitorDecision * ValidateSequenceNumbersIntegrityVisitor) :=
  if decide (mb_sequence_number hb.2 <> u64_sub (appended_sequence_number v) 1)
  then Err (AppendValidationError_SequenceIntegrity
              (mkSequenceIntegrityError (Some hb.1) (Some (mb_sequence_number hb.2))
                 (appended_sequence_number v)))
  else Ok (Decision_Stop, v).

#[export] Instance sequence_numbers_visitor
  : MetadataChainVisitor VErr ValidateSequenceNumbersIntegrityVisitor := {|
  initial_decision _ := Decision_Next;
  visit := sequence_numbers_visit;
  finish _ := Ok tt
|}.

(** * ValidateSystemTimeIsMonotonicVisitor *)

Record ValidateSystemTimeIsMonotonicVisitor := mkValidateSystemTimeIsMonotonicVisitor {
  appended_system_time : DateTime
}.

Definition ValidateSystemTimeIsMonotonicVisitor_new (block : MetadataBlock)
    : ValidateSystemTimeIsMonotonicVisitor :=
  mkValidateSystemTimeIsMonotonicVisitor (mb_system_time block).

Definition system_time_visit (v : ValidateSystemTimeIsMonotonicVisitor) (hb : HashedMetadataBlock)
    : res VErr (MetadataVisitorDecision * ValidateSystemTimeIsMonotonicVisitor) :=
  if decide (appended_system_time v < mb_system_time hb.2)%Z
  then Err AppendValidationError_SystemTimeIsNotMonotonic
  else Ok (Decision_Stop, v).

#[export] Instance system_time_visitor
  : MetadataChainVisitor VErr ValidateSystemTimeIsMonotonicVisitor := {|
  initial_decision _ := Decision_Next;
  visit := system_time_visit;
  finish _ := Ok tt
|}.

(** * ValidateWatermarkIsMonotonicVisitor *)

Record ValidateWatermarkIsMonotonicVisitor := mkValidateWatermarkIsMonotonicVisitor {
  is_data_block_appended : bool;
  appended_new_watermark : option DateTime
}.

Definition ValidateWatermarkIsMonotonicVisitor_new (block : MetadataBlock)
    : ValidateWatermarkIsMonotonicVisitor :=
  match as_data_stream_event (mb_event block) with
  | Some data_stream_event =>
      mkValidateWatermarkIsMonotonicVisitor true (mds_new_watermark data_stream_event)
  | None => mkValidateWatermarkIsMonotonicVisitor false None
  end.

Definition watermark_visit (v : ValidateWatermarkIsMonotonicVisitor) (hb : HashedMetadataBlock)
    : res VErr (MetadataVisitorDecision * ValidateWatermarkIsMonotonicVisitor) :=
  match as_data_stream_event (mb_event hb.2) with
  | None => Panic
  | Some data_stream_event =>
      match mds_new_watermark data_stream_event, appended_new_watermark v with
      | Some _, None => Err AppendValidationError_WatermarkIsNotMonotonic
      | Some prev_wm, Some next_wm =>
          if decide (prev_wm > next_wm)%Z
          then Err AppendValidationError_WatermarkIsNotMonotonic
          else Ok (Decision_Stop, v)
      | _, _ => Ok (Decision_Stop, v)
      end
  end.

#[export] Instance watermark_visitor
  : MetadataChainVisitor VErr ValidateWatermarkIsMonotonicVisitor := {|
  initial_decision v :=
    if is_data_block_appended v then Decision_NextOfType Flag.DATA_BLOCK else Decision_Stop;
  visit := watermark_visit;
  finish _ := Ok tt
|}.

(** * ValidateOffsetsAreSequentialVisitor *)

Record ValidateOffsetsAreSequentialVisitor := mkValidateOffsetsAreSequentialVisitor {
  appended_block_event : MetadataEvent;
  appended_data_block : option MetadataBlockDataStream
}.

Definition validate_internal_offset_consistency (event : MetadataEvent)
    (data_block : MetadataBlockDataStream) : res VErr unit :=
  match mds_new_data (mbd_event data_block) with
  | Some new_data =>
      let expected_start_offset :=
        match mds_prev_offset (mbd_event data_block) with
        | None => 0%Z
        | Some v => u64_add v 1
        end in
      let start := oi_start (ds_offset_interval new_data) in
      if decide (start <> expected_start_offset)
      then Err (AppendValidationError_OffsetsAreNotSequential
                  (mkOffsetsNotSequentialError expected_start_offset start))
      else if decide (oi_end (ds_offset_interval new_data) < start)%Z
      then invalid_event event "Invalid offset interval"
      else Ok tt
  | None => Ok tt
  end.

Definition ValidateOffsetsAreSequentialVisitor_new (block : MetadataBlock)
    : res VErr ValidateOffsetsAreSequentialVisitor :=
  let maybe_data_block := as_data_stream_block block in
  let! _ :=
    match maybe_data_block with
    | Some data_block => validate_internal_offset_consistency (mb_event block) data_block
    | None => Ok tt
    end in
  Ok (mkValidateOffsetsAreSequentialVisitor (mb_event block) maybe_data_block).

Definition offsets_visit (v : ValidateOffsetsAreSequentialVisitor) (hb : HashedMetadataBlock)
    : res VErr (MetadataVisitorDecision * ValidateOffsetsAreSequentialVisitor) :=
  match as_data_stream_block hb.2, appended_data_block v with
  | Some data_block, Some appended =>
      let expected_next_prev_offset := MetadataEventDataStream_last_offset (mbd_event data_block) in
      if decide (mds_prev_offset (mbd_event appended) <> expected_next_prev_offset)
      then invalid_event (appended_block_event v)
             "Carried prev offset does not correspond to the last offset in the chain"
      else
        let! _ := validate_internal_offset_consistency (appended_block_event v) appended in
        Ok (Decision_Stop, v)
  | _, _ => Panic
  end.

#[export] Instance offsets_visitor
  : MetadataChainVisitor VErr ValidateOffsetsAreSequentialVisitor := {|
  initial_decision v :=
    if is_some (appended_data_block v)
    then Decision_NextOfType Flag.DATA_BLOCK else Decision_Stop;
  visit := offsets_visit;
  finish _ := Ok tt
|}.

(** * ValidateUnimplementedEventsVisitor *)

Record ValidateUnimplementedEventsVisitor := mkValidateUnimplementedEventsVisitor {}.

(** Disabling sources is [unimplemented!]. *)
Definition ValidateUnimplementedEventsVisitor_new (block : MetadataBlock)
    : res VErr ValidateUnimplementedEventsVisitor :=
  match mb_event block with
  | MetadataEvent_DisablePollingSource _ => Panic
  | MetadataEvent_DisablePushSource _ => Panic
  | _ => Ok mkValidateUnimplementedEventsVisitor
  end.

#[export] Instance unimplemented_events_visitor
  : MetadataChainVisitor VErr ValidateUnimplementedEventsVisitor := {|
  initial_decision _ := Decision_Stop;
  visit _ _ := Panic;
  finish _ := Ok tt
|}.

(** * ValidateAddPushSourceVisitor *)

Record ValidateAddPushSourceVisitor := mkValidateAddPushSourceVisitor {
  is_push_source_appended : bool
}.

Definition ValidateAddPushSourceVisitor_new (block : MetadataBlock)
    : res VErr ValidateAddPushSourceVisitor :=
  match mb_event block with
  | MetadataEvent_AddPushSource e =>
      let! _ :=
        match aps_preprocess e with
        | Some transform => validate_transform (mb_event block) transform
        | None => Ok tt
        end in
      Ok (mkValidateAddPushSourceVisitor true)
  | _ => Ok (mkValidateAddPushSourceVisitor false)
  end.

Definition add_push_source_visit (v : ValidateAddPushSourceVisitor) (hb : HashedMetadataBlock)
    : res VErr (MetadataVisitorDecision * ValidateAddPushSourceVisitor) :=
  match mb_event hb.2 with
  | MetadataEvent_SetPollingSource e =>
      invalid_event (MetadataEvent_SetPollingSource e)
        "Cannot add a push source while polling source is still active"
  | _ => Panic
  end.

#[export] Instance add_push_source_visitor
  : MetadataChainVisitor VErr ValidateAddPushSourceVisitor := {|
  initial_decision v :=
    if is_push_source_appended v
    then Decision_NextOfType Flag.SET_POLLING_SOURCE else Decision_Stop;
  visit := add_push_source_visit;
  finish _ := Ok tt
|}.

(** * ValidateSetPollingSourceVisitor *)

Record ValidateSetPollingSourceVisitor := mkValidateSetPollingSourceVisitor {
  is_set_polling_source_appended : bool
}.

Definition ValidateSetPollingSourceVisitor_new (block : MetadataBlock)
    : res VErr ValidateSetPollingSourceVisitor :=
  match mb_event block with
  | MetadataEvent_SetPollingSource e =>
      let! _ :=
        match sps_preprocess e with
        | Some transform => validate_transform (mb_event block) transform
        | None => Ok tt
        end in
      let! _ :=
        match sps_fetch e with
        | FetchStep_EthereumLogs f =>
            if is_none (fse_chain_id f) && is_none (fse_node_url f)
            then invalid_event (MetadataEvent_SetPollingSource e)
                   "Eth source must specify chainId or nodeUrl"
            else Ok tt
        | _ => Ok tt
        end in
      Ok (mkValidateSetPollingSourceVisitor true)
  | _ => Ok (mkValidateSetPollingSourceVisitor false)
  end.

Definition set_polling_source_visit (v : ValidateSetPollingSourceVisitor)
    (hb : HashedMetadataBlock)
    : res VErr (MetadataVisitorDecision * ValidateSetPollingSourceVisitor) :=
  match mb_event hb.2 with
  | MetadataEvent_AddPushSource e =>
      invalid_event (MetadataEvent_AddPushSource e)
        "Cannot add a polling source while some push sources are still active"
  | _ => Panic
  end.

#[export] Instance set_polling_source_visitor
  : MetadataChainVisitor VErr ValidateSetPollingSourceVisitor := {|
  initial_decision v :=
    if is_set_polling_source_appended v
    then Decision_NextOfType Flag.ADD_PUSH_SOURCE else Decision_Stop;
  visit := set_polling_source_visit;
  finish _ := Ok tt
|}.

(** * ValidateSetTransformVisitor *)

Record ValidateSetTransformVisitor := mkValidateSetTransformVisitor {}.

Fixpoint validate_inputs_resolved (e : SetTransform) (inputs : list TransformInput)
    : res VErr unit :=
  match inputs with
  | [] => Ok tt
  | i :: rest =>
      if is_none (DatasetRef_id (ti_dataset_ref i)) || is_none (ti_alias i)
      then invalid_event (MetadataEvent_SetTransform e)
             "Transform inputs must be resolved to dataset IDs and specify aliases"
      else validate_inputs_resolved e rest
  end.

Definition ValidateSetTransformVisitor_new (block : MetadataBlock)
    : res VErr ValidateSetTransformVisitor :=
  match mb_event block with
  | MetadataEvent_SetTransform e =>
      match st_inputs e with
      | [] => invalid_event (MetadataEvent_SetTransform e) "Transform must have at least one input"
      | inputs =>
          let! _ := validate_inputs_resolved e inputs in
          let! _ := validate_transform (mb_event block) (st_transform e) in
          Ok mkValidateSetTransformVisitor
      end
  | _ => Ok mkValidateSetTransformVisitor
  end.

#[export] Instance set_transform_visitor
  : MetadataChainVisitor VErr ValidateSetTransformVisitor := {|
  initial_decision _ := Decision_Stop;
  visit _ _ := Panic;
  finish _ := Ok tt
|}.

(** * ValidateEventIsNotEmptyVisitor *)

Record ValidateEventIsNotEmptyVisitor := mkValidateEventIsNotEmptyVisitor {}.

Definition ValidateEventIsNotEmptyVisitor_new (block : MetadataBlock)
    : res VErr ValidateEventIsNotEmptyVisitor :=
  match mb_event block with
  | MetadataEvent_AddData e =>
      if AddData_is_empty e then Err (empty_event (MetadataEvent_AddData e))
      else Ok mkValidateEventIsNotEmptyVisitor
  | MetadataEvent_ExecuteTransform e =>
      if ExecuteTransform_is_empty e then Err (empty_event (MetadataEvent_ExecuteTransform e))
      else Ok mkValidateEventIsNotEmptyVisitor
  | _ => Ok mkValidateEventIsNotEmptyVisitor
  end.

#[export] Instance event_is_not_empty_visitor
  : MetadataChainVisitor VErr ValidateEventIsNotEmptyVisitor := {|
  initial_decision _ := Decision_Stop;
  visit _ _ := Panic;
  finish _ := Ok tt
|}.

(** * ValidateAddDataVisitor *)

Record ValidateAddDataVisitor := mkValidateAddDataVisitor {
  vad_appended_add_data : option AddData;
  vad_prev_schema : option SetDataSchema;
  vad_prev_add_data : option AddData;
  vad_next_block_flags : MetadataEventTypeFlags
}.

Definition ValidateAddDataVisitor_new (block : MetadataBlock) : ValidateAddDataVisitor :=
  mkValidateAddDataVisitor
    (match mb_event block with MetadataEvent_AddData e => Some e | _ => None end)
    None None (N.lor Flag.SET_DATA_SCHEMA Flag.ADD_DATA).

Definition add_data_visit (v : ValidateAddDataVisitor) (hb : HashedMetadataBlock)
    : res VErr (MetadataVisitorDecision * ValidateAddDataVisitor) :=
  match mb_event hb.2 with
  | MetadataEvent_AddData e =>
      let flags := flags_difference (vad_next_block_flags v) Flag.ADD_DATA in
      Ok (Decision_NextOfType flags,
          mkValidateAddDataVisitor (vad_appended_add_data v) (vad_prev_schema v) (Some e) flags)
  | MetadataEvent_SetDataSchema e =>
      let flags := flags_difference (vad_next_block_flags v) Flag.SET_DATA_SCHEMA in
      Ok (Decision_NextOfType flags,
          mkValidateAddDataVisitor (vad_appended_add_data v) (Some e) (vad_prev_add_data v) flags)
  | _ => Panic
  end.

Definition add_data_finish (v : ValidateAddDataVisitor) : res VErr unit :=
  match vad_appended_add_data v with
  | None => Ok tt
  | Some e =>
      if is_none (vad_prev_schema v) && is_some (ad_new_data e)
      then invalid_event (MetadataEvent_AddData e)
             "SetDataSchema event must be present before adding data"
      else
        let expected_prev_checkpoint :=
          option_map cp_physical_hash (vad_prev_add_data v ≫= ad_new_checkpoint) in
        let prev_watermark := vad_prev_add_data v ≫= ad_new_watermark in
        let prev_source_state := vad_prev_add_data v ≫= ad_new_source_state in
        if decide (ad_prev_checkpoint e <> expected_prev_checkpoint)
        then invalid_event (MetadataEvent_AddData e)
               "Input checkpoint does not correspond to the last checkpoint in the chain"
        else if is_none (ad_new_data e) &&
                bool_decide (option_map cp_physical_hash (ad_new_checkpoint e)
                             = ad_prev_checkpoint e) &&
                bool_decide (ad_new_watermark e = prev_watermark) &&
                bool_decide (ad_new_source_state e = prev_source_state)
        then Err (no_op_event (MetadataEvent_AddData e)
               "Event neither has data nor it advances checkpoint, watermark, or source state")
        else Ok tt
  end.

#[export] Instance add_data_visitor : MetadataChainVisitor VErr ValidateAddDataVisitor := {|
  initial_decision v :=
    if is_some (vad_appended_add_data v)
    then Decision_NextOfType (vad_next_block_flags v) else Decision_Stop;
  visit := add_data_visit;
  finish := add_data_finish
|}.

(** * ValidateExecuteTransformVisitor *)

Record ValidateExecuteTransformVisitor := mkValidateExecuteTransformVisitor {
  vet_appended_execute_transform : option ExecuteTransform;
  vet_prev_transform : option SetTransform;
  vet_prev_schema : option SetDataSchema;
  vet_prev_query : option ExecuteTransform;
  vet_next_block_flags : MetadataEventTypeFlags
}.

Definition ValidateExecuteTransformVisitor_new (block : MetadataBlock)
    : ValidateExecuteTransformVisitor :=
  mkValidateExecuteTransformVisitor
    (match mb_event block with MetadataEvent_ExecuteTransform e => Some e | _ => None end)
    None None None
    (N.lor (N.lor Flag.SET_DATA_SCHEMA Flag.SET_TRANSFORM) Flag.EXECUTE_TRANSFORM).

Definition execute_transform_visit (v : ValidateExecuteTransformVisitor) (hb : HashedMetadataBlock)
    : res VErr (MetadataVisitorDecision * ValidateExecuteTransformVisitor) :=
  let! v1 :=
    match mb_event hb.2 with
    | MetadataEvent_SetDataSchema e =>
        Ok (mkValidateExecuteTransformVisitor (vet_appended_execute_transform v)
              (vet_prev_transform v) (Some e) (vet_prev_query v)
              (flags_difference (vet_next_block_flags v) Flag.SET_DATA_SCHEMA))
    | MetadataEvent_SetTransform e =>
        Ok (mkValidateExecuteTransformVisitor (vet_appended_execute_transform v)
              (Some e) (vet_prev_schema v) (vet_prev_query v)
              (flags_difference (vet_next_block_flags v) Flag.SET_TRANSFORM))
    | MetadataEvent_ExecuteTransform e =>
        Ok (mkValidateExecuteTransformVisitor (vet_appended_execute_transform v)
              (vet_prev_transform v) (vet_prev_schema v) (Some e)
              (flags_difference (vet_next_block_flags v) Flag.EXECUTE_TRANSFORM))
    | _ => Panic
    end in
  let flags :=
    if is_some (vet_prev_schema v1) && is_some (vet_prev_query v1)
    then flags_difference (vet_next_block_flags v1) Flag.SET_TRANSFORM
    else vet_next_block_flags v1 in
  Ok (Decision_NextOfType flags,
      mkValidateExecuteTransformVisitor (vet_appended_execute_transform v1)
        (vet_prev_transform v1) (vet_prev_schema v1) (vet_prev_query v1) flags).

(** [actual_inputs.ne(inputs.map(|i| i.dataset_ref.id().unwrap()))]: the
    comparison is lazy, and unwraps a declared input when it reaches it. *)
Fixpoint inputs_ne_declared (actual : list DatasetID) (declared : list TransformInput)
    : res VErr bool :=
  match actual, declared with
  | [], [] => Ok false
  | [], i :: _ => let! _ := unwrap (DatasetRef_id (ti_dataset_ref i)) in Ok true
  | _ :: _, [] => Ok true
  | x :: xs, i :: rest =>
      let! y := unwrap (DatasetRef_id (ti_dataset_ref i)) in
      if decide (x = y) then inputs_ne_declared xs rest else Ok true
  end.

(** The checks of one pair of the zipped inputs. *)
Definition validate_input_sequencing (e : ExecuteTransform) (prev new : ExecuteTransformInput)
    : res VErr unit :=
  if is_some (eti_new_block_hash new) &&
     bool_decide (eti_new_block_hash new = eti_prev_block_hash new)
  then invalid_event (MetadataEvent_ExecuteTransform e) "Invalid input block interval"
  else if is_some (eti_new_offset new) && bool_decide (eti_new_offset new = eti_prev_offset new)
  then invalid_event (MetadataEvent_ExecuteTransform e) "Invalid input offset interval"
  else if decide (eti_prev_block_hash new <> ExecuteTransformInput_last_block_hash prev)
  then invalid_event (MetadataEvent_ExecuteTransform e)
    "Input prevBlockHash does not correspond to the last block included in the previous query"
  else if decide (eti_prev_offset new <> ExecuteTransformInput_last_offset prev)
  then invalid_event (MetadataEvent_ExecuteTransform e)
    "Input prevOffset hash does not correspond to the last offset included in the previous query"
  else if is_some (eti_new_offset new) && is_none (eti_new_block_hash new)
  then invalid_event (MetadataEvent_ExecuteTransform e)
    "Input specifies a non-empty offset interval, but its block interval is empty"
  else Ok tt.

Fixpoint validate_inputs_sequencing (e : ExecuteTransform)
    (zipped : list (ExecuteTransformInput * ExecuteTransformInput)) : res VErr unit :=
  match zipped with
  | [] => Ok tt
  | (prev, new) :: rest =>
      let! _ := validate_input_sequencing e prev new in
      validate_inputs_sequencing e rest
  end.

Definition inputs_order_message : string :=
  "Inputs must be listed in same order as initially declared in SetTransform event".

Definition validate_inputs_order (e : ExecuteTransform) (prev_transform : option SetTransform)
    (prev_query : option ExecuteTransform) : res VErr unit :=
  let actual_inputs := map eti_dataset_id (et_query_inputs e) in
  match prev_transform with
  | Some prev_transform =>
      let! ne := inputs_ne_declared actual_inputs (st_inputs prev_transform) in
      if ne then invalid_event (MetadataEvent_ExecuteTransform e) inputs_order_message else Ok tt
  | None =>
      match prev_query with
      | Some prev_query =>
          if decide (actual_inputs <> map eti_dataset_id (et_query_inputs prev_query))
          then invalid_event (MetadataEvent_ExecuteTransform e) inputs_order_message
          else Ok tt
      | None =>
          invalid_event (MetadataEvent_ExecuteTransform e)
            "ExecuteTransform must be preceded by SetTransform event"
      end
  end.

Definition execute_transform_finish (v : ValidateExecuteTransformVisitor) : res VErr unit :=
  match vet_appended_execute_transform v with
  | None => Ok tt
  | Some e =>
      if is_none (vet_prev_schema v) && is_some (et_new_data e)
      then invalid_event (MetadataEvent_ExecuteTransform e)
             "SetDataSchema event must be present before adding data"
      else
        let! _ := validate_inputs_order e (vet_prev_transform v) (vet_prev_query v) in
        let! _ :=
          match vet_prev_query v with
          | Some prev_query =>
              validate_inputs_sequencing e (zip (et_query_inputs prev_query) (et_query_inputs e))
          | None => Ok tt
          end in
        let expected_prev_checkpoint :=
          option_map cp_physical_hash (vet_prev_query v ≫= et_new_checkpoint) in
        let prev_watermark := vet_prev_query v ≫= et_new_watermark in
        if decide (et_prev_checkpoint e <> expected_prev_checkpoint)
        then invalid_event (MetadataEvent_ExecuteTransform e)
               "Input checkpoint does not correspond to the last checkpoint in the chain"
        else if is_none (et_new_data e) &&
                bool_decide (option_map cp_physical_hash (et_new_checkpoint e)
                             = et_prev_checkpoint e) &&
                bool_decide (et_new_watermark e = prev_watermark) &&
                forallb (fun i => is_none (eti_new_block_hash i)) (et_query_inputs e)
        then Err (no_op_event (MetadataEvent_ExecuteTransform e)
               "Event neither has data nor it advances inputs, checkpoint, or watermark")
        else Ok tt
  end.

#[export] Instance execute_transform_visitor
  : MetadataChainVisitor VErr ValidateExecuteTransformVisitor := {|
  initial_decision v :=
    if is_some (vet_appended_execute_transform v)
    then Decision_NextOfType (vet_next_block_flags v) else Decision_Stop;
  visit := execute_transform_visit;
  finish := execute_transform_finish
|}.

(** * The validators of a block, in the order [append] builds them *)

Definition make_validators (block : MetadataBlock) : res VErr (list (DynVisitor VErr)) :=
  let add_data := ValidateAddDataVisitor_new block in
  let execute_transform := ValidateExecuteTransformVisitor_new block in
  let! unimplemented := ValidateUnimplementedEventsVisitor_new block in
  let! seed_order := ValidateSeedBlockOrderVisitor_new block in
  let! sequence_numbers := ValidateSequenceNumbersIntegrityVisitor_new block in
  let system_time := ValidateSystemTimeIsMonotonicVisitor_new block in
  let watermark := ValidateWatermarkIsMonotonicVisitor_new block in
  let! not_empty := ValidateEventIsNotEmptyVisitor_new block in
  let! offsets := ValidateOffsetsAreSequentialVisitor_new block in
  let! push_source := ValidateAddPushSourceVisitor_new block in
  let! polling_source := ValidateSetPollingSourceVisitor_new block in
  let! set_transform := ValidateSetTransformVisitor_new block in
  Ok [ mkDynVisitor add_data; mkDynVisitor execute_transform; mkDynVisitor unimplemented;
       mkDynVisitor seed_order; mkDynVisitor sequence_numbers; mkDynVisitor system_time;
       mkDynVisitor watermark; mkDynVisitor not_empty; mkDynVisitor offsets;
       mkDynVisitor push_source; mkDynVisitor polling_source; mkDynVisitor set_transform ].

(** * What each validator computes *)

Abbreviation data_of := (fun hb : HashedMetadataBlock => as_data_stream_event (mb_event hb.2)).
Abbreviation event_of T := (fun hb : HashedMetadataBlock => into_variant (T := T) (mb_event hb.2)).

(** The validator lets the chain pass. *)
Definition accepts {V} `{MetadataChainVisitor VErr V} (l : list HashedMetadataBlock) (v : V) : Prop :=
  exists v', run_visitor l v = Ok v'.

Lemma run_sequence_numbers l v :
  run_visitor l v =
  match l with
  | [] => Ok v
  | hb :: _ => let! (_, v') := sequence_numbers_visit v hb in Ok v'
  end.
Proof.
  unfold run_visitor; simpl. rewrite run_one_next. destruct l as [|hb l]; simpl; [done|].
  unfold sequence_numbers_visit. case_decide; simpl; [done|]. by rewrite run_one_stop.
Qed.

Lemma run_system_time l v :
  run_visitor l v =
  match l with
  | [] => Ok v
  | hb :: _ => let! (_, v') := system_time_visit v hb in Ok v'
  end.
Proof.
  unfold run_visitor; simpl. rewrite run_one_next. destruct l as [|hb l]; simpl; [done|].
  unfold system_time_visit. case_decide; simpl; [done|]. by rewrite run_one_stop.
Qed.

(** A watermark may only appear, never disappear or go back. *)
Definition watermark_le (prev next : option DateTime) : Prop :=
  match prev, next with
  | Some a, Some b => (a <= b)%Z
  | Some _, None => False
  | None, _ => True
  end.

#[export] Instance watermark_le_dec prev next : Decision (watermark_le prev next).
Proof. destruct prev, next; simpl; apply _. Defined.

Lemma run_watermark l wm :
  run_visitor l (mkValidateWatermarkIsMonotonicVisitor true wm) =
  match find_map data_of l with
  | Some p =>
      if decide (watermark_le (mds_new_watermark p) wm)
      then Ok (mkValidateWatermarkIsMonotonicVisitor true wm)
      else Err AppendValidationError_WatermarkIsNotMonotonic
  | None => Ok (mkValidateWatermarkIsMonotonicVisitor true wm)
  end.
Proof.
  rewrite (run_visitor_once Flag.DATA_BLOCK as_data_stream_event
    (fun p => if decide (watermark_le (mds_new_watermark p) wm) then Ok tt
              else Err AppendValidationError_WatermarkIsNotMonotonic)); try done.
  - destruct (find_map _ l); [|done]. by case_decide.
  - apply data_block_flag.
  - intros hb t Ht. simpl. unfold watermark_visit. rewrite Ht; simpl.
    destruct (mds_new_watermark t) as [a|], wm as [b|]; simpl; try done.
    + repeat case_decide; simpl in *; try done; lia.
Qed.

Lemma run_offsets l ev (d : MetadataBlockDataStream) :
  run_visitor l (mkValidateOffsetsAreSequentialVisitor ev (Some d)) =
  match find_map data_of l with
  | Some p =>
      if decide (mds_prev_offset (mbd_event d) <> MetadataEventDataStream_last_offset p)
      then invalid_event ev
             "Carried prev offset does not correspond to the last offset in the chain"
      else
        let! _ := validate_internal_offset_consistency ev d in
        Ok (mkValidateOffsetsAreSequentialVisitor ev (Some d))
  | None => Ok (mkValidateOffsetsAreSequentialVisitor ev (Some d))
  end.
Proof.
  rewrite (run_visitor_once Flag.DATA_BLOCK as_data_stream_event
    (fun p => if decide (mds_prev_offset (mbd_event d) <> MetadataEventDataStream_last_offset p)
      then invalid_event ev
             "Carried prev offset does not correspond to the last offset in the chain"
      else validate_internal_offset_consistency ev d)); try done.
  - destruct (find_map _ l); [|done]. by case_decide.
  - apply data_block_flag.
  - intros hb t Ht. simpl. unfold offsets_visit, as_data_stream_block. rewrite Ht; simpl.
    by case_decide.
Qed.

Lemma run_push_source l :
  run_visitor l (mkValidateAddPushSourceVisitor true) =
  match find_map (event_of SetPollingSource) l with
  | Some e => invalid_event (MetadataEvent_SetPollingSource e)
                "Cannot add a push source while polling source is still active"
  | None => Ok (mkValidateAddPushSourceVisitor true)
  end.
Proof.
  rewrite (run_visitor_once Flag.SET_POLLING_SOURCE (into_variant (T := SetPollingSource))
    (fun e => invalid_event (MetadataEvent_SetPollingSource e)
                "Cannot add a push source while polling source is still active")); try done.
  - by intros [].
  - intros hb t Ht. simpl in *. unfold add_push_source_visit.
    destruct (mb_event hb.2); by simplify_eq.
Qed.

Lemma run_polling_source l :
  run_visitor l (mkValidateSetPollingSourceVisitor true) =
  match find_map (event_of AddPushSource) l with
  | Some e => invalid_event (MetadataEvent_AddPushSource e)
                "Cannot add a polling source while some push sources are still active"
  | None => Ok (mkValidateSetPollingSourceVisitor true)
  end.
Proof.
  rewrite (run_visitor_once Flag.ADD_PUSH_SOURCE (into_variant (T := AddPushSource))
    (fun e => invalid_event (MetadataEvent_AddPushSource e)
                "Cannot add a polling source while some push sources are still active")); try done.
  - by intros [].
  - intros hb t Ht. simpl in *. unfold set_polling_source_visit.
    destruct (mb_event hb.2); by simplify_eq.
Qed.

(** ** AddData *)

Definition vad_flags (s : option SetDataSchema) (a : option AddData) : MetadataEventTypeFlags :=
  match s, a with
  | None, None => N.lor Flag.SET_DATA_SCHEMA Flag.ADD_DATA
  | None, Some _ => Flag.SET_DATA_SCHEMA
  | Some _, None => Flag.ADD_DATA
  | Some _, Some _ => 0
  end.

Definition or_else {A} (x y : option A) : option A := match x with Some a => Some a | None => y end.

(** The visitor collects the latest schema and the latest [AddData]. *)
Lemma run_one_add_data l e s a :
  exists d f, run_one l (Decision_NextOfType (vad_flags s a),
                         mkValidateAddDataVisitor (Some e) s a (vad_flags s a)) =
    Ok (d, mkValidateAddDataVisitor (Some e)
             (or_else s (find_map (event_of SetDataSchema) l))
             (or_else a (find_map (event_of AddData) l)) f).
Proof.
  revert s a; induction l as [|hb l IH]; intros s a.
  { destruct s, a; simpl; eauto. }
  destruct s as [s|], a as [a|].
  { destruct (run_one_empty_flags (mkValidateAddDataVisitor (Some e) (Some s) (Some a) 0) (hb :: l))
      as [d Hd]. exists d, 0%N. exact Hd. }
  1: destruct (IH (Some s) None) as (d & f & Hd).
  2: destruct (IH None (Some a)) as (d & f & Hd).
  3: destruct (IH None None) as (d & f & Hd).
  all: destruct (mb_event hb.2) as [x| | | | | | | | |x| | |] eqn:Hev;
    cbn [run_one step_visitor]; rewrite Hev; cbn -[run_one];
    unfold add_data_visit; rewrite ?Hev; cbn -[run_one]; try (exists d, f; exact Hd).
  - destruct (IH (Some s) (Some x)) as (d' & f' & Hd'); exists d', f'; exact Hd'.
  - destruct (IH (Some x) (Some a)) as (d' & f' & Hd'); exists d', f'; exact Hd'.
  - destruct (IH None (Some x)) as (d' & f' & Hd'); exists d', f'; exact Hd'.
  - destruct (IH (Some x) None) as (d' & f' & Hd'); exists d', f'; exact Hd'.
Qed.

Lemma run_add_data l block e :
  mb_event block = MetadataEvent_AddData e ->
  exists f, let v := mkValidateAddDataVisitor (Some e) (find_map (event_of SetDataSchema) l)
                       (find_map (event_of AddData) l) f in
    run_visitor l (ValidateAddDataVisitor_new block) = (let! _ := add_data_finish v in Ok v).
Proof.
  intros He. unfold run_visitor, ValidateAddDataVisitor_new. rewrite He; simpl.
  destruct (run_one_add_data l e None None) as (d & f & Hr). simpl in Hr. rewrite Hr; simpl.
  by exists f.
Qed.

(** ** ExecuteTransform *)

Definition vet_flags (t : option SetTransform) (s : option SetDataSchema)
    (q : option ExecuteTransform) : MetadataEventTypeFlags :=
  N.lor (if is_some s then 0 else Flag.SET_DATA_SCHEMA)
    (N.lor (if is_some q then 0 else Flag.EXECUTE_TRANSFORM)
       (if is_some t || is_some s && is_some q then 0 else Flag.SET_TRANSFORM)).

(** The latest [SetTransform], looked for only until a schema and a previous
    query have both been seen. *)
Fixpoint find_transform (s q : bool) (l : list HashedMetadataBlock) : option SetTransform :=
  if s && q then None
  else
    match l with
    | [] => None
    | hb :: l' =>
        match mb_event hb.2 with
        | MetadataEvent_SetTransform e => Some e
        | MetadataEvent_SetDataSchema _ => find_transform true q l'
        | MetadataEvent_ExecuteTransform _ => find_transform s true l'
        | _ => find_transform s q l'
        end
    end.

(** The visitor as it is after collecting [t], [s] and [q]. *)
Abbreviation vet e t s q :=
  (mkValidateExecuteTransformVisitor (Some e) t s q (vet_flags t s q)).

(** One block either is not asked for, or is recorded. *)
Lemma step_execute_transform e t s q hb :
  step_visitor hb (Decision_NextOfType (vet_flags t s q), vet e t s q) =
  if flags_is_empty (vet_flags t s q) then Ok (true, (Decision_Stop, vet e t s q))
  else
    let t' := if is_some s && is_some q then t else or_else t (event_of SetTransform hb) in
    let s' := or_else s (event_of SetDataSchema hb) in
    let q' := or_else q (event_of ExecuteTransform hb) in
    Ok (false, (Decision_NextOfType (vet_flags t' s' q'), vet e t' s' q')).
Proof.
  destruct t as [t|], s as [s|], q as [q|];
    destruct (mb_event hb.2) eqn:Hev; unfold step_visitor; rewrite Hev;
    cbn -[execute_transform_visit]; try rewrite !Hev; try reflexivity;
    unfold execute_transform_visit; rewrite Hev; reflexivity.
Qed.

Lemma vet_flags_empty t s q :
  flags_is_empty (vet_flags t s q) = true -> is_some s = true /\ is_some q = true.
Proof. by destruct t, s, q. Qed.

Lemma find_transform_stop l : find_transform true true l = None.
Proof. by destruct l. Qed.

(** The visitor collects the latest schema and query, and the transform. *)
Lemma run_one_execute_transform l e t s q :
  exists d f, run_one l (Decision_NextOfType (vet_flags t s q), vet e t s q) =
    Ok (d, mkValidateExecuteTransformVisitor (Some e)
             (or_else t (find_transform (is_some s) (is_some q) l))
             (or_else s (find_map (event_of SetDataSchema) l))
             (or_else q (find_map (event_of ExecuteTransform) l)) f).
Proof.
  revert t s q; induction l as [|hb l IH]; intros t s q.
  { destruct t, s, q; simpl; eauto. }
  cbn [run_one]. rewrite step_execute_transform.
  destruct (flags_is_empty (vet_flags t s q)) eqn:Hfe.
  { apply vet_flags_empty in Hfe as [Hs Hq]. destruct s as [s|], q as [q|]; try done.
    cbn [res_bind]. rewrite run_one_stop. destruct t; simpl; eauto. }
  cbn [res_bind].
  match goal with |- context [run_one l (_, vet e ?t' ?s' ?q')] =>
    destruct (IH t' s' q') as (d & f & ->) end.
  exists d, f. do 2 f_equal.
  destruct t as [t|], s as [s|], q as [q|];
    destruct (mb_event hb.2) eqn:Hev; simpl; rewrite ?Hev, ?find_transform_stop; try done.
Qed.

Lemma run_execute_transform l block e :
  mb_event block = MetadataEvent_ExecuteTransform e ->
  exists f, let v := mkValidateExecuteTransformVisitor (Some e) (find_transform false false l)
      (find_map (event_of SetDataSchema) l) (find_map (event_of ExecuteTransform) l) f in
    run_visitor l (ValidateExecuteTransformVisitor_new block) =
    (let! _ := execute_transform_finish v in Ok v).
Proof.
  intros He. unfold run_visitor, ValidateExecuteTransformVisitor_new. rewrite He.
  change (N.lor _ _) with (vet_flags None None None).
  destruct (run_one_execute_transform l e None None None) as (d & f & Hr).
  exists f. cbn [initial_decision execute_transform_visitor vet_appended_execute_transform
    vet_next_block_flags is_some]. by rewrite Hr.
Qed.
