(* ===== verification/ChainRules.v ===== *)
(** The rules a metadata chain obeys, stated declaratively, and the proof that
    the validators of metadata_chain_validators.rs enforce exactly them.

    [valid_next b l] says when block [b] may be put on top of the chain [l]
    (newest block first).  Each rule is about one validator; [validators_spec]
    is the conjunction. *)

From S2P Require Import Prelude Multiformats Identity Dtos ChainRepos MetadataChain ChainVisitors.
From S2P Require Import ChainValidators.

(** * Reading a chain *)

Definition latest_data (l : list HashedMetadataBlock) : option MetadataEventDataStream :=
  find_map data_of l.

Definition latest (T : Type) `{!VariantOf T} (l : list HashedMetadataBlock) : option T :=
  find_map (event_of T) l.

(** * Rules *)

(** A normalized SQL transform: no inline [query], at least one step, and
    every step but the last one, which is the output, has an alias. *)
Definition transform_ok (t : Transform) : Prop :=
  match t with
  | Transform_Sql ts =>
      ts_query ts = None /\
      exists qs q, ts_queries ts = Some (qs ++ [q]) /\ sqs_alias q = None /\
        Forall (fun x => is_Some (sqs_alias x)) qs
  end.

Definition preprocess_ok (o : option Transform) : Prop :=
  forall t, o = Some t -> transform_ok t.

(** Disabling a source is not implemented. *)
Definition supported (b : MetadataBlock) : Prop :=
  match mb_event b with
  | MetadataEvent_DisablePollingSource _ | MetadataEvent_DisablePushSource _ => False
  | _ => True
  end.

Definition is_seed (e : MetadataEvent) : Prop :=
  match e with MetadataEvent_Seed _ => True | _ => False end.

Definition seed_rule (b : MetadataBlock) : Prop :=
  is_seed (mb_event b) <-> mb_prev_block_hash b = None.

Definition sequence_rule (b : MetadataBlock) (l : list HashedMetadataBlock) : Prop :=
  (mb_prev_block_hash b = None -> mb_sequence_number b = 0%Z) /\
  forall hb, head l = Some hb -> mb_sequence_number hb.2 = u64_sub (mb_sequence_number b) 1.

Definition system_time_rule (b : MetadataBlock) (l : list HashedMetadataBlock) : Prop :=
  forall hb, head l = Some hb -> (mb_system_time hb.2 <= mb_system_time b)%Z.

Definition watermark_rule (b : MetadataBlock) (l : list HashedMetadataBlock) : Prop :=
  forall d p, as_data_stream_event (mb_event b) = Some d -> latest_data l = Some p ->
    watermark_le (mds_new_watermark p) (mds_new_watermark d).

Definition not_empty_rule (b : MetadataBlock) : Prop :=
  match mb_event b with
  | MetadataEvent_AddData e => AddData_is_empty e = false
  | MetadataEvent_ExecuteTransform e => ExecuteTransform_is_empty e = false
  | _ => True
  end.

(** A data slice starts right behind the carried offset and is not reversed. *)
Definition slice_rule (d : MetadataEventDataStream) : Prop :=
  forall n, mds_new_data d = Some n ->
    oi_start (ds_offset_interval n) =
      match mds_prev_offset d with None => 0%Z | Some v => u64_add v 1 end /\
    (oi_start (ds_offset_interval n) <= oi_end (ds_offset_interval n))%Z.

Definition offsets_rule (b : MetadataBlock) (l : list HashedMetadataBlock) : Prop :=
  forall d, as_data_stream_event (mb_event b) = Some d ->
    slice_rule d /\
    forall p, latest_data l = Some p -> mds_prev_offset d = MetadataEventDataStream_last_offset p.

Definition push_source_rule (b : MetadataBlock) (l : list HashedMetadataBlock) : Prop :=
  forall e, mb_event b = MetadataEvent_AddPushSource e ->
    preprocess_ok (aps_preprocess e) /\ latest SetPollingSource l = None.

Definition fetch_ok (f : FetchStep) : Prop :=
  match f with
  | FetchStep_EthereumLogs f => is_Some (fse_chain_id f) \/ is_Some (fse_node_url f)
  | _ => True
  end.

Definition polling_source_rule (b : MetadataBlock) (l : list HashedMetadataBlock) : Prop :=
  forall e, mb_event b = MetadataEvent_SetPollingSource e ->
    preprocess_ok (sps_preprocess e) /\ fetch_ok (sps_fetch e) /\ latest AddPushSource l = None.

Definition set_transform_rule (b : MetadataBlock) : Prop :=
  forall e, mb_event b = MetadataEvent_SetTransform e ->
    st_inputs e <> [] /\
    Forall (fun i => is_Some (DatasetRef_id (ti_dataset_ref i)) /\ is_Some (ti_alias i))
           (st_inputs e) /\
    transform_ok (st_transform e).

(** The event changes something with respect to the previous one. *)
Definition add_data_advances (e : AddData) (prev : option AddData) : Prop :=
  is_Some (ad_new_data e) \/
  option_map cp_physical_hash (ad_new_checkpoint e) <> ad_prev_checkpoint e \/
  ad_new_watermark e <> (prev ≫= ad_new_watermark) \/
  ad_new_source_state e <> (prev ≫= ad_new_source_state).

Definition add_data_rule (b : MetadataBlock) (l : list HashedMetadataBlock) : Prop :=
  forall e, mb_event b = MetadataEvent_AddData e ->
    (is_Some (ad_new_data e) -> is_Some (latest SetDataSchema l)) /\
    ad_prev_checkpoint e = option_map cp_physical_hash (latest AddData l ≫= ad_new_checkpoint) /\
    add_data_advances e (latest AddData l).

(** The ids of the inputs of a query, and those a transform declares. *)
Definition query_ids (e : ExecuteTransform) : list DatasetID :=
  map eti_dataset_id (et_query_inputs e).

Definition declared_ids (t : SetTransform) : list (option DatasetID) :=
  map (fun i => DatasetRef_id (ti_dataset_ref i)) (st_inputs t).

Definition inputs_order_rule (e : ExecuteTransform) (t : option SetTransform)
    (q : option ExecuteTransform) : Prop :=
  match t, q with
  | Some t, _ => map Some (query_ids e) = declared_ids t
  | None, Some q => query_ids e = query_ids q
  | None, None => False
  end.

(** An input continues where the previous query left it. *)
Definition input_continues (prev new : ExecuteTransformInput) : Prop :=
  (forall h, eti_new_block_hash new = Some h -> eti_prev_block_hash new <> Some h) /\
  (forall o, eti_new_offset new = Some o -> eti_prev_offset new <> Some o) /\
  eti_prev_block_hash new = ExecuteTransformInput_last_block_hash prev /\
  eti_prev_offset new = ExecuteTransformInput_last_offset prev /\
  (is_Some (eti_new_offset new) -> is_Some (eti_new_block_hash new)).

Definition execute_transform_advances (e : ExecuteTransform) (prev : option ExecuteTransform)
    : Prop :=
  is_Some (et_new_data e) \/
  option_map cp_physical_hash (et_new_checkpoint e) <> et_prev_checkpoint e \/
  et_new_watermark e <> (prev ≫= et_new_watermark) \/
  Exists (fun i => is_Some (eti_new_block_hash i)) (et_query_inputs e).

Definition execute_transform_rule (b : MetadataBlock) (l : list HashedMetadataBlock) : Prop :=
  forall e, mb_event b = MetadataEvent_ExecuteTransform e ->
    (is_Some (et_new_data e) -> is_Some (latest SetDataSchema l)) /\
    inputs_order_rule e (find_transform false false l) (latest ExecuteTransform l) /\
    (forall q, latest ExecuteTransform l = Some q ->
       Forall (fun '(prev, new) => input_continues prev new)
              (zip (et_query_inputs q) (et_query_inputs e))) /\
    et_prev_checkpoint e =
      option_map cp_physical_hash (latest ExecuteTransform l ≫= et_new_checkpoint) /\
    execute_transform_advances e (latest ExecuteTransform l).

Record valid_next (b : MetadataBlock) (l : list HashedMetadataBlock) : Prop := {
  vn_supported : supported b;
  vn_seed : seed_rule b;
  vn_sequence : sequence_rule b l;
  vn_system_time : system_time_rule b l;
  vn_watermark : watermark_rule b l;
  vn_not_empty : not_empty_rule b;
  vn_offsets : offsets_rule b l;
  vn_push_source : push_source_rule b l;
  vn_polling_source : polling_source_rule b l;
  vn_set_transform : set_transform_rule b;
  vn_add_data : add_data_rule b l;
  vn_execute_transform : execute_transform_rule b l
}.

(** * The validators enforce the rules *)

Lemma is_some_spec {A} (o : option A) : is_some o = true <-> is_Some o.
Proof. destruct o; simpl; split; try done; eauto. Qed.

Lemma is_none_spec {A} (o : option A) : is_none o = true <-> o = None.
Proof. by destruct o. Qed.

Lemma is_some_false {A} (o : option A) : is_some o = false <-> o = None.
Proof. by destruct o. Qed.

Lemma is_none_false {A} (o : option A) : is_none o = false <-> is_Some o.
Proof. destruct o; simpl; split; try done; eauto. Qed.

(** Early returns. *)
Lemma guard_ok {E A} (c : bool) (x m : res E A) a :
  x <> Ok a -> (if c then x else m) = Ok a <-> c = false /\ m = Ok a.
Proof. destruct c; naive_solver. Qed.

Lemma guard_dec_ok {E A} P `{Decision P} (x m : res E A) a :
  x <> Ok a -> (if decide P then x else m) = Ok a <-> ~ P /\ m = Ok a.
Proof. destruct (decide P); naive_solver. Qed.

Lemma check_ok {E A} (m : res E unit) (k : res E A) a :
  (let! _ := m in k) = Ok a <-> m = Ok tt /\ k = Ok a.
Proof. rewrite res_bind_ok. split; [by intros ([] & ? & ?)|]. intros []. by exists tt. Qed.

Lemma forallb_is_none {A B} (f : A -> option B) l :
  forallb (fun x => is_none (f x)) l = false <-> Exists (fun x => is_Some (f x)) l.
Proof.
  induction l as [|x l IH]; simpl; [by rewrite Exists_nil|].
  by rewrite andb_false_iff, is_none_false, IH, Exists_cons.
Qed.

Lemma dec_stable_iff P `{Decision P} : ~ ~ P <-> P.
Proof. split; [apply dec_stable|tauto]. Qed.

(** Turns the boolean tests of the code into propositions. *)
Ltac tests :=
  repeat match goal with
  | |- context [is_some ?o] => destruct o eqn:?; simpl
  | |- context [is_none ?o] => destruct o eqn:?; simpl
  | |- context [bool_decide ?P] => destruct (bool_decide_reflect P); simpl
  | |- context [decide ?P] => destruct (decide P); simpl
  end.

Lemma validate_aliases_ok e qs :
  validate_aliases e qs = Ok tt <-> Forall (fun x => is_Some (sqs_alias x)) qs.
Proof.
  induction qs as [|q qs IH]; simpl; [split; auto|].
  rewrite Forall_cons, <- IH. destruct (sqs_alias q); simpl.
  - split; [intros; split; eauto|tauto].
  - split; [done|]. by intros [[]].
Qed.

Lemma validate_transform_ok e t : validate_transform e t = Ok tt <-> transform_ok t.
Proof.
  destruct t as [ts]; simpl. destruct (ts_query ts) as [x|]; simpl.
  { split; [done|]. by intros []. }
  destruct (ts_queries ts) as [qs|]; [|split; [done|by intros (_ & ? & ? & ? & _)]].
  destruct qs as [|q qs' _] using rev_ind.
  { split; [done|]. intros (_ & [|? ?] & ? & [=] & _). }
  rewrite last_snoc. destruct (qs' ++ [q]) as [|x xs] eqn:Heq; [by destruct qs'|].
  rewrite <- Heq, length_app, Nat.add_sub, take_app_length. simpl.
  destruct (sqs_alias q) as [al|] eqn:Ha; simpl.
  - split; [done|]. intros (_ & ? & ? & [= ?] & ? & _). by simplify_list_eq.
  - rewrite validate_aliases_ok. split.
    + intros H. split; [done|]. by exists qs', q.
    + intros (_ & ? & ? & [= ?] & ? & ?). by simplify_list_eq.
Qed.

Lemma validate_transform_no_panic e t : validate_transform e t <> Panic.
Proof.
  destruct t as [ts]; simpl. tests; [done|].
  destruct (ts_queries ts) as [[|x xs]|]; try done.
  destruct (last (x :: xs)) eqn:Hl; [|by apply last_None in Hl]. simpl.
  tests; [done|]. generalize (take (length xs - 0) (x :: xs)).
  intros qs. induction qs as [|q qs IH]; simpl; [done|]. by tests.
Qed.

(** [new] succeeds and the validator lets the chain pass. *)
Definition passes {V} `{MetadataChainVisitor VErr V} (l : list HashedMetadataBlock)
    (m : res VErr V) : Prop :=
  exists v, m = Ok v /\ accepts l v.

Lemma passes_ok {V} `{MetadataChainVisitor VErr V} l (v : V) : passes l (Ok v) <-> accepts l v.
Proof. split; [by intros (? & [= <-] & ?)|intros; by exists v]. Qed.

Lemma passes_err {V} `{MetadataChainVisitor VErr V} l e : ~ passes l (Err e : res VErr V).
Proof. by intros (? & ? & _). Qed.

(** A validator that stops at once accepts every chain. *)
Lemma accepts_stop {V} `{MetadataChainVisitor VErr V} l (v : V) :
  initial_decision v = Decision_Stop -> finish v = Ok tt -> accepts l v.
Proof. intros. exists v. by apply run_visitor_stop. Qed.

Lemma accepts_dyn {V} `{!MetadataChainVisitor VErr V} l (v : V) :
  accepts l (mkDynVisitor v) <-> accepts l v.
Proof.
  unfold accepts. rewrite run_visitor_dyn. destruct (run_visitor l v); simpl; split;
    intros [? ?]; simplify_eq; eauto.
Qed.

Lemma supported_spec b l : passes l (ValidateUnimplementedEventsVisitor_new b) <-> supported b.
Proof.
  unfold ValidateUnimplementedEventsVisitor_new, supported.
  destruct (mb_event b); rewrite ?passes_ok;
    (split; [try done; try by intros (? & ? & _)|intros; try done; by apply accepts_stop]).
Qed.

Lemma seed_rule_spec b l : passes l (ValidateSeedBlockOrderVisitor_new b) <-> seed_rule b.
Proof.
  unfold ValidateSeedBlockOrderVisitor_new, seed_rule.
  destruct (mb_event b), (mb_prev_block_hash b) as [h|]; simpl;
    (split;
     [ first [by intros []%passes_err | intros _; by split]
     | intros [H1 H2]; first [by specialize (H1 I) | by specialize (H2 eq_refl)
                             | apply passes_ok; by apply accepts_stop] ]).
Qed.

Lemma sequence_rule_spec b l :
  passes l (ValidateSequenceNumbersIntegrityVisitor_new b) <-> sequence_rule b l.
Proof.
  assert (Hacc : accepts l (mkValidateSequenceNumbersIntegrityVisitor (mb_sequence_number b)) <->
    forall hb, head l = Some hb -> mb_sequence_number hb.2 = u64_sub (mb_sequence_number b) 1).
  { unfold accepts. rewrite run_sequence_numbers. destruct l as [|hb l]; [split; [done|eauto]|].
    unfold sequence_numbers_visit. case_decide as Hd; simpl in *.
    - split; [by intros []|]. intros H. destruct (Hd (H _ eq_refl)).
    - split; [|eauto]. by intros _ ? [= <-]. }
  unfold ValidateSequenceNumbersIntegrityVisitor_new, sequence_rule.
  destruct (mb_prev_block_hash b) as [h|]; simpl.
  - rewrite passes_ok, Hacc. naive_solver.
  - case_bool_decide as Hd.
    + split; [by intros []%passes_err|]. intros [H _]. by destruct (Hd (H eq_refl)).
    + rewrite passes_ok, Hacc. naive_solver.
Qed.

Lemma system_time_rule_spec b l :
  accepts l (ValidateSystemTimeIsMonotonicVisitor_new b) <-> system_time_rule b l.
Proof.
  unfold accepts, system_time_rule. rewrite run_system_time.
  destruct l as [|hb l]; [split; [done|eauto]|].
  unfold system_time_visit. case_decide as Hd; simpl in *.
  - split; [by intros []|]. intros H. specialize (H _ eq_refl). lia.
  - split; [|eauto]. intros _ ? [= <-]. lia.
Qed.

Lemma watermark_rule_spec b l :
  accepts l (ValidateWatermarkIsMonotonicVisitor_new b) <-> watermark_rule b l.
Proof.
  unfold ValidateWatermarkIsMonotonicVisitor_new, watermark_rule, latest_data.
  destruct (as_data_stream_event (mb_event b)) as [d|].
  - unfold accepts. rewrite run_watermark. destruct (find_map _ l) as [p|].
    + case_decide; split; try naive_solver.
    + split; [|eauto]. done.
  - split; [done|]. intros _. by apply accepts_stop.
Qed.

Lemma not_empty_rule_spec b l :
  passes l (ValidateEventIsNotEmptyVisitor_new b) <-> not_empty_rule b.
Proof.
  unfold ValidateEventIsNotEmptyVisitor_new, not_empty_rule.
  destruct (mb_event b) as [e| | | | | |e| | | | | |];
    try match goal with |- context [if ?c then _ else _] => destruct c end;
    (split; [try done; by intros []%passes_err|intros; try done; apply passes_ok;
       by apply accepts_stop]).
Qed.

Lemma slice_rule_spec e (d : MetadataBlockDataStream) :
  validate_internal_offset_consistency e d = Ok tt <-> slice_rule (mbd_event d).
Proof.
  unfold validate_internal_offset_consistency, slice_rule.
  destruct (mds_new_data (mbd_event d)) as [n|]; [|done].
  split.
  - intros H n' [= <-]. repeat case_decide; try done. split; [done|lia].
  - intros H. destruct (H _ eq_refl) as [H1 H2]. rewrite !decide_False; [done|lia|]. tauto.
Qed.

Lemma offsets_rule_spec b l :
  passes l (ValidateOffsetsAreSequentialVisitor_new b) <-> offsets_rule b l.
Proof.
  unfold ValidateOffsetsAreSequentialVisitor_new, offsets_rule, latest_data, as_data_stream_block.
  destruct (as_data_stream_event (mb_event b)) as [d|]; simpl.
  2:{ split; [done|]. intros _. apply passes_ok. by apply accepts_stop. }
  set (db := mkMetadataBlockDataStream _ _ _).
  pose proof (slice_rule_spec (mb_event b) db) as Hs. simpl in Hs.
  destruct (validate_internal_offset_consistency (mb_event b) db) as [[]|e|] eqn:Hv; simpl.
  - rewrite passes_ok. unfold accepts. rewrite run_offsets, Hv; simpl.
    destruct (find_map _ l) as [p|]; [case_decide as Hd|]; simpl; split; try naive_solver.
  - split; [by intros []%passes_err|]. intros H. destruct (H _ eq_refl) as [H1 _].
    by apply Hs in H1.
  - split; [by intros (? & ? & _)|]. intros H. destruct (H _ eq_refl) as [H1 _].
    by apply Hs in H1.
Qed.

(** A check of an optional transform. *)
Lemma preprocess_spec e o :
  match o with Some t => validate_transform e t | None => Ok tt end = Ok tt <-> preprocess_ok o.
Proof.
  unfold preprocess_ok. destruct o as [t|]; [|split; done].
  rewrite validate_transform_ok. naive_solver.
Qed.

Lemma passes_bind {V A} `{MetadataChainVisitor VErr V} l (m : res VErr A) (k : A -> res VErr V) :
  passes l (let! a := m in k a) <-> exists a, m = Ok a /\ passes l (k a).
Proof.
  unfold passes. setoid_rewrite res_bind_ok. naive_solver.
Qed.

Lemma passes_check {V} `{MetadataChainVisitor VErr V} l (m : res VErr unit) (k : res VErr V) :
  passes l (let! _ := m in k) <-> m = Ok tt /\ passes l k.
Proof.
  rewrite passes_bind. split; [by intros ([] & ? & ?)|]. intros []. by exists tt.
Qed.

Lemma push_source_rule_spec b l :
  passes l (ValidateAddPushSourceVisitor_new b) <-> push_source_rule b l.
Proof.
  unfold ValidateAddPushSourceVisitor_new, push_source_rule, latest.
  destruct (mb_event b);
    try (split; [done|intros _; apply passes_ok; by apply accepts_stop]).
  rewrite passes_check, preprocess_spec, passes_ok. unfold accepts. rewrite run_push_source.
  destruct (find_map _ l); naive_solver.
Qed.

Lemma fetch_spec e f :
  match f with
  | FetchStep_EthereumLogs f =>
      if is_none (fse_chain_id f) && is_none (fse_node_url f)
      then invalid_event e "Eth source must specify chainId or nodeUrl" else Ok tt
  | _ => Ok tt
  end = Ok tt <-> fetch_ok f.
Proof.
  destruct f as [| | | |f]; simpl; try done.
  destruct (fse_chain_id f), (fse_node_url f); simpl; split; eauto; try done.
  by intros [[]|[]].
Qed.

Lemma polling_source_rule_spec b l :
  passes l (ValidateSetPollingSourceVisitor_new b) <-> polling_source_rule b l.
Proof.
  unfold ValidateSetPollingSourceVisitor_new, polling_source_rule, latest.
  destruct (mb_event b);
    try (split; [done|intros _; apply passes_ok; by apply accepts_stop]).
  rewrite !passes_check, preprocess_spec, fetch_spec, passes_ok.
  unfold accepts. rewrite run_polling_source.
  destruct (find_map _ l); naive_solver.
Qed.

Lemma inputs_resolved_spec e inputs :
  validate_inputs_resolved e inputs = Ok tt <->
  Forall (fun i => is_Some (DatasetRef_id (ti_dataset_ref i)) /\ is_Some (ti_alias i)) inputs.
Proof.
  induction inputs as [|i inputs IH]; simpl; [split; auto|].
  rewrite Forall_cons, <- IH. rewrite <- !is_some_spec. unfold is_none.
  destruct (is_some _), (is_some _); simpl; split; try done; naive_solver.
Qed.

Lemma set_transform_rule_spec b l :
  passes l (ValidateSetTransformVisitor_new b) <-> set_transform_rule b.
Proof.
  unfold ValidateSetTransformVisitor_new, set_transform_rule.
  destruct (mb_event b) as [| | | |e| | | | | | | |] eqn:Hev;
    try (split; [done|intros _; apply passes_ok; by apply accepts_stop]).
  destruct (st_inputs e) as [|i rest] eqn:Hi.
  - split; [by intros []%passes_err|]. intros H. by destruct (H _ eq_refl).
  - rewrite !passes_check, validate_transform_ok, inputs_resolved_spec, passes_ok.
    split.
    + intros (H1 & H2 & _) ? [= <-]. by rewrite Hi.
    + intros H. destruct (H _ eq_refl) as (_ & H1 & H2). rewrite Hi in H1.
      split; [done|]. split; [done|]. by apply accepts_stop.
Qed.

Lemma add_data_rule_spec b l :
  accepts l (ValidateAddDataVisitor_new b) <-> add_data_rule b l.
Proof.
  unfold add_data_rule, latest.
  destruct (mb_event b) as [e| | | | | | | | | | | |] eqn:Hev;
    try (split; [done|intros _; apply accepts_stop; unfold ValidateAddDataVisitor_new;
           by rewrite Hev]).
  destruct (run_add_data l b e Hev) as [f Hr]. unfold accepts. rewrite Hr.
  set (s := find_map (event_of SetDataSchema) l). set (a := find_map (event_of AddData) l).
  transitivity (add_data_finish (mkValidateAddDataVisitor (Some e) s a f) = Ok tt).
  { destruct (add_data_finish _) as [[]| |]; naive_solver. }
  unfold add_data_finish, add_data_advances. cbn -[is_some is_none bool_decide decide].
  rewrite guard_ok, guard_dec_ok, guard_ok by done.
  rewrite !andb_false_iff, !is_none_false, !is_some_false, !bool_decide_eq_false.
  setoid_rewrite (eq_None_not_Some (ad_new_data e)). rewrite (dec_stable_iff (_ = _)).
  destruct (decide (is_Some (ad_new_data e))); naive_solver.
Qed.

Lemma inputs_ne_declared_spec actual declared :
  inputs_ne_declared actual declared = Ok false <->
  map Some actual = map (fun i => DatasetRef_id (ti_dataset_ref i)) declared.
Proof.
  revert declared; induction actual as [|x xs IH]; intros [|i rest]; simpl; try done.
  - by destruct (DatasetRef_id _).
  - destruct (DatasetRef_id (ti_dataset_ref i)) as [y|]; simpl; [|done].
    case_decide; subst.
    + rewrite IH. split; [by intros ->|congruence].
    + split; [done|congruence].
Qed.

Lemma inputs_order_spec e t q :
  validate_inputs_order e t q = Ok tt <-> inputs_order_rule e t q.
Proof.
  unfold validate_inputs_order, inputs_order_rule, query_ids, declared_ids.
  destruct t as [t|].
  - rewrite <- inputs_ne_declared_spec.
    destruct (inputs_ne_declared _ _) as [[]| |]; simpl; naive_solver.
  - destruct q as [q|]; [|done]. rewrite guard_dec_ok by done.
    rewrite (dec_stable_iff (_ = _)). naive_solver.
Qed.

Lemma input_sequencing_spec e prev new :
  validate_input_sequencing e prev new = Ok tt <-> input_continues prev new.
Proof.
  unfold validate_input_sequencing, input_continues.
  rewrite !guard_ok, !guard_dec_ok, !guard_ok by done.
  rewrite !andb_false_iff, !is_none_false, !is_some_false, !bool_decide_eq_false.
  rewrite !(dec_stable_iff (_ = _)).
  destruct (eti_new_block_hash new) as [h|], (eti_new_offset new) as [o|]; naive_solver.
Qed.

Lemma inputs_sequencing_spec e z :
  validate_inputs_sequencing e z = Ok tt <-> Forall (fun '(prev, new) => input_continues prev new) z.
Proof.
  induction z as [|[prev new] z IH]; simpl; [split; auto|].
  rewrite Forall_cons, <- IH, <- (input_sequencing_spec e).
  apply check_ok.
Qed.

Lemma execute_transform_rule_spec b l :
  accepts l (ValidateExecuteTransformVisitor_new b) <-> execute_transform_rule b l.
Proof.
  unfold execute_transform_rule, latest.
  destruct (mb_event b) as [|e| | | | | | | | | | |] eqn:Hev;
    try (split; [done|intros _; apply accepts_stop; unfold ValidateExecuteTransformVisitor_new;
           by rewrite Hev]).
  destruct (run_execute_transform l b e Hev) as [f Hr]. unfold accepts. rewrite Hr.
  set (s := find_map (event_of SetDataSchema) l).
  set (q := find_map (event_of ExecuteTransform) l). set (t := find_transform false false l).
  transitivity (execute_transform_finish (mkValidateExecuteTransformVisitor (Some e) t s q f)
                = Ok tt).
  { destruct (execute_transform_finish _) as [[]| |]; naive_solver. }
  unfold execute_transform_finish, execute_transform_advances.
  cbn -[is_some is_none bool_decide decide].
  rewrite guard_ok, !check_ok, guard_dec_ok, guard_ok by done.
  rewrite inputs_order_spec.
  rewrite !andb_false_iff, !is_none_false, !is_some_false, !bool_decide_eq_false, forallb_is_none.
  setoid_rewrite (eq_None_not_Some (et_new_data e)). rewrite (dec_stable_iff (_ = _)).
  assert (Hq : match q with
          | Some pq => validate_inputs_sequencing e (zip (et_query_inputs pq) (et_query_inputs e))
          | None => Ok tt end = Ok tt <->
          forall pq, q = Some pq -> Forall (fun '(prev, new) => input_continues prev new)
              (zip (et_query_inputs pq) (et_query_inputs e))).
  { destruct q; [rewrite inputs_sequencing_spec|]; naive_solver. }
  rewrite Hq. destruct (decide (is_Some (et_new_data e))); naive_solver.
Qed.

(** The validators as one check of a block against a chain. *)
Definition validates (b : MetadataBlock) (l : list HashedMetadataBlock) : Prop :=
  exists vs, make_validators b = Ok vs /\ Forall (accepts l) vs.

Lemma make_validators_inv b vs :
  make_validators b = Ok vs ->
  exists unimplemented seed_order sequence_numbers not_empty offsets push polling set_transform,
    ValidateUnimplementedEventsVisitor_new b = Ok unimplemented /\
    ValidateSeedBlockOrderVisitor_new b = Ok seed_order /\
    ValidateSequenceNumbersIntegrityVisitor_new b = Ok sequence_numbers /\
    ValidateEventIsNotEmptyVisitor_new b = Ok not_empty /\
    ValidateOffsetsAreSequentialVisitor_new b = Ok offsets /\
    ValidateAddPushSourceVisitor_new b = Ok push /\
    ValidateSetPollingSourceVisitor_new b = Ok polling /\
    ValidateSetTransformVisitor_new b = Ok set_transform /\
    vs = [ mkDynVisitor (ValidateAddDataVisitor_new b);
           mkDynVisitor (ValidateExecuteTransformVisitor_new b); mkDynVisitor unimplemented;
           mkDynVisitor seed_order; mkDynVisitor sequence_numbers;
           mkDynVisitor (ValidateSystemTimeIsMonotonicVisitor_new b);
           mkDynVisitor (ValidateWatermarkIsMonotonicVisitor_new b); mkDynVisitor not_empty;
           mkDynVisitor offsets; mkDynVisitor push; mkDynVisitor polling;
           mkDynVisitor set_transform ].
Proof.
  unfold make_validators. intros H.
  repeat (apply res_bind_ok in H as (? & ? & H)). injection H as <-.
  repeat eexists; eauto.
Qed.

Lemma validators_rules b l : validates b l <-> valid_next b l.
Proof.
  split.
  - intros (vs & Hm & Hall).
    destruct (make_validators_inv _ _ Hm) as (v1 & v2 & v3 & v4 & v5 & v6 & v7 & v8 & H1 & H2 & H3
      & H4 & H5 & H6 & H7 & H8 & ->).
    repeat (apply Forall_cons in Hall as [?%accepts_dyn Hall]).
    constructor.
    + eapply supported_spec; by eexists.
    + eapply seed_rule_spec; by eexists.
    + eapply sequence_rule_spec; by eexists.
    + by eapply system_time_rule_spec.
    + by eapply watermark_rule_spec.
    + eapply not_empty_rule_spec; by eexists.
    + eapply offsets_rule_spec; by eexists.
    + eapply push_source_rule_spec; by eexists.
    + eapply polling_source_rule_spec; by eexists.
    + eapply set_transform_rule_spec; by eexists.
    + by eapply add_data_rule_spec.
    + by eapply execute_transform_rule_spec.
  - intros [H1 H2 H3 H4 H5 H6 H7 H8 H9 H10 H11 H12].
    apply (supported_spec b l) in H1 as (v1 & E1 & A1).
    apply (seed_rule_spec b l) in H2 as (v2 & E2 & A2).
    apply sequence_rule_spec in H3 as (v3 & E3 & A3).
    apply (not_empty_rule_spec b l) in H6 as (v6 & E6 & A6).
    apply offsets_rule_spec in H7 as (v7 & E7 & A7).
    apply push_source_rule_spec in H8 as (v8 & E8 & A8).
    apply polling_source_rule_spec in H9 as (v9 & E9 & A9).
    apply (set_transform_rule_spec b l) in H10 as (v10 & E10 & A10).
    apply system_time_rule_spec in H4. apply watermark_rule_spec in H5.
    apply add_data_rule_spec in H11. apply execute_transform_rule_spec in H12.
    eexists. unfold make_validators. rewrite E1, E2, E3, E6, E7, E8, E9, E10.
    split; [done|]. by repeat (apply Forall_cons; split; [by apply accepts_dyn|]).
Qed.

(** * Panics

    [unreachable!] arms are never taken; what is left is the [unimplemented!]
    of the disabling events, and unwrapping the id of an unresolved input. *)

Definition transforms_resolved (l : list HashedMetadataBlock) : Prop :=
  forall hb t i, hb ∈ l -> mb_event hb.2 = MetadataEvent_SetTransform t -> i ∈ st_inputs t ->
    is_Some (DatasetRef_id (ti_dataset_ref i)).

Lemma find_transform_elem s q l t :
  find_transform s q l = Some t -> exists hb, hb ∈ l /\ mb_event hb.2 = MetadataEvent_SetTransform t.
Proof.
  revert s q; induction l as [|hb l IH]; intros s q H; [by destruct s, q|].
  simpl in H. destruct (s && q); [done|].
  destruct (mb_event hb.2) eqn:Hev; simplify_eq;
    try (destruct (IH _ _ H) as (hb' & ? & ?); exists hb'; split; [by right|done]).
  exists hb. split; [left|done].
Qed.

Lemma inputs_ne_no_panic actual declared :
  (forall i, i ∈ declared -> is_Some (DatasetRef_id (ti_dataset_ref i))) ->
  inputs_ne_declared actual declared <> Panic.
Proof.
  revert declared; induction actual as [|x xs IH]; intros [|i rest] H; simpl; try done.
  - by destruct (H i ltac:(left)) as [y ->].
  - destruct (H i ltac:(left)) as [y ->]; simpl. case_decide; [|done].
    apply IH. intros j Hj. apply H. by right.
Qed.

Lemma inputs_sequencing_no_panic e z : validate_inputs_sequencing e z <> Panic.
Proof.
  induction z as [|[prev new] z IH]; simpl; [done|]. apply res_bind_not_panic; [|done].
  unfold validate_input_sequencing. repeat case_match; done.
Qed.

Lemma execute_transform_no_panic l b :
  transforms_resolved l -> run_visitor l (ValidateExecuteTransformVisitor_new b) <> Panic.
Proof.
  intros Hres. destruct (mb_event b) as [|e| | | | | | | | | | |] eqn:Hev.
  2:{ destruct (run_execute_transform l b e Hev) as [f ->].
      apply res_bind_not_panic; [|done]. unfold execute_transform_finish; simpl.
      case_match; [done|]. apply res_bind_not_panic; [|intros _ _; apply res_bind_not_panic].
      - unfold validate_inputs_order. destruct (find_transform _ _ l) as [t|] eqn:Ht.
        + apply find_transform_elem in Ht as (hb & Hin & Hhb).
          apply res_bind_not_panic; [|by intros []].
          apply inputs_ne_no_panic. intros i Hi. by eapply Hres.
        + repeat case_match; done.
      - match goal with |- context [match ?q with Some _ => _ | None => _ end] => destruct q end;
          [apply inputs_sequencing_no_panic|done].
      - intros _ _. repeat case_match; done. }
  all: rewrite run_visitor_stop; unfold ValidateExecuteTransformVisitor_new; by rewrite ?Hev.
Qed.

Lemma add_data_no_panic l b : run_visitor l (ValidateAddDataVisitor_new b) <> Panic.
Proof.
  destruct (mb_event b) as [e| | | | | | | | | | | |] eqn:Hev.
  1:{ destruct (run_add_data l b e Hev) as [f ->]. apply res_bind_not_panic; [|done].
      unfold add_data_finish; simpl. repeat case_match; done. }
  all: rewrite run_visitor_stop; unfold ValidateAddDataVisitor_new; by rewrite ?Hev.
Qed.

Lemma validate_internal_no_panic e d : validate_internal_offset_consistency e d <> Panic.
Proof. unfold validate_internal_offset_consistency. repeat case_match; done. Qed.

(** Building the validators panics exactly on the events that are not
    implemented. *)
Lemma make_validators_panic b : make_validators b = Panic <-> ~ supported b.
Proof.
  split.
  - intros H Hs. revert H. change (make_validators b <> Panic). unfold make_validators.
    repeat (lazymatch goal with |- res_bind _ _ <> Panic => apply res_bind_not_panic end;
            [|intros ? _]); try done.
    + unfold ValidateUnimplementedEventsVisitor_new, supported in *. by destruct (mb_event b).
    + unfold ValidateSeedBlockOrderVisitor_new. repeat case_match; done.
    + unfold ValidateSequenceNumbersIntegrityVisitor_new. repeat case_match; done.
    + unfold ValidateEventIsNotEmptyVisitor_new. repeat case_match; done.
    + unfold ValidateOffsetsAreSequentialVisitor_new. apply res_bind_not_panic; [|done].
      case_match; [apply validate_internal_no_panic|done].
    + unfold ValidateAddPushSourceVisitor_new. case_match; try done.
      apply res_bind_not_panic; [|done]. case_match; [apply validate_transform_no_panic|done].
    + unfold ValidateSetPollingSourceVisitor_new. case_match; try done.
      apply res_bind_not_panic; [case_match; [apply validate_transform_no_panic|done]|].
      intros _ _. apply res_bind_not_panic; [|done]. repeat case_match; done.
    + unfold ValidateSetTransformVisitor_new. do 2 (case_match; try done).
      apply res_bind_not_panic.
      * match goal with |- context [validate_inputs_resolved ?e ?x] => generalize x as z; intros z;
          induction z as [|i z IH]; simpl; [done|]; by case_match end.
      * intros _ _. apply res_bind_not_panic; [apply validate_transform_no_panic|done].
  - intros Hs. unfold make_validators, ValidateUnimplementedEventsVisitor_new, supported in *.
    by destruct (mb_event b).
Qed.

Lemma validators_no_panic b l vs v :
  transforms_resolved l -> make_validators b = Ok vs -> v ∈ vs -> run_visitor l v <> Panic.
Proof.
  intros Hres Hm Hv.
  destruct (make_validators_inv _ _ Hm) as (v1 & v2 & v3 & v4 & v5 & v6 & v7 & v8 & H1 & H2 & H3
    & H4 & H5 & H6 & H7 & H8 & ->).
  assert (Hd : forall V (I : MetadataChainVisitor VErr V) (w : V),
    run_visitor l w <> Panic -> run_visitor l (mkDynVisitor w) <> Panic).
  { intros V I w Hw. rewrite run_visitor_dyn. by destruct (run_visitor l w). }
  repeat (apply elem_of_cons in Hv as [->|Hv]; [apply Hd|]); [..|by apply elem_of_nil in Hv].
  - apply add_data_no_panic.
  - by apply execute_transform_no_panic.
  - by rewrite run_visitor_stop.
  - by rewrite run_visitor_stop.
  - rewrite run_sequence_numbers. destruct l; [done|].
    unfold sequence_numbers_visit. by case_decide.
  - rewrite run_system_time. destruct l; [done|]. unfold system_time_visit. by case_decide.
  - unfold ValidateWatermarkIsMonotonicVisitor_new. case_match; [|by rewrite run_visitor_stop].
    rewrite run_watermark. case_match; [|done]. by case_decide.
  - by rewrite run_visitor_stop.
  - unfold ValidateOffsetsAreSequentialVisitor_new in H5.
    apply res_bind_ok in H5 as (? & _ & [= <-]).
    destruct (as_data_stream_block b); [|by rewrite run_visitor_stop].
    rewrite run_offsets. case_match; [|done]. case_decide; [done|].
    apply res_bind_not_panic; [apply validate_internal_no_panic|done].
  - destruct v6 as [[]]; [|by rewrite run_visitor_stop]. rewrite run_push_source. by case_match.
  - destruct v7 as [[]]; [|by rewrite run_visitor_stop]. rewrite run_polling_source.
    by case_match.
  - by rewrite run_visitor_stop.
Qed.

(** * The rules are decidable: the validators decide them *)

Definition validates_b (b : MetadataBlock) (l : list HashedMetadataBlock) : bool :=
  match make_validators b with
  | Ok vs => forallb (fun v => is_ok (run_visitor l v)) vs
  | _ => false
  end.

Lemma validates_b_spec b l : validates_b b l = true <-> valid_next b l.
Proof.
  rewrite <- validators_rules. unfold validates_b, validates.
  destruct (make_validators b) as [vs| |]; [|split; [done|by intros (? & ? & _)]..].
  rewrite forallb_forall. split.
  - intros H. exists vs. split; [done|]. apply Forall_forall. intros v Hv.
    apply list_elem_of_In, H in Hv. unfold accepts. destruct (run_visitor l v); by eauto.
  - intros (vs' & [= <-] & Hall) v Hv. rewrite Forall_forall in Hall.
    destruct (Hall v) as [v' ->]; [by apply list_elem_of_In|done].
Qed.

#[export] Instance valid_next_dec b l : Decision (valid_next b l).
Proof. refine (cast_if (decide (validates_b b l = true))); by rewrite <- validates_b_spec. Defined.
