(* ===== verification/ChainAppend.v ===== *)
(** Appending a block to a metadata chain.

    Source: [MetadataChainImpl::append] of
    src/infra/core/src/repos/metadata_chain_impl.rs.

    [append] validates the block against the chain its [prev_block_hash] leads
    to, compares the reference with the expected one, stores the block and
    moves the reference.  [chain_state c l] is the specification of the stored
    state: the head reference points at a stored, linked chain [l] every block
    of which obeys the rules of [ChainRules]. *)

From S2P Require Import Prelude Multiformats Identity Dtos ChainRepos MetadataChain ChainVisitors.
From S2P Require Import ChainValidators ChainRules.

Section Append.
Context {C : BlockCodec} {BR RR : Type}
        `{!MetadataBlockRepository BR} `{!ReferenceRepository RR}.

Implicit Types (c : MetadataChainImpl BR RR) (l : list HashedMetadataBlock) (b : MetadataBlock).

(** [if opts.validation == AppendValidation::Full { ... }] *)
Definition validate_append (fuel : nat) (r : BR) (block : MetadataBlock)
    : option (res AppendError unit) :=
  match make_validators block with
  | Err e => Some (Err (AppendError_InvalidBlock e))
  | Panic => Some Panic
  | Ok validators =>
      match accept_by_interval fuel r validators (mb_prev_block_hash block) None with
      | None => None
      | Some (Ok _) => Some (Ok tt)
      | Some (Err (AcceptVisitorError_Visitor err)) =>
          Some (Err (AppendError_InvalidBlock err))
      | Some (Err (AcceptVisitorError_Traversal (IterBlocksError_BlockNotFound err))) =>
          if decide (Some (bnf_hash err) = mb_prev_block_hash block)
          then Some (Err (AppendError_InvalidBlock (AppendValidationError_PrevBlockNotFound err)))
          else Some (Err (AppendError_Internal mkInternalError))
      | Some (Err (AcceptVisitorError_Traversal _)) =>
          Some (Err (AppendError_Internal mkInternalError))
      | Some Panic => Some Panic
      end
  end.

(** The current value of the reference, for the comparison. *)
Definition append_actual_ref (r : RR) (ref : BlockRef) : res AppendError (option Multihash) :=
  match rr_get r ref with
  | Ok h => Ok (Some h)
  | Err (GetRefError_NotFound _) => Ok None
  | Err (GetRefError_Access e) => Err (AppendError_Access e)
  | Err (GetRefError_Internal e) => Err (AppendError_Internal e)
  | Panic => Panic
  end.

(** [if opts.update_ref.is_some() && (...) { ... }] *)
Definition append_check_ref (r : RR) (block : MetadataBlock) (opts : AppendOpts)
    : res AppendError unit :=
  match ao_update_ref opts with
  | Some ref =>
      if is_some (ao_check_ref_is opts) || ao_check_ref_is_prev_block opts then
        let expected :=
          match ao_check_ref_is opts with Some x => x | None => mb_prev_block_hash block end in
        let! actual := append_actual_ref r ref in
        if decide (expected <> actual)
        then Err (AppendError_RefCASFailed (mkRefCASError ref expected actual))
        else Ok tt
      else Ok tt
  | None => Ok tt
  end.

Definition append_insert_err (e : InsertBlockError) : AppendError :=
  match e with
  | InsertBlockError_HashMismatch e =>
      AppendError_InvalidBlock (AppendValidationError_HashMismatch e)
  | InsertBlockError_Access e => AppendError_Access e
  | InsertBlockError_Internal e => AppendError_Internal e
  end.

Definition append_insert_opts (opts : AppendOpts) : InsertOpts :=
  mkInsertOpts (ao_precomputed_hash opts) (ao_expected_hash opts) None.

(** From [insert_block] on. *)
Definition append_store c (block : MetadataBlock) (opts : AppendOpts)
    : res AppendError Multihash * MetadataChainImpl BR RR :=
  let '(res, br) := insert_block (meta_block_repo c) block (append_insert_opts opts) in
  match map_err append_insert_err res with
  | Ok hash =>
      match ao_update_ref opts with
      | Some ref =>
          let '(x, rr) := rr_set (ref_repo c) ref hash in
          (let! _ := map_err AppendError_from_SetRefErrorRepo x in Ok hash,
           mkMetadataChainImpl br rr)
      | None => (Ok hash, mkMetadataChainImpl br (ref_repo c))
      end
  | Err e => (Err e, mkMetadataChainImpl br (ref_repo c))
  | Panic => (Panic, mkMetadataChainImpl br (ref_repo c))
  end.

Definition append (fuel : nat) c (block : MetadataBlock) (opts : AppendOpts)
    : option (res AppendError Multihash * MetadataChainImpl BR RR) :=
  let validated :=
    if decide (ao_validation opts = AppendValidation_Full)
    then validate_append fuel (meta_block_repo c) block
    else Some (Ok tt) in
  match validated with
  | None => None
  | Some v =>
      match (let! _ := v in append_check_ref (ref_repo c) block opts) with
      | Ok _ => Some (append_store c block opts)
      | Err e => Some (Err e, c)
      | Panic => Some (Panic, c)
      end
  end.

(** * The specification of the stored state *)

Definition head_hash l : option Multihash := option_map fst (head l).

(** Every block obeys the rules with respect to the blocks below it. *)
Inductive valid_chain : list HashedMetadataBlock -> Prop :=
| valid_nil : valid_chain []
| valid_cons h b l :
    mb_prev_block_hash b = head_hash l ->
    valid_next b l ->
    valid_chain l ->
    valid_chain ((h, b) :: l).

Definition head_is c (o : option Multihash) : Prop :=
  append_actual_ref (ref_repo c) BlockRef_Head = Ok o.

Record chain_state c l : Prop := {
  cs_head : head_is c (head_hash l);
  cs_linked : linked (meta_block_repo c) (head_hash l) l;
  cs_valid : valid_chain l
}.

(** The options under which the head is checked and moved: those of
    [AppendOpts::default()], with or without precomputed and expected hashes. *)
Record checked_opts (opts : AppendOpts) : Prop := {
  co_validation : ao_validation opts = AppendValidation_Full;
  co_update_ref : ao_update_ref opts = Some BlockRef_Head;
  co_prev_block : ao_check_ref_is_prev_block opts = true;
  co_ref_is : ao_check_ref_is opts = None;
  co_precomputed : forall p, ao_precomputed_hash opts = Some p -> Multihash_wf p
}.

Lemma head_is_resolve c h : head_is c (Some h) -> resolve_ref c BlockRef_Head = Ok h.
Proof.
  unfold head_is, append_actual_ref, resolve_ref.
  destruct (rr_get (ref_repo c) BlockRef_Head) as [|[]|]; congruence.
Qed.

(** What a traversal that starts at the head needs. *)
Lemma chain_state_head c l :
  chain_state c l -> l <> [] ->
  exists h, resolve_ref c BlockRef_Head = Ok h /\ head_hash l = Some h /\
    linked (meta_block_repo c) (Some h) l.
Proof.
  intros [Hh Hl _] Hne. destruct l as [|[h b] l]; [done|]. exists h.
  split; [by apply head_is_resolve|]. split; [done|]. exact Hl.
Qed.

(** * Validation of a block against a stored chain *)

Lemma validate_append_ok fuel r b l :
  linked r (mb_prev_block_hash b) l -> length l < fuel ->
  validate_append fuel r b = Some (Ok tt) <-> valid_next b l.
Proof.
  intros Hl Hf. rewrite <- validators_rules. unfold validate_append, validates.
  destruct (make_validators b) as [vs| |] eqn:Hm; [|split; [done|by intros (? & ? & _)]..].
  split.
  - intros H. exists vs. split; [done|].
    destruct (accept_by_interval fuel r vs (mb_prev_block_hash b) None) as [[vs'|[[]|]|]|] eqn:Ha;
      simplify_eq; try (by case_decide).
    apply (accept_by_interval_ok _ _ _ _ _ _ Hl Hf) in Ha.
    eapply Forall2_Forall_l; [exact Ha|]. apply Forall_true. intros v' v Hv. by exists v'.
  - intros (vs' & [= <-] & Hall).
    assert (exists vs', Forall2 (fun v v' => run_visitor l v = Ok v') vs vs') as [vs' H2].
    { clear Hm. induction Hall as [|v vs [v' Hv] _ [vs' IH]]; [by exists []|].
      exists (v' :: vs'). by constructor. }
    apply (accept_by_interval_ok _ _ _ _ _ _ Hl Hf) in H2. by rewrite H2.
Qed.

Lemma check_ref_ok c b opts l :
  checked_opts opts -> head_is c (head_hash l) ->
  append_check_ref (ref_repo c) b opts =
  if decide (mb_prev_block_hash b <> head_hash l)
  then Err (AppendError_RefCASFailed
              (mkRefCASError BlockRef_Head (mb_prev_block_hash b) (head_hash l)))
  else Ok tt.
Proof.
  intros [_ Hu Hp Hc _] Hh. unfold append_check_ref. rewrite Hu, Hp, Hc. simpl.
  unfold head_is in Hh. by rewrite Hh.
Qed.

Lemma append_store_ok c b opts h c' :
  ao_update_ref opts = Some BlockRef_Head ->
  append_store c b opts = (Ok h, c') <->
  exists br rr,
    insert_block (meta_block_repo c) b (append_insert_opts opts) = (Ok h, br) /\
    rr_set (ref_repo c) BlockRef_Head h = (Ok tt, rr) /\ c' = mkMetadataChainImpl br rr.
Proof.
  intros Hu. unfold append_store. rewrite Hu.
  destruct (insert_block _ _ _) as [[h'| |] br]; simpl;
    [|split; [by intros|by intros (? & ? & ? & _)]..].
  destruct (rr_set (ref_repo c) BlockRef_Head h') as [[[]| |] rr] eqn:Hr; simpl.
  - split; [intros; simplify_eq; eauto|]. intros (? & ? & ? & Hr' & ->). simplify_eq.
    rewrite Hr in Hr'. by simplify_eq.
  - split; [by intros|]. intros (? & ? & ? & Hr' & ->). simplify_eq. by rewrite Hr in Hr'.
  - split; [by intros|]. intros (? & ? & ? & Hr' & ->). simplify_eq. by rewrite Hr in Hr'.
Qed.

(** What a successful append means, and when an append succeeds. *)
Lemma append_ok_iff fuel c l b opts h c' :
  chain_state c l -> length l < fuel -> checked_opts opts ->
  append fuel c b opts = Some (Ok h, c') <->
  mb_prev_block_hash b = head_hash l /\ valid_next b l /\
  exists br rr,
    insert_block (meta_block_repo c) b (append_insert_opts opts) = (Ok h, br) /\
    rr_set (ref_repo c) BlockRef_Head h = (Ok tt, rr) /\ c' = mkMetadataChainImpl br rr.
Proof.
  intros Hst Hf Ho. rewrite <- append_store_ok by apply Ho.
  unfold append. rewrite decide_True by apply Ho.
  rewrite (check_ref_ok c b opts l Ho (cs_head _ _ Hst)).
  destruct (decide (mb_prev_block_hash b = head_hash l)) as [Hp|Hp].
  - pose proof (cs_linked _ _ Hst) as Hl. rewrite <- Hp in Hl.
    rewrite <- (validate_append_ok _ _ _ _ Hl Hf). rewrite decide_False by tauto.
    destruct (validate_append fuel (meta_block_repo c) b) as [[[]| |]|]; cbn [res_bind];
      (split; [intros [= H]|intros (_ & Hv & H)]; try done; by rewrite H).
  - rewrite decide_True by done. split; [|by intros []].
    by destruct (validate_append fuel (meta_block_repo c) b) as [[[]| |]|].
Qed.

(** A block that is appended on top of a chain is not one of its blocks, as
    long as equal hashes mean equal blocks. *)
Lemma appended_fresh r b l h :
  linked r (mb_prev_block_hash b) l ->
  (forall b', (h, b') ∈ l -> b' = b) -> h ∉ l.*1.
Proof.
  intros Hl Hcol ([h' b'] & -> & Hin)%list_elem_of_fmap. simpl in *.
  rewrite (Hcol _ Hin) in Hin.
  apply list_elem_of_split in Hin as (l1 & l2 & ->).
  pose proof (linked_app _ _ _ _ _ _ Hl) as Hl2.
  inversion Hl2 as [|? ? ? _ Hl3]; subst.
  pose proof (linked_unique _ _ _ _ Hl Hl3) as Heq. apply (f_equal length) in Heq.
  rewrite length_app in Heq. simpl in Heq. lia.
Qed.

(** [append] extends the stored chain. *)
Lemma append_extends `{!LawfulBlockRepo BR, !LawfulRefRepo RR} fuel c l b opts h c' :
  chain_state c l -> length l < fuel -> checked_opts opts ->
  (forall b', (h, b') ∈ l -> b' = b) ->
  append fuel c b opts = Some (Ok h, c') ->
  chain_state c' ((h, b) :: l) /\ h ∉ l.*1.
Proof.
  intros Hst Hf Ho Hcol Ha.
  apply (append_ok_iff _ _ _ _ _ _ _ Hst Hf Ho) in Ha as (Hp & Hv & br & rr & Hi & Hr & ->).
  pose proof (cs_linked _ _ Hst) as Hl. rewrite <- Hp in Hl.
  assert (Hfresh : h ∉ l.*1) by eauto using appended_fresh.
  split; [|done]. split; simpl.
  - unfold head_is, append_actual_ref; simpl.
    assert (Hwf : Multihash_wf h).
    { eapply (insert_hash_wf _ _ (append_insert_opts opts)); [apply Ho|exact Hi]. }
    by rewrite (rr_set_get _ _ _ _ Hwf Hr).
  - constructor; [by eapply insert_get|].
    eapply linked_frame; [exact Hl| |].
    + intros h' Hne. by eapply insert_frame.
    + intros b' Hin. exfalso. apply Hfresh. apply list_elem_of_fmap. by exists (h, b').
  - constructor; [done|done|apply Hst].
Qed.

(** * Failures *)

(** A failed append moves no reference; at most it leaves an unreferenced
    block behind, when the block was stored and then setting the reference
    failed. *)
Lemma append_failed_frame `{!LawfulBlockRepo BR, !LawfulRefRepo RR} fuel c b opts x c' :
  append fuel c b opts = Some (x, c') -> is_ok x = false ->
  ref_repo c' = ref_repo c /\
  (meta_block_repo c' = meta_block_repo c \/
   exists h ref, insert_block (meta_block_repo c) b (append_insert_opts opts)
                   = (Ok h, meta_block_repo c') /\
     ao_update_ref opts = Some ref /\ is_ok (rr_set (ref_repo c) ref h).1 = false).
Proof.
  unfold append. intros H Hx. destruct (if decide _ then _ else _) as [v|]; [|done].
  destruct (let! _ := v in _) as [[]| |]; simplify_eq; auto.
  unfold append_store in H.
  destruct (insert_block _ _ _) as [[h| |] br] eqn:Hi; simpl in H.
  - destruct (ao_update_ref opts) as [ref|] eqn:Hu; [|by simplify_eq].
    destruct (rr_set (ref_repo c) ref h) as [y rr] eqn:Hr.
    destruct y as [[]| |]; simpl in H; simplify_eq; simpl;
      (split; [by eapply rr_set_failed|right; exists h, ref; by rewrite Hr]).
  - simplify_eq; simpl. split; [done|left]. by eapply insert_failed.
  - simplify_eq; simpl. split; [done|left]. by eapply insert_failed.
Qed.

(** A stale writer is refused. *)
Lemma append_stale fuel c l b opts :
  chain_state c l -> checked_opts opts -> mb_prev_block_hash b <> head_hash l ->
  forall h c', append fuel c b opts <> Some (Ok h, c').
Proof.
  intros Hst Ho Hp h c'. unfold append. rewrite decide_True by apply Ho.
  rewrite (check_ref_ok c b opts l Ho (cs_head _ _ Hst)). rewrite decide_True by done.
  by destruct (validate_append fuel (meta_block_repo c) b) as [[[]| |]|].
Qed.

(** Once a block is appended, a valid block on top of the same predecessor is
    refused by the comparison of the reference. *)
Lemma append_second_refused `{!LawfulBlockRepo BR, !LawfulRefRepo RR} fuel c l b1 b2 opts1 opts2 h c' :
  chain_state c l -> length l < fuel -> checked_opts opts1 -> checked_opts opts2 ->
  (forall b', (h, b') ∈ l -> b' = b1) ->
  append fuel c b1 opts1 = Some (Ok h, c') ->
  mb_prev_block_hash b2 = head_hash l -> valid_next b2 l ->
  append fuel c' b2 opts2 =
  Some (Err (AppendError_RefCASFailed (mkRefCASError BlockRef_Head (head_hash l) (Some h))), c').
Proof.
  intros Hst Hf Ho1 Ho2 Hcol Ha Hp Hv.
  destruct (append_extends _ _ _ _ _ _ _ Hst Hf Ho1 Hcol Ha) as [Hst' Hfresh].
  unfold append. rewrite decide_True by apply Ho2.
  assert (Hl : linked (meta_block_repo c') (mb_prev_block_hash b2) l).
  { rewrite Hp. pose proof (cs_linked _ _ Hst') as H. simpl in H.
    inversion H as [|? ? ? _ Hl]; subst. pose proof (cs_valid _ _ Hst') as Hvc.
    inversion Hvc as [|? ? ? Heq]; subst. by rewrite Heq in Hl. }
  rewrite (proj2 (validate_append_ok _ _ _ _ Hl Hf) Hv). cbn [res_bind].
  rewrite (check_ref_ok c' b2 opts2 _ Ho2 (cs_head _ _ Hst')). rewrite Hp. simpl.
  rewrite decide_True; [done|]. intros Heq. destruct l as [|[h0 b0] l]; [done|].
  simpl in Heq. simplify_eq. apply Hfresh. left.
Qed.

Lemma append_prev_not_found fuel c b opts p vs :
  mb_prev_block_hash b = Some p ->
  get_block (meta_block_repo c) p = Err (GetBlockError_NotFound (mkBlockNotFoundError p)) ->
  make_validators b = Ok vs -> ao_validation opts = AppendValidation_Full ->
  append (S fuel) c b opts =
  Some (Err (AppendError_InvalidBlock
               (AppendValidationError_PrevBlockNotFound (mkBlockNotFoundError p))), c).
Proof.
  intros Hp Hg Hm Ho. unfold append. rewrite decide_True by done.
  unfold validate_append. rewrite Hm, Hp. unfold accept_by_interval. simpl. rewrite Hg. simpl.
  by rewrite decide_True.
Qed.

(** * Appending always returns *)

Lemma valid_chain_resolved l : valid_chain l -> transforms_resolved l.
Proof.
  induction 1 as [|h b l _ Hv _ IH]; intros hb t i Hin Hev Hi; [by apply elem_of_nil in Hin|].
  apply elem_of_cons in Hin as [->|Hin]; [|by eapply IH]. simpl in Hev.
  destruct (vn_set_transform _ _ Hv _ Hev) as (_ & Hall & _).
  by apply (proj1 (Forall_forall _ _) Hall _ Hi).
Qed.

Lemma valid_chain_app l1 l2 : valid_chain (l1 ++ l2) -> valid_chain l2.
Proof. induction l1 as [|hb l1 IH]; simpl; [done|]. inversion 1; subst; auto. Qed.

Lemma linked_suffix r l1 l2 :
  linked r (head_hash (l1 ++ l2)) (l1 ++ l2) -> linked r (head_hash l2) l2.
Proof.
  intros H. destruct l2 as [|[h b] l2]; [constructor|]. by eapply linked_app in H.
Qed.

Lemma validate_append_total fuel r b l :
  linked r (mb_prev_block_hash b) l -> length l < fuel -> transforms_resolved l -> supported b ->
  exists x, validate_append fuel r b = Some x /\ x <> Panic.
Proof.
  intros Hl Hf Hres Hs. unfold validate_append.
  destruct (make_validators b) as [vs| |] eqn:Hm; [|eauto|by apply make_validators_panic in Hm].
  destruct (accept_by_interval_total _ _ _ _ vs Hl Hf) as (x & -> & _ & Hpanic).
  destruct x as [vs'|[[]|]|]; try case_decide; eauto.
  destruct (Hpanic eq_refl) as (v & Hv & Hrun). by apply (validators_no_panic b l vs v) in Hrun.
Qed.

(** An append on top of any block of a stored chain, or as a first block,
    returns and does not panic, unless it disables a source. *)
Lemma append_total `{!LawfulBlockRepo BR, !LawfulRefRepo RR} fuel c l1 l2 b opts :
  chain_state c (l1 ++ l2) -> length l2 < fuel -> checked_opts opts ->
  mb_prev_block_hash b = head_hash l2 -> supported b ->
  exists x c', append fuel c b opts = Some (x, c') /\ x <> Panic.
Proof.
  intros Hst Hf Ho Hp Hs. unfold append. rewrite decide_True by apply Ho.
  destruct (validate_append_total fuel (meta_block_repo c) b l2) as (x & -> & Hx); try done.
  { rewrite Hp. eapply linked_suffix, Hst. }
  { eapply valid_chain_resolved, valid_chain_app, Hst. }
  rewrite (check_ref_ok c b opts _ Ho (cs_head _ _ Hst)).
  destruct x as [[]| |]; cbn [res_bind]; [|eauto|done].
  case_decide; [eauto|]. destruct (append_store c b opts) as [y c'] eqn:Hst'.
  exists y, c'. split; [done|]. intros ->. revert Hst'. unfold append_store.
  destruct (insert_block (meta_block_repo c) b (append_insert_opts opts)) as [z br] eqn:Hi.
  pose proof (insert_no_panic (meta_block_repo c) b (append_insert_opts opts)) as Hip.
  rewrite Hi in Hip. destruct z as [h| |]; simpl; [|done..].
  rewrite (co_update_ref _ Ho).
  pose proof (rr_set_no_panic (ref_repo c) BlockRef_Head h) as Hrp.
  by destruct (rr_set (ref_repo c) BlockRef_Head h) as [[[]| |] rr].
Qed.

(** Whatever the block and the options, the traversal ends. *)
Lemma append_some fuel c l b opts :
  linked (meta_block_repo c) (mb_prev_block_hash b) l -> length l < fuel ->
  exists x c', append fuel c b opts = Some (x, c').
Proof.
  intros Hl Hf. unfold append.
  assert (Hv : exists v, (if decide (ao_validation opts = AppendValidation_Full)
            then validate_append fuel (meta_block_repo c) b else Some (Ok tt)) = Some v).
  { case_decide; [|by eexists]. unfold validate_append.
    destruct (make_validators b) as [vs| |]; [|by eexists..].
    destruct (accept_by_interval_total _ _ _ _ vs Hl Hf) as (x & -> & _).
    destruct x as [vs'|[[]|]|]; try case_decide; eauto. }
  destruct Hv as [v ->]. destruct (let! _ := v in _); [|eauto..].
  destruct (append_store c b opts). eauto.
Qed.

(** More fuel does not change a result. *)
Lemma accept_loop_mono {E V} `{!MetadataChainVisitor E V} f f' r o t (dvs : list (_ * V)) fin x :
  accept_loop f r o t dvs fin = Some x -> f <= f' -> accept_loop f' r o t dvs fin = Some x.
Proof.
  revert f' o dvs fin; induction f as [|f IH]; intros [|f'] o dvs fin H Hle; try done; [lia|].
  simpl in *. destruct o as [h|]; [|done]. destruct fin; [done|]. case_decide; [done|].
  destruct (get_block r h); [|done..].
  destruct (visit_all _ dvs) as [[n dvs']| |]; [|done..]. apply IH; [done|lia].
Qed.

Lemma append_mono f f' c b opts x :
  append f c b opts = Some x -> f <= f' -> append f' c b opts = Some x.
Proof.
  unfold append, validate_append, accept_by_interval. intros H Hle. case_decide; [|done].
  destruct (make_validators b) as [vs| |]; [|done..].
  destruct (accept_loop f _ _ _ _ _) eqn:Ha; [|done].
  by rewrite (accept_loop_mono _ _ _ _ _ _ _ _ Ha Hle).
Qed.

(** * Moving the head back *)

(** Resetting the head to a block of the chain keeps what is below it. *)
Lemma set_ref_reset `{!LawfulRefRepo RR} c l1 h b l2 opts c' :
  chain_state c (l1 ++ (h, b) :: l2) -> Multihash_wf h ->
  set_ref c BlockRef_Head h opts = (Ok tt, c') ->
  chain_state c' ((h, b) :: l2).
Proof.
  intros Hst Hwf. unfold set_ref.
  destruct (let! _ := _ in _) as [[]| |]; [|done..].
  destruct (rr_set (ref_repo c) BlockRef_Head h) as [[[]| |] rr] eqn:Hr; simpl; [|done..].
  intros [= <-]. split.
  - unfold head_is, append_actual_ref; simpl. by rewrite (rr_set_get _ _ _ _ Hwf Hr).
  - simpl. eapply (linked_suffix _ l1), Hst.
  - eapply valid_chain_app, Hst.
Qed.

(** * Reachable states *)

(** Equal hashes mean equal blocks: the hash the store gives to the block is
    free, or it is the hash of that very block. *)
Definition no_collision c b opts : Prop :=
  forall h b', (insert_block (meta_block_repo c) b (append_insert_opts opts)).1 = Ok h ->
    get_block (meta_block_repo c) h = Ok b' -> b' = b.

Inductive chain_step c : MetadataChainImpl BR RR -> Prop :=
| step_append fuel b opts x c' :
    checked_opts opts -> no_collision c b opts ->
    append fuel c b opts = Some (x, c') -> chain_step c c'
| step_reset l1 h b l2 opts c' :
    linked (meta_block_repo c) (head_hash (l1 ++ (h, b) :: l2)) (l1 ++ (h, b) :: l2) ->
    head_is c (head_hash (l1 ++ (h, b) :: l2)) -> Multihash_wf h ->
    set_ref c BlockRef_Head h opts = (Ok tt, c') -> chain_step c c'.

Lemma chain_state_unique c l1 l2 :
  chain_state c l1 ->
  linked (meta_block_repo c) (head_hash l2) l2 -> head_is c (head_hash l2) -> l1 = l2.
Proof.
  intros Hst Hl Hh. pose proof (cs_head _ _ Hst) as Hh1. unfold head_is in *.
  assert (Heq : head_hash l1 = head_hash l2) by congruence.
  eapply linked_unique; [apply Hst|]. by rewrite Heq.
Qed.

(** A failed append leaves the stored chain as it was. *)
Lemma append_failed_state `{!LawfulBlockRepo BR, !LawfulRefRepo RR} fuel c l b opts x c' :
  chain_state c l -> no_collision c b opts ->
  append fuel c b opts = Some (x, c') -> is_ok x = false -> chain_state c' l.
Proof.
  intros Hst Hcol Ha Hx. destruct (append_failed_frame _ _ _ _ _ _ Ha Hx) as (Hr & Hb).
  split; [unfold head_is; rewrite Hr; apply Hst| |apply Hst].
  destruct Hb as [->|(h & ref & Hi & _)]; [apply Hst|].
  eapply linked_frame; [apply Hst|intros; by eapply insert_frame|].
  intros b' Hin. apply (linked_lookup _ _ _ _ _ (cs_linked _ _ Hst)) in Hin.
  rewrite (Hcol h b'); [by eapply insert_get|by rewrite Hi|done].
Qed.

Lemma chain_step_preserves `{!LawfulBlockRepo BR, !LawfulRefRepo RR} c c' l :
  chain_state c l -> chain_step c c' -> exists l', chain_state c' l'.
Proof.
  intros Hst [fuel b opts x c1 Ho Hcol Ha | l1 h b l2 opts c1 Hl Hh Hwf Hset].
  - destruct (is_ok x) eqn:Hx; [|by eauto using append_failed_state].
    destruct x as [h| |]; [|done..].
    apply (append_mono _ (fuel + S (length l))) in Ha; [|lia].
    assert (Hcol' : forall b', (h, b') ∈ l -> b' = b).
    { intros b' Hin. apply (linked_lookup _ _ _ _ _ (cs_linked _ _ Hst)) in Hin.
      apply (append_ok_iff _ _ _ _ _ _ _ Hst) in Ha as (_ & _ & br & rr & Hi & _);
        [|lia|done]. eapply Hcol; [|done]. by rewrite Hi. }
    eexists. eapply (append_extends (fuel + S (length l))); try done. lia.
  - pose proof (chain_state_unique _ _ _ Hst Hl Hh) as ->.
    eexists. by eapply set_ref_reset.
Qed.

(** The states a chain goes through, from an empty one. *)
Inductive reachable : MetadataChainImpl BR RR -> Prop :=
| reachable_new c : head_is c None -> reachable c
| reachable_step c c' : reachable c -> chain_step c c' -> reachable c'.

Lemma reachable_chain_state `{!LawfulBlockRepo BR, !LawfulRefRepo RR} c :
  reachable c -> exists l, chain_state c l.
Proof.
  induction 1 as [c Hh|c c' _ [l Hst] Hstep]; [|by eapply chain_step_preserves].
  exists []. split; [done|constructor..].
Qed.
End Append.

(** A decision procedure for [valid_chain]. *)
Fixpoint valid_chain_b (l : list HashedMetadataBlock) : bool :=
  match l with
  | [] => true
  | hb :: l' =>
      bool_decide (mb_prev_block_hash hb.2 = head_hash l') && validates_b hb.2 l' && valid_chain_b l'
  end.

Lemma valid_chain_b_sound l : valid_chain_b l = true -> valid_chain l.
Proof.
  induction l as [|[h b] l IH]; simpl; [constructor|].
  rewrite !andb_true_iff, bool_decide_eq_true, validates_b_spec. intros [[? ?] ?].
  constructor; auto.
Qed.

#[export] Hint Constructors valid_chain : kamu.
#[export] Hint Resolve valid_chain_app valid_chain_resolved : kamu.
