(* ===== verification/ChainInvariants.v ===== *)
(** What holds of a whole chain when every block was validated on top of the
    blocks below it.

    The validators of metadata_chain_validators.rs look at a block and, at most,
    at the closest relevant blocks below it.  These lemmas lift such local
    checks to statements about all blocks of a chain [l], newest first; the
    blocks below a block of [l1 ++ hb :: l2] are those of [l2]. *)

From S2P Require Import Prelude Multiformats Identity Dtos ChainRepos MetadataChain ChainVisitors.
From S2P Require Import ChainComparator ChainValidators ChainRules ChainAppend.

Lemma valid_chain_inv h b l :
  valid_chain ((h, b) :: l) ->
  mb_prev_block_hash b = head_hash l /\ valid_next b l /\ valid_chain l.
Proof. by inversion 1. Qed.

Lemma valid_chain_at l1 hb l2 :
  valid_chain (l1 ++ hb :: l2) ->
  mb_prev_block_hash hb.2 = head_hash l2 /\ valid_next hb.2 l2 /\ valid_chain l2.
Proof. intros H%valid_chain_app. destruct hb. by apply valid_chain_inv in H. Qed.

(** ** Order *)

(** The sequence number of a block is the number of blocks below it. *)
Lemma sequence_number_position l1 hb l2 :
  valid_chain (l1 ++ hb :: l2) -> (forall x, x ∈ hb :: l2 -> in_u64 (mb_sequence_number x.2)) ->
  mb_sequence_number hb.2 = (Z.of_nat (length l2) mod two64)%Z.
Proof.
  intros H%valid_chain_app. clear l1. revert hb H; induction l2 as [|hb' l2 IH]; intros hb H Hr.
  - destruct hb as [h b]. apply valid_chain_inv in H as (Hp & Hv & _).
    destruct (vn_sequence _ _ Hv) as [Hs _]. simpl. by rewrite Hs.
  - destruct hb as [h b]. apply valid_chain_inv in H as (Hp & Hv & Hl).
    destruct (vn_sequence _ _ Hv) as [_ Hs]. specialize (Hs _ eq_refl).
    rewrite (IH hb') in Hs; [|done|intros; apply Hr; by right].
    pose proof (Hr (h, b) ltac:(left)) as Hb. simpl in *. unfold in_u64, u64_sub in *.
    rewrite Nat2Z.inj_succ, <- Z.add_1_r.
    rewrite <- Zplus_mod_idemp_l, Hs, Zplus_mod_idemp_l.
    rewrite Z.sub_add. symmetry. by apply Z.mod_small.
Qed.

Lemma valid_positions l :
  valid_chain l -> (forall x, x ∈ l -> in_u64 (mb_sequence_number x.2)) ->
  (Z.of_nat (length l) < two64)%Z -> positions l.
Proof.
  intros Hv Hu Hw l1 hb l2 ->. rewrite length_app in Hw. simpl in Hw.
  rewrite (sequence_number_position l1 hb l2 Hv).
  - apply Z.mod_small. lia.
  - intros x Hx. apply Hu. apply elem_of_app. by right.
Qed.

(** A chain starts with its only [Seed]. *)
Lemma seed_is_first l1 hb l2 :
  valid_chain (l1 ++ hb :: l2) -> is_seed (mb_event hb.2) <-> l2 = [].
Proof.
  intros (Hp & Hv & _)%valid_chain_at. pose proof (vn_seed _ _ Hv) as Hs.
  unfold seed_rule in Hs. rewrite Hs, Hp. by destruct l2 as [|[]].
Qed.

Lemma system_time_order l1 hb l2 hb' :
  valid_chain (l1 ++ hb :: l2) -> hb' ∈ l2 -> (mb_system_time hb'.2 <= mb_system_time hb.2)%Z.
Proof.
  intros H%valid_chain_app. clear l1. revert hb H; induction l2 as [|hb2 l2 IH]; intros hb H Hin;
    [by apply elem_of_nil in Hin|].
  destruct hb as [h b]. apply valid_chain_inv in H as (_ & Hv & Hl).
  pose proof (vn_system_time _ _ Hv _ eq_refl) as Ht. simpl in *.
  apply elem_of_cons in Hin as [->|Hin]; [done|].
  pose proof (IH _ Hl Hin). lia.
Qed.

(** ** Watermarks *)

#[export] Instance watermark_le_trans : Transitive watermark_le.
Proof. intros [a|] [b|] [c|]; simpl; try done; lia. Qed.

#[export] Instance watermark_le_refl : Reflexive watermark_le.
Proof. intros [a|]; simpl; [lia|done]. Qed.

(** The watermark the latest data block carries bounds all earlier ones. *)
Lemma latest_watermark_bound l p hb d :
  valid_chain l -> latest_data l = Some p -> hb ∈ l -> as_data_stream_event (mb_event hb.2) = Some d ->
  watermark_le (mds_new_watermark d) (mds_new_watermark p).
Proof.
  intros Hl; revert p; induction Hl as [|h b l _ Hv _ IH]; intros p Hp Hin Hd;
    [by apply elem_of_nil in Hin|].
  unfold latest_data in Hp. simpl in Hp.
  destruct (as_data_stream_event (mb_event b)) as [x|] eqn:Hx.
  - simplify_eq. apply elem_of_cons in Hin as [->|Hin]; [simpl in Hd; by simplify_eq|].
    destruct (latest_data l) as [q|] eqn:Hq.
    + etrans; [by apply (IH q)|]. by eapply vn_watermark.
    + unfold latest_data in Hq. rewrite (proj1 (find_map_None _ _) Hq _ Hin) in Hd. done.
  - apply elem_of_cons in Hin as [->|Hin]; [simpl in Hd; congruence|]. eauto.
Qed.

Lemma watermark_order l1 hb l2 hb' d d' :
  valid_chain (l1 ++ hb :: l2) -> hb' ∈ l2 ->
  as_data_stream_event (mb_event hb.2) = Some d ->
  as_data_stream_event (mb_event hb'.2) = Some d' ->
  watermark_le (mds_new_watermark d') (mds_new_watermark d).
Proof.
  intros H%valid_chain_app Hin Hd Hd'.
  apply (latest_watermark_bound (hb :: l2) d hb' d'); try done; [|by right].
  unfold latest_data. simpl. by rewrite Hd.
Qed.

(** ** Offsets *)

(** The records of a slice, as the code counts them. *)
Definition event_records (e : MetadataEvent) : Z :=
  match as_data_stream_event e ≫= mds_new_data with
  | Some n => DataSlice_num_records n
  | None => 0%Z
  end.

Fixpoint records (l : list HashedMetadataBlock) : Z :=
  match l with
  | [] => 0
  | hb :: l' => records l' + event_records (mb_event hb.2)
  end%Z.

(** Offsets fit in 64 bits, with room for the next one, and the first data
    block carries no previous offset. *)
Record offsets_wf (l : list HashedMetadataBlock) : Prop := {
  ow_range : forall hb d n, hb ∈ l -> as_data_stream_event (mb_event hb.2) = Some d ->
    mds_new_data d = Some n ->
    (0 <= oi_start (ds_offset_interval n))%Z /\ (oi_end (ds_offset_interval n) < two64 - 1)%Z;
  ow_first : forall l1 hb l2 d, l = l1 ++ hb :: l2 -> latest_data l2 = None ->
    as_data_stream_event (mb_event hb.2) = Some d -> mds_prev_offset d = None
}.

Lemma offsets_wf_tail hb l : offsets_wf (hb :: l) -> offsets_wf l.
Proof.
  intros [H1 H2]. split.
  - intros; eapply H1; [by right|done..].
  - intros l1 hb' l2 d -> Hn Hd. by apply (H2 (hb :: l1) hb' l2 d).
Qed.

(** The last offset when [n] records were written. *)
Definition last_of_count (n : Z) : option u64 :=
  if decide (n = 0%Z) then None else Some (n - 1)%Z.

Definition chain_last_offset (l : list HashedMetadataBlock) : option u64 :=
  latest_data l ≫= MetadataEventDataStream_last_offset.

Lemma slice_count n :
  (0 <= oi_start (ds_offset_interval n))%Z ->
  (oi_start (ds_offset_interval n) <= oi_end (ds_offset_interval n) < two64 - 1)%Z ->
  DataSlice_num_records n =
  (oi_end (ds_offset_interval n) - oi_start (ds_offset_interval n) + 1)%Z.
Proof.
  intros H0 H1. unfold DataSlice_num_records.
  rewrite u64_sub_small, u64_add_small; unfold in_u64; lia.
Qed.

(** The carried offset of a data block is the last offset of the chain below. *)
Lemma carried_offset h b l d :
  valid_chain ((h, b) :: l) -> offsets_wf ((h, b) :: l) ->
  as_data_stream_event (mb_event b) = Some d -> mds_prev_offset d = chain_last_offset l.
Proof.
  intros (_ & Hv & _)%valid_chain_inv Hw Hd. unfold chain_last_offset.
  destruct (latest_data l) as [p|] eqn:Hp; simpl.
  - by apply (vn_offsets _ _ Hv _ Hd).
  - by apply (ow_first _ Hw [] (h, b) l).
Qed.

Lemma offsets_count l :
  valid_chain l -> offsets_wf l ->
  (0 <= records l < two64)%Z /\ chain_last_offset l = last_of_count (records l).
Proof.
  intros Hl; induction Hl as [|h b l Hp Hv Hl IH]; intros Hw; [done|].
  destruct (IH (offsets_wf_tail _ _ Hw)) as [Hr Hlast].
  assert (Hvc : valid_chain ((h, b) :: l)) by by constructor.
  unfold chain_last_offset, latest_data in *. simpl. unfold event_records.
  destruct (as_data_stream_event (mb_event b)) as [d|] eqn:Hd; simpl; [|by rewrite Z.add_0_r].
  pose proof (carried_offset _ _ _ _ Hvc Hw Hd) as Hc.
  unfold chain_last_offset, latest_data in Hc. rewrite Hlast in Hc.
  unfold MetadataEventDataStream_last_offset.
  destruct (mds_new_data d) as [n|] eqn:Hn; simpl; [|by rewrite Z.add_0_r].
  destruct (vn_offsets _ _ Hv _ Hd) as [Hs _]. destruct (Hs _ Hn) as [Hst Hle].
  destruct (ow_range _ Hw (h, b) d n ltac:(left) Hd Hn) as [H0 Hend].
  rewrite slice_count by lia. rewrite Hc in Hst. unfold last_of_count in *.
  assert (oi_start (ds_offset_interval n) = records l) as ->.
  { case_decide as Hz; [lia|]. rewrite Hst. unfold u64_add. rewrite Z.sub_add.
    apply Z.mod_small. lia. }
  split; [lia|]. rewrite decide_False by lia. f_equal. lia.
Qed.

(** A slice covers exactly the offsets behind the records written before it. *)
Lemma slice_position l1 hb l2 d n :
  valid_chain (l1 ++ hb :: l2) -> offsets_wf (hb :: l2) ->
  as_data_stream_event (mb_event hb.2) = Some d -> mds_new_data d = Some n ->
  oi_start (ds_offset_interval n) = records l2 /\
  oi_end (ds_offset_interval n) = (records (hb :: l2) - 1)%Z.
Proof.
  intros H%valid_chain_app Hw Hd Hn. destruct hb as [h b].
  destruct (offsets_count _ H Hw) as [_ Hlast].
  apply valid_chain_inv in H as H'. destruct H' as (_ & Hv & Hl).
  destruct (offsets_count _ Hl (offsets_wf_tail _ _ Hw)) as [Hr Hlast2].
  destruct (vn_offsets _ _ Hv _ Hd) as [Hs _]. destruct (Hs _ Hn) as [Hst Hle].
  destruct (ow_range _ Hw (h, b) d n ltac:(left) Hd Hn) as [H0 Hend].
  split.
  - rewrite Hst, (carried_offset _ _ _ _ H Hw Hd), Hlast2. unfold last_of_count.
    case_decide as Hz; [lia|]. unfold u64_add. rewrite Z.sub_add.
    apply Z.mod_small. lia.
  - revert Hlast. unfold chain_last_offset, latest_data. simpl in *. rewrite Hd; simpl.
    unfold MetadataEventDataStream_last_offset. rewrite Hn; simpl. unfold last_of_count.
    case_decide; congruence.
Qed.

(** ** Sources, schemas and transforms *)

Lemma latest_None (T : Type) `{!VariantOf T} l :
  latest T l = None <-> forall hb, hb ∈ l -> into_variant (T := T) (mb_event hb.2) = None.
Proof. unfold latest. by rewrite find_map_None. Qed.

(** A dataset has push sources or a polling source, never both. *)
Lemma sources_exclusive l hb hb' e e' :
  valid_chain l -> hb ∈ l -> hb' ∈ l ->
  mb_event hb.2 = MetadataEvent_AddPushSource e ->
  mb_event hb'.2 = MetadataEvent_SetPollingSource e' -> False.
Proof.
  intros Hl; induction Hl as [|h b l _ Hv _ IH]; intros Hin Hin' He He';
    [by apply elem_of_nil in Hin|].
  apply elem_of_cons in Hin as [->|Hin]; apply elem_of_cons in Hin' as [->|Hin']; simpl in *;
    [congruence|..|auto].
  - destruct (vn_push_source _ _ Hv _ He) as [_ Hn].
    rewrite latest_None in Hn. specialize (Hn _ Hin'). simpl in Hn. by rewrite He' in Hn.
  - destruct (vn_polling_source _ _ Hv _ He') as (_ & _ & Hn).
    rewrite latest_None in Hn. specialize (Hn _ Hin). simpl in Hn. by rewrite He in Hn.
Qed.

(** A search by variant returns an event of the chain. *)
Lemma latest_Some (T : Type) `{!VariantOf T} l t :
  latest T l = Some t -> exists hb, hb ∈ l /\ into_variant (mb_event hb.2) = Some t.
Proof.
  intros (l1 & hb & l2 & -> & Hhb & _)%find_map_Some. exists hb. split; [set_solver|done].
Qed.

Lemma schema_before_data l1 hb l2 d n :
  valid_chain (l1 ++ hb :: l2) ->
  as_data_stream_event (mb_event hb.2) = Some d -> mds_new_data d = Some n ->
  exists hb' s, hb' ∈ l2 /\ mb_event hb'.2 = MetadataEvent_SetDataSchema s.
Proof.
  intros (_ & Hv & _)%valid_chain_at Hd Hn.
  assert (is_Some (latest SetDataSchema l2)) as [s Hs].
  { destruct (mb_event hb.2) eqn:Hev; simpl in *; simplify_eq; simpl in *.
    - apply (vn_add_data _ _ Hv _ Hev). by exists n.
    - apply (vn_execute_transform _ _ Hv _ Hev). by exists n. }
  apply latest_Some in Hs as (hb' & Hin & Hs). exists hb', s. split; [done|].
  simpl in Hs. destruct (mb_event hb'.2); by simplify_eq.
Qed.

(** The bounded search for a transform returns the latest one; it gives up
    only when the latest query is more recent than every transform. *)
Lemma find_transform_spec s q l :
  match find_transform s q l with
  | Some t => latest SetTransform l = Some t
  | None =>
      latest SetTransform l = None \/ q = true \/
      exists l1 hb l2 e, l = l1 ++ hb :: l2 /\ mb_event hb.2 = MetadataEvent_ExecuteTransform e /\
        latest SetTransform l1 = None /\ latest ExecuteTransform l1 = None
  end.
Proof.
  revert s q; induction l as [|hb l IH]; intros s q.
  { destruct s, q; simpl; auto. }
  destruct q; [destruct (find_transform s true (hb :: l)) eqn:Hf; [|auto]|].
  - revert Hf. unfold latest. simpl. destruct s; [done|].
    destruct (mb_event hb.2); simpl; try done; intros Hf;
      match type of Hf with find_transform ?s ?q _ = Some _ => specialize (IH s q) end;
      by rewrite Hf in IH.
  - simpl. rewrite andb_false_r. unfold latest in *. simpl.
    destruct (mb_event hb.2) eqn:Hev; simpl; try done;
      [|pose proof (IH s true) as IH'; destruct (find_transform s true l); [done|];
        right; right; exists [], hb, l, v; by rewrite Hev|..];
      match goal with |- context [find_transform ?s false ?l] =>
        pose proof (IH s false) as IH'; destruct (find_transform s false l); [done|] end;
      (destruct IH' as [?|[?|(l1 & hb' & l2 & e & -> & He & H1 & H2)]]; [by auto|done|]);
      right; right; exists (hb :: l1), hb', l2, e; simpl; by rewrite Hev.
Qed.

(** Every query reads exactly the inputs the transform in force declares. *)
Lemma query_inputs_declared l1 hb l2 e :
  valid_chain (l1 ++ hb :: l2) -> mb_event hb.2 = MetadataEvent_ExecuteTransform e ->
  exists t, latest SetTransform l2 = Some t /\ map Some (query_ids e) = declared_ids t.
Proof.
  intros H%valid_chain_app. clear l1. remember (length l2) as n eqn:Hn.
  revert hb l2 e Hn H; induction n as [n IH] using lt_wf_ind; intros hb l2 e -> H He.
  apply (valid_chain_at []) in H as (_ & Hv & Hl).
  destruct (vn_execute_transform _ _ Hv _ He) as (_ & Hord & _).
  pose proof (find_transform_spec false false l2) as Hft.
  destruct (find_transform false false l2) as [t|]; simpl in Hord; [by exists t|].
  destruct (latest ExecuteTransform l2) as [q|] eqn:Hq; [|done].
  apply find_map_Some in Hq as (la & hq & lb & -> & Hhq & Hla).
  assert (Heq : mb_event hq.2 = MetadataEvent_ExecuteTransform q).
  { simpl in Hhq. destruct (mb_event hq.2); by simplify_eq. }
  destruct (IH (length lb) ltac:(rewrite length_app; simpl; lia) hq lb q eq_refl) as (t & Ht & Hids);
    [by eapply valid_chain_app|done|].
  exists t. rewrite Hord. split; [|done].
  assert (latest SetTransform la = None) as Hta.
  { destruct Hft as [Hn|[?|(l1 & hb' & l3 & e' & Heql & He' & Ht1 & Hq1)]]; [|done|].
    - unfold latest in *. rewrite find_map_app in Hn. by destruct (find_map (event_of SetTransform) la).
    - assert (la = l1) as ->; [|done].
      eapply (find_map_split_unique (event_of ExecuteTransform)); [exact Heql|..]; try done;
        simpl; [by rewrite Heq|by rewrite He']. }
  unfold latest in *. rewrite find_map_app, Hta. simpl. by rewrite Heq.
Qed.
