(* ===== verification/ChainExample.v ===== *)
(** Small concrete chains: a root dataset that ingested two slices, and a
    derivative dataset that ran its query twice.

    The byte formats, which belong to third-party crates, are instantiated by a
    codec that keeps a block as it is and takes its sequence number for a
    digest; it satisfies [CodecLaws], so the laws can be met. *)

From S2P Require Import Prelude Multiformats Identity Dtos ChainRepos MetadataChain ChainVisitors.
From S2P Require Import ChainValidators ChainRules ChainAppend ChainInvariants.

(** * A codec *)

#[export] Instance ex_codec : BlockCodec := {|
  Bytes := MetadataBlock + Multihash;
  bytes_len := fun _ => 0%Z;
  write_manifest := fun b => Ok (inl b);
  read_manifest := fun d => match d with inl b => Ok b | inr _ => Err SerdeError_Other end;
  sha3_256 := fun d =>
    match d with
    | inl b => mb_sequence_number b :: replicate 31 0%Z
    | inr _ => replicate 32 0%Z
    end;
  to_multibase := inr;
  from_multibase := fun d => match d with inr h => Ok h | inl _ => Err tt end
|}.

#[export] Instance ex_codec_laws : CodecLaws ex_codec.
Proof.
  split.
  - intros b d [= <-]. done.
  - done.
  - by intros [].
  - by intros [].
  - done.
Qed.

Abbreviation ExChain :=
  (MetadataChainImpl (MetadataBlockRepositoryImpl ObjectRepositoryInMemory)
                     (ReferenceRepositoryImpl NamedObjectRepositoryInMemory)).

Definition ex_empty : ExChain :=
  mkMetadataChainImpl (mkMetadataBlockRepositoryImpl ObjectRepositoryInMemory_new)
                      (mkReferenceRepositoryImpl NamedObjectRepositoryInMemory_new).

(** * Blocks *)

(** The hash the codec gives to the block with sequence number [n]. *)
Definition ex_hash (n : Z) : Multihash :=
  mkMultihash (n :: replicate 31 0%Z) 32 Multicodec_Sha3_256.

Definition ex_id (n : Z) : DatasetID :=
  mkDatasetID (mkDidOdf (mkDidKey (replicate 32 n))).

Definition ex_slice (a b : Z) : DataSlice :=
  mkDataSlice (ex_hash 100) (ex_hash 101) (mkOffsetInterval a b) 1.

Definition ex_block (n : Z) (e : MetadataEvent) : MetadataBlock :=
  mkMetadataBlock n (if decide (n = 0%Z) then None else Some (ex_hash (n - 1))) n e.

Definition ex_seed : MetadataBlock :=
  ex_block 0 (MetadataEvent_Seed (mkSeed (ex_id 1) DatasetKind_Root)).
Definition ex_schema : MetadataBlock :=
  ex_block 1 (MetadataEvent_SetDataSchema (mkSetDataSchema [])).
Definition ex_data1 : MetadataBlock :=
  ex_block 2 (MetadataEvent_AddData
    (mkAddData None None (Some (ex_slice 0 9)) None (Some 5%Z) None)).
Definition ex_data2 : MetadataBlock :=
  ex_block 3 (MetadataEvent_AddData
    (mkAddData None (Some 9%Z) (Some (ex_slice 10 14)) None (Some 7%Z) None)).

Definition ex_chain : list HashedMetadataBlock :=
  [(ex_hash 3, ex_data2); (ex_hash 2, ex_data1); (ex_hash 1, ex_schema); (ex_hash 0, ex_seed)].

(** A derivative dataset. *)
Definition ex_input (p n : option Z) (po no : option Z) : ExecuteTransformInput :=
  mkExecuteTransformInput (ex_id 1) (option_map ex_hash p) (option_map ex_hash n) po no.

Definition ex_transform : SetTransform :=
  mkSetTransform [mkTransformInput (DatasetRef_ID (ex_id 1)) (Some "in")]
    (Transform_Sql (mkTransformSql "datafusion" None None
       (Some [mkSqlQueryStep None "select * from in"]) None)).

Definition ex_query1 : ExecuteTransform :=
  mkExecuteTransform [ex_input None (Some 2) None (Some 9)]%Z None None
    (Some (ex_slice 0 4)) None (Some 5%Z).
Definition ex_query2 : ExecuteTransform :=
  mkExecuteTransform [ex_input (Some 2) (Some 3) (Some 9) (Some 14)]%Z None (Some 4%Z)
    (Some (ex_slice 5 6)) None (Some 7%Z).

Definition ex_derivative : list HashedMetadataBlock :=
  [ (ex_hash 4, ex_block 4 (MetadataEvent_ExecuteTransform ex_query2));
    (ex_hash 3, ex_block 3 (MetadataEvent_ExecuteTransform ex_query1));
    (ex_hash 2, ex_block 2 (MetadataEvent_SetDataSchema (mkSetDataSchema [])));
    (ex_hash 1, ex_block 1 (MetadataEvent_SetTransform ex_transform));
    (ex_hash 0, ex_block 0 (MetadataEvent_Seed (mkSeed (ex_id 2) DatasetKind_Derivative))) ].

Lemma ex_chain_valid : valid_chain ex_chain.
Proof. apply valid_chain_b_sound. vm_compute. reflexivity. Qed.

Lemma ex_derivative_valid : valid_chain ex_derivative.
Proof. apply valid_chain_b_sound. vm_compute. reflexivity. Qed.

(** * A run *)

(** The state after appending the given blocks, oldest first. *)
Fixpoint ex_run (c : ExChain) (bs : list MetadataBlock) : option ExChain :=
  match bs with
  | [] => Some c
  | b :: bs' =>
      match append 10 c b AppendOpts_default with
      | Some (Ok _, c') => ex_run c' bs'
      | _ => None
      end
  end.

Definition ex_state (bs : list MetadataBlock) : ExChain := default ex_empty (ex_run ex_empty bs).

Definition ex_c3 : ExChain := ex_state [ex_seed; ex_schema; ex_data1].

Lemma ex_checked : checked_opts AppendOpts_default.
Proof. by split. Qed.

Lemma ex_empty_state : chain_state ex_empty [].
Proof. split; [done|constructor..]. Qed.

(** The store really holds the chain the theorems are about. *)
Lemma ex_c3_state : chain_state ex_c3 (tail ex_chain).
Proof.
  split.
  - vm_compute. reflexivity.
  - repeat (eapply linked_cons; [vm_compute; reflexivity|]). apply linked_nil.
  - apply valid_chain_b_sound. vm_compute. reflexivity.
Qed.

Lemma ex_c3_reachable_blocks h b :
  get_block (meta_block_repo ex_c3) h = Ok b -> (h, b) ∈ tail ex_chain.
Proof.
  destruct (decide (h = ex_hash 0)) as [->|H0]; [vm_compute; intros [= <-]; set_solver|].
  destruct (decide (h = ex_hash 1)) as [->|H1]; [vm_compute; intros [= <-]; set_solver|].
  destruct (decide (h = ex_hash 2)) as [->|H2]; [vm_compute; intros [= <-]; set_solver|].
  rewrite get_block_mem.
  change (blocks_by_hash (obj_repo (meta_block_repo ex_c3))) with
    (<[ex_hash 2 := inl ex_data1]> (<[ex_hash 1 := inl ex_schema]>
       (<[ex_hash 0 := inl ex_seed]> ∅)) : gmap Multihash Bytes).
  by rewrite !lookup_insert_ne.
Qed.

(** * More states and blocks *)

Definition ex_c1 : ExChain := ex_state [ex_seed].
Definition ex_c4 : ExChain := ex_state [ex_seed; ex_schema; ex_data1; ex_data2].

(** Another block on top of the same head as [ex_data2]. *)
Definition ex_data2' : MetadataBlock :=
  ex_block 3 (MetadataEvent_AddData
    (mkAddData None (Some 9%Z) (Some (ex_slice 10 19)) None (Some 6%Z) None)).

(** A block whose predecessor was never stored. *)
Definition ex_orphan : MetadataBlock :=
  ex_block 8 (MetadataEvent_SetDataSchema (mkSetDataSchema [])).

Definition ex_push_source : AddPushSource :=
  mkAddPushSource "src" (ReadStep_Parquet (mkReadStepParquet None)) None
    (MergeStrategy_Append mkMergeStrategyAppend).

Definition ex_push_chain : list HashedMetadataBlock :=
  [ (ex_hash 1, ex_block 1 (MetadataEvent_AddPushSource ex_push_source));
    (ex_hash 0, ex_seed) ].

Lemma ex_push_chain_valid : valid_chain ex_push_chain.
Proof. apply valid_chain_b_sound. vm_compute. reflexivity. Qed.

Lemma ex_append_data2 : append 10 ex_c3 ex_data2 AppendOpts_default = Some (Ok (ex_hash 3), ex_c4).
Proof. vm_compute. reflexivity. Qed.

Lemma ex_fresh b b' : (ex_hash 3, b') ∈ tail ex_chain -> b' = b.
Proof. intros H. exfalso. revert H. unfold ex_chain; simpl. rewrite !elem_of_cons, elem_of_nil. naive_solver. Qed.

Lemma ex_offsets_wf : offsets_wf ex_chain.
Proof.
  split.
  - intros hb d n Hin. unfold ex_chain in Hin. rewrite !elem_of_cons, elem_of_nil in Hin.
    destruct Hin as [->|[->|[->|[->|[]]]]]; simpl; intros; simplify_eq/=; simplify_eq/=;
      unfold two64; lia.
  - intros l1 hb l2 d. unfold ex_chain.
    destruct l1 as [|? [|? [|? [|? [|? l1]]]]]; simpl; intros; simplify_eq/=; done.
Qed.
