(* ===== verification/Dataset.v ===== *)
(** Datasets: committing events and keeping the summary up to date.

    Sources: src/infra/core/src/repos/dataset_impl.rs and
    src/domain/core/src/entities/{dataset, dataset_summary}.rs.

    The summary is stored next to the chain and brought up to date from the
    blocks between the head and the last block it has seen.  Its YAML form is
    produced by the [serde_yaml] crate: [SummaryCodec] is a parameter.  Commits
    of data move files into the object repositories; the logical hash of a
    Parquet file is computed by the arrow crates and is a parameter,
    [DataHash]. *)

From S2P Require Import Prelude Multiformats Identity Dtos ChainRepos ObjectRepoFs MetadataChain.
From S2P Require Import ChainVisitors.
From S2P Require Import ChainValidators ChainRules ChainAppend ChainInvariants.

(** * Data *)

Record DatasetSummary := mkDatasetSummary {
  dsu_id : DatasetID;
  dsu_kind : DatasetKind;
  dsu_last_block_hash : Multihash;
  dsu_dependencies : list DatasetID;
  dsu_last_pulled : option DateTime;
  dsu_num_records : u64;
  dsu_data_size : u64;
  dsu_checkpoints_size : u64
}.

Record Manifest (T : Type) := mkManifest { mf_kind : string; mf_version : Z; mf_content : T }.
Arguments mkManifest {T}.
Arguments mf_kind {T}.
Arguments mf_version {T}.
Arguments mf_content {T}.

Class SummaryCodec {C : BlockCodec} := {
  summary_to_yaml : Manifest DatasetSummary -> res unit Bytes;
  summary_from_yaml : Bytes -> res unit (Manifest DatasetSummary)
}.

Class SummaryCodecLaws {C : BlockCodec} (SC : SummaryCodec) : Prop := {
  summary_yaml_law : forall m d, summary_to_yaml m = Ok d -> summary_from_yaml d = Ok m
}.

Inductive GetSummaryError :=
| GetSummaryError_EmptyDataset
| GetSummaryError_Access (e : AccessError)
| GetSummaryError_Internal (e : InternalError).

Record GetSummaryOpts := mkGetSummaryOpts { gso_update_if_stale : bool }.
Definition GetSummaryOpts_default : GetSummaryOpts := mkGetSummaryOpts true.

Record CommitOpts := mkCommitOpts {
  cmo_block_ref : BlockRef;
  cmo_system_time : option DateTime;
  cmo_prev_block_hash : option (option Multihash);
  cmo_check_object_refs : bool;
  cmo_update_block_ref : bool
}.
Definition CommitOpts_default : CommitOpts := mkCommitOpts BlockRef_Head None None true true.

Record CommitResult := mkCommitResult {
  cmr_old_head : option Multihash;
  cmr_new_head : Multihash;
  cmr_new_upstream_ids : list DatasetID
}.

Inductive CommitError :=
| CommitError_ObjectNotFound (e : ObjectNotFoundError)
| CommitError_MetadataAppendError (e : AppendError)
| CommitError_Access (e : AccessError)
| CommitError_Internal (e : InternalError).

Record AddDataParams := mkAddDataParams {
  adp_prev_checkpoint : option Multihash;
  adp_prev_offset : option u64;
  adp_new_offset_interval : option OffsetInterval;
  adp_new_watermark : option DateTime;
  adp_new_source_state : option SourceState
}.

Record ExecuteTransformParams := mkExecuteTransformParams {
  etp_query_inputs : list ExecuteTransformInput;
  etp_prev_checkpoint : option Multihash;
  etp_prev_offset : option u64;
  etp_new_offset_interval : option OffsetInterval;
  etp_new_watermark : option DateTime
}.

(** An [OwnedFile] exists until it is consumed: it is its contents. *)
Inductive CheckpointRef {C : BlockCodec} :=
| CheckpointRef_New (f : Bytes)
| CheckpointRef_Existed (h : Multihash).

Definition checkpoint_file {C : BlockCodec} (c : CheckpointRef) : option Bytes :=
  match c with CheckpointRef_Existed _ => None | CheckpointRef_New f => Some f end.

(** [kamu_data_utils::data::hash::get_parquet_logical_hash]. *)
Class DataHash {C : BlockCodec} := { get_parquet_logical_hash : Bytes -> res unit Multihash }.

Record DatasetImpl (BR RR DR CR IR : Type) := mkDatasetImpl {
  dsi_metadata_chain : MetadataChainImpl BR RR;
  dsi_data_repo : DR;
  dsi_checkpoint_repo : CR;
  dsi_info_repo : IR
}.
Arguments mkDatasetImpl {BR RR DR CR IR}.
Arguments dsi_metadata_chain {BR RR DR CR IR}.
Arguments dsi_data_repo {BR RR DR CR IR}.
Arguments dsi_checkpoint_repo {BR RR DR CR IR}.
Arguments dsi_info_repo {BR RR DR CR IR}.

(** * Summary increments *)

Record UpdateSummaryIncrement := mkUpdateSummaryIncrement {
  usi_seen_id : option DatasetID;
  usi_seen_kind : option DatasetKind;
  usi_seen_head : option Multihash;
  usi_seen_dependencies : option (list DatasetID);
  usi_seen_last_pulled : option DateTime;
  usi_seen_num_records : u64;
  usi_seen_data_size : u64;
  usi_seen_checkpoints_size : u64
}.

Definition increment_init (head : Multihash) : UpdateSummaryIncrement :=
  mkUpdateSummaryIncrement None None (Some head) None None 0 0 0.

(** [Option::get_or_insert]. *)
Definition get_or_insert {A} (o : option A) (a : A) : option A :=
  match o with Some _ => o | None => Some a end.

(** [inputs.into_iter().map(|i| i.dataset_ref.id().cloned().unwrap()).collect()] *)
Fixpoint input_ids (inputs : list TransformInput) : res GetSummaryError (list DatasetID) :=
  match inputs with
  | [] => Ok []
  | i :: rest =>
      let! id := unwrap (DatasetRef_id (ti_dataset_ref i)) in
      let! ids := input_ids rest in
      Ok (id :: ids)
  end.

(** The branches of [AddData] and [ExecuteTransform]. *)
Definition increment_data (inc : UpdateSummaryIncrement) (system_time : DateTime)
    (new_data : option DataSlice) (new_checkpoint : option Checkpoint) : UpdateSummaryIncrement :=
  mkUpdateSummaryIncrement (usi_seen_id inc) (usi_seen_kind inc) (usi_seen_head inc)
    (usi_seen_dependencies inc) (get_or_insert (usi_seen_last_pulled inc) system_time)
    (match new_data with
     | Some output_data =>
         let iv := ds_offset_interval output_data in
         u64_add (usi_seen_num_records inc) (u64_add (u64_sub (oi_end iv) (oi_start iv)) 1)
     | None => usi_seen_num_records inc
     end)
    (match new_data with
     | Some output_data => u64_add (usi_seen_data_size inc) (ds_size output_data)
     | None => usi_seen_data_size inc
     end)
    (match new_checkpoint with
     | Some checkpoint => u64_add (usi_seen_checkpoints_size inc) (cp_size checkpoint)
     | None => usi_seen_checkpoints_size inc
     end).

(** The [match block.event] of the loop. *)
Definition increment_block (inc : UpdateSummaryIncrement) (block : MetadataBlock)
    : res GetSummaryError UpdateSummaryIncrement :=
  match mb_event block with
  | MetadataEvent_Seed seed =>
      Ok (mkUpdateSummaryIncrement (get_or_insert (usi_seen_id inc) (sd_dataset_id seed))
            (get_or_insert (usi_seen_kind inc) (sd_dataset_kind seed)) (usi_seen_head inc)
            (usi_seen_dependencies inc) (usi_seen_last_pulled inc) (usi_seen_num_records inc)
            (usi_seen_data_size inc) (usi_seen_checkpoints_size inc))
  | MetadataEvent_SetTransform set_transform =>
      match usi_seen_dependencies inc with
      | Some _ => Ok inc
      | None =>
          let! ids := input_ids (st_inputs set_transform) in
          Ok (mkUpdateSummaryIncrement (usi_seen_id inc) (usi_seen_kind inc) (usi_seen_head inc)
                (Some ids) (usi_seen_last_pulled inc) (usi_seen_num_records inc)
                (usi_seen_data_size inc) (usi_seen_checkpoints_size inc))
      end
  | MetadataEvent_AddData add_data =>
      Ok (increment_data inc (mb_system_time block) (ad_new_data add_data)
            (ad_new_checkpoint add_data))
  | MetadataEvent_ExecuteTransform execute_transform =>
      Ok (increment_data inc (mb_system_time block) (et_new_data execute_transform)
            (et_new_checkpoint execute_transform))
  | _ => Ok inc
  end.

Fixpoint increment_blocks (inc : UpdateSummaryIncrement) (blocks : list HashedMetadataBlock)
    : res GetSummaryError UpdateSummaryIncrement :=
  match blocks with
  | [] => Ok inc
  | hb :: rest => let! inc' := increment_block inc hb.2 in increment_blocks inc' rest
  end.

Definition seen_chain_beginning (inc : UpdateSummaryIncrement) : bool :=
  match usi_seen_id inc with Some _ => true | None => false end.

Definition into_summary (inc : UpdateSummaryIncrement) : res GetSummaryError DatasetSummary :=
  let! id := unwrap (usi_seen_id inc) in
  let! kind := unwrap (usi_seen_kind inc) in
  let! head := unwrap (usi_seen_head inc) in
  Ok (mkDatasetSummary id kind head (default [] (usi_seen_dependencies inc))
        (usi_seen_last_pulled inc) (usi_seen_num_records inc) (usi_seen_data_size inc)
        (usi_seen_checkpoints_size inc)).

Definition apply_to_summary (inc : UpdateSummaryIncrement) (summary : DatasetSummary)
    : res GetSummaryError DatasetSummary :=
  let! head := unwrap (usi_seen_head inc) in
  Ok (mkDatasetSummary (default (dsu_id summary) (usi_seen_id inc))
        (default (dsu_kind summary) (usi_seen_kind inc)) head
        (default (dsu_dependencies summary) (usi_seen_dependencies inc))
        (match usi_seen_last_pulled inc with Some t => Some t | None => dsu_last_pulled summary end)
        (u64_add (dsu_num_records summary) (usi_seen_num_records inc))
        (u64_add (dsu_data_size summary) (usi_seen_data_size inc))
        (u64_add (dsu_checkpoints_size summary) (usi_seen_checkpoints_size inc))).

(** * The dataset *)

Section Dataset.
Context {C : BlockCodec} {SC : SummaryCodec} {DH : DataHash} {BR RR DR CR IR : Type}
        `{!MetadataBlockRepository BR} `{!ReferenceRepository RR}
        `{DO : !ObjectRepository DR} `{CO : !ObjectRepository CR} `{!NamedObjectRepository IR}.

Abbreviation Dataset := (DatasetImpl BR RR DR CR IR).

Implicit Types (d : Dataset) (l : list HashedMetadataBlock).

Definition with_info_repo d (r : IR) : Dataset :=
  mkDatasetImpl (dsi_metadata_chain d) (dsi_data_repo d) (dsi_checkpoint_repo d) r.

Definition with_chain d (c : MetadataChainImpl BR RR) : Dataset :=
  mkDatasetImpl c (dsi_data_repo d) (dsi_checkpoint_repo d) (dsi_info_repo d).

Definition read_summary d : res GetSummaryError (option DatasetSummary) :=
  match nr_get (dsi_info_repo d) "summary" with
  | Ok data =>
      match summary_from_yaml data with
      | Ok manifest =>
          if decide (mf_kind manifest <> "DatasetSummary")
          then Err (GetSummaryError_Internal mkInternalError)
          else Ok (Some (mf_content manifest))
      | Err _ => Err (GetSummaryError_Internal mkInternalError)
      | Panic => Panic
      end
  | Err (GetNamedError_NotFound _) => Ok None
  | Err (GetNamedError_Access e) => Err (GetSummaryError_Access e)
  | Err (GetNamedError_Internal e) => Err (GetSummaryError_Internal e)
  | Panic => Panic
  end.

Definition write_summary d (summary : DatasetSummary) : res GetSummaryError unit * Dataset :=
  match summary_to_yaml (mkManifest "DatasetSummary" 1 summary) with
  | Ok data =>
      let '(x, r) := nr_set (dsi_info_repo d) "summary" data in
      (map_err (fun e =>
         match e with
         | SetNamedError_Access e => GetSummaryError_Access e
         | SetNamedError_Internal e => GetSummaryError_Internal e
         end) x, with_info_repo d r)
  | Err _ => (Err (GetSummaryError_Internal mkInternalError), d)
  | Panic => (Panic, d)
  end.

Definition compute_summary_increment (fuel : nat) d (current_head : Multihash)
    (last_seen : option Multihash) : option (res GetSummaryError UpdateSummaryIncrement) :=
  match iter_blocks_interval fuel (dsi_metadata_chain d) current_head last_seen true with
  | None => None
  | Some (blocks, ended) =>
      Some
        (let! inc := increment_blocks (increment_init current_head) blocks in
         let! _ := map_err (fun _ => GetSummaryError_Internal mkInternalError) ended in
         Ok inc)
  end.

Definition update_summary (fuel : nat) d (prev : option DatasetSummary)
    : option (res GetSummaryError (option DatasetSummary) * Dataset) :=
  match resolve_ref (dsi_metadata_chain d) BlockRef_Head with
  | Err (GetRefError_NotFound _) => Some (Ok prev, d)
  | Err (GetRefError_Access e) => Some (Err (GetSummaryError_Access e), d)
  | Err (GetRefError_Internal e) => Some (Err (GetSummaryError_Internal e), d)
  | Panic => Some (Panic, d)
  | Ok current_head =>
      let last_seen := option_map dsu_last_block_hash prev in
      if decide (last_seen = Some current_head) then Some (Ok prev, d)
      else
        match compute_summary_increment fuel d current_head last_seen with
        | None => None
        | Some m =>
            match (let! increment := m in
                   if seen_chain_beginning increment then into_summary increment
                   else let! prev := unwrap prev in apply_to_summary increment prev) with
            | Ok summary =>
                let '(x, d') := write_summary d summary in
                Some (map_ok (fun _ => Some summary) x, d')
            | Err e => Some (Err e, d)
            | Panic => Some (Panic, d)
            end
        end
  end.

Definition get_summary (fuel : nat) d (opts : GetSummaryOpts)
    : option (res GetSummaryError DatasetSummary * Dataset) :=
  let ok_or_empty (s : option DatasetSummary) : res GetSummaryError DatasetSummary :=
    match s with Some s => Ok s | None => Err GetSummaryError_EmptyDataset end in
  match read_summary d with
  | Ok summary =>
      if gso_update_if_stale opts then
        match update_summary fuel d summary with
        | Some (r, d') => Some (let! s := r in ok_or_empty s, d')
        | None => None
        end
      else Some (ok_or_empty summary, d)
  | Err e => Some (Err e, d)
  | Panic => Some (Panic, d)
  end.

(** ** Commits *)

(** The check of [check_object_refs] for one object. *)
Definition check_object {R} `{!ObjectRepository R} (repo : R) (hash : option Multihash)
    : res CommitError unit :=
  match hash with
  | None => Ok tt
  | Some h =>
      match or_contains repo h with
      | Ok true => Ok tt
      | Ok false => Err (CommitError_ObjectNotFound (mkObjectNotFoundError h))
      | Err _ => Err (CommitError_Internal mkInternalError)
      | Panic => Panic
      end
  end.

Definition check_event_objects d (event : MetadataEvent) : res CommitError unit :=
  match as_data_stream_event event with
  | None => Ok tt
  | Some e =>
      let! _ := check_object (dsi_data_repo d) (option_map ds_physical_hash (mds_new_data e)) in
      check_object (dsi_checkpoint_repo d) (option_map cp_physical_hash (mds_new_checkpoint e))
  end.

Definition commit_prev_block d (opts : CommitOpts) : res CommitError (option Multihash) :=
  match cmo_prev_block_hash opts with
  | Some prev_block_hash => Ok prev_block_hash
  | None =>
      match resolve_ref (dsi_metadata_chain d) (cmo_block_ref opts) with
      | Ok h => Ok (Some h)
      | Err (GetRefError_NotFound _) => Ok None
      | Err _ => Err (CommitError_Internal mkInternalError)
      | Panic => Panic
      end
  end.

Definition commit_sequence_number d (prev_block_hash : option Multihash) : res CommitError u64 :=
  match prev_block_hash with
  | Some h =>
      let! b := map_err (fun _ => CommitError_Internal mkInternalError)
                  (get_block (meta_block_repo (dsi_metadata_chain d)) h) in
      Ok (u64_add (mb_sequence_number b) 1)
  | None => Ok 0%Z
  end.

Definition commit_upstream_ids (opts : CommitOpts) (event : MetadataEvent) : list DatasetID :=
  match event with
  | MetadataEvent_SetTransform transform =>
      if cmo_update_block_ref opts
      then omap (fun i => DatasetRef_id (ti_dataset_ref i)) (st_inputs transform)
      else []
  | _ => []
  end.

Definition commit_append_opts (opts : CommitOpts) : AppendOpts :=
  if cmo_update_block_ref opts then AppendOpts_default
  else mkAppendOpts (ao_validation AppendOpts_default) None false
         (ao_check_ref_is AppendOpts_default) (ao_precomputed_hash AppendOpts_default)
         (ao_expected_hash AppendOpts_default).

(** [now] is [Utc::now()]. *)
Definition commit_block d (now : DateTime) (event : MetadataEvent) (opts : CommitOpts)
    : res CommitError MetadataBlock :=
  let! _ := if cmo_check_object_refs opts then check_event_objects d event else Ok tt in
  let! prev_block_hash := commit_prev_block d opts in
  let! sequence_number := commit_sequence_number d prev_block_hash in
  Ok (mkMetadataBlock (default now (cmo_system_time opts)) prev_block_hash sequence_number event).

Definition commit_event (fuel : nat) d (now : DateTime) (event : MetadataEvent) (opts : CommitOpts)
    : option (res CommitError CommitResult * Dataset) :=
  match commit_block d now event opts with
  | Ok block =>
      match append fuel (dsi_metadata_chain d) block (commit_append_opts opts) with
      | Some (x, c) =>
          Some (let! new_head := map_err CommitError_MetadataAppendError x in
                Ok (mkCommitResult (mb_prev_block_hash block) new_head
                      (commit_upstream_ids opts event)),
                with_chain d c)
      | None => None
      end
  | Err e => Some (Err e, d)
  | Panic => Some (Panic, d)
  end.

(** ** Commits of data *)

(** [tokio::task::spawn_blocking(..).await.int_err()?.int_err()?]: a panic in the
    task is a [JoinError]. *)
Definition spawn_blocking {E A} (m : res E A) : res InternalError A :=
  match m with Ok a => Ok a | _ => Err mkInternalError end.

Definition prepare_data_slice (offset_interval : option OffsetInterval) (data : option Bytes)
    : res InternalError (option DataSlice) :=
  match offset_interval with
  | Some offset_interval =>
      let! data := unwrap data in
      let! logical_hash := spawn_blocking (get_parquet_logical_hash data) in
      let! physical_hash := spawn_blocking (get_file_physical_hash data) in
      Ok (Some (mkDataSlice logical_hash physical_hash offset_interval (bytes_len data)))
  | None => match data with None => Ok None | Some _ => Panic end
  end.

Definition prepare_checkpoint d (checkpoint : option CheckpointRef)
    : res InternalError (option Checkpoint) :=
  match checkpoint with
  | Some (CheckpointRef_Existed hash) =>
      let! size := map_err (fun _ => mkInternalError) (or_get_size (dsi_checkpoint_repo d) hash) in
      Ok (Some (mkCheckpoint hash size))
  | Some (CheckpointRef_New file) =>
      let! physical_hash := spawn_blocking (get_file_physical_hash file) in
      Ok (Some (mkCheckpoint physical_hash (bytes_len file)))
  | None => Ok None
  end.

Definition prepare_objects d (offset_interval : option OffsetInterval) (data : option Bytes)
    (checkpoint : option CheckpointRef)
    : res InternalError (option DataSlice * option Checkpoint) :=
  let! data_slice := prepare_data_slice offset_interval data in
  let! checkpoint := prepare_checkpoint d checkpoint in
  Ok (data_slice, checkpoint).

(** Moving one file; [None] when there is nothing to move. *)
Definition commit_object {R} `{!ObjectRepository R} (repo : R)
    (object : option (Multihash * u64 * Bytes)) : res InternalError unit * R :=
  match object with
  | None => (Ok tt, repo)
  | Some (hash, size, file) =>
      let '(x, r) := or_insert_file_move repo file (mkInsertOpts (Some hash) None (Some size)) in
      (let! _ := map_err (fun _ => mkInternalError) x in Ok tt, r)
  end.

Definition commit_objects d (data_slice : option DataSlice) (data : option Bytes)
    (checkpoint_meta : option Checkpoint) (checkpoint : option Bytes)
    : res InternalError unit * Dataset :=
  match (match data_slice with
         | None => Ok None
         | Some s => let! f := unwrap data in Ok (Some (ds_physical_hash s, ds_size s, f))
         end) with
  | Ok object =>
      let '(x, dr) := commit_object (dsi_data_repo d) object in
      let d1 := mkDatasetImpl (dsi_metadata_chain d) dr (dsi_checkpoint_repo d) (dsi_info_repo d) in
      match x with
      | Ok _ =>
          let '(y, cr) := commit_object (dsi_checkpoint_repo d1)
                            (match checkpoint_meta, checkpoint with
                             | Some m, Some f => Some (cp_physical_hash m, cp_size m, f)
                             | _, _ => None
                             end) in
          (y, mkDatasetImpl (dsi_metadata_chain d1) (dsi_data_repo d1) cr (dsi_info_repo d1))
      | _ => (x, d1)
      end
  | Err e => (Err e, d)
  | Panic => (Panic, d)
  end.

(** [CommitOpts { check_object_refs: false, ..opts }] *)
Definition no_object_check (opts : CommitOpts) : CommitOpts :=
  mkCommitOpts (cmo_block_ref opts) (cmo_system_time opts) (cmo_prev_block_hash opts) false
    (cmo_update_block_ref opts).

(** What both commits of data do once the objects are prepared. *)
Definition commit_prepared (fuel : nat) d (now : DateTime) (event : MetadataEvent)
    (new_data : option DataSlice) (data : option Bytes) (new_checkpoint : option Checkpoint)
    (checkpoint : option CheckpointRef) (opts : CommitOpts)
    : option (res CommitError CommitResult * Dataset) :=
  let '(x, d') := commit_objects d new_data data new_checkpoint (checkpoint ≫= checkpoint_file) in
  match x with
  | Ok _ => commit_event fuel d' now event (no_object_check opts)
  | Err e => Some (Err (CommitError_Internal e), d')
  | Panic => Some (Panic, d')
  end.

Definition commit_add_data (fuel : nat) d (now : DateTime) (params : AddDataParams)
    (data_file : option Bytes) (checkpoint : option CheckpointRef) (opts : CommitOpts)
    : option (res CommitError CommitResult * Dataset) :=
  match prepare_objects d (adp_new_offset_interval params) data_file checkpoint with
  | Ok (new_data, new_checkpoint) =>
      commit_prepared fuel d now
        (MetadataEvent_AddData
           (mkAddData (adp_prev_checkpoint params) (adp_prev_offset params) new_data new_checkpoint
              (adp_new_watermark params) (adp_new_source_state params)))
        new_data data_file new_checkpoint checkpoint opts
  | Err e => Some (Err (CommitError_Internal e), d)
  | Panic => Some (Panic, d)
  end.

Definition prepare_execute_transform d (params : ExecuteTransformParams) (data_file : option Bytes)
    (checkpoint : option CheckpointRef) : res InternalError ExecuteTransform :=
  let! p := prepare_objects d (etp_new_offset_interval params) data_file checkpoint in
  Ok (mkExecuteTransform (etp_query_inputs params) (etp_prev_checkpoint params)
        (etp_prev_offset params) p.1 p.2 (etp_new_watermark params)).

Definition commit_execute_transform (fuel : nat) d (now : DateTime)
    (execute_transform : ExecuteTransformParams) (data : option Bytes)
    (checkpoint : option CheckpointRef) (opts : CommitOpts)
    : option (res CommitError CommitResult * Dataset) :=
  match prepare_execute_transform d execute_transform data checkpoint with
  | Ok event =>
      commit_prepared fuel d now (MetadataEvent_ExecuteTransform event) (et_new_data event) data
        (et_new_checkpoint event) checkpoint opts
  | Err e => Some (Err (CommitError_Internal e), d)
  | Panic => Some (Panic, d)
  end.
End Dataset.

(** * The specification of a summary *)

Definition or_else {A} (x y : option A) : option A := match x with Some _ => x | None => y end.

Definition dependencies_of (t : SetTransform) : list DatasetID :=
  omap (fun i => DatasetRef_id (ti_dataset_ref i)) (st_inputs t).

Definition pulled_at (hb : HashedMetadataBlock) : option DateTime :=
  option_map (fun _ => mb_system_time hb.2) (as_data_stream_event (mb_event hb.2)).

Definition event_data_size (e : MetadataEvent) : Z :=
  match as_data_stream_event e ≫= mds_new_data with Some n => ds_size n | None => 0%Z end.

Definition event_checkpoint_size (e : MetadataEvent) : Z :=
  match as_data_stream_event e ≫= mds_new_checkpoint with Some c => cp_size c | None => 0%Z end.

(** Sum over the blocks of a chain. *)
Definition total (f : MetadataEvent -> Z) (l : list HashedMetadataBlock) : Z :=
  foldr (fun hb n => f (mb_event hb.2) + n)%Z 0%Z l.

(** The summary of a whole chain; sizes are 64-bit sums. *)
Definition summary_of (l : list HashedMetadataBlock) : option DatasetSummary :=
  match head_hash l, latest Seed l with
  | Some h, Some seed =>
      Some (mkDatasetSummary (sd_dataset_id seed) (sd_dataset_kind seed) h
              (default [] (option_map dependencies_of (latest SetTransform l)))
              (find_map pulled_at l)
              (total event_records l mod two64) (total event_data_size l mod two64)
              (total event_checkpoint_size l mod two64))
  | _, _ => None
  end.

Lemma total_app f l1 l2 : total f (l1 ++ l2) = (total f l1 + total f l2)%Z.
Proof. unfold total. induction l1 as [|x l1 IH]; simpl; [done|]. rewrite IH. lia. Qed.

(** ** Increments *)

Lemma input_ids_ok inputs :
  (forall i, i ∈ inputs -> is_Some (DatasetRef_id (ti_dataset_ref i))) ->
  input_ids inputs = Ok (omap (fun i => DatasetRef_id (ti_dataset_ref i)) inputs).
Proof.
  induction inputs as [|i inputs IH]; intros H; [done|]. simpl.
  destruct (H i ltac:(left)) as [id Hid]. rewrite Hid. simpl.
  rewrite IH by (intros; apply H; by right). done.
Qed.

(** What an increment becomes by seeing more blocks. *)
Definition increment_by (inc : UpdateSummaryIncrement) (l : list HashedMetadataBlock)
    : UpdateSummaryIncrement :=
  mkUpdateSummaryIncrement
    (or_else (usi_seen_id inc) (option_map sd_dataset_id (latest Seed l)))
    (or_else (usi_seen_kind inc) (option_map sd_dataset_kind (latest Seed l)))
    (usi_seen_head inc)
    (or_else (usi_seen_dependencies inc) (option_map dependencies_of (latest SetTransform l)))
    (or_else (usi_seen_last_pulled inc) (find_map pulled_at l))
    ((usi_seen_num_records inc + total event_records l) mod two64)
    ((usi_seen_data_size inc + total event_data_size l) mod two64)
    ((usi_seen_checkpoints_size inc + total event_checkpoint_size l) mod two64).

Record increment_wf (inc : UpdateSummaryIncrement) : Prop := {
  iw_records : in_u64 (usi_seen_num_records inc);
  iw_data : in_u64 (usi_seen_data_size inc);
  iw_checkpoints : in_u64 (usi_seen_checkpoints_size inc)
}.

Lemma or_else_None {A} (x : option A) : or_else x None = x.
Proof. by destruct x. Qed.

Lemma increment_by_nil inc : increment_wf inc -> increment_by inc [] = inc.
Proof.
  intros [H1 H2 H3]. unfold increment_by. simpl. rewrite !or_else_None, !Z.add_0_r.
  unfold in_u64 in *. rewrite !Z.mod_small by done. by destruct inc.
Qed.

Lemma u64_mod_range a : in_u64 (a mod two64).
Proof. unfold in_u64. apply Z.mod_pos_bound. done. Qed.

Lemma add_opt_mod {A} (o : option A) (g : A -> Z) n t :
  (((match o with Some x => u64_add n (g x) | None => n end) + t) mod two64
   = (n + ((match o with Some x => g x | None => 0 end) + t)) mod two64)%Z.
Proof.
  destruct o; [|by rewrite Z.add_0_l]. unfold u64_add. rewrite Zplus_mod_idemp_l. f_equal. lia.
Qed.

Lemma add_opt_range {A} (o : option A) (g : A -> Z) n :
  in_u64 n -> in_u64 (match o with Some x => u64_add n (g x) | None => n end).
Proof. destruct o; [intros; apply u64_mod_range|done]. Qed.

Lemma increment_data_ok inc h b l d :
  increment_wf inc -> as_data_stream_event (mb_event b) = Some d ->
  let inc' := increment_data inc (mb_system_time b) (mds_new_data d) (mds_new_checkpoint d) in
  increment_wf inc' /\ increment_by inc' l = increment_by inc ((h, b) :: l).
Proof.
  intros [H1 H2 H3] Hd inc'. split.
  { split; unfold inc', increment_data; simpl; by apply add_opt_range. }
  assert (Hs : latest Seed ((h, b) :: l) = latest Seed l).
  { unfold latest. simpl. by destruct (mb_event b). }
  assert (Ht : latest SetTransform ((h, b) :: l) = latest SetTransform l).
  { unfold latest. simpl. by destruct (mb_event b). }
  unfold increment_by. rewrite Hs, Ht. unfold inc', increment_data. simpl.
  unfold pulled_at at 2, event_records at 2, event_data_size at 2, event_checkpoint_size at 2.
  simpl. rewrite Hd. simpl. f_equal.
  - by destruct (usi_seen_last_pulled inc).
  - apply (add_opt_mod (mds_new_data d) DataSlice_num_records).
  - apply (add_opt_mod (mds_new_data d) ds_size).
  - apply (add_opt_mod (mds_new_checkpoint d) cp_size).
Qed.

(** Blocks that carry no data leave the sums alone. *)
Lemma increment_by_other inc inc' h b l :
  as_data_stream_event (mb_event b) = None ->
  usi_seen_num_records inc' = usi_seen_num_records inc ->
  usi_seen_data_size inc' = usi_seen_data_size inc ->
  usi_seen_checkpoints_size inc' = usi_seen_checkpoints_size inc ->
  usi_seen_head inc' = usi_seen_head inc ->
  usi_seen_last_pulled inc' = usi_seen_last_pulled inc ->
  or_else (usi_seen_id inc') (option_map sd_dataset_id (latest Seed l)) =
    or_else (usi_seen_id inc) (option_map sd_dataset_id (latest Seed ((h, b) :: l))) ->
  or_else (usi_seen_kind inc') (option_map sd_dataset_kind (latest Seed l)) =
    or_else (usi_seen_kind inc) (option_map sd_dataset_kind (latest Seed ((h, b) :: l))) ->
  or_else (usi_seen_dependencies inc') (option_map dependencies_of (latest SetTransform l)) =
    or_else (usi_seen_dependencies inc)
      (option_map dependencies_of (latest SetTransform ((h, b) :: l))) ->
  increment_by inc' l = increment_by inc ((h, b) :: l).
Proof.
  intros Hd H1 H2 H3 H4 H5 Hi Hk Hdep. unfold increment_by.
  rewrite H1, H2, H3, H4, H5, Hi, Hk, Hdep. simpl.
  unfold pulled_at at 2, event_records at 2, event_data_size at 2, event_checkpoint_size at 2.
  simpl. rewrite Hd. done.
Qed.

Lemma increment_block_ok inc h b l :
  increment_wf inc ->
  (forall t i, mb_event b = MetadataEvent_SetTransform t -> i ∈ st_inputs t ->
     is_Some (DatasetRef_id (ti_dataset_ref i))) ->
  exists inc', increment_block inc b = Ok inc' /\ increment_wf inc' /\
    increment_by inc' l = increment_by inc ((h, b) :: l).
Proof.
  intros Hw Hres. unfold increment_block.
  assert (Hother : as_data_stream_event (mb_event b) = None ->
            (forall s, mb_event b <> MetadataEvent_Seed s) ->
            (forall s, mb_event b <> MetadataEvent_SetTransform s) ->
            increment_by inc l = increment_by inc ((h, b) :: l)).
  { intros Hd Hs Ht. apply increment_by_other; try done; unfold latest; simpl;
      destruct (mb_event b); naive_solver. }
  destruct (mb_event b) as [e|e|e|e|e|e|e|e|e|e|e|e|e] eqn:Hev;
    try (exists inc; split_and!; [done|done|by apply Hother]).
  - eexists; split; [done|]. destruct (increment_data_ok inc h b l (mkMetadataEventDataStream
      (ad_prev_checkpoint e) (ad_prev_offset e) (ad_new_data e) (ad_new_checkpoint e)
      (ad_new_watermark e)) Hw) as [? ?]; [by rewrite Hev|done].
  - eexists; split; [done|]. destruct (increment_data_ok inc h b l (mkMetadataEventDataStream
      (et_prev_checkpoint e) (et_prev_offset e) (et_new_data e) (et_new_checkpoint e)
      (et_new_watermark e)) Hw) as [? ?]; [by rewrite Hev|done].
  - eexists; split; [done|]. destruct Hw. split; [by split|].
    apply increment_by_other; try done; [by rewrite Hev|..]; unfold latest; simpl; rewrite Hev;
      [by destruct (usi_seen_id inc)|by destruct (usi_seen_kind inc)|done].
  - destruct (usi_seen_dependencies inc) as [dp|] eqn:Hdp.
    + exists inc. split_and!; try done. apply increment_by_other; try done; [by rewrite Hev|..];
        unfold latest; simpl; rewrite Hev, ?Hdp; done.
    + rewrite input_ids_ok by (intros; by eapply Hres). eexists; split; [done|].
      destruct Hw. split; [by split|].
      apply increment_by_other; try done; [by rewrite Hev|..]; unfold latest; simpl;
        rewrite Hev, ?Hdp; done.
Qed.

Lemma increment_blocks_ok inc l :
  increment_wf inc -> transforms_resolved l -> increment_blocks inc l = Ok (increment_by inc l).
Proof.
  revert inc; induction l as [|[h b] l IH]; intros inc Hw Hres; simpl.
  - by rewrite increment_by_nil.
  - destruct (increment_block_ok inc h b l Hw) as (inc' & -> & Hw' & <-).
    { intros t i Ht Hi. eapply (Hres (h, b)); [left|done|done]. }
    simpl. apply IH; [done|]. intros hb t i Hin. apply Hres. by right.
Qed.

(** ** Summaries of valid chains *)

Lemma valid_chain_seed l : valid_chain l -> l <> [] -> is_Some (latest Seed l).
Proof.
  intros Hv Hne. destruct (exists_last Hne) as (l' & hb & ->).
  pose proof (proj2 (seed_is_first l' hb [] Hv) eq_refl) as Hs.
  destruct (latest Seed (l' ++ [hb])) eqn:Hl; [by eexists|]. exfalso.
  rewrite latest_None in Hl. specialize (Hl hb ltac:(set_solver)). simpl in Hl.
  by destruct (mb_event hb.2).
Qed.

Lemma no_seed_above l1 l2 : valid_chain (l1 ++ l2) -> l2 <> [] -> latest Seed l1 = None.
Proof.
  intros Hv Hne. apply latest_None. intros hb (la & lb & ->)%list_elem_of_split.
  rewrite <- app_assoc in Hv. simpl in Hv.
  pose proof (proj1 (seed_is_first la hb (lb ++ l2) Hv)) as Hs. simpl.
  destruct (mb_event hb.2) eqn:He; try done. destruct (app_eq_nil _ _ (Hs I)). done.
Qed.

Lemma increment_init_wf h : increment_wf (increment_init h).
Proof. by split. Qed.

(** Starting from nothing. *)
Lemma summary_full h l :
  valid_chain l -> head_hash l = Some h ->
  let inc := increment_by (increment_init h) l in
  seen_chain_beginning inc = true /\
  exists s, into_summary inc = Ok s /\ summary_of l = Some s.
Proof.
  intros Hv Hh inc. destruct (valid_chain_seed l Hv) as [seed Hs]; [by intros ->|].
  unfold summary_of. rewrite Hh, Hs.
  unfold inc, increment_by, seen_chain_beginning, into_summary. simpl. rewrite Hs. simpl. eauto.
Qed.

(** Starting from the summary of a lower part of the chain. *)
Lemma summary_incremental h l1 l2 s0 :
  valid_chain (l1 ++ l2) -> head_hash (l1 ++ l2) = Some h -> summary_of l2 = Some s0 ->
  let inc := increment_by (increment_init h) l1 in
  seen_chain_beginning inc = false /\
  exists s, apply_to_summary inc s0 = Ok s /\ summary_of (l1 ++ l2) = Some s.
Proof.
  intros Hv Hh H0 inc.
  assert (Hne : l2 <> []) by (by intros ->).
  pose proof (no_seed_above _ _ Hv Hne) as Hns.
  unfold summary_of in *. destruct (head_hash l2); [|done].
  destruct (latest Seed l2) as [seed|] eqn:Hs; [|done]. injection H0 as <-.
  assert (Hseed : latest Seed (l1 ++ l2) = Some seed).
  { unfold latest in *. by rewrite find_map_app, Hns. }
  rewrite Hh, Hseed. unfold inc, increment_by, seen_chain_beginning, apply_to_summary. simpl.
  rewrite Hns. simpl. split; [done|]. eexists; split; [done|]. f_equal. f_equal.
  - unfold latest. rewrite find_map_app.
    by destruct (find_map (event_of SetTransform) l1).
  - rewrite find_map_app. by destruct (find_map pulled_at l1).
  - rewrite total_app. unfold u64_add. rewrite Zplus_mod_idemp_r, Zplus_mod_idemp_l. f_equal. lia.
  - rewrite total_app. unfold u64_add. rewrite Zplus_mod_idemp_r, Zplus_mod_idemp_l. f_equal. lia.
  - rewrite total_app. unfold u64_add. rewrite Zplus_mod_idemp_r, Zplus_mod_idemp_l. f_equal. lia.
Qed.

(** * Keeping the summary up to date *)

(** The stored summary was right for some chain; if the block it has seen last
    is in the current chain, for the part of it that starts there. *)
Definition summary_valid (prev : option DatasetSummary) (l : list HashedMetadataBlock) : Prop :=
  forall s, prev = Some s -> exists l0, summary_of l0 = Some s /\
    forall l1 l2, l = l1 ++ l2 -> head_hash l2 = Some (dsu_last_block_hash s) -> l0 = l2.

Section SummaryProofs.
Context {C : BlockCodec} {SC : SummaryCodec} {BR RR DR CR IR : Type}
        `{!MetadataBlockRepository BR} `{!ReferenceRepository RR}
        `{!NamedObjectRepository IR} `{!SummaryCodecLaws SC} `{!LawfulInfoRepo IR}.

Implicit Types (d : DatasetImpl BR RR DR CR IR) (l : list HashedMetadataBlock).

Lemma write_read_summary d s d' : write_summary d s = (Ok tt, d') -> read_summary d' = Ok (Some s).
Proof.
  unfold write_summary, read_summary.
  destruct (summary_to_yaml _) as [data| |] eqn:Hy; [|done..].
  destruct (nr_set (dsi_info_repo d) "summary" data) as [x r] eqn:Hset.
  destruct x as [[]| |]; [|by destruct e|done]. intros [= <-]. simpl.
  rewrite (nr_set_get _ _ _ _ Hset). by rewrite (summary_yaml_law _ _ Hy).
Qed.

Lemma write_summary_chain d s x d' :
  write_summary d s = (x, d') -> dsi_metadata_chain d' = dsi_metadata_chain d.
Proof.
  unfold write_summary. destruct (summary_to_yaml _); [|by intros [= _ <-]..].
  by destruct (nr_set _ _ _); intros [= _ <-].
Qed.

(** The summary an update computes from the blocks it has looked at. *)
Definition summary_from (prev : option DatasetSummary) (m : res GetSummaryError UpdateSummaryIncrement)
    : res GetSummaryError DatasetSummary :=
  let! increment := m in
  if seen_chain_beginning increment then into_summary increment
  else let! prev := unwrap prev in apply_to_summary increment prev.

Lemma compute_increment_full fuel d l h prev :
  linked (meta_block_repo (dsi_metadata_chain d)) (Some h) l -> valid_chain l ->
  head_hash l = Some h -> length l < fuel ->
  (forall s, prev = Some s -> dsu_last_block_hash s ∉ l.*1) ->
  exists s m, summary_of l = Some s /\ summary_from prev m = Ok s /\
    compute_summary_increment fuel d h (option_map dsu_last_block_hash prev) = Some m.
Proof.
  intros Hl Hv Hh Hf Hni. destruct (summary_full h l Hv Hh) as (Hb & s & Hi & Hs).
  exists s, (Ok (increment_by (increment_init h) l)). split_and!; [done|by simpl; rewrite Hb|].
  unfold compute_summary_increment.
  assert (iter_blocks_interval fuel (dsi_metadata_chain d) h
            (option_map dsu_last_block_hash prev) true = Some (l, Ok tt)) as ->.
  { destruct prev as [p|]; simpl.
    - by destruct (iter_interval_missing fuel _ _ _ _ true Hl Hf (Hni p eq_refl)).
    - unfold iter_blocks_interval. by rewrite (interval_loop_all _ _ _ _ _ Hl Hf). }
  rewrite increment_blocks_ok; [done|apply increment_init_wf|by apply valid_chain_resolved].
Qed.

Lemma compute_increment_above fuel d l1 t b l2 h p :
  let l := l1 ++ (t, b) :: l2 in
  linked (meta_block_repo (dsi_metadata_chain d)) (Some h) l -> valid_chain l ->
  head_hash l = Some h -> length l < fuel ->
  dsu_last_block_hash p = t -> summary_of ((t, b) :: l2) = Some p ->
  exists s m, summary_of l = Some s /\ summary_from (Some p) m = Ok s /\
    compute_summary_increment fuel d h (Some t) = Some m.
Proof.
  intros l Hl Hv Hh Hf <- Hp. destruct (summary_incremental h l1 _ p Hv Hh Hp) as (Hb & s & Ha & Hs).
  exists s, (Ok (increment_by (increment_init h) l1)). split_and!; [done|by simpl; rewrite Hb|].
  unfold compute_summary_increment.
  destruct (iter_interval_found fuel _ _ _ _ _ _ true Hl) as [-> _].
  { unfold l in Hf. rewrite length_app in Hf. lia. }
  rewrite increment_blocks_ok; [done|apply increment_init_wf|].
  intros hb tr i Hin. apply (valid_chain_resolved l Hv). apply elem_of_app. by left.
Qed.

(** The blocks an update looks at, and the summary it computes from them. *)
Lemma compute_increment_ok fuel d l h prev :
  chain_state (dsi_metadata_chain d) l -> head_hash l = Some h -> length l < fuel ->
  summary_valid prev l ->
  exists s m, summary_of l = Some s /\ summary_from prev m = Ok s /\
    compute_summary_increment fuel d h (option_map dsu_last_block_hash prev) = Some m.
Proof.
  intros [Hhead Hl Hv] Hh Hf Hprev. rewrite Hh in Hl.
  destruct prev as [p|]; [|by apply compute_increment_full].
  destruct (decide (dsu_last_block_hash p ∈ l.*1)) as [Hin|Hni].
  2:{ apply compute_increment_full; try done. by intros ? [= <-]. }
  apply list_elem_of_fmap in Hin as ([t b] & Ht & Hin). simpl in Ht.
  apply list_elem_of_split in Hin as (l1 & l2 & ->).
  destruct (Hprev p eq_refl) as (l0 & Hp & H0). specialize (H0 l1 ((t, b) :: l2) eq_refl).
  simpl in H0. rewrite Ht in H0. rewrite (H0 eq_refl) in Hp. simpl. rewrite Ht.
  by apply compute_increment_above with (b := b) (l2 := l2).
Qed.

(** Reading the summary of a dataset brings it up to date. *)
Lemma get_summary_ok fuel d l prev :
  chain_state (dsi_metadata_chain d) l -> l <> [] -> length l < fuel ->
  read_summary d = Ok prev -> summary_valid prev l ->
  exists s x d', summary_of l = Some s /\
    get_summary fuel d GetSummaryOpts_default = Some (x, d') /\
    dsi_metadata_chain d' = dsi_metadata_chain d /\
    (x = Ok s /\ read_summary d' = Ok (Some s) \/
     is_ok (write_summary d s).1 = false /\ is_ok x = false).
Proof.
  intros Hst Hne Hf Hr Hprev. destruct (head_hash l) as [h|] eqn:Hh; [|by destruct l].
  assert (Hhead : resolve_ref (dsi_metadata_chain d) BlockRef_Head = Ok h).
  { pose proof (cs_head _ _ Hst) as Hi. unfold head_is, append_actual_ref in Hi. rewrite Hh in Hi.
    unfold resolve_ref. by destruct (rr_get _ _) as [?|[]|]; simplify_eq. }
  unfold get_summary. rewrite Hr. simpl. unfold update_summary. rewrite Hhead.
  destruct (compute_increment_ok fuel d l h prev Hst Hh Hf Hprev) as (s & m & Hs & Hm & Hc).
  exists s. case_decide as Hd.
  - destruct prev as [p|]; [|done]. injection Hd as Hp.
    destruct (Hprev p eq_refl) as (l0 & Hp0 & H0). specialize (H0 [] l eq_refl).
    rewrite Hp in H0. rewrite (H0 Hh), Hs in Hp0. injection Hp0 as <-.
    eexists _, d. split_and!; [done..|]. by left.
  - rewrite Hc. unfold summary_from in Hm. rewrite Hm.
    destruct (write_summary d s) as [x d'] eqn:Hw. eexists _, d'. split; [done|]. split; [done|].
    split; [by eapply write_summary_chain|].
    destruct x as [[]|e|]; simpl; [left; split; [done|by eapply write_read_summary]|by right..].
Qed.
End SummaryProofs.

(** * Commits keep a dataset consistent *)

Section CommitProofs.
Context {C : BlockCodec} {SC : SummaryCodec} {DH : DataHash} {BR RR DR CR IR : Type}
        `{!MetadataBlockRepository BR} `{!ReferenceRepository RR}
        `{DO : !ObjectRepository DR} `{CO : !ObjectRepository CR} `{!NamedObjectRepository IR}
        `{!LawfulBlockRepo BR, !LawfulRefRepo RR}.

Implicit Types (d : DatasetImpl BR RR DR CR IR) (l : list HashedMetadataBlock).

Definition object_present {R} `{!ObjectRepository R} (repo : R) (h : option Multihash) : Prop :=
  forall x, h = Some x -> or_contains repo x = Ok true.

(** The objects an event names are in the repositories of the dataset. *)
Definition objects_present d (e : MetadataEvent) : Prop :=
  forall s, as_data_stream_event e = Some s ->
    object_present (dsi_data_repo d) (option_map ds_physical_hash (mds_new_data s)) /\
    object_present (dsi_checkpoint_repo d) (option_map cp_physical_hash (mds_new_checkpoint s)).

(** A consistent dataset: a valid chain that names only stored objects. *)
Record dataset_state d l : Prop := {
  dst_chain : chain_state (dsi_metadata_chain d) l;
  dst_objects : forall hb, hb ∈ l -> objects_present d (mb_event hb.2)
}.

(** No two different blocks have the hash of the block about to be committed. *)
Definition commit_fresh d (opts : CommitOpts) : Prop :=
  forall b, commit_prev_block d opts = Ok (mb_prev_block_hash b) ->
    commit_sequence_number d (mb_prev_block_hash b) = Ok (mb_sequence_number b) ->
    no_collision (dsi_metadata_chain d) b (commit_append_opts opts).

(** What a commit of [event] may lead to. *)
Definition commits l (event : MetadataEvent) (x : res CommitError CommitResult) d' : Prop :=
  match x with
  | Ok r => exists b, mb_event b = event /\ mb_prev_block_hash b = head_hash l /\
              cmr_old_head r = head_hash l /\ dataset_state d' ((cmr_new_head r, b) :: l)
  | _ => dataset_state d' l
  end.

Lemma check_object_present {R} `{!ObjectRepository R} (repo : R) h :
  check_object repo h = Ok tt <-> object_present repo h.
Proof.
  unfold check_object, object_present. destruct h as [h|]; [|naive_solver].
  destruct (or_contains repo h) as [[]| |] eqn:Hc; split; try done; try (by intros ? ? [= <-]);
    intros H; specialize (H h eq_refl); congruence.
Qed.

Lemma check_event_objects_ok d e : check_event_objects d e = Ok tt <-> objects_present d e.
Proof.
  unfold check_event_objects, objects_present.
  destruct (as_data_stream_event e) as [s|]; [|naive_solver].
  split.
  - intros H ? [= <-]. rewrite <- !check_object_present.
    by destruct (check_object (dsi_data_repo d) _) as [[]| |].
  - intros H. destruct (H s eq_refl) as [Hd Hc].
    apply check_object_present in Hd, Hc. by rewrite Hd.
Qed.

(** The block a commit builds. *)
Lemma commit_block_ok d now event opts b :
  commit_block d now event opts = Ok b ->
  mb_event b = event /\ commit_prev_block d opts = Ok (mb_prev_block_hash b) /\
  commit_sequence_number d (mb_prev_block_hash b) = Ok (mb_sequence_number b) /\
  (cmo_check_object_refs opts = true -> objects_present d event).
Proof.
  unfold commit_block.
  destruct (if cmo_check_object_refs opts then _ else _) as [[]| |] eqn:Hc; simpl; [|done..].
  destruct (commit_prev_block d opts) as [p| |]; simpl; [|done..].
  destruct (commit_sequence_number d p) as [n| |] eqn:Hn; simpl; [|done..].
  intros [= <-]. simpl. split_and!; [done..|].
  intros Ht. rewrite Ht in Hc. by apply check_event_objects_ok.
Qed.

Lemma dataset_state_frame d d' l :
  chain_state (dsi_metadata_chain d') l ->
  (forall e, objects_present d e -> objects_present d' e) ->
  dataset_state d l -> dataset_state d' l.
Proof. intros Hc Ho []. split; auto. Qed.

Lemma commit_event_state fuel d l now event opts x d' :
  dataset_state d l -> length l < fuel -> cmo_update_block_ref opts = true ->
  commit_fresh d opts -> (cmo_check_object_refs opts = true \/ objects_present d event) ->
  commit_event fuel d now event opts = Some (x, d') -> commits l event x d'.
Proof.
  intros Hst Hf Hu Hcol Hobj. unfold commit_event.
  destruct (commit_block d now event opts) as [b| |] eqn:Hb; [|by intros [= <- <-]..].
  apply commit_block_ok in Hb as (He & Hp & Hn & Hchk).
  specialize (Hcol b Hp Hn). assert (Hob : objects_present d event) by tauto.
  unfold commit_append_opts in *. rewrite Hu in *.
  destruct (append fuel _ b _) as [[y c]|] eqn:Ha; [|done]. intros [= <- <-].
  destruct y as [h|e|]; simpl;
    [|by apply (dataset_state_frame d);
        [eapply append_failed_state; [apply Hst|apply Hcol|apply Ha|done]|done|apply Hst]..].
  assert (Hck : checked_opts AppendOpts_default) by by split.
  pose proof Ha as Hok. apply (append_ok_iff _ _ _ _ _ _ _ (dst_chain _ _ Hst) Hf Hck) in Hok
    as (Hprev & _ & br & rr & Hi & _).
  exists b. split_and!; [done..|]. split; simpl.
  - eapply (append_extends fuel); [apply Hst|done..| |done].
    intros b' Hin. eapply (Hcol h b'); [by rewrite Hi|].
    eapply (linked_lookup _ _ _ _ _ (cs_linked _ _ (dst_chain _ _ Hst))), Hin.
  - intros hb [->|Hin]%elem_of_cons; simpl; [by rewrite He|].
    by apply (dst_objects _ _ Hst).
Qed.

(** The predecessor a commit asks for is in the chain. *)
Definition prev_in_chain l (opts : CommitOpts) : Prop :=
  forall o, cmo_prev_block_hash opts = Some o -> exists l1 l2, l = l1 ++ l2 /\ head_hash l2 = o.

Lemma commit_event_returns fuel d l now event opts :
  chain_state (dsi_metadata_chain d) l -> length l < fuel -> prev_in_chain l opts ->
  exists x d', commit_event fuel d now event opts = Some (x, d').
Proof.
  intros Hst Hf Hp. unfold commit_event.
  destruct (commit_block d now event opts) as [b| |] eqn:Hb; [|eauto..].
  apply commit_block_ok in Hb as (_ & Hprev & _).
  assert (exists l1 l2, l = l1 ++ l2 /\ head_hash l2 = mb_prev_block_hash b) as (l1 & l2 & -> & Hl2).
  { revert Hprev. unfold commit_prev_block.
    destruct (cmo_prev_block_hash opts) as [o|] eqn:Ho; [intros [= <-]; by apply Hp|].
    pose proof (cs_head _ _ Hst) as Hh. unfold head_is, append_actual_ref, resolve_ref in *.
    destruct (cmo_block_ref opts). revert Hh.
    destruct (rr_get _ _) as [h|[]|]; try done; intros Hh Heq; exists [], l; (split; [done|congruence]). }
  destruct (append_some fuel (dsi_metadata_chain d) l2 b (commit_append_opts opts))
    as (x & c & ->); [|rewrite length_app in Hf; lia|eauto].
  rewrite <- Hl2. eapply linked_suffix, Hst.
Qed.

(** ** Moving files *)

Section Files.
Context `{!LawfulObjectRepo DR, !LawfulObjectRepo CR}.

Lemma commit_object_ok {R} `{!ObjectRepository R} `{!LawfulObjectRepo R} (repo : R) o x r' :
  commit_object repo o = (x, r') ->
  (forall h : option Multihash, object_present repo h -> object_present r' h) /\
  (x = Ok tt -> forall h n f, o = Some (h, n, f) -> object_present r' (Some h)).
Proof.
  unfold commit_object. destruct o as [[[h n] f]|]; [|by intros [= <- <-]].
  destruct (or_insert_file_move repo f _) as [y r1] eqn:Hm. intros [= <- <-]. split.
  - intros h' Hh x ->. eapply or_move_keeps; [done|]. by apply Hh.
  - intros Hy ? ? ? [= <- <- <-] x [= <-]. destruct y as [h'| |]; simpl in Hy; [|done..].
    rewrite <- (or_move_hash _ _ _ _ _ h Hm eq_refl). by eapply or_move_present.
Qed.

(** The files of a commit are in the repositories once they have been moved,
    and no object is lost, even if moving fails half-way. *)
Lemma commit_objects_ok d ds data cm cf x d' :
  commit_objects d ds data cm cf = (x, d') ->
  dsi_metadata_chain d' = dsi_metadata_chain d /\ dsi_info_repo d' = dsi_info_repo d /\
  (forall e, objects_present d e -> objects_present d' e) /\
  (x = Ok tt ->
   object_present (dsi_data_repo d') (option_map ds_physical_hash ds) /\
   ((cf = None -> object_present (dsi_checkpoint_repo d) (option_map cp_physical_hash cm)) ->
    object_present (dsi_checkpoint_repo d') (option_map cp_physical_hash cm))).
Proof.
  unfold commit_objects.
  destruct (match ds with None => _ | Some _ => _ end) as [o| |] eqn:Ho; [|by intros [= <- <-]..].
  destruct (commit_object (dsi_data_repo d) o) as [y dr] eqn:Hd.
  destruct (commit_object_ok _ _ _ _ Hd) as [Hkd Hnd].
  destruct y as [[]| |]; [|intros [= <- <-]; split_and!; try done;
                          intros ev He s Hs; destruct (He s Hs); split; auto..].
  clear Hd. simpl. destruct (commit_object (dsi_checkpoint_repo d) _) as [z cr] eqn:Hc.
  destruct (commit_object_ok _ _ _ _ Hc) as [Hkc Hnc]. simpl in *. intros [= <- <-]. simpl.
  split_and!; [done..| |].
  - intros e He s Hs. destruct (He s Hs). split; simpl; auto.
  - intros ->. split.
    + destruct ds as [s|]; [|done]. destruct data as [f|]; [|done]. injection Ho as <-.
      by eapply Hnd.
    + intros Hcf. destruct cm as [m|]; [|done]. destruct cf as [f|].
      * by eapply Hnc.
      * apply Hkc. by apply Hcf.
Qed.

Lemma prepare_checkpoint_ok d cp m :
  prepare_checkpoint d cp = Ok m -> cp ≫= checkpoint_file = None ->
  object_present (dsi_checkpoint_repo d) (option_map cp_physical_hash m).
Proof.
  unfold prepare_checkpoint. destruct cp as [[f|h]|]; simpl; [done| |by intros [= <-]].
  destruct (or_get_size _ h) as [n| |] eqn:Hs; simpl; [|done..]. intros [= <-] _ x [= <-].
  by eapply or_sized_present.
Qed.

Lemma prepare_objects_ok d iv data cp s m :
  prepare_objects d iv data cp = Ok (s, m) -> prepare_checkpoint d cp = Ok m.
Proof.
  unfold prepare_objects. destruct (prepare_data_slice iv data); simpl; [|done..].
  destruct (prepare_checkpoint d cp); simpl; [|done..]. by intros [= _ <-].
Qed.

Lemma commit_prepared_state fuel d l now event s ds data cm cp opts x d' :
  dataset_state d l -> length l < fuel -> cmo_update_block_ref opts = true ->
  commit_fresh d opts -> prepare_checkpoint d cp = Ok cm ->
  as_data_stream_event event = Some s -> mds_new_data s = ds -> mds_new_checkpoint s = cm ->
  commit_prepared fuel d now event ds data cm cp opts = Some (x, d') -> commits l event x d'.
Proof.
  intros Hst Hf Hu Hcol Hcp Hs <- <-. unfold commit_prepared.
  destruct (commit_objects d _ _ _ _) as [y d1] eqn:Ho.
  destruct (commit_objects_ok _ _ _ _ _ _ _ Ho) as (Hc & Hi & Hk & Hn).
  assert (Hst1 : dataset_state d1 l).
  { apply (dataset_state_frame d); [rewrite Hc; apply Hst|done|done]. }
  destruct y as [[]| |]; [|by intros [= <- <-]..]. destruct (Hn eq_refl) as [Hnd Hnc].
  apply commit_event_state; try done.
  - intros b Hp Hq. unfold commit_fresh in Hcol.
    unfold commit_prev_block, commit_sequence_number, commit_append_opts in *. simpl in *.
    rewrite Hc in *. by apply Hcol.
  - right. intros s' Hs'. rewrite Hs in Hs'. injection Hs' as <-. split; [done|].
    apply Hnc. intros Hcf. by eapply prepare_checkpoint_ok.
Qed.

(** Both commits of data. *)
Lemma commit_add_data_state fuel d l now params data cp opts x d' :
  dataset_state d l -> length l < fuel -> cmo_update_block_ref opts = true ->
  commit_fresh d opts ->
  commit_add_data fuel d now params data cp opts = Some (x, d') ->
  exists nd nc, (is_ok x = true ->
      prepare_objects d (adp_new_offset_interval params) data cp = Ok (nd, nc)) /\
    commits l (MetadataEvent_AddData
    (mkAddData (adp_prev_checkpoint params) (adp_prev_offset params) nd nc
       (adp_new_watermark params) (adp_new_source_state params))) x d'.
Proof.
  intros Hst Hf Hu Hcol. unfold commit_add_data.
  destruct (prepare_objects d _ data cp) as [[nd nc]| |] eqn:Hp;
    [|intros [= <- <-]; by exists None, None..].
  intros Hc. exists nd, nc. split; [done|]. eapply commit_prepared_state; try done.
  by eapply prepare_objects_ok.
Qed.

Lemma commit_execute_transform_state fuel d l now params data cp opts x d' :
  dataset_state d l -> length l < fuel -> cmo_update_block_ref opts = true ->
  commit_fresh d opts ->
  commit_execute_transform fuel d now params data cp opts = Some (x, d') ->
  exists nd nc, (is_ok x = true ->
      prepare_objects d (etp_new_offset_interval params) data cp = Ok (nd, nc)) /\
    commits l (MetadataEvent_ExecuteTransform
    (mkExecuteTransform (etp_query_inputs params) (etp_prev_checkpoint params)
       (etp_prev_offset params) nd nc (etp_new_watermark params))) x d'.
Proof.
  intros Hst Hf Hu Hcol. unfold commit_execute_transform, prepare_execute_transform.
  destruct (prepare_objects d _ data cp) as [[nd nc]| |] eqn:Hp; simpl;
    [|intros [= <- <-]; by exists None, None..].
  intros Hc. exists nd, nc. split; [done|]. eapply commit_prepared_state; try done.
  by eapply prepare_objects_ok.
Qed.

Lemma commit_prepared_returns fuel d l now event ds data cm cp opts :
  chain_state (dsi_metadata_chain d) l -> length l < fuel -> prev_in_chain l opts ->
  exists x d', commit_prepared fuel d now event ds data cm cp opts = Some (x, d').
Proof.
  intros Hst Hf Hp. unfold commit_prepared.
  destruct (commit_objects d _ _ _ _) as [y d1] eqn:Ho.
  apply commit_objects_ok in Ho as (Hc & _). destruct y; [|eauto..].
  apply commit_event_returns with (l := l); [by rewrite Hc|done|done].
Qed.

Lemma commit_add_data_returns fuel d l now params data cp opts :
  chain_state (dsi_metadata_chain d) l -> length l < fuel -> prev_in_chain l opts ->
  exists x d', commit_add_data fuel d now params data cp opts = Some (x, d').
Proof.
  intros. unfold commit_add_data. destruct (prepare_objects _ _ _ _) as [[nd nc]| |]; [|eauto..].
  by apply commit_prepared_returns with l.
Qed.

Lemma commit_execute_transform_returns fuel d l now params data cp opts :
  chain_state (dsi_metadata_chain d) l -> length l < fuel -> prev_in_chain l opts ->
  exists x d', commit_execute_transform fuel d now params data cp opts = Some (x, d').
Proof.
  intros. unfold commit_execute_transform.
  destruct (prepare_execute_transform _ _ _ _) as [e| |]; [|eauto..].
  by apply commit_prepared_returns with l.
Qed.
End Files.
End CommitProofs.
