(* ===== verification/Sync.v ===== *)
(** Synchronization of two datasets by the Simple Transfer Protocol.

    Sources: src/infra/core/src/utils/simple_transfer_protocol.rs and the types of
    src/domain/core/src/services/sync_service.rs.

    The source is read, the destination is an explicit state.  The downloads of
    data and checkpoint files run concurrently: a download is suspended between
    opening the stream of the source and storing it, and a schedule, a list of
    numbers, decides which of the downloads in flight goes on next.  The statuses
    that are reported to the listener while data is transferred and blocks are
    committed are collected in a log.  [compare_chains] does not count the blocks
    it reads: the counters it leaves are an argument, and the statuses it reports
    are not in the log. *)

From S2P Require Import Prelude Multiformats Grammar Dids Identity References Dtos ChainRepos ObjectRepoFs.
From S2P Require Import MetadataChain ChainComparator ChainVisitors ChainValidators ChainRules ChainAppend.
From S2P Require Import ChainInvariants Dataset.
From stdpp Require Import pretty.
From Stdlib Require Import Ascii.

(** * Requests, results and errors *)

Inductive SyncResult :=
| SyncResult_UpToDate
| SyncResult_Updated (old_head : option Multihash) (new_head : Multihash) (num_blocks : u64).

Inductive SyncStage := SyncStage_ReadMetadata | SyncStage_TransferData | SyncStage_CommitBlocks.

Record SyncPartyStats := mkSyncPartyStats {
  sps_metadata_blocks_read : u64;
  sps_metadata_blocks_written : u64;
  sps_checkpoints_read : u64;
  sps_checkpoints_written : u64;
  sps_data_slices_read : u64;
  sps_data_slices_written : u64;
  sps_data_records_read : u64;
  sps_data_records_written : u64;
  sps_bytes_read : u64;
  sps_bytes_written : u64
}.

Definition SyncPartyStats_default : SyncPartyStats := mkSyncPartyStats 0 0 0 0 0 0 0 0 0 0.

Record SyncStats := mkSyncStats {
  sst_src : SyncPartyStats;
  sst_src_estimated : SyncPartyStats;
  sst_dst : SyncPartyStats;
  sst_dst_estimated : SyncPartyStats
}.

Definition SyncStats_default : SyncStats :=
  mkSyncStats SyncPartyStats_default SyncPartyStats_default SyncPartyStats_default
    SyncPartyStats_default.

Record DatasetsDivergedErrorDetail := mkDatasetsDivergedErrorDetail {
  ddd_uncommon_blocks_in_src : u64;
  ddd_uncommon_blocks_in_dst : u64
}.

Record DatasetsDivergedError := mkDatasetsDivergedError {
  dde_src_head : Multihash;
  dde_dst_head : Multihash;
  dde_detail : option DatasetsDivergedErrorDetail
}.

Record DestinationAheadError := mkDestinationAheadError {
  dae_src_head : Multihash;
  dae_dst_head : Multihash;
  dae_dst_ahead_size : nat
}.

Inductive CreateDatasetError :=
| CreateDatasetError_EmptyDataset
| CreateDatasetError_NameCollision (alias : DatasetAlias)
| CreateDatasetError_RefCollision (id : DatasetID)
| CreateDatasetError_Internal (e : InternalError).

Record UnsupportedProtocolError (Url : Type) := mkUnsupportedProtocolError {
  upe_message : option string;
  upe_url : Url
}.
Arguments mkUnsupportedProtocolError {Url}.

Inductive SyncError (Url : Type) :=
| SyncError_DatasetNotFound (dataset_ref : DatasetRefAny Url)
| SyncError_RefCollision (id : DatasetID)
| SyncError_CreateDatasetFailed (e : CreateDatasetError)
| SyncError_UnsupportedProtocol (e : UnsupportedProtocolError Url)
| SyncError_RepositoryNotFound (repo_name : RepoName)
| SyncError_DatasetsDiverged (e : DatasetsDivergedError)
| SyncError_DestinationAhead (e : DestinationAheadError)
| SyncError_Corrupted (e : CorruptedSourceError)
| SyncError_UpdatedConcurrently (e : RefCASError)
| SyncError_Access (e : AccessError)
| SyncError_Internal (e : InternalError).
Arguments SyncError_DatasetNotFound {Url}.
Arguments SyncError_RefCollision {Url}.
Arguments SyncError_CreateDatasetFailed {Url}.
Arguments SyncError_UnsupportedProtocol {Url}.
Arguments SyncError_RepositoryNotFound {Url}.
Arguments SyncError_DatasetsDiverged {Url}.
Arguments SyncError_DestinationAhead {Url}.
Arguments SyncError_Corrupted {Url}.
Arguments SyncError_UpdatedConcurrently {Url}.
Arguments SyncError_Access {Url}.
Arguments SyncError_Internal {Url}.

Definition SyncError_from_CompareChainsError {Url} (v : CompareChainsError) : SyncError Url :=
  match v with
  | CompareChainsError_Corrupted e => SyncError_Corrupted e
  | CompareChainsError_Access e => SyncError_Access e
  | CompareChainsError_Internal e => SyncError_Internal e
  end.

(** * Counting *)

Definition SyncPartyStats_add (a b : SyncPartyStats) : SyncPartyStats :=
  mkSyncPartyStats
    (u64_add (sps_metadata_blocks_read a) (sps_metadata_blocks_read b))
    (u64_add (sps_metadata_blocks_written a) (sps_metadata_blocks_written b))
    (u64_add (sps_checkpoints_read a) (sps_checkpoints_read b))
    (u64_add (sps_checkpoints_written a) (sps_checkpoints_written b))
    (u64_add (sps_data_slices_read a) (sps_data_slices_read b))
    (u64_add (sps_data_slices_written a) (sps_data_slices_written b))
    (u64_add (sps_data_records_read a) (sps_data_records_read b))
    (u64_add (sps_data_records_written a) (sps_data_records_written b))
    (u64_add (sps_bytes_read a) (sps_bytes_read b))
    (u64_add (sps_bytes_written a) (sps_bytes_written b)).

(** What reading or writing a data slice, a checkpoint or blocks adds. *)
Definition slice_read (s : DataSlice) : SyncPartyStats :=
  mkSyncPartyStats 0 0 0 0 1 0 (DataSlice_num_records s) 0 (ds_size s) 0.
Definition slice_written (s : DataSlice) : SyncPartyStats :=
  mkSyncPartyStats 0 0 0 0 0 1 0 (DataSlice_num_records s) 0 (ds_size s).
Definition checkpoint_read (c : Checkpoint) : SyncPartyStats :=
  mkSyncPartyStats 0 0 1 0 0 0 0 0 (cp_size c) 0.
Definition checkpoint_written (c : Checkpoint) : SyncPartyStats :=
  mkSyncPartyStats 0 0 0 1 0 0 0 0 0 (cp_size c).
Definition blocks_written (n : Z) : SyncPartyStats :=
  mkSyncPartyStats 0 n 0 0 0 0 0 0 0 0.

Definition count_transfer (stats : SyncStats) (r w : SyncPartyStats) : SyncStats :=
  mkSyncStats (SyncPartyStats_add (sst_src stats) r) (sst_src_estimated stats)
    (SyncPartyStats_add (sst_dst stats) w) (sst_dst_estimated stats).

Definition count_estimate (stats : SyncStats) (r w : SyncPartyStats) : SyncStats :=
  mkSyncStats (sst_src stats) (SyncPartyStats_add (sst_src_estimated stats) r)
    (sst_dst stats) (SyncPartyStats_add (sst_dst_estimated stats) w).

(** Blocks that are written, and that will be. *)
Definition count_blocks (stats : SyncStats) (n : Z) : SyncStats :=
  mkSyncStats (sst_src stats) (sst_src_estimated stats)
    (SyncPartyStats_add (sst_dst stats) (blocks_written n)) (sst_dst_estimated stats).

Definition count_estimated_blocks (stats : SyncStats) (n : Z) : SyncStats :=
  mkSyncStats (sst_src stats) (sst_src_estimated stats) (sst_dst stats)
    (SyncPartyStats_add (sst_dst_estimated stats) (blocks_written n)).

(** The counters of [CompareChainsListenerAdapter] when the comparison is over. *)
Record CompareReads := mkCompareReads {
  crd_lhs_expected_reads : u64;
  crd_lhs_read : u64;
  crd_rhs_expected_reads : u64;
  crd_rhs_read : u64
}.

Definition into_status (r : CompareReads) : SyncStats :=
  let reads n := mkSyncPartyStats n 0 0 0 0 0 0 0 0 0 in
  mkSyncStats (reads (crd_lhs_read r)) (reads (crd_lhs_expected_reads r))
    (reads (crd_rhs_read r)) (reads (crd_rhs_expected_reads r)).

(** * The limit of concurrent transfers *)

Definition DEFAULT_SIMPLE_PROTOCOL_MAX_PARALLEL_TRANSFERS : nat := 10.

(** [str::parse::<usize>]: an optional plus sign and decimal digits. *)
Fixpoint parse_digits (acc : Z) (s : str) : option Z :=
  match s with
  | [] => Some acc
  | c :: s' =>
      if in_range "0"%char "9"%char c then
        let acc' := (acc * 10 + (Z.of_N (N_of_ascii c) - 48))%Z in
        if decide (acc' < two64)%Z then parse_digits acc' s' else None
      else None
  end.

Definition parse_usize (s : str) : option Z :=
  let digits := match s with c :: s' => if decide (c = "+"%char) then s' else s | [] => s end in
  match digits with [] => None | _ => parse_digits 0 digits end.

Record SimpleProtocolTransferOptions := mkSimpleProtocolTransferOptions {
  spto_max_parallel_transfers : nat
}.

(** The argument is the value of the environment variable. *)
Definition SimpleProtocolTransferOptions_default (env_var : option str)
    : SimpleProtocolTransferOptions :=
  mkSimpleProtocolTransferOptions
    (match env_var with
     | Some string_value =>
         match parse_usize string_value with
         | Some n => Z.to_nat n
         | None => DEFAULT_SIMPLE_PROTOCOL_MAX_PARALLEL_TRANSFERS
         end
     | None => DEFAULT_SIMPLE_PROTOCOL_MAX_PARALLEL_TRANSFERS
     end).

(** * The protocol *)

Section Protocol.
Context {C : BlockCodec} {TC : TextCodecs} {Url : Type}
        {BR1 RR1 DR1 CR1 IR1 BR RR DR CR IR : Type}
        `{!MetadataBlockRepository BR1} `{!ReferenceRepository RR1}
        `{!ObjectRepository DR1} `{!ObjectRepository CR1}
        `{!MetadataBlockRepository BR} `{!ReferenceRepository RR}
        `{!ObjectRepository DR} `{!ObjectRepository CR}.

Abbreviation Source := (DatasetImpl BR1 RR1 DR1 CR1 IR1).
Abbreviation Destination := (DatasetImpl BR RR DR CR IR).
Abbreviation SyncStatus := (SyncStage * SyncStats)%type.

Implicit Types (src : Source) (dst : Destination).

Definition with_chain dst (c : MetadataChainImpl BR RR) : Destination :=
  mkDatasetImpl c (dsi_data_repo dst) (dsi_checkpoint_repo dst) (dsi_info_repo dst).
Definition with_data_repo dst (r : DR) : Destination :=
  mkDatasetImpl (dsi_metadata_chain dst) r (dsi_checkpoint_repo dst) (dsi_info_repo dst).
Definition with_checkpoint_repo dst (r : CR) : Destination :=
  mkDatasetImpl (dsi_metadata_chain dst) (dsi_data_repo dst) r (dsi_info_repo dst).

(** What the downloads and the commits share: the destination, the statistics and
    the statuses reported so far. *)
Record Transfer := mkTransfer {
  tf_dst : Destination;
  tf_stats : SyncStats;
  tf_log : list SyncStatus
}.

Definition corrupted {A} (message : string) : res (SyncError Url) A :=
  Err (SyncError_Corrupted (mkCorruptedSourceError message)).

Definition get_src_head (src_ref : DatasetRefAny Url) (src_chain : MetadataChainImpl BR1 RR1)
    : res (SyncError Url) Multihash :=
  match resolve_ref src_chain BlockRef_Head with
  | Ok head => Ok head
  | Err (GetRefError_NotFound _) => Err (SyncError_DatasetNotFound src_ref)
  | Err (GetRefError_Access e) => Err (SyncError_Access e)
  | Err (GetRefError_Internal e) => Err (SyncError_Internal e)
  | Panic => Panic
  end.

Definition get_dest_head (dst_chain : MetadataChainImpl BR RR)
    : res (SyncError Url) (option Multihash) :=
  match resolve_ref dst_chain BlockRef_Head with
  | Ok h => Ok (Some h)
  | Err (GetRefError_NotFound _) => Ok None
  | Err (GetRefError_Access e) => Err (SyncError_Access e)
  | Err (GetRefError_Internal e) => Err (SyncError_Internal e)
  | Panic => Panic
  end.

Definition map_block_iteration_error {A} (e : IterBlocksError) : res (SyncError Url) A :=
  match e with
  | IterBlocksError_RefNotFound _ => Err (SyncError_Internal mkInternalError)
  | IterBlocksError_BlockNotFound _ => corrupted "Source metadata chain is broken"
  | IterBlocksError_BlockVersion _ => corrupted "Source metadata chain is broken"
  | IterBlocksError_BlockMalformed _ => corrupted "Source metadata chain is broken"
  | IterBlocksError_InvalidInterval _ => Panic
  | IterBlocksError_Access e => Err (SyncError_Access e)
  | IterBlocksError_Internal e => Err (SyncError_Internal e)
  end.

(** ** Downloads *)

(** The stream of an object of the source. *)
Definition open_stream {R} `{!ObjectRepository R} (repo : R) (hash : Multihash) (missing : string)
    : res (SyncError Url) AsyncReadObj :=
  match or_get_stream repo hash with
  | Ok s => Ok s
  | Err (GetError_NotFound _) => corrupted missing
  | Err (GetError_Access e) => Err (SyncError_Access e)
  | Err (GetError_Internal e) => Err (SyncError_Internal e)
  | Panic => Panic
  end.

(** The stream is written to the destination. *)
Definition store_stream {R} `{!ObjectRepository R} (repo : R) (stream : AsyncReadObj)
    (hash : Multihash) (size : u64) (trust_source_hashes : bool) (mismatch : string)
    : res (SyncError Url) unit * R :=
  let '(x, repo') :=
    or_insert_stream repo stream
      (mkInsertOpts (if negb trust_source_hashes then None else Some hash) (Some hash) (Some size)) in
  (match x with
   | Ok _ => Ok tt
   | Err (InsertError_HashMismatch _) => corrupted mismatch
   | Err (InsertError_Access e) => Err (SyncError_Access e)
   | Err (InsertError_Internal e) => Err (SyncError_Internal e)
   | Panic => Panic
   end, repo').

Definition data_mismatch : string :=
  "Data file hash declared by the source didn't match the computed - this may be an indication of hashing algorithm mismatch or an attempted tampering".
Definition checkpoint_mismatch : string :=
  "Checkpoint file hash declared by the source didn't match the computed - this may be an indication of hashing algorithm mismatch or an attempted tampering".

(** The counters are updated under the lock, and the status is reported. *)
Definition report_transfer (t : Transfer) dst (r w : SyncPartyStats) : Transfer :=
  let stats := count_transfer (tf_stats t) r w in
  mkTransfer dst stats (tf_log t ++ [(SyncStage_TransferData, stats)]).

Inductive Download :=
| Download_Data (data_slice : DataSlice)
| Download_Checkpoint (checkpoint : Checkpoint).

(** Up to the first point at which a download is suspended. *)
Definition open_download src (d : Download) : res (SyncError Url) AsyncReadObj :=
  match d with
  | Download_Data s =>
      open_stream (dsi_data_repo src) (ds_physical_hash s) "Source data file is missing"
  | Download_Checkpoint c =>
      open_stream (dsi_checkpoint_repo src) (cp_physical_hash c) "Source checkpoint file is missing"
  end.

(** From there on. *)
Definition finish_download (trust_source_hashes : bool) (d : Download) (stream : AsyncReadObj)
    (t : Transfer) : res (SyncError Url) unit * Transfer :=
  let dst := tf_dst t in
  match d with
  | Download_Data s =>
      let '(x, r) := store_stream (dsi_data_repo dst) stream (ds_physical_hash s) (ds_size s)
                       trust_source_hashes data_mismatch in
      let dst' := with_data_repo dst r in
      (x, match x with
          | Ok _ => report_transfer t dst' (slice_read s) (slice_written s)
          | _ => mkTransfer dst' (tf_stats t) (tf_log t)
          end)
  | Download_Checkpoint c =>
      let '(x, r) := store_stream (dsi_checkpoint_repo dst) stream (cp_physical_hash c) (cp_size c)
                       trust_source_hashes checkpoint_mismatch in
      let dst' := with_checkpoint_repo dst r in
      (x, match x with
          | Ok _ => report_transfer t dst' (checkpoint_read c) (checkpoint_written c)
          | _ => mkTransfer dst' (tf_stats t) (tf_log t)
          end)
  end.

(** A download that nothing interrupts. *)
Definition download src (trust_source_hashes : bool) (d : Download) (t : Transfer)
    : res (SyncError Url) unit * Transfer :=
  match open_download src d with
  | Ok stream => finish_download trust_source_hashes d stream t
  | Err e => (Err e, t)
  | Panic => (Panic, t)
  end.

Definition download_block_data src (data_slice : DataSlice) := fun trust_source_hashes =>
  download src trust_source_hashes (Download_Data data_slice).
Definition download_block_checkpoint src (checkpoint : Checkpoint) := fun trust_source_hashes =>
  download src trust_source_hashes (Download_Checkpoint checkpoint).

(** Where a download in flight stands. *)
Inductive Progress :=
| Progress_Start (d : Download)
| Progress_Streaming (d : Download) (stream : AsyncReadObj).

(** One step of a download: where it stands next, [None] when it is done. *)
Definition poll src (trust_source_hashes : bool) (p : Progress) (t : Transfer)
    : res (SyncError Url) (option Progress) * Transfer :=
  match p with
  | Progress_Start d => (map_ok (fun s => Some (Progress_Streaming d s)) (open_download src d), t)
  | Progress_Streaming d stream =>
      let '(x, t') := finish_download trust_source_hashes d stream t in (map_ok (fun _ => None) x, t')
  end.

(** Downloads are started up to the limit; 0 stands for no limit. *)
Definition start_downloads (limit : nat) (running : list Progress) (queue : list Download)
    : list Progress * list Download :=
  let room := if decide (limit = 0) then length queue else limit - length running in
  (running ++ map Progress_Start (take room queue), drop room queue).

(** [try_for_each_concurrent]: the first failure drops the downloads in flight. *)
Fixpoint try_for_each_concurrent (fuel : nat) (limit : nat) (schedule : list nat) src
    (trust_source_hashes : bool) (running : list Progress) (queue : list Download) (t : Transfer)
    : option (res (SyncError Url) unit * Transfer) :=
  match fuel with
  | 0 => None
  | S fuel' =>
      let '(running, queue) := start_downloads limit running queue in
      let i := default 0 (head schedule) mod length running in
      match running !! i with
      | None => Some (Ok tt, t)
      | Some p =>
          match poll src trust_source_hashes p t with
          | (Ok (Some p'), t') =>
              try_for_each_concurrent fuel' limit (tail schedule) src trust_source_hashes
                (<[i := p']> running) queue t'
          | (Ok None, t') =>
              try_for_each_concurrent fuel' limit (tail schedule) src trust_source_hashes
                (delete i running) queue t'
          | (Err e, t') => Some (Err e, t')
          | (Panic, t') => Some (Panic, t')
          end
      end
  end.

(** ** Blocks *)

(** The downloads of the blocks, oldest first. *)
Definition block_downloads (b : MetadataBlock) : list Download :=
  match as_data_stream_block b with
  | Some s =>
      match mds_new_data (mbd_event s) with Some d => [Download_Data d] | None => [] end ++
      match mds_new_checkpoint (mbd_event s) with Some c => [Download_Checkpoint c] | None => [] end
  | None => []
  end.

Definition block_download_tasks (blocks : list HashedMetadataBlock) : list Download :=
  concat (map (fun hb => block_downloads hb.2) (rev blocks)).

Definition estimate_block (stats : SyncStats) (b : MetadataBlock) : SyncStats :=
  match as_data_stream_block b with
  | Some s =>
      let stats :=
        match mds_new_data (mbd_event s) with
        | Some d => count_estimate stats (slice_read d) (slice_written d)
        | None => stats
        end in
      match mds_new_checkpoint (mbd_event s) with
      | Some c => count_estimate stats (checkpoint_read c) (checkpoint_written c)
      | None => stats
      end
  | None => stats
  end.

(** The statistics estimated from the metadata. *)
Definition estimate (stats : SyncStats) (blocks : list HashedMetadataBlock) : SyncStats :=
  foldl (fun s hb => estimate_block s hb.2)
    (count_estimated_blocks stats (Z.of_nat (length blocks))) blocks.

(** [Display for Multihash] *)
Definition show_hash (h : Multihash) : res (SyncError Url) string :=
  match MultihashFmt_fmt (Multihash_as_multibase h) with
  | Ok s => Ok (String.string_of_list_ascii s)
  | _ => Panic
  end.

Definition show_u64 (n : u64) : string := pretty (Z.to_N n).

Definition append_failed_message (hash : Multihash) (sequence_number : u64) (e : AppendValidationError)
    : res (SyncError Url) string :=
  match e with
  | AppendValidationError_HashMismatch e =>
      let! actual := show_hash (hme_actual e) in
      let! expected := show_hash (hme_expected e) in
      Ok ("Block hash declared by the source " +:+ actual +:+ " didn't match the computed " +:+ expected
          +:+ " at block " +:+ show_u64 sequence_number +:+
          " - this may be an indication of hashing algorithm mismatch or an attempt to tamper data")%string
  | _ =>
      let! hash := show_hash hash in
      Ok ("Source metadata chain is logically inconsistent at block " +:+ hash +:+
          "[" +:+ show_u64 sequence_number +:+ "]")%string
  end.

Definition append_failed (hash : Multihash) (sequence_number : u64) (e : AppendError)
    : res (SyncError Url) unit :=
  match e with
  | AppendError_InvalidBlock e =>
      let! message := append_failed_message hash sequence_number e in corrupted message
  | AppendError_RefNotFound _ => Panic
  | AppendError_RefCASFailed _ => Panic
  | AppendError_Access e => Err (SyncError_Access e)
  | AppendError_Internal e => Err (SyncError_Internal e)
  end.

(** The head is updated once, after all blocks are stored. *)
Definition sync_append_opts (validation : AppendValidation) (trust_source_hashes : bool)
    (hash : Multihash) : AppendOpts :=
  mkAppendOpts validation None true None
    (if negb trust_source_hashes then None else Some hash) (Some hash).

(** The loop that commits the blocks, given oldest first. *)
Fixpoint commit_blocks (fuel : nat) (validation : AppendValidation) (trust_source_hashes : bool)
    (blocks : list HashedMetadataBlock) (t : Transfer) : option (res (SyncError Url) unit * Transfer) :=
  match blocks with
  | [] => Some (Ok tt, t)
  | (hash, block) :: blocks' =>
      match append fuel (dsi_metadata_chain (tf_dst t)) block
              (sync_append_opts validation trust_source_hashes hash) with
      | None => None
      | Some (x, c) =>
          let dst := with_chain (tf_dst t) c in
          match x with
          | Ok _ =>
              let stats := count_blocks (tf_stats t) 1 in
              commit_blocks fuel validation trust_source_hashes blocks'
                (mkTransfer dst stats (tf_log t ++ [(SyncStage_CommitBlocks, stats)]))
          | Err e =>
              Some (append_failed hash (mb_sequence_number block) e,
                    mkTransfer dst (tf_stats t) (tf_log t))
          | Panic => Some (Panic, mkTransfer dst (tf_stats t) (tf_log t))
          end
      end
  end.

Definition set_ref_failed (e : SetRefError) : SyncError Url :=
  match e with
  | SetRefError_CASFailed e => SyncError_UpdatedConcurrently e
  | SetRefError_Access e => SyncError_Access e
  | SetRefError_Internal e => SyncError_Internal e
  | SetRefError_BlockNotFound _ => SyncError_Internal mkInternalError
  end.

(** Moving the head commits the synchronization. *)
Definition move_head (src_head : Multihash) (dst_head : option Multihash) (t : Transfer)
    : res (SyncError Url) unit * Transfer :=
  let '(x, c) := set_ref (dsi_metadata_chain (tf_dst t)) BlockRef_Head src_head
                   (mkSetRefOpts false (Some dst_head)) in
  (map_err set_ref_failed x, mkTransfer (with_chain (tf_dst t) c) (tf_stats t) (tf_log t)).

(** A download is polled twice, and the turn that finds nothing left ends the
    loop. *)
Definition download_turns (tasks : list Download) : nat := S (2 * length tasks).

Definition synchronize_blocks (fuel : nat) (limit : nat) (schedule : list nat)
    (blocks : list HashedMetadataBlock) src dst (src_head : Multihash) (dst_head : option Multihash)
    (validation : AppendValidation) (trust_source_hashes : bool) (stats : SyncStats)
    (log : list SyncStatus) : option (res (SyncError Url) unit * Transfer) :=
  let stats := estimate stats blocks in
  let tasks := block_download_tasks blocks in
  match try_for_each_concurrent (download_turns tasks) limit schedule src trust_source_hashes [] tasks
          (mkTransfer dst stats (log ++ [(SyncStage_TransferData, stats)])) with
  | None => None
  | Some (Ok _, t) =>
      (* the commits go on from the statistics as they were before the downloads *)
      match commit_blocks fuel validation trust_source_hashes (rev blocks)
              (mkTransfer (tf_dst t) stats (tf_log t)) with
      | None => None
      | Some (Ok _, t) => Some (move_head src_head dst_head t)
      | Some (Err e, t) => Some (Err e, t)
      | Some (Panic, t) => Some (Panic, t)
      end
  | Some (Err e, t) => Some (Err e, t)
  | Some (Panic, t) => Some (Panic, t)
  end.

(** ** The whole exchange *)

Record CreateDatasetResult := mkCreateDatasetResult {
  cdr_dataset_handle : DatasetHandle;
  cdr_dataset : Destination;
  cdr_head : Multihash
}.

Definition DatasetFactoryFn : Type :=
  MetadataBlockTyped Seed -> res CreateDatasetError CreateDatasetResult.

Definition empty_chain : MetadataChainImpl (MetadataBlockRepositoryImpl ObjectRepositoryInMemory)
                           (ReferenceRepositoryImpl NamedObjectRepositoryInMemory) :=
  mkMetadataChainImpl (mkMetadataBlockRepositoryImpl ObjectRepositoryInMemory_new)
    (mkReferenceRepositoryImpl NamedObjectRepositoryInMemory_new).

(** What the exchange leaves behind: the destination, if there is one, and the
    statuses reported. *)
Record Exchange := mkExchange { ex_dst : option Destination; ex_log : list SyncStatus }.

(** The blocks to transfer, head first; [inl] ends the exchange. *)
Definition select_blocks (fuel : nat) (src_chain : MetadataChainImpl BR1 RR1) (src_head : Multihash)
    (dst_head : option Multihash) (force : bool) (chains_comparison : CompareChainsResult)
    : option (res (SyncError Url) (SyncResult + list HashedMetadataBlock)) :=
  let all_blocks :=
    match iter_blocks fuel src_chain with
    | None => None
    | Some (blocks, Ok _) => Some (Ok (inr blocks))
    | Some (_, Err e) => Some (map_block_iteration_error e)
    | Some (_, Panic) => Some Panic
    end in
  match chains_comparison with
  | CompareChainsResult_Equal => Some (Ok (inl SyncResult_UpToDate))
  | CompareChainsResult_LhsAhead src_ahead_blocks => Some (Ok (inr src_ahead_blocks))
  | CompareChainsResult_LhsBehind rhs_ahead_blocks =>
      if negb force then
        match dst_head with
        | Some dst_head =>
            Some (Err (SyncError_DestinationAhead
              (mkDestinationAheadError src_head dst_head (length rhs_ahead_blocks))))
        | None => Some Panic
        end
      else all_blocks
  | CompareChainsResult_Divergence uncommon_blocks_in_src uncommon_blocks_in_dst =>
      if negb force then
        match dst_head with
        | Some dst_head =>
            Some (Err (SyncError_DatasetsDiverged
              (mkDatasetsDivergedError src_head dst_head
                 (Some (mkDatasetsDivergedErrorDetail uncommon_blocks_in_src uncommon_blocks_in_dst)))))
        | None => Some Panic
        end
      else all_blocks
  end.

(** The destination to write to, its head, and the blocks that are left; it is
    created from the seed block if it does not exist. *)
Definition open_destination (maybe_dst : option Destination) (dst_factory : option DatasetFactoryFn)
    (dst_head : option Multihash) (blocks : list HashedMetadataBlock)
    : res (SyncError Url) (Destination * option Multihash * list HashedMetadataBlock) :=
  match maybe_dst with
  | Some dst => Ok (dst, dst_head, blocks)
  | None =>
      match last blocks with
      | None => Panic
      | Some (_, first_block) =>
          match into_typed first_block with
          | None => corrupted "First metadata block is not Seed"
          | Some seed_block =>
              match dst_factory with
              | None => Panic
              | Some f =>
                  let! r := map_err SyncError_CreateDatasetFailed (f seed_block) in
                  Ok (cdr_dataset r, Some (cdr_head r), removelast blocks)
              end
          end
      end
  end.

Definition sync (fuel : nat) (limit : nat) (schedule : list nat) (reads : CompareReads)
    (src_ref : DatasetRefAny Url) src (maybe_dst : option Destination)
    (dst_factory : option DatasetFactoryFn) (validation : AppendValidation)
    (trust_source_hashes force : bool) : option (res (SyncError Url) SyncResult * Exchange) :=
  let stop {A} (x : res (SyncError Url) A) (k : A -> option (res (SyncError Url) SyncResult * Exchange)) :=
    match x with
    | Ok a => k a
    | Err e => Some (Err e, mkExchange maybe_dst [])
    | Panic => Some (Panic, mkExchange maybe_dst [])
    end in
  let src_chain := dsi_metadata_chain src in
  stop (get_src_head src_ref src_chain) (fun src_head =>
  stop (match maybe_dst with
        | Some dst => get_dest_head (dsi_metadata_chain dst)
        | None => Ok None
        end) (fun dst_head =>
  match (match maybe_dst with
         | Some dst => compare_chains fuel src_chain src_head (dsi_metadata_chain dst) dst_head
         | None => compare_chains fuel src_chain src_head empty_chain None
         end) with
  | None => None
  | Some comparison =>
      stop (map_err SyncError_from_CompareChainsError comparison) (fun chains_comparison =>
      match select_blocks fuel src_chain src_head dst_head force chains_comparison with
      | None => None
      | Some selected =>
          stop selected (fun selected =>
          match selected with
          | inl result => Some (Ok result, mkExchange maybe_dst [])
          | inr blocks =>
              let old_head := dst_head in
              let num_blocks := Z.of_nat (length blocks) in
              stop (open_destination maybe_dst dst_factory dst_head blocks)
                (fun '(dst, dst_head, blocks) =>
              match synchronize_blocks fuel limit schedule blocks src dst src_head dst_head validation
                      trust_source_hashes (into_status reads) [] with
              | None => None
              | Some (x, t) =>
                  Some (let! _ := x in Ok (SyncResult_Updated old_head src_head num_blocks),
                        mkExchange (Some (tf_dst t)) (tf_log t))
              end)
          end)
      end)
  end)).
End Protocol.
