(* ===== verification/SyncFacts.v ===== *)
(** Lemmas about the Simple Transfer Protocol: what the concurrent downloads and
    the commits of blocks do to the destination. *)

From S2P Require Import Prelude Multiformats Grammar Dids Identity References Dtos ChainRepos ObjectRepoFs.
From S2P Require Import MetadataChain ChainComparator ChainVisitors ChainValidators ChainRules ChainAppend.
From S2P Require Import ChainInvariants Dataset Sync.

(** * Downloads *)

(** [repo'] is [repo] with copies of objects of [source]. *)
Record copied {C : BlockCodec} {R1 R} `{!ObjectRepository R1} `{!ObjectRepository R}
    (source : R1) (repo repo' : R) : Prop := {
  cp_kept : forall h, or_contains repo h = Ok true ->
    or_contains repo' h = Ok true /\ or_get_bytes repo' h = or_get_bytes repo h;
  cp_new : forall h, or_contains repo' h = Ok true -> or_contains repo h = Ok true \/
    exists data, or_get_stream source h = Ok (Some data) /\ or_get_bytes repo' h = Ok data
}.

Section Copied.
Context {C : BlockCodec} {R1 R : Type} `{!ObjectRepository R1} `{!ObjectRepository R}.

Lemma copied_refl (source : R1) (repo : R) : copied source repo repo.
Proof. split; [done|by left]. Qed.

Lemma copied_trans (source : R1) (r1 r2 r3 : R) :
  copied source r1 r2 -> copied source r2 r3 -> copied source r1 r3.
Proof.
  intros [K1 N1] [K2 N2]. split.
  - intros h H. destruct (K1 h H) as [H2 E2]. destruct (K2 h H2) as [H3 E3]. split; congruence.
  - intros h H. destruct (N2 h H) as [H2|]; [|by right]. destruct (N1 h H2) as [|(d & Hd & Hb)]; [by left|].
    right. exists d. split; [done|]. by rewrite (proj2 (K2 h H2)).
Qed.

(** Storing a stream of the source. *)
Lemma store_stream_spec {Url} `{!LawfulStreamRepo R} (source : R1) (repo : R) stream hash size trust msg x repo' :
  or_get_stream source hash = Ok stream ->
  store_stream (Url := Url) repo stream hash size trust msg = (x, repo') ->
  copied source repo repo' /\ (x = Ok tt -> or_contains repo' hash = Ok true).
Proof.
  intros Hs. unfold store_stream.
  destruct (or_insert_stream repo stream _) as [y r] eqn:Hi. intros [= Hx <-]. split.
  - split; [intros h Hc; by eapply or_stream_frame|].
    intros h Hc. destruct (or_stream_only _ _ _ _ _ _ Hi Hc) as [|Hy]; [by left|].
    subst y. assert (h = hash) as -> by by eapply or_stream_expected.
    assert (Hd : or_contains repo hash = Ok true \/ or_contains repo hash <> Ok true).
    { destruct (or_contains repo hash) as [[]| |]; auto. }
    destruct Hd as [Hd|Hn]; [by left|right].
    destruct (or_stream_bytes _ _ _ _ _ Hi Hn) as (d & -> & Hb). eauto.
  - intros ->. destruct y as [h|[]|]; try done.
    assert (h = hash) as -> by by eapply or_stream_expected. by eapply or_stream_present.
Qed.
End Copied.

(** The states of a store that only had streams inserted. *)
Inductive stream_steps {C : BlockCodec} {R} `{!ObjectRepository R} (r : R) : R -> Prop :=
| stream_refl : stream_steps r r
| stream_step r' s o x r'' :
    stream_steps r r' -> or_insert_stream r' s o = (x, r'') -> stream_steps r r''.

(** In all of them the store takes the stream. *)
Definition store_takes {C : BlockCodec} {R} `{!ObjectRepository R} (r : R) (stream : AsyncReadObj)
    (hash : Multihash) (size : u64) (trust : bool) : Prop :=
  forall r', stream_steps r r' ->
    (or_insert_stream r' stream
       (mkInsertOpts (if negb trust then None else Some hash) (Some hash) (Some size))).1 = Ok hash.

Section Downloads.
Context {C : BlockCodec} {TC : TextCodecs} {Url : Type}
        {BR1 RR1 DR1 CR1 IR1 BR RR DR CR IR : Type}
        `{!ObjectRepository DR1} `{!ObjectRepository CR1}
        `{!ObjectRepository DR} `{!ObjectRepository CR}.

Implicit Types (src : DatasetImpl BR1 RR1 DR1 CR1 IR1) (dst : DatasetImpl BR RR DR CR IR)
  (t : Transfer (BR := BR) (RR := RR) (DR := DR) (CR := CR) (IR := IR)).

(** [dst'] is [dst] with copies of files of [src]. *)
Record dst_copied src dst dst' : Prop := {
  dc_chain : dsi_metadata_chain dst' = dsi_metadata_chain dst;
  dc_info : dsi_info_repo dst' = dsi_info_repo dst;
  dc_data : copied (dsi_data_repo src) (dsi_data_repo dst) (dsi_data_repo dst');
  dc_checkpoints : copied (dsi_checkpoint_repo src) (dsi_checkpoint_repo dst) (dsi_checkpoint_repo dst')
}.

Lemma dst_copied_refl src dst : dst_copied src dst dst.
Proof. split; [done..|apply copied_refl|apply copied_refl]. Qed.

Lemma dst_copied_trans src d1 d2 d3 :
  dst_copied src d1 d2 -> dst_copied src d2 d3 -> dst_copied src d1 d3.
Proof.
  intros [C1 I1 D1 K1] [C2 I2 D2 K2]. split; [congruence..|by eapply copied_trans|by eapply copied_trans].
Qed.

Definition download_present dst (d : Download) : Prop :=
  match d with
  | Download_Data s => or_contains (dsi_data_repo dst) (ds_physical_hash s) = Ok true
  | Download_Checkpoint c => or_contains (dsi_checkpoint_repo dst) (cp_physical_hash c) = Ok true
  end.

Lemma download_present_copied src dst dst' d :
  dst_copied src dst dst' -> download_present dst d -> download_present dst' d.
Proof. intros [_ _ D K]. destruct d; simpl; intros H; [by apply D in H as [H _]|by apply K in H as [H _]]. Qed.

Definition count_download (stats : SyncStats) (d : Download) : SyncStats :=
  match d with
  | Download_Data s => count_transfer stats (slice_read s) (slice_written s)
  | Download_Checkpoint c => count_transfer stats (checkpoint_read c) (checkpoint_written c)
  end.

Lemma open_stream_ok {R} `{!ObjectRepository R} (repo : R) h m s :
  open_stream (Url := Url) repo h m = Ok s -> or_get_stream repo h = Ok s.
Proof. unfold open_stream. by destruct (or_get_stream repo h) as [|[]|]; intros; simplify_eq. Qed.

Context `{!LawfulStreamRepo DR, !LawfulStreamRepo CR}.

Lemma finish_download_spec src trust d stream t x t' :
  open_download (Url := Url) src d = Ok stream ->
  finish_download (Url := Url) trust d stream t = (x, t') ->
  dst_copied src (tf_dst t) (tf_dst t') /\
  (x = Ok tt -> download_present (tf_dst t') d /\ tf_stats t' = count_download (tf_stats t) d /\
     tf_log t' = tf_log t ++ [(SyncStage_TransferData, tf_stats t')]).
Proof.
  destruct d as [s|c]; simpl; intros Ho%open_stream_ok;
    destruct (store_stream _ _ _ _ _ _) as [y r] eqn:Hs;
    destruct (store_stream_spec _ _ _ _ _ _ _ _ _ Ho Hs) as [Hc Hp]; intros [= <- <-];
    (destruct y as [[]| |]; simpl; (split; [|intros ?; try done]);
     [by split; try apply copied_refl|by rewrite Hp|by split; try apply copied_refl..]).
Qed.

(** Where a download in flight stands: the stream is that of the source. *)
Definition progress_download (p : Progress) : Download :=
  match p with Progress_Start d | Progress_Streaming d _ => d end.

Definition progress_ok src (p : Progress) : Prop :=
  match p with Progress_Start _ => True | Progress_Streaming d s => open_download (Url := Url) src d = Ok s end.

Definition progress_turns (p : Progress) : nat :=
  match p with Progress_Start _ => 2 | Progress_Streaming _ _ => 1 end.

Lemma poll_spec src trust p t x t' :
  progress_ok src p -> poll (Url := Url) src trust p t = (x, t') ->
  dst_copied src (tf_dst t) (tf_dst t') /\
  match x with
  | Ok (Some p') => t' = t /\ progress_ok src p' /\ progress_download p' = progress_download p /\
      progress_turns p = S (progress_turns p')
  | Ok None => download_present (tf_dst t') (progress_download p) /\
      tf_stats t' = count_download (tf_stats t) (progress_download p) /\
      tf_log t' = tf_log t ++ [(SyncStage_TransferData, tf_stats t')]
  | _ => True
  end.
Proof.
  destruct p as [d|d s]; simpl; intros Hp.
  - destruct (open_download src d) as [s| |] eqn:Ho; simpl; intros [= <- <-];
      (split; [apply dst_copied_refl|done]).
  - destruct (finish_download trust d s t) as [y t1] eqn:Hf. intros [= <- <-].
    destruct (finish_download_spec _ _ _ _ _ _ _ Hp Hf) as [Hc Hok].
    split; [done|]. destruct y as [[]| |]; simpl; [|done..]. by apply Hok.
Qed.

(** ** Interleavings *)

Definition pending_downloads (running : list Progress) (queue : list Download) : list Download :=
  (progress_download <$> running) ++ queue.

Definition pending_turns (running : list Progress) (queue : list Download) : nat :=
  sum_list (progress_turns <$> running) + 2 * length queue.

Lemma start_downloads_spec src limit running queue running' queue' :
  start_downloads limit running queue = (running', queue') ->
  pending_downloads running' queue' = pending_downloads running queue /\
  pending_turns running' queue' = pending_turns running queue /\
  (Forall (progress_ok src) running -> Forall (progress_ok src) running') /\
  (running' = [] -> queue' = []).
Proof.
  unfold start_downloads, pending_downloads, pending_turns. set (room := if decide _ then _ else _).
  intros [= <- <-]. split_and!.
  - rewrite fmap_app, <- app_assoc. f_equal.
    assert (Hm : forall l, progress_download <$> map Progress_Start l = l).
    { induction l as [|d l IH]; [done|]. csimpl. by f_equal. }
    by rewrite Hm, take_drop.
  - rewrite fmap_app, sum_list_with_app.
    assert (Hs : forall l, sum_list (progress_turns <$> map Progress_Start l) = 2 * length l).
    { induction l as [|d l IH]; [done|]. csimpl. lia. }
    rewrite Hs. rewrite length_drop, length_take. lia.
  - intros Hr. apply Forall_app. split; [done|]. apply Forall_forall.
    intros p (d & -> & _)%list_elem_of_fmap. done.
  - intros [-> Hm]%app_eq_nil. apply map_eq_nil in Hm. subst room. simpl in *.
    destruct queue as [|d q]; [by rewrite drop_nil|].
    destruct (decide (limit = 0)) as [->|Hl]; [done|]. by destruct limit.
Qed.

Lemma pending_delete (running : list Progress) queue i p :
  running !! i = Some p ->
  pending_downloads running queue ≡ₚ progress_download p :: pending_downloads (delete i running) queue /\
  pending_turns running queue = progress_turns p + pending_turns (delete i running) queue.
Proof.
  intros Hi. unfold pending_downloads, pending_turns. apply delete_Permutation in Hi as Hp. split.
  - by rewrite Hp at 1.
  - rewrite Hp at 1. csimpl. lia.
Qed.

Lemma pending_insert (running : list Progress) queue i p p' :
  running !! i = Some p -> progress_download p' = progress_download p ->
  pending_downloads (<[i := p']> running) queue = pending_downloads running queue.
Proof.
  intros Hi Hd. unfold pending_downloads. rewrite list_fmap_insert, Hd, list_insert_id; [done|].
  by rewrite list_lookup_fmap, Hi.
Qed.

Lemma pending_turns_insert (running : list Progress) queue i p p' :
  running !! i = Some p -> progress_turns p = S (progress_turns p') ->
  pending_turns running queue = S (pending_turns (<[i := p']> running) queue).
Proof.
  intros Hi Ht. unfold pending_turns. rewrite (insert_take_drop _ _ _ (lookup_lt_Some _ _ _ Hi)).
  rewrite <- (take_drop_middle _ _ _ Hi) at 1. rewrite !fmap_app, !sum_list_with_app. csimpl. lia.
Qed.

(** Whatever the schedule, the chain stays, files are only added as copies of
    those of the source, and when all is done every download has been stored and
    counted once. *)
Lemma downloads_run fuel limit schedule src trust running queue t x t' :
  Forall (progress_ok src) running ->
  try_for_each_concurrent (Url := Url) fuel limit schedule src trust running queue t = Some (x, t') ->
  dst_copied src (tf_dst t) (tf_dst t') /\
  (x = Ok tt -> exists order, order ≡ₚ pending_downloads running queue /\
     tf_stats t' = foldl count_download (tf_stats t) order /\
     Forall (download_present (tf_dst t')) order).
Proof.
  revert schedule running queue t. induction fuel as [|fuel IH]; intros schedule running queue t Hr; [done|].
  cbn [try_for_each_concurrent].
  destruct (start_downloads limit running queue) as [running' queue'] eqn:Hs.
  destruct (start_downloads_spec src _ _ _ _ _ Hs) as (Hd & _ & Hok & Hnil). specialize (Hok Hr).
  set (i := default 0 (head schedule) mod length running'); destruct (running' !! i) as [p|] eqn:Hi.
  2:{ intros [= <- <-]. split; [apply dst_copied_refl|]. intros _. exists []. split_and!; [|done..].
      rewrite <- Hd. apply lookup_ge_None in Hi. destruct running' as [|p l]; [by rewrite Hnil|].
      exfalso. pose proof (Nat.mod_upper_bound (default 0 (head schedule)) (length (p :: l)) ltac:(done)).
      subst i. lia. }
  assert (Hpok : progress_ok src p) by (by eapply Forall_lookup_1).
  destruct (poll src trust p t) as [y t1] eqn:Hp.
  destruct (poll_spec _ _ _ _ _ _ Hpok Hp) as [Hc Hy].
  destruct y as [[p'|]| |]; [| |by intros [= <- <-]..]; intros Hrun.
  - destruct Hy as (-> & Hp' & Hdp & _).
    apply IH in Hrun as [Hc' Hend]; [|by apply Forall_insert]. split; [done|].
    intros Hx. destruct (Hend Hx) as (order & Ho & ?). exists order. split; [|done].
    rewrite Ho, <- Hd. by rewrite (pending_insert _ _ _ _ _ Hi Hdp).
  - destruct Hy as (Hpres & Hst & _). apply IH in Hrun as [Hc' Hend]; [|by apply Forall_delete].
    split; [by eapply dst_copied_trans|].
    intros Hx. destruct (Hend Hx) as (order & Ho & Hst' & Hall).
    exists (progress_download p :: order). split_and!.
    + rewrite Ho, <- Hd. symmetry. by apply pending_delete.
    + simpl. by rewrite <- Hst.
    + constructor; [by eapply download_present_copied|done].
Qed.

Lemma downloads_return fuel limit schedule src trust running queue t :
  Forall (progress_ok src) running -> pending_turns running queue < fuel ->
  is_Some (try_for_each_concurrent (Url := Url) fuel limit schedule src trust running queue t).
Proof.
  revert schedule running queue t.
  induction fuel as [|fuel IH]; intros schedule running queue t Hr Hf; [lia|].
  cbn [try_for_each_concurrent].
  destruct (start_downloads limit running queue) as [running' queue'] eqn:Hs.
  destruct (start_downloads_spec src _ _ _ _ _ Hs) as (_ & Ht & Hok & _). specialize (Hok Hr).
  set (i := default 0 (head schedule) mod length running'); destruct (running' !! i) as [p|] eqn:Hi; [|eauto].
  assert (Hpok : progress_ok src p) by (by eapply Forall_lookup_1).
  destruct (poll src trust p t) as [y t1] eqn:Hp.
  destruct (poll_spec _ _ _ _ _ _ Hpok Hp) as [_ Hy].
  destruct y as [[p'|]| |]; [| |eauto..].
  - destruct Hy as (_ & Hp' & _ & Hdt). apply IH; [by apply Forall_insert|].
    pose proof (pending_turns_insert _ queue' _ _ _ Hi Hdt). lia.
  - apply IH; [by apply Forall_delete|]. pose proof (proj2 (pending_delete _ queue' _ _ Hi)).
    destruct p; simpl in *; lia.
Qed.

(** The last status is the current one. *)
Lemma downloads_log fuel limit schedule src trust running queue t t' :
  Forall (progress_ok src) running ->
  last (tf_log t) = Some (SyncStage_TransferData, tf_stats t) ->
  try_for_each_concurrent (Url := Url) fuel limit schedule src trust running queue t = Some (Ok tt, t') ->
  last (tf_log t') = Some (SyncStage_TransferData, tf_stats t').
Proof.
  revert schedule running queue t.
  induction fuel as [|fuel IH]; intros schedule running queue t Hr Hlog; [done|].
  cbn [try_for_each_concurrent].
  destruct (start_downloads limit running queue) as [running' queue'] eqn:Hs.
  destruct (start_downloads_spec src _ _ _ _ _ Hs) as (_ & _ & Hok & _). specialize (Hok Hr).
  set (i := default 0 (head schedule) mod length running'); destruct (running' !! i) as [p|] eqn:Hi;
    [|by intros [= <-]].
  assert (Hpok : progress_ok src p) by (by eapply Forall_lookup_1).
  destruct (poll src trust p t) as [y t1] eqn:Hp.
  destruct (poll_spec _ _ _ _ _ _ Hpok Hp) as [_ Hy].
  destruct y as [[p'|]| |]; [| |done..].
  - destruct Hy as (-> & Hp' & _). by apply IH; [apply Forall_insert|].
  - destruct Hy as (_ & _ & Hl). apply IH; [by apply Forall_delete|]. by rewrite Hl, last_snoc.
Qed.

(** Nothing but streams was inserted. *)
Definition streamed dst dst' : Prop :=
  stream_steps (dsi_data_repo dst) (dsi_data_repo dst') /\
  stream_steps (dsi_checkpoint_repo dst) (dsi_checkpoint_repo dst').

Lemma finish_download_streamed dst trust d stream t x t' :
  finish_download (Url := Url) trust d stream t = (x, t') ->
  streamed dst (tf_dst t) -> streamed dst (tf_dst t').
Proof.
  intros Hf [Hd Hc]. destruct d as [sl|c]; simpl in Hf; unfold store_stream in Hf;
    destruct (or_insert_stream _ stream _) as [y r] eqn:Hi; injection Hf as <- <-;
    destruct y as [?|[]|]; (split; [|try done]); simpl; try done; by eapply stream_step.
Qed.

(** The download alone would succeed, whatever was downloaded before. *)
Definition downloadable src dst trust (d : Download) : Prop :=
  exists s, open_download (Url := Url) src d = Ok s /\
    match d with
    | Download_Data sl => store_takes (dsi_data_repo dst) s (ds_physical_hash sl) (ds_size sl) trust
    | Download_Checkpoint c => store_takes (dsi_checkpoint_repo dst) s (cp_physical_hash c) (cp_size c) trust
    end.

Lemma downloadable_ok src dst trust d s t :
  downloadable src dst trust d -> open_download (Url := Url) src d = Ok s -> streamed dst (tf_dst t) ->
  (finish_download (Url := Url) trust d s t).1 = Ok tt.
Proof.
  intros (s' & Ho & Ht) Ho' [Hd Hc]. assert (s' = s) as -> by congruence.
  destruct d as [sl|c]; simpl; unfold store_stream;
    [specialize (Ht _ Hd)|specialize (Ht _ Hc)];
    (destruct (or_insert_stream _ _ _) as [y r]; simpl in Ht; by subst y).
Qed.

Lemma downloads_succeed fuel limit schedule src dst trust running queue t x t' :
  Forall (progress_ok src) running -> Forall (downloadable src dst trust) (pending_downloads running queue) ->
  streamed dst (tf_dst t) ->
  try_for_each_concurrent (Url := Url) fuel limit schedule src trust running queue t = Some (x, t') ->
  x = Ok tt.
Proof.
  revert schedule running queue t.
  induction fuel as [|fuel IH]; intros schedule running queue t Hr Hall Hsd; [done|].
  cbn [try_for_each_concurrent].
  destruct (start_downloads limit running queue) as [running' queue'] eqn:Hs.
  destruct (start_downloads_spec src _ _ _ _ _ Hs) as (Hd & _ & Hok & _). specialize (Hok Hr).
  rewrite <- Hd in Hall.
  set (i := default 0 (head schedule) mod length running'); destruct (running' !! i) as [p|] eqn:Hi;
    [|by intros [= <- <-]].
  assert (Hpok : progress_ok src p) by (by eapply Forall_lookup_1).
  pose proof (proj1 (pending_delete _ queue' _ _ Hi)) as Hperm.
  pose proof Hall as Hall'. rewrite Hperm in Hall'. apply Forall_cons in Hall' as [Hdl Hrest].
  destruct (poll src trust p t) as [y t1] eqn:Hp.
  destruct (poll_spec _ _ _ _ _ _ Hpok Hp) as [_ Hy].
  assert ((exists o, y = Ok o) /\ streamed dst (tf_dst t1)) as [[o ->] Hsd1].
  { unfold poll in Hp. destruct p as [d|d s]; simpl in *.
    - destruct Hdl as (s & Ho & _). rewrite Ho in Hp. simpl in Hp. injection Hp as <- <-. eauto.
    - pose proof (downloadable_ok _ _ _ _ _ t Hdl Hpok Hsd) as Hf.
      destruct (finish_download trust d s t) as [z t2] eqn:Hfd. simpl in Hf. subst z.
      injection Hp as <- <-. split; [eauto|]. by eapply finish_download_streamed. }
  destruct o as [p'|].
  - destruct Hy as (_ & Hp' & Hdp & _). apply IH; [by apply Forall_insert| |done].
    by rewrite (pending_insert _ _ _ _ _ Hi Hdp).
  - by apply IH; [apply Forall_delete|..].
Qed.
End Downloads.

(** * Statistics *)

Definition download_read (d : Download) : SyncPartyStats :=
  match d with Download_Data s => slice_read s | Download_Checkpoint c => checkpoint_read c end.
Definition download_written (d : Download) : SyncPartyStats :=
  match d with Download_Data s => slice_written s | Download_Checkpoint c => checkpoint_written c end.

Lemma u64_add_swap x a b : u64_add (u64_add x a) b = u64_add (u64_add x b) a.
Proof. unfold u64_add. rewrite !Zplus_mod_idemp_l. f_equal. lia. Qed.

Lemma party_add_swap x a b :
  SyncPartyStats_add (SyncPartyStats_add x a) b = SyncPartyStats_add (SyncPartyStats_add x b) a.
Proof. unfold SyncPartyStats_add; simpl. f_equal; apply u64_add_swap. Qed.

(** What a party has counted after downloads. *)
Definition party_total (f : Download -> SyncPartyStats) (x : SyncPartyStats) (l : list Download)
    : SyncPartyStats := foldl (fun s d => SyncPartyStats_add s (f d)) x l.

Lemma party_total_perm f x l l' : l ≡ₚ l' -> party_total f x l = party_total f x l'.
Proof.
  intros H. revert x. unfold party_total.
  induction H as [|d l l' _ IH|d d' l|l l' l'' _ IH1 _ IH2]; intros x; simpl; [done|apply IH| |].
  - by rewrite party_add_swap.
  - by rewrite IH1.
Qed.

Lemma party_total_app f x l l' : party_total f x (l ++ l') = party_total f (party_total f x l) l'.
Proof. unfold party_total. by rewrite foldl_app. Qed.

Lemma party_total_swap f x l a :
  party_total f (SyncPartyStats_add x a) l = SyncPartyStats_add (party_total f x l) a.
Proof.
  revert x. induction l as [|d l IH]; intros x; simpl; [done|]. rewrite <- IH. unfold party_total. simpl.
  by rewrite party_add_swap.
Qed.

Lemma count_downloads_total stats l :
  foldl count_download stats l =
  mkSyncStats (party_total download_read (sst_src stats) l) (sst_src_estimated stats)
    (party_total download_written (sst_dst stats) l) (sst_dst_estimated stats).
Proof.
  revert stats. induction l as [|d l IH]; intros stats; simpl; [by destruct stats|].
  rewrite IH. by destruct d.
Qed.

Lemma estimate_block_total stats b :
  estimate_block stats b =
  mkSyncStats (sst_src stats) (party_total download_read (sst_src_estimated stats) (block_downloads b))
    (sst_dst stats) (party_total download_written (sst_dst_estimated stats) (block_downloads b)).
Proof.
  unfold estimate_block, block_downloads. destruct (as_data_stream_block b) as [s|]; [|by destruct stats].
  destruct (mds_new_data _), (mds_new_checkpoint _); by destruct stats.
Qed.

Lemma tasks_perm (blocks : list HashedMetadataBlock) :
  concat (map (fun hb => block_downloads hb.2) blocks) ≡ₚ block_download_tasks blocks.
Proof.
  unfold block_download_tasks. induction blocks as [|hb l IH]; simpl; [done|].
  rewrite map_app, concat_app. simpl. rewrite app_nil_r, IH. apply Permutation_app_comm.
Qed.

(** The estimates count every download of the blocks once. *)
Lemma estimate_total stats blocks :
  estimate stats blocks =
  mkSyncStats (sst_src stats)
    (party_total download_read (sst_src_estimated stats) (block_download_tasks blocks))
    (sst_dst stats)
    (SyncPartyStats_add
       (party_total download_written (sst_dst_estimated stats) (block_download_tasks blocks))
       (blocks_written (Z.of_nat (length blocks)))).
Proof.
  unfold estimate. set (s0 := count_estimated_blocks _ _).
  assert (H : forall s, foldl (fun s hb => estimate_block s hb.2) s blocks =
    mkSyncStats (sst_src s)
      (party_total download_read (sst_src_estimated s) (concat (map (fun hb => block_downloads hb.2) blocks)))
      (sst_dst s)
      (party_total download_written (sst_dst_estimated s) (concat (map (fun hb => block_downloads hb.2) blocks)))).
  { clear s0. induction blocks as [|hb l IH]; intros s; simpl; [by destruct s|].
    rewrite IH, estimate_block_total. simpl. by rewrite !party_total_app. }
  rewrite H. simpl. rewrite !(party_total_perm _ _ _ _ (tasks_perm blocks)). f_equal.
  apply party_total_swap.
Qed.

(** * Commits *)

(** Blocks, oldest first, each of which names the one before as its predecessor. *)
Fixpoint stacked (bs base : list HashedMetadataBlock) : Prop :=
  match bs with
  | [] => True
  | hb :: bs' => mb_prev_block_hash hb.2 = head_hash base /\ stacked bs' (hb :: base)
  end.

Lemma stacked_snoc bs hb base :
  stacked (bs ++ [hb]) base <-> stacked bs base /\ mb_prev_block_hash hb.2 = head_hash (rev bs ++ base).
Proof.
  revert base. induction bs as [|x bs IH]; intros base; simpl; [tauto|].
  rewrite IH, <- app_assoc. simpl. tauto.
Qed.

Section Commits.
Context {C : BlockCodec} {TC : TextCodecs} {Url : Type}
        {BR1 BR RR DR CR IR : Type}
        `{!MetadataBlockRepository BR1}
        `{!MetadataBlockRepository BR} `{!ReferenceRepository RR}
        `{!LawfulBlockRepo BR, !LawfulRefRepo RR}.

Implicit Types (c : MetadataChainImpl BR RR) (b : MetadataBlock) (base : list HashedMetadataBlock)
  (r : BR) (t : Transfer (BR := BR) (RR := RR) (DR := DR) (CR := CR) (IR := IR)).

Lemma linked_head (s : BR1) o l : linked s o l -> o = head_hash l.
Proof. by destruct 1. Qed.

Lemma linked_stacked (s : BR1) o xs base : linked s o (xs ++ base) -> stacked (rev xs) base.
Proof.
  revert o. induction xs as [|[h b] xs IH]; intros o Hl; simpl; [done|].
  inversion Hl as [|? ? ? Hb Hl']; subst. apply stacked_snoc. split; [by eapply IH|].
  rewrite rev_involutive. by eapply linked_head.
Qed.

(** Nothing that can be read is lost or changed. *)
Definition grows r r' : Prop := forall h b, get_block r h = Ok b -> get_block r' h = Ok b.

Lemma linked_grows r r' o l : grows r r' -> linked r o l -> linked r' o l.
Proof. intros Hg. induction 1; constructor; auto. Qed.

Lemma grows_trans r1 r2 r3 : grows r1 r2 -> grows r2 r3 -> grows r1 r3.
Proof. intros H1 H2 h b H. auto. Qed.

Lemma insert_grows r b o h r' :
  insert_block r b o = (Ok h, r') -> (forall b', get_block r h = Ok b' -> b' = b) -> grows r r'.
Proof.
  intros Hi Hb h' b' Hg. destruct (decide (h' = h)) as [->|Hne].
  - rewrite (Hb _ Hg). by eapply insert_get.
  - by rewrite (insert_frame _ _ _ _ _ _ Hi Hne).
Qed.

Definition sync_insert_opts (trust : bool) (h : Multihash) : InsertOpts :=
  mkInsertOpts (if negb trust then None else Some h) (Some h) None.

(** The store gives the block its hash, at least in some state. *)
Definition acceptable (trust : bool) (h : Multihash) b : Prop :=
  exists r, (insert_block r b (sync_insert_opts trust h)).1 = Ok h.

(** A hash under which the store would take a block is not that of another one. *)
Record unambiguous (trust : bool) r (bs : list HashedMetadataBlock) : Prop := {
  ua_stored : forall h b b', (h, b) ∈ bs -> acceptable trust h b -> get_block r h = Ok b' -> b' = b;
  ua_listed : forall h b b', (h, b) ∈ bs -> (h, b') ∈ bs -> b' = b
}.

Lemma linked_listed (s : BR1) o l h b b' : linked s o l -> (h, b) ∈ l -> (h, b') ∈ l -> b' = b.
Proof. intros Hl Hb Hb'. apply (linked_lookup _ _ _ _ _ Hl) in Hb, Hb'. congruence. Qed.

Lemma append_unreferenced fuel c b v trust h x c' :
  append fuel c b (sync_append_opts v trust h) = Some (x, c') ->
  match x with
  | Ok h' => h' = h /\ ref_repo c' = ref_repo c /\
      insert_block (meta_block_repo c) b (sync_insert_opts trust h) = (Ok h, meta_block_repo c') /\
      (v = AppendValidation_Full -> validate_append fuel (meta_block_repo c) b = Some (Ok tt))
  | _ => c' = c
  end.
Proof.
  intros Ha. destruct x as [h'| |].
  2,3: destruct (append_failed_frame _ _ _ _ _ _ Ha eq_refl) as (Hr & [Hb|(? & ? & _ & ? & _)]); [|done];
       destruct c, c'; simpl in *; congruence.
  revert Ha. unfold append. simpl.
  destruct (if decide _ then _ else _) as [y|] eqn:Hv; [|done]. unfold append_check_ref. simpl.
  destruct y as [[]| |]; simpl; [|done..]. unfold append_store. simpl. fold (sync_insert_opts trust h).
  change (append_insert_opts (sync_append_opts v trust h)) with (sync_insert_opts trust h).
  destruct (insert_block _ b _) as [z br] eqn:Hi. destruct z as [h2| |]; simpl; intros [= <- <-].
  assert (h2 = h) as -> by by eapply insert_expected.
  split_and!; [done..|]. intros ->. by rewrite decide_True in Hv.
Qed.

(** [dst'] is [dst] with more blocks in store; its head has not moved. *)
Record blocks_added (dst dst' : DatasetImpl BR RR DR CR IR) : Prop := {
  ba_ref : ref_repo (dsi_metadata_chain dst') = ref_repo (dsi_metadata_chain dst);
  ba_data : dsi_data_repo dst' = dsi_data_repo dst;
  ba_checkpoints : dsi_checkpoint_repo dst' = dsi_checkpoint_repo dst;
  ba_info : dsi_info_repo dst' = dsi_info_repo dst;
  ba_grows : grows (meta_block_repo (dsi_metadata_chain dst)) (meta_block_repo (dsi_metadata_chain dst'))
}.

Lemma blocks_added_refl dst : blocks_added dst dst.
Proof. split; [done..|by intros ? ?]. Qed.

Lemma blocks_added_same dst : blocks_added dst (with_chain dst (dsi_metadata_chain dst)).
Proof. split; [done..|by intros ? ?]. Qed.

Lemma append_failed_err h n e : append_failed (Url := Url) h n e <> Ok tt.
Proof. destruct e; simpl; try done. by destruct (append_failed_message _ _ _). Qed.

Lemma blocks_added_trans d1 d2 d3 : blocks_added d1 d2 -> blocks_added d2 d3 -> blocks_added d1 d3.
Proof. intros [] []. split; [congruence..|by eapply grows_trans]. Qed.

(** One block more. *)
Lemma append_adds fuel dst b v trust h c' bs :
  unambiguous trust (meta_block_repo (dsi_metadata_chain dst)) ((h, b) :: bs) ->
  append fuel (dsi_metadata_chain dst) b (sync_append_opts v trust h) = Some (Ok h, c') ->
  blocks_added dst (with_chain dst c') /\ get_block (meta_block_repo c') h = Ok b /\
  unambiguous trust (meta_block_repo c') bs.
Proof.
  intros [Hs Hl] Ha. apply append_unreferenced in Ha as (_ & Hr & Hi & _).
  assert (Hacc : acceptable trust h b) by (eexists; by rewrite Hi).
  split_and!; [split; try done|by eapply insert_get|].
  - eapply insert_grows; [done|]. intros b'. apply Hs; [by left|done].
  - split; [|intros h1 b1 b2 H1 H2; apply (Hl h1); by right].
    intros h1 b1 b2 Hin Hacc1 Hg. destruct (decide (h1 = h)) as [->|Hne].
    + assert (get_block (meta_block_repo c') h = Ok b) as Hb by (by eapply insert_get).
      assert (b2 = b) as -> by congruence. apply (Hl h); [by right|by left].
    + rewrite (insert_frame _ _ _ _ _ _ Hi Hne) in Hg. apply (Hs h1); [by right|done|done].
Qed.

Lemma commit_blocks_mono f f' v trust bs t x :
  commit_blocks (Url := Url) f v trust bs t = Some x -> f <= f' ->
  commit_blocks (Url := Url) f' v trust bs t = Some x.
Proof.
  intros H Hle. revert t H. induction bs as [|[h b] bs IH]; intros t; simpl; [done|].
  destruct (append f _ b _) as [[y c]|] eqn:Ha; [|done].
  rewrite (append_mono _ _ _ _ _ _ Ha Hle). destruct y; [apply IH|done..].
Qed.

(** Whatever happens, blocks are only added; if all goes well they all are, linked
    to those below, and if they were validated they obey the rules. *)
Lemma commit_blocks_run fuel v trust bs t x t' :
  unambiguous trust (meta_block_repo (dsi_metadata_chain (tf_dst t))) bs ->
  commit_blocks (Url := Url) fuel v trust bs t = Some (x, t') ->
  blocks_added (tf_dst t) (tf_dst t') /\
  (x = Ok tt -> forall base,
     linked (meta_block_repo (dsi_metadata_chain (tf_dst t))) (head_hash base) base -> stacked bs base ->
     linked (meta_block_repo (dsi_metadata_chain (tf_dst t'))) (head_hash (rev bs ++ base)) (rev bs ++ base) /\
     (v = AppendValidation_Full -> valid_chain base -> valid_chain (rev bs ++ base))).
Proof.
  revert t. induction bs as [|[h b] bs IH]; intros t Hu; simpl.
  { intros [= <- <-]. split; [apply blocks_added_refl|]. intros _ base. auto. }
  destruct (append fuel _ b _) as [[y c]|] eqn:Ha; [|done]. pose proof (append_unreferenced _ _ _ _ _ _ _ _ Ha) as Hy.
  destruct y as [h'| |].
  2,3: intros [= <- <-]; simpl; rewrite Hy; split; [apply blocks_added_same|].
  2: by intros []%append_failed_err.
  2: done.
  destruct Hy as (-> & Hr & Hi & Hv). destruct (append_adds _ _ _ _ _ _ _ _ Hu Ha) as (Hadd & Hget & Hu').
  intros Hrun. apply IH in Hrun as [Hadd' Hend]; [|done]. split; [by eapply blocks_added_trans|].
  intros Hx base Hl [Hp Hst]. specialize (Hend Hx ((h, b) :: base)). rewrite <- app_assoc. simpl in *.
  destruct Hend as [Hl' Hval]; [constructor; [done|]|done|].
  { rewrite Hp. eapply linked_grows; [apply Hadd|done]. }
  split; [done|]. intros Hfull Hvb. apply Hval; [done|]. constructor; [done| |done].
  apply (validate_append_ok (fuel + S (length base)) (meta_block_repo (dsi_metadata_chain (tf_dst t))));
    [by rewrite Hp|lia|].
  specialize (Hv Hfull). revert Hv. unfold validate_append, accept_by_interval.
  destruct (make_validators b) as [vs| |]; [|done..].
  destruct (accept_loop fuel _ _ _ _ _) eqn:Hacc; [|done].
  by rewrite (accept_loop_mono _ (fuel + S (length base)) _ _ _ _ _ _ Hacc ltac:(lia)).
Qed.

Lemma commit_blocks_return fuel v trust bs t base :
  unambiguous trust (meta_block_repo (dsi_metadata_chain (tf_dst t))) bs ->
  linked (meta_block_repo (dsi_metadata_chain (tf_dst t))) (head_hash base) base -> stacked bs base ->
  length bs + length base < fuel -> is_Some (commit_blocks (Url := Url) fuel v trust bs t).
Proof.
  revert t base. induction bs as [|[h b] bs IH]; intros t base Hu Hl Hst Hf; simpl; [eauto|].
  destruct Hst as [Hp Hst]. simpl in *.
  destruct (append_some fuel (dsi_metadata_chain (tf_dst t)) base b (sync_append_opts v trust h))
    as (y & c & Ha); [by rewrite Hp|lia|]. rewrite Ha.
  destruct y as [h'| |]; [|eauto..].
  pose proof (append_unreferenced _ _ _ _ _ _ _ _ Ha) as (-> & _).
  destruct (append_adds _ _ _ _ _ _ _ _ Hu Ha) as (Hadd & Hget & Hu').
  apply (IH _ ((h, b) :: base)); [done| |done|simpl; lia].
  constructor; [done|]. rewrite Hp. eapply linked_grows; [apply Hadd|done].
Qed.

(** The states of a store that only had blocks inserted. *)
Inductive block_steps r : BR -> Prop :=
| block_refl : block_steps r r
| block_step r' b o x r'' : block_steps r r' -> insert_block r' b o = (x, r'') -> block_steps r r''.

Lemma block_steps_trans r r1 r2 : block_steps r r1 -> block_steps r1 r2 -> block_steps r r2.
Proof. induction 2; [done|by eapply block_step]. Qed.

(** In all of them the store takes the block. *)
Definition storable (trust : bool) r (hb : HashedMetadataBlock) : Prop :=
  forall r', block_steps r r' -> (insert_block r' hb.2 (sync_insert_opts trust hb.1)).1 = Ok hb.1.

Lemma storable_steps trust r r' hb : block_steps r r' -> storable trust r hb -> storable trust r' hb.
Proof. intros H Hs r'' Hr. apply Hs. by eapply block_steps_trans. Qed.

Lemma commit_blocks_succeed fuel v trust bs t x t' base :
  unambiguous trust (meta_block_repo (dsi_metadata_chain (tf_dst t))) bs ->
  linked (meta_block_repo (dsi_metadata_chain (tf_dst t))) (head_hash base) base -> stacked bs base ->
  length bs + length base < fuel -> valid_chain (rev bs ++ base) ->
  Forall (storable trust (meta_block_repo (dsi_metadata_chain (tf_dst t)))) bs ->
  commit_blocks (Url := Url) fuel v trust bs t = Some (x, t') -> x = Ok tt.
Proof.
  revert t base. induction bs as [|[h b] bs IH]; intros t base Hu Hl Hst Hf Hv Hall; simpl.
  { by intros [= <- _]. }
  destruct Hst as [Hp Hst]. apply Forall_cons in Hall as [Hs Hall]. simpl in *.
  rewrite <- app_assoc in Hv. simpl in Hv.
  assert (Ha : exists c, append fuel (dsi_metadata_chain (tf_dst t)) b (sync_append_opts v trust h) = Some (Ok h, c)).
  { assert (Hval : (if decide (v = AppendValidation_Full)
                    then validate_append fuel (meta_block_repo (dsi_metadata_chain (tf_dst t))) b
                    else Some (Ok tt)) = Some (Ok tt)).
    { case_decide; [|done]. apply (validate_append_ok _ _ _ base); [by rewrite Hp|lia|].
      by apply valid_chain_app, valid_chain_inv in Hv as (_ & ? & _). }
    unfold append. simpl. rewrite Hval. simpl. unfold append_store.
    change (append_insert_opts (sync_append_opts v trust h)) with (sync_insert_opts trust h).
    specialize (Hs _ (block_refl _)). simpl in Hs.
    destruct (insert_block _ b _) as [z br]. simpl in Hs. subst z. simpl. eauto. }
  destruct Ha as [c Ha]. rewrite Ha.
  destruct (append_adds _ _ _ _ _ _ _ _ Hu Ha) as (Hadd & Hget & Hu').
  apply (IH _ ((h, b) :: base)); [done| |done|simpl; lia|done|].
  - constructor; [done|]. rewrite Hp. eapply linked_grows; [apply Hadd|done].
  - eapply Forall_impl; [exact Hall|]. intros hb. apply storable_steps.
    pose proof (append_unreferenced _ _ _ _ _ _ _ _ Ha) as (_ & _ & Hi & _).
    eapply block_step; [apply block_refl|exact Hi].
Qed.

(** While blocks are committed the counters of the source stand still. *)
Lemma commit_blocks_log fuel v trust bs t t' :
  commit_blocks (Url := Url) fuel v trust bs t = Some (Ok tt, t') ->
  exists l, tf_log t' = tf_log t ++ l /\ length l = length bs /\
    Forall (fun p => p.1 = SyncStage_CommitBlocks /\ sst_src p.2 = sst_src (tf_stats t)) l.
Proof.
  revert t. induction bs as [|[h b] bs IH]; intros t; simpl.
  { intros [= <-]. exists []. by rewrite app_nil_r. }
  destruct (append fuel _ b _) as [[[g|e|] c]|]; [|intros H; exfalso; injection H as He _; by apply append_failed_err in He|done..].
  intros (l & Hl & Hn & Hall)%IH. simpl in *.
  eexists (_ :: l). rewrite Hl, <- app_assoc. simpl. split_and!; [done|by f_equal|].
  constructor; [done|]. eapply Forall_impl; [done|]. intros p [? ?]. done.
Qed.

(** ** Moving the head *)

(** A move of the head happens from the expected one, and only then. *)
Lemma move_head_run h o t x t' :
  move_head (Url := Url) h o t = (x, t') ->
  match x with
  | Ok _ => head_is (dsi_metadata_chain (tf_dst t)) o /\
      (Multihash_wf h -> head_is (dsi_metadata_chain (tf_dst t')) (Some h)) /\
      tf_dst t' = with_chain (tf_dst t) (mkMetadataChainImpl (meta_block_repo (dsi_metadata_chain (tf_dst t)))
                                           (ref_repo (dsi_metadata_chain (tf_dst t'))))
  | _ => tf_dst t' = tf_dst t
  end.
Proof.
  unfold move_head, set_ref. simpl.
  assert (Hsame : with_chain (tf_dst t) (dsi_metadata_chain (tf_dst t)) = tf_dst t) by by destruct (tf_dst t).
  unfold head_is, append_actual_ref.
  destruct (rr_get (ref_repo (dsi_metadata_chain (tf_dst t))) BlockRef_Head) as [a|[]|] eqn:Hg; simpl;
    try (intros [= <- <-]; exact Hsame);
  case_decide as Hd; simpl; try (intros [= <- <-]; exact Hsame);
  (destruct (rr_set _ _ _) as [y rr] eqn:Hr; intros [= <- <-]; destruct y as [[]| |]; simpl;
   [split_and!; [|intros Hwf; by rewrite (rr_set_get _ _ _ _ Hwf Hr)|done];
    f_equal; symmetry; by destruct (decide (o = _)); try done; apply dec_stable in Hd
   |assert (rr = ref_repo (dsi_metadata_chain (tf_dst t))) as -> by (by eapply rr_set_failed);
    by destruct (tf_dst t) as [[] ? ? ?]..]).
Qed.

Lemma move_head_stale h o t actual :
  head_is (dsi_metadata_chain (tf_dst t)) actual -> o <> actual ->
  (move_head (Url := Url) h o t).1 =
    Err (SyncError_UpdatedConcurrently (mkRefCASError BlockRef_Head o actual)).
Proof.
  unfold head_is, append_actual_ref, move_head, set_ref. simpl. intros Hg Hne.
  destruct (rr_get (ref_repo (dsi_metadata_chain (tf_dst t))) BlockRef_Head) as [a|[]|]; simpl; try done;
    injection Hg as <-; by rewrite decide_True.
Qed.
End Commits.

(** * The exchange *)

Section Exchange.
Context {C : BlockCodec} {TC : TextCodecs} {Url : Type}
        {BR1 RR1 DR1 CR1 IR1 BR RR DR CR IR : Type}
        `{!MetadataBlockRepository BR1} `{!ReferenceRepository RR1}
        `{!ObjectRepository DR1} `{!ObjectRepository CR1}
        `{!MetadataBlockRepository BR} `{!ReferenceRepository RR}
        `{!ObjectRepository DR} `{!ObjectRepository CR}
        `{!LawfulBlockRepo BR, !LawfulRefRepo RR, !LawfulStreamRepo DR, !LawfulStreamRepo CR}.

Implicit Types (src : DatasetImpl BR1 RR1 DR1 CR1 IR1) (dst : DatasetImpl BR RR DR CR IR)
  (l base blocks : list HashedMetadataBlock)
  (t : Transfer (BR := BR) (RR := RR) (DR := DR) (CR := CR) (IR := IR)).

Lemma objects_copied src dst dst' e :
  dst_copied src dst dst' -> objects_present dst e -> objects_present dst' e.
Proof.
  intros [_ _ [D _] [K _]] H s Hs. destruct (H s Hs) as [Hd Hc].
  split; intros h Hh; [by apply D, Hd|by apply K, Hc].
Qed.

Lemma objects_added dst dst' e : blocks_added dst dst' -> objects_present dst e -> objects_present dst' e.
Proof. intros [_ D K _ _] H s Hs. unfold object_present. rewrite D, K. by apply H. Qed.

Lemma downloads_objects dst b :
  Forall (download_present dst) (block_downloads b) -> objects_present dst (mb_event b).
Proof.
  unfold block_downloads, as_data_stream_block, objects_present. intros H s Hs. rewrite Hs in H. simpl in H.
  apply Forall_app in H as [Hd Hc]. split; intros h Hh.
  - destruct (mds_new_data s); [|done]. injection Hh as <-. apply Forall_cons in Hd as [Hd _]. exact Hd.
  - destruct (mds_new_checkpoint s); [|done]. injection Hh as <-. apply Forall_cons in Hc as [Hc _]. exact Hc.
Qed.

Lemma tasks_objects dst blocks :
  Forall (download_present dst) (block_download_tasks blocks) ->
  forall hb, hb ∈ blocks -> objects_present dst (mb_event hb.2).
Proof.
  rewrite <- tasks_perm. induction blocks as [|x l IH]; intros H hb Hin; [by apply elem_of_nil in Hin|].
  simpl in H. apply Forall_app in H as [Hx Hl].
  apply elem_of_cons in Hin as [->|Hin]; [by apply downloads_objects|by apply IH].
Qed.

(** What the steps before the head is moved leave behind. *)
Definition prepared src dst dst' : Prop :=
  exists dst1, dst_copied src dst dst1 /\ blocks_added dst1 dst'.

Lemma prepared_objects src dst dst' e : prepared src dst dst' -> objects_present dst e -> objects_present dst' e.
Proof. intros (d & Hc & Ha) H. by eapply objects_added, objects_copied. Qed.

Lemma prepared_chain src dst dst' :
  prepared src dst dst' ->
  ref_repo (dsi_metadata_chain dst') = ref_repo (dsi_metadata_chain dst) /\
  grows (meta_block_repo (dsi_metadata_chain dst)) (meta_block_repo (dsi_metadata_chain dst')).
Proof. intros (d & [E _ _ _] & [R _ _ _ G]). by rewrite E in R, G. Qed.

Lemma prepared_state src dst dst' l : prepared src dst dst' -> dataset_state dst l -> dataset_state dst' l.
Proof.
  intros Hp [[Hh Hl Hv] Ho]. destruct (prepared_chain _ _ _ Hp) as [Hr Hg]. split.
  - split; [unfold head_is; by rewrite Hr|by eapply linked_grows|done].
  - intros hb Hin. by eapply prepared_objects, Ho.
Qed.

Lemma unambiguous_rev trust (r : BR) blocks : unambiguous trust r blocks -> unambiguous trust r (rev blocks).
Proof.
  assert (Hr : forall x, x ∈ rev blocks <-> x ∈ blocks).
  { intros x. by rewrite !list_elem_of_In, <- in_rev. }
  intros [H1 H2]. split; setoid_rewrite Hr; done.
Qed.

(** The end of [synchronize_blocks]: everything but the head is in place, and the
    head moved if all went well. *)
Record committed src dst dst2 dst' (src_head : Multihash) (dst_head : option Multihash)
    (v : AppendValidation) blocks : Prop := {
  cm_prepared : prepared src dst dst2;
  cm_expected : head_is (dsi_metadata_chain dst2) dst_head;
  cm_head : Multihash_wf src_head -> head_is (dsi_metadata_chain dst') (Some src_head);
  cm_blocks : meta_block_repo (dsi_metadata_chain dst') = meta_block_repo (dsi_metadata_chain dst2);
  cm_objects : forall e, objects_present dst2 e -> objects_present dst' e;
  cm_downloads : Forall (download_present dst2) (block_download_tasks blocks);
  cm_linked : forall base,
    linked (meta_block_repo (dsi_metadata_chain dst)) (head_hash base) base -> stacked (rev blocks) base ->
    linked (meta_block_repo (dsi_metadata_chain dst2)) (head_hash (blocks ++ base)) (blocks ++ base) /\
    (v = AppendValidation_Full -> valid_chain base -> valid_chain (blocks ++ base))
}.

Lemma synchronize_run fuel limit schedule blocks src dst src_head dst_head v trust stats log x t' :
  unambiguous trust (meta_block_repo (dsi_metadata_chain dst)) blocks ->
  synchronize_blocks (Url := Url) fuel limit schedule blocks src dst src_head dst_head v trust stats log
    = Some (x, t') ->
  exists dst2,
    match x with
    | Ok _ => committed src dst dst2 (tf_dst t') src_head dst_head v blocks
    | _ => prepared src dst dst2 /\ tf_dst t' = dst2
    end.
Proof.
  intros Hu. unfold synchronize_blocks.
  destruct (try_for_each_concurrent _ _ _ _ _ _ _ _) as [[y t1]|] eqn:Hd; [|done].
  apply downloads_run in Hd as [Hc Hend]; [|done]. simpl in Hc.
  assert (Hprep : prepared src dst (tf_dst t1)) by (exists (tf_dst t1); split; [done|apply blocks_added_refl]).
  destruct y as [[]| |]; [|by intros [= <- <-]; exists (tf_dst t1)..].
  destruct (Hend eq_refl) as (order & Ho & _ & Hall). rewrite Ho in Hall.
  destruct (commit_blocks _ _ _ _ _) as [[z t2]|] eqn:Hb; [|done].
  apply commit_blocks_run in Hb as [Hadd Hchain].
  2:{ simpl. rewrite (dc_chain _ _ _ Hc). by apply unambiguous_rev. }
  simpl in Hadd, Hchain. assert (Hprep2 : prepared src dst (tf_dst t2)) by (by exists (tf_dst t1)).
  destruct z as [[]| |]; [|by intros [= <- <-]; exists (tf_dst t2)..].
  destruct (move_head src_head dst_head t2) as [w t3] eqn:Hm. intros [= <- <-].
  exists (tf_dst t2). apply move_head_run in Hm. destruct w as [[]| |]; [|done..].
  destruct Hm as (He & Hh & ->). split; [done..| | |].
  - intros e H. done.
  - rewrite !Forall_forall in *. intros d Hin. specialize (Hall d Hin).
    destruct Hadd as [_ Hda Hck _ _]. destruct d; simpl in *; congruence.
  - intros base Hl Hst. rewrite (dc_chain _ _ _ Hc), rev_involutive in Hchain. by apply Hchain.
Qed.

(** When [synchronize_blocks] fails the dataset is what it was. *)
Lemma synchronize_failed_state fuel limit schedule blocks src dst src_head dst_head v trust stats log x t' l :
  unambiguous trust (meta_block_repo (dsi_metadata_chain dst)) blocks ->
  synchronize_blocks (Url := Url) fuel limit schedule blocks src dst src_head dst_head v trust stats log
    = Some (x, t') ->
  is_ok x = false -> dataset_state dst l -> dataset_state (tf_dst t') l.
Proof.
  intros Hu Hs Hx Hst. apply synchronize_run in Hs as (dst2 & H); [|done].
  destruct x as [[]| |]; [done|..]; destruct H as [Hp ->]; by eapply prepared_state.
Qed.

(** When it succeeds the blocks are on top of [base]. *)
Lemma committed_state src dst dst2 dst' src_head dst_head v blocks base :
  committed src dst dst2 dst' src_head dst_head v blocks ->
  linked (meta_block_repo (dsi_metadata_chain dst)) (head_hash base) base -> stacked (rev blocks) base ->
  (forall hb, hb ∈ base -> objects_present dst (mb_event hb.2)) ->
  valid_chain base -> (v = AppendValidation_Full \/ valid_chain (blocks ++ base)) ->
  head_hash (blocks ++ base) = Some src_head -> Multihash_wf src_head ->
  dataset_state dst' (blocks ++ base).
Proof.
  intros Hc Hl Hst Ho Hv Hval Hh Hwf. destruct (cm_linked _ _ _ _ _ _ _ _ Hc base Hl Hst) as [Hl' Hv'].
  split.
  - split; [rewrite Hh; by apply Hc|rewrite (cm_blocks _ _ _ _ _ _ _ _ Hc); done|].
    destruct Hval as [->|?]; [by apply Hv'|done].
  - intros hb Hin. eapply cm_objects; [done|]. apply elem_of_app in Hin as [Hin|Hin].
    + eapply tasks_objects; [apply Hc|done].
    + eapply prepared_objects; [apply Hc|by apply Ho].
Qed.

(** Enough fuel for the blocks and those below them: the exchange returns. *)
Lemma synchronize_return fuel limit schedule blocks src dst src_head dst_head v trust stats log base :
  unambiguous trust (meta_block_repo (dsi_metadata_chain dst)) blocks ->
  linked (meta_block_repo (dsi_metadata_chain dst)) (head_hash base) base -> stacked (rev blocks) base ->
  length (blocks ++ base) < fuel ->
  is_Some (synchronize_blocks (Url := Url) fuel limit schedule blocks src dst src_head dst_head v trust stats log).
Proof.
  intros Hu Hl Hst Hf. unfold synchronize_blocks.
  destruct (downloads_return (Url := Url) (download_turns (block_download_tasks blocks)) limit schedule src trust []
    (block_download_tasks blocks) (mkTransfer dst (estimate stats blocks)
       (log ++ [(SyncStage_TransferData, estimate stats blocks)]))) as [[y t1] Hd];
    [done|unfold pending_turns, download_turns; simpl; lia|].
  rewrite Hd. destruct y as [[]| |]; [|eauto..]. apply downloads_run in Hd as [Hc _]; [|done]. simpl in Hc.
  destruct (commit_blocks_return (Url := Url) fuel v trust (rev blocks)
    (mkTransfer (tf_dst t1) (estimate stats blocks) (tf_log t1)) base) as [[z t2] Hb].
  - simpl. rewrite (dc_chain _ _ _ Hc). by apply unambiguous_rev.
  - simpl. by rewrite (dc_chain _ _ _ Hc).
  - done.
  - rewrite length_app in Hf. by rewrite length_rev.
  - rewrite Hb. destruct z as [[]| |]; eauto.
Qed.

(** What the stores have to take for the transfer of [blocks]. *)
Record transferable src dst (trust : bool) blocks : Prop := {
  tb_downloads : Forall (downloadable (Url := Url) src dst trust) (block_download_tasks blocks);
  tb_blocks : Forall (storable trust (meta_block_repo (dsi_metadata_chain dst))) blocks
}.

(** If the stores take everything, nothing but the head decides. *)
Lemma synchronize_succeed fuel limit schedule blocks src dst src_head dst_head v trust stats log x t' base :
  unambiguous trust (meta_block_repo (dsi_metadata_chain dst)) blocks ->
  linked (meta_block_repo (dsi_metadata_chain dst)) (head_hash base) base -> stacked (rev blocks) base ->
  length (blocks ++ base) < fuel -> valid_chain (blocks ++ base) -> transferable src dst trust blocks ->
  synchronize_blocks (Url := Url) fuel limit schedule blocks src dst src_head dst_head v trust stats log
    = Some (x, t') ->
  exists t, prepared src dst (tf_dst t) /\ (x, t') = move_head src_head dst_head t.
Proof.
  intros Hu Hl Hst Hf Hv [Htd Htb]. unfold synchronize_blocks.
  destruct (try_for_each_concurrent _ _ _ _ _ _ _ _) as [[y t1]|] eqn:Hd; [|done].
  apply (downloads_succeed _ _ _ _ dst) in Hd as Hy; [|by constructor|exact Htd|by split; constructor]. subst y.
  apply downloads_run in Hd as [Hc _]; [|done]. simpl in Hc.
  destruct (commit_blocks _ _ _ _ _) as [[z t2]|] eqn:Hb; [|done].
  assert (Hu' : unambiguous trust (meta_block_repo (dsi_metadata_chain (tf_dst t1))) (rev blocks)).
  { rewrite (dc_chain _ _ _ Hc). by apply unambiguous_rev. }
  assert (z = Ok tt) as ->.
  { eapply (commit_blocks_succeed _ _ _ _ _ _ _ base) in Hb; [done|done|by simpl; rewrite (dc_chain _ _ _ Hc)|done| | |].
    - rewrite length_app in Hf. by rewrite length_rev.
    - by rewrite rev_involutive.
    - simpl. rewrite (dc_chain _ _ _ Hc). by apply List.Forall_rev. }
  apply commit_blocks_run in Hb as [Hadd _]; [|done].
  intros [= <-]. exists t2. split; [by exists (tf_dst t1)|done].
Qed.

(** The store of references takes a new head. *)
Definition head_writable (c : MetadataChainImpl BR RR) : Prop :=
  forall h, (rr_set (ref_repo c) BlockRef_Head h).1 = Ok tt.

Lemma move_head_ok src dst t src_head dst_head :
  prepared src dst (tf_dst t) -> head_is (dsi_metadata_chain dst) dst_head ->
  head_writable (dsi_metadata_chain dst) -> (move_head (Url := Url) src_head dst_head t).1 = Ok tt.
Proof.
  intros Hp Hh Hw. destruct (prepared_chain _ _ _ Hp) as [Hr _].
  unfold head_is, append_actual_ref, head_writable, move_head, set_ref in *. simpl. rewrite Hr. specialize (Hw src_head).
  destruct (rr_get (ref_repo (dsi_metadata_chain dst)) BlockRef_Head) as [a|[]|]; simpl; try done;
    injection Hh as <-; rewrite decide_False by tauto; simpl;
    destruct (rr_set _ _ _) as [y rr]; simpl in *; by subst.
Qed.

(** A head that moved in the meantime is noticed. *)
Lemma synchronize_stale fuel limit schedule blocks src dst src_head dst_head actual v trust stats log x t' :
  unambiguous trust (meta_block_repo (dsi_metadata_chain dst)) blocks ->
  head_is (dsi_metadata_chain dst) actual -> actual <> dst_head ->
  synchronize_blocks (Url := Url) fuel limit schedule blocks src dst src_head dst_head v trust stats log
    = Some (x, t') ->
  is_ok x = false.
Proof.
  intros Hu Hh Hne Hs. apply synchronize_run in Hs as (dst2 & H); [|done].
  destruct x as [[]| |]; [|done..]. destruct (prepared_chain _ _ _ (cm_prepared _ _ _ _ _ _ _ _ H)) as [Hr _].
  pose proof (cm_expected _ _ _ _ _ _ _ _ H) as He. unfold head_is in *. rewrite Hr in He. congruence.
Qed.

Lemma tasks_app blocks blocks' :
  block_download_tasks (blocks ++ blocks') = block_download_tasks blocks' ++ block_download_tasks blocks.
Proof. unfold block_download_tasks. by rewrite rev_app_distr, map_app, concat_app. Qed.

Lemma transferable_app src dst trust blocks blocks' :
  transferable src dst trust (blocks ++ blocks') -> transferable src dst trust blocks.
Proof.
  intros [Hd Hb]. rewrite tasks_app in Hd. apply Forall_app in Hd as [_ Hd], Hb as [Hb _]. by split.
Qed.

(** Blocks of a stored, valid chain that the stores take: the exchange succeeds. *)
Lemma synchronize_complete fuel limit schedule blocks src dst src_head dst_head v trust stats log base :
  unambiguous trust (meta_block_repo (dsi_metadata_chain dst)) blocks ->
  linked (meta_block_repo (dsi_metadata_chain dst)) (head_hash base) base -> stacked (rev blocks) base ->
  (forall hb, hb ∈ base -> objects_present dst (mb_event hb.2)) ->
  length (blocks ++ base) < fuel -> valid_chain (blocks ++ base) -> transferable src dst trust blocks ->
  head_is (dsi_metadata_chain dst) dst_head -> head_writable (dsi_metadata_chain dst) ->
  head_hash (blocks ++ base) = Some src_head -> Multihash_wf src_head ->
  exists t, synchronize_blocks (Url := Url) fuel limit schedule blocks src dst src_head dst_head v trust stats log
      = Some (Ok tt, t) /\ dataset_state (tf_dst t) (blocks ++ base).
Proof.
  intros Hu Hl Hst Ho Hf Hv Ht Hh Hw Hsh Hwf.
  destruct (synchronize_return fuel limit schedule blocks src dst src_head dst_head v trust stats log base)
    as [[x t] Hs]; [done..|].
  destruct (synchronize_succeed _ _ _ _ _ _ _ _ _ _ _ _ _ _ base Hu Hl Hst Hf Hv Ht Hs) as (t0 & Hp & Hm).
  pose proof (move_head_ok _ _ _ src_head _ Hp Hh Hw) as Hok. rewrite <- Hm in Hok. simpl in Hok. subst x.
  exists t. split; [done|]. apply synchronize_run in Hs as (dst2 & Hc); [|done].
  apply (committed_state _ _ _ _ _ _ _ _ base Hc); auto. by eapply valid_chain_app.
Qed.
End Exchange.

(** * Reading a source that may lie *)

Section Reading.
Context {C : BlockCodec} {BR1 RR1 BR RR : Type}
        `{!MetadataBlockRepository BR1} `{!ReferenceRepository RR1} `{!MetadataBlockRepository BR}.

(** Following the predecessors from [o] reads these blocks and leads to [o']. *)
Inductive reads (r : BR1) : option Multihash -> list HashedMetadataBlock -> option Multihash -> Prop :=
| reads_nil o : reads r o [] o
| reads_cons h b xs o' :
    get_block r h = Ok b -> reads r (mb_prev_block_hash b) xs o' -> reads r (Some h) ((h, b) :: xs) o'.

Lemma interval_loop_reads fuel r o l x :
  interval_loop fuel r o None = Some (l, x) ->
  exists o', reads r o l o' /\ (is_ok x = true -> o' = None).
Proof.
  revert o l x. induction fuel as [|fuel IH]; intros o l x; simpl; [done|].
  destruct o as [h|]; [|intros [= <- <-]; exists None; split; [constructor|done]].
  rewrite decide_False by done. destruct (get_block r h) as [b| |] eqn:Hb;
    [|intros [= <- <-]; exists (Some h); split; [constructor|done]..].
  destruct (interval_loop fuel r _ None) as [[l' y]|] eqn:Hl; [|done]. intros [= <- <-].
  destruct (IH _ _ _ Hl) as (o' & Hr & Ho). exists o'. split; [by constructor|done].
Qed.

Lemma iter_reads fuel (c : MetadataChainImpl BR1 RR1) h l x :
  iter_blocks_interval fuel c h None false = Some (l, x) ->
  exists o', reads (meta_block_repo c) (Some h) l o' /\ (is_ok x = true -> o' = None).
Proof.
  unfold iter_blocks_interval. destruct (interval_loop _ _ _ _) as [[l' y]|] eqn:Hl; [|done].
  destruct (interval_loop_reads _ _ _ _ _ Hl) as (o' & Hr & Ho).
  intros H. exists o'. destruct y as [cur| |]; injection H as <- <-; (split; [done|]); [auto|done..].
Qed.

Lemma reads_take r o l o' n : reads r o l o' -> exists o'', reads r o (take n l) o''.
Proof.
  intros H. revert n. induction H as [o|h b xs o' Hb H IH]; intros n; [rewrite take_nil; eexists; constructor|].
  destruct n as [|n]; [eexists; constructor|]. destruct (IH n) as [o'' Ho]. exists o''. by constructor.
Qed.

(** Where reading leads to is the predecessor of the last block. *)
Lemma reads_last r o l o' hb : reads r o l o' -> last l = Some hb -> mb_prev_block_hash hb.2 = o'.
Proof.
  induction 1 as [|h b xs o' Hb H IH]; [done|]. destruct xs as [|x xs]; [|by rewrite last_cons_cons].
  intros [= <-]. by inversion H.
Qed.

Lemma reads_stacked r o l base : reads r o l (head_hash base) -> o = head_hash (l ++ base) /\ stacked (rev l) base.
Proof.
  remember (head_hash base) as o' eqn:Ho. induction 1 as [o|h b xs o' Hb H IH]; [done|].
  destruct (IH Ho) as [Hp Hs]. split; [done|]. simpl. apply stacked_snoc. by rewrite rev_involutive.
Qed.

Lemma reads_lookup r o l o' h b : reads r o l o' -> (h, b) ∈ l -> get_block r h = Ok b.
Proof.
  induction 1 as [|h' b' xs o' Hb H IH]; intros Hin; [by apply elem_of_nil in Hin|].
  apply elem_of_cons in Hin as [[= -> ->]|Hin]; auto.
Qed.

Lemma linked_reads r o l : linked r o l -> reads r o l None.
Proof. induction 1; by constructor. Qed.

(** The blocks by which a source claims to be ahead lead to the head of the other
    chain, or they are too few for the sequence number of their head. *)
Lemma compare_ahead fuel (c : MetadataChainImpl BR1 RR1) h1 (d : MetadataChainImpl BR RR) o2 xs :
  compare_chains fuel c h1 d o2 = Some (Ok (CompareChainsResult_LhsAhead xs)) ->
  exists o', reads (meta_block_repo c) (Some h1) xs o' /\
    (o' = o2 \/
     o' = None /\ xs <> [] /\ exists h2 b1 b2, o2 = Some h2 /\ get_block (meta_block_repo c) h1 = Ok b1 /\
       get_block (meta_block_repo d) h2 = Ok b2 /\ (mb_sequence_number b2 < mb_sequence_number b1)%Z /\
       length xs <= Z.to_nat (u64_sub (mb_sequence_number b1) (mb_sequence_number b2))).
Proof.
  unfold compare_chains. case_decide; [done|].
  destruct (get_block (meta_block_repo c) h1) as [b1| |] eqn:Hb1; [|done..].
  destruct o2 as [h2|].
  2:{ destruct (iter_blocks_interval _ _ _ _ _) as [[l y]|] eqn:Hi; [|done].
      destruct (iter_reads _ _ _ _ _ Hi) as (o' & Hr & Ho). unfold try_collect. simpl.
      destruct y as [[]|e|]; simpl; [|destruct e; done|done]. intros [= <-]. exists o'. auto. }
  destruct (get_block (meta_block_repo d) h2) as [b2| |] eqn:Hb2; [|done..].
  destruct (Z.compare_spec (mb_sequence_number b1) (mb_sequence_number b2)) as [Hc|Hc|Hc].
  - destruct (find_common_ancestor_sequence_number _ _ _ _ _ _ _) as [[o| |]|]; simpl; [|done..].
    unfold describe_divergence. by destruct o.
  - destruct (check_expected_common_ancestor _ _ _ _ _ _ _) as [[[]| |]|]; simpl; [done| |done..].
    unfold describe_divergence. by destruct common_ancestor_sequence_number.
  - unfold check_expected_common_ancestor.
    destruct (iter_blocks_interval _ _ _ _ _) as [[l y]|] eqn:Hi; [|done].
    destruct (iter_reads _ _ _ _ _ Hi) as (o0 & Hr0 & _). set (n := u64_sub _ _) in *.
    destruct (reads_take _ _ _ _ (Z.to_nat n) Hr0) as (o' & Hr).
    destruct (try_collect _) as [l'| |] eqn:Ht; simpl; [|done..].
    assert (l' = take (Z.to_nat n) l) as ->.
    { revert Ht. unfold try_collect, stream_take. simpl.
      destruct (if decide _ then _ else _) as [[]|e|]; [congruence|destruct e; done|done]. }
    destruct (last (take (Z.to_nat n) l)) as [x|] eqn:Hlast; [|done].
    pose proof (reads_last _ _ _ _ _ Hr Hlast) as Hprev.
    destruct (mb_prev_block_hash x.2) as [p|]; simpl.
    + case_decide as Hp.
      * destruct (find_common_ancestor_sequence_number _ _ _ _ _ _ _) as [[o| |]|]; simpl; [|done..].
        unfold describe_divergence. by destruct o.
      * intros [= <-]. exists o'. split; [done|]. left. subst o'.
        destruct (decide (p = h2)) as [->|Hne]; [done|by destruct Hp].
    + intros [= <-]. exists o'. split; [done|]. right. split_and!; [done|intros E; rewrite E in Hlast; discriminate Hlast|].
      exists h2, b1, b2. split_and!; [done..|]. rewrite length_take. lia.
Qed.
End Reading.

(** * The stages of the exchange *)

Section Stages.
Context {C : BlockCodec} {TC : TextCodecs} {Url : Type}
        {BR1 RR1 DR1 CR1 IR1 BR RR DR CR IR : Type}
        `{!MetadataBlockRepository BR1} `{!ReferenceRepository RR1}
        `{!ObjectRepository DR1} `{!ObjectRepository CR1}
        `{!MetadataBlockRepository BR} `{!ReferenceRepository RR}
        `{!ObjectRepository DR} `{!ObjectRepository CR}.

Implicit Types (src : DatasetImpl BR1 RR1 DR1 CR1 IR1) (dst : DatasetImpl BR RR DR CR IR)
  (l blocks : list HashedMetadataBlock) (src_ref : DatasetRefAny Url).

Lemma get_src_head_ok src_ref (c : MetadataChainImpl BR1 RR1) h :
  get_src_head src_ref c = Ok h <-> resolve_ref c BlockRef_Head = Ok h.
Proof. unfold get_src_head. destruct (resolve_ref c BlockRef_Head) as [|[]|]; split; congruence. Qed.

Lemma get_dest_head_ok (c : MetadataChainImpl BR RR) o :
  get_dest_head (Url := Url) c = Ok o <-> head_is c o.
Proof.
  unfold get_dest_head, head_is, append_actual_ref, resolve_ref.
  destruct (rr_get (ref_repo c) BlockRef_Head) as [|[]|]; split; congruence.
Qed.

(** What an exchange with an existing destination does once the chains have been
    compared. *)
Definition after_comparison fuel limit schedule counts src dst v (trust force : bool) src_head dst_head r
    : option (res (SyncError Url) SyncResult * Exchange) :=
  match select_blocks fuel (dsi_metadata_chain src) src_head dst_head force r with
  | None => None
  | Some (Ok (inl result)) => Some (Ok result, mkExchange (Some dst) [])
  | Some (Ok (inr blocks)) =>
      match synchronize_blocks fuel limit schedule blocks src dst src_head dst_head v trust
              (into_status counts) [] with
      | None => None
      | Some (x, t) =>
          Some (let! _ := x in Ok (SyncResult_Updated dst_head src_head (Z.of_nat (length blocks))),
                mkExchange (Some (tf_dst t)) (tf_log t))
      end
  | Some (Err e) => Some (Err e, mkExchange (Some dst) [])
  | Some Panic => Some (Panic, mkExchange (Some dst) [])
  end.

Lemma sync_compared fuel limit schedule counts src_ref src dst f v trust force src_head dst_head r :
  resolve_ref (dsi_metadata_chain src) BlockRef_Head = Ok src_head ->
  head_is (dsi_metadata_chain dst) dst_head ->
  compare_chains fuel (dsi_metadata_chain src) src_head (dsi_metadata_chain dst) dst_head = Some (Ok r) ->
  sync fuel limit schedule counts src_ref src (Some dst) f v trust force =
  after_comparison fuel limit schedule counts src dst v trust force src_head dst_head r.
Proof.
  intros Hs Hd Hc. unfold sync, after_comparison.
  rewrite (proj2 (get_src_head_ok _ _ _) Hs), (proj2 (get_dest_head_ok _ _) Hd), Hc. simpl.
  destruct (select_blocks _ _ _ _ _ _) as [[[|]| |]|]; done.
Qed.

(** Everything else leaves the destination alone. *)
Lemma sync_stages fuel limit schedule counts src_ref src dst f v trust force x e :
  sync fuel limit schedule counts src_ref src (Some dst) f v trust force = Some (x, e) ->
  (is_ok x = false /\ ex_dst e = Some dst) \/
  exists src_head dst_head r,
    resolve_ref (dsi_metadata_chain src) BlockRef_Head = Ok src_head /\
    head_is (dsi_metadata_chain dst) dst_head /\
    compare_chains fuel (dsi_metadata_chain src) src_head (dsi_metadata_chain dst) dst_head = Some (Ok r) /\
    after_comparison fuel limit schedule counts src dst v trust force src_head dst_head r = Some (x, e).
Proof.
  intros Hsync. pose proof Hsync as Hs. unfold sync in Hs.
  destruct (get_src_head src_ref _) as [src_head| |] eqn:Hsh; [|by injection Hs as <- <-; left..].
  destruct (get_dest_head _) as [dst_head| |] eqn:Hdh; [|by injection Hs as <- <-; left..].
  destruct (compare_chains _ _ _ _ _) as [cmp|] eqn:Hc; [|done].
  destruct cmp as [r| |]; simpl in Hs; [|by injection Hs as <- <-; left..]. clear Hs.
  right. exists src_head, dst_head, r.
  apply get_src_head_ok in Hsh. apply get_dest_head_ok in Hdh. split_and!; [done..|].
  by rewrite <- (sync_compared _ _ _ _ src_ref src dst f v trust force _ _ _ Hsh Hdh Hc).
Qed.

(** The blocks to transfer: those ahead, or all of them. *)
Lemma select_blocks_ok fuel (c : MetadataChainImpl BR1 RR1) src_head dst_head force r blocks :
  resolve_ref c BlockRef_Head = Ok src_head ->
  select_blocks (Url := Url) fuel c src_head dst_head force r = Some (Ok (inr blocks)) ->
  r = CompareChainsResult_LhsAhead blocks \/
  (force = true /\ reads (meta_block_repo c) (Some src_head) blocks None).
Proof.
  intros Hh. unfold select_blocks.
  assert (Hall : match iter_blocks fuel c with
                 | None => None
                 | Some (blocks, Ok _) => Some (Ok (inr blocks))
                 | Some (_, Err e) => Some (map_block_iteration_error e)
                 | Some (_, Panic) => Some Panic
                 end = Some (Ok (inr blocks)) :> option (res (SyncError Url) (SyncResult + _)) ->
                 reads (meta_block_repo c) (Some src_head) blocks None).
  { unfold iter_blocks, iter_blocks_interval_ref. rewrite Hh.
    destruct (iter_blocks_interval _ _ _ _ _) as [[l y]|] eqn:Hi; [|done].
    destruct (iter_reads _ _ _ _ _ Hi) as (o' & Hr & Ho).
    destruct y as [[]|e|]; [intros [= ->]; by rewrite Ho in Hr|by destruct e|done]. }
  destruct r as [|xs|xs|n m]; [done|by intros [= ->]; left|..].
  all: destruct force; simpl; [by right; auto|by destruct dst_head].
Qed.

Lemma select_blocks_done fuel (c : MetadataChainImpl BR1 RR1) src_head dst_head force r result :
  select_blocks (Url := Url) fuel c src_head dst_head force r = Some (Ok (inl result)) ->
  result = SyncResult_UpToDate /\ r = CompareChainsResult_Equal.
Proof.
  unfold select_blocks. destruct r as [|xs|xs|n m]; [by intros [= ->]|done|..].
  all: destruct force; simpl; [|by destruct dst_head].
  all: destruct (iter_blocks _ _) as [[l [[]|[]|]]|]; done.
Qed.
End Stages.
