(* ===== verification/EventSourcing.v ===== *)
(** Event sourcing: projections, aggregates and the in-memory event store.

    Sources: src/utils/event-sourcing/src/{projection, projection_event,
    aggregate, event_store, inmem_event_store}.rs.

    A projection folds events into a state and may refuse an event; the
    [assert!]s of the code are panics.  An aggregate is the state together with
    the events that are not stored yet.  Logging is left out.  Event ids are
    positions in the store; a [Vec] has at most [isize::MAX] elements, so the
    conversions of a position to [i64] do not fail. *)

From S2P Require Import Prelude.

(** * Projections *)

(** The error carries the state and the event that were refused. *)
Class Projection (Q Ev St : Type) := {
  proj_apply : option St -> Ev -> res (option St * Ev) St;
  matches_query : Ev -> Q -> bool
}.

(** A refusal hands back what it was given: [Aggregate::apply] relies on it
    to restore the state it took. *)
Class LawfulProjection {Q Ev St} (P : Projection Q Ev St) : Prop := {
  apply_refuses : forall s e s' e', proj_apply s e = Err (s', e') -> s' = s /\ e' = e
}.

Abbreviation EventID := Z (only parsing).

(** * Event stores *)

Record GetEventsOpts := mkGetEventsOpts {
  geo_from : option EventID;
  geo_to : option EventID
}.

Inductive GetEventsError := GetEventsError_Internal.

Inductive SaveEventsError :=
| SaveEventsError_NothingToSave
| SaveEventsError_Internal.

(** A stream is what it yields and how it ends. *)
Class EventStore (Q Ev S : Type) := {
  es_get_events : S -> Q -> GetEventsOpts -> list (EventID * Ev) * res GetEventsError unit;
  es_save_events : S -> Q -> list Ev -> res SaveEventsError EventID * S;
  es_len : S -> nat
}.

(** * Aggregates *)

Record Aggregate (Q Ev St : Type) := mkAggregate {
  agg_query : Q;
  agg_state : option St;
  agg_pending_events : list Ev;
  agg_last_stored_event : option EventID
}.
Arguments mkAggregate {Q Ev St}.
Arguments agg_query {Q Ev St}.
Arguments agg_state {Q Ev St}.
Arguments agg_pending_events {Q Ev St}.
Arguments agg_last_stored_event {Q Ev St}.

Record LoadOpts := mkLoadOpts { lo_as_of_event : option EventID }.
Definition LoadOpts_default : LoadOpts := mkLoadOpts None.

Inductive LoadError (Q Ev St : Type) :=
| LoadError_NotFound (query : Q)
| LoadError_ProjectionError (e : option St * Ev)
| LoadError_Internal.
Arguments LoadError_NotFound {Q Ev St}.
Arguments LoadError_ProjectionError {Q Ev St}.
Arguments LoadError_Internal {Q Ev St}.

Inductive TryLoadError (Ev St : Type) :=
| TryLoadError_ProjectionError (e : option St * Ev)
| TryLoadError_Internal.
Arguments TryLoadError_ProjectionError {Ev St}.
Arguments TryLoadError_Internal {Ev St}.

Inductive UpdateError (Ev St : Type) :=
| UpdateError_ProjectionError (e : option St * Ev)
| UpdateError_Internal.
Arguments UpdateError_ProjectionError {Ev St}.
Arguments UpdateError_Internal {Ev St}.

Inductive SaveError := SaveError_Internal.

Definition SaveError_from (v : SaveEventsError) : SaveError :=
  match v with
  | SaveEventsError_NothingToSave => SaveError_Internal
  | SaveEventsError_Internal => SaveError_Internal
  end.

Section Aggregates.
Context {Q Ev St S : Type} {P : Projection Q Ev St} {ES : EventStore Q Ev S}.

Implicit Types (a : Aggregate Q Ev St) (e : Ev) (q : Q).

Definition Aggregate_new q (genesis_event : Ev) : res (option St * Ev) (Aggregate Q Ev St) :=
  let! state := proj_apply None genesis_event in
  Ok (mkAggregate q (Some state) [genesis_event] None).

Definition Aggregate_from_stored_event q (event_id : EventID) (event : Ev)
    : res (option St * Ev) (Aggregate Q Ev St) :=
  let! state := proj_apply None event in
  Ok (mkAggregate q (Some state) [] (Some event_id)).

Definition Aggregate_from_stored_snapshot q (event_id : EventID) (state : St)
    : Aggregate Q Ev St :=
  mkAggregate q (Some state) [] (Some event_id).

Definition Aggregate_has_updates a : bool :=
  match agg_pending_events a with [] => false | _ => true end.

(** The state is taken out, and put back from the error when refused. *)
Definition Aggregate_apply a (event : Ev) : res (option St * Ev) unit * Aggregate Q Ev St :=
  match proj_apply (agg_state a) event with
  | Ok state =>
      (Ok tt, mkAggregate (agg_query a) (Some state) (agg_pending_events a ++ [event])
                (agg_last_stored_event a))
  | Err err =>
      (Err err, mkAggregate (agg_query a) err.1 (agg_pending_events a) (agg_last_stored_event a))
  | Panic =>
      (Panic, mkAggregate (agg_query a) None (agg_pending_events a) (agg_last_stored_event a))
  end.

Definition Aggregate_apply_stored a (event_id : EventID) (event : Ev)
    : res (option St * Ev) unit * Aggregate Q Ev St :=
  let in_order :=
    match agg_last_stored_event a with
    | Some last_stored_event => bool_decide (last_stored_event < event_id)%Z
    | None => true
    end in
  if in_order then
    match proj_apply (agg_state a) event with
    | Ok state =>
        (Ok tt, mkAggregate (agg_query a) (Some state) (agg_pending_events a) (Some event_id))
    | Err err =>
        (Err err, mkAggregate (agg_query a) err.1 (agg_pending_events a) (agg_last_stored_event a))
    | Panic =>
        (Panic, mkAggregate (agg_query a) None (agg_pending_events a) (agg_last_stored_event a))
    end
  else (Panic, a).

(** The [while let Some(res) = event_stream.next()] loop. *)
Fixpoint apply_stream {E} (proj_err : option St * Ev -> E) (internal : E) a
    (events : list (EventID * Ev)) (ended : res GetEventsError unit)
    : res E unit * Aggregate Q Ev St :=
  match events with
  | [] => (map_err (fun _ => internal) ended, a)
  | (event_id, event) :: rest =>
      match Aggregate_apply_stored a event_id event with
      | (Ok _, a') => apply_stream proj_err internal a' rest ended
      | (Err err, a') => (Err (proj_err err), a')
      | (Panic, a') => (Panic, a')
      end
  end.

Definition Aggregate_load_ext q (event_store : S) (opts : LoadOpts)
    : res (LoadError Q Ev St) (Aggregate Q Ev St) :=
  match es_get_events event_store q (mkGetEventsOpts None (lo_as_of_event opts)) with
  | ((event_id, event) :: rest, ended) =>
      match Aggregate_from_stored_event q event_id event with
      | Ok agg =>
          match apply_stream LoadError_ProjectionError LoadError_Internal agg rest ended with
          | (Ok _, agg') => Ok agg'
          | (Err err, _) => Err err
          | (Panic, _) => Panic
          end
      | Err err => Err (LoadError_ProjectionError err)
      | Panic => Panic
      end
  | ([], Ok _) => Err (LoadError_NotFound q)
  | ([], Err GetEventsError_Internal) => Err LoadError_Internal
  | ([], Panic) => Panic
  end.

Definition Aggregate_load q (event_store : S) : res (LoadError Q Ev St) (Aggregate Q Ev St) :=
  Aggregate_load_ext q event_store LoadOpts_default.

Definition Aggregate_try_load q (event_store : S)
    : res (TryLoadError Ev St) (option (Aggregate Q Ev St)) :=
  match Aggregate_load_ext q event_store LoadOpts_default with
  | Ok a => Ok (Some a)
  | Err (LoadError_NotFound _) => Ok None
  | Err LoadError_Internal => Err TryLoadError_Internal
  | Err (LoadError_ProjectionError e) => Err (TryLoadError_ProjectionError e)
  | Panic => Panic
  end.

Definition Aggregate_update_ext a (event_store : S) (opts : LoadOpts)
    : res (UpdateError Ev St) unit * Aggregate Q Ev St :=
  if Aggregate_has_updates a then (Panic, a)
  else
    let '(events, ended) :=
      es_get_events event_store (agg_query a)
        (mkGetEventsOpts (agg_last_stored_event a) (lo_as_of_event opts)) in
    apply_stream UpdateError_ProjectionError UpdateError_Internal a events ended.

(** The pending events are taken out before they are stored. *)
Definition Aggregate_save a (event_store : S) : res SaveError unit * Aggregate Q Ev St * S :=
  match agg_pending_events a with
  | [] => (Ok tt, a, event_store)
  | events =>
      let taken := mkAggregate (agg_query a) (agg_state a) [] (agg_last_stored_event a) in
      match es_save_events event_store (agg_query a) events with
      | (Ok last_stored_event, store') =>
          (Ok tt, mkAggregate (agg_query a) (agg_state a) [] (Some last_stored_event), store')
      | (Err err, store') => (Err (SaveError_from err), taken, store')
      | (Panic, store') => (Panic, taken, store')
      end
  end.

Definition Aggregate_as_state a : res (option St * Ev) St := unwrap (agg_state a).

(** * Replaying events *)

(** The reference semantics of a history. *)
Fixpoint replay (s : option St) (es : list Ev) : res (option St * Ev) (option St) :=
  match es with
  | [] => Ok s
  | e :: es' => let! s' := proj_apply s e in replay (Some s') es'
  end.

Lemma replay_app s es1 es2 :
  replay s (es1 ++ es2) = (let! s' := replay s es1 in replay s' es2).
Proof.
  revert s; induction es1 as [|e es1 IH]; intros s; simpl; [done|].
  destruct (proj_apply s e); simpl; [apply IH|done..].
Qed.

(** Replaying one event at a time. *)
Lemma replay_snoc s es e :
  replay s (es ++ [e]) = (let! s' := replay s es in let! s'' := proj_apply s' e in Ok (Some s'')).
Proof. rewrite replay_app. destruct (replay s es); simpl; done. Qed.

(** A property that every accepted event keeps holds of every replayed
    state. *)
Lemma replay_invariant (I : St -> Prop) es s s' :
  (forall s e s', (forall x, s = Some x -> I x) -> proj_apply s e = Ok s' -> I s') ->
  (forall x, s = Some x -> I x) -> replay s es = Ok s' -> forall x, s' = Some x -> I x.
Proof.
  intros Hstep. revert s; induction es as [|e es IH]; intros s Hs H; simpl in H.
  - by injection H as <-.
  - apply res_bind_ok in H as (s1 & Hs1 & H). eapply IH; [|exact H].
    intros x [= <-]. by eapply Hstep.
Qed.
End Aggregates.

(** * The in-memory store *)

Class EventStoreState (Ev S : Type) := {
  events_count : S -> nat;
  get_events : S -> list Ev;
  add_event : S -> Ev -> S
}.

Class LawfulEventStoreState (Ev S : Type) `{EventStoreState Ev S} : Prop := {
  events_count_length : forall s, events_count s = length (get_events s);
  get_events_add : forall s e, get_events (add_event s e) = get_events s ++ [e]
}.

(** [EventStoreStateImpl]. *)
Record EventStoreStateImpl (Ev : Type) := mkEventStoreStateImpl { esi_events : list Ev }.
Arguments mkEventStoreStateImpl {Ev}.
Arguments esi_events {Ev}.

#[export] Instance event_store_state_impl Ev : EventStoreState Ev (EventStoreStateImpl Ev) := {|
  events_count s := length (esi_events s);
  get_events s := esi_events s;
  add_event s e := mkEventStoreStateImpl (esi_events s ++ [e])
|}.

#[export] Instance event_store_state_impl_lawful Ev
  : LawfulEventStoreState Ev (EventStoreStateImpl Ev).
Proof. split; done. Qed.

Section InMemoryStore.
Context {Q Ev St S : Type} {P : Projection Q Ev St} {SS : EventStoreState Ev S}.

Definition enumerate (l : list Ev) : list (nat * Ev) := zip (seq 0 (length l)) l.

(** [iter().enumerate().skip(seen).filter(...).next()] *)
Definition inmem_next (events : list Ev) (seen : nat) (query : Q) : option (nat * Ev) :=
  head (List.filter (fun '(_, e) => matches_query e query) (drop seen (enumerate events))).

(** The [loop] over the events of a store that does not change meanwhile; each
    turn moves [seen] forward, so the number of events bounds the turns. *)
Fixpoint inmem_events_loop (fuel : nat) (events : list Ev) (seen : nat) (query : Q)
    : list (EventID * Ev) :=
  match fuel with
  | 0 => []
  | Datatypes.S fuel' =>
      match inmem_next events seen query with
      | None => []
      | Some (i, event) =>
          (Z.of_nat i, event) :: inmem_events_loop fuel' events (Datatypes.S i) query
      end
  end.

Definition inmem_get_events (s : S) (query : Q) (opts : GetEventsOpts)
    : list (EventID * Ev) * res GetEventsError unit :=
  let seen : res GetEventsError nat :=
    match geo_from opts with None => Ok 0 | Some id => usize_of_i64 (i64_add id 1) end in
  let to : res GetEventsError nat :=
    match geo_to opts with
    | None => Ok (events_count s)
    | Some id => usize_of_i64 (i64_add id 1)
    end in
  match seen, to with
  | Ok seen, Ok to =>
      if decide (length (get_events s) < to) then ([], Panic)
      else
        let events := take to (get_events s) in
        (inmem_events_loop (Datatypes.S (length events)) events seen query, Ok tt)
  | _, _ => ([], Panic)
  end.

(** [g.events_count() - 1] of an empty store does not convert to [i64]. *)
Definition inmem_save_events (s : S) (_ : Q) (events : list Ev)
    : res SaveEventsError EventID * S :=
  let s' := fold_left add_event events s in
  if decide (events_count s' = 0) then (Panic, s')
  else (Ok (Z.of_nat (events_count s' - 1)), s').

#[global] Instance in_memory_event_store : EventStore Q Ev S := {|
  es_get_events := inmem_get_events;
  es_save_events := inmem_save_events;
  es_len := events_count
|}.
End InMemoryStore.

(** * Loading is replaying *)

Section InMemoryProofs.
Context {Q Ev St S : Type} {P : Projection Q Ev St} {SS : EventStoreState Ev S}
        `{!LawfulEventStoreState Ev S}.

Implicit Types (a : Aggregate Q Ev St) (q : Q) (s : S).

Definition numbered (n : nat) (l : list Ev) : list (nat * Ev) := zip (seq n (length l)) l.

Definition selects q : nat * Ev -> bool := fun '(_, e) => matches_query e q.

Definition with_id : nat * Ev -> EventID * Ev := fun '(i, e) => (Z.of_nat i, e).

(** The events of a query, with their ids, and without. *)
Definition history_from (n : nat) (l : list Ev) q : list (EventID * Ev) :=
  map with_id (List.filter (selects q) (numbered n l)).

Definition history s q : list Ev := List.filter (fun e => matches_query e q) (get_events s).

Lemma drop_numbered k n l : drop k (numbered n l) = numbered (n + k) (drop k l).
Proof.
  revert n l; induction k as [|k IH]; intros n l; [by rewrite Nat.add_0_r|].
  destruct l as [|x l]; [done|]. unfold numbered in *. simpl. rewrite IH.
  by rewrite Nat.add_succ_comm.
Qed.

Lemma filter_numbered_head q n l i e t :
  List.filter (selects q) (numbered n l) = (i, e) :: t ->
  n <= i < n + length l /\ t = List.filter (selects q) (drop (Datatypes.S i - n) (numbered n l)).
Proof.
  revert n; induction l as [|x l IH]; intros n; simpl; [done|].
  change (numbered n (x :: l)) with ((n, x) :: numbered (Datatypes.S n) l). simpl.
  destruct (matches_query x q).
  - intros; simplify_eq. split; [lia|]. by replace (Datatypes.S i - i) with 1 by lia.
  - intros H. destruct (IH _ H) as [Hi ->]. split; [lia|].
    by replace (Datatypes.S i - n) with (Datatypes.S (Datatypes.S i - Datatypes.S n)) by lia.
Qed.

(** The loop yields the matching events behind [seen], in order. *)
Lemma inmem_loop_spec fuel l seen q :
  length l - seen < fuel ->
  inmem_events_loop fuel l seen q = history_from seen (drop seen l) q.
Proof.
  revert seen; induction fuel as [|fuel IH]; intros seen Hf; [lia|]. simpl.
  unfold inmem_next, enumerate, history_from.
  change (zip (seq 0 (length l)) l) with (numbered 0 l).
  change (fun '(_, e) => matches_query e q) with (selects q).
  rewrite drop_numbered. simpl.
  destruct (List.filter (selects q) (numbered seen (drop seen l))) as [|[i e] t] eqn:Hfil; [done|].
  destruct (filter_numbered_head _ _ _ _ _ _ Hfil) as [Hi ->]. rewrite length_drop in Hi.
  simpl. f_equal. rewrite IH by lia. unfold history_from.
  rewrite drop_numbered, drop_drop. by replace (seen + (Datatypes.S i - seen)) with (Datatypes.S i) by lia.
Qed.

Lemma history_from_events n l q :
  map snd (history_from n l q) = List.filter (fun e => matches_query e q) l.
Proof.
  unfold history_from. revert n; induction l as [|x l IH]; intros n; [done|].
  change (numbered n (x :: l)) with ((n, x) :: numbered (Datatypes.S n) l). simpl.
  destruct (matches_query x q); simpl; by rewrite IH.
Qed.

Lemma get_events_all s q :
  es_get_events s q (mkGetEventsOpts None None) = (history_from 0 (get_events s) q, Ok tt).
Proof.
  cbn [es_get_events in_memory_event_store]. unfold inmem_get_events. cbn [geo_from geo_to].
  rewrite events_count_length.
  rewrite decide_False by lia. rewrite firstn_all. by rewrite inmem_loop_spec by lia.
Qed.

(** Ids grow along a stream. *)
Fixpoint ids_above (lo : Z) (es : list (EventID * Ev)) : Prop :=
  match es with
  | [] => True
  | (i, _) :: es' => (lo < i)%Z /\ ids_above i es'
  end.

Lemma ids_above_weaken lo lo' es : (lo' <= lo)%Z -> ids_above lo es -> ids_above lo' es.
Proof. destruct es as [|[i e] es]; simpl; [done|]. intros ? [? ?]. split; [lia|done]. Qed.

Lemma history_ids n l q : ids_above (Z.of_nat n - 1) (history_from n l q).
Proof.
  unfold history_from. revert n; induction l as [|x l IH]; intros n; [done|].
  change (numbered n (x :: l)) with ((n, x) :: numbered (Datatypes.S n) l). simpl.
  specialize (IH (Datatypes.S n)). replace (Z.of_nat (Datatypes.S n) - 1)%Z with (Z.of_nat n) in IH by lia.
  destruct (matches_query x q); simpl; [split; [lia|done]|].
  eapply ids_above_weaken; [|exact IH]. lia.
Qed.

Definition last_id (d : option EventID) (es : list (EventID * Ev)) : option EventID :=
  match last es with Some (i, _) => Some i | None => d end.

Lemma last_id_cons d x es : last_id d (x :: es) = last_id (Some x.1) es.
Proof.
  unfold last_id. rewrite last_cons. by destruct (last es) as [[]|], x.
Qed.

(** Applying a stream of stored events folds them into the state. *)
Lemma apply_stream_replay {E} (pe : option St * Ev -> E) (int : E) a es (st : option St) :
  (forall lo, agg_last_stored_event a = Some lo -> ids_above lo es) ->
  ids_above (-1) es ->
  replay (agg_state a) (map snd es) = Ok st ->
  apply_stream pe int a es (Ok tt) =
  (Ok tt, mkAggregate (agg_query a) st (agg_pending_events a)
            (last_id (agg_last_stored_event a) es)).
Proof.
  revert a; induction es as [|[i e] es IH]; intros a Hlo Hpos Hr.
  - simpl in *. injection Hr as <-. unfold last_id. simpl. by destruct a.
  - simpl in Hr. apply res_bind_ok in Hr as (s1 & Hs1 & Hr). simpl.
    unfold Aggregate_apply_stored. rewrite Hs1.
    destruct (agg_last_stored_event a) as [lo|] eqn:Hlast.
    + destruct (Hlo lo eq_refl) as [Hlt Habove]. rewrite bool_decide_eq_true_2 by done.
      rewrite IH; simpl; [by rewrite last_id_cons|by intros ? [= <-]| |done].
      destruct Hpos. eapply ids_above_weaken; [|done]. lia.
    + rewrite IH; simpl; [by rewrite last_id_cons| | |done].
      * intros ? [= <-]. apply Hpos.
      * destruct Hpos. eapply ids_above_weaken; [|done]. lia.
Qed.

(** Loading replays the history of the query. *)
Lemma load_replay q s (st : St) :
  history s q <> [] -> replay None (history s q) = Ok (Some st) ->
  Aggregate_load q s =
  Ok (mkAggregate q (Some st) [] (last_id None (history_from 0 (get_events s) q))).
Proof.
  intros Hne Hr. unfold Aggregate_load, Aggregate_load_ext. simpl lo_as_of_event.
  rewrite get_events_all. pose proof (history_ids 0 (get_events s) q) as Hids.
  unfold history in *. rewrite <- (history_from_events 0) in Hne, Hr.
  destruct (history_from 0 (get_events s) q) as [|[i e] es]; [done|]. simpl in Hr, Hids.
  apply res_bind_ok in Hr as (s1 & Hs1 & Hr). unfold Aggregate_from_stored_event. rewrite Hs1.
  simpl. erewrite (apply_stream_replay _ _ _ _ (Some st)); simpl; [by rewrite last_id_cons|..|done].
  - intros lo [= <-]. apply Hids.
  - destruct Hids. eapply ids_above_weaken; [|done]. lia.
Qed.

Lemma load_not_found q s : history s q = [] -> Aggregate_load q s = Err (LoadError_NotFound q).
Proof.
  intros H. unfold Aggregate_load, Aggregate_load_ext. simpl lo_as_of_event.
  rewrite get_events_all. unfold history in H. rewrite <- (history_from_events 0) in H.
  by destruct (history_from 0 (get_events s) q).
Qed.

(** * Aggregates and the store stay in step *)

(** The aggregate has seen every event of its query, and its state is the
    replay of the stored and the pending ones. *)
Record synced s a : Prop := {
  sy_last : agg_last_stored_event a = last_id None (history_from 0 (get_events s) (agg_query a));
  sy_state : replay None (history s (agg_query a) ++ agg_pending_events a) = Ok (agg_state a);
  sy_alive : is_Some (agg_state a);
  sy_pending : Forall (fun e => matches_query e (agg_query a) = true) (agg_pending_events a)
}.

Lemma get_events_fold s es : get_events (fold_left add_event es s) = get_events s ++ es.
Proof.
  revert s; induction es as [|e es IH]; intros s; simpl; [by rewrite app_nil_r|].
  by rewrite IH, get_events_add, <- app_assoc.
Qed.

Lemma numbered_app n l1 l2 : numbered n (l1 ++ l2) = numbered n l1 ++ numbered (n + length l1) l2.
Proof.
  unfold numbered. revert n; induction l1 as [|x l1 IH]; intros n; simpl.
  - by rewrite Nat.add_0_r.
  - rewrite IH. by rewrite Nat.add_succ_comm.
Qed.

(** The id [save_events] returns is that of the last event it stored. *)
Lemma last_id_snoc l e q :
  matches_query e q = true ->
  last_id None (history_from 0 (l ++ [e]) q) = Some (Z.of_nat (length l)).
Proof.
  intros He. unfold history_from. rewrite numbered_app. simpl.
  rewrite List.filter_app, map_app. simpl. rewrite He. simpl.
  unfold last_id. by rewrite last_snoc.
Qed.

Lemma save_synced s a r a' s' :
  synced s a -> Aggregate_save a s = (r, a', s') ->
  r = Ok tt /\ synced s' a' /\ agg_state a' = agg_state a /\ agg_pending_events a' = [] /\
  agg_query a' = agg_query a /\ get_events s' = get_events s ++ agg_pending_events a.
Proof.
  intros Hs. unfold Aggregate_save.
  destruct (agg_pending_events a) as [|e0 es0] eqn:Hp.
  { intros; simplify_eq. by rewrite app_nil_r. }
  cbn [es_save_events in_memory_event_store]. unfold inmem_save_events.
  pose proof (get_events_fold s (e0 :: es0)) as Hs1.
  set (s1 := fold_left add_event (e0 :: es0) s) in *. clearbody s1.
  rewrite !events_count_length, Hs1, length_app.
  rewrite decide_False by (simpl; lia). intros [= <- <- <-].
  split; [done|]. split; [|done].
  destruct Hs as [Hlast Hst Hal Hall]. rewrite Hp in *. split; simpl; try done.
  - rewrite Hs1. destruct (exists_last (l := e0 :: es0)) as (es & e1 & Hes); [done|].
    rewrite Hes, app_assoc in *. apply Forall_app in Hall as [_ H1]. inversion H1; subst.
    rewrite last_id_snoc by done. f_equal. rewrite !length_app.
    change (Datatypes.S (length es0)) with (length (e0 :: es0)). rewrite Hes, length_app. simpl. lia.
  - rewrite app_nil_r. unfold history. rewrite Hs1, List.filter_app.
    rewrite (forallb_filter_id _ (e0 :: es0)); [done|].
    apply forallb_forall. intros x Hx. rewrite Forall_forall in Hall.
    apply Hall. by apply list_elem_of_In.
Qed.

Lemma new_synced s q e a :
  history s q = [] -> matches_query e q = true -> Aggregate_new q e = Ok a -> synced s a.
Proof.
  intros Hh He Hn. unfold Aggregate_new in Hn. apply res_bind_ok in Hn as (st & Hst & [= <-]).
  split; simpl; [| |by eexists|by repeat constructor].
  - unfold history in Hh. rewrite <- (history_from_events 0) in Hh.
    by destruct (history_from 0 (get_events s) q).
  - rewrite Hh. simpl. by rewrite Hst.
Qed.

Lemma apply_synced s a e a' :
  synced s a -> matches_query e (agg_query a) = true ->
  Aggregate_apply a e = (Ok tt, a') -> synced s a'.
Proof.
  intros [Hlast Hst Hal Hall] He. unfold Aggregate_apply.
  destruct (proj_apply (agg_state a) e) as [st| |] eqn:Ha; intros; simplify_eq.
  split; simpl; [done| |by eexists|].
  - rewrite app_assoc, replay_snoc, Hst. simpl. by rewrite Ha.
  - apply Forall_app. split; [done|]. by repeat constructor.
Qed.

(** A refused event changes nothing. *)
Lemma apply_refused `{!LawfulProjection P} a e err a' :
  Aggregate_apply a e = (Err err, a') -> a' = a /\ err = (agg_state a, e).
Proof.
  unfold Aggregate_apply. destruct (proj_apply (agg_state a) e) as [|[s0 e0]|] eqn:Ha;
    intros; simplify_eq.
  destruct (apply_refuses _ _ _ _ Ha) as [-> ->]. simpl. by destruct a.
Qed.

(** Loading a synced aggregate with nothing pending gives it back. *)
Lemma load_synced s a :
  synced s a -> agg_pending_events a = [] -> Aggregate_load (agg_query a) s = Ok a.
Proof.
  intros [Hlast Hst [st Hal] _] Hp. rewrite Hp, app_nil_r, Hal in Hst.
  rewrite (load_replay _ _ st); [|intros Hn; by rewrite Hn in Hst|done].
  destruct a; simpl in *. by subst.
Qed.

(** Saving the events of one query does not touch the history of another. *)
Lemma save_frame s a r a' s' q :
  synced s a -> Aggregate_save a s = (r, a', s') ->
  (forall e, matches_query e (agg_query a) = true -> matches_query e q = false) ->
  history s' q = history s q.
Proof.
  intros Hs Hsave Hdis. destruct (save_synced _ _ _ _ _ Hs Hsave) as (_ & _ & _ & _ & _ & Hev).
  unfold history. rewrite Hev, List.filter_app.
  assert (List.filter (fun e => matches_query e q) (agg_pending_events a) = []) as ->;
    [|by rewrite app_nil_r].
  pose proof (sy_pending _ _ Hs) as Hall. clear -Hall Hdis.
  induction Hall as [|e es He _ IH]; simpl; [done|]. by rewrite (Hdis _ He).
Qed.

(** ** States in a store *)

(** What the stored events of a query replay to. *)
Definition state_at s q (o : option St) : Prop := replay None (history s q) = Ok o.

Lemma state_at_unique s q o o' : state_at s q o -> state_at s q o' -> o = o'.
Proof. unfold state_at. congruence. Qed.

Lemma replay_some_some st es o : replay (Some st) es = Ok o -> is_Some o.
Proof.
  revert st; induction es as [|e es IH]; intros st H; simpl in H; [by simplify_eq|].
  apply res_bind_ok in H as (s' & _ & H). eauto.
Qed.

Lemma state_at_none_history s q : state_at s q None -> history s q = [].
Proof.
  unfold state_at. intros H. destruct (history s q) as [|e es]; [done|]. simpl in H.
  apply res_bind_ok in H as (st & _ & H). by apply replay_some_some in H as [].
Qed.

(** Loading gives the replayed state, in step with the store. *)
Lemma load_state_at s q st :
  state_at s q (Some st) ->
  exists a, Aggregate_load q s = Ok a /\ synced s a /\ agg_state a = Some st /\
    agg_query a = q /\ agg_pending_events a = [].
Proof.
  unfold state_at. intros H. rewrite (load_replay _ _ st); [|intros Hn; by rewrite Hn in H|done].
  eexists; split; [done|]. split; [|done]. split; simpl; [done| |by eexists|done].
  by rewrite app_nil_r.
Qed.

Lemma load_state_missing s q :
  state_at s q None -> Aggregate_load q s = Err (LoadError_NotFound q).
Proof. intros H. by apply load_not_found, state_at_none_history. Qed.

Lemma synced_state_at s a :
  synced s a -> agg_pending_events a = [] -> state_at s (agg_query a) (agg_state a).
Proof. intros [_ H _ _] Hp. unfold state_at. by rewrite Hp, app_nil_r in H. Qed.

(** ** Refreshing an aggregate *)

(** The aggregate is in step with the first events of the store. *)
Record synced_upto (n : nat) s a : Prop := {
  su_last : agg_last_stored_event a = Some (Z.of_nat n);
  su_history : last_id None (history_from 0 (take (Datatypes.S n) (get_events s)) (agg_query a))
               = Some (Z.of_nat n);
  su_bound : n < length (get_events s);
  su_state : replay None (List.filter (fun e => matches_query e (agg_query a))
                            (take (Datatypes.S n) (get_events s))) = Ok (agg_state a);
  su_pending : agg_pending_events a = []
}.

Lemma history_from_app n l1 l2 q :
  history_from n (l1 ++ l2) q = history_from n l1 q ++ history_from (n + length l1) l2 q.
Proof. unfold history_from. by rewrite numbered_app, List.filter_app, map_app. Qed.

Lemma last_id_app d es1 es2 : last_id d (es1 ++ es2) = last_id (last_id d es1) es2.
Proof.
  unfold last_id. rewrite last_app. by destruct (last es2) as [[]|].
Qed.

Lemma get_events_after s q n :
  (Z.of_nat n < 2 ^ 63 - 1)%Z -> n < length (get_events s) ->
  es_get_events s q (mkGetEventsOpts (Some (Z.of_nat n)) None) =
  (history_from (Datatypes.S n) (drop (Datatypes.S n) (get_events s)) q, Ok tt).
Proof.
  intros Hn Hl. cbn [es_get_events in_memory_event_store]. unfold inmem_get_events.
  cbn [geo_from geo_to]. unfold usize_of_i64.
  assert (i64_add (Z.of_nat n) 1 = Z.of_nat (Datatypes.S n)) as ->.
  { unfold i64_add, two64. rewrite Z.mod_small by lia. lia. }
  rewrite decide_False by lia. rewrite Nat2Z.id.
  rewrite events_count_length, decide_False by lia. rewrite firstn_all.
  by rewrite inmem_loop_spec by lia.
Qed.

(** Refreshing brings the aggregate in step with the whole store. *)
Lemma update_synced n s a st :
  synced_upto n s a -> (Z.of_nat n < 2 ^ 63 - 1)%Z ->
  replay None (history s (agg_query a)) = Ok (Some st) ->
  exists a', Aggregate_update_ext a s LoadOpts_default = (Ok tt, a') /\ synced s a' /\
    agg_state a' = Some st /\ agg_query a' = agg_query a /\ agg_pending_events a' = [].
Proof.
  intros [Hlast Hid Hb Hst Hp] Hn Hr. unfold Aggregate_update_ext, Aggregate_has_updates.
  rewrite Hp, Hlast. cbn [lo_as_of_event LoadOpts_default]. rewrite get_events_after by done.
  set (l := get_events s) in *. set (k := Datatypes.S n) in *.
  pose proof (history_ids k (drop k l) (agg_query a)) as Hids.
  replace (Z.of_nat k - 1)%Z with (Z.of_nat n) in Hids by lia.
  assert (Hr2 : replay (agg_state a) (map snd (history_from k (drop k l) (agg_query a)))
                = Ok (Some st)).
  { unfold history in Hr. fold l in Hr. rewrite <- (take_drop k l), List.filter_app, replay_app in Hr.
    rewrite Hst in Hr. simpl in Hr. by rewrite history_from_events. }
  rewrite (apply_stream_replay _ _ _ _ (Some st)); [|by rewrite Hlast; intros ? [= <-]| |done].
  2:{ eapply ids_above_weaken; [|exact Hids]. lia. }
  eexists; split; [done|]. split; [|done]. split; simpl; [|by rewrite Hp, app_nil_r|by eexists|by rewrite Hp].
  fold l. rewrite Hlast. rewrite <- (take_drop k l) at 2. rewrite history_from_app, last_id_app, Hid.
  rewrite length_take_le by (unfold k; lia). done.
Qed.

(** An aggregate in step with a store is in step with the first events of any
    later state of that store. *)
Lemma synced_later s s' a es :
  synced s a -> agg_pending_events a = [] -> get_events s' = get_events s ++ es ->
  exists n, synced_upto n s' a.
Proof.
  intros [Hlast Hst [st Hal] _] Hp Hev. rewrite Hp, app_nil_r in Hst.
  destruct (agg_last_stored_event a) as [z|] eqn:Hz; symmetry in Hlast.
  2:{ exfalso. unfold history in Hst. rewrite <- (history_from_events 0) in Hst.
      destruct (history_from 0 (get_events s) (agg_query a)) as [|x xs]; [simpl in Hst; congruence|].
      clear -Hlast. unfold last_id in Hlast. destruct (last (x :: xs)) as [[]|] eqn:H; [done|].
      by apply last_None in H. }
  assert (exists n l1 e l2, get_events s = l1 ++ e :: l2 /\ length l1 = n /\ z = Z.of_nat n /\
            List.filter (fun e => matches_query e (agg_query a)) l2 = [] /\
            matches_query e (agg_query a) = true) as (n & l1 & e & l2 & Hl & Hn & -> & Hl2 & He).
  { clear -Hlast. revert z Hlast. induction (get_events s) as [|x l IH] using rev_ind;
      intros z Hlast; [done|]. rewrite history_from_app, last_id_app in Hlast.
    destruct (matches_query x (agg_query a)) eqn:Hx.
    - exists (length l), l, x, []. unfold history_from, last_id in Hlast. simpl in Hlast.
      rewrite Hx in Hlast. simpl in Hlast. by simplify_eq.
    - assert (Hl0 : last_id None (history_from 0 l (agg_query a)) = Some z).
      { unfold history_from at 2 in Hlast. simpl in Hlast. by rewrite Hx in Hlast. }
      destruct (IH _ Hl0) as (n & l1 & e & l2 & -> & Hn & -> & Hl2 & He).
      exists n, l1, e, (l2 ++ [x]). rewrite <- app_assoc. repeat split; try done.
      rewrite List.filter_app, Hl2. simpl. by rewrite Hx. }
  assert (Htake : take (Datatypes.S n) (get_events s') = l1 ++ [e]).
  { rewrite Hev, Hl. replace (Datatypes.S n) with (length (l1 ++ [e])) by (rewrite length_app; simpl; lia).
    replace ((l1 ++ e :: l2) ++ es) with ((l1 ++ [e]) ++ l2 ++ es) by by rewrite <- !app_assoc.
    apply take_app_length. }
  exists n. split; [done| | | |done].
  - rewrite Htake, last_id_snoc by done. by rewrite Hn.
  - rewrite Hev, Hl, !length_app. simpl. lia.
  - rewrite Htake. unfold history in Hst. rewrite Hl in Hst.
    replace (l1 ++ e :: l2) with ((l1 ++ [e]) ++ l2) in Hst by by rewrite <- app_assoc.
    by rewrite List.filter_app, Hl2, app_nil_r in Hst.
Qed.
End InMemoryProofs.

(** * A failed save

    [save] takes the pending events before it hands them to the store and does
    not put them back when the store fails. *)

Lemma save_failed {Q Ev St S} {ES : EventStore Q Ev S} (a : Aggregate Q Ev St) s r a' s' :
  Aggregate_save a s = (r, a', s') -> is_ok r = false ->
  agg_state a' = agg_state a /\ agg_pending_events a' = [] /\
  forall s1, Aggregate_save a' s1 = (Ok tt, a', s1).
Proof.
  unfold Aggregate_save. destruct (agg_pending_events a) as [|e es]; [by intros; simplify_eq|].
  destruct (es_save_events s (agg_query a) (e :: es)) as [[id| |] s2];
    intros; simplify_eq; done.
Qed.

