(* ===== verification/TaskSystem.v ===== *)
(** The task system: life cycle of a task, its aggregate, the in-memory event
    store and the scheduler.

    Sources: src/domain/task-system/domain/src/{entities, aggregates, repos},
    src/domain/task-system/services/src/{task_scheduler_impl,
    task_executor_impl}.rs and
    src/infra/task-system/inmem/src/inmem_task_system_event_store.rs.

    The current time is an argument of the commands that read it. *)

From S2P Require Import Prelude Multiformats Identity EventSourcing.

Abbreviation TaskID := Z (only parsing).
Abbreviation Duration := Z (only parsing).

(** * Outcomes and plans *)

Record PollingInsgestResultUpToDate := mkPollingInsgestResultUpToDate { pir_uncacheable : bool }.
Record PushInsgestResultUpToDate := mkPushInsgestResultUpToDate { puir_uncacheable : bool }.

Inductive PullResultUpToDate :=
| PullResultUpToDate_PollingIngest (v : PollingInsgestResultUpToDate)
| PullResultUpToDate_PushIngest (v : PushInsgestResultUpToDate)
| PullResultUpToDate_Transform
| PullResultUpToDate_Sync
| PullResultUpToDate_SetWatermark.

Inductive PullResult :=
| PullResult_UpToDate (v : PullResultUpToDate)
| PullResult_Updated (old_head : option Multihash) (new_head : Multihash).

Inductive CompactionResult :=
| CompactionResult_NothingToDo
| CompactionResult_Success (old_head new_head : Multihash) (old_num_blocks new_num_blocks : nat).

Record TaskUpdateDatasetResult := mkTaskUpdateDatasetResult { tur_pull_result : PullResult }.
Record TaskResetDatasetResult := mkTaskResetDatasetResult { trr_new_head : Multihash }.
Record TaskCompactionDatasetResult := mkTaskCompactionDatasetResult {
  tcr_compaction_result : CompactionResult
}.

Inductive TaskResult :=
| TaskResult_Empty
| TaskResult_UpdateDatasetResult (v : TaskUpdateDatasetResult)
| TaskResult_ResetDatasetResult (v : TaskResetDatasetResult)
| TaskResult_CompactionDatasetResult (v : TaskCompactionDatasetResult).

Record RootDatasetCompactedError := mkRootDatasetCompactedError { rdc_dataset_id : DatasetID }.

Inductive UpdateDatasetTaskError :=
| UpdateDatasetTaskError_RootDatasetCompacted (e : RootDatasetCompactedError).

Inductive ResetDatasetTaskError := ResetDatasetTaskError_ResetHeadNotFound.

Inductive TaskError :=
| TaskError_Empty
| TaskError_UpdateDatasetError (e : UpdateDatasetTaskError)
| TaskError_ResetDatasetError (e : ResetDatasetTaskError).

Inductive TaskOutcome :=
| TaskOutcome_Success (r : TaskResult)
| TaskOutcome_Failed (e : TaskError)
| TaskOutcome_Cancelled.

Definition TaskOutcome_is_success (o : TaskOutcome) : bool :=
  match o with TaskOutcome_Success _ => true | _ => false end.

Inductive TaskStatus :=
| TaskStatus_Queued
| TaskStatus_Running
| TaskStatus_Finished (o : TaskOutcome).

Record UpdateDataset := mkUpdateDataset {
  ud_dataset_id : DatasetID;
  ud_fetch_uncacheable : bool
}.

Record Probe := mkProbe {
  pr_dataset_id : option DatasetID;
  pr_busy_time : option Duration;
  pr_end_with_outcome : option TaskOutcome
}.

Record HardCompactionDataset := mkHardCompactionDataset {
  hc_dataset_id : DatasetID;
  hc_max_slice_size : option u64;
  hc_max_slice_records : option u64;
  hc_keep_metadata_only : bool
}.

Record ResetDataset := mkResetDataset {
  rd_dataset_id : DatasetID;
  rd_new_head_hash : option Multihash;
  rd_old_head_hash : option Multihash;
  rd_recursive : bool
}.

Inductive LogicalPlan :=
| LogicalPlan_UpdateDataset (v : UpdateDataset)
| LogicalPlan_Probe (v : Probe)
| LogicalPlan_HardCompactionDataset (v : HardCompactionDataset)
| LogicalPlan_Reset (v : ResetDataset).

Definition LogicalPlan_dataset_id (p : LogicalPlan) : option DatasetID :=
  match p with
  | LogicalPlan_UpdateDataset upd => Some (ud_dataset_id upd)
  | LogicalPlan_Probe p => pr_dataset_id p
  | LogicalPlan_HardCompactionDataset hard_compaction => Some (hc_dataset_id hard_compaction)
  | LogicalPlan_Reset reset => Some (rd_dataset_id reset)
  end.

(** * Events *)

Record TaskEventCreated := mkTaskEventCreated {
  tec_event_time : DateTime;
  tec_task_id : TaskID;
  tec_logical_plan : LogicalPlan
}.
Record TaskEventRunning := mkTaskEventRunning { ter_event_time : DateTime; ter_task_id : TaskID }.
Record TaskEventCancelled := mkTaskEventCancelled { tex_event_time : DateTime; tex_task_id : TaskID }.
Record TaskEventFinished := mkTaskEventFinished {
  tef_event_time : DateTime;
  tef_task_id : TaskID;
  tef_outcome : TaskOutcome
}.

Inductive TaskEvent :=
| TaskEvent_TaskCreated (e : TaskEventCreated)
| TaskEvent_TaskRunning (e : TaskEventRunning)
| TaskEvent_TaskCancelled (e : TaskEventCancelled)
| TaskEvent_TaskFinished (e : TaskEventFinished).

Definition TaskEvent_task_id (e : TaskEvent) : TaskID :=
  match e with
  | TaskEvent_TaskCreated e => tec_task_id e
  | TaskEvent_TaskRunning e => ter_task_id e
  | TaskEvent_TaskCancelled e => tex_task_id e
  | TaskEvent_TaskFinished e => tef_task_id e
  end.

(** * Task state *)

Record TaskState := mkTaskState {
  ts_task_id : TaskID;
  ts_status : TaskStatus;
  ts_cancellation_requested : bool;
  ts_logical_plan : LogicalPlan;
  ts_created_at : DateTime;
  ts_ran_at : option DateTime;
  ts_cancellation_requested_at : option DateTime;
  ts_finished_at : option DateTime
}.

Definition is_queued (s : TaskStatus) : bool :=
  match s with TaskStatus_Queued => true | _ => false end.
Definition is_running (s : TaskStatus) : bool :=
  match s with TaskStatus_Running => true | _ => false end.

Definition TaskState_apply (state : option TaskState) (event : TaskEvent)
    : res (option TaskState * TaskEvent) TaskState :=
  match state with
  | None =>
      match event with
      | TaskEvent_TaskCreated e =>
          Ok (mkTaskState (tec_task_id e) TaskStatus_Queued false (tec_logical_plan e)
                (tec_event_time e) None None None)
      | _ => Err (None, event)
      end
  | Some s =>
      if decide (ts_task_id s <> TaskEvent_task_id event) then Panic
      else
        match event with
        | TaskEvent_TaskCreated _ => Err (Some s, event)
        | TaskEvent_TaskRunning e =>
            if is_queued (ts_status s)
            then Ok (mkTaskState (ts_task_id s) TaskStatus_Running (ts_cancellation_requested s)
                       (ts_logical_plan s) (ts_created_at s) (Some (ter_event_time e))
                       (ts_cancellation_requested_at s) (ts_finished_at s))
            else Err (Some s, event)
        | TaskEvent_TaskCancelled e =>
            if is_queued (ts_status s) ||
               is_running (ts_status s) && negb (ts_cancellation_requested s)
            then Ok (mkTaskState (ts_task_id s) (ts_status s) true
                       (ts_logical_plan s) (ts_created_at s) (ts_ran_at s)
                       (Some (tex_event_time e)) (ts_finished_at s))
            else Err (Some s, event)
        | TaskEvent_TaskFinished e =>
            if is_queued (ts_status s) || is_running (ts_status s)
            then Ok (mkTaskState (ts_task_id s) (TaskStatus_Finished (tef_outcome e))
                       (ts_cancellation_requested s) (ts_logical_plan s) (ts_created_at s)
                       (ts_ran_at s) (ts_cancellation_requested_at s) (Some (tef_event_time e)))
            else Err (Some s, event)
        end
  end.

#[export] Instance task_projection : Projection TaskID TaskEvent TaskState := {|
  proj_apply := TaskState_apply;
  matches_query e q := bool_decide (TaskEvent_task_id e = q)
|}.

#[export] Instance task_projection_lawful : LawfulProjection task_projection.
Proof.
  split. intros s e s' e'; simpl. unfold TaskState_apply.
  destruct s as [s|], e; simpl; repeat case_match; intros; by simplify_eq.
Qed.

(** * The task aggregate *)

Abbreviation Task := (Aggregate TaskID TaskEvent TaskState).
Abbreviation TaskProjectionError := (option TaskState * TaskEvent)%type.

Definition Task_new (now : DateTime) (task_id : TaskID) (logical_plan : LogicalPlan)
    : res TaskProjectionError Task :=
  match Aggregate_new task_id
          (TaskEvent_TaskCreated (mkTaskEventCreated now task_id logical_plan)) with
  | Ok t => Ok t
  | _ => Panic
  end.

(** Commands read the state through [Deref], which unwraps it. *)
Definition Task_run (t : Task) (now : DateTime) : res TaskProjectionError unit * Task :=
  match agg_state t with
  | Some s =>
      Aggregate_apply t (TaskEvent_TaskRunning (mkTaskEventRunning now (ts_task_id s)))
  | None => (Panic, t)
  end.

Definition Task_can_cancel (s : TaskState) : bool :=
  (is_queued (ts_status s) || is_running (ts_status s)) && negb (ts_cancellation_requested s).

Definition Task_cancel (t : Task) (now : DateTime) : res TaskProjectionError unit * Task :=
  match agg_state t with
  | Some s =>
      if ts_cancellation_requested s then (Ok tt, t)
      else Aggregate_apply t (TaskEvent_TaskCancelled (mkTaskEventCancelled now (ts_task_id s)))
  | None => (Panic, t)
  end.

Definition Task_finish (t : Task) (now : DateTime) (outcome : TaskOutcome)
    : res TaskProjectionError unit * Task :=
  match agg_state t with
  | Some s =>
      Aggregate_apply t (TaskEvent_TaskFinished (mkTaskEventFinished now (ts_task_id s) outcome))
  | None => (Panic, t)
  end.

(** * The in-memory store *)

Record TaskStoreState := mkTaskStoreState {
  tss_events : list TaskEvent;
  tss_tasks_by_dataset : gmap DatasetID (list TaskID);
  tss_last_task_id : option TaskID
}.

Definition next_task_id (s : TaskStoreState) : TaskID * TaskStoreState :=
  let new_task_id :=
    match tss_last_task_id s with Some id => i64_add id 1 | None => 0%Z end in
  (new_task_id, mkTaskStoreState (tss_events s) (tss_tasks_by_dataset s) (Some new_task_id)).

#[export] Instance task_store_state : EventStoreState TaskEvent TaskStoreState := {|
  events_count s := length (tss_events s);
  get_events s := tss_events s;
  add_event s e := mkTaskStoreState (tss_events s ++ [e]) (tss_tasks_by_dataset s)
                     (tss_last_task_id s)
|}.

#[export] Instance task_store_state_lawful : LawfulEventStoreState TaskEvent TaskStoreState.
Proof. split; done. Qed.

Record InMemoryTaskSystemEventStore := mkInMemoryTaskSystemEventStore { its_inner : TaskStoreState }.

Definition InMemoryTaskSystemEventStore_new : InMemoryTaskSystemEventStore :=
  mkInMemoryTaskSystemEventStore (mkTaskStoreState [] ∅ None).

Definition update_index_by_dataset (tasks_by_dataset : gmap DatasetID (list TaskID))
    (event : TaskEvent) : gmap DatasetID (list TaskID) :=
  match event with
  | TaskEvent_TaskCreated e =>
      match LogicalPlan_dataset_id (tec_logical_plan e) with
      | Some dataset_id =>
          <[dataset_id := default [] (tasks_by_dataset !! dataset_id) ++ [TaskEvent_task_id event]]>
            tasks_by_dataset
      | None => tasks_by_dataset
      end
  | _ => tasks_by_dataset
  end.

Definition index_events (s : TaskStoreState) (events : list TaskEvent) : TaskStoreState :=
  mkTaskStoreState (tss_events s)
    (fold_left update_index_by_dataset events (tss_tasks_by_dataset s)) (tss_last_task_id s).

Definition task_save_events (store : InMemoryTaskSystemEventStore) (task_id : TaskID)
    (events : list TaskEvent) : res SaveEventsError EventID * InMemoryTaskSystemEventStore :=
  match events with
  | [] => (Err SaveEventsError_NothingToSave, store)
  | _ =>
      let '(r, s) := inmem_save_events (index_events (its_inner store) events) task_id events in
      (r, mkInMemoryTaskSystemEventStore s)
  end.

#[export] Instance task_event_store
  : EventStore TaskID TaskEvent InMemoryTaskSystemEventStore := {|
  es_get_events store := inmem_get_events (its_inner store);
  es_save_events := task_save_events;
  es_len store := events_count (its_inner store)
|}.

Definition new_task_id (store : InMemoryTaskSystemEventStore)
    : TaskID * InMemoryTaskSystemEventStore :=
  let '(id, s) := next_task_id (its_inner store) in (id, mkInMemoryTaskSystemEventStore s).

Record TaskPaginationOpts := mkTaskPaginationOpts { tpo_offset : nat; tpo_limit : nat }.

Definition get_tasks_by_dataset (store : InMemoryTaskSystemEventStore) (dataset_id : DatasetID)
    (pagination : TaskPaginationOpts) : list TaskID :=
  match tss_tasks_by_dataset (its_inner store) !! dataset_id with
  | Some ids => take (tpo_limit pagination) (drop (tpo_offset pagination) (rev ids))
  | None => []
  end.

Definition get_count_tasks_by_dataset (store : InMemoryTaskSystemEventStore)
    (dataset_id : DatasetID) : nat :=
  match tss_tasks_by_dataset (its_inner store) !! dataset_id with
  | Some ids => length ids
  | None => 0
  end.

(** * Scheduler and executor *)

Record TaskSchedulerImpl := mkTaskSchedulerImpl {
  sch_task_queue : list TaskID;
  sch_event_store : InMemoryTaskSystemEventStore
}.

Definition TaskSchedulerImpl_new : TaskSchedulerImpl :=
  mkTaskSchedulerImpl [] InMemoryTaskSystemEventStore_new.

Inductive TaskServiceError :=
| TaskServiceError_NotFound (task_id : TaskID)
| TaskServiceError_Internal.

(** [From<LoadError<TaskState>>] of [GetTaskError] and [CancelTaskError]. *)
Definition TaskServiceError_from (e : LoadError TaskID TaskEvent TaskState) : TaskServiceError :=
  match e with
  | LoadError_NotFound q => TaskServiceError_NotFound q
  | LoadError_ProjectionError _ => TaskServiceError_Internal
  | LoadError_Internal => TaskServiceError_Internal
  end.

Definition create_task (s : TaskSchedulerImpl) (now : DateTime) (logical_plan : LogicalPlan)
    : res TaskServiceError TaskState * TaskSchedulerImpl :=
  let '(task_id, store1) := new_task_id (sch_event_store s) in
  match Task_new now task_id logical_plan with
  | Ok task =>
      match Aggregate_save task store1 with
      | (Ok _, task', store2) =>
          match agg_state task' with
          | Some st =>
              (Ok st, mkTaskSchedulerImpl (sch_task_queue s ++ [ts_task_id st]) store2)
          | None => (Panic, mkTaskSchedulerImpl (sch_task_queue s) store2)
          end
      | (Err _, _, store2) =>
          (Err TaskServiceError_Internal, mkTaskSchedulerImpl (sch_task_queue s) store2)
      | (Panic, _, store2) => (Panic, mkTaskSchedulerImpl (sch_task_queue s) store2)
      end
  | _ => (Panic, mkTaskSchedulerImpl (sch_task_queue s) store1)
  end.

Definition get_task (s : TaskSchedulerImpl) (task_id : TaskID) : res TaskServiceError TaskState :=
  let! task := map_err TaskServiceError_from (Aggregate_load task_id (sch_event_store s)) in
  unwrap (agg_state task).

(** Applies a command to a loaded task and saves it. *)
Definition command_and_save (store : InMemoryTaskSystemEventStore) (task : Task)
    (command : Task -> res TaskProjectionError unit * Task)
    : res TaskServiceError Task * InMemoryTaskSystemEventStore :=
  match command task with
  | (Ok _, task1) =>
      match Aggregate_save task1 store with
      | (Ok _, task2, store') => (Ok task2, store')
      | (Err _, _, store') => (Err TaskServiceError_Internal, store')
      | (Panic, _, store') => (Panic, store')
      end
  | (Err _, _) => (Err TaskServiceError_Internal, store)
  | (Panic, _) => (Panic, store)
  end.

(** [task_queue.retain(|id| *id != task_id)] *)
Definition queue_without (task_id : TaskID) (queue : list TaskID) : list TaskID :=
  List.filter (fun id => negb (bool_decide (id = task_id))) queue.

Definition cancel_task (s : TaskSchedulerImpl) (now : DateTime) (task_id : TaskID)
    : res TaskServiceError TaskState * TaskSchedulerImpl :=
  match Aggregate_load task_id (sch_event_store s) with
  | Ok task =>
      match agg_state task with
      | Some st =>
          if Task_can_cancel st then
            match command_and_save (sch_event_store s) task (fun t => Task_cancel t now) with
            | (Ok task', store') =>
                (unwrap (agg_state task'),
                 mkTaskSchedulerImpl (queue_without (ts_task_id st) (sch_task_queue s)) store')
            | (Err e, store') => (Err e, mkTaskSchedulerImpl (sch_task_queue s) store')
            | (Panic, store') => (Panic, mkTaskSchedulerImpl (sch_task_queue s) store')
            end
          else (Ok st, s)
      | None => (Panic, s)
      end
  | Err e => (Err (TaskServiceError_from e), s)
  | Panic => (Panic, s)
  end.

(** The stream of [list_tasks_by_dataset]: the tasks it yields and how it ends. *)
Fixpoint load_listed (store : InMemoryTaskSystemEventStore) (ids : list TaskID)
    : list TaskState * res TaskServiceError unit :=
  match ids with
  | [] => ([], Ok tt)
  | task_id :: rest =>
      match Aggregate_load task_id store with
      | Ok task =>
          match agg_state task with
          | Some st => let '(l, e) := load_listed store rest in (st :: l, e)
          | None => ([], Panic)
          end
      | Err _ => ([], Err TaskServiceError_Internal)
      | Panic => ([], Panic)
      end
  end.

Record TaskStateListing := mkTaskStateListing {
  tsl_stream : list TaskState * res TaskServiceError unit;
  tsl_total_count : nat
}.

Definition list_tasks_by_dataset (s : TaskSchedulerImpl) (dataset_id : DatasetID)
    (pagination : TaskPaginationOpts) : TaskStateListing :=
  let store := sch_event_store s in
  mkTaskStateListing (load_listed store (get_tasks_by_dataset store dataset_id pagination))
    (get_count_tasks_by_dataset store dataset_id).

Definition try_take (s : TaskSchedulerImpl) (now : DateTime)
    : res TaskServiceError (option TaskID) * TaskSchedulerImpl :=
  match sch_task_queue s with
  | [] => (Ok None, s)
  | task_id :: queue' =>
      match Aggregate_load task_id (sch_event_store s) with
      | Ok task =>
          let '(r, store') :=
            command_and_save (sch_event_store s) task (fun t => Task_run t now) in
          (map_ok (fun _ => Some task_id) r, mkTaskSchedulerImpl queue' store')
      | Err _ =>
          (Err TaskServiceError_Internal, mkTaskSchedulerImpl queue' (sch_event_store s))
      | Panic => (Panic, mkTaskSchedulerImpl queue' (sch_event_store s))
      end
  end.

(** The state changes of [TaskExecutorImpl::process_task_outcome]; the
    transaction around them and the posted message are left out. *)
Definition process_task_outcome (s : TaskSchedulerImpl) (task : Task) (now : DateTime)
    (outcome : TaskOutcome) : res TaskServiceError unit * TaskSchedulerImpl :=
  let store := sch_event_store s in
  match Aggregate_update_ext task store LoadOpts_default with
  | (Ok _, task1) =>
      match Task_finish task1 now outcome with
      | (Ok _, task2) =>
          match Aggregate_save task2 store with
          | (r, _, store') =>
              (map_err (fun _ => TaskServiceError_Internal) r,
               mkTaskSchedulerImpl (sch_task_queue s) store')
          end
      | (Err _, _) => (Err TaskServiceError_Internal, s)
      | (Panic, _) => (Panic, s)
      end
  | (Err _, _) => (Err TaskServiceError_Internal, s)
  | (Panic, _) => (Panic, s)
  end.

(** * Life cycle *)

(** How the fields of a task agree with its status. *)
Definition task_wf (s : TaskState) : Prop :=
  match ts_status s with
  | TaskStatus_Queued => ts_ran_at s = None /\ ts_finished_at s = None
  | TaskStatus_Running => is_Some (ts_ran_at s) /\ ts_finished_at s = None
  | TaskStatus_Finished _ => is_Some (ts_finished_at s)
  end /\
  (ts_cancellation_requested s = true <-> is_Some (ts_cancellation_requested_at s)).

(** Position in the life cycle. *)
Definition stage (s : TaskStatus) : nat :=
  match s with
  | TaskStatus_Queued => 0
  | TaskStatus_Running => 1
  | TaskStatus_Finished _ => 2
  end.

Lemma task_apply_wf s e s' :
  (forall x, s = Some x -> task_wf x) -> TaskState_apply s e = Ok s' -> task_wf s'.
Proof.
  unfold TaskState_apply. intros Hwf H.
  destruct s as [s|]; [specialize (Hwf s eq_refl); destruct Hwf as [H1 H2]|].
  - case_decide; [done|].
    destruct (ts_status s) eqn:Hst, e; simpl in *; repeat (case_match; simpl in * );
      simplify_eq; unfold task_wf; simpl; rewrite ?Hst; naive_solver.
  - destruct e; simplify_eq. unfold task_wf; simpl. split; [done|].
    split; [done|by intros []].
Qed.

Lemma task_apply_step s e s' :
  TaskState_apply (Some s) e = Ok s' ->
  ts_task_id s' = ts_task_id s /\ TaskEvent_task_id e = ts_task_id s /\
  ts_logical_plan s' = ts_logical_plan s /\ ts_created_at s' = ts_created_at s /\
  stage (ts_status s) <= stage (ts_status s') /\
  (ts_cancellation_requested s = true -> ts_cancellation_requested s' = true) /\
  stage (ts_status s) < 2.
Proof.
  unfold TaskState_apply. case_decide as Hid; [done|].
  destruct (ts_status s) eqn:Hst, e; simpl in *; repeat (case_match; simpl in * );
    intros; simplify_eq; simpl; rewrite ?Hst; simpl; repeat split; auto; lia.
Qed.

(** * The store and the aggregates *)

Lemma index_events_get s es : get_events (index_events s es) = get_events s.
Proof. done. Qed.

Lemma synced_index s es (a : Task) : synced s a -> synced (index_events s es) a.
Proof. by intros [H1 H2 H3 H4]; split. Qed.

Lemma task_save_synced store (a : Task) r a' store' :
  synced (its_inner store) a -> Aggregate_save a store = (r, a', store') ->
  r = Ok tt /\ synced (its_inner store') a' /\ agg_state a' = agg_state a /\
  agg_pending_events a' = [] /\ agg_query a' = agg_query a /\
  tss_events (its_inner store') = tss_events (its_inner store) ++ agg_pending_events a /\
  tss_last_task_id (its_inner store') = tss_last_task_id (its_inner store).
Proof.
  intros Hs H.
  assert (Hlast : forall es s, tss_last_task_id (fold_left add_event es s) = tss_last_task_id s).
  { induction es as [|e es IH]; intros s; simpl; [done|]. by rewrite IH. }
  assert (Heq : exists s', Aggregate_save a (index_events (its_inner store) (agg_pending_events a))
            = (r, a', s') /\ (store' = mkInMemoryTaskSystemEventStore s' \/
                              agg_pending_events a = [] /\ store' = store) /\
            tss_last_task_id s' = tss_last_task_id (its_inner store)).
  { revert H. unfold Aggregate_save.
    destruct (agg_pending_events a) as [|e es].
    - intros; simplify_eq. by eexists; split; [|split; [right|]].
    - cbn [es_save_events task_event_store in_memory_event_store]. unfold task_save_events.
      unfold inmem_save_events.
      pose proof (Hlast (e :: es) (index_events (its_inner store) (e :: es))) as Hl.
      destruct (decide _); intros; simplify_eq; (eexists; split; [done|split; [by left|done]]). }
  destruct Heq as (s' & Hsave & Hst & Hl).
  apply save_synced in Hsave as (-> & Hsy & H1 & H2 & H3 & H4); [|by apply synced_index].
  destruct Hst as [->|[Hp ->]]; [done|].
  rewrite Hp in *. revert H. unfold Aggregate_save. rewrite Hp. intros; simplify_eq.
  rewrite app_nil_r. done.
Qed.

(** The events of a task and the state they replay to. *)
Definition task_history (store : InMemoryTaskSystemEventStore) (id : TaskID) : list TaskEvent :=
  history (its_inner store) id.

Definition task_at (store : InMemoryTaskSystemEventStore) (id : TaskID) (o : option TaskState)
    : Prop := replay None (task_history store id) = Ok o.

Lemma task_at_unique store id o o' : task_at store id o -> task_at store id o' -> o = o'.
Proof. unfold task_at. congruence. Qed.

(** A stored task replays to a state with its id. *)
Lemma replay_task_id s es st :
  replay s es = Ok (Some st) -> (forall x, s = Some x -> ts_task_id x = ts_task_id st) /\
  Forall (fun e => TaskEvent_task_id e = ts_task_id st) es.
Proof.
  revert s; induction es as [|e es IH]; intros s H; simpl in H.
  - simplify_eq. split; [|constructor]. by intros x [= <-].
  - apply res_bind_ok in H as (s1 & Hs1 & H). destruct (IH _ H) as [H1 H2].
    specialize (H1 _ eq_refl). destruct s as [x|].
    + apply task_apply_step in Hs1 as (Hid & He & _). split.
      * intros ? [= <-]. congruence.
      * constructor; [congruence|done].
    + split; [done|]. constructor; [|done].
      simpl in Hs1. destruct e; simplify_eq. simpl in *. congruence.
Qed.

Lemma task_at_id store id st : task_at store id (Some st) -> ts_task_id st = id.
Proof.
  intros H. pose proof (replay_task_id _ _ _ H) as [_ Hall].
  unfold task_at, task_history, history in *.
  destruct (List.filter _ _) as [|e es] eqn:Hf; [done|].
  assert (Hin : In e (List.filter (fun e => matches_query e id) (get_events (its_inner store)))).
  { rewrite Hf. by left. }
  apply filter_In in Hin as [_ Hm]. simpl in Hm. apply bool_decide_eq_true in Hm.
  inversion Hall; subst. congruence.
Qed.

(** Loading gives the replayed state, in step with the store. *)
Lemma task_load_synced store id st :
  task_at store id (Some st) ->
  exists a, Aggregate_load id store = Ok a /\ synced (its_inner store) a /\
    agg_state a = Some st /\ agg_query a = id /\ agg_pending_events a = [].
Proof. exact (load_state_at (its_inner store) id st). Qed.

Lemma task_at_none_history store id : task_at store id None -> history (its_inner store) id = [].
Proof. exact (state_at_none_history (its_inner store) id). Qed.

Lemma task_load_missing store id :
  task_at store id None -> Aggregate_load id store = Err (LoadError_NotFound id).
Proof. exact (load_state_missing (its_inner store) id). Qed.

(** Storing one more event of a task advances that task only. *)
Lemma task_at_snoc store store' id o e st' :
  tss_events (its_inner store') = tss_events (its_inner store) ++ [e] ->
  TaskEvent_task_id e = id -> task_at store id o -> TaskState_apply o e = Ok st' ->
  task_at store' id (Some st') /\
  (forall id' o', id' <> id -> task_at store' id' o' <-> task_at store id' o').
Proof.
  intros Hev He Ho Ha. unfold task_at, task_history, history in *. simpl get_events in *.
  rewrite Hev. split.
  - rewrite List.filter_app. simpl List.filter at 2. rewrite bool_decide_eq_true_2 by done.
    rewrite replay_snoc, Ho. simpl. by rewrite Ha.
  - intros id' o' Hne. rewrite List.filter_app. simpl List.filter at 2.
    rewrite bool_decide_eq_false_2 by congruence. by rewrite app_nil_r.
Qed.

(** A command that applies one event: load, apply, save. *)
Lemma command_ok store id command st e st' :
  task_at store id (Some st) ->
  (forall t, agg_state t = Some st -> command t = Aggregate_apply t e) ->
  TaskState_apply (Some st) e = Ok st' ->
  exists a t store',
    Aggregate_load id store = Ok a /\ agg_state a = Some st /\
    command_and_save store a command = (Ok t, store') /\ agg_state t = Some st' /\
    tss_events (its_inner store') = tss_events (its_inner store) ++ [e] /\
    tss_last_task_id (its_inner store') = tss_last_task_id (its_inner store).
Proof.
  intros Hst Hc Ha. unfold command_and_save.
  destruct (task_load_synced _ _ _ Hst) as (a & Hload & Hsy & Hag & Hq & Hp).
  exists a. rewrite (Hc _ Hag). pose proof (task_apply_step _ _ _ Ha) as (_ & He & _).
  destruct (Aggregate_apply a e) as [r a1] eqn:Happ.
  assert (r = Ok tt /\ agg_state a1 = Some st' /\ agg_pending_events a1 = [e]) as (-> & Hs1 & Hp1).
  { unfold Aggregate_apply in Happ. rewrite Hag in Happ.
    change (proj_apply (Some st) e) with (TaskState_apply (Some st) e) in Happ. rewrite Ha in Happ.
    simplify_eq. simpl. by rewrite Hp. }
  assert (Hsy1 : synced (its_inner store) a1).
  { eapply apply_synced; [exact Hsy| |exact Happ]. simpl. apply bool_decide_eq_true_2.
    rewrite Hq, He. by eapply task_at_id. }
  destruct (Aggregate_save a1 store) as [[r2 a2] store'] eqn:Hsave.
  destruct (task_save_synced _ _ _ _ _ Hsy1 Hsave) as (-> & _ & Hst2 & _ & _ & Hev & Hl).
  exists a2, store'. rewrite Hp1 in Hev. split_and!; congruence.
Qed.

(** * The scheduler *)

(** Ready to be handed to an executor. *)
Definition waiting (st : TaskState) : Prop :=
  ts_status st = TaskStatus_Queued /\ ts_cancellation_requested st = false.

(** The queue holds, once each, the stored tasks that wait to be run. *)
Record sched_inv (s : TaskSchedulerImpl) : Prop := {
  si_replays : forall id, exists o, task_at (sch_event_store s) id o;
  si_queue : forall id, id ∈ sch_task_queue s <->
    exists st, task_at (sch_event_store s) id (Some st) /\ waiting st;
  si_nodup : NoDup (sch_task_queue s);
  si_ids : forall e, e ∈ tss_events (its_inner (sch_event_store s)) ->
    exists last, tss_last_task_id (its_inner (sch_event_store s)) = Some last /\
      (0 <= TaskEvent_task_id e <= last)%Z
}.

(** Task ids are not exhausted. *)
Definition id_room (s : TaskSchedulerImpl) : Prop :=
  forall last, tss_last_task_id (its_inner (sch_event_store s)) = Some last ->
    (0 <= last < 2 ^ 63 - 1)%Z.

Lemma sched_inv_new : sched_inv TaskSchedulerImpl_new.
Proof.
  split; simpl.
  - intros id. by exists None.
  - intros id. split; [by intros ?%elem_of_nil|]. by intros (st & H & _).
  - constructor.
  - by intros e ?%elem_of_nil.
Qed.

(** Storing one accepted event of one task keeps the invariant, for a queue
    that is updated accordingly. *)
Lemma sched_inv_event s id o e st' store' queue' :
  sched_inv s ->
  tss_events (its_inner store') = tss_events (its_inner (sch_event_store s)) ++ [e] ->
  (exists last, tss_last_task_id (its_inner store') = Some last /\ (0 <= id <= last)%Z /\
     forall last0, tss_last_task_id (its_inner (sch_event_store s)) = Some last0 ->
       (last0 <= last)%Z) ->
  TaskEvent_task_id e = id -> task_at (sch_event_store s) id o ->
  TaskState_apply o e = Ok st' ->
  NoDup queue' -> (forall id', id' <> id -> id' ∈ queue' <-> id' ∈ sch_task_queue s) ->
  (id ∈ queue' <-> waiting st') ->
  sched_inv (mkTaskSchedulerImpl queue' store').
Proof.
  intros [H1 H2 H3 H4] Hev (last & Hl & Hid & Hle) He Ho Ha Hnd Hq Hw.
  destruct (task_at_snoc _ _ _ _ _ _ Hev He Ho Ha) as [Hnew Hold].
  split; simpl.
  - intros id'. destruct (decide (id' = id)) as [->|Hne]; [by exists (Some st')|].
    destruct (H1 id') as [o' Ho']. exists o'. by apply Hold.
  - intros id'. destruct (decide (id' = id)) as [->|Hne].
    + rewrite Hw. split; [intros; by exists st'|].
      intros (st & Hst & Hwst). by pose proof (task_at_unique _ _ _ _ Hnew Hst) as [= ->].
    + rewrite (Hq _ Hne), H2. by setoid_rewrite (Hold id' _ Hne).
  - done.
  - intros e' Hin. rewrite Hev in Hin. exists last. split; [done|].
    apply elem_of_app in Hin as [Hin|Hin].
    + destruct (H4 _ Hin) as (last0 & Hl0 & Hr). specialize (Hle _ Hl0). lia.
    + apply list_elem_of_singleton in Hin. by subst.
Qed.

(** An existing task has an id that was handed out. *)
Lemma task_at_known s id st :
  sched_inv s -> task_at (sch_event_store s) id (Some st) ->
  exists last, tss_last_task_id (its_inner (sch_event_store s)) = Some last /\ (0 <= id <= last)%Z.
Proof.
  intros Hinv Hst. unfold task_at, task_history, history in Hst.
  destruct (List.filter _ _) as [|e es] eqn:Hf; [done|].
  assert (Hin : In e (List.filter (fun e => matches_query e id)
                        (get_events (its_inner (sch_event_store s))))) by (rewrite Hf; by left).
  apply filter_In in Hin as [Hin Hm]. simpl in Hm. apply bool_decide_eq_true in Hm. subst id.
  apply (si_ids _ Hinv). by apply list_elem_of_In.
Qed.

Lemma Task_new_eq now id plan :
  Task_new now id plan =
  Ok (mkAggregate id (Some (mkTaskState id TaskStatus_Queued false plan now None None None))
        [TaskEvent_TaskCreated (mkTaskEventCreated now id plan)] None).
Proof. done. Qed.

Lemma create_task_spec s now plan :
  sched_inv s -> id_room s ->
  exists st s', create_task s now plan = (Ok st, s') /\ sched_inv s' /\
    task_at (sch_event_store s) (ts_task_id st) None /\
    task_at (sch_event_store s') (ts_task_id st) (Some st) /\ waiting st /\
    ts_logical_plan st = plan /\
    sch_task_queue s' = sch_task_queue s ++ [ts_task_id st] /\
    (forall id o, id <> ts_task_id st ->
       task_at (sch_event_store s') id o <-> task_at (sch_event_store s) id o).
Proof.
  intros Hinv Hroom. unfold create_task, new_task_id, next_task_id.
  set (id := match tss_last_task_id _ with Some id => i64_add id 1 | None => 0%Z end).
  set (store1 := mkInMemoryTaskSystemEventStore _).
  set (e := TaskEvent_TaskCreated (mkTaskEventCreated now id plan)).
  set (st := mkTaskState id TaskStatus_Queued false plan now None None None).
  assert (Hid : forall last, tss_last_task_id (its_inner (sch_event_store s)) = Some last ->
            id = (last + 1)%Z).
  { intros last Hl. unfold id. rewrite Hl. specialize (Hroom _ Hl).
    unfold i64_add, two64. rewrite Z.mod_small by lia. lia. }
  assert (Hpos : (0 <= id)%Z).
  { unfold id. destruct (tss_last_task_id (its_inner (sch_event_store s))) as [l|] eqn:Hl; [|done].
    specialize (Hid _ eq_refl). unfold id in Hid. rewrite Hid. specialize (Hroom _ Hl). lia. }
  assert (Hnone : task_at (sch_event_store s) id None).
  { destruct (si_replays _ Hinv id) as [[st0|] Ho]; [|done]. exfalso.
    destruct (task_at_known _ _ _ Hinv Ho) as (last & Hl & Hr). specialize (Hid _ Hl). lia. }
  rewrite Task_new_eq. fold e st. set (task := mkAggregate id (Some st) [e] None).
  assert (Hsy : synced (its_inner store1) task).
  { eapply (new_synced _ id e); [|by simpl; rewrite bool_decide_eq_true_2|done].
    by apply task_at_none_history in Hnone. }
  destruct (Aggregate_save task store1) as [[r task'] store2] eqn:Hsave.
  destruct (task_save_synced _ _ _ _ _ Hsy Hsave) as (-> & _ & Hst & _ & _ & Hev & Hl2).
  rewrite Hst. simpl. exists st, (mkTaskSchedulerImpl (sch_task_queue s ++ [id]) store2).
  assert (Hstep : TaskState_apply None e = Ok st) by done.
  assert (Hnq : id ∉ sch_task_queue s).
  { intros Hin. apply (si_queue _ Hinv) in Hin as (st0 & Hst0 & _).
    by pose proof (task_at_unique _ _ _ _ Hst0 Hnone). }
  split; [done|]. split.
  - eapply (sched_inv_event s id None e st); try done.
    + exists id. simpl in Hl2. split; [done|]. split; [lia|]. intros l0 Hl0. rewrite (Hid _ Hl0). lia.
    + apply NoDup_app. split; [apply Hinv|]. split; [|apply NoDup_singleton].
      intros x Hx ->%list_elem_of_singleton. done.
    + intros id' Hne. rewrite elem_of_app, list_elem_of_singleton. naive_solver.
    + split; [done|]. intros _. apply elem_of_app. right. by apply list_elem_of_singleton.
  - split; [done|]. destruct (task_at_snoc (sch_event_store s) store2 id None e st); done.
Qed.

Lemma create_task_ok s now plan :
  sched_inv s -> id_room s ->
  exists st s', create_task s now plan = (Ok st, s') /\ sched_inv s' /\
    task_at (sch_event_store s) (ts_task_id st) None /\
    task_at (sch_event_store s') (ts_task_id st) (Some st) /\ waiting st /\
    ts_logical_plan st = plan /\
    sch_task_queue s' = sch_task_queue s ++ [ts_task_id st].
Proof.
  intros Hinv Hroom. destruct (create_task_spec s now plan Hinv Hroom)
    as (st & s' & H1 & H2 & H3 & H4 & H5 & H6 & H7 & _). by exists st, s'.
Qed.

(** An accepted event of a stored task keeps the invariant. *)
Lemma sched_inv_known s id st e st' store' queue' :
  sched_inv s -> task_at (sch_event_store s) id (Some st) ->
  TaskState_apply (Some st) e = Ok st' ->
  tss_events (its_inner store') = tss_events (its_inner (sch_event_store s)) ++ [e] ->
  tss_last_task_id (its_inner store') = tss_last_task_id (its_inner (sch_event_store s)) ->
  NoDup queue' -> (forall id', id' <> id -> id' ∈ queue' <-> id' ∈ sch_task_queue s) ->
  (id ∈ queue' <-> waiting st') ->
  sched_inv (mkTaskSchedulerImpl queue' store') /\ task_at store' id (Some st').
Proof.
  intros Hinv Hst Ha Hev Hl Hnd Hq Hw.
  destruct (task_at_known _ _ _ Hinv Hst) as (last & Hlast & Hr).
  pose proof (task_apply_step _ _ _ Ha) as (_ & He & _).
  rewrite (task_at_id _ _ _ Hst) in He. split.
  - eapply sched_inv_event; try done. exists last. rewrite Hl. split; [done|]. split; [lia|].
    intros last0 Hl0. rewrite Hlast in Hl0. injection Hl0 as <-. lia.
  - by destruct (task_at_snoc (sch_event_store s) store' id (Some st) e st').
Qed.

(** Taking a task never fails, takes the oldest waiting one and runs it. *)
Lemma try_take_ok s now id queue' :
  sched_inv s -> sch_task_queue s = id :: queue' ->
  exists s' st, try_take s now = (Ok (Some id), s') /\ sched_inv s' /\
    sch_task_queue s' = queue' /\ task_at (sch_event_store s') id (Some st) /\
    ts_status st = TaskStatus_Running /\ ts_cancellation_requested st = false.
Proof.
  intros Hinv Hq. destruct (proj1 (si_queue _ Hinv id)) as (st & Hst & Hw).
  { rewrite Hq. by left. }
  destruct Hw as [Hs Hc].
  set (e := TaskEvent_TaskRunning (mkTaskEventRunning now id)).
  pose proof (task_at_id _ _ _ Hst) as Hid.
  assert (Ha : exists st', TaskState_apply (Some st) e = Ok st' /\
            ts_status st' = TaskStatus_Running /\ ts_cancellation_requested st' = false).
  { unfold TaskState_apply. rewrite decide_False by (simpl; congruence). rewrite Hs. simpl.
    eexists; split; [done|]. by simpl. }
  destruct Ha as (st' & Ha & Hst' & Hc').
  destruct (command_ok (sch_event_store s) id (fun t => Task_run t now) st e st' Hst)
    as (a & t & store' & Hload & _ & Hwt & _ & Hev & Hl); [|done|].
  { intros t Ht. unfold Task_run. rewrite Ht. by rewrite Hid. }
  pose proof (si_nodup _ Hinv) as Hnd. rewrite Hq in Hnd. apply NoDup_cons in Hnd as [Hni Hnd].
  destruct (sched_inv_known s id st e st' store' queue') as [Hinv' Hat]; try done.
  { intros id' Hne. rewrite Hq, elem_of_cons. naive_solver. }
  { split; [done|]. intros [Hw _]. by rewrite Hst' in Hw. }
  exists (mkTaskSchedulerImpl queue' store'), st'. unfold try_take. rewrite Hq, Hload, Hwt. done.
Qed.

Lemma cancel_task_ok s now id st :
  sched_inv s -> task_at (sch_event_store s) id (Some st) ->
  exists st' s', cancel_task s now id = (Ok st', s') /\ sched_inv s' /\
    task_at (sch_event_store s') id (Some st') /\ (id ∉ sch_task_queue s') /\
    ts_status st' = ts_status st /\
    (stage (ts_status st) < 2 -> ts_cancellation_requested st' = true).
Proof.
  intros Hinv Hst. unfold cancel_task.
  pose proof (task_at_id _ _ _ Hst) as Hid.
  destruct (Task_can_cancel st) eqn:Hcan.
  - pose proof Hcan as [Hact Hnc]%andb_true_iff. apply negb_true_iff in Hnc.
    set (e := TaskEvent_TaskCancelled (mkTaskEventCancelled now id)).
    assert (Ha : exists st', TaskState_apply (Some st) e = Ok st' /\
              ts_status st' = ts_status st /\ ts_cancellation_requested st' = true).
    { unfold TaskState_apply. rewrite decide_False by (simpl; congruence).
      rewrite Hnc, andb_true_r, Hact. simpl. eauto. }
    destruct Ha as (st' & Ha & Hs' & Hc').
    destruct (command_ok (sch_event_store s) id (fun t => Task_cancel t now) st e st' Hst)
      as (a & t & store' & -> & Has & Hc & Ht & Hev & Hl); [|done|].
    { intros t Ht. unfold Task_cancel. by rewrite Ht, Hnc, Hid. }
    rewrite Has, Hcan, Hc, Ht, Hid. simpl. eexists st', _. split; [done|]. simpl.
    set (q' := queue_without _ _).
    assert (Hq' : forall x, x ∈ q' <-> x ∈ sch_task_queue s /\ x <> id).
    { intros x. unfold q', queue_without. rewrite !list_elem_of_In, filter_In, negb_true_iff,
        bool_decide_eq_false. done. }
    destruct (sched_inv_known s id st e st' store' q') as [Hinv' Hat]; try done.
    { apply NoDup_ListNoDup, List.NoDup_filter, NoDup_ListNoDup, Hinv. }
    { intros id' Hne. rewrite Hq'. tauto. }
    { rewrite Hq'. split; [tauto|]. intros [_ Hw]. congruence. }
    repeat split; try done; try apply Hinv'. rewrite Hq'. tauto.
  - destruct (task_load_synced _ _ _ Hst) as (a & -> & _ & -> & _). rewrite Hcan.
    exists st, s. repeat split; try done; try apply Hinv.
    + intros Hin. apply (si_queue _ Hinv) in Hin as (st0 & Hst0 & Hs & Hc).
      pose proof (task_at_unique _ _ _ _ Hst Hst0) as [= <-].
      unfold Task_can_cancel in Hcan. by rewrite Hs, Hc in Hcan.
    + intros Hlt. unfold Task_can_cancel in Hcan.
      destruct (ts_status st), (ts_cancellation_requested st); simpl in *; try done; lia.
Qed.

(** The executor's copy of a task may be older than the store: it was loaded
    in an earlier state of it. *)
Definition task_snapshot (s : TaskSchedulerImpl) (t : Task) : Prop :=
  exists n, synced_upto n (its_inner (sch_event_store s)) t.

Lemma process_task_outcome_ok s t now outcome st :
  sched_inv s -> task_snapshot s t ->
  (Z.of_nat (length (tss_events (its_inner (sch_event_store s)))) < 2 ^ 63)%Z ->
  task_at (sch_event_store s) (agg_query t) (Some st) -> ts_status st = TaskStatus_Running ->
  exists s' st', process_task_outcome s t now outcome = (Ok tt, s') /\ sched_inv s' /\
    task_at (sch_event_store s') (agg_query t) (Some st') /\
    ts_status st' = TaskStatus_Finished outcome /\
    ts_cancellation_requested st' = ts_cancellation_requested st.
Proof.
  intros Hinv [n Hn] Hroom Hst Hrun. set (id := agg_query t) in *. unfold process_task_outcome.
  pose proof (task_at_id _ _ _ Hst) as Hid.
  change (Aggregate_update_ext t (sch_event_store s) LoadOpts_default) with
    (Aggregate_update_ext t (its_inner (sch_event_store s)) LoadOpts_default).
  destruct (update_synced n _ _ st Hn) as (a & -> & Hsy & Hag & Hqa & Hpa).
  { pose proof (su_bound _ _ _ Hn) as Hb. simpl in Hb. lia. }
  { exact Hst. }
  set (e := TaskEvent_TaskFinished (mkTaskEventFinished now id outcome)).
  assert (Ha : exists st', TaskState_apply (Some st) e = Ok st' /\
            ts_status st' = TaskStatus_Finished outcome /\
            ts_cancellation_requested st' = ts_cancellation_requested st).
  { unfold TaskState_apply. rewrite decide_False by (simpl; congruence). rewrite Hrun. simpl. eauto. }
  destruct Ha as (st' & Ha & Hs' & Hc').
  unfold Task_finish. rewrite Hag, Hid. fold e.
  destruct (Aggregate_apply a e) as [r a1] eqn:Happ.
  assert (r = Ok tt /\ agg_pending_events a1 = [e]) as (-> & Hp1).
  { unfold Aggregate_apply in Happ. rewrite Hag in Happ.
    change (proj_apply (Some st) e) with (TaskState_apply (Some st) e) in Happ.
    rewrite Ha, Hpa in Happ. by simplify_eq. }
  assert (Hsy1 : synced (its_inner (sch_event_store s)) a1).
  { eapply apply_synced; [exact Hsy| |exact Happ]. simpl. by rewrite bool_decide_eq_true_2. }
  destruct (Aggregate_save a1 (sch_event_store s)) as [[r2 a2] store'] eqn:Hsave.
  destruct (task_save_synced _ _ _ _ _ Hsy1 Hsave) as (-> & _ & _ & _ & _ & Hev & Hl).
  rewrite Hp1 in Hev.
  assert (Hnq : id ∉ sch_task_queue s).
  { intros Hin. apply (si_queue _ Hinv) in Hin as (st0 & Hst0 & Hw & _).
    pose proof (task_at_unique _ _ _ _ Hst Hst0) as [= <-]. by rewrite Hrun in Hw. }
  destruct (sched_inv_known s id st e st' store' (sch_task_queue s)) as [Hinv' Hat]; try done.
  { apply Hinv. }
  { split; [done|]. intros [Hw _]. by rewrite Hs' in Hw. }
  by exists (mkTaskSchedulerImpl (sch_task_queue s) store'), st'.
Qed.

(** ** Reachable schedulers *)

Inductive sched_step (s : TaskSchedulerImpl) : TaskSchedulerImpl -> Prop :=
| sched_create now plan : id_room s -> sched_step s (create_task s now plan).2
| sched_cancel now id : sched_step s (cancel_task s now id).2
| sched_take now : sched_step s (try_take s now).2
| sched_finish t now outcome st :
    task_snapshot s t ->
    (Z.of_nat (length (tss_events (its_inner (sch_event_store s)))) < 2 ^ 63)%Z ->
    task_at (sch_event_store s) (agg_query t) (Some st) -> ts_status st = TaskStatus_Running ->
    sched_step s (process_task_outcome s t now outcome).2.

Inductive sched_reachable : TaskSchedulerImpl -> Prop :=
| sched_reachable_new : sched_reachable TaskSchedulerImpl_new
| sched_reachable_step s s' : sched_reachable s -> sched_step s s' -> sched_reachable s'.

Lemma cancel_task_missing s now id :
  task_at (sch_event_store s) id None ->
  cancel_task s now id = (Err (TaskServiceError_NotFound id), s).
Proof. intros H. unfold cancel_task. by rewrite (task_load_missing _ _ H). Qed.

Lemma sched_step_inv s s' : sched_inv s -> sched_step s s' -> sched_inv s'.
Proof.
  intros Hinv [now plan Hroom|now id|now|t now outcome st Hsn Hroom Hst Hrun].
  - by destruct (create_task_ok s now plan Hinv Hroom) as (st & s1 & -> & ? & _).
  - destruct (si_replays _ Hinv id) as [[st|] Hst].
    + by destruct (cancel_task_ok s now id st Hinv Hst) as (st' & s1 & -> & ? & _).
    + by rewrite (cancel_task_missing _ now _ Hst).
  - destruct (sch_task_queue s) as [|id q] eqn:Hq.
    + unfold try_take. by rewrite Hq.
    + by destruct (try_take_ok s now id q Hinv Hq) as (s1 & st & -> & ? & _).
  - by destruct (process_task_outcome_ok s t now outcome st Hinv Hsn Hroom Hst Hrun)
      as (s1 & st' & -> & ? & _).
Qed.

Lemma sched_reachable_inv s : sched_reachable s -> sched_inv s.
Proof. induction 1; eauto using sched_inv_new, sched_step_inv. Qed.

(** ** Ids handed out *)

Definition last_task_id (s : TaskSchedulerImpl) : option TaskID :=
  tss_last_task_id (its_inner (sch_event_store s)).

(** Saving tasks hands out no ids. *)
Lemma task_save_last (a : Task) store r a' store' :
  Aggregate_save a store = (r, a', store') ->
  tss_last_task_id (its_inner store') = tss_last_task_id (its_inner store).
Proof.
  assert (Hlast : forall es s, tss_last_task_id (fold_left add_event es s) = tss_last_task_id s).
  { induction es as [|e es IH]; intros s; simpl; [done|]. by rewrite IH. }
  unfold Aggregate_save. destruct (agg_pending_events a) as [|e es]; [by intros; simplify_eq|].
  cbn [es_save_events task_event_store]. unfold task_save_events, inmem_save_events.
  pose proof (Hlast (e :: es) (index_events (its_inner store) (e :: es))) as Hl.
  destruct (decide _); intros; by simplify_eq.
Qed.

Lemma command_last store t command r store' :
  command_and_save store t command = (r, store') ->
  tss_last_task_id (its_inner store') = tss_last_task_id (its_inner store).
Proof.
  unfold command_and_save. destruct (command t) as [[[]| |] t1]; intros; simplify_eq; try done.
  destruct (Aggregate_save t1 store) as [[[[]| |] t2] s'] eqn:Hs; simplify_eq; by eapply task_save_last.
Qed.

Lemma create_task_last s now plan :
  last_task_id (create_task s now plan).2 =
  Some (match last_task_id s with Some id => i64_add id 1 | None => 0%Z end).
Proof.
  unfold create_task, new_task_id, last_task_id. cbn [next_task_id]. rewrite Task_new_eq.
  destruct (Aggregate_save _ _) as [[[[]| |] t2] s2] eqn:Hs; apply task_save_last in Hs;
    simpl in *; [destruct (agg_state t2)|..]; done.
Qed.

Lemma cancel_task_last s now id : last_task_id (cancel_task s now id).2 = last_task_id s.
Proof.
  unfold cancel_task, last_task_id. destruct (Aggregate_load id (sch_event_store s)) as [t| |]; [|done..].
  destruct (agg_state t) as [st|]; [|done]. destruct (Task_can_cancel st); [|done].
  destruct (command_and_save _ _ _) as [[t1| |] s1] eqn:Hc; by eapply command_last.
Qed.

Lemma try_take_last s now : last_task_id (try_take s now).2 = last_task_id s.
Proof.
  unfold try_take, last_task_id. destruct (sch_task_queue s) as [|id q]; [done|].
  destruct (Aggregate_load id (sch_event_store s)) as [t| |]; [|done..].
  destruct (command_and_save _ _ _) as [r s1] eqn:Hc. by eapply command_last.
Qed.

Lemma process_task_outcome_last s t now outcome :
  last_task_id (process_task_outcome s t now outcome).2 = last_task_id s.
Proof.
  unfold process_task_outcome, last_task_id.
  destruct (Aggregate_update_ext _ _ _) as [[[]| |] t1]; [|done..].
  destruct (Task_finish t1 now outcome) as [[[]| |] t2]; [|done..].
  destruct (Aggregate_save t2 _) as [[r t3] s1] eqn:Hs. by eapply task_save_last.
Qed.

(** ** Tasks of a dataset *)

(** The tasks created for a dataset, oldest first. *)
Definition created_for (d : DatasetID) (es : list TaskEvent) : list TaskID :=
  omap (fun e =>
          match e with
          | TaskEvent_TaskCreated c =>
              if decide (LogicalPlan_dataset_id (tec_logical_plan c) = Some d)
              then Some (tec_task_id c) else None
          | _ => None
          end) es.

Definition index_ok (store : InMemoryTaskSystemEventStore) : Prop :=
  forall d, default [] (tss_tasks_by_dataset (its_inner store) !! d) =
            created_for d (tss_events (its_inner store)).

Lemma fold_index_spec es m d :
  default [] (fold_left update_index_by_dataset es m !! d) =
  default [] (m !! d) ++ created_for d es.
Proof.
  revert m; induction es as [|e es IH]; intros m; simpl; [by rewrite app_nil_r|].
  rewrite IH. unfold update_index_by_dataset.
  destruct e as [c| | |]; simpl; [|done..].
  destruct (LogicalPlan_dataset_id (tec_logical_plan c)) as [d'|]; [|by rewrite decide_False].
  destruct (decide (d' = d)) as [->|Hne].
  - rewrite decide_True by done. rewrite lookup_insert_eq. simpl. by rewrite <- app_assoc.
  - rewrite decide_False by congruence. by rewrite lookup_insert_ne.
Qed.

Lemma task_save_index store id es r store' :
  index_ok store -> es_save_events store id es = (r, store') -> index_ok store'.
Proof.
  intros Hix H d. simpl in H. unfold task_save_events, inmem_save_events in H.
  destruct es as [|e es]; [by simplify_eq|].
  assert (Hf : forall es s, tss_tasks_by_dataset (fold_left add_event es s) =
                 tss_tasks_by_dataset s /\ tss_events (fold_left add_event es s) =
                 tss_events s ++ es).
  { clear. induction es as [|x es IH]; intros s; simpl; [by rewrite app_nil_r|].
    destruct (IH (add_event s x)) as [H1 H2]. simpl in H1, H2. rewrite H1, H2. simpl.
    by rewrite <- app_assoc. }
  set (s1 := index_events (its_inner store) (e :: es)) in *.
  destruct (Hf (e :: es) s1) as [Hm He].
  assert (Hst : its_inner store' = fold_left add_event (e :: es) s1).
  { destruct (decide _); by simplify_eq. }
  rewrite Hst, Hm, He. unfold s1, index_events. cbn [tss_tasks_by_dataset tss_events].
  rewrite fold_index_spec, Hix. unfold created_for. by rewrite omap_app.
Qed.

(** Pages list the tasks of a dataset from the newest to the oldest. *)
Lemma tasks_page store d p :
  index_ok store ->
  get_tasks_by_dataset store d p =
    take (tpo_limit p) (drop (tpo_offset p) (rev (created_for d (tss_events (its_inner store))))) /\
  get_count_tasks_by_dataset store d = length (created_for d (tss_events (its_inner store))).
Proof.
  intros Hix. specialize (Hix d). unfold get_tasks_by_dataset, get_count_tasks_by_dataset.
  destruct (tss_tasks_by_dataset (its_inner store) !! d); simpl in Hix; rewrite <- Hix; simpl.
  - done.
  - by rewrite drop_nil, take_nil.
Qed.

(** ** Listing *)

Lemma aggregate_save_index (t : Task) store r t' store' :
  index_ok store -> Aggregate_save t store = (r, t', store') -> index_ok store'.
Proof.
  intros Hix. unfold Aggregate_save. destruct (agg_pending_events t) as [|e es]; [by intros; simplify_eq|].
  destruct (es_save_events store (agg_query t) (e :: es)) as [[id| |] s'] eqn:Hs;
    intros; simplify_eq; by eapply task_save_index.
Qed.

Lemma command_index store t command r store' :
  index_ok store -> command_and_save store t command = (r, store') -> index_ok store'.
Proof.
  intros Hix. unfold command_and_save. destruct (command t) as [[[]| |] t1]; intros; simplify_eq; try done.
  destruct (Aggregate_save t1 store) as [[[[]| |] t2] s'] eqn:Hs; simplify_eq;
    by eapply aggregate_save_index.
Qed.

Lemma sched_step_index s s' :
  index_ok (sch_event_store s) -> sched_step s s' -> index_ok (sch_event_store s').
Proof.
  intros Hix [now plan _|now id|now|t now outcome st _ _ _ _].
  - unfold create_task, new_task_id. destruct (next_task_id _) as [id st1] eqn:Hn.
    assert (Hix1 : index_ok (mkInMemoryTaskSystemEventStore st1)).
    { unfold next_task_id in Hn. by simplify_eq. }
    rewrite Task_new_eq.
    destruct (Aggregate_save _ _) as [[[[]| |] t2] s2] eqn:Hs; simpl;
      [destruct (agg_state t2)|..]; by eapply aggregate_save_index.
  - unfold cancel_task. destruct (Aggregate_load id (sch_event_store s)) as [t| |]; [|done..].
    destruct (agg_state t) as [st|]; [|done]. destruct (Task_can_cancel st); [|done].
    destruct (command_and_save _ _ _) as [[t1| |] s1] eqn:Hc; by eapply command_index.
  - unfold try_take. destruct (sch_task_queue s) as [|id q]; [done|].
    destruct (Aggregate_load id (sch_event_store s)) as [t| |]; [|done..].
    destruct (command_and_save _ _ _) as [r s1] eqn:Hc. by eapply command_index.
  - unfold process_task_outcome. destruct (Aggregate_update_ext _ _ _) as [[[]| |] t1]; [|done..].
    destruct (Task_finish t1 now outcome) as [[[]| |] t2]; [|done..].
    destruct (Aggregate_save t2 _) as [[r t3] s1] eqn:Hs. by eapply aggregate_save_index.
Qed.

Lemma sched_reachable_index s : sched_reachable s -> index_ok (sch_event_store s).
Proof. induction 1; [done|by eapply sched_step_index]. Qed.

(** Every created task has a state. *)
Lemma created_task_at s d id :
  sched_inv s -> id ∈ created_for d (tss_events (its_inner (sch_event_store s))) ->
  exists st, task_at (sch_event_store s) id (Some st).
Proof.
  intros Hinv (e & Hin & He)%list_elem_of_omap.
  destruct (si_replays _ Hinv id) as [[st|] Ho]; [by exists st|]. exfalso.
  apply task_at_none_history in Ho. unfold history in Ho.
  assert (Hf : In e (List.filter (fun e => matches_query e id)
                       (get_events (its_inner (sch_event_store s))))).
  { apply filter_In. split; [by apply list_elem_of_In|]. simpl. apply bool_decide_eq_true_2.
    destruct e; simplify_eq. case_decide; by simplify_eq. }
  by rewrite Ho in Hf.
Qed.

Lemma load_listed_ok store ids :
  (forall id, id ∈ ids -> exists st, task_at store id (Some st)) ->
  exists sts, load_listed store ids = (sts, Ok tt) /\ map ts_task_id sts = ids /\
    Forall (fun st => task_at store (ts_task_id st) (Some st)) sts.
Proof.
  induction ids as [|id ids IH]; intros H; [by exists []|].
  destruct IH as (sts & Hl & Hm & Hall); [intros; apply H; by right|].
  destruct (H id ltac:(left)) as [st Hst]. exists (st :: sts). simpl.
  destruct (task_load_synced _ _ _ Hst) as (a & -> & _ & -> & _). rewrite Hl.
  pose proof (task_at_id _ _ _ Hst) as Hid. rewrite Hid, Hm. split_and!; [done..|].
  constructor; [by rewrite Hid|done].
Qed.

Lemma list_tasks_ok s d p :
  sched_reachable s ->
  let created := created_for d (tss_events (its_inner (sch_event_store s))) in
  exists sts, list_tasks_by_dataset s d p = mkTaskStateListing (sts, Ok tt) (length created) /\
    map ts_task_id sts = take (tpo_limit p) (drop (tpo_offset p) (rev created)) /\
    Forall (fun st => task_at (sch_event_store s) (ts_task_id st) (Some st)) sts.
Proof.
  intros Hr created. pose proof (sched_reachable_index _ Hr) as Hix.
  apply sched_reachable_inv in Hr. unfold list_tasks_by_dataset.
  destruct (tasks_page (sch_event_store s) d p Hix) as [-> ->]. fold created.
  destruct (load_listed_ok (sch_event_store s)
              (take (tpo_limit p) (drop (tpo_offset p) (rev created)))) as (sts & -> & Hm & Hall).
  - intros id Hin. eapply created_task_at; [done|]. fold created.
    apply list_elem_of_In, in_rev, list_elem_of_In.
    by apply subseteq_take, subseteq_drop in Hin.
  - by exists sts.
Qed.
