(* ===== verification/FlowSystem.v ===== *)
(** The flow system: life cycle of a flow, its triggers, and flow
    configurations.

    Sources: src/domain/flow-system/domain/src/{entities/flow,
    entities/flow_configuration, entities/shared, aggregates}.

    [cron::Schedule] belongs to the [cron] crate: it is kept as the expression
    it prints to, which is how it is serialized, and its [after] iterator is a
    parameter of [Schedule_next_activation_time]. *)

From S2P Require Import Prelude Multiformats Identity Dtos EventSourcing TaskSystem.

Abbreviation FlowID := Z (only parsing).

Record AccountID := mkAccountID { ac_did : DidOdf }.

#[export] Instance AccountID_eq_dec : EqDecision AccountID.
Proof. solve_decision. Defined.

(** * Keys and rules *)

Inductive DatasetFlowType :=
| DatasetFlowType_Ingest
| DatasetFlowType_ExecuteTransform
| DatasetFlowType_HardCompaction
| DatasetFlowType_Reset.

#[export] Instance DatasetFlowType_eq_dec : EqDecision DatasetFlowType.
Proof. solve_decision. Defined.

Definition DatasetFlowType_all : list DatasetFlowType :=
  [ DatasetFlowType_Ingest; DatasetFlowType_ExecuteTransform; DatasetFlowType_HardCompaction;
    DatasetFlowType_Reset ].

Definition DatasetFlowType_dataset_kind_restriction (t : DatasetFlowType) : option DatasetKind :=
  match t with
  | DatasetFlowType_Ingest | DatasetFlowType_HardCompaction => Some DatasetKind_Root
  | DatasetFlowType_ExecuteTransform => Some DatasetKind_Derivative
  | DatasetFlowType_Reset => None
  end.

Inductive SystemFlowType := SystemFlowType_GC.

#[export] Instance SystemFlowType_eq_dec : EqDecision SystemFlowType.
Proof. solve_decision. Defined.

Definition SystemFlowType_all : list SystemFlowType := [SystemFlowType_GC].

Inductive AnyFlowType :=
| AnyFlowType_Dataset (t : DatasetFlowType)
| AnyFlowType_System (t : SystemFlowType).

Inductive FlowSuccessFollowupMethod :=
| FlowSuccessFollowupMethod_Ignore
| FlowSuccessFollowupMethod_TriggerDependent.

Definition AnyFlowType_success_followup_method (t : AnyFlowType) : FlowSuccessFollowupMethod :=
  match t with
  | AnyFlowType_Dataset
      (DatasetFlowType_Ingest | DatasetFlowType_ExecuteTransform
       | DatasetFlowType_HardCompaction | DatasetFlowType_Reset) =>
      FlowSuccessFollowupMethod_TriggerDependent
  | _ => FlowSuccessFollowupMethod_Ignore
  end.

Record FlowKeyDataset := mkFlowKeyDataset {
  fkd_dataset_id : DatasetID;
  fkd_flow_type : DatasetFlowType
}.
Record FlowKeySystem := mkFlowKeySystem { fks_flow_type : SystemFlowType }.

Inductive FlowKey :=
| FlowKey_Dataset (k : FlowKeyDataset)
| FlowKey_System (k : FlowKeySystem).

#[export] Instance FlowKey_eq_dec : EqDecision FlowKey.
Proof.
  assert (EqDecision FlowKeyDataset) by solve_decision.
  assert (EqDecision FlowKeySystem) by solve_decision. solve_decision.
Defined.

Definition FlowKey_get_type (k : FlowKey) : AnyFlowType :=
  match k with
  | FlowKey_Dataset k => AnyFlowType_Dataset (fkd_flow_type k)
  | FlowKey_System k => AnyFlowType_System (fks_flow_type k)
  end.

Record TransformRule := mkTransformRule {
  tr_min_records_to_await : u64;
  tr_max_batching_interval : Duration
}.

#[export] Instance TransformRule_eq_dec : EqDecision TransformRule.
Proof. solve_decision. Defined.

Inductive TransformRuleValidationError :=
| TransformRuleValidationError_MinRecordsToAwaitNotPositive
| TransformRuleValidationError_MinIntervalNotPositive
| TransformRuleValidationError_MaxIntervalAboveLimit.

(** Durations are in nanoseconds. *)
Definition hours (n : Z) : Duration := (n * 3600 * 1000000000)%Z.

Definition MAX_BATCHING_INTERVAL_HOURS : Z := 24.

Definition TransformRule_new_checked (min_records_to_await : u64) (max_batching_interval : Duration)
    : res TransformRuleValidationError TransformRule :=
  if decide (min_records_to_await = 0%Z)
  then Err TransformRuleValidationError_MinRecordsToAwaitNotPositive
  else if decide (0 >= max_batching_interval)%Z
  then Err TransformRuleValidationError_MinIntervalNotPositive
  else if decide (max_batching_interval > hours MAX_BATCHING_INTERVAL_HOURS)%Z
  then Err TransformRuleValidationError_MaxIntervalAboveLimit
  else Ok (mkTransformRule min_records_to_await max_batching_interval).

Record CompactionRuleFull := mkCompactionRuleFull {
  crf_max_slice_size : u64;
  crf_max_slice_records : u64;
  crf_recursive : bool
}.
Record CompactionRuleMetadataOnly := mkCompactionRuleMetadataOnly { crm_recursive : bool }.

Inductive CompactionRule :=
| CompactionRule_Full (r : CompactionRuleFull)
| CompactionRule_MetadataOnly (r : CompactionRuleMetadataOnly).

Inductive CompactionRuleValidationError :=
| CompactionRuleValidationError_MaxSliceRecordsNotPositive
| CompactionRuleValidationError_MaxSliceSizeNotPositive.

Definition CompactionRuleFull_new_checked (max_slice_size max_slice_records : u64)
    (recursive : bool) : res CompactionRuleValidationError CompactionRuleFull :=
  if decide (max_slice_size = 0%Z)
  then Err CompactionRuleValidationError_MaxSliceSizeNotPositive
  else if decide (max_slice_records = 0%Z)
  then Err CompactionRuleValidationError_MaxSliceRecordsNotPositive
  else Ok (mkCompactionRuleFull max_slice_size max_slice_records recursive).

Definition CompactionRule_max_slice_size (r : CompactionRule) : option u64 :=
  match r with CompactionRule_Full r => Some (crf_max_slice_size r) | _ => None end.
Definition CompactionRule_max_slice_records (r : CompactionRule) : option u64 :=
  match r with CompactionRule_Full r => Some (crf_max_slice_records r) | _ => None end.
Definition CompactionRule_recursive (r : CompactionRule) : bool :=
  match r with
  | CompactionRule_MetadataOnly r => crm_recursive r
  | CompactionRule_Full r => crf_recursive r
  end.

Record ScheduleTimeDelta := mkScheduleTimeDelta { std_every : Duration }.
Record ScheduleCron := mkScheduleCron {
  scr_source_5component_cron_expression : string;
  scr_cron_schedule : string
}.

Inductive Schedule :=
| Schedule_TimeDelta (s : ScheduleTimeDelta)
| Schedule_Cron (s : ScheduleCron).

(** [cron_after e now] is [cron_schedule.after(&now).next()]. *)
Definition Schedule_next_activation_time (cron_after : string -> DateTime -> option DateTime)
    (s : Schedule) (now : DateTime) (maybe_last_success_time : option DateTime)
    : res unit DateTime :=
  match s with
  | Schedule_TimeDelta td =>
      match maybe_last_success_time with
      | Some last_success_time =>
          let planned_activation_time := (last_success_time + std_every td)%Z in
          if decide (planned_activation_time < now)%Z then Ok now else Ok planned_activation_time
      | None => Ok now
      end
  | Schedule_Cron ce => unwrap (cron_after (scr_cron_schedule ce) now)
  end.

Record IngestRule := mkIngestRule {
  ir_fetch_uncacheable : bool;
  ir_schedule_condition : Schedule
}.

Record ResetRule := mkResetRule {
  rr_new_head_hash : option Multihash;
  rr_old_head_hash : option Multihash;
  rr_recursive : bool
}.

Inductive FlowConfigurationSnapshot :=
| FlowConfigurationSnapshot_Transform (r : TransformRule)
| FlowConfigurationSnapshot_Compaction (r : CompactionRule)
| FlowConfigurationSnapshot_Schedule (s : Schedule)
| FlowConfigurationSnapshot_Ingest (r : IngestRule)
| FlowConfigurationSnapshot_Reset (r : ResetRule).

(** * Outcomes *)

Record FlowResultDatasetUpdateChanged := mkFlowResultDatasetUpdateChanged {
  fruc_old_head : option Multihash;
  fruc_new_head : Multihash
}.
Record FlowResultDatasetUpdateUpToDate := mkFlowResultDatasetUpdateUpToDate {
  fruu_uncacheable : bool
}.

Inductive FlowResultDatasetUpdate :=
| FlowResultDatasetUpdate_Changed (r : FlowResultDatasetUpdateChanged)
| FlowResultDatasetUpdate_UpToDate (r : FlowResultDatasetUpdateUpToDate).

Record FlowResultDatasetCompact := mkFlowResultDatasetCompact {
  frc_new_head : Multihash;
  frc_old_num_blocks : nat;
  frc_new_num_blocks : nat
}.
Record FlowResultDatasetReset := mkFlowResultDatasetReset { frr_new_head : Multihash }.

Inductive FlowResult :=
| FlowResult_Empty
| FlowResult_DatasetUpdate (r : FlowResultDatasetUpdate)
| FlowResult_DatasetCompact (r : FlowResultDatasetCompact)
| FlowResult_DatasetReset (r : FlowResultDatasetReset).

Definition FlowResult_is_empty (r : FlowResult) : bool :=
  match r with FlowResult_Empty => true | _ => false end.

Record FlowRootDatasetCompactedError := mkFlowRootDatasetCompactedError {
  frdc_dataset_id : DatasetID
}.

Inductive FlowError :=
| FlowError_Failed
| FlowError_RootDatasetCompacted (e : FlowRootDatasetCompactedError)
| FlowError_ResetHeadNotFound.

Definition FlowError_from (value : TaskError) : FlowError :=
  match value with
  | TaskError_Empty => FlowError_Failed
  | TaskError_UpdateDatasetError (UpdateDatasetTaskError_RootDatasetCompacted err) =>
      FlowError_RootDatasetCompacted (mkFlowRootDatasetCompactedError (rdc_dataset_id err))
  | TaskError_ResetDatasetError ResetDatasetTaskError_ResetHeadNotFound =>
      FlowError_ResetHeadNotFound
  end.

Inductive FlowOutcome :=
| FlowOutcome_Success (r : FlowResult)
| FlowOutcome_Failed (e : FlowError)
| FlowOutcome_Aborted.

Definition FlowOutcome_try_result (o : FlowOutcome) : option FlowResult :=
  match o with FlowOutcome_Success r => Some r | _ => None end.

(** [From<ts::TaskResult> for FlowResult]. *)
Definition FlowResult_from (value : TaskResult) : FlowResult :=
  match value with
  | TaskResult_Empty => FlowResult_Empty
  | TaskResult_UpdateDatasetResult r =>
      match tur_pull_result r with
      | PullResult_UpToDate up_to_date_result =>
          match up_to_date_result with
          | PullResultUpToDate_Sync | PullResultUpToDate_Transform
          | PullResultUpToDate_SetWatermark => FlowResult_Empty
          | PullResultUpToDate_PollingIngest result =>
              FlowResult_DatasetUpdate (FlowResultDatasetUpdate_UpToDate
                (mkFlowResultDatasetUpdateUpToDate (pir_uncacheable result)))
          | PullResultUpToDate_PushIngest result =>
              FlowResult_DatasetUpdate (FlowResultDatasetUpdate_UpToDate
                (mkFlowResultDatasetUpdateUpToDate (puir_uncacheable result)))
          end
      | PullResult_Updated old_head new_head =>
          FlowResult_DatasetUpdate (FlowResultDatasetUpdate_Changed
            (mkFlowResultDatasetUpdateChanged old_head new_head))
      end
  | TaskResult_ResetDatasetResult r =>
      FlowResult_DatasetReset (mkFlowResultDatasetReset (trr_new_head r))
  | TaskResult_CompactionDatasetResult r =>
      match tcr_compaction_result r with
      | CompactionResult_NothingToDo => FlowResult_Empty
      | CompactionResult_Success _ new_head old_num_blocks new_num_blocks =>
          FlowResult_DatasetCompact (mkFlowResultDatasetCompact new_head old_num_blocks new_num_blocks)
      end
  end.

(** * Start conditions and triggers *)

Record FlowStartConditionSchedule := mkFlowStartConditionSchedule { fscs_wake_up_at : DateTime }.
Record FlowStartConditionThrottling := mkFlowStartConditionThrottling {
  fsct_interval : Duration;
  fsct_wake_up_at : DateTime;
  fsct_shifted_from : DateTime
}.
Record FlowStartConditionBatching := mkFlowStartConditionBatching {
  fscb_active_transform_rule : TransformRule;
  fscb_batching_deadline : DateTime
}.
Record FlowStartConditionExecutor := mkFlowStartConditionExecutor { fsce_task_id : TaskID }.

Inductive FlowStartCondition :=
| FlowStartCondition_Schedule (c : FlowStartConditionSchedule)
| FlowStartCondition_Throttling (c : FlowStartConditionThrottling)
| FlowStartCondition_Batching (c : FlowStartConditionBatching)
| FlowStartCondition_Executor (c : FlowStartConditionExecutor).

#[export] Instance FlowStartCondition_eq_dec : EqDecision FlowStartCondition.
Proof.
  assert (EqDecision FlowStartConditionSchedule) by solve_decision.
  assert (EqDecision FlowStartConditionThrottling) by solve_decision.
  assert (EqDecision FlowStartConditionBatching) by solve_decision.
  assert (EqDecision FlowStartConditionExecutor) by solve_decision. solve_decision.
Defined.

Record FlowTriggerManual := mkFlowTriggerManual {
  ftm_trigger_time : DateTime;
  ftm_initiator_account_id : AccountID
}.

#[export] Instance FlowTriggerManual_eq_dec : EqDecision FlowTriggerManual.
Proof. solve_decision. Defined.

Record FlowTriggerAutoPolling := mkFlowTriggerAutoPolling { fta_trigger_time : DateTime }.
Record FlowTriggerPush := mkFlowTriggerPush {
  ftp_trigger_time : DateTime;
  ftp_source_name : option string
}.
Record FlowTriggerInputDatasetFlow := mkFlowTriggerInputDatasetFlow {
  fti_trigger_time : DateTime;
  fti_dataset_id : DatasetID;
  fti_flow_type : DatasetFlowType;
  fti_flow_id : FlowID;
  fti_flow_result : FlowResult
}.

Definition is_same_key_as (a b : FlowTriggerInputDatasetFlow) : bool :=
  bool_decide (fti_flow_type a = fti_flow_type b) &&
  bool_decide (fti_dataset_id a = fti_dataset_id b).

Inductive FlowTrigger :=
| FlowTrigger_Manual (t : FlowTriggerManual)
| FlowTrigger_AutoPolling (t : FlowTriggerAutoPolling)
| FlowTrigger_Push (t : FlowTriggerPush)
| FlowTrigger_InputDatasetFlow (t : FlowTriggerInputDatasetFlow).

Definition FlowTrigger_trigger_time (t : FlowTrigger) : DateTime :=
  match t with
  | FlowTrigger_Manual t => ftm_trigger_time t
  | FlowTrigger_AutoPolling t => fta_trigger_time t
  | FlowTrigger_Push t => ftp_trigger_time t
  | FlowTrigger_InputDatasetFlow t => fti_trigger_time t
  end.

Definition FlowTrigger_initiator_account_id (t : FlowTrigger) : option AccountID :=
  match t with FlowTrigger_Manual m => Some (ftm_initiator_account_id m) | _ => None end.

Definition FlowTrigger_push_source_name (t : FlowTrigger) : option string :=
  match t with FlowTrigger_Push p => ftp_source_name p | _ => None end.

(** The body of the [for existing in existing_triggers] loop. *)
Fixpoint FlowTrigger_is_unique_vs (self : FlowTrigger) (existing_triggers : list FlowTrigger)
    : bool :=
  match existing_triggers with
  | [] => true
  | existing :: rest =>
      match self, existing with
      | FlowTrigger_Manual this, FlowTrigger_Manual existing =>
          if decide (this = existing) then false else FlowTrigger_is_unique_vs self rest
      | FlowTrigger_AutoPolling _, FlowTrigger_AutoPolling _ => false
      | FlowTrigger_Push this, FlowTrigger_Push existing =>
          if decide (ftp_source_name this = ftp_source_name existing) then false
          else FlowTrigger_is_unique_vs self rest
      | FlowTrigger_InputDatasetFlow this, FlowTrigger_InputDatasetFlow existing =>
          if is_same_key_as this existing then false else FlowTrigger_is_unique_vs self rest
      | _, _ => FlowTrigger_is_unique_vs self rest
      end
  end.

(** * Events *)

Record FlowEventInitiated := mkFlowEventInitiated {
  fei_event_time : DateTime;
  fei_flow_id : FlowID;
  fei_flow_key : FlowKey;
  fei_trigger : FlowTrigger;
  fei_config_snapshot : option FlowConfigurationSnapshot
}.
Record FlowEventStartConditionUpdated := mkFlowEventStartConditionUpdated {
  fes_event_time : DateTime;
  fes_flow_id : FlowID;
  fes_start_condition : FlowStartCondition;
  fes_last_trigger_index : nat
}.
Record FlowEventTriggerAdded := mkFlowEventTriggerAdded {
  fet_event_time : DateTime;
  fet_flow_id : FlowID;
  fet_trigger : FlowTrigger
}.
Record FlowEventTaskScheduled := mkFlowEventTaskScheduled {
  fets_event_time : DateTime;
  fets_flow_id : FlowID;
  fets_task_id : TaskID
}.
Record FlowEventTaskRunning := mkFlowEventTaskRunning {
  fetr_event_time : DateTime;
  fetr_flow_id : FlowID;
  fetr_task_id : TaskID
}.
Record FlowEventTaskFinished := mkFlowEventTaskFinished {
  fetf_event_time : DateTime;
  fetf_flow_id : FlowID;
  fetf_task_id : TaskID;
  fetf_task_outcome : TaskOutcome
}.
Record FlowEventAborted := mkFlowEventAborted { fea_event_time : DateTime; fea_flow_id : FlowID }.

Inductive FlowEvent :=
| FlowEvent_Initiated (e : FlowEventInitiated)
| FlowEvent_StartConditionUpdated (e : FlowEventStartConditionUpdated)
| FlowEvent_TriggerAdded (e : FlowEventTriggerAdded)
| FlowEvent_TaskScheduled (e : FlowEventTaskScheduled)
| FlowEvent_TaskRunning (e : FlowEventTaskRunning)
| FlowEvent_TaskFinished (e : FlowEventTaskFinished)
| FlowEvent_Aborted (e : FlowEventAborted).

Definition FlowEvent_flow_id (e : FlowEvent) : FlowID :=
  match e with
  | FlowEvent_Initiated e => fei_flow_id e
  | FlowEvent_StartConditionUpdated e => fes_flow_id e
  | FlowEvent_TriggerAdded e => fet_flow_id e
  | FlowEvent_TaskScheduled e => fets_flow_id e
  | FlowEvent_TaskRunning e => fetr_flow_id e
  | FlowEvent_TaskFinished e => fetf_flow_id e
  | FlowEvent_Aborted e => fea_flow_id e
  end.

Inductive FlowStatus := FlowStatus_Waiting | FlowStatus_Running | FlowStatus_Finished.

Definition FlowEvent_new_status (e : FlowEvent) : option FlowStatus :=
  match e with
  | FlowEvent_Initiated _ => Some FlowStatus_Waiting
  | FlowEvent_StartConditionUpdated _ | FlowEvent_TriggerAdded _ | FlowEvent_TaskScheduled _ =>
      None
  | FlowEvent_TaskRunning _ => Some FlowStatus_Running
  | FlowEvent_TaskFinished _ | FlowEvent_Aborted _ => Some FlowStatus_Finished
  end.

(** * Flow state *)

Record FlowTimingRecords := mkFlowTimingRecords {
  ftr_awaiting_executor_since : option DateTime;
  ftr_running_since : option DateTime;
  ftr_finished_at : option DateTime
}.

Record FlowState := mkFlowState {
  fs_flow_id : FlowID;
  fs_flow_key : FlowKey;
  fs_triggers : list FlowTrigger;
  fs_start_condition : option FlowStartCondition;
  fs_timing : FlowTimingRecords;
  fs_task_ids : list TaskID;
  fs_outcome : option FlowOutcome;
  fs_config_snapshot : option FlowConfigurationSnapshot
}.

(** [self.triggers.first().unwrap()] *)
Definition FlowState_primary_trigger (s : FlowState) : res unit FlowTrigger :=
  unwrap (head (fs_triggers s)).

Definition FlowState_status (s : FlowState) : FlowStatus :=
  match fs_outcome s, ftr_running_since (fs_timing s) with
  | Some _, _ => FlowStatus_Finished
  | None, Some _ => FlowStatus_Running
  | None, None => FlowStatus_Waiting
  end.

Definition FlowState_try_result (s : FlowState) : option FlowResult :=
  fs_outcome s ≫= FlowOutcome_try_result.

(** [..s.timing] with the finish time set, and a state with an outcome. *)
Definition timing_finished (t : FlowTimingRecords) (at_ : DateTime) : FlowTimingRecords :=
  mkFlowTimingRecords (ftr_awaiting_executor_since t) (ftr_running_since t) (Some at_).

Definition with_outcome (s : FlowState) (start_condition : option FlowStartCondition)
    (timing : FlowTimingRecords) (outcome : FlowOutcome) : FlowState :=
  mkFlowState (fs_flow_id s) (fs_flow_key s) (fs_triggers s) start_condition timing
    (fs_task_ids s) (Some outcome) (fs_config_snapshot s).

Definition FlowState_apply (state : option FlowState) (event : FlowEvent)
    : res (option FlowState * FlowEvent) FlowState :=
  match state with
  | None =>
      match event with
      | FlowEvent_Initiated e =>
          Ok (mkFlowState (fei_flow_id e) (fei_flow_key e) [fei_trigger e] None
                (mkFlowTimingRecords None None None) [] None (fei_config_snapshot e))
      | _ => Err (None, event)
      end
  | Some s =>
      let refused := Err (Some s, event) in
      let timing := fs_timing s in
      if decide (fs_flow_id s <> FlowEvent_flow_id event) then Panic
      else
        match event with
        | FlowEvent_Initiated _ => refused
        | FlowEvent_StartConditionUpdated e =>
            match fs_outcome s, ftr_running_since timing with
            | None, None =>
                Ok (mkFlowState (fs_flow_id s) (fs_flow_key s) (fs_triggers s)
                      (Some (fes_start_condition e)) timing (fs_task_ids s) (fs_outcome s)
                      (fs_config_snapshot s))
            | _, _ => refused
            end
        | FlowEvent_TriggerAdded e =>
            match fs_outcome s with
            | Some _ => refused
            | None =>
                Ok (mkFlowState (fs_flow_id s) (fs_flow_key s) (fs_triggers s ++ [fet_trigger e])
                      (fs_start_condition s) timing (fs_task_ids s) (fs_outcome s)
                      (fs_config_snapshot s))
            end
        | FlowEvent_TaskScheduled e =>
            match fs_outcome s with
            | Some _ => refused
            | None =>
                Ok (mkFlowState (fs_flow_id s) (fs_flow_key s) (fs_triggers s)
                      (fs_start_condition s)
                      (mkFlowTimingRecords (Some (fets_event_time e)) (ftr_running_since timing)
                         (ftr_finished_at timing))
                      (fs_task_ids s ++ [fets_task_id e]) (fs_outcome s) (fs_config_snapshot s))
            end
        | FlowEvent_TaskRunning e =>
            match fs_outcome s, ftr_awaiting_executor_since timing with
            | None, Some _ =>
                if decide (fetr_task_id e ∈ fs_task_ids s)
                then
                  Ok (mkFlowState (fs_flow_id s) (fs_flow_key s) (fs_triggers s) None
                        (mkFlowTimingRecords (ftr_awaiting_executor_since timing)
                           (Some (fetr_event_time e)) (ftr_finished_at timing))
                        (fs_task_ids s) (fs_outcome s) (fs_config_snapshot s))
                else refused
            | _, _ => refused
            end
        | FlowEvent_TaskFinished e =>
            match ftr_running_since timing, fs_start_condition s with
            | Some _, None =>
                if decide (fetf_task_id e ∈ fs_task_ids s)
                then
                  match fs_outcome s with
                  | Some _ => Ok s
                  | None =>
                      match fetf_task_outcome e with
                      | TaskOutcome_Success task_result =>
                          Ok (with_outcome s (fs_start_condition s)
                                (timing_finished timing (fetf_event_time e))
                                (FlowOutcome_Success (FlowResult_from task_result)))
                      | TaskOutcome_Cancelled =>
                          Ok (with_outcome s (fs_start_condition s)
                                (timing_finished timing (fetf_event_time e)) FlowOutcome_Aborted)
                      | TaskOutcome_Failed task_error =>
                          Ok (with_outcome s (fs_start_condition s) timing
                                (FlowOutcome_Failed (FlowError_from task_error)))
                      end
                  end
                else refused
            | _, _ => refused
            end
        | FlowEvent_Aborted e =>
            match fs_outcome s with
            | Some (FlowOutcome_Success _) => refused
            | Some _ => Ok s
            | None =>
                Ok (with_outcome s None (timing_finished timing (fea_event_time e))
                      FlowOutcome_Aborted)
            end
        end
  end.

#[export] Instance flow_projection : Projection FlowID FlowEvent FlowState := {|
  proj_apply := FlowState_apply;
  matches_query e q := bool_decide (FlowEvent_flow_id e = q)
|}.

#[export] Instance flow_projection_lawful : LawfulProjection flow_projection.
Proof.
  split. intros s e s' e'; simpl. unfold FlowState_apply.
  destruct s as [s|], e; simpl; repeat case_match; intros; by simplify_eq.
Qed.

(** * The flow aggregate *)

Abbreviation Flow := (Aggregate FlowID FlowEvent FlowState).
Abbreviation FlowProjectionError := (option FlowState * FlowEvent)%type.

Definition Flow_new (now : DateTime) (flow_id : FlowID) (flow_key : FlowKey)
    (trigger : FlowTrigger) (config_snapshot : option FlowConfigurationSnapshot)
    : res FlowProjectionError Flow :=
  match Aggregate_new flow_id
          (FlowEvent_Initiated (mkFlowEventInitiated now flow_id flow_key trigger config_snapshot))
  with
  | Ok f => Ok f
  | _ => Panic
  end.

(** Commands read the state through [Deref], which unwraps it. *)
Definition Flow_command {A} (f : Flow) (k : FlowState -> res FlowProjectionError A * Flow)
    : res FlowProjectionError A * Flow :=
  match agg_state f with
  | Some s => k s
  | None => (Panic, f)
  end.

Definition Flow_set_relevant_start_condition (f : Flow) (now : DateTime)
    (start_condition : FlowStartCondition) : res FlowProjectionError unit * Flow :=
  Flow_command f (fun s =>
    if decide (fs_start_condition s <> Some start_condition)
    then Aggregate_apply f (FlowEvent_StartConditionUpdated
           (mkFlowEventStartConditionUpdated now (fs_flow_id s) start_condition
              (length (fs_triggers s))))
    else (Ok tt, f)).

Definition Flow_add_trigger_if_unique (f : Flow) (now : DateTime) (trigger : FlowTrigger)
    : res FlowProjectionError bool * Flow :=
  Flow_command f (fun s =>
    if FlowTrigger_is_unique_vs trigger (fs_triggers s)
    then
      let '(r, f') := Aggregate_apply f (FlowEvent_TriggerAdded
                        (mkFlowEventTriggerAdded now (fs_flow_id s) trigger)) in
      (map_ok (fun _ => true) r, f')
    else (Ok false, f)).

Definition Flow_on_task_scheduled (f : Flow) (now : DateTime) (task_id : TaskID)
    : res FlowProjectionError unit * Flow :=
  Flow_command f (fun s => Aggregate_apply f
    (FlowEvent_TaskScheduled (mkFlowEventTaskScheduled now (fs_flow_id s) task_id))).

Definition Flow_on_task_running (f : Flow) (now : DateTime) (task_id : TaskID)
    : res FlowProjectionError unit * Flow :=
  Flow_command f (fun s => Aggregate_apply f
    (FlowEvent_TaskRunning (mkFlowEventTaskRunning now (fs_flow_id s) task_id))).

Definition Flow_on_task_finished (f : Flow) (now : DateTime) (task_id : TaskID)
    (task_outcome : TaskOutcome) : res FlowProjectionError unit * Flow :=
  Flow_command f (fun s => Aggregate_apply f
    (FlowEvent_TaskFinished (mkFlowEventTaskFinished now (fs_flow_id s) task_id task_outcome))).

Definition Flow_abort (f : Flow) (now : DateTime) : res FlowProjectionError unit * Flow :=
  Flow_command f (fun s =>
    match fs_outcome s with
    | Some FlowOutcome_Aborted => (Ok tt, f)
    | _ => Aggregate_apply f (FlowEvent_Aborted (mkFlowEventAborted now (fs_flow_id s)))
    end).

(** * Flow configurations *)

Inductive FlowConfigurationRule :=
| FlowConfigurationRule_Schedule (s : Schedule)
| FlowConfigurationRule_TransformRule (r : TransformRule)
| FlowConfigurationRule_CompactionRule (r : CompactionRule)
| FlowConfigurationRule_IngestRule (r : IngestRule)
| FlowConfigurationRule_ResetRule (r : ResetRule).

Inductive FlowConfigurationStatus :=
| FlowConfigurationStatus_Active
| FlowConfigurationStatus_PausedTemporarily
| FlowConfigurationStatus_StoppedPermanently.

Definition FlowConfigurationStatus_is_active (s : FlowConfigurationStatus) : bool :=
  match s with FlowConfigurationStatus_Active => true | _ => false end.

Record FlowConfigurationEventCreated := mkFlowConfigurationEventCreated {
  fcec_event_time : DateTime;
  fcec_flow_key : FlowKey;
  fcec_paused : bool;
  fcec_rule : FlowConfigurationRule
}.
Record FlowConfigurationEventModified := mkFlowConfigurationEventModified {
  fcem_event_time : DateTime;
  fcem_flow_key : FlowKey;
  fcem_paused : bool;
  fcem_rule : FlowConfigurationRule
}.
Record FlowConfigurationEventDatasetRemoved := mkFlowConfigurationEventDatasetRemoved {
  fced_event_time : DateTime;
  fced_flow_key : FlowKey
}.

Inductive FlowConfigurationEvent :=
| FlowConfigurationEvent_Created (e : FlowConfigurationEventCreated)
| FlowConfigurationEvent_Modified (e : FlowConfigurationEventModified)
| FlowConfigurationEvent_DatasetRemoved (e : FlowConfigurationEventDatasetRemoved).

Definition FlowConfigurationEvent_flow_key (e : FlowConfigurationEvent) : FlowKey :=
  match e with
  | FlowConfigurationEvent_Created e => fcec_flow_key e
  | FlowConfigurationEvent_Modified e => fcem_flow_key e
  | FlowConfigurationEvent_DatasetRemoved e => fced_flow_key e
  end.

Record FlowConfigurationState := mkFlowConfigurationState {
  fcs_flow_key : FlowKey;
  fcs_rule : FlowConfigurationRule;
  fcs_status : FlowConfigurationStatus
}.

Definition FlowConfigurationState_is_active (s : FlowConfigurationState) : bool :=
  FlowConfigurationStatus_is_active (fcs_status s).

Definition status_of_paused (paused : bool) : FlowConfigurationStatus :=
  if paused then FlowConfigurationStatus_PausedTemporarily else FlowConfigurationStatus_Active.

Definition FlowConfigurationState_apply (state : option FlowConfigurationState)
    (event : FlowConfigurationEvent)
    : res (option FlowConfigurationState * FlowConfigurationEvent) FlowConfigurationState :=
  match state with
  | None =>
      match event with
      | FlowConfigurationEvent_Created e =>
          Ok (mkFlowConfigurationState (fcec_flow_key e) (fcec_rule e)
                (status_of_paused (fcec_paused e)))
      | _ => Err (None, event)
      end
  | Some s =>
      if decide (fcs_flow_key s <> FlowConfigurationEvent_flow_key event) then Panic
      else
        match event with
        | FlowConfigurationEvent_Created _ => Err (Some s, event)
        | FlowConfigurationEvent_Modified e =>
            Ok (mkFlowConfigurationState (fcs_flow_key s) (fcem_rule e)
                  (status_of_paused (fcem_paused e)))
        | FlowConfigurationEvent_DatasetRemoved _ =>
            match fcs_flow_key s with
            | FlowKey_Dataset _ =>
                match fcs_status s with
                | FlowConfigurationStatus_StoppedPermanently => Ok s
                | _ => Ok (mkFlowConfigurationState (fcs_flow_key s) (fcs_rule s)
                             FlowConfigurationStatus_StoppedPermanently)
                end
            | _ => Err (Some s, event)
            end
        end
  end.

#[export] Instance flow_configuration_projection
  : Projection FlowKey FlowConfigurationEvent FlowConfigurationState := {|
  proj_apply := FlowConfigurationState_apply;
  matches_query e q := bool_decide (FlowConfigurationEvent_flow_key e = q)
|}.

#[export] Instance flow_configuration_projection_lawful
  : LawfulProjection flow_configuration_projection.
Proof.
  split. intros s e s' e'; simpl. unfold FlowConfigurationState_apply.
  destruct s as [s|], e; simpl; repeat case_match; intros; by simplify_eq.
Qed.

Abbreviation FlowConfiguration :=
  (Aggregate FlowKey FlowConfigurationEvent FlowConfigurationState).
Abbreviation FlowConfigurationError :=
  (option FlowConfigurationState * FlowConfigurationEvent)%type.

Definition FlowConfiguration_new (now : DateTime) (flow_key : FlowKey) (paused : bool)
    (rule : FlowConfigurationRule) : res FlowConfigurationError FlowConfiguration :=
  match Aggregate_new flow_key (FlowConfigurationEvent_Created
          (mkFlowConfigurationEventCreated now flow_key paused rule)) with
  | Ok c => Ok c
  | _ => Panic
  end.

Definition FlowConfiguration_modify_configuration (c : FlowConfiguration) (now : DateTime)
    (paused : bool) (new_rule : FlowConfigurationRule)
    : res FlowConfigurationError unit * FlowConfiguration :=
  match agg_state c with
  | Some s => Aggregate_apply c (FlowConfigurationEvent_Modified
      (mkFlowConfigurationEventModified now (fcs_flow_key s) paused new_rule))
  | None => (Panic, c)
  end.

Definition FlowConfiguration_pause (c : FlowConfiguration) (now : DateTime)
    : res FlowConfigurationError unit * FlowConfiguration :=
  match agg_state c with
  | Some s =>
      if FlowConfigurationState_is_active s
      then Aggregate_apply c (FlowConfigurationEvent_Modified
        (mkFlowConfigurationEventModified now (fcs_flow_key s) true (fcs_rule s)))
      else (Ok tt, c)
  | None => (Panic, c)
  end.

Definition FlowConfiguration_resume (c : FlowConfiguration) (now : DateTime)
    : res FlowConfigurationError unit * FlowConfiguration :=
  match agg_state c with
  | Some s =>
      if FlowConfigurationState_is_active s then (Ok tt, c)
      else Aggregate_apply c (FlowConfigurationEvent_Modified
        (mkFlowConfigurationEventModified now (fcs_flow_key s) false (fcs_rule s)))
  | None => (Panic, c)
  end.

Definition FlowConfiguration_notify_dataset_removed (c : FlowConfiguration) (now : DateTime)
    : res FlowConfigurationError unit * FlowConfiguration :=
  match agg_state c with
  | Some s => Aggregate_apply c (FlowConfigurationEvent_DatasetRemoved
      (mkFlowConfigurationEventDatasetRemoved now (fcs_flow_key s)))
  | None => (Panic, c)
  end.

(** * Life cycle of a flow *)

(** How the fields of a flow agree with each other. *)
Record flow_wf (s : FlowState) : Prop := {
  fw_triggers : fs_triggers s <> [];
  fw_awaiting : is_Some (ftr_awaiting_executor_since (fs_timing s)) <-> fs_task_ids s <> [];
  fw_running : is_Some (ftr_running_since (fs_timing s)) ->
    fs_task_ids s <> [] /\ fs_start_condition s = None;
  fw_outcome : forall o, fs_outcome s = Some o -> fs_start_condition s = None /\
    match o with
    | FlowOutcome_Success _ =>
        is_Some (ftr_running_since (fs_timing s)) /\ is_Some (ftr_finished_at (fs_timing s))
    | FlowOutcome_Failed _ => is_Some (ftr_running_since (fs_timing s))
    | FlowOutcome_Aborted => is_Some (ftr_finished_at (fs_timing s))
    end;
  fw_unfinished : fs_outcome s = None -> ftr_finished_at (fs_timing s) = None
}.

Lemma app_singleton_ne {A} (l : list A) x : l ++ [x] <> [].
Proof. by destruct l. Qed.

Lemma flow_apply_wf s e s' :
  (forall x, s = Some x -> flow_wf x) -> FlowState_apply s e = Ok s' -> flow_wf s'.
Proof.
  unfold FlowState_apply. intros Hwf H.
  destruct s as [s|]; [specialize (Hwf s eq_refl); destruct Hwf as [H1 H2 H3 H4 H5]|].
  - destruct s as [fid key trs sc [aw ru fi] tids out snap]; simpl in *.
    case_decide; [done|].
    destruct e as [e|e|e|e|e|e|e].
    + done.
    + destruct out, ru; simplify_eq. split; simpl; auto; try done; by intros [].
    + destruct out; simplify_eq. split; simpl; auto using app_singleton_ne; done.
    + destruct out; simplify_eq. split; simpl; auto using app_singleton_ne; try done.
      * split; [intros; apply app_singleton_ne|by eexists].
      * intros Hr. destruct (H3 Hr). split; [apply app_singleton_ne|done].
    + destruct out, aw; simplify_eq. case_decide; simplify_eq.
      split; simpl; auto; try done. intros _. split; [|done]. apply H2. by eexists.
    + destruct ru, sc; simplify_eq. case_decide; simplify_eq. destruct out; simplify_eq.
      { by split. }
      destruct (fetf_task_outcome e); simplify_eq; split; simpl; auto; try done;
        intros o [= <-]; eauto.
    + destruct out as [[]|]; simplify_eq; [by split..|].
      split; simpl; auto; try done; [|by intros o [= <-]; eauto].
      intros Hr. by destruct (H3 Hr).
  - destruct e; simplify_eq. split; simpl; try done; by split; [intros []|].
Qed.

(** Once a flow has an outcome, an accepted event changes nothing. *)
Lemma flow_finished_frozen s e s' o :
  fs_outcome s = Some o -> FlowState_apply (Some s) e = Ok s' -> s' = s.
Proof.
  unfold FlowState_apply. intros Ho H. case_decide; [done|]. rewrite Ho in H.
  destruct e; repeat (case_match; simplify_eq/=); done.
Qed.

(** The status an event announces is the one the flow gets. *)
Lemma flow_new_status s e s' :
  (forall x, s = Some x -> flow_wf x) -> FlowState_apply s e = Ok s' ->
  match FlowEvent_new_status e with
  | Some st => FlowState_status s' = st
  | None => exists x, s = Some x /\ FlowState_status s' = FlowState_status x
  end.
Proof.
  unfold FlowState_apply, FlowState_status. intros Hwf H.
  destruct s as [s|]; [|by destruct e; simplify_eq]. clear Hwf.
  case_decide; [done|].
  destruct e; repeat (case_match; simplify_eq/=); simplify_eq/=; eauto;
    try (eexists; split; [done|]); repeat (case_match; simplify_eq/=); done.
Qed.

(** ** Triggers *)

(** Two triggers ask for the same thing. *)
Definition similar (a b : FlowTrigger) : Prop :=
  match a, b with
  | FlowTrigger_Manual x, FlowTrigger_Manual y => x = y
  | FlowTrigger_AutoPolling _, FlowTrigger_AutoPolling _ => True
  | FlowTrigger_Push x, FlowTrigger_Push y => ftp_source_name x = ftp_source_name y
  | FlowTrigger_InputDatasetFlow x, FlowTrigger_InputDatasetFlow y =>
      fti_flow_type x = fti_flow_type y /\ fti_dataset_id x = fti_dataset_id y
  | _, _ => False
  end.

#[export] Instance similar_dec a b : Decision (similar a b).
Proof. destruct a, b; simpl; apply _. Defined.

#[export] Instance similar_equivalence : Equivalence similar.
Proof.
  split.
  - by intros [].
  - intros [] []; simpl; try done; intuition congruence.
  - intros [] [] []; simpl; try done; intuition congruence.
Qed.

Lemma is_unique_spec t l :
  FlowTrigger_is_unique_vs t l = true <-> Forall (fun x => ~ similar t x) l.
Proof.
  induction l as [|x l IH]; simpl; [split; auto|]. rewrite Forall_cons, <- IH.
  destruct t, x; simpl; try tauto; try (by case_decide; naive_solver).
  - naive_solver.
  - unfold is_same_key_as. repeat case_bool_decide; simpl; naive_solver.
Qed.

(** No two triggers of the list are similar. *)
Definition triggers_distinct (l : list FlowTrigger) : Prop :=
  ForallOrdPairs (fun a b => ~ similar a b) l.

Lemma triggers_distinct_snoc l t :
  triggers_distinct l -> Forall (fun x => ~ similar t x) l -> triggers_distinct (l ++ [t]).
Proof.
  unfold triggers_distinct. induction 1 as [|x l Hx Hl IH]; intros Ht; simpl.
  - repeat constructor.
  - apply Forall_cons in Ht as [Hxt Ht]. constructor; [|auto].
    apply Forall_app. split; [done|]. repeat constructor. intros Hs. apply Hxt. by symmetry.
Qed.

Lemma add_trigger_spec f now t s r f' :
  agg_state f = Some s -> fs_outcome s = None -> triggers_distinct (fs_triggers s) ->
  Flow_add_trigger_if_unique f now t = (r, f') ->
  exists s', agg_state f' = Some s' /\ triggers_distinct (fs_triggers s') /\
    ((r = Ok true /\ fs_triggers s' = fs_triggers s ++ [t] /\
      Forall (fun x => ~ similar t x) (fs_triggers s)) \/
     (r = Ok false /\ f' = f /\ Exists (similar t) (fs_triggers s))).
Proof.
  intros Hs Ho Hd. unfold Flow_add_trigger_if_unique, Flow_command. rewrite Hs.
  destruct (FlowTrigger_is_unique_vs t (fs_triggers s)) eqn:Hu.
  - pose proof (proj1 (is_unique_spec _ _) Hu) as Hall.
    unfold Aggregate_apply. rewrite Hs. simpl. rewrite decide_False by (simpl; tauto).
    rewrite Ho. simpl. intros [= <- <-]. simpl. eexists; split; [done|]. simpl.
    split; [by apply triggers_distinct_snoc|]. by left.
  - intros [= <- <-]. exists s. split; [done|]. split; [done|]. right. split; [done|].
    split; [done|]. destruct (decide (Exists (similar t) (fs_triggers s))) as [He|He]; [done|].
    exfalso. apply not_true_iff_false in Hu. apply Hu, is_unique_spec.
    apply Forall_forall. intros x Hx Hsim. apply He. apply Exists_exists. eauto.
Qed.
