(* ===== verification/FlowTimeWheel.v ===== *)
(** The time wheel of the flow service, and its registries of pending flows
    and of active configurations.

    Sources: src/domain/flow-system/services/src/flow/{flow_time_wheel,
    pending_flows_state, active_configs_state}.rs.

    [BinaryHeap<Reverse<FlowRecord>>] is only pushed to, peeked at and popped
    from: it is the list of its records in the derived order of [FlowRecord],
    least first.  Records that compare equal are equal, so that this loses
    nothing.  [HashMap] is [gmap]. *)

From Stdlib Require Import Sorted.
From S2P Require Import Prelude Multiformats Identity Dtos EventSourcing TaskSystem FlowSystem.

(** * The time wheel *)

Record FlowRecord := mkFlowRecord { fr_activation_time : DateTime; fr_flow_id : FlowID }.

#[export] Instance FlowRecord_eq_dec : EqDecision FlowRecord.
Proof. solve_decision. Defined.

(** The derived [Ord]: lexicographic. *)
Definition record_lt (a b : FlowRecord) : Prop :=
  (fr_activation_time a < fr_activation_time b)%Z \/
  (fr_activation_time a = fr_activation_time b /\ (fr_flow_id a < fr_flow_id b)%Z).

Definition record_ltb (a b : FlowRecord) : bool :=
  if (fr_activation_time a <? fr_activation_time b)%Z then true
  else if (fr_activation_time a =? fr_activation_time b)%Z then (fr_flow_id a <? fr_flow_id b)%Z
  else false.

Record FlowTimeWheel := mkFlowTimeWheel {
  flow_heap : list FlowRecord;
  flow_activation_times_by_id : gmap FlowID DateTime
}.

Definition FlowTimeWheel_default : FlowTimeWheel := mkFlowTimeWheel [] ∅.

Implicit Types (w : FlowTimeWheel) (r : FlowRecord) (h : list FlowRecord) (f : FlowID).
Implicit Types (m : gmap FlowID DateTime).

(** [BinaryHeap::push]. *)
Fixpoint heap_push (r : FlowRecord) (h : list FlowRecord) : list FlowRecord :=
  match h with
  | [] => [r]
  | x :: h' => if record_ltb x r then x :: heap_push r h' else r :: h
  end.

Definition nearest_activation_moment w : option DateTime :=
  option_map fr_activation_time (head (flow_heap w)).

Definition is_flow_activation_planned_at m (flow_id : FlowID) (activation_moment : DateTime) : bool :=
  match m !! flow_id with
  | Some flow_activation_time => (flow_activation_time =? activation_moment)%Z
  | None => false
  end.

(** [while let Some(ar) = peek() { if planned { break; } pop(); }] *)
Fixpoint clean_heap m h : list FlowRecord :=
  match h with
  | [] => []
  | ar :: h' =>
      if is_flow_activation_planned_at m (fr_flow_id ar) (fr_activation_time ar) then h
      else clean_heap m h'
  end.

Definition clean_top_cancellations w : FlowTimeWheel :=
  mkFlowTimeWheel (clean_heap (flow_activation_times_by_id w) (flow_heap w))
    (flow_activation_times_by_id w).

(** The loop of [take_nearest_planned_flows]. *)
Fixpoint take_loop m (activation_moment : DateTime) h : list FlowID * list FlowRecord :=
  match h with
  | [] => ([], [])
  | ar :: h' =>
      if (activation_moment <? fr_activation_time ar)%Z then ([], h)
      else
        let '(res, rest) := take_loop m activation_moment h' in
        (if is_flow_activation_planned_at m (fr_flow_id ar) activation_moment
         then fr_flow_id ar :: res else res, rest)
  end.

Definition take_nearest_planned_flows w : list FlowID * FlowTimeWheel :=
  match flow_heap w with
  | [] => ([], w)
  | top :: _ =>
      let '(res, rest) :=
        take_loop (flow_activation_times_by_id w) (fr_activation_time top) (flow_heap w) in
      (res, clean_top_cancellations (mkFlowTimeWheel rest (flow_activation_times_by_id w)))
  end.

Definition plan_flow w (flow_record : FlowRecord) : FlowTimeWheel :=
  mkFlowTimeWheel (heap_push flow_record (flow_heap w))
    (<[fr_flow_id flow_record := fr_activation_time flow_record]> (flow_activation_times_by_id w)).

Definition unplan_flow w (flow_id : FlowID) : FlowTimeWheel :=
  clean_top_cancellations
    (mkFlowTimeWheel (flow_heap w) (delete flow_id (flow_activation_times_by_id w))).

Definition activate_at w (activation_time : DateTime) (flow_id : FlowID) : FlowTimeWheel :=
  match flow_activation_times_by_id w !! flow_id with
  | Some earlier_activation_time =>
      if (activation_time <? earlier_activation_time)%Z
      then plan_flow (unplan_flow w flow_id) (mkFlowRecord activation_time flow_id)
      else w
  | None => plan_flow w (mkFlowRecord activation_time flow_id)
  end.

Definition get_planned_flow_activation_time w (flow_id : FlowID) : option DateTime :=
  flow_activation_times_by_id w !! flow_id.

Inductive TimeWheelCancelActivationError :=
| TimeWheelCancelActivationError_FlowNotPlanned (flow_id : FlowID).

Definition cancel_flow_activation w (flow_id : FlowID)
    : res TimeWheelCancelActivationError unit * FlowTimeWheel :=
  match flow_activation_times_by_id w !! flow_id with
  | Some _ => (Ok tt, unplan_flow w flow_id)
  | None => (Err (TimeWheelCancelActivationError_FlowNotPlanned flow_id), w)
  end.

(** * The abstract wheel *)

(** The flows waiting for their activation moment: planned, with the record of
    that plan still in the heap. *)
Definition wheel_waiting w : gmap FlowID DateTime :=
  filter (fun '(f, t) => mkFlowRecord t f ∈ flow_heap w) (flow_activation_times_by_id w).

Definition planned m r : Prop := m !! fr_flow_id r = Some (fr_activation_time r).

(** The heap is ordered and has no duplicates, a plan is the earliest of the
    records of its flow, and the top of the heap is planned. *)
Record wheel_wf w : Prop := {
  ww_sorted : StronglySorted record_lt (flow_heap w);
  ww_earliest : forall r t, r ∈ flow_heap w ->
    flow_activation_times_by_id w !! fr_flow_id r = Some t -> (t <= fr_activation_time r)%Z;
  ww_top : forall r, head (flow_heap w) = Some r -> planned (flow_activation_times_by_id w) r
}.

(** The flow has not been taken or cancelled before: the wheel knows no record
    of it, or the record of its plan. *)
Definition not_retired w f : Prop :=
  match flow_activation_times_by_id w !! f with
  | None => forall r, r ∈ flow_heap w -> fr_flow_id r <> f
  | Some t => mkFlowRecord t f ∈ flow_heap w
  end.

(** A decision procedure for [not_retired]. *)
Definition not_retired_b w f : bool :=
  match flow_activation_times_by_id w !! f with
  | None => forallb (fun r => negb (fr_flow_id r =? f)%Z) (flow_heap w)
  | Some t => bool_decide (mkFlowRecord t f ∈ flow_heap w)
  end.

Lemma not_retired_b_sound w f : not_retired_b w f = true -> not_retired w f.
Proof.
  unfold not_retired_b, not_retired. destruct (_ !! f); [by rewrite bool_decide_eq_true|].
  rewrite forallb_forall. intros H r Hr. rewrite list_elem_of_In in Hr.
  specialize (H r Hr). by apply negb_true_iff, Z.eqb_neq in H.
Qed.

Lemma planned_at m r :
  is_flow_activation_planned_at m (fr_flow_id r) (fr_activation_time r) = true <-> planned m r.
Proof.
  unfold is_flow_activation_planned_at, planned. destruct (m !! fr_flow_id r) as [t|]; [|naive_solver].
  rewrite Z.eqb_eq. naive_solver.
Qed.

Lemma record_ltb_lt a b : record_ltb a b = true <-> record_lt a b.
Proof.
  unfold record_ltb, record_lt. repeat case_match; rewrite ?Z.ltb_lt, ?Z.ltb_ge, ?Z.eqb_eq, ?Z.eqb_neq in *;
    lia.
Qed.

Lemma record_lt_trans a b c : record_lt a b -> record_lt b c -> record_lt a c.
Proof. unfold record_lt. lia. Qed.

Lemma record_lt_irrefl a : ~ record_lt a a.
Proof. unfold record_lt. lia. Qed.

Lemma record_trichotomy a b : record_lt a b \/ a = b \/ record_lt b a.
Proof.
  destruct a as [t f], b as [t' f']. unfold record_lt. simpl.
  destruct (Z.lt_total t t') as [|[->|]]; [lia| |lia].
  destruct (Z.lt_total f f') as [|[->|]]; [lia|by right; left|lia].
Qed.

(** ** The heap *)

Lemma heap_push_elem r x h : x ∈ heap_push r h <-> x = r \/ x ∈ h.
Proof.
  induction h as [|y h IH]; simpl; [set_solver|]. case_match; set_solver.
Qed.

Lemma heap_push_sorted r h :
  StronglySorted record_lt h -> r ∉ h -> StronglySorted record_lt (heap_push r h).
Proof.
  induction 1 as [|x h Hs IH Hx]; intros Hr; simpl; [repeat constructor|].
  apply not_elem_of_cons in Hr as [Hne Hr]. destruct (record_ltb x r) eqn:Hb.
  - constructor; [by apply IH|]. apply Forall_forall. intros y [->|Hy]%heap_push_elem.
    + by apply record_ltb_lt.
    + by apply (proj1 (Forall_forall _ _) Hx).
  - assert (Hlt : record_lt r x).
    { destruct (record_trichotomy r x) as [|[->|H]]; [done..|]. apply record_ltb_lt in H. congruence. }
    constructor; [by constructor|]. constructor; [done|].
    eapply Forall_impl; [done|]. intros y. by apply record_lt_trans.
Qed.

Lemma heap_push_head r h x :
  head (heap_push r h) = Some x -> x = r \/ head h = Some x.
Proof. destruct h as [|y h]; simpl; [naive_solver|]. case_match; naive_solver. Qed.

(** Cleaning drops records that are not planned, and only such. *)
Lemma clean_heap_spec m h :
  exists gone, h = gone ++ clean_heap m h /\ (forall r, r ∈ gone -> ~ planned m r) /\
    (forall r, head (clean_heap m h) = Some r -> planned m r).
Proof.
  induction h as [|x h (gone & Heq & Hg & Ht)]; simpl; [by exists []; set_solver|].
  destruct (is_flow_activation_planned_at m _ _) eqn:Hp.
  - exists []. split_and!; [done|set_solver|]. intros r [= <-]. by apply planned_at.
  - exists (x :: gone). split_and!; [by rewrite Heq at 1| |done].
    intros r [->|Hr]%elem_of_cons; [rewrite <- planned_at; congruence|by apply Hg].
Qed.

Lemma sorted_suffix h1 h2 : StronglySorted record_lt (h1 ++ h2) -> StronglySorted record_lt h2.
Proof. induction h1; [done|]. inversion 1; subst. auto. Qed.

Lemma wheel_waiting_Some w f t :
  wheel_waiting w !! f = Some t <->
  flow_activation_times_by_id w !! f = Some t /\ mkFlowRecord t f ∈ flow_heap w.
Proof. unfold wheel_waiting. by rewrite map_lookup_filter_Some. Qed.

(** Cleaning the top restores the invariant and keeps what is waiting. *)
Lemma clean_top_ok m h :
  StronglySorted record_lt h ->
  (forall r t, r ∈ h -> m !! fr_flow_id r = Some t -> (t <= fr_activation_time r)%Z) ->
  wheel_wf (clean_top_cancellations (mkFlowTimeWheel h m)) /\
  wheel_waiting (clean_top_cancellations (mkFlowTimeWheel h m)) = wheel_waiting (mkFlowTimeWheel h m).
Proof.
  intros Hs He. destruct (clean_heap_spec m h) as (gone & Heq & Hg & Ht). split.
  - split; simpl; [|intros r t Hr; apply He; rewrite Heq; set_solver|done].
    rewrite Heq in Hs. by apply sorted_suffix in Hs.
  - apply map_eq. intros f. apply option_eq. intros t. rewrite !wheel_waiting_Some. simpl.
    split; intros [Hm Hin]; (split; [done|]).
    + rewrite Heq. set_solver.
    + rewrite Heq in Hin. apply elem_of_app in Hin as [Hin|]; [|done]. by destruct (Hg _ Hin).
Qed.

(** ** The operations *)

Lemma unplan_ok w f :
  wheel_wf w -> wheel_wf (unplan_flow w f) /\ wheel_waiting (unplan_flow w f) = delete f (wheel_waiting w).
Proof.
  intros [Hs He Ht]. unfold unplan_flow.
  destruct (clean_top_ok (delete f (flow_activation_times_by_id w)) (flow_heap w)) as [Hw ->]; [done| |].
  { intros r t Hr (_ & Hm)%lookup_delete_Some. by apply He. }
  split; [done|]. apply map_eq. intros f'. apply option_eq. intros t.
  rewrite lookup_delete_Some, !wheel_waiting_Some. simpl. rewrite lookup_delete_Some. tauto.
Qed.

Lemma plan_ok w t f :
  wheel_wf w -> flow_activation_times_by_id w !! f = None ->
  (forall r, r ∈ flow_heap w -> fr_flow_id r = f -> (t < fr_activation_time r)%Z) ->
  wheel_wf (plan_flow w (mkFlowRecord t f)) /\
  wheel_waiting (plan_flow w (mkFlowRecord t f)) = <[f := t]> (wheel_waiting w).
Proof.
  intros [Hs He Ht] Hm Hf. unfold plan_flow. simpl. split.
  - split; simpl.
    + apply heap_push_sorted; [done|]. intros Hr%Hf; simpl in *; [lia|done].
    + intros r t' [->|Hr]%heap_push_elem; simpl; [rewrite lookup_insert_eq; naive_solver lia|].
      intros [[Hfr <-]|[_ Hl]]%lookup_insert_Some; [|by apply He].
      specialize (Hf r Hr (eq_sym Hfr)). lia.
    + intros r [->|Hr]%heap_push_head; unfold planned; simpl; [apply lookup_insert_eq|].
      rewrite lookup_insert_ne; [by apply Ht|]. apply Ht in Hr. unfold planned in Hr. congruence.
  - apply map_eq. intros f'. apply option_eq. intros t'.
    rewrite lookup_insert_Some, !wheel_waiting_Some. simpl. rewrite lookup_insert_Some, heap_push_elem.
    naive_solver.
Qed.

Lemma unplan_heap w f r : r ∈ flow_heap (unplan_flow w f) -> r ∈ flow_heap w.
Proof.
  unfold unplan_flow, clean_top_cancellations. simpl.
  destruct (clean_heap_spec (delete f (flow_activation_times_by_id w)) (flow_heap w))
    as (gone & Heq & _). intros Hr. rewrite Heq. set_solver.
Qed.

Lemma activate_ok w t f :
  wheel_wf w -> not_retired w f ->
  wheel_wf (activate_at w t f) /\
  wheel_waiting (activate_at w t f) =
    <[f := match wheel_waiting w !! f with Some t0 => Z.min t t0 | None => t end]> (wheel_waiting w).
Proof.
  intros Hw Hnr. unfold activate_at, not_retired in *.
  destruct (flow_activation_times_by_id w !! f) as [t0|] eqn:Hm.
  - assert (Hwt : wheel_waiting w !! f = Some t0) by (by apply wheel_waiting_Some). rewrite Hwt.
    destruct (Z.ltb_spec t t0) as [Hlt|Hge].
    + destruct (unplan_ok w f Hw) as [Hu Hwu].
      destruct (plan_ok (unplan_flow w f) t f Hu) as [Hp ->].
      { simpl. apply lookup_delete_eq. }
      { intros r Hr%unplan_heap <-. apply (ww_earliest _ Hw r t0) in Hr; [lia|done]. }
      split; [done|]. rewrite Hwu, Z.min_l by lia. by rewrite insert_delete_eq.
    + split; [done|]. rewrite Z.min_r by lia. by rewrite insert_id.
  - assert (Hwt : wheel_waiting w !! f = None).
    { destruct (wheel_waiting w !! f) eqn:H; [|done]. apply wheel_waiting_Some in H as [? _]. congruence. }
    rewrite Hwt. apply plan_ok; [done..|]. intros r Hr Hf. by destruct (Hnr r Hr).
Qed.

Lemma cancel_ok w f :
  wheel_wf w ->
  let '(x, w') := cancel_flow_activation w f in
  wheel_wf w' /\ wheel_waiting w' = delete f (wheel_waiting w) /\
  (x = Ok tt <-> is_Some (get_planned_flow_activation_time w f)).
Proof.
  intros Hw. unfold cancel_flow_activation, get_planned_flow_activation_time.
  destruct (flow_activation_times_by_id w !! f) as [t|] eqn:Hm.
  - destruct (unplan_ok w f Hw) as [? ->]. split_and!; [done..|]. split; eauto.
  - split_and!; [done| |].
    + rewrite delete_id; [done|]. destruct (wheel_waiting w !! f) eqn:H; [|done].
      apply wheel_waiting_Some in H as [? _]. congruence.
    + split; [done|]. by intros [? ?].
Qed.

Lemma take_loop_spec m am h res rest :
  StronglySorted record_lt h -> (forall r, r ∈ h -> (am <= fr_activation_time r)%Z) ->
  take_loop m am h = (res, rest) ->
  exists front, h = front ++ rest /\
    (forall r, r ∈ front -> fr_activation_time r = am) /\
    (forall r, r ∈ rest -> (am < fr_activation_time r)%Z) /\
    StronglySorted Z.lt res /\
    (forall f, f ∈ res <-> m !! f = Some am /\ mkFlowRecord am f ∈ front).
Proof.
  intros Hs; revert res; induction Hs as [|x h Hs IH Hx]; intros res Hge; simpl.
  { intros [= <- <-]. exists []. split_and!; try done; try constructor; set_solver. }
  destruct (Z.ltb_spec am (fr_activation_time x)) as [Hlt|Hle].
  { intros [= <- <-]. exists []. split_and!; try done; [set_solver| |constructor|set_solver].
    intros r [->|Hr]%elem_of_cons; [done|].
    apply (proj1 (Forall_forall _ _) Hx) in Hr. unfold record_lt in Hr. lia. }
  assert (Ham : fr_activation_time x = am).
  { specialize (Hge x ltac:(left)). lia. }
  destruct (take_loop m am h) as [res' rest'] eqn:Hl. intros [= <- <-].
  destruct (IH res' ltac:(intros; apply Hge; by right) eq_refl)
    as (front & -> & Hf & Hr & Hsr & Hin).
  pose proof (planned_at m x) as Hp. rewrite Ham in Hp. unfold planned in Hp. rewrite Ham in Hp.
  assert (Hxf : mkFlowRecord am (fr_flow_id x) = x) by (rewrite <- Ham; by destruct x).
  exists (x :: front). split_and!; [done| |done| |].
  - intros r [->|?]%elem_of_cons; [done|by apply Hf].
  - destruct (is_flow_activation_planned_at _ _ _); [|done]. constructor; [done|].
    apply Forall_forall. intros f [_ Hff]%Hin.
    assert (record_lt x (mkFlowRecord am f)) as [H|H].
    { apply (proj1 (Forall_forall _ _) Hx). set_solver. }
    { simpl in H. lia. }
    apply H.
  - intros f. rewrite elem_of_cons.
    assert (Hfx : mkFlowRecord am f = x <-> f = fr_flow_id x).
    { split; [by intros <-|by intros ->]. }
    destruct (is_flow_activation_planned_at _ _ _) eqn:Hpl.
    + rewrite elem_of_cons, Hin, Hfx. naive_solver.
    + rewrite Hin, Hfx. split; [naive_solver|]. intros [Hm [->|?]]; [|done].
      apply Hp in Hm. done.
Qed.

Lemma nearest_ok w :
  wheel_wf w ->
  match nearest_activation_moment w with
  | Some am => (exists f, wheel_waiting w !! f = Some am) /\
               (forall f t, wheel_waiting w !! f = Some t -> (am <= t)%Z)
  | None => wheel_waiting w = ∅
  end.
Proof.
  intros [Hs He Ht]. unfold nearest_activation_moment.
  destruct (flow_heap w) as [|x h] eqn:Hh; simpl.
  - apply map_empty. intros f. destruct (wheel_waiting w !! f) eqn:H; [|done].
    apply wheel_waiting_Some in H as [_ H]. rewrite Hh in H. set_solver.
  - split.
    + exists (fr_flow_id x). apply wheel_waiting_Some. split; [by apply Ht|]. rewrite Hh.
      destruct x. left.
    + intros f t [_ H]%wheel_waiting_Some. rewrite Hh in H. apply elem_of_cons in H as [<-|H]; [done|].
      inversion Hs as [|? ? _ Hx]; subst. apply (proj1 (Forall_forall _ _) Hx) in H.
      unfold record_lt in H. simpl in H. lia.
Qed.

Lemma take_ok w :
  wheel_wf w ->
  let '(res, w') := take_nearest_planned_flows w in
  wheel_wf w' /\ StronglySorted Z.lt res /\
  (forall f, f ∈ res <-> exists am, nearest_activation_moment w = Some am /\ wheel_waiting w !! f = Some am) /\
  wheel_waiting w' = filter (fun '(_, t) => nearest_activation_moment w <> Some t) (wheel_waiting w).
Proof.
  intros Hw. pose proof (nearest_ok w Hw) as Hn. unfold nearest_activation_moment in *.
  unfold take_nearest_planned_flows. destruct (flow_heap w) as [|x h] eqn:Hh;
    cbn [head option_map] in Hn |- *.
  { rewrite Hn. split_and!; [done|constructor| |].
    - intros f. split; [set_solver|naive_solver].
    - by rewrite map_filter_empty. }
  destruct Hn as [_ Hmin]. rewrite <- Hh in *. pose proof Hw as [Hs He Ht].
  set (am := fr_activation_time x) in *.
  destruct (take_loop (flow_activation_times_by_id w) am (flow_heap w)) as [res rest] eqn:Hl.
  apply take_loop_spec in Hl as (front & Heq & Hf & Hr & Hsr & Hin); [|done|].
  2:{ rewrite Hh in Hs |- *. intros r [->|Hr]%elem_of_cons; [done|]. inversion Hs as [|? ? _ Hx]; subst.
      apply (proj1 (Forall_forall _ _) Hx) in Hr. unfold record_lt in Hr. lia. }
  destruct (clean_top_ok (flow_activation_times_by_id w) rest) as [Hw' Hwt].
  { rewrite Heq in Hs. by apply sorted_suffix in Hs. }
  { intros r t Hrest. apply He. rewrite Heq. set_solver. }
  split_and!; [done..| |].
  - intros f. rewrite Hin. split.
    + intros [Hm Hff]. exists am. split; [done|]. apply wheel_waiting_Some. split; [done|]. rewrite Heq.
      set_solver.
    + intros (? & [= <-] & [Hm Hh']%wheel_waiting_Some). split; [done|]. rewrite Heq in Hh'.
      apply elem_of_app in Hh' as [|Hh']; [done|]. apply Hr in Hh'. simpl in Hh'. lia.
  - rewrite Hwt. apply map_eq. intros f. apply option_eq. intros t.
    rewrite map_lookup_filter_Some, !wheel_waiting_Some, Heq. simpl. rewrite elem_of_app. split.
    + intros [Hm Hrest]. split; [by auto|]. intros [= Ht']. apply Hr in Hrest. simpl in Hrest. lia.
    + intros [[Hm [Hff|?]] Hne]; [|done]. apply Hf in Hff. simpl in Hff. congruence.
Qed.

(** ** Runs of the wheel *)

Inductive wheel_call :=
| WheelActivate (activation_time : DateTime) (flow_id : FlowID)
| WheelCancel (flow_id : FlowID)
| WheelTake.

(** The flows a call hands out, and the wheel after it. *)
Definition wheel_run w (call : wheel_call) : list FlowID * FlowTimeWheel :=
  match call with
  | WheelActivate t f => ([], activate_at w t f)
  | WheelCancel f => ([], (cancel_flow_activation w f).2)
  | WheelTake => take_nearest_planned_flows w
  end.

(** The specification: a map of activation times of the waiting flows. *)
Definition is_earliest (p : gmap FlowID DateTime) (o : option DateTime) : Prop :=
  match o with
  | Some am => (exists f, p !! f = Some am) /\ (forall f t, p !! f = Some t -> (am <= t)%Z)
  | None => p = ∅
  end.

Inductive spec_run (p : gmap FlowID DateTime) : wheel_call -> list FlowID -> gmap FlowID DateTime -> Prop :=
| spec_activate t f :
    spec_run p (WheelActivate t f) []
      (<[f := match p !! f with Some t0 => Z.min t t0 | None => t end]> p)
| spec_cancel f : spec_run p (WheelCancel f) [] (delete f p)
| spec_take o res :
    is_earliest p o -> StronglySorted Z.lt res ->
    (forall f, f ∈ res <-> exists am, o = Some am /\ p !! f = Some am) ->
    spec_run p WheelTake res (filter (fun '(_, t) => o <> Some t) p).

(** A flow id is not activated again once it was taken or cancelled. *)
Definition call_allowed w (call : wheel_call) : Prop :=
  match call with WheelActivate _ f => not_retired w f | _ => True end.

Inductive wheel_trace : FlowTimeWheel -> list (wheel_call * list FlowID) -> FlowTimeWheel -> Prop :=
| trace_nil w : wheel_trace w [] w
| trace_cons w call out w' tr w'' :
    call_allowed w call -> wheel_run w call = (out, w') -> wheel_trace w' tr w'' ->
    wheel_trace w ((call, out) :: tr) w''.

Inductive spec_trace : gmap FlowID DateTime -> list (wheel_call * list FlowID) -> gmap FlowID DateTime -> Prop :=
| spec_nil p : spec_trace p [] p
| spec_cons p call out p' tr p'' :
    spec_run p call out p' -> spec_trace p' tr p'' -> spec_trace p ((call, out) :: tr) p''.

Lemma wheel_run_ok w call out w' :
  wheel_wf w -> call_allowed w call -> wheel_run w call = (out, w') ->
  wheel_wf w' /\ spec_run (wheel_waiting w) call out (wheel_waiting w').
Proof.
  intros Hw Hc. destruct call as [t f|f|]; simpl in *.
  - intros [= <- <-]. destruct (activate_ok w t f Hw Hc) as [? ->]. split; [done|constructor].
  - intros [= <- <-]. pose proof (cancel_ok w f Hw) as H.
    destruct (cancel_flow_activation w f) as [x w1]. simpl. destruct H as (? & -> & _).
    split; [done|constructor].
  - intros Ht. pose proof (take_ok w Hw) as H. rewrite Ht in H. destruct H as (? & Hs & Hin & ->).
    split; [done|]. by constructor; [apply nearest_ok|..].
Qed.

Lemma wheel_trace_ok w tr w' :
  wheel_trace w tr w' -> wheel_wf w -> wheel_wf w' /\ spec_trace (wheel_waiting w) tr (wheel_waiting w').
Proof.
  induction 1 as [w|w call out w1 tr w2 Hc Hr _ IH]; intros Hw; [split; [done|constructor]|].
  destruct (wheel_run_ok _ _ _ _ Hw Hc Hr) as [Hw1 Hs]. destruct (IH Hw1) as [? Ht].
  split; [done|]. by econstructor.
Qed.

Lemma wheel_default_wf : wheel_wf FlowTimeWheel_default.
Proof. split; simpl; [constructor|set_solver|done]. Qed.

Lemma wheel_waiting_default : wheel_waiting FlowTimeWheel_default = ∅.
Proof. apply map_filter_empty. Qed.

(** ** What the operations leave in the wheel *)

(** The wheel has no record of a flow it does not plan. *)
Definition plannable w f : Prop :=
  flow_activation_times_by_id w !! f = None -> forall r, r ∈ flow_heap w -> fr_flow_id r <> f.

Lemma activate_times w t f f' :
  flow_activation_times_by_id (activate_at w t f) !! f' =
  if decide (f = f')
  then Some (match flow_activation_times_by_id w !! f with Some t0 => Z.min t t0 | None => t end)
  else flow_activation_times_by_id w !! f'.
Proof.
  unfold activate_at. destruct (flow_activation_times_by_id w !! f) as [t0|] eqn:Hm.
  - destruct (Z.ltb_spec t t0); case_decide as Hd; subst; simpl.
    + by rewrite lookup_insert_eq, Z.min_l by lia.
    + by rewrite lookup_insert_ne, lookup_delete_ne by done.
    + by rewrite Hm, Z.min_r by lia.
    + done.
  - simpl. case_decide as Hd; subst; by rewrite ?lookup_insert_eq, ?lookup_insert_ne by done.
Qed.

Lemma activate_heap w t f r :
  r ∈ flow_heap (activate_at w t f) -> r ∈ flow_heap w \/ r = mkFlowRecord t f.
Proof.
  unfold activate_at. repeat case_match; simpl; [|tauto|].
  - intros [->|Hr%unplan_heap]%heap_push_elem; tauto.
  - rewrite heap_push_elem. tauto.
Qed.

Lemma activate_wf w t f : wheel_wf w -> plannable w f -> wheel_wf (activate_at w t f).
Proof.
  intros Hw Hp. unfold activate_at.
  destruct (flow_activation_times_by_id w !! f) as [t0|] eqn:Hm.
  - destruct (Z.ltb_spec t t0) as [Hlt|Hge]; [|done].
    destruct (unplan_ok w f Hw) as [Hu _]. apply plan_ok; [done|simpl; apply lookup_delete_eq|].
    intros r Hr%unplan_heap <-. apply (ww_earliest _ Hw r t0) in Hr; [lia|done].
  - apply plan_ok; [done..|]. intros r Hr Hf. by destruct (Hp Hm r Hr).
Qed.

Lemma cancel_times w f :
  flow_activation_times_by_id (cancel_flow_activation w f).2 = delete f (flow_activation_times_by_id w).
Proof.
  unfold cancel_flow_activation. destruct (_ !! f) eqn:Hm; [done|]. simpl. by rewrite delete_id.
Qed.

Lemma cancel_heap w f r : r ∈ flow_heap (cancel_flow_activation w f).2 -> r ∈ flow_heap w.
Proof. unfold cancel_flow_activation. destruct (_ !! f); [apply unplan_heap|done]. Qed.

Lemma take_times w :
  flow_activation_times_by_id (take_nearest_planned_flows w).2 = flow_activation_times_by_id w.
Proof.
  unfold take_nearest_planned_flows. destruct (flow_heap w) as [|x h]; [done|].
  by destruct (take_loop _ _ _).
Qed.

Lemma take_loop_rest m am h r : r ∈ (take_loop m am h).2 -> r ∈ h.
Proof.
  induction h as [|x h IH]; simpl; [done|]. destruct (_ <? _)%Z; [done|].
  destruct (take_loop m am h) as [l rest]. simpl in *. intros Hr%IH. by right.
Qed.

Lemma take_heap w r : r ∈ flow_heap (take_nearest_planned_flows w).2 -> r ∈ flow_heap w.
Proof.
  unfold take_nearest_planned_flows. destruct (flow_heap w) as [|x h] eqn:Hh.
  { simpl. by rewrite Hh. }
  rewrite <- Hh. pose proof (take_loop_rest (flow_activation_times_by_id w) (fr_activation_time x)
                               (flow_heap w) r) as Hr.
  destruct (take_loop _ _ _) as [l rest]. simpl in *.
  destruct (clean_heap_spec (flow_activation_times_by_id w) rest) as (gone & Heq & _).
  intros H. apply Hr. rewrite Heq. set_solver.
Qed.

(** The flows taken are planned for the nearest moment. *)
Lemma taken_planned w f :
  wheel_wf w -> f ∈ (take_nearest_planned_flows w).1 ->
  flow_activation_times_by_id w !! f = nearest_activation_moment w.
Proof.
  intros Hw Hf. pose proof (take_ok w Hw) as H. destruct (take_nearest_planned_flows w) as [l w'].
  destruct H as (_ & _ & Hin & _). apply Hin in Hf as (am & -> & Hf).
  by apply wheel_waiting_Some in Hf as [-> _].
Qed.

(** A flow that is cancelled and planned again for the same moment is handed
    out twice: the record of the cancelled plan is still in the heap. *)
Lemma replanned_flow_taken_twice :
  let w := activate_at (activate_at FlowTimeWheel_default 10 1) 20 2 in
  let w := activate_at (cancel_flow_activation w 2).2 20 2 in
  let '(first, w) := take_nearest_planned_flows w in
  first = [1%Z] /\ (take_nearest_planned_flows w).1 = [2%Z; 2%Z].
Proof. vm_compute. split; reflexivity. Qed.

(** * Pending flows *)

#[export] Instance FlowKeyDataset_eq_dec : EqDecision FlowKeyDataset.
Proof. solve_decision. Defined.

#[export] Instance DatasetFlowType_countable : Countable DatasetFlowType.
Proof.
  refine (inj_countable' (fun t => match t with
    | DatasetFlowType_Ingest => 0 | DatasetFlowType_ExecuteTransform => 1
    | DatasetFlowType_HardCompaction => 2 | DatasetFlowType_Reset => 3 end)
    (fun n => match n with
    | 0 => DatasetFlowType_Ingest | 1 => DatasetFlowType_ExecuteTransform
    | 2 => DatasetFlowType_HardCompaction | _ => DatasetFlowType_Reset end) _).
  by intros [].
Defined.

#[export] Instance SystemFlowType_countable : Countable SystemFlowType.
Proof. refine (inj_countable' (fun _ => tt) (fun _ => SystemFlowType_GC) _). by intros []. Defined.

#[export] Instance FlowKeyDataset_countable : Countable FlowKeyDataset.
Proof.
  refine (inj_countable' (fun k => (fkd_dataset_id k, fkd_flow_type k))
    (fun p => mkFlowKeyDataset p.1 p.2) _). by intros [].
Defined.

Record PendingFlowsState := mkPendingFlowsState {
  pending_dataset_flows : gmap FlowKeyDataset FlowID;
  pending_system_flows : gmap SystemFlowType FlowID;
  pending_flows_by_tasks : gmap TaskID FlowID
}.

Definition add_pending_flow (s : PendingFlowsState) (flow_key : FlowKey) (flow_id : FlowID)
    : PendingFlowsState :=
  match flow_key with
  | FlowKey_Dataset k =>
      mkPendingFlowsState (<[k := flow_id]> (pending_dataset_flows s)) (pending_system_flows s)
        (pending_flows_by_tasks s)
  | FlowKey_System k =>
      mkPendingFlowsState (pending_dataset_flows s)
        (<[fks_flow_type k := flow_id]> (pending_system_flows s)) (pending_flows_by_tasks s)
  end.

Definition track_flow_task (s : PendingFlowsState) (flow_id : FlowID) (task_id : TaskID)
    : PendingFlowsState :=
  mkPendingFlowsState (pending_dataset_flows s) (pending_system_flows s)
    (<[task_id := flow_id]> (pending_flows_by_tasks s)).

Definition drop_dataset_pending_flow (s : PendingFlowsState) (dataset_id : DatasetID)
    (flow_type : DatasetFlowType) : option FlowID * PendingFlowsState :=
  let key := mkFlowKeyDataset dataset_id flow_type in
  (pending_dataset_flows s !! key,
   mkPendingFlowsState (delete key (pending_dataset_flows s)) (pending_system_flows s)
     (pending_flows_by_tasks s)).

Definition drop_pending_flow (s : PendingFlowsState) (flow_key : FlowKey)
    : option FlowID * PendingFlowsState :=
  match flow_key with
  | FlowKey_Dataset k => drop_dataset_pending_flow s (fkd_dataset_id k) (fkd_flow_type k)
  | FlowKey_System k =>
      (pending_system_flows s !! fks_flow_type k,
       mkPendingFlowsState (pending_dataset_flows s)
         (delete (fks_flow_type k) (pending_system_flows s)) (pending_flows_by_tasks s))
  end.

Definition untrack_flow_by_task (s : PendingFlowsState) (task_id : TaskID) : PendingFlowsState :=
  mkPendingFlowsState (pending_dataset_flows s) (pending_system_flows s)
    (delete task_id (pending_flows_by_tasks s)).

Definition try_get_pending_flow (s : PendingFlowsState) (flow_key : FlowKey) : option FlowID :=
  match flow_key with
  | FlowKey_Dataset k =>
      pending_dataset_flows s !! mkFlowKeyDataset (fkd_dataset_id k) (fkd_flow_type k)
  | FlowKey_System k => pending_system_flows s !! fks_flow_type k
  end.

Definition try_get_flow_id_by_task (s : PendingFlowsState) (task_id : TaskID) : option FlowID :=
  pending_flows_by_tasks s !! task_id.

(** The registry is one map over all keys. *)
Lemma add_then_get s k f k' :
  try_get_pending_flow (add_pending_flow s k f) k' =
  if decide (k = k') then Some f else try_get_pending_flow s k'.
Proof.
  case_decide as Hd; destruct k as [[a b]|[[]]], k' as [[a' b']|[[]]]; simpl; try done;
    try injection Hd as <- <-;
    rewrite ?lookup_insert_eq, ?lookup_insert_ne by congruence; done.
Qed.

Lemma drop_then_get s k k' :
  (drop_pending_flow s k).1 = try_get_pending_flow s k /\
  try_get_pending_flow (drop_pending_flow s k).2 k' =
  if decide (k = k') then None else try_get_pending_flow s k'.
Proof.
  case_decide as Hd; destruct k as [[a b]|[[]]], k' as [[a' b']|[[]]]; (split; [done|]); simpl;
    try done; try injection Hd as <- <-;
    rewrite ?lookup_delete_eq, ?lookup_delete_ne by congruence; done.
Qed.

(** * Active configurations *)

Record ActiveConfigsState := mkActiveConfigsState {
  system_schedules : gmap SystemFlowType Schedule;
  dataset_transform_rules : gmap FlowKeyDataset TransformRule;
  dataset_reset_rules : gmap FlowKeyDataset ResetRule;
  dataset_compaction_rules : gmap FlowKeyDataset CompactionRule;
  dataset_ingest_rules : gmap FlowKeyDataset IngestRule
}.

Definition ActiveConfigsState_default : ActiveConfigsState := mkActiveConfigsState ∅ ∅ ∅ ∅ ∅.

(** A [Schedule] is [unreachable!()] for a dataset flow. *)
Definition add_dataset_flow_config (s : ActiveConfigsState) (flow_key : FlowKeyDataset)
    (rule : FlowConfigurationRule) : res unit ActiveConfigsState :=
  match rule with
  | FlowConfigurationRule_Schedule _ => Panic
  | FlowConfigurationRule_IngestRule ingest_rule =>
      Ok (mkActiveConfigsState (system_schedules s) (dataset_transform_rules s)
            (dataset_reset_rules s) (dataset_compaction_rules s)
            (<[flow_key := ingest_rule]> (dataset_ingest_rules s)))
  | FlowConfigurationRule_ResetRule reset =>
      Ok (mkActiveConfigsState (system_schedules s) (dataset_transform_rules s)
            (<[flow_key := reset]> (dataset_reset_rules s)) (dataset_compaction_rules s)
            (dataset_ingest_rules s))
  | FlowConfigurationRule_TransformRule transform =>
      Ok (mkActiveConfigsState (system_schedules s)
            (<[flow_key := transform]> (dataset_transform_rules s)) (dataset_reset_rules s)
            (dataset_compaction_rules s) (dataset_ingest_rules s))
  | FlowConfigurationRule_CompactionRule compaction =>
      Ok (mkActiveConfigsState (system_schedules s) (dataset_transform_rules s)
            (dataset_reset_rules s) (<[flow_key := compaction]> (dataset_compaction_rules s))
            (dataset_ingest_rules s))
  end.

Definition add_system_flow_config (s : ActiveConfigsState) (flow_type : SystemFlowType)
    (schedule : Schedule) : ActiveConfigsState :=
  mkActiveConfigsState (<[flow_type := schedule]> (system_schedules s)) (dataset_transform_rules s)
    (dataset_reset_rules s) (dataset_compaction_rules s) (dataset_ingest_rules s).

Definition drop_dataset_flow_config (s : ActiveConfigsState) (flow_key : FlowKeyDataset)
    : ActiveConfigsState :=
  mkActiveConfigsState (system_schedules s) (delete flow_key (dataset_transform_rules s))
    (delete flow_key (dataset_reset_rules s)) (delete flow_key (dataset_compaction_rules s))
    (delete flow_key (dataset_ingest_rules s)).

Definition drop_dataset_configs (s : ActiveConfigsState) (dataset_id : DatasetID)
    : ActiveConfigsState :=
  foldl (fun s flow_type => drop_dataset_flow_config s (mkFlowKeyDataset dataset_id flow_type))
    s DatasetFlowType_all.

Definition drop_flow_config (s : ActiveConfigsState) (flow_key : FlowKey) : ActiveConfigsState :=
  match flow_key with
  | FlowKey_Dataset k => drop_dataset_flow_config s k
  | FlowKey_System k =>
      mkActiveConfigsState (delete (fks_flow_type k) (system_schedules s))
        (dataset_transform_rules s) (dataset_reset_rules s) (dataset_compaction_rules s)
        (dataset_ingest_rules s)
  end.

Definition try_get_flow_schedule (s : ActiveConfigsState) (flow_key : FlowKey) : option Schedule :=
  match flow_key with
  | FlowKey_Dataset k => option_map ir_schedule_condition (dataset_ingest_rules s !! k)
  | FlowKey_System k => system_schedules s !! fks_flow_type k
  end.

Definition try_get_dataset_transform_rule (s : ActiveConfigsState) (dataset_id : DatasetID)
    (flow_type : DatasetFlowType) : option TransformRule :=
  dataset_transform_rules s !! mkFlowKeyDataset dataset_id flow_type.

Definition try_get_dataset_ingest_rule (s : ActiveConfigsState) (dataset_id : DatasetID)
    (flow_type : DatasetFlowType) : option IngestRule :=
  dataset_ingest_rules s !! mkFlowKeyDataset dataset_id flow_type.

Definition try_get_dataset_compaction_rule (s : ActiveConfigsState) (dataset_id : DatasetID)
    (flow_type : DatasetFlowType) : option CompactionRule :=
  dataset_compaction_rules s !! mkFlowKeyDataset dataset_id flow_type.

Definition try_get_dataset_reset_rule (s : ActiveConfigsState) (dataset_id : DatasetID)
    (flow_type : DatasetFlowType) : option ResetRule :=
  dataset_reset_rules s !! mkFlowKeyDataset dataset_id flow_type.

Definition try_get_config_snapshot_by_key (s : ActiveConfigsState) (flow_key : FlowKey)
    : option FlowConfigurationSnapshot :=
  match flow_key with
  | FlowKey_System _ =>
      option_map FlowConfigurationSnapshot_Schedule (try_get_flow_schedule s flow_key)
  | FlowKey_Dataset k =>
      match fkd_flow_type k with
      | DatasetFlowType_ExecuteTransform =>
          option_map FlowConfigurationSnapshot_Transform
            (try_get_dataset_transform_rule s (fkd_dataset_id k) (fkd_flow_type k))
      | DatasetFlowType_Ingest =>
          option_map FlowConfigurationSnapshot_Ingest
            (try_get_dataset_ingest_rule s (fkd_dataset_id k) (fkd_flow_type k))
      | DatasetFlowType_Reset =>
          option_map FlowConfigurationSnapshot_Reset
            (try_get_dataset_reset_rule s (fkd_dataset_id k) (fkd_flow_type k))
      | DatasetFlowType_HardCompaction =>
          option_map FlowConfigurationSnapshot_Compaction
            (try_get_dataset_compaction_rule s (fkd_dataset_id k) (fkd_flow_type k))
      end
  end.

(** The snapshot a rule becomes for the flow type it is meant for. *)
Definition rule_snapshot (t : DatasetFlowType) (rule : FlowConfigurationRule)
    : option FlowConfigurationSnapshot :=
  match t, rule with
  | DatasetFlowType_ExecuteTransform, FlowConfigurationRule_TransformRule r =>
      Some (FlowConfigurationSnapshot_Transform r)
  | DatasetFlowType_Ingest, FlowConfigurationRule_IngestRule r =>
      Some (FlowConfigurationSnapshot_Ingest r)
  | DatasetFlowType_Reset, FlowConfigurationRule_ResetRule r =>
      Some (FlowConfigurationSnapshot_Reset r)
  | DatasetFlowType_HardCompaction, FlowConfigurationRule_CompactionRule r =>
      Some (FlowConfigurationSnapshot_Compaction r)
  | _, _ => None
  end.

(** A configuration that was added is the one found for its key, and those of
    other keys are as before. *)
Lemma add_config_snapshot s k rule s' snap k' :
  add_dataset_flow_config s k rule = Ok s' -> rule_snapshot (fkd_flow_type k) rule = Some snap ->
  try_get_config_snapshot_by_key s' k' =
  if decide (k' = FlowKey_Dataset k) then Some snap else try_get_config_snapshot_by_key s k'.
Proof.
  intros Hadd Hsnap. destruct k as [id t]. simpl in Hsnap. case_decide as Hd.
  - subst k'. destruct rule, t; simplify_eq/=; unfold try_get_dataset_transform_rule,
      try_get_dataset_ingest_rule, try_get_dataset_reset_rule, try_get_dataset_compaction_rule;
      simpl; by rewrite lookup_insert_eq.
  - destruct k' as [[id' t']|k']; [|by destruct rule; simplify_eq/=].
    assert (Hne : mkFlowKeyDataset id t <> mkFlowKeyDataset id' t') by congruence.
    destruct rule; simplify_eq/=; destruct t'; unfold try_get_dataset_transform_rule,
      try_get_dataset_ingest_rule, try_get_dataset_reset_rule, try_get_dataset_compaction_rule;
      simpl; rewrite ?lookup_insert_ne by done; done.
Qed.

Lemma drop_config_snapshot s k k' :
  try_get_config_snapshot_by_key (drop_flow_config s k) k' =
  if decide (k = k') then None else try_get_config_snapshot_by_key s k'.
Proof.
  case_decide as Hd; destruct k as [[id t]|[[]]], k' as [[id' t']|[[]]]; simpl; try done;
    try injection Hd as <- <-; rewrite ?lookup_delete_eq; try done.
  - destruct t; unfold try_get_dataset_transform_rule, try_get_dataset_ingest_rule,
      try_get_dataset_reset_rule, try_get_dataset_compaction_rule; simpl; by rewrite lookup_delete_eq.
  - assert (Hne : mkFlowKeyDataset id t <> mkFlowKeyDataset id' t') by congruence.
    destruct t'; unfold try_get_dataset_transform_rule, try_get_dataset_ingest_rule,
      try_get_dataset_reset_rule, try_get_dataset_compaction_rule; simpl;
      by rewrite lookup_delete_ne.
Qed.

(** After a dataset is dropped none of its flows has a configuration, and
    every other flow keeps its own. *)
Lemma drop_dataset_snapshot s id k :
  try_get_config_snapshot_by_key (drop_dataset_configs s id) k =
  match k with
  | FlowKey_Dataset k' =>
      if decide (fkd_dataset_id k' = id) then None else try_get_config_snapshot_by_key s k
  | FlowKey_System _ => try_get_config_snapshot_by_key s k
  end.
Proof.
  unfold drop_dataset_configs. cbn [foldl DatasetFlowType_all].
  pose proof (fun s k => drop_config_snapshot s (FlowKey_Dataset k)) as Hdrop.
  cbn [drop_flow_config] in Hdrop. rewrite !Hdrop. clear Hdrop. destruct k as [[id' t]|k].
  - simpl. destruct (decide (id' = id)) as [->|Hne].
    + destruct t; repeat case_decide; congruence.
    + repeat case_decide; congruence.
  - repeat case_decide; congruence.
Qed.
