(* ===== verification/FlowStore.v ===== *)
(** The in-memory store of flow events, with its search index and run
    statistics.

    Sources: src/infra/flow-system/inmem/src/flow/inmem_flow_event_store.rs and
    src/domain/flow-system/domain/src/repos/flow/flow_event_store.rs.

    The store is an event store that also keeps, for every saved event, lists of
    flow ids, a search index and the times of the last runs.  [index_agrees]
    says what these must be, in terms of the replayed flows alone. *)

From S2P Require Import Prelude Multiformats Identity Dtos EventSourcing TaskSystem FlowSystem FlowTimeWheel.

(** * Statistics, pages and filters *)

Record FlowRunStats := mkFlowRunStats {
  frs_last_success_time : option DateTime;
  frs_last_attempt_time : option DateTime
}.

Definition FlowRunStats_default : FlowRunStats := mkFlowRunStats None None.

Definition FlowRunStats_merge (self new_stats : FlowRunStats) : FlowRunStats :=
  mkFlowRunStats
    (match frs_last_success_time new_stats with
     | Some t => Some t
     | None => frs_last_success_time self
     end)
    (match frs_last_attempt_time new_stats with
     | Some t => Some t
     | None => frs_last_attempt_time self
     end).

Record FlowPaginationOpts := mkFlowPaginationOpts { fpo_offset : nat; fpo_limit : nat }.

#[export] Instance AccountID_countable : Countable AccountID.
Proof.
  refine (inj_countable' (fun i => dk_public_key (do_did (ac_did i)))
                         (fun k => mkAccountID (mkDidOdf (mkDidKey k))) _).
  by intros [[[]]].
Defined.

#[export] Instance FlowStatus_eq_dec : EqDecision FlowStatus.
Proof. solve_decision. Defined.

Inductive InitiatorFilter :=
| InitiatorFilter_System
| InitiatorFilter_Account (ids : gset AccountID).

Record DatasetFlowFilters := mkDatasetFlowFilters {
  dff_by_flow_type : option DatasetFlowType;
  dff_by_flow_status : option FlowStatus;
  dff_by_initiator : option InitiatorFilter
}.

Record AccountFlowFilters := mkAccountFlowFilters {
  aff_by_dataset_ids : gset DatasetID;
  aff_by_flow_type : option DatasetFlowType;
  aff_by_flow_status : option FlowStatus;
  aff_by_initiator : option InitiatorFilter
}.

Record SystemFlowFilters := mkSystemFlowFilters {
  sff_by_flow_type : option SystemFlowType;
  sff_by_flow_status : option FlowStatus;
  sff_by_initiator : option InitiatorFilter
}.

(** * The search index *)

Record FlowIndexEntry := mkFlowIndexEntry {
  fie_flow_type : AnyFlowType;
  fie_flow_status : FlowStatus;
  fie_initiator : option AccountID
}.

Definition dataset_flow_type_matches (e : FlowIndexEntry) (filter : option DatasetFlowType) : bool :=
  match fie_flow_type e with
  | AnyFlowType_Dataset dft =>
      match filter with
      | Some flow_type_filter => bool_decide (flow_type_filter = dft)
      | None => true
      end
  | AnyFlowType_System _ => false
  end.

Definition system_flow_type_matches (e : FlowIndexEntry) (filter : option SystemFlowType) : bool :=
  match fie_flow_type e with
  | AnyFlowType_Dataset _ => false
  | AnyFlowType_System sft =>
      match filter with
      | Some flow_type_filter => bool_decide (flow_type_filter = sft)
      | None => true
      end
  end.

Definition flow_status_matches (e : FlowIndexEntry) (filter : option FlowStatus) : bool :=
  match filter with
  | Some flow_status_filter => bool_decide (flow_status_filter = fie_flow_status e)
  | None => true
  end.

Definition initiator_matches (e : FlowIndexEntry) (filter : option InitiatorFilter) : bool :=
  match filter with
  | None => true
  | Some InitiatorFilter_System => match fie_initiator e with None => true | Some _ => false end
  | Some (InitiatorFilter_Account filter_initiator) =>
      match fie_initiator e with
      | Some initiator => bool_decide (initiator ∈ filter_initiator)
      | None => false
      end
  end.

Definition matches_dataset_flow_filters (e : FlowIndexEntry) (filters : DatasetFlowFilters) : bool :=
  dataset_flow_type_matches e (dff_by_flow_type filters) &&
  flow_status_matches e (dff_by_flow_status filters) &&
  initiator_matches e (dff_by_initiator filters).

Definition matches_system_flow_filters (e : FlowIndexEntry) (filters : SystemFlowFilters) : bool :=
  system_flow_type_matches e (sff_by_flow_type filters) &&
  flow_status_matches e (sff_by_flow_status filters) &&
  initiator_matches e (sff_by_initiator filters).

(** * The state of the store *)

Record FlowStoreState := mkFlowStoreState {
  fss_events : list FlowEvent;
  fss_last_flow_id : option FlowID;
  fss_all_flows_by_dataset : gmap DatasetID (list FlowID);
  fss_all_system_flows : list FlowID;
  fss_all_flows : list FlowID;
  fss_flow_search_index : gmap FlowID FlowIndexEntry;
  fss_flow_key_by_flow_id : gmap FlowID FlowKey;
  fss_dataset_flow_last_run_stats : gmap FlowKeyDataset FlowRunStats;
  fss_system_flow_last_run_stats : gmap SystemFlowType FlowRunStats
}.

Definition FlowStoreState_default : FlowStoreState := mkFlowStoreState [] None ∅ [] [] ∅ ∅ ∅ ∅.

Definition next_flow_id (s : FlowStoreState) : FlowID * FlowStoreState :=
  let next_flow_id :=
    match fss_last_flow_id s with
    | Some last_flow_id => u64_add last_flow_id 1
    | None => 0%Z
    end in
  (next_flow_id,
   mkFlowStoreState (fss_events s) (Some next_flow_id) (fss_all_flows_by_dataset s)
     (fss_all_system_flows s) (fss_all_flows s) (fss_flow_search_index s)
     (fss_flow_key_by_flow_id s) (fss_dataset_flow_last_run_stats s)
     (fss_system_flow_last_run_stats s)).

Definition matches_dataset_flow (s : FlowStoreState) (filters : DatasetFlowFilters)
    (flow_id : FlowID) : bool :=
  match fss_flow_search_index s !! flow_id with
  | Some index_entry => matches_dataset_flow_filters index_entry filters
  | None => false
  end.

Definition matches_system_flow (s : FlowStoreState) (filters : SystemFlowFilters)
    (flow_id : FlowID) : bool :=
  match fss_flow_search_index s !! flow_id with
  | Some index_entry => matches_system_flow_filters index_entry filters
  | None => false
  end.

#[export] Instance flow_store_state : EventStoreState FlowEvent FlowStoreState := {|
  events_count s := length (fss_events s);
  get_events s := fss_events s;
  add_event s e :=
    mkFlowStoreState (fss_events s ++ [e]) (fss_last_flow_id s) (fss_all_flows_by_dataset s)
      (fss_all_system_flows s) (fss_all_flows s) (fss_flow_search_index s)
      (fss_flow_key_by_flow_id s) (fss_dataset_flow_last_run_stats s)
      (fss_system_flow_last_run_stats s)
|}.

#[export] Instance flow_store_state_lawful : LawfulEventStoreState FlowEvent FlowStoreState.
Proof. split; done. Qed.

(** The branch of [update_index] for [FlowEvent::Initiated]. *)
Definition index_initiated (s : FlowStoreState) (e : FlowEventInitiated) : FlowStoreState :=
  let id := fei_flow_id e in
  let entry := mkFlowIndexEntry (FlowKey_get_type (fei_flow_key e)) FlowStatus_Waiting
                 (FlowTrigger_initiator_account_id (fei_trigger e)) in
  mkFlowStoreState (fss_events s) (fss_last_flow_id s)
    (match fei_flow_key e with
     | FlowKey_Dataset k =>
         <[fkd_dataset_id k := default [] (fss_all_flows_by_dataset s !! fkd_dataset_id k) ++ [id]]>
           (fss_all_flows_by_dataset s)
     | FlowKey_System _ => fss_all_flows_by_dataset s
     end)
    (match fei_flow_key e with
     | FlowKey_Dataset _ => fss_all_system_flows s
     | FlowKey_System _ => fss_all_system_flows s ++ [id]
     end)
    (fss_all_flows s ++ [id])
    (<[id := entry]> (fss_flow_search_index s))
    (<[id := fei_flow_key e]> (fss_flow_key_by_flow_id s))
    (fss_dataset_flow_last_run_stats s) (fss_system_flow_last_run_stats s).

(** [get_mut(..).expect(..).flow_status = new_status] *)
Definition index_status (s : FlowStoreState) (flow_id : FlowID) (new_status : FlowStatus)
    : option FlowStoreState :=
  match fss_flow_search_index s !! flow_id with
  | Some x =>
      Some (mkFlowStoreState (fss_events s) (fss_last_flow_id s) (fss_all_flows_by_dataset s)
              (fss_all_system_flows s) (fss_all_flows s)
              (<[flow_id := mkFlowIndexEntry (fie_flow_type x) new_status (fie_initiator x)]>
                 (fss_flow_search_index s))
              (fss_flow_key_by_flow_id s) (fss_dataset_flow_last_run_stats s)
              (fss_system_flow_last_run_stats s))
  | None => None
  end.

(** [entry(key).and_modify(|stats| stats.merge(new)).or_insert(new)] *)
Definition merge_run_stats `{Countable K} (m : gmap K FlowRunStats) (key : K)
    (new_run_stats : FlowRunStats) : gmap K FlowRunStats :=
  <[key := match m !! key with
           | Some stats => FlowRunStats_merge stats new_run_stats
           | None => new_run_stats
           end]> m.

Definition index_run (s : FlowStoreState) (flow_key : FlowKey) (new_run_stats : FlowRunStats)
    : FlowStoreState :=
  mkFlowStoreState (fss_events s) (fss_last_flow_id s) (fss_all_flows_by_dataset s)
    (fss_all_system_flows s) (fss_all_flows s) (fss_flow_search_index s) (fss_flow_key_by_flow_id s)
    (match flow_key with
     | FlowKey_Dataset k => merge_run_stats (fss_dataset_flow_last_run_stats s) k new_run_stats
     | FlowKey_System _ => fss_dataset_flow_last_run_stats s
     end)
    (match flow_key with
     | FlowKey_Dataset _ => fss_system_flow_last_run_stats s
     | FlowKey_System k =>
         merge_run_stats (fss_system_flow_last_run_stats s) (fks_flow_type k) new_run_stats
     end).

Definition run_stats_of (e : FlowEventTaskFinished) : FlowRunStats :=
  mkFlowRunStats
    (if TaskOutcome_is_success (fetf_task_outcome e) then Some (fetf_event_time e) else None)
    (Some (fetf_event_time e)).

(** A panic is the [expect("Previously unseen flow ID")]. *)
Definition update_index (s : FlowStoreState) (event : FlowEvent)
    : res SaveEventsError unit * FlowStoreState :=
  match event with
  | FlowEvent_Initiated e => (Ok tt, index_initiated s e)
  | _ =>
      match FlowEvent_new_status event with
      | Some new_status =>
          match index_status s (FlowEvent_flow_id event) new_status with
          | Some s1 =>
              match event with
              | FlowEvent_TaskFinished e =>
                  match fss_flow_key_by_flow_id s1 !! fetf_flow_id e with
                  | Some flow_key => (Ok tt, index_run s1 flow_key (run_stats_of e))
                  | None => (Panic, s1)
                  end
              | _ => (Ok tt, s1)
              end
          | None => (Panic, s)
          end
      | None => (Ok tt, s)
      end
  end.

(** [for event in &events { Self::update_index(&mut g, event); }] *)
Fixpoint update_indexes (s : FlowStoreState) (events : list FlowEvent)
    : res SaveEventsError unit * FlowStoreState :=
  match events with
  | [] => (Ok tt, s)
  | event :: rest =>
      match update_index s event with
      | (Ok _, s1) => update_indexes s1 rest
      | (r, s1) => (r, s1)
      end
  end.

Record InMemoryFlowEventStore := mkInMemoryFlowEventStore { ifs_inner : FlowStoreState }.

Definition InMemoryFlowEventStore_new : InMemoryFlowEventStore :=
  mkInMemoryFlowEventStore FlowStoreState_default.

Definition flow_save_events (store : InMemoryFlowEventStore) (flow_id : FlowID)
    (events : list FlowEvent) : res SaveEventsError EventID * InMemoryFlowEventStore :=
  match update_indexes (ifs_inner store) events with
  | (Ok _, s1) =>
      let '(r, s2) := inmem_save_events s1 flow_id events in (r, mkInMemoryFlowEventStore s2)
  | (Err e, s1) => (Err e, mkInMemoryFlowEventStore s1)
  | (Panic, s1) => (Panic, mkInMemoryFlowEventStore s1)
  end.

#[export] Instance flow_event_store : EventStore FlowID FlowEvent InMemoryFlowEventStore := {|
  es_get_events store := inmem_get_events (ifs_inner store);
  es_save_events := flow_save_events;
  es_len store := events_count (ifs_inner store)
|}.

(** * Queries *)

Definition new_flow_id (store : InMemoryFlowEventStore) : FlowID * InMemoryFlowEventStore :=
  let '(id, s) := next_flow_id (ifs_inner store) in (id, mkInMemoryFlowEventStore s).

Definition get_dataset_flow_run_stats (store : InMemoryFlowEventStore) (dataset_id : DatasetID)
    (flow_type : DatasetFlowType) : FlowRunStats :=
  default FlowRunStats_default
    (fss_dataset_flow_last_run_stats (ifs_inner store) !! mkFlowKeyDataset dataset_id flow_type).

Definition get_system_flow_run_stats (store : InMemoryFlowEventStore) (flow_type : SystemFlowType)
    : FlowRunStats :=
  default FlowRunStats_default (fss_system_flow_last_run_stats (ifs_inner store) !! flow_type).

(** [skip(offset).take(limit)] *)
Definition page (p : FlowPaginationOpts) {A} (l : list A) : list A :=
  take (fpo_limit p) (drop (fpo_offset p) l).

Definition get_all_flow_ids_by_dataset (store : InMemoryFlowEventStore) (dataset_id : DatasetID)
    (filters : DatasetFlowFilters) (pagination : FlowPaginationOpts) : list FlowID :=
  let g := ifs_inner store in
  match fss_all_flows_by_dataset g !! dataset_id with
  | Some dataset_flow_ids =>
      page pagination (List.filter (matches_dataset_flow g filters) (rev dataset_flow_ids))
  | None => []
  end.

(** [filter_map] with the set [unique_initiators] threaded through. *)
Fixpoint unique_initiators (g : FlowStoreState) (seen : gset AccountID) (flow_ids : list FlowID)
    : list AccountID :=
  match flow_ids with
  | [] => []
  | flow_id :: rest =>
      match fss_flow_search_index g !! flow_id ≫= fie_initiator with
      | Some initiator_id =>
          if decide (initiator_id ∈ seen) then unique_initiators g seen rest
          else initiator_id :: unique_initiators g ({[initiator_id]} ∪ seen) rest
      | None => unique_initiators g seen rest
      end
  end.

Definition get_unique_flow_initiator_ids_by_dataset (store : InMemoryFlowEventStore)
    (dataset_id : DatasetID) : list AccountID :=
  match fss_all_flows_by_dataset (ifs_inner store) !! dataset_id with
  | Some dataset_flow_ids => unique_initiators (ifs_inner store) ∅ dataset_flow_ids
  | None => []
  end.

(** The [for flow_id in g.all_flows.iter().rev()] loop with its [break];
    [result] is kept in order. *)
Fixpoint by_datasets_loop (g : FlowStoreState) (dataset_ids : gset DatasetID)
    (filters : DatasetFlowFilters) (pagination : FlowPaginationOpts) (result : list FlowID)
    (total_count : nat) (flow_ids : list FlowID) : res unit (list FlowID) :=
  match flow_ids with
  | [] => Ok result
  | flow_id :: rest =>
      let! flow_key := unwrap (fss_flow_key_by_flow_id g !! flow_id) in
      match flow_key with
      | FlowKey_Dataset flow_key_dataset =>
          if bool_decide (fkd_dataset_id flow_key_dataset ∈ dataset_ids) &&
             matches_dataset_flow g filters flow_id
          then
            if decide (fpo_limit pagination <= length result) then Ok result
            else
              by_datasets_loop g dataset_ids filters pagination
                (if decide (fpo_offset pagination <= total_count) then result ++ [flow_id]
                 else result)
                (S total_count) rest
          else by_datasets_loop g dataset_ids filters pagination result total_count rest
      | FlowKey_System _ =>
          by_datasets_loop g dataset_ids filters pagination result total_count rest
      end
  end.

Definition get_all_flow_ids_by_datasets (store : InMemoryFlowEventStore)
    (dataset_ids : gset DatasetID) (filters : DatasetFlowFilters) (pagination : FlowPaginationOpts)
    : res unit (list FlowID) :=
  let g := ifs_inner store in
  by_datasets_loop g dataset_ids filters pagination [] 0 (rev (fss_all_flows g)).

Definition get_count_flows_by_dataset (store : InMemoryFlowEventStore) (dataset_id : DatasetID)
    (filters : DatasetFlowFilters) : nat :=
  let g := ifs_inner store in
  match fss_all_flows_by_dataset g !! dataset_id with
  | Some dataset_flow_ids => length (List.filter (matches_dataset_flow g filters) dataset_flow_ids)
  | None => 0
  end.

Definition get_all_system_flow_ids (store : InMemoryFlowEventStore) (filters : SystemFlowFilters)
    (pagination : FlowPaginationOpts) : list FlowID :=
  let g := ifs_inner store in
  page pagination (List.filter (matches_system_flow g filters) (rev (fss_all_system_flows g))).

Definition get_count_system_flows (store : InMemoryFlowEventStore) (filters : SystemFlowFilters)
    : nat :=
  let g := ifs_inner store in
  length (List.filter (matches_system_flow g filters) (fss_all_system_flows g)).

Definition get_all_flow_ids (store : InMemoryFlowEventStore) (pagination : FlowPaginationOpts)
    : list FlowID :=
  page pagination (rev (fss_all_flows (ifs_inner store))).

Definition get_count_all_flows (store : InMemoryFlowEventStore) : nat :=
  length (fss_all_flows (ifs_inner store)).

(** * What the index must say *)

(** What the events of one flow replay to. *)
Definition flow_in (evs : list FlowEvent) (id : FlowID) (o : option FlowState) : Prop :=
  replay None (List.filter (fun e => matches_query e id) evs) = Ok o.

Definition initiator_of (st : FlowState) : option AccountID :=
  head (fs_triggers st) ≫= FlowTrigger_initiator_account_id.

Definition entry_of (st : FlowState) : FlowIndexEntry :=
  mkFlowIndexEntry (FlowKey_get_type (fs_flow_key st)) (FlowState_status st) (initiator_of st).

(** The flows that were started, oldest first. *)
Definition initiated (evs : list FlowEvent) : list (FlowID * FlowKey) :=
  omap (fun e => match e with
                 | FlowEvent_Initiated i => Some (fei_flow_id i, fei_flow_key i)
                 | _ => None
                 end) evs.

Definition of_dataset (d : DatasetID) (x : FlowID * FlowKey) : option FlowID :=
  match x.2 with
  | FlowKey_Dataset k => if decide (fkd_dataset_id k = d) then Some x.1 else None
  | FlowKey_System _ => None
  end.

Definition of_system (x : FlowID * FlowKey) : option FlowID :=
  match x.2 with FlowKey_Dataset _ => None | FlowKey_System _ => Some x.1 end.

Definition dataset_flows (d : DatasetID) (evs : list FlowEvent) : list FlowID :=
  omap (of_dataset d) (initiated evs).
Definition system_flows (evs : list FlowEvent) : list FlowID := omap of_system (initiated evs).

Definition flow_key_in (evs : list FlowEvent) (id : FlowID) : option FlowKey :=
  match replay None (List.filter (fun e => matches_query e id) evs) with
  | Ok (Some st) => Some (fs_flow_key st)
  | _ => None
  end.

(** The runs of the flows with a key, oldest first. *)
Definition runs (evs : list FlowEvent) (k : FlowKey) : list FlowEventTaskFinished :=
  omap (fun e => match e with
                 | FlowEvent_TaskFinished f =>
                     if decide (flow_key_in evs (fetf_flow_id f) = Some k) then Some f else None
                 | _ => None
                 end) evs.

(** The times of the last run and of the last successful one. *)
Definition last_run_stats (l : list FlowEventTaskFinished) : FlowRunStats :=
  mkFlowRunStats
    (last (map fetf_event_time
             (List.filter (fun f => TaskOutcome_is_success (fetf_task_outcome f)) l)))
    (last (map fetf_event_time l)).

Definition system_key (t : SystemFlowType) : FlowKey := FlowKey_System (mkFlowKeySystem t).

#[export] Instance FlowKey_Dataset_inj : Inj (=) (=) FlowKey_Dataset.
Proof. intros ? ? H. by injection H. Qed.

#[export] Instance system_key_inj : Inj (=) (=) system_key.
Proof. by intros [] []. Qed.

Definition stats_agree `{Countable K} (evs : list FlowEvent) (m : gmap K FlowRunStats)
    (mk : K -> FlowKey) : Prop :=
  forall k, default FlowRunStats_default (m !! k) = last_run_stats (runs evs (mk k)).

(** The index agrees with the events [evs]. *)
Record index_agrees (evs : list FlowEvent) (s : FlowStoreState) : Prop := {
  ia_replays : forall id, exists o, flow_in evs id o;
  ia_entry : forall id o, flow_in evs id o -> fss_flow_search_index s !! id = entry_of <$> o;
  ia_key : forall id o, flow_in evs id o -> fss_flow_key_by_flow_id s !! id = fs_flow_key <$> o;
  ia_all : fss_all_flows s = map fst (initiated evs);
  ia_dataset : forall d, default [] (fss_all_flows_by_dataset s !! d) = dataset_flows d evs;
  ia_system : fss_all_system_flows s = system_flows evs;
  ia_dataset_stats : stats_agree evs (fss_dataset_flow_last_run_stats s) FlowKey_Dataset;
  ia_system_stats : stats_agree evs (fss_system_flow_last_run_stats s)
    system_key
}.

(** ** Flows keep their identity *)

Lemma flow_apply_keeps s e s' :
  FlowState_apply (Some s) e = Ok s' ->
  fs_flow_id s' = fs_flow_id s /\ FlowEvent_flow_id e = fs_flow_id s /\
  fs_flow_key s' = fs_flow_key s /\ fs_config_snapshot s' = fs_config_snapshot s /\
  (fs_triggers s <> [] -> initiator_of s' = initiator_of s) /\
  (forall i, e <> FlowEvent_Initiated i).
Proof.
  unfold FlowState_apply, initiator_of. intros H. case_decide as Hid; [done|].
  assert (FlowEvent_flow_id e = fs_flow_id s) by (destruct (decide (fs_flow_id s = FlowEvent_flow_id e)); naive_solver).
  clear Hid. destruct e; repeat (case_match; simplify_eq/=); simplify_eq/=;
    split_and!; try done; by destruct (fs_triggers s).
Qed.

Lemma flow_apply_new e s' :
  FlowState_apply None e = Ok s' ->
  exists i, e = FlowEvent_Initiated i /\ fs_flow_id s' = fei_flow_id i /\
    fs_flow_key s' = fei_flow_key i /\ FlowState_status s' = FlowStatus_Waiting /\
    initiator_of s' = FlowTrigger_initiator_account_id (fei_trigger i).
Proof. destruct e as [i| | | | | |]; intros; simplify_eq/=. by exists i. Qed.

Lemma flow_in_unique evs id o o' : flow_in evs id o -> flow_in evs id o' -> o = o'.
Proof. unfold flow_in. congruence. Qed.

Lemma flow_in_wf evs id st : flow_in evs id (Some st) -> flow_wf st.
Proof.
  intros H. eapply (replay_invariant flow_wf _ None); [|done|exact H|done].
  intros ? ? ?. apply flow_apply_wf.
Qed.

Lemma flow_replay_id s es st :
  replay s es = Ok (Some st) -> (forall x, s = Some x -> fs_flow_id x = fs_flow_id st) /\
  Forall (fun e => FlowEvent_flow_id e = fs_flow_id st) es.
Proof.
  revert s; induction es as [|e es IH]; intros s H; simpl in H.
  - simplify_eq. split; [|constructor]. by intros x [= <-].
  - apply res_bind_ok in H as (s1 & Hs1 & H). destruct (IH _ H) as [H1 H2].
    specialize (H1 _ eq_refl). destruct s as [x|].
    + apply flow_apply_keeps in Hs1 as (Hid & He & _). split; [|constructor; [congruence|done]].
      intros ? [= <-]. congruence.
    + split; [done|]. constructor; [|done].
      apply flow_apply_new in Hs1 as (i & -> & Hid & _). simpl in *. congruence.
Qed.

Lemma flow_in_id evs id st : flow_in evs id (Some st) -> fs_flow_id st = id.
Proof.
  intros H. pose proof (flow_replay_id _ _ _ H) as [_ Hall]. unfold flow_in in H.
  destruct (List.filter _ evs) as [|e es] eqn:Hf; [done|].
  assert (Hin : In e (List.filter (fun e => matches_query e id) evs)) by (rewrite Hf; by left).
  apply filter_In in Hin as [_ Hm]. simpl in Hm. apply bool_decide_eq_true in Hm.
  inversion Hall; subst. congruence.
Qed.

(** One more event advances its own flow only. *)
Lemma flow_in_snoc evs e o st' :
  flow_in evs (FlowEvent_flow_id e) o -> FlowState_apply o e = Ok st' ->
  flow_in (evs ++ [e]) (FlowEvent_flow_id e) (Some st') /\
  (forall id o', id <> FlowEvent_flow_id e -> flow_in (evs ++ [e]) id o' <-> flow_in evs id o').
Proof.
  intros Ho Ha. unfold flow_in in *. split.
  - rewrite List.filter_app. simpl List.filter at 2. rewrite bool_decide_eq_true_2 by done.
    rewrite replay_snoc, Ho. simpl. by rewrite Ha.
  - intros id o' Hne. rewrite List.filter_app. simpl List.filter at 2.
    rewrite bool_decide_eq_false_2 by congruence. by rewrite app_nil_r.
Qed.

Lemma flow_in_event evs e o : e ∈ evs -> flow_in evs (FlowEvent_flow_id e) o -> is_Some o.
Proof.
  intros He. unfold flow_in. destruct o as [st|]; [by eexists|].
  destruct (List.filter _ evs) as [|x es] eqn:Hf.
  - assert (Hin : In e (List.filter (fun x => matches_query x (FlowEvent_flow_id e)) evs)).
    { apply filter_In. split; [by apply list_elem_of_In|]. simpl. by apply bool_decide_eq_true_2. }
    by rewrite Hf in Hin.
  - simpl. intros H. apply res_bind_ok in H as (s & _ & H).
    apply (replay_some_some (Q := FlowID)) in H. done.
Qed.

Lemma flow_key_in_eq evs id o : flow_in evs id o -> flow_key_in evs id = fs_flow_key <$> o.
Proof. unfold flow_in, flow_key_in. intros ->. by destruct o. Qed.

(** ** Indexing one event *)

Lemma initiated_snoc evs e : initiated (evs ++ [e]) = initiated evs ++ initiated [e].
Proof. apply omap_app. Qed.

(** An event keeps the key of every flow that had one. *)
Lemma flow_key_in_snoc evs e o st' id :
  flow_in evs (FlowEvent_flow_id e) o -> FlowState_apply o e = Ok st' ->
  (exists oid, flow_in evs id oid /\ is_Some oid) ->
  flow_key_in (evs ++ [e]) id = flow_key_in evs id.
Proof.
  intros Ho Ha (oid & Hid & [sid ->]). destruct (flow_in_snoc _ _ _ _ Ho Ha) as [Hnew Hold].
  rewrite (flow_key_in_eq _ _ _ Hid). destruct (decide (id = FlowEvent_flow_id e)) as [->|Hne].
  - rewrite (flow_key_in_eq _ _ _ Hnew). pose proof (flow_in_unique _ _ _ _ Ho Hid) as ->.
    apply flow_apply_keeps in Ha as (_ & _ & Hk & _). simpl. by rewrite Hk.
  - apply Hold in Hid; [|done]. by rewrite (flow_key_in_eq _ _ _ Hid).
Qed.

Lemma runs_snoc evs e o st' k :
  (forall id, exists o, flow_in evs id o) ->
  flow_in evs (FlowEvent_flow_id e) o -> FlowState_apply o e = Ok st' ->
  runs (evs ++ [e]) k =
  runs evs k ++ match e with
                | FlowEvent_TaskFinished f => if decide (fs_flow_key st' = k) then [f] else []
                | _ => []
                end.
Proof.
  intros Hr Ho Ha. unfold runs. rewrite omap_app. f_equal.
  - apply list_omap_ext. apply Forall2_same_length_lookup. split; [done|].
    intros i x y Hx Hy. rewrite Hx in Hy. injection Hy as <-. apply list_elem_of_lookup_2 in Hx.
    destruct x as [| | | | |f|]; try done.
    destruct (Hr (fetf_flow_id f)) as [o' Hof].
    rewrite (flow_key_in_snoc _ _ _ _ _ Ho Ha); [done|]. exists o'. split; [done|].
    exact (flow_in_event _ _ _ Hx Hof).
  - destruct (flow_in_snoc _ _ _ _ Ho Ha) as [Hnew _].
    destruct e as [| | | | |f|]; try done. simpl.
    change (fetf_flow_id f) with (FlowEvent_flow_id (FlowEvent_TaskFinished f)).
    rewrite (flow_key_in_eq _ _ _ Hnew). simpl. repeat case_decide; congruence.
Qed.

(** The statistics of one more run. *)
Lemma last_run_stats_snoc l f :
  last_run_stats (l ++ [f]) = FlowRunStats_merge (last_run_stats l) (run_stats_of f).
Proof.
  unfold last_run_stats, FlowRunStats_merge, run_stats_of. simpl.
  rewrite map_app, List.filter_app, map_app. simpl. rewrite last_snoc. f_equal.
  destruct (TaskOutcome_is_success (fetf_task_outcome f)); simpl; [by rewrite last_snoc|].
  by rewrite app_nil_r.
Qed.

Lemma merge_run_stats_lookup `{Countable K} (m : gmap K FlowRunStats) k k' n :
  default FlowRunStats_default (merge_run_stats m k n !! k') =
  if decide (k = k')
  then FlowRunStats_merge (default FlowRunStats_default (m !! k')) n
  else default FlowRunStats_default (m !! k').
Proof.
  unfold merge_run_stats. case_decide as Hk; [subst k'; rewrite lookup_insert_eq|by rewrite lookup_insert_ne].
  destruct (m !! k); [done|]. simpl. unfold FlowRunStats_merge. destruct n as [[] []]; done.
Qed.

(** An accepted event is indexed without a panic; the entry and the key of its
    flow become those of its new state. *)
Lemma update_index_ok evs s e o st' :
  index_agrees evs s -> flow_in evs (FlowEvent_flow_id e) o -> FlowState_apply o e = Ok st' ->
  exists s', update_index s e = (Ok tt, s') /\
    fss_events s' = fss_events s /\ fss_last_flow_id s' = fss_last_flow_id s /\
    fss_flow_search_index s' = <[FlowEvent_flow_id e := entry_of st']> (fss_flow_search_index s) /\
    fss_flow_key_by_flow_id s' =
      <[FlowEvent_flow_id e := fs_flow_key st']> (fss_flow_key_by_flow_id s) /\
    fss_all_flows s' = fss_all_flows s ++ map fst (initiated [e]) /\
    (forall d, default [] (fss_all_flows_by_dataset s' !! d) =
               default [] (fss_all_flows_by_dataset s !! d) ++ dataset_flows d [e]) /\
    fss_all_system_flows s' = fss_all_system_flows s ++ system_flows [e] /\
    (fss_dataset_flow_last_run_stats s', fss_system_flow_last_run_stats s') =
    match e, fs_flow_key st' with
    | FlowEvent_TaskFinished f, FlowKey_Dataset k =>
        (merge_run_stats (fss_dataset_flow_last_run_stats s) k (run_stats_of f),
         fss_system_flow_last_run_stats s)
    | FlowEvent_TaskFinished f, FlowKey_System k =>
        (fss_dataset_flow_last_run_stats s,
         merge_run_stats (fss_system_flow_last_run_stats s) (fks_flow_type k) (run_stats_of f))
    | _, _ => (fss_dataset_flow_last_run_stats s, fss_system_flow_last_run_stats s)
    end.
Proof.
  intros Hag Ho Ha. destruct o as [st|].
  - pose proof (ia_entry _ _ Hag _ _ Ho) as He. pose proof (ia_key _ _ Hag _ _ Ho) as Hk.
    simpl in He, Hk. pose proof (flow_in_wf _ _ _ Ho) as Hwf.
    destruct (flow_apply_keeps _ _ _ Ha) as (_ & _ & Hkey & _ & Hini & Hni).
    specialize (Hini (fw_triggers _ Hwf)).
    assert (Hst := flow_new_status (Some st) e st').
    specialize (Hst ltac:(by intros ? [= <-]) Ha).
    assert (Hent : forall x, FlowState_status st' = x ->
              mkFlowIndexEntry (FlowKey_get_type (fs_flow_key st)) x (initiator_of st) = entry_of st').
    { intros x <-. unfold entry_of. by rewrite Hkey, Hini. }
    clear Ha. destruct e as [i|e|e|e|e|e|e]; [by destruct (Hni i)|..]; simpl in *;
      unfold index_status; rewrite ?He; cbn [entry_of fie_flow_type fie_initiator] in *;
      rewrite ?(Hent _ Hst); simpl; rewrite ?Hk, ?Hkey.
    1-3: destruct Hst as (x & [= <-] & Hst);
      eexists; split; [done|]; rewrite !insert_id, !app_nil_r by
        (rewrite ?He, ?Hk; first [done | f_equal; by apply Hent]);
      split_and!; try done; intros; by rewrite app_nil_r.
    all: eexists; split; [done|]; simpl; rewrite !app_nil_r, (insert_id (fss_flow_key_by_flow_id s))
      by done; split_and!; try done; try (intros; by rewrite app_nil_r).
    by destruct (fs_flow_key st).
  - apply flow_apply_new in Ha as (i & -> & Hid & Hk & Hs & Hi). simpl.
    eexists; split; [done|]. simpl. unfold entry_of. rewrite Hk, Hs, Hi.
    split_and!; try done.
    + intros d. unfold dataset_flows. simpl. unfold of_dataset. simpl.
      destruct (fei_flow_key i) as [k|k]; [|by rewrite app_nil_r].
      case_decide as Hd; [subst d; by rewrite lookup_insert_eq|].
      rewrite lookup_insert_ne by done. by rewrite app_nil_r.
    + unfold system_flows. simpl. unfold of_system. simpl.
      destruct (fei_flow_key i); [by rewrite app_nil_r|done].
Qed.

Section Stats.
Context `{Countable K} (evs : list FlowEvent) (o : option FlowState) (st' : FlowState)
        (m : gmap K FlowRunStats) (mk : K -> FlowKey) `{!Inj (=) (=) mk}.
Context (Hr : forall id, exists o, flow_in evs id o) (Hm : stats_agree evs m mk).

Lemma stats_agree_run f k :
  flow_in evs (fetf_flow_id f) o -> FlowState_apply o (FlowEvent_TaskFinished f) = Ok st' ->
  fs_flow_key st' = mk k ->
  stats_agree (evs ++ [FlowEvent_TaskFinished f]) (merge_run_stats m k (run_stats_of f)) mk.
Proof.
  intros Ho Ha Hk k'. rewrite merge_run_stats_lookup.
  rewrite (runs_snoc evs (FlowEvent_TaskFinished f) o st') by done. rewrite Hk, Hm.
  destruct (decide (k = k')) as [->|Hne].
  - rewrite decide_True by done. by rewrite last_run_stats_snoc.
  - rewrite decide_False by (intros ?%(inj mk); done). by rewrite app_nil_r.
Qed.

Lemma stats_agree_same e :
  flow_in evs (FlowEvent_flow_id e) o -> FlowState_apply o e = Ok st' ->
  (forall f k, e = FlowEvent_TaskFinished f -> fs_flow_key st' <> mk k) ->
  stats_agree (evs ++ [e]) m mk.
Proof.
  intros Ho Ha Hk k. rewrite (runs_snoc evs e o st') by done. rewrite Hm.
  destruct e; rewrite ?app_nil_r; try done. rewrite decide_False by eauto. by rewrite app_nil_r.
Qed.
End Stats.

Lemma index_step evs s e o st' :
  index_agrees evs s -> flow_in evs (FlowEvent_flow_id e) o -> FlowState_apply o e = Ok st' ->
  exists s', update_index s e = (Ok tt, s') /\ index_agrees (evs ++ [e]) s' /\
    fss_events s' = fss_events s /\ fss_last_flow_id s' = fss_last_flow_id s.
Proof.
  intros Hag Ho Ha.
  destruct (update_index_ok _ _ _ _ _ Hag Ho Ha)
    as (s' & Hu & Hev & Hl & Hix & Hkx & Hall & Hds & Hsys & Hstats).
  destruct (flow_in_snoc _ _ _ _ Ho Ha) as [Hnew Hold].
  exists s'. split; [done|]. split; [|done]. destruct Hag as [H1 H2 H3 H4 H5 H6 H7 H8]. split.
  - intros id. destruct (decide (id = FlowEvent_flow_id e)) as [->|Hne]; [by eexists|].
    destruct (H1 id) as [o' Ho']. exists o'. by apply Hold.
  - intros id o' Ho'. rewrite Hix. destruct (decide (id = FlowEvent_flow_id e)) as [->|Hne].
    + pose proof (flow_in_unique _ _ _ _ Ho' Hnew) as ->. by rewrite lookup_insert_eq.
    + rewrite lookup_insert_ne by done. apply H2. by apply Hold.
  - intros id o' Ho'. rewrite Hkx. destruct (decide (id = FlowEvent_flow_id e)) as [->|Hne].
    + pose proof (flow_in_unique _ _ _ _ Ho' Hnew) as ->. by rewrite lookup_insert_eq.
    + rewrite lookup_insert_ne by done. apply H3. by apply Hold.
  - by rewrite Hall, H4, initiated_snoc, map_app.
  - intros d. rewrite Hds, H5. unfold dataset_flows. by rewrite initiated_snoc, omap_app.
  - rewrite Hsys, H6. unfold system_flows. by rewrite initiated_snoc, omap_app.
  - destruct e as [| | | | |f|]; 
      try (injection Hstats as Hd Hs; rewrite ?Hd, ?Hs; eapply stats_agree_same; [eauto..|done]).
    destruct (fs_flow_key st') as [k'|k'] eqn:Hk.
    + injection Hstats as -> ?. eapply stats_agree_run; [apply _|..]; eauto.
    + injection Hstats as -> ?. eapply stats_agree_same; eauto. intros ? ? _. by rewrite Hk.
  - destruct e as [| | | | |f|]; 
      try (injection Hstats as Hd Hs; rewrite ?Hd, ?Hs; eapply stats_agree_same; [eauto..|done]).
    destruct (fs_flow_key st') as [k'|[k']] eqn:Hk.
    + injection Hstats as ? ->. eapply stats_agree_same; eauto. intros ? ? _. by rewrite Hk.
    + injection Hstats as ? ->. eapply stats_agree_run; [apply _|..]; eauto.
Qed.

(** ** Saving events *)

Lemma index_steps evs s es id o st' :
  index_agrees evs s -> flow_in evs id o -> Forall (fun e => matches_query e id = true) es ->
  replay o es = Ok st' ->
  exists s', update_indexes s es = (Ok tt, s') /\ index_agrees (evs ++ es) s' /\
    fss_events s' = fss_events s /\ fss_last_flow_id s' = fss_last_flow_id s.
Proof.
  revert evs s o; induction es as [|e es IH]; intros evs s o Hag Ho Hall Hr; simpl in Hr.
  { exists s. by rewrite app_nil_r. }
  apply res_bind_ok in Hr as (s1 & Hs1 & Hr). apply Forall_cons in Hall as [He Hall].
  simpl in He. apply bool_decide_eq_true in He. subst id.
  destruct (index_step _ _ _ _ _ Hag Ho Hs1) as (s2 & Hu & Hag2 & Hev & Hl).
  destruct (IH (evs ++ [e]) s2 (Some s1)) as (s3 & Hu3 & Hag3 & Hev3 & Hl3); [done| |done..|].
  { exact (proj1 (flow_in_snoc _ _ _ _ Ho Hs1)). }
  exists s3. simpl. rewrite Hu. rewrite <- app_assoc in Hag3. split_and!; try done; congruence.
Qed.

(** Storing events does not touch the index. *)
Lemma index_agrees_stored evs s es :
  index_agrees evs s -> index_agrees evs (fold_left add_event es s) /\
  fss_last_flow_id (fold_left add_event es s) = fss_last_flow_id s.
Proof.
  revert s; induction es as [|e es IH]; intros s Hag; [done|]. simpl.
  destruct (IH (add_event s e)) as [H1 H2]; [by destruct Hag|]. done.
Qed.

(** The index of the store agrees with its events, and no id was used that was
    not handed out. *)
Record flow_store_ok (store : InMemoryFlowEventStore) : Prop := {
  fso_index : index_agrees (fss_events (ifs_inner store)) (ifs_inner store);
  fso_ids : forall e, e ∈ fss_events (ifs_inner store) ->
    exists last, fss_last_flow_id (ifs_inner store) = Some last /\
      (0 <= FlowEvent_flow_id e <= last)%Z;
  fso_last : forall last, fss_last_flow_id (ifs_inner store) = Some last -> (0 <= last)%Z
}.

Definition flow_at (store : InMemoryFlowEventStore) (id : FlowID) (o : option FlowState) : Prop :=
  flow_in (fss_events (ifs_inner store)) id o.

(** The id was handed out by this store. *)
Definition issued (store : InMemoryFlowEventStore) (id : FlowID) : Prop :=
  exists last, fss_last_flow_id (ifs_inner store) = Some last /\ (0 <= id <= last)%Z.

Lemma flow_store_ok_new : flow_store_ok InMemoryFlowEventStore_new.
Proof.
  split; [split|..]; try done.
  - intros id. by exists None.
  - intros id o. unfold flow_in. simpl. intros [= <-]. done.
  - intros id o. unfold flow_in. simpl. intros [= <-]. done.
  - by intros e ?%elem_of_nil.
Qed.

Lemma flow_at_total store id : flow_store_ok store -> exists o, flow_at store id o.
Proof. intros [H _ _]. apply H. Qed.

Lemma flow_load store id st :
  flow_at store id (Some st) ->
  exists a, Aggregate_load id store = Ok a /\ synced (ifs_inner store) a /\
    agg_state a = Some st /\ agg_query a = id /\ agg_pending_events a = [].
Proof. exact (load_state_at (ifs_inner store) id st). Qed.

Lemma flow_load_missing store id :
  flow_at store id None -> Aggregate_load id store = Err (LoadError_NotFound id).
Proof. exact (load_state_missing (ifs_inner store) id). Qed.

Lemma flow_at_issued store id st :
  flow_store_ok store -> flow_at store id (Some st) -> issued store id.
Proof.
  intros [_ Hids _] Hst. unfold flow_at, flow_in in Hst.
  destruct (List.filter _ _) as [|e es] eqn:Hf; [done|].
  assert (Hin : In e (List.filter (fun e => matches_query e id) (fss_events (ifs_inner store))))
    by (rewrite Hf; by left).
  apply filter_In in Hin as [Hin Hm]. simpl in Hm. apply bool_decide_eq_true in Hm. subst id.
  apply Hids. by apply list_elem_of_In.
Qed.

(** Saving an aggregate that is in step with the store succeeds, keeps the
    index, and changes no other flow. *)
Lemma flow_save store (a : Flow) :
  flow_store_ok store -> synced (ifs_inner store) a -> issued store (agg_query a) ->
  exists a' store', Aggregate_save a store = (Ok tt, a', store') /\
    flow_store_ok store' /\ synced (ifs_inner store') a' /\
    agg_state a' = agg_state a /\ agg_pending_events a' = [] /\ agg_query a' = agg_query a /\
    flow_at store' (agg_query a) (agg_state a) /\
    (forall id o, id <> agg_query a -> flow_at store' id o <-> flow_at store id o) /\
    fss_events (ifs_inner store') = fss_events (ifs_inner store) ++ agg_pending_events a /\
    fss_last_flow_id (ifs_inner store') = fss_last_flow_id (ifs_inner store).
Proof.
  intros [Hag Hids Hnn] Hsy (last & Hlast & Hrange).
  pose proof (sy_state _ _ Hsy) as Hst. rewrite replay_app in Hst.
  apply res_bind_ok in Hst as (o & Ho & Hst). pose proof (sy_pending _ _ Hsy) as Hall.
  destruct (index_steps _ _ _ _ _ _ Hag Ho Hall Hst) as (s1 & Hu & Hag1 & Hev1 & Hl1).
  assert (Hsy1 : synced s1 a).
  { destruct Hsy as [H1 H2 H3 H4]. split; try done.
    - by simpl; rewrite Hev1.
    - unfold history. simpl. rewrite Hev1. exact H2. }
  destruct (Aggregate_save a s1) as [[r a'] s2] eqn:Hsave.
  pose proof (fun q => save_frame _ _ _ _ _ q Hsy1 Hsave) as Hframe.
  destruct (save_synced _ _ _ _ _ Hsy1 Hsave) as (-> & Hsy2 & Has & Hp & Hq & Hev2).
  assert (Hs2 : Aggregate_save a store = (Ok tt, a', mkInMemoryFlowEventStore s2) /\
            s2 = fold_left add_event (agg_pending_events a) s1).
  { revert Hsave. unfold Aggregate_save. destruct (agg_pending_events a) as [|e es] eqn:Hpa.
    - intros; simplify_eq/=. by destruct store.
    - cbn [es_save_events in_memory_event_store flow_event_store]. unfold flow_save_events.
      rewrite Hu. unfold inmem_save_events. case_decide; intros; by simplify_eq. }
  destruct Hs2 as [Hs2 Hfold]. simpl in Hev2. rewrite Hev1 in Hev2.
  destruct (index_agrees_stored _ s1 (agg_pending_events a) Hag1) as [Hag2 Hl2].
  exists a', (mkInMemoryFlowEventStore s2). simpl. rewrite <- Hfold in Hag2, Hl2.
  split; [done|]. split.
  { split; simpl; [by rewrite Hev2| |by rewrite Hl2, Hl1].
    rewrite Hev2, Hl2, Hl1. intros e [He|He]%elem_of_app; [by apply Hids|].
    exists last. split; [done|]. rewrite Forall_forall in Hall. specialize (Hall e He).
    simpl in Hall. apply bool_decide_eq_true in Hall. by rewrite Hall. }
  split_and!; try done; [| |congruence].
  - rewrite <- Has, <- Hq. exact (synced_state_at _ _ Hsy2 Hp).
  - intros id o' Hne. unfold flow_at, flow_in. simpl.
    assert (Hh : history s2 id = history s1 id).
    { apply Hframe. simpl. intros e He%bool_decide_eq_true. apply bool_decide_eq_false_2. congruence. }
    unfold history in Hh. simpl in Hh. by rewrite Hh, Hev1.
Qed.

(** Ids are not exhausted. *)
Definition flow_id_room (store : InMemoryFlowEventStore) : Prop :=
  forall last, fss_last_flow_id (ifs_inner store) = Some last -> (0 <= last < two64 - 1)%Z.

Definition flow_ids_used (store : InMemoryFlowEventStore) : nat :=
  match fss_last_flow_id (ifs_inner store) with
  | Some last => Datatypes.S (Z.to_nat last)
  | None => 0
  end.

(** A new id has not been used. *)
Lemma new_flow_id_ok store id store' :
  flow_store_ok store -> flow_id_room store -> new_flow_id store = (id, store') ->
  flow_store_ok store' /\ issued store' id /\ flow_at store' id None /\
  (forall id' o, flow_at store' id' o <-> flow_at store id' o) /\
  ~ issued store id /\ (forall id', issued store id' -> issued store' id').
Proof.
  intros [Hag Hids Hnn] Hroom [= <- <-]. unfold next_flow_id.
  set (new := match fss_last_flow_id (ifs_inner store) with Some l => _ | None => _ end).
  assert (Hnew : (0 <= new)%Z /\ forall l, fss_last_flow_id (ifs_inner store) = Some l -> (0 <= l < new)%Z).
  { unfold new. destruct (fss_last_flow_id (ifs_inner store)) as [l|] eqn:Hl; [|done].
    specialize (Hroom l Hl). rewrite u64_add_small by lia. split; [lia|]. intros ? [= <-]. lia. }
  destruct Hnew as [Hpos Hnew]. split_and!.
  - split; [by destruct Hag| |by intros ? [= <-]]. simpl. intros e He. destruct (Hids e He) as (l & Hl & ?).
    exists new. split; [done|]. specialize (Hnew l Hl). lia.
  - exists new. simpl. split; [done|lia].
  - unfold flow_at, flow_in. cbn [ifs_inner fss_events].
    assert (List.filter (fun e => matches_query e new) (fss_events (ifs_inner store)) = []) as ->; [|done].
    destruct (List.filter _ _) as [|e es] eqn:Hf; [done|]. exfalso.
    assert (Hin : In e (List.filter (fun e => matches_query e new) (fss_events (ifs_inner store))))
      by (rewrite Hf; by left).
    apply filter_In in Hin as [Hin Hm]. simpl in Hm. apply bool_decide_eq_true in Hm.
    destruct (Hids e) as (l & Hl & ?); [by apply list_elem_of_In|]. specialize (Hnew l Hl). lia.
  - done.
  - intros (l & Hl & ?). specialize (Hnew l Hl). lia.
  - intros id' (l & Hl & ?). exists new. split; [done|]. specialize (Hnew l Hl). lia.
Qed.

(** ** Listings *)

Definition initiator_filter (f : option InitiatorFilter) (st : FlowState) : Prop :=
  match f with
  | None => True
  | Some InitiatorFilter_System => initiator_of st = None
  | Some (InitiatorFilter_Account ids) => exists a, initiator_of st = Some a /\ a ∈ ids
  end.

(** What the filters ask of a flow. *)
Definition dataset_filter (f : DatasetFlowFilters) (st : FlowState) : Prop :=
  (exists k, fs_flow_key st = FlowKey_Dataset k /\
     forall t, dff_by_flow_type f = Some t -> fkd_flow_type k = t) /\
  (forall x, dff_by_flow_status f = Some x -> FlowState_status st = x) /\
  initiator_filter (dff_by_initiator f) st.

Definition system_filter (f : SystemFlowFilters) (st : FlowState) : Prop :=
  (exists k, fs_flow_key st = FlowKey_System k /\
     forall t, sff_by_flow_type f = Some t -> fks_flow_type k = t) /\
  (forall x, sff_by_flow_status f = Some x -> FlowState_status st = x) /\
  initiator_filter (sff_by_initiator f) st.

Lemma initiator_matches_spec st f : initiator_matches (entry_of st) f = true <-> initiator_filter f st.
Proof.
  unfold initiator_matches, initiator_filter, entry_of. simpl. destruct f as [[|ids]|]; [|..|done];
    destruct (initiator_of st) as [a|]; rewrite ?bool_decide_eq_true; naive_solver.
Qed.

Lemma status_matches_spec st f :
  flow_status_matches (entry_of st) f = true <-> forall x, f = Some x -> FlowState_status st = x.
Proof.
  unfold flow_status_matches. simpl. destruct f; rewrite ?bool_decide_eq_true; naive_solver.
Qed.

Lemma matches_dataset_spec store f id st :
  flow_store_ok store -> flow_at store id (Some st) ->
  matches_dataset_flow (ifs_inner store) f id = true <-> dataset_filter f st.
Proof.
  intros [Hag _ _] Hst. unfold matches_dataset_flow. rewrite (ia_entry _ _ Hag _ _ Hst). simpl.
  unfold matches_dataset_flow_filters, dataset_filter.
  rewrite !andb_true_iff, initiator_matches_spec, status_matches_spec.
  assert (dataset_flow_type_matches (entry_of st) (dff_by_flow_type f) = true <->
    exists k, fs_flow_key st = FlowKey_Dataset k /\
      forall t, dff_by_flow_type f = Some t -> fkd_flow_type k = t) as ->; [|tauto].
  unfold dataset_flow_type_matches. simpl.
  destruct (fs_flow_key st), (dff_by_flow_type f); simpl; rewrite ?bool_decide_eq_true; naive_solver.
Qed.

Lemma matches_system_spec store f id st :
  flow_store_ok store -> flow_at store id (Some st) ->
  matches_system_flow (ifs_inner store) f id = true <-> system_filter f st.
Proof.
  intros [Hag _ _] Hst. unfold matches_system_flow. rewrite (ia_entry _ _ Hag _ _ Hst). simpl.
  unfold matches_system_flow_filters, system_filter.
  rewrite !andb_true_iff, initiator_matches_spec, status_matches_spec.
  assert (system_flow_type_matches (entry_of st) (sff_by_flow_type f) = true <->
    exists k, fs_flow_key st = FlowKey_System k /\
      forall t, sff_by_flow_type f = Some t -> fks_flow_type k = t) as ->; [|tauto].
  unfold system_flow_type_matches. simpl.
  destruct (fs_flow_key st) as [k|k]; simpl; [split; [done|by intros (? & ? & _)]|].
  split; [|by destruct (sff_by_flow_type f) as [[]|], (fks_flow_type k)].
  intros _. exists k. split; [done|]. intros [] _. by destruct (fks_flow_type k).
Qed.

Lemma default_nil {A} (o : option (list A)) (l : list A) :
  default [] o = l -> match o with Some x => x = l | None => l = [] end.
Proof. by destruct o. Qed.

Lemma page_nil {A} p : page p (@nil A) = [].
Proof. unfold page. by rewrite drop_nil, take_nil. Qed.

(** Flows of a dataset, newest first, and their number. *)
Lemma dataset_listing store d f p :
  flow_store_ok store ->
  let sel := matches_dataset_flow (ifs_inner store) f in
  let ids := dataset_flows d (fss_events (ifs_inner store)) in
  get_all_flow_ids_by_dataset store d f p = page p (List.filter sel (rev ids)) /\
  get_count_flows_by_dataset store d f = length (List.filter sel ids).
Proof.
  intros [Hag _ _] sel ids. unfold get_all_flow_ids_by_dataset, get_count_flows_by_dataset.
  pose proof (default_nil _ _ (ia_dataset _ _ Hag d)) as H. fold ids in H.
  destruct (fss_all_flows_by_dataset (ifs_inner store) !! d); rewrite H; [done|].
  simpl. by rewrite page_nil.
Qed.

(** Every started flow has a state. *)
Lemma initiated_at store id k :
  flow_store_ok store -> (id, k) ∈ initiated (fss_events (ifs_inner store)) ->
  exists st, flow_at store id (Some st).
Proof.
  intros Hok (e & He & Hi)%list_elem_of_omap. destruct e as [i| | | | | |]; simplify_eq/=.
  destruct (flow_at_total store (fei_flow_id i) Hok) as [o Ho].
  destruct (flow_in_event _ (FlowEvent_Initiated i) _ He Ho) as [st ->]. eauto.
Qed.

Definition in_datasets (g : FlowStoreState) (ids : gset DatasetID) (f : DatasetFlowFilters)
    (id : FlowID) : bool :=
  match fss_flow_key_by_flow_id g !! id with
  | Some (FlowKey_Dataset k) =>
      bool_decide (fkd_dataset_id k ∈ ids) && matches_dataset_flow g f id
  | _ => false
  end.

(** A full page does not grow. *)
Lemma page_full {A} p (l l' : list A) :
  fpo_limit p <= length (page p l) -> page p (l ++ l') = page p l.
Proof.
  unfold page. rewrite length_take, length_drop. intros H.
  destruct (decide (fpo_limit p = 0)) as [->|Hne]; [by rewrite !take_0|].
  rewrite drop_app_le by lia. rewrite take_app_le; [done|]. rewrite length_drop. lia.
Qed.

Lemma page_snoc {A} p (l : list A) x :
  length (page p l) < fpo_limit p ->
  page p (l ++ [x]) = if decide (fpo_offset p <= length l) then page p l ++ [x] else page p l.
Proof.
  unfold page. rewrite length_take, length_drop. intros H. case_decide as Ho.
  - rewrite drop_app_le by done. rewrite (take_ge (drop (fpo_offset p) l)) by (rewrite length_drop; lia).
    apply take_ge. rewrite length_app, length_drop. simpl. lia.
  - rewrite !drop_ge by (rewrite ?length_app; simpl; lia). done.
Qed.

(** The loop with [break] computes the page of the selected flows. *)
Lemma by_datasets_loop_spec g ids f p l done_ :
  (forall id, id ∈ l -> is_Some (fss_flow_key_by_flow_id g !! id)) ->
  by_datasets_loop g ids f p (page p done_) (length done_) l =
  Ok (page p (done_ ++ List.filter (in_datasets g ids f) l)).
Proof.
  revert done_; induction l as [|id l IH]; intros done_ Hk; simpl; [by rewrite app_nil_r|].
  destruct (Hk id ltac:(left)) as [k Hid].
  assert (Hl : forall id, id ∈ l -> is_Some (fss_flow_key_by_flow_id g !! id)).
  { intros; apply Hk. by right. }
  unfold in_datasets at 1. rewrite Hid. simpl. destruct k as [k|k]; [|by apply IH].
  destruct (bool_decide _ && _); [|by apply IH].
  destruct (decide (fpo_limit p <= length (page p done_))) as [Hfull|Hfree].
  - by rewrite page_full.
  - rewrite <- page_snoc by lia.
    replace (S (length done_)) with (length (done_ ++ [id])) by (rewrite length_app; simpl; lia).
    rewrite IH by done. by rewrite <- app_assoc.
Qed.

Lemma by_datasets_listing store ids f p :
  flow_store_ok store ->
  get_all_flow_ids_by_datasets store ids f p =
  Ok (page p (List.filter (in_datasets (ifs_inner store) ids f)
                (rev (map fst (initiated (fss_events (ifs_inner store))))))).
Proof.
  intros Hok. pose proof (fso_index _ Hok) as Hag. unfold get_all_flow_ids_by_datasets.
  rewrite (ia_all _ _ Hag). rewrite <- (page_nil p) at 1.
  rewrite (by_datasets_loop_spec _ _ _ _ _ []); [done|].
  intros id Hid. rewrite list_elem_of_In, <- in_rev, in_map_iff in Hid.
  destruct Hid as ([i k] & <- & Hin). apply list_elem_of_In in Hin.
  destruct (initiated_at _ _ _ Hok Hin) as [st Hst].
  simpl. rewrite (ia_key _ _ Hag _ _ Hst). by eexists.
Qed.

(** Initiators are listed once each. *)
Lemma unique_initiators_spec g seen l :
  NoDup (unique_initiators g seen l) /\
  forall a, a ∈ unique_initiators g seen l <->
    (a ∉ seen) /\ exists id, id ∈ l /\ fss_flow_search_index g !! id ≫= fie_initiator = Some a.
Proof.
  revert seen; induction l as [|id l IH]; intros seen; simpl.
  { split; [constructor|]. set_solver. }
  destruct (fss_flow_search_index g !! id ≫= fie_initiator) as [b|] eqn:Hb.
  - case_decide as Hs.
    + destruct (IH seen) as [Hn Ha]. split; [done|]. intros a. rewrite Ha.
      setoid_rewrite elem_of_cons. naive_solver.
    + destruct (IH ({[b]} ∪ seen)) as [Hn Ha]. split.
      * constructor; [|done]. rewrite Ha. set_solver.
      * intros a. rewrite elem_of_cons, Ha. setoid_rewrite elem_of_cons.
        rewrite not_elem_of_union, not_elem_of_singleton.
        destruct (decide (a = b)) as [->|]; naive_solver.
  - destruct (IH seen) as [Hn Ha]. split; [done|]. intros a. rewrite Ha.
    setoid_rewrite elem_of_cons. naive_solver.
Qed.

Lemma initiator_listing store d :
  flow_store_ok store ->
  NoDup (get_unique_flow_initiator_ids_by_dataset store d) /\
  forall a, a ∈ get_unique_flow_initiator_ids_by_dataset store d <->
    exists id st, id ∈ dataset_flows d (fss_events (ifs_inner store)) /\
      flow_at store id (Some st) /\ initiator_of st = Some a.
Proof.
  intros Hok. pose proof (fso_index _ Hok) as Hag. unfold get_unique_flow_initiator_ids_by_dataset.
  pose proof (default_nil _ _ (ia_dataset _ _ Hag d)) as H.
  destruct (fss_all_flows_by_dataset (ifs_inner store) !! d) as [l|].
  2:{ split; [constructor|]. rewrite H. set_solver. }
  subst l. destruct (unique_initiators_spec (ifs_inner store) ∅
                       (dataset_flows d (fss_events (ifs_inner store)))) as [Hn Ha].
  split; [done|]. intros a. rewrite Ha. split.
  - intros (_ & id & Hin & Hi). destruct (flow_at_total store id Hok) as [o Ho].
    rewrite (ia_entry _ _ Hag _ _ Ho) in Hi. destruct o as [st|]; [|done]. eauto.
  - intros (id & st & Hin & Hst & Hi). split; [set_solver|]. exists id. split; [done|].
    by rewrite (ia_entry _ _ Hag _ _ Hst).
Qed.

(** * The interface of a flow event store *)

(** The trait [FlowEventStore]. *)
Class FlowEventStore (S : Type) := {
  fes_store :: EventStore FlowID FlowEvent S;
  fes_new_flow_id : S -> FlowID * S;
  fes_get_dataset_flow_run_stats : S -> DatasetID -> DatasetFlowType -> FlowRunStats;
  fes_get_system_flow_run_stats : S -> SystemFlowType -> FlowRunStats;
  fes_get_all_flow_ids_by_dataset :
    S -> DatasetID -> DatasetFlowFilters -> FlowPaginationOpts -> list FlowID;
  fes_get_unique_flow_initiator_ids_by_dataset : S -> DatasetID -> list AccountID;
  fes_get_count_flows_by_dataset : S -> DatasetID -> DatasetFlowFilters -> nat;
  fes_get_all_flow_ids_by_datasets :
    S -> gset DatasetID -> DatasetFlowFilters -> FlowPaginationOpts -> res unit (list FlowID);
  fes_get_all_system_flow_ids : S -> SystemFlowFilters -> FlowPaginationOpts -> list FlowID;
  fes_get_count_system_flows : S -> SystemFlowFilters -> nat;
  fes_get_all_flow_ids : S -> FlowPaginationOpts -> list FlowID;
  fes_get_count_all_flows : S -> nat
}.

(** What the flow service relies on: a store holds a state per flow, loading and
    saving read and write it, and new ids are new. *)
Class LawfulFlowEventStore (S : Type) `{FlowEventStore S} := {
  fl_ok : S -> Prop;
  fl_at : S -> FlowID -> option FlowState -> Prop;
  fl_synced : S -> Flow -> Prop;
  fl_issued : S -> FlowID -> Prop;
  fl_used : S -> nat;
  fl_at_total : forall s id, fl_ok s -> exists o, fl_at s id o;
  fl_at_unique : forall s id o o', fl_at s id o -> fl_at s id o' -> o = o';
  fl_at_state : forall s id st, fl_ok s -> fl_at s id (Some st) ->
    fs_flow_id st = id /\ flow_wf st /\ fl_issued s id;
  fl_load : forall s id st, fl_at s id (Some st) ->
    exists a, Aggregate_load id s = Ok a /\ fl_synced s a /\ agg_state a = Some st /\
      agg_query a = id /\ agg_pending_events a = [];
  fl_load_missing : forall s id, fl_at s id None ->
    Aggregate_load id s = Err (LoadError_NotFound id);
  fl_create : forall s id e a, fl_at s id None -> matches_query e id = true ->
    Aggregate_new id e = Ok a -> fl_synced s a;
  fl_apply : forall s a e a', fl_synced s a -> matches_query e (agg_query a) = true ->
    Aggregate_apply a e = (Ok tt, a') -> fl_synced s a';
  fl_save : forall s a, fl_ok s -> fl_synced s a -> fl_issued s (agg_query a) ->
    exists a' s', Aggregate_save a s = (Ok tt, a', s') /\ fl_ok s' /\
      agg_state a' = agg_state a /\ agg_query a' = agg_query a /\
      fl_at s' (agg_query a) (agg_state a) /\
      (forall id o, id <> agg_query a -> fl_at s' id o <-> fl_at s id o) /\
      (forall id, fl_issued s' id <-> fl_issued s id) /\ fl_used s' = fl_used s;
  fl_new_id : forall s id s', fl_ok s -> (Z.of_nat (fl_used s) < 2 ^ 63)%Z ->
    fes_new_flow_id s = (id, s') -> fl_used s' = Datatypes.S (fl_used s) /\
    fl_ok s' /\ fl_issued s' id /\ fl_at s' id None /\ ~ fl_issued s id /\
    (forall id' o, fl_at s' id' o <-> fl_at s id' o) /\
    (forall id', fl_issued s id' -> fl_issued s' id')
}.

#[export] Instance inmem_flow_event_store : FlowEventStore InMemoryFlowEventStore := {|
  fes_store := flow_event_store;
  fes_new_flow_id := new_flow_id;
  fes_get_dataset_flow_run_stats := get_dataset_flow_run_stats;
  fes_get_system_flow_run_stats := get_system_flow_run_stats;
  fes_get_all_flow_ids_by_dataset := get_all_flow_ids_by_dataset;
  fes_get_unique_flow_initiator_ids_by_dataset := get_unique_flow_initiator_ids_by_dataset;
  fes_get_count_flows_by_dataset := get_count_flows_by_dataset;
  fes_get_all_flow_ids_by_datasets := get_all_flow_ids_by_datasets;
  fes_get_all_system_flow_ids := get_all_system_flow_ids;
  fes_get_count_system_flows := get_count_system_flows;
  fes_get_all_flow_ids := get_all_flow_ids;
  fes_get_count_all_flows := get_count_all_flows
|}.

Lemma inmem_synced_create store id e (a : Flow) :
  flow_at store id None -> matches_query e id = true -> Aggregate_new id e = Ok a ->
  synced (ifs_inner store) a.
Proof.
  intros H He Ha. eapply new_synced; [|exact He|exact Ha]. exact (state_at_none_history (ifs_inner store) id H).
Qed.

#[export] Program Instance inmem_flow_event_store_lawful
  : LawfulFlowEventStore InMemoryFlowEventStore := {|
  fl_ok := flow_store_ok;
  fl_at := flow_at;
  fl_synced store a := synced (ifs_inner store) a;
  fl_issued := issued;
  fl_used := flow_ids_used
|}.
Next Obligation. exact flow_at_total. Qed.
Next Obligation. intros s id o o'. apply flow_in_unique. Qed.
Next Obligation.
  intros s id st Hok Hst. split_and!; [by eapply flow_in_id|by eapply flow_in_wf|].
  by eapply flow_at_issued.
Qed.
Next Obligation. exact flow_load. Qed.
Next Obligation. exact flow_load_missing. Qed.
Next Obligation. exact inmem_synced_create. Qed.
Next Obligation. intros s a e a'. apply apply_synced. Qed.
Next Obligation.
  intros s a Hok Hsy Hi. destruct (flow_save s a Hok Hsy Hi)
    as (a' & s' & H1 & H2 & _ & H4 & _ & H6 & H7 & H8 & _ & H10).
  exists a', s'. split_and!; try done; [intros id; unfold issued|unfold flow_ids_used]; by rewrite H10.
Qed.
Next Obligation.
  intros s id s' Hok Hr Hn.
  assert (Hroom : flow_id_room s).
  { intros last Hl. unfold flow_ids_used in Hr. rewrite Hl in Hr.
    pose proof (fso_last _ Hok _ Hl). unfold two64. lia. }
  split; [|by destruct (new_flow_id_ok s id s' Hok Hroom Hn) as (? & ? & ? & ? & ? & ?)].
  injection Hn as <- <-. unfold flow_ids_used, next_flow_id. simpl.
  destruct (fss_last_flow_id (ifs_inner s)) as [last|] eqn:Hl; [|done].
  specialize (Hroom _ Hl). rewrite u64_add_small by lia. lia.
Qed.
