(* ===== verification/Outbox.v ===== *)
(** The messaging outbox: repositories of messages and of consumption boundaries,
    the dispatching of messages to consumers, the three outboxes, and the
    processor that relays stored messages.

    Sources: src/utils/messaging-outbox, src/infra/messaging-outbox/inmem.

    The components that consume messages are a parameter: their state [C] and,
    for each of them, what it does with a message; a consumer may fail, and may
    post messages in turn.  JSON values and their parsing belong to serde.  What a
    failed transaction leaves behind differs between databases, which roll it
    back, and the in-memory repositories, which do not; it is a parameter too.
    [ow_log] and [ow_pushes] are not in the code: they record the consumptions that
    were committed and the number of messages that were posted.
    The futures of [try_for_each_concurrent] run one after another in the
    functions of this file; the file OutboxRelay has all their interleavings. *)

From S2P Require Import Prelude.

(** * Messages *)

Abbreviation OutboxMessageID := Z.

Record OutboxMessage (Json : Type) := mkOutboxMessage {
  om_message_id : OutboxMessageID;
  om_producer_name : string;
  om_content_json : Json;
  om_occurred_on : Z
}.
Arguments mkOutboxMessage {Json}.
Arguments om_message_id {Json}.
Arguments om_producer_name {Json}.
Arguments om_content_json {Json}.
Arguments om_occurred_on {Json}.

Record NewOutboxMessage (Json : Type) := mkNewOutboxMessage {
  nom_producer_name : string;
  nom_content_json : Json;
  nom_occurred_on : Z
}.
Arguments mkNewOutboxMessage {Json}.
Arguments nom_producer_name {Json}.
Arguments nom_content_json {Json}.
Arguments nom_occurred_on {Json}.

Record OutboxMessageConsumptionBoundary := mkOutboxMessageConsumptionBoundary {
  ocb_producer_name : string;
  ocb_consumer_name : string;
  ocb_last_consumed_message_id : OutboxMessageID
}.

Inductive CreateConsumptionBoundaryError :=
| CreateConsumptionBoundaryError_Duplicate (consumer_name producer_name : string)
| CreateConsumptionBoundaryError_Internal (e : InternalError).

Inductive UpdateConsumptionBoundaryError :=
| UpdateConsumptionBoundaryError_NotFound (consumer_name producer_name : string)
| UpdateConsumptionBoundaryError_Internal (e : InternalError).

Record OutboxConfig := mkOutboxConfig { oc_awaiting_step : Z; oc_batch_size : Z }.

(** * Repositories *)

Class OutboxMessageRepository (Json R : Type) := {
  omr_push_message : R -> NewOutboxMessage Json -> res InternalError unit * R;
  omr_get_producer_messages :
    R -> string -> OutboxMessageID -> nat -> res InternalError (list (OutboxMessage Json));
  omr_get_latest_message_ids_by_producer : R -> res InternalError (list (string * OutboxMessageID))
}.

Class OutboxMessageConsumptionRepository (B : Type) := {
  ocr_list_consumption_boundaries :
    B -> res InternalError (list OutboxMessageConsumptionBoundary);
  ocr_find_consumption_boundary :
    B -> string -> string -> res InternalError (option OutboxMessageConsumptionBoundary);
  ocr_create_consumption_boundary :
    B -> OutboxMessageConsumptionBoundary -> res CreateConsumptionBoundaryError unit * B;
  ocr_update_consumption_boundary :
    B -> OutboxMessageConsumptionBoundary -> res UpdateConsumptionBoundaryError unit * B
}.

(** ** In memory *)

(** [BTreeMap]: the entries in the order of their keys. *)
Fixpoint btree_insert {V} (k : Z) (v : V) (l : list (Z * V)) : list (Z * V) :=
  match l with
  | [] => [(k, v)]
  | (k', v') :: l' =>
      if decide (k < k')%Z then (k, v) :: l
      else if decide (k = k') then (k, v) :: l'
      else (k', v') :: btree_insert k v l'
  end.

(** The entries from [lower_bound(Bound::Excluded(k))] on. *)
Definition btree_above {V} (k : Z) (l : list (Z * V)) : list (Z * V) :=
  List.filter (fun '(k', _) => bool_decide (k < k')%Z) l.

Section MessageRepository.
Context {Json : Type}.

Record MessagesState := mkMessagesState {
  ms_last_message_id : option OutboxMessageID;
  ms_messages : list (OutboxMessageID * OutboxMessage Json);
  ms_latest_message_id_by_producer : gmap string OutboxMessageID
}.

Definition MessagesState_default : MessagesState := mkMessagesState None [] ∅.

Definition next_message_id (s : MessagesState) : OutboxMessageID * MessagesState :=
  let next := match ms_last_message_id s with Some id => i64_add id 1 | None => 1%Z end in
  (next, mkMessagesState (Some next) (ms_messages s) (ms_latest_message_id_by_producer s)).

Record InMemoryOutboxMessageRepository := mkInMemoryOutboxMessageRepository {
  imr_state : MessagesState
}.

Definition InMemoryOutboxMessageRepository_new : InMemoryOutboxMessageRepository :=
  mkInMemoryOutboxMessageRepository MessagesState_default.

Definition inmem_push_message (r : InMemoryOutboxMessageRepository) (new_message : NewOutboxMessage Json)
    : res InternalError unit * InMemoryOutboxMessageRepository :=
  let '(message_id, s) := next_message_id (imr_state r) in
  (Ok tt,
   mkInMemoryOutboxMessageRepository
     (mkMessagesState (ms_last_message_id s)
        (btree_insert message_id
           (mkOutboxMessage message_id (nom_producer_name new_message) (nom_content_json new_message)
              (nom_occurred_on new_message))
           (ms_messages s))
        (<[nom_producer_name new_message := message_id]> (ms_latest_message_id_by_producer s)))).

(** The loop over the cursor; it breaks once the batch is full. *)
Fixpoint collect_messages (producer_name : string) (batch_size : nat)
    (messages : list (OutboxMessage Json)) (cursor : list (OutboxMessageID * OutboxMessage Json))
    : list (OutboxMessage Json) :=
  match cursor with
  | [] => messages
  | (_, message) :: rest =>
      if bool_decide (om_producer_name message = producer_name) then
        let messages' := messages ++ [message] in
        if decide (batch_size <= length messages') then messages'
        else collect_messages producer_name batch_size messages' rest
      else collect_messages producer_name batch_size messages rest
  end.

Definition inmem_get_producer_messages (r : InMemoryOutboxMessageRepository) (producer_name : string)
    (above_id : OutboxMessageID) (batch_size : nat)
    : res InternalError (list (OutboxMessage Json)) :=
  Ok (collect_messages producer_name batch_size [] (btree_above above_id (ms_messages (imr_state r)))).

Definition inmem_get_latest_message_ids_by_producer (r : InMemoryOutboxMessageRepository)
    : res InternalError (list (string * OutboxMessageID)) :=
  Ok (map_to_list (ms_latest_message_id_by_producer (imr_state r))).

#[export] Instance inmem_message_repository
  : OutboxMessageRepository Json InMemoryOutboxMessageRepository := {|
  omr_push_message := inmem_push_message;
  omr_get_producer_messages := inmem_get_producer_messages;
  omr_get_latest_message_ids_by_producer := inmem_get_latest_message_ids_by_producer
|}.
End MessageRepository.
Arguments MessagesState : clear implicits.
Arguments InMemoryOutboxMessageRepository : clear implicits.

Record InMemoryOutboxMessageConsumptionRepository := mkInMemoryOutboxMessageConsumptionRepository {
  icr_consumption_boundaries : gmap string OutboxMessageConsumptionBoundary
}.

Definition InMemoryOutboxMessageConsumptionRepository_new
  : InMemoryOutboxMessageConsumptionRepository := mkInMemoryOutboxMessageConsumptionRepository ∅.

Definition make_key (consumer_name producer_name : string) : string :=
  consumer_name +:+ "<->" +:+ producer_name.

Definition inmem_list_consumption_boundaries (r : InMemoryOutboxMessageConsumptionRepository)
    : res InternalError (list OutboxMessageConsumptionBoundary) :=
  Ok (map snd (map_to_list (icr_consumption_boundaries r))).

Definition inmem_find_consumption_boundary (r : InMemoryOutboxMessageConsumptionRepository)
    (consumer_name producer_name : string)
    : res InternalError (option OutboxMessageConsumptionBoundary) :=
  Ok (icr_consumption_boundaries r !! make_key consumer_name producer_name).

Definition inmem_create_consumption_boundary (r : InMemoryOutboxMessageConsumptionRepository)
    (boundary : OutboxMessageConsumptionBoundary)
    : res CreateConsumptionBoundaryError unit * InMemoryOutboxMessageConsumptionRepository :=
  let key := make_key (ocb_consumer_name boundary) (ocb_producer_name boundary) in
  match icr_consumption_boundaries r !! key with
  | None =>
      (Ok tt, mkInMemoryOutboxMessageConsumptionRepository
                (<[key := boundary]> (icr_consumption_boundaries r)))
  | Some _ =>
      (Err (CreateConsumptionBoundaryError_Duplicate (ocb_consumer_name boundary)
              (ocb_producer_name boundary)), r)
  end.

Definition inmem_update_consumption_boundary (r : InMemoryOutboxMessageConsumptionRepository)
    (boundary : OutboxMessageConsumptionBoundary)
    : res UpdateConsumptionBoundaryError unit * InMemoryOutboxMessageConsumptionRepository :=
  let key := make_key (ocb_consumer_name boundary) (ocb_producer_name boundary) in
  match icr_consumption_boundaries r !! key with
  | Some existing_boundary =>
      (Ok tt, mkInMemoryOutboxMessageConsumptionRepository
                (<[key := mkOutboxMessageConsumptionBoundary (ocb_producer_name existing_boundary)
                            (ocb_consumer_name existing_boundary)
                            (ocb_last_consumed_message_id boundary)]>
                   (icr_consumption_boundaries r)))
  | None =>
      (Err (UpdateConsumptionBoundaryError_NotFound (ocb_consumer_name boundary)
              (ocb_producer_name boundary)), r)
  end.

#[export] Instance inmem_consumption_repository
  : OutboxMessageConsumptionRepository InMemoryOutboxMessageConsumptionRepository := {|
  ocr_list_consumption_boundaries := inmem_list_consumption_boundaries;
  ocr_find_consumption_boundary := inmem_find_consumption_boundary;
  ocr_create_consumption_boundary := inmem_create_consumption_boundary;
  ocr_update_consumption_boundary := inmem_update_consumption_boundary
|}.

(** * Consumers *)

Inductive MessageConsumptionDurability :=
| MessageConsumptionDurability_Durable
| MessageConsumptionDurability_BestEffort.

#[export] Instance MessageConsumptionDurability_eq_dec : EqDecision MessageConsumptionDurability.
Proof. solve_decision. Defined.

Record MessageConsumerMeta := mkMessageConsumerMeta {
  mcm_consumer_name : string;
  mcm_feeding_producers : list string;
  mcm_durability : MessageConsumptionDurability
}.

Inductive ConsumerFilter :=
| ConsumerFilter_AllConsumers
| ConsumerFilter_BestEffortConsumers
| ConsumerFilter_SelectedConsumer (consumer_name : string).

Record MessageSubscription := mkMessageSubscription {
  sub_producer_name : string;
  sub_consumer_name : string
}.

(** A registered consumer: its metadata, and what it does with the messages of the
    types it accepts: a result, its new state and the messages it posts. *)
Record ConsumerBuilder (Json MType Msg C : Type) := mkConsumerBuilder {
  cb_metadata : list MessageConsumerMeta;
  cb_consume : MType -> option (Msg -> C -> res InternalError unit * C * list (NewOutboxMessage Json))
}.
Arguments mkConsumerBuilder {Json MType Msg C}.
Arguments cb_metadata {Json MType Msg C}.
Arguments cb_consume {Json MType Msg C}.

Record MessageDispatcher (MType : Type) := mkMessageDispatcher {
  md_producer_name : string;
  md_message_type : MType
}.
Arguments mkMessageDispatcher {MType}.
Arguments md_producer_name {MType}.
Arguments md_message_type {MType}.

Record OutboxWorld (C R B : Type) := mkOutboxWorld {
  ow_messages : R;
  ow_boundaries : B;
  ow_components : C;
  ow_log : list (string * string * OutboxMessageID);
  ow_pushes : nat
}.
Arguments mkOutboxWorld {C R B}.
Arguments ow_messages {C R B}.
Arguments ow_boundaries {C R B}.
Arguments ow_components {C R B}.
Arguments ow_log {C R B}.
Arguments ow_pushes {C R B}.

(** The registered consumers, how messages are parsed, and what a failed
    transaction leaves behind.  Starting, committing and rolling back a transaction
    are taken to succeed. *)
Class OutboxEnvironment (Json MType Msg C : Type) := {
  oe_catalog : list (ConsumerBuilder Json MType Msg C);
  oe_parse : MType -> Json -> option Msg;
  oe_has_transactions : bool;
  oe_rollback_components : C -> C -> C
}.

Record OutboxDispatchingImpl (MType : Type) := mkOutboxDispatchingImpl {
  odi_dispatchers : gmap string (MessageDispatcher MType);
  odi_consumer_filter : ConsumerFilter;
  odi_durable_producers : gset string;
  odi_best_effort_producers : gset string
}.
Arguments mkOutboxDispatchingImpl {MType}.
Arguments odi_dispatchers {MType}.
Arguments odi_consumer_filter {MType}.
Arguments odi_durable_producers {MType}.
Arguments odi_best_effort_producers {MType}.

Record OutboxTransactionalProcessor (MType : Type) := mkOutboxTransactionalProcessor {
  otp_config : OutboxConfig;
  otp_dispatchers : gmap string (MessageDispatcher MType);
  otp_consumers_by_producers : gmap string (list string)
}.
Arguments mkOutboxTransactionalProcessor {MType}.
Arguments otp_config {MType}.
Arguments otp_dispatchers {MType}.
Arguments otp_consumers_by_producers {MType}.

Record ProducerRelayJob := mkProducerRelayJob {
  prj_producer_name : string;
  prj_consumer_names : list string
}.

Section Outbox.
Context {Json MType Msg C R B : Type}
        `{OutboxMessageRepository Json R} `{OutboxMessageConsumptionRepository B}
        {Env : OutboxEnvironment Json MType Msg C}.

Abbreviation M := (action (OutboxWorld C R B) InternalError).

(** ** Dispatching *)

Definition all_consumers_for (ty : MType) := omap (fun b => cb_consume b ty) oe_catalog.

Definition best_effort_consumers_for (ty : MType) :=
  omap (fun b =>
    if existsb (fun meta => bool_decide (mcm_durability meta = MessageConsumptionDurability_BestEffort))
         (cb_metadata b)
    then cb_consume b ty else None) oe_catalog.

Definition particular_consumers_for (ty : MType) (consumer_name : string) :=
  omap (fun b =>
    if existsb (fun meta => bool_decide (mcm_consumer_name meta = consumer_name)) (cb_metadata b)
    then cb_consume b ty else None) oe_catalog.

Fixpoint push_all (r : R) (posts : list (NewOutboxMessage Json)) : res InternalError unit * R :=
  match posts with
  | [] => (Ok tt, r)
  | m :: rest =>
      match omr_push_message r m with
      | (Ok _, r') => push_all r' rest
      | (e, r') => (e, r')
      end
  end.

(** [consumer.consume_message(catalog, message)] *)
Definition run_consumer
    (consume : Msg -> C -> res InternalError unit * C * list (NewOutboxMessage Json)) (message : Msg)
    : M unit := fun w =>
  let '(r, c', posts) := consume message (ow_components w) in
  let '(pushed, messages') := push_all (ow_messages w) posts in
  (let! _ := pushed in r, mkOutboxWorld messages' (ow_boundaries w) c' (ow_log w)
                      (ow_pushes w + length posts)).

Definition consume_deserialized_message (ty : MType) (consumer_filter : ConsumerFilter)
    (content_json : Json) : M unit :=
  message ← lift (match oe_parse ty content_json with Some m => Ok m | None => Err mkInternalError end);
  let consumers :=
    match consumer_filter with
    | ConsumerFilter_AllConsumers => all_consumers_for ty
    | ConsumerFilter_BestEffortConsumers => best_effort_consumers_for ty
    | ConsumerFilter_SelectedConsumer consumer_name => particular_consumers_for ty consumer_name
    end in
  for_each (fun consume => run_consumer consume message) consumers.

Definition dispatch_message (d : MessageDispatcher MType) : ConsumerFilter -> Json -> M unit :=
  consume_deserialized_message (md_message_type d).

Fixpoint group_message_dispatchers_by_producer (acc : gmap string (MessageDispatcher MType))
    (dispatchers : list (MessageDispatcher MType)) : res InternalError (gmap string (MessageDispatcher MType)) :=
  match dispatchers with
  | [] => Ok acc
  | d :: rest =>
      match acc !! md_producer_name d with
      | Some _ => Panic
      | None => group_message_dispatchers_by_producer (<[md_producer_name d := d]> acc) rest
      end
  end.

Fixpoint enumerate_messaging_routes (durability : MessageConsumptionDurability)
    (builders : list (ConsumerBuilder Json MType Msg C)) : res InternalError (list MessageSubscription) :=
  match builders with
  | [] => Ok []
  | b :: rest =>
      if decide (length (cb_metadata b) <= 1) then
        let! others := enumerate_messaging_routes durability rest in
        Ok (List.flat_map (fun metadata =>
              if bool_decide (mcm_durability metadata = durability)
              then map (fun p => mkMessageSubscription p (mcm_consumer_name metadata))
                     (mcm_feeding_producers metadata)
              else []) (cb_metadata b) ++ others)
      else Panic
  end.

Definition group_consumers_by_producers (rows : list MessageSubscription) : gmap string (list string) :=
  let unique :=
    foldl (fun (m : gmap string (gset string)) row =>
             <[sub_producer_name row :=
                 match m !! sub_producer_name row with
                 | Some v => {[sub_consumer_name row]} ∪ v
                 | None => {[sub_consumer_name row]}
                 end]> m) ∅ rows in
  elements <$> unique.

(** ** Outboxes *)

Definition transactional_post (now : Z) (producer_name : string) (content_json : Json) : M unit := fun w =>
  let '(r, messages') :=
    omr_push_message (ow_messages w) (mkNewOutboxMessage producer_name content_json now) in
  (r, mkOutboxWorld messages' (ow_boundaries w) (ow_components w) (ow_log w) (S (ow_pushes w))).

Definition immediate_post (dispatchers : gmap string (MessageDispatcher MType)) (consumer_filter : ConsumerFilter)
    (producer_name : string) (content_json : Json) : M unit :=
  match dispatchers !! producer_name with
  | Some dispatcher => dispatch_message dispatcher consumer_filter content_json
  | None => mret tt
  end.

Fixpoint classify_message_routes (durable best_effort : gset string) (builders : list (ConsumerBuilder Json MType Msg C))
    : res InternalError (gset string * gset string) :=
  match builders with
  | [] => Ok (durable, best_effort)
  | b :: rest =>
      if decide (length (cb_metadata b) <= 1) then
        let '(durable', best_effort') :=
          foldl (fun '(d, e) metadata =>
                   match mcm_durability metadata with
                   | MessageConsumptionDurability_Durable =>
                       (d ∪ list_to_set (mcm_feeding_producers metadata), e)
                   | MessageConsumptionDurability_BestEffort =>
                       (d, e ∪ list_to_set (mcm_feeding_producers metadata))
                   end) (durable, best_effort) (cb_metadata b) in
        classify_message_routes durable' best_effort' rest
      else Panic
  end.

Definition OutboxDispatchingImpl_new (dispatchers : gmap string (MessageDispatcher MType))
    (consumer_filter : ConsumerFilter) : res InternalError (OutboxDispatchingImpl MType) :=
  let! producers := classify_message_routes ∅ ∅ oe_catalog in
  Ok (mkOutboxDispatchingImpl dispatchers consumer_filter producers.1 producers.2).

Definition post_message_as_json (o : OutboxDispatchingImpl MType) (now : Z) (producer_name : string)
    (content_json : Json) : M unit :=
  _ ← (if bool_decide (producer_name ∈ odi_durable_producers o)
       then transactional_post now producer_name content_json else mret tt);
  if bool_decide (producer_name ∈ odi_best_effort_producers o)
  then immediate_post (odi_dispatchers o) (odi_consumer_filter o) producer_name content_json
  else mret tt.

(** ** The processor *)

Definition OutboxTransactionalProcessor_new (config : OutboxConfig)
    (message_dispatchers : list (MessageDispatcher MType)) : res InternalError (OutboxTransactionalProcessor MType) :=
  let! routes := enumerate_messaging_routes MessageConsumptionDurability_Durable oe_catalog in
  let consumers_by_producers := group_consumers_by_producers routes in
  let! dispatchers := group_message_dispatchers_by_producer ∅ message_dispatchers in
  Ok (mkOutboxTransactionalProcessor config dispatchers consumers_by_producers).

Definition producer_relay_jobs (p : OutboxTransactionalProcessor MType) : list ProducerRelayJob :=
  map (fun '(producer_name, consumer_names) => mkProducerRelayJob producer_name consumer_names)
    (map_to_list (otp_consumers_by_producers p)).

(** [DatabaseTransactionRunner::transactional] *)
Definition transactional {A} (m : M A) : M A := fun w =>
  match m w with
  | (Ok a, w') => (Ok a, w')
  | (r, w') =>
      (r, if oe_has_transactions
          then mkOutboxWorld (ow_messages w) (ow_boundaries w)
                 (oe_rollback_components (ow_components w) (ow_components w')) (ow_log w) (ow_pushes w')
          else w')
  end.

Definition create_boundary (b : OutboxMessageConsumptionBoundary) : M unit := fun w =>
  let '(r, boundaries') := ocr_create_consumption_boundary (ow_boundaries w) b in
  (int_err r, mkOutboxWorld (ow_messages w) boundaries' (ow_components w) (ow_log w) (ow_pushes w)).

Definition update_boundary (b : OutboxMessageConsumptionBoundary) : M unit := fun w =>
  let '(r, boundaries') := ocr_update_consumption_boundary (ow_boundaries w) b in
  (int_err r, mkOutboxWorld (ow_messages w) boundaries' (ow_components w) (ow_log w) (ow_pushes w)).

Definition list_boundaries : M (list OutboxMessageConsumptionBoundary) := fun w =>
  (ocr_list_consumption_boundaries (ow_boundaries w), w).

Definition init_consumption_records (p : OutboxTransactionalProcessor MType) : M unit :=
  transactional (
    consumptions ← list_boundaries;
    let matched : gset (string * string) :=
      list_to_set (map (fun b => (ocb_producer_name b, ocb_consumer_name b)) consumptions) in
    for_each (fun job =>
        for_each (fun consumer_name =>
            if bool_decide ((prj_producer_name job, consumer_name) ∈ matched) then mret tt
            else create_boundary
                   (mkOutboxMessageConsumptionBoundary (prj_producer_name job) consumer_name 0%Z))
          (prj_consumer_names job))
      (producer_relay_jobs p)).

(** [.unwrap()] of the result of a transaction. *)
Definition unwrapped {A} (m : M A) : M A := fun w =>
  match m w with (Err _, w') => (Panic, w') | x => x end.

Definition select_latest_message_ids_by_producers : M (gmap string OutboxMessageID) :=
  ids ← unwrapped (transactional (fun w => (omr_get_latest_message_ids_by_producer (ow_messages w), w)));
  mret (foldl (fun m '(producer_name, id) => <[producer_name := id]> m) ∅ ids).

Definition organize_boundaries (all_boundaries : list OutboxMessageConsumptionBoundary)
    : gmap string (gmap string OutboxMessageID) :=
  foldl (fun m b =>
    <[ocb_producer_name b :=
        <[ocb_consumer_name b := ocb_last_consumed_message_id b]>
          (default ∅ (m !! ocb_producer_name b))]> m) ∅ all_boundaries.

Definition select_latest_consumption_boundaries_by_producers
  : M (gmap string (gmap string OutboxMessageID)) :=
  all_boundaries ← unwrapped (transactional list_boundaries);
  mret (organize_boundaries all_boundaries).

Fixpoint determine_processed_boundary_id (earliest_seen_id : option OutboxMessageID)
    (consumer_names : list string) (consumption_boundaries : gmap string OutboxMessageID)
    : option OutboxMessageID :=
  match consumer_names with
  | [] => earliest_seen_id
  | consumer :: rest =>
      match consumption_boundaries !! consumer with
      | Some boundary_id =>
          determine_processed_boundary_id
            (match earliest_seen_id with
             | Some id => if decide (boundary_id < id)%Z then Some boundary_id else Some id
             | None => Some boundary_id
             end) rest consumption_boundaries
      | None => Some 0%Z
      end
  end.

Definition load_messages_above (job : ProducerRelayJob) (above_id : OutboxMessageID) (batch_size : nat)
    : M (list (OutboxMessage Json)) :=
  transactional (fun w =>
    (omr_get_producer_messages (ow_messages w) (prj_producer_name job) above_id batch_size, w)).

(** Records the consumption. *)
Definition log_consumption (b : OutboxMessageConsumptionBoundary) : M unit :=
  modify (fun w => mkOutboxWorld (ow_messages w) (ow_boundaries w) (ow_components w)
    (ow_log w ++ [(ocb_producer_name b, ocb_consumer_name b, ocb_last_consumed_message_id b)])
    (ow_pushes w)).

Definition invoke_consumer (p : OutboxTransactionalProcessor MType) (consumer_name : string)
    (message : OutboxMessage Json) : M unit :=
  transactional (
    dispatcher ← lift (unwrap (otp_dispatchers p !! om_producer_name message));
    _ ← dispatch_message dispatcher (ConsumerFilter_SelectedConsumer consumer_name)
          (om_content_json message);
    let boundary := mkOutboxMessageConsumptionBoundary (om_producer_name message) consumer_name
                      (om_message_id message) in
    _ ← update_boundary boundary;
    log_consumption boundary).

(** The consumers that have not seen the message yet. *)
Definition consumer_tasks (job : ProducerRelayJob) (consumption_boundaries : gmap string OutboxMessageID)
    (message : OutboxMessage Json) : list string :=
  List.filter (fun consumer_name =>
      bool_decide (default 0%Z (consumption_boundaries !! consumer_name) < om_message_id message)%Z)
    (prj_consumer_names job).

Definition feed_message (p : OutboxTransactionalProcessor MType) (job : ProducerRelayJob)
    (consumption_boundaries : gmap string OutboxMessageID) (message : OutboxMessage Json) : M unit :=
  for_each (fun consumer_name => invoke_consumer p consumer_name message)
    (consumer_tasks job consumption_boundaries message).

Definition run_job_iteration (p : OutboxTransactionalProcessor MType) (job : ProducerRelayJob)
    (latest_produced_message_id : OutboxMessageID)
    (consumption_boundaries : gmap string OutboxMessageID) : M unit :=
  match determine_processed_boundary_id None (prj_consumer_names job) consumption_boundaries with
  | Some processed_boundary_id =>
      if decide (processed_boundary_id < latest_produced_message_id)%Z then
        batch_size ← lift (usize_of_i64 (oc_batch_size (otp_config p)));
        unprocessed_messages ← load_messages_above job processed_boundary_id batch_size;
        for_each (feed_message p job consumption_boundaries) unprocessed_messages
      else mret tt
  | None => mret tt
  end.

(** The jobs with new messages and known boundaries; the boundaries of a producer
    are taken out of the map. *)
Fixpoint prepare_tasks (latest : gmap string OutboxMessageID)
    (boundaries : gmap string (gmap string OutboxMessageID)) (jobs : list ProducerRelayJob)
    : list (ProducerRelayJob * OutboxMessageID * gmap string OutboxMessageID) :=
  match jobs with
  | [] => []
  | job :: rest =>
      match latest !! prj_producer_name job, boundaries !! prj_producer_name job with
      | Some latest_id, Some b =>
          (job, latest_id, b) :: prepare_tasks latest (delete (prj_producer_name job) boundaries) rest
      | _, _ => prepare_tasks latest boundaries rest
      end
  end.

Definition run_relay_iteration (p : OutboxTransactionalProcessor MType) : M unit :=
  latest ← select_latest_message_ids_by_producers;
  boundaries ← select_latest_consumption_boundaries_by_producers;
  for_each (fun '(job, latest_id, b) => run_job_iteration p job latest_id b)
    (prepare_tasks latest boundaries (producer_relay_jobs p)).

Fixpoint relay_iterations (p : OutboxTransactionalProcessor MType) (n : nat) : M unit :=
  match n with
  | 0 => mret tt
  | S n' => _ ← run_relay_iteration p; relay_iterations p n'
  end.

(** [run] with the first [n] turns of its loop; it ends only with an error. *)
Definition run_processor (p : OutboxTransactionalProcessor MType) (n : nat) : M unit :=
  _ ← init_consumption_records p; relay_iterations p n.

Definition run_single_iteration_only (p : OutboxTransactionalProcessor MType) : M unit :=
  _ ← init_consumption_records p; run_relay_iteration p.
End Outbox.
