(* ===== verification/OutboxLaws.v ===== *)
(** What the outbox relies on in its repositories, and that the in-memory ones
    provide it.

    Sources: src/utils/messaging-outbox/src/repos, src/infra/messaging-outbox/inmem. *)

From Stdlib Require Import Sorted.
From S2P Require Import Prelude Outbox.

(** * Selections of messages *)

Section Selections.
Context {Json : Type}.
Implicit Types (l : list (OutboxMessage Json)) (m : OutboxMessage Json).

(** The messages of a producer, those above an id, and those up to it. *)
Definition sent_by (p : string) l : list (OutboxMessage Json) :=
  List.filter (fun m => bool_decide (om_producer_name m = p)) l.

Definition above (b : OutboxMessageID) l : list (OutboxMessage Json) :=
  List.filter (fun m => bool_decide (b < om_message_id m)%Z) l.

Definition upto (b : OutboxMessageID) l : list (OutboxMessage Json) :=
  List.filter (fun m => bool_decide (om_message_id m <= b)%Z) l.

(** Ids increase strictly. *)
Definition increasing l : Prop := StronglySorted Z.lt (map om_message_id l).

Lemma increasing_cons m l :
  increasing (m :: l) <-> increasing l /\ Forall (fun m' => om_message_id m < om_message_id m')%Z l.
Proof.
  unfold increasing. simpl. split.
  - intros [? ?]%StronglySorted_inv. by rewrite <- Forall_map.
  - intros [? ?]. constructor; [done|]. by rewrite Forall_map.
Qed.

Lemma increasing_filter f l : increasing l -> increasing (List.filter f l).
Proof.
  induction l as [|m l IH]; [done|]. rewrite increasing_cons. intros [Hl Hm]. simpl.
  destruct (f m); [|by apply IH]. apply increasing_cons. split; [by apply IH|].
  apply Forall_forall. rewrite Forall_forall in Hm. intros x. rewrite list_elem_of_In, filter_In.
  intros [Hx _]. apply Hm. by apply list_elem_of_In.
Qed.

Lemma increasing_nodup l : increasing l -> List.NoDup (map om_message_id l).
Proof.
  induction l as [|m l IH]; [constructor|]. rewrite increasing_cons. intros [Hl Hm].
  constructor; [|by apply IH]. intros (m' & He & Hm')%in_map_iff. rewrite Forall_forall in Hm.
  apply list_elem_of_In, Hm in Hm'. lia.
Qed.

Lemma above_all b l : Forall (fun m => b < om_message_id m)%Z l -> above b l = l.
Proof.
  induction 1 as [|m l Hm _ IH]; [done|]. simpl. rewrite bool_decide_eq_true_2 by done. by f_equal.
Qed.

Lemma above_none b l : Forall (fun m => om_message_id m <= b)%Z l -> above b l = [].
Proof.
  induction 1 as [|m l Hm _ IH]; [done|]. simpl. by rewrite bool_decide_eq_false_2 by lia.
Qed.

Lemma upto_none b l : Forall (fun m => b < om_message_id m)%Z l -> upto b l = [].
Proof.
  induction 1 as [|m l Hm _ IH]; [done|]. simpl. by rewrite bool_decide_eq_false_2 by lia.
Qed.

Lemma upto_all b l : Forall (fun m => om_message_id m <= b)%Z l -> upto b l = l.
Proof.
  induction 1 as [|m l Hm _ IH]; [done|]. simpl. rewrite bool_decide_eq_true_2 by done. by f_equal.
Qed.

Lemma above_app b l1 l2 : above b (l1 ++ l2) = above b l1 ++ above b l2.
Proof. apply List.filter_app. Qed.

Lemma upto_app b l1 l2 : upto b (l1 ++ l2) = upto b l1 ++ upto b l2.
Proof. apply List.filter_app. Qed.

Lemma sent_by_app p l1 l2 : sent_by p (l1 ++ l2) = sent_by p l1 ++ sent_by p l2.
Proof. apply List.filter_app. Qed.

Lemma above_sent b p l : above b (sent_by p l) = sent_by p (above b l).
Proof.
  unfold above, sent_by. induction l as [|m l IH]; [done|]. simpl.
  destruct (bool_decide (om_producer_name m = p)) eqn:H1, (bool_decide (b < om_message_id m)%Z) eqn:H2;
    simpl; rewrite ?H1, ?H2, ?IH; done.
Qed.

(** The messages of a sorted list split at an id. *)
Lemma split_at b l : increasing l -> l = upto b l ++ above b l.
Proof.
  induction l as [|m l IH]; [done|]. rewrite increasing_cons. intros [Hl Hm]. simpl.
  destruct (decide (om_message_id m <= b)%Z) as [Hb|Hb].
  - rewrite (bool_decide_eq_true_2 (om_message_id m <= b)%Z), (bool_decide_eq_false_2 (b < _)%Z) by lia.
    simpl. f_equal. by apply IH.
  - rewrite (bool_decide_eq_false_2 (om_message_id m <= b)%Z), (bool_decide_eq_true_2 (b < _)%Z) by lia.
    assert (Hf : Forall (fun m' => b < om_message_id m')%Z l)
      by (eapply Forall_impl; [exact Hm|]; simpl; lia).
    by rewrite (upto_none _ _ Hf), (above_all _ _ Hf).
Qed.

(** Moving the boundary over the next message. *)
Lemma advance b l m rest :
  increasing l -> above b l = m :: rest ->
  above (om_message_id m) l = rest /\ upto (om_message_id m) l = upto b l ++ [m].
Proof.
  intros Hl Ha. pose proof (split_at b l Hl) as Hs. rewrite Ha in Hs.
  assert (Hi : increasing (upto b l ++ m :: rest)) by (by rewrite <- Hs).
  assert (Hb : Forall (fun x => om_message_id x <= b)%Z (upto b l)).
  { apply Forall_forall. intros x. unfold upto. rewrite list_elem_of_In, filter_In.
    intros [_ Hx]. by apply bool_decide_eq_true in Hx. }
  assert (Hm : (b < om_message_id m)%Z).
  { assert (In m (above b l)) as Hin by (rewrite Ha; by left). unfold above in Hin.
    apply filter_In in Hin as [_ Hx]. by apply bool_decide_eq_true in Hx. }
  assert (Hr : Forall (fun x => om_message_id m < om_message_id x)%Z rest).
  { assert (increasing (above b l)) as Hab by (by apply increasing_filter).
    rewrite Ha in Hab. by apply increasing_cons in Hab as [_ ?]. }
  assert (Hb' : Forall (fun x => om_message_id x <= om_message_id m)%Z (upto b l))
    by (eapply Forall_impl; [exact Hb|]; simpl; lia).
  split.
  - rewrite Hs, above_app, above_none by done. simpl. rewrite bool_decide_eq_false_2 by lia.
    by apply above_all.
  - rewrite Hs at 1. rewrite upto_app, upto_all by done. simpl.
    rewrite bool_decide_eq_true_2 by lia. by rewrite (upto_none _ rest).
Qed.

Lemma above_above b b' l : (b <= b')%Z -> above b' (above b l) = above b' l.
Proof.
  intros Hb. unfold above. induction l as [|m l IH]; [done|]. simpl.
  destruct (bool_decide_reflect (b < om_message_id m)%Z); simpl.
  - by rewrite IH.
  - rewrite (bool_decide_eq_false_2 (b' < om_message_id m)%Z) by lia. exact IH.
Qed.

Lemma above_prefix b l1 l2 : l1 `prefix_of` l2 -> above b l1 `prefix_of` above b l2.
Proof. intros [k ->]. rewrite above_app. by eexists. Qed.
End Selections.

(** * Laws *)

Section Laws.
Context (Json : Type).

(** The message a repository makes of a new one. *)
Definition message_of (id : OutboxMessageID) (m : NewOutboxMessage Json) : OutboxMessage Json :=
  mkOutboxMessage id (nom_producer_name m) (nom_content_json m) (nom_occurred_on m).

(** [lmr_stored] lists the messages in the order of their ids. *)
Class LawfulMessageRepository (R : Type) `{OutboxMessageRepository Json R} := {
  lmr_ok : R -> Prop;
  lmr_stored : R -> list (OutboxMessage Json);
  lmr_sorted : forall r, lmr_ok r ->
    increasing (lmr_stored r) /\ Forall (fun m => 0 < om_message_id m)%Z (lmr_stored r);
  lmr_push : forall r m, lmr_ok r -> (Z.of_nat (length (lmr_stored r)) < 2 ^ 63 - 1)%Z ->
    match omr_push_message r m with
    | (Ok _, r') => lmr_ok r' /\ exists id, lmr_stored r' = lmr_stored r ++ [message_of id m]
    | (_, r') => r' = r
    end;
  lmr_get : forall r p b n l, lmr_ok r -> 1 <= n -> omr_get_producer_messages r p b n = Ok l ->
    l = take n (above b (sent_by p (lmr_stored r)));
  lmr_latest : forall r l, lmr_ok r -> omr_get_latest_message_ids_by_producer r = Ok l ->
    NoDup (map fst l) /\
    forall p id, (p, id) ∈ l <-> om_message_id <$> last (sent_by p (lmr_stored r)) = Some id
}.
End Laws.

(** [valid c p]: [c] is or was a consumer of the messages of [p]. *)
Class LawfulConsumptionRepository (B : Type) `{OutboxMessageConsumptionRepository B}
    (valid : string -> string -> Prop) := {
  lcr_ok : B -> Prop;
  lcr_boundary : B -> string -> string -> option OutboxMessageID;
  lcr_list : forall b l, lcr_ok b -> ocr_list_consumption_boundaries b = Ok l ->
    forall c p id, valid c p ->
      mkOutboxMessageConsumptionBoundary p c id ∈ l <-> lcr_boundary b c p = Some id;
  lcr_create : forall b c p id, lcr_ok b -> valid c p ->
    match ocr_create_consumption_boundary b (mkOutboxMessageConsumptionBoundary p c id) with
    | (Ok _, b') => lcr_ok b' /\ lcr_boundary b c p = None /\
        forall c' p', valid c' p' ->
          lcr_boundary b' c' p' =
          if decide ((c', p') = (c, p)) then Some id else lcr_boundary b c' p'
    | (_, b') => b' = b
    end;
  lcr_update : forall b c p id, lcr_ok b -> valid c p ->
    match ocr_update_consumption_boundary b (mkOutboxMessageConsumptionBoundary p c id) with
    | (Ok _, b') => lcr_ok b' /\ is_Some (lcr_boundary b c p) /\
        forall c' p', valid c' p' ->
          lcr_boundary b' c' p' =
          if decide ((c', p') = (c, p)) then Some id else lcr_boundary b c' p'
    | (_, b') => b' = b
    end
}.

(** * The in-memory message repository *)

Lemma i64_add_small a : (0 <= a < 2 ^ 63 - 1)%Z -> i64_add a 1 = (a + 1)%Z.
Proof. intros Ha. unfold i64_add, two64. rewrite Z.mod_small by lia. lia. Qed.

Lemma btree_insert_last {V} k (v : V) l :
  Forall (fun x => x.1 < k)%Z l -> btree_insert k v l = l ++ [(k, v)].
Proof.
  induction 1 as [|[k' v'] l Hk _ IH]; [done|]. simpl in *.
  rewrite !decide_False by lia. by rewrite IH.
Qed.

Section InMemoryMessages.
Context {Json : Type}.
Implicit Types (r : InMemoryOutboxMessageRepository Json) (m : OutboxMessage Json).

Definition inmem_stored r : list (OutboxMessage Json) := map snd (ms_messages (imr_state r)).

(** Ids count the messages from 1. *)
Record messages_ok r : Prop := {
  mo_keys : Forall (fun x => x.1 = om_message_id x.2) (ms_messages (imr_state r));
  mo_ids : map om_message_id (inmem_stored r) = map Z.of_nat (seq 1 (length (inmem_stored r)));
  mo_last : ms_last_message_id (imr_state r) =
            match length (inmem_stored r) with 0 => None | n => Some (Z.of_nat n) end;
  mo_latest : forall p, ms_latest_message_id_by_producer (imr_state r) !! p =
                        om_message_id <$> last (sent_by p (inmem_stored r))
}.

Lemma messages_ok_new : messages_ok InMemoryOutboxMessageRepository_new.
Proof. by split. Qed.

Lemma stored_bound r m :
  messages_ok r -> m ∈ inmem_stored r -> (1 <= om_message_id m <= Z.of_nat (length (inmem_stored r)))%Z.
Proof.
  intros Hok Hm. assert (Hin : In (om_message_id m) (map om_message_id (inmem_stored r)))
    by (by apply in_map, list_elem_of_In).
  rewrite (mo_ids _ Hok) in Hin. apply in_map_iff in Hin as (n & <- & Hn%in_seq). lia.
Qed.

Lemma seq_sorted a n : StronglySorted Z.lt (map Z.of_nat (seq a n)).
Proof.
  revert a; induction n as [|n IH]; intros a; simpl; constructor; [apply IH|].
  apply Forall_forall. intros x Hx%list_elem_of_In. apply in_map_iff in Hx as (k & <- & Hk%in_seq). lia.
Qed.

Lemma messages_sorted r :
  messages_ok r -> increasing (inmem_stored r) /\ Forall (fun m => 0 < om_message_id m)%Z (inmem_stored r).
Proof.
  intros Hok. split; [unfold increasing; rewrite (mo_ids _ Hok); apply seq_sorted|].
  apply Forall_forall. intros m Hm. pose proof (stored_bound _ _ Hok Hm). lia.
Qed.

Lemma inmem_push_stored r new :
  messages_ok r -> (Z.of_nat (length (inmem_stored r)) < 2 ^ 63 - 1)%Z ->
  exists r', inmem_push_message r new = (Ok tt, r') /\ messages_ok r' /\
    exists id, inmem_stored r' = inmem_stored r ++ [message_of Json id new].
Proof.
  intros Hok Hroom. set (n := length (inmem_stored r)) in *. set (id := Z.of_nat (S n)).
  assert (Hid : (next_message_id (imr_state r)).1 = id).
  { unfold next_message_id. simpl. rewrite (mo_last _ Hok). fold n. unfold id. destruct n; [done|].
    rewrite i64_add_small by lia. lia. }
  assert (Hins : btree_insert id (message_of Json id new) (ms_messages (imr_state r)) =
                 ms_messages (imr_state r) ++ [(id, message_of Json id new)]).
  { apply btree_insert_last. apply Forall_forall. intros [k m] Hx. simpl.
    pose proof (mo_keys _ Hok) as Hk. rewrite Forall_forall in Hk. specialize (Hk _ Hx). simpl in Hk. subst k.
    assert (m ∈ inmem_stored r) as Hm.
    { apply list_elem_of_In, in_map_iff. exists (om_message_id m, m). split; [done|]. by apply list_elem_of_In. }
    pose proof (stored_bound _ _ Hok Hm). fold n in H. lia. }
  eexists. split; [reflexivity|].
  unfold inmem_push_message. unfold next_message_id in *. simpl in Hid. simpl. rewrite Hid.
  change (mkOutboxMessage id _ _ _) with (message_of Json id new). rewrite Hins.
  assert (Hst : forall a b, inmem_stored (mkInMemoryOutboxMessageRepository
            (mkMessagesState a (ms_messages (imr_state r) ++ [(id, message_of Json id new)]) b)) =
          inmem_stored r ++ [message_of Json id new]) by (intros; unfold inmem_stored; simpl; by rewrite map_app).
  split; [|by exists id].
  split.
  - simpl. apply Forall_app. split; [apply (mo_keys _ Hok)|]. by constructor.
  - rewrite Hst, map_app, length_app. fold n. simpl. rewrite Nat.add_1_r, seq_S, map_app.
    rewrite (mo_ids _ Hok). done.
  - rewrite Hst, length_app. fold n. simpl. rewrite Nat.add_1_r. done.
  - intros p. rewrite Hst, sent_by_app. simpl. case_bool_decide as Hp.
    + subst p. rewrite lookup_insert_eq, last_snoc. done.
    + rewrite lookup_insert_ne by done. rewrite app_nil_r. apply (mo_latest _ Hok).
Qed.

Lemma collect_messages_take p n (acc : list (OutboxMessage Json)) cursor :
  length acc < n ->
  collect_messages p n acc cursor = acc ++ take (n - length acc) (sent_by p (map snd cursor)).
Proof.
  revert acc; induction cursor as [|[k m] cursor IH]; intros acc Hn; simpl.
  { by rewrite take_nil, app_nil_r. }
  case_bool_decide as Hp.
  - rewrite length_app. simpl. case_decide as Hd.
    + replace (n - length acc) with 1 by lia. done.
    + rewrite IH by (rewrite length_app; simpl; lia). rewrite length_app, <- app_assoc. simpl.
      f_equal. destruct (n - length acc) eqn:Hna; [lia|]. simpl. f_equal. f_equal. lia.
  - by apply IH.
Qed.

Lemma btree_above_stored b (l : list (OutboxMessageID * OutboxMessage Json)) :
  Forall (fun x => x.1 = om_message_id x.2) l -> map snd (btree_above b l) = above b (map snd l).
Proof.
  induction 1 as [|[k m] l Hk _ IH]; [done|]. simpl in *. subst k. case_bool_decide; simpl; by rewrite IH.
Qed.

Lemma inmem_get_stored r p b n :
  messages_ok r -> 1 <= n ->
  inmem_get_producer_messages r p b n = Ok (take n (above b (sent_by p (inmem_stored r)))).
Proof.
  intros Hok Hn. unfold inmem_get_producer_messages. rewrite collect_messages_take by (simpl; lia).
  simpl. rewrite Nat.sub_0_r, btree_above_stored by apply (mo_keys _ Hok). by rewrite above_sent.
Qed.

#[export] Instance inmem_messages_lawful
  : LawfulMessageRepository Json (InMemoryOutboxMessageRepository Json).
Proof.
  refine {| lmr_ok := messages_ok; lmr_stored := inmem_stored |}.
  - apply messages_sorted.
  - intros r m Hok Hroom. destruct (inmem_push_stored r m Hok Hroom) as (r' & Hp & Hr').
    cbn [omr_push_message inmem_message_repository]. by rewrite Hp.
  - intros r p b n l Hok Hn. cbn [omr_get_producer_messages inmem_message_repository]. rewrite (inmem_get_stored _ _ _ _ Hok Hn). by intros [= <-].
  - intros r l Hok [= <-]. split; [apply NoDup_fst_map_to_list|].
    intros p id. by rewrite elem_of_map_to_list, (mo_latest _ Hok).
Defined.
End InMemoryMessages.

(** * The in-memory consumption repository *)

Section InMemoryBoundaries.
(** The keys of different routes differ. *)
Context (valid : string -> string -> Prop)
        (keys_differ : forall c p c' p', valid c p -> valid c' p' ->
           make_key c p = make_key c' p' -> c = c' /\ p = p').

Abbreviation entries b := (icr_consumption_boundaries b).

Definition boundaries_ok (b : InMemoryOutboxMessageConsumptionRepository) : Prop :=
  forall key v, entries b !! key = Some v ->
    key = make_key (ocb_consumer_name v) (ocb_producer_name v) /\
    valid (ocb_consumer_name v) (ocb_producer_name v).

Definition inmem_boundary (b : InMemoryOutboxMessageConsumptionRepository) (c p : string)
    : option OutboxMessageID := ocb_last_consumed_message_id <$> entries b !! make_key c p.

Lemma boundaries_ok_new : boundaries_ok InMemoryOutboxMessageConsumptionRepository_new.
Proof. by intros key v. Qed.

(** Setting the entry of a route changes the boundary of that route only. *)
Lemma boundary_set b c p id :
  boundaries_ok b -> valid c p ->
  let b' := mkInMemoryOutboxMessageConsumptionRepository
              (<[make_key c p := mkOutboxMessageConsumptionBoundary p c id]> (entries b)) in
  boundaries_ok b' /\
  forall c' p', valid c' p' ->
    inmem_boundary b' c' p' = if decide ((c', p') = (c, p)) then Some id else inmem_boundary b c' p'.
Proof.
  intros Hok Hv b'. split.
  - intros key v. simpl. rewrite lookup_insert_Some. intros [[<- <-]|[_ Hl]]; [done|]. by apply Hok.
  - intros c' p' Hv'. unfold inmem_boundary, b'. simpl. case_decide as Hd.
    + simplify_eq. by rewrite lookup_insert_eq.
    + rewrite lookup_insert_ne; [done|]. intros Hk. destruct (keys_differ _ _ _ _ Hv Hv' Hk). naive_solver.
Qed.

Lemma entry_route b c p v :
  boundaries_ok b -> valid c p -> entries b !! make_key c p = Some v ->
  ocb_consumer_name v = c /\ ocb_producer_name v = p.
Proof.
  intros Hok Hv Hl. destruct (Hok _ _ Hl) as [Hk Hv']. destruct (keys_differ _ _ _ _ Hv Hv' Hk). done.
Qed.

Definition inmem_boundaries_lawful
  : LawfulConsumptionRepository InMemoryOutboxMessageConsumptionRepository valid.
Proof using keys_differ.
  refine {| lcr_ok := boundaries_ok; lcr_boundary := inmem_boundary |}.
  - intros b l Hok [= <-] c p id Hv. unfold inmem_boundary. rewrite list_elem_of_In, in_map_iff. split.
    + intros ([key v] & Hs & Hin). simpl in Hs. subst v.
      apply list_elem_of_In, elem_of_map_to_list in Hin. destruct (Hok _ _ Hin) as [-> _].
      simpl in *. by rewrite Hin.
    + destruct (entries b !! make_key c p) as [v|] eqn:Hl; [|done]. intros [= <-].
      destruct (entry_route _ _ _ _ Hok Hv Hl) as [<- <-].
      exists (make_key (ocb_consumer_name v) (ocb_producer_name v), v). split; [by destruct v|].
      by apply list_elem_of_In, elem_of_map_to_list.
  - intros b c p id Hok Hv. simpl. unfold inmem_create_consumption_boundary. simpl.
    destruct (entries b !! make_key c p) eqn:Hl; [done|].
    destruct (boundary_set b c p id Hok Hv) as [H1 H2]. split; [done|]. split; [|done].
    unfold inmem_boundary. by rewrite Hl.
  - intros b c p id Hok Hv. simpl. unfold inmem_update_consumption_boundary. simpl.
    destruct (entries b !! make_key c p) as [v|] eqn:Hl; [|done].
    destruct (entry_route _ _ _ _ Hok Hv Hl) as [-> ->].
    destruct (boundary_set b c p id Hok Hv) as [H1 H2]. split; [done|]. split; [|done].
    unfold inmem_boundary. rewrite Hl. by eexists.
Defined.
End InMemoryBoundaries.
