(* ===== verification/OutboxRelay.v ===== *)
(** The relay of the outbox: consumers run concurrently, and still every consumer
    gets the messages of a producer one by one, in order and without a gap.

    Sources: src/utils/messaging-outbox/src/services/outbox_transactional_processor.rs.

    [relay_step] has all the interleavings of the futures of an iteration, of
    messages that are posted meanwhile, and of restarts after a failure.  Reading
    the latest ids and the boundaries is one step: only the processor moves
    boundaries, and messages posted in between are seen in the next iteration. *)

From Stdlib Require Import Sorted.
From S2P Require Import Prelude Outbox OutboxLaws.

Section Relay.
Context {Json MType Msg C R B : Type}
        `{OutboxMessageRepository Json R} `{OutboxMessageConsumptionRepository B}
        {Env : OutboxEnvironment Json MType Msg C}
        {LM : LawfulMessageRepository Json R}
        {valid : string -> string -> Prop} {LB : LawfulConsumptionRepository B valid}.

Implicit Types (w : OutboxWorld C R B) (c p : string) (m : OutboxMessage Json).

(** * The state of the routes *)

Definition stored w : list (OutboxMessage Json) := lmr_stored Json (ow_messages w).
Definition sent w p : list (OutboxMessage Json) := sent_by p (stored w).
Definition boundary w c p : option OutboxMessageID := lcr_boundary (ow_boundaries w) c p.

(** The ids of the messages of [p] that [c] consumed, in that order. *)
Definition consumed w c p : list OutboxMessageID :=
  omap (fun '(p', c', id) => if decide ((c', p') = (c, p)) then Some id else None) (ow_log w).

Definition unconsumed w c p : list (OutboxMessage Json) :=
  above (default 0%Z (boundary w c p)) (sent w p).

(** A boundary that was reached by consuming all messages up to it. *)
Record route_ok w c p (b : OutboxMessageID) : Prop := {
  ro_reached : b = 0%Z \/ b ∈ map om_message_id (stored w);
  ro_consumed : consumed w c p = map om_message_id (upto b (sent w p))
}.

Record relay_ok w : Prop := {
  rk_messages : lmr_ok Json (ow_messages w);
  rk_boundaries : lcr_ok (ow_boundaries w);
  rk_count : length (stored w) <= ow_pushes w;
  rk_routes : forall c p, valid c p ->
    match boundary w c p with Some b => route_ok w c p b | None => consumed w c p = [] end
}.

(** Ids are not exhausted. *)
Definition ids_left w : Prop := (Z.of_nat (ow_pushes w) < 2 ^ 63 - 1)%Z.

Definition grows w w' : Prop := exists more, stored w' = stored w ++ more.

#[local] Instance grows_preorder : PreOrder grows.
Proof.
  split; [intros w; exists []; by rewrite app_nil_r|].
  intros w1 w2 w3 [m1 H1] [m2 H2]. exists (m1 ++ m2). by rewrite H2, H1, app_assoc.
Qed.

Lemma grows_sent w w' p : grows w w' -> exists more, sent w' p = sent w p ++ more.
Proof. intros [more Hm]. exists (sent_by p more). unfold sent. by rewrite Hm, sent_by_app. Qed.

Lemma sent_increasing w p : relay_ok w -> increasing (sent w p).
Proof. intros Hok. apply increasing_filter, (lmr_sorted Json _ (rk_messages _ Hok)). Qed.

Lemma sent_positive w p : relay_ok w -> Forall (fun m => 0 < om_message_id m)%Z (sent w p).
Proof.
  intros Hok. destruct (lmr_sorted Json _ (rk_messages _ Hok)) as [_ Hpos].
  apply Forall_forall. intros m. unfold sent, sent_by. rewrite list_elem_of_In, filter_In.
  intros [Hm _]. rewrite Forall_forall in Hpos. apply Hpos. by apply list_elem_of_In.
Qed.

(** New messages come after every boundary. *)
Lemma new_above r b more l :
  lmr_ok Json r -> lmr_stored Json r = l ++ more -> b = 0%Z \/ b ∈ map om_message_id l ->
  Forall (fun m => b < om_message_id m)%Z more.
Proof.
  intros Hok Hl Hb. destruct (lmr_sorted Json _ Hok) as [Hs Hpos]. rewrite Hl in *.
  destruct Hb as [->|Hb]; [by apply Forall_app in Hpos as [_ ?]|].
  apply list_elem_of_In, in_map_iff in Hb as (m & <- & Hm). clear -Hs Hm.
  induction l as [|x l IH]; [done|]. simpl in Hs. apply increasing_cons in Hs as [Hs Hx].
  destruct Hm as [->|Hm]; [by apply Forall_app in Hx as [_ ?]|]. by apply IH.
Qed.

(** Storing more messages, and whatever the components do, keeps the routes. *)
Lemma relay_ok_grow w r' cs n more :
  relay_ok w -> lmr_ok Json r' -> lmr_stored Json r' = stored w ++ more ->
  length (lmr_stored Json r') <= n ->
  relay_ok (mkOutboxWorld r' (ow_boundaries w) cs (ow_log w) n).
Proof.
  intros Hok Hr Hst Hn. split; [done|apply Hok|done|]. intros c p Hv.
  pose proof (rk_routes _ Hok c p Hv) as Hroute. unfold boundary in *. simpl.
  destruct (lcr_boundary (ow_boundaries w) c p) as [b|] eqn:Hb; [|exact Hroute].
  destruct Hroute as [Hre Hco]. split.
  - destruct Hre as [|Hre]; [by left|right]. unfold stored. simpl. rewrite Hst, map_app.
    apply elem_of_app. by left.
  - change (consumed w c p = map om_message_id (upto b (sent_by p (lmr_stored Json r')))).
    rewrite Hst, sent_by_app, upto_app, Hco. rewrite (upto_none b (sent_by p more)); [by rewrite app_nil_r|].
    pose proof (new_above _ b more _ Hr Hst Hre) as Hab. apply Forall_forall.
    intros m. unfold sent_by. rewrite list_elem_of_In, filter_In. intros [Hm _].
    rewrite Forall_forall in Hab. apply Hab. by apply list_elem_of_In.
Qed.

(** * Posting and dispatching *)

Lemma push_all_ok r posts x r' :
  lmr_ok Json r -> (Z.of_nat (length (lmr_stored Json r) + length posts) < 2 ^ 63 - 1)%Z ->
  push_all r posts = (x, r') ->
  lmr_ok Json r' /\ exists more, lmr_stored Json r' = lmr_stored Json r ++ more /\
    length more <= length posts.
Proof.
  revert r; induction posts as [|m posts IH]; intros r Hok Hn Hp; simpl in *.
  { simplify_eq. split; [done|]. exists []. by rewrite app_nil_r. }
  pose proof (lmr_push Json r m Hok ltac:(lia)) as Hpush.
  destruct (omr_push_message r m) as [[u|e|] r1].
  - destruct Hpush as [Hok1 [id Hst]]. destruct (IH r1 Hok1) as (Hok' & more & Hm & Hl); [|done|].
    { rewrite Hst, length_app. simpl. lia. }
    split; [done|]. exists (message_of Json id m :: more). rewrite Hm, Hst, <- app_assoc. simpl. split; [done|lia].
  - simplify_eq. split; [done|]. exists []. rewrite app_nil_r. split; [done|simpl; lia].
  - simplify_eq. split; [done|]. exists []. rewrite app_nil_r. split; [done|simpl; lia].
Qed.

(** What an action that only posts messages does. *)
Definition posts_only w w' : Prop :=
  (relay_ok w -> ids_left w' -> relay_ok w' /\ grows w w') /\
  ow_boundaries w' = ow_boundaries w /\ ow_log w' = ow_log w /\ ow_pushes w <= ow_pushes w'.

#[local] Instance posts_only_preorder : PreOrder posts_only.
Proof.
  split; [by intros w; split_and!|]. intros w1 w2 w3 (H1 & B1 & L1 & P1) (H2 & B2 & L2 & P2).
  split_and!; [|congruence..|lia]. intros Hok Hids.
  destruct H1 as [Hok2 Hg1]; [done|unfold ids_left in *; lia|].
  destruct H2 as [Hok3 Hg2]; [done..|]. split; [done|]. by etrans.
Qed.

Lemma run_consumer_posts consume (message : Msg) w x w' :
  run_consumer consume message w = (x, w') -> posts_only w w'.
Proof.
  unfold run_consumer. destruct (consume message (ow_components w)) as [[r c'] posts].
  destruct (push_all (ow_messages w) posts) as [pushed r'] eqn:Hp. intros [= _ <-].
  split_and!; [|done..|simpl; lia]. unfold ids_left. simpl. intros Hok Hids.
  pose proof (rk_count _ Hok) as Hcount. unfold stored in Hcount.
  destruct (push_all_ok (ow_messages w) posts pushed r' (rk_messages _ Hok)) as (Hr' & more & Hm & Hl);
    [lia|done|].
  split; [|by exists more]. eapply relay_ok_grow; [done..|]. rewrite Hm, length_app. lia.
Qed.

Lemma for_each_posts {A} (f : A -> action (OutboxWorld C R B) InternalError unit) l w x w' :
  (forall a w x w', f a w = (x, w') -> posts_only w w') -> for_each f l w = (x, w') -> posts_only w w'.
Proof.
  intros Hf. revert w; induction l as [|a l IH]; intros w Hw; simpl in Hw.
  { unfold mret, action_ret in Hw. by simplify_eq. }
  unfold mbind, action_bind in Hw. destruct (f a w) as [[u|e|] w1] eqn:Ha; simplify_eq; [|by eapply Hf..].
  etrans; [by eapply Hf|]. by apply IH.
Qed.

Lemma dispatch_posts (d : MessageDispatcher MType) f json w x w' :
  dispatch_message d f json w = (x, w') -> posts_only w w'.
Proof.
  unfold dispatch_message, consume_deserialized_message. unfold mbind, action_bind, lift.
  destruct (oe_parse (md_message_type d) json) as [msg|]; [|by intros [= _ <-]].
  apply for_each_posts. intros consume w0 x0 w0'. apply run_consumer_posts.
Qed.

Lemma post_posts now p json w x w' :
  transactional_post now p json w = (x, w') -> posts_only w w'.
Proof.
  unfold transactional_post. destruct (omr_push_message _ _) as [r r'] eqn:Hp. intros [= _ <-].
  split_and!; [|done..|simpl; lia]. unfold ids_left. simpl. intros Hok Hids.
  pose proof (rk_count _ Hok) as Hcount. unfold stored in Hcount.
  destruct (push_all_ok (ow_messages w) [mkNewOutboxMessage p json now] r r' (rk_messages _ Hok))
    as (Hr' & more & Hm & Hl); [simpl; lia| |].
  { simpl. rewrite Hp. by destruct r as [[]|[]|]. }
  simpl in Hl. split; [|by exists more]. eapply relay_ok_grow; [done..|]. rewrite Hm, length_app. lia.
Qed.

(** * Invoking a consumer *)

Lemma unconsumed_grows w w' c p :
  grows w w' -> ow_boundaries w' = ow_boundaries w -> unconsumed w c p `prefix_of` unconsumed w' c p.
Proof.
  intros Hg Hb. destruct (grows_sent w w' p Hg) as [more Hm]. unfold unconsumed, boundary.
  rewrite Hb, Hm, above_app. by eexists.
Qed.

(** The world after a committed consumption. *)
Definition consume_in w (bs : B) c p (id : OutboxMessageID) : OutboxWorld C R B :=
  mkOutboxWorld (ow_messages w) bs (ow_components w) (ow_log w ++ [(p, c, id)]) (ow_pushes w).

Lemma consumed_snoc w bs c p id c' p' :
  consumed (consume_in w bs c p id) c' p' =
  consumed w c' p' ++ (if decide ((c', p') = (c, p)) then [id] else []).
Proof.
  unfold consumed, consume_in. simpl. rewrite omap_app. f_equal. simpl.
  destruct (decide ((c, p) = (c', p'))) as [He|He], (decide ((c', p') = (c, p))); naive_solver.
Qed.

Lemma relay_ok_consume w bs c m rest :
  let p := om_producer_name m in
  relay_ok w -> valid c p -> is_Some (boundary w c p) -> unconsumed w c p = m :: rest ->
  lcr_ok bs ->
  (forall c' p', valid c' p' -> lcr_boundary bs c' p' =
     if decide ((c', p') = (c, p)) then Some (om_message_id m) else boundary w c' p') ->
  relay_ok (consume_in w bs c p (om_message_id m)).
Proof.
  intros p Hok Hv [b Hb] Hun Hbs Hall. unfold unconsumed in Hun. rewrite Hb in Hun. simpl in Hun.
  split; [apply Hok|done|apply Hok|]. intros c' p' Hv'. rewrite consumed_snoc.
  unfold boundary at 1. simpl. rewrite (Hall c' p' Hv').
  pose proof (rk_routes _ Hok c' p' Hv') as Hroute.
  destruct (decide ((c', p') = (c, p))) as [He|Hne].
  2: { rewrite app_nil_r. destruct (boundary w c' p'); [|done]. destruct Hroute as [Hre Hco].
       split; [exact Hre|]. rewrite consumed_snoc, decide_False, app_nil_r by done. exact Hco. }
  injection He as -> ->. rewrite Hb in Hroute. destruct Hroute as [Hre Hco].
  destruct (advance _ _ _ _ (sent_increasing w p Hok) Hun) as [_ Hup]. split.
  - right. apply list_elem_of_In, in_map.
    assert (Hin : In m (above b (sent w p))) by (rewrite Hun; by left).
    unfold above, sent, sent_by in Hin. rewrite !filter_In in Hin. apply Hin.
  - rewrite consumed_snoc, decide_True by done. unfold sent, stored in *. simpl.
    rewrite Hup, map_app, Hco. done.
Qed.

(** What an invocation does: nothing to any boundary if it fails, and one step of
    its own route if it succeeds. *)
Record invoked (x : res InternalError unit) c m w w' : Prop := {
  iv_ok : relay_ok w';
  iv_grows : grows w w';
  iv_others : forall c' p', valid c' p' -> (c', p') <> (c, om_producer_name m) ->
    boundary w' c' p' = boundary w c' p' /\ consumed w' c' p' = consumed w c' p';
  iv_own : match x with
    | Ok _ => is_Some (boundary w c (om_producer_name m)) /\
        boundary w' c (om_producer_name m) = Some (om_message_id m) /\
        consumed w' c (om_producer_name m) =
        consumed w c (om_producer_name m) ++ [om_message_id m]
    | _ => boundary w' c (om_producer_name m) = boundary w c (om_producer_name m) /\
        consumed w' c (om_producer_name m) = consumed w c (om_producer_name m)
    end
}.

Lemma relay_ok_pushes w cs n :
  relay_ok w -> ow_pushes w <= n ->
  relay_ok (mkOutboxWorld (ow_messages w) (ow_boundaries w) cs (ow_log w) n).
Proof.
  intros Hok Hn. pose proof (rk_count _ Hok).
  eapply (relay_ok_grow w (ow_messages w) cs n []); [done|apply Hok|by rewrite app_nil_r|].
  unfold stored in *. lia.
Qed.

Lemma failed_invoked (x : res InternalError unit) c m w w' :
  (forall u, x <> Ok u) -> relay_ok w' -> grows w w' -> ow_log w' = ow_log w ->
  (forall c' p', valid c' p' -> boundary w' c' p' = boundary w c' p') ->
  valid c (om_producer_name m) -> invoked x c m w w'.
Proof.
  intros Hx Hok Hg Hl Hb Hv.
  assert (Hc : forall c' p', consumed w' c' p' = consumed w c' p') by (intros; unfold consumed; by rewrite Hl).
  split; [done|done|auto|]. destruct x as [[]| |]; [by destruct (Hx tt)|auto..].
Qed.

Lemma invoke_pushes (p0 : OutboxTransactionalProcessor MType) c m w x w' :
  invoke_consumer p0 c m w = (x, w') -> ow_pushes w <= ow_pushes w'.
Proof.
  unfold invoke_consumer, transactional, mbind, action_bind, lift.
  destruct (unwrap (otp_dispatchers p0 !! om_producer_name m)) as [d|e|];
    [|intros [= _ <-]; by destruct oe_has_transactions..].
  destruct (dispatch_message d (ConsumerFilter_SelectedConsumer c) (om_content_json m) w)
    as [x1 w1] eqn:Hd. destruct (dispatch_posts _ _ _ _ _ _ Hd) as (_ & _ & _ & Hp).
  destruct x1 as [u|e|]; [|intros [= _ <-]; by destruct oe_has_transactions..].
  unfold update_boundary. destruct (ocr_update_consumption_boundary _ _) as [[[]|e|] bs]; simpl;
    intros [= _ <-]; try destruct oe_has_transactions; simpl; lia.
Qed.

Lemma invoke_ok (p0 : OutboxTransactionalProcessor MType) c m w x w' :
  invoke_consumer p0 c m w = (x, w') -> relay_ok w -> ids_left w' ->
  valid c (om_producer_name m) ->
  (is_Some (boundary w c (om_producer_name m)) ->
     exists rest, unconsumed w c (om_producer_name m) = m :: rest) ->
  invoked x c m w w'.
Proof.
  intros Hinv Hok Hids Hv Hhead. pose proof (invoke_pushes _ _ _ _ _ _ Hinv) as Hpu.
  revert Hinv. unfold invoke_consumer, transactional, mbind, action_bind, lift.
  assert (Hrb : forall (y : res InternalError unit) w1, (forall u, y <> Ok u) ->
    relay_ok w1 -> grows w w1 -> ow_log w1 = ow_log w ->
    (forall c' p', valid c' p' -> boundary w1 c' p' = boundary w c' p') -> ow_pushes w <= ow_pushes w1 ->
    invoked y c m w (if oe_has_transactions
        then mkOutboxWorld (ow_messages w) (ow_boundaries w)
               (oe_rollback_components (ow_components w) (ow_components w1)) (ow_log w) (ow_pushes w1)
        else w1)).
  { intros y w1 Hy Hw1 Hg Hl Hb Hp1. destruct oe_has_transactions; [|by apply failed_invoked].
    apply failed_invoked; try done; [by apply relay_ok_pushes|]. exists []. by rewrite app_nil_r. }
  destruct (unwrap (otp_dispatchers p0 !! om_producer_name m)) as [d|e|];
    [|intros [= <- <-]; by apply Hrb..].
  destruct (dispatch_message d (ConsumerFilter_SelectedConsumer c) (om_content_json m) w)
    as [x1 w1] eqn:Hd. destruct (dispatch_posts _ _ _ _ _ _ Hd) as (Hpo & Hbo & Hlo & Hp).
  assert (Hbo' : forall c' p', boundary w1 c' p' = boundary w c' p')
    by (intros; unfold boundary; by rewrite Hbo).
  assert (Hcase : ids_left w1 -> relay_ok w1 /\ grows w w1) by auto.
  destruct x1 as [u|e|].
  2,3: intros [= <- <-]; destruct Hcase as [Hok1 Hg1];
    [unfold ids_left in *; destruct oe_has_transactions; simpl in *; lia|]; by apply Hrb.
  unfold update_boundary.
  assert (Heta : mkOutboxWorld (ow_messages w1) (ow_boundaries w1) (ow_components w1) (ow_log w1)
                   (ow_pushes w1) = w1) by (by destruct w1).
  pose proof (fun Ho => lcr_update (ow_boundaries w1) c (om_producer_name m) (om_message_id m) Ho Hv) as Hup.
  destruct (ocr_update_consumption_boundary _ _) as [[[]|e|] bs] eqn:Hu; simpl; intros [= <- <-].
  - destruct Hcase as [Hok1 Hg1]; [done|]. destruct Hup as (Hbs & Hsome & Hall); [apply Hok1|].
    change (lcr_boundary (ow_boundaries w1) ?a ?b) with (boundary w1 a b) in *.
    rewrite Hbo' in Hsome. destruct (Hhead Hsome) as [rest Hrest].
    destruct (unconsumed_grows w w1 c (om_producer_name m) Hg1 Hbo) as [k Hk]. rewrite Hrest in Hk.
    change (mkOutboxWorld _ _ _ _ _) with (consume_in w1 bs c (om_producer_name m) (om_message_id m)).
    assert (Hcs : forall c' p', consumed w1 c' p' = consumed w c' p')
      by (intros; unfold consumed; by rewrite Hlo).
    split.
    + eapply relay_ok_consume; [done|done|by rewrite Hbo'|exact Hk|done|exact Hall].
    + destruct Hg1 as [more Hm]. by exists more.
    + intros c' p' Hv' Hne. rewrite consumed_snoc, decide_False, app_nil_r by done. split; [|done].
      unfold boundary at 1. simpl. rewrite Hall, decide_False by done. apply Hbo'.
    + rewrite consumed_snoc, decide_True by done. split; [done|]. split; [|by rewrite Hcs].
      unfold boundary. simpl. by rewrite Hall, decide_True.
  - destruct Hcase as [Hok1 Hg1]; [unfold ids_left in *; destruct oe_has_transactions; simpl in *; lia|].
    rewrite (Hup (rk_boundaries _ Hok1)) in *.
    rewrite Heta. by apply Hrb.
  - destruct Hcase as [Hok1 Hg1]; [unfold ids_left in *; destruct oe_has_transactions; simpl in *; lia|].
    rewrite (Hup (rk_boundaries _ Hok1)) in *.
    rewrite Heta. by apply Hrb.
Qed.

(** * Running jobs *)

(** A job that has not loaded its messages yet, or one with the messages left and,
    for each, the consumers that are still to be invoked. *)
Inductive RunningJob :=
| RunningJob_Start (job : ProducerRelayJob) (latest : OutboxMessageID)
    (boundaries : gmap string OutboxMessageID)
| RunningJob_Feed (job : ProducerRelayJob) (todo : list (OutboxMessage Json * list string)).

Definition job_of (j : RunningJob) : ProducerRelayJob :=
  match j with RunningJob_Start job _ _ | RunningJob_Feed job _ => job end.

Abbreviation producer_of j := (prj_producer_name (job_of j)).

(** The messages a consumer still gets. *)
Definition awaiting c (todo : list (OutboxMessage Json * list string)) : list (OutboxMessage Json) :=
  map fst (List.filter (fun '(_, tasks) => bool_decide (c ∈ tasks)) todo).

Definition todo_of (job : ProducerRelayJob) (boundaries : gmap string OutboxMessageID)
    (messages : list (OutboxMessage Json)) : list (OutboxMessage Json * list string) :=
  map (fun m => (m, consumer_tasks job boundaries m)) messages.

Definition consumers_valid (job : ProducerRelayJob) : Prop :=
  forall c, c ∈ prj_consumer_names job -> valid c (prj_producer_name job).

Definition job_ok w (j : RunningJob) : Prop :=
  consumers_valid (job_of j) /\
  match j with
  | RunningJob_Start job _ b =>
      forall c, c ∈ prj_consumer_names job -> b !! c = boundary w c (prj_producer_name job)
  | RunningJob_Feed job todo =>
      (forall m tasks, (m, tasks) ∈ todo ->
         om_producer_name m = prj_producer_name job /\ tasks ⊆ prj_consumer_names job) /\
      (forall c, c ∈ prj_consumer_names job -> is_Some (boundary w c (prj_producer_name job)) ->
         awaiting c todo `prefix_of` unconsumed w c (prj_producer_name job))
  end.

(** A job is not disturbed by what leaves the boundaries of its producer alone. *)
Lemma job_ok_frame w w' j :
  job_ok w j -> grows w w' ->
  (forall c, valid c (producer_of j) -> boundary w' c (producer_of j) = boundary w c (producer_of j)) ->
  job_ok w' j.
Proof.
  intros [Hv Hj] Hg Hb. split; [done|]. destruct j as [job latest b|job todo]; simpl in *.
  - intros c Hc. rewrite Hb by auto. auto.
  - destruct Hj as [Ht Ha]. split; [done|]. intros c Hc Hs. rewrite Hb in Hs by auto.
    etrans; [by apply Ha|]. destruct (grows_sent w w' (prj_producer_name job) Hg) as [more Hm].
    unfold unconsumed. rewrite Hb, Hm, above_app by auto. by eexists.
Qed.

(** The next invocation of a job is on the next message of the consumer. *)
Lemma job_head w job m tasks todo c :
  job_ok w (RunningJob_Feed job ((m, tasks) :: todo)) -> c ∈ tasks ->
  valid c (om_producer_name m) /\
  (is_Some (boundary w c (om_producer_name m)) ->
     exists rest, unconsumed w c (om_producer_name m) = m :: rest).
Proof.
  intros [Hv [Ht Ha]] Hc. destruct (Ht m tasks) as [Hp Hs]; [by left|]. rewrite Hp.
  simpl in *. split; [by apply Hv, Hs|]. intros Hb. destruct (Ha c (Hs c Hc) Hb) as [k Hk].
  unfold awaiting in Hk. simpl in Hk. rewrite bool_decide_eq_true_2 in Hk by done.
  simpl in Hk. by eexists.
Qed.

Definition drop_task c (tasks : list string) : list string :=
  List.filter (fun c' => negb (bool_decide (c' = c))) tasks.

Lemma elem_of_drop_task c tasks c' : c' ∈ drop_task c tasks <-> c' ∈ tasks /\ c' <> c.
Proof.
  unfold drop_task. rewrite !list_elem_of_In, filter_In, negb_true_iff, bool_decide_eq_false. done.
Qed.

Lemma awaiting_drop c m tasks todo c' :
  awaiting c' ((m, drop_task c tasks) :: todo) =
  if decide (c' = c) then awaiting c' todo else awaiting c' ((m, tasks) :: todo).
Proof.
  unfold awaiting. simpl. case_decide as Hd.
  - subst. rewrite bool_decide_eq_false_2; [done|]. rewrite elem_of_drop_task. tauto.
  - rewrite (bool_decide_ext (c' ∈ drop_task c tasks) (c' ∈ tasks)); [by case_bool_decide|].
    rewrite elem_of_drop_task. tauto.
Qed.

(** A successful invocation brings the job one step forward. *)
Lemma job_invoked w w' job m tasks todo c :
  job_ok w (RunningJob_Feed job ((m, tasks) :: todo)) -> c ∈ tasks -> relay_ok w ->
  invoked (Ok tt) c m w w' ->
  job_ok w' (RunningJob_Feed job ((m, drop_task c tasks) :: todo)).
Proof.
  intros Hj Hc Hok Hi. destruct (job_head _ _ _ _ _ _ Hj Hc) as [Hvc Hhead].
  destruct Hj as [Hv [Ht Ha]]. simpl in *. destruct (Ht m tasks) as [Hp Hs]; [by left|].
  pose proof (iv_own _ _ _ _ _ Hi) as (Hsome & Hbo & _).
  split; [done|]. split.
  { intros m' tasks' [[= -> ->]|Hin]%elem_of_cons; [|apply Ht; by right].
    split; [done|]. intros c' [Hc' _]%elem_of_drop_task. by apply Hs. }
  intros c' Hc' Hs'. rewrite awaiting_drop. destruct (decide (c' = c)) as [->|Hne].
  - destruct (Hhead Hsome) as [rest Hrest].
    destruct (Ha c (Hs c Hc)) as [k Hk]; [by rewrite <- Hp|].
    unfold awaiting in Hk. simpl in Hk. rewrite bool_decide_eq_true_2 in Hk by done. simpl in Hk.
    rewrite <- Hp in Hk. rewrite Hrest in Hk. injection Hk as Hk. fold (awaiting c todo) in Hk.
    unfold unconsumed in Hrest |- *. rewrite <- Hp, Hbo. simpl.
    destruct Hsome as [b Hb]. rewrite Hb in Hrest. simpl in Hrest.
    destruct (advance _ _ _ _ (sent_increasing w _ Hok) Hrest) as [Hadv _].
    destruct (grows_sent w w' (om_producer_name m) (iv_grows _ _ _ _ _ Hi)) as [more Hm].
    rewrite Hm, above_app, Hadv, Hk, <- app_assoc. by eexists.
  - destruct (iv_others _ _ _ _ _ Hi c' (prj_producer_name job)) as [Hb' _];
      [by apply Hv|rewrite Hp; naive_solver|].
    rewrite Hb' in Hs'. etrans; [by apply Ha|].
    destruct (grows_sent w w' (prj_producer_name job) (iv_grows _ _ _ _ _ Hi)) as [more Hm].
    unfold unconsumed. rewrite Hb', Hm, above_app. by eexists.
Qed.

Lemma awaiting_todo c job boundaries messages :
  c ∈ prj_consumer_names job ->
  awaiting c (todo_of job boundaries messages) = above (default 0%Z (boundaries !! c)) messages.
Proof.
  intros Hc. unfold awaiting, todo_of, above. induction messages as [|m messages IH]; [done|]. simpl.
  assert (Hiff : c ∈ consumer_tasks job boundaries m <-> (default 0%Z (boundaries !! c) < om_message_id m)%Z).
  { unfold consumer_tasks. rewrite list_elem_of_In, filter_In, bool_decide_eq_true, <- list_elem_of_In. tauto. }
  rewrite (bool_decide_ext _ _ Hiff). case_bool_decide; simpl; by rewrite IH.
Qed.

(** The messages loaded from the earliest boundary on are next for every consumer. *)
Lemma determine_le e cs bs id :
  determine_processed_boundary_id e cs bs = Some id ->
  (forall e', e = Some e' -> (0 <= e')%Z) -> (forall c b, c ∈ cs -> bs !! c = Some b -> (0 <= b)%Z) ->
  (0 <= id)%Z /\ (forall e', e = Some e' -> (id <= e')%Z) /\
  forall c, c ∈ cs -> (id <= default 0%Z (bs !! c))%Z.
Proof.
  revert e; induction cs as [|c cs IH]; intros e Hd He Hbs; simpl in Hd.
  { subst e. split; [auto|]. split; [by intros ? [= ->]|by intros c ?%elem_of_nil]. }
  destruct (bs !! c) as [b|] eqn:Hb.
  - pose proof (Hbs c b ltac:(by left) Hb) as Hpos.
    destruct (IH _ Hd) as (H1 & H2 & H3);
      [destruct e as [x|]; [case_decide|]; naive_solver|intros ? ? ?; apply Hbs; by right|].
    split; [done|]. split.
    + intros e' ->. destruct (decide (b < e')%Z); [specialize (H2 _ eq_refl); lia|auto].
    + intros c' [->|Hc']%elem_of_cons; [|by apply H3]. rewrite Hb. simpl.
      destruct e as [e'|]; [|auto]. destruct (decide (b < e')%Z); [auto|]. specialize (H2 _ eq_refl). lia.
  - injection Hd as <-. split; [done|]. split; [auto|]. intros c' Hc'.
    destruct (bs !! c') as [b|] eqn:Hb'; simpl; [by apply (Hbs c')|done].
Qed.

Lemma boundary_positive w c p b : relay_ok w -> valid c p -> boundary w c p = Some b -> (0 <= b)%Z.
Proof.
  intros Hok Hv Hb. pose proof (rk_routes _ Hok c p Hv) as Hr. rewrite Hb in Hr.
  destruct Hr as [[->|Hin] _]; [done|]. apply list_elem_of_In, in_map_iff in Hin as (m & <- & Hm).
  destruct (lmr_sorted Json _ (rk_messages _ Hok)) as [_ Hpos]. rewrite Forall_forall in Hpos.
  specialize (Hpos m ltac:(by apply list_elem_of_In)). simpl in Hpos. lia.
Qed.

Lemma earliest_le w job b id c :
  consumers_valid job -> relay_ok w ->
  (forall c, c ∈ prj_consumer_names job -> b !! c = boundary w c (prj_producer_name job)) ->
  determine_processed_boundary_id None (prj_consumer_names job) b = Some id ->
  c ∈ prj_consumer_names job -> (id <= default 0%Z (b !! c))%Z.
Proof.
  intros Hv Hok Hb Hd Hc. destruct (determine_le _ _ _ _ Hd) as (_ & _ & Hle); [done| |by apply Hle].
  intros c' b' Hc' Hb'. rewrite Hb in Hb' by done. eapply boundary_positive; [done| |exact Hb']. auto.
Qed.

Lemma job_loaded w job latest b id n :
  job_ok w (RunningJob_Start job latest b) -> relay_ok w ->
  determine_processed_boundary_id None (prj_consumer_names job) b = Some id ->
  job_ok w (RunningJob_Feed job (todo_of job b (take n (above id (sent w (prj_producer_name job)))))).
Proof.
  intros [Hv Hb] Hok Hd. split; [done|]. simpl in *. split.
  - intros m tasks Hin. unfold todo_of in Hin. apply list_elem_of_In, in_map_iff in Hin as (m' & [= -> <-] & Hm).
    split.
    + apply list_elem_of_In, elem_of_take in Hm as (i & Hi & _). apply list_elem_of_lookup_2 in Hi.
      unfold above, sent, sent_by in Hi. rewrite list_elem_of_In, !filter_In in Hi.
      destruct Hi as [[_ Hp] _]. by apply bool_decide_eq_true in Hp.
    + intros c. unfold consumer_tasks. rewrite !list_elem_of_In, filter_In. by intros [? _].
  - intros c Hc _. rewrite awaiting_todo by done. unfold unconsumed. rewrite <- Hb by done.
    etrans; [apply above_prefix; eexists; symmetry; apply take_drop|].
    rewrite above_above; [done|]. by eapply earliest_le.
Qed.

(** * Boundaries and jobs of an iteration *)

Definition lookup2 (bs : gmap string (gmap string OutboxMessageID)) p c : option OutboxMessageID :=
  match bs !! p with Some b => b !! c | None => None end.

Lemma lookup2_insert bs p c id p' c' :
  lookup2 (<[p := <[c := id]> (default ∅ (bs !! p))]> bs) p' c' =
  if decide ((p', c') = (p, c)) then Some id else lookup2 bs p' c'.
Proof.
  unfold lookup2. destruct (decide (p' = p)) as [->|Hp].
  - rewrite lookup_insert_eq. simpl. destruct (decide (c' = c)) as [->|Hc].
    + by rewrite lookup_insert_eq, decide_True.
    + rewrite lookup_insert_ne, decide_False by naive_solver. by destruct (bs !! p).
  - rewrite lookup_insert_ne by done. by rewrite decide_False by naive_solver.
Qed.

(** The last entry of a route counts. *)
Lemma organize_lookup l p c :
  match lookup2 (organize_boundaries l) p c with
  | Some id => mkOutboxMessageConsumptionBoundary p c id ∈ l
  | None => forall id, mkOutboxMessageConsumptionBoundary p c id ∉ l
  end.
Proof.
  unfold organize_boundaries. induction l as [|x l IH] using rev_ind.
  { unfold lookup2. simpl. rewrite lookup_empty. intros id. by apply not_elem_of_nil. }
  rewrite foldl_app. simpl. rewrite lookup2_insert. destruct x as [p' c' id']. simpl.
  destruct (decide ((p, c) = (p', c'))) as [He|Hne].
  - simplify_eq. apply elem_of_app. right. by left.
  - destruct (lookup2 _ p c) as [id|]; [apply elem_of_app; by left|]. intros id.
    rewrite elem_of_app, list_elem_of_singleton. intros [Hin|Hin]; [by eapply IH|]. naive_solver.
Qed.

Lemma organize_boundary w l c p :
  relay_ok w -> valid c p -> ocr_list_consumption_boundaries (ow_boundaries w) = Ok l ->
  lookup2 (organize_boundaries l) p c = boundary w c p.
Proof.
  intros Hok Hv Hl. pose proof (lcr_list _ _ (rk_boundaries _ Hok) Hl c p) as Hiff.
  pose proof (organize_lookup l p c) as Ho. destruct (lookup2 _ p c) as [id|].
  - symmetry. by apply Hiff.
  - symmetry. apply eq_None_not_Some. intros [id Hid]. apply (Ho id). by apply Hiff.
Qed.

Lemma prepare_sublist latest bs jobs :
  map (fun x => x.1.1) (prepare_tasks latest bs jobs) `sublist_of` jobs.
Proof.
  revert bs; induction jobs as [|job jobs IH]; intros bs; simpl; [constructor|].
  destruct (latest !! _); [|by constructor]. destruct (bs !! _); [|by constructor].
  simpl. by constructor.
Qed.

Lemma prepare_elem latest bs jobs job lid b :
  (job, lid, b) ∈ prepare_tasks latest bs jobs ->
  job ∈ jobs /\ latest !! prj_producer_name job = Some lid /\ bs !! prj_producer_name job = Some b.
Proof.
  revert bs; induction jobs as [|j jobs IH]; intros bs; simpl; [by intros ?%elem_of_nil|].
  destruct (latest !! prj_producer_name j) as [l|] eqn:Hl, (bs !! prj_producer_name j) as [b'|] eqn:Hb.
  - intros [[= -> -> ->]|Hin]%elem_of_cons; [split; [by left|done]|].
    destruct (IH _ Hin) as (H1 & H2 & H3). split; [by right|]. split; [done|].
    by apply lookup_delete_Some in H3 as [_ ?].
  - intros Hin. destruct (IH _ Hin) as (? & ? & ?). split; [by right|done].
  - intros Hin. destruct (IH _ Hin) as (? & ? & ?). split; [by right|done].
  - intros Hin. destruct (IH _ Hin) as (? & ? & ?). split; [by right|done].
Qed.

(** * The interleavings *)

Context (proc : OutboxTransactionalProcessor MType)
        (proc_routes : forall job, job ∈ producer_relay_jobs proc -> consumers_valid job)
        (proc_batch : (0 < oc_batch_size (otp_config proc))%Z).

Record RelayState := mkRelayState { rs_world : OutboxWorld C R B; rs_jobs : list RunningJob }.

Inductive relay_step : RelayState -> RelayState -> Prop :=
(** Some component posts a message. *)
| relay_post now p json x w w' jobs :
    transactional_post now p json w = (x, w') ->
    relay_step (mkRelayState w jobs) (mkRelayState w' jobs)
(** The processor starts. *)
| relay_init x w w' :
    init_consumption_records proc w = (x, w') ->
    relay_step (mkRelayState w []) (mkRelayState w' [])
(** An iteration starts. *)
| relay_begin latest bs w w1 w2 :
    select_latest_message_ids_by_producers w = (Ok latest, w1) ->
    select_latest_consumption_boundaries_by_producers w1 = (Ok bs, w2) ->
    relay_step (mkRelayState w [])
      (mkRelayState w2 (map (fun '(job, latest_id, b) => RunningJob_Start job latest_id b)
                          (prepare_tasks latest bs (producer_relay_jobs proc))))
(** A job loads its messages. *)
| relay_load job latest b id n messages w w' before after :
    determine_processed_boundary_id None (prj_consumer_names job) b = Some id -> (id < latest)%Z ->
    usize_of_i64 (oc_batch_size (otp_config proc)) = Ok (E := InternalError) n ->
    load_messages_above job id n w = (Ok messages, w') ->
    relay_step (mkRelayState w (before ++ RunningJob_Start job latest b :: after))
      (mkRelayState w' (before ++ RunningJob_Feed job (todo_of job b messages) :: after))
(** A job has nothing to do. *)
| relay_idle job latest b w before after :
    (forall id, determine_processed_boundary_id None (prj_consumer_names job) b = Some id ->
       (latest <= id)%Z) ->
    relay_step (mkRelayState w (before ++ RunningJob_Start job latest b :: after))
      (mkRelayState w (before ++ after))
(** Loading fails: the iteration fails, and the other jobs are dropped. *)
| relay_load_fail job latest b id n x w w' before after :
    load_messages_above job id n w = (x, w') -> (forall l, x <> Ok l) ->
    relay_step (mkRelayState w (before ++ RunningJob_Start job latest b :: after))
      (mkRelayState w' [])
(** One of the consumers of the current message of a job is invoked. *)
| relay_invoke job m tasks todo c w w' before after :
    c ∈ tasks -> invoke_consumer proc c m w = (Ok tt, w') ->
    relay_step (mkRelayState w (before ++ RunningJob_Feed job ((m, tasks) :: todo) :: after))
      (mkRelayState w' (before ++ RunningJob_Feed job ((m, drop_task c tasks) :: todo) :: after))
(** It fails: the iteration fails, and the other invocations are dropped. *)
| relay_fail job m tasks todo c x w w' before after :
    c ∈ tasks -> invoke_consumer proc c m w = (x, w') -> (forall u, x <> Ok u) ->
    relay_step (mkRelayState w (before ++ RunningJob_Feed job ((m, tasks) :: todo) :: after))
      (mkRelayState w' [])
(** All consumers are done with a message, or a job with all messages. *)
| relay_next job m todo w before after :
    relay_step (mkRelayState w (before ++ RunningJob_Feed job ((m, []) :: todo) :: after))
      (mkRelayState w (before ++ RunningJob_Feed job todo :: after))
| relay_done job w before after :
    relay_step (mkRelayState w (before ++ RunningJob_Feed job [] :: after))
      (mkRelayState w (before ++ after)).

Inductive relay_reachable (s0 : RelayState) : RelayState -> Prop :=
| relay_reachable_refl : relay_reachable s0 s0
| relay_reachable_step s s' :
    relay_reachable s0 s -> relay_step s s' -> relay_reachable s0 s'.

Record relay_state_ok (s : RelayState) : Prop := {
  rso_world : relay_ok (rs_world s);
  rso_jobs : Forall (job_ok (rs_world s)) (rs_jobs s);
  rso_distinct : NoDup (map (fun j => producer_of j) (rs_jobs s))
}.

(** ** Steps that read *)

Lemma transactional_read {A} (f : OutboxWorld C R B -> res InternalError A) w x w' :
  transactional (fun w => (f w, w)) w = (x, w') ->
  x = f w /\ ow_pushes w' = ow_pushes w /\ (forall a, x = Ok a -> w' = w) /\
  (relay_ok w -> relay_ok w' /\ grows w w').
Proof.
  unfold transactional. destruct (f w) as [a|e|] eqn:Hf; [intros [= <- <-]; by split_and!|..].
  all: intros [= <- <-]; destruct oe_has_transactions; split_and!; try done.
  all: intros Hok; split; [by apply relay_ok_pushes|]; exists []; by rewrite app_nil_r.
Qed.

Lemma select_latest_spec w latest w' :
  select_latest_message_ids_by_producers w = (Ok latest, w') ->
  w' = w /\ exists ids, omr_get_latest_message_ids_by_producer (ow_messages w) = Ok ids /\
    latest = foldl (fun (acc : gmap string OutboxMessageID) '(producer_name, id) =>
                      <[producer_name := id]> acc) ∅ ids.
Proof.
  unfold select_latest_message_ids_by_producers. intros (ids & w1 & H1 & [= <- <-])%bind_ok_inv.
  unfold unwrapped in H1. destruct (transactional _ w) as [y w2] eqn:Ht.
  destruct (transactional_read _ _ _ _ Ht) as (-> & _ & Hsame & _).
  destruct (omr_get_latest_message_ids_by_producer (ow_messages w)) as [l| |]; simplify_eq.
  split; [by eapply Hsame|by eexists].
Qed.

Lemma select_boundaries_spec w bs w' :
  select_latest_consumption_boundaries_by_producers w = (Ok bs, w') ->
  w' = w /\ exists l, ocr_list_consumption_boundaries (ow_boundaries w) = Ok l /\
    bs = organize_boundaries l.
Proof.
  unfold select_latest_consumption_boundaries_by_producers. intros (l & w1 & H1 & [= <- <-])%bind_ok_inv.
  unfold unwrapped in H1. destruct (transactional list_boundaries w) as [y w2] eqn:Ht.
  unfold list_boundaries in Ht.
  destruct (transactional_read (fun w => ocr_list_consumption_boundaries (ow_boundaries w)) _ _ _ Ht)
    as (-> & _ & Hsame & _).
  destruct (ocr_list_consumption_boundaries (ow_boundaries w)) as [l'| |]; simplify_eq.
  split; [by eapply Hsame|by eexists].
Qed.

(** ** Starting the processor *)

Definition prepared w w' : Prop :=
  relay_ok w' /\ grows w w' /\ ow_pushes w' = ow_pushes w.

#[local] Instance prepared_trans : Transitive prepared.
Proof. intros w1 w2 w3 (H1 & G1 & P1) (H2 & G2 & P2). split_and!; [done|by etrans|congruence]. Qed.

Lemma prepared_refl w : relay_ok w -> prepared w w.
Proof. intros Hok. by split_and!. Qed.

Lemma create_prepared c p (x : res InternalError unit) w w' :
  create_boundary (mkOutboxMessageConsumptionBoundary p c 0%Z) w = (x, w') ->
  valid c p -> relay_ok w -> prepared w w'.
Proof.
  unfold create_boundary. intros Hc Hv Hok.
  pose proof (lcr_create (ow_boundaries w) c p 0%Z (rk_boundaries _ Hok) Hv) as Hl.
  destruct (ocr_create_consumption_boundary _ _) as [r bs]. injection Hc as _ <-.
  assert (Hg : grows w (mkOutboxWorld (ow_messages w) bs (ow_components w) (ow_log w) (ow_pushes w)))
    by (exists []; by rewrite app_nil_r).
  split; [|done]. destruct r as [u|e|]; [|subst bs; by destruct w..].
  destruct Hl as (Hbs & Hnone & Hall). split; [apply Hok|done|apply Hok|].
  intros c' p' Hv'. unfold boundary at 1. simpl. rewrite (Hall c' p' Hv').
  pose proof (rk_routes _ Hok c' p' Hv') as Hr. case_decide as He.
  - simplify_eq. unfold boundary in Hr. rewrite Hnone in Hr. split; [by left|].
    change (consumed w c p = map om_message_id (upto 0%Z (sent w p))). rewrite Hr.
    by rewrite upto_none by (by apply sent_positive).
  - unfold boundary in Hr. destruct (lcr_boundary _ c' p'); [|exact Hr]. destruct Hr. by split.
Qed.

Lemma for_each_prepared {A} (f : A -> action (OutboxWorld C R B) InternalError unit) l w x w' :
  (forall a w x w', a ∈ l -> f a w = (x, w') -> relay_ok w -> prepared w w') ->
  for_each f l w = (x, w') -> relay_ok w -> prepared w w'.
Proof.
  revert w; induction l as [|a l IH]; intros w Hf Hw Hok; simpl in Hw.
  { unfold mret, action_ret in Hw. simplify_eq. by apply prepared_refl. }
  unfold mbind, action_bind in Hw.
  destruct (f a w) as [[u|e|] w1] eqn:Ha; simplify_eq; [|eapply Hf; [by left|done..]..].
  assert (Hp : prepared w w1) by (eapply Hf; [by left|done..]).
  etrans; [exact Hp|]. apply IH; [|done|apply Hp]. intros. eapply Hf; [by right|done..].
Qed.

Lemma transactional_prepared {A} (act : action (OutboxWorld C R B) InternalError A) w x w' :
  (forall y w1, act w = (y, w1) -> prepared w w1) -> transactional act w = (x, w') ->
  relay_ok w -> prepared w w'.
Proof.
  intros Ha Ht Hok. unfold transactional in Ht. destruct (act w) as [y w1].
  specialize (Ha y w1 eq_refl). destruct y as [u|e|]; simplify_eq; [done|..].
  all: destruct oe_has_transactions; [|done].
  all: destruct Ha as (_ & _ & Hp); split_and!; [apply relay_ok_pushes; [done|lia]| |done].
  all: exists []; by rewrite app_nil_r.
Qed.

Lemma init_prepared x w w' :
  init_consumption_records proc w = (x, w') -> relay_ok w -> prepared w w'.
Proof using proc_routes.
  intros Hi Hok. eapply transactional_prepared; [|exact Hi|done]. intros y w1 Hb.
  unfold mbind, action_bind, list_boundaries in Hb.
  destruct (ocr_list_consumption_boundaries (ow_boundaries w)) as [l| |];
    [|simplify_eq; by apply prepared_refl..].
  eapply for_each_prepared; [|exact Hb|done]. intros job w2 x2 w3 Hjob Hf Hok2.
  eapply for_each_prepared; [|exact Hf|done]. intros c w4 x4 w5 Hc Hcr Hok4.
  cbv beta in Hcr. case_bool_decide; [unfold mret, action_ret in Hcr; simplify_eq; by apply prepared_refl|].
  eapply create_prepared; [exact Hcr| |done]. by apply proc_routes.
Qed.

(** ** Every step keeps the routes *)

Lemma producers_nodup : NoDup (map prj_producer_name (producer_relay_jobs proc)).
Proof.
  unfold producer_relay_jobs. rewrite map_map.
  erewrite map_ext; [apply NoDup_fst_map_to_list|]. by intros [].
Qed.

Lemma begin_ok latest bs w w1 w2 :
  select_latest_message_ids_by_producers w = (Ok latest, w1) ->
  select_latest_consumption_boundaries_by_producers w1 = (Ok bs, w2) -> relay_ok w ->
  w2 = w /\
  relay_state_ok (mkRelayState w (map (fun '(job, latest_id, b) => RunningJob_Start job latest_id b)
                          (prepare_tasks latest bs (producer_relay_jobs proc)))).
Proof using proc_routes.
  intros Hl Hb Hok. destruct (select_latest_spec _ _ _ Hl) as [-> _].
  destruct (select_boundaries_spec _ _ _ Hb) as [-> (l & Hls & ->)]. split; [done|]. split; [done|..]; simpl.
  - apply Forall_forall. intros j Hj. apply list_elem_of_In, in_map_iff in Hj as ([[job lid] b] & <- & Hin).
    apply list_elem_of_In, prepare_elem in Hin as (Hjob & _ & Hb'). specialize (proc_routes _ Hjob).
    split; [done|]. simpl. intros c Hc. rewrite <- (organize_boundary w l c) by auto.
    unfold lookup2. by rewrite Hb'.
  - rewrite map_map. eapply sublist_NoDup; [apply producers_nodup|].
    etrans; [|exact (fmap_sublist prj_producer_name _ _
                       (prepare_sublist latest (organize_boundaries l) _))].
    change (prj_producer_name <$> ?l) with (map prj_producer_name l). rewrite map_map.
    erewrite map_ext; [reflexivity|]. by intros [[]].
Qed.

(** The other jobs are not disturbed by a job. *)
Lemma others_frame w w' before j j' after :
  Forall (job_ok w) (before ++ j :: after) ->
  NoDup (map (fun j => producer_of j) (before ++ j :: after)) -> producer_of j' = producer_of j ->
  grows w w' ->
  (forall c p, valid c p -> p <> producer_of j -> boundary w' c p = boundary w c p) ->
  job_ok w' j' -> Forall (job_ok w') (before ++ j' :: after).
Proof.
  intros Hall Hnd Hp Hg Hb Hj'. apply Forall_app in Hall as [H1 H2]. apply Forall_cons in H2 as [Hj H2].
  rewrite map_app in Hnd. apply NoDup_app in Hnd as (_ & Hd1 & Hd2). simpl in Hd2.
  apply NoDup_cons in Hd2 as [Hd2 _].
  assert (Hframe : forall l, Forall (job_ok w) l -> producer_of j ∉ map (fun j => producer_of j) l ->
            Forall (job_ok w') l).
  { intros l Hl Hn. induction Hl as [|x l Hx _ IH]; constructor.
    - eapply job_ok_frame; [done..|]. intros c Hv. apply Hb; [done|]. intros He. apply Hn. simpl. rewrite He. by left.
    - apply IH. intros Hin. apply Hn. simpl. by right. }
  apply Forall_app. split.
  - apply Hframe; [done|]. intros Hin. apply (Hd1 _ Hin). simpl. by left.
  - constructor; [done|]. by apply Hframe.
Qed.

Lemma dropped_distinct before (j : RunningJob) after :
  NoDup (map (fun j => producer_of j) (before ++ j :: after)) ->
  NoDup (map (fun j => producer_of j) (before ++ after)).
Proof.
  rewrite !map_app. simpl. rewrite !NoDup_app, NoDup_cons. intros (H1 & H2 & _ & H3).
  split_and!; try done. intros x Hx Hx'. apply (H2 x Hx). by right.
Qed.

Lemma replaced_distinct before (j j' : RunningJob) after :
  producer_of j' = producer_of j ->
  map (fun j => producer_of j) (before ++ j' :: after) = map (fun j => producer_of j) (before ++ j :: after).
Proof. intros He. rewrite !map_app. simpl. by rewrite He. Qed.

Lemma for_each_pushes {A} (f : A -> action (OutboxWorld C R B) InternalError unit) l w x w' :
  (forall a w x w', f a w = (x, w') -> ow_pushes w' = ow_pushes w) ->
  for_each f l w = (x, w') -> ow_pushes w' = ow_pushes w.
Proof.
  intros Hf. revert w; induction l as [|a l IH]; intros w Hw; simpl in Hw.
  { unfold mret, action_ret in Hw. by simplify_eq. }
  unfold mbind, action_bind in Hw. destruct (f a w) as [[u|e|] w1] eqn:Ha; simplify_eq; [|by eapply Hf..].
  etrans; [by apply IH|]. by eapply Hf.
Qed.

Lemma init_pushes x w w' : init_consumption_records proc w = (x, w') -> ow_pushes w' = ow_pushes w.
Proof.
  unfold init_consumption_records, transactional, mbind, action_bind, list_boundaries.
  destruct (ocr_list_consumption_boundaries (ow_boundaries w)) as [l| |];
    [|intros [= _ <-]; by destruct oe_has_transactions..].
  destruct (for_each _ _ w) as [y w1] eqn:Hf.
  assert (Hp : ow_pushes w1 = ow_pushes w).
  { eapply for_each_pushes; [|exact Hf]. intros job w2 x2 w3 Hf2. cbv beta in Hf2.
    eapply for_each_pushes; [|exact Hf2]. intros c w4 x4 w5 Hc. cbv beta in Hc.
    case_bool_decide; [unfold mret, action_ret in Hc; by simplify_eq|].
    unfold create_boundary in Hc. destruct (ocr_create_consumption_boundary _ _). by simplify_eq. }
  destruct y as [u|e|]; intros [= _ <-]; [done|..]; by destruct oe_has_transactions.
Qed.

Lemma step_pushes s s' :
  relay_step s s' -> ow_pushes (rs_world s) <= ow_pushes (rs_world s').
Proof.
  destruct 1; simpl; try done.
  - by apply (post_posts _ _ _ _ _ _ H1).
  - by rewrite (init_pushes _ _ _ H1).
  - destruct (select_latest_spec _ _ _ H1) as [-> _]. by destruct (select_boundaries_spec _ _ _ H2) as [-> _].
  - destruct (transactional_read _ _ _ _ H4) as (_ & -> & _). done.
  - destruct (transactional_read _ _ _ _ H1) as (_ & -> & _). done.
  - by eapply invoke_pushes.
  - by eapply invoke_pushes.
Qed.

Lemma posted_state_ok w w' jobs :
  posts_only w w' -> ids_left w' -> relay_state_ok (mkRelayState w jobs) ->
  relay_state_ok (mkRelayState w' jobs).
Proof.
  intros (Hpo & Hb & _ & _) Hids [Hok Hj Hd]. simpl in *. destruct (Hpo Hok Hids) as [Hok' Hg].
  split; [done| |done]. simpl. eapply Forall_impl; [exact Hj|]. intros j Hjj.
  eapply job_ok_frame; [done..|]. intros c _. unfold boundary. by rewrite Hb.
Qed.

Lemma batch_size_ok : usize_of_i64 (oc_batch_size (otp_config proc)) =
  Ok (E := InternalError) (Z.to_nat (oc_batch_size (otp_config proc))).
Proof using proc_batch. unfold usize_of_i64. by rewrite decide_False by lia. Qed.

Lemma loaded_ok job id n w messages w' :
  load_messages_above job id n w = (Ok messages, w') -> relay_ok w -> 1 <= n ->
  w' = w /\ messages = take n (above id (sent w (prj_producer_name job))).
Proof.
  intros Hl Hok Hn. destruct (transactional_read _ _ _ _ Hl) as (Hm & _ & Hw & _).
  split; [by eapply Hw|]. symmetry in Hm. by apply (lmr_get Json _ _ _ _ _ (rk_messages _ Hok) Hn) in Hm.
Qed.

Lemma idle_state_ok w : relay_ok w -> relay_state_ok (mkRelayState w []).
Proof. intros Hok. split; [done|constructor|constructor]. Qed.

Lemma relay_step_ok s s' :
  relay_step s s' -> ids_left (rs_world s') -> relay_state_ok s -> relay_state_ok s'.
Proof using proc_routes proc_batch.
  intros Hstep Hids Hs. destruct Hstep; simpl in Hids; pose proof (rso_world _ Hs) as Hok; simpl in Hok.
  - eapply posted_state_ok; [by eapply post_posts|done..].
  - apply idle_state_ok. by apply (init_prepared _ _ _ H1 Hok).
  - by destruct (begin_ok _ _ _ _ _ H1 H2 Hok) as [-> ?].
  - destruct Hs as [_ Hj Hd]. simpl in *. rewrite batch_size_ok in H3. injection H3 as <-.
    destruct (loaded_ok _ _ _ _ _ _ H4 Hok) as [-> ->]; [lia|]. split; simpl; [done| |].
    + eapply others_frame; [done|done|done|done|done|]. eapply job_loaded; [|done..].
      by apply Forall_app in Hj as [_ [Hj _]%Forall_cons].
    + by erewrite replaced_distinct.
  - destruct Hs as [_ Hj Hd]. simpl in *. split; simpl; [done| |by eapply dropped_distinct].
    apply Forall_app in Hj as [? [_ ?]%Forall_cons]. by apply Forall_app.
  - apply idle_state_ok. by apply (transactional_read _ _ _ _ H1).
  - destruct Hs as [_ Hj Hd]. simpl in *.
    pose proof Hj as Hjob. apply Forall_app in Hjob as [_ [Hjob _]%Forall_cons].
    destruct (job_head _ _ _ _ _ _ Hjob H1) as [Hv Hhead].
    pose proof (invoke_ok _ _ _ _ _ _ H2 Hok Hids Hv Hhead) as Hi.
    assert (Hpm : om_producer_name m = prj_producer_name job).
    { destruct Hjob as [_ [Ht _]]. apply (Ht m tasks). by left. }
    split; simpl; [apply Hi| |by erewrite replaced_distinct].
    eapply others_frame; [done|done|done|apply Hi| |by eapply job_invoked].
    intros c' p' Hv' Hne. apply (iv_others _ _ _ _ _ Hi); [done|]. simpl in Hne. rewrite Hpm. naive_solver.
  - destruct Hs as [_ Hj Hd]. simpl in *.
    pose proof Hj as Hjob. apply Forall_app in Hjob as [_ [Hjob _]%Forall_cons].
    destruct (job_head _ _ _ _ _ _ Hjob H1) as [Hv Hhead].
    apply idle_state_ok. apply (iv_ok _ _ _ _ _ (invoke_ok _ _ _ _ _ _ H2 Hok Hids Hv Hhead)).
  - destruct Hs as [_ Hj Hd]. simpl in *. split; simpl; [done| |by erewrite replaced_distinct].
    eapply others_frame; [done|done|done|done|done|].
    apply Forall_app in Hj as [_ [[Hv [Ht Ha]] _]%Forall_cons]. split; [done|]. split.
    + intros m' tasks' Hin. apply Ht. by right.
    + intros c Hc Hb. exact (Ha c Hc Hb).
  - destruct Hs as [_ Hj Hd]. simpl in *. split; simpl; [done| |by eapply dropped_distinct].
    apply Forall_app in Hj as [? [_ ?]%Forall_cons]. by apply Forall_app.
Qed.

Lemma relay_reachable_ok s0 s :
  relay_state_ok s0 -> relay_reachable s0 s -> ids_left (rs_world s) -> relay_state_ok s.
Proof using proc_routes proc_batch.
  intros Hs0 Hr. induction Hr as [|s s' Hr IH Hstep]; [done|]. intros Hids.
  pose proof (step_pushes _ _ Hstep). eapply relay_step_ok; [done..|]. apply IH. unfold ids_left in *. lia.
Qed.

(** * Progress *)

(** The repositories answer, every producer has a dispatcher, and no consumer
    fails. *)
Record relay_works : Prop := {
  rw_latest : forall r : R, exists l, omr_get_latest_message_ids_by_producer r = Ok l;
  rw_get : forall (r : R) p b n, exists l, omr_get_producer_messages r p b n = Ok l;
  rw_list : forall bs : B, exists l, ocr_list_consumption_boundaries bs = Ok l;
  rw_update : forall (bs : B) c p id, lcr_ok bs -> valid c p -> is_Some (lcr_boundary bs c p) ->
    (ocr_update_consumption_boundary bs (mkOutboxMessageConsumptionBoundary p c id)).1 = Ok tt;
  rw_consume : forall job c json w, job ∈ producer_relay_jobs proc ->
    exists d, otp_dispatchers proc !! prj_producer_name job = Some d /\
      (dispatch_message d (ConsumerFilter_SelectedConsumer c) json w).1 = Ok tt;
  rw_consumers : forall job, job ∈ producer_relay_jobs proc -> NoDup (prj_consumer_names job)
}.

Context (works : relay_works).

(** The posts of an action only add up. *)
Definition adds_up {A} (act : action (OutboxWorld C R B) InternalError A) : Prop :=
  forall w x w', act w = (x, w') -> ow_pushes w <= ow_pushes w'.

Lemma adds_up_for_each {A} (f : A -> action (OutboxWorld C R B) InternalError unit) l :
  (forall a, adds_up (f a)) -> adds_up (for_each f l).
Proof.
  intros Hf. induction l as [|a l IH]; intros w x w' Hw; simpl in Hw.
  { unfold mret, action_ret in Hw. by simplify_eq. }
  unfold mbind, action_bind in Hw.
  destruct (f a w) as [[u|e|] w1] eqn:Ha; simplify_eq; [|by eapply Hf..].
  etrans; [by eapply Hf|]. by eapply IH.
Qed.

Lemma adds_up_bind {A D} (act : action (OutboxWorld C R B) InternalError A) (k : A -> action _ _ D) :
  adds_up act -> (forall a, adds_up (k a)) -> adds_up (act ≫= k).
Proof.
  intros Ha Hk w x w'. unfold mbind, action_bind.
  destruct (act w) as [[a|e|] w1] eqn:Hw; [|intros [= _ <-]; by eapply Ha..].
  intros Hw'. etrans; [by eapply Ha|]. by eapply Hk.
Qed.

Lemma adds_up_same {A} (r : res InternalError A) : adds_up (lift r).
Proof. intros w x w' [= _ <-]. done. Qed.

Lemma job_iteration_adds_up job latest b : adds_up (run_job_iteration proc job latest b).
Proof.
  unfold run_job_iteration. destruct (determine_processed_boundary_id _ _ _) as [id|]; [|apply (adds_up_same (Ok tt))].
  case_decide; [|apply (adds_up_same (Ok tt))]. apply adds_up_bind; [apply adds_up_same|]. intros n.
  apply adds_up_bind.
  - intros w x w' Hl. by destruct (transactional_read _ _ _ _ Hl) as (_ & -> & _).
  - intros messages. apply adds_up_for_each. intros m. apply adds_up_for_each.
    intros c w x w'. apply invoke_pushes.
Qed.

(** Every consumer of a job has a boundary. *)
Definition bounded w (job : ProducerRelayJob) : Prop :=
  forall c, c ∈ prj_consumer_names job -> is_Some (boundary w c (prj_producer_name job)).

(** A job consumed [gain c] for each of its consumers [c] and nothing else. *)
Record fed (job : ProducerRelayJob) (gain : string -> list OutboxMessageID) w w' : Prop := {
  fd_ok : relay_ok w';
  fd_grows : grows w w';
  fd_bounded : bounded w' job;
  fd_gain : forall c, c ∈ prj_consumer_names job ->
    consumed w' c (prj_producer_name job) = consumed w c (prj_producer_name job) ++ gain c;
  fd_others : forall c p, valid c p -> p <> prj_producer_name job ->
    boundary w' c p = boundary w c p /\ consumed w' c p = consumed w c p
}.

Lemma fed_refl job gain w :
  relay_ok w -> bounded w job -> (forall c, c ∈ prj_consumer_names job -> gain c = []) -> fed job gain w w.
Proof.
  intros Hok Hb Hg. split; try done. intros c Hc. by rewrite Hg, app_nil_r.
Qed.

Lemma fed_trans job g1 g2 g w1 w2 w3 :
  fed job g1 w1 w2 -> fed job g2 w2 w3 ->
  (forall c, c ∈ prj_consumer_names job -> g c = g1 c ++ g2 c) -> fed job g w1 w3.
Proof.
  intros [H1 G1 B1 C1 O1] [H2 G2 B2 C2 O2] Hg. split; [done|by etrans|done|..].
  - intros c Hc. by rewrite C2, C1, Hg, app_assoc.
  - intros c p Hv Hne. destruct (O1 c p Hv Hne), (O2 c p Hv Hne). split; congruence.
Qed.

Lemma invoke_succeeds job c m w :
  job ∈ producer_relay_jobs proc -> om_producer_name m = prj_producer_name job ->
  c ∈ prj_consumer_names job -> relay_ok w -> bounded w job ->
  exists w', invoke_consumer proc c m w = (Ok tt, w').
Proof using proc_routes works.
  intros Hj Hp Hc Hok Hb. destruct (rw_consume works job c (om_content_json m) w Hj) as (d & Hd & Hdisp).
  unfold invoke_consumer, transactional, mbind, action_bind, lift. rewrite Hp, Hd. simpl.
  destruct (dispatch_message d _ _ w) as [x w1] eqn:Hw1. simpl in Hdisp. subst x.
  destruct (dispatch_posts _ _ _ _ _ _ Hw1) as (_ & Hbo & _). unfold update_boundary.
  pose proof (rw_update works (ow_boundaries w1) c (prj_producer_name job) (om_message_id m)) as Hu.
  rewrite Hbo in *. destruct (ocr_update_consumption_boundary _ _) as [y bs]. simpl in Hu.
  rewrite Hu; [by eexists|apply Hok|by apply proc_routes|by apply Hb].
Qed.

Lemma invoked_fed job c m w w' :
  job ∈ producer_relay_jobs proc -> om_producer_name m = prj_producer_name job ->
  bounded w job -> invoked (Ok tt) c m w w' ->
  fed job (fun c' => if decide (c' = c) then [om_message_id m] else []) w w'.
Proof using proc_routes.
  intros Hj Hpm Hb Hi. pose proof (iv_own _ _ _ _ _ Hi) as (_ & Hbo & Hco).
  split; [apply Hi|apply Hi|..].
  - intros c' Hc'. destruct (decide (c' = c)) as [->|Hne]; [rewrite <- Hpm, Hbo; by eexists|].
    destruct (iv_others _ _ _ _ _ Hi c' (prj_producer_name job)) as [-> _]; [by apply proc_routes| |by apply Hb].
    rewrite Hpm. naive_solver.
  - intros c' Hc'. case_decide as Hd; [subst; by rewrite <- Hpm|]. rewrite app_nil_r.
    apply (iv_others _ _ _ _ _ Hi); [by apply proc_routes|]. rewrite Hpm. naive_solver.
  - intros c' p' Hv' Hne. apply (iv_others _ _ _ _ _ Hi); [done|]. rewrite Hpm. naive_solver.
Qed.

Lemma feed_tasks job m tasks todo w x w' :
  job ∈ producer_relay_jobs proc -> NoDup tasks -> relay_ok w -> bounded w job ->
  job_ok w (RunningJob_Feed job ((m, tasks) :: todo)) ->
  for_each (fun c => invoke_consumer proc c m) tasks w = (x, w') -> ids_left w' ->
  x = Ok tt /\ fed job (fun c => if decide (c ∈ tasks) then [om_message_id m] else []) w w' /\
  job_ok w' (RunningJob_Feed job ((m, []) :: todo)).
Proof using proc_routes works.
  intros Hj Hnd. revert w. induction Hnd as [|c tasks Hc Hnd IH]; intros w Hok Hb Hjob Hw Hids; simpl in Hw.
  { unfold mret, action_ret in Hw. simplify_eq. split; [done|]. split; [|done].
    apply fed_refl; [done..|]. intros c _. by rewrite decide_False by apply not_elem_of_nil. }
  destruct (job_head _ _ _ _ _ _ Hjob ltac:(by left)) as [Hv Hhead].
  assert (Htm : om_producer_name m = prj_producer_name job /\ c ∈ prj_consumer_names job).
  { destruct Hjob as [_ [Ht _]]. destruct (Ht m (c :: tasks)) as [? Hs]; [by left|].
    split; [done|]. apply Hs. by left. }
  destruct Htm as [Hpm Hcj].
  destruct (invoke_succeeds job c m w Hj Hpm Hcj Hok Hb) as [w1 Hw1].
  rewrite (bind_ok _ _ _ _ _ Hw1) in Hw.
  assert (Hids1 : ids_left w1).
  { assert (ow_pushes w1 <= ow_pushes w'); [|unfold ids_left in *; lia].
    eapply (adds_up_for_each (fun c => invoke_consumer proc c m)); [|exact Hw].
    intros c' w0 x0 w0'. apply invoke_pushes. }
  pose proof (invoke_ok _ _ _ _ _ _ Hw1 Hok Hids1 Hv Hhead) as Hi.
  pose proof (job_invoked _ _ _ _ _ _ _ Hjob ltac:(by left) Hok Hi) as Hjob1.
  assert (Hdrop : drop_task c (c :: tasks) = tasks).
  { unfold drop_task. simpl. rewrite bool_decide_eq_true_2 by done. simpl.
    apply forallb_filter_id, forallb_forall. intros c' Hc'%list_elem_of_In.
    apply negb_true_iff, bool_decide_eq_false. by intros ->. }
  rewrite Hdrop in Hjob1.
  pose proof (invoked_fed _ _ _ _ _ Hj Hpm Hb Hi) as Hfed1.
  destruct (IH w1 (fd_ok _ _ _ _ Hfed1) (fd_bounded _ _ _ _ Hfed1) Hjob1 Hw Hids) as (-> & Hfed2 & Hjob2).
  split; [done|]. split; [|done]. eapply fed_trans; [exact Hfed1|exact Hfed2|]. intros c' _. cbv beta.
  destruct (decide (c' = c)) as [->|Hne].
  - rewrite (decide_True (P := c ∈ c :: tasks)) by (by left). by rewrite decide_False by done.
  - simpl. apply decide_ext. rewrite elem_of_cons. naive_solver.
Qed.

Lemma feed_messages job b messages w x w' :
  job ∈ producer_relay_jobs proc -> relay_ok w -> bounded w job ->
  job_ok w (RunningJob_Feed job (todo_of job b messages)) ->
  for_each (feed_message proc job b) messages w = (x, w') -> ids_left w' ->
  x = Ok tt /\ fed job (fun c => map om_message_id (awaiting c (todo_of job b messages))) w w'.
Proof using proc_routes works.
  intros Hj. revert w; induction messages as [|m messages IH]; intros w Hok Hb Hjob Hw Hids; simpl in Hw.
  { unfold mret, action_ret in Hw. simplify_eq. split; [done|]. by apply fed_refl. }
  unfold mbind, action_bind in Hw. destruct (feed_message proc job b m w) as [y w1] eqn:Hf.
  assert (Hids1 : ids_left w1).
  { destruct y; simplify_eq; [|done..]. unfold ids_left in *. enough (ow_pushes w1 <= ow_pushes w') by lia.
    eapply (adds_up_for_each (feed_message proc job b)); [|exact Hw]. intros m'. apply adds_up_for_each.
    intros c w0 x0 w0'. apply invoke_pushes. }
  destruct (feed_tasks job m (consumer_tasks job b m) (todo_of job b messages) w y w1)
    as (-> & Hfed1 & Hjob1); [done| |done..|].
  { apply NoDup_ListNoDup, List.NoDup_filter, NoDup_ListNoDup, (rw_consumers works _ Hj). }
  assert (Hjob1' : job_ok w1 (RunningJob_Feed job (todo_of job b messages))).
  { destruct Hjob1 as [Hv [Ht Ha]]. split; [done|]. split; [|exact Ha].
    intros m' tasks' Hin. apply Ht. by right. }
  destruct (IH w1 (fd_ok _ _ _ _ Hfed1) (fd_bounded _ _ _ _ Hfed1) Hjob1' Hw Hids) as [-> Hfed2].
  split; [done|]. eapply fed_trans; [exact Hfed1|exact Hfed2|]. intros c _. unfold awaiting. simpl.
  rewrite <- decide_bool_decide. by destruct (decide (c ∈ consumer_tasks job b m)).
Qed.

(** ** How much a job consumes *)

Lemma upto_le b1 b2 (l : list (OutboxMessage Json)) :
  (b1 <= b2)%Z -> length (upto b1 l) <= length (upto b2 l).
Proof.
  intros Hb. unfold upto. induction l as [|m l IH]; [done|]. simpl.
  case_bool_decide; case_bool_decide; simpl; lia.
Qed.

Lemma upto_above_length b (l : list (OutboxMessage Json)) : length (upto b l) + length (above b l) = length l.
Proof.
  unfold upto, above. induction l as [|m l IH]; [done|]. simpl.
  case_bool_decide; case_bool_decide; simpl; lia.
Qed.

(** What a consumer at [b] has after a batch above [id], which is not later. *)
Lemma batch_length id b n (l : list (OutboxMessage Json)) :
  increasing l -> (id <= b)%Z ->
  Nat.min (length (upto id l) + n) (length l) <= length (upto b l) + length (above b (take n (above id l))).
Proof.
  intros Hl Hb. set (X := take n (above id l)).
  assert (Hs : l = upto id l ++ X ++ drop n (above id l)).
  { unfold X. rewrite take_drop. by apply split_at. }
  pose proof (upto_above_length b X) as HX.
  assert (Hup : length (upto id l) + length (upto b X) <= length (upto b l)).
  { replace (upto b l) with (upto b (upto id l ++ X ++ drop n (above id l))) by (by rewrite <- Hs).
    rewrite !upto_app, !length_app.
    rewrite (upto_all b (upto id l)); [lia|]. apply Forall_forall. intros m. unfold upto.
    rewrite list_elem_of_In, filter_In, bool_decide_eq_true. lia. }
  assert (Hlen : length l = length (upto id l) + length (above id l)) by (by rewrite upto_above_length).
  assert (length X = Nat.min n (length (above id l))) as HlX by (unfold X; apply length_take). lia.
Qed.

(** The earliest boundary is that of a consumer. *)
Lemma determine_elem e cs (bs : gmap string OutboxMessageID) id :
  determine_processed_boundary_id e cs bs = Some id -> (forall c, c ∈ cs -> is_Some (bs !! c)) ->
  e = Some id \/ exists c, c ∈ cs /\ bs !! c = Some id.
Proof.
  revert e; induction cs as [|c cs IH]; intros e Hd Hs; simpl in Hd; [by left|].
  destruct (bs !! c) as [b|] eqn:Hb; [|destruct (Hs c) as [? ?]; [by left|congruence]].
  destruct (IH _ Hd) as [He|(c' & Hc' & Hb')].
  - intros c' Hc'. apply Hs. by right.
  - destruct e as [e'|]; [destruct (decide (b < e')%Z)|]; simplify_eq; [right|by left|right].
    all: exists c; split; [by left|done].
  - right. exists c'. split; [by right|done].
Qed.

Lemma determine_found e cs (bs : gmap string OutboxMessageID) :
  is_Some e \/ cs <> [] -> is_Some (determine_processed_boundary_id e cs bs).
Proof.
  revert e; induction cs as [|c cs IH]; intros e He; simpl; [by destruct He|].
  destruct (bs !! c) as [b|]; [|by eexists]. apply IH. left.
  destruct e as [e'|]; [destruct (decide (b < e')%Z)|]; by eexists.
Qed.

Lemma consumed_length w c p b :
  relay_ok w -> valid c p -> boundary w c p = Some b ->
  length (consumed w c p) = length (upto b (sent w p)).
Proof.
  intros Hok Hv Hb. pose proof (rk_routes _ Hok c p Hv) as Hr. rewrite Hb in Hr.
  destruct Hr as [_ ->]. by rewrite length_map.
Qed.

Abbreviation batch := (Z.to_nat (oc_batch_size (otp_config proc))).

(** A job brings each of its consumers a batch further, or up to [latest]. *)
Lemma job_iteration_progress job latest b w x w' :
  job ∈ producer_relay_jobs proc -> relay_ok w -> bounded w job ->
  job_ok w (RunningJob_Start job latest b) ->
  run_job_iteration proc job latest b w = (x, w') -> ids_left w' ->
  x = Ok tt /\ exists gain, fed job gain w w' /\
    forall k c, c ∈ prj_consumer_names job ->
      (forall c', c' ∈ prj_consumer_names job -> k <= length (consumed w c' (prj_producer_name job))) ->
      Nat.min (k + batch) (length (upto latest (sent w (prj_producer_name job)))) <=
      length (consumed w' c (prj_producer_name job)).
Proof using proc_routes proc_batch works.
  intros Hj Hok Hb Hjob Hw Hids. pose proof (proc_routes _ Hj) as Hval.
  pose proof Hjob as [_ Hbs]. simpl in Hbs. set (p := prj_producer_name job) in *.
  assert (Hcons : forall c, c ∈ prj_consumer_names job ->
            length (consumed w c p) = length (upto (default 0%Z (b !! c)) (sent w p))).
  { intros c Hc. destruct (Hb c Hc) as [y Hy]. fold p in Hy. rewrite Hbs, Hy by done. simpl.
    apply consumed_length; [done|by apply Hval|done]. }
  unfold run_job_iteration in Hw.
  destruct (determine_processed_boundary_id None (prj_consumer_names job) b) as [id|] eqn:Hd.
  2: { unfold mret, action_ret in Hw. simplify_eq. split; [done|]. exists (fun _ => []).
       split; [by apply fed_refl|]. intros k c Hc _.
       destruct (determine_found None (prj_consumer_names job) b) as [? Hf]; [|congruence].
       right. intros Hn. rewrite Hn in Hc. by apply elem_of_nil in Hc. }
  case_decide as Hlt.
  2: { unfold mret, action_ret in Hw. simplify_eq. split; [done|]. exists (fun _ => []).
       split; [by apply fed_refl|]. intros k c Hc _. rewrite Hcons by done.
       pose proof (earliest_le _ _ _ _ _ Hval Hok Hbs Hd Hc).
       pose proof (upto_le latest (default 0%Z (b !! c)) (sent w' p)). lia. }
  erewrite bind_ok in Hw by (unfold lift; rewrite batch_size_ok; reflexivity).
  destruct (rw_get works (ow_messages w) p id batch) as [messages Hm].
  assert (Hl : load_messages_above job id batch w = (Ok messages, w)).
  { unfold load_messages_above, transactional. fold p. by rewrite Hm. }
  rewrite (bind_ok _ _ _ _ _ Hl) in Hw.
  destruct (loaded_ok _ _ _ _ _ _ Hl Hok) as [_ Hmsg]; [lia|]. fold p in Hmsg.
  pose proof (job_loaded _ _ _ _ _ batch Hjob Hok Hd) as Hfeed. fold p in Hfeed. rewrite <- Hmsg in Hfeed.
  destruct (feed_messages job b messages w x w' Hj Hok Hb Hfeed Hw Hids) as [-> Hfed].
  split; [done|]. eexists; split; [exact Hfed|]. intros k c Hc Hk.
  rewrite (fd_gain _ _ _ _ Hfed) by done. fold p.
  rewrite length_app, length_map, awaiting_todo, Hcons, Hmsg by done.
  pose proof (batch_length id (default 0%Z (b !! c)) batch (sent w p) (sent_increasing w p Hok)
                (earliest_le _ _ _ _ _ Hval Hok Hbs Hd Hc)) as Hbl.
  destruct (determine_elem _ _ _ _ Hd) as [|(c0 & Hc0 & Hb0)]; [|done|].
  { intros c' Hc'. rewrite Hbs by done. by apply Hb. }
  specialize (Hk c0 Hc0). rewrite Hcons, Hb0 in Hk by done. simpl in Hk.
  pose proof (upto_above_length latest (sent w p)). lia.
Qed.

Abbreviation task_job t := (t.1.1 : ProducerRelayJob).
Abbreviation task_start t := (RunningJob_Start t.1.1 t.1.2 t.2).
Abbreviation run_task := (fun '(job, latest_id, b) => run_job_iteration proc job latest_id b).

(** All consumers have boundaries. *)
Definition all_bounded w : Prop := forall job, job ∈ producer_relay_jobs proc -> bounded w job.

(** What the job of a task makes of a consumer that is not behind the others. *)
Definition advances w w' (job : ProducerRelayJob) (latest : OutboxMessageID) : Prop :=
  forall k c, c ∈ prj_consumer_names job ->
    (forall c', c' ∈ prj_consumer_names job -> k <= length (consumed w c' (prj_producer_name job))) ->
    Nat.min (k + batch) (length (upto latest (sent w (prj_producer_name job)))) <=
    length (consumed w' c (prj_producer_name job)).

Lemma fed_bounded job gain w w' :
  job ∈ producer_relay_jobs proc -> fed job gain w w' -> all_bounded w -> all_bounded w'.
Proof using proc_routes.
  intros Hj Hf Hb job' Hj' c Hc.
  destruct (decide (prj_producer_name job' = prj_producer_name job)) as [He|Hne].
  - assert (job' = job) as ->; [|by apply (fd_bounded _ _ _ _ Hf)].
    apply list_elem_of_In in Hj, Hj'. unfold producer_relay_jobs in Hj, Hj'.
    apply in_map_iff in Hj as ([p1 cs1] & <- & H1), Hj' as ([p2 cs2] & <- & H2). simpl in He. subst p2.
    apply list_elem_of_In, elem_of_map_to_list in H1, H2. simplify_eq. done.
  - destruct (fd_others _ _ _ _ Hf c (prj_producer_name job')) as [-> _]; [by apply proc_routes|done|].
    by apply Hb.
Qed.

Lemma advances_later w w1 w' job latest :
  job ∈ producer_relay_jobs proc -> grows w w1 ->
  (forall c, c ∈ prj_consumer_names job -> consumed w1 c (prj_producer_name job) =
                                          consumed w c (prj_producer_name job)) ->
  advances w1 w' job latest -> advances w w' job latest.
Proof.
  intros Hj Hg Hc Ha k c Hcj Hk. specialize (Ha k c Hcj). 
  destruct (grows_sent w w1 (prj_producer_name job) Hg) as [more Hm]. rewrite Hm, upto_app, length_app in Ha.
  etrans; [|apply Ha]; [lia|]. intros c' Hc'. rewrite Hc by done. by apply Hk.
Qed.

Lemma run_tasks tasks w x w' :
  (forall t, t ∈ tasks -> task_job t ∈ producer_relay_jobs proc /\ job_ok w (task_start t)) ->
  NoDup (map (fun t => prj_producer_name (task_job t)) tasks) ->
  relay_ok w -> all_bounded w ->
  for_each run_task tasks w = (x, w') -> ids_left w' ->
  x = Ok tt /\ relay_ok w' /\ grows w w' /\ all_bounded w' /\
  (forall c p, valid c p -> p ∉ map (fun t => prj_producer_name (task_job t)) tasks ->
     consumed w' c p = consumed w c p) /\
  (forall t, t ∈ tasks -> advances w w' (task_job t) t.1.2).
Proof using proc_routes proc_batch works.
  revert w; induction tasks as [|[[job latest] b] tasks IH]; intros w Ht Hnd Hok Hb Hw Hids; simpl in Hw.
  { unfold mret, action_ret in Hw. simplify_eq. split_and!; try done. by intros t ?%elem_of_nil. }
  unfold mbind, action_bind in Hw.
  destruct (run_job_iteration proc job latest b w) as [y w1] eqn:Hr.
  assert (Hids1 : ids_left w1).
  { destruct y; simplify_eq; [|done..]. unfold ids_left in *. enough (ow_pushes w1 <= ow_pushes w') by lia.
    eapply (adds_up_for_each run_task); [|exact Hw]. intros [[j l] bs]. apply job_iteration_adds_up. }
  destruct (Ht (job, latest, b)) as [Hj Hjob]; [by left|]. simpl in Hj, Hjob.
  destruct (job_iteration_progress job latest b w y w1 Hj Hok (Hb _ Hj) Hjob Hr Hids1)
    as (-> & gain & Hfed & Hadv). simpl in Hnd. apply NoDup_cons in Hnd as [Hn Hnd].
  assert (Hne : forall t, t ∈ tasks -> prj_producer_name (task_job t) <> prj_producer_name job).
  { intros t Hin He. apply Hn. rewrite <- He. apply list_elem_of_In.
    apply (in_map (fun t => prj_producer_name (task_job t))). by apply list_elem_of_In. }
  destruct (IH w1) as (-> & Hok' & Hg' & Hb' & Hsame & Hall); try done.
  { intros t Hin. destruct (Ht t) as [Hjt Hjobt]; [by right|]. split; [done|].
    eapply job_ok_frame; [exact Hjobt|apply Hfed|]. intros c Hv.
    apply (fd_others _ _ _ _ Hfed); [done|]. by apply Hne. }
  { apply Hfed. }
  { by eapply fed_bounded. }
  split; [done|]. split; [done|]. split; [etrans; [apply Hfed|done]|]. split; [done|]. split.
  - intros c p Hv Hp. simpl in Hp. apply not_elem_of_cons in Hp as [Hp1 Hp2].
    rewrite Hsame by done. by apply (fd_others _ _ _ _ Hfed).
  - intros t [->|Hin]%elem_of_cons.
    + simpl. intros k c Hc Hk. rewrite Hsame; [by apply Hadv|by apply proc_routes|done].
    + destruct (Ht t) as [Hjt _]; [by right|]. eapply advances_later; [done|apply Hfed| |by apply Hall].
      intros c Hc. apply (fd_others _ _ _ _ Hfed); [by apply proc_routes|by apply Hne].
Qed.

(** ** Iterations *)

Lemma collected_latest (ids : list (string * OutboxMessageID)) p id :
  NoDup (map fst ids) ->
  foldl (fun (acc : gmap string OutboxMessageID) '(producer_name, id) => <[producer_name := id]> acc)
    ∅ ids !! p = Some id <-> (p, id) ∈ ids.
Proof.
  induction ids as [|[p' id'] ids IH] using rev_ind; intros Hnd; simpl.
  { rewrite lookup_empty. split; [done|]. by intros ?%elem_of_nil. }
  rewrite map_app, NoDup_app in Hnd. destruct Hnd as (Hnd & Hd & _).
  rewrite foldl_app, elem_of_app, list_elem_of_singleton, <- IH by done. simpl.
  rewrite lookup_insert_Some. split; [naive_solver|].
  intros [Hl|[= -> ->]]; [|by left]. destruct (decide (p' = p)) as [->|]; [|by right].
  exfalso. apply IH in Hl; [|done]. apply (Hd p); [|by left].
  apply list_elem_of_In, in_map_iff. exists (p, id). split; [done|]. by apply list_elem_of_In.
Qed.

Lemma prepare_found latest bs jobs job lid b :
  NoDup (map prj_producer_name jobs) -> job ∈ jobs ->
  latest !! prj_producer_name job = Some lid -> bs !! prj_producer_name job = Some b ->
  (job, lid, b) ∈ prepare_tasks latest bs jobs.
Proof.
  revert bs; induction jobs as [|j jobs IH]; intros bs Hnd Hj Hl Hb; [by apply elem_of_nil in Hj|].
  simpl in *. apply NoDup_cons in Hnd as [Hn Hnd]. apply elem_of_cons in Hj as [<-|Hj].
  - rewrite Hl, Hb. by left.
  - assert (Hne : prj_producer_name j <> prj_producer_name job).
    { intros He. apply Hn. rewrite He. apply list_elem_of_In, in_map. by apply list_elem_of_In. }
    destruct (latest !! prj_producer_name j), (bs !! prj_producer_name j); try (by apply IH).
    right. apply IH; [done..|]. by rewrite lookup_delete_ne.
Qed.

Lemma upto_last (l : list (OutboxMessage Json)) m :
  increasing l -> last l = Some m -> upto (om_message_id m) l = l.
Proof.
  intros Hl (l' & ->)%last_Some. apply upto_all, Forall_forall. intros x [Hx|Hx]%elem_of_app.
  - clear -Hl Hx. induction l' as [|y l' IH]; [by apply elem_of_nil in Hx|].
    simpl in Hl. apply increasing_cons in Hl as [Hl Hy]. apply elem_of_cons in Hx as [->|Hx]; [|by apply IH].
    apply Forall_app in Hy as [_ Hy]. apply Forall_cons in Hy as [Hy _]. lia.
  - apply list_elem_of_singleton in Hx as ->. done.
Qed.

Lemma tasks_ready latest bs w :
  Forall (job_ok w) (map (fun '(job, latest_id, b) => RunningJob_Start job latest_id b)
                       (prepare_tasks latest bs (producer_relay_jobs proc))) ->
  forall t, t ∈ prepare_tasks latest bs (producer_relay_jobs proc) ->
    task_job t ∈ producer_relay_jobs proc /\ job_ok w (task_start t).
Proof.
  intros Hjobs [[job lid] b] Ht. split; [by apply prepare_elem in Ht as (? & _)|].
  rewrite Forall_forall in Hjobs. apply Hjobs. apply list_elem_of_In, in_map_iff.
  exists (job, lid, b). split; [done|]. by apply list_elem_of_In.
Qed.

Lemma iteration_progress w x w' :
  relay_ok w -> all_bounded w -> run_relay_iteration proc w = (x, w') -> ids_left w' ->
  x = Ok tt /\ relay_ok w' /\ grows w w' /\ all_bounded w' /\
  forall job k c, job ∈ producer_relay_jobs proc -> c ∈ prj_consumer_names job ->
    (forall c', c' ∈ prj_consumer_names job -> k <= length (consumed w c' (prj_producer_name job))) ->
    Nat.min (k + batch) (length (sent w (prj_producer_name job))) <=
    length (consumed w' c (prj_producer_name job)).
Proof using proc_routes proc_batch works.
  intros Hok Hb Hr Hids. destruct (rw_latest works (ow_messages w)) as [ids Hi].
  destruct (rw_list works (ow_boundaries w)) as [l Hl].
  set (latest := foldl (fun (acc : gmap string OutboxMessageID) '(producer_name, id) =>
                          <[producer_name := id]> acc) ∅ ids).
  assert (Hsel : select_latest_message_ids_by_producers w = (Ok latest, w)).
  { unfold select_latest_message_ids_by_producers, mbind, action_bind, unwrapped, transactional.
    by rewrite Hi. }
  assert (Hbnd : select_latest_consumption_boundaries_by_producers w = (Ok (organize_boundaries l), w)).
  { unfold select_latest_consumption_boundaries_by_producers, mbind, action_bind, unwrapped, transactional,
      list_boundaries. by rewrite Hl. }
  unfold run_relay_iteration in Hr. rewrite (bind_ok _ _ _ _ _ Hsel), (bind_ok _ _ _ _ _ Hbnd) in Hr.
  destruct (begin_ok _ _ _ _ _ Hsel Hbnd Hok) as [_ [_ Hjobs Hdist]]. simpl in Hjobs, Hdist.
  destruct (run_tasks _ w x w' (tasks_ready _ _ _ Hjobs)) as (-> & Hok' & Hg & Hb' & _ & Hadv); try done.
  { rewrite map_map in Hdist. erewrite map_ext; [exact Hdist|]. by intros [[]]. }
  split_and!; try done. intros job k c Hj Hc Hk. set (p := prj_producer_name job) in *.
  destruct (last (sent w p)) as [m|] eqn:Hlast.
  2: { apply last_None in Hlast. rewrite Hlast. simpl. lia. }
  destruct (lmr_latest Json _ _ (rk_messages _ Hok) Hi) as [Hnd Hlat].
  assert (Hlid : latest !! p = Some (om_message_id m)).
  { apply collected_latest; [done|]. apply Hlat. fold (stored w). fold (sent w p). by rewrite Hlast. }
  destruct (organize_boundaries l !! p) as [b|] eqn:Hob.
  2: { destruct (Hb job Hj c Hc) as [y Hy]. fold p in Hy.
       rewrite <- (organize_boundary w l c p Hok (proc_routes _ Hj c Hc) Hl) in Hy.
       unfold lookup2 in Hy. by rewrite Hob in Hy. }
  pose proof (Hadv (job, om_message_id m, b) (prepare_found _ _ _ _ _ _ producers_nodup Hj Hlid Hob)
                k c Hc Hk) as Hfin.
  simpl in Hfin. fold p in Hfin. rewrite upto_last in Hfin; [done|by apply sent_increasing|done].
Qed.

Lemma iteration_adds_up : adds_up (run_relay_iteration proc).
Proof.
  apply adds_up_bind; [|intros latest; apply adds_up_bind; [|intros bs]].
  - apply adds_up_bind; [|intros ids; apply (adds_up_same (Ok _))]. intros w x w' Hw. unfold unwrapped in Hw.
    destruct (transactional _ w) as [y w1] eqn:Ht. destruct (transactional_read _ _ _ _ Ht) as (_ & Hp & _).
    destruct y; simplify_eq; lia.
  - apply adds_up_bind; [|intros ids; apply (adds_up_same (Ok _))]. intros w x w' Hw. unfold unwrapped in Hw.
    destruct (transactional _ w) as [y w1] eqn:Ht.
    destruct (transactional_read (fun w => ocr_list_consumption_boundaries (ow_boundaries w)) _ _ _ Ht)
      as (_ & Hp & _). destruct y; simplify_eq; lia.
  - apply adds_up_for_each. intros [[j l] b]. apply job_iteration_adds_up.
Qed.

Lemma iterations_adds_up n : adds_up (relay_iterations proc n).
Proof.
  induction n as [|n IH]; [apply (adds_up_same (Ok tt))|].
  apply adds_up_bind; [apply iteration_adds_up|done].
Qed.

Lemma iterations_progress n w x w' (N : string -> nat) k :
  relay_ok w -> all_bounded w -> relay_iterations proc n w = (x, w') -> ids_left w' ->
  (forall p, N p <= length (sent w p)) ->
  (forall job c, job ∈ producer_relay_jobs proc -> c ∈ prj_consumer_names job ->
     Nat.min k (N (prj_producer_name job)) <= length (consumed w c (prj_producer_name job))) ->
  x = Ok tt /\ relay_ok w' /\ all_bounded w' /\
  forall job c, job ∈ producer_relay_jobs proc -> c ∈ prj_consumer_names job ->
    Nat.min (k + n * batch) (N (prj_producer_name job)) <=
    length (consumed w' c (prj_producer_name job)).
Proof using proc_routes proc_batch works.
  revert w k; induction n as [|n IH]; intros w k Hok Hb Hr Hids HN Hk; simpl in Hr.
  { unfold mret, action_ret in Hr. simplify_eq. split_and!; try done. simpl. by rewrite Nat.add_0_r. }
  unfold mbind, action_bind in Hr. destruct (run_relay_iteration proc w) as [y w1] eqn:Hi.
  assert (Hids1 : ids_left w1).
  { destruct y; simplify_eq; [|done..]. unfold ids_left in *. enough (ow_pushes w1 <= ow_pushes w') by lia.
    by eapply iterations_adds_up. }
  destruct (iteration_progress w y w1 Hok Hb Hi Hids1) as (-> & Hok1 & Hg & Hb1 & Hadv).
  destruct (IH w1 (k + batch) Hok1 Hb1 Hr Hids) as (-> & Hok' & Hb' & Hfin).
  { intros p. destruct (grows_sent w w1 p Hg) as [more ->]. rewrite length_app. specialize (HN p). lia. }
  { intros job c Hj Hc. specialize (Hadv job (Nat.min k (N (prj_producer_name job))) c Hj Hc
      (fun c' Hc' => Hk job c' Hj Hc')). specialize (HN (prj_producer_name job)). lia. }
  split_and!; try done. intros job c Hj Hc. specialize (Hfin job c Hj Hc). simpl. lia.
Qed.
End Relay.
