(* ===== verification/Messages.v ===== *)
(** The messages components send each other through the outbox, and who sends and
    receives them.

    Sources: src/domain/core/src/messages, src/domain/task-system/domain/src/messages,
    src/domain/flow-system/domain/src/flow_messages_types.rs. *)

From S2P Require Import Prelude Multiformats Identity Dtos EventSourcing TaskSystem FlowSystem Outbox.

Inductive DatasetVisibility := DatasetVisibility_Private | DatasetVisibility_Public.

Definition DatasetVisibility_is_private (v : DatasetVisibility) : bool :=
  match v with DatasetVisibility_Private => true | DatasetVisibility_Public => false end.

Definition DatasetVisibility_is_public (v : DatasetVisibility) : bool :=
  match v with DatasetVisibility_Private => false | DatasetVisibility_Public => true end.

Record DatasetLifecycleMessageCreated := mkDatasetLifecycleMessageCreated {
  dlc_dataset_id : DatasetID;
  dlc_owner_account_id : AccountID;
  dlc_dataset_visibility : DatasetVisibility
}.
Record DatasetLifecycleMessageDependenciesUpdated := mkDatasetLifecycleMessageDependenciesUpdated {
  dlu_dataset_id : DatasetID;
  dlu_new_upstream_ids : list DatasetID
}.
Record DatasetLifecycleMessageDeleted := mkDatasetLifecycleMessageDeleted {
  dld_dataset_id : DatasetID
}.

Inductive DatasetLifecycleMessage :=
| DatasetLifecycleMessage_Created (m : DatasetLifecycleMessageCreated)
| DatasetLifecycleMessage_DependenciesUpdated (m : DatasetLifecycleMessageDependenciesUpdated)
| DatasetLifecycleMessage_Deleted (m : DatasetLifecycleMessageDeleted).

Record TaskProgressMessageRunning := mkTaskProgressMessageRunning {
  tpr_event_time : DateTime;
  tpr_task_id : TaskID
}.
Record TaskProgressMessageFinished := mkTaskProgressMessageFinished {
  tpf_event_time : DateTime;
  tpf_task_id : TaskID;
  tpf_outcome : TaskOutcome
}.

Inductive TaskProgressMessage :=
| TaskProgressMessage_Running (m : TaskProgressMessageRunning)
| TaskProgressMessage_Finished (m : TaskProgressMessageFinished).

Record FlowConfigurationUpdatedMessage := mkFlowConfigurationUpdatedMessage {
  fcu_event_time : DateTime;
  fcu_flow_key : FlowKey;
  fcu_paused : bool;
  fcu_rule : FlowConfigurationRule
}.

Inductive FlowServiceUpdateDetails :=
| FlowServiceUpdateDetails_Loaded
| FlowServiceUpdateDetails_ExecutedTimeslot
| FlowServiceUpdateDetails_FlowRunning
| FlowServiceUpdateDetails_FlowFinished.

Record FlowServiceUpdatedMessage := mkFlowServiceUpdatedMessage {
  fsu_update_time : DateTime;
  fsu_update_details : FlowServiceUpdateDetails
}.

(** * Producers and consumers *)

Definition MESSAGE_PRODUCER_KAMU_CORE_DATASET_SERVICE : string :=
  "dev.kamu.domain.core.services.DatasetService".
Definition MESSAGE_PRODUCER_KAMU_TASK_EXECUTOR : string := "dev.kamu.domain.task-system.TaskExecutor".
Definition MESSAGE_PRODUCER_KAMU_FLOW_CONFIGURATION_SERVICE : string :=
  "dev.kamu.domain.flow-system.FlowConfigurationService".
Definition MESSAGE_PRODUCER_KAMU_FLOW_SERVICE : string := "dev.kamu.domain.flow-system.FlowService".

Definition MESSAGE_CONSUMER_KAMU_CORE_DATASET_OWNERSHIP_SERVICE : string :=
  "dev.kamu.domain.core.services.DatasetOwnershipService".
Definition MESSAGE_CONSUMER_KAMU_CORE_DEPENDENCY_GRAPH_SERVICE : string :=
  "dev.kamu.domain.core.services.DependencyGraphService".
Definition MESSAGE_CONSUMER_KAMU_FLOW_CONFIGURATION_SERVICE : string :=
  "dev.kamu.domain.flow-system.FlowConfigurationService".
Definition MESSAGE_CONSUMER_KAMU_FLOW_SERVICE : string := "dev.kamu.domain.flow-system.FlowService".
Definition MESSAGE_CONSUMER_KAMU_REBAC_SERVICE : string := "dev.kamu.domain.auth-rebac.RebacService".

(** The metadata of the registered consumers. *)
Definition dataset_ownership_meta : MessageConsumerMeta :=
  mkMessageConsumerMeta MESSAGE_CONSUMER_KAMU_CORE_DATASET_OWNERSHIP_SERVICE
    [MESSAGE_PRODUCER_KAMU_CORE_DATASET_SERVICE] MessageConsumptionDurability_BestEffort.
Definition dependency_graph_meta : MessageConsumerMeta :=
  mkMessageConsumerMeta MESSAGE_CONSUMER_KAMU_CORE_DEPENDENCY_GRAPH_SERVICE
    [MESSAGE_PRODUCER_KAMU_CORE_DATASET_SERVICE] MessageConsumptionDurability_BestEffort.
Definition flow_configuration_meta : MessageConsumerMeta :=
  mkMessageConsumerMeta MESSAGE_CONSUMER_KAMU_FLOW_CONFIGURATION_SERVICE
    [MESSAGE_PRODUCER_KAMU_CORE_DATASET_SERVICE] MessageConsumptionDurability_Durable.
Definition flow_service_meta : MessageConsumerMeta :=
  mkMessageConsumerMeta MESSAGE_CONSUMER_KAMU_FLOW_SERVICE
    [MESSAGE_PRODUCER_KAMU_CORE_DATASET_SERVICE; MESSAGE_PRODUCER_KAMU_TASK_EXECUTOR;
     MESSAGE_PRODUCER_KAMU_FLOW_CONFIGURATION_SERVICE] MessageConsumptionDurability_Durable.
Definition rebac_meta : MessageConsumerMeta :=
  mkMessageConsumerMeta MESSAGE_CONSUMER_KAMU_REBAC_SERVICE
    [MESSAGE_PRODUCER_KAMU_CORE_DATASET_SERVICE] MessageConsumptionDurability_Durable.

(** The types of messages that have a dispatcher. *)
Inductive KamuMessageType :=
| KamuMessageType_DatasetLifecycle
| KamuMessageType_TaskProgress
| KamuMessageType_FlowConfigurationUpdated.

Definition kamu_dispatchers : list (MessageDispatcher KamuMessageType) :=
  [ mkMessageDispatcher MESSAGE_PRODUCER_KAMU_CORE_DATASET_SERVICE KamuMessageType_DatasetLifecycle;
    mkMessageDispatcher MESSAGE_PRODUCER_KAMU_TASK_EXECUTOR KamuMessageType_TaskProgress;
    mkMessageDispatcher MESSAGE_PRODUCER_KAMU_FLOW_CONFIGURATION_SERVICE
      KamuMessageType_FlowConfigurationUpdated ].
