(* ===== verification/FlowConfig.v ===== *)
(** The flow configuration service: its in-memory event store, the service, and
    what its operations do to the configuration of every flow key.

    Sources: src/domain/flow-system/services/src/flow_configuration,
    src/domain/flow-system/domain/src/services/flow_configuration,
    src/infra/flow-system/inmem/src/flow_configuration.

    [ConfigWorld] keeps the store, the messages posted and the readings of the clock.
    The clock and the outbox are parameters. *)

From S2P Require Import Prelude Multiformats Identity Dtos EventSourcing TaskSystem FlowSystem Messages.

(** * The event store *)

Record FlowConfigStoreState := mkFlowConfigStoreState {
  fcss_events : list FlowConfigurationEvent;
  fcss_dataset_ids : list DatasetID
}.

Definition FlowConfigStoreState_default : FlowConfigStoreState := mkFlowConfigStoreState [] [].

#[export] Instance config_store_state : EventStoreState FlowConfigurationEvent FlowConfigStoreState := {|
  events_count s := length (fcss_events s);
  get_events s := fcss_events s;
  add_event s event := mkFlowConfigStoreState (fcss_events s ++ [event]) (fcss_dataset_ids s)
|}.

#[export] Instance config_store_state_lawful : LawfulEventStoreState FlowConfigurationEvent FlowConfigStoreState.
Proof. split; done. Qed.

Record InMemoryFlowConfigurationEventStore := mkInMemoryFlowConfigurationEventStore {
  ics_inner : FlowConfigStoreState
}.

Definition InMemoryFlowConfigurationEventStore_new : InMemoryFlowConfigurationEventStore :=
  mkInMemoryFlowConfigurationEventStore FlowConfigStoreState_default.

Definition note_dataset (s : FlowConfigStoreState) (query : FlowKey) : FlowConfigStoreState :=
  match query with
  | FlowKey_Dataset flow_key =>
      mkFlowConfigStoreState (fcss_events s) (fcss_dataset_ids s ++ [fkd_dataset_id flow_key])
  | FlowKey_System _ => s
  end.

Definition config_save_events (store : InMemoryFlowConfigurationEventStore) (query : FlowKey)
    (events : list FlowConfigurationEvent)
    : res SaveEventsError EventID * InMemoryFlowConfigurationEventStore :=
  match events with
  | [] => (Err SaveEventsError_NothingToSave, store)
  | _ =>
      let '(r, s) := inmem_save_events (note_dataset (ics_inner store) query) query events in
      (r, mkInMemoryFlowConfigurationEventStore s)
  end.

#[export] Instance config_event_store
  : EventStore FlowKey FlowConfigurationEvent InMemoryFlowConfigurationEventStore := {|
  es_get_events store := inmem_get_events (ics_inner store);
  es_save_events := config_save_events;
  es_len store := events_count (ics_inner store)
|}.

Definition list_all_dataset_ids (store : InMemoryFlowConfigurationEventStore) : list DatasetID :=
  fcss_dataset_ids (ics_inner store).

(** * The service *)

Record ConfigWorld := mkConfigWorld {
  cw_store : InMemoryFlowConfigurationEventStore;
  cw_posted : list FlowConfigurationUpdatedMessage;
  cw_ticks : nat
}.

Definition ConfigWorld_new : ConfigWorld := mkConfigWorld InMemoryFlowConfigurationEventStore_new [] 0.

Abbreviation M := (action ConfigWorld InternalError).

Definition get_dataset_flow_keys (dataset_id : DatasetID)
    (maybe_dataset_flow_type : option DatasetFlowType) : list FlowKey :=
  match maybe_dataset_flow_type with
  | Some dataset_flow_type => [FlowKey_Dataset (mkFlowKeyDataset dataset_id dataset_flow_type)]
  | None =>
      map (fun dft => FlowKey_Dataset (mkFlowKeyDataset dataset_id dft)) DatasetFlowType_all
  end.

Definition get_system_flow_keys (maybe_system_flow_type : option SystemFlowType) : list FlowKey :=
  match maybe_system_flow_type with
  | Some system_flow_type => [FlowKey_System (mkFlowKeySystem system_flow_type)]
  | None => map (fun sft => FlowKey_System (mkFlowKeySystem sft)) SystemFlowType_all
  end.

Section Service.
Context (clock : nat -> DateTime)
        (outbox_post : FlowConfigurationUpdatedMessage -> res InternalError unit).

(** [self.time_source.now()] *)
Definition config_now : M DateTime := fun w =>
  (Ok (clock (cw_ticks w)), mkConfigWorld (cw_store w) (cw_posted w) (S (cw_ticks w))).

(** [FlowConfiguration::try_load(flow_key, store).await.int_err()] *)
Definition try_load_config (flow_key : FlowKey) : M (option FlowConfiguration) := fun w =>
  (int_err (Aggregate_try_load flow_key (cw_store w)), w).

(** [flow_configuration.save(store).await.int_err()] *)
Definition save_config (c : FlowConfiguration) : M FlowConfiguration := fun w =>
  let '(r, c', store') := Aggregate_save c (cw_store w) in
  (int_err (map_ok (fun _ => c') r), mkConfigWorld store' (cw_posted w) (cw_ticks w)).

(** [flow_configuration.command(..).int_err()] *)
Definition config_command (r : res FlowConfigurationError unit * FlowConfiguration) : M FlowConfiguration :=
  let '(r, c') := r in lift (int_err (map_ok (fun _ => c') r)).

(** Reading the state of [flow_configuration]. *)
Definition config_state (c : FlowConfiguration) : M FlowConfigurationState :=
  lift (unwrap (agg_state c)).

Definition publish_flow_configuration_modified (state : FlowConfigurationState)
    (request_time : DateTime) : M unit := fun w =>
  let message := mkFlowConfigurationUpdatedMessage request_time (fcs_flow_key state)
                   (negb (FlowConfigurationState_is_active state)) (fcs_rule state) in
  match outbox_post message with
  | Ok _ => (Ok tt, mkConfigWorld (cw_store w) (cw_posted w ++ [message]) (cw_ticks w))
  | r => (r, w)
  end.

Definition find_configuration (flow_key : FlowKey) : M (option FlowConfigurationState) :=
  maybe_flow_configuration ← try_load_config flow_key;
  match maybe_flow_configuration with
  | Some c => s ← config_state c; mret (Some s)
  | None => mret None
  end.

(** A stream of [try_load] for every key; it ends with the first error. *)
Fixpoint load_configurations (keep : FlowConfigurationState -> bool) (keys : list FlowKey)
    : M (list FlowConfigurationState) :=
  match keys with
  | [] => mret []
  | key :: rest =>
      found ← find_configuration key;
      others ← load_configurations keep rest;
      mret (match found with
            | Some s => if keep s then s :: others else others
            | None => others
            end)
  end.

Definition find_configurations_by_datasets (dataset_ids : list DatasetID)
    : M (list FlowConfigurationState) :=
  load_configurations (fun _ => true)
    (List.flat_map (fun dft => map (fun id => FlowKey_Dataset (mkFlowKeyDataset id dft)) dataset_ids)
       DatasetFlowType_all).

Definition set_configuration (request_time : DateTime) (flow_key : FlowKey) (paused : bool)
    (rule : FlowConfigurationRule) : M FlowConfigurationState :=
  maybe_flow_configuration ← try_load_config flow_key;
  c ← match maybe_flow_configuration with
      | Some c => t ← config_now; config_command (FlowConfiguration_modify_configuration c t paused rule)
      | None => t ← config_now; lift (int_err (FlowConfiguration_new t flow_key paused rule))
      end;
  c' ← save_config c;
  s ← config_state c';
  _ ← publish_flow_configuration_modified s request_time;
  mret s.

Definition list_enabled_configurations : M (list FlowConfigurationState) :=
  systems ← load_configurations FlowConfigurationState_is_active
              (map (fun sft => FlowKey_System (mkFlowKeySystem sft)) SystemFlowType_all);
  dataset_ids ← gets (fun w => list_all_dataset_ids (cw_store w));
  datasets ← load_configurations FlowConfigurationState_is_active
               (List.flat_map (fun id => get_dataset_flow_keys id None) dataset_ids);
  mret (systems ++ datasets).

(** The common shape of [pause_flow_configuration] and [resume_flow_configuration]. *)
Definition change_and_publish
    (change : FlowConfiguration -> res FlowConfigurationError unit * FlowConfiguration)
    (request_time : DateTime) (flow_key : FlowKey) : M unit :=
  maybe_flow_configuration ← try_load_config flow_key;
  match maybe_flow_configuration with
  | Some c =>
      c ← config_command (change c);
      c' ← save_config c;
      s ← config_state c';
      publish_flow_configuration_modified s request_time
  | None => mret tt
  end.

Definition pause_flow_configuration (request_time : DateTime) : FlowKey -> M unit :=
  change_and_publish (fun c => FlowConfiguration_pause c request_time) request_time.

Definition resume_flow_configuration (request_time : DateTime) : FlowKey -> M unit :=
  change_and_publish (fun c => FlowConfiguration_resume c request_time) request_time.

Definition pause_dataset_flows (request_time : DateTime) (dataset_id : DatasetID)
    (maybe_dataset_flow_type : option DatasetFlowType) : M unit :=
  for_each (pause_flow_configuration request_time)
    (get_dataset_flow_keys dataset_id maybe_dataset_flow_type).

Definition pause_system_flows (request_time : DateTime)
    (maybe_system_flow_type : option SystemFlowType) : M unit :=
  for_each (pause_flow_configuration request_time) (get_system_flow_keys maybe_system_flow_type).

Definition resume_dataset_flows (request_time : DateTime) (dataset_id : DatasetID)
    (maybe_dataset_flow_type : option DatasetFlowType) : M unit :=
  for_each (resume_flow_configuration request_time)
    (get_dataset_flow_keys dataset_id maybe_dataset_flow_type).

Definition resume_system_flows (request_time : DateTime)
    (maybe_system_flow_type : option SystemFlowType) : M unit :=
  for_each (resume_flow_configuration request_time) (get_system_flow_keys maybe_system_flow_type).

Definition stop_configuration (flow_key : FlowKey) : M unit :=
  maybe_flow_configuration ← try_load_config flow_key;
  match maybe_flow_configuration with
  | Some c =>
      t ← config_now;
      c ← config_command (FlowConfiguration_notify_dataset_removed c t);
      _ ← save_config c;
      mret tt
  | None => mret tt
  end.

Definition consume_dataset_lifecycle_config (message : DatasetLifecycleMessage) : M unit :=
  match message with
  | DatasetLifecycleMessage_Deleted m =>
      for_each (fun flow_type => stop_configuration
                  (FlowKey_Dataset (mkFlowKeyDataset (dld_dataset_id m) flow_type)))
        DatasetFlowType_all
  | DatasetLifecycleMessage_Created _ | DatasetLifecycleMessage_DependenciesUpdated _ => mret tt
  end.
End Service.

(** * The configuration of every key *)

Definition config_of (store : InMemoryFlowConfigurationEventStore) (k : FlowKey)
    : option FlowConfigurationState :=
  match replay None (history (ics_inner store) k) with Ok o => o | _ => None end.

(** The events of every key replay to a configuration of that key, and the
    datasets with a configuration are listed. *)
Record config_store_ok (store : InMemoryFlowConfigurationEventStore) : Prop := {
  cso_replays : forall k, exists o, state_at (ics_inner store) k o;
  cso_key : forall k s, config_of store k = Some s -> fcs_flow_key s = k;
  cso_listed : forall d t, config_of store (FlowKey_Dataset (mkFlowKeyDataset d t)) <> None ->
    d ∈ list_all_dataset_ids store
}.

Lemma config_store_ok_new : config_store_ok InMemoryFlowConfigurationEventStore_new.
Proof. split; [intros k; by exists None|done..]. Qed.

Lemma config_of_at store k : config_store_ok store -> state_at (ics_inner store) k (config_of store k).
Proof.
  intros [H _ _]. destruct (H k) as [o Ho]. unfold config_of, state_at in *. by rewrite Ho.
Qed.

Lemma config_of_eq store k o : state_at (ics_inner store) k o -> config_of store k = o.
Proof. unfold config_of, state_at. by intros ->. Qed.

(** Applying an event keeps the key. *)
Lemma config_apply_key o e s :
  FlowConfigurationState_apply o e = Ok s -> fcs_flow_key s = FlowConfigurationEvent_flow_key e.
Proof.
  unfold FlowConfigurationState_apply. destruct o as [s0|]; [case_decide as Hk; [done|]|].
  - destruct e; simpl in *; repeat case_match; intros; simplify_eq; simpl in *;
      by (destruct (decide (fcs_flow_key s0 = _)); [|tauto]) || (apply dec_stable; congruence).
  - by destruct e; intros; simplify_eq.
Qed.

Lemma synced_key store (c : FlowConfiguration) s :
  synced (ics_inner store) c -> agg_state c = Some s -> fcs_flow_key s = agg_query c.
Proof.
  intros Hsy Hs. pose proof (sy_state _ _ Hsy) as Hr. rewrite Hs in Hr.
  assert (Hall : Forall (fun e => FlowConfigurationEvent_flow_key e = agg_query c)
                   (history (ics_inner store) (agg_query c) ++ agg_pending_events c)).
  { apply Forall_app. split.
    - apply Forall_forall. intros e. unfold history. rewrite list_elem_of_In, filter_In.
      intros [_ He]. by apply bool_decide_eq_true in He.
    - eapply Forall_impl; [apply (sy_pending _ _ Hsy)|]. intros e He. by apply bool_decide_eq_true in He. }
  revert Hr Hall. generalize (history (ics_inner store) (agg_query c) ++ agg_pending_events c).
  intros es. destruct (decide (es = [])) as [->|Hne]; [done|].
  destruct (exists_last Hne) as (es' & e & ->). rewrite replay_snoc.
  intros Hr [_ He]%Forall_app. apply res_bind_ok in Hr as (o & _ & Hr).
  apply res_bind_ok in Hr as (s' & Hs' & [= ->]). apply Forall_cons in He as [He _].
  rewrite <- He. by apply (config_apply_key o).
Qed.

Lemma try_load_some store k s :
  config_store_ok store -> config_of store k = Some s ->
  exists c, Aggregate_try_load k store = Ok (Some c) /\ synced (ics_inner store) c /\
    agg_state c = Some s /\ agg_query c = k /\ agg_pending_events c = [].
Proof.
  intros Hok Hs. pose proof (config_of_at _ k Hok) as Hat. rewrite Hs in Hat.
  destruct (load_state_at _ _ _ Hat) as (c & Hl & Hc). exists c. split; [|done].
  unfold Aggregate_try_load. change (Aggregate_load_ext k store LoadOpts_default = Ok c) in Hl.
  by rewrite Hl.
Qed.

Lemma try_load_none store k :
  config_store_ok store -> config_of store k = None -> Aggregate_try_load k store = Ok None.
Proof.
  intros Hok Hs. pose proof (config_of_at _ k Hok) as Hat. rewrite Hs in Hat.
  pose proof (load_state_missing _ _ Hat) as Hl. unfold Aggregate_try_load.
  change (Aggregate_load_ext k store LoadOpts_default = Err (LoadError_NotFound k)) in Hl.
  by rewrite Hl.
Qed.

(** The configuration of one key is replaced. *)
Definition update (k : FlowKey) (o : option FlowConfigurationState)
    (A : FlowKey -> option FlowConfigurationState) : FlowKey -> option FlowConfigurationState :=
  fun k' => if decide (k' = k) then o else A k'.

Lemma note_dataset_events s k : fcss_events (note_dataset s k) = fcss_events s.
Proof. by destruct k. Qed.

Lemma note_dataset_ids s k d :
  d ∈ fcss_dataset_ids (note_dataset s k) <->
  d ∈ fcss_dataset_ids s \/ exists t, k = FlowKey_Dataset (mkFlowKeyDataset d t).
Proof.
  destruct k as [[d' t]|k]; simpl.
  - rewrite elem_of_app, list_elem_of_singleton. naive_solver.
  - naive_solver.
Qed.

Lemma config_fold_ids s es : fcss_dataset_ids (fold_left add_event es s) = fcss_dataset_ids s.
Proof. revert s; induction es as [|e es IH]; intros s; [done|]. simpl. by rewrite IH. Qed.

(** Saving an aggregate in step with the store. *)
Lemma config_save store (c : FlowConfiguration) :
  config_store_ok store -> synced (ics_inner store) c ->
  (agg_pending_events c = [] -> agg_state c = config_of store (agg_query c)) ->
  exists c' store', Aggregate_save c store = (Ok tt, c', store') /\ config_store_ok store' /\
    agg_state c' = agg_state c /\
    forall k, config_of store' k = update (agg_query c) (agg_state c) (config_of store) k.
Proof.
  intros Hok Hsy Hsame. destruct (agg_pending_events c) as [|e es] eqn:Hp.
  { exists c, store. unfold Aggregate_save. rewrite Hp. split_and!; try done.
    intros k. unfold update. case_decide as Hk; [subst|done]. by rewrite Hsame. }
  set (s1 := note_dataset (ics_inner store) (agg_query c)).
  assert (Hsy1 : synced s1 c).
  { destruct Hsy as [H1 H2 H3 H4]. split; try done.
    - simpl. unfold s1. by rewrite note_dataset_events.
    - unfold history, s1. simpl. rewrite note_dataset_events. exact H2. }
  destruct (Aggregate_save c s1) as [[r c'] s2] eqn:Hsave.
  pose proof (fun q => save_frame _ _ _ _ _ q Hsy1 Hsave) as Hframe.
  destruct (save_synced _ _ _ _ _ Hsy1 Hsave) as (-> & Hsy2 & Has & Hpe & Hq & _).
  set (store' := mkInMemoryFlowConfigurationEventStore s2).
  assert (Hs2 : Aggregate_save c store = (Ok tt, c', store') /\ s2 = fold_left add_event (e :: es) s1).
  { revert Hsave. unfold Aggregate_save. rewrite Hp.
    cbn [es_save_events in_memory_event_store config_event_store]. unfold config_save_events.
    fold s1. unfold inmem_save_events, store'. case_decide; intros; by simplify_eq. }
  destruct Hs2 as [Hs2 Hfold].
  assert (Hat : forall k, state_at s2 k (update (agg_query c) (agg_state c) (config_of store) k)).
  { intros k. unfold update. case_decide as Hk.
    - subst k. rewrite <- Has, <- Hq. by apply synced_state_at.
    - pose proof (config_of_at _ k Hok) as Hold. unfold state_at in *. rewrite Hframe.
      + unfold history, s1 in *. simpl in *. by rewrite note_dataset_events.
      + simpl. intros e' He%bool_decide_eq_true. apply bool_decide_eq_false_2. congruence. }
  assert (Hview : forall k, config_of store' k = update (agg_query c) (agg_state c) (config_of store) k)
    by (intros k; by apply config_of_eq, Hat).
  exists c', store'. split; [done|]. split; [|done]. split.
  - intros k. eexists. apply Hat.
  - intros k s. rewrite Hview. unfold update. case_decide; [subst; by eapply synced_key|].
    by apply (cso_key _ Hok).
  - intros d t. rewrite Hview. unfold update, list_all_dataset_ids, store'. simpl.
    rewrite Hfold, config_fold_ids. unfold s1. rewrite note_dataset_ids.
    case_decide as Hk; [intros _; right; by eexists|]. intros Hn. left.
    by apply (cso_listed _ Hok d t).
Qed.

(** * What the service promises *)

Abbreviation Configs := (FlowKey -> option FlowConfigurationState).

(** Where a configuration goes. *)
Definition with_status (s : FlowConfigurationState) (status : FlowConfigurationStatus)
    : FlowConfigurationState := mkFlowConfigurationState (fcs_flow_key s) (fcs_rule s) status.

Definition pausing (s : FlowConfigurationState) : FlowConfigurationState :=
  if FlowConfigurationState_is_active s
  then with_status s FlowConfigurationStatus_PausedTemporarily else s.

Definition resuming (s : FlowConfigurationState) : FlowConfigurationState :=
  with_status s FlowConfigurationStatus_Active.

Definition stopping (s : FlowConfigurationState) : FlowConfigurationState :=
  with_status s FlowConfigurationStatus_StoppedPermanently.

(** The present configurations of some keys are changed. *)
Definition change_keys (f : FlowConfigurationState -> FlowConfigurationState) (keys : list FlowKey)
    (A : Configs) : Configs :=
  fun k => if decide (k ∈ keys) then f <$> A k else A k.

(** What is announced for a configuration. *)
Definition announcement (t : DateTime) (s : FlowConfigurationState) : FlowConfigurationUpdatedMessage :=
  mkFlowConfigurationUpdatedMessage t (fcs_flow_key s) (negb (FlowConfigurationState_is_active s))
    (fcs_rule s).

(** A request to the service. *)
Inductive ConfigRequest :=
| ConfigRequest_Set (t : DateTime) (k : FlowKey) (paused : bool) (rule : FlowConfigurationRule)
| ConfigRequest_Pause (t : DateTime) (k : FlowKey)
| ConfigRequest_Resume (t : DateTime) (k : FlowKey)
| ConfigRequest_PauseDataset (t : DateTime) (d : DatasetID) (ty : option DatasetFlowType)
| ConfigRequest_PauseSystem (t : DateTime) (ty : option SystemFlowType)
| ConfigRequest_ResumeDataset (t : DateTime) (d : DatasetID) (ty : option DatasetFlowType)
| ConfigRequest_ResumeSystem (t : DateTime) (ty : option SystemFlowType)
| ConfigRequest_Lifecycle (m : DatasetLifecycleMessage).

(** The configurations after a request. *)
Definition after_request (r : ConfigRequest) (A : Configs) : Configs :=
  match r with
  | ConfigRequest_Set _ k paused rule =>
      update k (Some (mkFlowConfigurationState k rule (status_of_paused paused))) A
  | ConfigRequest_Pause _ k => change_keys pausing [k] A
  | ConfigRequest_Resume _ k => change_keys resuming [k] A
  | ConfigRequest_PauseDataset _ d ty => change_keys pausing (get_dataset_flow_keys d ty) A
  | ConfigRequest_PauseSystem _ ty => change_keys pausing (get_system_flow_keys ty) A
  | ConfigRequest_ResumeDataset _ d ty => change_keys resuming (get_dataset_flow_keys d ty) A
  | ConfigRequest_ResumeSystem _ ty => change_keys resuming (get_system_flow_keys ty) A
  | ConfigRequest_Lifecycle (DatasetLifecycleMessage_Deleted m) =>
      change_keys stopping (get_dataset_flow_keys (dld_dataset_id m) None) A
  | ConfigRequest_Lifecycle _ => A
  end.

(** The announcements of changed keys, in their order. *)
Definition announce_keys (t : DateTime) (f : FlowConfigurationState -> FlowConfigurationState)
    (keys : list FlowKey) (A : Configs) : list FlowConfigurationUpdatedMessage :=
  omap (fun k => announcement t ∘ f <$> A k) keys.

Definition announced (r : ConfigRequest) (A : Configs) : list FlowConfigurationUpdatedMessage :=
  match r with
  | ConfigRequest_Set t k paused rule =>
      [announcement t (mkFlowConfigurationState k rule (status_of_paused paused))]
  | ConfigRequest_Pause t k => announce_keys t pausing [k] A
  | ConfigRequest_Resume t k => announce_keys t resuming [k] A
  | ConfigRequest_PauseDataset t d ty => announce_keys t pausing (get_dataset_flow_keys d ty) A
  | ConfigRequest_PauseSystem t ty => announce_keys t pausing (get_system_flow_keys ty) A
  | ConfigRequest_ResumeDataset t d ty => announce_keys t resuming (get_dataset_flow_keys d ty) A
  | ConfigRequest_ResumeSystem t ty => announce_keys t resuming (get_system_flow_keys ty) A
  | ConfigRequest_Lifecycle _ => []
  end.

Section Requests.
Context (clock : nat -> DateTime)
        (outbox_post : FlowConfigurationUpdatedMessage -> res InternalError unit).

Definition serve (r : ConfigRequest) : M unit :=
  match r with
  | ConfigRequest_Set t k paused rule => _ ← set_configuration clock outbox_post t k paused rule; mret tt
  | ConfigRequest_Pause t k => pause_flow_configuration outbox_post t k
  | ConfigRequest_Resume t k => resume_flow_configuration outbox_post t k
  | ConfigRequest_PauseDataset t d ty => pause_dataset_flows outbox_post t d ty
  | ConfigRequest_PauseSystem t ty => pause_system_flows outbox_post t ty
  | ConfigRequest_ResumeDataset t d ty => resume_dataset_flows outbox_post t d ty
  | ConfigRequest_ResumeSystem t ty => resume_system_flows outbox_post t ty
  | ConfigRequest_Lifecycle m => consume_dataset_lifecycle_config clock m
  end.

Context (Hpost : forall m, outbox_post m = Ok tt).

Definition configs (w : ConfigWorld) : Configs := config_of (cw_store w).

(** A request was served: the store is well formed, holds these configurations,
    and these messages were posted. *)
Definition served (w w' : ConfigWorld) (A : Configs) (ms : list FlowConfigurationUpdatedMessage) : Prop :=
  config_store_ok (cw_store w') /\ (forall k, configs w' k = A k) /\ cw_posted w' = cw_posted w ++ ms.

Lemma save_config_ok w (c : FlowConfiguration) :
  config_store_ok (cw_store w) -> synced (ics_inner (cw_store w)) c ->
  (agg_pending_events c = [] -> agg_state c = configs w (agg_query c)) ->
  exists c' w', save_config c w = (Ok c', w') /\ agg_state c' = agg_state c /\
    served w w' (update (agg_query c) (agg_state c) (configs w)) [].
Proof.
  intros Hok Hsy Hsame. destruct (config_save _ _ Hok Hsy Hsame) as (c' & st & Hs & Hok' & Ha & Hv).
  exists c', (mkConfigWorld st (cw_posted w) (cw_ticks w)). unfold save_config. rewrite Hs.
  split; [done|]. split; [done|]. split; [done|]. split; [done|]. simpl. by rewrite app_nil_r.
Qed.

Lemma publish_ok w s t :
  publish_flow_configuration_modified outbox_post s t w =
  (Ok tt, mkConfigWorld (cw_store w) (cw_posted w ++ [announcement t s]) (cw_ticks w)).
Proof. unfold publish_flow_configuration_modified. by rewrite Hpost. Qed.

(** The end of every change: store the configuration and announce it. *)
Lemma save_and_publish w (c : FlowConfiguration) s t :
  config_store_ok (cw_store w) -> synced (ics_inner (cw_store w)) c -> agg_state c = Some s ->
  (agg_pending_events c = [] -> configs w (agg_query c) = Some s) ->
  exists w', (c' ← save_config c; s' ← config_state c';
     _ ← publish_flow_configuration_modified outbox_post s' t; mret s') w = (Ok s, w') /\
    served w w' (update (agg_query c) (Some s) (configs w)) [announcement t s].
Proof.
  intros Hok Hsy Hs Hsame.
  destruct (save_config_ok w c Hok Hsy) as (c' & w1 & Hw1 & Ha & Hok1 & Hv1 & Hp1).
  { intros Hp. by rewrite Hs, Hsame. }
  eexists. erewrite bind_ok by exact Hw1.
  erewrite bind_ok by (unfold config_state, lift; rewrite Ha, Hs; reflexivity).
  erewrite bind_ok by apply publish_ok. split; [reflexivity|]. rewrite Hs in Hv1.
  split; [done|]. split; [exact Hv1|]. simpl. by rewrite Hp1, app_nil_r.
Qed.

Lemma set_configuration_served w t k paused rule :
  config_store_ok (cw_store w) ->
  let s := mkFlowConfigurationState k rule (status_of_paused paused) in
  exists w', set_configuration clock outbox_post t k paused rule w = (Ok s, w') /\
    served w w' (update k (Some s) (configs w)) [announcement t s].
Proof.
  intros Hok s. set (w1 := mkConfigWorld (cw_store w) (cw_posted w) (S (cw_ticks w))).
  unfold set_configuration. destruct (configs w k) as [s0|] eqn:Hs0.
  - destruct (try_load_some _ _ _ Hok Hs0) as (c & Hl & Hsy & Hcs & Hq & Hp).
    pose proof (synced_key _ _ _ Hsy Hcs) as Hk.
    erewrite bind_ok by (unfold try_load_config; rewrite Hl; reflexivity). cbv beta iota.
    set (e := FlowConfigurationEvent_Modified
                (mkFlowConfigurationEventModified (clock (cw_ticks w)) (fcs_flow_key s0) paused rule)).
    destruct (Aggregate_apply c e) as [r c'] eqn:Happ.
    assert (Hr : r = Ok tt /\ agg_state c' = Some s /\ agg_query c' = k /\ agg_pending_events c' <> []).
    { revert Happ. unfold Aggregate_apply. rewrite Hcs. simpl. rewrite decide_False by naive_solver.
      intros [= <- <-]. simpl. split_and!; [done| |done|by apply app_singleton_ne].
      unfold s. congruence. }
    destruct Hr as (-> & Hs' & Hq' & Hne).
    assert (Hm : (t0 ← config_now clock; config_command
              (FlowConfiguration_modify_configuration c t0 paused rule)) w = (Ok c', w1)).
    { erewrite bind_ok by reflexivity. unfold FlowConfiguration_modify_configuration. rewrite Hcs.
      fold e. by rewrite Happ. }
    erewrite bind_ok by exact Hm.
    assert (Hsy' : synced (ics_inner (cw_store w1)) c').
    { eapply apply_synced; [exact Hsy| |exact Happ]. simpl. apply bool_decide_eq_true. congruence. }
    destruct (save_and_publish w1 c' s t Hok Hsy' Hs') as (w' & Hw' & Hsv); [done|].
    exists w'. split; [exact Hw'|]. by rewrite <- Hq'.
  - erewrite bind_ok by (unfold try_load_config; rewrite (try_load_none _ _ Hok Hs0); reflexivity).
    cbv beta iota.
    set (e := FlowConfigurationEvent_Created
                (mkFlowConfigurationEventCreated (clock (cw_ticks w)) k paused rule)).
    set (c := mkAggregate k (Some s) [e] None : FlowConfiguration).
    assert (Hn : Aggregate_new k e = Ok c) by done.
    assert (Hm : (t0 ← config_now clock; lift (int_err (FlowConfiguration_new t0 k paused rule))) w
                 = (Ok c, w1)) by done.
    erewrite bind_ok by exact Hm.
    assert (Hsy : synced (ics_inner (cw_store w1)) c).
    { eapply new_synced; [|by apply bool_decide_eq_true|exact Hn]. apply state_at_none_history.
      rewrite <- Hs0. by apply config_of_at. }
    destruct (save_and_publish w1 c s t Hok Hsy eq_refl) as (w' & Hw' & Hsv); [done|].
    exists w'. split; [exact Hw'|done].
Qed.

(** A command that turns every configuration [s] into [f s]. *)
Definition turns (f : FlowConfigurationState -> FlowConfigurationState)
    (change : FlowConfiguration -> res FlowConfigurationError unit * FlowConfiguration)
    (s : FlowConfigurationState) : Prop :=
  forall c, agg_state c = Some s ->
    (change c = (Ok tt, c) /\ f s = s) \/
    (exists e, change c = Aggregate_apply c e /\
       FlowConfigurationEvent_flow_key e = fcs_flow_key s /\
       FlowConfigurationState_apply (Some s) e = Ok (f s)).

Lemma pause_turns t s : turns pausing (fun c => FlowConfiguration_pause c t) s.
Proof.
  intros c Hc. unfold FlowConfiguration_pause, pausing. rewrite Hc.
  destruct (FlowConfigurationState_is_active s); [right|by left].
  eexists; split; [done|]. split; [done|]. simpl. by rewrite decide_False by naive_solver.
Qed.

Lemma resume_turns t s : turns resuming (fun c => FlowConfiguration_resume c t) s.
Proof.
  intros c Hc. unfold FlowConfiguration_resume, resuming. rewrite Hc.
  destruct (FlowConfigurationState_is_active s) eqn:Ha; [left|right].
  - split; [done|]. destruct s as [? ? []]; done.
  - eexists; split; [done|]. split; [done|]. simpl. by rewrite decide_False by naive_solver.
Qed.

Lemma stop_turns t s d :
  fcs_flow_key s = FlowKey_Dataset d ->
  turns stopping (fun c => FlowConfiguration_notify_dataset_removed c t) s.
Proof.
  intros Hd c Hc. unfold FlowConfiguration_notify_dataset_removed. rewrite Hc. right.
  eexists; split; [done|]. split; [done|]. simpl. rewrite decide_False by naive_solver.
  rewrite Hd. destruct s as [k r []]; simpl in *; subst; done.
Qed.

Lemma turned w f change k s :
  config_store_ok (cw_store w) -> configs w k = Some s -> turns f change s ->
  exists c c', try_load_config k w = (Ok (Some c), w) /\ change c = (Ok tt, c') /\
    synced (ics_inner (cw_store w)) c' /\ agg_state c' = Some (f s) /\ agg_query c' = k /\
    (agg_pending_events c' = [] -> configs w k = Some (f s)).
Proof.
  intros Hok Hs Ht. destruct (try_load_some _ _ _ Hok Hs) as (c & Hl & Hsy & Hcs & Hq & Hp).
  pose proof (synced_key _ _ _ Hsy Hcs) as Hk.
  destruct (Ht c Hcs) as [[Hc Hf]|(e & Hc & He & Ha)].
  - exists c, c. unfold try_load_config. rewrite Hl. split_and!; try done; congruence.
  - exists c, (mkAggregate (agg_query c) (Some (f s)) (agg_pending_events c ++ [e])
                 (agg_last_stored_event c)).
    assert (Happ : Aggregate_apply c e = (Ok tt, mkAggregate (agg_query c) (Some (f s))
              (agg_pending_events c ++ [e]) (agg_last_stored_event c))).
    { unfold Aggregate_apply. rewrite Hcs. cbn [proj_apply flow_configuration_projection]. by rewrite Ha. }
    unfold try_load_config. rewrite Hl. split_and!; try done; [congruence| |].
    + eapply apply_synced; [exact Hsy| |exact Happ]. simpl. apply bool_decide_eq_true. congruence.
    + simpl. intros Hn. by apply app_singleton_ne in Hn.
Qed.

Lemma change_keys_nil f A k : change_keys f [] A k = A k.
Proof. unfold change_keys. by rewrite decide_False by apply not_elem_of_nil. Qed.

Lemma change_keys_some f A k s :
  A k = Some s -> forall k', update k (Some (f s)) A k' = change_keys f [k] A k'.
Proof.
  intros Hs k'. unfold update, change_keys. case_decide as Hk.
  - subst. rewrite decide_True by (by apply list_elem_of_singleton). by rewrite Hs.
  - by rewrite decide_False by (by rewrite list_elem_of_singleton).
Qed.

Lemma change_keys_none f A k :
  A k = None -> forall k', A k' = change_keys f [k] A k'.
Proof.
  intros Hs k'. unfold change_keys. case_decide as Hk; [|done].
  apply list_elem_of_singleton in Hk. subst. by rewrite Hs.
Qed.

Lemma change_and_publish_served w f change t k :
  config_store_ok (cw_store w) -> (forall s, turns f change s) ->
  exists w', change_and_publish outbox_post change t k w = (Ok tt, w') /\
    served w w' (change_keys f [k] (configs w)) (announce_keys t f [k] (configs w)).
Proof.
  intros Hok Ht. unfold change_and_publish, announce_keys. simpl.
  destruct (configs w k) as [s|] eqn:Hs; simpl.
  - destruct (turned w f change k s Hok Hs (Ht s)) as (c & c' & Hl & Hc & Hsy & Hcs & Hq & Hsame).
    erewrite bind_ok by exact Hl. cbv beta iota.
    erewrite bind_ok by (unfold config_command; rewrite Hc; reflexivity).
    destruct (save_and_publish w c' (f s) t Hok Hsy Hcs) as (w' & Hw' & Hok' & Hv & Hp).
    { by rewrite Hq. }
    exists w'. split; [|split; [done|]; split; [|done]].
    + apply bind_ok_inv in Hw' as (c2 & w1 & H1 & Hw'). apply bind_ok_inv in Hw' as (s2 & w2 & H2 & Hw').
      apply bind_ok_inv in Hw' as ([] & w3 & H3 & [= -> ->]).
      by rewrite (bind_ok _ _ _ _ _ H1), (bind_ok _ _ _ _ _ H2).
    + intros k'. rewrite Hv, Hq. by apply change_keys_some.
  - erewrite bind_ok by (unfold try_load_config; rewrite (try_load_none _ _ Hok Hs); reflexivity).
    eexists; split; [done|]. split; [done|]. split; [|by rewrite app_nil_r].
    by apply change_keys_none.
Qed.

Lemma stop_served w d :
  config_store_ok (cw_store w) ->
  exists w', stop_configuration clock (FlowKey_Dataset d) w = (Ok tt, w') /\
    served w w' (change_keys stopping [FlowKey_Dataset d] (configs w)) [].
Proof.
  intros Hok. unfold stop_configuration. destruct (configs w (FlowKey_Dataset d)) as [s|] eqn:Hs; simpl.
  - destruct (turned w stopping (fun c => FlowConfiguration_notify_dataset_removed c (clock (cw_ticks w)))
                _ s Hok Hs) as (c & c' & Hl & Hc & Hsy & Hcs & Hq & Hsame).
    { apply (stop_turns _ _ d). by apply (cso_key _ Hok). }
    erewrite bind_ok by exact Hl. cbv beta iota. erewrite bind_ok by reflexivity.
    erewrite bind_ok by (unfold config_command; rewrite Hc; reflexivity).
    destruct (save_config_ok (mkConfigWorld (cw_store w) (cw_posted w) (S (cw_ticks w))) c' Hok Hsy)
      as (c2 & w' & Hw' & _ & Hok' & Hv & Hp).
    { intros Hn. rewrite Hcs, Hq. symmetry. by apply Hsame. }
    exists w'. erewrite bind_ok by exact Hw'. split; [done|]. split; [done|]. split; [|done].
    intros k'. rewrite Hv, Hq, Hcs. by apply (change_keys_some _ (configs w)).
  - erewrite bind_ok by (unfold try_load_config; rewrite (try_load_none _ _ Hok Hs); reflexivity).
    eexists; split; [done|]. split; [done|]. split; [|by rewrite app_nil_r].
    by apply change_keys_none.
Qed.

(** Serving several keys. *)
Lemma keys_served (act : FlowKey -> M unit) f (ann : FlowConfigurationState -> list FlowConfigurationUpdatedMessage)
    keys w :
  NoDup keys -> config_store_ok (cw_store w) ->
  (forall k w, k ∈ keys -> config_store_ok (cw_store w) -> exists w', act k w = (Ok tt, w') /\
     served w w' (change_keys f [k] (configs w)) (default [] (ann <$> configs w k))) ->
  exists w', for_each act keys w = (Ok tt, w') /\
    served w w' (change_keys f keys (configs w)) (concat (map (fun k => default [] (ann <$> configs w k)) keys)).
Proof.
  intros Hnd. revert w. induction Hnd as [|k keys Hk Hnd IH]; intros w Hok Hact; simpl.
  { exists w. split; [done|]. split; [done|]. split; [|by rewrite app_nil_r].
    intros k. by rewrite change_keys_nil. }
  destruct (Hact k w) as (w1 & Hw1 & Hok1 & Hv1 & Hp1); [by left|done|].
  destruct (IH w1 Hok1) as (w2 & Hw2 & Hok2 & Hv2 & Hp2).
  { intros k' w' Hk'. apply Hact. by right. }
  exists w2. erewrite bind_ok by exact Hw1. split; [done|]. split; [done|]. split.
  - intros k'. rewrite Hv2. unfold change_keys. rewrite Hv1. unfold change_keys.
    destruct (decide (k' = k)) as [->|Hne].
    + rewrite (decide_False (P := k ∈ keys)) by done.
      by rewrite !decide_True by set_solver.
    + rewrite (decide_False (P := k' ∈ [k])) by (by rewrite list_elem_of_singleton).
      apply decide_ext. rewrite elem_of_cons. naive_solver.
  - rewrite Hp2, Hp1, <- app_assoc. f_equal. f_equal. f_equal.
    apply map_ext_in. intros k' Hk'%list_elem_of_In. rewrite Hv1. unfold change_keys.
    rewrite decide_False; [done|]. rewrite list_elem_of_singleton. by intros ->.
Qed.

Lemma announce_concat t f keys A :
  announce_keys t f keys A =
  concat (map (fun k => default [] ((fun s => [announcement t (f s)]) <$> A k)) keys).
Proof.
  unfold announce_keys. induction keys as [|k keys IH]; simpl; [done|].
  destruct (A k); simpl; [f_equal|]; exact IH.
Qed.

Lemma publish_keys_served w f change t keys :
  NoDup keys -> config_store_ok (cw_store w) -> (forall s, turns f change s) ->
  exists w', for_each (change_and_publish outbox_post change t) keys w = (Ok tt, w') /\
    served w w' (change_keys f keys (configs w)) (announce_keys t f keys (configs w)).
Proof.
  intros Hnd Hok Ht. rewrite announce_concat. apply keys_served; [done|done|].
  intros k w0 _ Hok0. destruct (change_and_publish_served w0 f change t k Hok0 Ht) as (w' & Hw' & Hsv).
  exists w'. split; [done|]. rewrite announce_concat in Hsv. simpl in Hsv. by rewrite app_nil_r in Hsv.
Qed.

Lemma dataset_flow_keys_nodup d ty : NoDup (get_dataset_flow_keys d ty).
Proof.
  destruct ty; simpl; [apply NoDup_singleton|]. unfold DatasetFlowType_all. simpl.
  repeat constructor; set_solver.
Qed.

Lemma system_flow_keys_nodup ty : NoDup (get_system_flow_keys ty).
Proof. destruct ty; simpl; apply NoDup_singleton. Qed.

Lemma nil_concat {A B} (l : list A) : concat (map (fun _ => @nil B) l) = [].
Proof. by induction l. Qed.

(** Every request is served as promised. *)
Lemma serve_served r w :
  config_store_ok (cw_store w) ->
  exists w', serve r w = (Ok tt, w') /\ served w w' (after_request r (configs w)) (announced r (configs w)).
Proof.
  intros Hok. destruct r as [t k paused rule|t k|t k|t d ty|t ty|t d ty|t ty|m]; simpl.
  - destruct (set_configuration_served w t k paused rule Hok) as (w' & Hw' & Hsv).
    exists w'. by erewrite bind_ok by exact Hw'.
  - apply change_and_publish_served; [done|]. apply pause_turns.
  - apply change_and_publish_served; [done|]. apply resume_turns.
  - apply publish_keys_served; [apply dataset_flow_keys_nodup|done|apply pause_turns].
  - apply publish_keys_served; [apply system_flow_keys_nodup|done|apply pause_turns].
  - apply publish_keys_served; [apply dataset_flow_keys_nodup|done|apply resume_turns].
  - apply publish_keys_served; [apply system_flow_keys_nodup|done|apply resume_turns].
  - assert (Hnil : forall w, config_store_ok (cw_store w) -> served w w (configs w) []).
    { intros w0 H0. split; [done|]. split; [done|]. by rewrite app_nil_r. }
    destruct m as [m|m|m]; simpl; [exists w; auto..|].
    destruct (keys_served (stop_configuration clock) stopping (fun _ => [])
                (get_dataset_flow_keys (dld_dataset_id m) None) w) as (w' & Hw' & Hok' & Hv & Hp).
    { apply dataset_flow_keys_nodup. }
    { done. }
    { intros k w0 Hk Hok0. apply list_elem_of_fmap in Hk as (ty & -> & _).
      destruct (stop_served w0 (mkFlowKeyDataset (dld_dataset_id m) ty) Hok0) as (w' & Hw' & Hsv).
      exists w'. split; [done|]. by destruct (configs w0 _). }
    exists w'. split; [exact Hw'|]. split; [done|]. split; [done|].
    rewrite Hp. f_equal. erewrite map_ext; [apply nil_concat|]. intros k. by destruct (configs w k).
Qed.

(** ** Sequences of requests *)

Fixpoint after_requests (rs : list ConfigRequest) (A : Configs) : Configs :=
  match rs with
  | [] => A
  | r :: rs => after_requests rs (after_request r A)
  end.

Fixpoint announced_all (rs : list ConfigRequest) (A : Configs) : list FlowConfigurationUpdatedMessage :=
  match rs with
  | [] => []
  | r :: rs => announced r A ++ announced_all rs (after_request r A)
  end.

#[local] Instance change_keys_proper f keys :
  Proper (pointwise_relation _ (=) ==> pointwise_relation _ (=)) (change_keys f keys).
Proof. intros A B Heq k. unfold change_keys. by rewrite (Heq k). Qed.

#[local] Instance update_proper k o :
  Proper (pointwise_relation _ (=) ==> pointwise_relation _ (=)) (update k o).
Proof. intros A B Heq k'. unfold update. by rewrite (Heq k'). Qed.

#[local] Instance after_request_proper r :
  Proper (pointwise_relation _ (=) ==> pointwise_relation _ (=)) (after_request r).
Proof. intros A B Heq. destruct r as [| | | | | | |[]]; cbn [after_request]; done || by rewrite Heq. Qed.

#[local] Instance announce_keys_proper t f keys :
  Proper (pointwise_relation _ (=) ==> (=)) (announce_keys t f keys).
Proof.
  intros A B Heq. unfold announce_keys. induction keys as [|k keys IH]; simpl; [done|].
  rewrite (Heq k). destruct (B k); simpl; [f_equal|]; exact IH.
Qed.

#[local] Instance announced_proper r : Proper (pointwise_relation _ (=) ==> (=)) (announced r).
Proof. intros A B Heq. destruct r; cbn [announced]; done || by apply announce_keys_proper. Qed.

#[local] Instance after_requests_proper rs :
  Proper (pointwise_relation _ (=) ==> pointwise_relation _ (=)) (after_requests rs).
Proof.
  induction rs as [|r rs IH]; intros A B Heq; simpl; [done|]. by apply IH, after_request_proper.
Qed.

#[local] Instance announced_all_proper rs :
  Proper (pointwise_relation _ (=) ==> (=)) (announced_all rs).
Proof.
  induction rs as [|r rs IH]; intros A B Heq; simpl; [done|].
  f_equal; [by apply announced_proper|]. by apply IH, after_request_proper.
Qed.

Lemma serve_all_served rs w :
  config_store_ok (cw_store w) ->
  exists w', for_each serve rs w = (Ok tt, w') /\
    served w w' (after_requests rs (configs w)) (announced_all rs (configs w)).
Proof.
  revert w; induction rs as [|r rs IH]; intros w Hok; simpl.
  { exists w. split; [done|]. split; [done|]. split; [done|]. by rewrite app_nil_r. }
  destruct (serve_served r w Hok) as (w1 & Hw1 & Hok1 & Hv1 & Hp1).
  destruct (IH w1 Hok1) as (w2 & Hw2 & Hok2 & Hv2 & Hp2).
  exists w2. erewrite bind_ok by exact Hw1. split; [done|]. split; [done|]. split.
  - intros k. rewrite Hv2. by apply after_requests_proper.
  - rewrite Hp2, Hp1, <- app_assoc. do 2 f_equal. by apply announced_all_proper.
Qed.

End Requests.

(** ** Finding configurations *)

Lemma find_configuration_ok w k :
  config_store_ok (cw_store w) -> find_configuration k w = (Ok (configs w k), w).
Proof.
  intros Hok. unfold find_configuration. destruct (configs w k) as [s|] eqn:Hs.
  - destruct (try_load_some _ _ _ Hok Hs) as (c & Hl & Hsy & Hcs & Hq & Hp).
    erewrite bind_ok by (unfold try_load_config; rewrite Hl; reflexivity). cbv beta iota.
    unfold mbind, action_bind, config_state, lift. by rewrite Hcs.
  - by erewrite bind_ok by (unfold try_load_config; rewrite (try_load_none _ _ Hok Hs); reflexivity).
Qed.

Definition kept (keep : FlowConfigurationState -> bool) (A : Configs) (k : FlowKey)
    : option FlowConfigurationState :=
  match A k with Some s => if keep s then Some s else None | None => None end.

Lemma load_configurations_ok w keep keys :
  config_store_ok (cw_store w) ->
  load_configurations keep keys w = (Ok (omap (kept keep (configs w)) keys), w).
Proof.
  intros Hok. induction keys as [|k keys IH]; [done|]. cbn [load_configurations].
  erewrite bind_ok by (by apply find_configuration_ok). erewrite bind_ok by exact IH.
  change (omap ?f (k :: keys)) with (match f k with Some y => y :: omap f keys | None => omap f keys end).
  assert (Hk : kept keep (configs w) k = match configs w k with
    Some s => if keep s then Some s else None | None => None end) by done.
  rewrite Hk. destruct (configs w k) as [s|]; [|done]. by destruct (keep s).
Qed.

Lemma list_enabled_ok w :
  config_store_ok (cw_store w) ->
  list_enabled_configurations w =
  (Ok (omap (kept FlowConfigurationState_is_active (configs w))
         (get_system_flow_keys None ++
          List.flat_map (fun d => get_dataset_flow_keys d None) (list_all_dataset_ids (cw_store w)))), w).
Proof.
  intros Hok. unfold list_enabled_configurations.
  erewrite bind_ok by (by apply load_configurations_ok). erewrite bind_ok by reflexivity.
  erewrite bind_ok by (by apply load_configurations_ok). by rewrite omap_app.
Qed.

(** The enabled configurations listed are those that are active. *)
Lemma list_enabled_exact w :
  config_store_ok (cw_store w) ->
  exists l, list_enabled_configurations w = (Ok l, w) /\
    forall s, s ∈ l <-> configs w (fcs_flow_key s) = Some s /\ FlowConfigurationState_is_active s = true.
Proof.
  intros Hok. eexists. split; [by apply list_enabled_ok|]. intros s.
  rewrite list_elem_of_omap. unfold kept. split.
  - intros (k & _ & Hk). destruct (configs w k) as [s'|] eqn:Hs; [|done].
    destruct (FlowConfigurationState_is_active s') eqn:Ha; simplify_eq.
    by rewrite (cso_key _ Hok k s).
  - intros [Hs Ha]. exists (fcs_flow_key s). rewrite Hs, Ha. split; [|done].
    apply elem_of_app. destruct (fcs_flow_key s) as [[d ty]|[[]]] eqn:Hk; [right|left; by left].
    apply list_elem_of_In, in_flat_map. exists d. split; apply list_elem_of_In.
    + apply (cso_listed _ Hok d ty). unfold configs in Hs. by rewrite Hs.
    + simpl. destruct ty; set_solver.
Qed.
