(* ===== verification/FlowService.v ===== *)
(** The flow service: triggering, batching, throttling, scheduling, aborting and
    finishing flows.

    Sources: src/domain/flow-system/services/src/flow/flow_service_impl.rs and
    src/domain/flow-system/domain/src/services/flow/flow_service.rs.

    Methods are actions on a [World]: the state behind the service's mutex, the
    flow event store (any one, through its class), the task scheduler, the
    posted messages, and the number of times the clock was read.  The time
    source, [chrono]'s rounding, [cron]'s schedules and the other services the
    code consults are the class [FlowEnvironment].  Database transactions and
    logging are left out; [join_all] runs its futures one after the other, which
    is what it does when none of them has to wait. *)

From S2P Require Import Prelude Multiformats Identity Dtos EventSourcing TaskSystem FlowSystem FlowTimeWheel FlowStore Messages.

Record FlowServiceRunConfig := mkFlowServiceRunConfig {
  frc_awaiting_step : Duration;
  frc_mandatory_throttling_period : Duration
}.

Record DatasetIntervalIncrement := mkDatasetIntervalIncrement {
  dii_num_blocks : u64;
  dii_num_records : u64;
  dii_updated_watermark : option DateTime
}.

(** The services and libraries the flow service consults. *)
Class FlowEnvironment := {
  fe_now : nat -> DateTime;
  fe_duration_round : DateTime -> Duration -> res InternalError DateTime;
  fe_cron_after : string -> DateTime -> option DateTime;
  fe_run_config : FlowServiceRunConfig;
  fe_get_increment_since : DatasetID -> option Multihash -> res InternalError DatasetIntervalIncrement;
  fe_get_downstream_dependencies : DatasetID -> res InternalError (list DatasetID);
  fe_get_dataset_owners : DatasetID -> res InternalError (list AccountID);
  fe_get_owned_datasets : AccountID -> res InternalError (list DatasetID);
  fe_is_dataset_owned_by : DatasetID -> AccountID -> res InternalError bool;
  fe_list_enabled_configurations : res InternalError (list FlowConfigurationState);
  fe_post_message : FlowServiceUpdatedMessage -> res InternalError unit
}.

(** [State] *)
Record FlowServiceState := mkFlowServiceState {
  fsv_active_configs : ActiveConfigsState;
  fsv_pending_flows : PendingFlowsState;
  fsv_time_wheel : FlowTimeWheel;
  fsv_running : bool
}.

Definition PendingFlowsState_default : PendingFlowsState := mkPendingFlowsState ∅ ∅ ∅.

Definition FlowServiceState_default : FlowServiceState :=
  mkFlowServiceState ActiveConfigsState_default PendingFlowsState_default FlowTimeWheel_default false.

Inductive FlowTriggerContext :=
| FlowTriggerContext_Unconditional
| FlowTriggerContext_Scheduled (s : Schedule)
| FlowTriggerContext_Batching (r : TransformRule).

Record DownstreamDependencyFlowPlan := mkDownstreamDependencyFlowPlan {
  ddp_flow_key : FlowKey;
  ddp_flow_trigger_context : FlowTriggerContext;
  ddp_maybe_config_snapshot : option FlowConfigurationSnapshot
}.

Inductive DownstreamDependencyTriggerType :=
| DownstreamDependencyTriggerType_TriggerAllEnabledExecuteTransform
| DownstreamDependencyTriggerType_TriggerOwnHardCompaction
| DownstreamDependencyTriggerType_Empty.

Inductive GetFlowError :=
| GetFlowError_NotFound (flow_id : FlowID)
| GetFlowError_Internal (e : InternalError).

(** [From<LoadError<FlowState>>] of [GetFlowError] and of
    [CancelScheduledTasksError], which has the same cases. *)
Definition GetFlowError_from (e : LoadError FlowID FlowEvent FlowState) : GetFlowError :=
  match e with
  | LoadError_NotFound q => GetFlowError_NotFound q
  | LoadError_ProjectionError _ => GetFlowError_Internal mkInternalError
  | LoadError_Internal => GetFlowError_Internal mkInternalError
  end.

Record World (S : Type) := mkWorld {
  w_state : FlowServiceState;
  w_store : S;
  w_tasks : TaskSchedulerImpl;
  w_posted : list FlowServiceUpdatedMessage;
  w_ticks : nat
}.
Arguments mkWorld {S}.
Arguments w_state {S}.
Arguments w_store {S}.
Arguments w_tasks {S}.
Arguments w_posted {S}.
Arguments w_ticks {S}.

(** * Parts of the world *)

Section Worlds.
Context {S : Type}.

Definition with_state (f : FlowServiceState -> FlowServiceState) (w : World S) : World S :=
  mkWorld (f (w_state w)) (w_store w) (w_tasks w) (w_posted w) (w_ticks w).

Definition with_wheel (f : FlowTimeWheel -> FlowTimeWheel) : World S -> World S :=
  with_state (fun s => mkFlowServiceState (fsv_active_configs s) (fsv_pending_flows s)
                         (f (fsv_time_wheel s)) (fsv_running s)).

Definition with_pending (f : PendingFlowsState -> PendingFlowsState) : World S -> World S :=
  with_state (fun s => mkFlowServiceState (fsv_active_configs s) (f (fsv_pending_flows s))
                         (fsv_time_wheel s) (fsv_running s)).

Definition with_configs (f : ActiveConfigsState -> ActiveConfigsState) : World S -> World S :=
  with_state (fun s => mkFlowServiceState (f (fsv_active_configs s)) (fsv_pending_flows s)
                         (fsv_time_wheel s) (fsv_running s)).

Definition with_running (b : bool) : World S -> World S :=
  with_state (fun s => mkFlowServiceState (fsv_active_configs s) (fsv_pending_flows s)
                         (fsv_time_wheel s) b).

Definition with_store (st : S) (w : World S) : World S :=
  mkWorld (w_state w) st (w_tasks w) (w_posted w) (w_ticks w).

Definition with_tasks (t : TaskSchedulerImpl) (w : World S) : World S :=
  mkWorld (w_state w) (w_store w) t (w_posted w) (w_ticks w).

Definition w_wheel (w : World S) : FlowTimeWheel := fsv_time_wheel (w_state w).
Definition w_pending (w : World S) : PendingFlowsState := fsv_pending_flows (w_state w).
Definition w_configs (w : World S) : ActiveConfigsState := fsv_active_configs (w_state w).
End Worlds.

Section FlowService.
Context {S : Type} `{FlowEventStore S} {Env : FlowEnvironment}.

Abbreviation M := (action (World S) InternalError).

(** [self.time_source.now()] *)
Definition now : M DateTime := fun w =>
  (Ok (fe_now (w_ticks w)),
   mkWorld (w_state w) (w_store w) (w_tasks w) (w_posted w) (Datatypes.S (w_ticks w))).

(** [outbox.post_message(MESSAGE_PRODUCER_KAMU_FLOW_SERVICE, message)] *)
Definition post_message (m : FlowServiceUpdatedMessage) : M unit := fun w =>
  match fe_post_message m with
  | Ok _ => (Ok tt, mkWorld (w_state w) (w_store w) (w_tasks w) (w_posted w ++ [m]) (w_ticks w))
  | r => (r, w)
  end.

(** [Flow::load(flow_id, store).await.int_err()] *)
Definition load_flow (flow_id : FlowID) : M Flow := fun w =>
  (int_err (Aggregate_load flow_id (w_store w)), w).

(** [flow.save(store).await.int_err()] *)
Definition save_flow (flow : Flow) : M Flow := fun w =>
  let '(r, flow', store') := Aggregate_save flow (w_store w) in
  (int_err (map_ok (fun _ => flow') r), with_store store' w).

(** [flow.command(..).int_err()], for a command that changes [flow]. *)
Definition command {A} (r : res FlowProjectionError A * Flow) : M (A * Flow) :=
  let '(r, flow') := r in lift (int_err (map_ok (fun a => (a, flow')) r)).

(** Reading a field of [flow] through [Deref]. *)
Definition flow_state (flow : Flow) : M FlowState := lift (unwrap (agg_state flow)).

Definition round_time (time : DateTime) : M DateTime :=
  lift (int_err (fe_duration_round time (frc_awaiting_step fe_run_config))).

Definition find_pending_flow (flow_key : FlowKey) : M (option FlowID) :=
  gets (fun w => try_get_pending_flow (w_pending w) flow_key).

Definition find_planned_flow_activation_time (flow_id : FlowID) : M (option DateTime) :=
  gets (fun w => get_planned_flow_activation_time (w_wheel w) flow_id).

Definition enqueue_flow (flow_id : FlowID) (activation_time : DateTime) : M unit :=
  modify (with_wheel (fun wheel => activate_at wheel activation_time flow_id)).

Definition make_new_flow (flow_key : FlowKey) (trigger : FlowTrigger)
    (config_snapshot : option FlowConfigurationSnapshot) : M Flow :=
  t ← now;
  flow_id ← (fun w => let '(id, store') := fes_new_flow_id (w_store w) in (Ok id, with_store store' w));
  flow ← lift (int_err (Flow_new t flow_id flow_key trigger config_snapshot));
  st ← flow_state flow;
  _ ← modify (with_pending (fun p => add_pending_flow p (fs_flow_key st) (fs_flow_id st)));
  mret flow.

Definition flow_run_stats (flow_key : FlowKey) : M FlowRunStats :=
  gets (fun w =>
    match flow_key with
    | FlowKey_Dataset fk_dataset =>
        fes_get_dataset_flow_run_stats (w_store w) (fkd_dataset_id fk_dataset)
          (fkd_flow_type fk_dataset)
    | FlowKey_System fk_system => fes_get_system_flow_run_stats (w_store w) (fks_flow_type fk_system)
    end).

Definition indicate_throttling_activity (flow : Flow) (wake_up_at shifted_from : DateTime) : M Flow :=
  t ← now;
  x ← command (Flow_set_relevant_start_condition flow t
         (FlowStartCondition_Throttling
            (mkFlowStartConditionThrottling (frc_mandatory_throttling_period fe_run_config)
               wake_up_at shifted_from)));
  mret x.2.

(** What the scan of the accumulated triggers has found so far. *)
Record Accumulated := mkAccumulated {
  acc_records_count : u64;
  acc_watermark_modified : bool;
  acc_is_compacted : bool
}.

(** [for trigger in &flow.triggers { .. }] *)
Fixpoint scan_triggers (acc : Accumulated) (triggers : list FlowTrigger)
    : res InternalError Accumulated :=
  match triggers with
  | [] => Ok acc
  | FlowTrigger_InputDatasetFlow trigger :: rest =>
      match fti_flow_result trigger with
      | FlowResult_Empty | FlowResult_DatasetReset _ => scan_triggers acc rest
      | FlowResult_DatasetCompact _ =>
          scan_triggers (mkAccumulated (acc_records_count acc) (acc_watermark_modified acc) true) rest
      | FlowResult_DatasetUpdate (FlowResultDatasetUpdate_Changed update_result) =>
          let! increment :=
            fe_get_increment_since (fti_dataset_id trigger) (fruc_old_head update_result) in
          scan_triggers
            (mkAccumulated (u64_add (acc_records_count acc) (dii_num_records increment))
               (acc_watermark_modified acc ||
                match dii_updated_watermark increment with Some _ => true | None => false end)
               (acc_is_compacted acc)) rest
      | FlowResult_DatasetUpdate (FlowResultDatasetUpdate_UpToDate _) => scan_triggers acc rest
      end
  | _ :: rest => scan_triggers acc rest
  end.

Definition is_batching (c : option FlowStartCondition) : bool :=
  match c with Some (FlowStartCondition_Batching _) => true | _ => false end.

(** The [assert!] on the type of the flow. *)
Definition may_batch (flow_key : FlowKey) : bool :=
  match FlowKey_get_type flow_key with
  | AnyFlowType_Dataset (DatasetFlowType_ExecuteTransform | DatasetFlowType_HardCompaction) => true
  | _ => false
  end.

Definition evaluate_flow_transform_rule (evaluation_time : DateTime) (flow : Flow)
    (transform_rule : TransformRule) (throttling_boundary_time : DateTime) : M Flow :=
  st ← flow_state flow;
  if may_batch (fs_flow_key st) then
    acc ← lift (scan_triggers (mkAccumulated 0 false false) (fs_triggers st));
    primary ← lift (int_err (FlowState_primary_trigger st));
    let batching_deadline :=
      (FlowTrigger_trigger_time primary + tr_max_batching_interval transform_rule)%Z in
    let accumulated_something :=
      bool_decide (0 < acc_records_count acc)%Z || acc_watermark_modified acc in
    let satisfied :=
      accumulated_something &&
      (bool_decide (tr_min_records_to_await transform_rule <= acc_records_count acc)%Z ||
       bool_decide (batching_deadline <= evaluation_time)%Z) in
    flow1 ←
      (if is_batching (fs_start_condition st) then mret flow
       else
         t ← now;
         x ← command (Flow_set_relevant_start_condition flow t
                (FlowStartCondition_Batching
                   (mkFlowStartConditionBatching transform_rule batching_deadline)));
         mret x.2);
    if accumulated_something || acc_is_compacted acc then
      let batching_finish_time :=
        if satisfied || acc_is_compacted acc then evaluation_time else batching_deadline in
      let corrected_finish_time := Z.max batching_finish_time throttling_boundary_time in
      planned ← find_planned_flow_activation_time (fs_flow_id st);
      _ ← (if match planned with
              | Some activation_time => bool_decide (corrected_finish_time < activation_time)%Z
              | None => true
              end
           then enqueue_flow (fs_flow_id st) corrected_finish_time
           else mret tt);
      if (satisfied || acc_is_compacted acc) &&
         bool_decide (batching_finish_time < throttling_boundary_time)%Z
      then indicate_throttling_activity flow1 throttling_boundary_time batching_finish_time
      else mret flow1
    else mret flow1
  else panic.

(** [flow.save(..).await.int_err()?; Ok(flow.into())] *)
Definition save_and_return (flow : Flow) : M FlowState :=
  flow' ← save_flow flow;
  flow_state flow'.

(** The branch of [trigger_flow_common] for a flow that is already pending. *)
Definition trigger_pending_flow (flow_id : FlowID) (trigger : FlowTrigger)
    (context : FlowTriggerContext) (throttling_boundary_time : DateTime) : M FlowState :=
  let trigger_time := FlowTrigger_trigger_time trigger in
  flow ← load_flow flow_id;
  t ← now;
  x ← command (Flow_add_trigger_if_unique flow t trigger);
  let flow := x.2 in
  st ← flow_state flow;
  flow ←
    match context with
    | FlowTriggerContext_Batching transform_rule =>
        if is_batching (fs_start_condition st)
        then evaluate_flow_transform_rule trigger_time flow transform_rule throttling_boundary_time
        else mret flow
    | FlowTriggerContext_Scheduled _ | FlowTriggerContext_Unconditional =>
        planned ← find_planned_flow_activation_time (fs_flow_id st);
        planned_time ← lift (unwrap planned);
        if bool_decide (throttling_boundary_time < planned_time)%Z then
          _ ← enqueue_flow (fs_flow_id st) throttling_boundary_time;
          if bool_decide (trigger_time < throttling_boundary_time)%Z
          then indicate_throttling_activity flow throttling_boundary_time trigger_time
          else mret flow
        else mret flow
    end;
  save_and_return flow.

(** The activation of a flow that has just been made. *)
Definition activate_new_flow (flow : Flow) (trigger_time : DateTime) (context : FlowTriggerContext)
    (stats : FlowRunStats) (throttling_boundary_time : DateTime) : M Flow :=
  st ← flow_state flow;
  match context with
  | FlowTriggerContext_Batching transform_rule =>
      evaluate_flow_transform_rule trigger_time flow transform_rule throttling_boundary_time
  | FlowTriggerContext_Scheduled schedule =>
      naive_next_activation_time ←
        lift (int_err (Schedule_next_activation_time fe_cron_after schedule trigger_time
                         (frs_last_success_time stats)));
      let next_activation_time := Z.max throttling_boundary_time naive_next_activation_time in
      _ ← enqueue_flow (fs_flow_id st) next_activation_time;
      if bool_decide (naive_next_activation_time < throttling_boundary_time)%Z
      then indicate_throttling_activity flow throttling_boundary_time naive_next_activation_time
      else if bool_decide (trigger_time < naive_next_activation_time)%Z
      then
        t ← now;
        x ← command (Flow_set_relevant_start_condition flow t
               (FlowStartCondition_Schedule
                  (mkFlowStartConditionSchedule naive_next_activation_time)));
        mret x.2
      else mret flow
  | FlowTriggerContext_Unconditional =>
      let next_activation_time := Z.max throttling_boundary_time trigger_time in
      _ ← enqueue_flow (fs_flow_id st) next_activation_time;
      if bool_decide (trigger_time < throttling_boundary_time)%Z
      then indicate_throttling_activity flow throttling_boundary_time trigger_time
      else mret flow
  end.

Definition throttling_boundary (stats : FlowRunStats) (trigger_time : DateTime) : DateTime :=
  let throttling_boundary_time :=
    match frs_last_attempt_time stats with
    | Some t => (t + frc_mandatory_throttling_period fe_run_config)%Z
    | None => trigger_time
    end in
  if bool_decide (throttling_boundary_time < trigger_time)%Z then trigger_time
  else throttling_boundary_time.

Definition trigger_flow_common (flow_key : FlowKey) (trigger : FlowTrigger)
    (context : FlowTriggerContext) (config_snapshot_maybe : option FlowConfigurationSnapshot)
    : M FlowState :=
  stats ← flow_run_stats flow_key;
  let trigger_time := FlowTrigger_trigger_time trigger in
  let throttling_boundary_time := throttling_boundary stats trigger_time in
  pending ← find_pending_flow flow_key;
  match pending with
  | Some flow_id => trigger_pending_flow flow_id trigger context throttling_boundary_time
  | None =>
      config_snapshot ←
        match config_snapshot_maybe with
        | Some c => mret (Some c)
        | None => gets (fun w => try_get_config_snapshot_by_key (w_configs w) flow_key)
        end;
      flow ← make_new_flow flow_key trigger config_snapshot;
      flow ← activate_new_flow flow trigger_time context stats throttling_boundary_time;
      save_and_return flow
  end.

Definition enqueue_scheduled_auto_polling_flow (start_time : DateTime) (flow_key : FlowKey)
    (schedule : Schedule) : M FlowState :=
  trigger_flow_common flow_key (FlowTrigger_AutoPolling (mkFlowTriggerAutoPolling start_time))
    (FlowTriggerContext_Scheduled schedule) None.

Definition enqueue_auto_polling_flow_unconditionally (start_time : DateTime) (flow_key : FlowKey)
    : M FlowState :=
  trigger_flow_common flow_key (FlowTrigger_AutoPolling (mkFlowTriggerAutoPolling start_time))
    FlowTriggerContext_Unconditional None.

Definition try_enqueue_scheduled_auto_polling_flow_if_enabled (start_time : DateTime)
    (flow_key : FlowKey) : M unit :=
  maybe_active_schedule ← gets (fun w => try_get_flow_schedule (w_configs w) flow_key);
  match maybe_active_schedule with
  | Some active_schedule =>
      _ ← enqueue_scheduled_auto_polling_flow start_time flow_key active_schedule;
      mret tt
  | None => mret tt
  end.

Definition activate_flow_configuration (start_time : DateTime) (flow_key : FlowKey)
    (rule : FlowConfigurationRule) : M unit :=
  match flow_key with
  | FlowKey_Dataset dataset_flow_key =>
      _ ← (fun w =>
             match add_dataset_flow_config (w_configs w) dataset_flow_key rule with
             | Ok c => (Ok tt, with_configs (fun _ => c) w)
             | _ => (Panic, w)
             end);
      match rule with
      | FlowConfigurationRule_TransformRule _ =>
          _ ← enqueue_auto_polling_flow_unconditionally start_time flow_key;
          mret tt
      | FlowConfigurationRule_CompactionRule _ | FlowConfigurationRule_Schedule _
      | FlowConfigurationRule_ResetRule _ => mret tt
      | FlowConfigurationRule_IngestRule ingest_rule =>
          _ ← enqueue_scheduled_auto_polling_flow start_time flow_key
                (ir_schedule_condition ingest_rule);
          mret tt
      end
  | FlowKey_System system_flow_key =>
      match rule with
      | FlowConfigurationRule_Schedule schedule =>
          _ ← modify (with_configs (fun c =>
                 add_system_flow_config c (fks_flow_type system_flow_key) schedule));
          _ ← enqueue_scheduled_auto_polling_flow start_time flow_key schedule;
          mret tt
      | _ => panic
      end
  end.

Definition is_schedule (c : FlowConfigurationState) : bool :=
  match fcs_rule c with FlowConfigurationRule_Schedule _ => true | _ => false end.

Definition initialize_auto_polling_flows_from_configurations (start_time : DateTime) : M unit :=
  enabled_configurations ← lift fe_list_enabled_configurations;
  let schedule_configs := List.filter is_schedule enabled_configurations in
  let non_schedule_configs := List.filter (fun c => negb (is_schedule c)) enabled_configurations in
  for_each (fun enabled_config =>
      activate_flow_configuration start_time (fcs_flow_key enabled_config) (fcs_rule enabled_config))
    (schedule_configs ++ non_schedule_configs).
(** * Dependent flows *)

Definition classify_dependent_trigger_type (dataset_flow_type : DatasetFlowType)
    (maybe_config_snapshot : option FlowConfigurationSnapshot) : DownstreamDependencyTriggerType :=
  match dataset_flow_type with
  | DatasetFlowType_Ingest | DatasetFlowType_ExecuteTransform =>
      DownstreamDependencyTriggerType_TriggerAllEnabledExecuteTransform
  | DatasetFlowType_HardCompaction =>
      match maybe_config_snapshot with
      | Some (FlowConfigurationSnapshot_Compaction compaction_rule) =>
          if CompactionRule_recursive compaction_rule
          then DownstreamDependencyTriggerType_TriggerOwnHardCompaction
          else DownstreamDependencyTriggerType_Empty
      | _ => DownstreamDependencyTriggerType_TriggerAllEnabledExecuteTransform
      end
  | DatasetFlowType_Reset =>
      match maybe_config_snapshot with
      | Some (FlowConfigurationSnapshot_Reset reset_rule) =>
          if rr_recursive reset_rule
          then DownstreamDependencyTriggerType_TriggerOwnHardCompaction
          else DownstreamDependencyTriggerType_Empty
      | _ => DownstreamDependencyTriggerType_Empty
      end
  end.

(** The plan of one enabled derivation. *)
Definition transform_plan (configs : ActiveConfigsState) (dataset_id : DatasetID)
    : option DownstreamDependencyFlowPlan :=
  match try_get_dataset_transform_rule configs dataset_id DatasetFlowType_ExecuteTransform with
  | Some transform_rule =>
      Some (mkDownstreamDependencyFlowPlan
              (FlowKey_Dataset (mkFlowKeyDataset dataset_id DatasetFlowType_ExecuteTransform))
              (FlowTriggerContext_Batching transform_rule) None)
  | None => None
  end.

(** [for owner_account_id in &owners { if owned { plans.push(..); break; } }] *)
Fixpoint owned_by_any (dataset_id : DatasetID) (owners : list AccountID) : res InternalError bool :=
  match owners with
  | [] => Ok false
  | owner_account_id :: rest =>
      let! owned := fe_is_dataset_owned_by dataset_id owner_account_id in
      if owned then Ok true else owned_by_any dataset_id rest
  end.

Definition compaction_plan (dataset_id : DatasetID) : DownstreamDependencyFlowPlan :=
  mkDownstreamDependencyFlowPlan
    (FlowKey_Dataset (mkFlowKeyDataset dataset_id DatasetFlowType_HardCompaction))
    FlowTriggerContext_Unconditional
    (Some (FlowConfigurationSnapshot_Compaction
             (CompactionRule_MetadataOnly (mkCompactionRuleMetadataOnly true)))).

Fixpoint compaction_plans (owners : list AccountID) (dataset_ids : list DatasetID)
    : res InternalError (list DownstreamDependencyFlowPlan) :=
  match dataset_ids with
  | [] => Ok []
  | dependent_dataset_id :: rest =>
      let! owned := owned_by_any dependent_dataset_id owners in
      let! plans := compaction_plans owners rest in
      Ok (if owned then compaction_plan dependent_dataset_id :: plans else plans)
  end.

Definition make_downstream_dependencies_flow_plans (fk_dataset : FlowKeyDataset)
    (maybe_config_snapshot : option FlowConfigurationSnapshot)
    : M (list DownstreamDependencyFlowPlan) :=
  dependent_dataset_ids ←
    lift (int_err (fe_get_downstream_dependencies (fkd_dataset_id fk_dataset)));
  match dependent_dataset_ids with
  | [] => mret []
  | _ =>
      match classify_dependent_trigger_type (fkd_flow_type fk_dataset) maybe_config_snapshot with
      | DownstreamDependencyTriggerType_TriggerAllEnabledExecuteTransform =>
          gets (fun w => omap (transform_plan (w_configs w)) dependent_dataset_ids)
      | DownstreamDependencyTriggerType_TriggerOwnHardCompaction =>
          dataset_owner_account_ids ← lift (fe_get_dataset_owners (fkd_dataset_id fk_dataset));
          lift (compaction_plans dataset_owner_account_ids dependent_dataset_ids)
      | DownstreamDependencyTriggerType_Empty => mret []
      end
  end.

Definition enqueue_dependent_flows (input_success_time : DateTime) (flow : FlowState)
    (flow_result : FlowResult) : M unit :=
  match fs_flow_key flow with
  | FlowKey_Dataset fk_dataset =>
      plans ← make_downstream_dependencies_flow_plans fk_dataset (fs_config_snapshot flow);
      let trigger :=
        FlowTrigger_InputDatasetFlow
          (mkFlowTriggerInputDatasetFlow input_success_time (fkd_dataset_id fk_dataset)
             (fkd_flow_type fk_dataset) (fs_flow_id flow) flow_result) in
      for_each (fun plan =>
          _ ← trigger_flow_common (ddp_flow_key plan) trigger (ddp_flow_trigger_context plan)
                (ddp_maybe_config_snapshot plan);
          mret tt) plans
  | FlowKey_System _ => panic
  end.

(** * Tasks of flows *)

Definition make_task_logical_plan (flow_key : FlowKey)
    (maybe_config_snapshot : option FlowConfigurationSnapshot) : res InternalError LogicalPlan :=
  match flow_key with
  | FlowKey_Dataset flow_key =>
      match fkd_flow_type flow_key with
      | DatasetFlowType_Ingest | DatasetFlowType_ExecuteTransform =>
          let fetch_uncacheable :=
            match maybe_config_snapshot with
            | Some (FlowConfigurationSnapshot_Ingest ingest_rule) => ir_fetch_uncacheable ingest_rule
            | _ => false
            end in
          Ok (LogicalPlan_UpdateDataset
                (mkUpdateDataset (fkd_dataset_id flow_key) fetch_uncacheable))
      | DatasetFlowType_HardCompaction =>
          match maybe_config_snapshot with
          | Some (FlowConfigurationSnapshot_Compaction compaction_rule) =>
              Ok (LogicalPlan_HardCompactionDataset
                    (mkHardCompactionDataset (fkd_dataset_id flow_key)
                       (CompactionRule_max_slice_size compaction_rule)
                       (CompactionRule_max_slice_records compaction_rule)
                       (match compaction_rule with
                        | CompactionRule_MetadataOnly _ => true
                        | _ => false
                        end)))
          | _ =>
              Ok (LogicalPlan_HardCompactionDataset
                    (mkHardCompactionDataset (fkd_dataset_id flow_key) None None false))
          end
      | DatasetFlowType_Reset =>
          match maybe_config_snapshot with
          | Some (FlowConfigurationSnapshot_Reset reset_rule) =>
              Ok (LogicalPlan_Reset
                    (mkResetDataset (fkd_dataset_id flow_key) (rr_new_head_hash reset_rule)
                       (rr_old_head_hash reset_rule) (rr_recursive reset_rule)))
          | _ => Err mkInternalError
          end
      end
  | FlowKey_System flow_key =>
      match fks_flow_type flow_key with
      | SystemFlowType_GC =>
          Ok (LogicalPlan_Probe
                (mkProbe None (Some (20 * 1000000000)%Z)
                   (Some (TaskOutcome_Success TaskResult_Empty))))
      end
  end.

(** [self.task_scheduler.create_task(plan)]; the scheduler reads the clock. *)
Definition create_flow_task (logical_plan : LogicalPlan) : M TaskState :=
  t ← now;
  ((fun w =>
      let '(r, tasks') := create_task (w_tasks w) t logical_plan in
      (int_err r, with_tasks tasks' w)) : M TaskState).

Definition schedule_flow_task (flow : Flow) (schedule_time : DateTime) : M TaskID :=
  st ← flow_state flow;
  logical_plan ← lift (make_task_logical_plan (fs_flow_key st) (fs_config_snapshot st));
  task ← create_flow_task logical_plan;
  x ← command (Flow_set_relevant_start_condition flow schedule_time
         (FlowStartCondition_Executor (mkFlowStartConditionExecutor (ts_task_id task))));
  y ← command (Flow_on_task_scheduled x.2 schedule_time (ts_task_id task));
  flow' ← save_flow y.2;
  st' ← flow_state flow';
  _ ← modify (with_pending (fun p => track_flow_task p (fs_flow_id st') (ts_task_id task)));
  mret (ts_task_id task).

(** The futures of [join_all]: an error is logged and the next one runs. *)
Fixpoint schedule_all (timeslot_time : DateTime) (flow_ids : list FlowID) : M unit :=
  match flow_ids with
  | [] => mret tt
  | flow_id :: rest => fun w =>
      match (flow ← load_flow flow_id; schedule_flow_task flow timeslot_time) w with
      | (Panic, w') => (Panic, w')
      | (_, w') => schedule_all timeslot_time rest w'
      end
  end.

Definition run_current_timeslot (timeslot_time : DateTime) : M unit :=
  planned_flow_ids ←
    (fun w =>
       let '(ids, wheel') := take_nearest_planned_flows (w_wheel w) in
       (Ok ids, with_wheel (fun _ => wheel') w));
  schedule_all timeslot_time planned_flow_ids.

Definition cancel_flow_task (task_id : TaskID) : M unit :=
  t ← now;
  ((fun w =>
      let '(r, tasks') := cancel_task (w_tasks w) t task_id in
      (int_err (map_ok (fun _ => tt) r), with_tasks tasks' w)) : M unit).

Definition abort_flow_impl (flow : Flow) : M Flow :=
  t ← now;
  x ← command (Flow_abort flow t);
  flow' ← save_flow x.2;
  st ← flow_state flow';
  _ ← modify (with_pending (fun p => foldl untrack_flow_by_task p (fs_task_ids st)));
  _ ← for_each cancel_flow_task (fs_task_ids st);
  mret flow'.

Definition abort_flow (flow_id : FlowID) : M unit :=
  flow ← load_flow flow_id;
  _ ← abort_flow_impl flow;
  mret tt.

(** * The service *)

(** [run] up to its loop. *)
Definition run_start (planned_start_time : DateTime) : M unit :=
  _ ← modify (with_running true);
  start_time ← round_time planned_start_time;
  _ ← initialize_auto_polling_flows_from_configurations start_time;
  post_message (mkFlowServiceUpdatedMessage start_time FlowServiceUpdateDetails_Loaded).

(** One turn of the loop of [run]. *)
Definition run_iteration : M unit :=
  current_time ← now;
  maybe_nearest_activation_time ← gets (fun w => nearest_activation_moment (w_wheel w));
  match maybe_nearest_activation_time with
  | Some nearest_activation_time =>
      if bool_decide (nearest_activation_time <= current_time)%Z then
        _ ← run_current_timeslot nearest_activation_time;
        post_message (mkFlowServiceUpdatedMessage nearest_activation_time
                        FlowServiceUpdateDetails_ExecutedTimeslot)
      else mret tt
  | None => mret tt
  end.

(** The first [n] turns; the loop ends only with an error. *)
Fixpoint run_loop (n : nat) : M unit :=
  match n with
  | 0 => mret tt
  | Datatypes.S n' => run_iteration ≫= fun _ => run_loop n'
  end.

Definition trigger_manual_flow (trigger_time : DateTime) (flow_key : FlowKey)
    (initiator_account_id : AccountID) (config_snapshot_maybe : option FlowConfigurationSnapshot)
    : M FlowState :=
  activation_time ← round_time trigger_time;
  trigger_flow_common flow_key
    (FlowTrigger_Manual (mkFlowTriggerManual activation_time initiator_account_id))
    FlowTriggerContext_Unconditional config_snapshot_maybe.

(** A [try_stream!] that loads the listed flows: what it yields and how it ends. *)
Fixpoint load_listed_flows (store : S) (ids : list FlowID)
    : list FlowState * res InternalError unit :=
  match ids with
  | [] => ([], Ok tt)
  | flow_id :: rest =>
      match int_err (Aggregate_load flow_id store) with
      | Ok flow =>
          match agg_state flow with
          | Some st => let '(l, e) := load_listed_flows store rest in (st :: l, e)
          | None => ([], Panic)
          end
      | Err e => ([], Err e)
      | Panic => ([], Panic)
      end
  end.

Record FlowStateListing := mkFlowStateListing {
  fsl_matched_stream : list FlowState * res InternalError unit;
  fsl_total_count : nat
}.

Definition list_all_flows_by_dataset (dataset_id : DatasetID) (filters : DatasetFlowFilters)
    (pagination : FlowPaginationOpts) (store : S) : FlowStateListing :=
  mkFlowStateListing
    (load_listed_flows store (fes_get_all_flow_ids_by_dataset store dataset_id filters pagination))
    (fes_get_count_flows_by_dataset store dataset_id filters).

Definition list_all_flow_initiators_by_dataset (dataset_id : DatasetID) (store : S)
    : list AccountID :=
  fes_get_unique_flow_initiator_ids_by_dataset store dataset_id.

Definition list_all_flows_by_account (account_id : AccountID) (filters : AccountFlowFilters)
    (pagination : FlowPaginationOpts) (store : S) : res InternalError FlowStateListing :=
  let! owned_dataset_ids := fe_get_owned_datasets account_id in
  let filtered_dataset_ids :=
    if decide (aff_by_dataset_ids filters = ∅) then owned_dataset_ids
    else List.filter (fun d => bool_decide (d ∈ aff_by_dataset_ids filters)) owned_dataset_ids in
  let dataset_flow_filters :=
    mkDatasetFlowFilters (aff_by_flow_type filters) (aff_by_flow_status filters)
      (aff_by_initiator filters) in
  let total_count :=
    foldl (fun n d => n + fes_get_count_flows_by_dataset store d dataset_flow_filters) 0
      filtered_dataset_ids in
  Ok (mkFlowStateListing
        (match fes_get_all_flow_ids_by_datasets store (list_to_set filtered_dataset_ids)
                 dataset_flow_filters pagination with
         | Ok relevant_flow_ids => load_listed_flows store relevant_flow_ids
         | Err _ => ([], Err mkInternalError)
         | Panic => ([], Panic)
         end)
        total_count).

Definition list_all_datasets_with_flow_by_account (account_id : AccountID) (store : S)
    : res InternalError (list DatasetID) :=
  let! owned_dataset_ids := fe_get_owned_datasets account_id in
  Ok (List.filter (fun d =>
        bool_decide (0 < fes_get_count_flows_by_dataset store d (mkDatasetFlowFilters None None None)))
        owned_dataset_ids).

Definition list_all_system_flows (filters : SystemFlowFilters) (pagination : FlowPaginationOpts)
    (store : S) : FlowStateListing :=
  mkFlowStateListing
    (load_listed_flows store (fes_get_all_system_flow_ids store filters pagination))
    (fes_get_count_system_flows store filters).

Definition list_all_flows (pagination : FlowPaginationOpts) (store : S) : FlowStateListing :=
  mkFlowStateListing (load_listed_flows store (fes_get_all_flow_ids store pagination))
    (fes_get_count_all_flows store).

Definition get_flow (flow_id : FlowID) (store : S) : res GetFlowError FlowState :=
  let! flow := map_err GetFlowError_from (Aggregate_load flow_id store) in
  unwrap (agg_state flow).

Definition cancel_scheduled_tasks (flow_id : FlowID) : action (World S) GetFlowError FlowState :=
  fun w =>
    match Aggregate_load flow_id (w_store w) with
    | Ok flow =>
        match agg_state flow with
        | Some st =>
            match FlowState_status st with
            | FlowStatus_Waiting | FlowStatus_Running =>
                let '(r, w') := abort_flow_impl flow w in
                (let! flow' := map_err GetFlowError_Internal r in unwrap (agg_state flow'), w')
            | FlowStatus_Finished => (Ok st, w)
            end
        | None => (Panic, w)
        end
    | Err e => (Err (GetFlowError_from e), w)
    | Panic => (Panic, w)
    end.

(** ** The test driver *)

Definition mimic_running_started : M unit := modify (with_running true).

(** [state.time_wheel.cancel_flow_activation(flow_id).int_err()?] *)
Definition cancel_activation (flow_id : FlowID) : M unit := fun w =>
  let '(r, wheel') := cancel_flow_activation (w_wheel w) flow_id in
  (int_err r, with_wheel (fun _ => wheel') w).

Definition mimic_flow_scheduled (flow_id : FlowID) (schedule_time : DateTime) : M TaskID :=
  _ ← cancel_activation flow_id;
  flow ← load_flow flow_id;
  schedule_flow_task flow schedule_time.

(** ** Messages *)

(** The body that only runs once the service has started. *)
Definition if_running (m : M unit) : M unit :=
  running ← gets (fun w => fsv_running (w_state w));
  if (running : bool) then m else mret tt.

Definition on_task_running (message : TaskProgressMessageRunning) : M unit :=
  if_running (
    maybe_flow_id ← gets (fun w => try_get_flow_id_by_task (w_pending w) (tpr_task_id message));
    match maybe_flow_id with
    | Some flow_id =>
        flow ← load_flow flow_id;
        x ← command (Flow_on_task_running flow (tpr_event_time message) (tpr_task_id message));
        _ ← save_flow x.2;
        post_message (mkFlowServiceUpdatedMessage (tpr_event_time message)
                        FlowServiceUpdateDetails_FlowRunning)
    | None => mret tt
    end).

(** Dropping the task and the flow from the registry. *)
Definition forget_flow (task_id : TaskID) (flow_key : FlowKey) (p : PendingFlowsState)
    : PendingFlowsState :=
  (drop_pending_flow (untrack_flow_by_task p task_id) flow_key).2.

(** The followup of a successful flow. *)
Definition followup (finish_time : DateTime) (st : FlowState) : M unit :=
  match FlowState_try_result st with
  | Some flow_result =>
      if FlowResult_is_empty flow_result then mret tt
      else
        match AnyFlowType_success_followup_method (FlowKey_get_type (fs_flow_key st)) with
        | FlowSuccessFollowupMethod_Ignore => mret tt
        | FlowSuccessFollowupMethod_TriggerDependent =>
            enqueue_dependent_flows finish_time st flow_result
        end
  | None => mret tt
  end.

Definition on_task_finished (message : TaskProgressMessageFinished) : M unit :=
  if_running (
    maybe_flow_id ← gets (fun w => try_get_flow_id_by_task (w_pending w) (tpf_task_id message));
    finish_time ← round_time (tpf_event_time message);
    match maybe_flow_id with
    | Some flow_id =>
        flow ← load_flow flow_id;
        x ← command (Flow_on_task_finished flow (tpf_event_time message) (tpf_task_id message)
               (tpf_outcome message));
        flow' ← save_flow x.2;
        st ← flow_state flow';
        _ ← modify (with_pending (forget_flow (tpf_task_id message) (fs_flow_key st)));
        _ ← followup finish_time st;
        _ ← (if TaskOutcome_is_success (tpf_outcome message)
             then try_enqueue_scheduled_auto_polling_flow_if_enabled finish_time (fs_flow_key st)
             else mret tt);
        post_message (mkFlowServiceUpdatedMessage (tpf_event_time message)
                        FlowServiceUpdateDetails_FlowFinished)
    | None => mret tt
    end).

Definition consume_task_progress (message : TaskProgressMessage) : M unit :=
  match message with
  | TaskProgressMessage_Running m => on_task_running m
  | TaskProgressMessage_Finished m => on_task_finished m
  end.

Definition consume_configuration_updated (message : FlowConfigurationUpdatedMessage) : M unit :=
  if fcu_paused message then
    if_running (
      _ ← modify (with_configs (fun c => drop_flow_config c (fcu_flow_key message)));
      maybe_pending_flow_id ←
        (fun w =>
           let '(id, p) := drop_pending_flow (w_pending w) (fcu_flow_key message) in
           (Ok id, with_pending (fun _ => p) w));
      match maybe_pending_flow_id with
      | Some flow_id =>
          _ ← cancel_activation flow_id;
          abort_flow flow_id
      | None => mret tt
      end)
  else
    if_running (
      activation_time ← round_time (fcu_event_time message);
      activate_flow_configuration activation_time (fcu_flow_key message) (fcu_rule message)).

(** Drops the pending flow of one type, and its activation. *)
Definition drop_dataset_flow (dataset_id : DatasetID) (flow_type : DatasetFlowType)
    : M (list FlowID) :=
  id ← (fun w =>
          let '(id, p) := drop_dataset_pending_flow (w_pending w) dataset_id flow_type in
          (Ok id, with_pending (fun _ => p) w));
  match id with
  | Some flow_id => _ ← cancel_activation flow_id; mret [flow_id]
  | None => mret []
  end.

Fixpoint drop_dataset_flows (dataset_id : DatasetID) (flow_types : list DatasetFlowType)
    : M (list FlowID) :=
  match flow_types with
  | [] => mret []
  | flow_type :: rest =>
      ids ← drop_dataset_flow dataset_id flow_type;
      more ← drop_dataset_flows dataset_id rest;
      mret (ids ++ more)
  end.

Definition consume_dataset_lifecycle (message : DatasetLifecycleMessage) : M unit :=
  match message with
  | DatasetLifecycleMessage_Deleted message =>
      if_running (
        _ ← modify (with_configs (fun c => drop_dataset_configs c (dld_dataset_id message)));
        flow_ids_2_abort ← drop_dataset_flows (dld_dataset_id message) DatasetFlowType_all;
        for_each (fun flow_id =>
            flow ← load_flow flow_id;
            t ← now;
            x ← command (Flow_abort flow t);
            _ ← save_flow x.2;
            mret tt) flow_ids_2_abort)
  | DatasetLifecycleMessage_Created _ | DatasetLifecycleMessage_DependenciesUpdated _ => mret tt
  end.
End FlowService.
