(* ===== verification/FlowServiceInv.v ===== *)
(** The invariant of the flow service, and that every operation keeps it.

    [inv] relates the registries of the service to the flow event store and to
    the task scheduler.  Ids are 64-bit counters; every id is handed out after a
    reading of the clock, so that none runs out before the clock was read 2^63
    times, and [service_inv] claims the invariant until then.

    [spec P m R] says of a method: from a state in [P], it ends in a state in
    [R] with its result, or fails in a state that satisfies the invariant. *)

From S2P Require Import Prelude Multiformats Identity Dtos EventSourcing TaskSystem FlowSystem FlowTimeWheel FlowStore Messages FlowService.

(** * Commands on a flow *)

(** What a successful command does: nothing, or one event of that flow. *)
Definition advances (flow flow' : Flow) : Prop :=
  flow' = flow \/
  exists e st, agg_state flow = Some st /\ FlowEvent_flow_id e = fs_flow_id st /\
    Aggregate_apply flow e = (Ok tt, flow').

Lemma apply_advances f e st f' :
  agg_state f = Some st -> Aggregate_apply f e = (Ok tt, f') -> FlowEvent_flow_id e = fs_flow_id st ->
  advances f f'.
Proof. intros. right. eauto. Qed.

Lemma set_start_condition_advances f t c a f' :
  Flow_set_relevant_start_condition f t c = (Ok a, f') -> advances f f'.
Proof.
  unfold Flow_set_relevant_start_condition, Flow_command. destruct (agg_state f) as [st|] eqn:Hs; [|done].
  case_decide as Hd; [|by intros [= _ <-]; left]. destruct a. intros Ha. by eapply apply_advances.
Qed.

Lemma add_trigger_advances f t tr a f' :
  Flow_add_trigger_if_unique f t tr = (Ok a, f') -> advances f f'.
Proof.
  unfold Flow_add_trigger_if_unique, Flow_command. destruct (agg_state f) as [st|] eqn:Hs; [|done].
  destruct (FlowTrigger_is_unique_vs tr (fs_triggers st)); [|by intros [= _ <-]; left].
  destruct (Aggregate_apply f _) as [[[]| |] f1] eqn:Ha; intros [= <- <-]. by eapply apply_advances.
Qed.

Lemma on_task_scheduled_advances f t id a f' :
  Flow_on_task_scheduled f t id = (Ok a, f') -> advances f f'.
Proof.
  unfold Flow_on_task_scheduled, Flow_command. destruct (agg_state f) as [st|] eqn:Hs; [|done].
  destruct a. intros Ha. by eapply apply_advances.
Qed.

Lemma on_task_running_advances f t id a f' :
  Flow_on_task_running f t id = (Ok a, f') -> advances f f'.
Proof.
  unfold Flow_on_task_running, Flow_command. destruct (agg_state f) as [st|] eqn:Hs; [|done].
  destruct a. intros Ha. by eapply apply_advances.
Qed.

Lemma on_task_finished_advances f t id o a f' :
  Flow_on_task_finished f t id o = (Ok a, f') -> advances f f'.
Proof.
  unfold Flow_on_task_finished, Flow_command. destruct (agg_state f) as [st|] eqn:Hs; [|done].
  destruct a. intros Ha. by eapply apply_advances.
Qed.

Lemma abort_advances f t a f' : Flow_abort f t = (Ok a, f') -> advances f f'.
Proof.
  unfold Flow_abort, Flow_command. destruct (agg_state f) as [st|] eqn:Hs; [|done].
  destruct a. destruct (fs_outcome st) as [[]|]; intros Ha; try (by eapply apply_advances).
  left. by simplify_eq.
Qed.

Lemma flow_apply_tasks s e s' t :
  FlowState_apply (Some s) e = Ok s' -> t ∈ fs_task_ids s -> t ∈ fs_task_ids s'.
Proof.
  unfold FlowState_apply. intros H Ht. case_decide; [done|].
  destruct e; repeat (case_match; simplify_eq/=); simplify_eq/=; set_solver.
Qed.

Lemma aggregate_apply_state (f f' : Flow) e :
  Aggregate_apply f e = (Ok tt, f') ->
  exists st', FlowState_apply (agg_state f) e = Ok st' /\ agg_state f' = Some st' /\
    agg_query f' = agg_query f.
Proof.
  unfold Aggregate_apply. cbn [proj_apply flow_projection].
  destruct (FlowState_apply (agg_state f) e) as [st'| |]; intros [= <-]. by exists st'.
Qed.

(** * The invariant *)

Section Invariant.
Context {S : Type} `{LawfulFlowEventStore S} {Env : FlowEnvironment}.

Abbreviation M := (action (World S) InternalError).
Implicit Types (w : World S) (flow : Flow) (st : FlowState) (k : FlowKey) (id : FlowID).

Record inv w : Prop := {
  sv_wheel : wheel_wf (w_wheel w);
  sv_store : fl_ok (w_store w);
  sv_tasks : sched_inv (w_tasks w);
  sv_flow_ids : fl_used (w_store w) <= w_ticks w;
  sv_task_ids : forall l, last_task_id (w_tasks w) = Some l -> (0 <= l < Z.of_nat (w_ticks w))%Z;
  sv_pending : forall k id, try_get_pending_flow (w_pending w) k = Some id ->
    fl_issued (w_store w) id /\ plannable (w_wheel w) id /\
    forall st, fl_at (w_store w) id (Some st) -> fs_flow_key st = k;
  sv_distinct : forall k k' id, try_get_pending_flow (w_pending w) k = Some id ->
    try_get_pending_flow (w_pending w) k' = Some id -> k = k';
  sv_planned : forall r, r ∈ flow_heap (w_wheel w) -> fl_issued (w_store w) (fr_flow_id r);
  sv_times : forall f t, flow_activation_times_by_id (w_wheel w) !! f = Some t ->
    fl_issued (w_store w) f;
  sv_tracked : forall t id, try_get_flow_id_by_task (w_pending w) t = Some id ->
    exists st, fl_at (w_store w) id (Some st) /\ t ∈ fs_task_ids st
}.

(** The clock was read less than 2^63 times. *)
Definition not_exhausted w : Prop := (Z.of_nat (w_ticks w) < 2 ^ 63)%Z.

Definition until_exhausted (P : World S -> Prop) w : Prop := not_exhausted w -> P w.

Definition service_inv : World S -> Prop := until_exhausted inv.

(** The clock does not go back; see the header for the rest. *)
Definition spec {A} (P : World S -> Prop) (m : M A) (R : A -> World S -> Prop) : Prop :=
  forall w, w_ticks w <= w_ticks (m w).2 /\
    (not_exhausted (m w).2 -> P w ->
     match (m w).1 with Ok a => R a (m w).2 | _ => inv (m w).2 end).

(** A flow the service is working on: in step with the store, and of the key
    under which it is pending. *)
Record in_hand flow w : Prop := {
  ih_inv : inv w;
  ih_synced : fl_synced (w_store w) flow;
  ih_issued : fl_issued (w_store w) (agg_query flow);
  ih_state : exists st, agg_state flow = Some st /\ fs_flow_id st = agg_query flow /\
    (forall st0, fl_at (w_store w) (agg_query flow) (Some st0) ->
       fs_flow_key st = fs_flow_key st0 /\ forall t, t ∈ fs_task_ids st0 -> t ∈ fs_task_ids st) /\
    (forall k, try_get_pending_flow (w_pending w) k = Some (agg_query flow) -> fs_flow_key st = k)
}.

(** The same, for a flow that is pending. *)
Definition pending_in_hand flow w : Prop :=
  in_hand flow w /\ exists k, try_get_pending_flow (w_pending w) k = Some (agg_query flow).

(** ** Rules *)

Lemma spec_step {A} P (m : M A) (R : A -> World S -> Prop) :
  (forall w, w_ticks w <= w_ticks (m w).2) ->
  (forall w, not_exhausted (m w).2 -> P w ->
     match (m w).1 with Ok a => R a (m w).2 | _ => inv (m w).2 end) ->
  spec P m R.
Proof. intros Ht HR w. split; [apply Ht|exact (HR w)]. Qed.

Lemma spec_bind {A B} P (m : M A) R (k : A -> M B) Q :
  spec P m R -> (forall a, spec (R a) (k a) Q) -> spec P (m ≫= k) Q.
Proof.
  intros Hm Hk w. destruct (Hm w) as [Ht Hw]. unfold mbind, action_bind.
  destruct (m w) as [[a| |] w1]; simpl in *; [|auto..].
  destruct (Hk a w1) as [Ht1 Hw1]. split; [lia|]. intros Hn HP. apply Hw1; [done|].
  apply Hw; [unfold not_exhausted in *; lia|done].
Qed.

Lemma spec_conseq {A} (P P' : World S -> Prop) (m : M A) (R R' : A -> World S -> Prop) :
  spec P' m R' -> (forall w, P w -> P' w) -> (forall a w, R' a w -> R a w) -> spec P m R.
Proof.
  intros Hm HP HR w. destruct (Hm w) as [Ht Hw]. split; [done|]. intros Hn Hp.
  specialize (Hw Hn (HP _ Hp)). destruct (m w).1; auto.
Qed.

(** A pure fact is kept. *)
Lemma spec_frame {A} P (F : Prop) (m : M A) R :
  spec P m R -> spec (fun w => P w /\ F) m (fun a w => R a w /\ F).
Proof.
  intros Hm w. destruct (Hm w) as [Ht Hw]. split; [done|]. intros Hn [Hp Hf].
  specialize (Hw Hn Hp). by destruct (m w).1.
Qed.

Lemma spec_ret {A} P (a : A) (R : A -> World S -> Prop) :
  (forall w, P w -> R a w) -> spec P (mret a) R.
Proof. intros HR w. split; [done|]. intros _. exact (HR w). Qed.

Lemma spec_lift {A} P (r : res InternalError A) (R : A -> World S -> Prop) :
  (forall w, P w -> inv w) -> (forall a w, r = Ok a -> P w -> R a w) -> spec P (lift r) R.
Proof.
  intros Hi HR w. split; [done|]. intros _ Hw. unfold lift. simpl. destruct r; auto.
Qed.

Lemma spec_gets {A} P (f : World S -> A) (R : A -> World S -> Prop) :
  (forall w, P w -> R (f w) w) -> spec P (gets f) R.
Proof. intros HR w. split; [done|]. intros _. exact (HR w). Qed.

Lemma spec_modify P f (R : unit -> World S -> Prop) :
  (forall w, w_ticks (f w) = w_ticks w) -> (forall w, P w -> R tt (f w)) -> spec P (modify f) R.
Proof. intros Ht HR w. simpl. rewrite Ht. split; [done|]. intros _. exact (HR w). Qed.

Lemma spec_panic {A} P (R : A -> World S -> Prop) : (forall w, P w -> inv w) -> spec P panic R.
Proof. intros Hi w. split; [done|]. intros _. exact (Hi w). Qed.

Lemma spec_for_each {A} P (f : A -> M unit) l :
  (forall x, x ∈ l -> spec P (f x) (fun _ => P)) -> spec P (for_each f l) (fun _ => P).
Proof.
  induction l as [|x l IH]; intros Hf; simpl; [by apply spec_ret|].
  apply (spec_bind _ _ (fun _ => P)); [apply Hf; by left|]. intros _. apply IH.
  intros y Hy. apply Hf. by right.
Qed.

Lemma spec_keeps {A} (m : M A) (R : A -> World S -> Prop) :
  spec inv m R -> (forall a w, R a w -> inv w) -> keeps service_inv m.
Proof.
  intros Hm HR w Hw Hn. destruct (Hm w) as [Ht Hs]. specialize (Hs Hn).
  assert (Hi : inv w) by (apply Hw; unfold not_exhausted in *; lia).
  specialize (Hs Hi). destruct (m w).1; eauto.
Qed.

(** ** The clock, the outbox and the commands *)

Definition tick w : World S :=
  mkWorld (w_state w) (w_store w) (w_tasks w) (w_posted w) (Datatypes.S (w_ticks w)).

Lemma inv_tick w : inv w -> inv (tick w).
Proof.
  intros [H1 H2 H3 H4 H5 H6 H7 H8 H10 H9]. split; try done; simpl; [lia|].
  intros l Hl. specialize (H5 l Hl). lia.
Qed.

Lemma in_hand_world flow w w' :
  in_hand flow w -> inv w' -> w_store w' = w_store w -> w_pending w' = w_pending w -> in_hand flow w'.
Proof. intros [_ H2 H3 H4] Hi Hs Hp. split; [done|..]; rewrite ?Hs, ?Hp; done. Qed.

Lemma in_hand_tick flow w : in_hand flow w -> in_hand flow (tick w).
Proof. intros Hf. eapply in_hand_world; [done| |done..]. apply inv_tick, Hf. Qed.

Lemma spec_now P : (forall w, P w -> P (tick w)) -> spec P now (fun _ => P).
Proof. intros Ht. apply spec_step; [simpl; lia|]. intros w _ Hw. by apply Ht. Qed.

Lemma spec_now_inv : spec inv now (fun _ => inv).
Proof. apply spec_now, inv_tick. Qed.

Lemma spec_now_in_hand flow : spec (in_hand flow) now (fun _ => in_hand flow).
Proof. apply spec_now. intros w. apply in_hand_tick. Qed.

Lemma spec_now_pending flow : spec (pending_in_hand flow) now (fun _ => pending_in_hand flow).
Proof. apply spec_now. intros w [Hf Hp]. split; [by apply in_hand_tick|done]. Qed.

Lemma spec_post_message m : spec inv (post_message m) (fun _ => inv).
Proof.
  apply spec_step; unfold post_message; intros w; destruct (fe_post_message m); simpl; try done.
  intros _ [H1 H2 H3 H4 H5 H6 H7 H8 H10 H9]. by split.
Qed.

Lemma spec_round_time P t : (forall w, P w -> inv w) -> spec P (round_time t) (fun _ => P).
Proof. intros Hi. apply spec_lift; [done|]. by intros. Qed.

Lemma spec_flow_state flow (P : World S -> Prop) :
  (forall w, P w -> in_hand flow w) ->
  spec P (flow_state flow) (fun st w => P w /\ agg_state flow = Some st /\ fs_flow_id st = agg_query flow).
Proof.
  intros Hi. apply spec_lift; [intros w Hw; by apply Hi|].
  intros st w Hst Hw. split; [done|]. destruct (ih_state _ _ (Hi _ Hw)) as (st' & Hs & Hid & _).
  rewrite Hs in Hst. injection Hst as <-. done.
Qed.

(** An accepted event of a flow in hand. *)
Lemma in_hand_advances flow flow' w :
  in_hand flow w -> advances flow flow' -> in_hand flow' w /\ agg_query flow' = agg_query flow.
Proof.
  intros Hf [->|(e & st & Hst & He & Ha)]; [done|].
  destruct Hf as [H1 H2 H3 (st0 & Hst0 & Hid & Hold & Hk)].
  rewrite Hst in Hst0. injection Hst0 as <-.
  pose proof (aggregate_apply_state _ _ _ Ha) as (st' & Happ & Hst' & Hq). rewrite Hst in Happ.
  destruct (flow_apply_keeps _ _ _ Happ) as (Hid' & _ & Hkey & _).
  split; [|done]. split; rewrite ?Hq; try done.
  - eapply fl_apply; [exact H2| |exact Ha]. simpl. apply bool_decide_eq_true_2. congruence.
  - exists st'. split; [done|]. split; [congruence|]. rewrite Hkey. split; [|done].
    intros st0 Hst0. destruct (Hold _ Hst0) as [? Hsub]. split; [done|].
    intros t Ht. by eapply flow_apply_tasks, Hsub.
Qed.

Lemma spec_command {A} flow (rc : res FlowProjectionError A * Flow) :
  (forall a f', rc = (Ok a, f') -> advances flow f') ->
  spec (in_hand flow) (command rc)
    (fun x w => in_hand x.2 w /\ agg_query x.2 = agg_query flow).
Proof.
  intros Hadv. unfold command. destruct rc as [[a| |] f']; simpl;
    (apply spec_lift; [by intros w []|]); intros x w [= <-] Hw.
  eapply in_hand_advances; [done|]. by eapply Hadv.
Qed.

Lemma spec_command_pending {A} flow (rc : res FlowProjectionError A * Flow) :
  (forall a f', rc = (Ok a, f') -> advances flow f') ->
  spec (pending_in_hand flow) (command rc)
    (fun x w => pending_in_hand x.2 w /\ agg_query x.2 = agg_query flow).
Proof.
  intros Hadv. unfold command. destruct rc as [[a| |] f']; simpl;
    (apply spec_lift; [by intros w [[] _]|]); intros x w [= <-] [Hw [k Hp]].
  destruct (in_hand_advances flow f' w Hw) as [? Hq]; [by eapply Hadv|].
  split; [split|]; [done| |done]. exists k. simpl. by rewrite Hq.
Qed.

(** ** The store *)

Lemma spec_load_flow id :
  spec inv (load_flow id) (fun flow w => in_hand flow w /\ agg_query flow = id).
Proof.
  apply spec_step; [done|]. intros w _ Hi. unfold load_flow. simpl.
  destruct (fl_at_total (w_store w) id (sv_store _ Hi)) as [[st|] Ho].
  - destruct (fl_load _ _ _ Ho) as (a & Hl & Hsy & Hst & Hq & _). rewrite Hl. simpl.
    destruct (fl_at_state _ _ _ (sv_store _ Hi) Ho) as (Hid & _ & Hiss).
    split; [|done]. split; rewrite ?Hq; try done. exists st. split_and!; try done.
    + intros st0 Hst0. pose proof (fl_at_unique _ _ _ _ Ho Hst0) as [= <-]. done.
    + intros k Hk. by apply (sv_pending _ Hi) in Hk as (_ & _ & ->).
  - by rewrite (fl_load_missing _ _ Ho).
Qed.

(** Saving keeps the invariant, and the flow is then in the store. *)
Lemma spec_save_flow flow :
  spec (in_hand flow) (save_flow flow)
    (fun flow' w => inv w /\ exists st, agg_state flow = Some st /\ agg_state flow' = Some st /\
       fs_flow_id st = agg_query flow /\ fl_at (w_store w) (agg_query flow) (Some st)).
Proof.
  apply spec_step; unfold save_flow; intros w.
  { by destruct (Aggregate_save flow (w_store w)) as [[r f'] s']. }
  intros _ [Hi Hsy Hiss (st & Hst & Hid & Hold & Hkey)].
  destruct (fl_save _ _ (sv_store _ Hi) Hsy Hiss)
    as (f' & s' & -> & Hok & Hst' & Hq & Hat & Hframe & Hissued & Hused).
  simpl. rewrite Hst in Hat, Hst'. split; [|by exists st].
  destruct Hi as [H1 H2 H3 H4 H5 H6 H7 H8 H10 H9]. split; try done; simpl.
  - by rewrite Hused.
  - intros k id Hk. destruct (H6 k id Hk) as (Hid6 & Hpl & Hkk). split; [by apply Hissued|].
    split; [done|]. intros st1 Hst1. destruct (decide (id = agg_query flow)) as [->|Hne].
    + pose proof (fl_at_unique _ _ _ _ Hat Hst1) as [= <-]. by apply Hkey.
    + apply Hframe in Hst1; [|done]. by apply Hkk.
  - intros r Hr. by apply Hissued, H8.
  - intros f t Hf. by eapply Hissued, H10.
  - intros t id Ht. destruct (H9 t id Ht) as (st1 & Hst1 & Hin).
    destruct (decide (id = agg_query flow)) as [->|Hne].
    + exists st. split; [done|]. by apply (Hold _ Hst1).
    + exists st1. split; [by apply Hframe|done].
Qed.

Lemma spec_save_inv flow : spec (in_hand flow) (save_flow flow) (fun _ => inv).
Proof. eapply spec_conseq; [apply spec_save_flow|done|]. by intros a w [? _]. Qed.

Lemma spec_save_and_return flow : spec (in_hand flow) (save_and_return flow) (fun _ => inv).
Proof.
  eapply spec_bind; [apply spec_save_flow|]. intros flow'.
  apply spec_lift; by intros; destruct_and?.
Qed.
(** ** The wheel and the registries *)

Lemma inv_activate w id t :
  inv w -> (exists k, try_get_pending_flow (w_pending w) k = Some id) ->
  inv (with_wheel (fun wheel => activate_at wheel t id) w).
Proof.
  intros [H1 H2 H3 H4 H5 H6 H7 H8 H10 H9] [k Hk]. pose proof (H6 _ _ Hk) as (Hiss & Hpl & _).
  split; try done; simpl.
  - by apply activate_wf.
  - intros k' id' Hk'. destruct (H6 _ _ Hk') as (Hiss' & Hpl' & Hst'). split_and!; [done| |done].
    unfold plannable. change (w_wheel (with_wheel _ w)) with (activate_at (w_wheel w) t id).
    rewrite activate_times.
    case_decide as Hd; [done|]. intros Hm r [Hr| ->]%activate_heap; [by apply Hpl'|done].
  - intros r [Hr| ->]%activate_heap; [by apply H8|done].
  - intros f t'. change (w_wheel (with_wheel _ w)) with (activate_at (w_wheel w) t id).
    rewrite activate_times. case_decide as Hd; [by subst|]. apply H10.
Qed.

Lemma spec_enqueue flow t :
  spec (pending_in_hand flow) (enqueue_flow (agg_query flow) t) (fun _ => pending_in_hand flow).
Proof.
  apply spec_modify; [done|]. intros w [Hf Hp]. split; [|done].
  eapply in_hand_world; [exact Hf| |done..]. apply inv_activate; [apply Hf|done].
Qed.

(** Parts of the world the invariant does not speak of. *)
Lemma inv_configs w f : inv w -> inv (with_configs f w).
Proof. intros [H1 H2 H3 H4 H5 H6 H7 H8 H10 H9]. by split. Qed.

Lemma inv_running w b : inv w -> inv (with_running b w).
Proof. intros [H1 H2 H3 H4 H5 H6 H7 H8 H10 H9]. by split. Qed.

(** The registry may forget. *)
Lemma inv_pending_sub w f :
  inv w ->
  (forall k id, try_get_pending_flow (f (w_pending w)) k = Some id ->
     try_get_pending_flow (w_pending w) k = Some id) ->
  (forall t id, try_get_flow_id_by_task (f (w_pending w)) t = Some id ->
     try_get_flow_id_by_task (w_pending w) t = Some id) ->
  inv (with_pending f w).
Proof.
  intros [H1 H2 H3 H4 H5 H6 H7 H8 H10 H9] Hk Ht. split; try done; simpl.
  - intros k id Hp. apply H6. by apply Hk.
  - intros k k' id Hp Hp'. eapply H7; by apply Hk.
  - intros t id Hp. apply H9. by apply Ht.
Qed.

Lemma drop_pending_sub p k :
  (forall k' id, try_get_pending_flow (drop_pending_flow p k).2 k' = Some id ->
     try_get_pending_flow p k' = Some id) /\
  (forall t, try_get_flow_id_by_task (drop_pending_flow p k).2 t = try_get_flow_id_by_task p t).
Proof.
  split; [|by destruct k]. intros k' id. rewrite (proj2 (drop_then_get p k k')).
  by case_decide.
Qed.

Lemma untrack_sub p t :
  (forall k, try_get_pending_flow (untrack_flow_by_task p t) k = try_get_pending_flow p k) /\
  (forall t' id, try_get_flow_id_by_task (untrack_flow_by_task p t) t' = Some id ->
     try_get_flow_id_by_task p t' = Some id).
Proof.
  split; [done|]. intros t' id. unfold try_get_flow_id_by_task. simpl.
  by intros [_ Ht]%lookup_delete_Some.
Qed.

Lemma untrack_all_sub p ts :
  (forall k, try_get_pending_flow (foldl untrack_flow_by_task p ts) k = try_get_pending_flow p k) /\
  (forall t id, try_get_flow_id_by_task (foldl untrack_flow_by_task p ts) t = Some id ->
     try_get_flow_id_by_task p t = Some id).
Proof.
  revert p; induction ts as [|x ts IH]; intros p; simpl; [done|].
  destruct (IH (untrack_flow_by_task p x)) as [H1 H2]. split; [done|].
  intros t id Ht. by eapply untrack_sub, H2.
Qed.

Lemma spec_untrack_all ts :
  spec inv (modify (with_pending (fun p => foldl untrack_flow_by_task p ts))) (fun _ => inv).
Proof.
  apply spec_modify; [done|]. intros w Hi. destruct (untrack_all_sub (w_pending w) ts) as [H1 H2].
  apply inv_pending_sub; [done| |done]. intros k id. by rewrite H1.
Qed.

Lemma spec_forget t k : spec inv (modify (with_pending (forget_flow t k))) (fun _ => inv).
Proof.
  apply spec_modify; [done|]. intros w Hi. unfold forget_flow.
  destruct (drop_pending_sub (untrack_flow_by_task (w_pending w) t) k) as [H1 H2].
  apply inv_pending_sub; [done|by apply H1|]. intros t' id. rewrite H2. by apply untrack_sub.
Qed.

(** A task is tracked once its flow is stored with it. *)
Lemma inv_track w id t st :
  inv w -> fl_at (w_store w) id (Some st) -> t ∈ fs_task_ids st ->
  inv (with_pending (fun p => track_flow_task p id t) w).
Proof.
  intros [H1 H2 H3 H4 H5 H6 H7 H8 H10 H9] Hst Ht. split; try done; simpl.
  intros t' id'. unfold try_get_flow_id_by_task. simpl.
  intros [[<- <-]|[_ Hl]]%lookup_insert_Some; [by exists st|by apply H9].
Qed.

(** The activation of a flow that is no longer pending may be cancelled. *)
Lemma spec_cancel_activation id :
  spec (fun w => inv w /\ forall k, try_get_pending_flow (w_pending w) k <> Some id)
    (cancel_activation id) (fun _ => inv).
Proof.
  apply spec_step; unfold cancel_activation; intros w.
  { by destruct (cancel_flow_activation (w_wheel w) id). }
  intros _ [[H1 H2 H3 H4 H5 H6 H7 H8 H10 H9] Hnp].
  pose proof (cancel_ok (w_wheel w) id H1) as Hc. pose proof (cancel_times (w_wheel w) id) as Ht.
  pose proof (cancel_heap (w_wheel w) id) as Hh.
  destruct (cancel_flow_activation (w_wheel w) id) as [r wheel'] eqn:Hcan. destruct Hc as (Hwf & _).
  assert (Hi : inv (with_wheel (fun _ => wheel') w)).
  { split; try done; simpl.
    - intros k id' Hk. destruct (H6 _ _ Hk) as (Hiss & Hpl & Hst). split_and!; [done| |done].
      unfold plannable. change (w_wheel (with_wheel _ w)) with wheel'. simpl in Ht. rewrite Ht.
      rewrite lookup_delete_ne by (intros <-; by apply (Hnp k)).
      intros Hm r' Hr'. apply (Hpl Hm r'). by apply Hh.
    - intros r' Hr'. by apply H8, Hh.
    - intros f t. change (w_wheel (with_wheel _ w)) with wheel'. simpl in Ht. rewrite Ht.
      intros [_ Hf]%lookup_delete_Some. by eapply H10. }
  simpl. by destruct (int_err r).
Qed.

(** ** New flows and tasks *)

Lemma flow_new_eq t id k tr c :
  Flow_new t id k tr c =
  Ok (mkAggregate id (Some (mkFlowState id k [tr] None (mkFlowTimingRecords None None None) [] None c))
        [FlowEvent_Initiated (mkFlowEventInitiated t id k tr c)] None).
Proof. done. Qed.

(** A flow with an id that was just handed out becomes pending. *)
Lemma inv_new_flow w id store' k flow st :
  inv w -> (Z.of_nat (fl_used (w_store w)) < 2 ^ 63)%Z -> fl_used (w_store w) < w_ticks w ->
  fes_new_flow_id (w_store w) = (id, store') ->
  fl_synced store' flow -> agg_query flow = id -> agg_state flow = Some st ->
  fs_flow_id st = id -> fs_flow_key st = k ->
  pending_in_hand flow
    (with_pending (fun p => add_pending_flow p k id) (with_store store' w)).
Proof.
  intros Hi Hroom Hused Hnew Hsy Hq Hst Hid Hkey.
  destruct (fl_new_id _ _ _ (sv_store _ Hi) Hroom Hnew)
    as (Hu & Hok & Hiss & Hnone & Hfresh & Hframe & Hmono).
  destruct Hi as [H1 H2 H3 H4 H5 H6 H7 H8 H10 H9].
  assert (Hold : forall k' id', try_get_pending_flow (w_pending w) k' = Some id' -> id' <> id).
  { intros k' id' Hk' ->. by apply H6 in Hk' as (? & _). }
  set (w' := with_pending _ _).
  assert (Hpe : w_pending w' = add_pending_flow (w_pending w) k id) by done.
  assert (Hnew' : forall k', try_get_pending_flow (w_pending w') k' =
            if decide (k = k') then Some id else try_get_pending_flow (w_pending w) k').
  { intros k'. by rewrite Hpe, add_then_get. }
  split; [|exists k; by rewrite Hnew', decide_True, Hq].
  split; rewrite ?Hq; try done.
  - split; try done.
    + simpl. rewrite Hu. lia.
    + intros k' id'. rewrite Hnew'. case_decide as Hd.
      * intros [= <-]. subst k'. split_and!; [done| |].
        -- intros _ r Hr Hf. apply Hfresh. rewrite <- Hf. by apply H8.
        -- intros st' Hst'. by pose proof (fl_at_unique _ _ _ _ Hnone Hst').
      * intros Hk'. destruct (H6 _ _ Hk') as (? & ? & Hs). split_and!; [by apply Hmono|done|].
        intros st' Hst'. apply Hs. by apply Hframe.
    + intros k1 k2 id'. rewrite !Hnew'. repeat case_decide; intros; simplify_eq; try done.
      * exfalso. by eapply Hold.
      * exfalso. by eapply Hold.
      * by eapply H7.
    + intros r Hr. by apply Hmono, H8.
    + intros f t Hf. by eapply Hmono, H10.
    + intros t id' Ht. assert (Ht' : try_get_flow_id_by_task (w_pending w) t = Some id') by (by destruct k).
      destruct (H9 _ _ Ht') as (st' & Hst' & Hin). exists st'. split; [by apply Hframe|done].
  - exists st. split_and!; try done.
    + intros st0 Hst0. by pose proof (fl_at_unique _ _ _ _ Hnone Hst0).
    + intros k'. rewrite Hnew'. case_decide as Hd; [by subst|].
      intros Hk'. by destruct (Hold _ _ Hk').
Qed.

Lemma spec_make_new_flow k tr c :
  spec inv (make_new_flow k tr c) pending_in_hand.
Proof.
  apply spec_step; unfold make_new_flow, mbind, action_bind, modify, mret, action_ret, lift, flow_state.
  { intros w. simpl. destruct (fes_new_flow_id (w_store w)) as [id s']. simpl. lia. }
  intros w Hn Hi. simpl in *. destruct (fes_new_flow_id (w_store w)) as [id s'] eqn:Hnew. simpl in *.
  set (w1 := tick w). pose proof (sv_flow_ids _ Hi) as Hu. unfold not_exhausted in Hn. simpl in Hn.
  eapply (inv_new_flow w1 id s'); try done.
  - by apply inv_tick.
  - simpl. lia.
  - simpl. lia.
  - destruct (fl_new_id _ _ _ (sv_store _ Hi) ltac:(lia) Hnew) as (_ & _ & _ & Hnone & _).
    eapply (fl_create _ _ (FlowEvent_Initiated (mkFlowEventInitiated (fe_now (w_ticks w)) id k tr c)));
      [exact Hnone| |reflexivity]. simpl. by apply bool_decide_eq_true_2.
Qed.
Lemma inv_with_tasks w tasks' :
  inv w -> sched_inv tasks' ->
  (forall l, last_task_id tasks' = Some l -> (0 <= l < Z.of_nat (w_ticks w))%Z) ->
  inv (with_tasks tasks' w).
Proof. intros [H1 H2 H3 H4 H5 H6 H7 H8 H10 H9] Hs Hl. by split. Qed.

(** A new task is queued; its id is the number of a reading of the clock. *)
Lemma create_flow_task_eq plan w :
  inv w -> not_exhausted (tick w) ->
  exists task tasks', create_flow_task plan w = (Ok task, with_tasks tasks' (tick w)) /\
    inv (with_tasks tasks' (tick w)) /\
    task_at (sch_event_store (w_tasks w)) (ts_task_id task) None /\
    task_at (sch_event_store tasks') (ts_task_id task) (Some task) /\
    ts_logical_plan task = plan /\
    sch_task_queue tasks' = sch_task_queue (w_tasks w) ++ [ts_task_id task] /\
    (forall id o, id <> ts_task_id task ->
       task_at (sch_event_store tasks') id o <-> task_at (sch_event_store (w_tasks w)) id o).
Proof.
  intros Hi Hn. unfold not_exhausted in Hn. simpl in Hn. pose proof (sv_task_ids _ Hi) as Hids.
  assert (Hroom : id_room (w_tasks w)).
  { intros l Hl. specialize (Hids l Hl). lia. }
  destruct (create_task_spec (w_tasks w) (fe_now (w_ticks w)) plan (sv_tasks _ Hi) Hroom)
    as (task & tasks' & Hc & Hs & H1 & H2 & _ & H3 & H4 & H5).
  exists task, tasks'. split.
  { unfold create_flow_task, mbind, action_bind, now. simpl. by rewrite Hc. }
  split; [|done]. apply inv_with_tasks; [by apply inv_tick|done|].
  pose proof (create_task_last (w_tasks w) (fe_now (w_ticks w)) plan) as Hl. rewrite Hc in Hl.
  simpl in *. intros l. rewrite Hl. intros [= <-].
  destruct (last_task_id (w_tasks w)) as [l|] eqn:Hlast; [|lia]. specialize (Hids _ eq_refl).
  unfold i64_add, two64. rewrite Z.mod_small by lia. lia.
Qed.

Lemma spec_create_flow_task flow plan :
  spec (in_hand flow) (create_flow_task plan) (fun _ => in_hand flow).
Proof.
  apply spec_step.
  - intros w. unfold create_flow_task, mbind, action_bind, now. simpl.
    destruct (create_task _ _ _). simpl. lia.
  - intros w Hn Hf.
    assert (Hn' : not_exhausted (tick w)).
    { revert Hn. unfold create_flow_task, mbind, action_bind, now. simpl. by destruct (create_task _ _ _). }
    destruct (create_flow_task_eq plan w (ih_inv _ _ Hf) Hn') as (task & tasks' & -> & Hi & _).
    simpl. by eapply in_hand_world.
Qed.

Lemma spec_cancel_flow_task id : spec inv (cancel_flow_task id) (fun _ => inv).
Proof.
  apply spec_step; unfold cancel_flow_task, mbind, action_bind, now; intros w; simpl.
  { destruct (cancel_task _ _ _). simpl. lia. }
  intros _ Hi. pose proof (cancel_task_last (w_tasks w) (fe_now (w_ticks w)) id) as Hl.
  assert (Hs : sched_inv (cancel_task (w_tasks w) (fe_now (w_ticks w)) id).2).
  { eapply sched_step_inv; [apply Hi|constructor]. }
  destruct (cancel_task (w_tasks w) (fe_now (w_ticks w)) id) as [r tasks'].
  assert (Hi' : inv (with_tasks tasks' (tick w))).
  { apply inv_with_tasks; [by apply inv_tick|done|]. simpl in Hl. rewrite Hl. simpl.
    intros l Hl'. pose proof (sv_task_ids _ Hi l Hl'). lia. }
  simpl. by destruct r.
Qed.

(** ** Triggering flows *)

Lemma pending_in_hand_inv flow w : pending_in_hand flow w -> inv w.
Proof. intros [[Hi _ _ _] _]. done. Qed.

(** The flow keeps its id. *)
Definition same_flow flow (f : Flow) w : Prop :=
  pending_in_hand f w /\ agg_query f = agg_query flow.

Lemma spec_set_condition_now flow (c : FlowStartCondition) :
  spec (pending_in_hand flow)
    (t ← now; x ← command (Flow_set_relevant_start_condition flow t c); mret x.2) (same_flow flow).
Proof.
  eapply spec_bind; [apply spec_now_pending|]. intros t.
  eapply spec_bind; [apply spec_command_pending|].
  - intros a f'. apply set_start_condition_advances.
  - intros x. by apply spec_ret.
Qed.

Lemma spec_indicate flow a b :
  spec (pending_in_hand flow) (indicate_throttling_activity flow a b) (same_flow flow).
Proof. apply spec_set_condition_now. Qed.

Lemma spec_flow_state_pending flow :
  spec (pending_in_hand flow) (flow_state flow)
    (fun st w => pending_in_hand flow w /\ agg_state flow = Some st /\ fs_flow_id st = agg_query flow).
Proof. apply spec_flow_state. by intros w []. Qed.

(** [enqueue_flow] on the flow in hand. *)
Lemma spec_enqueue_id flow id t :
  spec (fun w => pending_in_hand flow w /\ id = agg_query flow) (enqueue_flow id t)
    (fun _ => pending_in_hand flow).
Proof.
  intros w. destruct (spec_enqueue flow t w) as [_ Hw]. split; [done|]. intros Hn [Hp ->]. by apply Hw.
Qed.

Lemma spec_lift_pending {A} flow (r : res InternalError A) F :
  spec (fun w => pending_in_hand flow w /\ F) (lift r) (fun _ w => pending_in_hand flow w /\ F).
Proof. apply spec_lift; [intros w [Hp _]; by eapply pending_in_hand_inv|by intros]. Qed.

Lemma spec_evaluate t flow rule bound :
  spec (pending_in_hand flow) (evaluate_flow_transform_rule t flow rule bound) pending_in_hand.
Proof.
  unfold evaluate_flow_transform_rule.
  eapply spec_bind; [apply spec_flow_state_pending|]. intros st.
  set (F := fs_flow_id st = agg_query flow).
  apply (spec_conseq _ (fun w => pending_in_hand flow w /\ F) _ pending_in_hand pending_in_hand);
    [|by intros w (? & _ & ?)|done].
  destruct (may_batch _).
  2:{ apply spec_panic. intros w [Hp _]. by eapply pending_in_hand_inv. }
  eapply spec_bind; [apply spec_lift_pending|]. intros acc.
  eapply spec_bind; [apply spec_lift_pending|]. intros primary.
  eapply (spec_bind _ _ (fun f w => pending_in_hand f w /\ fs_flow_id st = agg_query f)).
  { destruct (is_batching _); [by apply spec_ret|].
    apply (spec_conseq _ (fun w => pending_in_hand flow w /\ F) _ _
             (fun f w => same_flow flow f w /\ F)); [apply spec_frame, spec_set_condition_now|done|].
    intros f w [[Hf Hq] HF]. split; [done|]. unfold F in HF. congruence. }
  intros flow1. destruct (_ || _); [|apply spec_ret; by intros w []].
  eapply (spec_bind _ _ (fun _ w => pending_in_hand flow1 w /\ fs_flow_id st = agg_query flow1));
    [by apply spec_gets|]. intros planned.
  eapply (spec_bind _ _ (fun _ => pending_in_hand flow1)).
  { destruct (match planned with Some _ => _ | None => _ end);
      [apply spec_enqueue_id|apply spec_ret; by intros w []]. }
  intros []. destruct (_ && _); [|by apply spec_ret].
  eapply spec_conseq; [apply spec_indicate|done|by intros f w [? _]].
Qed.

Lemma spec_trigger_pending id tr ctx bound :
  spec (fun w => inv w /\ exists k, try_get_pending_flow (w_pending w) k = Some id)
    (trigger_pending_flow id tr ctx bound) (fun _ => inv).
Proof.
  unfold trigger_pending_flow. eapply (spec_bind _ _ pending_in_hand).
  { intros w. destruct (spec_load_flow id w) as [Ht Hw]. split; [done|]. intros Hn [Hi Hk].
    specialize (Hw Hn Hi). unfold load_flow in *. simpl in *.
    destruct (int_err _); [|done..]. destruct Hw as [Hf <-]. by split. }
  intros flow. eapply spec_bind; [apply spec_now_pending|]. intros t.
  eapply spec_bind; [apply spec_command_pending; intros a f'; apply add_trigger_advances|].
  intros [a f]. cbn [snd].
  apply (spec_conseq _ (pending_in_hand f) _ (fun _ => inv) (fun _ => inv)); [|by intros w [? _]|done].
  eapply spec_bind; [apply spec_flow_state_pending|]. intros st.
  set (F := fs_flow_id st = agg_query f).
  apply (spec_conseq _ (fun w => pending_in_hand f w /\ F) _ (fun _ => inv) (fun _ => inv));
    [|by intros w (? & _ & ?)|done].
  eapply (spec_bind _ _ pending_in_hand); [|intros f'; eapply spec_conseq;
    [apply spec_save_and_return|by intros w []|done]].
  assert (Hact : spec (fun w => pending_in_hand f w /\ F)
    (planned ← find_planned_flow_activation_time (fs_flow_id st);
     planned_time ← lift (unwrap planned);
     if bool_decide (bound < planned_time)%Z then
       _ ← enqueue_flow (fs_flow_id st) bound;
       if bool_decide (FlowTrigger_trigger_time tr < bound)%Z
       then indicate_throttling_activity f bound (FlowTrigger_trigger_time tr) else mret f
     else mret f) pending_in_hand).
  { eapply (spec_bind _ _ (fun _ w => pending_in_hand f w /\ F)); [by apply spec_gets|]. intros planned.
    eapply spec_bind; [apply spec_lift_pending|]. intros pt.
    case_bool_decide; [|apply spec_ret; by intros w []].
    eapply spec_bind; [apply spec_enqueue_id|]. intros [].
    case_bool_decide; [|by apply spec_ret].
    eapply spec_conseq; [apply spec_indicate|done|by intros g w [? _]]. }
  destruct ctx as [| |rule]; try exact Hact.
  destruct (is_batching _); [|apply spec_ret; by intros w []].
  eapply spec_conseq; [apply spec_evaluate|by intros w []|done].
Qed.

Lemma spec_activate_new flow t ctx stats bound :
  spec (pending_in_hand flow) (activate_new_flow flow t ctx stats bound) pending_in_hand.
Proof.
  unfold activate_new_flow. eapply spec_bind; [apply spec_flow_state_pending|]. intros st.
  set (F := fs_flow_id st = agg_query flow).
  apply (spec_conseq _ (fun w => pending_in_hand flow w /\ F) _ pending_in_hand pending_in_hand);
    [|by intros w (? & _ & ?)|done].
  destruct ctx as [|schedule|rule].
  - eapply spec_bind; [apply spec_enqueue_id|]. intros [].
    case_bool_decide; [|by apply spec_ret].
    eapply spec_conseq; [apply spec_indicate|done|by intros g w [? _]].
  - eapply spec_bind; [apply spec_lift_pending|]. intros naive.
    eapply spec_bind; [apply spec_enqueue_id|]. intros [].
    case_bool_decide; [|case_bool_decide; [|by apply spec_ret]];
      (eapply spec_conseq; [apply spec_set_condition_now|done|by intros g w [? _]]).
  - eapply spec_conseq; [apply spec_evaluate|by intros w []|done].
Qed.

Lemma spec_trigger_common k tr ctx c :
  spec inv (trigger_flow_common k tr ctx c) (fun _ => inv).
Proof.
  unfold trigger_flow_common. eapply (spec_bind _ _ (fun _ => inv)); [by apply spec_gets|]. intros stats.
  eapply (spec_bind _ _ (fun p w => inv w /\ p = try_get_pending_flow (w_pending w) k));
    [by apply spec_gets|].
  intros [id|].
  { eapply spec_conseq; [apply spec_trigger_pending| |done]. intros w [Hi Hp]. eauto. }
  apply (spec_conseq _ inv _ (fun _ => inv) (fun _ => inv)); [|by intros w []|done].
  eapply (spec_bind _ _ (fun _ => inv)); [destruct c; [by apply spec_ret|by apply spec_gets]|].
  intros snapshot. eapply spec_bind; [apply spec_make_new_flow|]. intros flow.
  eapply spec_bind; [apply spec_activate_new|]. intros flow'.
  eapply spec_conseq; [apply spec_save_and_return|by intros w []|done].
Qed.
(** Runs a method whose result is not used. *)
Lemma spec_then {A B} (m : M A) (k : A -> M B) :
  spec inv m (fun _ => inv) -> (forall a, spec inv (k a) (fun _ => inv)) ->
  spec inv (m ≫= k) (fun _ => inv).
Proof. apply spec_bind. Qed.

Lemma spec_unit {A} (m : M A) :
  spec inv m (fun _ => inv) -> spec inv (_ ← m; mret tt) (fun _ => inv).
Proof. intros Hm. apply spec_then; [done|]. intros _. by apply spec_ret. Qed.

Lemma spec_with_configs f : spec inv (modify (with_configs f)) (fun _ => inv).
Proof. apply spec_modify; [done|]. intros w. apply inv_configs. Qed.

Lemma spec_try_enqueue t k :
  spec inv (try_enqueue_scheduled_auto_polling_flow_if_enabled t k) (fun _ => inv).
Proof.
  apply spec_then; [by apply spec_gets|]. intros [s|]; [|by apply spec_ret].
  apply spec_unit, spec_trigger_common.
Qed.

Lemma spec_activate_configuration t k rule :
  spec inv (activate_flow_configuration t k rule) (fun _ => inv).
Proof.
  unfold activate_flow_configuration. destruct k as [k|k].
  - apply spec_then.
    + apply spec_step; intros w; destruct (add_dataset_flow_config _ _ _); simpl; try done.
      intros _. apply inv_configs.
    + intros _. destruct rule; try (by apply spec_ret); apply spec_unit, spec_trigger_common.
  - destruct rule; try (by apply spec_panic). apply spec_then; [apply spec_with_configs|].
    intros _. apply spec_unit, spec_trigger_common.
Qed.

Lemma spec_initialize t :
  spec inv (initialize_auto_polling_flows_from_configurations t) (fun _ => inv).
Proof.
  apply spec_then; [by apply spec_lift|]. intros cs. apply spec_for_each.
  intros c _. apply spec_activate_configuration.
Qed.

(** ** Tasks of flows *)

Lemma on_scheduled_task_ids f t id a f' st :
  Flow_on_task_scheduled f t id = (Ok a, f') -> agg_state f' = Some st -> id ∈ fs_task_ids st.
Proof.
  unfold Flow_on_task_scheduled, Flow_command. destruct (agg_state f) as [s0|] eqn:Hs; [|done].
  destruct a. intros Ha Hst. apply aggregate_apply_state in Ha as (st' & Happ & Hst' & _).
  rewrite Hst in Hst'. injection Hst' as <-. rewrite Hs in Happ. simpl in Happ.
  rewrite decide_False in Happ by (simpl; naive_solver). destruct (fs_outcome s0); simplify_eq.
  simpl. set_solver.
Qed.

Lemma spec_schedule_flow_task flow t :
  spec (in_hand flow) (schedule_flow_task flow t) (fun _ => inv).
Proof.
  unfold schedule_flow_task. eapply spec_bind; [by apply spec_flow_state|]. intros st.
  apply (spec_conseq _ (in_hand flow) _ (fun _ => inv) (fun _ => inv)); [|by intros w [? _]|done].
  eapply (spec_bind _ _ (fun _ => in_hand flow)); [apply spec_lift; [by intros w []|by intros]|].
  intros plan. eapply spec_bind; [apply spec_create_flow_task|]. intros task.
  eapply spec_bind; [apply spec_command; intros a f'; apply set_start_condition_advances|].
  intros [a f]. cbn [snd].
  apply (spec_conseq _ (in_hand f) _ (fun _ => inv) (fun _ => inv)); [|by intros w [? _]|done].
  set (rc := Flow_on_task_scheduled f t (ts_task_id task)).
  eapply (spec_bind _ _ (fun x w => in_hand x.2 w /\ rc = (Ok x.1, x.2))).
  { intros w. assert (Hadv : forall a f', rc = (Ok a, f') -> advances f f').
    { intros ? ?. apply on_task_scheduled_advances. }
    destruct (spec_command f rc Hadv w) as [Ht Hw]. split; [done|]. intros Hn Hf.
    specialize (Hw Hn Hf). unfold command in *. destruct rc as [[u| |] f']; simpl in *; [|done..].
    by destruct Hw. }
  intros [b g]. cbn [fst snd].
  eapply (spec_bind _ _ (fun f2 w => exists st2, inv w /\ agg_state f2 = Some st2 /\
            fl_at (w_store w) (fs_flow_id st2) (Some st2) /\ ts_task_id task ∈ fs_task_ids st2)).
  { intros w. destruct (spec_save_flow g w) as [Ht Hw]. split; [done|]. intros Hn [Hg Hrc].
    specialize (Hw Hn Hg). destruct (save_flow g w).1; [|done..].
    destruct Hw as (Hi & st2 & Hg2 & Ha2 & Hid2 & Hat2). exists st2. rewrite Hid2.
    split_and!; try done. by eapply on_scheduled_task_ids. }
  intros f2. eapply (spec_bind _ _ (fun st2 w => inv w /\
      fl_at (w_store w) (fs_flow_id st2) (Some st2) /\ ts_task_id task ∈ fs_task_ids st2)).
  { apply spec_lift; [by intros w (st2 & ? & _)|]. intros st2 w Hu (st3 & ? & Hst & ? & ?).
    rewrite Hst in Hu. by injection Hu as <-. }
  intros st2. apply (spec_bind _ _ (fun _ => inv)); [|intros _; by apply spec_ret].
  apply spec_modify; [done|]. intros w (Hi & Hat & Hin). by eapply inv_track.
Qed.

Lemma spec_load_then {A} id (k : Flow -> M A) :
  (forall flow, spec (in_hand flow) (k flow) (fun _ => inv)) ->
  spec inv (flow ← load_flow id; k flow) (fun _ => inv).
Proof.
  intros Hk. eapply spec_bind; [apply spec_load_flow|]. intros flow.
  eapply spec_conseq; [apply Hk|by intros w []|done].
Qed.

Lemma spec_schedule_all t ids : spec inv (schedule_all t ids) (fun _ => inv).
Proof.
  induction ids as [|id ids IH]; simpl; [by apply spec_ret|]. intros w.
  set (m := flow ← load_flow id; schedule_flow_task flow t).
  assert (Hm : spec inv m (fun _ => inv)) by (apply spec_load_then; intros; apply spec_schedule_flow_task).
  destruct (Hm w) as [Ht Hw]. destruct (m w) as [r w1]. simpl in *.
  destruct (IH w1) as [Ht1 Hw1].
  assert (Hi1 : not_exhausted w1 -> inv w -> inv w1) by (intros Hn Hi; specialize (Hw Hn Hi); by destruct r).
  destruct r; simpl; [| |by split]; (split; [lia|]); intros Hn Hi; apply Hw1; try done;
    apply Hi1; try done; unfold not_exhausted in *; lia.
Qed.

Lemma inv_take w :
  inv w -> inv (with_wheel (fun _ => (take_nearest_planned_flows (w_wheel w)).2) w).
Proof.
  intros [H1 H2 H3 H4 H5 H6 H7 H8 H10 H9]. pose proof (take_ok (w_wheel w) H1) as Hk.
  pose proof (take_times (w_wheel w)) as Ht. pose proof (take_heap (w_wheel w)) as Hh.
  destruct (take_nearest_planned_flows (w_wheel w)) as [l wheel']. destruct Hk as (Hwf & _).
  simpl in *. split; try done; simpl.
  - intros k id Hk. destruct (H6 _ _ Hk) as (? & Hpl & ?). split_and!; [done| |done].
    unfold plannable. change (w_wheel (with_wheel _ w)) with wheel'. rewrite Ht.
    intros Hm r Hr. apply (Hpl Hm r). by apply Hh.
  - intros r Hr. by apply H8, Hh.
  - intros f t. change (w_wheel (with_wheel _ w)) with wheel'. rewrite Ht. apply H10.
Qed.

Lemma spec_run_timeslot t : spec inv (run_current_timeslot t) (fun _ => inv).
Proof.
  apply spec_then; [|intros ids; apply spec_schedule_all].
  apply spec_step; intros w; pose proof (inv_take w) as Hi;
    destruct (take_nearest_planned_flows (w_wheel w)) as [l wheel']; [done|]. intros _. exact Hi.
Qed.

Lemma spec_abort_impl flow : spec (in_hand flow) (abort_flow_impl flow) (fun _ => inv).
Proof.
  unfold abort_flow_impl. eapply spec_bind; [apply spec_now_in_hand|]. intros t.
  eapply spec_bind; [apply spec_command; intros a f'; apply abort_advances|]. intros [a f]. cbn [snd].
  eapply (spec_bind _ _ (fun _ => inv)).
  { eapply spec_conseq; [apply spec_save_inv|by intros w [? _]|done]. }
  intros f'. apply spec_then; [by apply spec_lift|]. intros st.
  apply spec_then; [apply spec_untrack_all|]. intros _.
  apply spec_then; [apply spec_for_each; intros; apply spec_cancel_flow_task|].
  intros _. by apply spec_ret.
Qed.

Lemma spec_abort_flow id : spec inv (abort_flow id) (fun _ => inv).
Proof.
  apply spec_load_then. intros flow. eapply spec_bind; [apply spec_abort_impl|].
  intros f. by apply spec_ret.
Qed.
(** ** Dependent flows and messages *)

Lemma spec_plans (fk : FlowKeyDataset) c :
  spec inv (make_downstream_dependencies_flow_plans fk c) (fun _ => inv).
Proof.
  apply spec_then; [by apply spec_lift|]. intros [|d ds]; [by apply spec_ret|].
  destruct (classify_dependent_trigger_type _ _); [by apply spec_gets| |by apply spec_ret].
  apply spec_then; [by apply spec_lift|]. intros owners. by apply spec_lift.
Qed.

Lemma spec_enqueue_dependent t st r : spec inv (enqueue_dependent_flows t st r) (fun _ => inv).
Proof.
  unfold enqueue_dependent_flows. destruct (fs_flow_key st) as [k|k]; [|by apply spec_panic].
  apply spec_then; [apply spec_plans|]. intros plans. apply spec_for_each.
  intros plan _. apply spec_unit, spec_trigger_common.
Qed.

Lemma spec_followup t st : spec inv (followup t st) (fun _ => inv).
Proof.
  unfold followup. destruct (FlowState_try_result st) as [r|]; [|by apply spec_ret].
  destruct (FlowResult_is_empty r); [by apply spec_ret|].
  destruct (AnyFlowType_success_followup_method _); [by apply spec_ret|].
  apply spec_enqueue_dependent.
Qed.

Lemma spec_if_running m : spec inv m (fun _ => inv) -> spec inv (if_running m) (fun _ => inv).
Proof.
  intros Hm. apply spec_then; [by apply spec_gets|]. intros []; [done|by apply spec_ret].
Qed.

Lemma spec_on_task_running m : spec inv (on_task_running m) (fun _ => inv).
Proof.
  apply spec_if_running. apply spec_then; [by apply spec_gets|]. intros [id|]; [|by apply spec_ret].
  apply spec_load_then. intros flow.
  eapply spec_bind; [apply spec_command; intros a f'; apply on_task_running_advances|].
  intros [a f]. cbn [snd]. eapply (spec_bind _ _ (fun _ => inv)).
  { eapply spec_conseq; [apply spec_save_inv|by intros w [? _]|done]. }
  intros _. apply spec_post_message.
Qed.

Lemma spec_on_task_finished m : spec inv (on_task_finished m) (fun _ => inv).
Proof.
  apply spec_if_running. apply spec_then; [by apply spec_gets|]. intros maybe_id.
  apply spec_then; [by apply spec_round_time|]. intros t.
  destruct maybe_id as [id|]; [|by apply spec_ret]. apply spec_load_then. intros flow.
  eapply spec_bind; [apply spec_command; intros a f'; apply on_task_finished_advances|].
  intros [a f]. cbn [snd]. eapply (spec_bind _ _ (fun _ => inv)).
  { eapply spec_conseq; [apply spec_save_inv|by intros w [? _]|done]. }
  intros f'. apply spec_then; [by apply spec_lift|]. intros st.
  apply spec_then; [apply spec_forget|]. intros _. apply spec_then; [apply spec_followup|]. intros _.
  apply spec_then; [destruct (TaskOutcome_is_success _); [apply spec_try_enqueue|by apply spec_ret]|].
  intros _. apply spec_post_message.
Qed.

Lemma spec_consume_task_progress m : spec inv (consume_task_progress m) (fun _ => inv).
Proof. destruct m; [apply spec_on_task_running|apply spec_on_task_finished]. Qed.

(** A flow dropped from the registry is pending under no key. *)
Lemma inv_drop_pending w k :
  inv w ->
  let '(o, p) := drop_pending_flow (w_pending w) k in
  inv (with_pending (fun _ => p) w) /\
  forall id, o = Some id -> forall k', try_get_pending_flow p k' <> Some id.
Proof.
  intros Hi. destruct (drop_pending_sub (w_pending w) k) as [H1 H2].
  pose proof (fun k' => proj2 (drop_then_get (w_pending w) k k')) as Hget.
  pose proof (proj1 (drop_then_get (w_pending w) k k)) as Ho.
  destruct (drop_pending_flow (w_pending w) k) as [o p]. simpl in *. split.
  - apply inv_pending_sub; [done|done|]. intros t id. by rewrite H2.
  - intros id -> k' Hk'. rewrite Hget in Hk'. case_decide as Hd; [done|].
    apply Hd. symmetry in Ho. by eapply (sv_distinct _ Hi).
Qed.

Lemma spec_drop_pending k :
  spec inv (fun w => let '(id, p) := drop_pending_flow (w_pending w) k in
                     (Ok id, with_pending (fun _ => p) w) : res InternalError _ * _)
    (fun o w => inv w /\ forall id, o = Some id ->
       forall k', try_get_pending_flow (w_pending w) k' <> Some id).
Proof.
  apply spec_step; intros w; pose proof (inv_drop_pending w k) as Hd;
    destruct (drop_pending_flow (w_pending w) k) as [o p]; [done|]. intros _ Hi. by apply Hd.
Qed.

Lemma spec_consume_configuration m : spec inv (consume_configuration_updated m) (fun _ => inv).
Proof.
  unfold consume_configuration_updated. destruct (fcu_paused m); apply spec_if_running.
  - apply spec_then; [apply spec_with_configs|]. intros _.
    eapply spec_bind; [apply spec_drop_pending|].
    intros [id|]; [|apply spec_ret; by intros w []].
    apply (spec_bind _ _ (fun _ => inv)); [|intros _; apply spec_abort_flow].
    eapply spec_conseq; [apply spec_cancel_activation| |done]. intros w [Hi Hd]. split; [done|].
    by apply Hd.
  - apply spec_then; [by apply spec_round_time|]. intros t. apply spec_activate_configuration.
Qed.

Lemma spec_drop_dataset_flow d t : spec inv (drop_dataset_flow d t) (fun _ => inv).
Proof.
  unfold drop_dataset_flow.
  eapply spec_bind; [apply (spec_drop_pending (FlowKey_Dataset (mkFlowKeyDataset d t)))|].
  intros [id|]; [|apply spec_ret; by intros w []].
  apply (spec_bind _ _ (fun _ => inv)); [|intros _; by apply spec_ret].
  eapply spec_conseq; [apply spec_cancel_activation| |done]. intros w [Hi Hd]. split; [done|].
  by apply Hd.
Qed.

Lemma spec_drop_dataset_flows d ts : spec inv (drop_dataset_flows d ts) (fun _ => inv).
Proof.
  induction ts as [|t ts IH]; simpl; [by apply spec_ret|].
  apply spec_then; [apply spec_drop_dataset_flow|]. intros ids.
  apply spec_then; [done|]. intros more. by apply spec_ret.
Qed.

Lemma spec_consume_lifecycle m : spec inv (consume_dataset_lifecycle m) (fun _ => inv).
Proof.
  destruct m as [m|m|m]; try (by apply spec_ret). apply spec_if_running.
  apply spec_then; [apply spec_with_configs|]. intros _.
  apply spec_then; [apply spec_drop_dataset_flows|]. intros ids.
  apply spec_for_each. intros id _. apply spec_load_then. intros flow.
  eapply spec_bind; [apply spec_now_in_hand|]. intros t.
  eapply spec_bind; [apply spec_command; intros a f'; apply abort_advances|]. intros [a f]. cbn [snd].
  eapply (spec_bind _ _ (fun _ => inv)); [|intros _; by apply spec_ret].
  eapply spec_conseq; [apply spec_save_inv|by intros w [? _]|done].
Qed.

Lemma spec_run_start t : spec inv (run_start t) (fun _ => inv).
Proof.
  apply spec_then; [apply spec_modify; [done|]; intros w; apply inv_running|]. intros _.
  apply spec_then; [by apply spec_round_time|]. intros t'.
  apply spec_then; [apply spec_initialize|]. intros _. apply spec_post_message.
Qed.

Lemma spec_run_iteration : spec inv run_iteration (fun _ => inv).
Proof.
  apply spec_then; [apply spec_now_inv|]. intros t. apply spec_then; [by apply spec_gets|].
  intros [n|]; [|by apply spec_ret]. case_bool_decide; [|by apply spec_ret].
  apply spec_then; [apply spec_run_timeslot|]. intros _. apply spec_post_message.
Qed.

Lemma spec_trigger_manual t k a c : spec inv (trigger_manual_flow t k a c) (fun _ => inv).
Proof.
  apply spec_then; [by apply spec_round_time|]. intros t'. apply spec_trigger_common.
Qed.

(** [cancel_scheduled_tasks] has its own error type. *)
Lemma cancel_scheduled_tasks_keeps id w :
  service_inv w -> service_inv (cancel_scheduled_tasks id w).2.
Proof.
  intros Hw. unfold cancel_scheduled_tasks.
  destruct (spec_load_flow id w) as [_ Hl]. unfold load_flow in Hl. simpl in Hl.
  destruct (Aggregate_load id (w_store w)) as [flow| |]; [|done..].
  destruct (agg_state flow) as [st|]; [|done].
  destruct (FlowState_status st); [..|done];
    (destruct (spec_abort_impl flow w) as [Ht Ha]; destruct (abort_flow_impl flow w) as [r w'];
     simpl in *; intros Hn;
     assert (Hn0 : not_exhausted w) by (unfold not_exhausted in *; lia);
     specialize (Ha Hn (proj1 (Hl Hn0 (Hw Hn0)))); by destruct r).
Qed.
End Invariant.

(** * Steps of the whole system *)

(** What may happen to the service: calls of its interface, the messages it
    consumes, its main loop, and the executor at work on the task queue.  What
    the environment answers may differ from step to step. *)
Section Steps.
Context {S : Type} `{LawfulFlowEventStore S}.

Inductive service_step (w : World S) : World S -> Prop :=
| step_run_start (Env : FlowEnvironment) t : service_step w (run_start t w).2
| step_run_iteration (Env : FlowEnvironment) : service_step w (run_iteration w).2
| step_trigger_manual (Env : FlowEnvironment) t k a c :
    service_step w (trigger_manual_flow t k a c w).2
| step_cancel_tasks (Env : FlowEnvironment) id : service_step w (cancel_scheduled_tasks id w).2
| step_task_progress (Env : FlowEnvironment) m : service_step w (consume_task_progress m w).2
| step_configuration (Env : FlowEnvironment) m :
    service_step w (consume_configuration_updated m w).2
| step_lifecycle (Env : FlowEnvironment) m : service_step w (consume_dataset_lifecycle m w).2
| step_take t : service_step w (with_tasks (try_take (w_tasks w) t).2 w)
| step_finish task t outcome st :
    task_snapshot (w_tasks w) task ->
    (Z.of_nat (length (tss_events (its_inner (sch_event_store (w_tasks w))))) < 2 ^ 63)%Z ->
    task_at (sch_event_store (w_tasks w)) (agg_query task) (Some st) ->
    ts_status st = TaskStatus_Running ->
    service_step w (with_tasks (process_task_outcome (w_tasks w) task t outcome).2 w).

Inductive service_reachable (w0 : World S) : World S -> Prop :=
| service_reachable_start : service_reachable w0 w0
| service_reachable_step w w' :
    service_reachable w0 w -> service_step w w' -> service_reachable w0 w'.

Lemma executor_keeps w tasks' :
  service_inv w -> (sched_inv (w_tasks w) -> sched_inv tasks') ->
  last_task_id tasks' = last_task_id (w_tasks w) -> service_inv (with_tasks tasks' w).
Proof.
  intros Hw Hs Hl Hn. specialize (Hw Hn). apply inv_with_tasks; [done|apply Hs, Hw|].
  rewrite Hl. apply Hw.
Qed.

Lemma service_step_inv w w' : service_inv w -> service_step w w' -> service_inv w'.
Proof.
  intros Hw [Env t|Env|Env t k a c|Env id|Env m|Env m|Env m|t|task t outcome st Hsn Hr Hst Hrun].
  - by apply (spec_keeps _ _ (spec_run_start t)).
  - by apply (spec_keeps _ _ spec_run_iteration).
  - by apply (spec_keeps _ _ (spec_trigger_manual t k a c)).
  - by apply cancel_scheduled_tasks_keeps.
  - by apply (spec_keeps _ _ (spec_consume_task_progress m)).
  - by apply (spec_keeps _ _ (spec_consume_configuration m)).
  - by apply (spec_keeps _ _ (spec_consume_lifecycle m)).
  - apply executor_keeps; [done| |apply try_take_last].
    intros Hs. eapply sched_step_inv; [exact Hs|constructor].
  - apply executor_keeps; [done| |apply process_task_outcome_last].
    intros Hs. eapply sched_step_inv; [exact Hs|]. by econstructor.
Qed.

Lemma service_reachable_inv w0 w : service_inv w0 -> service_reachable w0 w -> service_inv w.
Proof. intros Hw0 Hr. induction Hr; eauto using service_step_inv. Qed.
End Steps.

(** A fresh service over empty in-memory stores. *)
Definition World_new : World InMemoryFlowEventStore :=
  mkWorld FlowServiceState_default InMemoryFlowEventStore_new TaskSchedulerImpl_new [] 0.

Lemma no_pending_new k : try_get_pending_flow (w_pending World_new) k = None.
Proof. destruct k; apply lookup_empty. Qed.

Lemma inv_new : inv World_new.
Proof.
  split; try done.
  - apply wheel_default_wf.
  - apply flow_store_ok_new.
  - apply sched_inv_new.
  - intros k id. by rewrite no_pending_new.
  - intros k k' id. by rewrite no_pending_new.
  - by intros r ?%elem_of_nil.
Qed.
