(* ===== verification/FlowServiceFacts.v ===== *)
(** What the operations of the flow service achieve: throttling, new flows,
    merged triggers, batching, due flows, finished flows, paused
    configurations. *)

From S2P Require Import Prelude Multiformats Identity Dtos EventSourcing TaskSystem FlowSystem FlowTimeWheel FlowStore Messages FlowService FlowServiceInv.

(** * Throttling *)

Section Throttling.
Context {S : Type} `{FlowEventStore S} {Env : FlowEnvironment}.

Abbreviation M := (action (World S) InternalError).

Definition planned_at (w : World S) (f : FlowID) : option DateTime :=
  get_planned_flow_activation_time (w_wheel w) f.

(** Every plan is one of [w0], or not earlier than [bound]. *)
Definition plans_bounded (w0 : World S) (bound : DateTime) (w : World S) : Prop :=
  forall f t, planned_at w f = Some t -> planned_at w0 f = Some t \/ (bound <= t)%Z.

Implicit Types (w : World S) (bound : DateTime).

(** An action that leaves the wheel alone. *)
Lemma keeps_plans {A} w0 bound (m : M A) :
  (forall w, w_wheel (m w).2 = w_wheel w) -> keeps (plans_bounded w0 bound) m.
Proof. intros Hm w Hw f t. unfold planned_at. rewrite Hm. apply Hw. Qed.

Lemma keeps_enqueue w0 bound id t :
  (bound <= t)%Z -> keeps (plans_bounded w0 bound) (enqueue_flow id t : M unit).
Proof.
  intros Ht w Hw f t'. unfold planned_at, get_planned_flow_activation_time.
  change (w_wheel (enqueue_flow id t w).2) with (activate_at (w_wheel w) t id).
  rewrite activate_times. case_decide as Hd; [subst f|apply Hw].
  specialize (Hw id). unfold planned_at, get_planned_flow_activation_time in Hw.
  destruct (flow_activation_times_by_id (w_wheel w) !! id) as [t0|]; intros [= <-]; [|by right].
  destruct (Z.min_spec t t0) as [[_ ->]|[_ ->]]; [by right|by apply Hw].
Qed.

Lemma keeps_command {A} w0 bound (rc : res FlowProjectionError A * Flow) :
  keeps (plans_bounded w0 bound) (command rc : M _).
Proof. apply keeps_plans. by destruct rc. Qed.

Lemma keeps_save w0 bound flow : keeps (plans_bounded w0 bound) (save_flow flow : M _).
Proof.
  apply keeps_plans. intros w. unfold save_flow. by destruct (Aggregate_save flow (w_store w)) as [[? ?] ?].
Qed.

Lemma keeps_new_flow w0 bound k tr c : keeps (plans_bounded w0 bound) (make_new_flow k tr c : M _).
Proof.
  apply keeps_plans. intros w.
  unfold make_new_flow, mbind, action_bind, modify, mret, action_ret, lift, flow_state. simpl.
  by destruct (fes_new_flow_id (w_store w)) as [id s'].
Qed.

Lemma keeps_ret {A} w0 bound (a : A) : keeps (plans_bounded w0 bound) (mret a : M A).
Proof. by apply keeps_plans. Qed.

Lemma keeps_lift {A} w0 bound (r : res InternalError A) :
  keeps (plans_bounded w0 bound) (lift r : M A).
Proof. by apply keeps_plans. Qed.

Lemma keeps_gets {A} w0 bound (f : World S -> A) : keeps (plans_bounded w0 bound) (gets f : M A).
Proof. by apply keeps_plans. Qed.

Lemma keeps_panic {A} w0 bound : keeps (plans_bounded w0 bound) (panic : M A).
Proof. by apply keeps_plans. Qed.

Lemma keeps_now w0 bound : keeps (plans_bounded w0 bound) (now : M DateTime).
Proof. by apply keeps_plans. Qed.

Create HintDb plans.
#[local] Hint Resolve keeps_bind keeps_enqueue keeps_command keeps_save keeps_new_flow keeps_ret
  keeps_lift keeps_gets keeps_panic keeps_now Z.le_max_l Z.le_max_r Z.le_refl : plans.

Lemma keeps_indicate w0 bound flow a b :
  keeps (plans_bounded w0 bound) (indicate_throttling_activity flow a b : M _).
Proof. unfold indicate_throttling_activity. eauto 8 with plans. Qed.
#[local] Hint Resolve keeps_indicate : plans.

(** Case analysis on what a method branches on. *)
Ltac plan_cases :=
  repeat first
    [ solve [eauto 2 with plans]
    | apply keeps_bind; [|intros ?]
    | match goal with |- keeps _ (if ?b then _ else _) => destruct b end
    | match goal with |- keeps _ (match ?x with _ => _ end) => destruct x end ].

Lemma keeps_evaluate w0 bound t flow rule :
  keeps (plans_bounded w0 bound) (evaluate_flow_transform_rule t flow rule bound : M _).
Proof. unfold evaluate_flow_transform_rule, flow_state, find_planned_flow_activation_time. plan_cases. Qed.
#[local] Hint Resolve keeps_evaluate : plans.

Lemma keeps_trigger_pending w0 bound id tr ctx :
  keeps (plans_bounded w0 bound) (trigger_pending_flow id tr ctx bound : M _).
Proof.
  unfold trigger_pending_flow, flow_state, save_and_return, find_planned_flow_activation_time.
  apply keeps_bind; [by apply keeps_plans|]. intros flow. plan_cases.
Qed.

Lemma keeps_activate_new w0 bound flow t ctx stats :
  keeps (plans_bounded w0 bound) (activate_new_flow flow t ctx stats bound : M _).
Proof. unfold activate_new_flow, flow_state. plan_cases. Qed.
#[local] Hint Resolve keeps_trigger_pending keeps_activate_new : plans.

Definition run_stats (w : World S) (k : FlowKey) : FlowRunStats :=
  match k with
  | FlowKey_Dataset k => fes_get_dataset_flow_run_stats (w_store w) (fkd_dataset_id k) (fkd_flow_type k)
  | FlowKey_System k => fes_get_system_flow_run_stats (w_store w) (fks_flow_type k)
  end.

Lemma boundary_bounds stats t :
  (t <= throttling_boundary stats t)%Z /\
  forall a, frs_last_attempt_time stats = Some a ->
    (a + frc_mandatory_throttling_period fe_run_config <= throttling_boundary stats t)%Z.
Proof.
  unfold throttling_boundary. destruct (frs_last_attempt_time stats) as [a|]; case_bool_decide;
    (split; [lia|]); intros ? [=]; subst; lia.
Qed.

(** Triggering plans nothing before the trigger, or too soon after the last run. *)
Lemma trigger_plans_bounded k tr ctx c w :
  let '(_, w') := trigger_flow_common k tr ctx c w in
  let t0 := FlowTrigger_trigger_time tr in
  forall f t, planned_at w' f = Some t ->
    planned_at w f = Some t \/
    ((t0 <= t)%Z /\ forall a, frs_last_attempt_time (run_stats w k) = Some a ->
       (a + frc_mandatory_throttling_period fe_run_config <= t)%Z).
Proof.
  set (bound := throttling_boundary (run_stats w k) (FlowTrigger_trigger_time tr)).
  assert (Hk : plans_bounded w bound (trigger_flow_common k tr ctx c w).2).
  { unfold trigger_flow_common. erewrite bind_ok by reflexivity.
    assert (Hm : forall stats, stats = run_stats w k -> keeps (plans_bounded w bound)
      (pending ← find_pending_flow k;
       match pending with
       | Some id => trigger_pending_flow id tr ctx (throttling_boundary stats (FlowTrigger_trigger_time tr))
       | None =>
           snapshot ← match c with
             | Some c => mret (Some c)
             | None => gets (fun w => try_get_config_snapshot_by_key (w_configs w) k)
             end;
           flow ← make_new_flow k tr snapshot;
           flow ← activate_new_flow flow (FlowTrigger_trigger_time tr) ctx stats
                    (throttling_boundary stats (FlowTrigger_trigger_time tr));
           save_and_return flow
       end : M _)).
    { intros stats ->. fold bound. unfold save_and_return, flow_state, find_pending_flow. plan_cases. }
    apply Hm; [done|]. intros f t. by left. }
  destruct (trigger_flow_common k tr ctx c w) as [r w'] eqn:Ht. intros t0 f t Hp.
  destruct (Hk f t Hp) as [|Hb]; [by left|]. right.
  destruct (boundary_bounds (run_stats w k) (FlowTrigger_trigger_time tr)) as [H1 H2].
  fold bound in H1, H2. unfold t0.
  split; [lia|]. intros a Ha. specialize (H2 a Ha). lia.
Qed.
End Throttling.

(** * Running the methods *)

(** [st] with another start condition. *)
Definition with_condition (st : FlowState) (c : FlowStartCondition) : FlowState :=
  mkFlowState (fs_flow_id st) (fs_flow_key st) (fs_triggers st) (Some c) (fs_timing st)
    (fs_task_ids st) (fs_outcome st) (fs_config_snapshot st).

(** The flow still waits to be run. *)
Definition startable (st : FlowState) : Prop :=
  fs_outcome st = None /\ ftr_running_since (fs_timing st) = None.

Lemma set_condition_exec (flow : Flow) t st c :
  agg_state flow = Some st -> startable st ->
  exists flow', Flow_set_relevant_start_condition flow t c = (Ok tt, flow') /\
    agg_state flow' = Some (with_condition st c) /\ agg_query flow' = agg_query flow /\
    advances flow flow'.
Proof.
  intros Hst [Ho Hr]. destruct (Flow_set_relevant_start_condition flow t c) as [r f'] eqn:Hc.
  assert (Hok : r = Ok tt /\ agg_state f' = Some (with_condition st c) /\ agg_query f' = agg_query flow).
  { revert Hc. unfold Flow_set_relevant_start_condition, Flow_command. rewrite Hst.
    case_decide as Hd.
    - unfold Aggregate_apply. rewrite Hst. cbn [proj_apply flow_projection FlowState_apply].
      rewrite decide_False by (simpl; naive_solver). rewrite Ho, Hr. intros [= <- <-]. simpl.
      unfold with_condition. by rewrite Ho.
    - intros [= <- <-]. split; [done|]. split; [|done]. rewrite Hst. f_equal. destruct st; simpl in *.
      unfold with_condition. simpl. f_equal. destruct (decide (fs_start_condition = Some c)); [done|].
      by destruct Hd. }
  destruct Hok as (-> & Hs & Hq). exists f'. split_and!; try done. by eapply set_start_condition_advances.
Qed.

Section Execution.
Context {S : Type} `{LawfulFlowEventStore S} {Env : FlowEnvironment}.

Abbreviation M := (action (World S) InternalError).
Implicit Types (w : World S) (flow : Flow) (st : FlowState) (k : FlowKey) (id : FlowID).

Lemma load_exec id st w :
  inv w -> fl_at (w_store w) id (Some st) ->
  exists flow, load_flow id w = (Ok flow, w) /\ in_hand flow w /\ agg_state flow = Some st /\
    agg_query flow = id.
Proof.
  intros Hi Hst. destruct (fl_load _ _ _ Hst) as (flow & Hl & Hsy & Hs & Hq & _). exists flow.
  unfold load_flow. rewrite Hl. split; [done|]. split; [|done].
  destruct (fl_at_state _ _ _ (sv_store _ Hi) Hst) as (Hid & _ & Hiss).
  split; rewrite ?Hq; try done. exists st. split_and!; try done.
  - intros st0 Hst0. pose proof (fl_at_unique _ _ _ _ Hst Hst0) as [= <-]. done.
  - intros k Hk. by apply (sv_pending _ Hi) in Hk as (_ & _ & ->).
Qed.

Lemma save_exec flow w :
  in_hand flow w -> not_exhausted w ->
  exists flow' s', save_flow flow w = (Ok flow', with_store s' w) /\ inv (with_store s' w) /\
    agg_state flow' = agg_state flow /\ fl_at s' (agg_query flow) (agg_state flow) /\
    (forall id o, id <> agg_query flow -> fl_at s' id o <-> fl_at (w_store w) id o).
Proof.
  intros Hf Hn. pose proof (spec_save_flow flow w) as [_ Hsp].
  destruct (fl_save _ _ (sv_store _ (ih_inv _ _ Hf)) (ih_synced _ _ Hf) (ih_issued _ _ Hf))
    as (f' & s' & Hs & _ & Hst & Hq & Hat & Hfr & _).
  assert (Hsave : save_flow flow w = (Ok f', with_store s' w)) by (unfold save_flow; by rewrite Hs).
  rewrite Hsave in Hsp. specialize (Hsp Hn Hf) as [Hi _]. eauto 10.
Qed.

(** Setting a start condition at the current time. *)
Lemma condition_now_exec flow st c w :
  in_hand flow w -> agg_state flow = Some st -> startable st ->
  exists flow', (t ← now; x ← command (Flow_set_relevant_start_condition flow t c); mret x.2 : M Flow) w
      = (Ok flow', tick w) /\
    in_hand flow' (tick w) /\ agg_state flow' = Some (with_condition st c) /\
    agg_query flow' = agg_query flow.
Proof.
  intros Hf Hst Hs. destruct (set_condition_exec flow (fe_now (w_ticks w)) st c Hst Hs)
    as (flow' & Hc & Hst' & Hq & Hadv).
  exists flow'. split; [|split; [|done]].
  - erewrite bind_ok by reflexivity. rewrite Hc. done.
  - eapply (proj1 (in_hand_advances flow flow' _ (in_hand_tick _ _ Hf) Hadv)).
Qed.

(** The flow [make_new_flow] makes. *)
Definition new_state id k (tr : FlowTrigger) (c : option FlowConfigurationSnapshot) : FlowState :=
  mkFlowState id k [tr] None (mkFlowTimingRecords None None None) [] None c.

Lemma new_flow_exec k tr c w :
  inv w -> (Z.of_nat (w_ticks w) + 1 < 2 ^ 63)%Z ->
  exists id flow w', make_new_flow k tr c w = (Ok flow, w') /\
    pending_in_hand flow w' /\ agg_query flow = id /\ agg_state flow = Some (new_state id k tr c) /\
    w_ticks w' = Datatypes.S (w_ticks w) /\ w_wheel w' = w_wheel w /\
    planned_at w id = None /\ fl_at (w_store w) id None /\
    (forall id' o, fl_at (w_store w') id' o <-> fl_at (w_store w) id' o) /\
    w_configs w' = w_configs w /\ w_posted w' = w_posted w /\ w_tasks w' = w_tasks w /\
    w_pending w' = add_pending_flow (w_pending w) k id.
Proof.
  intros Hi Hn. pose proof (spec_make_new_flow k tr c w) as [_ Hsp].
  destruct (fes_new_flow_id (w_store w)) as [id s'] eqn:Hnew.
  set (w' := with_pending (fun p => add_pending_flow p k id) (with_store s' (tick w))).
  set (flow := mkAggregate id (Some (new_state id k tr c))
                 [FlowEvent_Initiated (mkFlowEventInitiated (fe_now (w_ticks w)) id k tr c)] None).
  assert (Hm : make_new_flow k tr c w = (Ok flow, w')).
  { unfold make_new_flow, mbind, action_bind, modify, mret, action_ret, lift, flow_state. simpl.
    by rewrite Hnew. }
  rewrite Hm in Hsp.
  assert (Hn' : not_exhausted w') by (unfold not_exhausted; simpl; lia).
  pose proof (sv_flow_ids _ Hi) as Hu.
  destruct (fl_new_id _ _ _ (sv_store _ Hi) ltac:(lia) Hnew)
    as (_ & _ & _ & Hnone & Hfresh & Hframe & _).
  exists id, flow, w'. split_and!; try done.
  - by apply Hsp.
  - unfold planned_at, get_planned_flow_activation_time.
    destruct (flow_activation_times_by_id (w_wheel w) !! id) as [t|] eqn:Hp; [|done].
    by apply (sv_times _ Hi) in Hp.
  - by apply Hframe.
Qed.

(** Planning a flow that had no plan. *)
Lemma enqueue_exec flow t w :
  pending_in_hand flow w -> planned_at w (agg_query flow) = None ->
  exists w', enqueue_flow (agg_query flow) t w = (Ok tt, w') /\ pending_in_hand flow w' /\
    planned_at w' (agg_query flow) = Some t /\
    w_pending w' = w_pending w /\ w_store w' = w_store w /\ w_ticks w' = w_ticks w /\
    (forall f, f <> agg_query flow -> planned_at w' f = planned_at w f).
Proof.
  intros [Hf Hp] Hn. set (w' := with_wheel (fun wheel => activate_at wheel t (agg_query flow)) w).
  exists w'. split; [done|]. split.
  { split; [|done]. eapply in_hand_world; [exact Hf| |done..]. apply inv_activate; [apply Hf|done]. }
  unfold planned_at, get_planned_flow_activation_time in *.
  change (w_wheel w') with (activate_at (w_wheel w) t (agg_query flow)).
  split_and!; try done.
  - by rewrite activate_times, decide_True, Hn.
  - intros f Hne. by rewrite activate_times, decide_False.
Qed.
(** What a trigger for a key with no pending flow leads to: one new flow, stored,
    pending under its key and planned at [plan]. *)
Record new_flow_made k tr (plan : option DateTime) w st w' : Prop := {
  nf_inv : inv w';
  nf_unused : fl_at (w_store w) (fs_flow_id st) None;
  nf_stored : fl_at (w_store w') (fs_flow_id st) (Some st);
  nf_key : fs_flow_key st = k;
  nf_triggers : fs_triggers st = [tr];
  nf_startable : startable st;
  nf_planned : planned_at w' (fs_flow_id st) = plan;
  nf_pending : forall k', try_get_pending_flow (w_pending w') k' =
    if decide (k = k') then Some (fs_flow_id st) else try_get_pending_flow (w_pending w) k';
  nf_others : forall f, f <> fs_flow_id st ->
    planned_at w' f = planned_at w f /\
    forall o, fl_at (w_store w') f o <-> fl_at (w_store w) f o
}.

(** The end of [trigger_flow_common]: the flow in hand is saved and returned. *)
Lemma save_new_exec k tr plan w w1 flow st :
  in_hand flow w1 -> not_exhausted w1 -> agg_state flow = Some st ->
  fs_flow_id st = agg_query flow ->
  fl_at (w_store w) (fs_flow_id st) None -> fs_flow_key st = k -> fs_triggers st = [tr] ->
  startable st -> planned_at w1 (fs_flow_id st) = plan ->
  w_pending w1 = add_pending_flow (w_pending w) k (fs_flow_id st) ->
  (forall f, f <> fs_flow_id st -> planned_at w1 f = planned_at w f) ->
  (forall f o, fl_at (w_store w1) f o <-> fl_at (w_store w) f o) ->
  exists w', (save_and_return flow : M FlowState) w1 = (Ok st, w') /\
    new_flow_made k tr plan w st w' /\ w_ticks w' = w_ticks w1.
Proof.
  intros Hf Hn Hst Hid Hnone Hk Htr Hs Hplan Hpend Hother Hstore.
  destruct (save_exec flow w1 Hf Hn) as (flow' & s' & Hsave & Hi & Hst' & Hat & Hfr).
  exists (with_store s' w1). rewrite Hst in Hst', Hat. rewrite <- Hid in Hat, Hfr. split; [|split; [|done]].
  - unfold save_and_return. erewrite bind_ok by exact Hsave. unfold flow_state, lift. by rewrite Hst'.
  - split; try done.
    + intros k'. change (w_pending (with_store s' w1)) with (w_pending w1).
      by rewrite Hpend, add_then_get.
    + intros f Hne. split; [by apply Hother|]. intros o. simpl. rewrite Hfr by done. apply Hstore.
Qed.

Lemma startable_new id k tr c : startable (new_state id k tr c).
Proof. done. Qed.

Lemma startable_condition st c : startable st -> startable (with_condition st c).
Proof. done. Qed.

Lemma not_exhausted_tick w : (Z.of_nat (w_ticks w) + 1 < 2 ^ 63)%Z -> not_exhausted (tick w).
Proof. unfold not_exhausted. simpl. lia. Qed.

(** The steps before the branch of [trigger_flow_common] for a new flow. *)
Lemma trigger_common_new k tr ctx c w :
  try_get_pending_flow (w_pending w) k = None ->
  exists c', trigger_flow_common k tr ctx c w =
    (flow ← make_new_flow k tr c';
     flow ← activate_new_flow flow (FlowTrigger_trigger_time tr) ctx (run_stats w k)
              (throttling_boundary (run_stats w k) (FlowTrigger_trigger_time tr));
     save_and_return flow : M FlowState) w.
Proof.
  intros Hp. unfold trigger_flow_common. erewrite bind_ok by reflexivity.
  erewrite bind_ok by reflexivity. rewrite Hp. destruct c as [c|]; eexists; by erewrite bind_ok by reflexivity.
Qed.

(** What activating a flow in hand does: its state changes at most in the start
    condition, and it is planned at [plan]. *)
Record activated flow st w (plan : option DateTime) (flow' : Flow) w' : Prop := {
  av_hand : pending_in_hand flow' w';
  av_query : agg_query flow' = agg_query flow;
  av_state : exists c, agg_state flow' =
    Some (mkFlowState (fs_flow_id st) (fs_flow_key st) (fs_triggers st) c (fs_timing st)
            (fs_task_ids st) (fs_outcome st) (fs_config_snapshot st));
  av_planned : planned_at w' (agg_query flow) = plan;
  av_others : forall f, f <> agg_query flow -> planned_at w' f = planned_at w f;
  av_pending : w_pending w' = w_pending w;
  av_store : w_store w' = w_store w;
  av_ticks : w_ticks w' <= w_ticks w + 2
}.

Lemma activated_same flow st w :
  pending_in_hand flow w -> agg_state flow = Some st ->
  activated flow st w (planned_at w (agg_query flow)) flow w.
Proof. intros Hf Hst. split; try done; [|lia]. exists (fs_start_condition st). rewrite Hst. by destruct st. Qed.

(** Planning the flow, and then maybe giving it a start condition. *)
Lemma activated_enqueue flow st t w (cond : option FlowStartCondition) (m : M Flow) :
  pending_in_hand flow w -> agg_state flow = Some st -> startable st ->
  planned_at w (agg_query flow) = None ->
  match cond with
  | Some c => m = (t ← now; x ← command (Flow_set_relevant_start_condition flow t c); mret x.2)
  | None => m = mret flow
  end ->
  exists flow' w', (_ ← enqueue_flow (agg_query flow) t; m) w = (Ok flow', w') /\
    activated flow st w (Some t) flow' w' /\ w_ticks w' <= Datatypes.S (w_ticks w).
Proof.
  intros Hf Hst Hs Hpl Hm.
  destruct (enqueue_exec flow t w Hf Hpl) as (w1 & Henq & Hf1 & Hpl1 & Hpend & Hstore & Ht & Ho).
  erewrite bind_ok by exact Henq. destruct cond as [c|]; subst m.
  - destruct (condition_now_exec flow st c w1 (proj1 Hf1) Hst Hs) as (flow' & -> & Hf' & Hst' & Hq).
    exists flow', (tick w1). split; [done|]. split; [|simpl; lia]. split; try done.
    + split; [done|]. rewrite Hq. exact (proj2 Hf1).
    + rewrite Hst'. by eexists.
    + simpl. lia.
  - exists flow, w1. split; [done|]. split; [|lia]. split; try done; [|lia].
    exists (fs_start_condition st). rewrite Hst. by destruct st.
Qed.

Lemma activate_unconditional flow st t stats bound w :
  pending_in_hand flow w -> agg_state flow = Some st -> startable st ->
  fs_flow_id st = agg_query flow -> planned_at w (agg_query flow) = None -> (t <= bound)%Z ->
  exists flow' w', activate_new_flow flow t FlowTriggerContext_Unconditional stats bound w = (Ok flow', w') /\
    activated flow st w (Some bound) flow' w'.
Proof.
  intros Hf Hst Hs Hid Hpl Hb. unfold activate_new_flow.
  erewrite bind_ok by (unfold flow_state, lift; rewrite Hst; reflexivity).
  rewrite Hid, Z.max_l by done.
  edestruct (activated_enqueue flow st bound w
    (if bool_decide (t < bound)%Z
     then Some (FlowStartCondition_Throttling (mkFlowStartConditionThrottling
                  (frc_mandatory_throttling_period fe_run_config) bound t))
     else None)) as (flow' & w' & Heq & Hact & _); try done.
  2:{ exists flow', w'. split; [exact Heq|done]. }
  by case_bool_decide.
Qed.

Lemma activate_scheduled flow st t schedule naive stats bound w :
  pending_in_hand flow w -> agg_state flow = Some st -> startable st ->
  fs_flow_id st = agg_query flow -> planned_at w (agg_query flow) = None ->
  Schedule_next_activation_time fe_cron_after schedule t (frs_last_success_time stats) = Ok naive ->
  exists flow' w',
    activate_new_flow flow t (FlowTriggerContext_Scheduled schedule) stats bound w = (Ok flow', w') /\
    activated flow st w (Some (Z.max bound naive)) flow' w'.
Proof.
  intros Hf Hst Hs Hid Hpl Hn. unfold activate_new_flow.
  erewrite bind_ok by (unfold flow_state, lift; rewrite Hst; reflexivity).
  rewrite Hn. erewrite bind_ok by reflexivity. rewrite Hid.
  edestruct (activated_enqueue flow st (Z.max bound naive) w
    (if bool_decide (naive < bound)%Z
     then Some (FlowStartCondition_Throttling (mkFlowStartConditionThrottling
                  (frc_mandatory_throttling_period fe_run_config) bound naive))
     else if bool_decide (t < naive)%Z
     then Some (FlowStartCondition_Schedule (mkFlowStartConditionSchedule naive))
     else None)) as (flow' & w' & Heq & Hact & _); try done.
  2:{ exists flow', w'. split; [exact Heq|done]. }
  case_bool_decide; [done|]. by case_bool_decide.
Qed.

(** A trigger for a key with no pending flow makes one, when its activation
    succeeds. *)
Lemma trigger_new_exec k tr ctx c plan w :
  inv w -> (Z.of_nat (w_ticks w) + 3 < 2 ^ 63)%Z -> try_get_pending_flow (w_pending w) k = None ->
  let t := FlowTrigger_trigger_time tr in
  let stats := run_stats w k in
  (forall flow c' w1, pending_in_hand flow w1 ->
     agg_state flow = Some (new_state (agg_query flow) k tr c') ->
     planned_at w1 (agg_query flow) = None ->
     exists flow' w2, activate_new_flow flow t ctx stats (throttling_boundary stats t) w1 = (Ok flow', w2) /\
       activated flow (new_state (agg_query flow) k tr c') w1 plan flow' w2) ->
  exists st w', trigger_flow_common k tr ctx c w = (Ok st, w') /\
    new_flow_made k tr plan w st w' /\ w_ticks w' <= w_ticks w + 3.
Proof.
  intros Hi Hn Hp t stats Hact.
  destruct (trigger_common_new k tr ctx c w Hp) as [c' ->].
  destruct (new_flow_exec k tr c' w Hi ltac:(lia))
    as (id & flow & w1 & Hnew & Hf & Hq & Hst & Ht1 & Hw1 & Hpl & Hnone & Hstore & _ & _ & _ & Hpend).
  subst id. erewrite bind_ok by exact Hnew.
  assert (Hpl1 : planned_at w1 (agg_query flow) = None) by (unfold planned_at; rewrite Hw1; done).
  destruct (Hact flow c' w1 Hf Hst Hpl1) as (flow' & w2 & Ha & [Hh Hq' [cond Hst'] Hpl2 Ho Hpe Hs' Ht2]).
  erewrite bind_ok by exact Ha.
  set (st := mkFlowState _ _ _ _ _ _ _ _) in Hst'.
  destruct (save_new_exec k tr plan w w2 flow' st) as (w' & Hsave & Hmade & Ht'); try done.
  - apply Hh.
  - unfold not_exhausted. lia.
  - by rewrite Hpe.
  - intros f Hne. rewrite Ho by done. unfold planned_at. by rewrite Hw1.
  - intros f o. rewrite Hs'. apply Hstore.
  - exists st, w'. split; [done|]. split; [done|]. lia.
Qed.

Lemma trigger_unconditional_exec k tr c w :
  inv w -> (Z.of_nat (w_ticks w) + 3 < 2 ^ 63)%Z -> try_get_pending_flow (w_pending w) k = None ->
  exists st w', trigger_flow_common k tr FlowTriggerContext_Unconditional c w = (Ok st, w') /\
    new_flow_made k tr (Some (throttling_boundary (run_stats w k) (FlowTrigger_trigger_time tr))) w st w' /\
    w_ticks w' <= w_ticks w + 3.
Proof.
  intros Hi Hn Hp. apply trigger_new_exec; [done..|]. intros flow c' w1 Hf Hst Hpl.
  apply activate_unconditional; try done. apply boundary_bounds.
Qed.

Lemma trigger_scheduled_exec k tr schedule naive c w :
  inv w -> (Z.of_nat (w_ticks w) + 3 < 2 ^ 63)%Z -> try_get_pending_flow (w_pending w) k = None ->
  Schedule_next_activation_time fe_cron_after schedule (FlowTrigger_trigger_time tr)
    (frs_last_success_time (run_stats w k)) = Ok naive ->
  exists st w', trigger_flow_common k tr (FlowTriggerContext_Scheduled schedule) c w = (Ok st, w') /\
    new_flow_made k tr
      (Some (Z.max (throttling_boundary (run_stats w k) (FlowTrigger_trigger_time tr)) naive)) w st w' /\
    w_ticks w' <= w_ticks w + 3.
Proof.
  intros Hi Hn Hp Hs. apply trigger_new_exec; [done..|]. intros flow c' w1 Hf Hst Hpl.
  by apply activate_scheduled.
Qed.

(** When a flow that waits for input starts: not yet, when nothing came; at
    once, when enough did, the deadline has passed or an input was compacted;
    otherwise at the deadline.  Throttling may shift the start. *)
Definition batching_plan (rule : TransformRule) (acc : Accumulated) (first t bound : DateTime)
    : option DateTime :=
  let deadline := (first + tr_max_batching_interval rule)%Z in
  let something := (0 < acc_records_count acc)%Z \/ acc_watermark_modified acc = true in
  if decide (acc_is_compacted acc = true) then Some (Z.max t bound)
  else if decide something then
    if decide (tr_min_records_to_await rule <= acc_records_count acc \/ deadline <= t)%Z
    then Some (Z.max t bound) else Some (Z.max deadline bound)
  else None.

(** The start condition is set first, and the flow then planned. *)
Lemma activated_then flow st w flow1 w1 c plan flow2 w2 :
  in_hand flow1 w1 -> agg_state flow1 = Some (with_condition st c) -> agg_query flow1 = agg_query flow ->
  w_state w1 = w_state w -> w_store w1 = w_store w -> w_ticks w1 = Datatypes.S (w_ticks w) ->
  activated flow1 (with_condition st c) w1 plan flow2 w2 -> w_ticks w2 <= Datatypes.S (w_ticks w1) ->
  activated flow st w plan flow2 w2.
Proof.
  intros Hf1 Hst1 Hq1 Hs1 Hst Ht1 [A1 A2 [c' A3] A4 A5 A6 A7 A8] Ht2.
  split; try done; rewrite <- ?Hq1; try done.
  - by exists c'.
  - intros f Hne. rewrite A5 by done. unfold planned_at, w_wheel. by rewrite Hs1.
  - rewrite A6. unfold w_pending. by rewrite Hs1.
  - congruence.
  - lia.
Qed.

(** The conditions as the code computes them. *)
Definition accumulated_something (acc : Accumulated) : bool :=
  bool_decide (0 < acc_records_count acc)%Z || acc_watermark_modified acc.

Definition batching_over (rule : TransformRule) (acc : Accumulated) (first t : DateTime) : bool :=
  accumulated_something acc &&
  (bool_decide (tr_min_records_to_await rule <= acc_records_count acc)%Z ||
   bool_decide (first + tr_max_batching_interval rule <= t)%Z) || acc_is_compacted acc.

Definition batching_finish (rule : TransformRule) (acc : Accumulated) (first t : DateTime) : DateTime :=
  if batching_over rule acc first t then t else (first + tr_max_batching_interval rule)%Z.

Lemma batching_plan_eq rule acc first t bound :
  batching_plan rule acc first t bound =
  if accumulated_something acc || acc_is_compacted acc
  then Some (Z.max (batching_finish rule acc first t) bound) else None.
Proof.
  unfold batching_plan, batching_finish, batching_over, accumulated_something.
  destruct (acc_is_compacted acc).
  { by rewrite !orb_true_r, decide_True. }
  rewrite !orb_false_r, decide_False by done.
  destruct (acc_watermark_modified acc); rewrite ?orb_true_r, ?orb_false_r;
    repeat case_bool_decide; repeat case_decide; simpl in *; try done; exfalso; naive_solver.
Qed.

(** Planning the flow at the end of batching. *)
Lemma finish_batching_exec flow st t rule bound acc first w :
  pending_in_hand flow w -> agg_state flow = Some st -> startable st ->
  planned_at w (agg_query flow) = None ->
  let fin := batching_finish rule acc first t in
  exists flow' w', (_ ← enqueue_flow (agg_query flow) (Z.max fin bound);
      if batching_over rule acc first t && bool_decide (fin < bound)%Z
      then indicate_throttling_activity flow bound fin else mret flow : M Flow) w = (Ok flow', w') /\
    activated flow st w (Some (Z.max fin bound)) flow' w' /\ w_ticks w' <= Datatypes.S (w_ticks w).
Proof.
  intros Hf Hst Hs Hpl fin.
  apply (activated_enqueue flow st (Z.max fin bound) w
    (if batching_over rule acc first t && bool_decide (fin < bound)%Z
     then Some (FlowStartCondition_Throttling (mkFlowStartConditionThrottling
                  (frc_mandatory_throttling_period fe_run_config) bound fin))
     else None)); try done.
  by destruct (batching_over rule acc first t && bool_decide (fin < bound)%Z).
Qed.

Lemma evaluate_exec flow st t rule bound acc primary w :
  pending_in_hand flow w -> agg_state flow = Some st -> startable st ->
  fs_flow_id st = agg_query flow -> planned_at w (agg_query flow) = None ->
  may_batch (fs_flow_key st) = true -> is_batching (fs_start_condition st) = false ->
  scan_triggers (mkAccumulated 0 false false) (fs_triggers st) = Ok acc ->
  head (fs_triggers st) = Some primary ->
  exists flow' w', evaluate_flow_transform_rule t flow rule bound w = (Ok flow', w') /\
    activated flow st w (batching_plan rule acc (FlowTrigger_trigger_time primary) t bound) flow' w'.
Proof.
  intros Hf Hst Hs Hid Hpl Hb Hnb Hscan Hhead. unfold evaluate_flow_transform_rule.
  erewrite bind_ok by (unfold flow_state, lift; rewrite Hst; reflexivity). rewrite Hb, Hscan.
  erewrite bind_ok by reflexivity. unfold FlowState_primary_trigger. rewrite Hhead.
  erewrite bind_ok by reflexivity. rewrite Hnb. set (first := FlowTrigger_trigger_time primary).
  set (cond := FlowStartCondition_Batching _).
  destruct (condition_now_exec flow st cond w (proj1 Hf) Hst Hs) as (flow1 & Hc & Hf1 & Hst1 & Hq1).
  erewrite bind_ok by exact Hc. set (w1 := tick w). rewrite batching_plan_eq.
  assert (Hpf1 : pending_in_hand flow1 w1) by (split; [done|rewrite Hq1; apply Hf]).
  assert (Hpl1 : planned_at w1 (agg_query flow1) = None) by (rewrite Hq1; exact Hpl).
  pose proof (activated_then flow st w flow1 w1 cond) as Hthen.
  change (bool_decide (0 < acc_records_count acc)%Z || acc_watermark_modified acc)
    with (accumulated_something acc).
  destruct (accumulated_something acc || acc_is_compacted acc).
  - erewrite bind_ok by reflexivity.
    change (get_planned_flow_activation_time _ _) with (planned_at w1 (fs_flow_id st)).
    rewrite Hid, <- Hq1, Hpl1.
    destruct (finish_batching_exec flow1 (with_condition st cond) t rule bound acc first w1 Hpf1 Hst1
                Hs Hpl1) as (flow' & w' & Heq & Hact & Ht).
    exists flow', w'. split; [exact Heq|]. by eapply Hthen.
  - exists flow1, w1. split; [done|]. rewrite <- Hpl1. eapply Hthen; try done; [|lia].
    by apply activated_same.
Qed.

(** A trigger by an input for a key with no pending flow. *)
Lemma trigger_batching_exec k tr rule acc c w :
  inv w -> (Z.of_nat (w_ticks w) + 3 < 2 ^ 63)%Z -> try_get_pending_flow (w_pending w) k = None ->
  may_batch k = true -> scan_triggers (mkAccumulated 0 false false) [tr] = Ok acc ->
  let t := FlowTrigger_trigger_time tr in
  exists st w', trigger_flow_common k tr (FlowTriggerContext_Batching rule) c w = (Ok st, w') /\
    new_flow_made k tr (batching_plan rule acc t t (throttling_boundary (run_stats w k) t)) w st w' /\
    w_ticks w' <= w_ticks w + 3.
Proof.
  intros Hi Hn Hp Hb Hscan t. apply trigger_new_exec; [done..|]. intros flow c' w1 Hf Hst Hpl.
  unfold activate_new_flow. erewrite bind_ok by (unfold flow_state, lift; rewrite Hst; reflexivity).
  by eapply evaluate_exec.
Qed.

(** ** Due flows *)

(** Flow [f] waits for the executor with task [tid], which is queued to carry
    out [plan], and the service will recognise its messages. *)
Definition handed_over (f : FlowID) (plan : LogicalPlan) (tid : TaskID) w : Prop :=
  exists st task, fl_at (w_store w) f (Some st) /\ tid ∈ fs_task_ids st /\
    fs_start_condition st = Some (FlowStartCondition_Executor (mkFlowStartConditionExecutor tid)) /\
    try_get_flow_id_by_task (w_pending w) tid = Some f /\
    tid ∈ sch_task_queue (w_tasks w) /\
    task_at (sch_event_store (w_tasks w)) tid (Some task) /\ ts_logical_plan task = plan.

(** The flow can be scheduled. *)
Definition ready (f : FlowID) (plan : LogicalPlan) w : Prop :=
  exists st, fl_at (w_store w) f (Some st) /\ startable st /\
    make_task_logical_plan (fs_flow_key st) (fs_config_snapshot st) = Ok plan.

Lemma on_scheduled_exec flow t st tid :
  agg_state flow = Some st -> fs_outcome st = None ->
  exists flow' st', Flow_on_task_scheduled flow t tid = (Ok tt, flow') /\ agg_state flow' = Some st' /\
    agg_query flow' = agg_query flow /\ fs_start_condition st' = fs_start_condition st /\
    tid ∈ fs_task_ids st' /\ fs_flow_id st' = fs_flow_id st.
Proof.
  intros Hst Ho. unfold Flow_on_task_scheduled, Flow_command, Aggregate_apply. rewrite Hst.
  cbn [proj_apply flow_projection FlowState_apply].
  rewrite decide_False by (simpl; naive_solver). rewrite Ho. eexists _, _. split; [done|].
  simpl. split_and!; try done. set_solver.
Qed.

Lemma schedule_exec flow st t plan w :
  in_hand flow w -> not_exhausted (tick w) -> agg_state flow = Some st -> startable st ->
  make_task_logical_plan (fs_flow_key st) (fs_config_snapshot st) = Ok plan ->
  exists tid w', schedule_flow_task flow t w = (Ok tid, w') /\
    handed_over (agg_query flow) plan tid w'.
Proof.
  intros Hf Hn Hst Hs Hplan. unfold schedule_flow_task.
  erewrite bind_ok by (unfold flow_state, lift; rewrite Hst; reflexivity). rewrite Hplan.
  erewrite bind_ok by reflexivity.
  destruct (create_flow_task_eq plan w (ih_inv _ _ Hf) Hn)
    as (task & tasks' & Hc & Hi & _ & Htask & Htplan & Hqueue & _).
  erewrite bind_ok by exact Hc. set (w1 := with_tasks tasks' (tick w)).
  assert (Hf1 : in_hand flow w1) by (by eapply in_hand_world).
  set (tid := ts_task_id task).
  destruct (set_condition_exec flow t st (FlowStartCondition_Executor (mkFlowStartConditionExecutor tid))
              Hst Hs) as (flow1 & Hc1 & Hst1 & Hq1 & Hadv1).
  rewrite Hc1. erewrite bind_ok by reflexivity. cbn [snd].
  destruct (on_scheduled_exec flow1 t _ tid Hst1 (proj1 Hs))
    as (flow2 & st2 & Hc2 & Hst2 & Hq2 & Hcond & Hin & Hid2).
  rewrite Hc2. erewrite bind_ok by reflexivity. cbn [snd].
  assert (Hf2 : in_hand flow2 w1).
  { eapply in_hand_advances; [|by eapply on_task_scheduled_advances].
    by eapply in_hand_advances. }
  destruct (save_exec flow2 w1 Hf2 Hn) as (flow3 & s' & Hsave & _ & Hst3 & Hat & _).
  erewrite bind_ok by exact Hsave. rewrite Hst2 in Hst3, Hat.
  erewrite bind_ok by (unfold flow_state, lift; rewrite Hst3; reflexivity).
  erewrite bind_ok by reflexivity. eexists tid, _. split; [reflexivity|].
  destruct (ih_state _ _ Hf2) as (st2' & Hst2' & Hid & _). rewrite Hst2 in Hst2'.
  injection Hst2' as <-. exists st2, task. rewrite Hq2, Hq1 in Hat, Hid. simpl in *.
  split_and!; try done.
  - unfold try_get_flow_id_by_task. simpl. by rewrite Hid, lookup_insert_eq.
  - rewrite Hqueue. set_solver.
Qed.

(** Scheduling one flow does not disturb another. *)
Record undisturbed (f : FlowID) w w' : Prop := {
  un_flow : forall o, fl_at (w_store w') f o <-> fl_at (w_store w) f o;
  un_tasks : forall id ts, task_at (sch_event_store (w_tasks w)) id (Some ts) ->
    task_at (sch_event_store (w_tasks w')) id (Some ts);
  un_queue : forall id, id ∈ sch_task_queue (w_tasks w) -> id ∈ sch_task_queue (w_tasks w');
  un_tracked : forall id ts, task_at (sch_event_store (w_tasks w)) id (Some ts) ->
    try_get_flow_id_by_task (w_pending w') id = try_get_flow_id_by_task (w_pending w) id
}.

Lemma undisturbed_refl f w : undisturbed f w w.
Proof. by split. Qed.

Lemma undisturbed_trans f w w1 w2 : undisturbed f w w1 -> undisturbed f w1 w2 -> undisturbed f w w2.
Proof.
  intros [A1 A2 A3 A4] [B1 B2 B3 B4]. split.
  - intros o. rewrite B1. apply A1.
  - intros id ts Hts. by apply B2, A2.
  - intros id Hid. by apply B3, A3.
  - intros id ts Hts. rewrite (B4 id ts) by auto. by eapply A4.
Qed.

Lemma undisturbed_handed f plan tid w w' :
  undisturbed f w w' -> handed_over f plan tid w -> handed_over f plan tid w'.
Proof.
  intros [U1 U2 U3 U4] (st & task & H1 & H2 & H3 & H4 & H5 & H6 & H7). exists st, task.
  split_and!; try done; [by apply U1|by erewrite U4|by apply U3|by apply U2].
Qed.

Lemma undisturbed_ready f plan w w' : undisturbed f w w' -> ready f plan w -> ready f plan w'.
Proof. intros [U1 _ _ _] (st & Hst & Hrest). exists st. split; [by apply U1|done]. Qed.
(** The commands of [schedule_flow_task] do not panic. *)
Lemma command_no_panic flow st e :
  agg_state flow = Some st -> FlowEvent_flow_id e = fs_flow_id st ->
  (Aggregate_apply flow e).1 <> Panic.
Proof.
  intros Hst He. unfold Aggregate_apply. rewrite Hst. cbn [proj_apply flow_projection FlowState_apply].
  rewrite decide_False by congruence. destruct e; repeat case_match; simplify_eq/=; done.
Qed.

Lemma set_condition_no_panic flow st t c :
  agg_state flow = Some st -> (Flow_set_relevant_start_condition flow t c).1 <> Panic.
Proof.
  intros Hst. unfold Flow_set_relevant_start_condition, Flow_command. rewrite Hst. case_decide; [|done].
  by eapply command_no_panic.
Qed.

Lemma on_scheduled_no_panic flow st t id :
  agg_state flow = Some st -> (Flow_on_task_scheduled flow t id).1 <> Panic.
Proof.
  intros Hst. unfold Flow_on_task_scheduled, Flow_command. rewrite Hst. by eapply command_no_panic.
Qed.

Lemma undisturbed_create f w task tasks' :
  task_at (sch_event_store (w_tasks w)) (ts_task_id task) None ->
  sch_task_queue tasks' = sch_task_queue (w_tasks w) ++ [ts_task_id task] ->
  (forall id o, id <> ts_task_id task ->
     task_at (sch_event_store tasks') id o <-> task_at (sch_event_store (w_tasks w)) id o) ->
  undisturbed f w (with_tasks tasks' (tick w)).
Proof.
  intros Hnone Hq Hfr. split; try done; simpl.
  - intros id ts Hts. apply Hfr; [|done]. intros ->. by pose proof (task_at_unique _ _ _ _ Hnone Hts).
  - intros id Hid. rewrite Hq. set_solver.
Qed.

Lemma schedule_undisturbed f flow t w :
  in_hand flow w -> not_exhausted (tick w) -> f <> agg_query flow ->
  let '(r, w') := schedule_flow_task flow t w in
  r <> Panic /\ undisturbed f w w' /\ w_ticks w' <= Datatypes.S (w_ticks w).
Proof.
  intros Hf Hn Hne. unfold schedule_flow_task.
  destruct (ih_state _ _ Hf) as (st & Hst & Hid & _).
  erewrite bind_ok by (unfold flow_state, lift; rewrite Hst; reflexivity).
  destruct (make_task_logical_plan (fs_flow_key st) (fs_config_snapshot st)) as [plan| |] eqn:Hplan;
    [|split_and!; [done|apply undisturbed_refl|simpl; lia]|
      unfold make_task_logical_plan in Hplan; repeat case_match; done].
  erewrite bind_ok by reflexivity.
  destruct (create_flow_task_eq plan w (ih_inv _ _ Hf) Hn)
    as (task & tasks' & Hc & Hi & Hnone & Htask & _ & Hqueue & Hfr).
  erewrite bind_ok by exact Hc. set (w1 := with_tasks tasks' (tick w)).
  assert (Hu1 : undisturbed f w w1) by (by eapply undisturbed_create).
  set (c := FlowStartCondition_Executor _).
  assert (Hf1 : in_hand flow w1) by (by eapply in_hand_world).
  pose proof (set_condition_no_panic flow st t c Hst) as Hp1.
  destruct (Flow_set_relevant_start_condition flow t c) as [[[]| |] flow1] eqn:Hc1;
    [|by split_and!|done].
  erewrite bind_ok by reflexivity. cbn [snd].
  destruct (in_hand_advances flow flow1 w1 Hf1) as [Hf1' Hq1]; [by eapply set_start_condition_advances|].
  destruct (ih_state _ _ Hf1') as (st1 & Hst1 & _).
  pose proof (on_scheduled_no_panic flow1 st1 t (ts_task_id task) Hst1) as Hp2.
  destruct (Flow_on_task_scheduled flow1 t (ts_task_id task)) as [[[]| |] flow2] eqn:Hc2;
    [|by split_and!|done].
  erewrite bind_ok by reflexivity. cbn [snd].
  destruct (in_hand_advances flow1 flow2 w1 Hf1') as [Hf2 Hq2]; [by eapply on_task_scheduled_advances|].
  destruct (save_exec flow2 w1 Hf2 Hn) as (flow3 & s' & Hsave & _ & Hst3 & _ & Hframe).
  erewrite bind_ok by exact Hsave. destruct (ih_state _ _ Hf2) as (st2 & Hst2 & _). rewrite Hst2 in Hst3.
  erewrite bind_ok by (unfold flow_state, lift; rewrite Hst3; reflexivity).
  erewrite bind_ok by reflexivity. simpl. split_and!; [done| |done].
  destruct Hu1 as [U1 U2 U3 U4]. split; try done; simpl.
  - intros o. rewrite Hframe by congruence. apply U1.
  - intros id ts Hts. unfold try_get_flow_id_by_task. simpl. rewrite lookup_insert_ne; [done|].
    intros Heq. rewrite Heq in Hnone. by pose proof (task_at_unique _ _ _ _ Hnone Hts).
Qed.

(** Loading and scheduling: the body of one future. *)
Definition schedule_one (t : DateTime) (id : FlowID) : M TaskID :=
  flow ← load_flow id; schedule_flow_task flow t.

Lemma schedule_one_undisturbed f id t w :
  inv w -> not_exhausted (tick w) -> f <> id ->
  let '(r, w') := schedule_one t id w in
  r <> Panic /\ undisturbed f w w' /\ w_ticks w' <= Datatypes.S (w_ticks w).
Proof.
  intros Hi Hn Hne. unfold schedule_one.
  destruct (fl_at_total (w_store w) id (sv_store _ Hi)) as [[st|] Ho].
  - destruct (load_exec id st w Hi Ho) as (flow & Hl & Hf & _ & Hq).
    erewrite bind_ok by exact Hl. apply schedule_undisturbed; congruence.
  - erewrite bind_err by (unfold load_flow; rewrite (fl_load_missing _ _ Ho); reflexivity).
    split_and!; [done|apply undisturbed_refl|lia].
Qed.

Lemma schedule_one_exec f t plan w :
  inv w -> not_exhausted (tick w) -> ready f plan w ->
  exists tid w', schedule_one t f w = (Ok tid, w') /\ handed_over f plan tid w' /\ inv w' /\
    w_ticks w' <= Datatypes.S (w_ticks w).
Proof.
  intros Hi Hn (st & Hst & Hs & Hplan).
  destruct (load_exec f st w Hi Hst) as (flow & Hl & Hf & Hag & Hq).
  destruct (schedule_exec flow st t plan w Hf Hn Hag Hs Hplan) as (tid & w' & Hsch & Hh).
  exists tid, w'. rewrite Hq in Hh. unfold schedule_one. erewrite bind_ok by exact Hl.
  split; [done|]. split; [done|].
  pose proof (schedule_undisturbed (agg_query flow + 1) flow t w Hf Hn ltac:(lia)) as Hu.
  pose proof (spec_schedule_flow_task flow t w) as [_ Hsp]. rewrite Hsch in Hu, Hsp.
  destruct Hu as (_ & _ & Ht). split; [|done]. apply Hsp; [|done].
  unfold not_exhausted in *. simpl in *. lia.
Qed.

(** Every future runs, and the flow of each gets its task. *)
Lemma schedule_all_exec t ids w :
  inv w -> (Z.of_nat (w_ticks w + length ids) < 2 ^ 63)%Z -> NoDup ids ->
  let w' := (schedule_all t ids w).2 in
  inv w' /\ (forall f, f ∉ ids -> undisturbed f w w') /\
  forall f plan, f ∈ ids -> ready f plan w -> exists tid, handed_over f plan tid w'.
Proof.
  revert w; induction ids as [|id ids IH]; intros w Hi Hn Hnd.
  { split_and!; [done|intros; apply undisturbed_refl|set_solver]. }
  apply NoDup_cons in Hnd as [Hni Hnd]. simpl in Hn. cbn [schedule_all].
  change (flow ← load_flow id; schedule_flow_task flow t : M _) with (schedule_one t id).
  assert (Hn1 : not_exhausted (tick w)) by (unfold not_exhausted; simpl; lia).
  pose proof (fun f => schedule_one_undisturbed f id t w Hi Hn1) as Hun.
  assert (Hsp : spec inv (schedule_one t id) (fun _ => inv))
    by (apply spec_load_then; intros; apply spec_schedule_flow_task).
  specialize (Hsp w) as [_ Hsp]. pose proof (fun plan => schedule_one_exec id t plan w Hi Hn1) as Hex.
  destruct (schedule_one t id w) as [r w1] eqn:Hone. simpl in Hsp.
  destruct (Hun (id + 1)%Z ltac:(lia)) as (Hnp & _ & Ht).
  assert (Hi1 : inv w1).
  { specialize (Hsp ltac:(unfold not_exhausted in *; simpl in *; lia) Hi). by destruct r. }
  specialize (IH w1 Hi1 ltac:(lia) Hnd). destruct r as [tid| |]; [| |done].
  all: destruct IH as (Hi2 & Hun2 & Hex2); split; [done|]; split.
  1,3: intros f [Hne Hf]%not_elem_of_cons; eapply undisturbed_trans; [by apply Hun|by apply Hun2].
  all: intros f plan [->|Hf]%elem_of_cons Hr.
  1: { destruct (Hex plan Hr) as (tid' & w1' & Heq & Hh & _). injection Heq as <- <-. exists tid.
       eapply undisturbed_handed; [|exact Hh]. by apply Hun2. }
  2: { destruct (Hex plan Hr) as (tid' & w1' & Heq & _). discriminate Heq. }
  all: apply Hex2; [done|]; eapply undisturbed_ready; [apply Hun; by intros ->|done].
Qed.

Lemma sorted_nodup (l : list FlowID) : Sorted.StronglySorted Z.lt l -> NoDup l.
Proof.
  induction 1 as [|x l _ IH Hx]; constructor; [|done]. rewrite Forall_forall in Hx.
  intros Hin. specialize (Hx x Hin). lia.
Qed.

(** One turn of the main loop, when the nearest moment has come. *)
Lemma run_iteration_exec n w f plan :
  inv w -> nearest_activation_moment (w_wheel w) = Some n -> (n <= fe_now (w_ticks w))%Z ->
  (Z.of_nat (w_ticks w + 1 + length (take_nearest_planned_flows (w_wheel w)).1) < 2 ^ 63)%Z ->
  wheel_waiting (w_wheel w) !! f = Some n -> ready f plan w ->
  exists tid, handed_over f plan tid (run_iteration w).2.
Proof.
  intros Hi Hnear Hnow Hn Hwait Hr. unfold run_iteration. erewrite bind_ok by reflexivity.
  set (w1 := tick w). erewrite bind_ok by reflexivity. change (w_wheel _) with (w_wheel w).
  rewrite Hnear, bool_decide_eq_true_2 by done.
  pose proof (take_ok (w_wheel w) (sv_wheel _ Hi)) as Hk. pose proof (inv_take w1 (inv_tick _ Hi)) as Hi2.
  change (w_wheel w1) with (w_wheel w) in Hi2.
  destruct (take_nearest_planned_flows (w_wheel w)) as [ids wheel'] eqn:Htake.
  destruct Hk as (_ & Hsort & Hin & _). cbn [fst snd] in *.
  set (w2 := with_wheel (fun _ => wheel') w1) in *.
  destruct (schedule_all_exec n ids w2 Hi2) as (_ & _ & Hex).
  { simpl. lia. }
  { by apply sorted_nodup. }
  destruct (Hex f plan) as [tid Htid]; [apply Hin; eauto|done|].
  exists tid. unfold mbind at 1, action_bind at 1.
  assert (Hslot : run_current_timeslot n w1 = schedule_all n ids w2).
  { unfold run_current_timeslot, mbind, action_bind. change (w_wheel w1) with (w_wheel w).
    by rewrite Htake. }
  change (mkWorld (w_state w) (w_store w) (w_tasks w) (w_posted w) (Datatypes.S (w_ticks w))) with w1.
  rewrite Hslot. destruct (schedule_all n ids w2) as [[[]| |] w3]; simpl in *; [|done..].
  unfold post_message. destruct (fe_post_message _); [|done..].
  destruct Htid as (st & task & Hrest). by exists st, task.
Qed.
End Execution.
