(* ===== verification/FlowServiceEnds.v ===== *)
(** How flows end: cancelled by a user, aborted when their configuration is
    paused, finished by the executor; and what the registries say afterwards. *)

From S2P Require Import Prelude Multiformats Identity Dtos EventSourcing TaskSystem FlowSystem FlowTimeWheel FlowStore Messages FlowService FlowServiceInv FlowServiceFacts.

Section Ends.
Context {S : Type} `{LawfulFlowEventStore S} {Env : FlowEnvironment}.

Abbreviation M := (action (World S) InternalError).
Implicit Types (w : World S) (flow : Flow) (st : FlowState) (k : FlowKey) (id : FlowID).

(** * Cancellation by a user *)

(** Cancelling tasks changes only the scheduler. *)
Lemma cancel_tasks_frame ids w :
  let w' := (for_each cancel_flow_task ids w).2 in
  w_state w' = w_state w /\ w_store w' = w_store w /\ w_ticks w <= w_ticks w'.
Proof.
  set (P := fun w' : World S =>
    w_state w' = w_state w /\ w_store w' = w_store w /\ w_ticks w <= w_ticks w').
  change (P (for_each cancel_flow_task ids w).2).
  assert (Hk : keeps P (for_each cancel_flow_task ids)); [|apply Hk; unfold P; split_and!; done || lia].
  apply keeps_for_each. intros id _ w1 (H1 & H2 & H3).
  unfold cancel_flow_task, mbind, action_bind, now. simpl.
  destruct (cancel_task _ _ _) as [r tasks']. unfold P. simpl. split_and!; try done. lia.
Qed.

Lemma abort_state flow t flow' st' :
  Flow_abort flow t = (Ok tt, flow') -> agg_state flow' = Some st' -> is_Some (fs_outcome st').
Proof.
  unfold Flow_abort, Flow_command. destruct (agg_state flow) as [st|] eqn:Hst; [|done].
  assert (Happ : forall e, e = FlowEvent_Aborted (mkFlowEventAborted t (fs_flow_id st)) ->
            Aggregate_apply flow e = (Ok tt, flow') -> agg_state flow' = Some st' ->
            is_Some (fs_outcome st')).
  { intros e -> Ha Hst'. apply aggregate_apply_state in Ha as (st1 & Ha & Hst1 & _).
    rewrite Hst' in Hst1. injection Hst1 as <-. rewrite Hst in Ha. simpl in Ha.
    rewrite decide_False in Ha by (simpl; naive_solver).
    destruct (fs_outcome st) as [[]|] eqn:Ho; simplify_eq; rewrite ?Ho; by eexists. }
  destruct (fs_outcome st) as [[]|] eqn:Ho; try (by apply Happ).
  intros [= <-]. rewrite Hst. intros [= <-]. rewrite Ho. by eexists.
Qed.

(** An aborted flow is stored with an outcome.  The registry of pending flows and
    the time wheel are as before. *)
Lemma abort_exec flow w flow' w' :
  in_hand flow w -> not_exhausted w' -> abort_flow_impl flow w = (Ok flow', w') ->
  exists st', agg_state flow' = Some st' /\ is_Some (fs_outcome st') /\
    fl_at (w_store w') (agg_query flow) (Some st') /\
    (forall k, try_get_pending_flow (w_pending w') k = try_get_pending_flow (w_pending w) k) /\
    w_wheel w' = w_wheel w.
Proof.
  intros Hf Hn Ha. unfold abort_flow_impl in Ha.
  apply bind_ok_inv in Ha as (t & w1 & Hnow & Ha). unfold now in Hnow. injection Hnow as <- <-.
  fold (tick w) in Ha.
  apply bind_ok_inv in Ha as ([[] f1] & w1 & Hc & Ha). cbn [snd] in Ha.
  assert (Hw1 : w1 = tick w /\ Flow_abort flow (fe_now (w_ticks w)) = (Ok tt, f1)).
  { unfold command in Hc. destruct (Flow_abort flow (fe_now (w_ticks w))) as [[[]| |] f2];
      unfold lift in Hc; by simplify_eq/=. }
  destruct Hw1 as [-> Hab]. apply bind_ok_inv in Ha as (f2 & w2 & Hs & Ha).
  apply bind_ok_inv in Ha as (st & w3 & Hst & Ha).
  assert (Hw3 : w3 = w2 /\ agg_state f2 = Some st).
  { unfold flow_state, lift in Hst. destruct (agg_state f2); simpl in Hst; by simplify_eq. }
  destruct Hw3 as [-> Hst2]. apply bind_ok_inv in Ha as ([] & w3 & Hmod & Ha).
  unfold modify in Hmod. injection Hmod as <-.
  apply bind_ok_inv in Ha as ([] & w4 & Hcan & Ha).
  unfold mret, action_ret in Ha. injection Ha as <- <-.
  pose proof (cancel_tasks_frame (fs_task_ids st)
    (with_pending (fun p => foldl untrack_flow_by_task p (fs_task_ids st)) w2)) as Hfr.
  rewrite Hcan in Hfr. destruct Hfr as (Hstate & Hstore & Hticks). simpl in Hstate, Hstore, Hticks.
  assert (Hf1 : in_hand f1 (tick w) /\ agg_query f1 = agg_query flow).
  { apply in_hand_advances; [by apply in_hand_tick|]. by eapply abort_advances. }
  destruct Hf1 as [Hf1 Hq1]. destruct (ih_state _ _ Hf1) as (st1 & Hst1 & _).
  assert (Hnt : not_exhausted (tick w)).
  { unfold not_exhausted in *. unfold save_flow in Hs.
    destruct (Aggregate_save f1 (w_store (tick w))) as [[r f3] s3]. injection Hs as _ <-.
    simpl in *. lia. }
  destruct (save_exec f1 (tick w) Hf1 Hnt) as (f3 & s3 & Hs3 & _ & Hst3 & Hat & _).
  rewrite Hs in Hs3. injection Hs3 as -> ->. rewrite Hst1, Hst2 in Hst3. injection Hst3 as ->.
  exists st1. split_and!; try done.
  - by eapply abort_state.
  - rewrite Hstore, <- Hq1. simpl. by rewrite Hst1 in Hat.
  - intros k. unfold w_pending. rewrite Hstate. simpl. by apply untrack_all_sub.
  - unfold w_wheel. by rewrite Hstate.
Qed.

(** A user cancels a flow: it ends, but its key is not freed. *)
Lemma cancel_exec id w st' w' :
  inv w -> not_exhausted w' -> cancel_scheduled_tasks id w = (Ok st', w') ->
  is_Some (fs_outcome st') /\ fl_at (w_store w') id (Some st') /\
  (forall k, try_get_pending_flow (w_pending w') k = try_get_pending_flow (w_pending w) k) /\
  w_wheel w' = w_wheel w.
Proof.
  intros Hi Hn. unfold cancel_scheduled_tasks.
  destruct (fl_at_total (w_store w) id (sv_store _ Hi)) as [[st|] Ho];
    [|by rewrite (fl_load_missing _ _ Ho)].
  destruct (load_exec id st w Hi Ho) as (flow & Hl & Hf & Hst & Hq).
  unfold load_flow in Hl. destruct (Aggregate_load id (w_store w)) as [a| |]; simplify_eq/=. rewrite Hst.
  destruct (FlowState_status st) eqn:Hstat.
  3:{ intros [= <- <-]. split_and!; try done. unfold FlowState_status in Hstat.
      repeat case_match; simplify_eq/=; by eexists. }
  all: destruct (abort_flow_impl flow w) as [[f'| |] w1] eqn:Ha; simpl; intros Heq; try done;
    injection Heq as Hr <-; destruct (abort_exec flow w f' w1 Hf Hn Ha) as (st1 & Hst1 & Hout & Hat & Hp & Hw);
    rewrite Hst1 in Hr; injection Hr as <-; done.
Qed.

(** A trigger for a key whose pending flow has ended is refused. *)
Lemma trigger_ended_pending k id st tr ctx c w :
  inv w -> try_get_pending_flow (w_pending w) k = Some id -> fl_at (w_store w) id (Some st) ->
  is_Some (fs_outcome st) -> FlowTrigger_is_unique_vs tr (fs_triggers st) = true ->
  trigger_flow_common k tr ctx c w = (Err mkInternalError, tick w).
Proof.
  intros Hi Hp Hst [o Ho] Hu. unfold trigger_flow_common. erewrite bind_ok by reflexivity.
  erewrite bind_ok by reflexivity. rewrite Hp. unfold trigger_pending_flow.
  destruct (load_exec id st w Hi Hst) as (flow & Hl & _ & Hag & _).
  erewrite bind_ok by exact Hl. erewrite bind_ok by reflexivity. apply bind_err.
  unfold command, Flow_add_trigger_if_unique, Flow_command. rewrite Hag, Hu.
  unfold Aggregate_apply. rewrite Hag. cbn [proj_apply flow_projection FlowState_apply].
  rewrite decide_False by (simpl; naive_solver). by rewrite Ho.
Qed.
(** * Finished tasks *)

(** The outcome of a flow whose task ended so. *)
Definition flow_outcome_of (o : TaskOutcome) : FlowOutcome :=
  match o with
  | TaskOutcome_Success r => FlowOutcome_Success (FlowResult_from r)
  | TaskOutcome_Failed e => FlowOutcome_Failed (FlowError_from e)
  | TaskOutcome_Cancelled => FlowOutcome_Aborted
  end.

(** The executor works on the flow. *)
Definition under_way st : Prop :=
  fs_outcome st = None /\ fs_start_condition st = None /\ is_Some (ftr_running_since (fs_timing st)).

Lemma on_finished_exec flow t st tid o :
  agg_state flow = Some st -> under_way st -> tid ∈ fs_task_ids st ->
  exists flow' st', Flow_on_task_finished flow t tid o = (Ok tt, flow') /\
    agg_state flow' = Some st' /\ fs_outcome st' = Some (flow_outcome_of o) /\
    fs_flow_key st' = fs_flow_key st /\ fs_config_snapshot st' = fs_config_snapshot st.
Proof.
  intros Hst (Ho & Hc & [r Hr]) Ht. unfold Flow_on_task_finished, Flow_command, Aggregate_apply.
  rewrite Hst. cbn [proj_apply flow_projection FlowState_apply].
  rewrite decide_False by (simpl; naive_solver). rewrite Hr, Hc, decide_True, Ho by done.
  simpl. destruct o; eexists _, _; (split; [done|]); done.
Qed.

(** After the bookkeeping of a finished task: its flow is stored with an outcome,
    the task is forgotten, and the key is free. *)
Record finished (id : FlowID) (tid : TaskID) st (o : FlowOutcome) w st' w2 : Prop := {
  fin_inv : inv w2;
  fin_stored : fl_at (w_store w2) id (Some st');
  fin_outcome : fs_outcome st' = Some o;
  fin_key : fs_flow_key st' = fs_flow_key st;
  fin_snapshot : fs_config_snapshot st' = fs_config_snapshot st;
  fin_untracked : try_get_flow_id_by_task (w_pending w2) tid = None;
  fin_freed : forall k, try_get_pending_flow (w_pending w2) k =
    if decide (fs_flow_key st = k) then None else try_get_pending_flow (w_pending w) k;
  fin_wheel : w_wheel w2 = w_wheel w;
  fin_configs : w_configs w2 = w_configs w;
  fin_ticks : w_ticks w2 = w_ticks w;
  fin_others : forall f x, f <> id -> fl_at (w_store w2) f x <-> fl_at (w_store w) f x
}.

Lemma forget_get t k p k' :
  try_get_pending_flow (forget_flow t k p) k' = (if decide (k = k') then None else try_get_pending_flow p k').
Proof. unfold forget_flow. by rewrite (proj2 (drop_then_get (untrack_flow_by_task p t) k k')). Qed.

Lemma forget_task t k p : try_get_flow_id_by_task (forget_flow t k p) t = None.
Proof. destruct k; apply lookup_delete_eq. Qed.

Lemma finish_exec m id st t w :
  inv w -> not_exhausted w -> fsv_running (w_state w) = true ->
  try_get_flow_id_by_task (w_pending w) (tpf_task_id m) = Some id ->
  fl_at (w_store w) id (Some st) -> under_way st ->
  fe_duration_round (tpf_event_time m) (frc_awaiting_step fe_run_config) = Ok t ->
  exists st' w2, finished id (tpf_task_id m) st (flow_outcome_of (tpf_outcome m)) w st' w2 /\
    on_task_finished m w =
    (_ ← followup t st';
     _ ← (if TaskOutcome_is_success (tpf_outcome m)
          then try_enqueue_scheduled_auto_polling_flow_if_enabled t (fs_flow_key st')
          else mret tt);
     post_message (mkFlowServiceUpdatedMessage (tpf_event_time m) FlowServiceUpdateDetails_FlowFinished)
     : M unit) w2.
Proof.
  intros Hi Hn Hrun Htr Hst Hu Hround. unfold on_task_finished, if_running.
  erewrite bind_ok by reflexivity. rewrite Hrun. erewrite bind_ok by reflexivity.
  erewrite bind_ok by (unfold round_time, lift; rewrite Hround; reflexivity). rewrite Htr.
  destruct (load_exec id st w Hi Hst) as (flow & Hl & Hf & Hag & Hq). erewrite bind_ok by exact Hl.
  destruct (sv_tracked _ Hi _ _ Htr) as (st0 & Hst0 & Hin).
  pose proof (fl_at_unique _ _ _ _ Hst Hst0) as [= <-].
  destruct (on_finished_exec flow (tpf_event_time m) st (tpf_task_id m) (tpf_outcome m) Hag Hu Hin)
    as (f1 & st1 & Hc & Hst1 & Ho1 & Hk1 & Hs1).
  rewrite Hc. erewrite bind_ok by reflexivity. cbn [snd].
  destruct (in_hand_advances flow f1 w Hf) as [Hf1 Hq1]; [by eapply on_task_finished_advances|].
  destruct (save_exec f1 w Hf1 Hn) as (f2 & s2 & Hs & Hi2 & Hst2 & Hat & Hfr).
  erewrite bind_ok by exact Hs. rewrite Hst1 in Hst2, Hat.
  erewrite bind_ok by (unfold flow_state, lift; rewrite Hst2; reflexivity).
  erewrite bind_ok by reflexivity. rewrite Hq1, Hq in Hat, Hfr.
  exists st1, (with_pending (forget_flow (tpf_task_id m) (fs_flow_key st1)) (with_store s2 w)).
  split; [|reflexivity]. split; try done.
  - pose proof (spec_forget (tpf_task_id m) (fs_flow_key st1) (with_store s2 w)) as [_ Hsp].
    by apply Hsp.
  - apply forget_task.
  - intros k. rewrite <- Hk1. apply forget_get.
Qed.

(** A task that failed or was cancelled ends its flow, and nothing follows. *)
Lemma failed_exec m id st t w :
  inv w -> not_exhausted w -> fsv_running (w_state w) = true ->
  try_get_flow_id_by_task (w_pending w) (tpf_task_id m) = Some id ->
  fl_at (w_store w) id (Some st) -> under_way st ->
  fe_duration_round (tpf_event_time m) (frc_awaiting_step fe_run_config) = Ok t ->
  TaskOutcome_is_success (tpf_outcome m) = false ->
  (forall msg, fe_post_message msg = Ok tt) ->
  exists st' w', on_task_finished m w = (Ok tt, w') /\ fs_outcome st' = Some (flow_outcome_of (tpf_outcome m)) /\
    fl_at (w_store w') id (Some st') /\
    try_get_flow_id_by_task (w_pending w') (tpf_task_id m) = None /\
    try_get_pending_flow (w_pending w') (fs_flow_key st) = None /\ w_wheel w' = w_wheel w.
Proof.
  intros Hi Hn Hrun Htr Hst Hu Hround Hfail Hpost.
  destruct (finish_exec m id st t w Hi Hn Hrun Htr Hst Hu Hround) as (st' & w2 & Hfin & ->).
  assert (Hres : FlowState_try_result st' = None).
  { unfold FlowState_try_result. rewrite (fin_outcome _ _ _ _ _ _ _ Hfin). by destruct (tpf_outcome m). }
  unfold followup. rewrite Hres, Hfail. erewrite bind_ok by reflexivity. erewrite bind_ok by reflexivity.
  unfold post_message. rewrite Hpost. destruct Hfin as [F1 F2 F3 F4 F5 F6 F7 F8 F9 F10 F11].
  eexists st', _. split; [reflexivity|]. split_and!; try done.
  specialize (F7 (fs_flow_key st)). by rewrite decide_True in F7.
Qed.

(** Nothing depends on the flow. *)
Definition no_followup st : Prop :=
  match fs_flow_key st with
  | FlowKey_Dataset k => fe_get_downstream_dependencies (fkd_dataset_id k) = Ok []
  | FlowKey_System _ => True
  end.

Lemma followup_none t st w : no_followup st -> followup t st w = (Ok tt, w).
Proof.
  intros Hno. unfold followup, no_followup in *. destruct (FlowState_try_result st) as [r|]; [|done].
  destruct (FlowResult_is_empty r); [done|]. destruct (fs_flow_key st) as [k|k] eqn:Hk; [|done].
  cbn [FlowKey_get_type AnyFlowType_success_followup_method].
  assert (Henq : enqueue_dependent_flows t st r w = (Ok tt, w)).
  { unfold enqueue_dependent_flows, make_downstream_dependencies_flow_plans. rewrite Hk, Hno. done. }
  destruct (fkd_flow_type k); exact Henq.
Qed.

(** A flow that ran on a schedule is followed by the next one. *)
Lemma polling_exec m id st t w schedule :
  inv w -> (Z.of_nat (w_ticks w) + 3 < 2 ^ 63)%Z -> fsv_running (w_state w) = true ->
  try_get_flow_id_by_task (w_pending w) (tpf_task_id m) = Some id ->
  fl_at (w_store w) id (Some st) -> under_way st ->
  fe_duration_round (tpf_event_time m) (frc_awaiting_step fe_run_config) = Ok t ->
  TaskOutcome_is_success (tpf_outcome m) = true -> no_followup st ->
  try_get_flow_schedule (w_configs w) (fs_flow_key st) = Some schedule ->
  (forall last, is_ok (Schedule_next_activation_time fe_cron_after schedule t last) = true) ->
  (forall msg, fe_post_message msg = Ok tt) ->
  exists next w' at_, on_task_finished m w = (Ok tt, w') /\ inv w' /\
    fs_flow_key next = fs_flow_key st /\ fs_flow_id next <> id /\
    fl_at (w_store w') (fs_flow_id next) (Some next) /\ startable next /\
    try_get_pending_flow (w_pending w') (fs_flow_key st) = Some (fs_flow_id next) /\
    planned_at w' (fs_flow_id next) = Some at_ /\ (t <= at_)%Z.
Proof.
  intros Hi Hn Hrun Htr Hst Hu Hround Hok Hno Hsched Hnext Hpost.
  destruct (finish_exec m id st t w Hi ltac:(unfold not_exhausted; lia) Hrun Htr Hst Hu Hround)
    as (st' & w2 & [F1 F2 F3 F4 F5 F6 F7 F8 F9 F10 F11] & ->).
  erewrite bind_ok by (apply followup_none; unfold no_followup in *; by rewrite F4). rewrite Hok.
  unfold try_enqueue_scheduled_auto_polling_flow_if_enabled, enqueue_scheduled_auto_polling_flow.
  rewrite F4. set (tr := FlowTrigger_AutoPolling (mkFlowTriggerAutoPolling t)).
  specialize (Hnext (frs_last_success_time (run_stats w2 (fs_flow_key st)))).
  destruct (Schedule_next_activation_time fe_cron_after schedule t
    (frs_last_success_time (run_stats w2 (fs_flow_key st)))) as [naive| |] eqn:Hnaive; try done.
  destruct (trigger_scheduled_exec (fs_flow_key st) tr schedule naive None w2)
    as (next & w3 & Htrig & [N1 N2 N3 N4 N5 N6 N7 N8 N9] & _); try done.
  { rewrite F10. done. }
  { rewrite F7. by rewrite decide_True. }
  erewrite bind_ok.
  2:{ erewrite bind_ok by reflexivity. rewrite F9, Hsched. erewrite bind_ok by exact Htrig. reflexivity. }
  unfold post_message. rewrite Hpost.
  eexists next, _, _. split; [reflexivity|]. split_and!; try done.
  - destruct N1. by split.
  - intros Heq. rewrite Heq in N2. by pose proof (fl_at_unique _ _ _ _ N2 F2).
  - change (w_pending _) with (w_pending w3). rewrite N8, decide_True by done. done.
  - pose proof (proj1 (boundary_bounds (run_stats w2 (fs_flow_key st)) t)). simpl. lia.
Qed.
(** * Paused configurations *)

(** The part of the handler that holds the lock. *)
Definition pause_locked k w : World S :=
  with_pending (fun p => (drop_pending_flow p k).2)
    (with_configs (fun c => drop_flow_config c k) w).

Lemma pause_prefix m id w :
  fcu_paused m = true -> fsv_running (w_state w) = true ->
  try_get_pending_flow (w_pending w) (fcu_flow_key m) = Some id ->
  consume_configuration_updated m w =
  (_ ← cancel_activation id; abort_flow id : M unit) (pause_locked (fcu_flow_key m) w).
Proof.
  intros Hpa Hrun Hp. unfold consume_configuration_updated, if_running. rewrite Hpa.
  erewrite bind_ok by reflexivity. rewrite Hrun. erewrite bind_ok by reflexivity.
  pose proof (proj1 (drop_then_get (w_pending w) (fcu_flow_key m) (fcu_flow_key m))) as Ho.
  rewrite Hp in Ho. erewrite (bind_ok _ _ _ (Some id)); [reflexivity|].
  change (w_pending (with_configs _ w)) with (w_pending w).
  unfold pause_locked, with_pending, with_configs, with_state. simpl. fold (w_pending w).
  destruct (drop_pending_flow (w_pending w) (fcu_flow_key m)) as [o p]. simpl in Ho. by subst o.
Qed.

Lemma pause_locked_inv k w : inv w -> inv (pause_locked k w).
Proof.
  intros Hi. unfold pause_locked. apply inv_pending_sub; [by apply inv_configs|..];
    change (w_pending (with_configs _ w)) with (w_pending w); [by apply drop_pending_sub|].
  intros t id. by rewrite (proj2 (drop_pending_sub (w_pending w) k)).
Qed.

Lemma pause_locked_pending k w k' :
  try_get_pending_flow (w_pending (pause_locked k w)) k' =
  if decide (k = k') then None else try_get_pending_flow (w_pending w) k'.
Proof. exact (proj2 (drop_then_get (w_pending w) k k')). Qed.

(** Pausing a configuration whose flow waits for its moment: the flow is aborted
    and leaves the wheel and the registry. *)
Lemma pause_exec m id st t w :
  inv w -> not_exhausted (tick w) -> fcu_paused m = true -> fsv_running (w_state w) = true ->
  try_get_pending_flow (w_pending w) (fcu_flow_key m) = Some id ->
  planned_at w id = Some t -> fl_at (w_store w) id (Some st) -> fs_outcome st = None ->
  fs_task_ids st = [] ->
  exists st' w', consume_configuration_updated m w = (Ok tt, w') /\
    fl_at (w_store w') id (Some st') /\ fs_outcome st' = Some FlowOutcome_Aborted /\
    planned_at w' id = None /\
    (forall k, try_get_pending_flow (w_pending w') k =
       if decide (fcu_flow_key m = k) then None else try_get_pending_flow (w_pending w) k) /\
    w_configs w' = drop_flow_config (w_configs w) (fcu_flow_key m).
Proof.
  intros Hi Hn Hpa Hrun Hp Hpl Hst Ho Htasks. rewrite (pause_prefix m id w Hpa Hrun Hp).
  set (w1 := pause_locked (fcu_flow_key m) w). unfold planned_at, get_planned_flow_activation_time in Hpl.
  assert (Hcan : cancel_activation id w1 =
            (Ok tt, with_wheel (fun _ => unplan_flow (w_wheel w) id) w1)).
  { unfold cancel_activation, cancel_flow_activation. change (w_wheel w1) with (w_wheel w). by rewrite Hpl. }
  pose proof (spec_cancel_activation id w1) as [_ Hsp]. rewrite Hcan in Hsp.
  erewrite bind_ok by exact Hcan. set (w2 := with_wheel _ w1) in *.
  assert (Hi2 : inv w2).
  { apply Hsp; [unfold not_exhausted in *; simpl in *; lia|]. split; [by apply pause_locked_inv|].
    intros k. unfold w1. rewrite pause_locked_pending. case_decide as Hd; [done|].
    intros Hk. by apply Hd, (sv_distinct _ Hi _ _ id). }
  unfold abort_flow. destruct (load_exec id st w2 Hi2 Hst) as (flow & Hl & Hf & Hag & Hq).
  erewrite bind_ok by exact Hl. unfold abort_flow_impl.
  set (st' := with_outcome st None (timing_finished (fs_timing st) (fe_now (w_ticks w))) FlowOutcome_Aborted).
  assert (Hab : exists f1, Flow_abort flow (fe_now (w_ticks w)) = (Ok tt, f1) /\ agg_state f1 = Some st').
  { unfold Flow_abort, Flow_command, Aggregate_apply. rewrite Hag, Ho.
    cbn [proj_apply flow_projection FlowState_apply]. rewrite decide_False by (simpl; naive_solver).
    rewrite Ho. by eexists. }
  destruct Hab as (f1 & Hab & Hst1).
  destruct (in_hand_advances flow f1 (tick w2) (in_hand_tick _ _ Hf)) as [Hf1 Hq1];
    [by eapply abort_advances|].
  destruct (save_exec f1 (tick w2) Hf1 Hn) as (f2 & s2 & Hs & _ & Hst2 & Hat & _).
  rewrite Hst1 in Hst2, Hat. rewrite Hq1, Hq in Hat.
  assert (Htids : fs_task_ids st' = []) by exact Htasks.
  eexists st', _. split.
  { erewrite bind_ok; [reflexivity|]. erewrite bind_ok by reflexivity.
    change (fe_now (w_ticks w2)) with (fe_now (w_ticks w)). rewrite Hab. erewrite bind_ok by reflexivity.
    cbn [snd]. erewrite bind_ok by exact Hs.
    erewrite bind_ok by (unfold flow_state, lift; rewrite Hst2; reflexivity).
    rewrite Htids. erewrite bind_ok by reflexivity. by erewrite bind_ok by reflexivity. }
  split_and!; try done.
  - unfold planned_at, get_planned_flow_activation_time. simpl. apply lookup_delete_eq.
  - intros k. exact (pause_locked_pending (fcu_flow_key m) w k).
Qed.

(** * Flows that were never planned *)

(** A flow that waits for input, none of which has come, is pending but not
    planned.  Pausing its configuration fails half-way: the configuration and the
    registry entry are gone, and the flow stays as it was. *)
Lemma pause_unplanned m id w :
  fcu_paused m = true -> fsv_running (w_state w) = true ->
  try_get_pending_flow (w_pending w) (fcu_flow_key m) = Some id -> planned_at w id = None ->
  exists w', consume_configuration_updated m w = (Err mkInternalError, w') /\
    w_store w' = w_store w /\
    try_get_pending_flow (w_pending w') (fcu_flow_key m) = None /\
    w_configs w' = drop_flow_config (w_configs w) (fcu_flow_key m).
Proof.
  intros Hpa Hrun Hp Hpl. rewrite (pause_prefix m id w Hpa Hrun Hp).
  set (w1 := pause_locked (fcu_flow_key m) w). unfold planned_at, get_planned_flow_activation_time in Hpl.
  exists (with_wheel (fun _ => w_wheel w) w1). split.
  - apply bind_err. unfold cancel_activation, cancel_flow_activation.
    change (w_wheel w1) with (w_wheel w). by rewrite Hpl.
  - split_and!; try done. change (w_pending (with_wheel _ w1)) with (w_pending w1).
    unfold w1. rewrite pause_locked_pending. by rewrite decide_True.
Qed.

(** Triggering such a flow by hand, or on a schedule, panics. *)
Lemma trigger_unplanned k id st tr c w :
  inv w -> try_get_pending_flow (w_pending w) k = Some id -> fl_at (w_store w) id (Some st) ->
  fs_outcome st = None -> planned_at w id = None ->
  (trigger_flow_common k tr FlowTriggerContext_Unconditional c w).1 = Panic.
Proof.
  intros Hi Hp Hst Ho Hpl. unfold trigger_flow_common. erewrite bind_ok by reflexivity.
  erewrite bind_ok by reflexivity. rewrite Hp. unfold trigger_pending_flow.
  destruct (load_exec id st w Hi Hst) as (flow & Hl & Hf & Hag & Hq).
  erewrite bind_ok by exact Hl. erewrite bind_ok by reflexivity.
  assert (Hadd : exists b f1, Flow_add_trigger_if_unique flow (fe_now (w_ticks w)) tr = (Ok b, f1)).
  { unfold Flow_add_trigger_if_unique, Flow_command, Aggregate_apply. rewrite Hag.
    destruct (FlowTrigger_is_unique_vs tr (fs_triggers st)); [|by eexists _, _].
    cbn [proj_apply flow_projection FlowState_apply]. rewrite decide_False by (simpl; naive_solver).
    rewrite Ho. by eexists _, _. }
  destruct Hadd as (b & f1 & Hadd). rewrite Hadd. erewrite bind_ok by reflexivity. cbn [snd].
  destruct (in_hand_advances flow f1 w Hf) as [Hf1 Hq1]; [by eapply add_trigger_advances|].
  destruct (ih_state _ _ Hf1) as (st1 & Hst1 & Hid1 & _).
  erewrite bind_ok by (unfold flow_state, lift; rewrite Hst1; reflexivity).
  erewrite bind_panic; [reflexivity|]. erewrite bind_ok by reflexivity.
  change (get_planned_flow_activation_time _ _) with (planned_at w (fs_flow_id st1)).
  rewrite Hid1, Hq1, Hq, Hpl. by erewrite bind_panic by reflexivity.
Qed.

(** * Other failures *)

(** The executor takes a task whose flow has ended meanwhile. *)
Lemma running_after_end m id st w :
  inv w -> fsv_running (w_state w) = true ->
  try_get_flow_id_by_task (w_pending w) (tpr_task_id m) = Some id ->
  fl_at (w_store w) id (Some st) -> is_Some (fs_outcome st) ->
  on_task_running m w = (Err mkInternalError, w).
Proof.
  intros Hi Hrun Htr Hst [o Ho]. unfold on_task_running, if_running. erewrite bind_ok by reflexivity.
  rewrite Hrun. erewrite bind_ok by reflexivity. rewrite Htr.
  destruct (load_exec id st w Hi Hst) as (flow & Hl & _ & Hag & _). erewrite bind_ok by exact Hl.
  apply bind_err. unfold command, Flow_on_task_running, Flow_command, Aggregate_apply. rewrite Hag.
  cbn [proj_apply flow_projection FlowState_apply]. rewrite decide_False by (simpl; naive_solver).
  by rewrite Ho.
Qed.

(** A new flow is made pending before it is saved: when the evaluation of its
    inputs fails in between, the registry names a flow that does not exist ... *)
Lemma trigger_batching_fails k tr rule c w :
  inv w -> (Z.of_nat (w_ticks w) + 3 < 2 ^ 63)%Z -> try_get_pending_flow (w_pending w) k = None ->
  may_batch k = true -> scan_triggers (mkAccumulated 0 false false) [tr] = Err mkInternalError ->
  exists id w', trigger_flow_common k tr (FlowTriggerContext_Batching rule) c w = (Err mkInternalError, w') /\
    inv w' /\ try_get_pending_flow (w_pending w') k = Some id /\ fl_at (w_store w') id None.
Proof.
  intros Hi Hn Hp Hb Hscan. destruct (trigger_common_new k tr (FlowTriggerContext_Batching rule) c w Hp) as [c' ->].
  destruct (new_flow_exec k tr c' w Hi ltac:(lia))
    as (id & flow & w1 & Hnew & Hf & Hq & Hst & _ & _ & _ & Hnone & Hstore & _ & _ & _ & Hpend).
  exists id, w1. erewrite bind_ok by exact Hnew. split_and!; [|apply Hf| |by apply Hstore].
  - apply bind_err. unfold activate_new_flow.
    erewrite bind_ok by (unfold flow_state, lift; rewrite Hst; reflexivity).
    unfold evaluate_flow_transform_rule.
    erewrite bind_ok by (unfold flow_state, lift; rewrite Hst; reflexivity).
    cbn [new_state fs_flow_key fs_triggers]. rewrite Hb, Hscan. by apply bind_err.
  - by rewrite Hpend, add_then_get, decide_True.
Qed.

(** ... and every later trigger for its key fails. *)
Lemma trigger_dangling k id tr ctx c w :
  try_get_pending_flow (w_pending w) k = Some id -> fl_at (w_store w) id None ->
  trigger_flow_common k tr ctx c w = (Err mkInternalError, w).
Proof.
  intros Hp Hnone. unfold trigger_flow_common. erewrite bind_ok by reflexivity.
  erewrite bind_ok by reflexivity. rewrite Hp. unfold trigger_pending_flow. apply bind_err.
  unfold load_flow. by rewrite (fl_load_missing _ _ Hnone).
Qed.
End Ends.
