(* ===== verification/DatasetChanges.v ===== *)
(** What changed in a dataset between two heads, and moving its head back.

    Sources: src/domain/core/src/services/dataset_changes_service.rs and
    src/infra/core/src/dataset_changes_service_impl.rs (increments),
    src/domain/core/src/services/reset_service.rs and
    src/infra/core/src/reset_service_impl.rs (resets), and the errors of
    src/domain/core/src/repos/dataset_repository.rs and
    src/domain/core/src/auth/dataset_action_authorizer.rs they need.

    The dataset repository and the authorizer are interfaces of the code, and
    parameters here. *)

From S2P Require Import Prelude Multiformats Identity Dtos FlowService ChainRepos MetadataChain.
From S2P Require Import ChainVisitors ChainValidators ChainRules ChainAppend ChainInvariants Dataset.

(** * Errors and actions *)

Record DatasetNotFoundError := mkDatasetNotFoundError { dnf_dataset_ref : DatasetRef }.

Inductive GetDatasetError :=
| GetDatasetError_NotFound (e : DatasetNotFoundError)
| GetDatasetError_Internal (e : InternalError).

Inductive DatasetAction :=
| DatasetAction_Read
| DatasetAction_Write.

Inductive DatasetActionUnauthorizedError :=
| DatasetActionUnauthorizedError_Access (e : AccessError)
| DatasetActionUnauthorizedError_Internal (e : InternalError).

Inductive GetIncrementError :=
| GetIncrementError_DatasetNotFound (e : DatasetNotFoundError)
| GetIncrementError_RefNotFound (e : RefNotFoundError)
| GetIncrementError_Access (e : AccessError)
| GetIncrementError_Internal (e : InternalError).

Record OldHeadMismatchError := mkOldHeadMismatchError {
  ohm_current_head : Multihash;
  ohm_old_head : Multihash
}.

Inductive ResetError :=
| ResetError_DatasetNotFound (e : DatasetNotFoundError)
| ResetError_CASFailed (e : RefCASError)
| ResetError_BlockNotFound (e : BlockNotFoundError)
| ResetError_Access (e : AccessError)
| ResetError_Internal (e : InternalError)
| ResetError_OldHeadMismatch (e : OldHeadMismatchError).

Definition ResetError_from_GetDatasetError (v : GetDatasetError) : ResetError :=
  match v with
  | GetDatasetError_NotFound e => ResetError_DatasetNotFound e
  | GetDatasetError_Internal e => ResetError_Internal e
  end.

Definition ResetError_from_Unauthorized (v : DatasetActionUnauthorizedError) : ResetError :=
  match v with
  | DatasetActionUnauthorizedError_Access e => ResetError_Access e
  | DatasetActionUnauthorizedError_Internal e => ResetError_Internal e
  end.

Definition ResetError_from_SetRefError (v : SetRefError) : ResetError :=
  match v with
  | SetRefError_CASFailed e => ResetError_CASFailed e
  | SetRefError_BlockNotFound e => ResetError_BlockNotFound e
  | SetRefError_Access e => ResetError_Access e
  | SetRefError_Internal e => ResetError_Internal e
  end.

(** * Increments *)

Definition DatasetIntervalIncrement_default : DatasetIntervalIncrement :=
  mkDatasetIntervalIncrement 0 0 None.

Definition DatasetIntervalIncrement_add_assign (self rhs : DatasetIntervalIncrement)
    : DatasetIntervalIncrement :=
  mkDatasetIntervalIncrement
    (u64_add (dii_num_blocks self) (dii_num_blocks rhs))
    (u64_add (dii_num_records self) (dii_num_records rhs))
    match dii_updated_watermark self with
    | None => dii_updated_watermark rhs
    | Some self_watermark =>
        match dii_updated_watermark rhs with
        | None => Some self_watermark
        | Some rhs_watermark => Some (Z.max self_watermark rhs_watermark)
        end
    end.

(** The local variables of [make_increment_from_interval]. *)
Record IntervalScan := mkIntervalScan {
  isc_num_blocks : u64;
  isc_num_records : u64;
  isc_updated_watermark : option DateTime;
  isc_latest_watermark : option DateTime
}.

Definition num_added_records (event : MetadataEvent) : u64 :=
  match event with
  | MetadataEvent_AddData add_data =>
      default 0%Z (option_map DataSlice_num_records (ad_new_data add_data))
  | MetadataEvent_ExecuteTransform execute_transform =>
      default 0%Z (option_map DataSlice_num_records (et_new_data execute_transform))
  | _ => 0%Z
  end.

Definition block_watermark (event : MetadataEvent) : option DateTime :=
  match event with
  | MetadataEvent_AddData add_data => ad_new_watermark add_data
  | MetadataEvent_ExecuteTransform execute_transform => et_new_watermark execute_transform
  | _ => None
  end.

(** The body of the [while let] loop. *)
Definition scan_block (s : IntervalScan) (hb : HashedMetadataBlock) : IntervalScan :=
  let num_blocks := u64_add (isc_num_blocks s) 1 in
  let num_records := u64_add (isc_num_records s) (num_added_records (mb_event hb.2)) in
  match isc_updated_watermark s, block_watermark (mb_event hb.2) with
  | None, Some w =>
      match isc_latest_watermark s with
      | Some latest =>
          mkIntervalScan num_blocks num_records
            (if decide (w <> latest) then Some latest else None) (Some latest)
      | None => mkIntervalScan num_blocks num_records None (Some w)
      end
  | _, _ => mkIntervalScan num_blocks num_records (isc_updated_watermark s) (isc_latest_watermark s)
  end.

Definition ssd_into_event (v : SearchSingleDataBlockVisitor) : option MetadataEventDataStream :=
  option_map (fun hb => mbd_event hb.2) (ssd_hashed_block v).

Section Services.
Context {C : BlockCodec} {BR RR : Type} `{!MetadataBlockRepository BR} `{!ReferenceRepository RR}.

Implicit Types (c : MetadataChainImpl BR RR) (l : list HashedMetadataBlock).

(** What is left when the loop has ended: the search below the old head. *)
Definition previous_watermark (fuel : nat) c (old_head : Multihash)
    : option (res InternalError (option DateTime)) :=
  match accept_one_by_hash fuel (meta_block_repo c) old_head SearchSingleDataBlockVisitor_next with
  | Some x => Some (let! v := int_err x in Ok (ssd_into_event v ≫= mds_new_watermark))
  | None => None
  end.

Definition finish_scan (fuel : nat) c (old_head : option Multihash) (s : IntervalScan)
    : option (res InternalError DatasetIntervalIncrement) :=
  let result updated := mkDatasetIntervalIncrement (isc_num_blocks s) (isc_num_records s) updated in
  match isc_updated_watermark s, isc_latest_watermark s with
  | None, Some latest =>
      match old_head with
      | Some old_head =>
          match previous_watermark fuel c old_head with
          | Some x =>
              Some (let! previous := x in
                    Ok (result
                      match previous with
                      | Some p => if decide (p <> latest) then Some latest else None
                      | None => Some latest
                      end))
          | None => None
          end
      | None => Some (Ok (result (Some latest)))
      end
  | updated, _ => Some (Ok (result updated))
  end.

Definition make_increment_from_interval (fuel : nat) c (old_head : option Multihash)
    (new_head : Multihash) : option (res InternalError DatasetIntervalIncrement) :=
  match iter_blocks_interval fuel c new_head old_head false with
  | Some (blocks, Ok _) =>
      finish_scan fuel c old_head (fold_left scan_block blocks (mkIntervalScan 0 0 None None))
  | Some (_, Err _) => Some (Err mkInternalError)
  | Some (_, Panic) => Some Panic
  | None => None
  end.

(** The repository's [find_dataset_by_ref], here giving the dataset's chain. *)
Variable find_dataset_by_ref : DatasetRef -> res GetDatasetError (MetadataChainImpl BR RR).

Definition resolve_dataset_by_id (dataset_id : DatasetID)
    : res GetIncrementError (MetadataChainImpl BR RR) :=
  map_err (fun e => match e with
                    | GetDatasetError_NotFound e => GetIncrementError_DatasetNotFound e
                    | GetDatasetError_Internal e => GetIncrementError_Internal e
                    end) (find_dataset_by_ref (DatasetRef_ID dataset_id)).

Definition resolve_dataset_head c : res GetIncrementError Multihash :=
  map_err (fun e => match e with
                    | GetRefError_Access e => GetIncrementError_Access e
                    | GetRefError_NotFound e => GetIncrementError_RefNotFound e
                    | GetRefError_Internal e => GetIncrementError_Internal e
                    end) (rr_get (ref_repo c) BlockRef_Head).

Definition get_increment_between (fuel : nat) (dataset_id : DatasetID)
    (old_head : option Multihash) (new_head : Multihash)
    : option (res GetIncrementError DatasetIntervalIncrement) :=
  match resolve_dataset_by_id dataset_id with
  | Ok dataset =>
      option_map (map_err GetIncrementError_Internal)
        (make_increment_from_interval fuel dataset old_head new_head)
  | Err e => Some (Err e)
  | Panic => Some Panic
  end.

Definition get_increment_since (fuel : nat) (dataset_id : DatasetID) (old_head : option Multihash)
    : option (res GetIncrementError DatasetIntervalIncrement) :=
  match (let! dataset := resolve_dataset_by_id dataset_id in
         let! current_head := resolve_dataset_head dataset in
         Ok (dataset, current_head)) with
  | Ok (dataset, current_head) =>
      option_map (map_err GetIncrementError_Internal)
        (make_increment_from_interval fuel dataset old_head current_head)
  | Err e => Some (Err e)
  | Panic => Some Panic
  end.

(** * Resets *)

Variable check_action_allowed :
  DatasetHandle -> DatasetAction -> res DatasetActionUnauthorizedError unit.

(** The hash to reset to: the given one, or the chain's seed. *)
Definition reset_target (fuel : nat) c (new_head_maybe : option Multihash)
    : option (res ResetError Multihash) :=
  match new_head_maybe with
  | Some new_head => Some (Ok new_head)
  | None =>
      match accept_one fuel c (SearchSingleTypedBlockVisitor_new Seed) with
      | Some x =>
          Some (let! v := map_err ResetError_Internal (int_err x) in
                let! hashed_block := unwrap (sst_hashed_block v) in
                Ok hashed_block.1)
      | None => None
      end
  end.

Definition reset_check_old_head c (old_head_maybe : option Multihash) : res ResetError unit :=
  match old_head_maybe with
  | None => Ok tt
  | Some old_head =>
      let! head := map_err ResetError_Internal (try_get_ref c BlockRef_Head) in
      match head with
      | Some current_head =>
          if decide (old_head <> current_head)
          then Err (ResetError_OldHeadMismatch (mkOldHeadMismatchError current_head old_head))
          else Ok tt
      | None => Ok tt
      end
  end.

(** Everything before the head is moved ... *)
Definition reset_prepare (fuel : nat) c (dataset_handle : DatasetHandle)
    (new_head_maybe old_head_maybe : option Multihash) : option (res ResetError Multihash) :=
  match map_err ResetError_from_Unauthorized
          (check_action_allowed dataset_handle DatasetAction_Write) with
  | Ok _ =>
      match reset_target fuel c new_head_maybe with
      | Some x =>
          Some (let! new_head := x in
                let! _ := reset_check_old_head c old_head_maybe in
                Ok new_head)
      | None => None
      end
  | Err e => Some (Err e)
  | Panic => Some Panic
  end.

(** ... and moving it.  Other tasks may run between the two. *)
Definition reset_move_head c (new_head : Multihash)
    : res ResetError Multihash * MetadataChainImpl BR RR :=
  let '(x, c') := set_ref c BlockRef_Head new_head (mkSetRefOpts true None) in
  (let! _ := map_err ResetError_from_SetRefError x in Ok new_head, c').

Definition reset_dataset (fuel : nat) c (dataset_handle : DatasetHandle)
    (new_head_maybe old_head_maybe : option Multihash)
    : option (res ResetError Multihash * MetadataChainImpl BR RR) :=
  match reset_prepare fuel c dataset_handle new_head_maybe old_head_maybe with
  | Some (Ok new_head) => Some (reset_move_head c new_head)
  | Some (Err e) => Some (Err e, c)
  | Some Panic => Some (Panic, c)
  | None => None
  end.
End Services.

(** * What an increment should be *)

(** The watermark of a chain is that of its latest data block. *)
Definition chain_watermark (l : list HashedMetadataBlock) : option DateTime :=
  latest_data l ≫= mds_new_watermark.

(** The increment by the blocks [xs] on top of [rest]: how many there are, the
    records they add, and the watermark of the whole chain when it differs from
    the watermark of [rest]. *)
Definition increment_of (xs rest : list HashedMetadataBlock) : DatasetIntervalIncrement :=
  mkDatasetIntervalIncrement (Z.of_nat (length xs) mod two64) (total event_records xs mod two64)
    (if decide (chain_watermark (xs ++ rest) = chain_watermark rest)
     then None else chain_watermark (xs ++ rest)).

(** ** Reading events *)

Lemma num_added_records_spec e : num_added_records e = event_records e.
Proof. unfold event_records. destruct e; simpl; try done; by destruct (_ : option DataSlice). Qed.

Lemma block_watermark_spec e : block_watermark e = as_data_stream_event e ≫= mds_new_watermark.
Proof. by destruct e. Qed.

Lemma chain_watermark_cons hb l :
  chain_watermark (hb :: l) =
  match as_data_stream_event (mb_event hb.2) with
  | Some d => mds_new_watermark d
  | None => chain_watermark l
  end.
Proof. unfold chain_watermark, latest_data. simpl. by destruct (as_data_stream_event _). Qed.

Lemma chain_watermark_step h b l :
  valid_chain ((h, b) :: l) -> watermark_le (chain_watermark l) (chain_watermark ((h, b) :: l)).
Proof.
  intros (_ & Hv & _)%valid_chain_inv. rewrite chain_watermark_cons. simpl.
  destruct (as_data_stream_event (mb_event b)) as [d|] eqn:Hd; [|done].
  unfold chain_watermark. destruct (latest_data l) as [p|] eqn:Hp; [|done].
  by eapply vn_watermark.
Qed.

Lemma chain_watermark_le l1 l2 :
  valid_chain (l1 ++ l2) -> watermark_le (chain_watermark l2) (chain_watermark (l1 ++ l2)).
Proof.
  induction l1 as [|[h b] l1 IH]; intros H; [done|]. simpl in *.
  etrans; [|by apply chain_watermark_step]. apply IH. by apply valid_chain_inv in H as (_ & _ & ?).
Qed.

(** ** The scan *)

Definition watermarks (l : list HashedMetadataBlock) : list DateTime :=
  omap (fun hb => block_watermark (mb_event hb.2)) l.

(** What the loop does to its two watermark variables. *)
Definition scan_watermark (s : option DateTime * option DateTime) (w : DateTime)
    : option DateTime * option DateTime :=
  match s with
  | (None, None) => (None, Some w)
  | (None, Some latest) => (if decide (w <> latest) then Some latest else None, Some latest)
  | _ => s
  end.

Lemma scan_blocks_spec l s :
  in_u64 (isc_num_blocks s) -> in_u64 (isc_num_records s) ->
  let s' := fold_left scan_block l s in
  isc_num_blocks s' = ((isc_num_blocks s + Z.of_nat (length l)) mod two64)%Z /\
  isc_num_records s' = ((isc_num_records s + total event_records l) mod two64)%Z /\
  (isc_updated_watermark s', isc_latest_watermark s') =
    fold_left scan_watermark (watermarks l) (isc_updated_watermark s, isc_latest_watermark s).
Proof.
  revert s; induction l as [|hb l IH]; intros s Hb Hr; simpl.
  - unfold total; simpl. rewrite !Z.add_0_r, !Z.mod_small; auto.
  - destruct (IH (scan_block s hb)) as (-> & -> & ->).
    1,2: unfold scan_block; repeat case_match; simpl; apply u64_add_range.
    assert (isc_num_blocks (scan_block s hb) = u64_add (isc_num_blocks s) 1 /\
            isc_num_records (scan_block s hb) =
              u64_add (isc_num_records s) (event_records (mb_event hb.2))) as [-> ->].
    { unfold scan_block. rewrite num_added_records_spec. by repeat case_match. }
    unfold u64_add. rewrite !Zplus_mod_idemp_l. split_and!.
    + f_equal. lia.
    + f_equal. unfold total. simpl. lia.
    + unfold watermarks, scan_block; simpl.
      destruct (block_watermark (mb_event hb.2)); simpl;
        destruct (isc_updated_watermark s), (isc_latest_watermark s); done.
Qed.

Lemma scan_watermarks_latest ws u w :
  fold_left scan_watermark ws (Some u, Some w) = (Some u, Some w).
Proof. by induction ws. Qed.

Lemma scan_watermarks_spec w ws :
  fold_left scan_watermark ws (None, Some w) =
  (if decide (Forall (eq w) ws) then None else Some w, Some w).
Proof.
  induction ws as [|v ws IH]; [done|]. cbn [fold_left scan_watermark].
  destruct (decide (v <> w)) as [Hv|Hv].
  - rewrite scan_watermarks_latest, decide_False; [done|]. intros H. inversion H; congruence.
  - apply dec_stable in Hv as ->. rewrite IH. f_equal.
    apply decide_ext. split; intros H; [by constructor|by inversion H].
Qed.

(** In a valid chain, the first watermark above [rest] is the watermark of the
    chain, and an older one that differs shows that [rest] had another. *)
Lemma watermarks_valid xs rest :
  valid_chain (xs ++ rest) ->
  match watermarks xs with
  | [] => chain_watermark (xs ++ rest) = chain_watermark rest
  | w :: ws => chain_watermark (xs ++ rest) = Some w /\
      (Forall (eq w) ws \/ chain_watermark rest <> Some w)
  end.
Proof.
  induction xs as [|[h b] xs IH]; intros Hv; [done|]. rewrite <- app_comm_cons in *.
  pose proof (chain_watermark_step _ _ _ Hv) as Hstep.
  apply valid_chain_inv in Hv as (_ & _ & Hv). specialize (IH Hv).
  pose proof (chain_watermark_le _ _ Hv) as Hle.
  rewrite chain_watermark_cons in *. unfold watermarks in *. cbn [omap list_omap].
  cbn [snd] in *. rewrite block_watermark_spec.
  destruct (as_data_stream_event (mb_event b)) as [d|]; [|done]. simpl.
  destruct (mds_new_watermark d) as [v|].
  - split; [done|]. destruct (omap _ xs) as [|w ws]; [by left|].
    destruct IH as [Hw IH]. rewrite Hw in Hstep, Hle. simpl in Hstep.
    destruct (decide (w = v)) as [->|Hne].
    + destruct IH as [IH|IH]; [left; by constructor|by right].
    + right. intros Hr. rewrite Hr in Hle. simpl in Hle. lia.
  - destruct (omap _ xs) as [|w ws].
    + rewrite IH in Hstep. by destruct (chain_watermark rest).
    + destruct IH as [Hw _]. by rewrite Hw in Hstep.
Qed.

(** ** Increments add up *)

Lemma watermark_le_antisym a b : watermark_le a b -> watermark_le b a -> a = b.
Proof. destruct a, b; simpl; try done. intros. f_equal. lia. Qed.

Lemma increments_add xs ys rest :
  valid_chain (xs ++ ys ++ rest) ->
  increment_of (xs ++ ys) rest =
  DatasetIntervalIncrement_add_assign (increment_of ys rest) (increment_of xs (ys ++ rest)).
Proof.
  intros Hv. unfold DatasetIntervalIncrement_add_assign, increment_of, u64_add; simpl.
  rewrite length_app, total_app, <- !Zplus_mod, <- (app_assoc xs), Nat2Z.inj_add,
    (Z.add_comm (Z.of_nat (length xs))), (Z.add_comm (total _ xs)). f_equal.
  pose proof (chain_watermark_le _ _ Hv) as Hle1.
  apply valid_chain_app in Hv. pose proof (chain_watermark_le _ _ Hv) as Hle2.
  destruct (chain_watermark (xs ++ ys ++ rest)) as [c|], (chain_watermark (ys ++ rest)) as [b|],
    (chain_watermark rest) as [a|]; simpl in *; try done;
    repeat case_decide; simplify_eq; try done;
    first [f_equal; lia|lia|by assert (a = b) by lia; congruence].
Qed.

(** * The services implement the specification *)

Lemma head_hash_app xs t b rest :
  exists h, head_hash (xs ++ (t, b) :: rest) = Some h.
Proof. destruct xs as [|[h' b'] xs]; simpl; eauto. Qed.

(** Two parts of a chain have the same head only if there is nothing between. *)
Lemma same_head (l1 l2 : list HashedMetadataBlock) :
  NoDup (l1 ++ l2).*1 -> head_hash l2 = head_hash (l1 ++ l2) -> l1 = [].
Proof.
  destruct l1 as [|[h1 b1] l1], l2 as [|[h2 b2] l2]; try done. simpl. intros [Hn _]%NoDup_cons [= ->].
  exfalso. apply Hn. rewrite fmap_app. apply elem_of_app. right. by left.
Qed.

Lemma head_hash_nonempty (l : list HashedMetadataBlock) : l <> [] -> exists h, head_hash l = Some h.
Proof. destruct l as [|[h b] l]; [done|eauto]. Qed.

Section Proofs.
Context {C : BlockCodec} {BR RR : Type} `{!MetadataBlockRepository BR} `{!ReferenceRepository RR}.

Implicit Types (c : MetadataChainImpl BR RR) (l xs rest : list HashedMetadataBlock).

Lemma iter_interval_above fuel c h xs rest :
  linked (meta_block_repo c) (Some h) (xs ++ rest) -> length (xs ++ rest) < fuel ->
  iter_blocks_interval fuel c h (head_hash rest) false = Some (xs, Ok tt).
Proof.
  intros Hl Hf. destruct rest as [|[t b] rest].
  - rewrite app_nil_r in *. unfold iter_blocks_interval.
    by rewrite (interval_loop_all _ _ _ _ _ Hl Hf).
  - rewrite length_app in Hf. by apply (iter_interval_found _ _ _ _ _ _ _ false Hl); lia.
Qed.

Lemma previous_watermark_spec fuel c h rest :
  linked (meta_block_repo c) (Some h) rest -> length rest < fuel ->
  previous_watermark fuel c h = Some (Ok (chain_watermark rest)).
Proof.
  intros Hl Hf. unfold previous_watermark, SearchSingleDataBlockVisitor_next.
  rewrite (accept_one_by_hash_run _ _ _ _ _ _ Hl Hf (run_search_data NextDataBlock rest)). simpl.
  do 3 f_equal. unfold ssd_into_event, chain_watermark, latest_data. simpl. f_equal.
  clear. induction rest as [|hb rest IH]; [done|]. simpl.
  unfold data_block_matches at 1, as_data_stream_block.
  by destruct (as_data_stream_event (mb_event hb.2)).
Qed.

(** The increment between two blocks of a chain is exact. *)
Lemma make_increment_exact fuel c h xs rest :
  linked (meta_block_repo c) (Some h) (xs ++ rest) -> valid_chain (xs ++ rest) ->
  length (xs ++ rest) < fuel ->
  make_increment_from_interval fuel c (head_hash rest) h = Some (Ok (increment_of xs rest)).
Proof.
  intros Hl Hv Hf. unfold make_increment_from_interval.
  rewrite (iter_interval_above _ _ _ _ _ Hl Hf).
  destruct (scan_blocks_spec xs (mkIntervalScan 0 0 None None)) as (Hb & Hr & Hw);
    [unfold in_u64, two64; simpl; lia..|].
  simpl in Hb, Hr, Hw. pose proof (watermarks_valid _ _ Hv) as Hws.
  unfold finish_scan, increment_of. rewrite Hb, Hr.
  destruct (watermarks xs) as [|w ws]; simpl in Hw.
  - injection Hw as -> ->. by rewrite decide_True.
  - rewrite scan_watermarks_spec in Hw. injection Hw as -> ->.
    destruct Hws as [Hw Hws]. rewrite Hw. destruct (decide (Forall (eq w) ws)).
    + destruct rest as [|[t b] rest]; [by rewrite decide_False|].
      cbn [head_hash head option_map fst].
      rewrite (previous_watermark_spec fuel c t ((t, b) :: rest)); cycle 1.
      { by apply linked_app in Hl. }
      { rewrite length_app in Hf. lia. }
      simpl. do 3 f_equal. destruct (chain_watermark ((t, b) :: rest)) as [p|]; [|by rewrite decide_False].
      destruct (decide (p = w)) as [->|Hne].
      * rewrite decide_False by tauto. by rewrite decide_True.
      * rewrite decide_True by done. rewrite decide_False; congruence.
    + destruct Hws as [?|Hne]; [done|]. by rewrite decide_False by congruence.
Qed.

(** A head that is not part of the chain gives no increment. *)
Lemma make_increment_unknown fuel c h l t :
  linked (meta_block_repo c) (Some h) l -> length l < fuel -> t ∉ l.*1 ->
  make_increment_from_interval fuel c (Some t) h = Some (Err mkInternalError).
Proof.
  intros Hl Hf Ht. unfold make_increment_from_interval.
  by destruct (iter_interval_missing fuel c h l t false Hl Hf Ht) as [-> _].
Qed.

Section Changes.
Variable find_dataset_by_ref : DatasetRef -> res GetDatasetError (MetadataChainImpl BR RR).

Lemma increment_between_chain fuel c dataset_id old h :
  find_dataset_by_ref (DatasetRef_ID dataset_id) = Ok c ->
  get_increment_between find_dataset_by_ref fuel dataset_id old h =
  option_map (map_err GetIncrementError_Internal) (make_increment_from_interval fuel c old h).
Proof. intros Hc. unfold get_increment_between, resolve_dataset_by_id. by rewrite Hc. Qed.

Lemma increment_since_chain fuel c dataset_id old h :
  find_dataset_by_ref (DatasetRef_ID dataset_id) = Ok c -> resolve_ref c BlockRef_Head = Ok h ->
  get_increment_since find_dataset_by_ref fuel dataset_id old =
  option_map (map_err GetIncrementError_Internal) (make_increment_from_interval fuel c old h).
Proof.
  intros Hc Hh. unfold get_increment_since, resolve_dataset_by_id, resolve_dataset_head.
  unfold resolve_ref in Hh. rewrite Hc. simpl. by rewrite Hh.
Qed.
End Changes.

Section Reset.
Variable allowed : DatasetHandle -> DatasetAction -> res DatasetActionUnauthorizedError unit.

Lemma try_get_ref_head c o : head_is c o -> try_get_ref c BlockRef_Head = Ok o.
Proof.
  unfold head_is, append_actual_ref, try_get_ref, resolve_ref.
  destruct (rr_get _ _) as [|[]|]; congruence.
Qed.

Lemma reset_target_seed fuel c l :
  chain_state c l -> l <> [] -> length l < fuel ->
  exists l1 h b, l = l1 ++ [(h, b)] /\ reset_target fuel c None = Some (Ok h).
Proof.
  intros Hst Hne Hf. destruct (chain_state_head _ _ Hst Hne) as (h & Hh & _ & Hl).
  destruct (valid_chain_seed l (cs_valid _ _ Hst) Hne) as [e He].
  apply find_map_Some in He as (l1 & [hs bs] & l2 & -> & Hs & Hn).
  assert (l2 = []) as ->.
  { apply (seed_is_first l1 (hs, bs) l2 (cs_valid _ _ Hst)). simpl in *. by destruct (mb_event bs). }
  exists l1, hs, bs. split; [done|]. unfold reset_target.
  rewrite (accept_one_run _ _ _ _ _ _ Hh Hl Hf (run_search_typed _)). simpl.
  assert (find_map (fun hb : HashedMetadataBlock => option_map (pair hb.1) (into_typed (T := Seed) hb.2))
            (l1 ++ [(hs, bs)]) = option_map (pair hs) (into_typed (T := Seed) bs)) as ->.
  { rewrite find_map_app. rewrite (proj2 (find_map_None _ l1)).
    - simpl. by destruct (into_typed bs).
    - intros x Hx. pose proof (proj1 (find_map_None _ _) Hn x Hx) as Hxn. simpl in Hxn.
      unfold into_typed; simpl. by rewrite Hxn. }
  unfold into_typed; simpl in *. by rewrite Hs.
Qed.

(** Preparing a reset of a dataset one may write: the head given as the old
    one is compared with the current one. *)
Lemma reset_prepare_allowed fuel c l handle new old :
  chain_state c l -> l <> [] -> length l < fuel -> allowed handle DatasetAction_Write = Ok tt ->
  exists h, (new = Some h \/ new = None /\ exists l1 b, l = l1 ++ [(h, b)]) /\
    reset_prepare allowed fuel c handle new old =
    Some (match old, head_hash l with
          | Some o, Some current =>
              if decide (o <> current)
              then Err (ResetError_OldHeadMismatch (mkOldHeadMismatchError current o)) else Ok h
          | _, _ => Ok h
          end).
Proof.
  intros Hst Hne Hf Ha. unfold reset_prepare. rewrite Ha. simpl.
  assert (exists h, (new = Some h \/ new = None /\ exists l1 b, l = l1 ++ [(h, b)]) /\
    reset_target fuel c new = Some (Ok h)) as (h & Hh & ->).
  { destruct new as [h|]; [by exists h; auto|].
    destruct (reset_target_seed _ _ _ Hst Hne Hf) as (l1 & h & b & -> & ->). exists h. eauto 6. }
  exists h. split; [done|]. f_equal. simpl. unfold reset_check_old_head.
  destruct old as [o|]; [|done]. rewrite (try_get_ref_head _ _ (cs_head _ _ Hst)). simpl.
  destruct (head_hash l); [|done]. by case_decide.
Qed.

(** Setting a reference leaves the blocks alone, and nothing changes when it
    fails. *)
Lemma set_ref_frame `{!LawfulRefRepo RR} c r h opts x c' :
  set_ref c r h opts = (x, c') ->
  meta_block_repo c' = meta_block_repo c /\ (is_ok x = false -> c' = c).
Proof.
  unfold set_ref. destruct (let! _ := _ in _) as [[]| |]; [|by intros [= <- <-]..].
  destruct (rr_set _ _ _) as [z rr] eqn:Hr. intros [= <- <-]. split; [done|]. intros Hx.
  rewrite (rr_set_failed _ _ _ _ _ Hr) by by destruct z. by destruct c.
Qed.

(** Moving the head to a block of the chain keeps the blocks below it. *)
Lemma reset_move_head_state `{!LawfulRefRepo RR} c l1 h b l2 x c' :
  chain_state c (l1 ++ (h, b) :: l2) -> Multihash_wf h -> reset_move_head c h = (x, c') ->
  meta_block_repo c' = meta_block_repo c /\
  (x = Ok h /\ chain_state c' ((h, b) :: l2) \/ is_ok x = false /\ c' = c).
Proof.
  intros Hst Hwf. unfold reset_move_head.
  destruct (set_ref c BlockRef_Head h _) as [y c1] eqn:Hs. intros [= <- <-].
  destruct (set_ref_frame _ _ _ _ _ _ Hs) as [Hm Hc]. split; [done|].
  destruct y as [[]| |]; [left|right; auto..].
  split; [done|]. by eapply set_ref_reset.
Qed.
End Reset.
End Proofs.
