(* ===== verification/Rebac.v ===== *)
(** Relation-based access control: properties of datasets and accounts, and
    relations between them.

    Sources: src/domain/auth-rebac/domain/src (entities, the repository and
    service interfaces), src/infra/auth-rebac/inmem/src/repos/inmem_rebac_repository.rs,
    src/domain/auth-rebac/services/src (the service, and the consumer of dataset
    life-cycle messages).

    [RebacRepository] is the trait as a class.  [AccessMap] is its abstract
    state, and [LawfulRebacRepository] says that a repository is such a state,
    seen through [access_map]; the in-memory repository is proved to be one, and
    the service is verified against the interface.  A [HashMap] is a [gmap] and
    a [HashSet] a [gset]: what is collected from their iterators has no promised
    order. *)

From S2P Require Import Prelude Multiformats Identity Grammar Dids Dtos EventSourcing TaskSystem FlowSystem Outbox Messages.
From Stdlib Require Import Ascii.

(** * Entities *)

Inductive EntityType := EntityType_Dataset | EntityType_Account.

Record Entity := mkEntity { en_entity_type : EntityType; en_entity_id : str }.

Definition Entity_new_account (entity_id : str) : Entity := mkEntity EntityType_Account entity_id.
Definition Entity_new_dataset (entity_id : str) : Entity := mkEntity EntityType_Dataset entity_id.

Inductive DatasetPropertyName :=
| DatasetPropertyName_AllowsAnonymousRead
| DatasetPropertyName_AllowsPublicRead.

Inductive AccountPropertyName := AccountPropertyName_IsAnAdmin.

Inductive PropertyName :=
| PropertyName_Dataset (n : DatasetPropertyName)
| PropertyName_Account (n : AccountPropertyName).

Inductive AccountToDatasetRelation :=
| AccountToDatasetRelation_Reader
| AccountToDatasetRelation_Editor.

Inductive Relation := Relation_AccountToDataset (r : AccountToDatasetRelation).

Record EntityWithRelation := mkEntityWithRelation {
  ewr_entity : Entity;
  ewr_relation : Relation
}.

#[export] Instance EntityType_eq_dec : EqDecision EntityType.
Proof. solve_decision. Defined.
#[export] Instance Entity_eq_dec : EqDecision Entity.
Proof. solve_decision. Defined.
#[export] Instance DatasetPropertyName_eq_dec : EqDecision DatasetPropertyName.
Proof. solve_decision. Defined.
#[export] Instance AccountPropertyName_eq_dec : EqDecision AccountPropertyName.
Proof. solve_decision. Defined.
#[export] Instance PropertyName_eq_dec : EqDecision PropertyName.
Proof. solve_decision. Defined.
#[export] Instance AccountToDatasetRelation_eq_dec : EqDecision AccountToDatasetRelation.
Proof. solve_decision. Defined.
#[export] Instance Relation_eq_dec : EqDecision Relation.
Proof. solve_decision. Defined.

#[export] Instance EntityType_countable : Countable EntityType.
Proof.
  refine (inj_countable' (fun t => match t with EntityType_Dataset => true | EntityType_Account => false end)
    (fun b : bool => if b then EntityType_Dataset else EntityType_Account) _).
  by intros [].
Defined.
#[export] Instance Entity_countable : Countable Entity.
Proof.
  refine (inj_countable' (fun e => (en_entity_type e, en_entity_id e)) (fun p => mkEntity p.1 p.2) _).
  by intros [].
Defined.
#[export] Instance PropertyName_countable : Countable PropertyName.
Proof.
  refine (inj_countable' (fun n => match n with
    | PropertyName_Dataset DatasetPropertyName_AllowsAnonymousRead => 0
    | PropertyName_Dataset DatasetPropertyName_AllowsPublicRead => 1
    | PropertyName_Account AccountPropertyName_IsAnAdmin => 2
    end)
    (fun n => match n with
    | 0 => PropertyName_Dataset DatasetPropertyName_AllowsAnonymousRead
    | 1 => PropertyName_Dataset DatasetPropertyName_AllowsPublicRead
    | _ => PropertyName_Account AccountPropertyName_IsAnAdmin
    end) _).
  by intros [[]|[]].
Defined.
#[export] Instance Relation_countable : Countable Relation.
Proof.
  refine (inj_countable' (fun r => match r with
    | Relation_AccountToDataset AccountToDatasetRelation_Reader => true
    | Relation_AccountToDataset AccountToDatasetRelation_Editor => false
    end)
    (fun b : bool => Relation_AccountToDataset
       (if b then AccountToDatasetRelation_Reader else AccountToDatasetRelation_Editor)) _).
  by intros [[]].
Defined.

(** ** Text forms of names *)

Definition PROPERTY_GROUP_SEPARATOR : ascii := "/".
Definition PROPERTY_GROUP_DATASET : string := "dataset".
Definition PROPERTY_GROUP_ACCOUNT : string := "account".
Definition RELATION_GROUP_SEPARATOR : ascii := "/".
Definition RELATION_GROUP_ACCOUNT_TO_DATASET : string := "account->dataset".

(** The derived [Display] and [FromStr] of the three enumerations, in
    [snake_case]. *)
Definition DatasetPropertyName_fmt (n : DatasetPropertyName) : string :=
  match n with
  | DatasetPropertyName_AllowsAnonymousRead => "allows_anonymous_read"
  | DatasetPropertyName_AllowsPublicRead => "allows_public_read"
  end.

Definition DatasetPropertyName_from_str (s : string) : option DatasetPropertyName :=
  if decide (s = "allows_anonymous_read") then Some DatasetPropertyName_AllowsAnonymousRead
  else if decide (s = "allows_public_read") then Some DatasetPropertyName_AllowsPublicRead
  else None.

Definition AccountPropertyName_fmt (n : AccountPropertyName) : string :=
  match n with AccountPropertyName_IsAnAdmin => "is_an_admin" end.

Definition AccountPropertyName_from_str (s : string) : option AccountPropertyName :=
  if decide (s = "is_an_admin") then Some AccountPropertyName_IsAnAdmin else None.

Definition AccountToDatasetRelation_fmt (r : AccountToDatasetRelation) : string :=
  match r with
  | AccountToDatasetRelation_Reader => "reader"
  | AccountToDatasetRelation_Editor => "editor"
  end.

Definition AccountToDatasetRelation_from_str (s : string) : option AccountToDatasetRelation :=
  if decide (s = "reader") then Some AccountToDatasetRelation_Reader
  else if decide (s = "editor") then Some AccountToDatasetRelation_Editor
  else None.

(** [str::split] by one character, collected. *)
Fixpoint str_split (c : ascii) (s : string) : list string :=
  match s with
  | EmptyString => [EmptyString]
  | String a s' =>
      if decide (a = c) then EmptyString :: str_split c s'
      else match str_split c s' with
           | [] => [String a EmptyString]
           | x :: xs => String a x :: xs
           end
  end.

Definition PropertyName_fmt (n : PropertyName) : string :=
  match n with
  | PropertyName_Dataset p =>
      PROPERTY_GROUP_DATASET +:+ String PROPERTY_GROUP_SEPARATOR (DatasetPropertyName_fmt p)
  | PropertyName_Account p =>
      PROPERTY_GROUP_ACCOUNT +:+ String PROPERTY_GROUP_SEPARATOR (AccountPropertyName_fmt p)
  end.

Definition PropertyName_from_str (value : string) : res InternalError PropertyName :=
  match str_split PROPERTY_GROUP_SEPARATOR value with
  | [property_group; property_name] =>
      if decide (property_group = PROPERTY_GROUP_DATASET) then
        match DatasetPropertyName_from_str property_name with
        | Some p => Ok (PropertyName_Dataset p)
        | None => Err mkInternalError
        end
      else if decide (property_group = PROPERTY_GROUP_ACCOUNT) then
        match AccountPropertyName_from_str property_name with
        | Some p => Ok (PropertyName_Account p)
        | None => Err mkInternalError
        end
      else Err mkInternalError
  | _ => Err mkInternalError
  end.

Definition Relation_fmt (r : Relation) : string :=
  match r with
  | Relation_AccountToDataset relation =>
      RELATION_GROUP_ACCOUNT_TO_DATASET +:+
        String RELATION_GROUP_SEPARATOR (AccountToDatasetRelation_fmt relation)
  end.

Definition Relation_from_str (value : string) : res InternalError Relation :=
  match str_split RELATION_GROUP_SEPARATOR value with
  | [relation_group; relation_name] =>
      if decide (relation_group = RELATION_GROUP_ACCOUNT_TO_DATASET) then
        match AccountToDatasetRelation_from_str relation_name with
        | Some relation => Ok (Relation_AccountToDataset relation)
        | None => Err mkInternalError
        end
      else Err mkInternalError
  | _ => Err mkInternalError
  end.

Definition PropertyValue := string.

Definition DatasetPropertyName_allows_public_read (allows : bool)
    : DatasetPropertyName * PropertyValue :=
  (DatasetPropertyName_AllowsPublicRead, if allows then "true" else "false").

Definition PropertyName_dataset_allows_anonymous_read (allows : bool) : PropertyName * PropertyValue :=
  (PropertyName_Dataset DatasetPropertyName_AllowsAnonymousRead, if allows then "true" else "false").

Definition PropertyName_dataset_allows_public_read (allows : bool) : PropertyName * PropertyValue :=
  let property := DatasetPropertyName_allows_public_read allows in
  (PropertyName_Dataset property.1, property.2).

Definition property_group (n : PropertyName) : string :=
  match n with
  | PropertyName_Dataset _ => PROPERTY_GROUP_DATASET
  | PropertyName_Account _ => PROPERTY_GROUP_ACCOUNT
  end.

Definition relation_group (r : Relation) : string :=
  match r with Relation_AccountToDataset _ => RELATION_GROUP_ACCOUNT_TO_DATASET end.

(** * The repository *)

Inductive SetEntityPropertyError := SetEntityPropertyError_Internal (e : InternalError).

Record EntityNotFoundError := mkEntityNotFoundError { enf_entity : Entity }.
Record EntityPropertyNotFoundError := mkEntityPropertyNotFoundError {
  epn_entity : Entity;
  epn_property_name : PropertyName
}.

Inductive DeleteEntityPropertyError :=
| DeleteEntityPropertyError_NotFound (e : EntityPropertyNotFoundError)
| DeleteEntityPropertyError_Internal (e : InternalError).

Inductive DeleteEntityPropertiesError :=
| DeleteEntityPropertiesError_NotFound (e : EntityNotFoundError)
| DeleteEntityPropertiesError_Internal (e : InternalError).

Inductive GetEntityPropertiesError := GetEntityPropertiesError_Internal (e : InternalError).

Record InsertEntitiesRelationDuplicateError := mkInsertEntitiesRelationDuplicateError {
  ied_subject_entity : Entity;
  ied_relationship : Relation;
  ied_object_entity : Entity
}.
Record EntitiesRelationNotFoundError := mkEntitiesRelationNotFoundError {
  ern_subject_entity : Entity;
  ern_relationship : Relation;
  ern_object_entity : Entity
}.

Inductive InsertEntitiesRelationError :=
| InsertEntitiesRelationError_Duplicate (e : InsertEntitiesRelationDuplicateError)
| InsertEntitiesRelationError_Internal (e : InternalError).

Inductive DeleteEntitiesRelationError :=
| DeleteEntitiesRelationError_NotFound (e : EntitiesRelationNotFoundError)
| DeleteEntitiesRelationError_Internal (e : InternalError).

Inductive SubjectEntityRelationsError := SubjectEntityRelationsError_Internal (e : InternalError).
Inductive SubjectEntityRelationsByObjectTypeError :=
  SubjectEntityRelationsByObjectTypeError_Internal (e : InternalError).
Inductive GetRelationsBetweenEntitiesError :=
  GetRelationsBetweenEntitiesError_Internal (e : InternalError).

Class RebacRepository (R : Type) := {
  set_entity_property : Entity -> PropertyName -> PropertyValue ->
    action R SetEntityPropertyError unit;
  delete_entity_property : Entity -> PropertyName -> action R DeleteEntityPropertyError unit;
  delete_entity_properties : Entity -> action R DeleteEntityPropertiesError unit;
  get_entity_properties : R -> Entity ->
    res GetEntityPropertiesError (list (PropertyName * PropertyValue));
  insert_entities_relation : Entity -> Relation -> Entity ->
    action R InsertEntitiesRelationError unit;
  delete_entities_relation : Entity -> Relation -> Entity ->
    action R DeleteEntitiesRelationError unit;
  get_subject_entity_relations : R -> Entity ->
    res SubjectEntityRelationsError (list EntityWithRelation);
  get_subject_entity_relations_by_object_type : R -> Entity -> EntityType ->
    res SubjectEntityRelationsByObjectTypeError (list EntityWithRelation);
  get_relations_between_entities : R -> Entity -> Entity ->
    res GetRelationsBetweenEntitiesError (list Relation)
}.

(** ** In memory *)

Definition EntitiesRelationsRow : Type := Entity * Relation * Entity.

Definition EntitiesRelationsRow_new (subject_entity : Entity) (relationship : Relation)
    (object_entity : Entity) : EntitiesRelationsRow :=
  (subject_entity, relationship, object_entity).

(** [State] behind the lock, which every method holds while it runs. *)
Record InMemoryRebacRepository := mkInMemoryRebacRepository {
  irr_entities_properties_map : gmap Entity (gmap PropertyName PropertyValue);
  irr_entities_relations_rows : gset EntitiesRelationsRow
}.

Definition InMemoryRebacRepository_new : InMemoryRebacRepository := mkInMemoryRebacRepository ∅ ∅.

Definition get_rows {T} (r : InMemoryRebacRepository) (f : EntitiesRelationsRow -> option T) : list T :=
  omap f (elements (irr_entities_relations_rows r)).

Definition inmem_set_entity_property (entity : Entity) (property_name : PropertyName)
    (property_value : PropertyValue)
    : action InMemoryRebacRepository SetEntityPropertyError unit := fun r =>
  let entity_properties := default ∅ (irr_entities_properties_map r !! entity) in
  (Ok tt, mkInMemoryRebacRepository
     (<[entity := <[property_name := property_value]> entity_properties]>
        (irr_entities_properties_map r))
     (irr_entities_relations_rows r)).

Definition inmem_delete_entity_property (entity : Entity) (property_name : PropertyName)
    : action InMemoryRebacRepository DeleteEntityPropertyError unit := fun r =>
  let not_found := Err (DeleteEntityPropertyError_NotFound
                          (mkEntityPropertyNotFoundError entity property_name)) in
  match irr_entities_properties_map r !! entity with
  | None => (not_found, r)
  | Some entity_properties =>
      (match entity_properties !! property_name with Some _ => Ok tt | None => not_found end,
       mkInMemoryRebacRepository
         (<[entity := delete property_name entity_properties]> (irr_entities_properties_map r))
         (irr_entities_relations_rows r))
  end.

Definition inmem_delete_entity_properties (entity : Entity)
    : action InMemoryRebacRepository DeleteEntityPropertiesError unit := fun r =>
  (match irr_entities_properties_map r !! entity with
   | Some _ => Ok tt
   | None => Err (DeleteEntityPropertiesError_NotFound (mkEntityNotFoundError entity))
   end,
   mkInMemoryRebacRepository (delete entity (irr_entities_properties_map r))
     (irr_entities_relations_rows r)).

Definition inmem_get_entity_properties (r : InMemoryRebacRepository) (entity : Entity)
    : res GetEntityPropertiesError (list (PropertyName * PropertyValue)) :=
  match irr_entities_properties_map r !! entity with
  | None => Ok []
  | Some entity_properties => Ok (map_to_list entity_properties)
  end.

Definition inmem_insert_entities_relation (subject_entity : Entity) (relationship : Relation)
    (object_entity : Entity)
    : action InMemoryRebacRepository InsertEntitiesRelationError unit := fun r =>
  let row := EntitiesRelationsRow_new subject_entity relationship object_entity in
  if decide (row ∈ irr_entities_relations_rows r) then
    (Err (InsertEntitiesRelationError_Duplicate
            (mkInsertEntitiesRelationDuplicateError subject_entity relationship object_entity)), r)
  else
    (Ok tt, mkInMemoryRebacRepository (irr_entities_properties_map r)
              ({[row]} ∪ irr_entities_relations_rows r)).

Definition inmem_delete_entities_relation (subject_entity : Entity) (relationship : Relation)
    (object_entity : Entity)
    : action InMemoryRebacRepository DeleteEntitiesRelationError unit := fun r =>
  let row := EntitiesRelationsRow_new subject_entity relationship object_entity in
  (if decide (row ∈ irr_entities_relations_rows r) then Ok tt
   else Err (DeleteEntitiesRelationError_NotFound
               (mkEntitiesRelationNotFoundError subject_entity relationship object_entity)),
   mkInMemoryRebacRepository (irr_entities_properties_map r)
     (irr_entities_relations_rows r ∖ {[row]})).

Definition inmem_get_subject_entity_relations (r : InMemoryRebacRepository) (subject_entity : Entity)
    : res SubjectEntityRelationsError (list EntityWithRelation) :=
  Ok (get_rows r (fun '(subject, relationship, object) =>
        if decide (subject = subject_entity)
        then Some (mkEntityWithRelation object relationship) else None)).

Definition inmem_get_subject_entity_relations_by_object_type (r : InMemoryRebacRepository)
    (subject_entity : Entity) (object_entity_type : EntityType)
    : res SubjectEntityRelationsByObjectTypeError (list EntityWithRelation) :=
  Ok (get_rows r (fun '(subject, relationship, object) =>
        if decide (subject = subject_entity /\ en_entity_type object = object_entity_type)
        then Some (mkEntityWithRelation object relationship) else None)).

Definition inmem_get_relations_between_entities (r : InMemoryRebacRepository)
    (subject_entity object_entity : Entity)
    : res GetRelationsBetweenEntitiesError (list Relation) :=
  Ok (get_rows r (fun '(subject, relationship, object) =>
        if decide (subject = subject_entity /\ object = object_entity)
        then Some relationship else None)).

#[export] Instance inmem_rebac_repository : RebacRepository InMemoryRebacRepository := {|
  set_entity_property := inmem_set_entity_property;
  delete_entity_property := inmem_delete_entity_property;
  delete_entity_properties := inmem_delete_entity_properties;
  get_entity_properties := inmem_get_entity_properties;
  insert_entities_relation := inmem_insert_entities_relation;
  delete_entities_relation := inmem_delete_entities_relation;
  get_subject_entity_relations := inmem_get_subject_entity_relations;
  get_subject_entity_relations_by_object_type := inmem_get_subject_entity_relations_by_object_type;
  get_relations_between_entities := inmem_get_relations_between_entities
|}.

(** * The service *)

Inductive UnsetEntityPropertyError :=
| UnsetEntityPropertyError_NotFound (e : EntityNotFoundError)
| UnsetEntityPropertyError_Internal (e : InternalError).
Inductive DeletePropertiesError := DeletePropertiesError_Internal (e : InternalError).
Inductive InsertRelationError := InsertRelationError_Internal (e : InternalError).
Inductive DeleteRelationError := DeleteRelationError_Internal (e : InternalError).

(** What the service does with the outcome of a repository call: [result] keeps
    the state the call left. *)
Definition map_outcome {R E F A} (f : res E A -> res F A) (m : action R E A) : action R F A :=
  fun r => let '(x, r') := m r in (f x, r').

Definition map_delete_entity_property_result (x : res DeleteEntityPropertyError unit)
    : res UnsetEntityPropertyError unit :=
  match x with
  | Ok _ => Ok tt
  | Err (DeleteEntityPropertyError_NotFound _) => Ok tt
  | Err (DeleteEntityPropertyError_Internal e) => Err (UnsetEntityPropertyError_Internal e)
  | Panic => Panic
  end.

Section Service.
Context `{TextCodecs} {R : Type} `{!RebacRepository R}.

(** [as_did_str().to_stack_string()] *)
Definition account_entity {E} (account_id : AccountID) : res E Entity :=
  match DidOdf_as_did_str (ac_did account_id) with
  | Ok s => Ok (Entity_new_account s)
  | _ => Panic
  end.

Definition dataset_entity {E} (dataset_id : DatasetID) : res E Entity :=
  match DidOdf_as_did_str (did_did dataset_id) with
  | Ok s => Ok (Entity_new_dataset s)
  | _ => Panic
  end.

Definition set_account_property (account_id : AccountID) (property_name : AccountPropertyName)
    (property_value : PropertyValue) : action R SetEntityPropertyError unit :=
  e ← lift (account_entity account_id);
  set_entity_property e (PropertyName_Account property_name) property_value.

Definition unset_account_property (account_id : AccountID) (property_name : AccountPropertyName)
    : action R UnsetEntityPropertyError unit :=
  e ← lift (account_entity account_id);
  map_outcome map_delete_entity_property_result
    (delete_entity_property e (PropertyName_Account property_name)).

Definition get_account_properties (r : R) (account_id : AccountID)
    : res GetEntityPropertiesError (list (PropertyName * PropertyValue)) :=
  let! e := account_entity account_id in get_entity_properties r e.

Definition set_dataset_property (dataset_id : DatasetID) (property_name : DatasetPropertyName)
    (property_value : PropertyValue) : action R SetEntityPropertyError unit :=
  e ← lift (dataset_entity dataset_id);
  set_entity_property e (PropertyName_Dataset property_name) property_value.

Definition unset_dataset_property (dataset_id : DatasetID) (property_name : DatasetPropertyName)
    : action R UnsetEntityPropertyError unit :=
  e ← lift (dataset_entity dataset_id);
  map_outcome map_delete_entity_property_result
    (delete_entity_property e (PropertyName_Dataset property_name)).

Definition delete_dataset_properties (dataset_id : DatasetID) : action R DeletePropertiesError unit :=
  e ← lift (dataset_entity dataset_id);
  map_outcome (fun x =>
    match x with
    | Ok _ => Ok tt
    | Err (DeleteEntityPropertiesError_NotFound _) => Ok tt
    | Err (DeleteEntityPropertiesError_Internal e) => Err (DeletePropertiesError_Internal e)
    | Panic => Panic
    end) (delete_entity_properties e).

Definition get_dataset_properties (r : R) (dataset_id : DatasetID)
    : res GetEntityPropertiesError (list (PropertyName * PropertyValue)) :=
  let! e := dataset_entity dataset_id in get_entity_properties r e.

Definition insert_account_dataset_relation (account_id : AccountID)
    (relationship : AccountToDatasetRelation) (dataset_id : DatasetID)
    : action R InsertRelationError unit :=
  a ← lift (account_entity account_id);
  d ← lift (dataset_entity dataset_id);
  map_outcome (fun x =>
    match x with
    | Ok _ => Ok tt
    | Err (InsertEntitiesRelationError_Duplicate _) => Ok tt
    | Err (InsertEntitiesRelationError_Internal e) => Err (InsertRelationError_Internal e)
    | Panic => Panic
    end) (insert_entities_relation a (Relation_AccountToDataset relationship) d).

Definition delete_account_dataset_relation (account_id : AccountID)
    (relationship : AccountToDatasetRelation) (dataset_id : DatasetID)
    : action R DeleteRelationError unit :=
  a ← lift (account_entity account_id);
  d ← lift (dataset_entity dataset_id);
  map_outcome (fun x =>
    match x with
    | Ok _ => Ok tt
    | Err (DeleteEntitiesRelationError_NotFound _) => Ok tt
    | Err (DeleteEntitiesRelationError_Internal e) => Err (DeleteRelationError_Internal e)
    | Panic => Panic
    end) (delete_entities_relation a (Relation_AccountToDataset relationship) d).

Definition get_account_dataset_relations (r : R) (account_id : AccountID)
    : res SubjectEntityRelationsError (list EntityWithRelation) :=
  let! a := account_entity account_id in get_subject_entity_relations r a.

(** ** The consumer of dataset life-cycle messages *)

Definition handle_dataset_lifecycle_created_message (message : DatasetLifecycleMessageCreated)
    : action R InternalError unit :=
  let allows := DatasetVisibility_is_public (dlc_dataset_visibility message) in
  let '(name, value) := DatasetPropertyName_allows_public_read allows in
  map_outcome int_err (set_dataset_property (dlc_dataset_id message) name value).

Definition handle_dataset_lifecycle_deleted_message (message : DatasetLifecycleMessageDeleted)
    : action R InternalError unit :=
  map_outcome int_err (delete_dataset_properties (dld_dataset_id message)).

Definition consume_message (message : DatasetLifecycleMessage) : action R InternalError unit :=
  match message with
  | DatasetLifecycleMessage_Created message => handle_dataset_lifecycle_created_message message
  | DatasetLifecycleMessage_Deleted message => handle_dataset_lifecycle_deleted_message message
  | DatasetLifecycleMessage_DependenciesUpdated _ => mret tt
  end.
End Service.

(** * The specification *)

(** Properties by entity and name, and the relations. *)
Record AccessMap := mkAccessMap {
  am_properties : gmap (Entity * PropertyName) PropertyValue;
  am_relations : gset EntitiesRelationsRow
}.

Definition am_set (e : Entity) (p : PropertyName) (v : PropertyValue) (m : AccessMap) : AccessMap :=
  mkAccessMap (<[(e, p) := v]> (am_properties m)) (am_relations m).
Definition am_unset (e : Entity) (p : PropertyName) (m : AccessMap) : AccessMap :=
  mkAccessMap (delete (e, p) (am_properties m)) (am_relations m).
Definition am_clear (e : Entity) (m : AccessMap) : AccessMap :=
  mkAccessMap (filter (fun x => x.1.1 <> e) (am_properties m)) (am_relations m).
Definition am_relate (row : EntitiesRelationsRow) (m : AccessMap) : AccessMap :=
  mkAccessMap (am_properties m) ({[row]} ∪ am_relations m).
Definition am_unrelate (row : EntitiesRelationsRow) (m : AccessMap) : AccessMap :=
  mkAccessMap (am_properties m) (am_relations m ∖ {[row]}).

(** What the service relies on: a call that reports success did its work, a call
    that fails changed nothing, and "not found" and "duplicate" are true. *)
Class LawfulRebacRepository (R : Type) `{RebacRepository R} := {
  access_map : R -> AccessMap;
  set_entity_property_law r e p v x r' : set_entity_property e p v r = (x, r') ->
    match x with
    | Ok _ => access_map r' = am_set e p v (access_map r)
    | Err _ => access_map r' = access_map r
    | Panic => False
    end;
  delete_entity_property_law r e p x r' : delete_entity_property e p r = (x, r') ->
    match x with
    | Ok _ => access_map r' = am_unset e p (access_map r)
    | Err (DeleteEntityPropertyError_NotFound _) =>
        am_properties (access_map r) !! (e, p) = None /\ access_map r' = access_map r
    | Err (DeleteEntityPropertyError_Internal _) => access_map r' = access_map r
    | Panic => False
    end;
  delete_entity_properties_law r e x r' : delete_entity_properties e r = (x, r') ->
    match x with
    | Ok _ => access_map r' = am_clear e (access_map r)
    | Err (DeleteEntityPropertiesError_NotFound _) =>
        (forall p, am_properties (access_map r) !! (e, p) = None) /\ access_map r' = access_map r
    | Err (DeleteEntityPropertiesError_Internal _) => access_map r' = access_map r
    | Panic => False
    end;
  get_entity_properties_law r e : get_entity_properties r e <> Panic /\
    forall l, get_entity_properties r e = Ok l ->
      lists l (fun x => am_properties (access_map r) !! (e, x.1) = Some x.2);
  insert_entities_relation_law r s k o x r' : insert_entities_relation s k o r = (x, r') ->
    match x with
    | Ok _ => access_map r' = am_relate (s, k, o) (access_map r)
    | Err (InsertEntitiesRelationError_Duplicate _) =>
        (s, k, o) ∈ am_relations (access_map r) /\ access_map r' = access_map r
    | Err (InsertEntitiesRelationError_Internal _) => access_map r' = access_map r
    | Panic => False
    end;
  delete_entities_relation_law r s k o x r' : delete_entities_relation s k o r = (x, r') ->
    match x with
    | Ok _ => access_map r' = am_unrelate (s, k, o) (access_map r)
    | Err (DeleteEntitiesRelationError_NotFound _) =>
        ~ (s, k, o) ∈ am_relations (access_map r) /\ access_map r' = access_map r
    | Err (DeleteEntitiesRelationError_Internal _) => access_map r' = access_map r
    | Panic => False
    end;
  get_subject_entity_relations_law r s : get_subject_entity_relations r s <> Panic /\
    forall l, get_subject_entity_relations r s = Ok l ->
      lists l (fun x => (s, ewr_relation x, ewr_entity x) ∈ am_relations (access_map r));
  get_relations_by_type_law r s t : get_subject_entity_relations_by_object_type r s t <> Panic /\
    forall l, get_subject_entity_relations_by_object_type r s t = Ok l ->
      lists l (fun x => (s, ewr_relation x, ewr_entity x) ∈ am_relations (access_map r) /\
                        en_entity_type (ewr_entity x) = t);
  get_relations_between_law r s o : get_relations_between_entities r s o <> Panic /\
    forall l, get_relations_between_entities r s o = Ok l ->
      lists l (fun k => (s, k, o) ∈ am_relations (access_map r))
}.

(** ** The in-memory repository is such a state *)

Definition inmem_access_map (r : InMemoryRebacRepository) : AccessMap :=
  mkAccessMap (map_uncurry (M1 := gmap Entity) (M2 := gmap PropertyName) (irr_entities_properties_map r))
    (irr_entities_relations_rows r).

Lemma AccessMap_eq a b :
  (forall e p, am_properties a !! (e, p) = am_properties b !! (e, p)) ->
  am_relations a = am_relations b -> a = b.
Proof.
  destruct a, b; simpl. intros Hp ->. f_equal. apply map_eq. intros [e p]. apply Hp.
Qed.

Lemma inmem_property r e p :
  am_properties (inmem_access_map r) !! (e, p) = irr_entities_properties_map r !! e ≫= (.!! p).
Proof. apply lookup_map_uncurry. Qed.

Lemma am_clear_lookup e m e' p :
  am_properties (am_clear e m) !! (e', p) = if decide (e' = e) then None else am_properties m !! (e', p).
Proof.
  simpl. case_decide; subst.
  - apply map_lookup_filter_None. right. intros v _ Hne. by apply Hne.
  - destruct (am_properties m !! (e', p)) eqn:Hl.
    + by apply map_lookup_filter_Some.
    + apply map_lookup_filter_None. by left.
Qed.

Lemma am_set_lookup e p v m e' p' :
  am_properties (am_set e p v m) !! (e', p') =
  if decide (e = e' /\ p = p') then Some v else am_properties m !! (e', p').
Proof.
  simpl. case_decide as Heq; [destruct Heq as [-> ->]; apply lookup_insert_eq|].
  apply lookup_insert_ne. intros [= -> ->]. by apply Heq.
Qed.

(** The rows a query selects, when it keeps what it does not fix. *)
Lemma get_rows_lists {T} r (f : EntitiesRelationsRow -> option T) (g : T -> EntitiesRelationsRow)
    (Q : T -> Prop) :
  (forall row x, f row = Some x <-> row = g x /\ Q x) -> Inj (=) (=) g ->
  lists (get_rows r f) (fun x => g x ∈ irr_entities_relations_rows r /\ Q x).
Proof.
  intros Hf Hg. unfold get_rows. split.
  - generalize (NoDup_elements (irr_entities_relations_rows r)).
    induction (elements _) as [|row l IH]; intros Hnd; [constructor|].
    apply NoDup_cons in Hnd as [Hnin Hnd]. simpl.
    destruct (f row) as [x|] eqn:Hx; [|by apply IH]. constructor; [|by apply IH].
    intros (row' & Hin & Hx')%list_elem_of_omap.
    apply Hf in Hx as [-> _]. by apply Hf in Hx' as [-> _].
  - intros x. rewrite list_elem_of_omap. split.
    + intros (row & Hin & Hx). apply Hf in Hx as [-> HQ]. by apply elem_of_elements in Hin.
    + intros [Hin HQ]. exists (g x). split; [by apply elem_of_elements|by apply Hf].
Qed.

#[export] Program Instance inmem_rebac_lawful : LawfulRebacRepository InMemoryRebacRepository := {|
  access_map := inmem_access_map
|}.
Next Obligation.
  intros r e p v x r' [= <- <-]. apply AccessMap_eq; [|done]. intros e' p'.
  rewrite inmem_property. simpl. destruct (decide (e = e')) as [->|He].
  - rewrite lookup_insert_eq. simpl. destruct (decide (p = p')) as [->|Hp].
    + by rewrite !lookup_insert_eq.
    + rewrite !lookup_insert_ne by congruence. rewrite lookup_map_uncurry.
      by destruct (irr_entities_properties_map r !! e').
  - rewrite !lookup_insert_ne by congruence. by rewrite lookup_map_uncurry.
Qed.
Next Obligation.
  intros r e p x r'. simpl. unfold inmem_delete_entity_property.
  destruct (irr_entities_properties_map r !! e) as [ps|] eqn:He.
  2: { intros [= <- <-]. by rewrite lookup_map_uncurry, He. }
  assert (Hd : inmem_access_map (mkInMemoryRebacRepository
                 (<[e := delete p ps]> (irr_entities_properties_map r)) (irr_entities_relations_rows r))
               = am_unset e p (inmem_access_map r)).
  { apply AccessMap_eq; [|done]. intros e' p'. rewrite inmem_property. simpl.
    destruct (decide (e = e')) as [->|Hne].
    - rewrite lookup_insert_eq. simpl. destruct (decide (p = p')) as [->|Hp].
      + by rewrite !lookup_delete_eq.
      + rewrite !lookup_delete_ne by congruence. by rewrite lookup_map_uncurry, He.
    - rewrite lookup_insert_ne, lookup_delete_ne by congruence. by rewrite lookup_map_uncurry. }
  intros [= <- <-]. destruct (ps !! p) eqn:Hp; [done|].
  assert (Hn : am_properties (inmem_access_map r) !! (e, p) = None)
    by by rewrite inmem_property, He.
  split; [done|]. rewrite Hd. apply AccessMap_eq; [|done]. intros e' p'. simpl.
  destruct (decide ((e, p) = (e', p'))) as [[= <- <-]|Hne].
  - by rewrite lookup_delete_eq.
  - by rewrite lookup_delete_ne.
Qed.
Next Obligation.
  intros r e x r'. simpl. unfold inmem_delete_entity_properties. intros [= <- <-].
  assert (Hd : inmem_access_map (mkInMemoryRebacRepository (delete e (irr_entities_properties_map r))
                 (irr_entities_relations_rows r)) = am_clear e (inmem_access_map r)).
  { apply AccessMap_eq; [|done]. intros e' p'. rewrite am_clear_lookup, !inmem_property. simpl.
    case_decide; subst; [by rewrite lookup_delete_eq|by rewrite lookup_delete_ne by congruence]. }
  destruct (irr_entities_properties_map r !! e) eqn:He; [done|]. split.
  - intros p. by rewrite lookup_map_uncurry, He.
  - by rewrite delete_id.
Qed.
Next Obligation.
  intros r e. simpl. unfold inmem_get_entity_properties. split; [by case_match|]. intros l.
  destruct (irr_entities_properties_map r !! e) as [ps|] eqn:He; intros [= <-].
  - split; [apply NoDup_map_to_list|]. intros [p v].
    rewrite elem_of_map_to_list, lookup_map_uncurry, He. done.
  - split; [constructor|]. intros [p v]. rewrite lookup_map_uncurry, He. simpl.
    split; [by intros ?%elem_of_nil|done].
Qed.
Next Obligation.
  intros r s k o x r'. simpl. unfold inmem_insert_entities_relation. case_decide; intros [= <- <-]; done.
Qed.
Next Obligation.
  intros r s k o x r'. simpl. unfold inmem_delete_entities_relation, EntitiesRelationsRow_new.
  intros [= <- <-]. case_decide as Hin; [done|]. split; [done|].
  unfold inmem_access_map; simpl. f_equal. set_solver.
Qed.
Next Obligation.
  intros r s. split; [done|]. intros l [= <-]. simpl.
  eapply lists_ext, (get_rows_lists r _ (fun x => (s, ewr_relation x, ewr_entity x)) (fun _ => True)).
  - simpl. tauto.
  - intros [[s' k] o] [o' k']. simpl. case_decide; split; naive_solver.
  - intros [] [] [=]. by subst.
Qed.
Next Obligation.
  intros r s t. split; [done|]. intros l [= <-]. simpl.
  eapply lists_ext, (get_rows_lists r _ (fun x => (s, ewr_relation x, ewr_entity x))
                       (fun x => en_entity_type (ewr_entity x) = t)).
  - done.
  - intros [[s' k] o] [o' k']. simpl. case_decide; split; naive_solver.
  - intros [] [] [=]. by subst.
Qed.
Next Obligation.
  intros r s o. split; [done|]. intros l [= <-]. simpl.
  eapply lists_ext, (get_rows_lists r _ (fun k => (s, k, o)) (fun _ => True)).
  - simpl. tauto.
  - intros [[s' k] o'] k'. simpl. case_decide; split; naive_solver.
  - by intros k k' [= ->].
Qed.

(** * The service against the interface *)

(** The requests that change something. *)
Inductive RebacRequest :=
| RebacRequest_SetAccountProperty (id : AccountID) (n : AccountPropertyName) (v : PropertyValue)
| RebacRequest_UnsetAccountProperty (id : AccountID) (n : AccountPropertyName)
| RebacRequest_SetDatasetProperty (id : DatasetID) (n : DatasetPropertyName) (v : PropertyValue)
| RebacRequest_UnsetDatasetProperty (id : DatasetID) (n : DatasetPropertyName)
| RebacRequest_DeleteDatasetProperties (id : DatasetID)
| RebacRequest_InsertRelation (a : AccountID) (r : AccountToDatasetRelation) (d : DatasetID)
| RebacRequest_DeleteRelation (a : AccountID) (r : AccountToDatasetRelation) (d : DatasetID).

(** The identifiers of a request have text forms. *)
Definition request_ids_ok (req : RebacRequest) : Prop :=
  let account (id : AccountID) := DidKey_ok (do_did (ac_did id)) in
  let dataset (id : DatasetID) := DidKey_ok (do_did (did_did id)) in
  match req with
  | RebacRequest_SetAccountProperty id _ _ | RebacRequest_UnsetAccountProperty id _ => account id
  | RebacRequest_SetDatasetProperty id _ _ | RebacRequest_UnsetDatasetProperty id _
  | RebacRequest_DeleteDatasetProperties id => dataset id
  | RebacRequest_InsertRelation a _ d | RebacRequest_DeleteRelation a _ d => account a /\ dataset d
  end.

Section Refinement.
Context `{LawfulTextCodecs}.

(** The entity of an identifier, for identifiers that have one. *)
Definition account_entity_of (id : AccountID) : Entity :=
  match account_entity (E := unit) id with Ok e => e | _ => Entity_new_account [] end.
Definition dataset_entity_of (id : DatasetID) : Entity :=
  match dataset_entity (E := unit) id with Ok e => e | _ => Entity_new_dataset [] end.

Definition request_spec (req : RebacRequest) : AccessMap -> AccessMap :=
  match req with
  | RebacRequest_SetAccountProperty id n v => am_set (account_entity_of id) (PropertyName_Account n) v
  | RebacRequest_UnsetAccountProperty id n => am_unset (account_entity_of id) (PropertyName_Account n)
  | RebacRequest_SetDatasetProperty id n v => am_set (dataset_entity_of id) (PropertyName_Dataset n) v
  | RebacRequest_UnsetDatasetProperty id n => am_unset (dataset_entity_of id) (PropertyName_Dataset n)
  | RebacRequest_DeleteDatasetProperties id => am_clear (dataset_entity_of id)
  | RebacRequest_InsertRelation a r d =>
      am_relate (account_entity_of a, Relation_AccountToDataset r, dataset_entity_of d)
  | RebacRequest_DeleteRelation a r d =>
      am_unrelate (account_entity_of a, Relation_AccountToDataset r, dataset_entity_of d)
  end.

Lemma account_entity_ok {E} (id : AccountID) : DidKey_ok (do_did (ac_did id)) ->
  account_entity (E := E) id = Ok (account_entity_of id).
Proof.
  intros Hok. unfold account_entity_of, account_entity, DidOdf_as_did_str.
  by destruct (did_odf_text_inverse (ac_did id) Multibase_Base16 Hok) as (m & -> & _).
Qed.

Lemma dataset_entity_ok {E} (id : DatasetID) : DidKey_ok (do_did (did_did id)) ->
  dataset_entity (E := E) id = Ok (dataset_entity_of id).
Proof.
  intros Hok. unfold dataset_entity_of, dataset_entity, DidOdf_as_did_str.
  by destruct (did_odf_text_inverse (did_did id) Multibase_Base16 Hok) as (m & -> & _).
Qed.

(** Different datasets are different entities, and no dataset is an account. *)
Lemma dataset_entity_inj (a b : DatasetID) :
  DidKey_ok (do_did (did_did a)) -> DidKey_ok (do_did (did_did b)) ->
  dataset_entity_of a = dataset_entity_of b -> a = b.
Proof.
  unfold dataset_entity_of, dataset_entity, DidOdf_as_did_str. intros Ha Hb.
  destruct (did_odf_text_inverse (did_did a) Multibase_Base16 Ha) as (x & -> & Hx & _).
  destruct (did_odf_text_inverse (did_did b) Multibase_Base16 Hb) as (y & -> & Hy & _).
  intros [= ->]. destruct a, b. simpl in *. congruence.
Qed.

Lemma dataset_entity_type id : en_entity_type (dataset_entity_of id) = EntityType_Dataset.
Proof. unfold dataset_entity_of, dataset_entity. by destruct (DidOdf_as_did_str _). Qed.

Section Requests.
Context {R : Type} `{!RebacRepository R}.

(** A request to the service, with the error types erased. *)
Definition service_request (req : RebacRequest) : action R InternalError unit :=
  match req with
  | RebacRequest_SetAccountProperty id n v => map_outcome int_err (set_account_property id n v)
  | RebacRequest_UnsetAccountProperty id n => map_outcome int_err (unset_account_property id n)
  | RebacRequest_SetDatasetProperty id n v => map_outcome int_err (set_dataset_property id n v)
  | RebacRequest_UnsetDatasetProperty id n => map_outcome int_err (unset_dataset_property id n)
  | RebacRequest_DeleteDatasetProperties id => map_outcome int_err (delete_dataset_properties id)
  | RebacRequest_InsertRelation a r d => map_outcome int_err (insert_account_dataset_relation a r d)
  | RebacRequest_DeleteRelation a r d => map_outcome int_err (delete_account_dataset_relation a r d)
  end.

Context `{!LawfulRebacRepository R}.

Lemma am_unset_absent e p m : am_properties m !! (e, p) = None -> am_unset e p m = m.
Proof. intros Hn. destruct m. unfold am_unset; simpl in *. by rewrite delete_id. Qed.

Lemma am_clear_absent e m : (forall p, am_properties m !! (e, p) = None) -> am_clear e m = m.
Proof.
  intros Hn. apply AccessMap_eq; [|done]. intros e' p. rewrite am_clear_lookup.
  case_decide; by subst.
Qed.

Lemma am_relate_present row m : row ∈ am_relations m -> am_relate row m = m.
Proof. intros Hin. destruct m. unfold am_relate; simpl in *. f_equal. set_solver. Qed.

Lemma am_unrelate_absent row m : ~ row ∈ am_relations m -> am_unrelate row m = m.
Proof. intros Hin. destruct m. unfold am_unrelate; simpl in *. f_equal. set_solver. Qed.

(** A request does what the specification says, or fails internally and
    changes nothing. *)
Definition request_outcome (x : res InternalError unit) (before after spec : AccessMap) : Prop :=
  x = Ok tt /\ after = spec \/ x = Err mkInternalError /\ after = before.

(** Each kind of call, with the errors the service forgives. *)
Ltac repository_call law keep :=
  let y := fresh "y" in let r1 := fresh "r" in let e := fresh "e" in let Hc := fresh "Hc" in
  unfold map_outcome, request_outcome;
  match goal with
  | |- context [match ?m with pair _ _ => _ end] =>
      lazymatch m with
      | match _ with pair _ _ => _ end => fail
      | _ => destruct m as [y r1] eqn:Hc
      end
  end;
  apply law in Hc; destruct y as [[]|e|]; [by left| |done];
  destruct e; simpl in *; repeat match goal with e : InternalError |- _ => destruct e end;
  first [by right|destruct Hc as [Hc ->]; left; by rewrite keep].

Lemma set_call r e p v :
  let '(x, r') := set_entity_property e p v r in
  request_outcome (int_err x) (access_map r) (access_map r') (am_set e p v (access_map r)).
Proof. repository_call set_entity_property_law am_unset_absent. Qed.

Lemma unset_call r e p :
  let '(x, r') := map_outcome map_delete_entity_property_result (delete_entity_property e p) r in
  request_outcome (int_err x) (access_map r) (access_map r') (am_unset e p (access_map r)).
Proof. repository_call delete_entity_property_law am_unset_absent. Qed.

Lemma service_request_refines req r x r' :
  request_ids_ok req -> service_request req r = (x, r') ->
  request_outcome x (access_map r) (access_map r') (request_spec req (access_map r)).
Proof.
  intros Hok Hx. cut (let '(x, r') := service_request req r in
    request_outcome x (access_map r) (access_map r') (request_spec req (access_map r)));
    [by rewrite Hx|]. clear x r' Hx.
  destruct req as [id n v|id n|id n v|id n|id|a k d|a k d]; simpl in *;
    [idtac..|destruct Hok as [Ha Hd]|destruct Hok as [Ha Hd]];
    unfold map_outcome, set_account_property, unset_account_property, set_dataset_property,
    unset_dataset_property, delete_dataset_properties, insert_account_dataset_relation,
    delete_account_dataset_relation, mbind, action_bind, lift;
    rewrite ?account_entity_ok, ?dataset_entity_ok by done.
  - generalize (set_call r (account_entity_of id) (PropertyName_Account n) v).
    by destruct (set_entity_property _ _ _ r).
  - generalize (unset_call r (account_entity_of id) (PropertyName_Account n)).
    unfold map_outcome. by destruct (delete_entity_property _ _ r).
  - generalize (set_call r (dataset_entity_of id) (PropertyName_Dataset n) v).
    by destruct (set_entity_property _ _ _ r).
  - generalize (unset_call r (dataset_entity_of id) (PropertyName_Dataset n)).
    unfold map_outcome. by destruct (delete_entity_property _ _ r).
  - repository_call delete_entity_properties_law am_clear_absent.
  - repository_call insert_entities_relation_law am_relate_present.
  - repository_call delete_entities_relation_law am_unrelate_absent.
Qed.
End Requests.
End Refinement.

Lemma request_spec_idempotent `{LawfulTextCodecs} req m :
  request_spec req (request_spec req m) = request_spec req m.
Proof.
  destruct req; simpl; unfold am_set, am_unset, am_clear, am_relate, am_unrelate; simpl; f_equal;
    try apply insert_insert_eq; try apply delete_delete_eq; try set_solver.
  apply map_eq. intros i. rewrite !map_lookup_filter.
  destruct (am_properties m !! i); [|done]. simpl. by case_guard.
Qed.

(** ** Life-cycle messages *)

Definition message_request (message : DatasetLifecycleMessage) : option RebacRequest :=
  match message with
  | DatasetLifecycleMessage_Created m =>
      Some (RebacRequest_SetDatasetProperty (dlc_dataset_id m) DatasetPropertyName_AllowsPublicRead
              (if DatasetVisibility_is_public (dlc_dataset_visibility m) then "true" else "false"))
  | DatasetLifecycleMessage_Deleted m => Some (RebacRequest_DeleteDatasetProperties (dld_dataset_id m))
  | DatasetLifecycleMessage_DependenciesUpdated _ => None
  end.

Lemma consume_is_request `{LawfulTextCodecs} {R} `{!RebacRepository R} message :
  consume_message (R := R) message =
  match message_request message with Some req => service_request req | None => mret tt end.
Proof. by destruct message. Qed.

(** The visibility property a dataset has after messages, from what it had. *)
Definition visibility_step (id : DatasetID) (o : option PropertyValue)
    (message : DatasetLifecycleMessage) : option PropertyValue :=
  match message with
  | DatasetLifecycleMessage_Created m =>
      if decide (dlc_dataset_id m = id)
      then Some (if DatasetVisibility_is_public (dlc_dataset_visibility m) then "true" else "false")
      else o
  | DatasetLifecycleMessage_Deleted m => if decide (dld_dataset_id m = id) then None else o
  | DatasetLifecycleMessage_DependenciesUpdated _ => o
  end.

Definition visibility_after (id : DatasetID) (ms : list DatasetLifecycleMessage)
    (o : option PropertyValue) : option PropertyValue := fold_left (visibility_step id) ms o.

Definition message_ids_ok (message : DatasetLifecycleMessage) : Prop :=
  forall req, message_request message = Some req -> request_ids_ok req.

Definition public_read_of `{TextCodecs} (m : AccessMap) (id : DatasetID) : option PropertyValue :=
  am_properties m !! (dataset_entity_of id, PropertyName_Dataset DatasetPropertyName_AllowsPublicRead).

Section Lifecycle.
Context `{LawfulTextCodecs} {R : Type} `{!RebacRepository R, !LawfulRebacRepository R}.

Lemma consume_message_spec message r r' :
  message_ids_ok message -> consume_message message r = (Ok tt, r') ->
  access_map r' = match message_request message with
                  | Some req => request_spec req (access_map r)
                  | None => access_map r
                  end.
Proof.
  rewrite consume_is_request. intros Hok. unfold message_ids_ok in Hok.
  destruct (message_request message) as [req|].
  - intros Hx. by destruct (service_request_refines _ _ _ _ (Hok _ eq_refl) Hx) as [[_ ?]|[? _]].
  - by intros [= ->].
Qed.

Lemma consume_visibility message r r' id :
  DidKey_ok (do_did (did_did id)) -> message_ids_ok message ->
  consume_message message r = (Ok tt, r') ->
  public_read_of (access_map r') id = visibility_step id (public_read_of (access_map r) id) message /\
  am_relations (access_map r') = am_relations (access_map r) /\
  forall e p, en_entity_type e = EntityType_Account ->
    am_properties (access_map r') !! (e, p) = am_properties (access_map r) !! (e, p).
Proof.
  intros Hid Hok Hx. rewrite (consume_message_spec _ _ _ Hok Hx). unfold public_read_of.
  destruct message as [m|m|m]; cbn [message_request request_spec visibility_step]; [|done|];
    specialize (Hok _ eq_refl); cbn in Hok; (split_and!; [|done|]).
  - rewrite am_set_lookup. destruct (decide (dlc_dataset_id m = id)) as [->|Hne].
    + by rewrite decide_True.
    + rewrite decide_False; [done|]. by intros [?%dataset_entity_inj _].
  - intros e p He. rewrite am_set_lookup, decide_False; [done|].
    intros [<- _]. by rewrite dataset_entity_type in He.
  - rewrite am_clear_lookup. destruct (decide (dld_dataset_id m = id)) as [->|Hne].
    + by rewrite decide_True.
    + rewrite decide_False; [done|]. by intros ?%eq_sym%dataset_entity_inj.
  - intros e p He. rewrite am_clear_lookup, decide_False; [done|].
    intros ->. by rewrite dataset_entity_type in He.
Qed.

Lemma consume_all_visibility ms r r' id :
  DidKey_ok (do_did (did_did id)) -> Forall message_ids_ok ms ->
  for_each consume_message ms r = (Ok tt, r') ->
  public_read_of (access_map r') id = visibility_after id ms (public_read_of (access_map r) id) /\
  am_relations (access_map r') = am_relations (access_map r).
Proof.
  intros Hid Hms. revert r; induction Hms as [|m ms Hm _ IH]; intros r; simpl.
  - by intros [= ->].
  - unfold mbind, action_bind. destruct (consume_message m r) as [[[]| |] r1] eqn:Hc; [|done..].
    intros Hr. destruct (consume_visibility m r r1 id Hid Hm Hc) as (Hv & Hrel & _).
    destruct (IH r1 Hr) as [-> ->]. by rewrite Hv.
Qed.
End Lifecycle.

(** ** Text forms *)

Lemma str_split_nonempty c s : str_split c s <> [].
Proof. induction s as [|a s IH]; simpl; [done|]. by repeat case_match. Qed.

Lemma str_split_one c s a : str_split c s = [a] -> s = a.
Proof.
  revert a; induction s as [|x s IH]; intros a; simpl; [congruence|].
  case_decide; [intros [= _ Hn]; by apply str_split_nonempty in Hn|].
  destruct (str_split c s) as [|y ys] eqn:Hs; [by apply str_split_nonempty in Hs|].
  intros [= <- ->]. by rewrite (IH y).
Qed.

Lemma str_split_two c s a b : str_split c s = [a; b] -> s = a +:+ String c b.
Proof.
  revert a; induction s as [|x s IH]; intros a; simpl; [done|]. case_decide as Hx.
  - intros [= <- Hs%str_split_one]. by subst.
  - destruct (str_split c s) as [|y ys] eqn:Hs; [by apply str_split_nonempty in Hs|].
    intros [= <- ->]. by rewrite (IH y).
Qed.

Lemma property_name_text n s : PropertyName_from_str s = Ok n <-> PropertyName_fmt n = s.
Proof.
  split.
  - unfold PropertyName_from_str.
    destruct (str_split _ s) as [|g [|p [|]]] eqn:Hs; try done. apply str_split_two in Hs as ->.
    unfold DatasetPropertyName_from_str, AccountPropertyName_from_str.
    repeat case_decide; intros [= <-]; by subst.
  - intros <-. by destruct n as [[]|[]].
Qed.

Lemma relation_text r s : Relation_from_str s = Ok r <-> Relation_fmt r = s.
Proof.
  split.
  - unfold Relation_from_str.
    destruct (str_split _ s) as [|g [|p [|]]] eqn:Hs; try done. apply str_split_two in Hs as ->.
    unfold AccountToDatasetRelation_from_str. repeat case_decide; intros [= <-]; by subst.
  - intros <-. by destruct r as [[]].
Qed.

(** ** The in-memory repository never fails *)

Lemma inmem_consume_total `{LawfulTextCodecs} message (r : InMemoryRebacRepository) :
  message_ids_ok message -> exists r', consume_message message r = (Ok tt, r').
Proof.
  intros Hok. destruct message as [m|m|m]; [|by exists r|]; specialize (Hok _ eq_refl); cbn in Hok.
  - unfold consume_message, handle_dataset_lifecycle_created_message. simpl.
    unfold map_outcome, set_dataset_property, mbind, action_bind, lift.
    rewrite dataset_entity_ok by done. simpl. eauto.
  - unfold consume_message, handle_dataset_lifecycle_deleted_message.
    unfold map_outcome, delete_dataset_properties, mbind, action_bind, lift, map_outcome.
    rewrite dataset_entity_ok by done. simpl.
    destruct (irr_entities_properties_map r !! _); simpl; eauto.
Qed.

Lemma inmem_consume_all_total `{LawfulTextCodecs} ms (r : InMemoryRebacRepository) :
  Forall message_ids_ok ms -> exists r', for_each consume_message ms r = (Ok tt, r').
Proof.
  intros Hms. revert r; induction Hms as [|m ms Hm _ IH]; intros r; simpl; [by exists r|].
  destruct (inmem_consume_total m r Hm) as [r1 Hr]. unfold mbind, action_bind. rewrite Hr. apply IH.
Qed.
