(* ===== verification/DependencyGraph.v ===== *)
(** The graph of dependencies between datasets, kept in memory from dataset
    life-cycle messages.

    Sources: src/domain/core/src/services/dependency_graph_service.rs,
    src/domain/core/src/services/dependency_graph_repository.rs,
    src/infra/core/src/dependency_graph_service_inmem.rs and
    src/infra/core/src/dependency_graph_repository_inmem.rs.

    The graph library is third-party: [DiGraph] is what the service uses of it,
    and [LawfulDiGraph] what its documentation promises.  [DependencyMap] is the
    abstract state of the service, a set of datasets and of dependencies between
    them, and [represents] relates the service's state to it. *)

From S2P Require Import Prelude Multiformats Identity Dtos ChainRepos EventSourcing TaskSystem FlowSystem Outbox Messages Dataset.

(** * The graph library *)

Inductive Direction := Direction_Outgoing | Direction_Incoming.

(** [StableDiGraph<DatasetID, ()>]: [None] is a panic.  [dg_bfs_reversed] is what
    [Bfs::next] yields on the reversed graph, and [dg_dfs_finish] the nodes of the
    [Finish] events of [depth_first_search], in order. *)
Class DiGraph (G Ix Ex : Type) := {
  dg_new : G;
  dg_add_node : G -> DatasetID -> Ix * G;
  dg_update_edge : G -> Ix -> Ix -> option G;
  dg_find_edge : G -> Ix -> Ix -> option Ex;
  dg_remove_edge : G -> Ex -> G;
  dg_remove_node : G -> Ix -> G;
  dg_node_weight : G -> Ix -> option DatasetID;
  dg_neighbors_directed : G -> Ix -> Direction -> list Ix;
  dg_bfs_reversed : G -> Ix -> list Ix;
  dg_dfs_finish : G -> list Ix -> list Ix
}.

(** [x] comes before [y] in [l]. *)
Definition before {A} (l : list A) (x y : A) : Prop :=
  exists l1 l2 l3, l = l1 ++ x :: l2 ++ y :: l3.

Class LawfulDiGraph (G Ix Ex : Type) `{Countable Ix} `{!DiGraph G Ix Ex} := {
  (** the weights of the nodes, and the edges *)
  dg_nodes : G -> gmap Ix DatasetID;
  dg_edges : G -> gset (Ix * Ix);
  (** no two edges between the same nodes in the same direction *)
  dg_simple : G -> Prop;
  dg_new_law : dg_simple dg_new /\ dg_nodes dg_new = ∅ /\ dg_edges dg_new = ∅;
  dg_add_node_law g w i g' : dg_simple g -> dg_add_node g w = (i, g') ->
    dg_nodes g !! i = None /\ dg_simple g' /\ dg_nodes g' = <[i := w]> (dg_nodes g) /\
    dg_edges g' = dg_edges g;
  dg_update_edge_law g a b : dg_simple g -> is_Some (dg_nodes g !! a) -> is_Some (dg_nodes g !! b) ->
    exists g', dg_update_edge g a b = Some g' /\ dg_simple g' /\ dg_nodes g' = dg_nodes g /\
      dg_edges g' = {[(a, b)]} ∪ dg_edges g;
  dg_remove_edge_law g a b : dg_simple g ->
    match dg_find_edge g a b with
    | Some e => dg_simple (dg_remove_edge g e) /\ dg_nodes (dg_remove_edge g e) = dg_nodes g /\
        dg_edges (dg_remove_edge g e) = dg_edges g ∖ {[(a, b)]}
    | None => ~ (a, b) ∈ dg_edges g
    end;
  dg_remove_node_law g i : dg_simple g ->
    dg_simple (dg_remove_node g i) /\ dg_nodes (dg_remove_node g i) = delete i (dg_nodes g) /\
    dg_edges (dg_remove_node g i) = filter (fun x => x.1 <> i /\ x.2 <> i) (dg_edges g);
  dg_node_weight_law g i : dg_node_weight g i = dg_nodes g !! i;
  dg_neighbors_law g i d : dg_simple g ->
    lists (dg_neighbors_directed g i d)
      (fun j => match d with
                | Direction_Outgoing => (i, j) ∈ dg_edges g
                | Direction_Incoming => (j, i) ∈ dg_edges g
                end);
  dg_bfs_law g i : dg_simple g -> is_Some (dg_nodes g !! i) ->
    lists (dg_bfs_reversed g i) (fun j => rtc (fun a b => (a, b) ∈ dg_edges g) j i);
  (** every reachable node finishes once, and after the nodes its edges lead
      to, unless these lead back to it *)
  dg_dfs_law g starts : dg_simple g -> Forall (fun i => is_Some (dg_nodes g !! i)) starts ->
    lists (dg_dfs_finish g starts)
      (fun j => exists i, i ∈ starts /\ rtc (fun a b => (a, b) ∈ dg_edges g) i j) /\
    forall u v, u ∈ dg_dfs_finish g starts -> (u, v) ∈ dg_edges g ->
      ~ rtc (fun a b => (a, b) ∈ dg_edges g) v u -> before (dg_dfs_finish g starts) v u
}.

(** * The service *)

Record DatasetNodeNotFoundError := mkDatasetNodeNotFoundError { dnn_dataset_id : DatasetID }.

Inductive GetDependenciesError :=
| GetDependenciesError_Internal (e : InternalError)
| GetDependenciesError_DatasetNotFound (e : DatasetNodeNotFoundError).

Record DatasetDependencies := mkDatasetDependencies {
  ddp_downstream_dataset_id : DatasetID;
  ddp_upstream_dataset_ids : list DatasetID
}.

(** The stream a [DependencyGraphRepository] lists, item by item. *)
Definition DatasetDependenciesIDStream : Type := list (res InternalError DatasetDependencies).

(** [DependencyGraphRepositoryInMemory::list_dependencies_of_all_datasets]: the
    handles are a stream, and an error among them ends the loop silently. *)
Fixpoint list_dependencies_of_all_datasets {E} (datasets_stream : list (res InternalError DatasetHandle))
    (get_summary : DatasetHandle -> res E DatasetSummary) : DatasetDependenciesIDStream :=
  match datasets_stream with
  | Ok dataset_handle :: rest =>
      match get_summary dataset_handle with
      | Ok summary =>
          Ok (mkDatasetDependencies (dh_id dataset_handle) (dsu_dependencies summary))
            :: list_dependencies_of_all_datasets rest get_summary
      | Err _ => [Err mkInternalError]
      | Panic => [Panic]
      end
  | Panic :: _ => [Panic]
  | _ => []
  end.

(** [State] behind the lock. *)
Record DependencyGraphState (G Ix : Type) := mkDependencyGraphState {
  dgs_datasets_graph : G;
  dgs_dataset_node_indices : gmap DatasetID Ix;
  dgs_initially_scanned : bool
}.
Arguments mkDependencyGraphState {G Ix}.
Arguments dgs_datasets_graph {G Ix}.
Arguments dgs_dataset_node_indices {G Ix}.
Arguments dgs_initially_scanned {G Ix}.

Section Service.
Context {G Ix Ex : Type} `{Countable Ix} `{!DiGraph G Ix Ex}.

Abbreviation State := (DependencyGraphState G Ix).
Implicit Types (st : State).

Definition State_default : State := mkDependencyGraphState dg_new ∅ false.

Definition with_graph st (g : G) : State :=
  mkDependencyGraphState g (dgs_dataset_node_indices st) (dgs_initially_scanned st).

Definition get_dataset_node st (dataset_id : DatasetID) : res DatasetNodeNotFoundError Ix :=
  match dgs_dataset_node_indices st !! dataset_id with
  | Some index => Ok index
  | None => Err (mkDatasetNodeNotFoundError dataset_id)
  end.

Definition get_or_create_dataset_node {E} (dataset_id : DatasetID) : action State E Ix := fun st =>
  match dgs_dataset_node_indices st !! dataset_id with
  | Some index => (Ok index, st)
  | None =>
      let '(node_index, g) := dg_add_node (dgs_datasets_graph st) dataset_id in
      (Ok node_index,
       mkDependencyGraphState g (<[dataset_id := node_index]> (dgs_dataset_node_indices st))
         (dgs_initially_scanned st))
  end.

(** The calls on the graph that end the two methods below. *)
Definition update_edge {E} (a b : Ix) : action State E unit := fun st =>
  match dg_update_edge (dgs_datasets_graph st) a b with
  | Some g => (Ok tt, with_graph st g)
  | None => (Panic, st)
  end.

Definition remove_found_edge {E} (a b : Ix) : action State E unit := fun st =>
  match dg_find_edge (dgs_datasets_graph st) a b with
  | Some edge_index => (Ok tt, with_graph st (dg_remove_edge (dgs_datasets_graph st) edge_index))
  | None => (Ok tt, st)
  end.

Definition add_dependency {E} (dataset_upstream_id dataset_downstream_id : DatasetID)
    : action State E unit :=
  upstream_node_index ← get_or_create_dataset_node dataset_upstream_id;
  downstream_node_index ← get_or_create_dataset_node dataset_downstream_id;
  update_edge upstream_node_index downstream_node_index.

Definition remove_dependency {E} (dataset_upstream_id dataset_downstream_id : DatasetID)
    : action State E unit :=
  upstream_node_index ← get_or_create_dataset_node dataset_upstream_id;
  downstream_node_index ← get_or_create_dataset_node dataset_downstream_id;
  remove_found_edge upstream_node_index downstream_node_index.

(** ** The initial scan *)

Definition scan_dependencies {E} (d : DatasetDependencies) : action State E unit :=
  match ddp_upstream_dataset_ids d with
  | [] => _ ← get_or_create_dataset_node (ddp_downstream_dataset_id d); mret tt
  | upstream_dataset_ids =>
      for_each (fun upstream_dataset_id =>
        add_dependency upstream_dataset_id (ddp_downstream_dataset_id d)) upstream_dataset_ids
  end.

(** [while let Some(Ok(dataset_dependencies)) = dependencies_stream.next().await] *)
Fixpoint scan_stream {E} (dependencies_stream : DatasetDependenciesIDStream) : action State E unit :=
  match dependencies_stream with
  | Ok dataset_dependencies :: rest =>
      _ ← scan_dependencies dataset_dependencies; scan_stream rest
  | Panic :: _ => panic
  | _ => mret tt
  end.

Definition ensure_datasets_initially_scanned_with (repository : DatasetDependenciesIDStream)
    : action State InternalError unit :=
  _ ← scan_stream repository;
  modify (fun st => mkDependencyGraphState (dgs_datasets_graph st) (dgs_dataset_node_indices st) true).

Definition eager_initialization (repository : DatasetDependenciesIDStream)
    : action State InternalError unit := fun st =>
  if dgs_initially_scanned st then (Ok tt, st)
  else ensure_datasets_initially_scanned_with repository st.

Definition ensure_datasets_initially_scanned (repository : option DatasetDependenciesIDStream)
    : action State InternalError unit := fun st =>
  if dgs_initially_scanned st then (Ok tt, st)
  else match repository with
       | Some repository => ensure_datasets_initially_scanned_with repository st
       | None => (Panic, st)
       end.

(** ** Queries *)

(** [.map(|node_index| graph.node_weight(node_index).unwrap().clone()).collect()] *)
Fixpoint node_weights {E} (g : G) (l : list Ix) : res E (list DatasetID) :=
  match l with
  | [] => Ok []
  | i :: l' =>
      let! w := unwrap (dg_node_weight g i) in
      let! ws := node_weights g l' in
      Ok (w :: ws)
  end.

Fixpoint get_nodes_from_dataset_ids (dataset_ids : list DatasetID) st
    : res GetDependenciesError (list Ix) :=
  match dataset_ids with
  | [] => Ok []
  | dataset_id :: rest =>
      let! i := map_err GetDependenciesError_DatasetNotFound (get_dataset_node st dataset_id) in
      let! l := get_nodes_from_dataset_ids rest st in
      Ok (i :: l)
  end.

(** The [while let Some(current_node_index) = bfs.next(..)] loop. *)
Fixpoint bfs_visit {E} (g : G) (l : list Ix) (visited : gset Ix) : res E (gset Ix * list DatasetID) :=
  match l with
  | [] => Ok (visited, [])
  | i :: l' =>
      if decide (i ∈ visited) then bfs_visit g l' visited
      else
        let! w := unwrap (dg_node_weight g i) in
        let! (visited', ws) := bfs_visit g l' ({[i]} ∪ visited) in
        Ok (visited', w :: ws)
  end.

Fixpoint bfs_search {E} (g : G) (nodes_to_search : list Ix) (visited : gset Ix) : res E (list DatasetID) :=
  match nodes_to_search with
  | [] => Ok []
  | node_index :: rest =>
      let! (visited', search_node_result) := bfs_visit g (dg_bfs_reversed g node_index) visited in
      let! result := bfs_search g rest visited' in
      Ok (reverse search_node_result ++ result)
  end.

Definition run_recursive_reversed_breadth_first_search (dataset_ids : list DatasetID) st
    : res GetDependenciesError (list DatasetID) :=
  let! nodes_to_search := get_nodes_from_dataset_ids dataset_ids st in
  bfs_search (dgs_datasets_graph st) nodes_to_search ∅.

Definition run_recursive_depth_first_search (dataset_ids : list DatasetID) st
    : res GetDependenciesError (list DatasetID) :=
  let! nodes_to_search := get_nodes_from_dataset_ids dataset_ids st in
  node_weights (dgs_datasets_graph st) (dg_dfs_finish (dgs_datasets_graph st) nodes_to_search).

(** A fallible reading of the state. *)
Definition read {E A} (f : State -> res E A) : action State E A := fun st => (f st, st).

(** [ensure_datasets_initially_scanned().await .. .unwrap()] *)
Definition scanned_or_panic (repository : option DatasetDependenciesIDStream)
    : action State GetDependenciesError unit := fun st =>
  match ensure_datasets_initially_scanned repository st with
  | (Ok _, st') => (Ok tt, st')
  | (_, st') => (Panic, st')
  end.

(** [ensure_datasets_initially_scanned().await .. ?] *)
Definition scanned_or_error (repository : option DatasetDependenciesIDStream)
    : action State GetDependenciesError unit := fun st =>
  let '(x, st') := ensure_datasets_initially_scanned repository st in
  (map_err GetDependenciesError_Internal x, st').

Definition get_recursive_upstream_dependencies (repository : option DatasetDependenciesIDStream)
    (dataset_ids : list DatasetID) : action State GetDependenciesError (list DatasetID) :=
  _ ← scanned_or_panic repository;
  read (fun st => run_recursive_reversed_breadth_first_search dataset_ids st).

Definition get_recursive_downstream_dependencies (repository : option DatasetDependenciesIDStream)
    (dataset_ids : list DatasetID) : action State GetDependenciesError (list DatasetID) :=
  _ ← scanned_or_panic repository;
  read (fun st => run_recursive_depth_first_search dataset_ids st).

Definition neighbor_ids st (dataset_id : DatasetID) (d : Direction)
    : res GetDependenciesError (list DatasetID) :=
  let! node_index := map_err GetDependenciesError_DatasetNotFound (get_dataset_node st dataset_id) in
  node_weights (dgs_datasets_graph st) (dg_neighbors_directed (dgs_datasets_graph st) node_index d).

Definition get_downstream_dependencies (repository : option DatasetDependenciesIDStream)
    (dataset_id : DatasetID) : action State GetDependenciesError (list DatasetID) :=
  _ ← scanned_or_error repository;
  read (fun st => neighbor_ids st dataset_id Direction_Outgoing).

Definition get_upstream_dependencies (repository : option DatasetDependenciesIDStream)
    (dataset_id : DatasetID) : action State GetDependenciesError (list DatasetID) :=
  _ ← scanned_or_error repository;
  read (fun st => neighbor_ids st dataset_id Direction_Incoming).

(** ** Messages *)

Definition handle_deleted (dataset_id : DatasetID) : action State InternalError unit := fun st =>
  match int_err (get_dataset_node st dataset_id) with
  | Ok node_index =>
      (Ok tt, mkDependencyGraphState (dg_remove_node (dgs_datasets_graph st) node_index)
                (delete dataset_id (dgs_dataset_node_indices st)) (dgs_initially_scanned st))
  | Err e => (Err e, st)
  | Panic => (Panic, st)
  end.

Definition existing_upstream_ids st (dataset_id : DatasetID) : res InternalError (gset DatasetID) :=
  let! node_index := int_err (get_dataset_node st dataset_id) in
  let! ids := node_weights (dgs_datasets_graph st)
                (dg_neighbors_directed (dgs_datasets_graph st) node_index Direction_Incoming) in
  Ok (list_to_set ids).

(** The two loops run over differences of [HashSet]s, in an order that is not
    specified. *)
Definition handle_dependencies_updated (dataset_id : DatasetID) (new_ids : list DatasetID)
    : action State InternalError unit := fun st =>
  match existing_upstream_ids st dataset_id with
  | Ok existing =>
      let new_upstream_ids : gset DatasetID := list_to_set new_ids in
      (_ ← for_each (fun obsolete => remove_dependency obsolete dataset_id)
             (elements (existing ∖ new_upstream_ids));
       for_each (fun added => add_dependency added dataset_id)
         (elements (new_upstream_ids ∖ existing))) st
  | Err e => (Err e, st)
  | Panic => (Panic, st)
  end.

Definition dg_consume_message (message : DatasetLifecycleMessage) : action State InternalError unit :=
  match message with
  | DatasetLifecycleMessage_Created message =>
      _ ← get_or_create_dataset_node (dlc_dataset_id message); mret tt
  | DatasetLifecycleMessage_Deleted message => handle_deleted (dld_dataset_id message)
  | DatasetLifecycleMessage_DependenciesUpdated message =>
      handle_dependencies_updated (dlu_dataset_id message) (dlu_new_upstream_ids message)
  end.
End Service.

(** * The specification *)

(** The datasets, and the pairs of an upstream dataset and one that depends on
    it. *)
Record DependencyMap := mkDependencyMap {
  dm_nodes : gset DatasetID;
  dm_edges : gset (DatasetID * DatasetID)
}.

Definition dm_empty : DependencyMap := mkDependencyMap ∅ ∅.
Definition dm_add (id : DatasetID) (m : DependencyMap) : DependencyMap :=
  mkDependencyMap ({[id]} ∪ dm_nodes m) (dm_edges m).
Definition dm_link (up down : DatasetID) (m : DependencyMap) : DependencyMap :=
  mkDependencyMap ({[up; down]} ∪ dm_nodes m) ({[(up, down)]} ∪ dm_edges m).
Definition dm_unlink (up down : DatasetID) (m : DependencyMap) : DependencyMap :=
  mkDependencyMap ({[up; down]} ∪ dm_nodes m) (dm_edges m ∖ {[(up, down)]}).
Definition dm_delete (id : DatasetID) (m : DependencyMap) : DependencyMap :=
  mkDependencyMap (dm_nodes m ∖ {[id]}) (filter (fun e => e.1 <> id /\ e.2 <> id) (dm_edges m)).
Definition dm_set_upstreams (id : DatasetID) (ups : gset DatasetID) (m : DependencyMap)
    : DependencyMap :=
  mkDependencyMap (ups ∪ dm_nodes m)
    (filter (fun e => e.2 <> id) (dm_edges m) ∪ set_map (fun u => (u, id)) ups).
Definition dm_scan (d : DatasetDependencies) (m : DependencyMap) : DependencyMap :=
  let id := ddp_downstream_dataset_id d in
  foldl (fun m u => dm_link u id m) (dm_add id m) (ddp_upstream_dataset_ids d).

Definition depends (m : DependencyMap) (up down : DatasetID) : Prop := (up, down) ∈ dm_edges m.

Section Facts.
Context {G Ix Ex : Type} `{Countable Ix} `{!DiGraph G Ix Ex} `{!LawfulDiGraph G Ix Ex}.

Abbreviation State := (DependencyGraphState G Ix).
Implicit Types (st : State) (m : DependencyMap).

Record represents st m : Prop := {
  rp_simple : dg_simple (dgs_datasets_graph st);
  rp_index id i : dgs_dataset_node_indices st !! id = Some i <->
    dg_nodes (dgs_datasets_graph st) !! i = Some id;
  rp_ends i j : (i, j) ∈ dg_edges (dgs_datasets_graph st) ->
    is_Some (dg_nodes (dgs_datasets_graph st) !! i) /\ is_Some (dg_nodes (dgs_datasets_graph st) !! j);
  rp_nodes id : id ∈ dm_nodes m <-> is_Some (dgs_dataset_node_indices st !! id);
  rp_edges a b : (a, b) ∈ dm_edges m <-> exists i j,
    dgs_dataset_node_indices st !! a = Some i /\ dgs_dataset_node_indices st !! b = Some j /\
    (i, j) ∈ dg_edges (dgs_datasets_graph st)
}.

Lemma represents_default : represents State_default dm_empty.
Proof.
  destruct dg_new_law as (Hs & Hn & He). split; simpl.
  - done.
  - intros id i. rewrite Hn, !lookup_empty. done.
  - intros i j. rewrite He. set_solver.
  - intros id. rewrite lookup_empty. split; [set_solver|by intros []].
  - intros a b. split; [set_solver|]. intros (i & j & Hi & _). by rewrite lookup_empty in Hi.
Qed.

Lemma represents_scanned st m b :
  represents st m ->
  represents (mkDependencyGraphState (dgs_datasets_graph st) (dgs_dataset_node_indices st) b) m.
Proof. by intros []. Qed.

Lemma index_inj st m a b i :
  represents st m -> dgs_dataset_node_indices st !! a = Some i ->
  dgs_dataset_node_indices st !! b = Some i -> a = b.
Proof. intros Hr Ha%(rp_index _ _ Hr) Hb%(rp_index _ _ Hr). congruence. Qed.

(** The edge between two known datasets. *)
Lemma represents_edge st m a b i j :
  represents st m -> dgs_dataset_node_indices st !! a = Some i ->
  dgs_dataset_node_indices st !! b = Some j ->
  (a, b) ∈ dm_edges m <-> (i, j) ∈ dg_edges (dgs_datasets_graph st).
Proof.
  intros Hr Hi Hj. rewrite (rp_edges _ _ Hr). split; [|by eauto].
  intros (i' & j' & ? & ? & ?). by simplify_eq.
Qed.

(** ** Changes *)

Lemma get_or_create_spec {E} st m id :
  represents st m ->
  exists i st', get_or_create_dataset_node (E := E) id st = (Ok i, st') /\
    represents st' (dm_add id m) /\ dgs_dataset_node_indices st' !! id = Some i /\
    dgs_initially_scanned st' = dgs_initially_scanned st /\
    dgs_dataset_node_indices st ⊆ dgs_dataset_node_indices st'.
Proof.
  intros Hr. unfold get_or_create_dataset_node.
  destruct (dgs_dataset_node_indices st !! id) as [i|] eqn:Hid.
  - exists i, st. split_and!; try done. destruct Hr as [H1 H2 H3 H4 H5].
    split; try done. simpl. intros id'. rewrite elem_of_union, elem_of_singleton, H4.
    split; [intros [->|]; eauto|auto].
  - destruct (dg_add_node _ id) as [i g] eqn:Hg.
    destruct (dg_add_node_law _ _ _ _ (rp_simple _ _ Hr) Hg) as (Hfree & Hs & Hn & He).
    eexists i, _. split; [done|]. simpl. split_and!; try done.
    2: by rewrite lookup_insert_eq.
    2: by apply insert_subseteq.
    split; simpl.
    + done.
    + intros id' i'. rewrite Hn. destruct (decide (id = id')) as [->|Hne].
      * rewrite lookup_insert_eq. split; [intros [= ->]; by rewrite lookup_insert_eq|].
        destruct (decide (i = i')) as [->|]; [done|]. rewrite lookup_insert_ne by done.
        intros Hi%(rp_index _ _ Hr). congruence.
      * rewrite (lookup_insert_ne (dgs_dataset_node_indices st)) by done.
        rewrite (rp_index _ _ Hr). destruct (decide (i = i')) as [->|]; [|by rewrite lookup_insert_ne].
        rewrite lookup_insert_eq. split; congruence.
    + intros a b. rewrite He, Hn. intros [[x Hx] [y Hy]]%(rp_ends _ _ Hr).
      split; apply lookup_insert_is_Some'; eauto.
    + intros id'. rewrite elem_of_union, elem_of_singleton, (rp_nodes _ _ Hr), lookup_insert_is_Some'.
      naive_solver.
    + intros a b. rewrite He, (rp_edges _ _ Hr). split; intros (x & y & Hx & Hy & Hin); exists x, y.
      * rewrite !lookup_insert_ne by congruence. done.
      * destruct (rp_ends _ _ Hr _ _ Hin) as [[? Hxn] [? Hyn]].
        rewrite lookup_insert_ne in Hx; [rewrite lookup_insert_ne in Hy|]; [done|..];
          intros <-; rewrite lookup_insert_eq in *; congruence.
Qed.

(** Changing the edge between two known datasets. *)
Lemma represents_with_edge st m g a b i j (P : Prop) m' :
  represents st m -> dgs_dataset_node_indices st !! a = Some i ->
  dgs_dataset_node_indices st !! b = Some j ->
  dg_simple g -> dg_nodes g = dg_nodes (dgs_datasets_graph st) ->
  (forall x y, (x, y) ∈ dg_edges g <->
     if decide ((x, y) = (i, j)) then P else (x, y) ∈ dg_edges (dgs_datasets_graph st)) ->
  dm_nodes m' = dm_nodes m ->
  (forall x y, (x, y) ∈ dm_edges m' <->
     if decide ((x, y) = (a, b)) then P else (x, y) ∈ dm_edges m) ->
  represents (with_graph st g) m'.
Proof.
  intros Hr Hi Hj Hs Hn Hg Hnodes Hm. split; simpl.
  - done.
  - intros id x. rewrite Hn. apply (rp_index _ _ Hr).
  - intros x y. rewrite Hn, Hg. case_decide as Heq; [|apply (rp_ends _ _ Hr)].
    simplify_eq. intros _. split; eexists; by apply (rp_index _ _ Hr).
  - intros id. rewrite Hnodes. apply (rp_nodes _ _ Hr).
  - intros x y. rewrite Hm. case_decide as Heq.
    + simplify_eq. split.
      * intros HP. exists i, j. split_and!; [done..|]. apply Hg. by rewrite decide_True.
      * intros (i' & j' & ? & ? & Hin%Hg). simplify_eq. by rewrite decide_True in Hin.
    + rewrite (rp_edges _ _ Hr). split; intros (i' & j' & Hx & Hy & Hin); exists i', j'.
      * split_and!; [done..|]. apply Hg. rewrite decide_False; [done|]. intros [= -> ->].
        apply Heq. f_equal; by eapply index_inj.
      * split_and!; [done..|]. apply Hg in Hin. rewrite decide_False in Hin; [done|].
        intros [= -> ->]. apply Heq. f_equal; by eapply index_inj.
Qed.

Lemma DependencyMap_eq m1 m2 :
  (forall x, x ∈ dm_nodes m1 <-> x ∈ dm_nodes m2) -> (forall e, e ∈ dm_edges m1 <-> e ∈ dm_edges m2) ->
  m1 = m2.
Proof. destruct m1, m2; simpl. intros Hn He. f_equal; by apply set_eq. Qed.

(** Both ends are known after the first two steps of [add_dependency] and
    [remove_dependency]. *)
Lemma both_ends_spec {E} st m a b :
  represents st m ->
  exists i j st1 st', get_or_create_dataset_node (E := E) a st = (Ok i, st1) /\
    get_or_create_dataset_node (E := E) b st1 = (Ok j, st') /\
    represents st' (dm_add b (dm_add a m)) /\
    dgs_dataset_node_indices st' !! a = Some i /\ dgs_dataset_node_indices st' !! b = Some j /\
    dgs_initially_scanned st' = dgs_initially_scanned st.
Proof.
  intros Hr. destruct (get_or_create_spec (E := E) st m a Hr) as (i & st1 & H1 & Hr1 & Hi & Hsc1 & _).
  destruct (get_or_create_spec (E := E) st1 _ b Hr1) as (j & st2 & H2 & Hr2 & Hj & Hsc2 & Hsub).
  exists i, j, st1, st2. split_and!; try done; [|congruence]. by eapply lookup_weaken.
Qed.

Lemma add_dependency_spec {E} st m a b :
  represents st m ->
  exists st', add_dependency (E := E) a b st = (Ok tt, st') /\ represents st' (dm_link a b m) /\
    dgs_initially_scanned st' = dgs_initially_scanned st.
Proof.
  intros Hr.
  destruct (both_ends_spec (E := E) st m a b Hr) as (i & j & st1 & st2 & H1 & H2 & Hr2 & Hi & Hj & Hsc).
  unfold add_dependency, mbind, action_bind, update_edge. rewrite H1, H2.
  destruct (dg_update_edge_law (dgs_datasets_graph st2) i j (rp_simple _ _ Hr2)) as (g & -> & Hs & Hn & He).
  1,2: eexists; by apply (rp_index _ _ Hr2).
  eexists. split; [done|]. split; [|done].
  apply (represents_with_edge st2 (dm_add b (dm_add a m)) g a b i j True); try done.
  - intros x y. rewrite He. case_decide; set_solver.
  - simpl. set_solver.
  - intros x y. simpl. case_decide; set_solver.
Qed.

Lemma remove_dependency_spec {E} st m a b :
  represents st m ->
  exists st', remove_dependency (E := E) a b st = (Ok tt, st') /\ represents st' (dm_unlink a b m) /\
    dgs_initially_scanned st' = dgs_initially_scanned st.
Proof.
  intros Hr.
  destruct (both_ends_spec (E := E) st m a b Hr) as (i & j & st1 & st2 & H1 & H2 & Hr2 & Hi & Hj & Hsc).
  unfold remove_dependency, mbind, action_bind, remove_found_edge. rewrite H1, H2.
  pose proof (dg_remove_edge_law (dgs_datasets_graph st2) i j (rp_simple _ _ Hr2)) as Hl.
  destruct (dg_find_edge (dgs_datasets_graph st2) i j) as [e|].
  - destruct Hl as (Hs & Hn & He). eexists. split; [done|]. split; [|done].
    apply (represents_with_edge st2 (dm_add b (dm_add a m)) _ a b i j False); try done.
    + intros x y. rewrite He. case_decide; set_solver.
    + simpl. set_solver.
    + intros x y. simpl. case_decide; set_solver.
  - exists st2. split; [done|]. split; [|done].
    replace (dm_unlink a b m) with (dm_add b (dm_add a m)); [done|].
    rewrite <- (represents_edge _ _ _ _ _ _ Hr2 Hi Hj) in Hl. simpl in Hl.
    apply DependencyMap_eq; simpl; set_solver.
Qed.

Lemma handle_deleted_spec st m id :
  represents st m -> id ∈ dm_nodes m ->
  exists st', handle_deleted id st = (Ok tt, st') /\ represents st' (dm_delete id m) /\
    dgs_initially_scanned st' = dgs_initially_scanned st.
Proof.
  intros Hr [i Hi]%(rp_nodes _ _ Hr). unfold handle_deleted, get_dataset_node. rewrite Hi. simpl.
  destruct (dg_remove_node_law (dgs_datasets_graph st) i (rp_simple _ _ Hr)) as (Hs & Hn & He).
  eexists. split; [done|]. split; [|done]. split; simpl.
  - done.
  - intros id' i'. rewrite Hn. pose proof (proj1 (rp_index _ _ Hr id i) Hi) as Hw.
    destruct (decide (id = id')) as [->|Hid], (decide (i = i')) as [->|Hii];
      rewrite ?lookup_delete_eq, ?lookup_delete_ne by done; try done.
    + split; [done|]. intros Hx%(rp_index _ _ Hr). congruence.
    + split; [|done]. intros Hx%(rp_index _ _ Hr). congruence.
    + apply (rp_index _ _ Hr).
  - intros x y. rewrite He, Hn, elem_of_filter. intros ([Hx Hy] & Hin%(rp_ends _ _ Hr)).
    by rewrite !lookup_delete_ne by (simpl in *; congruence).
  - intros id'. rewrite elem_of_difference, (rp_nodes _ _ Hr), elem_of_singleton, lookup_delete_is_Some.
    naive_solver.
  - intros a b. rewrite elem_of_filter, (rp_edges _ _ Hr), He. split.
    + intros ([Ha Hb] & x & y & Hx & Hy & Hin). exists x, y. simpl in *.
      rewrite !lookup_delete_ne by done. split_and!; [done..|]. apply elem_of_filter. split; [|done].
      split; simpl; intros ->; [apply Ha|apply Hb]; by eapply index_inj.
    + intros (x & y & Hx & Hy & [_ Hin]%elem_of_filter). apply lookup_delete_Some in Hx as [Ha Hx].
      apply lookup_delete_Some in Hy as [Hb Hy]. split; [split; simpl; congruence|eauto].
Qed.

(** A loop whose steps refine steps of the specification. *)
Lemma for_each_spec {E A} (f : A -> action State E unit) (step : A -> DependencyMap -> DependencyMap) l st m :
  (forall x st m, represents st m -> exists st', f x st = (Ok tt, st') /\ represents st' (step x m) /\
     dgs_initially_scanned st' = dgs_initially_scanned st) ->
  represents st m ->
  exists st', for_each f l st = (Ok tt, st') /\ represents st' (foldl (fun m x => step x m) m l) /\
    dgs_initially_scanned st' = dgs_initially_scanned st.
Proof.
  intros Hf. revert st m; induction l as [|x l IH]; intros st m Hr; simpl; [by exists st|].
  destruct (Hf x st m Hr) as (st1 & H1 & Hr1 & Hs1). unfold mbind, action_bind. rewrite H1.
  destruct (IH st1 _ Hr1) as (st2 & H2 & Hr2 & Hs2). exists st2. split_and!; [done..|congruence].
Qed.

Lemma foldl_unlink id l m :
  foldl (fun m u => dm_unlink u id m) m l =
  mkDependencyMap (match l with [] => ∅ | _ => {[id]} end ∪ list_to_set l ∪ dm_nodes m)
    (filter (fun e => ~ (e.2 = id /\ e.1 ∈ l)) (dm_edges m)).
Proof.
  revert m; induction l as [|u l IH]; intros m; simpl.
  - apply DependencyMap_eq; simpl; [set_solver|]. intros [x y]. rewrite elem_of_filter. set_solver.
  - rewrite IH. apply DependencyMap_eq; simpl.
    + intros x. destruct l; set_solver.
    + intros [x y]. rewrite !elem_of_filter, elem_of_difference. simpl. set_solver.
Qed.

Lemma foldl_link id l m :
  foldl (fun m u => dm_link u id m) m l =
  mkDependencyMap (match l with [] => ∅ | _ => {[id]} end ∪ list_to_set l ∪ dm_nodes m)
    (set_map (fun u => (u, id)) (list_to_set l : gset DatasetID) ∪ dm_edges m).
Proof.
  revert m; induction l as [|u l IH]; intros m; simpl.
  - apply DependencyMap_eq; simpl; set_solver.
  - rewrite IH. apply DependencyMap_eq; simpl; [intros x; destruct l; set_solver|].
    intros [x y]. set_solver.
Qed.

(** ** Reading *)

Lemma node_weights_spec {E} g (l : list Ix) :
  (forall i, i ∈ l -> is_Some (dg_nodes g !! i)) ->
  exists ws, node_weights (E := E) g l = Ok ws /\ Forall2 (fun i w => dg_nodes g !! i = Some w) l ws.
Proof.
  induction l as [|i l IH]; intros Hl; simpl; [by exists []|].
  destruct (Hl i) as [w Hw]; [by left|]. destruct IH as (ws & -> & Hws); [set_solver|].
  rewrite dg_node_weight_law, Hw. simpl. eauto.
Qed.

(** What the weights of listed nodes list. *)
Lemma weights_lists st m l ws (P : Ix -> Prop) :
  represents st m -> Forall2 (fun i w => dg_nodes (dgs_datasets_graph st) !! i = Some w) l ws ->
  lists l P ->
  lists ws (fun w => exists i, dgs_dataset_node_indices st !! w = Some i /\ P i).
Proof.
  intros Hr Hf [Hnd Hl]. split.
  - clear Hl. induction Hf as [|i w l ws Hw Hf IH]; [constructor|].
    apply NoDup_cons in Hnd as [Hi Hnd]. constructor; [|auto]. intros Hin. apply Hi.
    apply list_elem_of_lookup in Hin as [k Hk].
    destruct (Forall2_lookup_r _ _ _ _ _ Hf Hk) as (i' & Hk' & Hw').
    apply (rp_index _ _ Hr) in Hw, Hw'. simplify_eq. by eapply list_elem_of_lookup_2.
  - intros w. split.
    + intros [k Hk]%list_elem_of_lookup. destruct (Forall2_lookup_r _ _ _ _ _ Hf Hk) as (i & Hi & Hw).
      exists i. split; [by apply (rp_index _ _ Hr)|]. apply Hl. by eapply list_elem_of_lookup_2.
    + intros (i & Hi & HP). apply Hl, list_elem_of_lookup in HP as [k Hk].
      destruct (Forall2_lookup_l _ _ _ _ _ Hf Hk) as (w' & Hk' & Hw').
      apply (rp_index _ _ Hr) in Hw'. rewrite (index_inj _ _ _ _ _ Hr Hi Hw').
      by eapply list_elem_of_lookup_2.
Qed.

(** The datasets next to one in the graph. *)
Lemma neighbors_spec {E} st m id i d :
  represents st m -> dgs_dataset_node_indices st !! id = Some i ->
  exists ws, node_weights (E := E) (dgs_datasets_graph st)
      (dg_neighbors_directed (dgs_datasets_graph st) i d) = Ok ws /\
    lists ws (fun w => match d with
                       | Direction_Outgoing => depends m id w
                       | Direction_Incoming => depends m w id
                       end).
Proof.
  intros Hr Hi. pose proof (dg_neighbors_law (dgs_datasets_graph st) i d (rp_simple _ _ Hr)) as Hl.
  destruct (node_weights_spec (E := E) (dgs_datasets_graph st)
    (dg_neighbors_directed (dgs_datasets_graph st) i d)) as (ws & Hws & Hf).
  { intros j Hj%Hl. by destruct d; apply (rp_ends _ _ Hr) in Hj as []. }
  exists ws. split; [done|]. eapply lists_ext, (weights_lists _ _ _ _ _ Hr Hf Hl).
  intros w. unfold depends. destruct d; rewrite (rp_edges _ _ Hr); naive_solver.
Qed.

Lemma handle_dependencies_updated_spec st m id ids :
  represents st m -> id ∈ dm_nodes m ->
  exists st', handle_dependencies_updated id ids st = (Ok tt, st') /\
    represents st' (dm_set_upstreams id (list_to_set ids) m) /\
    dgs_initially_scanned st' = dgs_initially_scanned st.
Proof.
  intros Hr Hid. destruct (proj1 (rp_nodes _ _ Hr id) Hid) as [i Hi].
  unfold handle_dependencies_updated, existing_upstream_ids, get_dataset_node. rewrite Hi. simpl.
  destruct (neighbors_spec (E := InternalError) st m id i Direction_Incoming Hr Hi) as (ws & -> & _ & Hws).
  simpl. set (new := list_to_set ids : gset DatasetID). set (old := list_to_set ws : gset DatasetID).
  destruct (for_each_spec (E := InternalError) (fun o => remove_dependency o id)
    (fun o => dm_unlink o id) (elements (old ∖ new)) st m) as (st1 & H1 & Hr1 & Hs1); [|done|].
  { intros x st0 m0. apply remove_dependency_spec. }
  destruct (for_each_spec (E := InternalError) (fun o => add_dependency o id)
    (fun o => dm_link o id) (elements (new ∖ old)) st1
    (foldl (fun m o => dm_unlink o id m) m (elements (old ∖ new)))) as (st2 & H2 & Hr2 & Hs2);
    [intros x st0 m0; apply add_dependency_spec|exact Hr1|].
  unfold mbind, action_bind. rewrite H1. exists st2. split_and!; [done| |congruence].
  replace (dm_set_upstreams id new m) with (foldl (fun m o => dm_link o id m)
    (foldl (fun m o => dm_unlink o id m) m (elements (old ∖ new))) (elements (new ∖ old))); [done|].
  assert (Hold : forall u, u ∈ old <-> (u, id) ∈ dm_edges m).
  { intros u. unfold old. rewrite elem_of_list_to_set. apply Hws. }
  assert (Hin : forall u, u ∈ old -> u ∈ dm_nodes m).
  { intros u (x & y & Hx & _)%Hold%(rp_edges _ _ Hr). apply (rp_nodes _ _ Hr). eauto. }
  rewrite foldl_link, foldl_unlink, !list_to_set_elements_L. apply DependencyMap_eq; simpl.
  - intros x. rewrite !elem_of_union, !elem_of_difference.
    assert (forall l : list DatasetID, x ∈ (match l with [] => ∅ | _ => {[id]} end : gset DatasetID) ->
              x ∈ dm_nodes m) by (intros [|]; set_solver).
    destruct (decide (x ∈ new)), (decide (x ∈ old)); naive_solver.
  - intros [x y]. rewrite !elem_of_union, !elem_of_filter, !elem_of_map. simpl.
    setoid_rewrite elem_of_elements. setoid_rewrite elem_of_difference.
    destruct (decide (y = id)) as [->|Hy].
    + specialize (Hold x). destruct (decide (x ∈ new)), (decide (x ∈ old)); naive_solver.
    + naive_solver.
Qed.

(** ** Messages *)

Definition message_spec (message : DatasetLifecycleMessage) (m : DependencyMap) : DependencyMap :=
  match message with
  | DatasetLifecycleMessage_Created message => dm_add (dlc_dataset_id message) m
  | DatasetLifecycleMessage_Deleted message => dm_delete (dld_dataset_id message) m
  | DatasetLifecycleMessage_DependenciesUpdated message =>
      dm_set_upstreams (dlu_dataset_id message) (list_to_set (dlu_new_upstream_ids message)) m
  end.

(** Deletions and updates are about datasets that are known. *)
Definition message_known (message : DatasetLifecycleMessage) (m : DependencyMap) : Prop :=
  match message with
  | DatasetLifecycleMessage_Created _ => True
  | DatasetLifecycleMessage_Deleted message => dld_dataset_id message ∈ dm_nodes m
  | DatasetLifecycleMessage_DependenciesUpdated message => dlu_dataset_id message ∈ dm_nodes m
  end.

#[export] Instance message_known_dec message m : Decision (message_known message m).
Proof. destruct message; simpl; apply _. Defined.

Lemma consume_message_refines st m message :
  represents st m ->
  exists x st', dg_consume_message message st = (x, st') /\
    dgs_initially_scanned st' = dgs_initially_scanned st /\
    if decide (message_known message m)
    then x = Ok tt /\ represents st' (message_spec message m)
    else x = Err mkInternalError /\ st' = st.
Proof.
  intros Hr. destruct message as [c|u|d]; simpl.
  - destruct (get_or_create_spec (E := InternalError) st m (dlc_dataset_id c) Hr)
      as (i & st' & Hg & Hr' & _ & Hs & _).
    unfold mbind, action_bind. rewrite Hg. by exists (Ok tt), st'.
  - case_decide as Hk.
    + destruct (handle_dependencies_updated_spec st m _ (dlu_new_upstream_ids u) Hr Hk)
        as (st' & Hx & Hr' & Hs). eauto 6.
    + exists (Err mkInternalError), st. split_and!; try done.
      unfold handle_dependencies_updated, existing_upstream_ids, get_dataset_node.
      rewrite (rp_nodes _ _ Hr) in Hk. apply eq_None_not_Some in Hk. by rewrite Hk.
  - case_decide as Hk.
    + destruct (handle_deleted_spec st m _ Hr Hk) as (st' & Hx & Hr' & Hs). eauto 6.
    + exists (Err mkInternalError), st. split_and!; try done.
      unfold handle_deleted, get_dataset_node.
      rewrite (rp_nodes _ _ Hr) in Hk. apply eq_None_not_Some in Hk. by rewrite Hk.
Qed.

(** ** The initial scan *)

(** What the loop reads: the items before the first error. *)
Fixpoint scanned_items (s : DatasetDependenciesIDStream) : list DatasetDependencies :=
  match s with
  | Ok d :: rest => d :: scanned_items rest
  | _ => []
  end.

Lemma dm_link_add u id m : dm_link u id (dm_add id m) = dm_link u id m.
Proof. apply DependencyMap_eq; simpl; set_solver. Qed.

Lemma scan_dependencies_spec {E} st m d :
  represents st m ->
  exists st', scan_dependencies (E := E) d st = (Ok tt, st') /\ represents st' (dm_scan d m) /\
    dgs_initially_scanned st' = dgs_initially_scanned st.
Proof.
  intros Hr. unfold scan_dependencies, dm_scan.
  destruct (ddp_upstream_dataset_ids d) as [|u us].
  - destruct (get_or_create_spec (E := E) st m (ddp_downstream_dataset_id d) Hr)
      as (i & st' & Hg & Hr' & _ & Hs & _).
    unfold mbind, action_bind. rewrite Hg. by exists st'.
  - cbn [foldl]. rewrite dm_link_add.
    apply (for_each_spec (fun o => add_dependency o (ddp_downstream_dataset_id d))
      (fun o => dm_link o (ddp_downstream_dataset_id d)) (u :: us)); [|done].
    intros x st0 m0. apply add_dependency_spec.
Qed.

Lemma scan_stream_spec {E} s st m :
  represents st m -> Forall (fun x => x <> Panic) s ->
  exists st', scan_stream (E := E) s st = (Ok tt, st') /\
    represents st' (foldl (fun m d => dm_scan d m) m (scanned_items s)).
Proof.
  intros Hr Hs. revert st m Hr; induction Hs as [|x s Hx _ IH]; intros st m Hr; simpl; [by exists st|].
  destruct x as [d|e|]; [|by exists st|done].
  destruct (scan_dependencies_spec (E := E) st m d Hr) as (st1 & H1 & Hr1 & _).
  unfold mbind, action_bind. rewrite H1. by apply IH.
Qed.

Lemma eager_initialization_spec s st m :
  represents st m -> dgs_initially_scanned st = false -> Forall (fun x => x <> Panic) s ->
  exists st', eager_initialization s st = (Ok tt, st') /\ dgs_initially_scanned st' = true /\
    represents st' (foldl (fun m d => dm_scan d m) m (scanned_items s)).
Proof.
  intros Hr Hs Hp. unfold eager_initialization. rewrite Hs.
  destruct (scan_stream_spec (E := InternalError) s st m Hr Hp) as (st1 & H1 & Hr1).
  unfold ensure_datasets_initially_scanned_with, mbind, action_bind, modify. rewrite H1.
  eexists. split_and!; [done..|]. by apply represents_scanned.
Qed.

(** ** Recursive queries *)

Lemma rtc_ids st m a i j :
  represents st m -> dgs_dataset_node_indices st !! a = Some i ->
  rtc (fun x y => (x, y) ∈ dg_edges (dgs_datasets_graph st)) i j <->
  exists b, dgs_dataset_node_indices st !! b = Some j /\ rtc (depends m) a b.
Proof.
  intros Hr Hi. split.
  - intros Hrtc. revert a Hi. induction Hrtc as [i|i k j He _ IH]; intros a Hi; [by exists a|].
    destruct (rp_ends _ _ Hr _ _ He) as [_ [b Hb%(rp_index _ _ Hr)]].
    destruct (IH b Hb) as (c & Hc & Hbc). exists c. split; [done|].
    eapply rtc_l; [|done]. by apply (represents_edge _ _ _ _ _ _ Hr Hi Hb).
  - intros (b & Hb & Hrtc). revert i Hi. induction Hrtc as [a|a c b Hac _ IH]; intros i Hi.
    + simplify_eq. done.
    + apply (rp_edges _ _ Hr) in Hac as (i' & k & Hi' & Hk & He). simplify_eq.
      eapply rtc_l; [done|]. by apply IH.
Qed.

Lemma get_nodes_spec st m ids :
  represents st m ->
  (Forall (.∈ dm_nodes m) ids -> exists l, get_nodes_from_dataset_ids ids st = Ok l /\
     Forall2 (fun id i => dgs_dataset_node_indices st !! id = Some i) ids l) /\
  (forall id, id ∈ ids -> ~ id ∈ dm_nodes m -> exists e,
     get_nodes_from_dataset_ids ids st = Err (GetDependenciesError_DatasetNotFound e)).
Proof.
  intros Hr. induction ids as [|id ids [IH1 IH2]]; simpl.
  - split; [by exists []|]. by intros id ?%elem_of_nil.
  - unfold get_dataset_node. split.
    + intros [Hid Hids]%Forall_cons. apply (rp_nodes _ _ Hr) in Hid as [i Hi]. rewrite Hi. simpl.
      destruct (IH1 Hids) as (l & -> & Hl). simpl. eauto.
    + intros x Hx Hn. destruct (dgs_dataset_node_indices st !! id) as [i|] eqn:Hi; simpl; [|by eauto].
      apply elem_of_cons in Hx as [->|Hx].
      * exfalso. apply Hn, (rp_nodes _ _ Hr). by eexists.
      * destruct (IH2 x Hx Hn) as [e ->]. by exists e.
Qed.

Lemma before_Forall2 {A B} (R : A -> B -> Prop) l k x y :
  Forall2 R l k -> before l x y -> exists a b, R x a /\ R y b /\ before k a b.
Proof.
  intros Hf (l1 & l2 & l3 & ->).
  apply Forall2_app_inv_l in Hf as (k1 & k' & _ & Hf & ->).
  apply Forall2_cons_inv_l in Hf as (a & k'' & Ha & Hf & ->).
  apply Forall2_app_inv_l in Hf as (k2 & k3 & _ & Hf & ->).
  apply Forall2_cons_inv_l in Hf as (b & k4 & Hb & _ & ->).
  exists a, b. split_and!; [done..|]. by exists k1, k2, k4.
Qed.

Lemma depth_first_spec st m ids :
  represents st m -> Forall (.∈ dm_nodes m) ids ->
  exists l, run_recursive_depth_first_search ids st = Ok l /\
    lists l (fun w => exists a, a ∈ ids /\ rtc (depends m) a w) /\
    forall u v, u ∈ l -> depends m u v -> ~ rtc (depends m) v u -> before l v u.
Proof.
  intros Hr Hids. destruct (proj1 (get_nodes_spec st m ids Hr) Hids) as (ns & Hn & Hf).
  unfold run_recursive_depth_first_search. rewrite Hn. simpl.
  assert (His : Forall (fun i => is_Some (dg_nodes (dgs_datasets_graph st) !! i)) ns).
  { apply Forall_forall. intros i [k Hk]%list_elem_of_lookup.
    destruct (Forall2_lookup_r _ _ _ _ _ Hf Hk) as (id & _ & Hi). eexists. by apply (rp_index _ _ Hr). }
  destruct (dg_dfs_law (dgs_datasets_graph st) ns (rp_simple _ _ Hr) His) as [Hl Ho].
  assert (Hreach : forall a i, a ∈ ids -> dgs_dataset_node_indices st !! a = Some i -> i ∈ ns).
  { intros a i [k Hk]%list_elem_of_lookup Hi.
    destruct (Forall2_lookup_l _ _ _ _ _ Hf Hk) as (i' & Hk' & Hi'). simplify_eq.
    by eapply list_elem_of_lookup_2. }
  destruct (node_weights_spec (E := GetDependenciesError) (dgs_datasets_graph st)
    (dg_dfs_finish (dgs_datasets_graph st) ns)) as (ws & -> & Hws).
  { intros j (i & Hi & Hij)%Hl. apply list_elem_of_lookup in Hi as [k Hk].
    destruct (Forall2_lookup_r _ _ _ _ _ Hf Hk) as (a & _ & Ha).
    destruct (proj1 (rtc_ids _ _ _ _ _ Hr Ha) Hij) as (b & Hb & _). eexists. by apply (rp_index _ _ Hr). }
  exists ws. split; [done|]. split.
  - eapply lists_ext, (weights_lists _ _ _ _ _ Hr Hws Hl). intros w. split.
    + intros (j & Hj & i & Hi & Hij). apply list_elem_of_lookup in Hi as [k Hk].
      destruct (Forall2_lookup_r _ _ _ _ _ Hf Hk) as (a & Hka & Ha). exists a.
      split; [by eapply list_elem_of_lookup_2|].
      destruct (proj1 (rtc_ids _ _ _ _ _ Hr Ha) Hij) as (b & Hb & Hab).
      by rewrite (index_inj _ _ _ _ _ Hr Hj Hb).
    + intros (a & Ha & Haw). pose proof (proj1 (Forall_forall _ _) Hids a) as Hna.
      pose proof (Hna Ha) as [i Hi]%(rp_nodes _ _ Hr).
      assert (Hw : exists j, dgs_dataset_node_indices st !! w = Some j).
      { destruct (rtc_inv_r _ _ Haw) as [->|(y & _ & Hyw)]; [by exists i|].
        apply (rp_edges _ _ Hr) in Hyw as (? & j & _ & Hj & _). by exists j. }
      destruct Hw as [j Hj]. exists j. split; [done|]. exists i. split; [by eapply (Hreach a)|].
      apply (rtc_ids _ _ _ _ _ Hr Hi). by exists w.
  - intros u v Hu Huv Hvu.
    apply (rp_edges _ _ Hr) in Huv as (i & j & Hi & Hj & He).
    destruct (before_Forall2 _ _ _ j i Hws) as (v' & u' & Hv' & Hu' & Hb).
    + apply Ho; [|done|].
      * apply list_elem_of_lookup in Hu as [k Hk].
        destruct (Forall2_lookup_r _ _ _ _ _ Hws Hk) as (i' & Hk' & Hi'%(rp_index _ _ Hr)).
        simplify_eq. by eapply list_elem_of_lookup_2.
      * intros Hji. apply Hvu. destruct (proj1 (rtc_ids _ _ _ _ _ Hr Hj) Hji) as (b & Hb & Hvb).
        by rewrite (index_inj _ _ _ _ _ Hr Hi Hb).
    + apply (rp_index _ _ Hr) in Hv', Hu'.
      by rewrite (index_inj _ _ _ _ _ Hr Hj Hv'), (index_inj _ _ _ _ _ Hr Hi Hu').
Qed.

Lemma bfs_visit_spec {E} g (l : list Ix) visited :
  NoDup l -> (forall i, i ∈ l -> is_Some (dg_nodes g !! i)) ->
  exists ns ws, bfs_visit (E := E) g l visited = Ok (list_to_set l ∪ visited, ws) /\
    Forall2 (fun i w => dg_nodes g !! i = Some w) ns ws /\
    lists ns (fun i => i ∈ l /\ ~ i ∈ visited).
Proof.
  intros Hnd. revert visited; induction Hnd as [|i l Hi _ IH]; intros visited Hl; simpl.
  - exists [], []. split_and!; [|done|split; [constructor|set_solver]]. do 2 f_equal. set_solver.
  - destruct (Hl i) as [w Hw]; [by left|]. case_decide as Hv.
    + destruct (IH visited) as (ns & ws & -> & Hf & Hn & Hin); [set_solver|].
      exists ns, ws. split_and!; [do 2 f_equal; set_solver|done|]. split; [done|].
      intros x. rewrite Hin, elem_of_cons. set_solver.
    + rewrite dg_node_weight_law, Hw. simpl.
      destruct (IH ({[i]} ∪ visited)) as (ns & ws & -> & Hf & Hn & Hin); [set_solver|]. simpl.
      exists (i :: ns), (w :: ws). split_and!.
      * do 2 f_equal. set_solver.
      * by constructor.
      * split; [constructor; [rewrite Hin; set_solver|done]|].
        intros x. rewrite !elem_of_cons, Hin. set_solver.
Qed.

Lemma bfs_search_spec {E} g (nodes : list Ix) visited :
  dg_simple g -> (forall i, i ∈ nodes -> is_Some (dg_nodes g !! i)) ->
  (forall i j, i ∈ nodes -> j ∈ dg_bfs_reversed g i -> is_Some (dg_nodes g !! j)) ->
  exists ns ws, bfs_search (E := E) g nodes visited = Ok ws /\
    Forall2 (fun i w => dg_nodes g !! i = Some w) ns ws /\
    lists ns (fun j => ~ j ∈ visited /\ exists i, i ∈ nodes /\ j ∈ dg_bfs_reversed g i).
Proof.
  intros Hs. revert visited; induction nodes as [|n nodes IH]; intros visited Hn Hb; simpl.
  - exists [], []. split_and!; [done..|]. split; [constructor|set_solver].
  - destruct (bfs_visit_spec (E := E) g (dg_bfs_reversed g n) visited) as (ns1 & ws1 & -> & Hf1 & Hn1 & Hl1).
    { apply dg_bfs_law; [done|]. apply Hn. by left. }
    { intros i. apply Hb. by left. }
    simpl. destruct (IH (list_to_set (dg_bfs_reversed g n) ∪ visited)) as (ns2 & ws2 & -> & Hf2 & Hn2 & Hl2).
    { set_solver. } { intros i j Hi. apply Hb. by right. }
    exists (reverse ns1 ++ ns2), (reverse ws1 ++ ws2). split_and!; [done| |split].
    + apply Forall2_app; [by apply Forall2_reverse|done].
    + apply NoDup_app. split_and!; [by rewrite reverse_Permutation| |done].
      intros x. rewrite elem_of_reverse, Hl1, Hl2, not_elem_of_union, elem_of_list_to_set. tauto.
    + intros x. rewrite elem_of_app, elem_of_reverse, Hl1, Hl2, not_elem_of_union, elem_of_list_to_set.
      destruct (decide (x ∈ dg_bfs_reversed g n)); set_solver.
Qed.

Lemma breadth_first_spec st m ids :
  represents st m -> Forall (.∈ dm_nodes m) ids ->
  exists l, run_recursive_reversed_breadth_first_search ids st = Ok l /\
    lists l (fun w => exists a, a ∈ ids /\ rtc (depends m) w a).
Proof.
  intros Hr Hids. destruct (proj1 (get_nodes_spec st m ids Hr) Hids) as (ns & Hn & Hf).
  unfold run_recursive_reversed_breadth_first_search. rewrite Hn. simpl.
  pose proof (rp_simple _ _ Hr) as Hs.
  assert (Hid : forall i, i ∈ ns -> exists a, a ∈ ids /\ dgs_dataset_node_indices st !! a = Some i).
  { intros i [k Hk]%list_elem_of_lookup. destruct (Forall2_lookup_r _ _ _ _ _ Hf Hk) as (a & Hka & Ha).
    exists a. split; [by eapply list_elem_of_lookup_2|done]. }
  assert (Hbfs : forall i j, i ∈ ns -> j ∈ dg_bfs_reversed (dgs_datasets_graph st) i <->
            rtc (fun a b => (a, b) ∈ dg_edges (dgs_datasets_graph st)) j i).
  { intros i j (a & _ & Ha)%Hid. apply dg_bfs_law; [done|]. eexists. by apply (rp_index _ _ Hr). }
  assert (Hfrom : forall i j, i ∈ ns -> j ∈ dg_bfs_reversed (dgs_datasets_graph st) i ->
            exists w, dgs_dataset_node_indices st !! w = Some j).
  { intros i j Hi Hj%Hbfs; [|done]. inversion Hj as [|x k y He _]; subst.
    - destruct (Hid _ Hi) as (a & _ & Ha). eauto.
    - destruct (rp_ends _ _ Hr _ _ He) as [[w Hw%(rp_index _ _ Hr)] _]. eauto. }
  destruct (bfs_search_spec (E := GetDependenciesError) (dgs_datasets_graph st) ns ∅)
    as (js & ws & -> & Hws & Hl); [done|..].
  { intros i (a & _ & Ha)%Hid. eexists. by apply (rp_index _ _ Hr). }
  { intros i j Hi Hj. destruct (Hfrom i j Hi Hj) as [w Hw]. eexists. by apply (rp_index _ _ Hr). }
  exists ws. split; [done|]. eapply lists_ext, (weights_lists _ _ _ _ _ Hr Hws Hl). intros w. split.
  - intros (j & Hj & _ & i & Hi & Hji). destruct (Hid i Hi) as (a & Ha & Hai). exists a.
    split; [done|]. apply Hbfs in Hji; [|done].
    destruct (proj1 (rtc_ids _ _ _ _ _ Hr Hj) Hji) as (b & Hb & Hwb).
    by rewrite (index_inj _ _ _ _ _ Hr Hai Hb).
  - intros (a & Ha & Hwa). apply list_elem_of_lookup in Ha as [k Hk].
    destruct (Forall2_lookup_l _ _ _ _ _ Hf Hk) as (i & Hki & Hi).
    assert (Hw : exists j, dgs_dataset_node_indices st !! w = Some j).
    { inversion Hwa as [|x y z Hwy _]; subst; [by exists i|].
      apply (rp_edges _ _ Hr) in Hwy as (j & _ & Hj & _). by exists j. }
    destruct Hw as [j Hj]. exists j. split_and!; [done|set_solver|]. exists i.
    split; [by eapply list_elem_of_lookup_2|]. apply Hbfs; [by eapply list_elem_of_lookup_2|].
    apply (rtc_ids _ _ _ _ _ Hr Hj). by exists a.
Qed.
End Facts.
