(* ===== verification/DependencyGraphExample.v ===== *)
(** A small directed graph that keeps the promises of [LawfulDiGraph], so that
    the theorems about the dependency graph can be applied to concrete data. *)

From S2P Require Import Prelude Multiformats Identity Dtos ChainRepos EventSourcing TaskSystem FlowSystem Outbox Messages Dataset DependencyGraph.
From stdpp Require Import sorting.

(** * Reachability in a finite relation *)

Definition reach_step (E : gset (nat * nat)) (S : gset nat) : gset nat :=
  S ∪ set_map snd (filter (fun e => e.1 ∈ S) E).

Definition reach (E : gset (nat * nat)) (S : gset nat) : gset nat :=
  Nat.iter (size E) (reach_step E) S.

Definition arrow (E : gset (nat * nat)) (a b : nat) : Prop := (a, b) ∈ E.

Lemma elem_of_reach_step E S j :
  j ∈ reach_step E S <-> j ∈ S \/ exists i, i ∈ S /\ arrow E i j.
Proof.
  unfold reach_step, arrow. rewrite elem_of_union, elem_of_map. split.
  - intros [?|([a b] & -> & [Ha Hin]%elem_of_filter)]; [by left|right]. by exists a.
  - intros [?|(i & Hi & Hin)]; [by left|right]. exists (i, j). split; [done|]. by apply elem_of_filter.
Qed.

Lemma reach_step_bound E S n :
  Nat.iter n (reach_step E) S ⊆ S ∪ set_map snd E.
Proof.
  induction n as [|n IH]; simpl; [set_solver|]. intros j [Hj|(i & _ & Hij)]%elem_of_reach_step; [auto|].
  apply elem_of_union_r, elem_of_map. by exists (i, j).
Qed.

Lemma step_strict E T : reach_step E T <> T -> T ⊂ reach_step E T.
Proof.
  intros Hne. split; [unfold reach_step; set_solver|]. intros Hback. apply Hne, set_eq. intros x.
  split; [apply Hback|unfold reach_step; set_solver].
Qed.

(** Before it is closed, the set grows with every step. *)
Lemma reach_grows E S n :
  reach_step E (Nat.iter n (reach_step E) S) = Nat.iter n (reach_step E) S \/
  size S + n <= size (Nat.iter n (reach_step E) S).
Proof.
  induction n as [|n IH]; simpl; [right; lia|].
  set (T := Nat.iter n (reach_step E) S) in *.
  destruct (decide (reach_step E T = T)) as [Heq|Hne]; [left; by rewrite Heq|right].
  destruct IH as [|IH]; [done|]. apply step_strict, subset_size in Hne. lia.
Qed.

Lemma size_union_le (X Y : gset nat) : size (X ∪ Y) <= size X + size Y.
Proof. rewrite size_union_alt. apply Nat.add_le_mono_l, subseteq_size. set_solver. Qed.

Lemma size_list_to_set_le (l : list nat) : size (list_to_set l : gset nat) <= length l.
Proof.
  induction l as [|x l IH]; simpl; [by vm_compute|].
  etrans; [apply size_union_le|]. rewrite size_singleton. lia.
Qed.

Lemma reach_closed E S : reach_step E (reach E S) = reach E S.
Proof.
  destruct (decide (reach_step E (reach E S) = reach E S)) as [|Hne]; [done|].
  destruct (reach_grows E S (size E)) as [|Hs]; [done|]. fold (reach E S) in Hs.
  pose proof (step_strict _ _ Hne) as Hlt%subset_size.
  pose proof (reach_step_bound E S (Datatypes.S (size E))) as Hb%subseteq_size. simpl in Hb.
  fold (reach E S) in Hb.
  assert (size (S ∪ set_map snd E) <= size S + size E); [|lia].
  etrans; [apply size_union_le|]. apply Nat.add_le_mono_l. unfold set_map.
  etrans; [apply size_list_to_set_le|]. by rewrite length_fmap.
Qed.

Lemma reach_spec E S j : j ∈ reach E S <-> exists i, i ∈ S /\ rtc (arrow E) i j.
Proof.
  split.
  - unfold reach. generalize (size E) as n. intros n. revert j; induction n as [|n IH]; simpl; intros j.
    + intros Hj. by exists j.
    + intros [Hj|(k & Hk & Hkj)]%elem_of_reach_step; [by apply IH|].
      destruct (IH k Hk) as (i & Hi & Hik). exists i. split; [done|]. by eapply rtc_r.
  - intros (i & Hi & Hij). assert (Hir : i ∈ reach E S).
    { unfold reach. induction (size E) as [|n IH]; simpl; [done|]. apply elem_of_reach_step. by left. }
    clear Hi. induction Hij as [|i k j Hik _ IH]; [done|]. apply IH.
    rewrite <- reach_closed. apply elem_of_reach_step. eauto.
Qed.

(** * The graph *)

Record SimpleGraph := mkSimpleGraph {
  sg_nodes : gmap nat DatasetID;
  sg_edges : gset (nat * nat)
}.

Definition flip_edges (E : gset (nat * nat)) : gset (nat * nat) := set_map (fun e => (e.2, e.1)) E.

(** Nodes that reach less come first. *)
Definition reach_count (E : gset (nat * nat)) (i : nat) : nat := size (reach E {[i]}).
Definition reach_le (E : gset (nat * nat)) (i j : nat) : Prop := reach_count E i <= reach_count E j.

#[export] Instance reach_le_dec E : RelDecision (reach_le E).
Proof. intros i j. unfold reach_le. apply _. Defined.
#[export] Instance reach_le_total E : Total (reach_le E).
Proof. intros i j. unfold reach_le. lia. Qed.
#[export] Instance reach_le_trans E : Transitive (reach_le E).
Proof. intros i j k. unfold reach_le. lia. Qed.

#[export] Instance simple_graph : DiGraph SimpleGraph nat (nat * nat) := {|
  dg_new := mkSimpleGraph ∅ ∅;
  dg_add_node g w :=
    let i := fresh (dom (sg_nodes g)) in (i, mkSimpleGraph (<[i := w]> (sg_nodes g)) (sg_edges g));
  dg_update_edge g a b := Some (mkSimpleGraph (sg_nodes g) ({[(a, b)]} ∪ sg_edges g));
  dg_find_edge g a b := if decide ((a, b) ∈ sg_edges g) then Some (a, b) else None;
  dg_remove_edge g e := mkSimpleGraph (sg_nodes g) (sg_edges g ∖ {[e]});
  dg_remove_node g i :=
    mkSimpleGraph (delete i (sg_nodes g)) (filter (fun x => x.1 <> i /\ x.2 <> i) (sg_edges g));
  dg_node_weight g i := sg_nodes g !! i;
  dg_neighbors_directed g i d :=
    match d with
    | Direction_Outgoing => elements (set_map snd (filter (fun e => e.1 = i) (sg_edges g)) : gset nat)
    | Direction_Incoming => elements (set_map fst (filter (fun e => e.2 = i) (sg_edges g)) : gset nat)
    end;
  dg_bfs_reversed g i := elements (reach (flip_edges (sg_edges g)) {[i]});
  dg_dfs_finish g starts :=
    merge_sort (reach_le (sg_edges g)) (elements (reach (sg_edges g) (list_to_set starts)))
|}.

Lemma lists_elements (S : gset nat) P : (forall x, x ∈ S <-> P x) -> lists (elements S) P.
Proof. intros HP. split; [apply NoDup_elements|]. intros x. by rewrite elem_of_elements. Qed.

Lemma rtc_flip E i j : rtc (arrow (flip_edges E)) i j <-> rtc (arrow E) j i.
Proof.
  assert (Hf : forall a b, arrow (flip_edges E) a b <-> arrow E b a).
  { intros a b. unfold arrow, flip_edges. rewrite elem_of_map. split.
    - by intros ([x y] & [= -> ->] & Hin).
    - intros Hin. by exists (b, a). }
  split; induction 1 as [|x y z Hxy _ IH]; [done|..|done|]; eapply rtc_r; [done|by apply Hf|done|by apply Hf].
Qed.

(** In a sorted list, what is strictly smaller comes before. *)
Lemma sorted_before E l u v :
  StronglySorted (reach_le E) l -> u ∈ l -> v ∈ l -> reach_count E v < reach_count E u -> before l v u.
Proof.
  intros Hs Hu Hv Hlt. apply list_elem_of_split in Hv as (l1 & l2 & ->).
  apply elem_of_app in Hu as [Hu|Hu].
  - exfalso. apply list_elem_of_split in Hu as (k1 & k2 & ->).
    rewrite <- app_assoc in Hs.
    assert (reach_le E u v); [|unfold reach_le in *; lia].
    revert Hs. clear. induction k1 as [|x k1 IH]; simpl.
    + intros Hs. apply StronglySorted_inv in Hs as [_ Hall].
      rewrite Forall_forall in Hall. apply Hall. set_solver.
    + intros Hs. apply StronglySorted_inv in Hs as [Hs _]. auto.
  - apply elem_of_cons in Hu as [->|Hu]; [lia|].
    apply list_elem_of_split in Hu as (k1 & k2 & ->). by exists l1, k1, k2.
Qed.

#[export] Program Instance simple_graph_lawful : LawfulDiGraph SimpleGraph nat (nat * nat) := {|
  dg_nodes := sg_nodes;
  dg_edges := sg_edges;
  dg_simple _ := True
|}.
Next Obligation. done. Qed.
Next Obligation.
  intros g w i g' _ [= <- <-]. split_and!; try done. apply not_elem_of_dom. apply is_fresh.
Qed.
Next Obligation. simpl. eauto. Qed.
Next Obligation. intros g a b _. simpl. by case_decide. Qed.
Next Obligation. done. Qed.
Next Obligation. done. Qed.
Next Obligation.
  intros g i [|] _; apply lists_elements; intros x; rewrite elem_of_map; split.
  - intros ([a b] & -> & [Heq Hin]%elem_of_filter). simpl in *. by subst.
  - intros Hin. exists (i, x). split; [done|]. by apply elem_of_filter.
  - intros ([a b] & -> & [Heq Hin]%elem_of_filter). simpl in *. by subst.
  - intros Hin. exists (x, i). split; [done|]. by apply elem_of_filter.
Qed.
Next Obligation.
  intros g i _ _. apply lists_elements. intros x. rewrite reach_spec.
  setoid_rewrite elem_of_singleton. setoid_rewrite rtc_flip. split; [by intros (? & -> & ?)|eauto].
Qed.
Next Obligation.
  intros g starts _ _. simpl. set (E := sg_edges g). set (R := reach E (list_to_set starts)).
  pose proof (merge_sort_Permutation (reach_le E) (elements R)) as Hp. split.
  - split; [by rewrite Hp; apply NoDup_elements|]. intros x. rewrite Hp, elem_of_elements.
    unfold R. rewrite reach_spec. by setoid_rewrite elem_of_list_to_set.
  - intros u v Hu Huv Hvu.
    assert (HuR : u ∈ R) by (by rewrite Hp, elem_of_elements in Hu).
    assert (Hstep : forall S, u ∈ reach E S -> v ∈ reach E S).
    { intros S Hin. rewrite <- reach_closed. apply elem_of_reach_step. right. by exists u. }
    apply (sorted_before E); [|done|..].
    + apply Sorted_StronglySorted; [apply _|]. by apply Sorted_merge_sort; apply _.
    + rewrite Hp, elem_of_elements. by apply Hstep.
    + unfold reach_count. apply subset_size. split.
      * intros x. rewrite !reach_spec. intros (? & ->%elem_of_singleton & Hx). exists u.
        split; [set_solver|]. by eapply rtc_l.
      * intros Hback. apply Hvu. assert (u ∈ reach E {[v]}) as Hin.
        { apply Hback, reach_spec. exists u. split; [set_solver|done]. }
        apply reach_spec in Hin as (? & ->%elem_of_singleton & ?). done.
Qed.
