(* ===== verification/DatasetOwnership.v ===== *)
(** Who owns which dataset, kept in memory from dataset life-cycle messages.

    Sources: src/domain/core/src/services/dataset_ownership_service.rs,
    src/infra/core/src/dataset_ownership_service_inmem.rs, and the account of the
    caller from src/domain/accounts/domain/src/entities/current_account_subject.rs.

    The service keeps two indexes, by dataset and by account.  [owns] is the
    specification: the set of datasets that exist, each with its owner. *)

From S2P Require Import Prelude Multiformats Identity Dtos EventSourcing TaskSystem FlowSystem FlowTimeWheel FlowStore Outbox Messages.

Inductive AnonymousAccountReason :=
| AnonymousAccountReason_NoAuthenticationProvided
| AnonymousAccountReason_AuthenticationInvalid
| AnonymousAccountReason_AuthenticationExpired.

Record LoggedAccount := mkLoggedAccount {
  la_account_id : AccountID;
  la_account_name : AccountName;
  la_is_admin : bool
}.

Inductive CurrentAccountSubject :=
| CurrentAccountSubject_Logged (l : LoggedAccount)
| CurrentAccountSubject_Anonymous (r : AnonymousAccountReason).

(** [State] behind the lock. *)
Record DatasetOwnershipState := mkDatasetOwnershipState {
  dos_dataset_ids_by_account_id : gmap AccountID (gset DatasetID);
  dos_account_ids_by_dataset_id : gmap DatasetID (list AccountID);
  dos_initially_scanned : bool
}.

Implicit Types (st : DatasetOwnershipState).

Definition DatasetOwnershipState_default : DatasetOwnershipState := mkDatasetOwnershipState ∅ ∅ false.

Definition insert_dataset_record (dataset_id : DatasetID) (owner_account_id : AccountID) st
    : DatasetOwnershipState :=
  mkDatasetOwnershipState
    (<[owner_account_id :=
         match dos_dataset_ids_by_account_id st !! owner_account_id with
         | Some e => {[dataset_id]} ∪ e
         | None => {[dataset_id]}
         end]> (dos_dataset_ids_by_account_id st))
    (<[dataset_id := [owner_account_id]]> (dos_account_ids_by_dataset_id st))
    (dos_initially_scanned st).

Definition check_has_initialized st : res InternalError unit :=
  if dos_initially_scanned st then Ok tt else Err mkInternalError.

(** * Queries *)

Definition get_dataset_owners st (dataset_id : DatasetID) : res InternalError (list AccountID) :=
  let! _ := check_has_initialized st in
  Ok (default [] (dos_account_ids_by_dataset_id st !! dataset_id)).

Definition get_owned_datasets st (account_id : AccountID) : res InternalError (list DatasetID) :=
  let! _ := check_has_initialized st in
  Ok (match dos_dataset_ids_by_account_id st !! account_id with
      | Some dataset_ids => elements dataset_ids
      | None => []
      end).

Definition is_dataset_owned_by st (dataset_id : DatasetID) (account_id : AccountID)
    : res InternalError bool :=
  let! _ := check_has_initialized st in
  Ok (match dos_account_ids_by_dataset_id st !! dataset_id with
      | Some account_ids => bool_decide (account_id ∈ account_ids)
      | None => false
      end).

(** * Messages *)

(** [for account_id in account_ids { .. }] *)
Definition remove_from_accounts (dataset_id : DatasetID) (account_ids : list AccountID)
    (by_account : gmap AccountID (gset DatasetID)) : gmap AccountID (gset DatasetID) :=
  foldl (fun m a => alter (fun ids => ids ∖ {[dataset_id]}) a m) by_account account_ids.

Definition do_consume_message (message : DatasetLifecycleMessage)
    : action DatasetOwnershipState InternalError unit := fun st =>
  match message with
  | DatasetLifecycleMessage_Created message =>
      (Ok tt, insert_dataset_record (dlc_dataset_id message) (dlc_owner_account_id message) st)
  | DatasetLifecycleMessage_Deleted message =>
      match get_dataset_owners st (dld_dataset_id message) with
      | Ok [] => (Ok tt, st)
      | Ok account_ids =>
          (Ok tt, mkDatasetOwnershipState
             (remove_from_accounts (dld_dataset_id message) account_ids
                (dos_dataset_ids_by_account_id st))
             (delete (dld_dataset_id message) (dos_account_ids_by_dataset_id st))
             (dos_initially_scanned st))
      | Err e => (Err e, st)
      | Panic => (Panic, st)
      end
  | DatasetLifecycleMessage_DependenciesUpdated _ => (Ok tt, st)
  end.

(** * The initial scan *)

Section Initializer.
Variable current_account_subject : CurrentAccountSubject.
Variable find_account_id_by_name : AccountName -> res InternalError (option AccountID).

(** The owner's name: that of the alias, or of the caller. *)
Definition owner_name (dataset_handle : DatasetHandle) : res InternalError AccountName :=
  match da_account_name (dh_alias dataset_handle) with
  | Some account_name => Ok account_name
  | None =>
      match current_account_subject with
      | CurrentAccountSubject_Anonymous _ => Panic
      | CurrentAccountSubject_Logged l => Ok (la_account_name l)
      end
  end.

(** The local map from names to identifiers; [AccountName] is hashed and
    compared without regard to case. *)
Definition find_cached (account_name : AccountName)
    : action (gmap string AccountID) InternalError (option AccountID) := fun account_ids_by_name =>
  let key := to_ascii_lowercase (an_str account_name) in
  match account_ids_by_name !! key with
  | Some account_id => (Ok (Some account_id), account_ids_by_name)
  | None =>
      match find_account_id_by_name account_name with
      | Ok (Some account_id) => (Ok (Some account_id), <[key := account_id]> account_ids_by_name)
      | Ok None => (Ok None, account_ids_by_name)
      | Err e => (Err e, account_ids_by_name)
      | Panic => (Panic, account_ids_by_name)
      end
  end.

(** [while let Some(Ok(dataset_handle)) = datasets_stream.next().await] *)
Fixpoint scan_owners (datasets_stream : list (res InternalError DatasetHandle))
    (account_ids_by_name : gmap string AccountID)
    : action DatasetOwnershipState InternalError unit := fun st =>
  match datasets_stream with
  | Ok dataset_handle :: rest =>
      match owner_name dataset_handle with
      | Ok account_name =>
          let '(x, account_ids_by_name') := find_cached account_name account_ids_by_name in
          match x with
          | Ok maybe_account_id =>
              scan_owners rest account_ids_by_name'
                match maybe_account_id with
                | Some account_id => insert_dataset_record (dh_id dataset_handle) account_id st
                | None => st
                end
          | Err e => (Err e, st)
          | Panic => (Panic, st)
          end
      | Err e => (Err e, st)
      | Panic => (Panic, st)
      end
  | Panic :: _ => (Panic, st)
  | _ => (Ok tt, st)
  end.

Definition do_eager_initialization (datasets_stream : list (res InternalError DatasetHandle))
    : action DatasetOwnershipState InternalError unit := fun st =>
  if dos_initially_scanned st then (Ok tt, st)
  else match scan_owners datasets_stream ∅ st with
       | (Ok _, st') =>
           (Ok tt, mkDatasetOwnershipState (dos_dataset_ids_by_account_id st')
                     (dos_account_ids_by_dataset_id st') true)
       | r => r
       end.
End Initializer.

(** * The specification *)

(** The datasets that exist, when each has the owner [owner_of] says. *)
Record owns (owner_of : DatasetID -> AccountID) st (live : gset DatasetID) : Prop := {
  ow_owners d : dos_account_ids_by_dataset_id st !! d =
    if decide (d ∈ live) then Some [owner_of d] else None;
  ow_owned a d : (exists ids, dos_dataset_ids_by_account_id st !! a = Some ids /\ d ∈ ids) <->
    d ∈ live /\ owner_of d = a
}.

Section Facts.
Variable owner_of : DatasetID -> AccountID.
Implicit Types live : gset DatasetID.

(** Membership in an optional set, as in [ow_owned]. *)
Lemma in_some (e : gset DatasetID) d : (exists ids, Some e = Some ids /\ d ∈ ids) <-> d ∈ e.
Proof. naive_solver. Qed.
Lemma in_none d : (exists ids : gset DatasetID, None = Some ids /\ d ∈ ids) <-> False.
Proof. naive_solver. Qed.

Lemma owns_default : owns owner_of DatasetOwnershipState_default ∅.
Proof.
  split.
  - intros d. simpl. by rewrite lookup_empty, decide_False by set_solver.
  - intros a d. simpl. split; [|set_solver]. intros (ids & Hi & _). by rewrite lookup_empty in Hi.
Qed.

Lemma owns_scanned st live b :
  owns owner_of st live ->
  owns owner_of (mkDatasetOwnershipState (dos_dataset_ids_by_account_id st)
                   (dos_account_ids_by_dataset_id st) b) live.
Proof. by intros []. Qed.

Lemma insert_record_spec st live d :
  owns owner_of st live -> owns owner_of (insert_dataset_record d (owner_of d) st) ({[d]} ∪ live).
Proof.
  intros [Ho Hw]. split; simpl.
  - intros d'. destruct (decide (d = d')) as [->|Hne].
    + rewrite lookup_insert_eq, decide_True by set_solver. done.
    + rewrite lookup_insert_ne, Ho by done. apply decide_ext. set_solver.
  - intros a d'. destruct (decide (owner_of d = a)) as [<-|Hne].
    + setoid_rewrite lookup_insert_eq. specialize (Hw (owner_of d) d').
      destruct (dos_dataset_ids_by_account_id st !! owner_of d) as [e|];
        rewrite ?in_some, ?in_none in *; set_solver.
    + setoid_rewrite lookup_insert_ne; [|done]. rewrite Hw. set_solver.
Qed.

Lemma remove_record_spec st live d :
  owns owner_of st live -> d ∈ live ->
  owns owner_of (mkDatasetOwnershipState
    (remove_from_accounts d [owner_of d] (dos_dataset_ids_by_account_id st))
    (delete d (dos_account_ids_by_dataset_id st)) (dos_initially_scanned st)) (live ∖ {[d]}).
Proof.
  intros [Ho Hw] Hd. split; simpl.
  - intros d'. destruct (decide (d = d')) as [->|Hne].
    + rewrite lookup_delete_eq, decide_False by set_solver. done.
    + rewrite lookup_delete_ne, Ho by done. apply decide_ext. set_solver.
  - intros a d'. specialize (Hw a d'). destruct (decide (owner_of d = a)) as [<-|Hne].
    + setoid_rewrite lookup_alter_eq.
      destruct (dos_dataset_ids_by_account_id st !! owner_of d) as [e|]; simpl;
        rewrite ?in_some, ?in_none in *; set_solver.
    + setoid_rewrite lookup_alter_ne; [|done]. set_solver.
Qed.

(** ** Messages *)

(** A dataset is only ever created by its owner. *)
Definition owner_message (message : DatasetLifecycleMessage) : Prop :=
  match message with
  | DatasetLifecycleMessage_Created m => dlc_owner_account_id m = owner_of (dlc_dataset_id m)
  | _ => True
  end.

Definition live_after (message : DatasetLifecycleMessage) (live : gset DatasetID) : gset DatasetID :=
  match message with
  | DatasetLifecycleMessage_Created m => {[dlc_dataset_id m]} ∪ live
  | DatasetLifecycleMessage_Deleted m => live ∖ {[dld_dataset_id m]}
  | DatasetLifecycleMessage_DependenciesUpdated _ => live
  end.

Lemma consume_ownership st live message :
  owns owner_of st live -> owner_message message -> dos_initially_scanned st = true ->
  exists st', do_consume_message message st = (Ok tt, st') /\
    owns owner_of st' (live_after message live) /\ dos_initially_scanned st' = true.
Proof.
  intros Hst Hm Hs. destruct message as [m|m|m]; simpl in *.
  - rewrite Hm. eexists. split_and!; [done| |done]. by apply insert_record_spec.
  - by exists st.
  - unfold get_dataset_owners, check_has_initialized. rewrite Hs. simpl.
    rewrite (ow_owners _ _ _ Hst). case_decide as Hd; simpl.
    + eexists. split_and!; [done| |done].
      pose proof (remove_record_spec _ _ _ Hst Hd) as Hst'. by rewrite Hs in Hst'.
    + exists st. split_and!; try done. replace (live ∖ _) with live by set_solver. done.
Qed.

(** ** Queries *)

Lemma ownership_queries st live :
  owns owner_of st live -> dos_initially_scanned st = true ->
  (forall d, get_dataset_owners st d = Ok (if decide (d ∈ live) then [owner_of d] else [])) /\
  (forall a, exists l, get_owned_datasets st a = Ok l /\ lists l (fun d => d ∈ live /\ owner_of d = a)) /\
  (forall d a, is_dataset_owned_by st d a = Ok (bool_decide (d ∈ live /\ owner_of d = a))).
Proof.
  intros Hst Hs. unfold get_dataset_owners, get_owned_datasets, is_dataset_owned_by, check_has_initialized.
  rewrite Hs. simpl. split_and!.
  - intros d. rewrite (ow_owners _ _ _ Hst). by case_decide.
  - intros a. eexists. split; [done|]. pose proof (ow_owned _ _ _ Hst a) as Hw.
    destruct (dos_dataset_ids_by_account_id st !! a) as [ids|].
    + split; [apply NoDup_elements|]. intros d. rewrite elem_of_elements, <- Hw. naive_solver.
    + split; [constructor|]. intros d. rewrite <- Hw. split; [by intros ?%elem_of_nil|naive_solver].
  - intros d a. rewrite (ow_owners _ _ _ Hst). f_equal. case_decide as Hd.
    + apply bool_decide_ext. rewrite list_elem_of_singleton. naive_solver.
    + symmetry. apply bool_decide_eq_false. tauto.
Qed.

(** ** The scan *)

Section Scan.
Variable subject : CurrentAccountSubject.
Variable find : AccountName -> res InternalError (option AccountID).

(** Names that differ in case only are the same account, and no lookup fails. *)
Hypothesis find_case : forall a b, AccountName_eq a b = true -> find a = find b.

(** The handles before the first error. *)
Fixpoint scanned_handles (s : list (res InternalError DatasetHandle)) : list DatasetHandle :=
  match s with
  | Ok h :: rest => h :: scanned_handles rest
  | _ => []
  end.

(** A handle that has an owner's name, whose account is known to be the owner
    or not known. *)
Definition handle_owner (h : DatasetHandle) (o : option AccountID) : Prop :=
  exists n, owner_name subject h = Ok n /\ find n = Ok o /\ (forall a, o = Some a -> a = owner_of (dh_id h)).

(** The datasets whose owners are known. *)
Definition owned_ids (hs : list DatasetHandle) (os : list (option AccountID)) : list DatasetID :=
  omap (fun p => option_map (fun _ => dh_id p.1) p.2) (zip hs os).

Definition cache_ok (c : gmap string AccountID) : Prop :=
  forall k a, c !! k = Some a -> exists n, k = to_ascii_lowercase (an_str n) /\ find n = Ok (Some a).

Lemma find_cached_spec n o c :
  cache_ok c -> find n = Ok o -> exists c', find_cached find n c = (Ok o, c') /\ cache_ok c'.
Proof.
  intros Hc Hn. unfold find_cached. destruct (c !! _) as [a|] eqn:Hk.
  - destruct (Hc _ _ Hk) as (n' & Heq & Hn'). exists c. split; [|done].
    rewrite <- (find_case n' n) in Hn.
    + congruence.
    + unfold AccountName_eq, eq_ignore_ascii_case. by apply bool_decide_eq_true.
  - rewrite Hn. destruct o as [a|]; [|by exists c]. eexists. split; [done|].
    intros k a' Hka. apply lookup_insert_Some in Hka as [[<- <-]|[_ Hka]]; eauto.
Qed.

Lemma scan_owners_spec s c st live os :
  cache_ok c -> owns owner_of st live -> Forall (fun x => x <> Panic) s ->
  Forall2 handle_owner (scanned_handles s) os ->
  exists st', scan_owners subject find s c st = (Ok tt, st') /\
    owns owner_of st' (list_to_set (owned_ids (scanned_handles s) os) ∪ live).
Proof.
  intros Hc Hst Hp. revert c st live os Hc Hst.
  induction Hp as [|x s Hx _ IH]; intros c st live os Hc Hst Hos; simpl in *.
  - inversion Hos; subst. exists st. split; [done|]. simpl. by rewrite union_empty_l_L.
  - destruct x as [h|e|]; [|inversion Hos; subst; exists st; simpl; by rewrite union_empty_l_L|done].
    apply Forall2_cons_inv_l in Hos as (o & os' & (n & Hn & Hf & Ho) & Hos & ->). rewrite Hn.
    destruct (find_cached_spec n o c Hc Hf) as (c' & -> & Hc').
    destruct o as [a|]; simpl.
    + rewrite (Ho a eq_refl).
      destruct (IH c' (insert_dataset_record (dh_id h) (owner_of (dh_id h)) st) ({[dh_id h]} ∪ live) os' Hc')
        as (st' & Hr & Hst'); [by apply insert_record_spec|done|].
      exists st'. split; [done|]. by rewrite (union_comm_L {[dh_id h]}), <- union_assoc_L.
    + by apply IH.
Qed.
End Scan.
End Facts.
