(* ===== verification/Snapshots.v ===== *)
(** Creating a dataset from a snapshot: a list of metadata events becomes a chain
    of blocks.

    Sources: src/infra/core/src/repos/dataset_repository_helpers.rs, the traits
    and errors of src/domain/core/src/repos/dataset_repository.rs and
    src/infra/core/src/repos/dataset_repository_writer.rs.

    [DatasetWorkspace] is what the code uses of a dataset repository, over any
    state [W]; the chain of a dataset is a part of that state.  Texts made with
    [{:?}] and [to_string] of errors are parameters. *)

From S2P Require Import Prelude Multiformats Grammar Dids Identity References Dtos ChainRepos MetadataChain.
From S2P Require Import ChainVisitors ChainValidators ChainRules ChainAppend ChainInvariants Dataset Sync FlowService DatasetChanges.
From Stdlib Require Import Ascii.

(** * Errors *)

Record InvalidSnapshotError := mkInvalidSnapshotError { ise_reason : string }.

Record MissingInputsError := mkMissingInputsError {
  mie_dataset_ref : DatasetRef;
  mie_missing_inputs : list DatasetRef
}.

Record DanglingReferenceError := mkDanglingReferenceError {
  dre_dataset_handle : DatasetHandle;
  dre_children : list DatasetHandle
}.

Inductive CreateDatasetFromSnapshotError :=
| CreateDatasetFromSnapshotError_InvalidSnapshot (e : InvalidSnapshotError)
| CreateDatasetFromSnapshotError_MissingInputs (e : MissingInputsError)
| CreateDatasetFromSnapshotError_NameCollision (alias : DatasetAlias)
| CreateDatasetFromSnapshotError_RefCollision (id : DatasetID)
| CreateDatasetFromSnapshotError_Internal (e : InternalError).

Inductive RenameDatasetError :=
| RenameDatasetError_NotFound (e : DatasetNotFoundError)
| RenameDatasetError_NameCollision (alias : DatasetAlias)
| RenameDatasetError_Access (e : AccessError)
| RenameDatasetError_Internal (e : InternalError).

Inductive DeleteDatasetError :=
| DeleteDatasetError_NotFound (e : DatasetNotFoundError)
| DeleteDatasetError_DanglingReference (e : DanglingReferenceError)
| DeleteDatasetError_Access (e : AccessError)
| DeleteDatasetError_Internal (e : InternalError).

(** [unreachable!()] on an empty dataset. *)
Definition from_CreateDatasetError {A} (v : CreateDatasetError) : res CreateDatasetFromSnapshotError A :=
  match v with
  | CreateDatasetError_EmptyDataset => Panic
  | CreateDatasetError_NameCollision alias => Err (CreateDatasetFromSnapshotError_NameCollision alias)
  | CreateDatasetError_RefCollision id => Err (CreateDatasetFromSnapshotError_RefCollision id)
  | CreateDatasetError_Internal e => Err (CreateDatasetFromSnapshotError_Internal e)
  end.

Definition invalid_snapshot {A} (reason : string) : res CreateDatasetFromSnapshotError A :=
  Err (CreateDatasetFromSnapshotError_InvalidSnapshot (mkInvalidSnapshotError reason)).

(** * The repository *)

Class DatasetWorkspace {C : BlockCodec} (W BR RR : Type) := {
  dw_resolve_dataset_ref : W -> DatasetRef -> res GetDatasetError DatasetHandle;
  dw_create_dataset : DatasetAlias -> MetadataBlockTyped Seed ->
    action W CreateDatasetError (DatasetHandle * Multihash);
  dw_rename_dataset : DatasetHandle -> DatasetName -> action W RenameDatasetError unit;
  dw_delete_dataset : DatasetHandle -> action W DeleteDatasetError unit;
  dw_chain : W -> DatasetHandle -> MetadataChainImpl BR RR;
  dw_with_chain : DatasetHandle -> MetadataChainImpl BR RR -> W -> W
}.

Definition seed_block (s : MetadataBlockTyped Seed) : MetadataBlock :=
  mkMetadataBlock (mbt_system_time s) (mbt_prev_block_hash s) (mbt_sequence_number s)
    (MetadataEvent_Seed (mbt_event s)).

(** What the code relies on: a dataset that was created holds its seed, a chain
    that was written is the one that is read, and neither touches the datasets
    that are stored apart. *)
Class LawfulDatasetWorkspace {C : BlockCodec} (W BR RR : Type) `{!MetadataBlockRepository BR}
    `{!ReferenceRepository RR} `{!DatasetWorkspace W BR RR} := {
  (** the handle names a place for a dataset *)
  dw_place : DatasetHandle -> Prop;
  dw_apart : DatasetHandle -> DatasetHandle -> Prop;
  dw_created alias s w h head w' :
    mbt_prev_block_hash s = None -> dw_create_dataset alias s w = (Ok (h, head), w') ->
    dw_place h /\ dh_id h = sd_dataset_id (mbt_event s) /\
    chain_state (dw_chain w' h) [(head, seed_block s)] /\ Multihash_wf head /\
    forall o, dw_apart h o -> dw_chain w' o = dw_chain w o;
  dw_written h c w : dw_place h -> dw_chain (dw_with_chain h c w) h = c;
  dw_others h o c w : dw_apart h o -> dw_chain (dw_with_chain h c w) o = dw_chain w o
}.

(** * Events of a snapshot *)

#[export] Instance DatasetKind_eq_dec : EqDecision DatasetKind.
Proof. solve_decision. Defined.

Definition both_queries : string := "Cannot specify both 'query' and 'queries' in SetTransform".
Definition nameless_queries_reason : string :=
  "Transform has multiple queries without an alias, only one is such query is allowed to be treated as output".

Definition normalize_transform (transform : Transform) : res CreateDatasetFromSnapshotError Transform :=
  match transform with
  | Transform_Sql sql =>
      let! sql :=
        match ts_query sql with
        | Some query =>
            match ts_queries sql with
            | Some _ => invalid_snapshot both_queries
            | None =>
                Ok (mkTransformSql (ts_engine sql) (ts_version sql) None
                      (Some [mkSqlQueryStep None query]) (ts_temporal_tables sql))
            end
        | None => Ok sql
        end in
      let! queries := unwrap (ts_queries sql) in
      let nameless_queries := length (filter (fun q => sqs_alias q = None) queries) in
      if decide (1 < nameless_queries) then invalid_snapshot nameless_queries_reason
      else Ok (Transform_Sql sql)
  end.

Definition normalize_preprocess (o : option Transform)
    : res CreateDatasetFromSnapshotError (option Transform) :=
  match o with
  | Some transform => let! t := normalize_transform transform in Ok (Some t)
  | None => Ok None
  end.

Section Prepare.
Context {TC : TextCodecs}.

Variable resolve_dataset_ref : DatasetRef -> res GetDatasetError DatasetHandle.
Variable debug_event : MetadataEvent -> string.

(** The loop over the inputs: those that are resolved, and the references that
    are not found. *)
Fixpoint resolve_inputs (inputs : list TransformInput)
    : res CreateDatasetFromSnapshotError (list TransformInput * list DatasetRef) :=
  match inputs with
  | [] => Ok ([], [])
  | input :: rest =>
      match resolve_dataset_ref (ti_dataset_ref input) with
      | Ok hdl =>
          let! alias :=
            match ti_alias input with
            | Some alias => Ok (Some alias)
            | None =>
                match DatasetRef_fmt (ti_dataset_ref input) with
                | Ok s => Ok (Some (untext s))
                | _ => Panic
                end
            end in
          let! (inputs', missing) := resolve_inputs rest in
          Ok (mkTransformInput (DatasetRef_ID (dh_id hdl)) alias :: inputs', missing)
      | Err (GetDatasetError_NotFound _) =>
          let! (inputs', missing) := resolve_inputs rest in
          Ok (input :: inputs', ti_dataset_ref input :: missing)
      | Err (GetDatasetError_Internal e) => Err (CreateDatasetFromSnapshotError_Internal e)
      | Panic => Panic
      end
  end.

Definition resolve_transform_inputs (inputs : list TransformInput) (output_dataset_alias : DatasetAlias)
    : res CreateDatasetFromSnapshotError (list TransformInput) :=
  let! (inputs', missing_inputs) := resolve_inputs inputs in
  match missing_inputs with
  | [] => Ok inputs'
  | _ =>
      Err (CreateDatasetFromSnapshotError_MissingInputs
             (mkMissingInputsError (DatasetRef_Alias output_dataset_alias) missing_inputs))
  end.

(** The [match event { .. }] of the first loop: the event as it will be
    committed. *)
Definition prepare_event (name : DatasetAlias) (kind : DatasetKind) (event : MetadataEvent)
    : res CreateDatasetFromSnapshotError MetadataEvent :=
  match event with
  | MetadataEvent_Seed _ =>
      invalid_snapshot "Seed event is generated and cannot be specified explicitly"
  | MetadataEvent_SetPollingSource e =>
      if decide (kind <> DatasetKind_Root)
      then invalid_snapshot "SetPollingSource event is only allowed on root datasets"
      else
        let! p := normalize_preprocess (sps_preprocess e) in
        Ok (MetadataEvent_SetPollingSource
              (mkSetPollingSource (sps_fetch e) (sps_prepare e) (sps_read e) p (sps_merge e)))
  | MetadataEvent_AddPushSource e =>
      if decide (kind <> DatasetKind_Root)
      then invalid_snapshot "AddPushSource event is only allowed on root datasets"
      else
        let! p := normalize_preprocess (aps_preprocess e) in
        Ok (MetadataEvent_AddPushSource (mkAddPushSource (aps_source_name e) (aps_read e) p (aps_merge e)))
  | MetadataEvent_SetTransform e =>
      if decide (kind <> DatasetKind_Derivative)
      then invalid_snapshot "SetTransform is only allowed on derivative datasets"
      else
        let! inputs := resolve_transform_inputs (st_inputs e) name in
        let! t := normalize_transform (st_transform e) in
        Ok (MetadataEvent_SetTransform (mkSetTransform inputs t))
  | MetadataEvent_SetDataSchema _ | MetadataEvent_SetAttachments _ | MetadataEvent_SetInfo _
  | MetadataEvent_SetLicense _ | MetadataEvent_SetVocab _ => Ok event
  | MetadataEvent_AddData _ | MetadataEvent_ExecuteTransform _ | MetadataEvent_DisablePollingSource _
  | MetadataEvent_DisablePushSource _ =>
      invalid_snapshot ("Event is not allowed to appear in a DatasetSnapshot: " +:+ debug_event event)
  end.

Fixpoint prepare_events (name : DatasetAlias) (kind : DatasetKind) (events : list MetadataEvent)
    : res CreateDatasetFromSnapshotError (list MetadataEvent) :=
  match events with
  | [] => Ok []
  | event :: rest =>
      let! e := prepare_event name kind event in
      let! es := prepare_events name kind rest in
      Ok (e :: es)
  end.
End Prepare.

(** * Creation *)

(** [new_input.dataset_ref.id().cloned().unwrap()] of each input. *)
Fixpoint upstream_ids (inputs : list TransformInput) : res CreateDatasetFromSnapshotError (list DatasetID) :=
  match inputs with
  | [] => Ok []
  | input :: rest =>
      let! id := unwrap (DatasetRef_id (ti_dataset_ref input)) in
      let! ids := upstream_ids rest in
      Ok (id :: ids)
  end.

Definition next_upstream_ids (event : MetadataEvent) (new_upstream_ids : list DatasetID)
    : res CreateDatasetFromSnapshotError (list DatasetID) :=
  match event with
  | MetadataEvent_SetTransform transform => upstream_ids (st_inputs transform)
  | _ => Ok new_upstream_ids
  end.

Definition snapshot_append_opts : AppendOpts :=
  mkAppendOpts AppendValidation_Full None true None None None.

Record CreateDatasetFromSnapshotResult := mkCreateDatasetFromSnapshotResult {
  cds_dataset_handle : DatasetHandle;
  cds_head : Multihash;
  cds_new_upstream_ids : list DatasetID
}.

Section Create.
Context {C : BlockCodec} {TC : TextCodecs} {W BR RR : Type} `{!MetadataBlockRepository BR}
        `{!ReferenceRepository RR} `{!DatasetWorkspace W BR RR}.

Variable debug_event : MetadataEvent -> string.
Variable show_validation_error : AppendValidationError -> string.

Definition from_AppendError (v : AppendError) : CreateDatasetFromSnapshotError :=
  match v with
  | AppendError_InvalidBlock e =>
      CreateDatasetFromSnapshotError_InvalidSnapshot (mkInvalidSnapshotError (show_validation_error e))
  | AppendError_RefCASFailed _ | AppendError_Access _ | AppendError_RefNotFound _ =>
      CreateDatasetFromSnapshotError_Internal mkInternalError
  | AppendError_Internal e => CreateDatasetFromSnapshotError_Internal e
  end.

(** The loop over the events: the new head and the latest upstream datasets. *)
Fixpoint append_snapshot_events (fuel : nat) (hdl : DatasetHandle) (system_time : DateTime)
    (head : Multihash) (sequence_number : u64) (new_upstream_ids : list DatasetID)
    (events : list MetadataEvent) (w : W)
    : option (res CreateDatasetFromSnapshotError (Multihash * list DatasetID) * W) :=
  match events with
  | [] => Some (Ok (head, new_upstream_ids), w)
  | event :: rest =>
      match next_upstream_ids event new_upstream_ids with
      | Ok ids =>
          match append fuel (dw_chain w hdl)
                  (mkMetadataBlock system_time (Some head) sequence_number event)
                  snapshot_append_opts with
          | Some (Ok head', c) =>
              append_snapshot_events fuel hdl system_time head' (u64_add sequence_number 1) ids rest
                (dw_with_chain hdl c w)
          | Some (Err e, c) =>
              let '(_, w') := dw_delete_dataset hdl (dw_with_chain hdl c w) in
              Some (Err (from_AppendError e), w')
          | Some (Panic, c) => Some (Panic, dw_with_chain hdl c w)
          | None => None
          end
      | Err e => Some (Err e, w)
      | Panic => Some (Panic, w)
      end
  end.

(** The dataset identifier is derived from a generated key pair. *)
Definition create_dataset_from_snapshot_impl (fuel : nat) (generated_id : DatasetID)
    (snapshot : DatasetSnapshot) (system_time : DateTime) (w : W)
    : option (res CreateDatasetFromSnapshotError CreateDatasetFromSnapshotResult * W) :=
  match prepare_events (dw_resolve_dataset_ref w) debug_event (dsn_name snapshot) (dsn_kind snapshot)
          (dsn_metadata snapshot) with
  | Ok events =>
      match dw_create_dataset (dsn_name snapshot)
              (mkMetadataBlockTyped system_time None 0 (mkSeed generated_id (dsn_kind snapshot))) w with
      | (Ok (hdl, created_head), w1) =>
          match append_snapshot_events fuel hdl system_time created_head 1 [] events w1 with
          | Some (Ok (head, new_upstream_ids), w2) =>
              let '(x, c) := set_ref (dw_chain w2 hdl) BlockRef_Head head
                               (mkSetRefOpts false (Some (Some created_head))) in
              Some (let! _ := map_err CreateDatasetFromSnapshotError_Internal (int_err x) in
                    Ok (mkCreateDatasetFromSnapshotResult hdl head new_upstream_ids),
                    dw_with_chain hdl c w2)
          | Some (Err e, w2) => Some (Err e, w2)
          | Some (Panic, w2) => Some (Panic, w2)
          | None => None
          end
      | (Err e, w1) => Some (from_CreateDatasetError e, w1)
      | (Panic, w1) => Some (Panic, w1)
      end
  | Err e => Some (Err e, w)
  | Panic => Some (Panic, w)
  end.
End Create.

(** * What the events become *)

(** A transform as it is stored: steps only, at most one of them the output. *)
Definition normalized (t : Transform) : Prop :=
  match t with
  | Transform_Sql ts =>
      ts_query ts = None /\
      exists qs, ts_queries ts = Some qs /\ length (filter (fun q => sqs_alias q = None) qs) <= 1
  end.

Definition input_resolved (i : TransformInput) : Prop :=
  (exists id, ti_dataset_ref i = DatasetRef_ID id) /\ is_Some (ti_alias i).

(** The events a chain of the given kind may get from a snapshot. *)
Definition event_prepared (kind : DatasetKind) (event : MetadataEvent) : Prop :=
  match event with
  | MetadataEvent_SetPollingSource e =>
      kind = DatasetKind_Root /\ forall t, sps_preprocess e = Some t -> normalized t
  | MetadataEvent_AddPushSource e =>
      kind = DatasetKind_Root /\ forall t, aps_preprocess e = Some t -> normalized t
  | MetadataEvent_SetTransform e =>
      kind = DatasetKind_Derivative /\ Forall input_resolved (st_inputs e) /\
      normalized (st_transform e)
  | MetadataEvent_SetDataSchema _ | MetadataEvent_SetAttachments _ | MetadataEvent_SetInfo _
  | MetadataEvent_SetLicense _ | MetadataEvent_SetVocab _ => True
  | _ => False
  end.

Lemma normalize_ok t t' : normalize_transform t = Ok t' -> normalized t'.
Proof.
  destruct t as [[engine version query queries tables]]. simpl.
  destruct query as [q|], queries as [qs|]; simpl; try done.
  - intros [= <-]. simpl. eauto.
  - destruct (decide _) as [|Hn]; [done|]. intros [= <-]. simpl. split; [done|]. exists qs. split; [done|lia].
Qed.

Lemma normalize_normalized t : normalized t -> normalize_transform t = Ok t.
Proof.
  destruct t as [[engine version query queries tables]]. simpl. intros (-> & qs & -> & Hn). simpl.
  by rewrite decide_False by lia.
Qed.

(** It panics exactly when there is nothing to run. *)
Lemma normalize_panics t :
  normalize_transform t = Panic <->
  match t with Transform_Sql ts => ts_query ts = None /\ ts_queries ts = None end.
Proof.
  destruct t as [[engine version query queries tables]]. simpl.
  destruct query as [q|], queries as [qs|]; simpl; try (split; [done|by intros []]).
  destruct (decide _); (split; [done|by intros []]).
Qed.

Lemma normalize_preprocess_ok o o' :
  normalize_preprocess o = Ok o' -> forall t, o' = Some t -> normalized t.
Proof.
  destruct o as [t|]; simpl; [|by intros [= <-]].
  destruct (normalize_transform t) as [t'| |] eqn:Ht; [|done..]. intros [= <-] ? [= <-].
  by eapply normalize_ok.
Qed.

Lemma normalize_preprocess_normalized o :
  (forall t, o = Some t -> normalized t) -> normalize_preprocess o = Ok o.
Proof. destruct o as [t|]; simpl; [|done]. intros H. by rewrite normalize_normalized by auto. Qed.

Section Prepared.
Context {TC : TextCodecs}.

Variable resolve_dataset_ref : DatasetRef -> res GetDatasetError DatasetHandle.
Variable debug_event : MetadataEvent -> string.

Definition unresolved (r : DatasetRef) : Prop :=
  match resolve_dataset_ref r with Err (GetDatasetError_NotFound _) => True | _ => False end.

#[global] Instance unresolved_dec r : Decision (unresolved r).
Proof. unfold unresolved. destruct (resolve_dataset_ref r) as [|[]|]; apply _. Defined.

(** The references that are reported are exactly those that were not found. *)
Lemma resolve_inputs_ok inputs inputs' missing :
  resolve_inputs resolve_dataset_ref inputs = Ok (inputs', missing) ->
  missing = filter unresolved (map ti_dataset_ref inputs) /\
  (missing = [] ->
   Forall2 (fun i i' => exists hdl, resolve_dataset_ref (ti_dataset_ref i) = Ok hdl /\
              ti_dataset_ref i' = DatasetRef_ID (dh_id hdl) /\ is_Some (ti_alias i') /\
              (is_Some (ti_alias i) -> ti_alias i' = ti_alias i)) inputs inputs').
Proof.
  revert inputs' missing; induction inputs as [|i rest IH]; intros inputs' missing; simpl.
  { intros [= <- <-]. split; [done|]. by constructor. }
  rewrite filter_cons.
  destruct (resolve_dataset_ref (ti_dataset_ref i)) as [hdl|[e|e]|] eqn:Hr; [..|done|done].
  - destruct (match ti_alias i with Some _ => _ | None => _ end) as [alias| |] eqn:Ha; simpl; [|done..].
    destruct (resolve_inputs _ rest) as [[is' ms]| |]; simpl; [|done..]. intros [= <- <-].
    destruct (IH _ _ eq_refl) as [-> Hf]. split.
    { by rewrite decide_False by (unfold unresolved; rewrite Hr; tauto). }
    intros He. constructor; [|by apply Hf]. exists hdl. simpl. split_and!; [done..| |].
    + destruct (ti_alias i); [|destruct (DatasetRef_fmt _)]; simplify_eq; eauto.
    + intros [a Hi]. rewrite Hi in Ha |- *. congruence.
  - destruct (resolve_inputs _ rest) as [[is' ms]| |]; simpl; [|done..]. intros [= <- <-].
    destruct (IH _ _ eq_refl) as [-> _]. split; [|done].
    by rewrite decide_True by (unfold unresolved; by rewrite Hr).
Qed.

Lemma resolve_transform_inputs_ok inputs alias inputs' :
  resolve_transform_inputs resolve_dataset_ref inputs alias = Ok inputs' -> Forall input_resolved inputs'.
Proof.
  unfold resolve_transform_inputs.
  destruct (resolve_inputs _ inputs) as [[is' ms]| |] eqn:Hr; simpl; [|done..].
  destruct (resolve_inputs_ok _ _ _ Hr) as [_ Hf]. destruct ms; [|done]. intros [= <-].
  eapply Forall2_Forall_r; [by apply Hf|]. apply Forall_true.
  intros i i' (hdl & _ & Hi & Ha & _). split; [by eexists|done].
Qed.

Lemma prepare_event_ok name kind e e' :
  prepare_event resolve_dataset_ref debug_event name kind e = Ok e' -> event_prepared kind e'.
Proof.
  destruct e; simpl; try done; try (by intros [= <-]); (destruct (decide _) as [|Hk]; [done|]);
    apply dec_stable in Hk.
  - destruct (normalize_preprocess _) as [p| |] eqn:Hp; simpl; [|done..]. intros [= <-].
    split; [done|]. by eapply normalize_preprocess_ok.
  - destruct (resolve_transform_inputs _ _ _) as [inputs| |] eqn:Hi; simpl; [|done..].
    destruct (normalize_transform _) as [t| |] eqn:Ht; simpl; [|done..]. intros [= <-].
    split_and!; [done|by eapply resolve_transform_inputs_ok|by eapply normalize_ok].
  - destruct (normalize_preprocess _) as [p| |] eqn:Hp; simpl; [|done..]. intros [= <-].
    split; [done|]. by eapply normalize_preprocess_ok.
Qed.

Lemma prepare_events_forall2 name kind events es :
  prepare_events resolve_dataset_ref debug_event name kind events = Ok es <->
  Forall2 (fun e e' => prepare_event resolve_dataset_ref debug_event name kind e = Ok e') events es.
Proof.
  revert es; induction events as [|e rest IH]; intros es; simpl.
  { split; [intros [= <-]; constructor|by intros ->%Forall2_nil_inv_l]. }
  split.
  - destruct (prepare_event _ _ _ _ e) as [e'| |] eqn:He; simpl; [|done..].
    destruct (prepare_events _ _ _ _ rest) as [es'| |]; simpl; [|done..]. intros [= <-].
    constructor; [done|]. by apply IH.
  - intros (e' & es' & He & Hes & ->)%Forall2_cons_inv_l. rewrite He. simpl.
    by rewrite (proj2 (IH es') Hes).
Qed.

Lemma prepare_events_ok name kind events es :
  prepare_events resolve_dataset_ref debug_event name kind events = Ok es ->
  Forall (event_prepared kind) es.
Proof.
  intros H%prepare_events_forall2. eapply Forall2_Forall_r; [exact H|]. apply Forall_true.
  intros e e'. apply prepare_event_ok.
Qed.

(** References by id are found under that id. *)
Hypothesis resolve_id : forall id hdl, resolve_dataset_ref (DatasetRef_ID id) = Ok hdl -> dh_id hdl = id.

Lemma resolve_inputs_resolved inputs :
  Forall input_resolved inputs ->
  Forall (fun i => is_ok (resolve_dataset_ref (ti_dataset_ref i)) = true) inputs ->
  resolve_inputs resolve_dataset_ref inputs = Ok (inputs, []).
Proof.
  induction 1 as [|[r a] rest [[id Hr] [alias Ha]] Hrest IH]; intros Hall; [done|].
  apply Forall_cons in Hall as [Hi Hall]. simpl in *. subst.
  destruct (resolve_dataset_ref (DatasetRef_ID id)) as [hdl| |] eqn:Hd; [|done..].
  rewrite IH by done. simpl. by rewrite (resolve_id _ _ Hd).
Qed.

(** The inputs of an event, by the references it carries. *)
Definition event_inputs (e : MetadataEvent) : list TransformInput :=
  match e with MetadataEvent_SetTransform t => st_inputs t | _ => [] end.

(** Preparing events that are prepared changes nothing, as long as their inputs
    are there. *)
Lemma prepare_prepared name kind e :
  event_prepared kind e ->
  Forall (fun i => is_ok (resolve_dataset_ref (ti_dataset_ref i)) = true) (event_inputs e) ->
  prepare_event resolve_dataset_ref debug_event name kind e = Ok e.
Proof.
  destruct e as [| |v|[]|[]| | | | | |[]| |]; simpl; try done.
  - intros [-> Hp] _. rewrite decide_False by (intros Hk; by apply Hk).
    by rewrite normalize_preprocess_normalized.
  - intros (-> & Hi & Ht) Hr. rewrite decide_False by (intros Hk; by apply Hk).
    unfold resolve_transform_inputs. rewrite resolve_inputs_resolved by done. simpl.
    by rewrite normalize_normalized.
  - intros [-> Hp] _. rewrite decide_False by (intros Hk; by apply Hk).
    by rewrite normalize_preprocess_normalized.
Qed.

(** What was found once is found again by its id. *)
Hypothesis resolve_again : forall r hdl,
  resolve_dataset_ref r = Ok hdl -> is_ok (resolve_dataset_ref (DatasetRef_ID (dh_id hdl))) = true.

Lemma prepared_inputs_found name kind e e' :
  prepare_event resolve_dataset_ref debug_event name kind e = Ok e' ->
  Forall (fun i => is_ok (resolve_dataset_ref (ti_dataset_ref i)) = true) (event_inputs e').
Proof.
  destruct e; simpl; try done; try (by intros [= <-]); (destruct (decide _); [done|]).
  1,3: by destruct (normalize_preprocess _); simpl; [intros [= <-]|..].
  unfold resolve_transform_inputs.
  destruct (resolve_inputs _ _) as [[is' ms]| |] eqn:Hr; simpl; [|done..].
  destruct (resolve_inputs_ok _ _ _ Hr) as [_ Hf]. destruct ms; simpl; [|done].
  destruct (normalize_transform _); simpl; [|done..]. intros [= <-]. simpl.
  eapply Forall2_Forall_r; [by apply Hf|]. apply Forall_true. intros i i' (hdl & Hh & -> & _).
  by eapply resolve_again.
Qed.

Lemma prepare_again name kind events es :
  prepare_events resolve_dataset_ref debug_event name kind events = Ok es ->
  prepare_events resolve_dataset_ref debug_event name kind es = Ok es.
Proof.
  rewrite !prepare_events_forall2. induction 1 as [|e e' es' es'' He _ IH]; constructor; [|done].
  apply prepare_prepared; [by eapply prepare_event_ok|by eapply prepared_inputs_found].
Qed.

Lemma missing_inputs_exact inputs name e :
  resolve_transform_inputs resolve_dataset_ref inputs name =
    Err (CreateDatasetFromSnapshotError_MissingInputs e) ->
  mie_dataset_ref e = DatasetRef_Alias name /\ mie_missing_inputs e <> [] /\
  mie_missing_inputs e = filter unresolved (map ti_dataset_ref inputs).
Proof.
  unfold resolve_transform_inputs.
  destruct (resolve_inputs _ inputs) as [[is' ms]|e'|] eqn:Hr; simpl; [|intros [= ->]|done].
  - destruct (resolve_inputs_ok _ _ _ Hr) as [Hm _]. destruct ms; [done|]. by intros [= <-].
  - exfalso. revert Hr. clear. induction inputs as [|i rest IH]; simpl; [done|].
    destruct (resolve_dataset_ref _) as [|[]|]; [..|done|done].
    + destruct (match ti_alias i with Some _ => _ | None => _ end) as [|e2|] eqn:Ha; simpl; [| |done].
      * by destruct (resolve_inputs _ rest) as [[]| |]; simpl; [|intros [= ->]; apply IH|].
      * intros [= ->]. revert Ha. by destruct (ti_alias i), (DatasetRef_fmt (ti_dataset_ref i)).
    + by destruct (resolve_inputs _ rest) as [[]| |]; simpl; [|intros [= ->]; apply IH|].
Qed.
End Prepared.

(** * What the dataset becomes *)

Section Created.
Context {C : BlockCodec} {TC : TextCodecs} {W BR RR : Type} `{!MetadataBlockRepository BR}
        `{!ReferenceRepository RR} `{!LawfulBlockRepo BR} `{!LawfulRefRepo RR}
        `{!DatasetWorkspace W BR RR} `{!LawfulDatasetWorkspace W BR RR}.

Implicit Types (c : MetadataChainImpl BR RR) (l : list HashedMetadataBlock).

Variable debug_event : MetadataEvent -> string.
Variable show_validation_error : AppendValidationError -> string.

(** The store files a block under a hash of its own. *)
Variable block_hash : MetadataBlock -> Multihash.
Hypothesis stored_under : forall (r r' : BR) b o h,
  insert_block r b o = (Ok h, r') -> io_precomputed_hash o = None -> h = block_hash b.

(** The chain that results from putting the events on top of [l]. *)
Fixpoint snapshot_chain (t : DateTime) (n : u64) (events : list MetadataEvent) l
    : list HashedMetadataBlock :=
  match events with
  | [] => l
  | e :: rest =>
      let b := mkMetadataBlock t (head_hash l) n e in
      snapshot_chain t (u64_add n 1) rest ((block_hash b, b) :: l)
  end.

(** The inputs of the last transform. *)
Definition upstream_of (e : MetadataEvent) (ids : list DatasetID) : list DatasetID :=
  match e with
  | MetadataEvent_SetTransform t => omap (fun i => DatasetRef_id (ti_dataset_ref i)) (st_inputs t)
  | _ => ids
  end.

Definition last_upstream (events : list MetadataEvent) (ids : list DatasetID) : list DatasetID :=
  foldl (fun ids e => upstream_of e ids) ids events.

(** The blocks [l] are stored, and the head still is [h]. *)
Record pending c (h : Multihash) l : Prop := {
  pd_head : head_is c (Some h);
  pd_linked : linked (meta_block_repo c) (head_hash l) l;
  pd_valid : valid_chain l;
  pd_wf : forall h', head_hash l = Some h' -> Multihash_wf h'
}.

Lemma snapshot_chain_suffix t n events l : exists l', snapshot_chain t n events l = l' ++ l.
Proof.
  revert n l; induction events as [|e rest IH]; intros n l; simpl; [by exists []|].
  destruct (IH (u64_add n 1) ((block_hash (mkMetadataBlock t (head_hash l) n e),
    mkMetadataBlock t (head_hash l) n e) :: l)) as [l' ->].
  eexists (l' ++ [_]). by rewrite <- app_assoc.
Qed.

(** A block that is appended without moving the head goes on top of the stored
    blocks, or nothing changes. *)
Lemma append_unpublished fuel c h l b opts hash :
  ao_validation opts = AppendValidation_Full -> ao_update_ref opts = None ->
  ao_precomputed_hash opts = None ->
  (forall h' r', insert_block (meta_block_repo c) b (append_insert_opts opts) = (Ok h', r') -> h' = hash) ->
  pending c h l -> mb_prev_block_hash b = head_hash l -> length l < fuel -> supported b -> hash ∉ l.*1 ->
  exists x c', append fuel c b opts = Some (x, c') /\
    match x with
    | Ok h' => h' = hash /\ pending c' h ((h', b) :: l) /\
        forall o k, hash ∉ k.*1 -> linked (meta_block_repo c) o k -> linked (meta_block_repo c') o k
    | Err _ => c' = c
    | Panic => False
    end.
Proof.
  intros Hov Hou Hop Hhash [Hh Hl Hv Hw] Hp Hf Hs Hn. unfold append, append_check_ref, append_store.
  rewrite Hov, Hou, decide_True by done. rewrite <- Hp in Hl.
  destruct (validate_append_total fuel (meta_block_repo c) b l) as (x & Hx & Hnp);
    [done|done|by apply valid_chain_resolved|done|]. rewrite Hx.
  destruct x as [[]|e|]; simpl; [|by eexists _, _|done].
  apply (validate_append_ok _ _ _ _ Hl Hf) in Hx.
  pose proof (insert_no_panic (meta_block_repo c) b (append_insert_opts opts)) as Hip.
  destruct (insert_block _ _ _) as [[h'|e|] br] eqn:Hi; [| |done]; simpl; eexists _, _; (split; [done|]).
  - pose proof (Hhash _ _ eq_refl) as ->.
    assert (Hframe : forall o k, hash ∉ k.*1 -> linked (meta_block_repo c) o k -> linked br o k).
    { intros o k Hk Hlk. eapply linked_frame; [exact Hlk| |].
      - intros h' Hne. by eapply insert_frame.
      - intros b' Hin. exfalso. apply Hk, list_elem_of_fmap. by exists (hash, b'). }
    split_and!; [done| |done]. split; simpl.
    + done.
    + constructor; [by eapply insert_get|]. by apply Hframe.
    + by constructor.
    + intros h' [= <-]. apply (insert_hash_wf _ _ (append_insert_opts opts) _ _) in Hi; [done|].
      simpl. by rewrite Hop.
  - rewrite (insert_failed _ _ _ _ _ Hi eq_refl). by destruct c.
Qed.

Lemma append_pending fuel c h l b :
  pending c h l -> mb_prev_block_hash b = head_hash l -> length l < fuel -> supported b ->
  block_hash b ∉ l.*1 ->
  exists x c', append fuel c b snapshot_append_opts = Some (x, c') /\
    match x with
    | Ok h' => h' = block_hash b /\ pending c' h ((h', b) :: l)
    | Err _ => pending c' h l
    | Panic => False
    end.
Proof.
  intros Hpd Hp Hf Hs Hn.
  destruct (append_unpublished fuel c h l b snapshot_append_opts (block_hash b)) as (x & c' & Ha & Hx); try done.
  { intros h' r' Hi. by eapply stored_under. }
  exists x, c'. split; [done|]. destruct x as [h'|e|]; [|by subst|done]. by destruct Hx as (? & ? & _).
Qed.

Lemma prepared_supported kind t o n e : event_prepared kind e -> supported (mkMetadataBlock t o n e).
Proof. by destruct e. Qed.

Lemma prepared_upstream kind e ids :
  event_prepared kind e -> next_upstream_ids e ids = Ok (upstream_of e ids).
Proof.
  destruct e as [| | | |t| | | | | | | |]; try done. simpl. intros (_ & Hi & _).
  induction Hi as [|[r a] rest [[id Hr] _] _ IH]; [done|]. simpl in *. subst. simpl. by rewrite IH.
Qed.

Lemma append_events fuel kind hdl t h events :
  dw_place hdl -> Forall (event_prepared kind) events ->
  forall l head n ids w,
  pending (dw_chain w hdl) h l -> head_hash l = Some head -> length l + length events <= fuel ->
  NoDup (snapshot_chain t n events l).*1 ->
  exists x w', append_snapshot_events show_validation_error fuel hdl t head n ids events w = Some (x, w') /\
    match x with
    | Ok (head', ids') =>
        head_hash (snapshot_chain t n events l) = Some head' /\
        pending (dw_chain w' hdl) h (snapshot_chain t n events l) /\
        ids' = last_upstream events ids /\ (forall o, dw_apart hdl o -> dw_chain w' o = dw_chain w o)
    | Err e => exists ae w2, e = from_AppendError show_validation_error ae /\
        w' = (dw_delete_dataset hdl w2).2 /\ (exists l', pending (dw_chain w2 hdl) h l') /\
        (forall o, dw_apart hdl o -> dw_chain w2 o = dw_chain w o)
    | Panic => False
    end.
Proof.
  intros Hplace.
  induction 1 as [|e rest He Hrest IH]; intros l head n ids w Hpd Hhd Hf Hnd; simpl in *.
  { eexists _, _. split; [done|]. by split_and!. }
  rewrite (prepared_upstream _ _ ids He), Hhd in *. set (b := mkMetadataBlock t (Some head) n e) in *.
  destruct (snapshot_chain_suffix t (u64_add n 1) rest ((block_hash b, b) :: l)) as [l' Hsuf].
  destruct (append_pending fuel (dw_chain w hdl) h l b) as (x & c & Ha & Hx); [done|by rewrite Hhd|lia|..].
  { by eapply prepared_supported. }
  { rewrite Hsuf, fmap_app, NoDup_app in Hnd. simpl in Hnd. rewrite NoDup_cons in Hnd. tauto. }
  rewrite Ha. destruct x as [h'|ae|]; [|clear IH|done].
  - destruct Hx as [-> Hpd']. specialize (IH ((block_hash b, b) :: l) (block_hash b) (u64_add n 1) (upstream_of e ids)
      (dw_with_chain hdl c w)). rewrite dw_written in IH by done.
    destruct (IH Hpd') as (x & w' & Hr & Hx); [done|simpl; lia|done|].
    exists x, w'. split; [done|]. destruct x as [[head' ids']|e'|]; [| |done].
    + destruct Hx as (? & ? & ? & Ho). split_and!; [done..|]. intros o Hne.
      rewrite Ho by done. by apply dw_others.
    + destruct Hx as (ae & w2 & ? & ? & ? & Ho). exists ae, w2. split_and!; [done..|]. intros o Hne.
      rewrite Ho by done. by apply dw_others.
  - destruct (dw_delete_dataset hdl (dw_with_chain hdl c w)) as [y w'] eqn:Hd.
    eexists _, _. split; [done|]. exists ae, (dw_with_chain hdl c w). rewrite Hd, dw_written by done.
    split_and!; [done|done|by exists l|]. intros o Hne. by apply dw_others.
Qed.

(** Moving the head to the top of the stored blocks, if it is the expected one. *)
Lemma publish_pending c h l head (expected : option (option Multihash)) x c' :
  pending c h l -> head_hash l = Some head ->
  set_ref c BlockRef_Head head (mkSetRefOpts false expected) = (x, c') ->
  match x with
  | Ok _ => chain_state c' l /\ (forall o, expected = Some o -> o = Some h)
  | Err _ => c' = c
  | Panic => False
  end.
Proof.
  intros [Hh Hl Hv Hw] Hhd. specialize (Hw _ Hhd). unfold set_ref. simpl.
  unfold head_is, append_actual_ref in Hh.
  destruct (rr_get (ref_repo c) BlockRef_Head) as [h'|[]|]; simplify_eq.
  assert (Hset : forall x c', (let '(x, rr) := rr_set (ref_repo c) BlockRef_Head head in
      (map_err SetRefError_from x, mkMetadataChainImpl (meta_block_repo c) rr)) = (x, c') ->
    match x with Ok _ => chain_state c' l | Err _ => c' = c | Panic => False end).
  { intros y c2. pose proof (rr_set_no_panic (ref_repo c) BlockRef_Head head) as Hnp.
    destruct (rr_set _ _ _) as [[[]|e|] rr] eqn:Hr; [| |done]; simpl; intros [= <- <-].
    - split; simpl; [|done|done]. unfold head_is, append_actual_ref. simpl.
      by rewrite (rr_set_get _ _ _ _ Hw Hr), Hhd.
    - rewrite (rr_set_failed _ _ _ _ _ Hr eq_refl). by destruct c. }
  destruct expected as [o|]; simpl.
  - destruct (decide (o <> Some h)) as [Hd|Hd]; simpl; [by intros [= <- <-]|].
    intros Hx%Hset. destruct x; auto. split; [done|]. intros o' [= <-]. by apply dec_stable.
  - intros Hx%Hset. by destruct x.
Qed.

Lemma pending_seed c h l' b : pending c h (l' ++ [(h, b)]) -> chain_state c [(h, b)].
Proof.
  intros [Hh Hl Hv _]. split; [done|by apply (linked_suffix _ l')|by eapply valid_chain_app].
Qed.

Lemma created_pending alias s w hdl head w' :
  mbt_prev_block_hash s = None -> dw_create_dataset alias s w = (Ok (hdl, head), w') ->
  dw_place hdl /\ pending (dw_chain w' hdl) head [(head, seed_block s)] /\
  forall o, dw_apart hdl o -> dw_chain w' o = dw_chain w o.
Proof.
  intros Hp (Hpl & _ & [] & Hw & Ho)%dw_created; [|done]. split_and!; [done| |done].
  split; try done. by intros ? [= <-].
Qed.
(** The outcome of creating a dataset from a snapshot whose events were prepared. *)
Lemma snapshot_outcome fuel id snapshot t (w w1 : W) events hdl head :
  let s := mkMetadataBlockTyped t None 0%Z (mkSeed id (dsn_kind snapshot)) in
  let l := snapshot_chain t 1 events [(head, seed_block s)] in
  prepare_events (dw_resolve_dataset_ref w) debug_event (dsn_name snapshot) (dsn_kind snapshot)
    (dsn_metadata snapshot) = Ok events ->
  dw_create_dataset (dsn_name snapshot) s w = (Ok (hdl, head), w1) ->
  length events < fuel -> NoDup l.*1 ->
  exists x w', create_dataset_from_snapshot_impl debug_event show_validation_error fuel id snapshot t w
                 = Some (x, w') /\
    match x with
    | Ok r =>
        (exists head', head_hash l = Some head' /\
           r = mkCreateDatasetFromSnapshotResult hdl head' (last_upstream events [])) /\
        chain_state (dw_chain w' hdl) l /\
        (forall o, dw_apart hdl o -> dw_chain w' o = dw_chain w o)
    | Err e =>
        (exists ae w2, e = from_AppendError show_validation_error ae /\
           w' = (dw_delete_dataset hdl w2).2 /\ head_is (dw_chain w2 hdl) (Some head) /\
           (forall o, dw_apart hdl o -> dw_chain w2 o = dw_chain w o)) \/
        (e = CreateDatasetFromSnapshotError_Internal mkInternalError /\ valid_chain l /\
         chain_state (dw_chain w' hdl) [(head, seed_block s)] /\
         (forall o, dw_apart hdl o -> dw_chain w' o = dw_chain w o))
    | Panic => False
    end.
Proof.
  intros s l Hp Hc Hf Hnd. destruct (created_pending (dsn_name snapshot) s w hdl head w1 eq_refl Hc) as (Hpl & Hpd & Ho).
  unfold create_dataset_from_snapshot_impl. rewrite Hp. fold s. rewrite Hc.
  destruct (append_events fuel (dsn_kind snapshot) hdl t
    head events Hpl (prepare_events_ok _ _ _ _ _ _ Hp) _ head 1 [] w1 Hpd eq_refl ltac:(simpl; lia) Hnd)
    as (x & w2 & -> & Hx).
  fold s in Hx. fold l in Hx. destruct x as [[head' ids]|e|]; [| |done].
  - destruct Hx as (Hh & Hpd2 & -> & Ho2).
    destruct (set_ref _ _ _ _) as [y c] eqn:Hset.
    pose proof (publish_pending _ _ _ _ _ _ _ Hpd2 Hh Hset) as Hy.
    assert (Hothers : forall o, dw_apart hdl o -> dw_chain (dw_with_chain hdl c w2) o = dw_chain w o).
    { intros o Ha. by rewrite dw_others, Ho2, Ho. }
    eexists _, _. split; [done|]. rewrite dw_written by done. destruct y as [[]|e|]; [| |done]; simpl.
    + destruct Hy as [Hst _]. split_and!; [by exists head'|done|done].
    + right. subst c. split_and!; [done|apply Hpd2| |done].
      destruct (snapshot_chain_suffix t 1 events [(head, seed_block s)]) as [l' Hl].
      apply (pending_seed _ _ l'). by rewrite <- Hl.
  - eexists _, _. split; [done|]. left. destruct Hx as (ae & w3 & -> & -> & [l' Hl'] & Ho3).
    exists ae, w3. split_and!; [done|done|apply Hl'|]. intros o Ha. by rewrite Ho3, Ho.
Qed.
End Created.
