(* ===== verification/DatasetRepositoryFs.v ===== *)
(** The dataset repository on a local file system with one directory per
    account (src/infra/core/src/repos/dataset_repository_local_fs.rs: the
    multi-tenant storage strategy, and the repository over it).

    The directory of an account has one directory per dataset, named by the
    text of its identifier, which holds the chain, the data and the file [alias]
    with the name of the dataset.  A directory is the list of its entries in the
    order in which they are read, which is any order; names are exact, as on a
    case-sensitive file system without symbolic links, and reading a directory
    does not fail.  Whether the stores of a dataset take a write is up to them.

    The conversion of texts to bytes is a parameter because bytes are
    ([BlockCodec]). *)

From S2P Require Import Prelude Multiformats Grammar Dids Identity References ReferenceFacts Dtos.
From S2P Require Import ChainRepos ObjectRepoFs MetadataChain ChainVisitors ChainValidators ChainRules.
From S2P Require Import ChainAppend ChainInvariants Dataset Sync FlowService DatasetChanges.
From S2P Require Import EventSourcing TaskSystem FlowSystem Messages FlowTimeWheel FlowStore.
From S2P Require Import DatasetOwnership Snapshots.
From Stdlib Require Import Ascii.

(** * Texts *)

Class TextBytes {C : BlockCodec} := {
  as_bytes : str -> Bytes;
  from_utf8 : Bytes -> option str
}.

Class LawfulTextBytes {C : BlockCodec} `{!TextBytes} : Prop := {
  utf8_inverse s : from_utf8 (as_bytes s) = Some s
}.

(** [char::is_whitespace] on ASCII. *)
Definition is_whitespace (c : ascii) : bool :=
  let n := nat_of_ascii c in ((9 <=? n)%nat && (n <=? 13)%nat) || (n =? 32)%nat.

Fixpoint trim_start (s : str) : str :=
  match s with
  | c :: rest => if is_whitespace c then trim_start rest else s
  | [] => []
  end.

Definition trim (s : str) : str := reverse (trim_start (reverse (trim_start s))).

Definition starts_with_dot (s : str) : bool :=
  match s with c :: _ => bool_decide (c = "."%char) | [] => false end.

(** * Directories *)

(** A directory: its entries by name. *)
Abbreviation directory A := (list (str * A)).

Section Directories.
Context {K A : Type} `{!EqDecision K}.

Fixpoint dir_get (d : list (K * A)) (name : K) : option A :=
  match d with
  | [] => None
  | (n, x) :: rest => if decide (n = name) then Some x else dir_get rest name
  end.

(** Overwrites the entry, or adds it. *)
Fixpoint dir_set (d : list (K * A)) (name : K) (x : A) : list (K * A) :=
  match d with
  | [] => [(name, x)]
  | (n, y) :: rest => if decide (n = name) then (n, x) :: rest else (n, y) :: dir_set rest name x
  end.

Definition dir_remove (d : list (K * A)) (name : K) : list (K * A) :=
  filter (fun e => e.1 <> name) d.
End Directories.

(** * Errors *)

Inductive ResolveDatasetError :=
| ResolveDatasetError_NotFound (e : DatasetNotFoundError)
| ResolveDatasetError_Internal (e : InternalError).

Definition resolve_int_err {E A} (r : res E A) : res ResolveDatasetError A :=
  map_err (fun _ => ResolveDatasetError_Internal mkInternalError) r.

Definition GetDatasetError_from_Resolve (e : ResolveDatasetError) : GetDatasetError :=
  match e with
  | ResolveDatasetError_Internal e => GetDatasetError_Internal e
  | ResolveDatasetError_NotFound e => GetDatasetError_NotFound e
  end.

Definition not_found {A} (r : DatasetRef) : res ResolveDatasetError A :=
  Err (ResolveDatasetError_NotFound (mkDatasetNotFoundError r)).

Section MultiTenant.
Context {C : BlockCodec} {TC : TextCodecs} {TB : TextBytes} {BR RR DR CR IR : Type}
        `{!MetadataBlockRepository BR} `{!ReferenceRepository RR} `{!NamedObjectRepository IR}.

Abbreviation Dataset := (DatasetImpl BR RR DR CR IR).

(** What an entry of the root is. *)
Inductive RootEntry :=
| AccountDir (datasets : directory Dataset)
| PlainFile.

Abbreviation Root := (directory RootEntry).

Variable current_account_subject : CurrentAccountSubject.
(** What [build_dataset] gives for directories that were just created. *)
Variable new_dataset : Dataset.

Implicit Types (root : Root).

(** * The storage strategy *)

Definition effective_account_name {E} (dataset_alias : DatasetAlias) : res E AccountName :=
  match da_account_name dataset_alias with
  | Some account_name => Ok account_name
  | None =>
      match current_account_subject with
      | CurrentAccountSubject_Anonymous _ => Panic
      | CurrentAccountSubject_Logged l => Ok (la_account_name l)
      end
  end.

Definition attempt_resolving_dataset_alias_via_path (account_name : AccountName) (dataset : Dataset)
    (dataset_id : DatasetID) : res ResolveDatasetError DatasetAlias :=
  match nr_get (dsi_info_repo dataset) "alias" with
  | Ok bytes =>
      match from_utf8 bytes with
      | Some s =>
          let! dataset_alias := resolve_int_err (DatasetAlias_from_str (trim s)) in
          if negb (DatasetAlias_is_multi_tenant dataset_alias)
          then Ok (mkDatasetAlias (Some account_name) (da_dataset_name dataset_alias))
          else Ok dataset_alias
      | None => Err (ResolveDatasetError_Internal mkInternalError)
      end
  | Err (GetNamedError_Internal e) => Err (ResolveDatasetError_Internal e)
  | Err (GetNamedError_Access _) => Err (ResolveDatasetError_Internal mkInternalError)
  | Err (GetNamedError_NotFound _) => not_found (DatasetRef_ID dataset_id)
  | Panic => Panic
  end.

Definition save_dataset_alias (dataset : Dataset) (dataset_alias : DatasetAlias)
    : res InternalError unit * Dataset :=
  let '(x, info) := nr_set (dsi_info_repo dataset) "alias" (as_bytes (DatasetAlias_fmt dataset_alias)) in
  (int_err x, mkDatasetImpl (dsi_metadata_chain dataset) (dsi_data_repo dataset)
                (dsi_checkpoint_repo dataset) info).

(** The identifier a directory is named by. *)
Definition dataset_id_of_dir (dataset_file_name : str) : res ResolveDatasetError DatasetID :=
  resolve_int_err (DatasetID_from_did_str (odf_prefix ++ dataset_file_name)).

(** A stream: the handles it yields, and how it ends. *)
Abbreviation DatasetHandleStream := (list DatasetHandle * res InternalError unit)%type.

Definition yield (h : DatasetHandle) (s : DatasetHandleStream) : DatasetHandleStream := (h :: s.1, s.2).

Fixpoint stream_account_datasets (account_name : AccountName) (dir : directory Dataset)
    : DatasetHandleStream :=
  match dir with
  | [] => ([], Ok tt)
  | (dataset_file_name, dataset) :: rest =>
      if starts_with_dot dataset_file_name then stream_account_datasets account_name rest
      else
        match dataset_id_of_dir dataset_file_name with
        | Ok dataset_id =>
            match attempt_resolving_dataset_alias_via_path account_name dataset dataset_id with
            | Ok dataset_alias =>
                yield (mkDatasetHandle dataset_id dataset_alias) (stream_account_datasets account_name rest)
            | Err (ResolveDatasetError_NotFound _) => stream_account_datasets account_name rest
            | Err (ResolveDatasetError_Internal e) => ([], Err e)
            | Panic => ([], Panic)
            end
        | Err _ => ([], Err mkInternalError)
        | Panic => ([], Panic)
        end
  end.

(** The directory of an account and the name it is stored under; the directory
    may not exist. *)
Definition resolve_account_dir root (account_name : AccountName) : str * AccountName :=
  match dir_get root (text (an_str account_name)) with
  | Some (AccountDir _) => (text (an_str account_name), account_name)
  | _ =>
      match list_find (fun e => AccountName_eq account_name (mkAccountName (untext e.1)) = true) root with
      | Some (_, (account_dir_name, _)) => (account_dir_name, mkAccountName (untext account_dir_name))
      | None => (text (an_str account_name), account_name)
      end
  end.

(** The two components of the path below the root. *)
Definition get_dataset_path {E} (dataset_handle : DatasetHandle) : res E (str * str) :=
  let! account_name := effective_account_name (dh_alias dataset_handle) in
  match DidOdf_as_multibase (did_did (dh_id dataset_handle)) with
  | Ok id => Ok (text (an_str account_name), id)
  | _ => Panic
  end.

(** Streams one after the other, up to the first that ends with an error. *)
Definition chain_streams (s1 s2 : DatasetHandleStream) : DatasetHandleStream :=
  match s1.2 with
  | Ok _ => (s1.1 ++ s2.1, s2.2)
  | _ => s1
  end.

Fixpoint get_all_datasets root : DatasetHandleStream :=
  match root with
  | [] => ([], Ok tt)
  | (account_dir_name, entry) :: rest =>
      if starts_with_dot account_dir_name then get_all_datasets rest
      else
        match entry with
        | PlainFile => get_all_datasets rest
        | AccountDir dir =>
            match AccountName_from_str account_dir_name with
            | Ok account_name =>
                chain_streams (stream_account_datasets account_name dir) (get_all_datasets rest)
            | Err _ => ([], Err mkInternalError)
            | Panic => ([], Panic)
            end
        end
  end.

Definition get_datasets_by_owner root (account_name : AccountName) : DatasetHandleStream :=
  match dir_get root (text (an_str account_name)) with
  | Some (AccountDir dir) => stream_account_datasets account_name dir
  | _ => ([], Ok tt)
  end.

(** The loop of [resolve_dataset_alias]. *)
Fixpoint find_alias (account_name : AccountName) (dataset_alias : DatasetAlias) (dir : directory Dataset)
    : res ResolveDatasetError DatasetHandle :=
  match dir with
  | [] => not_found (DatasetRef_Alias dataset_alias)
  | (dataset_file_name, dataset) :: rest =>
      if starts_with_dot dataset_file_name then find_alias account_name dataset_alias rest
      else
        let! dataset_id := dataset_id_of_dir dataset_file_name in
        let! candidate_dataset_alias :=
          attempt_resolving_dataset_alias_via_path account_name dataset dataset_id in
        if DatasetName_eq (da_dataset_name candidate_dataset_alias) (da_dataset_name dataset_alias)
        then Ok (mkDatasetHandle dataset_id candidate_dataset_alias)
        else find_alias account_name dataset_alias rest
  end.

Definition resolve_dataset_alias root (dataset_alias : DatasetAlias)
    : res ResolveDatasetError DatasetHandle :=
  let! account_name := effective_account_name dataset_alias in
  match dir_get root (resolve_account_dir root account_name).1 with
  | Some (AccountDir dir) => find_alias account_name dataset_alias dir
  | _ => not_found (DatasetRef_Alias dataset_alias)
  end.

(** The loop of [resolve_dataset_id]. *)
Fixpoint find_id (dataset_id : DatasetID) (id_as_string : str) root
    : res ResolveDatasetError DatasetHandle :=
  match root with
  | [] => not_found (DatasetRef_ID dataset_id)
  | (account_dir_name, entry) :: rest =>
      if starts_with_dot account_dir_name then find_id dataset_id id_as_string rest
      else
        let! account_name := resolve_int_err (AccountName_from_str account_dir_name) in
        match entry with
        | PlainFile => find_id dataset_id id_as_string rest
        | AccountDir dir =>
            match dir_get dir id_as_string with
            | Some dataset =>
                let! dataset_alias :=
                  attempt_resolving_dataset_alias_via_path account_name dataset dataset_id in
                Ok (mkDatasetHandle dataset_id dataset_alias)
            | None => find_id dataset_id id_as_string rest
            end
        end
  end.

Definition resolve_dataset_id root (dataset_id : DatasetID) : res ResolveDatasetError DatasetHandle :=
  match DidOdf_as_multibase (did_did dataset_id) with
  | Ok id_as_string => find_id dataset_id id_as_string root
  | _ => Panic
  end.

Definition canonical_dataset_alias root (raw_alias : DatasetAlias) : DatasetAlias :=
  match da_account_name raw_alias with
  | Some account_name =>
      mkDatasetAlias (Some (resolve_account_dir root account_name).2) (da_dataset_name raw_alias)
  | None => raw_alias
  end.

(** * The repository *)

Definition resolve_dataset_ref root (dataset_ref : DatasetRef) : res GetDatasetError DatasetHandle :=
  match dataset_ref with
  | DatasetRef_Handle h => Ok h
  | DatasetRef_Alias alias => map_err GetDatasetError_from_Resolve (resolve_dataset_alias root alias)
  | DatasetRef_ID id => map_err GetDatasetError_from_Resolve (resolve_dataset_id root id)
  end.

(** The dataset in a directory, if the directory exists. *)
Definition dataset_at root (path : str * str) : option Dataset :=
  match dir_get root path.1 with
  | Some (AccountDir dir) => dir_get dir path.2
  | _ => None
  end.

(** [get_dataset_by_handle]: a dataset in a directory that does not exist is
    empty. *)
Definition get_dataset_by_handle {E} root (dataset_handle : DatasetHandle) : res E Dataset :=
  let! path := get_dataset_path dataset_handle in
  Ok (default new_dataset (dataset_at root path)).

Definition find_dataset_by_ref root (dataset_ref : DatasetRef) : res GetDatasetError Dataset :=
  let! dataset_handle := resolve_dataset_ref root dataset_ref in
  get_dataset_by_handle root dataset_handle.

(** The contents of the dataset's directory, once it exists. *)
Definition put_dataset root (path : str * str) (dataset : Dataset) : Root :=
  match dir_get root path.1 with
  | Some (AccountDir dir) => dir_set root path.1 (AccountDir (dir_set dir path.2 dataset))
  | _ => dir_set root path.1 (AccountDir [(path.2, dataset)])
  end.

(** [DatasetLayout::create]: the directories of the dataset, which may exist;
    a file in place of the directory of the account makes it fail. *)
Definition DatasetLayout_create root (path : str * str) : res InternalError (Dataset * Root) :=
  match dir_get root path.1 with
  | Some PlainFile => Err mkInternalError
  | _ =>
      let dataset := default new_dataset (dataset_at root path) in
      Ok (dataset, put_dataset root path dataset)
  end.

Definition create_append_opts : AppendOpts :=
  mkAppendOpts AppendValidation_Full (Some BlockRef_Head) true (Some None) None None.

Definition create_append_err (id : DatasetID) (err : AppendError) : CreateDatasetError :=
  match err with
  | AppendError_RefCASFailed _ => CreateDatasetError_RefCollision id
  | _ => CreateDatasetError_Internal mkInternalError
  end.

(** May a dataset be created under the alias?  A directory without a head is
    taken over. *)
Definition check_name_is_free root (dataset_alias : DatasetAlias) : res CreateDatasetError unit :=
  match resolve_dataset_ref root (DatasetRef_Alias dataset_alias) with
  | Ok existing_dataset_handle =>
      let! existing_dataset := get_dataset_by_handle root existing_dataset_handle in
      match resolve_ref (dsi_metadata_chain existing_dataset) BlockRef_Head with
      | Ok _ => Err (CreateDatasetError_NameCollision dataset_alias)
      | Err (GetRefError_NotFound _) => Ok tt
      | Err (GetRefError_Access _) => Err (CreateDatasetError_Internal mkInternalError)
      | Err (GetRefError_Internal e) => Err (CreateDatasetError_Internal e)
      | Panic => Panic
      end
  | Err (GetDatasetError_NotFound _) => Ok tt
  | Err (GetDatasetError_Internal e) => Err (CreateDatasetError_Internal e)
  | Panic => Panic
  end.

(** From [DatasetLayout::create] on. *)
Definition create_dataset_at (fuel : nat) root (dataset_handle : DatasetHandle) (path : str * str)
    (seed : MetadataBlock) : option (res CreateDatasetError (DatasetHandle * Multihash) * Root) :=
  match DatasetLayout_create root path with
  | Ok (dataset, root1) =>
      match append fuel (dsi_metadata_chain dataset) seed create_append_opts with
      | Some (Ok head, chain) =>
          let '(x, dataset') := save_dataset_alias (with_chain dataset chain) (dh_alias dataset_handle) in
          Some (let! _ := map_err CreateDatasetError_Internal x in Ok (dataset_handle, head),
                put_dataset root1 path dataset')
      | Some (Err err, chain) =>
          Some (Err (create_append_err (dh_id dataset_handle) err),
                put_dataset root1 path (with_chain dataset chain))
      | Some (Panic, chain) => Some (Panic, put_dataset root1 path (with_chain dataset chain))
      | None => None
      end
  | Err e => Some (Err (CreateDatasetError_Internal e), root)
  | Panic => Some (Panic, root)
  end.

Definition create_dataset (fuel : nat) root (dataset_alias : DatasetAlias)
    (seed : MetadataBlockTyped Seed)
    : option (res CreateDatasetError (DatasetHandle * Multihash) * Root) :=
  let dataset_handle :=
    mkDatasetHandle (sd_dataset_id (mbt_event seed)) (canonical_dataset_alias root dataset_alias) in
  match (let! _ := check_name_is_free root dataset_alias in get_dataset_path dataset_handle) with
  | Ok path => create_dataset_at fuel root dataset_handle path (seed_block seed)
  | Err e => Some (Err e, root)
  | Panic => Some (Panic, root)
  end.

(** [handle_dataset_renamed]: the file cannot be written when the directory of
    the dataset does not exist. *)
Definition handle_dataset_renamed root (dataset_handle : DatasetHandle) (new_name : DatasetName)
    : res InternalError unit * Root :=
  match get_dataset_path dataset_handle with
  | Ok path =>
      match dataset_at root path with
      | Some dataset =>
          let '(x, dataset') :=
            save_dataset_alias dataset
              (mkDatasetAlias (da_account_name (dh_alias dataset_handle)) new_name) in
          (x, put_dataset root path dataset')
      | None => (Err mkInternalError, root)
      end
  | Err e => (Err e, root)
  | Panic => (Panic, root)
  end.

Definition rename_dataset root (dataset_handle : DatasetHandle) (new_name : DatasetName)
    : res RenameDatasetError unit * Root :=
  let new_alias := mkDatasetAlias (da_account_name (dh_alias dataset_handle)) new_name in
  match resolve_dataset_alias root new_alias with
  | Ok _ => (Err (RenameDatasetError_NameCollision new_alias), root)
  | Err (ResolveDatasetError_Internal e) => (Err (RenameDatasetError_Internal e), root)
  | Err (ResolveDatasetError_NotFound _) =>
      let '(x, root') := handle_dataset_renamed root dataset_handle new_name in
      (map_err RenameDatasetError_Internal x, root')
  | Panic => (Panic, root)
  end.

(** [remove_dir_all] fails when there is no such directory. *)
Definition delete_dataset root (dataset_handle : DatasetHandle) : res DeleteDatasetError unit * Root :=
  match get_dataset_path dataset_handle with
  | Ok path =>
      match dir_get root path.1 with
      | Some (AccountDir dir) =>
          match dir_get dir path.2 with
          | Some _ => (Ok tt, dir_set root path.1 (AccountDir (dir_remove dir path.2)))
          | None => (Err (DeleteDatasetError_Internal mkInternalError), root)
          end
      | _ => (Err (DeleteDatasetError_Internal mkInternalError), root)
      end
  | Err e => (Err e, root)
  | Panic => (Panic, root)
  end.
End MultiTenant.
