(* ===== verification/DatasetRepositoryFacts.v ===== *)
(** What the local dataset repository promises: it is a list of accounts with
    their datasets.  [root_shows] relates the directories to that list, and the
    operations of [DatasetRepositoryFs] are those of the list. *)

From S2P Require Import Prelude Multiformats Grammar Dids Identity References ReferenceFacts Dtos.
From S2P Require Import ChainRepos ObjectRepoFs MetadataChain ChainVisitors ChainValidators ChainRules.
From S2P Require Import ChainAppend ChainInvariants Dataset Sync FlowService DatasetChanges.
From S2P Require Import EventSourcing TaskSystem FlowSystem Messages FlowTimeWheel FlowStore.
From S2P Require Import DatasetOwnership Snapshots DatasetRepositoryFs.
From Stdlib Require Import Ascii.

(** * Directories *)

Section Directories.
Context {K A : Type} `{!EqDecision K}.

Implicit Types (d : list (K * A)).

Lemma dir_get_set d n m x :
  dir_get (dir_set d n x) m = if decide (n = m) then Some x else dir_get d m.
Proof.
  induction d as [|[k y] d IH]; simpl; [done|]. destruct (decide (k = n)) as [->|Hk]; simpl.
  - by destruct (decide (n = m)).
  - rewrite IH. destruct (decide (k = m)) as [->|]; [|done]. by rewrite decide_False.
Qed.

Lemma dir_get_none d n : dir_get d n = None <-> n ∉ d.*1.
Proof.
  induction d as [|[k y] d IH]; simpl; [set_solver|]. destruct (decide (k = n)) as [->|Hk]; set_solver.
Qed.

(** An entry that is there stands somewhere, and what is written or removed is
    that entry. *)
Lemma dir_get_split d n x : dir_get d n = Some x ->
  exists d1 d2, d = (d1 ++ (n, x) :: d2) /\ (n ∉ d1.*1) /\
    forall y, dir_set d n y = (d1 ++ (n, y) :: d2).
Proof.
  induction d as [|[k y] d IH]; simpl; [done|]. destruct (decide (k = n)) as [->|Hk].
  - intros [= ->]. exists [], d. split_and!; [done|set_solver|done].
  - intros (d1 & d2 & -> & Hn & Hs)%IH. exists ((k, y) :: d1), d2. split_and!; [done|set_solver|].
    intros z. by rewrite Hs.
Qed.

Lemma dir_set_new d n x : n ∉ d.*1 -> dir_set d n x = d ++ [(n, x)].
Proof.
  induction d as [|[k y] d IH]; simpl; [done|]. intros Hn. rewrite decide_False by set_solver.
  rewrite IH by set_solver. done.
Qed.

Lemma dir_get_NoDup d n x : NoDup d.*1 -> (n, x) ∈ d -> dir_get d n = Some x.
Proof.
  induction d as [|[k y] d IH]; simpl; [set_solver|]. intros [Hk Hd]%NoDup_cons Hin.
  apply elem_of_cons in Hin as [[= -> ->]|Hin]; [by rewrite decide_True|].
  rewrite decide_False; [by apply IH|]. intros ->. apply Hk, list_elem_of_fmap. by exists (n, x).
Qed.

Lemma dir_get_remove d n k : dir_get (dir_remove d n) k = if decide (n = k) then None else dir_get d k.
Proof.
  unfold dir_remove. induction d as [|[k' y] d IH]; simpl; [by destruct (decide _)|].
  rewrite filter_cons. simpl. destruct (decide (k' = n)) as [->|Hne].
  - rewrite (decide_False (P := n <> n)) by tauto. rewrite IH. by destruct (decide (n = k)).
  - rewrite (decide_True (P := k' <> n)) by done. simpl. rewrite IH.
    destruct (decide (k' = k)) as [->|]; [|done]. by rewrite decide_False.
Qed.

Lemma dir_set_set d n x y : dir_set (dir_set d n x) n y = dir_set d n y.
Proof.
  induction d as [|[k z] d IH]; simpl; [by rewrite decide_True|].
  destruct (decide (k = n)) as [->|Hne]; simpl; [by rewrite decide_True|].
  rewrite decide_False by done. by rewrite IH.
Qed.

Lemma dir_get_elem d n x : dir_get d n = Some x -> (n, x) ∈ d.
Proof. intros (d1 & d2 & -> & _)%dir_get_split. set_solver. Qed.
End Directories.

(** * Names *)

#[export] Instance AccountName_eq_dec : EqDecision AccountName.
Proof. solve_decision. Defined.

Definition account_key (a : AccountName) : string := to_ascii_lowercase (an_str a).
Definition name_key (n : DatasetName) : string := to_ascii_lowercase (dn_str n).

Lemma account_eq_key a b : AccountName_eq a b = true <-> account_key a = account_key b.
Proof. apply bool_decide_eq_true. Qed.
Lemma name_eq_key a b : DatasetName_eq a b = true <-> name_key a = name_key b.
Proof. apply bool_decide_eq_true. Qed.

Lemma hostname_no_dot s : hostname s -> starts_with_dot s = false.
Proof.
  intros (c & u & -> & Hc)%hostname_first. simpl. apply bool_decide_eq_false. by intros ->.
Qed.

Lemma alphanums_no_dot s : all_of is_ascii_alphanumeric s -> starts_with_dot s = false.
Proof.
  intros [Hne Hs]. destruct s as [|c s]; [done|]. simpl. apply Forall_cons in Hs as [Hc _].
  apply bool_decide_eq_false. by intros ->.
Qed.

Lemma trim_start_id s : Forall (fun c => is_whitespace c = false) s -> trim_start s = s.
Proof. destruct s as [|c s]; [done|]. simpl. intros [-> _]%Forall_cons. done. Qed.

Lemma trim_id s : Forall (fun c => is_whitespace c = false) s -> trim s = s.
Proof.
  intros Hs. unfold trim. rewrite (trim_start_id s) by done.
  rewrite trim_start_id by (by apply Forall_reverse). apply reverse_involutive.
Qed.

Lemma hostname_no_whitespace s : hostname s -> Forall (fun c => is_whitespace c = false) s.
Proof.
  intros Hs. apply Forall_forall. intros c Hc. destruct (is_whitespace c) eqn:Hw; [|done]. exfalso.
  apply (hostname_without c s); [|done..]. unfold outside. revert Hw. clear.
  destruct c as [[] [] [] [] [] [] [] []]; vm_compute; try done; intros _; split_and!; done.
Qed.

Lemma alias_no_whitespace a : alias_ok a -> Forall (fun c => is_whitespace c = false) (DatasetAlias_fmt a).
Proof.
  intros [Ha Hd]. unfold DatasetAlias_fmt. apply hostname_no_whitespace in Hd.
  destruct (da_account_name a) as [x|]; simpl in *; [|done].
  apply hostname_no_whitespace in Ha. repeat (apply Forall_app; split); try done. by constructor.
Qed.

(** * Accounts and their datasets *)

Abbreviation Account := (AccountName * list (DatasetID * DatasetAlias))%type.
Abbreviation Accounts := (list Account).

(** A name as it is told to someone who asked for the account [acc]. *)
Definition alias_as (acc : AccountName) (a : DatasetAlias) : DatasetAlias :=
  mkDatasetAlias (Some (default acc (da_account_name a))) (da_dataset_name a).

Definition handle_as (acc : AccountName) (x : DatasetID * DatasetAlias) : DatasetHandle :=
  mkDatasetHandle x.1 (alias_as acc x.2).

(** Accounts and the datasets of an account differ in more than case, every
    dataset belongs to one account, and its name tells no other. *)
Record accounts_ok (t : Accounts) : Prop := {
  ao_accounts : NoDup (map (fun x => account_key x.1) t);
  ao_ids : NoDup (concat (map (fun x => x.2.*1) t));
  ao_names x : x ∈ t -> NoDup (map (fun d => name_key (da_dataset_name d.2)) x.2);
  ao_owner x d a : x ∈ t -> d ∈ x.2 -> da_account_name d.2 = Some a -> a = x.1
}.

Definition account_of (t : Accounts) (acc : AccountName) : option Account :=
  List.find (fun x => AccountName_eq acc x.1) t.

Definition named (n : DatasetName) (l : list (DatasetID * DatasetAlias)) : option (DatasetID * DatasetAlias) :=
  List.find (fun d => DatasetName_eq (da_dataset_name d.2) n) l.

Fixpoint owner_of_id (t : Accounts) (id : DatasetID) : option (AccountName * (DatasetID * DatasetAlias)) :=
  match t with
  | [] => None
  | x :: rest =>
      match dir_get x.2 id with
      | Some a => Some (x.1, (id, a))
      | None => owner_of_id rest id
      end
  end.

Section Facts.
Context {C : BlockCodec} `{LawfulTextCodecs} `{!TextBytes} `{!LawfulTextBytes} {BR RR DR CR IR : Type}
        `{!MetadataBlockRepository BR} `{!ReferenceRepository RR} `{!NamedObjectRepository IR}
        `{!LawfulInfoRepo IR}.

Abbreviation Dataset := (DatasetImpl BR RR DR CR IR).
Abbreviation Root := (directory (RootEntry (BR := BR) (RR := RR) (DR := DR) (CR := CR) (IR := IR))).

Variable subject : CurrentAccountSubject.
Variable new_dataset : Dataset.

Implicit Types (root : Root) (dir : directory Dataset) (t : Accounts).

(** The file [alias] of a dataset. *)
Definition saved_alias (d : Dataset) (a : DatasetAlias) : Prop :=
  exists b s, nr_get (dsi_info_repo d) "alias" = Ok b /\ from_utf8 b = Some s /\
    DatasetAlias_from_str (trim s) = Ok a.

Definition dataset_shows (e : str * Dataset) (x : DatasetID * DatasetAlias) : Prop :=
  DidOdf_as_multibase (did_did x.1) = Ok e.1 /\ id_ok x.1 /\ saved_alias e.2 x.2.

Definition account_shows (e : str * RootEntry) (x : Account) : Prop :=
  e.1 = text (an_str x.1) /\ name_ok (an_str x.1) /\
  exists dir, e.2 = AccountDir dir /\ Forall2 dataset_shows dir x.2.

Definition root_shows root t : Prop := Forall2 account_shows root t.

Lemma id_dir_name id : id_ok id ->
  exists m, DidOdf_as_multibase (did_did id) = Ok m /\ dataset_id_of_dir m = Ok id /\
    starts_with_dot m = false.
Proof.
  intros Hid. destruct (did_odf_text_inverse (did_did id) Multibase_Base16 Hid) as (m & Hf & Hp & Hm).
  exists m. unfold dataset_id_of_dir, DatasetID_from_did_str. rewrite Hp.
  split_and!; [|by destruct id|by apply alphanums_no_dot].
  revert Hf. unfold DidOdfFmt_fmt, DidOdf_as_multibase.
  destruct (DidKeyMultibaseFmt_fmt _ _) as [s| |]; simpl; [|done..]. by intros [= ->].
Qed.

(** Different datasets have different directories. *)
Lemma id_dir_inj id id' m : id_ok id -> id_ok id' ->
  DidOdf_as_multibase (did_did id) = Ok m -> DidOdf_as_multibase (did_did id') = Ok m -> id = id'.
Proof.
  intros (m1 & E1 & P1 & _)%id_dir_name (m2 & E2 & P2 & _)%id_dir_name Hm1 Hm2. congruence.
Qed.

Lemma attempt_shows acc d id a : saved_alias d a ->
  attempt_resolving_dataset_alias_via_path acc d id = Ok (alias_as acc a).
Proof.
  intros (b & s & Hb & Hs & Ha). unfold attempt_resolving_dataset_alias_via_path.
  rewrite Hb, Hs, Ha. simpl. unfold alias_as, DatasetAlias_is_multi_tenant.
  by destruct a as [[x|] n].
Qed.

Lemma find_alias_shows acc alias dir l :
  Forall2 dataset_shows dir l ->
  find_alias acc alias dir =
    match named (da_dataset_name alias) l with
    | Some d => Ok (handle_as acc d)
    | None => not_found (DatasetRef_Alias alias)
    end.
Proof.
  induction 1 as [|[n d] [id a] dir l (Hn & Hid & Ha) _ IH]; [done|]. simpl in *.
  destruct (id_dir_name id Hid) as (m & Hm & Hp & Hdot). rewrite Hn in Hm. injection Hm as <-.
  rewrite Hdot, Hp. simpl. rewrite (attempt_shows acc d id a Ha). simpl.
  by destruct (DatasetName_eq _ _).
Qed.

Lemma stream_shows acc dir l :
  Forall2 dataset_shows dir l -> stream_account_datasets acc dir = (map (handle_as acc) l, Ok tt).
Proof.
  induction 1 as [|[n d] [id a] dir l (Hn & Hid & Ha) _ IH]; [done|]. simpl in *.
  destruct (id_dir_name id Hid) as (m & Hm & Hp & Hdot). rewrite Hn in Hm. injection Hm as <-.
  by rewrite Hdot, Hp, (attempt_shows acc d id a Ha), IH.
Qed.

Lemma dir_get_dataset dir l id m :
  Forall2 dataset_shows dir l -> id_ok id -> DidOdf_as_multibase (did_did id) = Ok m ->
  match dir_get l id with
  | Some a => exists d, dir_get dir m = Some d /\ saved_alias d a
  | None => dir_get dir m = None
  end.
Proof.
  intros Hf Hid Hm. induction Hf as [|[n d] [id' a] dir l (Hn & Hid' & Ha) _ IH]; [done|]. simpl in *.
  destruct (decide (id' = id)) as [->|Hb].
  - rewrite Hn in Hm. injection Hm as ->. rewrite decide_True by done. eauto.
  - rewrite decide_False; [done|]. intros ->. by apply Hb, (id_dir_inj id' id m).
Qed.

(** * Accounts *)

Lemma account_name_shows acc : name_ok (an_str acc) ->
  AccountName_from_str (text (an_str acc)) = Ok acc /\ starts_with_dot (text (an_str acc)) = false.
Proof. intros Hok. split; [by apply account_name_parse|by apply hostname_no_dot]. Qed.

Lemma text_inj a b : text a = text b -> a = b.
Proof. intros Heq. by rewrite <- (untext_text a), <- (untext_text b), Heq. Qed.

Lemma find_account_none t acc :
  account_of t acc = None <-> account_key acc ∉ map (fun x => account_key x.1) t.
Proof.
  unfold account_of. induction t as [|x t IH]; simpl; [set_solver|].
  destruct (AccountName_eq acc x.1) eqn:He.
  - apply account_eq_key in He. set_solver.
  - assert (account_key acc <> account_key x.1) by (intros E%account_eq_key; congruence). set_solver.
Qed.

Lemma find_account_some t acc x :
  account_of t acc = Some x -> x ∈ t /\ account_key acc = account_key x.1.
Proof.
  unfold account_of. intros Hf%List.find_some. destruct Hf as [Hin He%account_eq_key].
  by rewrite <- list_elem_of_In in Hin.
Qed.

Lemma NoDup_key {A K} (f : A -> K) (l : list A) x y :
  NoDup (map f l) -> x ∈ l -> y ∈ l -> f x = f y -> x = y.
Proof.
  induction l as [|z l IH]; simpl; [set_solver|]. intros [Hz Hl]%NoDup_cons Hx Hy He.
  assert (Hin : forall w, w ∈ l -> f w ∈ map f l) by (intros w Hw; apply list_elem_of_fmap; eauto).
  apply elem_of_cons in Hx as [->|Hx], Hy as [->|Hy]; [done|..|by apply IH].
  - destruct Hz. rewrite He. auto.
  - destruct Hz. rewrite <- He. auto.
Qed.

Lemma dir_get_account root t acc :
  root_shows root t ->
  match dir_get t acc with
  | Some l => exists dir, dir_get root (text (an_str acc)) = Some (AccountDir dir) /\
      Forall2 dataset_shows dir l
  | None => dir_get root (text (an_str acc)) = None
  end.
Proof.
  induction 1 as [|[n e] [a l] root t (Hn & Hok & dir & He & Hdir) _ IH]; [done|]. simpl in *. subst.
  destruct (decide (a = acc)) as [->|Hb].
  - rewrite decide_True by done. eauto.
  - rewrite decide_False; [done|].
    intros Heq%text_inj. apply Hb. destruct a as [a], acc as [b]. simpl in *. congruence.
Qed.

(** The search for a name in another case. *)
Lemma find_account_dir root t acc :
  root_shows root t ->
  match account_of t acc with
  | Some x => exists i e, list_find (fun e => AccountName_eq acc (mkAccountName (untext e.1)) = true) root
      = Some (i, (text (an_str x.1), e))
  | None => list_find (fun e => AccountName_eq acc (mkAccountName (untext e.1)) = true) root = None
  end.
Proof.
  induction 1 as [|[n e] x root t (Hn & Hok & dir & He & Hdir) _ IH]; [done|]. simpl in *. subst.
  rewrite untext_text. assert (mkAccountName (an_str x.1) = x.1) as -> by by destruct x as [[a] l].
  destruct (decide (AccountName_eq acc x.1 = true)) as [Hd|Hd].
  - rewrite Hd. eauto.
  - apply not_true_is_false in Hd as Hf. unfold account_of in *. simpl. rewrite Hf.
    destruct (List.find _ t) as [y|].
    + destruct IH as (i & e & ->). simpl. eauto.
    + by rewrite IH.
Qed.

(** The directory that is found for an account is the one of the account. *)
Lemma resolve_account_shows root t acc :
  root_shows root t -> accounts_ok t ->
  match account_of t acc with
  | Some x => exists dir, resolve_account_dir root acc = (text (an_str x.1), x.1) /\
      dir_get root (text (an_str x.1)) = Some (AccountDir dir) /\ Forall2 dataset_shows dir x.2
  | None => resolve_account_dir root acc = (text (an_str acc), acc) /\
      dir_get root (text (an_str acc)) = None
  end.
Proof.
  intros Hr Hok. unfold resolve_account_dir. pose proof (dir_get_account root t acc Hr) as He.
  pose proof (find_account_dir root t acc Hr) as Hci.
  destruct (dir_get t acc) as [l|] eqn:Hx.
  - destruct He as (dir & Hd & Hdir). rewrite Hd. apply dir_get_elem in Hx.
    destruct (account_of t acc) as [y|] eqn:Hy.
    + apply find_account_some in Hy as [Hyin Hk].
      assert ((acc, l) = y) as <- by by eapply (NoDup_key _ t _ y (ao_accounts _ Hok)). eauto.
    + exfalso. apply find_account_none in Hy. apply Hy. apply list_elem_of_fmap. by exists (acc, l).
  - rewrite He. destruct (account_of t acc) as [y|] eqn:Hy.
    + destruct Hci as (i & e & ->). apply find_account_some in Hy as [Hyin Hk].
      pose proof (dir_get_account root t y.1 Hr) as Hd.
      destruct (dir_get t y.1) as [l|] eqn:Hz.
      * destruct Hd as (dir & Hd & Hdir). apply dir_get_elem in Hz.
        assert ((y.1, l) = y) as Heq by by eapply (NoDup_key _ t _ y (ao_accounts _ Hok)).
        exists dir. rewrite untext_text, <- Heq. split_and!; [|done..]. by destruct y as [[a] l'].
      * exfalso. apply dir_get_none in Hz. apply Hz, list_elem_of_fmap. by exists y.
    + by rewrite Hci.
Qed.

(** * Look-ups *)

Definition lookup_alias t (acc : AccountName) (n : DatasetName) : option DatasetHandle :=
  x ← account_of t acc; d ← named n x.2; Some (handle_as acc d).

Definition lookup_id t (id : DatasetID) : option DatasetHandle :=
  x ← owner_of_id t id; Some (handle_as x.1 x.2).

Lemma resolve_alias_shows root t alias acc :
  root_shows root t -> accounts_ok t ->
  effective_account_name (E := ResolveDatasetError) subject alias = Ok acc ->
  resolve_dataset_alias subject root alias =
    match lookup_alias t acc (da_dataset_name alias) with
    | Some h => Ok h
    | None => not_found (DatasetRef_Alias alias)
    end.
Proof.
  intros Hr Hok He. unfold resolve_dataset_alias, lookup_alias. rewrite He. simpl.
  pose proof (resolve_account_shows root t acc Hr Hok) as Ha.
  destruct (account_of t acc) as [x|]; simpl.
  - destruct Ha as (dir & -> & Hd & Hdir). simpl. rewrite Hd, (find_alias_shows _ _ _ _ Hdir).
    by destruct (named _ _).
  - destruct Ha as [-> Hd]. simpl. by rewrite Hd.
Qed.

Lemma find_id_shows root t id m :
  root_shows root t -> id_ok id -> DidOdf_as_multibase (did_did id) = Ok m ->
  find_id id m root =
    match lookup_id t id with
    | Some h => Ok h
    | None => not_found (DatasetRef_ID id)
    end.
Proof.
  intros Hr Hid Hm. unfold lookup_id.
  induction Hr as [|[n e] x root t (Hn & Hok & dir & He & Hdir) _ IH]; [done|]. simpl in *. subst.
  destruct (account_name_shows x.1 Hok) as [Hp ->]. rewrite Hp. simpl.
  pose proof (dir_get_dataset dir x.2 id m Hdir Hid Hm) as Hg.
  destruct (dir_get x.2 id) as [a|].
  - destruct Hg as (d & -> & Ha). simpl. by rewrite (attempt_shows x.1 d id a Ha).
  - by rewrite Hg.
Qed.

Lemma resolve_id_shows root t id :
  root_shows root t -> id_ok id ->
  resolve_dataset_id root id =
    match lookup_id t id with
    | Some h => Ok h
    | None => not_found (DatasetRef_ID id)
    end.
Proof.
  intros Hr Hid. unfold resolve_dataset_id. destruct (id_dir_name id Hid) as (m & Hm & _). rewrite Hm.
  by apply find_id_shows.
Qed.

Lemma all_datasets_shows root t :
  root_shows root t ->
  get_all_datasets root = (concat (map (fun x => map (handle_as x.1) x.2) t), Ok tt).
Proof.
  induction 1 as [|[n e] x root t (Hn & Hok & dir & He & Hdir) _ IH]; [done|]. simpl in *. subst.
  destruct (account_name_shows x.1 Hok) as [-> ->].
  by rewrite (stream_shows x.1 dir x.2 Hdir), IH.
Qed.

(** Every dataset is found, by its identifier and by its name in any case. *)
Lemma lookup_id_elem t x d : accounts_ok t -> x ∈ t -> d ∈ x.2 -> lookup_id t d.1 = Some (handle_as x.1 d).
Proof.
  intros Hok Hx Hd. pose proof (ao_ids _ Hok) as Hids. unfold lookup_id.
  enough (owner_of_id t d.1 = Some (x.1, d)) as -> by done. clear Hok.
  induction t as [|y t IH]; [set_solver|]. simpl in *. apply NoDup_app in Hids as (N1 & D & N2).
  assert (Hin : d.1 ∈ x.2.*1) by (apply list_elem_of_fmap; by exists d).
  apply elem_of_cons in Hx as [->|Hx].
  - rewrite (dir_get_NoDup y.2 d.1 d.2); [by destruct d|done|by destruct d].
  - destruct (dir_get y.2 d.1) as [a|] eqn:Hg; [|by apply IH]. exfalso.
    apply (D d.1); [apply dir_get_elem in Hg; apply list_elem_of_fmap; by exists (d.1, a)|].
    apply list_elem_of_In, in_concat. exists x.2.*1. split; [|by apply list_elem_of_In].
    apply in_map_iff. exists x. split; [done|]. by apply list_elem_of_In.
Qed.

Lemma lookup_alias_elem t x d acc n :
  accounts_ok t -> x ∈ t -> d ∈ x.2 -> account_key acc = account_key x.1 ->
  name_key n = name_key (da_dataset_name d.2) -> lookup_alias t acc n = Some (handle_as acc d).
Proof.
  intros Hok Hx Hd Ha Hn. unfold lookup_alias.
  destruct (account_of t acc) as [y|] eqn:Hy; simpl.
  - apply find_account_some in Hy as [Hyin Hk].
    assert (x = y) as <- by (eapply (NoDup_key _ t _ _ (ao_accounts _ Hok)); [done..|congruence]).
    destruct (named n x.2) as [d'|] eqn:Hd'; simpl.
    + apply List.find_some in Hd' as [Hin%list_elem_of_In He%name_eq_key].
      assert (d' = d) as -> by (eapply (NoDup_key _ x.2 _ _ (ao_names _ Hok x Hx)); [done..|congruence]).
      done.
    + exfalso. apply list_elem_of_In, (List.find_none _ _ Hd') in Hd. simpl in Hd.
      symmetry in Hn. apply name_eq_key in Hn. congruence.
  - exfalso. apply find_account_none in Hy. apply Hy. rewrite Ha. apply list_elem_of_fmap. by exists x.
Qed.

(** A directory without a name ends the search, but not the listing. *)
Lemma find_alias_stops acc alias dir1 l1 n d dir2 id e :
  Forall2 dataset_shows dir1 l1 -> named (da_dataset_name alias) l1 = None ->
  id_ok id -> DidOdf_as_multibase (did_did id) = Ok n ->
  nr_get (dsi_info_repo d) "alias" = Err (GetNamedError_NotFound e) ->
  find_alias acc alias (dir1 ++ (n, d) :: dir2) = not_found (DatasetRef_ID id).
Proof.
  intros Hf Hn Hid Hm He. induction Hf as [|[k y] [id' a] dir1 l1 (Hk & Hid' & Ha) _ IH]; simpl in *.
  - destruct (id_dir_name id Hid) as (m & Hm' & Hp & Hdot). rewrite Hm in Hm'. injection Hm' as <-.
    rewrite Hdot, Hp. simpl. unfold attempt_resolving_dataset_alias_via_path. by rewrite He.
  - destruct (id_dir_name id' Hid') as (m & Hm' & Hp & Hdot). rewrite Hk in Hm'. injection Hm' as <-.
    rewrite Hdot, Hp. simpl. rewrite (attempt_shows acc y id' a Ha). simpl.
    destruct (DatasetName_eq _ _); [done|]. by apply IH.
Qed.

Lemma stream_skips acc dir1 l1 n d dir2 l2 id e :
  Forall2 dataset_shows dir1 l1 -> id_ok id -> DidOdf_as_multibase (did_did id) = Ok n ->
  nr_get (dsi_info_repo d) "alias" = Err (GetNamedError_NotFound e) ->
  Forall2 dataset_shows dir2 l2 ->
  stream_account_datasets acc (dir1 ++ (n, d) :: dir2) = (map (handle_as acc) (l1 ++ l2), Ok tt).
Proof.
  intros Hf Hid Hm He Hf2. induction Hf as [|[k y] [id' a] dir1 l1 (Hk & Hid' & Ha) _ IH]; simpl in *.
  - destruct (id_dir_name id Hid) as (m & Hm' & Hp & Hdot). rewrite Hm in Hm'. injection Hm' as <-.
    rewrite Hdot, Hp. unfold attempt_resolving_dataset_alias_via_path at 1. rewrite He. simpl.
    by apply stream_shows.
  - destruct (id_dir_name id' Hid') as (m & Hm' & Hp & Hdot). rewrite Hk in Hm'. injection Hm' as <-.
    by rewrite Hdot, Hp, (attempt_shows acc y id' a Ha), IH.
Qed.

(** * Updates *)

Definition datasets_of t (acc : AccountName) : list (DatasetID * DatasetAlias) := default [] (dir_get t acc).
Definition all_ids t : list DatasetID := concat (map (fun x => x.2.*1) t).

Lemma datasets_set dir l m id d a :
  Forall2 dataset_shows dir l -> dataset_shows (m, d) (id, a) ->
  Forall2 dataset_shows (dir_set dir m d) (dir_set l id a).
Proof.
  intros Hf Hd. induction Hf as [|[n y] [id' a'] dir l Hx Hl IH]; simpl; [constructor; [done|constructor]|].
  destruct Hx as (Hn & Hid' & Ha), Hd as (Hm & Hid & Hda). simpl in *.
  destruct (decide (id' = id)) as [->|Hne].
  - rewrite Hn in Hm. injection Hm as ->. rewrite decide_True by done. by constructor.
  - rewrite decide_False; [by constructor|]. intros ->. by apply Hne, (id_dir_inj id' id m).
Qed.

Lemma datasets_remove dir l m id :
  Forall2 dataset_shows dir l -> id_ok id -> DidOdf_as_multibase (did_did id) = Ok m ->
  Forall2 dataset_shows (dir_remove dir m) (dir_remove l id).
Proof.
  intros Hf Hid Hm. unfold dir_remove.
  induction Hf as [|[n y] [id' a'] dir l Hx Hl IH]; simpl; [constructor|].
  rewrite !filter_cons. destruct Hx as (Hn & Hid' & Ha). simpl in *.
  destruct (decide (id' = id)) as [->|Hne].
  - rewrite Hn in Hm. injection Hm as ->. by rewrite !decide_False by tauto.
  - rewrite !decide_True; [by constructor|done|]. intros ->. by apply Hne, (id_dir_inj id' id m).
Qed.

Lemma root_set root t acc dir l :
  root_shows root t -> name_ok (an_str acc) -> Forall2 dataset_shows dir l ->
  root_shows (dir_set root (text (an_str acc)) (AccountDir dir)) (dir_set t acc l).
Proof.
  intros Hr Hok Hd. induction Hr as [|[n e] [a l'] root t Hx Hl IH]; simpl.
  { constructor; [|constructor]. split_and!; [done..|]. eauto. }
  destruct Hx as (Hn & Hok' & dir' & He & Hdir'). simpl in *. subst n.
  destruct (decide (a = acc)) as [->|Hne].
  - rewrite decide_True by done. constructor; [|done]. split_and!; [done..|]. eauto.
  - rewrite decide_False.
    + constructor; [|done]. split_and!; [done..|]. eauto.
    + intros Heq%text_inj. apply Hne. destruct a as [a], acc as [b]. simpl in *. congruence.
Qed.

Lemma put_shows root t acc m d id a :
  root_shows root t -> name_ok (an_str acc) -> dataset_shows (m, d) (id, a) ->
  root_shows (put_dataset root (text (an_str acc), m) d) (dir_set t acc (dir_set (datasets_of t acc) id a)).
Proof.
  intros Hr Hok Hd. unfold put_dataset, datasets_of. simpl.
  pose proof (dir_get_account root t acc Hr) as Hg. destruct (dir_get t acc) as [l|]; simpl.
  - destruct Hg as (dir & -> & Hdir). apply root_set; [done..|]. by apply datasets_set.
  - rewrite Hg. apply root_set; [done..|]. constructor; [done|constructor].
Qed.

Lemma all_ids_split t1 acc l t2 :
  all_ids (t1 ++ (acc, l) :: t2) = all_ids t1 ++ l.*1 ++ all_ids t2.
Proof. unfold all_ids. by rewrite map_app, concat_app. Qed.

(** The accounts stay in order when the datasets of one change, if the new ones
    are in order and were not in use elsewhere. *)
Lemma accounts_ok_set t acc l :
  accounts_ok t -> (forall x, account_of t acc = Some x -> x.1 = acc) ->
  NoDup (map (fun d => name_key (da_dataset_name d.2)) l) -> NoDup l.*1 ->
  (forall d a, d ∈ l -> da_account_name d.2 = Some a -> a = acc) ->
  (forall id, id ∈ l.*1 -> id ∈ (datasets_of t acc).*1 \/ id ∉ all_ids t) ->
  accounts_ok (dir_set t acc l).
Proof.
  intros [Hacc Hids Hnames Hown] Hex Hn Hi Ho Hu. unfold datasets_of in Hu.
  destruct (dir_get t acc) as [l0|] eqn:Hg; simpl in Hu.
  - destruct (dir_get_split _ _ _ Hg) as (t1 & t2 & -> & _ & ->). fold (all_ids (t1 ++ (acc, l0) :: t2)) in Hids.
    split.
    + by rewrite map_app in *.
    + fold (all_ids (t1 ++ (acc, l) :: t2)). rewrite all_ids_split in *.
      apply NoDup_app in Hids as (N1 & D1 & N2). apply NoDup_app in N2 as (N2 & D2 & N3).
      apply NoDup_app. split_and!; [done| |apply NoDup_app; split_and!; [done| |done]].
      * intros x Hx. specialize (D1 x Hx). specialize (Hu x). set_solver.
      * intros x Hx. specialize (Hu x). specialize (D2 x). set_solver.
    + intros x [Hx|[->|Hx]%elem_of_cons]%elem_of_app; [apply Hnames; set_solver|done|apply Hnames; set_solver].
    + intros x d a [Hx|[->|Hx]%elem_of_cons]%elem_of_app Hd Ha; [|by eapply Ho|]; eapply Hown; try done; set_solver.
  - apply dir_get_none in Hg as Hg'. rewrite dir_set_new by done. fold (all_ids t) in Hids. split.
    + rewrite map_app. apply NoDup_app. split_and!; [done| |apply NoDup_singleton].
      intros x Hx ->%list_elem_of_singleton. simpl in *.
      destruct (account_of t acc) as [y|] eqn:Hy.
      * apply Hg'. rewrite <- (Hex _ eq_refl). apply find_account_some in Hy as [Hy _].
        apply list_elem_of_fmap. by exists y.
      * by apply find_account_none in Hy.
    + fold (all_ids (t ++ [(acc, l)])). rewrite all_ids_split. rewrite app_nil_r. apply NoDup_app.
      split_and!; [done| |done]. intros x Hx Hxl. specialize (Hu x Hxl). set_solver.
    + intros x [Hx| ->%list_elem_of_singleton]%elem_of_app; [by apply Hnames|done].
    + intros x d a [Hx| ->%list_elem_of_singleton]%elem_of_app Hd Ha; [by eapply Hown|by eapply Ho].
Qed.

(** * Datasets at their places *)

Lemma dataset_at_put root p q d :
  dataset_at (put_dataset root p d) q = if decide (p = q) then Some d else dataset_at root q.
Proof.
  unfold dataset_at, put_dataset. destruct p as [p1 p2], q as [q1 q2]. simpl.
  destruct (dir_get root p1) as [[dir|]|] eqn:Hp; rewrite dir_get_set;
    (destruct (decide (p1 = q1)) as [->|Hne]; [|by rewrite decide_False by congruence]); rewrite ?Hp.
  1: rewrite dir_get_set. 2,3: simpl.
  all: destruct (decide (p2 = q2)) as [->|]; [by rewrite decide_True|by rewrite decide_False by congruence].
Qed.

Lemma dataset_at_shows root t acc id m :
  root_shows root t -> id_ok id -> DidOdf_as_multibase (did_did id) = Ok m ->
  match dir_get (datasets_of t acc) id with
  | Some a => exists d, dataset_at root (text (an_str acc), m) = Some d /\ saved_alias d a
  | None => dataset_at root (text (an_str acc), m) = None
  end.
Proof.
  intros Hr Hid Hm. unfold dataset_at, datasets_of. simpl.
  pose proof (dir_get_account root t acc Hr) as Hg. destruct (dir_get t acc) as [l|]; simpl.
  - destruct Hg as (dir & -> & Hdir). by apply dir_get_dataset.
  - by rewrite Hg.
Qed.

Lemma saved_alias_set d a x d' :
  alias_ok a -> save_dataset_alias d a = (x, d') ->
  dsi_metadata_chain d' = dsi_metadata_chain d /\ (x = Ok tt -> saved_alias d' a).
Proof.
  intros Ha. unfold save_dataset_alias.
  destruct (nr_set _ _ _) as [y info] eqn:Hn. intros [= <- <-]. split; [done|]. intros Hy.
  destruct y as [[]| |]; [|done..]. exists (as_bytes (DatasetAlias_fmt a)), (DatasetAlias_fmt a). simpl.
  split_and!; [by eapply nr_set_get|apply utf8_inverse|].
  rewrite trim_id by by apply alias_no_whitespace. by apply alias_parse.
Qed.

(** A seed is appended to whatever has no head. *)
Lemma append_seed `{!LawfulBlockRepo BR, !LawfulRefRepo RR} fuel (c : MetadataChainImpl BR RR) b :
  0 < fuel -> mb_prev_block_hash b = None -> supported b ->
  exists x c', append fuel c b create_append_opts = Some (x, c') /\
    (forall h, x = Ok h -> head_is c None /\ chain_state c' [(h, b)] /\ Multihash_wf h) /\
    (forall o h, head_is c (Some o) -> x <> Ok h) /\ (head_is c None -> x <> Panic).
Proof.
  intros Hf Hp Hs. assert (Hl : linked (meta_block_repo c) (mb_prev_block_hash b) []) by (rewrite Hp; constructor).
  destruct (validate_append_total fuel (meta_block_repo c) b [] Hl Hf) as (v & Hv & Hnp); [|done|].
  { apply valid_chain_resolved. constructor. }
  unfold append. simpl. rewrite Hv. unfold append_check_ref, head_is. simpl.
  destruct v as [[]|e|]; simpl; [|eexists _, _; split; [done|by split_and!]|done].
  destruct (append_actual_ref (ref_repo c) BlockRef_Head) as [[o|]|e|]; simpl.
  1,3,4: eexists _, _; split; [done|by split_and!].
  unfold append_store. simpl.
  pose proof (insert_no_panic (meta_block_repo c) b (append_insert_opts create_append_opts)) as Hi.
  destruct (insert_block _ _ _) as [[h|e|] br] eqn:Hins; simpl; [|eexists _, _; split; [done|by split_and!]|done].
  pose proof (rr_set_no_panic (ref_repo c) BlockRef_Head h) as Hrp.
  destruct (rr_set (ref_repo c) BlockRef_Head h) as [[[]|e|] rr] eqn:Hr; simpl; [| |done].
  2: eexists _, _; split; [done|by split_and!].
  assert (Hwf : Multihash_wf h) by by eapply (insert_hash_wf _ _ (append_insert_opts create_append_opts)).
  eexists _, _. split; [done|]. split_and!; [|done|done]. intros h' [= <-]. split_and!; [done| |done].
  split; simpl.
  - unfold head_is, append_actual_ref. simpl. by rewrite (rr_set_get _ _ _ _ Hwf Hr).
  - constructor; [by eapply insert_get|]. by rewrite Hp; constructor.
  - constructor; [done| |constructor]. by eapply validate_append_ok.
Qed.

(** * The state of the repository *)

(** The directories show the accounts, which are in order, and every dataset
    has a head. *)
Record repository_state root t : Prop := {
  rs_shows : root_shows root t;
  rs_ok : accounts_ok t;
  rs_heads p d : dataset_at root p = Some d -> exists h, head_is (dsi_metadata_chain d) (Some h)
}.

(** The account an alias is about, and that it is written as its directory. *)
Record acts_in t (alias : DatasetAlias) (acc : AccountName) : Prop := {
  ai_account : match da_account_name alias with
               | Some a => a = acc
               | None => exists l, subject = CurrentAccountSubject_Logged l /\ la_account_name l = acc
               end;
  ai_name : name_ok (an_str acc);
  ai_exact x : account_of t acc = Some x -> x.1 = acc
}.

Lemma effective_acts {E} t alias acc :
  acts_in t alias acc -> effective_account_name (E := E) subject alias = Ok acc.
Proof.
  intros [Ha _ _]. unfold effective_account_name. destruct (da_account_name alias) as [a|]; [by subst|].
  by destruct Ha as (l & -> & ->).
Qed.

Lemma path_acts {E} t alias acc id m :
  acts_in t alias acc -> DidOdf_as_multibase (did_did id) = Ok m ->
  get_dataset_path (E := E) subject (mkDatasetHandle id alias) = Ok (text (an_str acc), m).
Proof. intros Ha Hm. unfold get_dataset_path. simpl. by rewrite (effective_acts _ _ _ Ha), Hm. Qed.

Lemma canonical_acts root t alias acc :
  root_shows root t -> accounts_ok t -> acts_in t alias acc -> canonical_dataset_alias root alias = alias.
Proof.
  intros Hr Hok [Ha _ Hex]. unfold canonical_dataset_alias. destruct alias as [[a|] n]; simpl in *; [|done].
  subst a. pose proof (resolve_account_shows root t acc Hr Hok) as Hd.
  destruct (account_of t acc) as [x|].
  - destruct Hd as (dir & -> & _). simpl. by rewrite (Hex x eq_refl).
  - by destruct Hd as [-> _].
Qed.

Lemma account_of_exact t acc x :
  accounts_ok t -> account_of t acc = Some x -> x.1 = acc -> datasets_of t acc = x.2.
Proof.
  intros Hok Hx <-. unfold datasets_of. apply find_account_some in Hx as [Hin _].
  rewrite (dir_get_NoDup t x.1 x.2); [done| |by destruct x].
  apply (NoDup_fmap_1 account_key). rewrite <- list_fmap_compose. apply Hok.
Qed.

Lemma datasets_of_elem t acc : dir_get t acc <> None -> (acc, datasets_of t acc) ∈ t.
Proof. unfold datasets_of. destruct (dir_get t acc) as [l|] eqn:Hg; [|done]. intros _. by apply dir_get_elem. Qed.

Lemma datasets_of_ok t acc :
  accounts_ok t ->
  NoDup (map (fun d => name_key (da_dataset_name d.2)) (datasets_of t acc)) /\
  NoDup (datasets_of t acc).*1 /\
  (forall d a, d ∈ datasets_of t acc -> da_account_name d.2 = Some a -> a = acc) /\
  (forall id, id ∈ (datasets_of t acc).*1 -> id ∈ all_ids t).
Proof.
  intros Hok. destruct (dir_get t acc) as [l|] eqn:Hg.
  - pose proof (datasets_of_elem t acc ltac:(congruence)) as Hin. unfold datasets_of in *. rewrite Hg in *.
    simpl in *. destruct (dir_get_split _ _ _ Hg) as (t1 & t2 & Ht & _).
    split_and!; [by apply (ao_names _ Hok _ Hin)| |intros d a; by apply (ao_owner _ Hok _ _ _ Hin)|].
    + pose proof (ao_ids _ Hok) as Hi. fold (all_ids t) in Hi. rewrite Ht, all_ids_split in Hi.
      apply NoDup_app in Hi as (_ & _ & Hi). by apply NoDup_app in Hi as (? & _).
    + intros id Hid. rewrite Ht, all_ids_split. set_solver.
  - unfold datasets_of. rewrite Hg. simpl. split_and!; [constructor..|set_solver|set_solver].
Qed.

Lemma named_none n l : named n l = None -> name_key n ∉ map (fun d => name_key (da_dataset_name d.2)) l.
Proof.
  intros Hn (d & Hk & Hd%list_elem_of_In)%list_elem_of_fmap. apply (List.find_none _ _ Hn) in Hd.
  simpl in Hd. symmetry in Hk. apply name_eq_key in Hk. congruence.
Qed.

Lemma shows_id root t acc x : root_shows root t -> x ∈ datasets_of t acc -> id_ok x.1.
Proof.
  intros Hr Hx. pose proof (dir_get_account root t acc Hr) as Hg. unfold datasets_of in Hx.
  destruct (dir_get t acc) as [l|]; [|set_solver]. destruct Hg as (dir & _ & Hdir). simpl in Hx.
  eapply Forall2_Forall_r in Hdir; [|by apply Forall_true; intros e y (_ & Hy & _); exact Hy].
  rewrite Forall_forall in Hdir. by apply Hdir.
Qed.

(** A name that is taken is that of a dataset with a head. *)
Lemma taken_name root t alias acc h :
  repository_state root t -> acts_in t alias acc ->
  lookup_alias t acc (da_dataset_name alias) = Some h ->
  exists d hd, get_dataset_by_handle (E := CreateDatasetError) subject new_dataset root h = Ok d /\
    resolve_ref (dsi_metadata_chain d) BlockRef_Head = Ok hd.
Proof.
  intros [Hr Hok Hh] Ha. unfold lookup_alias.
  destruct (account_of t acc) as [x|] eqn:Hx; simpl; [|done].
  destruct (named _ x.2) as [[id a]|] eqn:Hn; simpl; [|done]. intros [= <-].
  pose proof (account_of_exact t acc x Hok Hx (ai_exact _ _ _ Ha x Hx)) as Hd.
  apply List.find_some in Hn as [Hin%list_elem_of_In _]. rewrite <- Hd in Hin.
  destruct (datasets_of_ok t acc Hok) as (_ & Hnd & Hown & _).
  pose proof (shows_id root t acc _ Hr Hin) as Hid. destruct (id_dir_name id Hid) as (m & Hm & _).
  assert (Hacc : default acc (da_account_name a) = acc).
  { destruct (da_account_name a) as [b|] eqn:Hb; [|done]. simpl. by apply (Hown (id, a)). }
  unfold get_dataset_by_handle, get_dataset_path, handle_as, alias_as, effective_account_name. simpl.
  rewrite Hacc, Hm. simpl.
  pose proof (dataset_at_shows root t acc id m Hr Hid Hm) as Hat.
  rewrite (dir_get_NoDup _ _ _ Hnd Hin) in Hat. destruct Hat as (d & Hat & _).
  destruct (Hh _ _ Hat) as [hd Hhd]. exists d, hd. rewrite Hat. split; [done|]. by apply head_is_resolve.
Qed.

(** * The operations *)

Lemma lookup_none_fresh t alias acc :
  accounts_ok t -> acts_in t alias acc -> lookup_alias t acc (da_dataset_name alias) = None ->
  name_key (da_dataset_name alias) ∉ map (fun d => name_key (da_dataset_name d.2)) (datasets_of t acc).
Proof.
  intros Hok Ha Hl. unfold lookup_alias in Hl. destruct (account_of t acc) as [x|] eqn:Hx; simpl in Hl.
  - rewrite (account_of_exact t acc x Hok Hx (ai_exact _ _ _ Ha x Hx)).
    destruct (named _ x.2) eqn:Hn; [done|]. by apply named_none.
  - unfold datasets_of. apply find_account_none in Hx.
    destruct (dir_get t acc) as [l|] eqn:Hg; [|set_solver]. exfalso.
    apply dir_get_elem in Hg. apply Hx, list_elem_of_fmap. by exists (acc, l).
Qed.

(** One dataset more. *)
Lemma add_accounts_ok t alias acc id :
  accounts_ok t -> acts_in t alias acc -> id ∉ all_ids t ->
  lookup_alias t acc (da_dataset_name alias) = None ->
  accounts_ok (dir_set t acc (datasets_of t acc ++ [(id, alias)])).
Proof.
  intros Hok Ha Hid Hl. pose proof (lookup_none_fresh t alias acc Hok Ha Hl) as Hf.
  destruct (datasets_of_ok t acc Hok) as (Hn & Hi & Ho & Hsub).
  apply accounts_ok_set; [done|apply Ha|..].
  - rewrite map_app. apply NoDup_app. split_and!; [done| |apply NoDup_singleton].
    intros k Hk ->%list_elem_of_singleton. done.
  - rewrite fmap_app. apply NoDup_app. split_and!; [done| |apply NoDup_singleton]. simpl.
    intros k Hk ->%list_elem_of_singleton. auto.
  - intros d a [Hd| ->%list_elem_of_singleton]%elem_of_app; [by apply Ho|]. simpl. intros Hda.
    pose proof (ai_account _ _ _ Ha) as Hacc. by rewrite Hda in Hacc.
  - intros i. rewrite fmap_app. simpl. intros [?| ->%list_elem_of_singleton]%elem_of_app; auto.
Qed.

Lemma layout_create root t acc m :
  root_shows root t -> dataset_at root (text (an_str acc), m) = None ->
  DatasetLayout_create new_dataset root (text (an_str acc), m) =
    Ok (new_dataset, put_dataset root (text (an_str acc), m) new_dataset).
Proof.
  intros Hr Hn. unfold DatasetLayout_create. rewrite Hn. simpl.
  pose proof (dir_get_account root t acc Hr) as Hg. destruct (dir_get t acc) as [l|]; [|by rewrite Hg].
  by destruct Hg as (dir & -> & _).
Qed.

Lemma put_twice root p d d' : put_dataset (put_dataset root p d) p d' = put_dataset root p d'.
Proof.
  unfold put_dataset. destruct (dir_get root p.1) as [[dir|]|]; rewrite dir_get_set, decide_True by done;
    rewrite !dir_set_set; [done|..]; simpl; by rewrite decide_True.
Qed.

Lemma free_path root t acc id m :
  root_shows root t -> accounts_ok t -> id_ok id -> DidOdf_as_multibase (did_did id) = Ok m -> id ∉ all_ids t ->
  dataset_at root (text (an_str acc), m) = None.
Proof.
  intros Hr Hok Hid Hm Hn. pose proof (dataset_at_shows root t acc id m Hr Hid Hm) as Hat.
  destruct (dir_get (datasets_of t acc) id) as [a|] eqn:Hg; [|done]. exfalso. apply Hn.
  apply (datasets_of_ok t acc Hok). apply dir_get_elem in Hg. apply list_elem_of_fmap. by exists (id, a).
Qed.

Lemma create_shows `{!LawfulBlockRepo BR, !LawfulRefRepo RR} fuel root t alias acc s :
  repository_state root t -> acts_in t alias acc -> alias_ok alias -> 0 < fuel ->
  head_is (dsi_metadata_chain new_dataset) None ->
  id_ok (sd_dataset_id (mbt_event s)) -> sd_dataset_id (mbt_event s) ∉ all_ids t ->
  mbt_prev_block_hash s = None ->
  lookup_alias t acc (da_dataset_name alias) = None ->
  exists m x root', DidOdf_as_multibase (did_did (sd_dataset_id (mbt_event s))) = Ok m /\
    create_dataset subject new_dataset fuel root alias s = Some (x, root') /\
    (forall p, p <> (text (an_str acc), m) -> dataset_at root' p = dataset_at root p) /\
    forall h head, x = Ok (h, head) ->
      h = mkDatasetHandle (sd_dataset_id (mbt_event s)) alias /\
      repository_state root' (dir_set t acc (datasets_of t acc ++ [(sd_dataset_id (mbt_event s), alias)])) /\
      exists d, dataset_at root' (text (an_str acc), m) = Some d /\
        chain_state (dsi_metadata_chain d) [(head, seed_block s)].
Proof.
  intros [Hr Hok Hh] Ha Halias Hf Hnew Hid Hfresh Hprev Hl. set (id := sd_dataset_id (mbt_event s)) in *.
  destruct (id_dir_name id Hid) as (m & Hm & _). exists m.
  unfold create_dataset, check_name_is_free, resolve_dataset_ref.
  rewrite (resolve_alias_shows root t alias acc Hr Hok (effective_acts _ _ _ Ha)), Hl. simpl.
  rewrite (canonical_acts root t alias acc Hr Hok Ha), (path_acts t alias acc id m Ha Hm).
  unfold create_dataset_at.
  rewrite (layout_create root t acc m Hr (free_path root t acc id m Hr Hok Hid Hm Hfresh)).
  destruct (append_seed fuel (dsi_metadata_chain new_dataset) (seed_block s) Hf Hprev I)
    as (x & c & Hap & Hx & _ & Hnp). rewrite Hap.
  assert (Hframe : forall d p, p <> (text (an_str acc), m) ->
    dataset_at (put_dataset (put_dataset root (text (an_str acc), m) new_dataset) (text (an_str acc), m) d) p
      = dataset_at root p).
  { intros d p Hp. rewrite put_twice, dataset_at_put. by rewrite decide_False. }
  destruct x as [head|e|]; [|eexists _, _; split_and!; [done|done|auto|done]..].
  destruct (Hx head eq_refl) as (_ & Hst & _).
  destruct (save_dataset_alias (with_chain new_dataset c) alias) as [y d] eqn:Hs. simpl. rewrite Hs.
  destruct (saved_alias_set _ _ _ _ Halias Hs) as [Hc Hy]. simpl in Hc.
  eexists _, _. split_and!; [done|done|auto|].
  intros h hd Hok'. destruct y as [[]| |]; [|done..]. injection Hok' as <- <-. rewrite put_twice.
  assert (Hat : dataset_at (put_dataset root (text (an_str acc), m) d) (text (an_str acc), m) = Some d)
    by by rewrite dataset_at_put, decide_True.
  split_and!; [done| |exists d; by rewrite Hc]. split.
  - assert (datasets_of t acc ++ [(id, alias)] = dir_set (datasets_of t acc) id alias) as ->.
    { rewrite dir_set_new; [done|]. intros Hin. by apply Hfresh, (datasets_of_ok t acc Hok). }
    apply put_shows; [done|apply Ha|]. split_and!; auto.
  - by apply add_accounts_ok.
  - intros p d'. rewrite dataset_at_put. case_decide; [|by apply Hh]. intros [= <-]. rewrite Hc.
    exists head. apply Hst.
Qed.

Lemma create_taken fuel root t alias acc s h :
  repository_state root t -> acts_in t alias acc ->
  lookup_alias t acc (da_dataset_name alias) = Some h ->
  create_dataset subject new_dataset fuel root alias s =
    Some (Err (CreateDatasetError_NameCollision alias), root).
Proof.
  intros Hst Ha Hl. destruct (taken_name root t alias acc h Hst Ha Hl) as (d & hd & Hd & Hhd).
  destruct Hst as [Hr Hok _]. unfold create_dataset, check_name_is_free, resolve_dataset_ref.
  rewrite (resolve_alias_shows root t alias acc Hr Hok (effective_acts _ _ _ Ha)), Hl. simpl.
  rewrite Hd. simpl. by rewrite Hhd.
Qed.

Lemma dir_set_fst {K V} `{!EqDecision K} (l : list (K * V)) n x y :
  dir_get l n = Some x -> (dir_set l n y).*1 = l.*1.
Proof. intros (l1 & l2 & -> & _ & ->)%dir_get_split. by rewrite !fmap_app. Qed.

Lemma dir_set_elem {K V} `{!EqDecision K} (l : list (K * V)) n y e :
  e ∈ dir_set l n y -> e = (n, y) \/ e ∈ l.
Proof.
  destruct (dir_get l n) as [x|] eqn:Hg.
  - apply dir_get_split in Hg as (l1 & l2 & -> & _ & ->). set_solver.
  - apply dir_get_none in Hg. rewrite dir_set_new by done. set_solver.
Qed.

(** The names stay distinct when one becomes a new one. *)
Lemma NoDup_rename {K V N} `{!EqDecision K} (f : K * V -> N) (l : list (K * V)) n x y :
  dir_get l n = Some x -> NoDup (map f l) -> f (n, y) ∉ map f l -> NoDup (map f (dir_set l n y)).
Proof.
  intros (l1 & l2 & -> & _ & ->)%dir_get_split. rewrite !map_app. simpl.
  intros (N1 & D & [_ N2]%NoDup_cons)%NoDup_app Hf. apply NoDup_app.
  split_and!; [done| |apply NoDup_cons; split; [set_solver|done]].
  intros k Hk. specialize (D k Hk). set_solver.
Qed.

Lemma rename_accounts_ok t alias acc id a n :
  accounts_ok t -> acts_in t alias acc -> dir_get (datasets_of t acc) id = Some a ->
  lookup_alias t acc n = None ->
  accounts_ok (dir_set t acc (dir_set (datasets_of t acc) id (mkDatasetAlias (da_account_name alias) n))).
Proof.
  intros Hok Ha Hg Hl. destruct (datasets_of_ok t acc Hok) as (Hn & Hi & Ho & Hsub).
  assert (Ha' : acts_in t (mkDatasetAlias (da_account_name alias) n) acc) by by destruct Ha.
  pose proof (lookup_none_fresh t _ acc Hok Ha' Hl) as Hf.
  apply accounts_ok_set; [done|apply Ha|..].
  - by eapply NoDup_rename.
  - by rewrite (dir_set_fst _ _ _ _ Hg).
  - intros d b [->|Hd]%dir_set_elem; [|by apply Ho]. simpl. intros Hda.
    pose proof (ai_account _ _ _ Ha) as Hacc. by rewrite Hda in Hacc.
  - intros i. rewrite (dir_set_fst _ _ _ _ Hg). auto.
Qed.

Lemma rename_shows root t alias acc id a n :
  repository_state root t -> acts_in t alias acc -> dir_get (datasets_of t acc) id = Some a ->
  alias_ok (mkDatasetAlias (da_account_name alias) n) ->
  exists x root', rename_dataset subject root (mkDatasetHandle id alias) n = (x, root') /\
    match lookup_alias t acc n with
    | Some _ => root' = root /\
        x = Err (RenameDatasetError_NameCollision (mkDatasetAlias (da_account_name alias) n))
    | None => x = Ok tt -> repository_state root'
        (dir_set t acc (dir_set (datasets_of t acc) id (mkDatasetAlias (da_account_name alias) n)))
    end.
Proof.
  intros [Hr Hok Hh] Ha Hg Halias.
  assert (Ha' : acts_in t (mkDatasetAlias (da_account_name alias) n) acc) by by destruct Ha.
  unfold rename_dataset. simpl.
  rewrite (resolve_alias_shows root t _ acc Hr Hok (effective_acts _ _ _ Ha')). simpl.
  destruct (lookup_alias t acc n) as [h|] eqn:Hl; [by eauto|]. unfold handle_dataset_renamed, not_found.
  pose proof (shows_id root t acc _ Hr (dir_get_elem _ _ _ Hg)) as Hid. simpl in Hid.
  destruct (id_dir_name id Hid) as (m & Hm & _). rewrite (path_acts t alias acc id m Ha Hm).
  pose proof (dataset_at_shows root t acc id m Hr Hid Hm) as Hat. rewrite Hg in Hat.
  destruct Hat as (d & Hat & _). rewrite Hat. simpl.
  destruct (save_dataset_alias d _) as [y d'] eqn:Hs.
  destruct (saved_alias_set _ _ _ _ Halias Hs) as [Hc Hy].
  eexists _, _. split; [done|]. intros Hx. destruct y as [[]| |]; [|done..]. split.
  - apply put_shows; [done|apply Ha|]. split_and!; auto.
  - by eapply rename_accounts_ok.
  - intros p d2. rewrite dataset_at_put. case_decide; [|by apply Hh]. intros [= <-]. rewrite Hc.
    by eapply Hh.
Qed.

Lemma remove_accounts_ok t alias acc id :
  accounts_ok t -> acts_in t alias acc -> accounts_ok (dir_set t acc (dir_remove (datasets_of t acc) id)).
Proof.
  intros Hok Ha. destruct (datasets_of_ok t acc Hok) as (Hn & Hi & Ho & Hsub). unfold dir_remove.
  assert (Hs : filter (fun e : DatasetID * DatasetAlias => e.1 <> id) (datasets_of t acc)
                 `sublist_of` datasets_of t acc) by apply sublist_filter.
  apply accounts_ok_set; [done|apply Ha|..].
  - eapply sublist_NoDup; [exact Hn|]. by apply (fmap_sublist (fun d => name_key (da_dataset_name d.2))).
  - eapply sublist_NoDup; [exact Hi|]. by apply (fmap_sublist fst).
  - intros d a [_ Hd]%list_elem_of_filter. by apply Ho.
  - intros i (d & -> & [_ Hd]%list_elem_of_filter)%list_elem_of_fmap. left.
    apply list_elem_of_fmap. by exists d.
Qed.

Lemma delete_shows root t alias acc id :
  repository_state root t -> acts_in t alias acc -> id_ok id ->
  exists x root', delete_dataset subject root (mkDatasetHandle id alias) = (x, root') /\
    match dir_get (datasets_of t acc) id with
    | Some _ => x = Ok tt /\ repository_state root' (dir_set t acc (dir_remove (datasets_of t acc) id))
    | None => x = Err (DeleteDatasetError_Internal mkInternalError) /\ root' = root
    end.
Proof.
  intros [Hr Hok Hh] Ha Hid. destruct (id_dir_name id Hid) as (m & Hm & _). unfold delete_dataset.
  rewrite (path_acts t alias acc id m Ha Hm). simpl.
  pose proof (dir_get_account root t acc Hr) as Hg. unfold datasets_of.
  destruct (dir_get t acc) as [l|] eqn:Ht; simpl; [|by rewrite Hg; eauto].
  destruct Hg as (dir & Hd & Hdir). rewrite Hd.
  pose proof (dir_get_dataset dir l id m Hdir Hid Hm) as Hx.
  destruct (dir_get l id) as [a|] eqn:Hl; [|by rewrite Hx; eauto]. destruct Hx as (d & -> & _).
  eexists _, _. split; [done|]. split; [done|]. split.
  - apply root_set; [done|apply Ha|]. by apply datasets_remove.
  - pose proof (remove_accounts_ok t alias acc id Hok Ha) as Hrem. unfold datasets_of in Hrem.
    by rewrite Ht in Hrem.
  - intros [p1 p2] d'. unfold dataset_at. simpl. rewrite dir_get_set.
    case_decide as Hp; [|by apply (Hh (p1, p2))]. subst p1. rewrite dir_get_remove. case_decide; [done|]. intros Hin.
    apply (Hh (text (an_str acc), p2)). unfold dataset_at. simpl. by rewrite Hd.
Qed.
End Facts.

(** * The repository as a workspace *)

Section Workspace.
Context {C : BlockCodec} `{LawfulTextCodecs} `{!TextBytes} `{!LawfulTextBytes} {BR RR DR CR IR : Type}
        `{!MetadataBlockRepository BR} `{!ReferenceRepository RR} `{!NamedObjectRepository IR}
        `{!LawfulBlockRepo BR} `{!LawfulRefRepo RR} `{!LawfulInfoRepo IR}.

Abbreviation Dataset := (DatasetImpl BR RR DR CR IR).
Abbreviation Root := (directory (RootEntry (BR := BR) (RR := RR) (DR := DR) (CR := CR) (IR := IR))).

Variable subject : CurrentAccountSubject.
Variable new_dataset : Dataset.

Definition path_of (h : DatasetHandle) : option (str * str) :=
  match get_dataset_path (E := unit) subject h with Ok p => Some p | _ => None end.

Definition local_chain (root : Root) (h : DatasetHandle) : MetadataChainImpl BR RR :=
  dsi_metadata_chain (default new_dataset (p ← path_of h; dataset_at root p)).

Definition local_with_chain (h : DatasetHandle) (c : MetadataChainImpl BR RR) (root : Root) : Root :=
  match path_of h with
  | Some p => put_dataset root p (with_chain (default new_dataset (dataset_at root p)) c)
  | None => root
  end.

(** A seed is put on an empty chain: one turn of the traversal is enough
    ([append_seed]). *)
#[local] Instance local_workspace : DatasetWorkspace Root BR RR := {|
  dw_resolve_dataset_ref := resolve_dataset_ref subject;
  dw_create_dataset alias s root :=
    match create_dataset subject new_dataset 1 root alias s with
    | Some r => r
    | None => (Panic, root)
    end;
  dw_rename_dataset h n root := rename_dataset subject root h n;
  dw_delete_dataset h root := delete_dataset subject root h;
  dw_chain := local_chain;
  dw_with_chain := local_with_chain
|}.

Lemma path_of_ok {E} h p : get_dataset_path (E := E) subject h = Ok p -> path_of h = Some p.
Proof.
  unfold path_of, get_dataset_path, effective_account_name.
  destruct (da_account_name _) as [a|]; [|destruct subject]; simpl; try done;
    by destruct (DidOdf_as_multibase _) as [m| |]; [intros [= ->]|..].
Qed.

Lemma local_chain_put root p d h :
  local_chain (put_dataset root p d) h =
    if decide (path_of h = Some p) then dsi_metadata_chain d else local_chain root h.
Proof.
  unfold local_chain. destruct (path_of h) as [q|] eqn:Hq; simpl; [|done].
  rewrite dataset_at_put. destruct (decide (p = q)) as [->|Hne]; [by rewrite decide_True|].
  by rewrite decide_False by congruence.
Qed.

Lemma create_at_seed root h p b r root' :
  mb_prev_block_hash b = None -> supported b -> path_of h = Some p ->
  create_dataset_at new_dataset 1 root h p b = Some (Ok r, root') ->
  exists head, r = (h, head) /\ chain_state (local_chain root' h) [(head, b)] /\ Multihash_wf head /\
    forall o, path_of o <> path_of h -> local_chain root' o = local_chain root o.
Proof.
  intros Hp Hs Hpath. unfold create_dataset_at.
  destruct (DatasetLayout_create new_dataset root p) as [[d root1]| |] eqn:Hl; [|done..].
  assert (Hroot1 : root1 = put_dataset root p d).
  { revert Hl. unfold DatasetLayout_create. by destruct (dir_get root p.1) as [[]|]; intros [= <- <-]. }
  destruct (append_seed 1 (dsi_metadata_chain d) b ltac:(lia) Hp Hs) as (x & c & -> & Hx & _).
  destruct x as [head| |]; [|done..]. destruct (Hx head eq_refl) as (_ & Hst & Hwf).
  destruct (save_dataset_alias _ _) as [y d'] eqn:Hsave.
  assert (Hc : dsi_metadata_chain d' = c).
  { revert Hsave. unfold save_dataset_alias. destruct (nr_set _ _ _). by intros [= _ <-]. }
  intros [= Hr <-]. destruct y as [[]| |]; [|done..]. injection Hr as <-. exists head.
  rewrite local_chain_put, decide_True, Hc by done. split_and!; [done..|]. intros o Ho.
  rewrite Hroot1, put_twice, local_chain_put, decide_False by congruence. done.
Qed.

#[local] Instance local_workspace_lawful : LawfulDatasetWorkspace Root BR RR.
Proof.
  refine {| dw_place h := is_Some (path_of h); dw_apart h o := path_of o <> path_of h |}.
  - intros alias s root h head root' Hp. simpl. unfold create_dataset.
    destruct (let! _ := _ in _) as [p|e|] eqn:Hpath; [|done..].
    destruct (create_dataset_at _ _ _ _ _ _) as [[x root2]|] eqn:Hc; [|done].
    assert (Hok : get_dataset_path (E := CreateDatasetError) subject
        (mkDatasetHandle (sd_dataset_id (mbt_event s)) (canonical_dataset_alias root alias)) = Ok p).
    { revert Hpath. by destruct (check_name_is_free _ _ _ _) as [[]| |]. }
    apply path_of_ok in Hok. intros [= -> <-].
    destruct (create_at_seed root _ p (seed_block s) _ _ Hp I Hok Hc) as (hd & [= -> ->] & Hst & Hwf & Ho).
    split_and!; [by eexists|done|done|done|done].
  - intros h c root [p Hp]. simpl. unfold local_with_chain. rewrite Hp.
    by rewrite local_chain_put, decide_True.
  - intros h o c root Ho. simpl. unfold local_with_chain. destruct (path_of h) as [p|]; [|done].
    by rewrite local_chain_put, decide_False.
Defined.
End Workspace.
