(* ===== verification/UseCases.v ===== *)
(** The use cases that change datasets and announce the changes
    (src/infra/core/src/use_cases, src/domain/core/src/use_cases): creating,
    renaming and deleting datasets, committing an event, and appending a batch of
    blocks that came from another repository.

    The authorizer and the outbox are parameters; a message that was posted is
    noted in the world.  A use case is one step: the database transaction
    around it is left out. *)

From S2P Require Import Prelude Multiformats Grammar Dids Identity References Dtos ChainRepos ObjectRepoFs.
From S2P Require Import MetadataChain ChainVisitors ChainValidators ChainRules ChainAppend ChainInvariants.
From S2P Require Import Dataset EventSourcing TaskSystem FlowSystem Messages FlowTimeWheel FlowStore.
From S2P Require Import FlowService Sync SyncFacts DatasetChanges DependencyGraph DatasetOwnership Snapshots.

(** * Messages *)

(** [S] is what the use case works on. *)
Record UseCaseWorld (S : Type) := mkUseCaseWorld {
  ucw_state : S;
  ucw_posted : list DatasetLifecycleMessage
}.
Arguments mkUseCaseWorld {S}.
Arguments ucw_state {S}.
Arguments ucw_posted {S}.

Definition message_created (dataset_id : DatasetID) (owner_account_id : AccountID)
    (dataset_visibility : DatasetVisibility) : DatasetLifecycleMessage :=
  DatasetLifecycleMessage_Created
    (mkDatasetLifecycleMessageCreated dataset_id owner_account_id dataset_visibility).

Definition message_dependencies_updated (dataset_id : DatasetID) (new_upstream_ids : list DatasetID)
    : DatasetLifecycleMessage :=
  DatasetLifecycleMessage_DependenciesUpdated
    (mkDatasetLifecycleMessageDependenciesUpdated dataset_id new_upstream_ids).

Definition message_deleted (dataset_id : DatasetID) : DatasetLifecycleMessage :=
  DatasetLifecycleMessage_Deleted (mkDatasetLifecycleMessageDeleted dataset_id).

Section Posting.
Variable outbox_post : DatasetLifecycleMessage -> res InternalError unit.

Definition post_message {S} (message : DatasetLifecycleMessage) : action (UseCaseWorld S) InternalError unit :=
  fun w =>
    match outbox_post message with
    | Ok _ => (Ok tt, mkUseCaseWorld (ucw_state w) (ucw_posted w ++ [message]))
    | r => (r, w)
    end.

(** The inputs of a dataset, if there are new ones. *)
Definition post_dependencies {S} (dataset_id : DatasetID) (new_upstream_ids : list DatasetID)
    : action (UseCaseWorld S) InternalError unit :=
  match new_upstream_ids with
  | [] => mret tt
  | _ => post_message (message_dependencies_updated dataset_id new_upstream_ids)
  end.
End Posting.

(** [?] on an error of another type. *)
Definition with_error {W E F A} (f : E -> F) (m : action W E A) : action W F A := fun w =>
  let '(x, w') := m w in (map_err f x, w').

(** * Errors *)

Definition AppendError_from_SetRefError (v : SetRefError) : AppendError :=
  match v with
  | SetRefError_BlockNotFound _ => AppendError_Internal mkInternalError
  | SetRefError_CASFailed e => AppendError_RefCASFailed e
  | SetRefError_Access e => AppendError_Access e
  | SetRefError_Internal e => AppendError_Internal e
  end.

Definition CommitError_from_Unauthorized (v : DatasetActionUnauthorizedError) : CommitError :=
  match v with
  | DatasetActionUnauthorizedError_Access e => CommitError_Access e
  | DatasetActionUnauthorizedError_Internal e => CommitError_Internal e
  end.

Definition RenameDatasetError_from_Unauthorized (v : DatasetActionUnauthorizedError) : RenameDatasetError :=
  match v with
  | DatasetActionUnauthorizedError_Access e => RenameDatasetError_Access e
  | DatasetActionUnauthorizedError_Internal e => RenameDatasetError_Internal e
  end.

Definition DeleteDatasetError_from_Unauthorized (v : DatasetActionUnauthorizedError) : DeleteDatasetError :=
  match v with
  | DatasetActionUnauthorizedError_Access e => DeleteDatasetError_Access e
  | DatasetActionUnauthorizedError_Internal e => DeleteDatasetError_Internal e
  end.

Definition RenameDatasetError_from_Get (v : GetDatasetError) : RenameDatasetError :=
  match v with
  | GetDatasetError_NotFound e => RenameDatasetError_NotFound e
  | GetDatasetError_Internal e => RenameDatasetError_Internal e
  end.

Definition DeleteDatasetError_from_Get (v : GetDatasetError) : DeleteDatasetError :=
  match v with
  | GetDatasetError_NotFound e => DeleteDatasetError_NotFound e
  | GetDatasetError_Internal e => DeleteDatasetError_Internal e
  end.

(** * Datasets of a repository *)

Section Repository.
Context {C : BlockCodec} {TC : TextCodecs} {W BR RR : Type} `{!MetadataBlockRepository BR}
        `{!ReferenceRepository RR} `{!DatasetWorkspace W BR RR}.

Variable current_account_subject : CurrentAccountSubject.
Variable outbox_post : DatasetLifecycleMessage -> res InternalError unit.
Variable check_action_allowed : DatasetHandle -> DatasetAction -> res DatasetActionUnauthorizedError unit.

Abbreviation World := (UseCaseWorld W).

(** A call of the repository. *)
Definition on_repo {E A} (m : action W E A) : action World E A := fun w =>
  let '(x, r) := m (ucw_state w) in (x, mkUseCaseWorld r (ucw_posted w)).

(** The owner of what is created. *)
Definition creator_id {E} : res E AccountID :=
  match current_account_subject with
  | CurrentAccountSubject_Anonymous _ => Panic
  | CurrentAccountSubject_Logged l => Ok (la_account_id l)
  end.

Definition create_dataset_execute (dataset_alias : DatasetAlias) (seed : MetadataBlockTyped Seed)
    (dataset_visibility : DatasetVisibility)
    : action World CreateDatasetError (DatasetHandle * Multihash) :=
  create_result ← on_repo (dw_create_dataset dataset_alias seed);
  owner ← lift creator_id;
  _ ← with_error CreateDatasetError_Internal
        (post_message outbox_post (message_created (dh_id create_result.1) owner dataset_visibility));
  mret create_result.

(** The messages about a dataset that was created from a snapshot. *)
Definition announce_created (r : CreateDatasetFromSnapshotResult) (dataset_visibility : DatasetVisibility)
    : action World CreateDatasetFromSnapshotError CreateDatasetFromSnapshotResult :=
  owner ← lift creator_id;
  _ ← with_error CreateDatasetFromSnapshotError_Internal
        (post_message outbox_post (message_created (dh_id (cds_dataset_handle r)) owner dataset_visibility));
  _ ← with_error CreateDatasetFromSnapshotError_Internal
        (post_dependencies outbox_post (dh_id (cds_dataset_handle r)) (cds_new_upstream_ids r));
  mret r.

Definition create_dataset_from_snapshot_execute (debug_event : MetadataEvent -> string)
    (show_validation_error : AppendValidationError -> string) (fuel : nat) (generated_id : DatasetID)
    (system_time : DateTime) (snapshot : DatasetSnapshot) (dataset_visibility : DatasetVisibility) (w : World)
    : option (res CreateDatasetFromSnapshotError CreateDatasetFromSnapshotResult * World) :=
  match create_dataset_from_snapshot_impl debug_event show_validation_error fuel generated_id snapshot
          system_time (ucw_state w) with
  | Some (Ok r, repo) => Some (announce_created r dataset_visibility (mkUseCaseWorld repo (ucw_posted w)))
  | Some (Err e, repo) => Some (Err e, mkUseCaseWorld repo (ucw_posted w))
  | Some (Panic, repo) => Some (Panic, mkUseCaseWorld repo (ucw_posted w))
  | None => None
  end.

Definition rename_dataset_execute (dataset_ref : DatasetRef) (new_name : DatasetName)
    : action World RenameDatasetError unit := fun w =>
  (dataset_handle ← lift (map_err RenameDatasetError_from_Get
                            (dw_resolve_dataset_ref (ucw_state w) dataset_ref));
   _ ← lift (map_err RenameDatasetError_from_Unauthorized
               (check_action_allowed dataset_handle DatasetAction_Write));
   on_repo (dw_rename_dataset dataset_handle new_name)) w.

(** ** Deletion *)

Section Deletion.
Context {G Ix Ex : Type} `{Countable Ix} `{!DiGraph G Ix Ex}.

Variable dependencies : option DatasetDependenciesIDStream.

Abbreviation DeletionWorld := (UseCaseWorld (W * DependencyGraphState G Ix)).

(** The handles of the dependents. *)
Fixpoint resolve_children (repo : W) (ids : list DatasetID) : res DeleteDatasetError (list DatasetHandle) :=
  match ids with
  | [] => Ok []
  | id :: rest =>
      let! hdl := map_err DeleteDatasetError_Internal
                    (int_err (dw_resolve_dataset_ref repo (DatasetRef_ID id))) in
      let! hdls := resolve_children repo rest in
      Ok (hdl :: hdls)
  end.

Definition ensure_no_dangling_references (dataset_handle : DatasetHandle)
    : action DeletionWorld DeleteDatasetError unit := fun w =>
  let '(x, graph) := get_downstream_dependencies dependencies (dh_id dataset_handle) (ucw_state w).2 in
  let w' := mkUseCaseWorld ((ucw_state w).1, graph) (ucw_posted w) in
  (let! downstream_dataset_ids := map_err DeleteDatasetError_Internal (int_err x) in
   match downstream_dataset_ids with
   | [] => Ok tt
   | _ =>
       let! children := resolve_children (ucw_state w).1 downstream_dataset_ids in
       Err (DeleteDatasetError_DanglingReference (mkDanglingReferenceError dataset_handle children))
   end, w').

Definition delete_in_repo (dataset_handle : DatasetHandle) : action DeletionWorld DeleteDatasetError unit :=
  fun w =>
    let '(x, repo) := dw_delete_dataset dataset_handle (ucw_state w).1 in
    (x, mkUseCaseWorld (repo, (ucw_state w).2) (ucw_posted w)).

Definition delete_execute_via_handle (dataset_handle : DatasetHandle)
    : action DeletionWorld DeleteDatasetError unit :=
  _ ← lift (map_err DeleteDatasetError_from_Unauthorized
              (check_action_allowed dataset_handle DatasetAction_Write));
  _ ← ensure_no_dangling_references dataset_handle;
  _ ← delete_in_repo dataset_handle;
  with_error DeleteDatasetError_Internal
    (post_message outbox_post (message_deleted (dh_id dataset_handle))).

Definition delete_execute_via_ref (dataset_ref : DatasetRef) : action DeletionWorld DeleteDatasetError unit :=
  fun w =>
    (dataset_handle ← lift (map_err DeleteDatasetError_from_Get
                              (dw_resolve_dataset_ref (ucw_state w).1 dataset_ref));
     delete_execute_via_handle dataset_handle) w.
End Deletion.
End Repository.

(** * One dataset *)

Section OneDataset.
Context {C : BlockCodec} {SC : SummaryCodec} {DH : DataHash} {BR RR DR CR IR : Type}
        `{!MetadataBlockRepository BR} `{!ReferenceRepository RR} `{!ObjectRepository DR}
        `{!ObjectRepository CR} `{!NamedObjectRepository IR}.

Variable outbox_post : DatasetLifecycleMessage -> res InternalError unit.
Variable check_action_allowed : DatasetHandle -> DatasetAction -> res DatasetActionUnauthorizedError unit.

Abbreviation Dataset := (DatasetImpl BR RR DR CR IR).
Abbreviation World := (UseCaseWorld Dataset).

(** The dataset is the one of the handle. *)
Definition commit_event_execute (fuel : nat) (now : DateTime) (dataset_handle : DatasetHandle)
    (event : MetadataEvent) (opts : CommitOpts) (w : World)
    : option (res CommitError CommitResult * World) :=
  match check_action_allowed dataset_handle DatasetAction_Write with
  | Ok _ =>
      match commit_event fuel (ucw_state w) now event opts with
      | Some (Ok commit_result, d) =>
          Some ((_ ← with_error CommitError_Internal
                       (post_dependencies outbox_post (dh_id dataset_handle)
                          (cmr_new_upstream_ids commit_result));
                 mret commit_result) (mkUseCaseWorld d (ucw_posted w)))
      | Some (Err e, d) => Some (Err e, mkUseCaseWorld d (ucw_posted w))
      | Some (Panic, d) => Some (Panic, mkUseCaseWorld d (ucw_posted w))
      | None => None
      end
  | Err e => Some (Err (CommitError_from_Unauthorized e), w)
  | Panic => Some (Panic, w)
  end.

(** ** A batch of blocks *)

Definition batch_append_opts (hash : Multihash) : AppendOpts :=
  mkAppendOpts AppendValidation_Full None true None None (Some hash).

(** Only the latest inputs count; references that are not resolved are left for
    the chain to refuse. *)
Definition batch_upstream_ids (event : MetadataEvent) (new_upstream_ids : list DatasetID) : list DatasetID :=
  match event with
  | MetadataEvent_SetTransform transform =>
      omap (fun new_input => DatasetRef_id (ti_dataset_ref new_input)) (st_inputs transform)
  | _ => new_upstream_ids
  end.

Fixpoint append_new_blocks (fuel : nat) (c : MetadataChainImpl BR RR) (new_upstream_ids : list DatasetID)
    (new_blocks : list HashedMetadataBlock)
    : option (res AppendError (list DatasetID) * MetadataChainImpl BR RR) :=
  match new_blocks with
  | [] => Some (Ok new_upstream_ids, c)
  | (hash, block) :: rest =>
      match append fuel c block (batch_append_opts hash) with
      | Some (Ok _, c') =>
          append_new_blocks fuel c' (batch_upstream_ids (mb_event block) new_upstream_ids) rest
      | Some (Err e, c') => Some (Err e, c')
      | Some (Panic, c') => Some (Panic, c')
      | None => None
      end
  end.

(** From [if !new_upstream_ids.is_empty()] on. *)
Definition announce_batch (fuel : nat) (new_upstream_ids : list DatasetID) (w : World)
    : option (res AppendError unit * World) :=
  match new_upstream_ids with
  | [] => Some (Ok tt, w)
  | _ =>
      match get_summary fuel (ucw_state w) GetSummaryOpts_default with
      | Some (Ok summary, d) =>
          Some (with_error AppendError_Internal
                  (post_message outbox_post (message_dependencies_updated (dsu_id summary) new_upstream_ids))
                  (mkUseCaseWorld d (ucw_posted w)))
      | Some (Err _, d) => Some (Err (AppendError_Internal mkInternalError), mkUseCaseWorld d (ucw_posted w))
      | Some (Panic, d) => Some (Panic, mkUseCaseWorld d (ucw_posted w))
      | None => None
      end
  end.

Definition append_metadata_batch_execute (fuel : nat) (new_blocks : list HashedMetadataBlock)
    (force_update_if_diverged : bool) (w : World) : option (res AppendError unit * World) :=
  match head new_blocks, last new_blocks with
  | Some (_, front), Some (new_head, _) =>
      let with_new_chain c := mkUseCaseWorld (with_chain (ucw_state w) c) (ucw_posted w) in
      match append_new_blocks fuel (dsi_metadata_chain (ucw_state w)) [] new_blocks with
      | Some (Ok new_upstream_ids, c) =>
          let '(x, c') := set_ref c BlockRef_Head new_head
                            (mkSetRefOpts false
                               (if force_update_if_diverged then None else Some (mb_prev_block_hash front))) in
          match map_err AppendError_from_SetRefError x with
          | Ok _ => announce_batch fuel new_upstream_ids (with_new_chain c')
          | Err e => Some (Err e, with_new_chain c')
          | Panic => Some (Panic, with_new_chain c')
          end
      | Some (Err e, c) => Some (Err e, with_new_chain c)
      | Some (Panic, c) => Some (Panic, with_new_chain c)
      | None => None
      end
  | _, _ => Some (Ok tt, w)
  end.
End OneDataset.

(** * Announced dependencies *)

(** The datasets a chain reads: the inputs of its latest transform. *)
Definition chain_dependencies (l : list HashedMetadataBlock) : list DatasetID :=
  default [] (option_map dependencies_of (latest SetTransform l)).

Definition announced (id : DatasetID) (ids : list DatasetID) : list DatasetLifecycleMessage :=
  match ids with [] => [] | _ => [message_dependencies_updated id ids] end.

(** The latest inputs among the given blocks, oldest first. *)
Definition batch_inputs (ids : list DatasetID) (bs : list HashedMetadataBlock) : list DatasetID :=
  foldl (fun ids hb => batch_upstream_ids (mb_event hb.2) ids) ids bs.

Lemma dependencies_cons h b l :
  chain_dependencies ((h, b) :: l) = batch_upstream_ids (mb_event b) (chain_dependencies l).
Proof. unfold chain_dependencies, latest. simpl. by destruct (mb_event b). Qed.

Lemma valid_inputs h b l t :
  valid_chain ((h, b) :: l) -> mb_event b = MetadataEvent_SetTransform t -> dependencies_of t <> [].
Proof.
  inversion 1 as [|? ? ? _ Hv _]; subst. intros He.
  destruct (vn_set_transform _ _ Hv t He) as (Hne & Hf & _). unfold dependencies_of.
  destruct (st_inputs t) as [|i rest]; [done|]. apply Forall_cons in Hf as [[[id Hi] _] _].
  simpl. by rewrite Hi.
Qed.

(** What the new blocks announce are the dependencies of the new chain; when
    they announce nothing, those of the chain they stand on have not changed. *)
Lemma batch_dependencies bs l :
  valid_chain (rev bs ++ l) ->
  chain_dependencies (rev bs ++ l) =
    match batch_inputs [] bs with [] => chain_dependencies l | ids => ids end.
Proof.
  induction bs as [|[h b] bs IH] using rev_ind; [done|]. rewrite rev_app_distr. simpl. intros Hv.
  unfold batch_inputs in *. rewrite foldl_app, dependencies_cons. simpl.
  assert (Hv' : valid_chain (rev bs ++ l)) by by inversion Hv. specialize (IH Hv').
  destruct (mb_event b) as [| | | |t| | | | | | | |] eqn:He; simpl; try exact IH.
  pose proof (valid_inputs _ _ _ _ Hv He) as Hne. unfold dependencies_of in Hne.
  by destruct (omap _ (st_inputs t)).
Qed.

Section Posted.
Variable outbox_post : DatasetLifecycleMessage -> res InternalError unit.

Lemma post_message_spec {S} m (w : UseCaseWorld S) x w' :
  post_message outbox_post m w = (x, w') ->
  ucw_state w' = ucw_state w /\
  (x = Ok tt /\ ucw_posted w' = ucw_posted w ++ [m] \/ is_ok x = false /\ ucw_posted w' = ucw_posted w).
Proof.
  unfold post_message. destruct (outbox_post m); intros [= <- <-]; (split; [done|]); auto.
Qed.

Lemma post_dependencies_spec {S} id ids (w : UseCaseWorld S) x w' :
  post_dependencies outbox_post id ids w = (x, w') ->
  ucw_state w' = ucw_state w /\
  (x = Ok tt /\ ucw_posted w' = ucw_posted w ++ announced id ids \/
   is_ok x = false /\ ucw_posted w' = ucw_posted w /\ ids <> []).
Proof.
  unfold post_dependencies. destruct ids as [|i ids]; simpl.
  - intros [= <- <-]. rewrite app_nil_r. auto.
  - intros [Hs Hp]%post_message_spec. split; [done|]. destruct Hp as [[-> ->]|[? ->]]; auto.
Qed.
End Posted.

(** * A batch of blocks *)

(** Each block names the one before it. *)
Fixpoint consecutive (o : option Multihash) (bs : list HashedMetadataBlock) : Prop :=
  match bs with
  | [] => True
  | (h, b) :: rest => mb_prev_block_hash b = o /\ consecutive (Some h) rest
  end.

Section Batch.
Context {C : BlockCodec} {SC : SummaryCodec} {BR RR DR CR IR : Type}
        `{!MetadataBlockRepository BR} `{!ReferenceRepository RR} `{!NamedObjectRepository IR}
        `{!LawfulBlockRepo BR} `{!LawfulRefRepo RR} `{!SummaryCodecLaws SC} `{!LawfulInfoRepo IR}.

Implicit Types (c : MetadataChainImpl BR RR) (l old bs : list HashedMetadataBlock).

Lemma append_batch_blocks fuel h old bs : forall c l ids,
  pending c h l -> linked (meta_block_repo c) (Some h) old -> consecutive (head_hash l) bs ->
  Forall (fun hb => supported hb.2) bs -> length l + length bs <= fuel ->
  NoDup (rev bs ++ l).*1 -> (forall x, x ∈ bs.*1 -> x ∉ old.*1) ->
  exists x c', append_new_blocks fuel c ids bs = Some (x, c') /\
    linked (meta_block_repo c') (Some h) old /\ head_is c' (Some h) /\
    match x with
    | Ok ids' => ids' = batch_inputs ids bs /\ pending c' h (rev bs ++ l)
    | Err _ => True
    | Panic => False
    end.
Proof.
  induction bs as [|[hash b] bs IH]; intros c l ids Hpd Hold Hc Hs Hf Hnd Hnew; simpl in *.
  { eexists _, _. split; [done|]. split_and!; [done|apply Hpd|done|done]. }
  destruct Hc as [Hp Hc]. apply Forall_cons in Hs as [Hsb Hs].
  rewrite <- app_assoc in Hnd. simpl in Hnd.
  assert (Hfresh : hash ∉ l.*1).
  { rewrite fmap_app in Hnd. apply NoDup_app in Hnd as (_ & _ & Hnd). simpl in Hnd.
    by apply NoDup_cons in Hnd as [? _]. }
  destruct (append_unpublished fuel c h l b (batch_append_opts hash) hash) as (x & c1 & Ha & Hx);
    [done|done|done| |done|done|lia|done|done|].
  { intros h' r' Hi. by eapply insert_expected. }
  rewrite Ha. destruct x as [h'|e|]; [| |done].
  - destruct Hx as (-> & Hpd1 & Hframe).
    destruct (IH c1 ((hash, b) :: l) (batch_upstream_ids (mb_event b) ids)) as (x & c2 & Hr & Ho2 & Hh2 & Hx);
      [done| |done|done|simpl; lia|done|set_solver|].
    { apply Hframe; [apply Hnew; left|done]. }
    exists x, c2. rewrite <- app_assoc. by split_and!.
  - subst c1. eexists _, _. split; [done|]. split_and!; [done|apply Hpd|done].
Qed.

Lemma last_head bs l h b : last bs = Some (h, b) -> head_hash (rev bs ++ l) = Some h.
Proof.
  intros (bs' & ->)%last_Some. by rewrite rev_app_distr.
Qed.

Lemma batch_pending c l1 l2 h :
  chain_state c (l1 ++ l2) -> head_hash (l1 ++ l2) = Some h -> (forall x, x ∈ l2 -> Multihash_wf x.1) ->
  pending c h l2.
Proof.
  intros [Hhead Hl Hv] Hh Hwf. split; [by rewrite <- Hh|by eapply linked_suffix|by eapply valid_chain_app|].
  intros h' Hh'. destruct l2 as [|x l2]; [done|]. injection Hh' as <-. apply Hwf. by left.
Qed.

Lemma announce_batch_spec outbox fuel (d : DatasetImpl BR RR DR CR IR) l ids posted prev :
  chain_state (dsi_metadata_chain d) l -> l <> [] -> length l < fuel ->
  read_summary d = Ok prev -> summary_valid prev l ->
  exists x w', announce_batch outbox fuel ids (mkUseCaseWorld d posted) = Some (x, w') /\
    dsi_metadata_chain (ucw_state w') = dsi_metadata_chain d /\
    exists s, summary_of l = Some s /\
      (x = Ok tt /\ ucw_posted w' = posted ++ announced (dsu_id s) ids \/
       is_ok x = false /\ ucw_posted w' = posted /\ ids <> []).
Proof.
  intros Hst Hne Hf Hread Hsum.
  destruct (get_summary_ok fuel d l prev Hst Hne Hf Hread Hsum) as (s & y & d' & Hs & Hg & Hch & Hy).
  unfold announce_batch. destruct ids as [|i ids].
  { eexists _, _. split; [done|]. split; [done|]. exists s. split; [done|]. left. by rewrite app_nil_r. }
  cbn [ucw_state]. rewrite Hg. destruct y as [s'|e|].
  - assert (s' = s) as -> by (destruct Hy as [[[= ->] _]|[_ ?]]; done).
    unfold with_error. destruct (post_message _ _ _) as [z w'] eqn:Hp.
    destruct (post_message_spec _ _ _ _ _ Hp) as [Hst' Hz]. simpl in *.
    eexists _, _. split; [done|]. rewrite Hst'. split; [done|]. exists s. split; [done|].
    destruct Hz as [[-> ->]|[Hz ->]]; [by left|]. right. by destruct z.
  - eexists _, _. split; [done|]. split; [done|]. exists s. split; [done|]. by right.
  - eexists _, _. split; [done|]. split; [done|]. exists s. split; [done|]. by right.
Qed.

(** A batch is appended as a whole, or the head is where it was. *)
Lemma batch_appended outbox fuel (d : DatasetImpl BR RR DR CR IR) l1 l2 bs force posted prev :
  chain_state (dsi_metadata_chain d) (l1 ++ l2) -> l2 <> [] -> bs <> [] -> consecutive (head_hash l2) bs ->
  Forall (fun hb => supported hb.2) bs -> length l2 + length bs < fuel ->
  NoDup (rev bs ++ l1 ++ l2).*1 -> (forall x, x ∈ l2 -> Multihash_wf x.1) ->
  read_summary d = Ok prev -> summary_valid prev (rev bs ++ l2) ->
  exists x w', append_metadata_batch_execute outbox fuel bs force (mkUseCaseWorld d posted) = Some (x, w') /\
    ((is_ok x = false /\ chain_state (dsi_metadata_chain (ucw_state w')) (l1 ++ l2) /\
      ucw_posted w' = posted) \/
     ((force = true \/ head_hash l2 = head_hash (l1 ++ l2)) /\
      chain_state (dsi_metadata_chain (ucw_state w')) (rev bs ++ l2) /\
      exists s, summary_of (rev bs ++ l2) = Some s /\
        (x = Ok tt /\ ucw_posted w' = posted ++ announced (dsu_id s) (batch_inputs [] bs) \/
         is_ok x = false /\ ucw_posted w' = posted /\ batch_inputs [] bs <> []))).
Proof.
  intros Hst Hne2 Hne Hc Hs Hf Hnd Hwf Hread Hsum.
  assert (Hold : l1 ++ l2 <> []) by (destruct l1; [done|by simpl]).
  destruct (chain_state_head _ _ Hst Hold) as (h & _ & Hh & Hl).
  pose proof (batch_pending (dsi_metadata_chain d) l1 l2 h Hst Hh Hwf) as Hpd.
  destruct (append_batch_blocks fuel h (l1 ++ l2) bs (dsi_metadata_chain d) l2 [] Hpd Hl Hc Hs ltac:(lia))
    as (x & c & Ha & Hlc & Hhc & Hx).
  { eapply sublist_NoDup; [exact Hnd|]. apply fmap_sublist, sublist_app; [done|].
    by apply sublist_inserts_l. }
  { intros y Hy. rewrite fmap_app in Hnd. apply NoDup_app in Hnd as (_ & Hd & _). apply Hd.
    apply list_elem_of_In. setoid_rewrite map_rev. apply -> in_rev. by apply list_elem_of_In. }
  assert (Hkept : chain_state c (l1 ++ l2)).
  { split; [by rewrite Hh|by rewrite Hh|apply Hst]. }
  destruct bs as [|[h1 front] rest]; [done|]. destruct (last ((h1, front) :: rest)) as [[new_head b]|] eqn:Hlast.
  2: by apply last_None in Hlast.
  unfold append_metadata_batch_execute. rewrite Hlast. cbn [head ucw_state ucw_posted]. rewrite Ha.
  destruct x as [ids|e|]; [|eexists _, _; split; [done|by left]|done]. destruct Hx as [-> Hpd'].
  destruct Hc as [Hprev _]. rewrite Hprev.
  destruct (set_ref _ _ _ _) as [y c2] eqn:Hset.
  pose proof (publish_pending _ _ _ _ _ _ _ Hpd' (last_head _ _ _ _ Hlast) Hset) as Hy.
  destruct y as [[]|e|]; simpl; [|subst c2; eexists _, _; split; [done|by left]|done].
  destruct Hy as [Hst2 Hexp].
  destruct (announce_batch_spec outbox fuel (with_chain d c2) (rev ((h1, front) :: rest) ++ l2)
    (batch_inputs [] ((h1, front) :: rest)) posted prev) as (x & w' & Han & Hch & s & Hsm & Hp); try done.
  { by destruct (rev ((h1, front) :: rest)), l2. }
  { rewrite length_app, length_rev. simpl in *. lia. }
  exists x, w'. split; [exact Han|]. right. split_and!; [|by rewrite Hch|by exists s].
  destruct force; [by left|]. right. rewrite Hh. by apply Hexp.
Qed.
End Batch.

(** * Deletion *)

Section DeletionFacts.
Context {C : BlockCodec} {W BR RR : Type} `{!DatasetWorkspace W BR RR}.

(** What resolving the dependents leads to. *)
Lemma resolve_children_spec (repo : W) ids :
  match resolve_children repo ids with
  | Ok hdls => Forall2 (fun id hdl => dw_resolve_dataset_ref repo (DatasetRef_ID id) = Ok hdl) ids hdls
  | Err e => e = DeleteDatasetError_Internal mkInternalError /\
      exists id, id ∈ ids /\ is_ok (dw_resolve_dataset_ref repo (DatasetRef_ID id)) = false
  | Panic => exists id, id ∈ ids /\ dw_resolve_dataset_ref repo (DatasetRef_ID id) = Panic
  end.
Proof.
  induction ids as [|id ids IH]; simpl; [constructor|].
  destruct (dw_resolve_dataset_ref repo (DatasetRef_ID id)) as [hdl|e|] eqn:Hr; simpl.
  - destruct (resolve_children repo ids) as [hdls|e|]; simpl.
    + by constructor.
    + destruct IH as (-> & id' & ? & ?). split; [done|]. exists id'. split; [by right|done].
    + destruct IH as (id' & ? & ?). exists id'. split; [by right|done].
  - split; [done|]. exists id. split; [by left|by rewrite Hr].
  - exists id. split; [by left|done].
Qed.

Context {G Ix Ex : Type} `{Countable Ix} `{!DiGraph G Ix Ex} `{!LawfulDiGraph G Ix Ex}.
Implicit Types (st : DependencyGraphState G Ix).

Lemma downstream_spec dependencies st m id :
  represents st m -> dgs_initially_scanned st = true ->
  exists x, get_downstream_dependencies dependencies id st = (x, st) /\
    match x with
    | Ok l => id ∈ dm_nodes m /\ lists l (depends m id)
    | Err _ => ~ id ∈ dm_nodes m
    | Panic => False
    end.
Proof.
  intros Hr Hs. unfold get_downstream_dependencies, mbind, action_bind, scanned_or_error,
    ensure_datasets_initially_scanned, read, neighbor_ids, get_dataset_node. rewrite Hs. simpl.
  destruct (dgs_dataset_node_indices st !! id) as [i|] eqn:Hi; simpl.
  - destruct (neighbors_spec (E := GetDependenciesError) st m id i Direction_Outgoing Hr Hi) as (l & -> & Hl).
    exists (Ok l). split; [done|]. split; [|exact Hl]. apply (rp_nodes _ _ Hr). by exists i.
  - eexists. split; [done|]. simpl. rewrite (rp_nodes _ _ Hr), Hi. by intros [].
Qed.
End DeletionFacts.

(** * The graph follows the chains *)

(** The graph knows what the chain of the dataset reads. *)
Definition tracks (m : DependencyMap) (id : DatasetID) (l : list HashedMetadataBlock) : Prop :=
  id ∈ dm_nodes m /\ forall up, depends m up id <-> up ∈ chain_dependencies l.

(** Only what [id] reads differs. *)
Definition same_but (id : DatasetID) (m m' : DependencyMap) : Prop :=
  forall other up, other <> id -> depends m' up other <-> depends m up other.

Lemma depends_set_upstreams id ups m u v :
  depends (dm_set_upstreams id ups m) u v <-> v <> id /\ depends m u v \/ v = id /\ u ∈ ups.
Proof.
  unfold depends, dm_set_upstreams. simpl. rewrite elem_of_union, elem_of_filter, elem_of_map. simpl.
  split; [intros [?|(x & [= -> ->] & ?)]; auto|]. intros [?|[-> ?]]; [by left|right; by exists u].
Qed.

Lemma depends_delete id m u v :
  depends (dm_delete id m) u v <-> depends m u v /\ u <> id /\ v <> id.
Proof. unfold depends, dm_delete. simpl. rewrite elem_of_filter. simpl. tauto. Qed.

Section Following.
Context {G Ix Ex : Type} `{Countable Ix} `{!DiGraph G Ix Ex} `{!LawfulDiGraph G Ix Ex}.
Implicit Types (st : DependencyGraphState G Ix).

Lemma consume_known st m message :
  represents st m -> message_known message m ->
  exists st', dg_consume_message message st = (Ok tt, st') /\ represents st' (message_spec message m).
Proof.
  intros Hr Hk. destruct (consume_message_refines st m message Hr) as (x & st' & Hc & _ & Hx).
  rewrite decide_True in Hx by done. destruct Hx as [-> Hr']. by exists st'.
Qed.

(** Once the announcement is consumed, the graph has the dependencies of the new
    chain. *)
Lemma announced_tracks st m id l l' ids :
  represents st m -> tracks m id l ->
  chain_dependencies l' = match ids with [] => chain_dependencies l | _ => ids end ->
  exists st' m', for_each dg_consume_message (announced id ids) st = (Ok tt, st') /\
    represents st' m' /\ tracks m' id l' /\ same_but id m m'.
Proof.
  intros Hr [Hk Ht] Hl. destruct ids as [|i ids].
  - exists st, m. split_and!; [done|done|split; [done|by rewrite Hl]|by intros ???].
  - destruct (consume_known st m (message_dependencies_updated id (i :: ids)) Hr Hk) as (st' & Hc & Hr').
    exists st', (dm_set_upstreams id (list_to_set (i :: ids)) m).
    cbn [announced for_each]. unfold mbind, action_bind. rewrite Hc.
    split_and!; [done|exact Hr'| |].
    + split; [simpl; set_solver|]. intros up. rewrite depends_set_upstreams, Hl, elem_of_list_to_set. tauto.
    + intros other up Ho. rewrite depends_set_upstreams. tauto.
Qed.
End Following.

(** ** Seeds *)

(** The dataset a chain is about. *)
Definition chain_id (l : list HashedMetadataBlock) : option DatasetID :=
  option_map sd_dataset_id (latest Seed l).

Lemma chain_id_app l1 l2 : valid_chain (l1 ++ l2) -> l2 <> [] -> chain_id (l1 ++ l2) = chain_id l2.
Proof.
  intros Hv Hne. unfold chain_id. pose proof (no_seed_above l1 l2 Hv Hne) as Hn.
  unfold latest in *. rewrite find_map_app. by rewrite Hn.
Qed.

Lemma summary_chain_id l s : summary_of l = Some s -> chain_id l = Some (dsu_id s).
Proof.
  unfold summary_of, chain_id. destruct (head_hash l), (latest Seed l); [|done..]. by intros [= <-].
Qed.

Lemma snapshot_dependencies block_hash t n events l :
  chain_dependencies (snapshot_chain block_hash t n events l) = last_upstream events (chain_dependencies l).
Proof.
  revert n l. induction events as [|e events IH]; intros n l; [done|]. simpl. rewrite IH.
  by rewrite dependencies_cons.
Qed.

(** A new dataset, once its creation and its inputs are announced. *)
Lemma created_tracks {G Ix Ex : Type} `{Countable Ix} `{!DiGraph G Ix Ex} `{!LawfulDiGraph G Ix Ex}
    (st : DependencyGraphState G Ix) m id owner visibility l ids :
  represents st m -> ~ id ∈ dm_nodes m -> chain_dependencies l = ids ->
  exists st' m', for_each dg_consume_message (message_created id owner visibility :: announced id ids) st
      = (Ok tt, st') /\
    represents st' m' /\ tracks m' id l /\ same_but id m m'.
Proof.
  intros Hr Hn Hl.
  destruct (consume_known st m (message_created id owner visibility) Hr I) as (st1 & Hc & Hr1).
  assert (Ht : tracks (dm_add id m) id []).
  { split; [simpl; set_solver|]. intros up. split; [|by intros ?%elem_of_nil]. intros He. exfalso. apply Hn.
    apply (rp_edges _ _ Hr) in He as (i & j & _ & Hj & _). apply (rp_nodes _ _ Hr). by exists j. }
  destruct (announced_tracks st1 (dm_add id m) id [] l ids Hr1 Ht) as (st' & m' & Hc' & Hr' & Ht' & Hs).
  { rewrite Hl. by destruct ids. }
  exists st', m'. cbn [for_each]. unfold mbind, action_bind. rewrite Hc. split_and!; [exact Hc'|done..].
Qed.
