(* ===== verification/Transform.v ===== *)
(** Running the transform of a derivative dataset: what is read from the inputs,
    and how the result is committed.

    Sources: src/infra/core/src/transform_service_impl.rs,
    src/domain/core/src/services/transform_service.rs,
    src/domain/core/src/entities/engine.rs, the helpers for schemas in
    src/domain/opendatafabric/src/dtos/dtos_extra.rs and
    src/infra/ingest-datafusion/src/writer.rs.

    The Arrow library is third-party ([ArrowCrate]), engines are programs of their
    own ([Engines]), and the compaction service is a parameter.  The repository is
    a function from identifiers to datasets. *)

From S2P Require Import Prelude Multiformats Grammar Dids Identity Dtos ChainRepos ObjectRepoFs MetadataChain.
From S2P Require Import ChainVisitors ChainValidators ChainRules ChainAppend ChainInvariants Dataset.
From S2P Require Import EventSourcing TaskSystem FlowSystem Messages FlowTimeWheel FlowStore FlowService DatasetChanges.
From stdpp Require Import functions.

(** * Fallible code with fuel *)

Definition fuelled (E A : Type) : Type := option (res E A).

Definition fuelled_bind {E A B} (m : fuelled E A) (k : A -> fuelled E B) : fuelled E B :=
  match m with
  | Some (Ok a) => k a
  | Some (Err e) => Some (Err e)
  | Some Panic => Some Panic
  | None => None
  end.

Declare Scope fuelled_scope.
Notation "'let?' x ':=' m 'in' k" := (fuelled_bind m (fun x => k))
  (at level 10, x pattern, m at level 100, k at level 200) : fuelled_scope.
Local Open Scope fuelled_scope.

(** [.int_err()?] where the error is widened. *)
Definition internal_as {E F A} (f : InternalError -> F) (m : res E A) : res F A := map_err f (int_err m).

(** * Schemas *)

Class ArrowCrate := {
  SchemaRef : Type;
  Field : Type;
  arrow_fields : SchemaRef -> list Field;
  (** name, data type and metadata *)
  field_same : Field -> Field -> bool;
  schema_to_fb : SchemaRef -> list u8;
  SchemaError : Type;
  fb_to_schema : list u8 -> res SchemaError SchemaRef
}.

Section Schemas.
Context {A : ArrowCrate}.

Definition SetDataSchema_new (schema : SchemaRef) : SetDataSchema := mkSetDataSchema (schema_to_fb schema).
Definition schema_as_arrow (e : SetDataSchema) : res SchemaError SchemaRef := fb_to_schema (sds_schema e).

Record IncompatibleSchemaError := mkIncompatibleSchemaError {
  ise_message : string;
  ise_prev_schema : SchemaRef;
  ise_new_schema : SchemaRef
}.

Definition is_schema_equivalent (lhs rhs : SchemaRef) : bool :=
  bool_decide (length (arrow_fields lhs) = length (arrow_fields rhs)) &&
  forallb (fun '(l, r) => field_same l r) (zip (arrow_fields lhs) (arrow_fields rhs)).

Definition validate_output_schema_equivalence (prev_schema new_schema : SchemaRef)
    : res IncompatibleSchemaError unit :=
  if negb (is_schema_equivalent prev_schema new_schema)
  then Err (mkIncompatibleSchemaError
              "Schema of the new slice differs from the schema defined by SetDataSchema event"
              prev_schema new_schema)
  else Ok tt.
End Schemas.

(** * Requests *)

Section Requests.
Context {C : BlockCodec} {A : ArrowCrate}.

Record TransformRequestInputExt := mkTransformRequestInputExt {
  tie_dataset_handle : DatasetHandle;
  tie_alias : string;
  tie_vocab : DatasetVocabulary;
  tie_prev_block_hash : option Multihash;
  tie_new_block_hash : option Multihash;
  tie_prev_offset : option u64;
  tie_new_offset : option u64;
  tie_schema : SchemaRef;
  tie_data_slices : list Multihash;
  tie_explicit_watermarks : list Watermark
}.

Record TransformRequestExt := mkTransformRequestExt {
  tre_operation_id : string;
  tre_dataset_handle : DatasetHandle;
  tre_block_ref : BlockRef;
  tre_head : Multihash;
  tre_transform : Transform;
  tre_system_time : DateTime;
  tre_schema : option SchemaRef;
  tre_prev_offset : option u64;
  tre_inputs : list TransformRequestInputExt;
  tre_vocab : DatasetVocabulary;
  tre_prev_checkpoint : option Multihash
}.

Record TransformResponseExt := mkTransformResponseExt {
  trs_new_offset_interval : option OffsetInterval;
  trs_new_watermark : option DateTime;
  trs_output_schema : option SchemaRef;
  trs_new_checkpoint : option Bytes;
  trs_new_data : option Bytes
}.

Definition ExecuteTransformInput_from (val : TransformRequestInputExt) : ExecuteTransformInput :=
  mkExecuteTransformInput (dh_id (tie_dataset_handle val)) (tie_prev_block_hash val)
    (tie_new_block_hash val) (tie_prev_offset val) (tie_new_offset val).
End Requests.

(** [EngineProvisioner] and [Engine]. *)
Class Engines `{C : BlockCodec} `{A : ArrowCrate} := {
  Engine : Type;
  EngineProvisioningError : Type;
  EngineError : Type;
  provision_engine : string -> res EngineProvisioningError Engine;
  execute_transform : Engine -> TransformRequestExt -> res EngineError TransformResponseExt
}.

Inductive TransformResult :=
| TransformResult_UpToDate
| TransformResult_Updated (old_head new_head : Multihash).

Record TransformOptions := mkTransformOptions { top_reset_derivatives_on_diverged_input : bool }.

Record InputSchemaNotDefinedError := mkInputSchemaNotDefinedError { isn_dataset_handle : DatasetHandle }.

Inductive TransformError `{EN : Engines} :=
| TransformError_DatasetNotFound (e : DatasetNotFoundError)
| TransformError_TransformNotDefined
| TransformError_InputSchemaNotDefined (e : InputSchemaNotDefinedError)
| TransformError_EngineProvisioningError (e : EngineProvisioningError)
| TransformError_EngineError (e : EngineError)
| TransformError_CommitError (e : CommitError)
| TransformError_Access (e : AccessError)
| TransformError_InvalidInterval (e : InvalidIntervalError)
| TransformError_Internal (e : InternalError).

Definition TransformError_from_Get `{EN : Engines} (v : GetDatasetError) : TransformError :=
  match v with
  | GetDatasetError_NotFound e => TransformError_DatasetNotFound e
  | GetDatasetError_Internal e => TransformError_Internal e
  end.

Definition TransformError_from_Unauthorized `{EN : Engines} (v : DatasetActionUnauthorizedError)
    : TransformError :=
  match v with
  | DatasetActionUnauthorizedError_Access e => TransformError_Access e
  | DatasetActionUnauthorizedError_Internal e => TransformError_Internal e
  end.

(** * Planning *)

(** The four visitors of [get_next_operation]. *)
Inductive SourceVisitor :=
| SourceVisitor_transform (v : SearchSingleTypedBlockVisitor SetTransform)
| SourceVisitor_vocab (v : SearchSingleTypedBlockVisitor SetVocab)
| SourceVisitor_schema (v : SearchSingleTypedBlockVisitor SetDataSchema)
| SourceVisitor_query (v : SearchSingleTypedBlockVisitor ExecuteTransform).

#[export] Instance source_visitor : MetadataChainVisitor Infallible SourceVisitor := {|
  initial_decision v :=
    match v with
    | SourceVisitor_transform v => initial_decision v
    | SourceVisitor_vocab v => initial_decision v
    | SourceVisitor_schema v => initial_decision v
    | SourceVisitor_query v => initial_decision v
    end;
  visit v hb :=
    match v with
    | SourceVisitor_transform v => map_ok (fun x => (x.1, SourceVisitor_transform x.2)) (visit v hb)
    | SourceVisitor_vocab v => map_ok (fun x => (x.1, SourceVisitor_vocab x.2)) (visit v hb)
    | SourceVisitor_schema v => map_ok (fun x => (x.1, SourceVisitor_schema x.2)) (visit v hb)
    | SourceVisitor_query v => map_ok (fun x => (x.1, SourceVisitor_query x.2)) (visit v hb)
    end;
  finish _ := Ok tt
|}.

Definition source_visitors : list SourceVisitor :=
  [SourceVisitor_transform (SearchSingleTypedBlockVisitor_new SetTransform);
   SourceVisitor_vocab (SearchSingleTypedBlockVisitor_new SetVocab);
   SourceVisitor_schema (SearchSingleTypedBlockVisitor_new SetDataSchema);
   SourceVisitor_query (SearchSingleTypedBlockVisitor_new ExecuteTransform)].

Definition SetVocab_default : SetVocab := mkSetVocab None None None None.

(** [zip_eq]: a panic when the lengths differ. *)
Fixpoint zip_eq {E X Y} (l : list X) (k : list Y) : res E (list (X * Y)) :=
  match l, k with
  | [], [] => Ok []
  | x :: l, y :: k => let! rest := zip_eq l k in Ok ((x, y) :: rest)
  | _, _ => Panic
  end.

Section Planning.
Context `{EN : Engines} {BR RR DR CR IR : Type} `{!MetadataBlockRepository BR} `{!ReferenceRepository RR}.

Abbreviation Dataset := (DatasetImpl BR RR DR CR IR).

Variable resolve_dataset_ref : DatasetRef -> res GetDatasetError DatasetHandle.
Variable check_action_allowed : DatasetHandle -> DatasetAction -> res DatasetActionUnauthorizedError unit.
Variable fuel : nat.

(** [get_dataset_by_handle(..).as_metadata_chain()] *)
Definition chain_at (datasets : DatasetID -> Dataset) (hdl : DatasetHandle) : MetadataChainImpl BR RR :=
  dsi_metadata_chain (datasets (dh_id hdl)).

Implicit Types (datasets : DatasetID -> Dataset).

(** [find_dataset_by_ref] resolves the reference. *)
Definition get_vocab datasets (dataset_ref : DatasetRef) : fuelled InternalError DatasetVocabulary :=
  let? hdl := Some (int_err (resolve_dataset_ref dataset_ref)) in
  let? v := option_map int_err
              (accept_one fuel (chain_at datasets hdl) (SearchSingleTypedBlockVisitor_new SetVocab)) in
  Some (Ok (DatasetVocabulary_from_SetVocab (default SetVocab_default (into_event v)))).

Definition find_input_schema datasets (dataset_handle : DatasetHandle) : fuelled TransformError SchemaRef :=
  let? v := option_map (internal_as TransformError_Internal)
              (accept_one fuel (chain_at datasets dataset_handle)
                 (SearchSingleTypedBlockVisitor_new SetDataSchema)) in
  Some (match into_event v with
        | Some e => internal_as TransformError_Internal (schema_as_arrow e)
        | None => Err (TransformError_InputSchemaNotDefined (mkInputSchemaNotDefinedError dataset_handle))
        end).

Definition unprocessed_blocks (input_chain : MetadataChainImpl BR RR) (query_input : ExecuteTransformInput)
    : fuelled TransformError (list HashedMetadataBlock) :=
  match eti_new_block_hash query_input with
  | Some new_block_hash =>
      match iter_blocks_interval fuel input_chain new_block_hash (eti_prev_block_hash query_input) false with
      | Some (blocks, Ok _) => Some (Ok blocks)
      | Some (_, Err (IterBlocksError_InvalidInterval err)) => Some (Err (TransformError_InvalidInterval err))
      | Some (_, Err _) => Some (Err (TransformError_Internal mkInternalError))
      | Some (_, Panic) => Some Panic
      | None => None
      end
  | None => Some (Ok [])
  end.

(** The loop over [blocks_unprocessed.iter().rev().filter_map(..)]. *)
Definition data_blocks (blocks : list HashedMetadataBlock) : list MetadataBlockDataStream :=
  omap (fun hb => as_data_stream_block hb.2) (rev blocks).
Definition slices_in (blocks : list HashedMetadataBlock) : list Multihash :=
  omap (fun block => option_map ds_physical_hash (mds_new_data (mbd_event block))) (data_blocks blocks).
Definition watermarks_in (blocks : list HashedMetadataBlock) : list Watermark :=
  omap (fun block => option_map (mkWatermark (mbd_system_time block)) (mds_new_watermark (mbd_event block)))
    (data_blocks blocks).

Definition get_transform_input_from_query_input datasets (query_input : ExecuteTransformInput)
    (alias : string) (vocab_hint : option DatasetVocabulary) : fuelled TransformError TransformRequestInputExt :=
  let? dataset_handle := Some (internal_as TransformError_Internal
                                 (resolve_dataset_ref (DatasetRef_ID (eti_dataset_id query_input)))) in
  let? _ := Some (map_err TransformError_from_Unauthorized
                    (check_action_allowed dataset_handle DatasetAction_Read)) in
  let? schema := find_input_schema datasets dataset_handle in
  let? blocks := unprocessed_blocks (chain_at datasets dataset_handle) query_input in
  let? vocab := match vocab_hint with
                | Some v => Some (Ok v)
                | None => option_map (map_err TransformError_Internal)
                            (get_vocab datasets (DatasetRef_Handle dataset_handle))
                end in
  Some (Ok (mkTransformRequestInputExt dataset_handle alias vocab (eti_prev_block_hash query_input)
              (eti_new_block_hash query_input) (eti_prev_offset query_input) (eti_new_offset query_input)
              schema (slices_in blocks) (watermarks_in blocks))).

(** The interval that was not processed yet. *)
Definition next_query_input (dataset_id : DatasetID) (input_state : option ExecuteTransformInput)
    (last_unprocessed_block : Multihash) (last_data_offset : option u64) : ExecuteTransformInput :=
  let last_processed_block := input_state ≫= ExecuteTransformInput_last_block_hash in
  let last_processed_offset := input_state ≫= ExecuteTransformInput_last_offset in
  let last_unprocessed_offset := match last_data_offset with Some o => Some o | None => last_processed_offset end in
  mkExecuteTransformInput dataset_id last_processed_block
    (if decide (Some last_unprocessed_block <> last_processed_block) then Some last_unprocessed_block else None)
    last_processed_offset
    (if decide (last_unprocessed_offset <> last_processed_offset) then last_unprocessed_offset else None).

Definition get_transform_input datasets (input_decl : TransformInput) (input_state : option ExecuteTransformInput)
    : fuelled TransformError TransformRequestInputExt :=
  let? dataset_id := Some (unwrap (DatasetRef_id (ti_dataset_ref input_decl))) in
  let? _ := Some (match input_state with
                  | Some s => if decide (dataset_id = eti_dataset_id s) then Ok tt else Panic
                  | None => Ok tt
                  end) in
  let? dataset_handle := Some (internal_as TransformError_Internal
                                 (resolve_dataset_ref (DatasetRef_ID dataset_id))) in
  let input_chain := chain_at datasets dataset_handle in
  let? last_unprocessed_block := Some (internal_as TransformError_Internal
                                         (resolve_ref input_chain BlockRef_Head)) in
  let? v := option_map (internal_as TransformError_Internal)
              (accept_one_by_hash fuel (meta_block_repo input_chain) last_unprocessed_block
                 SearchSingleDataBlockVisitor_next) in
  let? alias := Some (unwrap (ti_alias input_decl)) in
  get_transform_input_from_query_input datasets
    (next_query_input dataset_id input_state last_unprocessed_block
       (ssd_into_event v ≫= MetadataEventDataStream_last_offset))
    alias None.

(** The stream of inputs, one after the other. *)
Fixpoint get_transform_inputs datasets (input_states : list (TransformInput * option ExecuteTransformInput))
    : fuelled TransformError (list TransformRequestInputExt) :=
  match input_states with
  | [] => Some (Ok [])
  | (input_decl, input_state) :: rest =>
      let? i := get_transform_input datasets input_decl input_state in
      let? inputs := get_transform_inputs datasets rest in
      Some (Ok (i :: inputs))
  end.

Definition input_states_of (source : SetTransform) (prev_query : option ExecuteTransform)
    : res TransformError (list (TransformInput * option ExecuteTransformInput)) :=
  match prev_query with
  | Some query => zip_eq (st_inputs source) (map Some (et_query_inputs query))
  | None => Ok (map (fun i => (i, None)) (st_inputs source))
  end.

Definition input_is_empty (i : TransformRequestInputExt) : bool :=
  match tie_data_slices i, tie_explicit_watermarks i with [], [] => true | _, _ => false end.

Definition get_next_operation datasets (operation_id : string) (dataset_handle : DatasetHandle)
    (system_time : DateTime) : fuelled TransformError (option TransformRequestExt) :=
  let output_chain := chain_at datasets dataset_handle in
  let? head := Some (internal_as TransformError_Internal (resolve_ref output_chain BlockRef_Head)) in
  let? visitors := option_map (internal_as TransformError_Internal)
                     (accept_by_hash fuel (meta_block_repo output_chain) source_visitors head) in
  match visitors with
  | [SourceVisitor_transform t; SourceVisitor_vocab v; SourceVisitor_schema s; SourceVisitor_query q] =>
      let prev_query := into_event q in
      let? schema := Some (match into_event s with
                           | Some e => let! a := internal_as TransformError_Internal (schema_as_arrow e) in Ok (Some a)
                           | None => Ok None
                           end) in
      let? source := Some (match into_event t with
                           | Some source => Ok source
                           | None => Err TransformError_TransformNotDefined
                           end) in
      let? input_states := Some (input_states_of source prev_query) in
      let? inputs := get_transform_inputs datasets input_states in
      if forallb input_is_empty inputs && is_some schema then Some (Ok None)
      else
        Some (Ok (Some (mkTransformRequestExt operation_id dataset_handle BlockRef_Head head
          (st_transform source) system_time schema (prev_query ≫= ExecuteTransform_last_offset) inputs
          (DatasetVocabulary_from_SetVocab (default SetVocab_default (into_event v)))
          (option_map cp_physical_hash (prev_query ≫= et_new_checkpoint)))))
  | _ => Some Panic
  end.
End Planning.

(** * Running and committing *)

Section Running.
Context `{EN : Engines} {SC : SummaryCodec} {DH : DataHash} {BR RR DR CR IR : Type}
        `{!MetadataBlockRepository BR} `{!ReferenceRepository RR} `{!ObjectRepository DR}
        `{!ObjectRepository CR} `{!NamedObjectRepository IR}.

Abbreviation Dataset := (DatasetImpl BR RR DR CR IR).

Variable fuel : nat.

Definition run_engine (request : TransformRequestExt) : res TransformError TransformResponseExt :=
  let! engine := map_err TransformError_EngineProvisioningError
                   (provision_engine (Transform_engine (tre_transform request))) in
  let! response := map_err TransformError_EngineError (execute_transform engine request) in
  if Bool.eqb (is_some (trs_new_offset_interval response)) (is_some (trs_new_data response))
  then Ok response else Panic.

Definition transform_commit_opts (request : TransformRequestExt) (new_head : Multihash) (check_object_refs : bool)
    : CommitOpts :=
  mkCommitOpts (tre_block_ref request) (Some (tre_system_time request)) (Some (Some new_head))
    check_object_refs true.

(** The head after the schema was validated, or set upon the first transform. *)
Definition commit_schema (d : Dataset) (now : DateTime) (request : TransformRequestExt)
    (response : TransformResponseExt) : option (res TransformError Multihash * Dataset) :=
  match tre_schema request, trs_output_schema response with
  | Some prev_schema, Some new_schema =>
      Some (let! _ := internal_as TransformError_Internal
                        (validate_output_schema_equivalence prev_schema new_schema) in
            Ok (tre_head request), d)
  | None, Some new_schema =>
      match commit_event fuel d now (MetadataEvent_SetDataSchema (SetDataSchema_new new_schema))
              (transform_commit_opts request (tre_head request) false) with
      | Some (x, d') =>
          Some (let! r := map_err TransformError_CommitError x in Ok (cmr_new_head r), d')
      | None => None
      end
  | _, None => Some (Ok (tre_head request), d)
  end.

Definition transform_params (request : TransformRequestExt) (response : TransformResponseExt)
    : ExecuteTransformParams :=
  mkExecuteTransformParams (map ExecuteTransformInput_from (tre_inputs request)) (tre_prev_checkpoint request)
    (tre_prev_offset request) (trs_new_offset_interval response) (trs_new_watermark response).

(** The head after the commit of the data; an event without effect is skipped. *)
Definition skip_no_op (new_head : Multihash) (x : res CommitError CommitResult) : res TransformError Multihash :=
  match x with
  | Ok r => Ok (cmr_new_head r)
  | Err (CommitError_MetadataAppendError (AppendError_InvalidBlock (AppendValidationError_NoOpEvent _))) =>
      Ok new_head
  | Err e => Err (TransformError_CommitError e)
  | Panic => Panic
  end.

(** [TransformServiceImpl::commit_execute_transform] *)
Definition commit_transform (d : Dataset) (now : DateTime) (request : TransformRequestExt)
    (response : TransformResponseExt) : option (res TransformError TransformResult * Dataset) :=
  match commit_schema d now request response with
  | Some (Ok new_head, d1) =>
      match commit_execute_transform fuel d1 now (transform_params request response) (trs_new_data response)
              (option_map CheckpointRef_New (trs_new_checkpoint response))
              (transform_commit_opts request new_head true) with
      | Some (x, d2) =>
          Some (let! new_head := skip_no_op new_head x in
                if decide (tre_head request = new_head) then Panic
                else Ok (TransformResult_Updated (tre_head request) new_head), d2)
      | None => None
      end
  | Some (Err e, d1) => Some (Err e, d1)
  | Some (Panic, d1) => Some (Panic, d1)
  | None => None
  end.

(** [do_transform], without its listener. *)
Definition do_transform (d : Dataset) (now : DateTime) (request : TransformRequestExt)
    : option (res TransformError TransformResult * Dataset) :=
  match run_engine request with
  | Ok response => commit_transform d now request response
  | Err e => Some (Err e, d)
  | Panic => Some (Panic, d)
  end.

(** ** The service *)

Variable resolve_dataset_ref : DatasetRef -> res GetDatasetError DatasetHandle.
Variable check_action_allowed : DatasetHandle -> DatasetAction -> res DatasetActionUnauthorizedError unit.
(** [compact_dataset] with [keep_metadata_only]. *)
Variable compact_to_metadata : DatasetHandle -> action (DatasetID -> Dataset) InternalError CompactionResult.

Implicit Types (datasets : DatasetID -> Dataset).

Abbreviation outcome := (option (res TransformError TransformResult * (DatasetID -> Dataset))).

(** One attempt; [on_diverged] is what happens when an input has diverged. *)
Definition transform_attempt (on_diverged : InvalidIntervalError -> DatasetHandle -> (DatasetID -> Dataset) -> outcome)
    (operation_id : string) (now : DateTime) (dataset_ref : DatasetRef) datasets : outcome :=
  match (let! dataset_handle := map_err TransformError_from_Get (resolve_dataset_ref dataset_ref) in
         let! _ := map_err TransformError_from_Unauthorized
                     (check_action_allowed dataset_handle DatasetAction_Write) in
         Ok dataset_handle) with
  | Ok dataset_handle =>
      match get_next_operation resolve_dataset_ref check_action_allowed fuel datasets operation_id
              dataset_handle now with
      | Some (Ok (Some operation)) =>
          match do_transform (datasets (dh_id dataset_handle)) now operation with
          | Some (x, d) => Some (x, <[dh_id dataset_handle := d]> datasets)
          | None => None
          end
      | Some (Ok None) => Some (Ok TransformResult_UpToDate, datasets)
      | Some (Err (TransformError_InputSchemaNotDefined _)) => Some (Ok TransformResult_UpToDate, datasets)
      | Some (Err (TransformError_InvalidInterval e)) => on_diverged e dataset_handle datasets
      | Some (Err e) => Some (Err e, datasets)
      | Some Panic => Some (Panic, datasets)
      | None => None
      end
  | Err e => Some (Err e, datasets)
  | Panic => Some (Panic, datasets)
  end.

(** The recursive call is made with the option switched off; it reads the clock
    and names its operation anew. *)
Definition transform_impl (options : TransformOptions) (operation_id operation_id' : string)
    (now now' : DateTime) (dataset_ref : DatasetRef) datasets : outcome :=
  let fail := fun e (_ : DatasetHandle) datasets => Some (Err (TransformError_InvalidInterval e), datasets) in
  if top_reset_derivatives_on_diverged_input options
  then transform_attempt (fun e dataset_handle datasets =>
         match compact_to_metadata dataset_handle datasets with
         | (Ok (CompactionResult_Success _ _ _ _), datasets') =>
             transform_attempt fail operation_id' now' dataset_ref datasets'
         | (Ok CompactionResult_NothingToDo, datasets') =>
             Some (Err (TransformError_InvalidInterval e), datasets')
         | (Err e, datasets') => Some (Err (TransformError_Internal e), datasets')
         | (Panic, datasets') => Some (Panic, datasets')
         end) operation_id now dataset_ref datasets
  else transform_attempt fail operation_id now dataset_ref datasets.

Definition get_active_transform datasets (dataset_ref : DatasetRef)
    : fuelled GetDatasetError (option (Multihash * MetadataBlockTyped SetTransform)) :=
  let? hdl := Some (resolve_dataset_ref dataset_ref) in
  let? v := option_map (internal_as GetDatasetError_Internal)
              (accept_one fuel (chain_at datasets hdl) (SearchSingleTypedBlockVisitor_new SetTransform)) in
  Some (Ok (sst_hashed_block v)).
End Running.
