(* ===== verification/TransformFacts.v ===== *)
(** What the planner of transforms reads, and why the events it leads to continue
    the chain of the output. *)

From S2P Require Import Prelude Multiformats Grammar Dids Identity Dtos ChainRepos ObjectRepoFs MetadataChain.
From S2P Require Import ChainVisitors ChainValidators ChainRules ChainAppend ChainInvariants Dataset.
From S2P Require Import EventSourcing TaskSystem FlowSystem Messages FlowTimeWheel FlowStore FlowService DatasetChanges.
From S2P Require Import Transform.

(** * Visitors inside a larger type *)

Section Embedding.
Context {E V U : Type} {I : MetadataChainVisitor E V} {J : MetadataChainVisitor E U}.
Variable f : V -> U.
Hypothesis f_initial : forall v, initial_decision (f v) = initial_decision v.
Hypothesis f_visit : forall v hb, visit (f v) hb = map_ok (fun x => (x.1, f x.2)) (visit v hb).
Hypothesis f_finish : forall v, finish (f v) = finish v.

Lemma run_one_embed l d v :
  run_one l (d, f v) = map_ok (fun x => (x.1, f x.2)) (run_one l (d, v)).
Proof.
  revert d v; induction l as [|hb l IH]; intros d v; [done|]. cbn [run_one].
  assert (Hs : step_visitor hb (d, f v) = map_ok (fun x => (x.1, (x.2.1, f x.2.2))) (step_visitor hb (d, v))).
  { destruct d; simpl; [done|..]; repeat case_match; simpl; try done; rewrite f_visit;
      by destruct (visit v hb) as [[]| |]. }
  rewrite Hs. destruct (step_visitor hb (d, v)) as [[s [d' v']]| |]; [apply IH|done..].
Qed.

Lemma run_visitor_embed l v : run_visitor l (f v) = map_ok f (run_visitor l v).
Proof.
  unfold run_visitor. rewrite f_initial, run_one_embed.
  destruct (run_one l (initial_decision v, v)) as [[d v']| |]; simpl; [|done..]. rewrite f_finish.
  by destruct (finish v') as [[]| |].
Qed.
End Embedding.

(** The latest event of a type, as the visitor returns it. *)
Definition found (T : Type) `{FlaggedVariant T} (l : list HashedMetadataBlock) : SearchSingleTypedBlockVisitor T :=
  mkSearchSingleTypedBlockVisitor (variant_flag (T := T))
    (find_map (fun hb : HashedMetadataBlock => option_map (pair hb.1) (into_typed hb.2)) l).

Lemma found_latest T `{FlaggedVariant T} l : into_event (found T l) = latest T l.
Proof.
  unfold into_event, found, latest. simpl. induction l as [|[h b] l IH]; [done|]. simpl.
  unfold into_typed. simpl. by destruct (into_variant (mb_event b)).
Qed.

Lemma run_source_visitors l :
  Forall2 (fun v v' => run_visitor l v = Ok v') source_visitors
    [SourceVisitor_transform (found SetTransform l); SourceVisitor_vocab (found SetVocab l);
     SourceVisitor_schema (found SetDataSchema l); SourceVisitor_query (found ExecuteTransform l)].
Proof.
  unfold source_visitors.
  repeat (constructor; [by rewrite run_visitor_embed, run_search_typed by done|]). constructor.
Qed.

(** * Inputs *)

Section Inputs.
Context `{EN : Engines} {BR RR DR CR IR : Type} `{!MetadataBlockRepository BR} `{!ReferenceRepository RR}.

Variable resolve_dataset_ref : DatasetRef -> res GetDatasetError DatasetHandle.
Variable check_action_allowed : DatasetHandle -> DatasetAction -> res DatasetActionUnauthorizedError unit.

Implicit Types (datasets : DatasetID -> DatasetImpl BR RR DR CR IR) (l new old : list HashedMetadataBlock).

Lemma slices_app new old : slices_in (new ++ old) = slices_in old ++ slices_in new.
Proof. unfold slices_in, data_blocks. by rewrite rev_app_distr, !omap_app. Qed.

(** [s] is the state of an input whose blocks [l] were processed. *)
Record processed (s : option ExecuteTransformInput) l : Prop := {
  pr_block : s ≫= ExecuteTransformInput_last_block_hash = head_hash l;
  pr_offset : s ≫= ExecuteTransformInput_last_offset = chain_last_offset l
}.

Lemma processed_none : processed None [].
Proof. done. Qed.

Lemma last_data_spec fuel (c : MetadataChainImpl BR RR) h l :
  linked (meta_block_repo c) (Some h) l -> length l < fuel ->
  exists v, accept_one_by_hash fuel (meta_block_repo c) h SearchSingleDataBlockVisitor_next = Some (Ok v) /\
    ssd_into_event v ≫= MetadataEventDataStream_last_offset = chain_last_offset l.
Proof.
  intros Hl Hf. eexists. split.
  - exact (accept_one_by_hash_run _ _ _ _ _ _ Hl Hf (run_search_data NextDataBlock l)).
  - unfold ssd_into_event, chain_last_offset, latest_data. simpl. f_equal.
    clear. induction l as [|hb l IH]; [done|]. simpl. unfold data_block_matches at 1, as_data_stream_block.
    by destruct (as_data_stream_event (mb_event hb.2)).
Qed.

(** A chain that has an offset keeps having one. *)
Lemma offset_stays new old : valid_chain (new ++ old) -> chain_last_offset (new ++ old) = None ->
  chain_last_offset old = None.
Proof.
  induction new as [|[h b] new IH]; [done|]. simpl. intros Hv Hn.
  inversion Hv as [|? ? ? _ Hnext Hv']; subst. apply IH; [done|].
  revert Hn. unfold chain_last_offset, latest_data. simpl.
  destruct (as_data_stream_event (mb_event b)) as [d|] eqn:Hd; [|done]. simpl. intros Hn.
  pose proof (vn_offsets _ _ Hnext d Hd) as [_ Ho]. unfold latest_data in Ho.
  destruct (find_map _ (new ++ old)) as [p|]; [|done]. simpl. rewrite <- (Ho p eq_refl).
  revert Hn. unfold MetadataEventDataStream_last_offset. by destruct (mds_new_data d).
Qed.

(** The next state continues where the previous one ended. *)
Lemma next_query_input_spec id s new old h :
  processed s old -> valid_chain (new ++ old) -> NoDup (new ++ old).*1 -> head_hash (new ++ old) = Some h ->
  let q := next_query_input id s h (chain_last_offset (new ++ old)) in
  processed (Some q) (new ++ old) /\ eti_dataset_id q = id /\
  eti_prev_block_hash q = head_hash old /\ eti_prev_offset q = chain_last_offset old /\
  eti_new_block_hash q = (if decide (new = []) then None else Some h) /\
  (forall p, s = Some p -> input_continues p q).
Proof.
  intros [Hb Ho] Hv Hnd Hh q.
  assert (Hnew : eti_new_block_hash q = if decide (new = []) then None else Some h).
  { unfold q, next_query_input. simpl. rewrite Hb. case_decide as H1; case_decide as H2; try done.
    - subst new. simpl in Hh. congruence.
    - exfalso. apply H2, (same_head new old Hnd). congruence. }
  assert (Hoff : (match chain_last_offset (new ++ old) with
                  | Some o => Some o | None => chain_last_offset old end) = chain_last_offset (new ++ old)).
  { destruct (chain_last_offset (new ++ old)) eqn:He; [done|]. by apply (offset_stays new old). }
  assert (Hnoff : eti_new_offset q =
    if decide (chain_last_offset (new ++ old) <> chain_last_offset old) then chain_last_offset (new ++ old) else None).
  { unfold q, next_query_input. simpl. by rewrite Ho, Hoff. }
  assert (Hpb : eti_prev_block_hash q = head_hash old) by exact Hb.
  assert (Hpo : eti_prev_offset q = chain_last_offset old) by exact Ho.
  split_and!; try done.
  - split; simpl; unfold ExecuteTransformInput_last_block_hash, ExecuteTransformInput_last_offset.
    + rewrite Hnew, Hpb. clear Hnoff Hnew. case_decide; [by subst|by rewrite Hh].
    + rewrite Hnoff, Hpo. clear Hnoff Hnew. case_decide as Hd; [|by rewrite Hd].
      destruct (chain_last_offset (new ++ old)) eqn:He; [done|]. by apply (offset_stays new old).
  - intros p ->. simpl in Hb, Ho. unfold input_continues. rewrite Hnew, Hnoff, Hpb, Hpo. clear Hnew Hnoff. split_and!.
    + intros h'. case_decide as Hd; [done|]. intros [= <-]. rewrite <- Hh. intros He. by apply Hd, (same_head new old Hnd).
    + intros o. case_decide as Hd; [|done]. congruence.
    + done.
    + done.
    + case_decide as Hd; [|by intros []]. case_decide; [by subst|eauto].
Qed.

(** The declared input is the dataset with the chain [l], which may be read. *)
Record readable datasets (decl : TransformInput) (id : DatasetID) (hdl : DatasetHandle) (alias : string) l : Prop := {
  rd_id : DatasetRef_id (ti_dataset_ref decl) = Some id;
  rd_alias : ti_alias decl = Some alias;
  rd_resolved : resolve_dataset_ref (DatasetRef_ID id) = Ok hdl;
  rd_handle : resolve_dataset_ref (DatasetRef_Handle hdl) = Ok hdl;
  rd_same : dh_id hdl = id;
  rd_allowed : check_action_allowed hdl DatasetAction_Read = Ok tt;
  rd_chain : chain_state (chain_at datasets hdl) l;
  rd_nonempty : l <> []
}.

Abbreviation input_of := (get_transform_input resolve_dataset_ref check_action_allowed).

Lemma accept_one_found T `{FlaggedVariant T} fuel (c : MetadataChainImpl BR RR) l :
  chain_state c l -> l <> [] -> length l < fuel ->
  accept_one fuel c (SearchSingleTypedBlockVisitor_new T) = Some (Ok (found T l)).
Proof.
  intros Hst Hne Hf. destruct (chain_state_head _ _ Hst Hne) as (h & Hr & _ & Hl).
  exact (accept_one_run _ _ _ _ _ _ Hr Hl Hf (run_search_typed l)).
Qed.

(** What is asked of the input. *)
Lemma get_transform_input_query fuel datasets decl s id hdl alias l h :
  readable datasets decl id hdl alias l -> (forall p, s = Some p -> eti_dataset_id p = id) ->
  length l < fuel -> head_hash l = Some h ->
  input_of fuel datasets decl s =
    get_transform_input_from_query_input resolve_dataset_ref check_action_allowed fuel datasets
      (next_query_input id s h (chain_last_offset l)) alias None.
Proof.
  intros [Hid Ha Hr Hrh Hsame Hal Hst Hne] Hs Hf Hh.
  destruct (chain_state_head _ _ Hst Hne) as (h' & Hres & Hh' & Hl). assert (h' = h) as -> by congruence.
  destruct (last_data_spec fuel _ h l Hl Hf) as (v & Hv & Hoff).
  unfold get_transform_input. rewrite Hid. cbn [unwrap fuelled_bind].
  replace (match s with Some s0 => if decide (id = eti_dataset_id s0) then Ok tt else Panic | None => Ok tt end)
    with (Ok tt : res TransformError unit).
  2: { destruct s as [p|]; [|done]. rewrite (Hs p eq_refl). by rewrite decide_True. }
  cbn [fuelled_bind]. rewrite Hr. cbn. rewrite Hres. cbn. rewrite Hv. cbn. by rewrite Ha, Hoff.
Qed.

Lemma query_input_eq fuel datasets decl id hdl alias l q e schema :
  readable datasets decl id hdl alias l -> length l < fuel -> eti_dataset_id q = id ->
  latest SetDataSchema l = Some e -> schema_as_arrow e = Ok schema ->
  get_transform_input_from_query_input resolve_dataset_ref check_action_allowed fuel datasets q alias None =
    fuelled_bind (unprocessed_blocks fuel (chain_at datasets hdl) q) (fun blocks =>
      Some (Ok (mkTransformRequestInputExt hdl alias
        (DatasetVocabulary_from_SetVocab (default SetVocab_default (latest SetVocab l)))
        (eti_prev_block_hash q) (eti_new_block_hash q) (eti_prev_offset q) (eti_new_offset q)
        schema (slices_in blocks) (watermarks_in blocks)))).
Proof.
  intros [Hid Ha Hr Hrh Hsame Hal Hst Hne] Hf Hq Hsch Harrow.
  unfold get_transform_input_from_query_input. rewrite Hq, Hr. cbn. rewrite Hal. cbn.
  unfold find_input_schema. rewrite (accept_one_found SetDataSchema fuel _ l Hst Hne Hf). cbn.
  rewrite found_latest, Hsch. cbn. rewrite Harrow. cbn.
  unfold get_vocab. rewrite Hrh. cbn. rewrite (accept_one_found SetVocab fuel _ l Hst Hne Hf). cbn.
  by rewrite found_latest.
Qed.

(** An input that was never given a schema. *)
Lemma get_transform_input_no_schema fuel datasets decl s id hdl alias l :
  readable datasets decl id hdl alias l -> (forall p, s = Some p -> eti_dataset_id p = id) ->
  length l < fuel -> latest SetDataSchema l = None ->
  input_of fuel datasets decl s =
    Some (Err (TransformError_InputSchemaNotDefined (mkInputSchemaNotDefinedError hdl))).
Proof.
  intros Hrd Hs Hf Hsch. destruct (head_hash_nonempty l (rd_nonempty _ _ _ _ _ _ Hrd)) as [h Hh].
  rewrite (get_transform_input_query fuel datasets decl s id hdl alias l h Hrd Hs Hf Hh).
  destruct Hrd as [Hid Ha Hr Hrh Hsame Hal Hst Hne].
  unfold get_transform_input_from_query_input. cbn. rewrite Hr. cbn. rewrite Hal. cbn.
  unfold find_input_schema. rewrite (accept_one_found SetDataSchema fuel _ l Hst Hne Hf). cbn.
  by rewrite found_latest, Hsch.
Qed.

(** An input whose schema cannot be read. *)
Lemma get_transform_input_bad_schema fuel datasets decl s id hdl alias l e :
  readable datasets decl id hdl alias l -> (forall p, s = Some p -> eti_dataset_id p = id) ->
  length l < fuel -> latest SetDataSchema l = Some e -> is_ok (schema_as_arrow e) = false ->
  exists x, input_of fuel datasets decl s = Some x /\ is_ok x = false.
Proof.
  intros Hrd Hs Hf Hsch Hbad. destruct (head_hash_nonempty l (rd_nonempty _ _ _ _ _ _ Hrd)) as [h Hh].
  rewrite (get_transform_input_query fuel datasets decl s id hdl alias l h Hrd Hs Hf Hh).
  destruct Hrd as [Hid Ha Hr Hrh Hsame Hal Hst Hne].
  unfold get_transform_input_from_query_input. cbn. rewrite Hr. cbn. rewrite Hal. cbn.
  unfold find_input_schema. rewrite (accept_one_found SetDataSchema fuel _ l Hst Hne Hf). cbn.
  rewrite found_latest, Hsch. unfold internal_as, int_err. destruct (schema_as_arrow e); [done|..]; eexists; by split.
Qed.

(** An input of which the blocks [old] were processed: exactly the data of the
    others is read. *)
Lemma get_transform_input_spec fuel datasets decl s id hdl alias new old e schema :
  readable datasets decl id hdl alias (new ++ old) -> (forall p, s = Some p -> eti_dataset_id p = id) ->
  processed s old -> length (new ++ old) < fuel ->
  latest SetDataSchema (new ++ old) = Some e -> schema_as_arrow e = Ok schema ->
  exists i, input_of fuel datasets decl s = Some (Ok i) /\
    tie_dataset_handle i = hdl /\ tie_alias i = alias /\ tie_schema i = schema /\
    tie_data_slices i = slices_in new /\ tie_explicit_watermarks i = watermarks_in new /\
    processed (Some (ExecuteTransformInput_from i)) (new ++ old) /\
    eti_dataset_id (ExecuteTransformInput_from i) = id /\
    (forall p, s = Some p -> input_continues p (ExecuteTransformInput_from i)) /\
    (is_Some (tie_new_block_hash i) \/ new = []).
Proof.
  intros Hrd Hs Hp Hf Hsch Harrow. destruct (head_hash_nonempty _ (rd_nonempty _ _ _ _ _ _ Hrd)) as [h Hh].
  rewrite (get_transform_input_query fuel datasets decl s id hdl alias _ h Hrd Hs Hf Hh).
  pose proof (rd_chain _ _ _ _ _ _ Hrd) as Hst. pose proof (cs_linked _ _ Hst) as Hl. rewrite Hh in Hl.
  destruct (next_query_input_spec id s new old h Hp (cs_valid _ _ Hst) (linked_nodup _ _ _ Hl) Hh)
    as (Hpr & Hid & Hpb & Hpo & Hnb & Hco).
  set (q := next_query_input id s h (chain_last_offset (new ++ old))) in *. clearbody q.
  rewrite (query_input_eq fuel datasets decl id hdl alias _ q e schema Hrd Hf Hid Hsch Harrow).
  assert (Hb : unprocessed_blocks fuel (chain_at datasets hdl) q = Some (Ok new)).
  { unfold unprocessed_blocks. rewrite Hnb, Hpb. case_decide as Hd; [by subst|].
    by rewrite (iter_interval_above fuel _ h new old Hl Hf). }
  rewrite Hb. cbn.
  assert (Hq : mkExecuteTransformInput (dh_id hdl) (eti_prev_block_hash q) (eti_new_block_hash q)
    (eti_prev_offset q) (eti_new_offset q) = q).
  { rewrite (rd_same _ _ _ _ _ _ Hrd). rewrite <- Hid. by destruct q. }
  eexists. split; [done|]. unfold ExecuteTransformInput_from. cbn. rewrite Hq.
  split_and!; try done; [apply (rd_same _ _ _ _ _ _ Hrd)|].
  rewrite Hnb. case_decide; [by right|left; eauto].
Qed.

(** An input whose last processed block is not in its chain any more. *)
Lemma get_transform_input_diverged fuel datasets decl p id hdl alias l h t e schema :
  readable datasets decl id hdl alias l -> eti_dataset_id p = id -> length l < fuel -> head_hash l = Some h ->
  ExecuteTransformInput_last_block_hash p = Some t -> t ∉ l.*1 ->
  latest SetDataSchema l = Some e -> schema_as_arrow e = Ok schema ->
  input_of fuel datasets decl (Some p) =
    Some (Err (TransformError_InvalidInterval (mkInvalidIntervalError h t))).
Proof.
  intros Hrd Hp Hf Hh Ht Hn Hsch Harrow.
  rewrite (get_transform_input_query fuel datasets decl (Some p) id hdl alias l h Hrd) by (done || by intros ? [= <-]).
  rewrite (query_input_eq fuel datasets decl id hdl alias l
    (next_query_input id (Some p) h (chain_last_offset l)) e schema Hrd Hf eq_refl Hsch Harrow).
  pose proof (cs_linked _ _ (rd_chain _ _ _ _ _ _ Hrd)) as Hl. rewrite Hh in Hl.
  assert (Hne : h <> t).
  { intros ->. apply Hn. destruct l as [|[h' b'] l]; [done|]. injection Hh as ->. left. }
  unfold unprocessed_blocks, next_query_input. cbn. rewrite Ht, decide_True by congruence.
  by destruct (iter_interval_missing fuel _ h l t false Hl Hf Hn) as [-> _].
Qed.

(** ** All inputs *)

(** An input that can be read, with the new and the processed part of its chain. *)
Definition ready (fuel : nat) datasets (x : TransformInput * option ExecuteTransformInput)
    (y : list HashedMetadataBlock * list HashedMetadataBlock) : Prop :=
  exists id hdl alias e schema, readable datasets x.1 id hdl alias (y.1 ++ y.2) /\
    (forall p, x.2 = Some p -> eti_dataset_id p = id) /\ processed x.2 y.2 /\ length (y.1 ++ y.2) < fuel /\
    latest SetDataSchema (y.1 ++ y.2) = Some e /\ schema_as_arrow e = Ok schema.

(** What is planned for it. *)
Record planned (x : TransformInput * option ExecuteTransformInput)
    (y : list HashedMetadataBlock * list HashedMetadataBlock) (i : TransformRequestInputExt) : Prop := {
  pl_slices : tie_data_slices i = slices_in y.1;
  pl_watermarks : tie_explicit_watermarks i = watermarks_in y.1;
  pl_processed : processed (Some (ExecuteTransformInput_from i)) (y.1 ++ y.2);
  pl_declared : Some (eti_dataset_id (ExecuteTransformInput_from i)) = DatasetRef_id (ti_dataset_ref x.1);
  pl_same : forall p, x.2 = Some p -> eti_dataset_id (ExecuteTransformInput_from i) = eti_dataset_id p;
  pl_continues : forall p, x.2 = Some p -> input_continues p (ExecuteTransformInput_from i);
  pl_new : is_Some (tie_new_block_hash i) \/ y.1 = []
}.

Lemma get_transform_inputs_spec fuel datasets xs ys :
  Forall2 (ready fuel datasets) xs ys ->
  exists inputs, get_transform_inputs resolve_dataset_ref check_action_allowed fuel datasets xs = Some (Ok inputs) /\
    Forall3 planned xs ys inputs.
Proof.
  induction 1 as [|[decl s] [new old] xs ys (id & hdl & alias & e & schema & Hrd & Hs & Hp & Hf & He & Ha) _
    (inputs & IH & IHp)]; simpl in *; [by exists []; repeat constructor|].
  destruct (get_transform_input_spec fuel datasets decl s id hdl alias new old e schema Hrd Hs Hp Hf He Ha)
    as (i & Hi & _ & _ & _ & Hsl & Hw & Hpr & Hid & Hco & Hn).
  rewrite Hi. cbn. rewrite IH. cbn. exists (i :: inputs). split; [done|]. constructor; [|done].
  split; cbn [fst snd]; try done.
  - by rewrite Hid, (rd_id _ _ _ _ _ _ Hrd).
  - intros p Hsp. by rewrite Hid, (Hs p Hsp).
Qed.
End Inputs.

(** * The operation *)

Section Operation.
Context `{EN : Engines} {BR RR DR CR IR : Type} `{!MetadataBlockRepository BR} `{!ReferenceRepository RR}.

Variable resolve_dataset_ref : DatasetRef -> res GetDatasetError DatasetHandle.
Variable check_action_allowed : DatasetHandle -> DatasetAction -> res DatasetActionUnauthorizedError unit.

Implicit Types (datasets : DatasetID -> DatasetImpl BR RR DR CR IR) (l new old : list HashedMetadataBlock).

(** The request for a dataset with the chain [l]. *)
Record request_for l (inputs : list TransformRequestInputExt) (r : TransformRequestExt) : Prop := {
  rf_head : head_hash l = Some (tre_head r);
  rf_transform : option_map st_transform (latest SetTransform l) = Some (tre_transform r);
  rf_schema : is_Some (tre_schema r) <-> is_Some (latest SetDataSchema l);
  rf_prev_offset : tre_prev_offset r = latest ExecuteTransform l ≫= ExecuteTransform_last_offset;
  rf_inputs : tre_inputs r = inputs;
  rf_prev_checkpoint : tre_prev_checkpoint r =
    option_map cp_physical_hash (latest ExecuteTransform l ≫= et_new_checkpoint);
  rf_block_ref : tre_block_ref r = BlockRef_Head
}.

Lemma get_next_operation_spec fuel datasets op hdl t l source xs ys :
  chain_state (chain_at datasets hdl) l -> length l < fuel -> latest SetTransform l = Some source ->
  (forall e, latest SetDataSchema l = Some e -> is_ok (schema_as_arrow e) = true) ->
  input_states_of source (latest ExecuteTransform l) = Ok xs ->
  Forall2 (ready resolve_dataset_ref check_action_allowed fuel datasets) xs ys ->
  exists inputs o, Forall3 planned xs ys inputs /\
    get_next_operation resolve_dataset_ref check_action_allowed fuel datasets op hdl t = Some (Ok o) /\
    if forallb input_is_empty inputs && is_some (latest SetDataSchema l) then o = None
    else exists r, o = Some r /\ request_for l inputs r /\ tre_system_time r = t /\ tre_dataset_handle r = hdl.
Proof.
  intros Hst Hf Hsrc Hsch Hxs Hready.
  assert (Hne : l <> []) by (intros ->; done).
  destruct (chain_state_head _ _ Hst Hne) as (h & Hres & Hh & Hl).
  destruct (get_transform_inputs_spec resolve_dataset_ref check_action_allowed fuel datasets xs ys Hready)
    as (inputs & Hin & Hpl).
  exists inputs. unfold get_next_operation. rewrite Hres. cbn.
  unfold accept_by_hash. pose proof (run_source_visitors l) as Hrun.
  apply (accept_by_interval_ok fuel _ _ l source_visitors _ Hl Hf) in Hrun. rewrite Hrun. cbn.
  rewrite !found_latest. destruct (latest SetDataSchema l) as [e|] eqn:He.
  - specialize (Hsch e eq_refl). destruct (schema_as_arrow e) as [schema| |] eqn:Ha; [|done..]. cbn.
    rewrite Hsrc. cbn. rewrite Hxs. cbn. rewrite Hin. cbn. rewrite andb_true_r.
    destruct (forallb input_is_empty inputs); eexists; (split; [done|]; split; [done|]); [done|].
    eexists. split; [done|]. split; [|done]. split; simpl; rewrite ?Hsrc, ?He; try done; by split; eauto.
  - cbn. rewrite Hsrc. cbn. rewrite Hxs. cbn. rewrite Hin. cbn. rewrite andb_false_r.
    eexists; (split; [done|]; split; [done|]).
    eexists. split; [done|]. split; [|done]. split; simpl; rewrite ?Hsrc, ?He; try done; split; by intros [].
Qed.

(** ** The event continues the output *)

Lemma find_transform_Some s q l e : find_transform s q l = Some e -> latest SetTransform l = Some e.
Proof.
  unfold latest. revert s q; induction l as [|[h b] l IH]; intros s q; simpl; [by destruct (s && q)|].
  destruct (s && q); [done|]. destruct (mb_event b); simpl; eauto.
Qed.

Lemma find_transform_None s q l e :
  find_transform s q l = None -> latest SetTransform l = Some e -> q = true \/ is_Some (latest ExecuteTransform l).
Proof.
  unfold latest. revert s q; induction l as [|[h b] l IH]; intros s q; simpl; [done|].
  destruct s, q; simpl; auto; destruct (mb_event b); simpl; try done; eauto.
Qed.

(** The inputs of the event, in terms of the states they continue. *)
Lemma planned_states l source xs ys inputs :
  input_states_of source (latest ExecuteTransform l) = Ok xs -> Forall3 planned xs ys inputs ->
  map Some (map eti_dataset_id (map ExecuteTransformInput_from inputs)) = declared_ids source /\
  forall q, latest ExecuteTransform l = Some q ->
    map eti_dataset_id (map ExecuteTransformInput_from inputs) = query_ids q /\
    Forall (fun '(prev, new) => input_continues prev new)
      (zip (et_query_inputs q) (map ExecuteTransformInput_from inputs)).
Proof.
  intros Hxs Hpl. unfold declared_ids, query_ids.
  assert (Hdecl : map (fun i => DatasetRef_id (ti_dataset_ref i)) (map fst xs) =
                  map Some (map eti_dataset_id (map ExecuteTransformInput_from inputs))).
  { clear Hxs. induction Hpl as [|x y i xs ys inputs H1 _ IH]; [done|]. simpl. rewrite IH. f_equal.
    symmetry. exact (pl_declared _ _ _ H1). }
  unfold input_states_of in Hxs. destruct (latest ExecuteTransform l) as [q|].
  - assert (Hz : map fst xs = st_inputs source /\ map snd xs = map Some (et_query_inputs q)).
    { clear Hpl Hdecl. revert xs Hxs. generalize (st_inputs source) (et_query_inputs q).
      intros k; induction k as [|x k IH]; intros [|y m] xs; simpl; try done; [by intros [= <-]|].
      destruct (zip_eq k (map Some m)) as [rest| |] eqn:Hr; simpl; [|done..]. intros [= <-].
      destruct (IH m rest Hr) as [<- Hs]. simpl. by rewrite Hs. }
    destruct Hz as [Hz1 Hz2]. rewrite <- Hdecl, Hz1. split; [done|]. intros q' [= <-]. clear Hxs Hdecl Hz1.
    revert Hz2. generalize (et_query_inputs q). induction Hpl as [|[d s] y i xs ys inputs H1 _ IH]; intros m.
    + destruct m; [|done]. by repeat constructor.
    + destruct m as [|p m]; [done|]. simpl. intros [= -> Hs]. destruct (IH m Hs) as [-> Hfa].
      split; [f_equal; exact (pl_same _ _ _ H1 p eq_refl)|]. constructor; [|done]. exact (pl_continues _ _ _ H1 p eq_refl).
  - injection Hxs as <-. rewrite <- Hdecl, !map_map. by split.
Qed.

(** Derivative datasets have no other data. *)
Lemma derivative_data l :
  latest AddData l = None ->
  latest_data l = latest ExecuteTransform l ≫= fun e => as_data_stream_event (MetadataEvent_ExecuteTransform e).
Proof.
  unfold latest, latest_data. induction l as [|[h b] l IH]; [done|]. simpl. by destruct (mb_event b).
Qed.

(** The chain on which the event is put: with the schema, if it was not set. *)
Definition on_schema l l' : Prop :=
  l' = l \/ exists h b s, l' = (h, b) :: l /\ mb_event b = MetadataEvent_SetDataSchema s.

Lemma on_schema_same l l' :
  on_schema l l' -> l <> [] ->
  l' <> [] /\ latest_data l' = latest_data l /\ latest ExecuteTransform l' = latest ExecuteTransform l /\
  latest SetTransform l' = latest SetTransform l.
Proof.
  intros [->|(h & b & s & -> & Hb)] Hne; [done|]. split; [done|].
  unfold latest_data, latest. simpl. by rewrite Hb.
Qed.

(** What is left to the engine and to the clock. *)
Record engine_promises (b : MetadataBlock) (e : ExecuteTransform) l' : Prop := {
  ep_sequence : sequence_rule b l';
  ep_time : system_time_rule b l';
  ep_prev : mb_prev_block_hash b = head_hash l';
  ep_watermark : watermark_rule b l';
  ep_not_empty : not_empty_rule b;
  ep_slice : forall d, as_data_stream_event (mb_event b) = Some d -> slice_rule d;
  ep_schema : is_Some (et_new_data e) -> is_Some (latest SetDataSchema l')
}.

(** The event of a request. *)
Record event_of_request (r : TransformRequestExt) (e : ExecuteTransform) : Prop := {
  er_inputs : et_query_inputs e = map ExecuteTransformInput_from (tre_inputs r);
  er_checkpoint : et_prev_checkpoint e = tre_prev_checkpoint r;
  er_offset : et_prev_offset e = tre_prev_offset r
}.

Lemma planned_event_valid l l' source xs ys inputs r b e :
  latest SetTransform l = Some source -> input_states_of source (latest ExecuteTransform l) = Ok xs ->
  Forall3 planned xs ys inputs -> request_for l inputs r -> latest AddData l = None -> on_schema l l' ->
  mb_event b = MetadataEvent_ExecuteTransform e -> event_of_request r e -> engine_promises b e l' ->
  execute_transform_advances e (latest ExecuteTransform l) \/ Exists (fun y => y.1 <> []) ys ->
  valid_next b l'.
Proof.
  intros Hsrc Hxs Hpl Hr Hadd Hon Hb [Hin Hcp Hoff] [Hseq Htime Hprev Hwm Hempty Hslice Hschema] Hadv.
  assert (Hne : l <> []) by (intros ->; done).
  destruct (on_schema_same l l' Hon Hne) as (Hne' & Hdata & Hq & Ht).
  destruct (planned_states l source xs ys inputs Hxs Hpl) as [Hdecl Hstates].
  rewrite (rf_inputs _ _ _ Hr) in Hin. destruct (head_hash_nonempty l' Hne') as [h' Hh'].
  assert (Hnew : Exists (fun y => y.1 <> []) ys -> Exists (fun i => is_Some (eti_new_block_hash i)) (et_query_inputs e)).
  { rewrite Hin. clear -Hpl. induction Hpl as [|x y i xs ys inputs H1 _ IH]; [by intros ?%Exists_nil|].
    intros [Hy|Hy]%Exists_cons; [|right; by apply IH]. left. simpl. by destruct (pl_new _ _ _ H1). }
  split; unfold supported, seed_rule, push_source_rule, polling_source_rule, set_transform_rule, add_data_rule;
    rewrite ?Hb; try done.
  - rewrite Hprev, Hh'. by split.
  - intros d Hd. split; [by apply Hslice|]. rewrite Hdata, derivative_data by done. intros p Hp.
    destruct (latest ExecuteTransform l) as [q|] eqn:Hlq; [|done]. simpl in Hp.
    rewrite Hb in Hd. injection Hd as <-. injection Hp as <-.
    simpl. rewrite Hoff, (rf_prev_offset _ _ _ Hr), Hlq. done.
  - intros e' He'. rewrite Hb in He'. injection He' as <-. rewrite Hq. split_and!; [done| | | |].
    + unfold inputs_order_rule, query_ids. rewrite Hin.
      destruct (find_transform false false l') as [t|] eqn:Hft.
      * apply find_transform_Some in Hft. rewrite Ht, Hsrc in Hft. injection Hft as <-. exact Hdecl.
      * rewrite <- Ht in Hsrc. destruct (find_transform_None _ _ _ _ Hft Hsrc) as [|[q Hlq]]; [done|].
        rewrite Hq in Hlq. rewrite Hlq. by apply Hstates.
    + intros q Hlq. rewrite Hin. by apply Hstates.
    + by rewrite Hcp, (rf_prev_checkpoint _ _ _ Hr).
    + destruct Hadv as [Hadv|Hadv]; [done|]. right. right. right. by apply Hnew.
Qed.
End Operation.

(** * Commits *)

Section Commits.
Context `{EN : Engines} {DH : DataHash} {BR RR DR CR IR : Type}
        `{!MetadataBlockRepository BR} `{!ReferenceRepository RR} `{!ObjectRepository DR} `{!ObjectRepository CR}
        `{!LawfulBlockRepo BR, !LawfulRefRepo RR, !LawfulObjectRepo DR, !LawfulObjectRepo CR}.

Implicit Types (d : DatasetImpl BR RR DR CR IR) (l : list HashedMetadataBlock).

Lemma head_in_chain l r h check : head_hash l = Some h -> prev_in_chain l (transform_commit_opts r h check).
Proof. intros Hh o [= <-]. by exists [], l. Qed.

(** The schema is set, or the dataset is as it was. *)
Lemma commit_schema_state fuel d l now r response :
  dataset_state d l -> head_hash l = Some (tre_head r) -> length l < fuel ->
  commit_fresh d (transform_commit_opts r (tre_head r) false) ->
  exists x d1, commit_schema fuel d now r response = Some (x, d1) /\
    exists l1, on_schema l l1 /\ dataset_state d1 l1 /\
      match x with
      | Ok h => head_hash l1 = Some h /\ (h = tre_head r -> l1 = l)
      | _ => l1 = l
      end.
Proof.
  intros Hst Hh Hf Hfr. unfold commit_schema.
  assert (Hsame : forall x : res TransformError Multihash, (forall h, x = Ok h -> h = tre_head r) ->
    exists l1, on_schema l l1 /\ dataset_state d l1 /\
      match x with Ok h => head_hash l1 = Some h /\ (h = tre_head r -> l1 = l) | _ => l1 = l end).
  { intros x Hx. exists l. split; [by left|]. split; [done|]. destruct x as [h| |]; [|done..].
    by rewrite (Hx h eq_refl). }
  destruct (tre_schema r) as [prev|], (trs_output_schema response) as [new|];
    [|eexists _, _; split; [done|]; apply Hsame; by intros ? [= <-]| |
      eexists _, _; split; [done|]; apply Hsame; by intros ? [= <-]].
  - eexists _, _. split; [done|]. apply Hsame. by destruct (internal_as _ _); intros ? [= <-].
  - set (event := MetadataEvent_SetDataSchema (SetDataSchema_new new)).
    destruct (commit_event_returns fuel d l now event (transform_commit_opts r (tre_head r) false)
      (dst_chain _ _ Hst) Hf (head_in_chain _ _ _ _ Hh)) as (y & d1 & Hy).
    assert (Hobj : objects_present d event) by done.
    pose proof (commit_event_state fuel d l now event (transform_commit_opts r (tre_head r) false) y d1 Hst Hf eq_refl Hfr (or_intror Hobj) Hy) as Hc.
    rewrite Hy. eexists _, d1. split; [done|]. destruct y as [c| |]; simpl in Hc |- *;
      [|exists l; split; [by left|done]..].
    destruct Hc as (b & Hb & _ & _ & Hst1). exists ((cmr_new_head c, b) :: l).
    split; [right; by eauto 6|]. split; [done|]. split; [done|]. intros Heq. exfalso.
    pose proof (linked_nodup _ _ _ (cs_linked _ _ (dst_chain _ _ Hst1))) as Hnd. simpl in Hnd.
    apply NoDup_cons in Hnd as [Hn _]. apply Hn. destruct l as [|[h0 b0] l0]; [done|].
    simpl in Hh. injection Hh as Hh. rewrite Heq, Hh. left.
Qed.

Lemma skip_no_op_ok h x h' :
  skip_no_op h x = Ok h' -> (exists r, x = Ok r /\ h' = cmr_new_head r) \/ (is_ok x = false /\ h' = h).
Proof.
  destruct x as [r|[|[| |[]| |]| |]|]; simpl; try done; intros [= <-]; [left|right]; eauto.
Qed.

Lemma commit_transform_state fuel d l now r response :
  dataset_state d l -> head_hash l = Some (tre_head r) -> S (length l) < fuel ->
  commit_fresh d (transform_commit_opts r (tre_head r) false) ->
  (forall h d1, commit_schema fuel d now r response = Some (Ok h, d1) ->
     commit_fresh d1 (transform_commit_opts r h true)) ->
  exists x d2, commit_transform fuel d now r response = Some (x, d2) /\
    exists l1, on_schema l l1 /\
      match x with
      | Ok (TransformResult_Updated old new) => old = tre_head r /\
          ((dataset_state d2 l1 /\ head_hash l1 = Some new /\ l1 <> l) \/
           exists b e, dataset_state d2 ((new, b) :: l1) /\ mb_event b = MetadataEvent_ExecuteTransform e /\
             event_of_request r e /\ et_new_watermark e = trs_new_watermark response)
      | Ok TransformResult_UpToDate => False
      | _ => dataset_state d2 l1
      end.
Proof.
  intros Hst Hh Hf Hfr Hfr1. unfold commit_transform.
  destruct (commit_schema_state fuel d l now r response Hst Hh ltac:(lia) Hfr) as (x & d1 & Hx & l1 & Hon & Hst1 & Hres).
  rewrite Hx. destruct x as [h| |]; [|eexists _, _; (split; [done|]); by exists l1..].
  destruct Hres as [Hh1 Hsame]. specialize (Hfr1 h d1 Hx).
  assert (Hf1 : length l1 < fuel).
  { destruct Hon as [->|(h0 & b0 & s0 & -> & _)]; simpl; lia. }
  destruct (commit_execute_transform_returns fuel d1 l1 now (transform_params r response) (trs_new_data response)
    (option_map CheckpointRef_New (trs_new_checkpoint response)) (transform_commit_opts r h true)
    (dst_chain _ _ Hst1) Hf1 (head_in_chain _ _ _ _ Hh1)) as (y & d2 & Hy).
  destruct (commit_execute_transform_state fuel d1 l1 now _ _ _ (transform_commit_opts r h true) _ _
    Hst1 Hf1 eq_refl Hfr1 Hy) as (nd & nc & _ & Hc).
  rewrite Hy. eexists _, d2. split; [done|]. exists l1. split; [done|].
  assert (Hkept : is_ok y = false -> dataset_state d2 l1) by by destruct y.
  destruct (skip_no_op h y) as [h'| |] eqn:Hskip; simpl; [|apply Hkept; by destruct y..].
  apply skip_no_op_ok in Hskip as [(c & -> & ->)|[Hy' ->]].
  2: { case_decide as Hd; [by apply Hkept|]. split; [done|]. left.
       split_and!; [by apply Hkept|done|]. intros ->. congruence. }
  destruct Hc as (b & Hb & _ & _ & Hst2). case_decide as Hd.
  - exfalso. pose proof (linked_nodup _ _ _ (cs_linked _ _ (dst_chain _ _ Hst2))) as Hnd. simpl in Hnd.
    apply NoDup_cons in Hnd as [Hn _]. apply Hn. rewrite <- Hd. clear -Hon Hh.
    assert (Hin : tre_head r ∈ l.*1).
    { destruct l as [|[h0 b0] l0]; [done|]. simpl in Hh. injection Hh as ->. left. }
    destruct Hon as [->|(h0 & b0 & s0 & -> & _)]; [done|]. by right.
  - split; [done|]. right. eexists b, _. split; [done|]. split; [exact Hb|]. by split.
Qed.
End Commits.

(** * Planning returns *)

Section Returns.
Context `{EN : Engines} {BR RR DR CR IR : Type} `{!MetadataBlockRepository BR} `{!ReferenceRepository RR}.

Variable resolve_dataset_ref : DatasetRef -> res GetDatasetError DatasetHandle.
Variable check_action_allowed : DatasetHandle -> DatasetAction -> res DatasetActionUnauthorizedError unit.

Implicit Types (c : MetadataChainImpl BR RR) (datasets : DatasetID -> DatasetImpl BR RR DR CR IR)
  (l : list HashedMetadataBlock).

Lemma fuelled_bind_returns {E X Y} (m : fuelled E X) (k : X -> fuelled E Y) :
  is_Some m -> (forall x, m = Some (Ok x) -> is_Some (k x)) -> is_Some (fuelled_bind m k).
Proof. intros [[x|e|] ->] Hk; simpl; eauto. Qed.

(** A stored chain that fuel suffices for. *)
Definition stored (fuel : nat) c : Prop := exists l, chain_state c l /\ length l < fuel.

Lemma accept_one_returns T `{FlaggedVariant T} fuel c :
  stored fuel c -> is_Some (accept_one fuel c (SearchSingleTypedBlockVisitor_new T)).
Proof.
  intros (l & Hst & Hf). destruct l as [|hb l].
  - unfold accept_one, accept, accept_by_ref. pose proof (cs_head _ _ Hst) as Hh.
    unfold head_is, append_actual_ref in Hh. unfold resolve_ref.
    destruct (rr_get (ref_repo c) BlockRef_Head); [done|eauto|eauto].
  - erewrite accept_one_found; eauto.
Qed.

Lemma stored_head fuel c h :
  stored fuel c -> resolve_ref c BlockRef_Head = Ok h ->
  exists l, linked (meta_block_repo c) (Some h) l /\ length l < fuel.
Proof.
  intros (l & [Hh Hl _] & Hf) Hr. exists l. split; [|done]. unfold head_is, append_actual_ref in Hh.
  unfold resolve_ref in Hr. rewrite Hr in Hh. injection Hh as Hh. by rewrite Hh.
Qed.

Lemma iter_interval_returns fuel c h l tail :
  linked (meta_block_repo c) (Some h) l -> length l < fuel -> is_Some (iter_blocks_interval fuel c h tail false).
Proof.
  intros Hl Hf. destruct tail as [t|].
  - destruct (decide (t ∈ l.*1)) as [Hin|Hn].
    + apply list_elem_of_fmap in Hin as ([t' b] & -> & Hin). apply list_elem_of_split in Hin as (l1 & l2 & ->).
      rewrite length_app in Hf. cbn [fst]. destruct (iter_interval_found fuel c h l1 t' b l2 false Hl ltac:(lia)) as [-> _]. eauto.
    + destruct (iter_interval_missing fuel c h l t false Hl Hf Hn) as [-> _]. eauto.
  - unfold iter_blocks_interval. rewrite (interval_loop_all _ _ _ _ None Hl Hf) by done. eauto.
Qed.

Lemma get_transform_input_returns fuel datasets decl s :
  (forall id, stored fuel (dsi_metadata_chain (datasets id))) ->
  is_Some (get_transform_input resolve_dataset_ref check_action_allowed fuel datasets decl s).
Proof.
  intros Hall. unfold get_transform_input.
  do 2 (apply fuelled_bind_returns; [eauto|intros ? _]).
  apply fuelled_bind_returns; [eauto|intros hdl [= Hhdl]].
  apply fuelled_bind_returns; [eauto|intros h [= Hh]].
  assert (Hres : resolve_ref (chain_at datasets hdl) BlockRef_Head = Ok h).
  { revert Hh. unfold internal_as, int_err. by destruct (resolve_ref _ _); intros [= <-]. }
  destruct (stored_head fuel _ h (Hall (dh_id hdl)) Hres) as (l & Hl & Hf).
  destruct (last_data_spec fuel _ h l Hl Hf) as (v & Hv & _).
  apply fuelled_bind_returns; [unfold chain_at in *; rewrite Hv; eauto|intros v' _].
  apply fuelled_bind_returns; [eauto|intros alias _].
  unfold get_transform_input_from_query_input. cbn [eti_dataset_id next_query_input].
  apply fuelled_bind_returns; [eauto|intros hdl' [= Hhdl']].
  assert (hdl' = hdl) as -> by congruence.
  apply fuelled_bind_returns; [eauto|intros ? _].
  apply fuelled_bind_returns; [|intros schema _].
  { unfold find_input_schema. apply fuelled_bind_returns; [|eauto].
    destruct (accept_one_returns SetDataSchema fuel _ (Hall (dh_id hdl))) as [y Hy].
    unfold chain_at. rewrite Hy. eauto. }
  apply fuelled_bind_returns; [|intros blocks _].
  { unfold unprocessed_blocks, next_query_input. cbn. case_decide; [|eauto].
    destruct (iter_interval_returns fuel (chain_at datasets hdl) h l
      (s ≫= ExecuteTransformInput_last_block_hash) Hl Hf) as [[k [|[]|]] ->]; eauto. }
  apply fuelled_bind_returns; [|eauto]. unfold get_vocab.
  assert (Hv' : forall o : fuelled InternalError DatasetVocabulary, is_Some o ->
    is_Some (option_map (map_err TransformError_Internal) o)) by (intros o [y ->]; simpl; eauto).
  apply Hv', fuelled_bind_returns; [eauto|intros hdl2 _]. apply fuelled_bind_returns; [|eauto].
  destruct (accept_one_returns SetVocab fuel _ (Hall (dh_id hdl2))) as [y Hy]. unfold chain_at. rewrite Hy. eauto.
Qed.

Lemma get_transform_inputs_returns fuel datasets xs :
  (forall id, stored fuel (dsi_metadata_chain (datasets id))) ->
  is_Some (get_transform_inputs resolve_dataset_ref check_action_allowed fuel datasets xs).
Proof.
  intros Hall. induction xs as [|[decl s] xs IH]; simpl; [eauto|].
  apply fuelled_bind_returns; [by apply get_transform_input_returns|intros i _].
  apply fuelled_bind_returns; [done|eauto].
Qed.

(** Planning returns in a repository of stored chains; a request is for the head
    of the output. *)
Lemma get_next_operation_returns fuel datasets op hdl t :
  (forall id, stored fuel (dsi_metadata_chain (datasets id))) ->
  exists x, get_next_operation resolve_dataset_ref check_action_allowed fuel datasets op hdl t = Some x /\
    forall r, x = Ok (Some r) -> resolve_ref (chain_at datasets hdl) BlockRef_Head = Ok (tre_head r).
Proof.
  intros Hall. unfold get_next_operation.
  destruct (resolve_ref (chain_at datasets hdl) BlockRef_Head) as [h| |] eqn:Hres; cbn; [|eexists; by split..].
  destruct (stored_head fuel _ h (Hall (dh_id hdl)) Hres) as (l & Hl & Hf).
  pose proof (run_source_visitors l) as Hrun. unfold accept_by_hash.
  apply (accept_by_interval_ok fuel _ _ l source_visitors _ Hl Hf) in Hrun.
  unfold chain_at. rewrite Hrun. cbn.
  destruct (match into_event (found SetDataSchema l) with Some _ => _ | None => _ end) as [schema| |];
    cbn; [|eexists; by split..].
  destruct (match into_event (found SetTransform l) with Some _ => _ | None => _ end) as [source| |];
    cbn; [|eexists; by split..].
  destruct (input_states_of source _) as [xs| |]; cbn; [|eexists; by split..].
  destruct (get_transform_inputs_returns fuel datasets xs Hall) as [[inputs| |] ->]; cbn; [|eexists; by split..].
  destruct (forallb input_is_empty inputs && is_some schema); eexists; (split; [done|]); [done|].
  by intros r [= <-].
Qed.
End Returns.
