(* ===== verification/Verification.v ===== *)
(** Verifying a dataset: the integrity of its metadata and of its data, and the
    replay of its transforms.

    Sources: src/infra/core/src/verification_service_impl.rs,
    src/infra/core/src/utils/cached_object.rs,
    src/domain/core/src/services/verification_service.rs, and
    get_verification_plan and verify_transform of
    src/infra/core/src/transform_service_impl.rs.

    The listener is a log of the calls it receives.  A file of a repository is its
    contents; a local file is hashed in place and a remote one from a copy, which
    gives the same result.  The repository is a function from identifiers to
    datasets, of which [verify] may refresh a stored summary. *)

From S2P Require Import Prelude Multiformats Grammar Dids Identity Dtos ChainRepos ObjectRepoFs MetadataChain.
From S2P Require Import ChainVisitors ChainValidators ChainRules ChainAppend ChainInvariants Dataset Sync.
From S2P Require Import EventSourcing TaskSystem FlowSystem Messages FlowTimeWheel FlowStore FlowService DatasetChanges.
From S2P Require Import Snapshots Transform.
From stdpp Require Import functions.
Local Open Scope fuelled_scope.

(** * Requests and errors *)

Abbreviation BlockRange := (option Multihash * option Multihash)%type.

Record VerificationRequest := mkVerificationRequest {
  vrq_dataset_ref : DatasetRef;
  vrq_block_range : BlockRange
}.

Record VerificationOptions := mkVerificationOptions {
  vop_check_integrity : bool;
  vop_check_logical_hashes : bool;
  vop_replay_transformations : bool
}.
Definition VerificationOptions_default : VerificationOptions := mkVerificationOptions true true true.

Inductive VerificationPhase :=
| VerificationPhase_DataIntegrity
| VerificationPhase_ReplayTransform
| VerificationPhase_MetadataIntegrity.

Inductive DataVerificationError :=
| DataVerificationError_SizeMismatch (expected actual : u64)
| DataVerificationError_PhysicalHashMismatch (expected actual : Multihash)
| DataVerificationError_LogicalHashMismatch (expected actual : Multihash).

Record DataDoesNotMatchMetadata := mkDataDoesNotMatchMetadata {
  ddm_block_hash : Multihash;
  ddm_error : DataVerificationError
}.

Record DataNotReproducible := mkDataNotReproducible {
  dnr_block_hash : Multihash;
  dnr_expected_event : MetadataEvent;
  dnr_actual_event : MetadataEvent
}.

Inductive CheckpointVerificationError :=
| CheckpointVerificationError_SizeMismatch (expected actual : u64)
| CheckpointVerificationError_PhysicalHashMismatch (expected actual : Multihash).

Record CheckpointDoesNotMatchMetadata := mkCheckpointDoesNotMatchMetadata {
  cdm_block_hash : Multihash;
  cdm_error : CheckpointVerificationError
}.

#[export] Instance OffsetInterval_eq_dec : EqDecision OffsetInterval.
Proof. solve_decision. Defined.
#[export] Instance DataSlice_eq_dec : EqDecision DataSlice.
Proof. solve_decision. Defined.
#[export] Instance ExecuteTransformInput_eq_dec : EqDecision ExecuteTransformInput.
Proof. solve_decision. Defined.
#[export] Instance ExecuteTransform_eq_dec : EqDecision ExecuteTransform.
Proof. solve_decision. Defined.

Section Errors.
Context `{EN : Engines}.

Inductive VerificationError :=
| VerificationError_DatasetNotFound (e : DatasetNotFoundError)
| VerificationError_RefNotFound (e : RefNotFoundError)
| VerificationError_BlockNotFound (e : BlockNotFoundError)
| VerificationError_BlockVersion (e : BlockVersionError)
| VerificationError_BlockMalformed (e : BlockMalformedError)
| VerificationError_InvalidInterval (e : InvalidIntervalError)
| VerificationError_DataDoesNotMatchMetadata (e : DataDoesNotMatchMetadata)
| VerificationError_DataNotReproducible (e : DataNotReproducible)
| VerificationError_CheckpointDoesNotMatchMetadata (e : CheckpointDoesNotMatchMetadata)
| VerificationError_Transform (e : TransformError)
| VerificationError_Access (e : AccessError)
| VerificationError_Internal (e : InternalError).

Definition VerificationError_from_GetDatasetError (v : GetDatasetError) : VerificationError :=
  match v with
  | GetDatasetError_NotFound e => VerificationError_DatasetNotFound e
  | GetDatasetError_Internal e => VerificationError_Internal e
  end.

Definition VerificationError_from_GetRefError (v : GetRefError) : VerificationError :=
  match v with
  | GetRefError_NotFound e => VerificationError_RefNotFound e
  | GetRefError_Access _ => VerificationError_Internal mkInternalError
  | GetRefError_Internal e => VerificationError_Internal e
  end.

Definition VerificationError_from_IterBlocksError (v : IterBlocksError) : VerificationError :=
  match v with
  | IterBlocksError_RefNotFound e => VerificationError_RefNotFound e
  | IterBlocksError_BlockNotFound e => VerificationError_BlockNotFound e
  | IterBlocksError_BlockVersion e => VerificationError_BlockVersion e
  | IterBlocksError_BlockMalformed e => VerificationError_BlockMalformed e
  | IterBlocksError_InvalidInterval e => VerificationError_InvalidInterval e
  | IterBlocksError_Access _ => VerificationError_Internal mkInternalError
  | IterBlocksError_Internal e => VerificationError_Internal e
  end.

Definition VerificationError_from_Unauthorized (v : DatasetActionUnauthorizedError) : VerificationError :=
  match v with
  | DatasetActionUnauthorizedError_Access e => VerificationError_Access e
  | DatasetActionUnauthorizedError_Internal e => VerificationError_Internal e
  end.

Definition VerificationError_from_GetBlockError (v : GetBlockError) : VerificationError :=
  match v with
  | GetBlockError_NotFound e => VerificationError_BlockNotFound e
  | GetBlockError_BlockVersion e => VerificationError_BlockVersion e
  | GetBlockError_BlockMalformed e => VerificationError_BlockMalformed e
  | GetBlockError_Access _ => VerificationError_Internal mkInternalError
  | GetBlockError_Internal e => VerificationError_Internal e
  end.

Record VerificationResult := mkVerificationResult {
  vr_dataset_handle : option DatasetHandle;
  vr_outcome : res VerificationError unit
}.

Definition VerificationResult_err (dataset_handle : DatasetHandle) (e : VerificationError) : VerificationResult :=
  mkVerificationResult (Some dataset_handle) (Err e).
Definition VerificationResult_err_no_handle (e : VerificationError) : VerificationResult :=
  mkVerificationResult None (Err e).

(** The calls of a [VerificationListener]. *)
Inductive ListenerCall :=
| Listener_begin
| Listener_success (result : VerificationResult)
| Listener_error (error : VerificationError)
| Listener_begin_phase (phase : VerificationPhase)
| Listener_end_phase (phase : VerificationPhase)
| Listener_begin_block (block_hash : Multihash) (block_index num_blocks : nat) (phase : VerificationPhase)
| Listener_end_block (block_hash : Multihash) (block_index num_blocks : nat) (phase : VerificationPhase).

(** ** Code that calls the listener *)

(** [None] when the fuel of a traversal runs out. *)
Definition verified (A : Type) : Type := option (list ListenerCall * res VerificationError A).

Definition verified_ret {A} (a : A) : verified A := Some ([], Ok a).
Definition tell (call : ListenerCall) : verified unit := Some ([call], Ok tt).
Definition from_fuelled {A} (m : fuelled VerificationError A) : verified A :=
  match m with Some x => Some ([], x) | None => None end.
Definition verified_bind {A B} (m : verified A) (k : A -> verified B) : verified B :=
  match m with
  | Some (log, Ok a) => match k a with Some (log', x) => Some (log ++ log', x) | None => None end
  | Some (log, Err e) => Some (log, Err e)
  | Some (log, Panic) => Some (log, Panic)
  | None => None
  end.
End Errors.

Declare Scope verified_scope.
Notation "'let+' x ':=' m 'in' k" := (verified_bind m (fun x => k))
  (at level 10, x pattern, m at level 100, k at level 200) : verified_scope.
Local Open Scope verified_scope.

(** * The visitors of the replay *)

(** [ExecuteTransformCollectorVisitor] *)
Record Collector := mkCollector {
  col_tail_sequence_number : option u64;
  col_blocks : list HashedMetadataBlock;
  col_finished_range : bool
}.

(** [Option<u64>] is ordered with [None] first. *)
Definition option_u64_lt (a b : option u64) : bool :=
  match a, b with
  | None, Some _ => true
  | Some a, Some b => Z.ltb a b
  | _, None => false
  end.

Definition collect_queries (state : Collector) (hb : HashedMetadataBlock)
    : MetadataVisitorDecision * Collector :=
  if option_u64_lt (Some (mb_sequence_number hb.2)) (col_tail_sequence_number state)
  then (Decision_Stop, mkCollector (col_tail_sequence_number state) (col_blocks state) true)
  else
    let blocks := if flags_contains Flag.EXECUTE_TRANSFORM (event_flag (mb_event hb.2))
                  then col_blocks state ++ [hb] else col_blocks state in
    if decide (Some (mb_sequence_number hb.2) = col_tail_sequence_number state)
    then (Decision_Stop, mkCollector (col_tail_sequence_number state) blocks true)
    else (Decision_NextOfType Flag.EXECUTE_TRANSFORM,
          mkCollector (col_tail_sequence_number state) blocks (col_finished_range state)).

Abbreviation QueryCollector := (GenericFallibleCallbackVisitor Collector Infallible).

Definition query_collector (tail_sequence_number : option u64) : QueryCollector :=
  mkGenericFallibleCallbackVisitor (mkCollector tail_sequence_number [] false)
    (Decision_NextOfType Flag.EXECUTE_TRANSFORM) (fun state hb => Ok (collect_queries state hb)).

(** The four visitors of [get_verification_plan]. *)
Inductive PlanVisitor :=
| PlanVisitor_transform (v : SearchSingleTypedBlockVisitor SetTransform)
| PlanVisitor_vocab (v : SearchSingleTypedBlockVisitor SetVocab)
| PlanVisitor_schema (v : SearchSingleTypedBlockVisitor SetDataSchema)
| PlanVisitor_queries (v : QueryCollector).

#[export] Instance plan_visitor : MetadataChainVisitor Infallible PlanVisitor := {|
  initial_decision v :=
    match v with
    | PlanVisitor_transform v => initial_decision v
    | PlanVisitor_vocab v => initial_decision v
    | PlanVisitor_schema v => initial_decision v
    | PlanVisitor_queries v => initial_decision v
    end;
  visit v hb :=
    match v with
    | PlanVisitor_transform v => map_ok (fun x => (x.1, PlanVisitor_transform x.2)) (visit v hb)
    | PlanVisitor_vocab v => map_ok (fun x => (x.1, PlanVisitor_vocab x.2)) (visit v hb)
    | PlanVisitor_schema v => map_ok (fun x => (x.1, PlanVisitor_schema x.2)) (visit v hb)
    | PlanVisitor_queries v => map_ok (fun x => (x.1, PlanVisitor_queries x.2)) (visit v hb)
    end;
  finish _ := Ok tt
|}.

Definition plan_visitors (tail_sequence_number : option u64) : list PlanVisitor :=
  [PlanVisitor_transform (SearchSingleTypedBlockVisitor_new SetTransform);
   PlanVisitor_vocab (SearchSingleTypedBlockVisitor_new SetVocab);
   PlanVisitor_schema (SearchSingleTypedBlockVisitor_new SetDataSchema);
   PlanVisitor_queries (query_collector tail_sequence_number)].

(** * Integrity *)

Section Integrity.
Context `{EN : Engines} {SC : SummaryCodec} {DH : DataHash} {BR RR DR CR IR : Type}
        `{!MetadataBlockRepository BR} `{!ReferenceRepository RR} `{!ObjectRepository DR}
        `{!ObjectRepository CR} `{!NamedObjectRepository IR}.

Abbreviation Dataset := (DatasetImpl BR RR DR CR IR).

Variable fuel : nat.
Implicit Types (datasets : DatasetID -> Dataset) (d : Dataset).

Definition internal {E A} (m : res E A) : res VerificationError A := internal_as VerificationError_Internal m.

Definition range_head (chain : MetadataChainImpl BR RR) (block_range : BlockRange)
    : res VerificationError Multihash :=
  match block_range.2 with
  | None => map_err VerificationError_from_GetRefError (resolve_ref chain BlockRef_Head)
  | Some hash => Ok hash
  end.

(** [iter_blocks_interval(..).try_collect().await?] *)
Definition collect_blocks (stream : option block_stream) : fuelled VerificationError (list HashedMetadataBlock) :=
  match stream with
  | Some (blocks, ended) => Some (let! _ := map_err VerificationError_from_IterBlocksError ended in Ok blocks)
  | None => None
  end.

(** ** Metadata *)

Definition integrity_append_opts (block_hash : Multihash) : AppendOpts :=
  mkAppendOpts (ao_validation AppendOpts_default) (ao_update_ref AppendOpts_default)
    (ao_check_ref_is_prev_block AppendOpts_default) (ao_check_ref_is AppendOpts_default)
    (Some block_hash) (ao_expected_hash AppendOpts_default).

Definition integrity_append_err (e : AppendError) : VerificationError :=
  match e with
  | AppendError_RefNotFound e => VerificationError_RefNotFound e
  | _ => VerificationError_Internal mkInternalError
  end.

(** The loop over [blocks.into_iter().rev()], into a chain in memory. *)
Fixpoint rebuild_chain (in_memory_chain : MetadataChainImpl (MetadataBlockRepositoryImpl ObjectRepositoryInMemory)
                          (ReferenceRepositoryImpl NamedObjectRepositoryInMemory))
    (blocks : list HashedMetadataBlock) : fuelled VerificationError unit :=
  match blocks with
  | [] => Some (Ok tt)
  | (block_hash, block) :: rest =>
      match append fuel in_memory_chain block (integrity_append_opts block_hash) with
      | Some (Ok _, c) => rebuild_chain c rest
      | Some (Err e, _) => Some (Err (integrity_append_err e))
      | Some (Panic, _) => Some Panic
      | None => None
      end
  end.

Definition check_metadata_integrity datasets (dataset_handle : DatasetHandle) (block_range : BlockRange)
    : verified unit :=
  let chain := chain_at datasets dataset_handle in
  let+ head := from_fuelled (Some (range_head chain block_range)) in
  let+ _ := tell (Listener_begin_phase VerificationPhase_MetadataIntegrity) in
  let+ blocks := from_fuelled (collect_blocks (iter_blocks_interval fuel chain head block_range.1 false)) in
  let+ _ := from_fuelled (rebuild_chain empty_chain (rev blocks)) in
  tell (Listener_end_phase VerificationPhase_MetadataIntegrity).

(** ** Data *)

(** [CachedObject::from], and the contents of [storage_path()]. *)
Definition CachedObject_from {R} `{!ObjectRepository R} (object_repository : R) (object_hash : Multihash)
    : res InternalError Bytes :=
  let! data_stream := int_err (or_get_stream object_repository object_hash) in
  match data_stream with Some data => Ok data | None => Err mkInternalError end.

Definition check_data_slice d (dataset_kind : DatasetKind) (check_logical_hashes : bool)
    (block_hash : Multihash) (output_slice : DataSlice) : res VerificationError unit :=
  let mismatch e := Err (VerificationError_DataDoesNotMatchMetadata (mkDataDoesNotMatchMetadata block_hash e)) in
  let! size_actual := internal (or_get_size (dsi_data_repo d) (ds_physical_hash output_slice)) in
  if decide (size_actual <> ds_size output_slice)
  then mismatch (DataVerificationError_SizeMismatch (ds_size output_slice) size_actual)
  else
    let! data := map_err VerificationError_Internal
                   (CachedObject_from (dsi_data_repo d) (ds_physical_hash output_slice)) in
    let! physical_hash_actual := internal (get_file_physical_hash data) in
    if decide (physical_hash_actual <> ds_physical_hash output_slice) then
      if decide (dataset_kind = DatasetKind_Root)
      then mismatch (DataVerificationError_PhysicalHashMismatch (ds_physical_hash output_slice) physical_hash_actual)
      else if check_logical_hashes then
        let! logical_hash_actual := internal (get_parquet_logical_hash data) in
        if decide (logical_hash_actual <> ds_logical_hash output_slice)
        then mismatch (DataVerificationError_LogicalHashMismatch (ds_logical_hash output_slice) logical_hash_actual)
        else Ok tt
      else Ok tt
    else Ok tt.

Definition check_checkpoint d (block_hash : Multihash) (checkpoint : Checkpoint) : res VerificationError unit :=
  let mismatch e :=
    Err (VerificationError_CheckpointDoesNotMatchMetadata (mkCheckpointDoesNotMatchMetadata block_hash e)) in
  let! size_actual := internal (or_get_size (dsi_checkpoint_repo d) (cp_physical_hash checkpoint)) in
  if decide (size_actual <> cp_size checkpoint)
  then mismatch (CheckpointVerificationError_SizeMismatch (cp_size checkpoint) size_actual)
  else
    let! data := map_err VerificationError_Internal
                   (CachedObject_from (dsi_checkpoint_repo d) (cp_physical_hash checkpoint)) in
    let! physical_hash_actual := internal (get_file_physical_hash data) in
    if decide (physical_hash_actual <> cp_physical_hash checkpoint)
    then mismatch (CheckpointVerificationError_PhysicalHashMismatch (cp_physical_hash checkpoint) physical_hash_actual)
    else Ok tt.

(** The body of the loop between [begin_block] and [end_block]. *)
Definition check_block_data d (dataset_kind : DatasetKind) (check_logical_hashes : bool)
    (block_hash : Multihash) (block : MetadataBlockDataStream) : res VerificationError unit :=
  match mds_new_data (mbd_event block) with
  | Some output_slice =>
      let! _ := check_data_slice d dataset_kind check_logical_hashes block_hash output_slice in
      match mds_new_checkpoint (mbd_event block) with
      | Some checkpoint => check_checkpoint d block_hash checkpoint
      | None => Ok tt
      end
  | None => Ok tt
  end.

Fixpoint check_blocks_data d (dataset_kind : DatasetKind) (check_logical_hashes : bool) (num_blocks block_index : nat)
    (plan : list (Multihash * MetadataBlockDataStream)) : verified unit :=
  match plan with
  | [] => verified_ret tt
  | (block_hash, block) :: rest =>
      let+ _ := tell (Listener_begin_block block_hash block_index num_blocks VerificationPhase_DataIntegrity) in
      let+ _ := from_fuelled (Some (check_block_data d dataset_kind check_logical_hashes block_hash block)) in
      let+ _ := tell (Listener_end_block block_hash block_index num_blocks VerificationPhase_DataIntegrity) in
      check_blocks_data d dataset_kind check_logical_hashes num_blocks (S block_index) rest
  end.

Definition filter_data_stream_blocks (blocks : list HashedMetadataBlock)
    : list (Multihash * MetadataBlockDataStream) :=
  omap (fun hb : HashedMetadataBlock => option_map (pair hb.1) (as_data_stream_block hb.2)) blocks.

Definition check_data_integrity datasets (dataset_handle : DatasetHandle) (dataset_kind : DatasetKind)
    (block_range : BlockRange) (check_logical_hashes : bool) : verified unit :=
  let chain := chain_at datasets dataset_handle in
  let+ head := from_fuelled (Some (range_head chain block_range)) in
  let+ blocks := from_fuelled (collect_blocks (iter_blocks_interval fuel chain head block_range.1 false)) in
  let plan := filter_data_stream_blocks blocks in
  let+ _ := tell (Listener_begin_phase VerificationPhase_DataIntegrity) in
  let+ _ := check_blocks_data (datasets (dh_id dataset_handle)) dataset_kind check_logical_hashes
              (length plan) 0 plan in
  tell (Listener_end_phase VerificationPhase_DataIntegrity).

(** * Replay *)

Record VerificationStep := mkVerificationStep {
  vs_request : TransformRequestExt;
  vs_expected_block : MetadataBlock;
  vs_expected_hash : Multihash
}.

Variable resolve_dataset_ref : DatasetRef -> res GetDatasetError DatasetHandle.
Variable check_action_allowed : DatasetHandle -> DatasetAction -> res DatasetActionUnauthorizedError unit.
(** The random name of the operation that replays a block. *)
Variable operation_id : Multihash -> string.

(** The map of the vocabularies of the inputs. *)
Fixpoint input_vocabs datasets (inputs : list TransformInput) (vocabs : gmap DatasetID DatasetVocabulary)
    : fuelled VerificationError (gmap DatasetID DatasetVocabulary) :=
  match inputs with
  | [] => Some (Ok vocabs)
  | input :: rest =>
      let? id := Some (unwrap (DatasetRef_id (ti_dataset_ref input))) in
      let? vocab := option_map (map_err VerificationError_Internal)
                      (get_vocab resolve_dataset_ref fuel datasets (DatasetRef_ID id)) in
      input_vocabs datasets rest (<[id := vocab]> vocabs)
  end.

Fixpoint input_aliases (inputs : list TransformInput) (aliases : gmap DatasetID string)
    : res VerificationError (gmap DatasetID string) :=
  match inputs with
  | [] => Ok aliases
  | i :: rest =>
      let! id := unwrap (DatasetRef_id (ti_dataset_ref i)) in
      let! alias := unwrap (ti_alias i) in
      input_aliases rest (<[id := alias]> aliases)
  end.

(** The [map_err] behind the stream of inputs. *)
Definition step_input_err (e : TransformError) : VerificationError :=
  match e with
  | TransformError_Access e => VerificationError_Access e
  | TransformError_Internal e => VerificationError_Internal e
  | _ => VerificationError_Internal mkInternalError
  end.

Fixpoint step_inputs datasets (aliases : gmap DatasetID string) (vocabs : gmap DatasetID DatasetVocabulary)
    (query_inputs : list ExecuteTransformInput) : fuelled VerificationError (list TransformRequestInputExt) :=
  match query_inputs with
  | [] => Some (Ok [])
  | slice :: rest =>
      let? alias := Some (unwrap (aliases !! eti_dataset_id slice)) in
      let? vocab := Some (unwrap (vocabs !! eti_dataset_id slice)) in
      let? i := option_map (map_err step_input_err)
                  (get_transform_input_from_query_input resolve_dataset_ref check_action_allowed fuel datasets
                     slice alias (Some vocab)) in
      let? inputs := step_inputs datasets aliases vocabs rest in
      Some (Ok (i :: inputs))
  end.

(** What the steps of a plan share. *)
Record PlanContext := mkPlanContext {
  pc_dataset_handle : DatasetHandle;
  pc_transform : Transform;
  pc_schema : option SchemaRef;
  pc_vocab : DatasetVocabulary;
  pc_aliases : gmap DatasetID string;
  pc_vocabs : gmap DatasetID DatasetVocabulary
}.

Definition verification_step datasets (ctx : PlanContext) (hb : HashedMetadataBlock)
    : fuelled VerificationError VerificationStep :=
  let? event := Some (unwrap (into_variant (T := ExecuteTransform) (mb_event hb.2))) in
  let? inputs := step_inputs datasets (pc_aliases ctx) (pc_vocabs ctx) (et_query_inputs event) in
  let? prev_block_hash := Some (unwrap (mb_prev_block_hash hb.2)) in
  Some (Ok (mkVerificationStep
    (mkTransformRequestExt (operation_id hb.1) (pc_dataset_handle ctx) BlockRef_Head prev_block_hash
       (pc_transform ctx) (mb_system_time hb.2) (pc_schema ctx) (et_prev_offset event) inputs
       (pc_vocab ctx) (et_prev_checkpoint event))
    hb.2 hb.1)).

Fixpoint verification_steps datasets (ctx : PlanContext) (blocks : list HashedMetadataBlock)
    : fuelled VerificationError (list VerificationStep) :=
  match blocks with
  | [] => Some (Ok [])
  | hb :: rest =>
      let? step := verification_step datasets ctx hb in
      let? plan := verification_steps datasets ctx rest in
      Some (Ok (step :: plan))
  end.

Definition range_tail_sequence_number (chain : MetadataChainImpl BR RR) (tail : option Multihash)
    : res VerificationError (option u64) :=
  match tail with
  | Some tail =>
      let! block := map_err VerificationError_from_GetBlockError (get_block (meta_block_repo chain) tail) in
      Ok (Some (mb_sequence_number block))
  | None => Ok None
  end.

Definition get_verification_plan datasets (dataset_handle : DatasetHandle) (block_range : BlockRange)
    : fuelled VerificationError (list VerificationStep) :=
  let metadata_chain := chain_at datasets dataset_handle in
  let? head := Some (range_head metadata_chain block_range) in
  let? tail_sequence_number := Some (range_tail_sequence_number metadata_chain block_range.1) in
  let? visitors := option_map internal (accept fuel metadata_chain (plan_visitors tail_sequence_number)) in
  match visitors with
  | [PlanVisitor_transform t; PlanVisitor_vocab v; PlanVisitor_schema s; PlanVisitor_queries q] =>
      let? schema := Some (match into_event s with
                           | Some e => let! a := internal (schema_as_arrow e) in Ok (Some a)
                           | None => Ok None
                           end) in
      let? _ := Some (match block_range.1 with
                      | Some tail =>
                          if negb (col_finished_range (gfc_state q))
                          then Err (VerificationError_InvalidInterval (mkInvalidIntervalError head tail))
                          else Ok tt
                      | None => Ok tt
                      end) in
      let? source := Some (match into_event t with
                           | Some source => Ok source
                           | None => Err (VerificationError_Internal mkInternalError)
                           end) in
      let? dataset_vocabs := input_vocabs datasets (st_inputs source) ∅ in
      let? aliases := Some (input_aliases (st_inputs source) ∅) in
      verification_steps datasets
        (mkPlanContext dataset_handle (st_transform source) schema
           (DatasetVocabulary_from_SetVocab (default SetVocab_default (into_event v))) aliases dataset_vocabs)
        (rev (col_blocks (gfc_state q)))
  | _ => Some Panic
  end.

(** [cmp_actual_event] *)
Definition comparable_event (expected_event actual_event : ExecuteTransform) : ExecuteTransform :=
  mkExecuteTransform (et_query_inputs actual_event) (et_prev_checkpoint actual_event) (et_prev_offset actual_event)
    (match et_new_data actual_event, et_new_data expected_event with
     | Some actual_slice, Some expected_slice =>
         Some (mkDataSlice (ds_logical_hash actual_slice) (ds_physical_hash expected_slice)
                 (ds_offset_interval actual_slice) (ds_size expected_slice))
     | actual_slice, _ => actual_slice
     end)
    (et_new_checkpoint expected_event) (et_new_watermark actual_event).

(** [do_transform] with the "commit" that only prepares the event. *)
Definition replay_event d (request : TransformRequestExt) : res VerificationError ExecuteTransform :=
  map_err VerificationError_Transform
    (let! response := run_engine request in
     map_err TransformError_Internal
       (prepare_execute_transform d (transform_params request response) (trs_new_data response)
          (option_map CheckpointRef_New (trs_new_checkpoint response)))).

Definition replay_step d (num_steps step_index : nat) (step : VerificationStep) : verified unit :=
  let block_hash := vs_expected_hash step in
  let+ expected_event := from_fuelled (Some (unwrap (into_variant (T := ExecuteTransform)
                                               (mb_event (vs_expected_block step))))) in
  let+ _ := tell (Listener_begin_block block_hash step_index num_steps VerificationPhase_ReplayTransform) in
  let+ _ := from_fuelled (Some (unwrap (mb_prev_block_hash (vs_expected_block step)))) in
  let+ actual_event := from_fuelled (Some (replay_event d (vs_request step))) in
  if decide (expected_event <> comparable_event expected_event actual_event) then
    let err := VerificationError_DataNotReproducible
                 (mkDataNotReproducible block_hash (MetadataEvent_ExecuteTransform expected_event)
                    (MetadataEvent_ExecuteTransform actual_event)) in
    let+ _ := tell (Listener_error err) in
    from_fuelled (Some (Err err))
  else tell (Listener_end_block block_hash step_index num_steps VerificationPhase_ReplayTransform).

Fixpoint replay_steps d (num_steps step_index : nat) (plan : list VerificationStep) : verified unit :=
  match plan with
  | [] => verified_ret tt
  | step :: rest =>
      let+ _ := replay_step d num_steps step_index step in
      replay_steps d num_steps (S step_index) rest
  end.

Definition verify_transform datasets (dataset_ref : DatasetRef) (block_range : BlockRange) : verified unit :=
  let+ dataset_handle := from_fuelled (Some (map_err VerificationError_from_GetDatasetError
                                       (resolve_dataset_ref dataset_ref))) in
  let+ verification_plan := from_fuelled (get_verification_plan datasets dataset_handle block_range) in
  let+ _ := tell (Listener_begin_phase VerificationPhase_ReplayTransform) in
  let+ _ := replay_steps (datasets (dh_id dataset_handle)) (length verification_plan) 0 verification_plan in
  tell (Listener_end_phase VerificationPhase_ReplayTransform).

(** * The service *)

(** The [try] block. *)
Definition verify_outcome datasets (dataset_handle : DatasetHandle) (dataset_kind : DatasetKind)
    (block_range : BlockRange) (options : VerificationOptions) : verified unit :=
  let+ _ := if vop_check_integrity options then
              let+ _ := check_metadata_integrity datasets dataset_handle block_range in
              check_data_integrity datasets dataset_handle dataset_kind block_range
                (vop_check_logical_hashes options)
            else verified_ret tt in
  if bool_decide (dataset_kind = DatasetKind_Derivative) && vop_replay_transformations options
  then verify_transform datasets (DatasetRef_Handle dataset_handle) block_range
  else verified_ret tt.

(** The calls, the result, and the repository with the refreshed summary. *)
Definition verify datasets (dataset_ref : DatasetRef) (block_range : BlockRange) (options : VerificationOptions)
    : option (list ListenerCall * VerificationResult * (DatasetID -> Dataset)) :=
  match map_err VerificationError_from_GetDatasetError (resolve_dataset_ref dataset_ref) with
  | Ok dataset_handle =>
      match map_err VerificationError_from_Unauthorized (check_action_allowed dataset_handle DatasetAction_Read) with
      | Ok _ =>
          match get_summary fuel (datasets (dh_id dataset_handle)) GetSummaryOpts_default with
          | Some (summary, d) =>
              let datasets' := <[dh_id dataset_handle := d]> datasets in
              match internal summary with
              | Ok summary =>
                  match verify_outcome datasets' dataset_handle (dsu_kind summary) block_range options with
                  | Some (log, outcome) =>
                      let result := mkVerificationResult (Some dataset_handle) outcome in
                      Some (Listener_begin :: log ++
                              match outcome with
                              | Ok _ => [Listener_success result]
                              | Err error => [Listener_error error]
                              | Panic => []
                              end, result, datasets')
                  | None => None
                  end
              | Err e => Some ([], VerificationResult_err dataset_handle e, datasets')
              | Panic => Some ([], mkVerificationResult (Some dataset_handle) Panic, datasets')
              end
          | None => None
          end
      | Err e => Some ([], VerificationResult_err dataset_handle e, datasets)
      | Panic => Some ([], mkVerificationResult (Some dataset_handle) Panic, datasets)
      end
  | Err e => Some ([], VerificationResult_err_no_handle e, datasets)
  | Panic => Some ([], mkVerificationResult None Panic, datasets)
  end.

(** Each request with the calls of the listener it was given; a panic ends it all. *)
Fixpoint verify_multi datasets (requests : list VerificationRequest) (options : VerificationOptions)
    : option (list (list ListenerCall * VerificationResult) * (DatasetID -> Dataset)) :=
  match requests with
  | [] => Some ([], datasets)
  | request :: rest =>
      match (match resolve_dataset_ref (vrq_dataset_ref request) with
             | Ok _ => verify datasets (vrq_dataset_ref request) (vrq_block_range request) options
             | Err e => Some ([], VerificationResult_err_no_handle (VerificationError_from_GetDatasetError e), datasets)
             | Panic => Some ([], mkVerificationResult None Panic, datasets)
             end) with
      | Some (log, result, datasets') =>
          if panics (vr_outcome result) then Some ([(log, result)], datasets')
          else match verify_multi datasets' rest options with
          | Some (results, datasets'') => Some ((log, result) :: results, datasets'')
          | None => None
          end
      | None => None
      end
  end.
End Integrity.
