(* ===== verification/VerificationFacts.v ===== *)
(** What the verification of a dataset decides: validity of the chain, integrity
    of the files, and which of the recorded answers an engine gives again. *)

From S2P Require Import Prelude Multiformats Grammar Dids Identity Dtos ChainRepos ObjectRepoFs MetadataChain.
From S2P Require Import ChainVisitors ChainValidators ChainRules ChainAppend ChainInvariants Dataset Sync SyncFacts.
From S2P Require Import EventSourcing TaskSystem FlowSystem Messages FlowTimeWheel FlowStore FlowService DatasetChanges.
From S2P Require Import Snapshots Transform TransformFacts Verification.

(** * Rebuilding a chain in memory *)

Section Rebuild.
Context `{EN : Engines} {CL : CodecLaws C}.

Abbreviation MemChain := (MetadataChainImpl (MetadataBlockRepositoryImpl ObjectRepositoryInMemory)
                            (ReferenceRepositoryImpl NamedObjectRepositoryInMemory)).

Implicit Types (c : MemChain) (l : list HashedMetadataBlock).

Lemma empty_chain_state : chain_state (empty_chain : MemChain) [].
Proof. split; [done|constructor..]. Qed.

Lemma integrity_opts_checked h : Multihash_wf h -> checked_opts (integrity_append_opts h).
Proof. intros Hwf. split; try done. by intros p [= <-]. Qed.

Lemma append_no_ref_not_found fuel c b opts e c' : append fuel c b opts <> Some (Err (AppendError_RefNotFound e), c').
Proof.
  unfold append. intros H.
  destruct (if decide _ then _ else _) as [v|] eqn:Hv; [|done].
  assert (Hno : v <> Err (AppendError_RefNotFound e)).
  { intros ->. revert Hv. case_decide; [|done]. unfold validate_append.
    destruct (make_validators b); [|done..].
    destruct (accept_by_interval _ _ _ _ _) as [[|[[]|]|]|]; try case_decide; done. }
  destruct v as [[]|e'|]; cbn [res_bind] in H; [|congruence..].
  destruct (append_check_ref (ref_repo c) b opts) as [[]|e'|] eqn:Hr; [|injection H as -> _|done].
  - injection H as H. unfold append_store in H.
    destruct (insert_block _ _ _) as [[h|[]|] br]; simpl in H; try done.
    destruct (ao_update_ref opts) as [r|]; [|done]. simpl in H. done.
  - revert Hr. unfold append_check_ref, append_actual_ref. destruct (ao_update_ref opts) as [r|]; [|done].
    destruct (_ || _); [|done]. destruct (rr_get (ref_repo c) r) as [|[]|]; cbn; repeat case_match; congruence.
Qed.

(** A block on top of a chain in memory: accepted exactly when it is valid. *)
Lemma memory_append fuel c l h b :
  chain_state c l -> length l < fuel -> Multihash_wf h -> is_ok (write_manifest b) = true -> h ∉ l.*1 ->
  mb_prev_block_hash b = head_hash l ->
  (valid_next b l /\ exists c', append fuel c b (integrity_append_opts h) = Some (Ok h, c') /\ chain_state c' ((h, b) :: l)) \/
  (~ valid_next b l /\ exists x c', append fuel c b (integrity_append_opts h) = Some (x, c') /\
     is_ok x = false /\ (forall e, x <> Err (AppendError_RefNotFound e)) /\ (supported b -> x <> Panic)).
Proof.
  intros Hst Hf Hwf Hw Hn Hp. pose proof (integrity_opts_checked h Hwf) as Ho.
  destruct (write_manifest b) as [data| |] eqn:Hd; [|done..].
  assert (Hi : exists br, insert_block (meta_block_repo c) b (append_insert_opts (integrity_append_opts h)) = (Ok h, br)).
  { simpl. unfold mbr_insert_block, mbr_insert_block_data. rewrite Hd. simpl. unfold obj_mem_insert_bytes. simpl. eauto. }
  destruct Hi as [br Hi].
  pose proof (cs_linked _ _ Hst) as Hl. rewrite <- Hp in Hl.
  destruct (append_some fuel c l b (integrity_append_opts h) Hl Hf) as (x & c' & Hx).
  destruct (is_ok x) eqn:Hok.
  - left. destruct x as [h'| |]; [|done..].
    pose proof (proj1 (append_ok_iff _ _ _ _ _ _ _ Hst Hf Ho) Hx) as (_ & Hv & br' & rr & Hi' & _ & _).
    rewrite Hi in Hi'. injection Hi' as <- <-. split; [done|]. exists c'. split; [done|].
    apply (append_extends fuel c l b (integrity_append_opts h) h c' Hst Hf Ho); [|done].
    intros b' Hin. exfalso. apply Hn, list_elem_of_fmap. by exists (h, b').
  - right. split.
    + intros Hv. assert (Hset : exists rr, rr_set (ref_repo c) BlockRef_Head h = (Ok tt, rr)) by (simpl; unfold refrepo_set; simpl; eauto).
      destruct Hset as [rr Hr].
      assert (Ha : append fuel c b (integrity_append_opts h) = Some (Ok h, mkMetadataChainImpl br rr)).
      { apply (append_ok_iff _ _ _ _ _ _ _ Hst Hf Ho). split_and!; [done..|]. by exists br, rr. }
      rewrite Ha in Hx. injection Hx as <- _. done.
    + exists x, c'. split_and!; [done..| |].
      * intros e ->. by apply append_no_ref_not_found in Hx.
      * intros Hs. destruct (append_total fuel c [] l b (integrity_append_opts h) Hst Hf Ho Hp Hs) as (y & c2 & Hy & Hny).
        rewrite Hx in Hy. by injection Hy as <- _.
Qed.

(** The blocks [bs], oldest first, on top of a chain in memory. *)
Lemma rebuild_chain_spec fuel c l bs :
  chain_state c l -> length (rev bs ++ l) < fuel -> NoDup (rev bs ++ l).*1 ->
  (forall hb, hb ∈ bs -> Multihash_wf hb.1 /\ is_ok (write_manifest hb.2) = true) ->
  (forall l1 h b l2, rev bs ++ l = l1 ++ (h, b) :: l2 -> (h, b) ∈ bs -> mb_prev_block_hash b = head_hash l2) ->
  exists x, rebuild_chain fuel c bs = Some x /\ (x = Ok tt <-> valid_chain (rev bs ++ l)) /\
    (x = Ok tt \/ x = Err (VerificationError_Internal mkInternalError) \/ exists hb, hb ∈ bs /\ ~ supported hb.2).
Proof.
  revert c l; induction bs as [|[h b] bs IH]; intros c l Hst Hf Hnd Hall Hlink.
  { exists (Ok tt). split; [done|]. split; [|by left]. split; [intros _; apply Hst|done]. }
  simpl in Hf, Hnd, Hlink |- *. rewrite <- !app_assoc in *. simpl in *.
  destruct (Hall (h, b) ltac:(left)) as [Hwf Hw]. simpl in Hwf, Hw.
  assert (Hn : h ∉ l.*1).
  { rewrite fmap_app in Hnd. apply NoDup_app in Hnd as (_ & _ & Hnd). simpl in Hnd. by apply NoDup_cons in Hnd as [? _]. }
  assert (Hp : mb_prev_block_hash b = head_hash l) by (eapply Hlink; [done|left]).
  assert (Hfl : length l < fuel) by (rewrite length_app in Hf; simpl in Hf; lia).
  destruct (memory_append fuel c l h b Hst Hfl Hwf Hw Hn Hp) as [(Hv & c' & Ha & Hst')|(Hv & x & c' & Ha & Hx & Hnr & Hs)].
  - rewrite Ha. destruct (IH c' ((h, b) :: l) Hst' Hf Hnd) as (x & Hx & Hiff & Hout).
    + intros hb Hin. apply Hall. by right.
    + intros l1 h1 b1 l2 Heq Hin. eapply Hlink; [done|by right].
    + exists x. split; [done|]. split; [done|]. destruct Hout as [?|[?|(hb & ? & ?)]]; [by auto..|].
      right. right. exists hb. split; [by right|done].
  - rewrite Ha. assert (Hnv : ~ valid_chain (rev bs ++ (h, b) :: l)).
    { intros Hc. apply valid_chain_app in Hc. by inversion Hc. }
    destruct x as [|e|]; [done|..].
    + exists (Err (integrity_append_err e)). split; [done|]. split; [by split|]. right. left.
      destruct e; try done. by destruct (Hnr e).
    + exists Panic. split; [done|]. split; [by split|]. right. right. exists (h, b). split; [left|]. by intros ?%Hs.
Qed.
End Rebuild.

(** * Integrity *)

Section Integrity.
Context `{EN : Engines} {CL : CodecLaws C} {SC : SummaryCodec} {DH : DataHash} {BR RR DR CR IR : Type}
        `{!MetadataBlockRepository BR} `{!ReferenceRepository RR} `{!ObjectRepository DR}
        `{!ObjectRepository CR} `{!NamedObjectRepository IR}.

Implicit Types (datasets : DatasetID -> DatasetImpl BR RR DR CR IR) (d : DatasetImpl BR RR DR CR IR)
  (l : list HashedMetadataBlock).

Lemma linked_prev (r : BR) o l1 h b l2 : linked r o (l1 ++ (h, b) :: l2) -> mb_prev_block_hash b = head_hash l2.
Proof. intros Hl%linked_app. inversion Hl as [|? ? ? _ Hl2]; subst. by eapply linked_head. Qed.

(** The chain of the dataset is stored, whether it is valid or not. *)
Record stored_chain (fuel : nat) (c : MetadataChainImpl BR RR) (h : Multihash) l : Prop := {
  sc_head : resolve_ref c BlockRef_Head = Ok h;
  sc_linked : linked (meta_block_repo c) (Some h) l;
  sc_fuel : length l < fuel
}.

Lemma stored_collect fuel c h l :
  stored_chain fuel c h l -> collect_blocks (iter_blocks_interval fuel c h None false) = Some (Ok l).
Proof.
  intros [_ Hl Hf]. unfold iter_blocks_interval. by rewrite (interval_loop_all _ _ _ _ None Hl Hf) by done.
Qed.

Definition phase_calls (phase : VerificationPhase) (calls : list ListenerCall) (x : res VerificationError unit)
    : list ListenerCall :=
  Listener_begin_phase phase :: calls ++ (if is_ok x then [Listener_end_phase phase] else []).

Lemma rebuild_linked fuel (r : BR) o l1 :
  linked r o l1 -> length l1 < fuel ->
  (forall hb, hb ∈ l1 -> Multihash_wf hb.1 /\ is_ok (write_manifest hb.2) = true) ->
  exists x, rebuild_chain fuel empty_chain (rev l1) = Some x /\ (x = Ok tt <-> valid_chain l1) /\
    (x = Ok tt \/ x = Err (VerificationError_Internal mkInternalError) \/ exists hb, hb ∈ l1 /\ ~ supported hb.2).
Proof.
  intros Hl Hf Hall.
  assert (Hmem : forall hb, hb ∈ rev l1 <-> hb ∈ l1) by (intros hb; by rewrite !list_elem_of_In, <- in_rev).
  destruct (rebuild_chain_spec fuel empty_chain [] (rev l1) empty_chain_state) as (x & Hx & Hiff & Hout);
    rewrite ?rev_involutive, ?app_nil_r in *; [done|by eapply linked_nodup|intros hb ?%Hmem; by apply Hall| |].
  - intros k1 h b k2 Heq _. subst l1. by eapply linked_prev.
  - exists x. split; [done|]. split; [done|].
    destruct Hout as [?|[?|(hb & ?%Hmem & ?)]]; eauto.
Qed.

Lemma check_metadata_spec fuel datasets hdl h l :
  stored_chain fuel (chain_at datasets hdl) h l ->
  (forall hb, hb ∈ l -> Multihash_wf hb.1 /\ is_ok (write_manifest hb.2) = true) ->
  exists x, check_metadata_integrity fuel datasets hdl (None, None) =
      Some (phase_calls VerificationPhase_MetadataIntegrity [] x, x) /\
    (x = Ok tt <-> valid_chain l) /\
    (x = Ok tt \/ x = Err (VerificationError_Internal mkInternalError) \/ exists hb, hb ∈ l /\ ~ supported hb.2).
Proof.
  intros Hst Hall. destruct (rebuild_linked fuel (meta_block_repo (chain_at datasets hdl)) (Some h) l) as (x & Hx & Hiff & Hout);
    [apply Hst|apply Hst|done|].
  exists x. split; [|done]. unfold check_metadata_integrity, range_head. cbn [snd fst]. rewrite (sc_head _ _ _ _ Hst).
  cbn. rewrite (stored_collect _ _ _ _ Hst). cbn. rewrite Hx. by destruct x as [[]| |].
Qed.

(** A block that is not the first one is never accepted first. *)
Lemma rebuild_not_first fuel h b bs p :
  0 < fuel -> Multihash_wf h -> mb_prev_block_hash b = Some p ->
  exists x, rebuild_chain fuel empty_chain ((h, b) :: bs) = Some x /\ is_ok x = false.
Proof.
  intros Hf Hwf Hp. simpl.
  destruct (append fuel empty_chain b (integrity_append_opts h)) as [[[h'| |] c']|] eqn:Ha; [|eauto..|].
  - exfalso. apply (append_ok_iff fuel _ [] b _ h' c' empty_chain_state Hf (integrity_opts_checked h Hwf)) in Ha.
    destruct Ha as [Hn _]. by rewrite Hp in Hn.
  - exfalso. destruct fuel as [|fuel]; [lia|].
    assert (Hg : get_block (meta_block_repo empty_chain) p = Err (GetBlockError_NotFound (mkBlockNotFoundError p))).
    { rewrite get_block_mem. simpl. by rewrite lookup_empty. }
    destruct (make_validators b) as [vs| |] eqn:Hm;
      [|revert Ha; unfold append, validate_append; rewrite decide_True, Hm by done; done..].
    pose proof (append_prev_not_found fuel empty_chain b (integrity_append_opts h) p vs Hp Hg Hm eq_refl). congruence.
Qed.

(** ** Files *)

(** A file is stored under the hash with this size and these contents. *)
Record holds {R} `{!ObjectRepository R} (repo : R) (hash : Multihash) (size : u64) (data : Bytes) (physical_hash : Multihash)
    : Prop := {
  ho_size : or_get_size repo hash = Ok size;
  ho_data : or_get_stream repo hash = Ok (Some data);
  ho_hash : get_file_physical_hash data = Ok physical_hash
}.

(** Files are reproduced bit by bit, except for those of derivative datasets,
    which may be another encoding of the same records. *)
Definition intact_slice d (kind : DatasetKind) (logical : bool) (s : DataSlice) : Prop :=
  exists data p, holds (dsi_data_repo d) (ds_physical_hash s) (ds_size s) data p /\
    (p = ds_physical_hash s \/
     kind = DatasetKind_Derivative /\ (logical = true -> get_parquet_logical_hash data = Ok (ds_logical_hash s))).

Definition intact_checkpoint d (c : Checkpoint) : Prop :=
  exists data, holds (dsi_checkpoint_repo d) (cp_physical_hash c) (cp_size c) data (cp_physical_hash c).

(** The files a block names; a checkpoint counts where there is data. *)
Definition intact_block d (kind : DatasetKind) (logical : bool) (b : MetadataBlockDataStream) : Prop :=
  forall s, mds_new_data (mbd_event b) = Some s ->
    intact_slice d kind logical s /\ forall c, mds_new_checkpoint (mbd_event b) = Some c -> intact_checkpoint d c.

Lemma cached_ok {R} `{!ObjectRepository R} (repo : R) h data :
  CachedObject_from repo h = Ok data <-> or_get_stream repo h = Ok (Some data).
Proof.
  unfold CachedObject_from. destruct (or_get_stream repo h) as [[x|]| |]; simpl; naive_solver.
Qed.

Lemma internal_ok {E X} (m : res E X) a : internal m = Ok a <-> m = Ok a.
Proof. unfold internal, internal_as, int_err. destruct m; simpl; naive_solver. Qed.

Lemma check_data_slice_ok d kind logical h s :
  check_data_slice d kind logical h s = Ok tt <-> intact_slice d kind logical s.
Proof.
  unfold check_data_slice, intact_slice. rewrite res_bind_ok. setoid_rewrite internal_ok. split.
  - intros (size & Hs & H). destruct (decide (size <> ds_size s)) as [|Hsz%dec_stable]; [done|]. subst size.
    apply res_bind_ok in H as (data & Hd & H). apply map_err_ok, cached_ok in Hd.
    apply res_bind_ok in H as (p & Hp%(proj1 (internal_ok _ _)) & H).
    exists data, p. split; [by split|]. destruct (decide (p <> ds_physical_hash s)) as [Hne|Heq%dec_stable]; [|by left].
    destruct (decide (kind = DatasetKind_Root)) as [|Hk]; [done|]. right. split; [by destruct kind|]. intros ->.
    apply res_bind_ok in H as (lh & Hl%(proj1 (internal_ok _ _)) & H).
    destruct (decide (lh <> ds_logical_hash s)) as [|Heq%dec_stable]; [done|]. by subst lh.
  - intros (data & p & [Hs Hd Hp] & Hor). exists (ds_size s). split; [done|]. rewrite decide_False by tauto.
    rewrite (proj2 (cached_ok _ _ _) Hd). simpl. rewrite Hp. simpl.
    destruct (decide (p <> ds_physical_hash s)) as [Hne|Heq%dec_stable]; [|done].
    destruct Hor as [|[-> Hl]]; [done|]. rewrite decide_False by done. destruct logical; [|done].
    rewrite (Hl eq_refl). simpl. by rewrite decide_False by tauto.
Qed.

Lemma check_checkpoint_ok d h c : check_checkpoint d h c = Ok tt <-> intact_checkpoint d c.
Proof.
  unfold check_checkpoint, intact_checkpoint. rewrite res_bind_ok. setoid_rewrite internal_ok. split.
  - intros (size & Hs & H). destruct (decide (size <> cp_size c)) as [|Hsz%dec_stable]; [done|]. subst size.
    apply res_bind_ok in H as (data & Hd & H). apply map_err_ok, cached_ok in Hd.
    apply res_bind_ok in H as (p & Hp%(proj1 (internal_ok _ _)) & H).
    destruct (decide (p <> cp_physical_hash c)) as [|Heq%dec_stable]; [done|]. subst p. exists data. by split.
  - intros (data & [Hs Hd Hp]). exists (cp_size c). split; [done|]. rewrite decide_False by tauto.
    rewrite (proj2 (cached_ok _ _ _) Hd). simpl. rewrite Hp. simpl. by rewrite decide_False by tauto.
Qed.

Lemma check_block_data_ok d kind logical h b :
  check_block_data d kind logical h b = Ok tt <-> intact_block d kind logical b.
Proof.
  unfold check_block_data, intact_block. destruct (mds_new_data (mbd_event b)) as [s|]; [|naive_solver].
  rewrite res_bind_ok. split.
  - intros ([] & Hs%check_data_slice_ok & Hc) s' [= <-]. split; [done|]. intros c Hcp. rewrite Hcp in Hc.
    by apply check_checkpoint_ok in Hc.
  - intros H. destruct (H s eq_refl) as [Hs Hc]. exists tt. split; [by apply check_data_slice_ok|].
    destruct (mds_new_checkpoint (mbd_event b)) as [c|]; [|done]. by apply check_checkpoint_ok, Hc.
Qed.

(** Mismatches name the block. *)
Definition names (h : Multihash) {X} (x : res VerificationError X) : Prop :=
  match x with
  | Err (VerificationError_DataDoesNotMatchMetadata e) => ddm_block_hash e = h
  | Err (VerificationError_CheckpointDoesNotMatchMetadata e) => cdm_block_hash e = h
  | _ => True
  end.

Lemma names_bind {X Y} h (m : res VerificationError X) (k : X -> res VerificationError Y) :
  names h m -> (forall a, names h (k a)) -> names h (res_bind m k).
Proof. by destruct m as [a|[]|]; simpl; eauto. Qed.

Lemma names_internal {E X} h (m : res E X) : names h (internal m).
Proof. by destruct m. Qed.

Lemma check_block_data_names d kind logical h b : names h (check_block_data d kind logical h b).
Proof.
  assert (Hcached : forall {R} `{!ObjectRepository R} (repo : R) x,
    names h (map_err VerificationError_Internal (CachedObject_from repo x))).
  { intros R HR repo x. by destruct (CachedObject_from repo x). }
  unfold check_block_data, check_data_slice, check_checkpoint.
  repeat first [done | apply names_internal | apply Hcached | apply names_bind; [|intros ?] | case_match].
Qed.

(** The calls for blocks that were found in order. *)
Fixpoint block_calls (phase : VerificationPhase) (num_blocks i : nat) (hs : list Multihash) : list ListenerCall :=
  match hs with
  | [] => []
  | h :: hs => Listener_begin_block h i num_blocks phase :: Listener_end_block h i num_blocks phase ::
      block_calls phase num_blocks (S i) hs
  end.

(** The loop stops at the first block that is not in order. *)
Lemma check_blocks_data_spec d kind logical n i plan :
  exists calls x, check_blocks_data d kind logical n i plan = Some (calls, x) /\
    ((x = Ok tt /\ Forall (fun hb => intact_block d kind logical hb.2) plan /\
      calls = block_calls VerificationPhase_DataIntegrity n i plan.*1) \/
     exists p1 h b p2, plan = p1 ++ (h, b) :: p2 /\ Forall (fun hb => intact_block d kind logical hb.2) p1 /\
       ~ intact_block d kind logical b /\ x = check_block_data d kind logical h b /\
       calls = block_calls VerificationPhase_DataIntegrity n i p1.*1 ++
               [Listener_begin_block h (i + length p1) n VerificationPhase_DataIntegrity]).
Proof.
  revert i; induction plan as [|[h b] plan IH]; intros i.
  { eexists _, _. split; [done|]. left. by split_and!. }
  destruct (IH (S i)) as (calls & x & Hx & Hcase). cbn.
  pose proof (check_block_data_ok d kind logical h b) as Hiff.
  destruct (check_block_data d kind logical h b) as [[]|e|] eqn:Hb; cbn.
  2,3: eexists _, _; split; [done|]; right; exists [], h, b, plan; split_and!;
    [done|done|by intros ?%Hiff|done|by rewrite Nat.add_0_r].
  pose proof (proj1 Hiff eq_refl) as Hok.
  rewrite Hx. eexists _, _. split; [done|]. destruct Hcase as [(-> & Hall & ->)|(p1 & h1 & b1 & p2 & -> & Hall & Hn & -> & ->)].
  - left. split_and!; [done|by constructor|done].
  - right. exists ((h, b) :: p1), h1, b1, p2. split_and!; [done|by constructor|done|done|].
    simpl. by rewrite Nat.add_succ_r.
Qed.

Lemma check_data_spec fuel datasets hdl kind logical h l :
  stored_chain fuel (chain_at datasets hdl) h l ->
  let plan := filter_data_stream_blocks l in
  exists calls x, check_data_integrity fuel datasets hdl kind (None, None) logical =
      Some (phase_calls VerificationPhase_DataIntegrity calls x, x) /\
    check_blocks_data (datasets (dh_id hdl)) kind logical (length plan) 0 plan = Some (calls, x).
Proof.
  intros Hst plan. destruct (check_blocks_data_spec (datasets (dh_id hdl)) kind logical (length plan) 0 plan)
    as (calls & x & Hx & _).
  exists calls, x. split; [|done]. unfold check_data_integrity, range_head. cbn [snd fst].
  rewrite (sc_head _ _ _ _ Hst). cbn. rewrite (stored_collect _ _ _ _ Hst). cbn.
  fold plan. rewrite Hx. unfold phase_calls. destruct x as [[]| |]; cbn; by rewrite ?app_nil_r.
Qed.
End Integrity.

(** * The blocks to replay *)

Definition is_query (hb : HashedMetadataBlock) : bool :=
  flags_contains Flag.EXECUTE_TRANSFORM (event_flag (mb_event hb.2)).

Definition queries (l : list HashedMetadataBlock) : list HashedMetadataBlock := List.filter is_query l.

Lemma is_query_spec hb : is_query hb = bool_decide (is_Some (into_variant (T := ExecuteTransform) (mb_event hb.2))).
Proof. exact (variant_flag_spec (T := ExecuteTransform) (mb_event hb.2)). Qed.

Lemma queries_cons hb l : queries (hb :: l) = if is_query hb then hb :: queries l else queries l.
Proof. done. Qed.

Lemma queries_spec l hb : hb ∈ queries l <-> hb ∈ l /\ exists e, mb_event hb.2 = MetadataEvent_ExecuteTransform e.
Proof.
  unfold queries. rewrite !list_elem_of_In, filter_In, is_query_spec, bool_decide_eq_true.
  assert (Hq : is_Some (into_variant (T := ExecuteTransform) (mb_event hb.2)) <->
    exists e, mb_event hb.2 = MetadataEvent_ExecuteTransform e); [|by rewrite Hq].
  split; [intros [e He]|intros [e ->]; by exists e]. exists e. simpl in He. destruct (mb_event hb.2); by simplify_eq.
Qed.

Abbreviation collector_in s :=
  (mkGenericFallibleCallbackVisitor s (Decision_NextOfType Flag.EXECUTE_TRANSFORM)
     (fun state hb => Ok (collect_queries state hb))).

Lemma run_collector_skip hb l s : is_query hb = false ->
  run_one (hb :: l) (Decision_NextOfType Flag.EXECUTE_TRANSFORM, collector_in s : QueryCollector) =
  run_one l (Decision_NextOfType Flag.EXECUTE_TRANSFORM, collector_in s).
Proof. intros Hq. cbn [run_one step_visitor]. unfold is_query in Hq. by rewrite Hq. Qed.

Lemma run_collector_visit hb l s : is_query hb = true ->
  run_one (hb :: l) (Decision_NextOfType Flag.EXECUTE_TRANSFORM, collector_in s : QueryCollector) =
  run_one l ((collect_queries s hb).1, collector_in (collect_queries s hb).2).
Proof.
  intros Hq. cbn [run_one step_visitor]. unfold is_query in Hq. rewrite Hq. cbn.
  by destruct (collect_queries s hb).
Qed.

Lemma collect_kept n acc hb :
  is_query hb = true -> (forall m, n = Some m -> (m < mb_sequence_number hb.2)%Z) ->
  collect_queries (mkCollector n acc false) hb =
    (Decision_NextOfType Flag.EXECUTE_TRANSFORM, mkCollector n (acc ++ [hb]) false).
Proof.
  intros Hq Hn. unfold collect_queries. unfold is_query in Hq. cbn. rewrite Hq.
  destruct n as [m|]; [|done]. specialize (Hn m eq_refl).
  destruct (Z.ltb_spec (mb_sequence_number hb.2) m); [lia|]. by rewrite decide_False by (intros [= ?]; lia).
Qed.

Lemma collect_tail acc hb :
  is_query hb = true ->
  collect_queries (mkCollector (Some (mb_sequence_number hb.2)) acc false) hb =
    (Decision_Stop, mkCollector (Some (mb_sequence_number hb.2)) (acc ++ [hb]) true).
Proof.
  intros Hq. unfold collect_queries. unfold is_query in Hq. cbn. rewrite Hq, Z.ltb_irrefl. by rewrite decide_True.
Qed.

Lemma collect_below n acc hb :
  (mb_sequence_number hb.2 < n)%Z ->
  collect_queries (mkCollector (Some n) acc false) hb = (Decision_Stop, mkCollector (Some n) acc true).
Proof. intros H%Z.ltb_lt. unfold collect_queries. cbn. by rewrite H. Qed.

(** Without a tail every query is collected. *)
Lemma run_collector_all l acc :
  run_one l (Decision_NextOfType Flag.EXECUTE_TRANSFORM, collector_in (mkCollector None acc false) : QueryCollector) =
  Ok (Decision_NextOfType Flag.EXECUTE_TRANSFORM, collector_in (mkCollector None (acc ++ queries l) false)).
Proof.
  revert acc; induction l as [|hb l IH]; intros acc; [by rewrite app_nil_r|].
  rewrite queries_cons. destruct (is_query hb) eqn:Hq.
  - rewrite run_collector_visit, (collect_kept None acc hb Hq) by done. cbn [fst snd]. by rewrite IH, <- app_assoc.
  - by rewrite run_collector_skip, IH by done.
Qed.

(** With a tail: the queries from it on.  The range counts as finished only if
    there is a query at the tail or below it. *)
Lemma run_collector_below l n acc :
  (forall hb, hb ∈ l -> (mb_sequence_number hb.2 < n)%Z) ->
  exists x, run_one l (Decision_NextOfType Flag.EXECUTE_TRANSFORM,
              collector_in (mkCollector (Some n) acc false) : QueryCollector) =
    Ok (x, collector_in (mkCollector (Some n) acc (existsb is_query l))).
Proof.
  induction l as [|hb l IH]; intros Hlt; [by eexists|]. cbn [existsb]. destruct (is_query hb) eqn:Hq.
  - rewrite run_collector_visit, collect_below by (done || apply Hlt; left). cbn [fst snd orb].
    rewrite run_one_stop. by eexists.
  - rewrite run_collector_skip by done. apply IH. intros hb' Hin. apply Hlt. by right.
Qed.

Lemma run_collector_tail l1 t b l2 acc :
  (forall hb, hb ∈ l1 -> (mb_sequence_number b < mb_sequence_number hb.2)%Z) ->
  (forall hb, hb ∈ l2 -> (mb_sequence_number hb.2 < mb_sequence_number b)%Z) ->
  exists x, run_one (l1 ++ (t, b) :: l2) (Decision_NextOfType Flag.EXECUTE_TRANSFORM,
              collector_in (mkCollector (Some (mb_sequence_number b)) acc false) : QueryCollector) =
    Ok (x, collector_in (mkCollector (Some (mb_sequence_number b)) (acc ++ queries (l1 ++ [(t, b)]))
             (existsb is_query ((t, b) :: l2)))).
Proof.
  revert acc; induction l1 as [|hb l1 IH]; intros acc Habove Hbelow.
  - cbn [app existsb]. rewrite queries_cons. destruct (is_query (t, b)) eqn:Hq.
    + pose proof (collect_tail acc (t, b) Hq) as Hc. cbn [snd] in Hc. rewrite run_collector_visit, Hc by done. cbn [fst snd orb].
      rewrite run_one_stop. by eexists.
    + rewrite run_collector_skip, app_nil_r by done. by apply run_collector_below.
  - rewrite <- !app_comm_cons, queries_cons.
    assert (Habove' : forall hb, hb ∈ l1 -> (mb_sequence_number b < mb_sequence_number hb.2)%Z).
    { intros hb' Hin. apply Habove. by right. }
    destruct (is_query hb) eqn:Hq.
    + rewrite run_collector_visit, (collect_kept _ acc hb Hq) by (done || intros m [= <-]; apply Habove; left).
      cbn [fst snd]. destruct (IH (acc ++ [hb]) Habove' Hbelow) as [x Hx]. exists x. by rewrite Hx, <- app_assoc.
    + rewrite run_collector_skip by done. by apply IH.
Qed.

(** All four visitors. *)
Lemma run_plan_visitors l n x s :
  run_one l (Decision_NextOfType Flag.EXECUTE_TRANSFORM, query_collector n) = Ok (x, collector_in s) ->
  Forall2 (fun v v' => run_visitor l v = Ok v') (plan_visitors n)
    [PlanVisitor_transform (found SetTransform l); PlanVisitor_vocab (found SetVocab l);
     PlanVisitor_schema (found SetDataSchema l); PlanVisitor_queries (collector_in s)].
Proof.
  intros Hq. unfold plan_visitors.
  repeat (constructor; [by rewrite run_visitor_embed, ?run_search_typed by done|]).
  constructor; [|constructor]. rewrite run_visitor_embed by done. unfold run_visitor. simpl in *. by rewrite Hq.
Qed.

(** * Replay *)

Section Replay.
Context `{EN : Engines} {CL : CodecLaws C} {SC : SummaryCodec} {DH : DataHash} {BR RR DR CR IR : Type}
        `{!MetadataBlockRepository BR} `{!ReferenceRepository RR} `{!ObjectRepository DR}
        `{!ObjectRepository CR} `{!NamedObjectRepository IR}.

Variable resolve_dataset_ref : DatasetRef -> res GetDatasetError DatasetHandle.
Variable check_action_allowed : DatasetHandle -> DatasetAction -> res DatasetActionUnauthorizedError unit.
Variable operation_id : Multihash -> string.

Implicit Types (datasets : DatasetID -> DatasetImpl BR RR DR CR IR) (d : DatasetImpl BR RR DR CR IR)
  (l : list HashedMetadataBlock).

(** The schema that was set last, if any. *)
Definition schema_of l : res SchemaError (option SchemaRef) :=
  match latest SetDataSchema l with
  | Some e => map_ok Some (schema_as_arrow e)
  | None => Ok None
  end.

Definition context_of (hdl : DatasetHandle) l (source : SetTransform) (schema : option SchemaRef)
    (aliases : gmap DatasetID string) (vocabs : gmap DatasetID DatasetVocabulary) : PlanContext :=
  mkPlanContext hdl (st_transform source) schema
    (DatasetVocabulary_from_SetVocab (default SetVocab_default (latest SetVocab l))) aliases vocabs.

Lemma accept_plan fuel datasets hdl h l n x s :
  stored_chain fuel (chain_at datasets hdl) h l ->
  run_one l (Decision_NextOfType Flag.EXECUTE_TRANSFORM, query_collector n) = Ok (x, collector_in s) ->
  accept fuel (chain_at datasets hdl) (plan_visitors n) =
    Some (Ok [PlanVisitor_transform (found SetTransform l); PlanVisitor_vocab (found SetVocab l);
              PlanVisitor_schema (found SetDataSchema l); PlanVisitor_queries (collector_in s)]).
Proof.
  intros [Hh Hl Hf] Hq. unfold accept, accept_by_ref. rewrite Hh. unfold accept_by_hash.
  apply (accept_by_interval_ok _ _ _ _ _ _ Hl Hf). by eapply run_plan_visitors.
Qed.

(** Without a tail the plan has a step for every query, oldest first. *)
Lemma plan_all fuel datasets hdl h l source schema aliases vocabs :
  stored_chain fuel (chain_at datasets hdl) h l -> latest SetTransform l = Some source -> schema_of l = Ok schema ->
  input_vocabs fuel resolve_dataset_ref datasets (st_inputs source) ∅ = Some (Ok vocabs) ->
  input_aliases (st_inputs source) ∅ = Ok aliases ->
  get_verification_plan fuel resolve_dataset_ref check_action_allowed operation_id datasets hdl (None, None) =
    verification_steps fuel resolve_dataset_ref check_action_allowed operation_id datasets
      (context_of hdl l source schema aliases vocabs) (rev (queries l)).
Proof.
  intros Hst Hsrc Hsch Hv Ha. unfold get_verification_plan, range_head. cbn [fst snd]. rewrite (sc_head _ _ _ _ Hst). cbn [map_err fuelled_bind range_tail_sequence_number].
  rewrite (accept_plan fuel datasets hdl h l None _ _ Hst (run_collector_all l [])). cbn.
  rewrite !found_latest, Hsrc. cbn. revert Hsch. unfold schema_of.
  destruct (latest SetDataSchema l) as [e|]; intros Hsch.
  - destruct (schema_as_arrow e); [|done..]. injection Hsch as <-. cbn. rewrite Hv. cbn. by rewrite Ha.
  - injection Hsch as <-. cbn. rewrite Hv. cbn. by rewrite Ha.
Qed.

(** A tail below which there is no query, itself included, is refused. *)
Lemma plan_unfinished fuel datasets hdl h l1 t b l2 schema :
  stored_chain fuel (chain_at datasets hdl) h (l1 ++ (t, b) :: l2) -> schema_of (l1 ++ (t, b) :: l2) = Ok schema ->
  (forall hb, hb ∈ l1 -> (mb_sequence_number b < mb_sequence_number hb.2)%Z) ->
  (forall hb, hb ∈ l2 -> (mb_sequence_number hb.2 < mb_sequence_number b)%Z) ->
  existsb is_query ((t, b) :: l2) = false ->
  get_verification_plan fuel resolve_dataset_ref check_action_allowed operation_id datasets hdl (Some t, None) =
    Some (Err (VerificationError_InvalidInterval (mkInvalidIntervalError h t))).
Proof.
  intros Hst Hsch Habove Hbelow Hno. unfold get_verification_plan, range_head. cbn [fst snd].
  rewrite (sc_head _ _ _ _ Hst). cbn [map_err fuelled_bind range_tail_sequence_number].
  assert (Hg : get_block (meta_block_repo (chain_at datasets hdl)) t = Ok b).
  { eapply linked_lookup; [apply Hst|]. apply elem_of_app. right. left. }
  rewrite Hg. cbn [map_err res_bind fuelled_bind].
  destruct (run_collector_tail l1 t b l2 [] Habove Hbelow) as [x Hx]. rewrite Hno in Hx.
  rewrite (accept_plan fuel datasets hdl h _ _ _ _ Hst Hx). cbn. rewrite !found_latest. revert Hsch. unfold schema_of.
  destruct (latest SetDataSchema _) as [e|]; [|done]. by destruct (schema_as_arrow e).
Qed.

(** ** Steps *)

(** A resolved identifier is the identifier of the handle. *)
Definition resolves_ids : Prop :=
  forall id hdl, resolve_dataset_ref (DatasetRef_ID id) = Ok hdl -> dh_id hdl = id.

Lemma fuelled_bind_ok {E X Y} (m : fuelled E X) (k : X -> fuelled E Y) y :
  fuelled_bind m k = Some (Ok y) <-> exists x, m = Some (Ok x) /\ k x = Some (Ok y).
Proof. destruct m as [[x| |]|]; simpl; naive_solver. Qed.

Lemma query_input_same fuel datasets q alias v i :
  resolves_ids ->
  get_transform_input_from_query_input resolve_dataset_ref check_action_allowed fuel datasets q alias v = Some (Ok i) ->
  ExecuteTransformInput_from i = q.
Proof.
  intros Hid. unfold get_transform_input_from_query_input.
  intros (hdl & Hr & H)%fuelled_bind_ok. repeat (apply fuelled_bind_ok in H as (? & ? & H)).
  injection H as <-. unfold ExecuteTransformInput_from. cbn. injection Hr as Hr.
  apply map_err_ok, map_err_ok, Hid in Hr. rewrite Hr. by destruct q.
Qed.

Lemma step_inputs_same fuel datasets aliases vocabs qs inputs :
  resolves_ids ->
  step_inputs fuel resolve_dataset_ref check_action_allowed datasets aliases vocabs qs = Some (Ok inputs) ->
  map ExecuteTransformInput_from inputs = qs.
Proof.
  intros Hid; revert inputs; induction qs as [|q qs IH]; intros inputs; cbn [step_inputs]; [by intros [= <-]|].
  intros (alias & _ & (v & _ & (i & Hi & (rest & Hrest & [= <-])%fuelled_bind_ok)%fuelled_bind_ok)%fuelled_bind_ok)%fuelled_bind_ok.
  simpl. f_equal; [|by apply IH].
  destruct (get_transform_input_from_query_input _ _ _ _ _ _ _) as [[i'| |]|] eqn:Hq; [|done..].
  injection Hi as <-. by eapply query_input_same.
Qed.

Record step_for (hb : HashedMetadataBlock) (e : ExecuteTransform) (step : VerificationStep) : Prop := {
  sf_hash : vs_expected_hash step = hb.1;
  sf_block : vs_expected_block step = hb.2;
  sf_event : mb_event hb.2 = MetadataEvent_ExecuteTransform e;
  sf_head : mb_prev_block_hash hb.2 = Some (tre_head (vs_request step));
  sf_time : tre_system_time (vs_request step) = mb_system_time hb.2;
  sf_request : event_of_request (vs_request step) e
}.

Lemma verification_step_spec fuel datasets ctx hb step :
  resolves_ids ->
  verification_step fuel resolve_dataset_ref check_action_allowed operation_id datasets ctx hb = Some (Ok step) ->
  exists e, step_for hb e step.
Proof.
  intros Hid. unfold verification_step.
  intros (e & He & (inputs & Hin & (p & Hp & [= <-])%fuelled_bind_ok)%fuelled_bind_ok)%fuelled_bind_ok.
  exists e. injection Hp as Hp. injection He as He. split; try done; cbn.
  - revert He. cbn. destruct (mb_event hb.2); cbn; try done. by intros [= <-].
  - revert Hp. destruct (mb_prev_block_hash hb.2); cbn; [|done]. by intros [= <-].
  - split; [|done..]. symmetry. by eapply step_inputs_same.
Qed.

Lemma verification_steps_spec fuel datasets ctx blocks plan :
  resolves_ids ->
  verification_steps fuel resolve_dataset_ref check_action_allowed operation_id datasets ctx blocks = Some (Ok plan) ->
  Forall2 (fun hb step => exists e, step_for hb e step) blocks plan.
Proof.
  intros Hid; revert plan; induction blocks as [|hb blocks IH]; intros plan; cbn [verification_steps].
  { by intros [= <-]. }
  intros (step & Hs & (rest & Hrest & [= <-])%fuelled_bind_ok)%fuelled_bind_ok.
  constructor; [by eapply verification_step_spec|by apply IH].
Qed.
(** ** Answers *)

(** The engine answers as it is recorded: the same records, whatever their
    encoding, at the same offsets, and the same watermark. *)
Definition answers_as (r : TransformRequestExt) (e : ExecuteTransform) : Prop :=
  exists response, run_engine r = Ok response /\ trs_new_watermark response = et_new_watermark e /\
    match et_new_data e with
    | None => trs_new_data response = None
    | Some s => exists file, trs_new_data response = Some file /\
        trs_new_offset_interval response = Some (ds_offset_interval s) /\
        get_parquet_logical_hash file = Ok (ds_logical_hash s)
    end.

Lemma physical_hash_ok (f : Bytes) : exists h, get_file_physical_hash f = Ok h.
Proof. destruct (from_digest_sha3 f) as (h & Hh & _). by exists h. Qed.

Lemma run_engine_whole r response :
  run_engine r = Ok response -> is_some (trs_new_offset_interval response) = is_some (trs_new_data response).
Proof.
  unfold run_engine. intros (en & _ & (x & _ & H)%res_bind_ok)%res_bind_ok.
  destruct (Bool.eqb _ _) eqn:He; [|done]. injection H as <-. by apply Bool.eqb_prop.
Qed.

Lemma prepare_new_checkpoint d o : exists c, prepare_checkpoint d (option_map CheckpointRef_New o) = Ok c.
Proof.
  destruct o as [f|]; simpl; [|eauto]. destruct (physical_hash_ok f) as [h Hh]. rewrite Hh. simpl. eauto.
Qed.

(** The event that is prepared for an answer. *)
Lemma prepare_answer d r response a :
  is_some (trs_new_offset_interval response) = is_some (trs_new_data response) ->
  prepare_execute_transform d (transform_params r response) (trs_new_data response)
    (option_map CheckpointRef_New (trs_new_checkpoint response)) = Ok a <->
  exists c, prepare_checkpoint d (option_map CheckpointRef_New (trs_new_checkpoint response)) = Ok c /\
    match trs_new_data response, trs_new_offset_interval response with
    | Some f, Some iv => exists lh ph, get_parquet_logical_hash f = Ok lh /\ get_file_physical_hash f = Ok ph /\
        a = mkExecuteTransform (map ExecuteTransformInput_from (tre_inputs r)) (tre_prev_checkpoint r)
              (tre_prev_offset r) (Some (mkDataSlice lh ph iv (bytes_len f))) c (trs_new_watermark response)
    | _, _ => a = mkExecuteTransform (map ExecuteTransformInput_from (tre_inputs r)) (tre_prev_checkpoint r)
              (tre_prev_offset r) None c (trs_new_watermark response)
    end.
Proof.
  intros Hw. unfold prepare_execute_transform, prepare_objects. cbn [transform_params etp_new_offset_interval].
  destruct (prepare_new_checkpoint d (trs_new_checkpoint response)) as [c Hc]. rewrite Hc.
  destruct (trs_new_offset_interval response) as [iv|], (trs_new_data response) as [f|]; try done.
  - cbn. destruct (physical_hash_ok f) as [ph Hph]. rewrite Hph.
    destruct (get_parquet_logical_hash f) as [lh| |]; cbn; [|naive_solver..]. naive_solver.
  - cbn. naive_solver.
Qed.

(** A replayed event compares equal exactly when the engine gave the answer that
    is recorded. *)
Lemma replay_event_spec d r e :
  event_of_request r e ->
  (exists a, replay_event d r = Ok a /\ e = comparable_event e a) <-> answers_as r e.
Proof.
  intros [Hin Hcp Hoff]. unfold replay_event, answers_as. split.
  - intros (a & (response & Hrun & Hp%map_err_ok)%map_err_ok%res_bind_ok & Heq). exists response. split; [done|].
    pose proof (run_engine_whole _ _ Hrun) as Hw. apply (prepare_answer d r response a Hw) in Hp as (c & _ & Hp).
    destruct (trs_new_data response) as [f|], (trs_new_offset_interval response) as [iv|]; try done.
    + destruct Hp as (lh & ph & Hlh & _ & ->). unfold comparable_event in Heq. cbn in Heq.
      destruct e as [qi pc po [s|] nc w]; cbn in *; [|done]. injection Heq as _ _ _ Hs Hwm. split; [done|].
      exists f. split; [done|]. rewrite Hs. cbn. by split.
    + subst a. unfold comparable_event in Heq. cbn in Heq. destruct e as [qi pc po [s|] nc w]; cbn in *; [done|].
      by injection Heq as _ _ _ Hwm.
  - intros (response & Hrun & Hwm & Hd). pose proof (run_engine_whole _ _ Hrun) as Hw.
    destruct (prepare_new_checkpoint d (trs_new_checkpoint response)) as [c Hc].
    destruct e as [qi pc po [s|] nc w]; cbn in *; subst qi pc po w.
    + destruct Hd as (f & Hf & Hiv & Hlh). destruct (physical_hash_ok f) as [ph Hph].
      eexists. split.
      * rewrite Hrun. cbn [res_bind]. apply map_err_ok, map_err_ok, prepare_answer; [done|]. exists c. split; [done|]. rewrite Hf, Hiv.
        exists (ds_logical_hash s), ph. done.
      * unfold comparable_event. cbn. by destruct s.
    + rewrite Hd in Hw. destruct (trs_new_offset_interval response) eqn:Hiv; [done|]. eexists. split.
      * rewrite Hrun. cbn [res_bind]. apply map_err_ok, map_err_ok, prepare_answer; [by rewrite Hd, Hiv|]. exists c. split; [done|].
        by rewrite Hd.
      * done.
Qed.

Lemma replay_step_spec d n i hb e step :
  step_for hb e step ->
  exists calls x, replay_step d n i step = Some (calls, x) /\ (x = Ok tt <-> answers_as (vs_request step) e) /\
    (x = Ok tt -> calls = block_calls VerificationPhase_ReplayTransform n i [hb.1]) /\
    (forall err, x = Err (VerificationError_DataNotReproducible err) ->
       dnr_block_hash err = hb.1 /\ dnr_expected_event err = MetadataEvent_ExecuteTransform e).
Proof.
  intros [Hh Hb He Hp _ Hr]. pose proof (replay_event_spec d _ _ Hr) as Hspec. unfold replay_step.
  rewrite Hb, He, Hp, Hh. cbn. destruct (replay_event d (vs_request step)) as [a|err|] eqn:Ha; cbn.
  - case_decide as Hne; cbn; eexists _, _; (split; [done|]); rewrite <- Hspec.
    + split; [|split; [done|by intros err [= <-]]]. split; [done|]. intros (a' & [= <-] & ?). done.
    + split; [|done]. split; [|done]. intros _. by exists a.
  - eexists _, _. split; [done|]. rewrite <- Hspec. split; [split; [done|by intros (a & ? & _)]|]. split; [done|].
    intros err' [= ->]. exfalso. revert Ha. unfold replay_event. by destruct (res_bind _ _).
  - eexists _, _. split; [done|]. rewrite <- Hspec. split; [split; [done|by intros (a & ? & _)]|done].
Qed.

(** What is asked of a step. *)
Definition step_reproduced (step : VerificationStep) : Prop :=
  forall e, mb_event (vs_expected_block step) = MetadataEvent_ExecuteTransform e -> answers_as (vs_request step) e.

Lemma replay_steps_spec d n i blocks plan :
  Forall2 (fun hb step => exists e, step_for hb e step) blocks plan ->
  exists calls x, replay_steps d n i plan = Some (calls, x) /\ (x = Ok tt <-> Forall step_reproduced plan) /\
    (x = Ok tt -> calls = block_calls VerificationPhase_ReplayTransform n i blocks.*1).
Proof.
  intros H; revert i; induction H as [|hb step blocks plan [e Hs] _ IH]; intros i.
  { eexists _, _. split; [done|]. split; [split; [constructor|done]|done]. }
  assert (Hrep : step_reproduced step <-> answers_as (vs_request step) e).
  { unfold step_reproduced. rewrite (sf_block _ _ _ Hs), (sf_event _ _ _ Hs). naive_solver. }
  destruct (replay_step_spec d n i hb e step Hs) as (calls & x & Hx & Hiff & Hcalls & _). cbn [replay_steps].
  rewrite Hx. destruct x as [[]|err|]; cbn.
  2,3: eexists _, _; (split; [done|]); (split; [|done]); (split; [done|]); rewrite Forall_cons_iff, Hrep, <- Hiff; by intros [].
  destruct (IH (S i)) as (calls' & x' & Hx' & Hiff' & Hcalls'). rewrite Hx'. eexists _, _. split; [done|]. split.
  - rewrite Hiff', Forall_cons_iff, Hrep, <- Hiff. naive_solver.
  - intros Hok. rewrite (Hcalls eq_refl), (Hcalls' Hok). done.
Qed.

Lemma verify_transform_spec fuel datasets dataset_ref hdl range blocks plan :
  resolve_dataset_ref dataset_ref = Ok hdl ->
  get_verification_plan fuel resolve_dataset_ref check_action_allowed operation_id datasets hdl range = Some (Ok plan) ->
  Forall2 (fun hb step => exists e, step_for hb e step) blocks plan ->
  exists calls x,
    verify_transform fuel resolve_dataset_ref check_action_allowed operation_id datasets dataset_ref range =
      Some (phase_calls VerificationPhase_ReplayTransform calls x, x) /\
    (x = Ok tt <-> Forall step_reproduced plan) /\
    (x = Ok tt -> calls = block_calls VerificationPhase_ReplayTransform (length plan) 0 blocks.*1).
Proof.
  intros Hr Hp Hall. destruct (replay_steps_spec (datasets (dh_id hdl)) (length plan) 0 blocks plan Hall)
    as (calls & x & Hx & Hiff & Hcalls).
  exists calls, x. split; [|done]. unfold verify_transform. rewrite Hr. cbn [map_err from_fuelled verified_bind]. rewrite Hp. cbn. rewrite Hx.
  unfold phase_calls. destruct x as [[]| |]; cbn; by rewrite ?app_nil_r.
Qed.

(** A plan for the whole chain has the steps of its queries. *)
Lemma plan_steps fuel datasets hdl h l plan :
  stored_chain fuel (chain_at datasets hdl) h l -> resolves_ids ->
  get_verification_plan fuel resolve_dataset_ref check_action_allowed operation_id datasets hdl (None, None) = Some (Ok plan) ->
  Forall2 (fun hb step => exists e, step_for hb e step) (rev (queries l)) plan.
Proof.
  intros Hst Hid. unfold get_verification_plan.
  intros (head & _ & (n & [= <-] & (visitors & Hv & H)%fuelled_bind_ok)%fuelled_bind_ok)%fuelled_bind_ok.
  rewrite (accept_plan fuel datasets hdl h l None _ _ Hst (run_collector_all l [])) in Hv. injection Hv as <-.
  repeat (apply fuelled_bind_ok in H as (? & ? & H)). by eapply verification_steps_spec.
Qed.

(** ** What is read again *)

Record same_reading (i i' : TransformRequestInputExt) : Prop := {
  sr_slices : tie_data_slices i' = tie_data_slices i;
  sr_watermarks : tie_explicit_watermarks i' = tie_explicit_watermarks i;
  sr_state : ExecuteTransformInput_from i' = ExecuteTransformInput_from i
}.

(** An input of which the chain has grown since it was read. *)
Definition grown (fuel fuel' : nat) datasets datasets' (decl : TransformInput)
    (y : list HashedMetadataBlock * list HashedMetadataBlock) : Prop :=
  exists id hdl alias e schema,
    readable resolve_dataset_ref check_action_allowed datasets decl id hdl alias y.2 /\ length y.2 < fuel /\
    readable resolve_dataset_ref check_action_allowed datasets' decl id hdl alias (y.1 ++ y.2) /\ length (y.1 ++ y.2) < fuel' /\
    latest SetDataSchema (y.1 ++ y.2) = Some e /\ schema_as_arrow e = Ok schema.

(** The interval above a block is the same in every store of the chain. *)
Lemma interval_same fuel fuel' (c c' : MetadataChainImpl BR RR) h l t blocks :
  linked (meta_block_repo c) (Some h) l -> length l < fuel ->
  linked (meta_block_repo c') (Some h) l -> length l < fuel' ->
  iter_blocks_interval fuel c h t false = Some (blocks, Ok tt) ->
  iter_blocks_interval fuel' c' h t false = Some (blocks, Ok tt).
Proof.
  intros Hl Hf Hl' Hf'. destruct t as [t|].
  - destruct (decide (t ∈ l.*1)) as [Hin|Hn].
    + apply list_elem_of_fmap in Hin as ([t' b] & -> & Hin). apply list_elem_of_split in Hin as (l1 & l2 & ->). cbn [fst].
      rewrite length_app in Hf, Hf'.
      destruct (iter_interval_found fuel c h l1 t' b l2 false Hl ltac:(lia)) as [-> _].
      by destruct (iter_interval_found fuel' c' h l1 t' b l2 false Hl' ltac:(lia)) as [-> _].
    + by destruct (iter_interval_missing fuel c h l t false Hl Hf Hn) as [-> _].
  - unfold iter_blocks_interval. by rewrite (interval_loop_all _ _ _ _ None Hl Hf), (interval_loop_all _ _ _ _ None Hl' Hf') by done.
Qed.

Lemma reads_again fuel fuel' datasets datasets' decl s y i :
  grown fuel fuel' datasets datasets' decl y ->
  get_transform_input resolve_dataset_ref check_action_allowed fuel datasets decl s = Some (Ok i) ->
  forall alias vocab, exists i',
    get_transform_input_from_query_input resolve_dataset_ref check_action_allowed fuel' datasets'
      (ExecuteTransformInput_from i) alias (Some vocab) = Some (Ok i') /\ same_reading i i' /\
    DatasetRef_id (ti_dataset_ref decl) = Some (eti_dataset_id (ExecuteTransformInput_from i)).
Proof.
  destruct y as [later l]. intros (id & hdl & alias0 & e & schema & Hrd & Hf & Hrd' & Hf' & He & Ha) Hi alias vocab.
  cbn [fst snd] in *.
  assert (Hs : forall p, s = Some p -> eti_dataset_id p = id).
  { intros p ->. revert Hi. unfold get_transform_input. rewrite (rd_id _ _ _ _ _ _ _ _ Hrd). cbn. by case_decide. }
  destruct (head_hash_nonempty l (rd_nonempty _ _ _ _ _ _ _ _ Hrd)) as [h Hh].
  rewrite (get_transform_input_query _ _ _ _ _ _ _ _ _ _ _ Hrd Hs Hf Hh) in Hi.
  set (q := next_query_input id s h (chain_last_offset l)) in Hi.
  pose proof (cs_linked _ _ (rd_chain _ _ _ _ _ _ _ _ Hrd)) as Hl. rewrite Hh in Hl.
  assert (Hl' : linked (meta_block_repo (chain_at datasets' hdl)) (Some h) l).
  { rewrite <- Hh. eapply (linked_suffix _ later), (cs_linked _ _ (rd_chain _ _ _ _ _ _ _ _ Hrd')). }
  assert (Hq : eti_dataset_id q = id) by done.
  assert (Hnew : eti_new_block_hash q = None \/ eti_new_block_hash q = Some h).
  { unfold q, next_query_input. cbn. case_decide; auto. }
  clearbody q. unfold get_transform_input_from_query_input in Hi.
  apply fuelled_bind_ok in Hi as (hdl1 & Hr1 & Hi). rewrite Hq, (rd_resolved _ _ _ _ _ _ _ _ Hrd) in Hr1. injection Hr1 as <-.
  apply fuelled_bind_ok in Hi as ([] & _ & Hi). apply fuelled_bind_ok in Hi as (schema1 & _ & Hi).
  apply fuelled_bind_ok in Hi as (blocks & Hb & Hi). apply fuelled_bind_ok in Hi as (vocab1 & _ & [= <-]).
  assert (Hqi : ExecuteTransformInput_from (mkTransformRequestInputExt hdl alias0 vocab1 (eti_prev_block_hash q)
    (eti_new_block_hash q) (eti_prev_offset q) (eti_new_offset q) schema1 (slices_in blocks) (watermarks_in blocks)) = q).
  { unfold ExecuteTransformInput_from. cbn. rewrite (rd_same _ _ _ _ _ _ _ _ Hrd), <- Hq. by destruct q. }
  rewrite Hqi.
  assert (Hb' : unprocessed_blocks fuel' (chain_at datasets' hdl) q = Some (Ok blocks)).
  { revert Hb. unfold unprocessed_blocks. destruct Hnew as [-> | ->]; [done|].
    destruct (iter_blocks_interval fuel (chain_at datasets hdl) h _ false) as [[k [[]|[]|]]|] eqn:Hit; try done. intros [= <-].
    rewrite length_app in Hf'. by rewrite (interval_same fuel fuel' _ _ h l _ k Hl Hf Hl' ltac:(lia) Hit). }
  unfold get_transform_input_from_query_input. rewrite Hq, (rd_resolved _ _ _ _ _ _ _ _ Hrd'). cbn.
  rewrite (rd_allowed _ _ _ _ _ _ _ _ Hrd'). cbn. unfold find_input_schema.
  rewrite (accept_one_found SetDataSchema fuel' _ _ (rd_chain _ _ _ _ _ _ _ _ Hrd') (rd_nonempty _ _ _ _ _ _ _ _ Hrd') Hf'). cbn.
  rewrite found_latest, He. cbn. rewrite Ha. cbn. rewrite Hb'. cbn. eexists. split; [done|]. split; [|exact (rd_id _ _ _ _ _ _ _ _ Hrd)].
  split; [done..|]. rewrite Hqi. unfold ExecuteTransformInput_from. cbn. rewrite (rd_same _ _ _ _ _ _ _ _ Hrd), <- Hq. by destruct q.
Qed.

(** The maps of the plan have an entry for every declared input. *)
Lemma input_aliases_ok inputs m :
  Forall (fun i => is_Some (DatasetRef_id (ti_dataset_ref i)) /\ is_Some (ti_alias i)) inputs ->
  exists m', input_aliases inputs m = Ok m' /\ (forall id, is_Some (m !! id) -> is_Some (m' !! id)) /\
    Forall (fun i => forall id, DatasetRef_id (ti_dataset_ref i) = Some id -> is_Some (m' !! id)) inputs.
Proof.
  intros H; revert m; induction H as [|i inputs [[id Hid] [alias Ha]] _ IH]; intros m; simpl; [by exists m|].
  rewrite Hid, Ha. simpl. destruct (IH (<[id := alias]> m)) as (m' & Hm' & Hkeep & Hall).
  exists m'. split; [done|]. split.
  - intros id' [x Hx]. apply Hkeep. destruct (decide (id = id')) as [->|]; [by rewrite lookup_insert_eq|].
    rewrite lookup_insert_ne by done. by exists x.
  - constructor; [|done]. intros id' Hid'. assert (id' = id) as -> by congruence. apply Hkeep. by rewrite lookup_insert_eq.
Qed.

Lemma input_vocabs_ok fuel datasets inputs m :
  Forall (fun i => exists id hdl alias l, readable resolve_dataset_ref check_action_allowed datasets i id hdl alias l /\
    length l < fuel) inputs ->
  exists m', input_vocabs fuel resolve_dataset_ref datasets inputs m = Some (Ok m') /\
    (forall id, is_Some (m !! id) -> is_Some (m' !! id)) /\
    Forall (fun i => forall id, DatasetRef_id (ti_dataset_ref i) = Some id -> is_Some (m' !! id)) inputs.
Proof.
  intros H; revert m; induction H as [|i inputs (id & hdl & alias & l & Hrd & Hf) _ IH]; intros m; simpl; [by exists m|].
  rewrite (rd_id _ _ _ _ _ _ _ _ Hrd). cbn [unwrap fuelled_bind]. unfold get_vocab.
  rewrite (rd_resolved _ _ _ _ _ _ _ _ Hrd). cbn [int_err map_err fuelled_bind].
  rewrite (accept_one_found SetVocab fuel _ l (rd_chain _ _ _ _ _ _ _ _ Hrd) (rd_nonempty _ _ _ _ _ _ _ _ Hrd) Hf). cbn.
  set (v := DatasetVocabulary_from_SetVocab _).
  destruct (IH (<[id := v]> m)) as (m' & Hm' & Hkeep & Hall).
  exists m'. split; [done|]. split.
  - intros id' [x Hx]. apply Hkeep. destruct (decide (id = id')) as [->|]; [by rewrite lookup_insert_eq|].
    rewrite lookup_insert_ne by done. by exists x.
  - constructor; [|done]. intros id' Hid'. pose proof (rd_id _ _ _ _ _ _ _ _ Hrd).
    assert (id' = id) as -> by congruence. apply Hkeep. by rewrite lookup_insert_eq.
Qed.

Lemma step_inputs_again fuel fuel' datasets datasets' xs ys inputs aliases vocabs :
  Forall2 (fun x y => grown fuel fuel' datasets datasets' x.1 y) xs ys ->
  get_transform_inputs resolve_dataset_ref check_action_allowed fuel datasets xs = Some (Ok inputs) ->
  Forall (fun i => forall id, DatasetRef_id (ti_dataset_ref i) = Some id -> is_Some (aliases !! id)) (map fst xs) ->
  Forall (fun i => forall id, DatasetRef_id (ti_dataset_ref i) = Some id -> is_Some (vocabs !! id)) (map fst xs) ->
  exists inputs', step_inputs fuel' resolve_dataset_ref check_action_allowed datasets' aliases vocabs
      (map ExecuteTransformInput_from inputs) = Some (Ok inputs') /\ Forall2 same_reading inputs inputs'.
Proof.
  intros H; revert inputs; induction H as [|[decl s] y xs ys Hg _ IH]; intros inputs Hin Ha Hv.
  { injection Hin as <-. by exists []. }
  cbn [map fst] in Ha, Hv. apply Forall_cons_iff in Ha as [Ha1 Ha]. apply Forall_cons_iff in Hv as [Hv1 Hv].
  cbn [get_transform_inputs] in Hin.
  apply fuelled_bind_ok in Hin as (i & Hi & (rest & Hrest & [= <-])%fuelled_bind_ok).
  destruct (IH rest Hrest Ha Hv) as (rest' & Hrest' & Hsame).
  destruct (reads_again _ _ _ _ _ _ _ _ Hg Hi "" (DatasetVocabulary_from_SetVocab SetVocab_default)) as (_ & _ & _ & Hid).
  destruct (Ha1 _ Hid) as [alias Halias]. destruct (Hv1 _ Hid) as [vocab Hvocab].
  destruct (reads_again _ _ _ _ _ _ _ _ Hg Hi alias vocab) as (i' & Hi' & Hsr & _).
  cbn [map step_inputs]. rewrite Halias, Hvocab. cbn [unwrap fuelled_bind]. rewrite Hi'. cbn [option_map map_err fuelled_bind].
  rewrite Hrest'. cbn. exists (i' :: rest'). split; [done|]. by constructor.
Qed.
End Replay.

(** * The verdict *)

Section Verdict.
Context `{EN : Engines} {CL : CodecLaws C} {SC : SummaryCodec} {DH : DataHash} {BR RR DR CR IR : Type}
        `{!MetadataBlockRepository BR} `{!ReferenceRepository RR} `{!ObjectRepository DR}
        `{!ObjectRepository CR} `{!NamedObjectRepository IR}.

Implicit Types (d : DatasetImpl BR RR DR CR IR).

(** Two datasets that differ at most in the stored summary. *)
Record same_contents d d' : Prop := {
  sm_chain : dsi_metadata_chain d' = dsi_metadata_chain d;
  sm_data : dsi_data_repo d' = dsi_data_repo d;
  sm_checkpoints : dsi_checkpoint_repo d' = dsi_checkpoint_repo d
}.

Lemma get_summary_contents fuel d o x d' : get_summary fuel d o = Some (x, d') -> same_contents d d'.
Proof.
  assert (Hw : forall s y d2, write_summary d s = (y, d2) -> same_contents d d2).
  { intros s y d2. unfold write_summary. destruct (summary_to_yaml _); [|by intros [= _ <-]..].
    destruct (nr_set _ _ _). by intros [= _ <-]. }
  unfold get_summary. destruct (read_summary d) as [s| |]; [|by intros [= _ <-]..].
  destruct (gso_update_if_stale o); [|by intros [= _ <-]]. unfold update_summary.
  destruct (resolve_ref _ _) as [h|[]|]; [|by intros [= _ <-]..].
  case_decide; [by intros [= _ <-]|]. destruct (compute_summary_increment _ _ _ _) as [m|]; [|done].
  destruct (res_bind m _); [|by intros [= _ <-]..].
  destruct (write_summary d a) as [y d2] eqn:Hs. intros [= _ <-]. by eapply Hw.
Qed.

Lemma same_contents_intact d d' kind logical b :
  same_contents d d' -> intact_block d' kind logical b <-> intact_block d kind logical b.
Proof. intros [_ Hd Hc]. unfold intact_block, intact_slice, intact_checkpoint. by rewrite Hd, Hc. Qed.

Implicit Types (datasets : DatasetID -> DatasetImpl BR RR DR CR IR) (l : list HashedMetadataBlock).

(** Every block of a chain has a well-formed hash and can be written. *)
Definition writable l : Prop := forall hb, hb ∈ l -> Multihash_wf hb.1 /\ is_ok (write_manifest hb.2) = true.

(** The calls of a listener when nothing is wrong, as documented. *)
Definition verdict_calls (options : VerificationOptions) (kind : DatasetKind) (hdl : DatasetHandle)
    (data_blocks query_blocks : list Multihash) : list ListenerCall :=
  Listener_begin ::
  (if vop_check_integrity options then
     phase_calls VerificationPhase_MetadataIntegrity [] (Ok tt) ++
     phase_calls VerificationPhase_DataIntegrity
       (block_calls VerificationPhase_DataIntegrity (length data_blocks) 0 data_blocks) (Ok tt)
   else []) ++
  (if bool_decide (kind = DatasetKind_Derivative) && vop_replay_transformations options then
     phase_calls VerificationPhase_ReplayTransform
       (block_calls VerificationPhase_ReplayTransform (length query_blocks) 0 query_blocks) (Ok tt)
   else []) ++
  [Listener_success (mkVerificationResult (Some hdl) (Ok tt))].

Lemma verified_then (m k : verified unit) c1 x1 c2 x2 :
  m = Some (c1, x1) -> k = Some (c2, x2) ->
  exists c x, verified_bind m (fun _ => k) = Some (c, x) /\ (x = Ok tt <-> x1 = Ok tt /\ x2 = Ok tt) /\
    (x = Ok tt -> c = c1 ++ c2).
Proof. intros -> ->. destruct x1 as [[]| |]; cbn; eexists _, _; (split; [done|]); naive_solver. Qed.

Variable resolve_dataset_ref : DatasetRef -> res GetDatasetError DatasetHandle.
Variable check_action_allowed : DatasetHandle -> DatasetAction -> res DatasetActionUnauthorizedError unit.
Variable operation_id : Multihash -> string.

(** Both checks of the integrity. *)
Lemma integrity_spec fuel datasets hdl kind logical h l :
  stored_chain fuel (chain_at datasets hdl) h l -> writable l ->
  exists calls x,
    verified_bind (check_metadata_integrity fuel datasets hdl (None, None))
      (fun _ => check_data_integrity fuel datasets hdl kind (None, None) logical) = Some (calls, x) /\
    (x = Ok tt <-> valid_chain l /\
       Forall (fun hb => intact_block (datasets (dh_id hdl)) kind logical hb.2) (filter_data_stream_blocks l)) /\
    (x = Ok tt -> calls = phase_calls VerificationPhase_MetadataIntegrity [] (Ok tt) ++
       phase_calls VerificationPhase_DataIntegrity
         (block_calls VerificationPhase_DataIntegrity (length (filter_data_stream_blocks l).*1) 0
            (filter_data_stream_blocks l).*1) (Ok tt)).
Proof.
  intros Hst Hw. destruct (check_metadata_spec fuel datasets hdl h l Hst Hw) as (x1 & H1 & Hiff1 & _).
  destruct (check_data_spec fuel datasets hdl kind logical h l Hst) as (calls & x2 & H2 & Hc).
  destruct (check_blocks_data_spec (datasets (dh_id hdl)) kind logical (length (filter_data_stream_blocks l)) 0
    (filter_data_stream_blocks l)) as (calls' & x' & Hc' & Hcase). rewrite Hc in Hc'. injection Hc' as <- <-.
  destruct (verified_then _ _ _ _ _ _ H1 H2) as (c & x & Hx & Hiff & Hcalls). exists c, x. split; [done|].
  assert (Hd : x2 = Ok tt <->
    Forall (fun hb => intact_block (datasets (dh_id hdl)) kind logical hb.2) (filter_data_stream_blocks l)).
  { destruct Hcase as [(-> & Hall & _)|(p1 & t & b & p2 & Hp & _ & Hn & -> & _)]; [done|].
    rewrite check_block_data_ok. split; [done|]. rewrite Hp, Forall_app, Forall_cons_iff. tauto. }
  split; [by rewrite Hiff, Hiff1, Hd|]. intros Hok. rewrite (Hcalls Hok). apply Hiff in Hok as [-> ->].
  destruct Hcase as [(_ & _ & ->)|(p1 & t & b & p2 & _ & _ & Hn & Hb & _)].
  - by rewrite length_fmap.
  - symmetry in Hb. by apply check_block_data_ok in Hb.
Qed.

Lemma verify_outcome_spec fuel datasets hdl kind h l options plan :
  stored_chain fuel (chain_at datasets hdl) h l -> writable l ->
  resolve_dataset_ref (DatasetRef_Handle hdl) = Ok hdl ->
  get_verification_plan fuel resolve_dataset_ref check_action_allowed operation_id datasets hdl (None, None) = Some (Ok plan) ->
  Forall2 (fun hb step => exists e, step_for hb e step) (rev (queries l)) plan ->
  exists calls x,
    verify_outcome fuel resolve_dataset_ref check_action_allowed operation_id datasets hdl kind (None, None) options = Some (calls, x) /\
    (x = Ok tt <->
      (vop_check_integrity options = true -> valid_chain l /\
         Forall (fun hb => intact_block (datasets (dh_id hdl)) kind (vop_check_logical_hashes options) hb.2)
           (filter_data_stream_blocks l)) /\
      (kind = DatasetKind_Derivative -> vop_replay_transformations options = true -> Forall step_reproduced plan)) /\
    (x = Ok tt -> Listener_begin :: calls ++ [Listener_success (mkVerificationResult (Some hdl) (Ok tt))] =
       verdict_calls options kind hdl (filter_data_stream_blocks l).*1 (rev (queries l)).*1).
Proof.
  intros Hst Hw Hrh Hplan Hsteps. unfold verify_outcome, verdict_calls.
  assert (H1 : exists c1 x1, (if vop_check_integrity options then
      verified_bind (check_metadata_integrity fuel datasets hdl (None, None))
        (fun _ => check_data_integrity fuel datasets hdl kind (None, None) (vop_check_logical_hashes options))
      else verified_ret tt) = Some (c1, x1) /\
    (x1 = Ok tt <-> (vop_check_integrity options = true -> valid_chain l /\
         Forall (fun hb => intact_block (datasets (dh_id hdl)) kind (vop_check_logical_hashes options) hb.2)
           (filter_data_stream_blocks l))) /\
    (x1 = Ok tt -> c1 = if vop_check_integrity options then
       phase_calls VerificationPhase_MetadataIntegrity [] (Ok tt) ++
       phase_calls VerificationPhase_DataIntegrity
         (block_calls VerificationPhase_DataIntegrity (length (filter_data_stream_blocks l).*1) 0
            (filter_data_stream_blocks l).*1) (Ok tt)
      else [])).
  { destruct (vop_check_integrity options).
    - destruct (integrity_spec fuel datasets hdl kind (vop_check_logical_hashes options) h l Hst Hw) as (c & x & Hx & Hiff & Hc).
      exists c, x. split; [done|]. split; [|done]. rewrite Hiff. tauto.
    - eexists _, _. split; [done|]. by split. }
  assert (H2 : exists c2 x2, (if bool_decide (kind = DatasetKind_Derivative) && vop_replay_transformations options
      then verify_transform fuel resolve_dataset_ref check_action_allowed operation_id datasets (DatasetRef_Handle hdl) (None, None)
      else verified_ret tt) = Some (c2, x2) /\
    (x2 = Ok tt <-> (kind = DatasetKind_Derivative -> vop_replay_transformations options = true -> Forall step_reproduced plan)) /\
    (x2 = Ok tt -> c2 = if bool_decide (kind = DatasetKind_Derivative) && vop_replay_transformations options then
       phase_calls VerificationPhase_ReplayTransform
         (block_calls VerificationPhase_ReplayTransform (length (rev (queries l)).*1) 0 (rev (queries l)).*1) (Ok tt)
      else [])).
  { destruct (bool_decide (kind = DatasetKind_Derivative) && vop_replay_transformations options) eqn:Hb.
    - apply andb_true_iff in Hb as [Hk%bool_decide_eq_true Ho].
      destruct (verify_transform_spec resolve_dataset_ref check_action_allowed operation_id fuel datasets (DatasetRef_Handle hdl) hdl
        (None, None) (rev (queries l)) plan Hrh Hplan Hsteps) as (c & x & Hx & Hiff & Hc).
      eexists _, x. split; [done|]. split; [rewrite Hiff; tauto|]. intros ->. rewrite (Hc eq_refl).
      by rewrite length_fmap, (Forall2_length _ _ _ Hsteps).
    - eexists _, _. split; [done|]. split; [|done]. split; [|done]. intros _ Hk Ho.
      rewrite Ho, bool_decide_eq_true_2 in Hb by done. done. }
  destruct H1 as (c1 & x1 & H1 & Hiff1 & Hc1). destruct H2 as (c2 & x2 & H2 & Hiff2 & Hc2).
  destruct (verified_then _ _ _ _ _ _ H1 H2) as (c & x & Hx & Hiff & Hc). exists c, x. split; [exact Hx|].
  split; [by rewrite Hiff, Hiff1, Hiff2|]. intros Hok. rewrite (Hc Hok). apply Hiff in Hok as [Hok1 Hok2].
  rewrite (Hc1 Hok1), (Hc2 Hok2). by rewrite <- app_assoc.
Qed.
End Verdict.
