(* ===== verification/RemoteAliases.v ===== *)
(** Which remote datasets a local dataset is pulled from and pushed to.

    Sources: src/infra/core/src/dataset_config.rs,
    src/domain/core/src/services/remote_aliases.rs and
    remote_aliases_registry.rs, src/infra/core/src/remote_aliases_registry_impl.rs.

    The lists are kept in the named object "config" of the dataset, as YAML; the
    YAML library is a parameter ([ConfigCodec]). *)

From S2P Require Import Prelude Multiformats Grammar Dids Identity References Dtos ChainRepos ObjectRepoFs.
From S2P Require Import MetadataChain ChainVisitors ChainValidators ChainRules ChainAppend ChainInvariants Dataset.
From S2P Require Import FlowService DatasetChanges.

(** * Data *)

Inductive RemoteAliasKind :=
| RemoteAliasKind_Pull
| RemoteAliasKind_Push.

#[export] Instance RemoteAliasKind_eq_dec : EqDecision RemoteAliasKind.
Proof. solve_decision. Defined.

Inductive GetAliasesError :=
| GetAliasesError_DatasetNotFound (e : DatasetNotFoundError)
| GetAliasesError_Internal (e : InternalError).

Definition GetAliasesError_from_Get (v : GetDatasetError) : GetAliasesError :=
  match v with
  | GetDatasetError_NotFound e => GetAliasesError_DatasetNotFound e
  | GetDatasetError_Internal e => GetAliasesError_Internal e
  end.

Record DatasetConfig (Url : Type) := mkDatasetConfig {
  dcf_pull_aliases : list (DatasetRefRemote Url);
  dcf_push_aliases : list (DatasetRefRemote Url)
}.
Arguments mkDatasetConfig {Url}.
Arguments dcf_pull_aliases {Url}.
Arguments dcf_push_aliases {Url}.

Definition DatasetConfig_default {Url} : DatasetConfig Url := mkDatasetConfig [] [].

(** serde_yaml on the manifest of the configuration. *)
Class ConfigCodec {C : BlockCodec} (Url : Type) := {
  config_to_yaml : Manifest (DatasetConfig Url) -> res unit Bytes;
  config_from_yaml : Bytes -> res unit (Manifest (DatasetConfig Url))
}.

Class ConfigCodecLaws {C : BlockCodec} {Url} (CC : ConfigCodec Url) : Prop := {
  config_yaml_law : forall m d, config_to_yaml m = Ok d -> config_from_yaml d = Ok m
}.

(** [PartialEq] derived for [DatasetRefRemote]. *)
Definition DatasetRefRemote_eq {Url} `{!UrlCrate Url} (a b : DatasetRefRemote Url) : bool :=
  match a, b with
  | DatasetRefRemote_ID r i, DatasetRefRemote_ID r' i' => option_eqb RepoName_eq r r' && bool_decide (i = i')
  | DatasetRefRemote_Alias x, DatasetRefRemote_Alias y => DatasetAliasRemote_eq x y
  | DatasetRefRemote_Url u, DatasetRefRemote_Url u' => bool_decide (u = u')
  | DatasetRefRemote_Handle h, DatasetRefRemote_Handle h' => DatasetHandleRemote_eq h h'
  | _, _ => false
  end.

Section Aliases.
Context {C : BlockCodec} {Url : Type} `{!UrlCrate Url} {CC : ConfigCodec Url} {BR RR DR CR IR : Type}
        `{!NamedObjectRepository IR}.

Abbreviation Dataset := (DatasetImpl BR RR DR CR IR).
Abbreviation RemoteRef := (DatasetRefRemote Url).

Implicit Types (d : Dataset) (config : DatasetConfig Url).

(** * The registry *)

Definition read_config d : res InternalError (DatasetConfig Url) :=
  match nr_get (dsi_info_repo d) "config" with
  | Ok bytes =>
      let! manifest := int_err (config_from_yaml bytes) in
      if decide (mf_kind manifest = "DatasetConfig") then Ok (mf_content manifest) else Panic
  | Err (GetNamedError_Internal e) => Err e
  | Err (GetNamedError_Access _) => Err mkInternalError
  | Err (GetNamedError_NotFound _) => Ok DatasetConfig_default
  | Panic => Panic
  end.

Definition write_config config : action Dataset InternalError unit := fun d =>
  match config_to_yaml (mkManifest "DatasetConfig" 1%Z config) with
  | Ok manifest_yaml =>
      let '(x, r) := nr_set (dsi_info_repo d) "config" manifest_yaml in
      (int_err x, mkDatasetImpl (dsi_metadata_chain d) (dsi_data_repo d) (dsi_checkpoint_repo d) r)
  | Err _ => (Err mkInternalError, d)
  | Panic => (Panic, d)
  end.

(** [RemoteAliasesImpl]: the dataset it writes to and its own copy of the lists,
    which is changed before the write. *)
Record RemoteAliasesImpl := mkRemoteAliasesImpl {
  rai_dataset : Dataset;
  rai_config : DatasetConfig Url
}.

(** [get_remote_aliases], with what [find_dataset_by_ref] gives. *)
Definition registry_get_remote_aliases (found : res GetDatasetError Dataset)
    : res GetAliasesError RemoteAliasesImpl :=
  let! dataset := map_err GetAliasesError_from_Get found in
  let! config := map_err GetAliasesError_Internal (read_config dataset) in
  Ok (mkRemoteAliasesImpl dataset config).

(** [RemoteAliasesRegistryNull] *)
Definition null_get_remote_aliases (dataset_ref : DatasetRef) : res GetAliasesError RemoteAliasesImpl :=
  Err (GetAliasesError_DatasetNotFound (mkDatasetNotFoundError dataset_ref)).

(** * The aliases of a dataset *)

Definition aliases_of (kind : RemoteAliasKind) config : list RemoteRef :=
  match kind with
  | RemoteAliasKind_Pull => dcf_pull_aliases config
  | RemoteAliasKind_Push => dcf_push_aliases config
  end.

Definition with_aliases (kind : RemoteAliasKind) config (aliases : list RemoteRef) : DatasetConfig Url :=
  match kind with
  | RemoteAliasKind_Pull => mkDatasetConfig aliases (dcf_push_aliases config)
  | RemoteAliasKind_Push => mkDatasetConfig (dcf_pull_aliases config) aliases
  end.

Definition aliases_get_by_kind (a : RemoteAliasesImpl) (kind : RemoteAliasKind) : list RemoteRef :=
  aliases_of kind (rai_config a).

Definition contains_ref (aliases : list RemoteRef) (remote_ref : RemoteRef) : bool :=
  existsb (fun a => DatasetRefRemote_eq a remote_ref) aliases.

Definition aliases_contains (a : RemoteAliasesImpl) (remote_ref : RemoteRef) (kind : RemoteAliasKind) : bool :=
  contains_ref (aliases_of kind (rai_config a)) remote_ref.

Definition aliases_is_empty (a : RemoteAliasesImpl) (kind : RemoteAliasKind) : bool :=
  match aliases_of kind (rai_config a) with [] => true | _ => false end.

(** The lists were changed, and are written; [out] is what the method returns. *)
Definition save_aliases {A} (kind : RemoteAliasKind) (aliases : list RemoteRef) (out : A)
    : action RemoteAliasesImpl InternalError A := fun a =>
  let config := with_aliases kind (rai_config a) aliases in
  let '(x, d) := write_config config (rai_dataset a) in
  (map_ok (fun _ => out) x, mkRemoteAliasesImpl d config).

Definition aliases_add (remote_ref : RemoteRef) (kind : RemoteAliasKind)
    : action RemoteAliasesImpl InternalError bool := fun a =>
  let aliases := aliases_of kind (rai_config a) in
  if contains_ref aliases remote_ref then (Ok false, a)
  else save_aliases kind (aliases ++ [remote_ref]) true a.

(** [Vec::remove] of the first position that matches. *)
Fixpoint remove_first (aliases : list RemoteRef) (remote_ref : RemoteRef) : option (list RemoteRef) :=
  match aliases with
  | [] => None
  | r :: rest =>
      if DatasetRefRemote_eq r remote_ref then Some rest
      else option_map (cons r) (remove_first rest remote_ref)
  end.

Definition aliases_delete (remote_ref : RemoteRef) (kind : RemoteAliasKind)
    : action RemoteAliasesImpl InternalError bool := fun a =>
  match remove_first (aliases_of kind (rai_config a)) remote_ref with
  | Some aliases => save_aliases kind aliases true a
  | None => (Ok false, a)
  end.

Definition aliases_clear (kind : RemoteAliasKind) : action RemoteAliasesImpl InternalError nat := fun a =>
  let aliases := aliases_of kind (rai_config a) in
  match aliases with
  | [] => (Ok 0, a)
  | _ => save_aliases kind [] (length aliases) a
  end.

(** * References up to case *)

Definition lower_of (o : option string) : option string := to_ascii_lowercase <$> o.

Definition alias_remote_key (a : DatasetAliasRemote) : string * option string * string :=
  (to_ascii_lowercase (rn_str (dar_repo_name a)), lower_of (an_str <$> dar_account_name a),
   to_ascii_lowercase (dn_str (dar_dataset_name a))).

(** Two references are equal for the code when they have the same key. *)
Definition remote_key (r : RemoteRef)
    : (option string * DatasetID + (string * option string * string)) +
      (Url + DatasetID * (string * option string * string)) :=
  match r with
  | DatasetRefRemote_ID repo id => inl (inl (lower_of (rn_str <$> repo), id))
  | DatasetRefRemote_Alias a => inl (inr (alias_remote_key a))
  | DatasetRefRemote_Url u => inr (inl u)
  | DatasetRefRemote_Handle h => inr (inr (dhr_id h, alias_remote_key (dhr_alias h)))
  end.

Lemma option_eqb_lower {A} (f : A -> string) (x y : option A) :
  option_eqb (fun a b => eq_ignore_ascii_case (f a) (f b)) x y = true <-> lower_of (f <$> x) = lower_of (f <$> y).
Proof.
  destruct x, y; simpl; unfold eq_ignore_ascii_case; rewrite ?bool_decide_eq_true; split; congruence.
Qed.

Lemma alias_remote_eq_key a b : DatasetAliasRemote_eq a b = true <-> alias_remote_key a = alias_remote_key b.
Proof.
  unfold DatasetAliasRemote_eq, alias_remote_key. rewrite !andb_true_iff.
  rewrite (option_eqb_lower an_str). unfold RepoName_eq, DatasetName_eq, eq_ignore_ascii_case.
  rewrite !bool_decide_eq_true. split; [intros [[] ?]; congruence|intros [= ? ? ?]; auto].
Qed.

Lemma remote_eq_key (a b : RemoteRef) : DatasetRefRemote_eq a b = true <-> remote_key a = remote_key b.
Proof.
  destruct a as [r i|x|u|[i x]], b as [r' i'|x'|u'|[i' x']]; simpl; try done;
    unfold DatasetHandleRemote_eq; simpl; rewrite ?andb_true_iff, ?bool_decide_eq_true, ?alias_remote_eq_key.
  - rewrite (option_eqb_lower rn_str). split; [intros []; congruence|intros [= ? ?]; auto].
  - split; congruence.
  - split; congruence.
  - split; [intros []; congruence|intros [= ? ? ? ?]; unfold alias_remote_key; split; congruence].
Qed.

(** The aliases of a kind, as the code tells them apart. *)
Definition alias_keys (kind : RemoteAliasKind) config := remote_key <$> aliases_of kind config.

Lemma contains_ref_key l (r : RemoteRef) : contains_ref l r = true <-> remote_key r ∈ remote_key <$> l.
Proof.
  unfold contains_ref. rewrite existsb_exists, list_elem_of_fmap. split.
  - intros (x & Hx%list_elem_of_In & He%remote_eq_key). by exists x.
  - intros (x & He & Hx). exists x. split; [by apply list_elem_of_In|]. by apply remote_eq_key.
Qed.

Lemma remove_first_spec l (r : RemoteRef) :
  match remove_first l r with
  | Some l' => exists l1 x l2, l = l1 ++ x :: l2 /\ l' = l1 ++ l2 /\ remote_key x = remote_key r
  | None => ~ remote_key r ∈ remote_key <$> l
  end.
Proof.
  induction l as [|x l IH]; simpl; [by intros ?%elem_of_nil|].
  destruct (DatasetRefRemote_eq x r) eqn:He.
  - apply remote_eq_key in He. by exists [], x, l.
  - assert (remote_key x <> remote_key r).
    { intros Hk%remote_eq_key. congruence. }
    destruct (remove_first l r) as [l'|]; simpl.
    + destruct IH as (l1 & y & l2 & -> & -> & Hy). by exists (x :: l1), y, l2.
    + intros [Hx|Hin]%elem_of_cons; [congruence|done].
Qed.

(** * The stored lists *)

(** No alias is listed twice. *)
Definition config_ok config : Prop := forall kind, NoDup (alias_keys kind config).

Lemma aliases_of_with kind kind' config l :
  aliases_of kind' (with_aliases kind config l) =
  if decide (kind = kind') then l else aliases_of kind' config.
Proof. by destruct kind, kind'. Qed.

Context {CL : ConfigCodecLaws CC} `{!LawfulInfoRepo IR}.

Lemma write_read_config config d u d' : write_config config d = (Ok u, d') -> read_config d' = Ok config.
Proof.
  unfold write_config, read_config. destruct (config_to_yaml _) as [y| |] eqn:Hy; [|done..].
  destruct (nr_set _ "config" y) as [x r] eqn:Hs. destruct x as [[]| |]; [|done..].
  intros [= _ <-]. simpl. rewrite (nr_set_get _ _ _ _ Hs). by rewrite (config_yaml_law _ _ Hy).
Qed.

Lemma save_aliases_spec {X} kind l (out : X) a y a' : save_aliases kind l out a = (Ok y, a') ->
  y = out /\ rai_config a' = with_aliases kind (rai_config a) l /\
  read_config (rai_dataset a') = Ok (rai_config a').
Proof.
  unfold save_aliases. destruct (write_config _ (rai_dataset a)) as [x d] eqn:Hw.
  destruct x as [u| |]; [|done..]. intros [= <- <-]. simpl. by rewrite (write_read_config _ _ _ _ Hw).
Qed.

End Aliases.
