(* ===== verification/PullService.v ===== *)
(** Pulling datasets: what to pull, in which order, and through which service.

    Sources: src/infra/core/src/pull_service_impl.rs,
    src/domain/core/src/services/pull_service.rs, the requests of sync_service.rs
    and ingest/polling_ingest_service.rs beside it.

    The repository of datasets, the registry of remote aliases and the services
    for ingest, synchronization and transforms are interfaces of the code:
    [PullWorkspace] and [PullServices] here, on a state [W].  Listeners only watch
    and are left out. *)

From S2P Require Import Prelude Multiformats Grammar Dids Identity References Dtos ChainRepos ObjectRepoFs.
From S2P Require Import MetadataChain ChainComparator ChainVisitors ChainValidators ChainRules ChainAppend ChainInvariants.
From S2P Require Import Dataset Sync EventSourcing TaskSystem FlowSystem Messages FlowTimeWheel FlowStore.
From S2P Require Import FlowService DatasetChanges DatasetOwnership Transform RemoteAliases.
From stdpp Require Import sorting.

(** * Requests, options and results *)

(** The parts of a [Url] that [infer_local_name_from_url] looks at. *)
Class UrlParts (Url : Type) := {
  Url_path_segments : Url -> option (list str);
  Url_host_domain : Url -> option str
}.

Record PullRequest (Url : Type) := mkPullRequest {
  prq_local_ref : option DatasetRef;
  prq_remote_ref : option (DatasetRefRemote Url)
}.
Arguments mkPullRequest {Url}.
Arguments prq_local_ref {Url}.
Arguments prq_remote_ref {Url}.

Definition PullRequest_from_any_ref {Url} (dataset_ref : DatasetRefAny Url) (is_repo : RepoName -> bool)
    : PullRequest Url :=
  match DatasetRefAny_into_local_ref is_repo dataset_ref with
  | Ok local_ref => mkPullRequest (Some local_ref) None
  | Err remote_ref => mkPullRequest None (Some remote_ref)
  | Panic => mkPullRequest None None
  end.

Record SyncOptions := mkSyncOptions {
  sop_trust_source : option bool;
  sop_create_if_not_exists : bool;
  sop_force : bool
}.

Definition SyncOptions_default : SyncOptions := mkSyncOptions None true false.

Record SyncRequest (Url : Type) := mkSyncRequest {
  srq_src : DatasetRefAny Url;
  srq_dst : DatasetRefAny Url
}.
Arguments mkSyncRequest {Url}.
Arguments srq_src {Url}.
Arguments srq_dst {Url}.

Record SyncResultMulti (Url : Type) := mkSyncResultMulti {
  srm_src : DatasetRefAny Url;
  srm_dst : DatasetRefAny Url;
  srm_result : res (SyncError Url) SyncResult
}.
Arguments mkSyncResultMulti {Url}.
Arguments srm_src {Url}.
Arguments srm_dst {Url}.
Arguments srm_result {Url}.

Inductive PollingIngestResult :=
| PollingIngestResult_UpToDate (no_source_defined uncacheable : bool)
| PollingIngestResult_Updated (old_head new_head : Multihash) (has_more uncacheable : bool).

(** [From<PollingIngestResult>], [From<TransformResult>] and [From<SyncResult>
    for PullResult] *)
Definition PullResult_from_ingest (other : PollingIngestResult) : PullResult :=
  match other with
  | PollingIngestResult_UpToDate _ uncacheable =>
      PullResult_UpToDate (PullResultUpToDate_PollingIngest (mkPollingInsgestResultUpToDate uncacheable))
  | PollingIngestResult_Updated old_head new_head _ _ => PullResult_Updated (Some old_head) new_head
  end.

Definition PullResult_from_transform (other : TransformResult) : PullResult :=
  match other with
  | TransformResult_UpToDate => PullResult_UpToDate PullResultUpToDate_Transform
  | TransformResult_Updated old_head new_head => PullResult_Updated (Some old_head) new_head
  end.

Definition PullResult_from_sync (other : SyncResult) : PullResult :=
  match other with
  | SyncResult_UpToDate => PullResult_UpToDate PullResultUpToDate_Sync
  | SyncResult_Updated old_head new_head _ => PullResult_Updated old_head new_head
  end.

(** [i32] addition wraps. *)
Definition i32_add (a b : i32) : i32 := ((a + b + 2 ^ 31) mod 2 ^ 32 - 2 ^ 31)%Z.

(** [Ord] derived for [DatasetAlias]. *)
Definition DatasetAlias_cmp (x y : DatasetAlias) : comparison :=
  then_cmp (account_cmp (da_account_name x) (da_account_name y))
    (newtype_str_cmp (dn_str (da_dataset_name x)) (dn_str (da_dataset_name y))).

(** * The interfaces *)

(** [DatasetRepository] and [RemoteAliasesRegistry].  [get_summary] may refresh
    the copy of the summary that the dataset keeps, which no other operation here
    reads. *)
Class PullWorkspace (Url W : Type) := {
  RemoteAliases : Type;
  is_multi_tenant : bool;
  pw_resolve_dataset_ref : W -> DatasetRef -> res GetDatasetError DatasetHandle;
  pw_get_datasets_by_owner : W -> AccountName -> list DatasetHandle * res InternalError unit;
  pw_get_all_datasets : W -> list DatasetHandle * res InternalError unit;
  pw_get_summary : W -> DatasetHandle -> res GetSummaryError DatasetSummary;
  get_remote_aliases : W -> DatasetRef -> res GetAliasesError RemoteAliases;
  ra_get_by_kind : RemoteAliases -> RemoteAliasKind -> list (DatasetRefRemote Url);
  ra_contains : RemoteAliases -> DatasetRefRemote Url -> RemoteAliasKind -> bool;
  ra_is_empty : RemoteAliases -> RemoteAliasKind -> bool;
  ra_add : RemoteAliases -> DatasetRefRemote Url -> RemoteAliasKind -> action W InternalError bool
}.

(** What pulling and pushing rely on: an alias that was added is found afterwards,
    and none is lost. *)
Definition alias_listed {Url W} {PW : PullWorkspace Url W} (w : W) (r : DatasetRef) (x : DatasetRefRemote Url)
    (kind : RemoteAliasKind) : Prop :=
  exists aliases, get_remote_aliases w r = Ok aliases /\ ra_contains aliases x kind = true.

Class LawfulAliases {Url W} (PW : PullWorkspace Url W) : Prop := {
  ra_add_listed : forall w r aliases x kind b w',
    get_remote_aliases w r = Ok aliases -> ra_add aliases x kind w = (Ok b, w') -> alias_listed w' r x kind;
  ra_add_keeps : forall w r aliases x kind b w' r' x' kind',
    get_remote_aliases w r = Ok aliases -> ra_add aliases x kind w = (Ok b, w') ->
    alias_listed w r' x' kind' -> alias_listed w' r' x' kind'
}.

(** [PollingIngestService], [SyncService] and [TransformService], batch versions. *)
Class PullServices `{EN : Engines} (Url W : Type) := {
  PollingIngestOptions : Type;
  PollingIngestError : Type;
  svc_ingest_multi : list DatasetRef -> PollingIngestOptions -> W ->
    list (DatasetRef * res PollingIngestError PollingIngestResult) * W;
  svc_sync_multi : list (SyncRequest Url) -> SyncOptions -> W -> list (SyncResultMulti Url) * W;
  svc_transform_multi : list DatasetRef -> TransformOptions -> W ->
    list (DatasetRef * res TransformError TransformResult) * W
}.

Section Pull.
Context `{EN : Engines} {Url W : Type} `{!UrlCrate Url} `{!UrlParts Url} {PW : PullWorkspace Url W}
        {PS : PullServices Url W}.

Abbreviation RemoteRef := (DatasetRefRemote Url).
Abbreviation Request := (PullRequest Url).

Inductive PullError :=
| PullError_NotFound (e : DatasetNotFoundError)
| PullError_NoSource
| PullError_AmbiguousSource
| PullError_InvalidOperation (message : string)
| PullError_PollingIngestError (e : PollingIngestError)
| PullError_TransformError (e : TransformError)
| PullError_SyncError (e : SyncError Url)
| PullError_Internal (e : InternalError).

Record PullResponse := mkPullResponse {
  prs_original_request : option Request;
  prs_local_ref : option DatasetRef;
  prs_remote_ref : option RemoteRef;
  prs_result : res PullError PullResult
}.

Record PullOptions := mkPullOptions {
  po_add_aliases : bool;
  po_ingest_options : PollingIngestOptions;
  po_sync_options : SyncOptions;
  po_reset_derivatives_on_diverged_input : bool
}.

Record PullMultiOptions := mkPullMultiOptions {
  pmo_recursive : bool;
  pmo_all : bool;
  pmo_add_aliases : bool;
  pmo_ingest_options : PollingIngestOptions;
  pmo_sync_options : SyncOptions;
  pmo_reset_derivatives_on_diverged_input : bool
}.

Record PullItem := mkPullItem {
  pi_depth : i32;
  pi_local_ref : DatasetRef;
  pi_remote_ref : option RemoteRef;
  pi_original_request : option Request
}.

Variable current_account_subject : CurrentAccountSubject.

Implicit Types (w : W) (request : Request) (options : PullMultiOptions) (pi : PullItem).

(** * Resolving a request *)

Definition try_resolve_dataset_ref w (dataset_ref : DatasetRef) : res InternalError (option DatasetHandle) :=
  match pw_resolve_dataset_ref w dataset_ref with
  | Ok hdl => Ok (Some hdl)
  | Err (GetDatasetError_NotFound _) => Ok None
  | Err (GetDatasetError_Internal e) => Err e
  | Panic => Panic
  end.

(** Whether a dataset has the alias of a kind; the lookup must not fail. *)
Definition has_alias w (hdl : DatasetHandle) (remote_ref : RemoteRef) (kind : RemoteAliasKind)
    : res InternalError bool :=
  let! aliases := int_err (get_remote_aliases w (DatasetRef_Handle hdl)) in
  Ok (ra_contains aliases remote_ref kind).

(** The loop over a stream of datasets. *)
Fixpoint find_by_alias w (datasets : list DatasetHandle) (ended : res InternalError unit)
    (remote_ref : RemoteRef) (kind : RemoteAliasKind) : res InternalError (option DatasetHandle) :=
  match datasets with
  | [] => let! _ := ended in Ok None
  | dataset_handle :: rest =>
      let! found := has_alias w dataset_handle remote_ref kind in
      if found then Ok (Some dataset_handle) else find_by_alias w rest ended remote_ref kind
  end.

(** The quick check when remote and local names match. *)
Definition find_by_name w (remote_ref : RemoteRef) (kind : RemoteAliasKind)
    : res InternalError (option DatasetHandle) :=
  match DatasetRefRemote_dataset_name remote_ref with
  | Some remote_name =>
      let! hdl := try_resolve_dataset_ref w (DatasetRef_Alias (mkDatasetAlias None remote_name)) in
      match hdl with
      | Some local_handle =>
          let! found := has_alias w local_handle remote_ref kind in
          Ok (if found then Some local_handle else None)
      | None => Ok None
      end
  | None => Ok None
  end.

Definition try_inverse_lookup_dataset_by_pull_alias w (remote_ref : RemoteRef)
    : res InternalError (option DatasetHandle) :=
  let! quick := find_by_name w remote_ref RemoteAliasKind_Pull in
  match quick with
  | Some hdl => Ok (Some hdl)
  | None =>
      match current_account_subject with
      | CurrentAccountSubject_Logged l =>
          let '(datasets, ended) := pw_get_datasets_by_owner w (la_account_name l) in
          find_by_alias w datasets ended remote_ref RemoteAliasKind_Pull
      | CurrentAccountSubject_Anonymous _ => Ok None
      end
  end.

Definition resolve_pull_alias w (local_ref : DatasetRef) : res PullError (option RemoteRef) :=
  let! remote_aliases :=
    map_err (fun e => match e with
                      | GetAliasesError_DatasetNotFound e => PullError_NotFound e
                      | GetAliasesError_Internal _ => PullError_Internal mkInternalError
                      end) (get_remote_aliases w local_ref) in
  match ra_get_by_kind remote_aliases RemoteAliasKind_Pull with
  | [] => Ok None
  | [a] => Ok (Some a)
  | _ => Err PullError_AmbiguousSource
  end.

(** [if let Ok(name) = DatasetName::try_from(s) { return Ok(name) }] *)
Definition or_name (s : option str) (k : res PullError DatasetName) : res PullError DatasetName :=
  match s with
  | Some s =>
      match DatasetName_from_str s with
      | Ok name => Ok name
      | Err _ => k
      | Panic => Panic
      end
  | None => k
  end.

Definition infer_local_name_from_url (url : Url) : res PullError DatasetName :=
  or_name (path ← Url_path_segments url; snd <$> list_find (fun s => s <> []) (rev path))
    (or_name (Url_host_domain url)
       (Err (PullError_InvalidOperation
          "Unable to infer local name from remote URL, please specify the destination explicitly"))).

(** The local dataset of a request, if it exists. *)
Definition resolve_local_handle w request : res PullError (option DatasetHandle) :=
  match prq_local_ref request with
  | Some local_ref =>
      let! local_handle := map_err PullError_Internal (try_resolve_dataset_ref w local_ref) in
      match local_handle, prq_remote_ref request with
      | None, None => Err (PullError_NotFound (mkDatasetNotFoundError local_ref))
      | _, _ => Ok local_handle
      end
  | None =>
      match prq_remote_ref request with
      | Some remote_ref => map_err PullError_Internal (try_inverse_lookup_dataset_by_pull_alias w remote_ref)
      | None => Panic
      end
  end.

(** Its name, or the name to create it with. *)
Definition resolve_local_alias request (local_handle : option DatasetHandle) : res PullError DatasetAlias :=
  match local_handle with
  | Some hdl => Ok (dh_alias hdl)
  | None =>
      match prq_local_ref request with
      | Some local_ref =>
          match DatasetRef_alias local_ref with
          | Some alias => Ok alias
          | None => Err (PullError_NotFound (mkDatasetNotFoundError local_ref))
          end
      | None =>
          match prq_remote_ref request with
          | Some (DatasetRefRemote_ID _ _) => Panic
          | Some (DatasetRefRemote_Alias alias) => Ok (mkDatasetAlias None (dar_dataset_name alias))
          | Some (DatasetRefRemote_Handle hdl) => Ok (mkDatasetAlias None (dar_dataset_name (dhr_alias hdl)))
          | Some (DatasetRefRemote_Url url) =>
              let! account :=
                if is_multi_tenant then
                  match current_account_subject with
                  | CurrentAccountSubject_Anonymous _ => Panic
                  | CurrentAccountSubject_Logged l => Ok (Some (la_account_name l))
                  end
                else Ok None in
              let! name := infer_local_name_from_url url in
              Ok (mkDatasetAlias account name)
          | None => Panic
          end
      end
  end.

(** The local end of a request: the first half of
    [collect_pull_graph_depth_first]. *)
Definition resolve_target w request options : res PullError (option DatasetHandle * DatasetAlias) :=
  let! local_handle := resolve_local_handle w request in
  let! local_alias := resolve_local_alias request local_handle in
  match local_handle with
  | None =>
      if negb (sop_create_if_not_exists (pmo_sync_options options))
      then Err (PullError_InvalidOperation "Dataset does not exist and auto-create is switched off")
      else Ok (local_handle, local_alias)
  | Some _ => Ok (local_handle, local_alias)
  end.

Definition resolve_remote w request (local_handle : option DatasetHandle) : res PullError (option RemoteRef) :=
  match prq_remote_ref request with
  | Some remote_ref => Ok (Some remote_ref)
  | None =>
      match local_handle with
      | Some hdl => resolve_pull_alias w (DatasetRef_Handle hdl)
      | None => Ok None
      end
  end.

(** * The graph *)

(** [HashMap<DatasetAlias, PullItem>]: keys are equal up to case.  The entries are
    in the order they were added, which sorting makes irrelevant. *)
Abbreviation Visited := (list (DatasetAlias * PullItem)).

Implicit Types (visited : Visited).

Fixpoint visited_get visited (alias : DatasetAlias) : option PullItem :=
  match visited with
  | [] => None
  | (k, pi) :: rest => if DatasetAlias_eq k alias then Some pi else visited_get rest alias
  end.

(** Replaces the value of an equal key, or adds the entry. *)
Fixpoint visited_insert visited (alias : DatasetAlias) pi : Visited :=
  match visited with
  | [] => [(alias, pi)]
  | (k, pi') :: rest =>
      if DatasetAlias_eq k alias then (k, pi) :: rest else (k, pi') :: visited_insert rest alias pi
  end.

Definition mark_explicit (referenced_explicitly : bool) request pi : PullItem :=
  if referenced_explicitly
  then mkPullItem (pi_depth pi) (pi_local_ref pi) (pi_remote_ref pi) (Some request)
  else pi.

(** Errors keep what was visited; [None] when the fuel for the descent runs out. *)
Abbreviation Planner A := (Visited -> option (res PullError A * Visited)).

(** The loop over the dependencies, with the function to descend with. *)
Fixpoint visit_dependencies (descend : DatasetID -> Planner i32) (dependencies : list DatasetID)
    (max_dep_depth : i32) visited : option (res PullError i32 * Visited) :=
  match dependencies with
  | [] => Some (Ok max_dep_depth, visited)
  | dependency_id :: rest =>
      match descend dependency_id visited with
      | Some (Ok depth, visited') => visit_dependencies descend rest (Z.max max_dep_depth depth) visited'
      | Some (Err e, visited') => Some (Err e, visited')
      | Some (Panic, visited') => Some (Panic, visited')
      | None => None
      end
  end.

(** The item for a dataset that was not visited yet. *)
Definition plan_item w (descend : DatasetID -> Planner i32) (local_handle : option DatasetHandle)
    (local_alias : DatasetAlias) (remote_ref : option RemoteRef) visited
    : option (res PullError PullItem * Visited) :=
  match remote_ref with
  | Some _ =>
      let local_ref := match local_handle with
                       | Some hdl => DatasetRef_Handle hdl
                       | None => DatasetRef_Alias local_alias
                       end in
      Some (Ok (mkPullItem 0%Z local_ref remote_ref None), visited)
  | None =>
      match local_handle with
      | None => Some (Panic, visited)
      | Some hdl =>
          match pw_get_summary w hdl with
          | Ok summary =>
              match visit_dependencies descend (dsu_dependencies summary) (-1)%Z visited with
              | Some (Ok max_dep_depth, visited') =>
                  Some (Ok (mkPullItem (i32_add max_dep_depth 1) (DatasetRef_Handle hdl) None None), visited')
              | Some (Err e, visited') => Some (Err e, visited')
              | Some (Panic, visited') => Some (Panic, visited')
              | None => None
              end
          | Err _ => Some (Err (PullError_Internal mkInternalError), visited)
          | Panic => Some (Panic, visited)
          end
      end
  end.

(** The body of [collect_pull_graph_depth_first]. *)
Definition visit_node w (descend : DatasetID -> Planner i32) request (referenced_explicitly : bool) options
    visited : option (res PullError i32 * Visited) :=
  match resolve_target w request options with
  | Ok (local_handle, local_alias) =>
      match visited_get visited local_alias with
      | Some pi =>
          Some (Ok (pi_depth pi),
                if referenced_explicitly
                then visited_insert visited local_alias (mark_explicit true request pi) else visited)
      | None =>
          match resolve_remote w request local_handle with
          | Ok remote_ref =>
              match plan_item w descend local_handle local_alias remote_ref visited with
              | Some (Ok pi, visited') =>
                  Some (Ok (pi_depth pi),
                        visited_insert visited' local_alias (mark_explicit referenced_explicitly request pi))
              | Some (Err e, visited') => Some (Err e, visited')
              | Some (Panic, visited') => Some (Panic, visited')
              | None => None
              end
          | Err e => Some (Err e, visited)
          | Panic => Some (Panic, visited)
          end
      end
  | Err e => Some (Err e, visited)
  | Panic => Some (Panic, visited)
  end.

Definition dependency_request (dependency_id : DatasetID) : Request :=
  mkPullRequest (Some (DatasetRef_ID dependency_id)) None.

(** The source recurses without a bound; [fuel] bounds the depth of the descent. *)
Fixpoint collect_pull_graph_depth_first (fuel : nat) w request (referenced_explicitly : bool) options
    visited : option (res PullError i32 * Visited) :=
  match fuel with
  | O => None
  | S fuel' =>
      visit_node w
        (fun id => collect_pull_graph_depth_first fuel' w (dependency_request id) false options)
        request referenced_explicitly options visited
  end.

(** The loop over the requests; errors are collected. *)
Fixpoint visit_requests (fuel : nat) w (requests : list Request) options visited (errors : list PullResponse)
    : option (res InternalError (Visited * list PullResponse)) :=
  match requests with
  | [] => Some (Ok (visited, errors))
  | pr :: rest =>
      match collect_pull_graph_depth_first fuel w pr true options visited with
      | Some (Ok _, visited') => visit_requests fuel w rest options visited' errors
      | Some (Err e, visited') =>
          visit_requests fuel w rest options visited' (errors ++ [mkPullResponse (Some pr) None None (Err e)])
      | Some (Panic, _) => Some Panic
      | None => None
      end
  end.

(** [Ord for PullItem] *)
Definition PullItem_cmp (self other : PullItem) : comparison :=
  match Z.compare (pi_depth self) (pi_depth other) with
  | Eq =>
      if Bool.eqb (bool_decide (is_Some (pi_remote_ref self))) (bool_decide (is_Some (pi_remote_ref other))) then
        match DatasetRef_alias (pi_local_ref self), DatasetRef_alias (pi_local_ref other) with
        | Some lhs, Some rhs => DatasetAlias_cmp lhs rhs
        | Some _, None => Gt
        | None, Some _ => Lt
        | None, None => Eq
        end
      else if bool_decide (is_Some (pi_remote_ref self)) then Lt else Gt
  | c => c
  end.

Definition PullItem_le (x y : PullItem) : Prop := PullItem_cmp x y <> Gt.

#[export] Instance PullItem_le_dec : RelDecision PullItem_le.
Proof. intros x y. unfold PullItem_le. apply _. Defined.

Definition collect_pull_graph (fuel : nat) w (requests : list Request) options
    : option (res InternalError (list PullItem * list PullResponse)) :=
  match visit_requests fuel w requests options [] [] with
  | Some (Ok (visited, errors)) => Some (Ok (merge_sort PullItem_le visited.*2, errors))
  | Some (Err e) => Some (Err e)
  | Some Panic => Some Panic
  | None => None
  end.

(** * Running the plan *)

(** [slice]: the longest prefix at one depth and from one kind of source. *)
Definition same_level (first pi : PullItem) : bool :=
  bool_decide (pi_depth pi = pi_depth first) &&
  Bool.eqb (bool_decide (is_Some (pi_remote_ref pi))) (bool_decide (is_Some (pi_remote_ref first))).

(** [take_while] with what it leaves. *)
Fixpoint split_while (p : PullItem -> bool) (l : list PullItem) : list PullItem * list PullItem :=
  match l with
  | [] => ([], [])
  | x :: l' => if p x then let '(a, b) := split_while p l' in (x :: a, b) else ([], l)
  end.

Definition slice {E} (to_slice : list PullItem)
    : res E (i32 * bool * list PullItem * list PullItem) :=
  match to_slice with
  | [] => Panic
  | first :: _ =>
      let '(batch, rest) := split_while (same_level first) to_slice in
      Ok (pi_depth first, bool_decide (is_Some (pi_remote_ref first)), batch, rest)
  end.

Definition into_response_ingest pi (r : DatasetRef * res PollingIngestError PollingIngestResult)
    : PullResponse :=
  mkPullResponse (pi_original_request pi) (Some r.1) None
    (map_ok PullResult_from_ingest (map_err PullError_PollingIngestError r.2)).

(** [.ok()] *)
Definition res_ok {E A} (m : res E A) : option A := match m with Ok a => Some a | _ => None end.

Definition into_response_sync pi (r : SyncResultMulti Url) : PullResponse :=
  mkPullResponse (pi_original_request pi)
    (res_ok (DatasetRefAny_into_local_ref (fun _ => true) (srm_dst r)))
    (res_ok (DatasetRefAny_into_remote_ref (fun _ => true) (srm_src r)))
    (map_ok PullResult_from_sync (map_err PullError_SyncError (srm_result r))).

Definition into_response_transform pi (r : DatasetRef * res TransformError TransformResult) : PullResponse :=
  mkPullResponse (pi_original_request pi) (Some r.1) None
    (map_ok PullResult_from_transform (map_err PullError_TransformError r.2)).

(** [zip(batch, responses)], with the assertions on their lengths and on each
    pair. *)
Fixpoint zip_responses {R} (matches : PullItem -> R -> bool) (into : PullItem -> R -> PullResponse)
    (batch : list PullItem) (responses : list R) : res InternalError (list PullResponse) :=
  match batch, responses with
  | [], [] => Ok []
  | pi :: batch', r :: responses' =>
      let! rest := zip_responses matches into batch' responses' in
      if matches pi r then Ok (into pi r :: rest) else Panic
  | _, _ => Panic
  end.

Definition ingest_multi (batch : list PullItem) options : action W InternalError (list PullResponse) := fun w =>
  let '(responses, w') := svc_ingest_multi (pi_local_ref <$> batch) (pmo_ingest_options options) w in
  (zip_responses (fun pi r => DatasetRef_eq (pi_local_ref pi) r.1) into_response_ingest batch responses, w').

(** [RemoteAliasesRegistry::get_remote_aliases] followed by [RemoteAliases::add]. *)
Definition register_alias (local_ref : DatasetRef) (remote_ref : RemoteRef) (kind : RemoteAliasKind)
    : action W InternalError unit := fun w =>
  match get_remote_aliases w local_ref with
  | Ok aliases => let '(x, w') := ra_add aliases remote_ref kind w in (map_ok (fun _ => tt) x, w')
  | Err _ => (Err mkInternalError, w)
  | Panic => (Panic, w)
  end.

(** Associates a newly-synced dataset with its remote. *)
Definition remember_source (r : PullResponse) : action W InternalError unit :=
  match prs_result r, prs_remote_ref r with
  | Ok (PullResult_Updated None _), Some remote_ref =>
      match prs_local_ref r with
      | Some local_ref => register_alias local_ref remote_ref RemoteAliasKind_Pull
      | None => panic
      end
  | _, _ => mret tt
  end.

Fixpoint sync_requests (batch : list PullItem) : res InternalError (list (SyncRequest Url)) :=
  match batch with
  | [] => Ok []
  | pi :: batch' =>
      let! remote_ref := unwrap (pi_remote_ref pi) in
      let! rest := sync_requests batch' in
      Ok (mkSyncRequest (DatasetRefAny_from_remote remote_ref) (DatasetRefAny_from_local (pi_local_ref pi)) :: rest)
  end.

Definition sync_multi (batch : list PullItem) options : action W InternalError (list PullResponse) := fun w =>
  match sync_requests batch with
  | Ok requests =>
      let '(sync_results, w') := svc_sync_multi requests (pmo_sync_options options) w in
      match zip_responses (fun pi r => DatasetRefAny_eq (DatasetRefAny_from_local (pi_local_ref pi)) (srm_dst r))
              into_response_sync batch sync_results with
      | Ok results =>
          if pmo_add_aliases options
          then (for_each remember_source results ≫= fun _ => mret results) w'
          else (Ok results, w')
      | x => (x, w')
      end
  | Err e => (Err e, w)
  | Panic => (Panic, w)
  end.

Definition transform_multi (batch : list PullItem) (reset_derivatives_on_diverged_input : bool)
    : action W InternalError (list PullResponse) := fun w =>
  let '(transform_results, w') :=
    svc_transform_multi (pi_local_ref <$> batch) (mkTransformOptions reset_derivatives_on_diverged_input) w in
  (zip_responses (fun pi r => DatasetRef_eq (pi_local_ref pi) r.1) into_response_transform batch transform_results,
   w').

Definition run_level (depth : i32) (is_remote : bool) (batch : list PullItem) options
    : action W InternalError (list PullResponse) :=
  if bool_decide (depth = 0%Z) && negb is_remote then ingest_multi batch options
  else if bool_decide (depth = 0%Z) && is_remote then sync_multi batch options
  else transform_multi batch (pmo_reset_derivatives_on_diverged_input options).

(** The loop over the levels, which stops after one that had an error.  Every
    level takes at least one item of the plan. *)
Fixpoint run_levels (fuel : nat) (rest : list PullItem) options (results : list PullResponse) w
    : option (res InternalError (list PullResponse) * W) :=
  match rest with
  | [] => Some (Ok results, w)
  | _ :: _ =>
      match fuel with
      | O => None
      | S fuel' =>
          match slice rest with
          | Ok (depth, is_remote, batch, tail) =>
              match run_level depth is_remote batch options w with
              | (Ok results_level, w') =>
                  let errors := existsb (fun r => negb (is_ok (prs_result r))) results_level in
                  if errors then Some (Ok (results ++ results_level), w')
                  else run_levels fuel' tail options (results ++ results_level) w'
              | (x, w') => Some (x, w')
              end
          | Err e => Some (Err e, w)
          | Panic => Some (Panic, w)
          end
      end
  end.

Definition explicitly_requested pi : Prop := is_Some (pi_original_request pi).

#[export] Instance explicitly_requested_dec pi : Decision (explicitly_requested pi).
Proof. unfold explicitly_requested. apply _. Defined.

(** [plan.retain(..)] *)
Definition retained_plan (plan : list PullItem) options : list PullItem :=
  if pmo_recursive options || pmo_all options then plan else filter explicitly_requested plan.

Definition all_requests w (requests : list Request) options (account_name : AccountName)
    : res InternalError (list Request) :=
  if negb (pmo_all options) then Ok requests
  else
    let '(datasets, ended) := pw_get_datasets_by_owner w account_name in
    let! _ := ended in
    Ok ((fun hdl => mkPullRequest (Some (DatasetRef_Handle hdl)) None) <$> datasets).

Definition pull_multi_ext (fuel : nat) (requests : list Request) options w
    : option (res InternalError (list PullResponse) * W) :=
  match current_account_subject with
  | CurrentAccountSubject_Anonymous _ => Some (Err mkInternalError, w)
  | CurrentAccountSubject_Logged l =>
      match all_requests w requests options (la_account_name l) with
      | Ok requests =>
          match collect_pull_graph fuel w requests options with
          | Some (Ok (plan, [])) =>
              let plan := retained_plan plan options in
              run_levels (length plan) plan options [] w
          | Some (Ok (_, errors)) => Some (Ok errors, w)
          | Some (Err e) => Some (Err e, w)
          | Some Panic => Some (Panic, w)
          | None => None
          end
      | Err e => Some (Err e, w)
      | Panic => Some (Panic, w)
      end
  end.

Definition pull_multi (fuel : nat) (dataset_refs : list (DatasetRefAny Url)) options w
    : option (res InternalError (list PullResponse) * W) :=
  pull_multi_ext fuel ((fun r => PullRequest_from_any_ref r (fun _ => negb is_multi_tenant)) <$> dataset_refs)
    options w.

Definition single_options (options : PullOptions) : PullMultiOptions :=
  mkPullMultiOptions false false (po_add_aliases options) (po_ingest_options options)
    (po_sync_options options) (po_reset_derivatives_on_diverged_input options).

Definition pull_ext (fuel : nat) request (options : PullOptions) w : option (res PullError PullResult * W) :=
  match pull_multi_ext fuel [request] (single_options options) w with
  | Some (Ok [response], w') => Some (prs_result response, w')
  | Some (Ok _, w') => Some (Panic, w')
  | Some (Err e, w') => Some (Err (PullError_Internal e), w')
  | Some (Panic, w') => Some (Panic, w')
  | None => None
  end.

Definition pull (fuel : nat) (dataset_ref : DatasetRefAny Url) (options : PullOptions) w
    : option (res PullError PullResult * W) :=
  pull_ext fuel (PullRequest_from_any_ref dataset_ref (fun _ => negb is_multi_tenant)) options w.

End Pull.

(** * Watermarks *)

Inductive SetWatermarkError :=
| SetWatermarkError_NotFound (e : DatasetNotFoundError)
| SetWatermarkError_IsDerivative
| SetWatermarkError_IsRemote
| SetWatermarkError_Access (e : AccessError)
| SetWatermarkError_Internal (e : InternalError).

Definition SetWatermarkError_from_Get (v : GetDatasetError) : SetWatermarkError :=
  match v with
  | GetDatasetError_NotFound e => SetWatermarkError_NotFound e
  | GetDatasetError_Internal e => SetWatermarkError_Internal e
  end.

Definition SetWatermarkError_from_Unauthorized (v : DatasetActionUnauthorizedError) : SetWatermarkError :=
  match v with
  | DatasetActionUnauthorizedError_Access e => SetWatermarkError_Access e
  | DatasetActionUnauthorizedError_Internal e => SetWatermarkError_Internal e
  end.

Definition SetWatermarkError_from_Aliases (v : GetAliasesError) : SetWatermarkError :=
  match v with
  | GetAliasesError_DatasetNotFound e => SetWatermarkError_NotFound e
  | GetAliasesError_Internal e => SetWatermarkError_Internal e
  end.

Inductive WriteWatermarkError :=
| WriteWatermarkError_EmptyCommit
| WriteWatermarkError_CommitError (e : CommitError)
| WriteWatermarkError_Internal (e : InternalError).

Section Watermark.
Context {Url W : Type} {PW : PullWorkspace Url W}.

Variable check_action_allowed : DatasetHandle -> DatasetAction -> res DatasetActionUnauthorizedError unit.
(** [DataWriterDataFusion]: reading the state of the metadata, and
    [write_watermark], which gives the old and the new head. *)
Variable scan_metadata_state : W -> DatasetHandle -> res InternalError unit.
Variable write_watermark : DatasetHandle -> DateTime -> DateTime -> action W WriteWatermarkError (Multihash * Multihash).

Definition set_watermark_result (x : res WriteWatermarkError (Multihash * Multihash))
    : res SetWatermarkError PullResult :=
  match x with
  | Ok (old_head, new_head) => Ok (PullResult_Updated (Some old_head) new_head)
  | Err WriteWatermarkError_EmptyCommit
  | Err (WriteWatermarkError_CommitError (CommitError_MetadataAppendError
          (AppendError_InvalidBlock AppendValidationError_WatermarkIsNotMonotonic))) =>
      Ok (PullResult_UpToDate PullResultUpToDate_SetWatermark)
  | Err _ => Err (SetWatermarkError_Internal mkInternalError)
  | Panic => Panic
  end.

(** The dataset to set the watermark of, once everything was checked. *)
Definition set_watermark_target (w : W) (dataset_ref : DatasetRef) : res SetWatermarkError DatasetHandle :=
  let! aliases := map_err SetWatermarkError_from_Aliases (get_remote_aliases w dataset_ref) in
  if negb (ra_is_empty aliases RemoteAliasKind_Pull) then Err SetWatermarkError_IsRemote
  else
    let! dataset_handle := map_err SetWatermarkError_from_Get (pw_resolve_dataset_ref w dataset_ref) in
    let! _ := map_err SetWatermarkError_from_Unauthorized
                (check_action_allowed dataset_handle DatasetAction_Write) in
    let! summary := map_err (fun _ => SetWatermarkError_Internal mkInternalError)
                      (pw_get_summary w dataset_handle) in
    match dsu_kind summary with
    | DatasetKind_Root =>
        let! _ := map_err SetWatermarkError_Internal (scan_metadata_state w dataset_handle) in
        Ok dataset_handle
    | _ => Err SetWatermarkError_IsDerivative
    end.

Definition set_watermark (dataset_ref : DatasetRef) (new_watermark now : DateTime)
    : action W SetWatermarkError PullResult := fun w =>
  match set_watermark_target w dataset_ref with
  | Ok dataset_handle =>
      let '(x, w') := write_watermark dataset_handle new_watermark now w in (set_watermark_result x, w')
  | Err e => (Err e, w)
  | Panic => (Panic, w)
  end.

End Watermark.
