(* ===== verification/PushService.v ===== *)
(** Pushing datasets to remote repositories.

    Sources: src/infra/core/src/push_service_impl.rs and
    src/domain/core/src/services/push_service.rs.  The interfaces are those of
    pulling. *)

From S2P Require Import Prelude Multiformats Grammar Dids Identity References Dtos ChainRepos ObjectRepoFs.
From S2P Require Import MetadataChain ChainComparator ChainVisitors ChainValidators ChainRules ChainAppend ChainInvariants.
From S2P Require Import Dataset Sync EventSourcing TaskSystem FlowSystem Messages FlowTimeWheel FlowStore.
From S2P Require Import FlowService DatasetChanges DatasetOwnership Transform RemoteAliases PullService.

Record PushRequest (Url : Type) := mkPushRequest {
  psq_local_ref : option DatasetRef;
  psq_remote_ref : option (DatasetRefRemote Url)
}.
Arguments mkPushRequest {Url}.
Arguments psq_local_ref {Url}.
Arguments psq_remote_ref {Url}.

Record PushMultiOptions := mkPushMultiOptions {
  pso_recursive : bool;
  pso_all : bool;
  pso_add_aliases : bool;
  pso_sync_options : SyncOptions
}.

Definition PushMultiOptions_default : PushMultiOptions :=
  mkPushMultiOptions false false true SyncOptions_default.

Inductive PushError (Url : Type) :=
| PushError_SourceNotFound (e : DatasetNotFoundError)
| PushError_NoTarget
| PushError_AmbiguousTarget
| PushError_SyncError (e : SyncError Url)
| PushError_Internal (e : InternalError).
Arguments PushError_SourceNotFound {Url}.
Arguments PushError_NoTarget {Url}.
Arguments PushError_AmbiguousTarget {Url}.
Arguments PushError_SyncError {Url}.
Arguments PushError_Internal {Url}.

Definition PushError_from_Get {Url} (v : GetDatasetError) : PushError Url :=
  match v with
  | GetDatasetError_NotFound e => PushError_SourceNotFound e
  | GetDatasetError_Internal e => PushError_Internal e
  end.

Record PushResponse (Url : Type) := mkPushResponse {
  psr_original_request : PushRequest Url;
  psr_local_handle : option DatasetHandle;
  psr_remote_ref : option (DatasetRefRemote Url);
  psr_result : res (PushError Url) SyncResult
}.
Arguments mkPushResponse {Url}.
Arguments psr_original_request {Url}.
Arguments psr_local_handle {Url}.
Arguments psr_remote_ref {Url}.
Arguments psr_result {Url}.

Record PushItem (Url : Type) := mkPushItem {
  psi_original_request : PushRequest Url;
  psi_local_handle : DatasetHandle;
  psi_remote_ref : DatasetRefRemote Url
}.
Arguments mkPushItem {Url}.
Arguments psi_original_request {Url}.
Arguments psi_local_handle {Url}.
Arguments psi_remote_ref {Url}.

Definition into_push_response {Url} (pi : PushItem Url) (result : res (SyncError Url) SyncResult)
    : PushResponse Url :=
  mkPushResponse (psi_original_request pi) (Some (psi_local_handle pi)) (Some (psi_remote_ref pi))
    (map_err PushError_SyncError result).

Section Push.
Context `{EN : Engines} {Url W : Type} `{!UrlCrate Url} {PW : PullWorkspace Url W} {PS : PullServices Url W}.

Implicit Types (w : W) (request : PushRequest Url).

(** * The plan *)

Definition resolve_push_alias w (local_handle : DatasetHandle) : res (PushError Url) (DatasetRefRemote Url) :=
  let! remote_aliases := map_err PushError_Internal
                           (int_err (get_remote_aliases w (DatasetRef_Handle local_handle))) in
  match ra_get_by_kind remote_aliases RemoteAliasKind_Push with
  | [] => Err PushError_NoTarget
  | [a] => Ok a
  | _ => Err PushError_AmbiguousTarget
  end.

Definition inverse_lookup_dataset_by_push_alias w (remote_ref : DatasetRefRemote Url)
    : res (PushError Url) DatasetHandle :=
  let! quick := map_err PushError_Internal (find_by_name w remote_ref RemoteAliasKind_Push) in
  match quick with
  | Some local_handle => Ok local_handle
  | None =>
      let '(datasets, ended) := pw_get_all_datasets w in
      let! found := map_err PushError_Internal
                      (find_by_alias w datasets ended remote_ref RemoteAliasKind_Push) in
      match found with
      | Some dataset_handle => Ok dataset_handle
      | None => Err PushError_NoTarget
      end
  end.

Definition push_failed {A} request (local_handle : option DatasetHandle) (e : PushError Url)
    : res (PushResponse Url) A :=
  Err (mkPushResponse request local_handle (psq_remote_ref request) (Err e)).

Definition collect_plan_item w request : res (PushResponse Url) (PushItem Url) :=
  match psq_local_ref request, psq_remote_ref request with
  | None, None => Panic
  | Some local_ref, remote_ref =>
      match pw_resolve_dataset_ref w local_ref with
      | Ok local_handle =>
          match remote_ref with
          | None =>
              match resolve_push_alias w local_handle with
              | Ok remote_ref => Ok (mkPushItem request local_handle remote_ref)
              | Err e => push_failed request (Some local_handle) e
              | Panic => Panic
              end
          | Some remote_ref => Ok (mkPushItem request local_handle remote_ref)
          end
      | Err e => push_failed request None (PushError_from_Get e)
      | Panic => Panic
      end
  | None, Some remote_ref =>
      match inverse_lookup_dataset_by_push_alias w remote_ref with
      | Ok local_handle => Ok (mkPushItem request local_handle remote_ref)
      | Err e => push_failed request None e
      | Panic => Panic
      end
  end.

Fixpoint collect_plan w (items : list (PushRequest Url))
    : res InternalError (list (PushItem Url) * list (PushResponse Url)) :=
  match items with
  | [] => Ok ([], [])
  | request :: rest =>
      match collect_plan_item w request with
      | Panic => Panic
      | Ok item => map_ok (fun r => (item :: r.1, r.2)) (collect_plan w rest)
      | Err err => map_ok (fun r => (r.1, err :: r.2)) (collect_plan w rest)
      end
  end.

(** * Running it *)

(** The assertions on the results of the batch. *)
Fixpoint zip_push (plan : list (PushItem Url)) (results : list (SyncResultMulti Url))
    : res InternalError (list (PushResponse Url)) :=
  match plan, results with
  | [], [] => Ok []
  | pi :: plan', r :: results' =>
      let! rest := zip_push plan' results' in
      if DatasetRefAny_eq (DatasetRefAny_LocalHandle (psi_local_handle pi)) (srm_src r) &&
         DatasetRefAny_eq (DatasetRefAny_from_remote (psi_remote_ref pi)) (srm_dst r)
      then Ok (into_push_response pi (srm_result r) :: rest) else Panic
  | _, _ => Panic
  end.

(** Adds the alias of a request that names both ends; failures panic. *)
Definition remember_target request : action W InternalError unit := fun w =>
  match psq_local_ref request, psq_remote_ref request with
  | Some local_ref, Some remote_ref =>
      match register_alias local_ref remote_ref RemoteAliasKind_Push w with
      | (Err _, w') => (Panic, w')
      | x => x
      end
  | _, _ => (Ok tt, w)
  end.

Definition push_sync_request (pi : PushItem Url) : SyncRequest Url :=
  mkSyncRequest (DatasetRefAny_LocalHandle (psi_local_handle pi)) (DatasetRefAny_from_remote (psi_remote_ref pi)).

Definition push_multi_ext (initial_requests : list (PushRequest Url)) (options : PushMultiOptions)
    : action W InternalError (list (PushResponse Url)) := fun w =>
  if pso_recursive options then (Panic, w)
  else if pso_all options then (Panic, w)
  else
    match collect_plan w initial_requests with
    | Ok (plan, []) =>
        let '(sync_results, w') := svc_sync_multi (push_sync_request <$> plan) (pso_sync_options options) w in
        match zip_push plan sync_results with
        | Ok results =>
            if pso_add_aliases options && forallb (fun r => is_ok (psr_result r)) results
            then (for_each remember_target initial_requests ≫= fun _ => mret results) w'
            else (Ok results, w')
        | x => (x, w')
        end
    | Ok (_, errors) => (Ok errors, w)
    | Err e => (Err e, w)
    | Panic => (Panic, w)
    end.

Definition push_request_of (r : DatasetRefAny Url) : PushRequest Url :=
  match DatasetRefAny_into_local_ref (fun _ => negb is_multi_tenant) r with
  | Ok local_ref => mkPushRequest (Some local_ref) None
  | Err remote_ref => mkPushRequest None (Some remote_ref)
  | Panic => mkPushRequest None None
  end.

Definition push_multi (dataset_refs : list (DatasetRefAny Url)) (options : PushMultiOptions)
    : action W InternalError (list (PushResponse Url)) :=
  push_multi_ext (push_request_of <$> dataset_refs) options.

End Push.
