(* ===== verification/PullFacts.v ===== *)
(** Facts behind the properties of remote aliases, pulling and pushing: the order
    of plan items is a total preorder, the map of visited datasets, what the
    descent through the dependencies maintains, and how levels are run. *)

From S2P Require Import Prelude Multiformats Grammar Dids Identity References Dtos ChainRepos ObjectRepoFs.
From S2P Require Import MetadataChain ChainComparator ChainVisitors ChainValidators ChainRules ChainAppend ChainInvariants.
From S2P Require Import Dataset Sync EventSourcing TaskSystem FlowSystem Messages FlowTimeWheel FlowStore.
From S2P Require Import FlowService DatasetChanges DatasetOwnership Transform RemoteAliases PullService PushService.
From stdpp Require Import functions sorting list.
From Stdlib Require Import Ascii.

(** * Comparison functions *)

(** [Ord]: antisymmetric, transitive, and equal elements compare alike. *)
Record lawful_cmp {A} (cmp : A -> A -> comparison) : Prop := {
  lc_antisym : forall x y, cmp y x = CompOpp (cmp x y);
  lc_trans : forall x y z, cmp x y = Lt -> cmp y z = Lt -> cmp x z = Lt;
  lc_subst : forall x y z, cmp x y = Eq -> cmp x z = cmp y z
}.

Definition on {A B} (f : A -> B) (cmp : B -> B -> comparison) (x y : A) : comparison := cmp (f x) (f y).

Section Comparisons.
Context {A B : Type}.

Lemma lawful_on (f : A -> B) cmp : lawful_cmp cmp -> lawful_cmp (on f cmp).
Proof.
  intros [Ha Ht Hs]. unfold on. split; intros; [apply Ha|eapply Ht; eauto|by apply Hs].
Qed.

Lemma lawful_eq_sym (cmp : A -> A -> comparison) x y : lawful_cmp cmp -> cmp x y = Eq -> cmp y x = Eq.
Proof. intros [Ha _ _] H. by rewrite Ha, H. Qed.

Lemma lawful_subst_r (cmp : A -> A -> comparison) x y z : lawful_cmp cmp -> cmp x y = Eq -> cmp z x = cmp z y.
Proof.
  intros L H. rewrite (lc_antisym _ L x z), (lc_antisym _ L y z). f_equal. by apply (lc_subst _ L).
Qed.

Lemma lawful_then (c d : A -> A -> comparison) :
  lawful_cmp c -> lawful_cmp d -> lawful_cmp (fun x y => then_cmp (c x y) (d x y)).
Proof.
  intros Lc Ld. split.
  - intros x y. rewrite (lc_antisym _ Lc x y), (lc_antisym _ Ld x y). by destruct (c x y).
  - intros x y z. destruct (c x y) eqn:Hxy; simpl; [| |done].
    + rewrite (lc_subst _ Lc _ _ z Hxy). destruct (c y z); simpl; [|done..]. intros H1 H2. by eapply (lc_trans _ Ld).
    + intros _. destruct (c y z) eqn:Hyz; simpl; [| |done].
      * by rewrite <- (lawful_subst_r _ _ _ x Lc Hyz), Hxy.
      * by rewrite (lc_trans _ Lc _ _ _ Hxy Hyz).
  - intros x y z. destruct (c x y) eqn:Hxy; simpl; [|done..]. intros Hd.
    by rewrite (lc_subst _ Lc _ _ z Hxy), (lc_subst _ Ld _ _ z Hd).
Qed.

Lemma lawful_option (cmp : A -> A -> comparison) : lawful_cmp cmp -> lawful_cmp (option_cmp cmp).
Proof.
  intros [Ha Ht Hs]. split.
  - intros [x|] [y|]; simpl; auto.
  - intros [x|] [y|] [z|]; simpl; try done. apply Ht.
  - intros [x|] [y|] [z|]; simpl; try done. apply Hs.
Qed.

Lemma lawful_le_trans (cmp : A -> A -> comparison) : lawful_cmp cmp -> Transitive (fun x y => cmp x y <> Gt).
Proof.
  intros L x y z. destruct (cmp x y) eqn:Hxy; [| |done]; intros _.
  - by rewrite (lc_subst _ L _ _ z Hxy).
  - destruct (cmp y z) eqn:Hyz; [| |done]; intros _.
    + by rewrite <- (lawful_subst_r _ _ _ x L Hyz), Hxy.
    + by rewrite (lc_trans _ L _ _ _ Hxy Hyz).
Qed.

Lemma lawful_le_total (cmp : A -> A -> comparison) : lawful_cmp cmp -> Total (fun x y => cmp x y <> Gt).
Proof. intros L x y. rewrite (lc_antisym _ L x y). destruct (cmp x y); simpl; auto. Qed.

Lemma lawful_le_antisym (cmp : A -> A -> comparison) x y :
  lawful_cmp cmp -> cmp x y <> Gt -> cmp y x <> Gt -> cmp x y = Eq.
Proof. intros L. rewrite (lc_antisym _ L x y). by destruct (cmp x y). Qed.
End Comparisons.

Lemma lawful_Z : lawful_cmp Z.compare.
Proof.
  split; intros *.
  - apply Z.compare_antisym.
  - rewrite !Z.compare_lt_iff. lia.
  - intros ->%Z.compare_eq_iff. done.
Qed.

Definition bool_cmp (x y : bool) : comparison :=
  match x, y with true, false => Gt | false, true => Lt | _, _ => Eq end.

Lemma lawful_bool : lawful_cmp bool_cmp.
Proof. split; [intros [] []|intros [] [] []|intros [] [] []]; done. Qed.

Lemma ascii_compare_eq a b : Ascii.compare a b = Eq -> a = b.
Proof.
  unfold Ascii.compare. intros H%N.compare_eq_iff.
  by rewrite <- (ascii_N_embedding a), <- (ascii_N_embedding b), H.
Qed.

Lemma string_compare_eq s t : String.compare s t = Eq <-> s = t.
Proof.
  split.
  - revert t. induction s as [|a s IH]; intros [|b t]; simpl; try done.
    destruct (Ascii.compare a b) eqn:Hab; [|done..]. apply ascii_compare_eq in Hab as ->. by intros ->%IH.
  - intros <-. induction s as [|a s IH]; simpl; [done|]. unfold Ascii.compare. by rewrite N.compare_refl.
Qed.

Lemma lawful_string : lawful_cmp String.compare.
Proof.
  split.
  - induction x as [|a x IH]; intros [|b y]; simpl; try done. rewrite IH.
    unfold Ascii.compare. rewrite (N.compare_antisym (N_of_ascii b)).
    by destruct (N_of_ascii b ?= N_of_ascii a)%N.
  - induction x as [|a x IH]; intros [|b y] [|c z]; simpl; try done.
    destruct (Ascii.compare a b) eqn:Hab; [| |done].
    + apply ascii_compare_eq in Hab as ->. destruct (Ascii.compare b c); [|done..]. apply IH.
    + intros _. destruct (Ascii.compare b c) eqn:Hbc; [| |done].
      * apply ascii_compare_eq in Hbc as ->. by rewrite Hab.
      * unfold Ascii.compare in *. rewrite N.compare_lt_iff in Hab, Hbc.
        by rewrite (proj2 (N.compare_lt_iff _ _)) by lia.
  - by intros x y z ->%string_compare_eq.
Qed.

(** * Aliases up to case *)

Definition alias_key (a : DatasetAlias) : option string * string :=
  ((fun x => to_ascii_lowercase (an_str x)) <$> da_account_name a,
   to_ascii_lowercase (dn_str (da_dataset_name a))).

Lemma DatasetAlias_eq_key a b : DatasetAlias_eq a b = true <-> alias_key a = alias_key b.
Proof.
  unfold DatasetAlias_eq, alias_key, option_eqb, AccountName_eq, DatasetName_eq, eq_ignore_ascii_case.
  rewrite andb_true_iff, bool_decide_eq_true.
  destruct (da_account_name a), (da_account_name b); simpl; rewrite ?bool_decide_eq_true;
    (split; [intros [H1 H2]; congruence|intros [= H1 H2] || intros [= H2]; auto]).
Qed.

Lemma lawful_newtype {A} (f : A -> string) : lawful_cmp (fun x y => newtype_str_cmp (f x) (f y)).
Proof. apply (lawful_on (fun x => to_ascii_lowercase (f x))), lawful_string. Qed.

Lemma lawful_alias : lawful_cmp DatasetAlias_cmp.
Proof.
  apply lawful_then.
  - apply (lawful_on da_account_name account_cmp), (lawful_option _ (lawful_newtype an_str)).
  - apply (lawful_newtype (fun x => dn_str (da_dataset_name x))).
Qed.

Lemma DatasetAlias_cmp_key a b : DatasetAlias_cmp a b = Eq <-> alias_key a = alias_key b.
Proof.
  unfold DatasetAlias_cmp, account_cmp, alias_key, newtype_str_cmp.
  destruct (da_account_name a) as [x|], (da_account_name b) as [y|]; simpl.
  2,3: split; [done|congruence].
  - destruct (String.compare (to_ascii_lowercase (an_str x)) _) eqn:Hx; simpl.
    2,3: split; [done|intros [= Heq _]; by rewrite (proj2 (string_compare_eq _ _) Heq) in Hx].
    apply string_compare_eq in Hx as ->. rewrite string_compare_eq. split; congruence.
  - rewrite string_compare_eq. split; congruence.
Qed.

Section Planner.
Context `{EN : Engines} {Url W : Type} `{!UrlCrate Url} `{!UrlParts Url} {PW : PullWorkspace Url W}
        {PS : PullServices Url W}.

Variable current_account_subject : CurrentAccountSubject.

Abbreviation Item := (PullItem (Url := Url)).
Abbreviation VisitedMap := (list (DatasetAlias * Item)).
Abbreviation target := (resolve_target current_account_subject).
Abbreviation collect := (collect_pull_graph_depth_first current_account_subject).

Implicit Types (w : W) (pi : Item) (v : VisitedMap) (options : PullMultiOptions (Url := Url) (W := W)).

(** * The order of items *)

Definition item_remote pi : bool := bool_decide (is_Some (pi_remote_ref pi)).
Definition item_alias pi : option DatasetAlias := DatasetRef_alias (pi_local_ref pi).

Lemma PullItem_cmp_lexicographic x y :
  PullItem_cmp x y =
  then_cmp (Z.compare (pi_depth x) (pi_depth y))
    (then_cmp (bool_cmp (negb (item_remote x)) (negb (item_remote y)))
       (option_cmp DatasetAlias_cmp (item_alias x) (item_alias y))).
Proof.
  unfold PullItem_cmp, item_remote, item_alias. destruct (Z.compare _ _); simpl; [|done..].
  destruct (bool_decide (is_Some (pi_remote_ref x))), (bool_decide (is_Some (pi_remote_ref y))); simpl; try done;
    by destruct (DatasetRef_alias (pi_local_ref x)), (DatasetRef_alias (pi_local_ref y)).
Qed.

Lemma lawful_item : lawful_cmp (PullItem_cmp (Url := Url)).
Proof.
  assert (L : lawful_cmp (fun x y =>
    then_cmp (on pi_depth Z.compare x y)
      (then_cmp (on (fun x => negb (item_remote x)) bool_cmp x y)
         (on item_alias (option_cmp DatasetAlias_cmp) x y)))).
  { apply lawful_then; [|apply (lawful_then (on _ _) (on _ _))]; apply lawful_on;
      [apply lawful_Z|apply lawful_bool|apply lawful_option, lawful_alias]. }
  destruct L as [Ha Ht Hs]. unfold on in *.
  split; intros *; rewrite !PullItem_cmp_lexicographic; [apply Ha|apply Ht|apply Hs].
Qed.

#[export] Instance PullItem_le_trans : Transitive (PullItem_le (Url := Url)).
Proof. apply lawful_le_trans, lawful_item. Qed.
#[export] Instance PullItem_le_total : Total (PullItem_le (Url := Url)).
Proof. apply lawful_le_total, lawful_item. Qed.

Lemma PullItem_le_depth (x y : Item) : PullItem_le x y -> (pi_depth x <= pi_depth y)%Z.
Proof.
  unfold PullItem_le. rewrite PullItem_cmp_lexicographic.
  destruct (Z.compare_spec (pi_depth x) (pi_depth y)); simpl; [lia|lia|done].
Qed.

Lemma PullItem_le_antisym (x y : Item) a b :
  PullItem_le x y -> PullItem_le y x -> item_alias x = Some a -> item_alias y = Some b ->
  alias_key a = alias_key b.
Proof.
  intros H1 H2 Ha Hb. pose proof (lawful_le_antisym _ _ _ lawful_item H1 H2) as H.
  rewrite PullItem_cmp_lexicographic, Ha, Hb in H.
  destruct (Z.compare _ _); [|done..]. destruct (bool_cmp _ _); [|done..]. simpl in H.
  by apply DatasetAlias_cmp_key.
Qed.

(** * The map of visited datasets *)

Lemma visited_get_insert v a pi b :
  visited_get (visited_insert v a pi) b = if DatasetAlias_eq a b then Some pi else visited_get v b.
Proof.
  induction v as [|[k x] v IH]; simpl; [done|].
  destruct (DatasetAlias_eq k a) eqn:Hka; simpl.
  - apply DatasetAlias_eq_key in Hka.
    destruct (DatasetAlias_eq k b) eqn:Hkb, (DatasetAlias_eq a b) eqn:Hab; try done; exfalso.
    + apply DatasetAlias_eq_key in Hkb. apply not_true_iff_false in Hab. apply Hab, DatasetAlias_eq_key. congruence.
    + apply DatasetAlias_eq_key in Hab. apply not_true_iff_false in Hkb. apply Hkb, DatasetAlias_eq_key. congruence.
  - destruct (DatasetAlias_eq k b) eqn:Hkb, (DatasetAlias_eq a b) eqn:Hab; rewrite ?IH; try done; exfalso.
    apply DatasetAlias_eq_key in Hkb, Hab. apply not_true_iff_false in Hka. apply Hka, DatasetAlias_eq_key. congruence.
Qed.

Lemma visited_get_key v a b : alias_key a = alias_key b -> visited_get v a = visited_get v b.
Proof.
  intros H. induction v as [|[k x] v IH]; simpl; [done|]. rewrite IH.
  destruct (DatasetAlias_eq k a) eqn:Ha, (DatasetAlias_eq k b) eqn:Hb; try done; exfalso.
  - apply DatasetAlias_eq_key in Ha. apply not_true_iff_false in Hb. apply Hb, DatasetAlias_eq_key. congruence.
  - apply DatasetAlias_eq_key in Hb. apply not_true_iff_false in Ha. apply Ha, DatasetAlias_eq_key. congruence.
Qed.

Definition visited_keys v := (fun e => alias_key e.1) <$> v.

Lemma visited_get_some v a pi : visited_get v a = Some pi -> exists k, (k, pi) ∈ v /\ alias_key k = alias_key a.
Proof.
  induction v as [|[k x] v IH]; simpl; [done|]. destruct (DatasetAlias_eq k a) eqn:Hk.
  - intros [= ->]. exists k. split; [left|]. by apply DatasetAlias_eq_key.
  - intros (k' & Hin & ?)%IH. exists k'. split; [by right|done].
Qed.

Lemma visited_get_elem v k pi : NoDup (visited_keys v) -> (k, pi) ∈ v -> visited_get v k = Some pi.
Proof.
  induction v as [|[k' x] v IH]; simpl; [intros _ Hin; by apply elem_of_nil in Hin|].
  intros [Hk Hnd]%NoDup_cons [[= -> ->]|Hin]%elem_of_cons.
  - by rewrite (proj2 (DatasetAlias_eq_key k' k')).
  - destruct (DatasetAlias_eq k' k) eqn:He; [|by apply IH].
    apply DatasetAlias_eq_key in He. exfalso. apply Hk. rewrite He.
    by apply (list_elem_of_fmap_2 (fun e => alias_key e.1) v (k, pi)).
Qed.

Lemma visited_insert_keys v a pi :
  visited_keys (visited_insert v a pi) =
  match visited_get v a with Some _ => visited_keys v | None => visited_keys v ++ [alias_key a] end.
Proof.
  induction v as [|[k x] v IH]; simpl; [done|]. destruct (DatasetAlias_eq k a); simpl; [done|].
  rewrite IH. by destruct (visited_get v a).
Qed.

Lemma visited_insert_nodup v a pi : NoDup (visited_keys v) -> NoDup (visited_keys (visited_insert v a pi)).
Proof.
  intros H. rewrite visited_insert_keys. destruct (visited_get v a) eqn:Ha; [done|].
  apply NoDup_app. split_and!; [done| |apply NoDup_singleton].
  intros k Hk ->%list_elem_of_singleton. apply list_elem_of_fmap in Hk as ([k x] & Hkey & Hin).
  simpl in Hkey. rewrite (visited_get_key _ _ _ Hkey), (visited_get_elem v k x) in Ha; done.
Qed.

(** Entries may be marked as requested, and added, but not otherwise changed. *)
Definition same_item (x y : Item) : Prop :=
  pi_depth x = pi_depth y /\ pi_local_ref x = pi_local_ref y /\ pi_remote_ref x = pi_remote_ref y /\
  (explicitly_requested y -> explicitly_requested x).

Definition visited_extends v v' : Prop :=
  forall a pi, visited_get v a = Some pi -> exists pi', visited_get v' a = Some pi' /\ same_item pi' pi.

#[export] Instance visited_extends_preorder : PreOrder visited_extends.
Proof.
  split; [by intros v a pi; exists pi|].
  intros v1 v2 v3 H12 H23 a pi (pi2 & (pi3 & H3 & H3s)%H23 & H2s)%H12.
  exists pi3. split; [done|]. unfold same_item in *. destruct_and!. split_and!; [congruence..|auto].
Qed.

Lemma same_item_mark b request pi : same_item (mark_explicit b request pi) pi.
Proof. destruct b; split_and!; try done. intros _. by exists request. Qed.

(** * The descent *)

(** The dependencies of datasets, followed by name, have no cycle: [rank] falls
    along every dependency, and no chain of dependencies is longer than an [i32]
    can count. *)
Record acyclic w (rank : DatasetAlias -> nat) : Prop := {
  ac_name : forall a b, DatasetAlias_eq a b = true -> rank a = rank b;
  ac_dependency : forall h s id h', pw_get_summary w h = Ok s -> id ∈ dsu_dependencies s ->
    try_resolve_dataset_ref w (DatasetRef_ID id) = Ok (Some h') ->
    rank (dh_alias h') < rank (dh_alias h);
  ac_bound : forall a, (Z.of_nat (rank a) < 2 ^ 31)%Z
}.

(** The items of what [id] depends on are in [v], at a lower depth. *)
Definition dependency_below w v (depth : Z) (id : DatasetID) : Prop :=
  exists h pi, try_resolve_dataset_ref w (DatasetRef_ID id) = Ok (Some h) /\
    visited_get v (dh_alias h) = Some pi /\ (pi_depth pi < depth)%Z.

Definition item_ok w (rank : DatasetAlias -> nat) v (a : DatasetAlias) pi : Prop :=
  (exists b, item_alias pi = Some b /\ alias_key b = alias_key a) /\
  (0 <= pi_depth pi <= Z.of_nat (rank a))%Z /\
  match pi_remote_ref pi with
  | Some _ => pi_depth pi = 0%Z
  | None => exists h s, pi_local_ref pi = DatasetRef_Handle h /\ pw_get_summary w h = Ok s /\
      Forall (dependency_below w v (pi_depth pi)) (dsu_dependencies s)
  end.

Record graph_ok w rank v : Prop := {
  go_nodup : NoDup (visited_keys v);
  go_item : forall a pi, visited_get v a = Some pi -> item_ok w rank v a pi
}.

Lemma dependency_below_mono w v v' d d' id :
  visited_extends v v' -> (d <= d')%Z -> dependency_below w v d id -> dependency_below w v' d' id.
Proof.
  intros Hext Hd (h & pi & Hr & (pi' & Hpi & Hs & _)%Hext & Hlt).
  exists h, pi'. split_and!; [done..|]. rewrite Hs. lia.
Qed.

Lemma item_ok_mono w rank v v' a pi pi' :
  visited_extends v v' -> same_item pi' pi -> item_ok w rank v a pi -> item_ok w rank v' a pi'.
Proof.
  intros Hext (Hd & Hl & Hr & _) (Ha & Hb & Hdep). unfold item_ok, item_alias in *. rewrite Hd, Hl, Hr.
  split_and!; [done|lia..|]. destruct (pi_remote_ref pi); [done|].
  destruct Hdep as (h & s & Hh & Hs & Hf). exists h, s. split_and!; [done..|].
  eapply Forall_impl; [exact Hf|]. intros id. by apply dependency_below_mono.
Qed.

Section Descent.
Variables (w : W) (rank : DatasetAlias -> nat) (options : PullMultiOptions (Url := Url) (W := W)).
Hypothesis Hacyclic : acyclic w rank.

Abbreviation ok := (graph_ok w rank).

Lemma rank_key a b : alias_key a = alias_key b -> rank a = rank b.
Proof. intros H. by apply (ac_name _ _ Hacyclic), DatasetAlias_eq_key. Qed.

(** Inserting an item under a new name, or marking one. *)
Lemma graph_ok_insert v a pi :
  ok v -> (forall pi', visited_get v a = Some pi' -> same_item pi pi') -> item_ok w rank v a pi ->
  ok (visited_insert v a pi) /\ visited_extends v (visited_insert v a pi).
Proof.
  intros [Hnd Hit] Hsame Hok.
  assert (Hext : visited_extends v (visited_insert v a pi)).
  { intros b x Hb. rewrite visited_get_insert. destruct (DatasetAlias_eq a b) eqn:Hab; [|by exists x].
    exists pi. split; [done|]. apply Hsame. apply DatasetAlias_eq_key in Hab.
    by rewrite (visited_get_key _ _ _ Hab). }
  split; [|done]. split; [by apply visited_insert_nodup|].
  intros b x. rewrite visited_get_insert. destruct (DatasetAlias_eq a b) eqn:Hab.
  - intros [= <-]. apply DatasetAlias_eq_key in Hab.
    eapply item_ok_mono; [exact Hext|by split_and!|].
    unfold item_ok in *. by rewrite <- Hab, <- (rank_key _ _ Hab).
  - intros Hb. eapply item_ok_mono; [exact Hext|by split_and!|by apply Hit].
Qed.

(** What a descent into the datasets called [targets] does to the map. *)
Record descent_ok (targets : DatasetAlias -> Prop) v v' : Prop := {
  do_graph : ok v';
  do_extends : visited_extends v v';
  do_fresh : forall b, visited_get v b = None -> visited_get v' b <> None ->
    exists a, targets a /\ rank b <= rank a
}.

Definition descend_spec (descend : DatasetID -> VisitedMap ->
    option (res (PullError (Url := Url) (W := W)) Z * VisitedMap)) : Prop :=
  forall id v r v', ok v -> descend id v = Some (r, v') ->
    descent_ok (fun a => exists h, try_resolve_dataset_ref w (DatasetRef_ID id) = Ok (Some h) /\ a = dh_alias h) v v' /\
    forall d, r = Ok d -> exists h pi, try_resolve_dataset_ref w (DatasetRef_ID id) = Ok (Some h) /\
      visited_get v' (dh_alias h) = Some pi /\ pi_depth pi = d.

Lemma descent_ok_trans (P Q R : DatasetAlias -> Prop) v1 v2 v3 :
  (forall a, P a -> R a) -> (forall a, Q a -> R a) ->
  descent_ok P v1 v2 -> descent_ok Q v2 v3 -> descent_ok R v1 v3.
Proof.
  intros HP HQ [H1 H1e H1f] [H2 H2e H2f]. split; [done|by transitivity v2|].
  intros b Hb Hb'. destruct (visited_get v2 b) as [x|] eqn:Hb2.
  - destruct (H1f b Hb) as (a & Ha & Hr); [by rewrite Hb2|]. exists a. auto.
  - destruct (H2f b Hb2 Hb') as (a & Ha & Hr). exists a. auto.
Qed.

Lemma descent_ok_refl P v : ok v -> descent_ok P v v.
Proof. intros H. split; [done|done|congruence]. Qed.

(** The loop over the dependencies. *)
Lemma visit_dependencies_ok descend deps m v r v' :
  descend_spec descend -> ok v -> visit_dependencies descend deps m v = Some (r, v') ->
  descent_ok (fun a => exists id h, id ∈ deps /\ try_resolve_dataset_ref w (DatasetRef_ID id) = Ok (Some h) /\
                         a = dh_alias h) v v' /\
  forall d, r = Ok d -> (m <= d)%Z /\ Forall (dependency_below w v' (d + 1)) deps /\
    (d = m \/ exists id h, id ∈ deps /\ try_resolve_dataset_ref w (DatasetRef_ID id) = Ok (Some h) /\
       (d <= Z.of_nat (rank (dh_alias h)))%Z).
Proof.
  intros Hd. revert m v. induction deps as [|id deps IH]; intros m v Hok; simpl.
  { intros [= <- <-]. split; [by apply descent_ok_refl|]. intros d [= <-]. split_and!; [lia|constructor|by left]. }
  destruct (descend id v) as [[[d1|e|] v1]|] eqn:H1; [| | |done].
  2, 3: intros [= <- <-]; destruct (Hd _ _ _ _ Hok H1) as [Hs _]; split; [|done];
    eapply (descent_ok_trans _ (fun _ => False)); [| |exact Hs|apply descent_ok_refl; apply (do_graph _ _ _ Hs)];
    [intros a (h & Hh & ->); exists id, h; split; [left|done]|done].
  destruct (Hd _ _ _ _ Hok H1) as [Hs1 Hr1]. intros H2.
  destruct (IH _ v1 (do_graph _ _ _ Hs1) H2) as [Hs2 Hr2]. split.
  - eapply descent_ok_trans; [| |exact Hs1|exact Hs2].
    + intros a (h & Hh & ->). exists id, h. split; [left|done].
    + intros a (id' & h & Hin & Hh & ->). exists id', h. split; [by right|done].
  - intros d ->. destruct (Hr1 d1 eq_refl) as (h1 & pi1 & Hh1 & Hg1 & Hp1).
    destruct (Hr2 d eq_refl) as (Hm & Hf & Hb).
    pose proof (go_item _ _ _ (do_graph _ _ _ Hs1) _ _ Hg1) as (_ & Hle & _).
    split_and!; [lia| |].
    + constructor; [|done]. destruct (do_extends _ _ _ Hs2 _ _ Hg1) as (pi2 & Hg2 & Hsd & _).
      exists h1, pi2. split_and!; [done..|]. lia.
    + destruct Hb as [->|(id' & h' & Hin & Hh' & Hd')].
      * destruct (Z.max_spec m d1) as [[_ ->]|[_ ->]]; [|by left].
        right. exists id, h1. split_and!; [left|done|lia].
      * right. exists id', h'. split_and!; [by right|done..].
Qed.

Lemma target_alias request lh a : target w request options = Ok (lh, a) -> forall h, lh = Some h -> a = dh_alias h.
Proof.
  unfold resolve_target. destruct (resolve_local_handle current_account_subject w request) as [lh'| |]; simpl; [|done..].
  destruct (resolve_local_alias current_account_subject request lh') as [a'| |] eqn:Ha; simpl; [|done..].
  destruct lh' as [h'|]; [|by destruct (negb _); [|intros [= <- <-]]].
  injection Ha as <-. by intros [= <- <-] h [= <-].
Qed.

Lemma dependency_target id lh a :
  target w (dependency_request id) options = Ok (lh, a) ->
  exists h, try_resolve_dataset_ref w (DatasetRef_ID id) = Ok (Some h) /\ lh = Some h /\ a = dh_alias h.
Proof.
  unfold resolve_target, resolve_local_handle. simpl.
  destruct (try_resolve_dataset_ref w (DatasetRef_ID id)) as [[h|]| |]; simpl; [|done..].
  intros [= <- <-]. by exists h.
Qed.

(** The item for a dataset that was not visited: it stays absent during the
    descent. *)
Lemma plan_item_ok descend lh a remote v r v' :
  descend_spec descend -> ok v -> visited_get v a = None -> (forall h, lh = Some h -> a = dh_alias h) ->
  plan_item w descend lh a remote v = Some (r, v') ->
  descent_ok (eq a) v v' /\ visited_get v' a = None /\
  forall pi, r = Ok pi -> item_ok w rank v' a pi /\ pi_original_request pi = None.
Proof.
  intros Hd Hok Hnone Hlh. unfold plan_item. destruct remote as [rr|].
  { intros [= <- <-]. split_and!; [by apply descent_ok_refl|done|]. intros pi [= <-].
    split; [|done]. split_and!; simpl; [|lia|lia|done]. unfold item_alias. simpl.
    destruct lh as [h|]; simpl; [exists (dh_alias h)|by exists a]. by rewrite <- (Hlh h). }
  destruct lh as [h|]; [|intros [= <- <-]; split_and!; [by apply descent_ok_refl|done..]].
  rewrite (Hlh h eq_refl) in *.
  destruct (pw_get_summary w h) as [s|e|] eqn:Hs;
    [|intros [= <- <-]; split_and!; [by apply descent_ok_refl|done..]..].
  destruct (visit_dependencies descend (dsu_dependencies s) (-1) v) as [[x v1]|] eqn:Hv; [|done].
  destruct (visit_dependencies_ok _ _ _ _ _ _ Hd Hok Hv) as [Hdo Hr].
  assert (Hfresh : visited_get v1 (dh_alias h) = None).
  { destruct (visited_get v1 (dh_alias h)) as [y|] eqn:Hy; [|done]. exfalso.
    destruct (do_fresh _ _ _ Hdo _ Hnone) as (b & (id & h' & Hin & Hres & ->) & Hle); [by rewrite Hy|].
    pose proof (ac_dependency _ _ Hacyclic _ _ _ _ Hs Hin Hres). lia. }
  assert (Hdo' : descent_ok (eq (dh_alias h)) v v1).
  { split; [apply Hdo..|]. intros b Hb Hb'.
    destruct (do_fresh _ _ _ Hdo _ Hb Hb') as (c & (id & h' & Hin & Hres & ->) & Hle).
    pose proof (ac_dependency _ _ Hacyclic _ _ _ _ Hs Hin Hres). exists (dh_alias h). split; [done|lia]. }
  destruct x as [d|e|]; intros [= <- <-]; [|by split_and!..].
  split_and!; [done..|]. intros pi [= <-]. split; [|done].
  destruct (Hr d eq_refl) as (Hm & Hf & Hb).
  assert (Hle : (d + 1 <= Z.of_nat (rank (dh_alias h)))%Z).
  { destruct Hb as [->|(id & h' & Hin & Hres & Hle)]; [lia|].
    pose proof (ac_dependency _ _ Hacyclic _ _ _ _ Hs Hin Hres). lia. }
  assert (Hadd : i32_add d 1 = (d + 1)%Z).
  { pose proof (ac_bound _ _ Hacyclic (dh_alias h)). unfold i32_add. rewrite Z.mod_small; lia. }
  split_and!; simpl; rewrite ?Hadd; [by exists (dh_alias h)|lia|lia|]. by exists h, s.
Qed.

Lemma visit_node_ok descend request expl v r v' :
  descend_spec descend -> ok v ->
  visit_node current_account_subject w descend request expl options v = Some (r, v') ->
  descent_ok (fun a => exists lh, target w request options = Ok (lh, a)) v v' /\
  forall d, r = Ok d -> exists lh a pi, target w request options = Ok (lh, a) /\
    visited_get v' a = Some pi /\ pi_depth pi = d /\ (expl = true -> pi_original_request pi = Some request).
Proof.
  intros Hd Hok. unfold visit_node.
  destruct (target w request options) as [[lh a]|e|] eqn:Ht;
    [|intros [= <- <-]; split; [by apply descent_ok_refl|done]..].
  destruct (visited_get v a) as [pi|] eqn:Hg.
  - intros [= <- <-]. destruct expl.
    + destruct (graph_ok_insert v a (mark_explicit true request pi) Hok) as [Hok' Hext].
      { intros pi'. rewrite Hg. intros [= <-]. apply same_item_mark. }
      { eapply item_ok_mono; [reflexivity|apply same_item_mark|by apply (go_item _ _ _ Hok)]. }
      split.
      * split; [done..|]. intros b Hb. rewrite visited_get_insert.
        destruct (DatasetAlias_eq a b) eqn:Hab; [|congruence]. apply DatasetAlias_eq_key in Hab.
        rewrite (visited_get_key _ _ _ Hab) in Hg. congruence.
      * intros d [= <-]. exists lh, a, (mark_explicit true request pi). split_and!; try done.
        by rewrite visited_get_insert, (proj2 (DatasetAlias_eq_key a a)).
    + split; [by apply descent_ok_refl|]. intros d [= <-]. by exists lh, a, pi.
  - destruct (resolve_remote w request lh) as [remote|e|];
      [|intros [= <- <-]; split; [by apply descent_ok_refl|done]..].
    destruct (plan_item w descend lh a remote v) as [[x v1]|] eqn:Hp; [|done].
    destruct (plan_item_ok _ _ _ _ _ _ _ Hd Hok Hg (target_alias _ _ _ Ht) Hp) as (Hdo & Hn & Hx).
    assert (Hw : descent_ok (fun b => exists lh', @Ok (PullError (Url := Url) (W := W)) _ (lh, a) = Ok (lh', b)) v v1).
    { split; [apply Hdo..|]. intros b Hb Hb'. destruct (do_fresh _ _ _ Hdo b Hb Hb') as (? & <- & ?).
      exists a. split; [by exists lh|done]. }
    destruct x as [pi|e|]; intros [= <- <-]; [|by split..].
    destruct (Hx pi eq_refl) as (Hit & Ho).
    destruct (graph_ok_insert v1 a (mark_explicit expl request pi) (do_graph _ _ _ Hdo)) as [Hok' Hext].
    { by rewrite Hn. }
    { eapply item_ok_mono; [reflexivity|apply same_item_mark|done]. }
    split.
    + eapply (descent_ok_trans _ (fun b => exists lh', Ok (lh, a) = Ok (lh', b)));
        [|done|exact Hw|]; [done|]. split; [done..|].
      intros b Hb. rewrite visited_get_insert. destruct (DatasetAlias_eq a b) eqn:Hab; [|congruence]. intros _.
      exists a. split; [by exists lh|]. apply DatasetAlias_eq_key in Hab. by rewrite (rank_key _ _ Hab).
    + intros d [= <-]. exists lh, a, (mark_explicit expl request pi).
      split_and!; [done|by rewrite visited_get_insert, (proj2 (DatasetAlias_eq_key a a))|by destruct expl|].
      by intros ->.
Qed.

Lemma collect_ok fuel : forall request expl v r v', ok v ->
  collect fuel w request expl options v = Some (r, v') ->
  descent_ok (fun a => exists lh, target w request options = Ok (lh, a)) v v' /\
  forall d, r = Ok d -> exists lh a pi, target w request options = Ok (lh, a) /\
    visited_get v' a = Some pi /\ pi_depth pi = d /\ (expl = true -> pi_original_request pi = Some request).
Proof.
  induction fuel as [|fuel IH]; intros request expl v r v' Hok; simpl; [done|].
  apply visit_node_ok; [|done]. intros id v1 r1 v1' Hok1 Hc.
  destruct (IH _ _ _ _ _ Hok1 Hc) as [Hdo Hr]. split.
  - split; [apply Hdo..|]. intros b Hb Hb'. destruct (do_fresh _ _ _ Hdo b Hb Hb') as (a & (lh & Ht) & Hle).
    apply dependency_target in Ht as (h & Hh & _ & ->). by exists (dh_alias h); split; [exists h|].
  - intros d Hd. destruct (Hr d Hd) as (lh & a & pi & (h & Hh & _ & ->)%dependency_target & Hg & Hp & _).
    by exists h, pi.
Qed.

(** ** It ends *)

Lemma visit_dependencies_ends descend deps m v :
  (forall id v, id ∈ deps -> is_Some (descend id v)) -> is_Some (visit_dependencies descend deps m v).
Proof.
  revert m v. induction deps as [|id deps IH]; intros m v Hd; simpl; [by eexists|].
  destruct (Hd id v) as [[[d|e|] v1] ->]; [left| |by eexists..].
  apply IH. intros id' v' Hin. apply Hd. by right.
Qed.

Lemma collect_ends fuel : forall request expl v, 0 < fuel ->
  (forall lh a, target w request options = Ok (lh, a) -> S (rank a) < fuel) ->
  is_Some (collect fuel w request expl options v).
Proof.
  induction fuel as [|fuel IH]; intros request expl v Hpos Hrank; [lia|]. simpl. unfold visit_node.
  destruct (target w request options) as [[lh a]|e|] eqn:Ht; [|by eexists..].
  destruct (visited_get v a) as [pi|]; [by eexists|].
  destruct (resolve_remote w request lh) as [remote|e|]; [|by eexists..].
  match goal with |- is_Some (match ?m with _ => _ end) => assert (is_Some m) as [[[pi|e|] v1] ->]; [|by eexists..] end.
  unfold plan_item. destruct remote; [by eexists|]. destruct lh as [h|]; [|by eexists].
  destruct (pw_get_summary w h) as [s|e|] eqn:Hs; [|by eexists..].
  match goal with |- is_Some (match ?m with _ => _ end) => assert (is_Some m) as [[[d|e|] v1] ->]; [|by eexists..] end.
  apply visit_dependencies_ends. intros id v' Hin. specialize (Hrank _ _ eq_refl).
  apply IH; [lia|]. intros lh' a' (h' & Hres & _ & ->)%dependency_target.
  pose proof (ac_dependency _ _ Hacyclic _ _ _ _ Hs Hin Hres).
  rewrite (target_alias _ _ _ Ht h eq_refl) in Hrank. lia.
Qed.

Lemma visit_requests_ends fuel requests v errors : (forall a, S (rank a) < fuel) ->
  is_Some (visit_requests current_account_subject fuel w requests options v errors).
Proof.
  intros Hf. assert (0 < fuel) by (specialize (Hf (mkDatasetAlias None (mkDatasetName EmptyString))); lia).
  revert v errors. induction requests as [|r requests IH]; intros v errors; simpl; [by eexists|].
  destruct (collect_ends fuel r true v) as [[[d|e|] v1] ->]; [done|by intros; apply Hf|apply IH|apply IH|by eexists].
Qed.

(** * The requests one after the other *)

Lemma visit_requests_ok fuel requests v errors v' errors' : ok v ->
  visit_requests current_account_subject fuel w requests options v errors = Some (Ok (v', errors')) ->
  ok v' /\ visited_extends v v' /\
  (errors' = [] -> errors = [] /\ forall r, r ∈ requests -> exists lh a pi,
     target w r options = Ok (lh, a) /\ visited_get v' a = Some pi /\ explicitly_requested pi).
Proof.
  revert v errors. induction requests as [|r requests IH]; intros v errors Hok; simpl.
  { intros [= <- <-]. split_and!; [done..|]. intros ->. split; [done|]. intros r Hr. by apply elem_of_nil in Hr. }
  destruct (collect fuel w r true options v) as [[[d|e|] v1]|] eqn:Hc; [| |done..];
    destruct (collect_ok _ _ _ _ _ _ Hok Hc) as [Hdo Hr]; intros Hv;
    destruct (IH _ _ (do_graph _ _ _ Hdo) Hv) as (Hok' & Hext & He).
  - split_and!; [done|by transitivity v1; [apply Hdo|]|]. intros [Herr Hall]%He. split; [done|].
    intros r' [->|Hin]%elem_of_cons; [|by apply Hall].
    destruct (Hr d eq_refl) as (lh & a & pi & Ht & Hg & _ & Ho).
    destruct (Hext _ _ Hg) as (pi' & Hg' & _ & _ & _ & Hx).
    exists lh, a, pi'. split_and!; [done..|]. apply Hx. by exists r; apply Ho.
  - split_and!; [done|by transitivity v1; [apply Hdo|]|]. intros [Herr _]%He. by destruct errors.
Qed.

End Descent.

(** * The plan *)

Lemma graph_ok_nil w rank : graph_ok w rank [].
Proof. split; [constructor|done]. Qed.

(** The dataset an item updates is called [a]. *)
Definition item_is pi (a : DatasetAlias) : Prop := exists b, item_alias pi = Some b /\ DatasetAlias_eq b a = true.

(** An item for a transform reads the dataset called [a]. *)
Definition item_reads w pi (a : DatasetAlias) : Prop :=
  exists h s id h', pi_remote_ref pi = None /\ pi_local_ref pi = DatasetRef_Handle h /\
    pw_get_summary w h = Ok s /\ id ∈ dsu_dependencies s /\
    try_resolve_dataset_ref w (DatasetRef_ID id) = Ok (Some h') /\ a = dh_alias h'.

Section Plan.
Variables (w : W) (rank : DatasetAlias -> nat) (v : VisitedMap).
Hypothesis (Hok : graph_ok w rank v).

Lemma visited_elem_get pi : pi ∈ v.*2 -> exists a, visited_get v a = Some pi.
Proof.
  intros ([a x] & -> & Hin)%list_elem_of_fmap. exists a. apply visited_get_elem; [apply Hok|done].
Qed.

Lemma visited_get_is a pi : visited_get v a = Some pi -> item_is pi a.
Proof.
  intros H. destruct (go_item _ _ _ Hok a pi H) as ((b & Hb & Hk) & _). exists b. split; [done|].
  by apply DatasetAlias_eq_key.
Qed.

Lemma item_is_get a pi : pi ∈ v.*2 -> item_is pi a -> visited_get v a = Some pi.
Proof.
  intros (c & Hc)%visited_elem_get (b & Hb & Hba%DatasetAlias_eq_key).
  destruct (visited_get_is _ _ Hc) as (b' & Hb' & Hbc%DatasetAlias_eq_key).
  rewrite <- Hc. apply visited_get_key. congruence.
Qed.

Lemma item_is_unique a x y : x ∈ v.*2 -> y ∈ v.*2 -> item_is x a -> item_is y a -> x = y.
Proof. intros Hx Hy H1 H2. apply (item_is_get a) in H1; [|done]. apply (item_is_get a) in H2; [|done]. congruence. Qed.

Lemma reads_below pi a : pi ∈ v.*2 -> item_reads w pi a ->
  exists y, y ∈ v.*2 /\ item_is y a /\ (pi_depth y < pi_depth pi)%Z.
Proof.
  intros (c & Hc)%visited_elem_get (h & s & id & h' & Hr & Hl & Hs & Hin & Hres & ->).
  destruct (go_item _ _ _ Hok _ _ Hc) as (_ & _ & Hdep). rewrite Hr in Hdep.
  destruct Hdep as (h1 & s1 & Hl1 & Hs1 & Hf). rewrite Hl1 in Hl. injection Hl as <-.
  rewrite Hs1 in Hs. injection Hs as <-.
  apply (proj1 (Forall_forall _ _) Hf) in Hin as (h2 & y & Hres2 & Hy & Hlt).
  rewrite Hres in Hres2. injection Hres2 as <-. exists y. split_and!; [|by apply visited_get_is|done].
  apply visited_get_some in Hy as (k & Hk & _). by apply (list_elem_of_fmap_2 snd v (k, y)).
Qed.

Lemma visited_values_nodup : NoDup v.*2.
Proof.
  apply (NoDup_fmap_1 (fun x => option_map alias_key (item_alias x))).
  assert (Hmap : (fun x => option_map alias_key (item_alias x)) <$> v.*2 = Some <$> visited_keys v).
  { unfold visited_keys. rewrite <- !list_fmap_compose. apply list_fmap_ext. intros i [k x] Hi.
    apply list_elem_of_lookup_2 in Hi. apply visited_get_elem in Hi; [|apply Hok].
    destruct (visited_get_is _ _ Hi) as (b & Hb & Hk%DatasetAlias_eq_key). simpl. rewrite Hb. simpl. by rewrite Hk. }
  rewrite Hmap. apply NoDup_fmap_2; [apply _|apply Hok].
Qed.

(** Sorting forgets the order in which the entries are listed. *)
Lemma sorted_values_unique p : p ≡ₚ v.*2 -> merge_sort PullItem_le p = merge_sort PullItem_le v.*2.
Proof.
  intros Hp. apply (Sorted_unique_strong PullItem_le); [|by apply Sorted_merge_sort, _..|by rewrite !merge_sort_Permutation].
  intros x y Hx Hy H1 H2. rewrite merge_sort_Permutation, Hp in Hx. rewrite merge_sort_Permutation in Hy.
  destruct (visited_elem_get _ Hx) as (a & Ha). destruct (visited_elem_get _ Hy) as (b & Hb).
  destruct (visited_get_is _ _ Ha) as (a' & Ha' & Hka%DatasetAlias_eq_key).
  destruct (visited_get_is _ _ Hb) as (b' & Hb' & Hkb%DatasetAlias_eq_key).
  pose proof (PullItem_le_antisym _ _ _ _ H1 H2 Ha' Hb') as Hk.
  rewrite (visited_get_key _ a b) in Ha; congruence.
Qed.
End Plan.

(** ** Requested items *)

Definition none_requested v : Prop := Forall (fun pi => ~ explicitly_requested pi) v.*2.

Lemma visited_insert_plain v a pi : none_requested v -> ~ explicitly_requested pi -> none_requested (visited_insert v a pi).
Proof.
  intros Hv Hpi. unfold none_requested in *. induction v as [|[k x] v IH]; simpl in *; [by constructor|].
  apply Forall_cons in Hv as [Hx Hv]. destruct (DatasetAlias_eq k a); constructor; auto.
Qed.

Lemma visited_insert_requested v a pi : none_requested v -> explicitly_requested pi ->
  filter explicitly_requested (visited_insert v a pi).*2 = [pi].
Proof.
  intros Hv Hpi. unfold none_requested in *.
  assert (Hnone : forall v : VisitedMap, Forall (fun pi => ~ explicitly_requested pi) v.*2 ->
            filter explicitly_requested v.*2 = []).
  { intros u Hu. induction Hu as [|x l Hx _ IHu]; [done|]. by rewrite filter_cons_False. }
  induction v as [|[k x] v IH]; simpl in *; [by rewrite filter_cons_True|].
  apply Forall_cons in Hv as [Hx Hv]. destruct (DatasetAlias_eq k a); simpl.
  - rewrite filter_cons_True by done. by rewrite Hnone.
  - rewrite filter_cons_False by done. auto.
Qed.

Section Requested.
Variables (w : W) (options : PullMultiOptions (Url := Url) (W := W)).

Lemma visit_dependencies_plain descend deps m v r v' :
  (forall id v r v', none_requested v -> descend id v = Some (r, v') -> none_requested v') ->
  none_requested v -> visit_dependencies descend deps m v = Some (r, v') -> none_requested v'.
Proof.
  intros Hd. revert m v. induction deps as [|id deps IH]; intros m v Hv; simpl; [by intros [= <- <-]|].
  destruct (descend id v) as [[[d|e|] v1]|] eqn:H1; [eauto|by intros [= <- <-]; eauto..|done].
Qed.

Lemma plan_item_plain descend lh a remote v r v' :
  (forall id v r v', none_requested v -> descend id v = Some (r, v') -> none_requested v') ->
  none_requested v -> plan_item w descend lh a remote v = Some (r, v') ->
  none_requested v' /\ forall pi, r = Ok pi -> ~ explicitly_requested pi.
Proof.
  intros Hd Hv. assert (Hplain : forall d l rr, ~ explicitly_requested (mkPullItem (Url := Url) d l rr None)) by
    (intros * [? ?]; done).
  unfold plan_item. destruct remote; [by intros [= <- <-]; split; [|intros ? [= <-]]|].
  destruct lh as [h|]; [|by intros [= <- <-]].
  destruct (pw_get_summary w h) as [s| |]; [|by intros [= <- <-]..].
  destruct (visit_dependencies descend _ _ v) as [[[d|e|] v1]|] eqn:H1; [..|done];
    pose proof (visit_dependencies_plain _ _ _ _ _ _ Hd Hv H1); intros [= <- <-]; split; try done.
  by intros ? [= <-].
Qed.

Lemma collect_plain fuel : forall request v r v', none_requested v ->
  collect fuel w request false options v = Some (r, v') -> none_requested v'.
Proof.
  induction fuel as [|fuel IH]; intros request v r v' Hv; simpl; [done|]. unfold visit_node.
  destruct (target w request options) as [[lh a]|e|]; [|by intros [= <- <-]..].
  destruct (visited_get v a) as [pi|]; [by intros [= <- <-]|].
  destruct (resolve_remote w request lh) as [remote|e|]; [|by intros [= <- <-]..].
  destruct (plan_item w _ lh a remote v) as [[x v1]|] eqn:Hp; [|done].
  apply plan_item_plain in Hp as [Hv1 Hpi]; [|by intros id; apply IH|done].
  destruct x as [pi|e|]; intros [= <- <-]; [|done..]. apply visited_insert_plain; [done|by apply Hpi].
Qed.

(** One request leaves one item that was asked for. *)
Lemma collect_requests_one fuel request d v' :
  collect fuel w request true options [] = Some (Ok d, v') ->
  exists pi, filter explicitly_requested v'.*2 = [pi] /\ pi_original_request pi = Some request.
Proof.
  destruct fuel as [|fuel]; simpl; [done|]. unfold visit_node.
  destruct (target w request options) as [[lh a]|e|]; [|done..]. simpl.
  destruct (resolve_remote w request lh) as [remote|e|]; [|done..].
  destruct (plan_item w _ lh a remote []) as [[x v1]|] eqn:Hp; [|done].
  apply plan_item_plain in Hp as [Hv1 Hpi]; [|by intros id; apply collect_plain|constructor].
  destruct x as [pi|e|]; [|done..]. intros [= <- <-]. exists (mark_explicit true request pi).
  split; [|done]. apply visited_insert_requested; [done|by exists request].
Qed.
End Requested.

(** The responses collected while planning are failures. *)
Lemma visit_requests_failed fuel w requests options v errors v' errors' :
  visit_requests current_account_subject fuel w requests options v errors = Some (Ok (v', errors')) ->
  Forall (fun r => is_ok (prs_result r) = false) errors -> Forall (fun r => is_ok (prs_result r) = false) errors'.
Proof.
  revert v errors. induction requests as [|r requests IH]; intros v errors; simpl; [by intros [= _ <-]|].
  destruct (collect fuel w r true options v) as [[[d|e|] v1]|]; [apply IH| |done..].
  intros H Hf. eapply IH; [exact H|]. apply Forall_app. split; [done|by repeat constructor].
Qed.

(** ** Sorted plans *)

Lemma sorted_depths (plan : list Item) i j x y :
  StronglySorted PullItem_le plan -> plan !! i = Some x -> plan !! j = Some y -> i <= j ->
  (pi_depth x <= pi_depth y)%Z.
Proof.
  intros Hs. revert i j. induction Hs as [|z plan Hs IH Hz]; intros i j; [by rewrite lookup_nil|].
  destruct i as [|i], j as [|j]; simpl; intros Hi Hj Hij; [simplify_eq; lia| |lia|eapply IH; [done..|lia]].
  injection Hi as ->. apply PullItem_le_depth. by eapply Forall_lookup_1.
Qed.

Lemma filter_sorted (P : Item -> Prop) `{!forall x, Decision (P x)} (l : list Item) :
  StronglySorted PullItem_le l -> StronglySorted PullItem_le (filter P l).
Proof.
  intros Hs. induction Hs as [|x l Hs IH Hx]; [constructor|]. rewrite filter_cons. case_decide; [|done].
  constructor; [done|]. rewrite Forall_forall in *. intros y [_ Hy]%list_elem_of_filter. auto.
Qed.

Lemma retained_sorted plan options : StronglySorted PullItem_le plan ->
  StronglySorted PullItem_le (retained_plan plan options).
Proof. intros Hs. unfold retained_plan. destruct (_ || _); [done|by apply filter_sorted]. Qed.

Lemma retained_elem plan options (x : Item) : x ∈ retained_plan plan options -> x ∈ plan.
Proof. unfold retained_plan. destruct (_ || _); [done|]. by intros [_ ?]%list_elem_of_filter. Qed.

Lemma collect_pull_graph_visited fuel w requests options plan errors :
  collect_pull_graph current_account_subject fuel w requests options = Some (Ok (plan, errors)) ->
  exists v, visit_requests current_account_subject fuel w requests options [] [] = Some (Ok (v, errors)) /\
    plan = merge_sort PullItem_le v.*2 /\ plan ≡ₚ v.*2 /\ StronglySorted PullItem_le plan.
Proof.
  unfold collect_pull_graph. destruct (visit_requests _ _ _ _ _ _ _) as [[[v errs]| |]|]; [|done..].
  intros [= <- <-]. exists v. split_and!; [done..|apply merge_sort_Permutation|].
  apply StronglySorted_merge_sort; apply _.
Qed.

(** * Running levels *)

Abbreviation Response := (PullResponse (Url := Url) (W := W)).

(** The response is about the item. *)
Definition answers pi (r : Response) : Prop :=
  prs_original_request r = pi_original_request pi /\
  exists l, prs_local_ref r = Some l /\ DatasetRef_eq (pi_local_ref pi) l = true.

Definition failed (r : Response) : Prop := is_ok (prs_result r) = false.

Lemma zip_responses_answers {R} matches (into : Item -> R -> Response) batch responses rs :
  (forall pi r, matches pi r = true -> answers pi (into pi r)) ->
  zip_responses matches into batch responses = Ok rs -> Forall2 answers batch rs.
Proof.
  intros Hm. revert responses rs. induction batch as [|pi batch IH]; intros [|r responses] rs; simpl; try done.
  { intros [= <-]. constructor. }
  destruct (zip_responses matches into batch responses) as [rest| |] eqn:Hz; simpl; [|done..].
  destruct (matches pi r) eqn:Hpr; [|done]. intros [= <-]. constructor; eauto.
Qed.

Lemma local_ref_of_any (l : DatasetRef) (x : DatasetRefAny Url) :
  DatasetRefAny_eq (DatasetRefAny_from_local l) x = true ->
  exists l', DatasetRefAny_into_local_ref (fun _ => true) x = Ok l' /\ DatasetRef_eq l l' = true.
Proof.
  destruct l as [id|a|h]; destruct x as [[repo|] i|r0 acc nm|acc nm|ra nm|u|hdl|hdl]; simpl; try done.
  - intros H. by exists (DatasetRef_ID i).
  - intros H. by exists (DatasetRef_Alias (mkDatasetAlias acc nm)).
  - intros H. by exists (DatasetRef_Handle hdl).
Qed.

Lemma run_level_answers depth is_remote batch options w rs w' :
  run_level depth is_remote batch options w = (Ok rs, w') -> Forall2 answers batch rs.
Proof.
  unfold run_level, ingest_multi, sync_multi, transform_multi.
  destruct (bool_decide (depth = 0%Z) && negb is_remote).
  { destruct (svc_ingest_multi _ _ w) as [responses w1]. intros [= Hz _]. revert Hz. apply zip_responses_answers.
    intros pi r Hm. split; [done|]. by exists r.1. }
  destruct (bool_decide (depth = 0%Z) && is_remote).
  - destruct (sync_requests batch) as [requests| |]; [|done..].
    destruct (svc_sync_multi requests _ w) as [responses w1].
    destruct (zip_responses _ into_response_sync batch responses) as [results| |] eqn:Hz; [|done..].
    assert (Hans : Forall2 answers batch results).
    { revert Hz. apply zip_responses_answers. intros pi r Hm. split; [done|]. simpl.
      destruct (local_ref_of_any _ _ Hm) as (l & -> & Hl). by exists l. }
    destruct (pmo_add_aliases options); [|by intros [= <- _]].
    unfold mbind, action_bind.
    by destruct (for_each remember_source results w1) as [[u| |] w2]; intros [= <- _].
  - destruct (svc_transform_multi _ _ w) as [responses w1]. intros [= Hz _]. revert Hz. apply zip_responses_answers.
    intros pi r Hm. split; [done|]. by exists r.1.
Qed.

Lemma split_while_spec (p : Item -> bool) l a b : split_while p l = (a, b) -> l = a ++ b /\ Forall (fun x => p x = true) a.
Proof.
  revert a b. induction l as [|x l IH]; intros a b; simpl; [by intros [= <- <-]|].
  destruct (p x) eqn:Hx; [|by intros [= <- <-]]. destruct (split_while p l) as [a' b']. intros [= <- <-].
  destruct (IH _ _ eq_refl) as [-> Hf]. split; [done|by constructor].
Qed.

Lemma slice_spec {E} (l : list Item) depth is_remote batch tail :
  slice (E := E) l = Ok (depth, is_remote, batch, tail) ->
  l = batch ++ tail /\ batch <> [] /\ Forall (fun x => pi_depth x = depth) batch.
Proof.
  unfold slice. destruct l as [|x l]; [done|]. destruct (split_while (same_level x) (x :: l)) as [a b] eqn:Hs.
  intros [= <- _ <- <-]. destruct (split_while_spec _ _ _ _ Hs) as [Hl Hf]. split_and!; [done| |].
  - intros ->. simpl in Hs. unfold same_level in Hs. rewrite bool_decide_eq_true_2, eqb_reflx in Hs by done.
    simpl in Hs. by destruct (split_while _ l).
  - eapply Forall_impl; [exact Hf|]. intros y. unfold same_level.
    rewrite andb_true_iff, bool_decide_eq_true. by intros [? _].
Qed.

Lemma run_levels_ends fuel plan options rs w : length plan <= fuel ->
  is_Some (run_levels fuel plan options rs w).
Proof.
  revert plan rs w. induction fuel as [|fuel IH]; intros [|x plan] rs w Hl; cbn [run_levels]; [by eexists|simpl in Hl; lia|by eexists|].
  destruct (slice (x :: plan)) as [[[[d b] batch] tail]| |] eqn:Hs; [|by eexists..].
  destruct (slice_spec _ _ _ _ _ Hs) as (Hp & Hne & _).
  destruct (run_level d b batch options w) as [[lv| |] w1]; [|by eexists..].
  destruct (existsb _ lv); [by eexists|]. apply IH.
  rewrite Hp in Hl. rewrite length_app in Hl. destruct batch; [done|]. simpl in Hl. lia.
Qed.

(** Items are answered in order; after a failure nothing of another depth is. *)
Lemma run_levels_spec fuel plan options rs w rs' w' :
  run_levels fuel plan options rs w = Some (Ok rs', w') ->
  exists ran rest new, plan = ran ++ rest /\ rs' = rs ++ new /\ Forall2 answers ran new /\
    (rest <> [] -> exists r, r ∈ new /\ failed r) /\
    (forall i j x y r, ran !! i = Some x -> new !! i = Some r -> failed r -> ran !! j = Some y -> i <= j ->
       pi_depth y = pi_depth x).
Proof.
  revert plan rs w. induction fuel as [|fuel IH]; intros [|x plan] rs w; cbn [run_levels]; [|done| |].
  1, 2: intros [= <- <-]; exists [], [], []; split_and!; [done|by rewrite app_nil_r|constructor|done|]; intros i *; by rewrite lookup_nil.
  destruct (slice (x :: plan)) as [[[[d b] batch] tail]| |] eqn:Hs; [|done..].
  destruct (slice_spec _ _ _ _ _ Hs) as (Hp & Hne & Hd).
  destruct (run_level d b batch options w) as [[lv| |] w1] eqn:Hrun; [|done..].
  pose proof (run_level_answers _ _ _ _ _ _ _ Hrun) as Hans.
  assert (Hlen := Forall2_length _ _ _ Hans).
  destruct (existsb _ lv) eqn:Herr.
  - intros [= <- <-]. exists batch, tail, lv. split_and!; [done..| |].
    + intros _. apply existsb_exists in Herr as (r & Hin & Hf). exists r.
      split; [by apply list_elem_of_In|by apply negb_true_iff].
    + intros i j y z r Hi _ _ Hj _. rewrite Forall_lookup in Hd. by rewrite (Hd _ _ Hi), (Hd _ _ Hj).
  - intros (ran & rest & new & -> & -> & Hf & Hrest & Hstop)%IH.
    exists (batch ++ ran), rest, (lv ++ new). rewrite !app_assoc in *.
    split_and!; [done|done|by apply Forall2_app| |].
    + intros (r & Hin & Hr)%Hrest. exists r. split; [|done]. apply elem_of_app. by right.
    + intros i j y z r Hi Hr Hfail Hj Hij.
      assert (Hge : length batch <= i).
      { destruct (decide (length batch <= i)) as [|Hlt]; [done|exfalso].
        rewrite lookup_app_l in Hr by lia. apply list_elem_of_lookup_2, list_elem_of_In in Hr.
        assert (existsb (fun r => negb (is_ok (prs_result r))) lv = true); [|congruence].
        apply existsb_exists. exists r. split; [done|]. unfold failed in Hfail. by rewrite Hfail. }
      rewrite lookup_app_r in Hi by done. rewrite lookup_app_r in Hj by lia. rewrite lookup_app_r in Hr by lia.
      rewrite <- Hlen in Hr. eapply Hstop; [exact Hi|exact Hr|done|exact Hj|lia].
Qed.

End Planner.

(** * Remembered aliases *)

Section Remembered.
Context `{EN : Engines} {Url W : Type} `{!UrlCrate Url} {PW : PullWorkspace Url W} {PS : PullServices Url W}
        {LA : LawfulAliases PW}.

Lemma register_alias_spec l (x : DatasetRefRemote Url) kind (w : W) u w' :
  register_alias l x kind w = (Ok u, w') ->
  alias_listed w' l x kind /\ forall l' x' kind', alias_listed w l' x' kind' -> alias_listed w' l' x' kind'.
Proof.
  unfold register_alias. destruct (get_remote_aliases w l) as [aliases| |] eqn:Hg; [|done..].
  destruct (ra_add aliases x kind w) as [[b| |] w1] eqn:Ha; [|done..]. intros [= _ <-]. split.
  - by eapply ra_add_listed.
  - intros *. by eapply ra_add_keeps.
Qed.

(** A loop that registers some aliases leaves all of them. *)
Lemma for_each_registers {X} (f : X -> action W InternalError unit)
    (wants : X -> option (DatasetRef * DatasetRefRemote Url)) kind l :
  (forall y w u w', f y w = (Ok u, w') ->
     match wants y with Some (r, x) => register_alias r x kind w = (Ok u, w') | None => w' = w end) ->
  forall w u w', for_each f l w = (Ok u, w') ->
  (forall y r x, y ∈ l -> wants y = Some (r, x) -> alias_listed w' r x kind) /\
  (forall r x kind', alias_listed w r x kind' -> alias_listed w' r x kind').
Proof.
  intros Hf. induction l as [|y l IH]; intros w u w'.
  { intros [= _ <-]. split; [|done]. intros y r x Hy. by apply elem_of_nil in Hy. }
  simpl. unfold mbind, action_bind. destruct (f y w) as [[u1| |] w1] eqn:Hy; [|done..]. intros Hl.
  destruct (IH _ _ _ Hl) as [Hin Hkeep]. apply Hf in Hy.
  assert (Hkeep1 : forall r x kind', alias_listed w r x kind' -> alias_listed w1 r x kind').
  { destruct (wants y) as [[r x]|]; [by apply register_alias_spec in Hy as [_ ?]|by subst]. }
  split; [|by intros; apply Hkeep, Hkeep1].
  intros z r x [->|Hz]%elem_of_cons; [|by apply Hin]. intros Hw. rewrite Hw in Hy. apply Hkeep.
  by apply register_alias_spec in Hy as [? _].
Qed.
End Remembered.

(** ** The registry keeps the promise *)

Section Store.
Context {C : BlockCodec} {Url : Type} `{!UrlCrate Url} {CC : ConfigCodec Url} {CL : ConfigCodecLaws CC}
        {BR RR DR CR IR : Type} `{!NamedObjectRepository IR} `{!LawfulInfoRepo IR}.

Abbreviation Datasets := (DatasetID -> DatasetImpl BR RR DR CR IR).

Variables (multi_tenant : bool) (resolve : DatasetRef -> res GetDatasetError DatasetHandle).
Variables (by_owner : Datasets -> AccountName -> list DatasetHandle * res InternalError unit)
          (all : Datasets -> list DatasetHandle * res InternalError unit)
          (summary : Datasets -> DatasetHandle -> res GetSummaryError DatasetSummary).

(** Datasets by identifier, with the aliases of [RemoteAliasesRegistryImpl]. *)
Definition store_workspace : PullWorkspace Url Datasets := {|
  RemoteAliases := DatasetID * DatasetConfig Url;
  is_multi_tenant := multi_tenant;
  pw_resolve_dataset_ref _ := resolve;
  pw_get_datasets_by_owner := by_owner;
  pw_get_all_datasets := all;
  pw_get_summary := summary;
  get_remote_aliases w r :=
    let! hdl := map_err GetAliasesError_from_Get (resolve r) in
    let! aliases := registry_get_remote_aliases (Ok (w (dh_id hdl))) in
    Ok (dh_id hdl, rai_config aliases);
  ra_get_by_kind a kind := aliases_of kind a.2;
  ra_contains a x kind := contains_ref (aliases_of kind a.2) x;
  ra_is_empty a kind := match aliases_of kind a.2 with [] => true | _ => false end;
  ra_add a x kind w :=
    let '(out, a') := aliases_add x kind (mkRemoteAliasesImpl (w a.1) a.2) in (out, <[a.1 := rai_dataset a']> w)
|}.

Lemma store_aliases_iff (w : Datasets) r id config :
  get_remote_aliases (PullWorkspace := store_workspace) w r = Ok (id, config) <->
  exists hdl, resolve r = Ok hdl /\ dh_id hdl = id /\ read_config (w id) = Ok config.
Proof.
  simpl. destruct (resolve r) as [hdl| |]; simpl; [|split; [done|by intros (? & ? & _)]..]. split.
  - unfold registry_get_remote_aliases. simpl. destruct (read_config (w (dh_id hdl))) as [c| |] eqn:Hc; simpl; [|done..]. intros [= <- <-]. by exists hdl.
  - unfold registry_get_remote_aliases. simpl. by intros (? & [= <-] & <- & ->).
Qed.

Lemma store_add_spec (w : Datasets) id config x kind b w' :
  read_config (w id) = Ok config ->
  ra_add (PullWorkspace := store_workspace) (id, config) x kind w = (Ok b, w') ->
  (forall id', id' <> id -> w' id' = w id') /\
  exists config', read_config (w' id) = Ok config' /\ contains_ref (aliases_of kind config') x = true /\
    forall kind' y, contains_ref (aliases_of kind' config) y = true -> contains_ref (aliases_of kind' config') y = true.
Proof.
  intros Hr. simpl. destruct (aliases_add x kind _) as [out a'] eqn:Ha. intros [= -> <-].
  split; [intros id' Hne; by rewrite fn_lookup_insert_ne|]. rewrite fn_lookup_insert.
  unfold aliases_add in Ha. simpl in Ha. destruct (contains_ref _ x) eqn:Hc in Ha.
  { injection Ha as <- <-. by exists config. }
  apply save_aliases_spec in Ha as (_ & Hcfg & Hread). simpl in Hcfg. exists (rai_config a'). split; [done|].
  rewrite Hcfg. setoid_rewrite contains_ref_key. setoid_rewrite aliases_of_with. split.
  - rewrite decide_True by done. rewrite fmap_app. apply elem_of_app. right. left.
  - intros kind' y Hy. case_decide; [subst|done]. rewrite fmap_app. apply elem_of_app. by left.
Qed.

#[export] Instance store_aliases_lawful : LawfulAliases store_workspace.
Proof.
  split.
  - intros w r [id config] x kind b w' (hdl & Hres & <- & Hread)%store_aliases_iff Hadd.
    destruct (store_add_spec _ _ _ _ _ _ _ Hread Hadd) as (_ & config' & Hr' & Hc & _).
    exists (dh_id hdl, config'). split; [|done]. apply store_aliases_iff. by exists hdl.
  - intros w r [id config] x kind b w' r' x' kind' (hdl & Hres & <- & Hread)%store_aliases_iff Hadd.
    intros ([id2 config2] & (hdl2 & Hres2 & <- & Hread2)%store_aliases_iff & Hc2).
    destruct (store_add_spec _ _ _ _ _ _ _ Hread Hadd) as (Hne & config' & Hr' & _ & Hk).
    destruct (decide (dh_id hdl2 = dh_id hdl)) as [He|Hn].
    + exists (dh_id hdl2, config'). split; [apply store_aliases_iff; exists hdl2; by rewrite He|].
      apply Hk. rewrite He, Hread in Hread2. injection Hread2 as <-. done.
    + exists (dh_id hdl2, config2). split; [|done]. apply store_aliases_iff. exists hdl2. by rewrite Hne.
Qed.
End Store.
