(* ===== verification/ChainProperties.v ===== *)
(** The properties of metadata chains, each with an application to the chains
    of [ChainExample].

    The theorems about [append], traversals and references hold for any block
    and reference repositories that obey the laws of [ChainRepos]; the
    applications use the in-memory ones, which do. *)

From S2P Require Import Prelude Multiformats Identity Dtos ChainRepos MetadataChain ChainVisitors.
From S2P Require Import ChainValidators ChainRules ChainAppend ChainInvariants ChainExample.

Section Properties.
Context {C : BlockCodec} {BR RR : Type}
        `{!MetadataBlockRepository BR} `{!ReferenceRepository RR}.

Implicit Types (c : MetadataChainImpl BR RR) (l : list HashedMetadataBlock) (b : MetadataBlock).

(** C1.  A successful [append] puts exactly the given block on top of the
    stored chain: the head moves to it, the blocks below stay linked and
    valid, and its hash is a new one. *)
Theorem append_extends_chain `{!LawfulBlockRepo BR, !LawfulRefRepo RR} fuel c l b opts h c' :
  chain_state c l -> length l < fuel -> checked_opts opts ->
  (forall b', (h, b') ∈ l -> b' = b) ->
  append fuel c b opts = Some (Ok h, c') ->
  chain_state c' ((h, b) :: l) /\ h ∉ l.*1.
Proof. apply append_extends. Qed.

(** C2.  [append] succeeds exactly when the block names the head as its
    predecessor, obeys every rule with respect to the stored chain, and both
    repositories accept the writes; the new state is the outcome of those two
    writes. *)
Theorem append_accepts_exactly fuel c l b opts h c' :
  chain_state c l -> length l < fuel -> checked_opts opts ->
  append fuel c b opts = Some (Ok h, c') <->
  mb_prev_block_hash b = head_hash l /\ valid_next b l /\
  exists br rr,
    insert_block (meta_block_repo c) b (append_insert_opts opts) = (Ok h, br) /\
    rr_set (ref_repo c) BlockRef_Head h = (Ok tt, rr) /\ c' = mkMetadataChainImpl br rr.
Proof. apply append_ok_iff. Qed.

(** C4.  However appends and resets of the head are interleaved, starting from
    a chain without a head, the head always leads to a stored, linked chain in
    which every block obeys the rules, and only to one. *)
Theorem reachable_states_valid `{!LawfulBlockRepo BR, !LawfulRefRepo RR} c :
  reachable c -> exists l, chain_state c l /\ forall l', chain_state c l' -> l' = l.
Proof.
  intros (l & Hl)%reachable_chain_state. exists l. split; [done|].
  intros l' Hl'. symmetry. eapply chain_state_unique; [done|apply Hl'..].
Qed.

(** C5.  An append on top of any block of a stored chain, or as a first block,
    terminates within one turn of the traversal per block and neither panics
    nor runs out of fuel, unless the event is one of the two that are not
    implemented. *)
Theorem append_returns `{!LawfulBlockRepo BR, !LawfulRefRepo RR} fuel c l1 l2 b opts :
  chain_state c (l1 ++ l2) -> length l2 < fuel -> checked_opts opts ->
  mb_prev_block_hash b = head_hash l2 -> supported b ->
  exists x c', append fuel c b opts = Some (x, c') /\ x <> Panic.
Proof. apply append_total. Qed.


(** An append that fails, at any stage and for any options, leaves the
    chain under the head as it was. *)
Theorem append_failure_keeps_chain `{!LawfulBlockRepo BR, !LawfulRefRepo RR} fuel c l b opts x c' :
  chain_state c l -> no_collision c b opts ->
  append fuel c b opts = Some (x, c') -> is_ok x = false -> chain_state c' l.
Proof. apply append_failed_state. Qed.

(** C7.  The single pass over a stored chain that serves many visitors, skips
    the blocks they did not ask for and leaves early gives every visitor the
    result it would get alone on the whole chain. *)
Theorem accept_single_pass {E V} `{!MetadataChainVisitor E V} fuel (r : BR) o l (vs vs' : list V) :
  linked r o l -> length l < fuel ->
  accept_by_interval fuel r vs o None = Some (Ok vs') <->
  Forall2 (fun v v' => run_visitor l v = Ok v') vs vs'.
Proof. apply accept_by_interval_ok. Qed.

(** The pass over a stored chain returns, and if it fails or panics then
    one of the visitors does so when it is run alone. *)
Theorem accept_failures_are_visitors {E V} `{!MetadataChainVisitor E V} fuel (r : BR) o l
    (vs : list V) :
  linked r o l -> length l < fuel ->
  exists x, accept_by_interval fuel r vs o None = Some x /\
    (forall e, x = Err e ->
       exists e' v, e = AcceptVisitorError_Visitor e' /\ v ∈ vs /\ run_visitor l v = Err e') /\
    (x = Panic -> exists v, v ∈ vs /\ run_visitor l v = Panic).
Proof. apply accept_by_interval_total. Qed.

(** Iterating from a block of a stored chain to an older one yields the
    blocks in between, without the tail or with it, and iterating from the
    head yields the whole chain. *)
Theorem iteration_yields_interval fuel c h l1 t b l2 ign :
  linked (meta_block_repo c) (Some h) (l1 ++ (t, b) :: l2) -> length (l1 ++ (t, b) :: l2) < fuel ->
  iter_blocks_interval fuel c h (Some t) ign = Some (l1, Ok tt) /\
  iter_blocks_interval_inclusive fuel c h t ign = Some (l1 ++ [(t, b)], Ok tt) /\
  (resolve_ref c BlockRef_Head = Ok h ->
   iter_blocks fuel c = Some (l1 ++ (t, b) :: l2, Ok tt)).
Proof.
  intros Hl Hf. split_and!.
  - eapply iter_interval_found; [done|]. rewrite length_app in Hf. lia.
  - eapply iter_interval_found; [done|]. rewrite length_app in Hf. lia.
  - intros Hh. by eapply iter_blocks_all.
Qed.

(** When the tail is not below the head, both iterations yield the whole
    chain and then fail with [InvalidInterval], or end normally if missing
    tails are to be ignored. *)
Theorem iteration_missing_tail fuel c h l t ign :
  linked (meta_block_repo c) (Some h) l -> length l < fuel -> t ∉ l.*1 ->
  iter_blocks_interval fuel c h (Some t) ign = Some (l, missing_tail ign h t) /\
  iter_blocks_interval_inclusive fuel c h t ign = Some (l, missing_tail ign h t).
Proof. apply iter_interval_missing. Qed.

(** [last_data_block] finds the newest data block of the chain, and
    [last_data_block_with_new_data] the newest one that carries a slice. *)
Theorem last_data_block_is_newest fuel c l :
  chain_state c l -> l <> [] -> length l < fuel ->
  last_data_block fuel c =
    Some (Ok (mkSearchSingleDataBlockVisitor NextDataBlock
                (find_map (data_block_matches NextDataBlock) l))) /\
  last_data_block_with_new_data fuel c =
    Some (Ok (mkSearchSingleDataBlockVisitor NextFilledNewData
                (find_map (data_block_matches NextFilledNewData) l))).
Proof.
  intros Hst Hne Hf. destruct (chain_state_head _ _ Hst Hne) as (h & Hh & _ & Hl).
  pose proof (fun k => accept_one_run _ _ _ _ _ _ Hh Hl Hf (run_search_data k l)) as H.
  unfold last_data_block, last_data_block_with_new_data, SearchSingleDataBlockVisitor_next,
    SearchSingleDataBlockVisitor_next_with_new_data.
  by rewrite !H.
Qed.

(** A search for an event type returns the newest block of that type,
    with its hash and its typed payload, for every searchable type. *)
Theorem typed_search_is_newest {T} `{FlaggedVariant T} fuel c l :
  chain_state c l -> l <> [] -> length l < fuel ->
  accept_one fuel c (SearchSingleTypedBlockVisitor_new T) =
  Some (Ok (mkSearchSingleTypedBlockVisitor (variant_flag (T := T))
              (find_map (fun hb : HashedMetadataBlock =>
                           option_map (pair hb.1) (into_typed hb.2)) l))).
Proof.
  intros Hst Hne Hf. destruct (chain_state_head _ _ Hst Hne) as (h & Hh & _ & Hl).
  apply (accept_one_run _ _ _ _ _ _ Hh Hl Hf), run_search_typed.
Qed.

(** Moving the head back to a block of the chain keeps that block and
    everything below it, whatever the options. *)
Theorem reset_keeps_suffix `{!LawfulRefRepo RR} c l1 h b l2 opts c' :
  chain_state c (l1 ++ (h, b) :: l2) -> Multihash_wf h ->
  set_ref c BlockRef_Head h opts = (Ok tt, c') ->
  chain_state c' ((h, b) :: l2).
Proof. apply set_ref_reset. Qed.

(** A block whose predecessor is not stored is refused with
    [PrevBlockNotFound] and nothing changes. *)
Theorem append_missing_predecessor fuel c b opts p vs :
  mb_prev_block_hash b = Some p ->
  get_block (meta_block_repo c) p = Err (GetBlockError_NotFound (mkBlockNotFoundError p)) ->
  make_validators b = Ok vs -> ao_validation opts = AppendValidation_Full ->
  append (S fuel) c b opts =
  Some (Err (AppendError_InvalidBlock
               (AppendValidationError_PrevBlockNotFound (mkBlockNotFoundError p))), c).
Proof. apply append_prev_not_found. Qed.
End Properties.

(** C3.  The validators of a block, run over a chain, all accept it exactly
    when the block obeys the declarative rules of [valid_next]: seed first,
    consecutive sequence numbers, monotone system times and watermarks,
    contiguous offsets, no empty events, and the rules of each event type. *)
Theorem validators_enforce_rules b l : validates b l <-> valid_next b l.
Proof. apply validators_rules. Qed.

(** Slices are contiguous: in a valid chain whose offsets fit in 64 bits
    every slice starts at the number of records below it and ends right before
    the number of records up to it, so no offset is skipped or used twice. *)
Theorem slice_offsets_contiguous l1 hb l2 d n :
  valid_chain (l1 ++ hb :: l2) -> offsets_wf (hb :: l2) ->
  as_data_stream_event (mb_event hb.2) = Some d -> mds_new_data d = Some n ->
  oi_start (ds_offset_interval n) = records l2 /\
  oi_end (ds_offset_interval n) = (records (hb :: l2) - 1)%Z.
Proof. apply slice_position. Qed.

(** Every query in a valid chain reads exactly the inputs, in order,
    that the transform in force declares, although the validator searches for
    that transform only as far as the previous query. *)
Theorem query_reads_declared_inputs l1 hb l2 e :
  valid_chain (l1 ++ hb :: l2) -> mb_event hb.2 = MetadataEvent_ExecuteTransform e ->
  exists t, latest SetTransform l2 = Some t /\ map Some (query_ids e) = declared_ids t.
Proof. apply query_inputs_declared. Qed.

(** System times never decrease along a valid chain, and neither do the
    watermarks of its data blocks, not only from a block to the next one but
    between any two. *)
Theorem history_is_monotone l1 hb l2 hb' :
  valid_chain (l1 ++ hb :: l2) -> hb' ∈ l2 ->
  (mb_system_time hb'.2 <= mb_system_time hb.2)%Z /\
  (forall d d', as_data_stream_event (mb_event hb.2) = Some d ->
     as_data_stream_event (mb_event hb'.2) = Some d' ->
     watermark_le (mds_new_watermark d') (mds_new_watermark d)).
Proof.
  intros H Hin. split; [by eapply system_time_order|].
  intros d d'. by eapply watermark_order.
Qed.

(** The sequence number of a block is the number of blocks below it, and
    the seed is the block that has none. *)
Theorem sequence_numbers_count_blocks l1 hb l2 :
  valid_chain (l1 ++ hb :: l2) -> (forall x, x ∈ hb :: l2 -> in_u64 (mb_sequence_number x.2)) ->
  mb_sequence_number hb.2 = (Z.of_nat (length l2) mod two64)%Z /\
  (is_seed (mb_event hb.2) <-> l2 = []).
Proof. intros H Hr. split; [by eapply sequence_number_position|by eapply seed_is_first]. Qed.

(** A valid chain never has both a push source and a polling source. *)
Theorem sources_never_mixed l hb hb' e e' :
  valid_chain l -> hb ∈ l -> hb' ∈ l ->
  mb_event hb.2 = MetadataEvent_AddPushSource e ->
  mb_event hb'.2 <> MetadataEvent_SetPollingSource e'.
Proof. intros Hl Hin Hin' He He'. by eapply (sources_exclusive l hb hb'). Qed.

(** A block that carries a slice has a schema below it. *)
Theorem data_has_schema l1 hb l2 d n :
  valid_chain (l1 ++ hb :: l2) ->
  as_data_stream_event (mb_event hb.2) = Some d -> mds_new_data d = Some n ->
  exists hb' s, hb' ∈ l2 /\ mb_event hb'.2 = MetadataEvent_SetDataSchema s.
Proof. apply schema_before_data. Qed.

(** * Applications *)

Lemma append_extends_chain_witness : chain_state ex_c4 ex_chain /\ ex_hash 3 ∉ (tail ex_chain).*1.
Proof.
  refine (append_extends_chain 10 ex_c3 (tail ex_chain) ex_data2 AppendOpts_default (ex_hash 3)
            ex_c4 ex_c3_state _ ex_checked (ex_fresh _) ex_append_data2).
  simpl; lia.
Defined.

Lemma append_accepts_exactly_witness : valid_next ex_data2 (tail ex_chain).
Proof.
  refine (proj1 (proj2 (proj1 (append_accepts_exactly 10 ex_c3 (tail ex_chain) ex_data2
            AppendOpts_default (ex_hash 3) ex_c4 ex_c3_state _ ex_checked) ex_append_data2))).
  simpl; lia.
Defined.

Lemma reachable_states_valid_witness :
  exists l, chain_state ex_c1 l /\ forall l', chain_state ex_c1 l' -> l' = l.
Proof.
  apply reachable_states_valid.
  apply (reachable_step ex_empty); [by apply reachable_new|].
  apply (step_append _ 10 ex_seed AppendOpts_default (Ok (ex_hash 0))).
  - exact ex_checked.
  - intros h b' _. by vm_compute.
  - vm_compute. reflexivity.
Defined.

Lemma append_returns_witness :
  exists x c', append 10 ex_c3 ex_data2 AppendOpts_default = Some (x, c') /\ x <> Panic.
Proof.
  apply (append_returns 10 ex_c3 [] (tail ex_chain));
    [exact ex_c3_state|simpl; lia|exact ex_checked|reflexivity|exact I].
Defined.


Lemma append_failure_keeps_chain_witness :
  exists x c', append 10 ex_c3 ex_data1 AppendOpts_default = Some (x, c') /\ is_ok x = false /\
    chain_state c' (tail ex_chain).
Proof.
  eexists _, _. split; [vm_compute; reflexivity|]. split; [reflexivity|].
  eapply (append_failure_keeps_chain 10 ex_c3 (tail ex_chain) ex_data1 AppendOpts_default);
    [exact ex_c3_state| |vm_compute; reflexivity|reflexivity].
  intros h b' Hi. vm_compute in Hi. injection Hi as <-. vm_compute. by intros [= <-].
Defined.

Lemma accept_single_pass_witness :
  accept_by_interval 10 (meta_block_repo ex_c3)
    [SearchSingleDataBlockVisitor_next; SearchSingleDataBlockVisitor_next_with_new_data]
    (Some (ex_hash 2)) None =
  Some (Ok [mkSearchSingleDataBlockVisitor NextDataBlock
              (find_map (data_block_matches NextDataBlock) (tail ex_chain));
            mkSearchSingleDataBlockVisitor NextFilledNewData
              (find_map (data_block_matches NextFilledNewData) (tail ex_chain))]).
Proof.
  apply (accept_single_pass 10 (meta_block_repo ex_c3) (Some (ex_hash 2)) (tail ex_chain));
    [exact (cs_linked _ _ ex_c3_state)|simpl; lia|].
  repeat constructor.
Defined.

Lemma accept_failures_are_visitors_witness :
  exists x, accept_by_interval 10 (meta_block_repo ex_c3)
    [SearchSingleDataBlockVisitor_next] (Some (ex_hash 2)) None = Some x.
Proof.
  destruct (accept_failures_are_visitors 10 (meta_block_repo ex_c3) (Some (ex_hash 2))
              (tail ex_chain) [SearchSingleDataBlockVisitor_next]
              (cs_linked _ _ ex_c3_state)) as (x & Hx & _); [simpl; lia|].
  by exists x.
Defined.

Lemma iteration_yields_interval_witness :
  iter_blocks_interval 10 ex_c3 (ex_hash 2) (Some (ex_hash 1)) false =
    Some ([(ex_hash 2, ex_data1)], Ok tt) /\
  iter_blocks 10 ex_c3 = Some (tail ex_chain, Ok tt).
Proof.
  destruct (iteration_yields_interval 10 ex_c3 (ex_hash 2) [(ex_hash 2, ex_data1)] (ex_hash 1)
              ex_schema [(ex_hash 0, ex_seed)] false (cs_linked _ _ ex_c3_state))
    as (H1 & _ & H2); [simpl; lia|].
  split; [exact H1|]. apply H2. vm_compute. reflexivity.
Defined.

Lemma iteration_missing_tail_witness :
  iter_blocks_interval 10 ex_c3 (ex_hash 2) (Some (ex_hash 7)) false =
  Some (tail ex_chain, Err (IterBlocksError_InvalidInterval
                              (mkInvalidIntervalError (ex_hash 2) (ex_hash 7)))).
Proof.
  apply (iteration_missing_tail 10 ex_c3 (ex_hash 2) (tail ex_chain) (ex_hash 7) false
           (cs_linked _ _ ex_c3_state)); [simpl; lia|].
  apply (bool_decide_unpack _). vm_compute. exact I.
Defined.

Lemma last_data_block_is_newest_witness :
  last_data_block 10 ex_c3 =
  Some (Ok (mkSearchSingleDataBlockVisitor NextDataBlock
              (option_map (pair (ex_hash 2)) (as_data_stream_block ex_data1)))).
Proof.
  apply (last_data_block_is_newest 10 ex_c3 (tail ex_chain) ex_c3_state); [done|simpl; lia].
Defined.

Lemma typed_search_is_newest_witness :
  exists v, accept_one 10 ex_c3 (SearchSingleTypedBlockVisitor_new SetDataSchema) = Some (Ok v) /\
    into_event v = Some (mkSetDataSchema []).
Proof.
  eexists. split.
  - apply (typed_search_is_newest 10 ex_c3 (tail ex_chain) ex_c3_state); [done|simpl; lia].
  - vm_compute. reflexivity.
Defined.

Lemma reset_keeps_suffix_witness :
  chain_state (set_ref ex_c3 BlockRef_Head (ex_hash 1) SetRefOpts_default).2
    [(ex_hash 1, ex_schema); (ex_hash 0, ex_seed)].
Proof.
  refine (reset_keeps_suffix ex_c3 [(ex_hash 2, ex_data1)] (ex_hash 1) ex_schema
            [(ex_hash 0, ex_seed)] SetRefOpts_default _ ex_c3_state _ _).
  - split; [reflexivity|]. split; [unfold MAX_MULTIHASH_DIGEST_LEN; simpl; lia|reflexivity].
  - vm_compute. reflexivity.
Defined.

Lemma append_missing_predecessor_witness :
  append 10 ex_c3 ex_orphan AppendOpts_default =
  Some (Err (AppendError_InvalidBlock (AppendValidationError_PrevBlockNotFound
               (mkBlockNotFoundError (ex_hash 7)))), ex_c3).
Proof.
  apply (append_missing_predecessor 9 ex_c3 ex_orphan AppendOpts_default (ex_hash 7)
           (match make_validators ex_orphan with Ok vs => vs | _ => [] end));
    [reflexivity|vm_compute; reflexivity|reflexivity|reflexivity].
Defined.

Lemma slice_offsets_contiguous_witness :
  records ex_chain = 15%Z /\ records (tail ex_chain) = 10%Z /\ 10%Z = records (tail ex_chain).
Proof.
  split; [reflexivity|]. split; [reflexivity|].
  refine (proj1 (slice_offsets_contiguous [] (ex_hash 3, ex_data2) (tail ex_chain)
            _ (ex_slice 10 14) ex_chain_valid ex_offsets_wf eq_refl eq_refl)).
Defined.

Lemma query_reads_declared_inputs_witness :
  exists t, latest SetTransform (tail ex_derivative) = Some t /\
    map Some (query_ids ex_query2) = declared_ids t.
Proof.
  exact (query_reads_declared_inputs [] _ (tail ex_derivative) ex_query2 ex_derivative_valid
           eq_refl).
Defined.

Lemma history_is_monotone_witness : (mb_system_time ex_data1 <= mb_system_time ex_data2)%Z.
Proof.
  refine (proj1 (history_is_monotone [] (ex_hash 3, ex_data2) (tail ex_chain)
            (ex_hash 2, ex_data1) ex_chain_valid _)).
  left.
Defined.

Lemma sequence_numbers_count_blocks_witness : mb_sequence_number ex_data2 = 3%Z.
Proof.
  refine (proj1 (sequence_numbers_count_blocks [] (ex_hash 3, ex_data2) (tail ex_chain)
            ex_chain_valid _)).
  unfold ex_chain; simpl. intros x. rewrite !elem_of_cons, elem_of_nil.
  intros [->|[->|[->|[->|[]]]]]; unfold in_u64, two64; simpl; lia.
Defined.

Lemma sources_never_mixed_witness :
  ~ exists e', mb_event ex_seed = MetadataEvent_SetPollingSource e'.
Proof.
  intros [e' He']. revert He'.
  refine (sources_never_mixed ex_push_chain
            (ex_hash 1, ex_block 1 (MetadataEvent_AddPushSource ex_push_source))
            (ex_hash 0, ex_seed) ex_push_source e' ex_push_chain_valid _ _ eq_refl).
  - left.
  - right; left.
Defined.

Lemma data_has_schema_witness :
  exists hb' s, hb' ∈ tail ex_chain /\ mb_event hb'.2 = MetadataEvent_SetDataSchema s.
Proof.
  exact (data_has_schema [] (ex_hash 3, ex_data2) (tail ex_chain) _ (ex_slice 10 14)
           ex_chain_valid eq_refl eq_refl).
Defined.
