(* ===== verification/DatasetProperties.v ===== *)
(** The properties of datasets: commits, summaries and the comparison of
    chains, each with an application to concrete datasets. *)

From S2P Require Import Prelude Multiformats Identity Dtos ChainRepos ObjectRepoFs MetadataChain.
From S2P Require Import ChainComparator ChainVisitors ChainValidators ChainRules ChainAppend.
From S2P Require Import ChainInvariants ChainExample Dataset.

Section Properties.
Context {C : BlockCodec} {SC : SummaryCodec} {DH : DataHash} {BR RR DR CR IR : Type}
        `{!MetadataBlockRepository BR} `{!ReferenceRepository RR}
        `{!ObjectRepository DR} `{!ObjectRepository CR} `{!NamedObjectRepository IR}.

Implicit Types (d : DatasetImpl BR RR DR CR IR) (l : list HashedMetadataBlock).

(** C8.  A dataset whose chain is valid and names only stored objects stays
    so under every commit, whether it succeeds or fails at any stage: a commit
    of an event, of ingested data and of a query result returns, puts at most
    the block of its event on top of the chain, and the data slice and the
    checkpoint of a new block have been moved into the repositories (or were
    there) before the head moves. *)
Theorem commits_keep_dataset_consistent
    `{!LawfulBlockRepo BR, !LawfulRefRepo RR, !LawfulObjectRepo DR, !LawfulObjectRepo CR}
    fuel d l now opts :
  dataset_state d l -> length l < fuel -> cmo_update_block_ref opts = true ->
  prev_in_chain l opts -> commit_fresh d opts ->
  (forall event, cmo_check_object_refs opts = true -> exists x d',
     commit_event fuel d now event opts = Some (x, d') /\ commits l event x d') /\
  (forall params data cp, exists x d' nd nc,
     commit_add_data fuel d now params data cp opts = Some (x, d') /\
     (is_ok x = true ->
        prepare_objects d (adp_new_offset_interval params) data cp = Ok (nd, nc)) /\
     commits l (MetadataEvent_AddData
       (mkAddData (adp_prev_checkpoint params) (adp_prev_offset params) nd nc
          (adp_new_watermark params) (adp_new_source_state params))) x d') /\
  (forall params data cp, exists x d' nd nc,
     commit_execute_transform fuel d now params data cp opts = Some (x, d') /\
     (is_ok x = true ->
        prepare_objects d (etp_new_offset_interval params) data cp = Ok (nd, nc)) /\
     commits l (MetadataEvent_ExecuteTransform
       (mkExecuteTransform (etp_query_inputs params) (etp_prev_checkpoint params)
          (etp_prev_offset params) nd nc (etp_new_watermark params))) x d').
Proof.
  intros Hst Hf Hu Hp Hfr. split_and!.
  - intros event Hc.
    destruct (commit_event_returns fuel d l now event opts (dst_chain _ _ Hst) Hf Hp)
      as (x & d' & Hx).
    exists x, d'. split; [done|]. by eapply commit_event_state; eauto.
  - intros params data cp.
    destruct (commit_add_data_returns fuel d l now params data cp opts (dst_chain _ _ Hst) Hf Hp)
      as (x & d' & Hx).
    destruct (commit_add_data_state _ _ _ _ _ _ _ _ _ _ Hst Hf Hu Hfr Hx) as (nd & nc & Hn).
    by exists x, d', nd, nc.
  - intros params data cp.
    destruct (commit_execute_transform_returns fuel d l now params data cp opts
      (dst_chain _ _ Hst) Hf Hp) as (x & d' & Hx).
    destruct (commit_execute_transform_state _ _ _ _ _ _ _ _ _ _ Hst Hf Hu Hfr Hx)
      as (nd & nc & Hn).
    by exists x, d', nd, nc.
Qed.

(** C9.  The summary a dataset returns is the one computed from its whole
    chain, though only the blocks above the last seen one are read, also after
    the head was reset to a chain that does not contain that block; it is
    written back, and the chain is not touched.  Only a failure to write it
    makes the call fail. *)
Theorem summary_is_current `{!SummaryCodecLaws SC, !LawfulInfoRepo IR} fuel d l prev :
  chain_state (dsi_metadata_chain d) l -> l <> [] -> length l < fuel ->
  read_summary d = Ok prev -> summary_valid prev l ->
  exists s x d', summary_of l = Some s /\
    get_summary fuel d GetSummaryOpts_default = Some (x, d') /\
    dsi_metadata_chain d' = dsi_metadata_chain d /\
    (x = Ok s /\ read_summary d' = Ok (Some s) \/
     is_ok (write_summary d s).1 = false /\ is_ok x = false).
Proof. apply get_summary_ok. Qed.
End Properties.

(** C10.  Comparing two stored chains tells exactly how they are related: they
    are equal, one extends the other by the listed blocks, or they part after
    a common (perhaps empty) history, with the given numbers of blocks that
    are not shared. *)
Theorem compare_chains_correct {C : BlockCodec} {BR1 RR1 BR2 RR2 : Type}
    `{!MetadataBlockRepository BR1} `{!ReferenceRepository RR1}
    `{!MetadataBlockRepository BR2} `{!ReferenceRepository RR2}
    fuel (c1 : MetadataChainImpl BR1 RR1) (c2 : MetadataChainImpl BR2 RR2) l r h :
  chain_state c1 l -> chain_state c2 r -> head_hash l = Some h -> agree l r ->
  (forall x, x ∈ l ++ r -> in_u64 (mb_sequence_number x.2)) ->
  length l < fuel -> length r < fuel ->
  (Z.of_nat (length l) < two64)%Z -> (Z.of_nat (length r) < two64)%Z ->
  exists result, compare_chains fuel c1 h c2 (head_hash r) = Some (Ok result) /\
    compare_spec l r result.
Proof.
  intros Hl Hr Hh Hag Hu Hfl Hfr Hwl Hwr.
  apply compare_chains_ok; try done; [rewrite <- Hh; apply Hl|apply Hr| |];
    (apply valid_positions; [by apply Hl || apply Hr|set_solver|done]).
Qed.

(** * Applications *)

(** The summary is kept as it is in a codec whose bytes can hold it. *)
Definition ex_d_bytes : Type := MetadataBlock + Multihash + Manifest DatasetSummary.

#[export] Instance ex_d_codec : BlockCodec := {|
  Bytes := ex_d_bytes;
  bytes_len := fun _ => 7%Z;
  write_manifest := fun b => Ok (inl (inl b));
  read_manifest := fun d => match d with inl (inl b) => Ok b | _ => Err SerdeError_Other end;
  sha3_256 := fun d =>
    match d with
    | inl (inl b) => mb_sequence_number b :: replicate 31 0%Z
    | _ => replicate 32 200%Z
    end;
  to_multibase := fun h => inl (inr h);
  from_multibase := fun d => match d with inl (inr h) => Ok h | _ => Err tt end
|}.

#[export] Instance ex_d_codec_laws : CodecLaws ex_d_codec.
Proof.
  split.
  - intros b d [= <-]. done.
  - done.
  - by intros [[]|].
  - by intros [[]|].
  - done.
Qed.

#[export] Instance ex_summary_codec : SummaryCodec (C := ex_d_codec) := {|
  summary_to_yaml := fun m => Ok (inr m);
  summary_from_yaml := fun d => match d with inr m => Ok m | _ => Err tt end
|}.

#[export] Instance ex_summary_codec_laws : SummaryCodecLaws ex_summary_codec.
Proof. split. by intros m d [= <-]. Qed.

#[export] Instance ex_data_hash : DataHash (C := ex_d_codec) := {|
  get_parquet_logical_hash := fun _ => Ok (ex_hash 201)
|}.

Abbreviation ExDataset :=
  (DatasetImpl (MetadataBlockRepositoryImpl (ObjectRepositoryInMemory (C := ex_d_codec)))
     (ReferenceRepositoryImpl (NamedObjectRepositoryInMemory (C := ex_d_codec)))
     (ObjectRepositoryLocalFS (C := ex_d_codec)) (ObjectRepositoryLocalFS (C := ex_d_codec))
     (NamedObjectRepositoryLocalFS (C := ex_d_codec))).

Definition ex_d_empty : ExDataset :=
  mkDatasetImpl
    (mkMetadataChainImpl (mkMetadataBlockRepositoryImpl ObjectRepositoryInMemory_new)
       (mkReferenceRepositoryImpl NamedObjectRepositoryInMemory_new))
    (mkObjectRepositoryLocalFS ∅ true) (mkObjectRepositoryLocalFS ∅ true)
    (mkNamedObjectRepositoryLocalFS ∅ true).

(** The dataset after the given events, oldest first. *)
Fixpoint ex_d_run (d : ExDataset) (n : Z) (es : list MetadataEvent) : option ExDataset :=
  match es with
  | [] => Some d
  | e :: es' =>
      match commit_event 10 d n e CommitOpts_default with
      | Some (Ok _, d') => ex_d_run d' (n + 1) es'
      | _ => None
      end
  end.

Definition ex_d2 : ExDataset :=
  default ex_d_empty (ex_d_run ex_d_empty 0 (map mb_event [ex_seed; ex_schema])).

Definition ex_d2_chain : list HashedMetadataBlock := drop 2 ex_chain.

Lemma ex_d2_state : dataset_state ex_d2 ex_d2_chain.
Proof.
  split.
  - split.
    + vm_compute. reflexivity.
    + repeat (eapply linked_cons; [vm_compute; reflexivity|]). apply linked_nil.
    + apply valid_chain_b_sound. vm_compute. reflexivity.
  - intros hb. unfold ex_d2_chain, ex_chain. simpl. rewrite !elem_of_cons, elem_of_nil.
    intros [->|[->|[]]]; by intros s.
Qed.

Lemma ex_d2_fresh : commit_fresh ex_d2 CommitOpts_default.
Proof.
  intros [t p n e] Hp Hn h b'. simpl in *.
  assert (p = Some (ex_hash 1)) as -> by (vm_compute in Hp; by injection Hp as <-).
  assert (n = 2%Z) as -> by (vm_compute in Hn; by injection Hn as <-).
  vm_compute. intros [= <-]. vm_compute. done.
Qed.

Definition ex_file : ex_d_bytes := inl (inr (ex_hash 0)).
Definition ex_file_hash : Multihash := mkMultihash (replicate 32 200%Z) 32 Multicodec_Sha3_256.

Definition ex_params : AddDataParams :=
  mkAddDataParams None None (Some (mkOffsetInterval 0 9)) (Some 5%Z) None.

Definition ex_slice3 : DataSlice := mkDataSlice (ex_hash 201) ex_file_hash (mkOffsetInterval 0 9) 7.

Definition ex_d3_block : MetadataBlock :=
  mkMetadataBlock 2 (Some (ex_hash 1)) 2
    (MetadataEvent_AddData (mkAddData None None (Some ex_slice3) None (Some 5%Z) None)).

Definition ex_d3_chain : list HashedMetadataBlock := (ex_hash 2, ex_d3_block) :: ex_d2_chain.

Definition dataset_after {E A} (o : option (res E A * ExDataset)) : ExDataset :=
  match o with Some (_, d) => d | None => ex_d_empty end.

(** [ex_d2] with its summary written, and then with data committed. *)
Definition ex_d2s : ExDataset := dataset_after (get_summary 10 ex_d2 GetSummaryOpts_default).
Definition ex_d3 : ExDataset :=
  dataset_after (commit_add_data 10 ex_d2s 2 ex_params (Some ex_file) None CommitOpts_default).

(** The data file is committed and stored. *)
Lemma commits_keep_dataset_consistent_witness :
  exists r d' b, commit_add_data 10 ex_d2 2 ex_params (Some ex_file) None CommitOpts_default
    = Some (Ok r, d') /\ dataset_state d' ((cmr_new_head r, b) :: ex_d2_chain) /\
    lfs_files (dsi_data_repo d') !! ex_file_hash = Some ex_file.
Proof.
  destruct (commits_keep_dataset_consistent 10 ex_d2 ex_d2_chain 2 CommitOpts_default ex_d2_state)
    as (_ & Hadd & _); [simpl; lia|done|done|exact ex_d2_fresh|].
  destruct (Hadd ex_params (Some ex_file) None) as (x & d' & nd & nc & Hx & _ & Hc).
  assert (Hok : match commit_add_data 10 ex_d2 2 ex_params (Some ex_file) None CommitOpts_default with
                | Some (Ok _, d) => lfs_files (dsi_data_repo d) !! ex_file_hash = Some ex_file
                | _ => False
                end) by (vm_compute; reflexivity).
  rewrite Hx in Hok. destruct x as [r| |]; [|destruct Hok..].
  destruct Hc as (b & _ & _ & _ & Hd).
  exists r, d', b. split; [exact Hx|]. split; [exact Hd|exact Hok].
Defined.

Lemma ex_d3_state : chain_state (dsi_metadata_chain ex_d3) ex_d3_chain.
Proof.
  split.
  - vm_compute. reflexivity.
  - repeat (eapply linked_cons; [vm_compute; reflexivity|]). apply linked_nil.
  - apply valid_chain_b_sound. vm_compute. reflexivity.
Qed.

Lemma ex_d3_split l1 l2 :
  ex_d3_chain = l1 ++ l2 -> head_hash l2 = Some (ex_hash 1) -> ex_d2_chain = l2.
Proof.
  intros Hl Hh. destruct l1 as [|x1 l1]; [simpl in Hl; subst l2; discriminate|].
  injection Hl as _ Hl. destruct l1 as [|x2 l1]; [exact Hl|].
  injection Hl as _ Hl. destruct l1 as [|x3 l1]; [simpl in Hl; subst l2; discriminate|].
  injection Hl as _ Hl. symmetry in Hl. apply app_eq_nil in Hl as [_ ->]. discriminate.
Qed.

(** The summary of the two first blocks is brought up to date with the third. *)
Lemma summary_is_current_witness :
  exists s x d', summary_of ex_d3_chain = Some s /\
    get_summary 10 ex_d3 GetSummaryOpts_default = Some (x, d') /\ x = Ok s /\
    dsu_num_records s = 10%Z.
Proof.
  assert (Hr : exists s0, read_summary ex_d3 = Ok (Some s0) /\ summary_of ex_d2_chain = Some s0 /\
                 dsu_last_block_hash s0 = ex_hash 1).
  { eexists. split_and!; vm_compute; reflexivity. }
  destruct Hr as (s0 & Hr & Hs0 & Hh0).
  destruct (summary_is_current 10 ex_d3 ex_d3_chain (Some s0) ex_d3_state)
    as (s & x & d' & Hs & Hg & _ & Hx); [done|simpl; lia|done| |].
  - intros s1 [= <-]. exists ex_d2_chain. split; [exact Hs0|]. rewrite Hh0. exact ex_d3_split.
  - exists s, x, d'. destruct Hx as [[-> _]|[_ Hx]].
    + split_and!; [done..|].
      assert (Hn : option_map dsu_num_records (summary_of ex_d3_chain) = Some 10%Z)
        by (vm_compute; reflexivity).
      rewrite Hs in Hn. by injection Hn.
    + exfalso.
      assert (Hok : option_map (fun p => is_ok p.1) (get_summary 10 ex_d3 GetSummaryOpts_default)
                    = Some true) by (vm_compute; reflexivity).
      rewrite Hg in Hok. simpl in Hok. congruence.
Defined.

Lemma ex_c4_linked : linked (meta_block_repo ex_c4) (head_hash ex_chain) ex_chain.
Proof. repeat (eapply linked_cons; [vm_compute; reflexivity|]). apply linked_nil. Qed.

Lemma compare_chains_correct_witness :
  exists result, compare_chains 10 ex_c4 (ex_hash 3) ex_c3 (Some (ex_hash 2)) = Some (Ok result) /\
    compare_spec ex_chain (tail ex_chain) result.
Proof.
  apply (compare_chains_correct 10 ex_c4 ex_c3 ex_chain (tail ex_chain) (ex_hash 3)).
  - split; [vm_compute; reflexivity|apply ex_c4_linked|apply ex_chain_valid].
  - apply ex_c3_state.
  - done.
  - intros h b b' Hb Hb'. assert (Hb'' : (h, b') ∈ ex_chain) by (by right).
    apply (linked_lookup _ _ _ _ _ ex_c4_linked) in Hb, Hb''. congruence.
  - intros x. unfold ex_chain. simpl. rewrite !elem_of_cons, elem_of_nil.
    intros [->|[->|[->|[->|[->|[->|[->|[]]]]]]]]; vm_compute; done.
  - simpl. lia.
  - simpl. lia.
  - done.
  - done.
Defined.
