(* ===== verification/SystemProperties.v ===== *)
(** The properties of identities, event-sourced aggregates, tasks and flows,
    each with an application to small concrete data. *)

From S2P Require Import Prelude Multiformats Identity Dtos EventSourcing TaskSystem FlowSystem.
From S2P Require Import FlowTimeWheel.

(** * Identities *)

(** Reading the bytes of a hash gives the hash back, for any
    variable-length integer codec whose decoders invert its encoder and return
    the rest of the input. *)
Theorem multihash_roundtrip (uvar_encode_u32 : Z -> list u8)
    (uvar_decode_u32 uvar_decode_usize : list u8 -> option (Z * list u8)) h :
  (forall z rest, (0 <= z < 2 ^ 32)%Z ->
     uvar_decode_u32 (uvar_encode_u32 z ++ rest) = Some (z, rest)) ->
  (forall z rest, (0 <= z < 2 ^ 32)%Z ->
     uvar_decode_usize (uvar_encode_u32 z ++ rest) = Some (z, rest)) ->
  Multihash_wf h ->
  Multihash_from_bytes uvar_decode_u32 uvar_decode_usize (Multihash_as_bytes uvar_encode_u32 h)
  = Ok h.
Proof. intros H1 H2 Hw. by apply (Multihash_bytes_inverse _ _ _ H1 H2). Qed.

(** The ordering of dataset references takes the names of both sides
    from the left one: any two alias references compare as equal, also when
    [==] tells them apart. *)
Theorem alias_references_compare_equal :
  (forall a b, DatasetRef_cmp (DatasetRef_Alias a) (DatasetRef_Alias b) = Eq) /\
  exists a b, DatasetRef_eq (DatasetRef_Alias a) (DatasetRef_Alias b) = false.
Proof.
  split.
  - intros a b. unfold DatasetRef_cmp; simpl. rewrite option_cmp_refl; [|intros; apply newtype_str_cmp_refl].
    simpl. by rewrite newtype_str_cmp_refl.
  - exists (mkDatasetAlias None (mkDatasetName "foo")), (mkDatasetAlias None (mkDatasetName "bar")).
    reflexivity.
Qed.

(** * Event sourcing *)

Section EventSourcingProperties.
Context {Q Ev St S : Type} {P : Projection Q Ev St} {SS : EventStoreState Ev S}
        `{!LawfulEventStoreState Ev S}.

Implicit Types (a : Aggregate Q Ev St) (q : Q) (s : S).

(** Saving an aggregate that is in step with the store always succeeds
    and appends exactly its pending events; loading it afterwards gives the
    same aggregate back, and the events of other queries are untouched. *)
Theorem save_load_roundtrip s a r a' s' :
  synced s a -> Aggregate_save a s = (r, a', s') ->
  r = Ok tt /\ get_events s' = get_events s ++ agg_pending_events a /\
  agg_state a' = agg_state a /\ Aggregate_load (agg_query a) s' = Ok a' /\
  forall q, (forall e, matches_query e (agg_query a) = true -> matches_query e q = false) ->
    history s' q = history s q.
Proof.
  intros Hs Hsave. destruct (save_synced _ _ _ _ _ Hs Hsave) as (-> & Hs' & Hst & Hp & Hq & Hev).
  split_and!; try done.
  - rewrite <- Hq. by apply load_synced.
  - intros q Hdis. by eapply save_frame.
Qed.

(** Refreshing an aggregate after others stored more events gives what
    loading it from scratch would give. *)
Theorem refresh_catches_up s s' a es st :
  synced s a -> agg_pending_events a = [] -> get_events s' = get_events s ++ es ->
  (Z.of_nat (length (get_events s')) < 2 ^ 63)%Z ->
  replay None (history s' (agg_query a)) = Ok (Some st) ->
  exists a', Aggregate_update_ext a s' LoadOpts_default = (Ok tt, a') /\
    agg_state a' = Some st /\ Aggregate_load (agg_query a) s' = Ok a'.
Proof.
  intros Hs Hp Hev Hroom Hr. destruct (synced_later _ _ _ _ Hs Hp Hev) as [n Hn].
  destruct (update_synced n s' a st Hn) as (a' & Hu & Hs' & Hst & Hq & Hp'); [|done|].
  { pose proof (su_bound _ _ _ Hn). lia. }
  exists a'. split_and!; [done|done|]. rewrite <- Hq. by apply load_synced.
Qed.
End EventSourcingProperties.

(** When the store refuses the events, [save] has already taken them: the
    aggregate keeps its state but has nothing left to store, so a retry
    reports success and stores nothing. *)
Theorem failed_save_drops_events {Q Ev St S} {ES : EventStore Q Ev S} (a : Aggregate Q Ev St)
    s r a' s' :
  Aggregate_save a s = (r, a', s') -> is_ok r = false ->
  agg_state a' = agg_state a /\ agg_pending_events a' = [] /\
  forall s1, Aggregate_save a' s1 = (Ok tt, a', s1).
Proof. apply save_failed. Qed.

(** * Tasks *)

(** In every state the scheduler goes through, the history of every task
    replays, and the queue holds exactly the tasks that are queued and not
    cancelled, each once. *)
Theorem scheduler_queue_exact s :
  sched_reachable s ->
  (forall id, exists o, task_at (sch_event_store s) id o) /\
  NoDup (sch_task_queue s) /\
  (forall id, id ∈ sch_task_queue s <->
     exists st, task_at (sch_event_store s) id (Some st) /\ ts_status st = TaskStatus_Queued /\
       ts_cancellation_requested st = false).
Proof. intros []%sched_reachable_inv. done. Qed.

(** Creating a task always succeeds, with a fresh id, and puts it at the
    end of the queue. *)
Theorem create_task_enqueues s now plan :
  sched_reachable s -> id_room s ->
  exists st s', create_task s now plan = (Ok st, s') /\
    task_at (sch_event_store s) (ts_task_id st) None /\
    task_at (sch_event_store s') (ts_task_id st) (Some st) /\ waiting st /\
    ts_logical_plan st = plan /\ sch_task_queue s' = sch_task_queue s ++ [ts_task_id st].
Proof.
  intros Hr%sched_reachable_inv Hroom.
  destruct (create_task_ok s now plan Hr Hroom) as (st & s' & H & _ & H'). eauto.
Qed.

(** Taking a task from a non-empty queue always succeeds: it is the oldest
    waiting task, it runs afterwards and is not handed out again. *)
Theorem try_take_runs_oldest s now id queue' :
  sched_reachable s -> sch_task_queue s = id :: queue' ->
  exists s' st, try_take s now = (Ok (Some id), s') /\ sch_task_queue s' = queue' /\
    (id ∉ queue') /\ task_at (sch_event_store s') id (Some st) /\
    ts_status st = TaskStatus_Running.
Proof.
  intros Hr%sched_reachable_inv Hq.
  destruct (try_take_ok s now id queue' Hr Hq) as (s' & st & H & _ & Hq' & Hat & Hst & _).
  pose proof (si_nodup _ Hr) as Hnd. rewrite Hq in Hnd. apply NoDup_cons in Hnd as [Hni _]. eauto 8.
Qed.

(** Cancelling any stored task succeeds, keeps its status, marks an
    unfinished one as cancelled, and no executor will be given it afterwards. *)
Theorem cancel_task_dequeues s now id st :
  sched_reachable s -> task_at (sch_event_store s) id (Some st) ->
  exists st' s', cancel_task s now id = (Ok st', s') /\
    task_at (sch_event_store s') id (Some st') /\ (id ∉ sch_task_queue s') /\
    ts_status st' = ts_status st /\
    (stage (ts_status st) < 2 -> ts_cancellation_requested st' = true).
Proof.
  intros Hr%sched_reachable_inv Hst.
  destruct (cancel_task_ok s now id st Hr Hst) as (st' & s' & H & _ & H'). eauto.
Qed.

(** The executor can record the outcome of a running task although its
    copy of the task is older than the store, for example because the task was
    cancelled meanwhile; the request to cancel is not lost. *)
Theorem outcome_is_recorded s t now outcome st :
  sched_reachable s -> task_snapshot s t ->
  (Z.of_nat (length (tss_events (its_inner (sch_event_store s)))) < 2 ^ 63)%Z ->
  task_at (sch_event_store s) (agg_query t) (Some st) -> ts_status st = TaskStatus_Running ->
  exists s' st', process_task_outcome s t now outcome = (Ok tt, s') /\
    task_at (sch_event_store s') (agg_query t) (Some st') /\
    ts_status st' = TaskStatus_Finished outcome /\
    ts_cancellation_requested st' = ts_cancellation_requested st.
Proof.
  intros Hr%sched_reachable_inv Hsn Hroom Hst Hrun.
  destruct (process_task_outcome_ok s t now outcome st Hr Hsn Hroom Hst Hrun)
    as (s' & st' & H & _ & H'). eauto.
Qed.

(** The listing of a dataset's tasks never fails: a page holds the
    current states of the tasks created for that dataset, newest first, and the
    total counts all of them. *)
Theorem task_listing_complete s d p :
  sched_reachable s ->
  let created := created_for d (tss_events (its_inner (sch_event_store s))) in
  exists sts, list_tasks_by_dataset s d p = mkTaskStateListing (sts, Ok tt) (length created) /\
    map ts_task_id sts = take (tpo_limit p) (drop (tpo_offset p) (rev created)) /\
    Forall (fun st => task_at (sch_event_store s) (ts_task_id st) (Some st)) sts.
Proof. apply list_tasks_ok. Qed.

(** Whatever events a task accepted, its times agree with its status; and
    an accepted event never moves it back, never touches a finished task, and
    never withdraws a request to cancel. *)
Theorem task_life_cycle es s e s' :
  replay None es = Ok (Some s) -> TaskState_apply (Some s) e = Ok s' ->
  task_wf s /\ task_wf s' /\ ts_task_id s' = ts_task_id s /\
  ts_logical_plan s' = ts_logical_plan s /\
  stage (ts_status s) < 2 /\ stage (ts_status s) <= stage (ts_status s') /\
  (ts_cancellation_requested s = true -> ts_cancellation_requested s' = true).
Proof.
  intros Hr Ha.
  assert (Hw : task_wf s).
  { by eapply (replay_invariant (P := task_projection) task_wf es None (Some s) task_apply_wf). }
  destruct (task_apply_step _ _ _ Ha) as (? & _ & ? & _ & ? & ? & ?).
  split_and!; try done. eapply task_apply_wf; [|exact Ha]. by intros x [= <-].
Qed.

(** * Flows *)

(** Whatever events a flow accepted, its fields agree: it has a trigger,
    it awaits an executor exactly when it has tasks, it has no start condition
    once it runs or has an outcome, and an outcome comes with the times that
    belong to it; its status is the one the last event announced. *)
Theorem flow_state_consistent es s e s' :
  replay None es = Ok (Some s) -> FlowState_apply (Some s) e = Ok s' ->
  flow_wf s /\ flow_wf s' /\
  FlowState_status s' = default (FlowState_status s) (FlowEvent_new_status e).
Proof.
  intros Hr Ha.
  assert (Hw : flow_wf s).
  { by eapply (replay_invariant (P := flow_projection) flow_wf es None (Some s) flow_apply_wf). }
  assert (Hw' : forall x, Some s = Some x -> flow_wf x) by by intros x [= <-].
  split_and!; [done|by eapply flow_apply_wf|].
  pose proof (flow_new_status _ _ _ Hw' Ha) as Hst.
  destruct (FlowEvent_new_status e); simpl; [done|]. by destruct Hst as (x & [= <-] & Hx).
Qed.

(** Once a flow has an outcome no event changes it any more. *)
Theorem flow_outcome_is_final es s o s' :
  fs_outcome s = Some o -> replay (Some s) es = Ok (Some s') -> s' = s.
Proof.
  intros Ho. revert s' . induction es as [|e es IH]; intros s'; simpl; [congruence|].
  intros (s1 & Hs1 & H)%res_bind_ok. apply IH.
  by rewrite <- (flow_finished_frozen _ _ _ _ Ho Hs1) at 1.
Qed.

(** A flow never collects two triggers that ask for the same thing: a
    trigger is added, at the end, exactly if none of the present ones is
    similar to it. *)
Theorem triggers_stay_distinct f now t s r f' :
  agg_state f = Some s -> fs_outcome s = None -> triggers_distinct (fs_triggers s) ->
  Flow_add_trigger_if_unique f now t = (r, f') ->
  exists s', agg_state f' = Some s' /\ triggers_distinct (fs_triggers s') /\
    ((r = Ok true /\ fs_triggers s' = fs_triggers s ++ [t] /\
      Forall (fun x => ~ similar t x) (fs_triggers s)) \/
     (r = Ok false /\ f' = f /\ Exists (similar t) (fs_triggers s))).
Proof. apply add_trigger_spec. Qed.

(** The time wheel behaves like a map from waiting flows to activation
    times: however activations, cancellations and takes are interleaved (as
    long as a flow id is not activated again after it was taken or cancelled),
    an activation keeps the earlier time, a take hands out, in order and once,
    exactly the flows due at the earliest moment and leaves the others, and the
    nearest moment is the least of the waiting ones. *)
Theorem time_wheel_refines tr w :
  wheel_trace FlowTimeWheel_default tr w ->
  spec_trace ∅ tr (wheel_waiting w) /\ is_earliest (wheel_waiting w) (nearest_activation_moment w) /\
  wheel_wf w.
Proof.
  intros Htr. destruct (wheel_trace_ok _ _ _ Htr wheel_default_wf) as [Hw Hs].
  rewrite wheel_waiting_default in Hs. split_and!; [done| |done]. by apply nearest_ok.
Qed.

(** The registry of active configurations finds, for every flow key, the
    rule added last for it; dropping a key or a whole dataset removes exactly
    the configurations of that key or of all flows of that dataset. *)
Theorem active_configs_are_current s k k' :
  (forall key rule s' snap, k = FlowKey_Dataset key ->
     add_dataset_flow_config s key rule = Ok s' ->
     rule_snapshot (fkd_flow_type key) rule = Some snap ->
     try_get_config_snapshot_by_key s' k' =
     if decide (k' = k) then Some snap else try_get_config_snapshot_by_key s k') /\
  try_get_config_snapshot_by_key (drop_flow_config s k) k' =
    (if decide (k = k') then None else try_get_config_snapshot_by_key s k') /\
  forall id, try_get_config_snapshot_by_key (drop_dataset_configs s id) k' =
    match k' with
    | FlowKey_Dataset key =>
        if decide (fkd_dataset_id key = id) then None else try_get_config_snapshot_by_key s k'
    | FlowKey_System _ => try_get_config_snapshot_by_key s k'
    end.
Proof.
  split_and!; [|apply drop_config_snapshot|intros; apply drop_dataset_snapshot].
  intros key rule s' snap -> Hadd Hsnap. by eapply add_config_snapshot.
Qed.

(** * Applications *)

(** A fixed-width codec for 32-bit integers, little endian. *)
Definition ex_uvar_encode (z : Z) : list u8 :=
  [z mod 256; (z / 256) mod 256; (z / 65536) mod 256; (z / 16777216) mod 256]%Z.

Definition ex_uvar_decode (l : list u8) : option (Z * list u8) :=
  match l with
  | a :: b :: c :: d :: rest => Some (a + 256 * b + 65536 * c + 16777216 * d, rest)%Z
  | _ => None
  end.

Lemma ex_uvar_law z rest :
  (0 <= z < 2 ^ 32)%Z -> ex_uvar_decode (ex_uvar_encode z ++ rest) = Some (z, rest).
Proof. intros H. simpl. f_equal. f_equal. Z.to_euclidean_division_equations; lia. Qed.

Definition ex_digest : Multihash := mkMultihash (replicate 32 7%Z) 32 Multicodec_Sha3_256.

Lemma multihash_roundtrip_witness :
  Multihash_from_bytes ex_uvar_decode ex_uvar_decode (Multihash_as_bytes ex_uvar_encode ex_digest)
  = Ok ex_digest.
Proof.
  apply (multihash_roundtrip ex_uvar_encode ex_uvar_decode ex_uvar_decode ex_digest
           ex_uvar_law ex_uvar_law).
  split; [reflexivity|]. split; [unfold MAX_MULTIHASH_DIGEST_LEN; simpl; lia|reflexivity].
Defined.

(** ** Aggregates *)

Definition ex_plan : LogicalPlan := LogicalPlan_Probe (mkProbe None None None).
Definition ex_created (id : TaskID) : TaskEvent :=
  TaskEvent_TaskCreated (mkTaskEventCreated 1 id ex_plan).
Definition ex_running (id : TaskID) : TaskEvent :=
  TaskEvent_TaskRunning (mkTaskEventRunning 2 id).
Definition ex_queued (id : TaskID) : TaskState :=
  mkTaskState id TaskStatus_Queued false ex_plan 1 None None None.

Definition ex_store : EventStoreStateImpl TaskEvent := mkEventStoreStateImpl [ex_created 5].
Definition ex_task : Task := mkAggregate 0%Z (Some (ex_queued 0)) [ex_created 0] None.
Definition ex_stored : Task := mkAggregate 5%Z (Some (ex_queued 5)) [] (Some 0%Z).

Lemma ex_task_synced : synced ex_store ex_task.
Proof. split; [reflexivity|reflexivity|by eexists|repeat constructor]. Qed.

Lemma ex_stored_synced : synced ex_store ex_stored.
Proof. split; [reflexivity|reflexivity|by eexists|repeat constructor]. Qed.

Lemma save_load_roundtrip_witness :
  exists r a' s', Aggregate_save ex_task ex_store = (r, a', s') /\ r = Ok tt /\
    Aggregate_load 0%Z s' = Ok a'.
Proof.
  eexists _, _, _. split; [vm_compute; reflexivity|].
  edestruct (save_load_roundtrip ex_store ex_task) as (Hr & _ & _ & Hload & _);
    [exact ex_task_synced|vm_compute; reflexivity|].
  split; [exact Hr|exact Hload].
Defined.

Lemma refresh_catches_up_witness :
  let s' := mkEventStoreStateImpl [ex_created 5; ex_created 0; ex_running 5] in
  exists a', Aggregate_update_ext ex_stored s' LoadOpts_default = (Ok tt, a') /\
    option_map ts_status (agg_state a') = Some TaskStatus_Running /\ Aggregate_load 5%Z s' = Ok a'.
Proof.
  intros s'.
  edestruct (refresh_catches_up ex_store s' ex_stored [ex_created 0; ex_running 5])
    as (a' & Hu & Hst & Hload);
    [exact ex_stored_synced|reflexivity|reflexivity|simpl; lia|vm_compute; reflexivity|].
  exists a'. split; [exact Hu|]. split; [by rewrite Hst|exact Hload].
Defined.

(** A store that is always out of order. *)
Definition ex_failing_store : EventStore TaskID TaskEvent unit := {|
  es_get_events _ _ _ := ([], Err GetEventsError_Internal);
  es_save_events s _ _ := (Err SaveEventsError_Internal, s);
  es_len _ := 0
|}.

Lemma failed_save_drops_events_witness :
  exists a', Aggregate_save (ES := ex_failing_store) ex_task tt = (Err SaveError_Internal, a', tt) /\
    agg_pending_events a' = [].
Proof.
  eexists. split; [reflexivity|].
  eapply (failed_save_drops_events (ES := ex_failing_store) ex_task tt (Err SaveError_Internal)
            _ tt); reflexivity.
Defined.

(** ** Tasks *)

Definition ex_sched1 : TaskSchedulerImpl := (create_task TaskSchedulerImpl_new 1%Z ex_plan).2.
Definition ex_sched2 : TaskSchedulerImpl := (create_task ex_sched1 1%Z ex_plan).2.
Definition ex_sched3 : TaskSchedulerImpl := (try_take ex_sched2 2%Z).2.
Definition ex_sched4 : TaskSchedulerImpl := (cancel_task ex_sched3 3%Z 0%Z).2.

Lemma ex_sched2_reachable : sched_reachable ex_sched2.
Proof.
  apply (sched_reachable_step ex_sched1).
  - apply (sched_reachable_step _ _ sched_reachable_new), sched_create. by intros last.
  - apply sched_create. intros last Hl. vm_compute in Hl. injection Hl as <-. lia.
Qed.

Lemma ex_sched3_reachable : sched_reachable ex_sched3.
Proof. apply (sched_reachable_step _ _ ex_sched2_reachable), sched_take. Qed.

Lemma ex_sched4_reachable : sched_reachable ex_sched4.
Proof. apply (sched_reachable_step _ _ ex_sched3_reachable), sched_cancel. Qed.

Lemma scheduler_queue_exact_witness : NoDup (sch_task_queue ex_sched2).
Proof. apply (scheduler_queue_exact ex_sched2 ex_sched2_reachable). Defined.

Lemma create_task_enqueues_witness :
  exists st s', create_task ex_sched2 4%Z ex_plan = (Ok st, s') /\
    sch_task_queue s' = [0; 1; ts_task_id st]%Z.
Proof.
  destruct (create_task_enqueues ex_sched2 4%Z ex_plan ex_sched2_reachable)
    as (st & s' & H & _ & _ & _ & _ & Hq).
  - intros last Hl. vm_compute in Hl. injection Hl as <-. lia.
  - exists st, s'. split; [exact H|exact Hq].
Defined.

Lemma try_take_runs_oldest_witness :
  exists s' st, try_take ex_sched2 2%Z = (Ok (Some 0%Z), s') /\ sch_task_queue s' = [1%Z] /\
    task_at (sch_event_store s') 0%Z (Some st).
Proof.
  destruct (try_take_runs_oldest ex_sched2 2%Z 0%Z [1%Z] ex_sched2_reachable)
    as (s' & st & H & Hq & _ & Hat & _); [vm_compute; reflexivity|].
  exists s', st. split; [exact H|]. split; [exact Hq|exact Hat].
Defined.

Lemma cancel_task_dequeues_witness :
  exists st' s', cancel_task ex_sched2 3%Z 0%Z = (Ok st', s') /\ 0%Z ∉ sch_task_queue s'.
Proof.
  destruct (cancel_task_dequeues ex_sched2 3%Z 0%Z (ex_queued 0) ex_sched2_reachable)
    as (st' & s' & H & _ & Hq & _); [vm_compute; reflexivity|].
  exists st', s'. split; [exact H|exact Hq].
Defined.

(** The executor took task 0, and then it was cancelled. *)
Definition ex_taken : Task :=
  default ex_task (match Aggregate_load 0%Z (sch_event_store ex_sched3) with
                   | Ok t => Some t | _ => None end).

Lemma ex_taken_snapshot : task_snapshot ex_sched4 ex_taken.
Proof. exists 2. split; try (vm_compute; reflexivity). vm_compute. lia. Qed.

Lemma outcome_is_recorded_witness :
  exists s' st', process_task_outcome ex_sched4 ex_taken 4%Z TaskOutcome_Cancelled = (Ok tt, s') /\
    task_at (sch_event_store s') 0%Z (Some st') /\
    ts_status st' = TaskStatus_Finished TaskOutcome_Cancelled /\
    ts_cancellation_requested st' = true.
Proof.
  eapply (outcome_is_recorded ex_sched4 ex_taken 4%Z TaskOutcome_Cancelled
            (mkTaskState 0%Z TaskStatus_Running true ex_plan 1%Z (Some 2%Z) (Some 3%Z) None));
    [exact ex_sched4_reachable|exact ex_taken_snapshot|vm_compute; reflexivity
    |vm_compute; reflexivity|reflexivity].
Defined.

Lemma task_life_cycle_witness :
  exists s', TaskState_apply (Some (ex_queued 0)) (ex_running 0) = Ok s' /\ task_wf s'.
Proof.
  eexists. split; [vm_compute; reflexivity|].
  eapply (task_life_cycle [ex_created 0] (ex_queued 0) (ex_running 0));
    vm_compute; reflexivity.
Defined.

Definition ex_dataset : DatasetID := mkDatasetID (mkDidOdf (mkDidKey (replicate 32 3%Z))).
Definition ex_sched5 : TaskSchedulerImpl :=
  (create_task ex_sched2 4%Z (LogicalPlan_Probe (mkProbe (Some ex_dataset) None None))).2.

Lemma task_listing_complete_witness :
  exists sts, list_tasks_by_dataset ex_sched5 ex_dataset (mkTaskPaginationOpts 0 10) =
    mkTaskStateListing (sts, Ok tt) 1 /\ map ts_task_id sts = [2%Z].
Proof.
  destruct (task_listing_complete ex_sched5 ex_dataset (mkTaskPaginationOpts 0 10))
    as (sts & Hl & Hm & _).
  - apply (sched_reachable_step _ _ ex_sched2_reachable), sched_create.
    intros last Hl. vm_compute in Hl. injection Hl as <-. lia.
  - exists sts. split; [exact Hl|exact Hm].
Defined.

(** ** Flows *)

Definition ex_trigger : FlowTrigger := FlowTrigger_AutoPolling (mkFlowTriggerAutoPolling 1).
Definition ex_flow_key : FlowKey := FlowKey_System (mkFlowKeySystem SystemFlowType_GC).
Definition ex_flow_events : list FlowEvent :=
  [ FlowEvent_Initiated (mkFlowEventInitiated 1 0 ex_flow_key ex_trigger None);
    FlowEvent_TaskScheduled (mkFlowEventTaskScheduled 2 0 9);
    FlowEvent_TaskRunning (mkFlowEventTaskRunning 3 0 9) ].
Definition ex_flow_finished : FlowEvent :=
  FlowEvent_TaskFinished (mkFlowEventTaskFinished 4 0 9 (TaskOutcome_Success TaskResult_Empty)).

Definition ex_flow_state (es : list FlowEvent) : option FlowState :=
  match replay None es with Ok s => s | _ => None end.

Lemma flow_state_consistent_witness :
  exists s s', ex_flow_state ex_flow_events = Some s /\
    FlowState_apply (Some s) ex_flow_finished = Ok s' /\ flow_wf s' /\
    FlowState_status s' = FlowStatus_Finished.
Proof.
  eexists _, _. split; [vm_compute; reflexivity|]. split; [vm_compute; reflexivity|].
  eapply (flow_state_consistent ex_flow_events _ ex_flow_finished); vm_compute; reflexivity.
Defined.

Lemma flow_outcome_is_final_witness :
  exists s s', ex_flow_state (ex_flow_events ++ [ex_flow_finished]) = Some s /\
    replay (Some s) [ex_flow_finished] = Ok (Some s') /\ s' = s.
Proof.
  eexists _, _. split; [vm_compute; reflexivity|]. split; [vm_compute; reflexivity|].
  eapply (flow_outcome_is_final [ex_flow_finished]); vm_compute; reflexivity.
Defined.

Definition ex_flow : Flow :=
  default (mkAggregate 0%Z None [] None)
    (match Flow_new 1 0 ex_flow_key ex_trigger None with Ok f => Some f | _ => None end).

Lemma triggers_stay_distinct_witness :
  exists s', agg_state (Flow_add_trigger_if_unique ex_flow 2%Z
      (FlowTrigger_Push (mkFlowTriggerPush 2 None))).2 = Some s' /\ triggers_distinct (fs_triggers s').
Proof.
  edestruct (triggers_stay_distinct ex_flow 2%Z (FlowTrigger_Push (mkFlowTriggerPush 2 None)))
    as (s' & Hs' & Hd & _);
    [vm_compute; reflexivity|reflexivity|repeat constructor|vm_compute; reflexivity|].
  exists s'. split; [exact Hs'|exact Hd].
Defined.

Definition ex_wheel_calls : list wheel_call :=
  [ WheelActivate 10 1; WheelActivate 20 2; WheelActivate 20 3; WheelActivate 10 3; WheelCancel 2;
    WheelTake ]%Z.

(** The calls with what they hand out, and the wheel at the end. *)
Fixpoint ex_wheel_run (w : FlowTimeWheel) (calls : list wheel_call)
    : list (wheel_call * list Z) * FlowTimeWheel :=
  match calls with
  | [] => ([], w)
  | c :: calls' =>
      let '(out, w') := wheel_run w c in
      let '(tr, w'') := ex_wheel_run w' calls' in ((c, out) :: tr, w'')
  end.

Lemma time_wheel_refines_witness :
  exists tr w, ex_wheel_run FlowTimeWheel_default ex_wheel_calls = (tr, w) /\
    last tr = Some (WheelTake, [1%Z; 3%Z]) /\ spec_trace ∅ tr (wheel_waiting w).
Proof.
  eexists _, _. split; [vm_compute; reflexivity|]. split; [reflexivity|].
  apply time_wheel_refines.
  do 4 (eapply trace_cons;
    [apply not_retired_b_sound; vm_compute; reflexivity|vm_compute; reflexivity|]).
  do 2 (eapply trace_cons; [exact I|vm_compute; reflexivity|]).
  apply trace_nil.
Defined.

Lemma active_configs_are_current_witness :
  exists s', add_dataset_flow_config ActiveConfigsState_default
      (mkFlowKeyDataset (mkDatasetID (mkDidOdf (mkDidKey [1%Z]))) DatasetFlowType_ExecuteTransform)
      (FlowConfigurationRule_TransformRule (mkTransformRule 10 20)) = Ok s' /\
    try_get_config_snapshot_by_key s'
      (FlowKey_Dataset (mkFlowKeyDataset (mkDatasetID (mkDidOdf (mkDidKey [1%Z])))
         DatasetFlowType_ExecuteTransform))
    = Some (FlowConfigurationSnapshot_Transform (mkTransformRule 10 20)).
Proof.
  eexists. split; [reflexivity|].
  set (key := mkFlowKeyDataset (mkDatasetID (mkDidOdf (mkDidKey [1%Z])))
                DatasetFlowType_ExecuteTransform).
  rewrite (proj1 (active_configs_are_current ActiveConfigsState_default (FlowKey_Dataset key)
             (FlowKey_Dataset key)) key (FlowConfigurationRule_TransformRule (mkTransformRule 10 20))
             _ (FlowConfigurationSnapshot_Transform (mkTransformRule 10 20)) eq_refl eq_refl eq_refl).
  by rewrite decide_True.
Defined.
