(* ===== verification/FlowProperties.v ===== *)
(** The properties of the flow service, each with an application to a concrete
    system. *)

From S2P Require Import Prelude Multiformats Identity Dtos EventSourcing TaskSystem FlowSystem FlowTimeWheel FlowStore Messages FlowService FlowServiceInv FlowServiceFacts FlowServiceEnds.

(** * Listings *)

Lemma load_listed_flows_ok (store : InMemoryFlowEventStore) ids :
  (forall id, id ∈ ids -> exists st, flow_at store id (Some st)) ->
  exists sts, load_listed_flows store ids = (sts, Ok tt) /\ map fs_flow_id sts = ids /\
    Forall (fun st => flow_at store (fs_flow_id st) (Some st)) sts.
Proof.
  induction ids as [|id ids IH]; intros Hs; [by exists []|].
  destruct IH as (sts & Hl & Hm & Hall); [intros; apply Hs; by right|].
  destruct (Hs id ltac:(left)) as [st Hst]. exists (st :: sts). simpl.
  destruct (flow_load _ _ _ Hst) as (a & -> & _ & Hag & _). simpl. rewrite Hag, Hl.
  pose proof (flow_in_id _ _ _ Hst) as Hid. rewrite Hid, Hm. split_and!; [done..|].
  constructor; [by rewrite Hid|done].
Qed.

Lemma dataset_flow_at store d id :
  flow_store_ok store -> id ∈ dataset_flows d (fss_events (ifs_inner store)) ->
  exists st, flow_at store id (Some st).
Proof.
  intros Hok ([id' k] & Hin & Hd)%list_elem_of_omap. eapply initiated_at; [done|].
  unfold of_dataset in Hd. simpl in Hd. destruct k; [|done]. case_decide; by simplify_eq.
Qed.

Lemma page_elem {A} p (l : list A) x : x ∈ page p l -> x ∈ l.
Proof. unfold page. intros Hx. by apply subseteq_take, subseteq_drop in Hx. Qed.

(** * A concrete system *)

Definition root_id : DatasetID := mkDatasetID (mkDidOdf (mkDidKey [1%Z])).
Definition derived_id : DatasetID := mkDatasetID (mkDidOdf (mkDidKey [2%Z])).
Definition user_id : AccountID := mkAccountID (mkDidOdf (mkDidKey [9%Z])).
Definition ingest_key : FlowKey := FlowKey_Dataset (mkFlowKeyDataset root_id DatasetFlowType_Ingest).
Definition transform_key : FlowKey :=
  FlowKey_Dataset (mkFlowKeyDataset derived_id DatasetFlowType_ExecuteTransform).

(** The clock is read at 100, 101, ...; runs are 10 apart; each read of the
    root dataset finds [records] new records. *)
Definition demo_env (records : Z) : FlowEnvironment := {|
  fe_now n := (100 + Z.of_nat n)%Z;
  fe_duration_round t _ := Ok t;
  fe_cron_after _ _ := None;
  fe_run_config := mkFlowServiceRunConfig 1 10;
  fe_get_increment_since _ _ := Ok (mkDatasetIntervalIncrement 1 records None);
  fe_get_downstream_dependencies _ := Ok [];
  fe_get_dataset_owners _ := Ok [user_id];
  fe_get_owned_datasets _ := Ok [root_id; derived_id];
  fe_is_dataset_owned_by _ _ := Ok true;
  fe_list_enabled_configurations := Ok [];
  fe_post_message _ := Ok tt
|}.

(** The service has started, and a user has asked for an ingest at 50. *)
Definition demo_started : World InMemoryFlowEventStore :=
  (@run_start _ _ (demo_env 5) 40%Z World_new).2.
Definition demo_triggered : World InMemoryFlowEventStore :=
  (@trigger_manual_flow _ _ (demo_env 5) 50%Z ingest_key user_id None demo_started).2.

Lemma demo_reachable : service_reachable World_new demo_triggered.
Proof.
  eapply service_reachable_step; [eapply service_reachable_step; [constructor|]|];
    [apply (step_run_start _ (demo_env 5) 40%Z)|].
  apply (step_trigger_manual demo_started (demo_env 5)).
Qed.

Lemma demo_inv : inv demo_triggered.
Proof.
  eapply (service_reachable_inv World_new); [intros _; apply inv_new|apply demo_reachable|].
  by vm_compute.
Qed.

(** * Properties *)

(** C33.  In every state the service can reach, the registries, the time wheel, the
    flow store and the task scheduler agree: every pending flow has an id that
    was handed out and is stored, if at all, under its key; no flow is pending
    under two keys; every task the service waits for belongs to its flow; the
    index of the flow store agrees with the flows its events replay to; and the
    task queue holds exactly the waiting tasks. *)
Theorem service_state_consistent (w : World InMemoryFlowEventStore) :
  service_reachable World_new w -> not_exhausted w -> inv w.
Proof. intros Hr Hn. exact (service_reachable_inv World_new w (fun _ => inv_new) Hr Hn). Qed.

Lemma service_state_consistent_witness : inv demo_triggered.
Proof. apply (service_state_consistent demo_triggered demo_reachable). by vm_compute. Defined.

(** C34.  Triggering a flow, with any trigger, context and outcome, plans nothing
    before the time of the trigger, nor sooner after the last attempt to run a
    flow with this key than the mandatory throttling period: every other plan in
    the time wheel was there before. *)
Theorem activation_respects_throttling {S} `{FlowEventStore S} (Env : FlowEnvironment)
    k tr ctx c (w : World S) :
  let '(_, w') := trigger_flow_common k tr ctx c w in
  forall f t, planned_at w' f = Some t ->
    planned_at w f = Some t \/
    ((FlowTrigger_trigger_time tr <= t)%Z /\
     forall last, frs_last_attempt_time (run_stats w k) = Some last ->
       (last + frc_mandatory_throttling_period fe_run_config <= t)%Z).
Proof. exact (trigger_plans_bounded k tr ctx c w). Qed.

(** Triggering a key with no pending flow, by hand, succeeds: it makes
    exactly one new flow, which is stored with that trigger, pending under the
    key, and planned at the rounded time of the trigger or at the end of the
    throttling period, whichever is later.  No other flow, plan or registry entry
    changes. *)
Theorem manual_trigger_plans_flow {S} `{LawfulFlowEventStore S} (Env : FlowEnvironment)
    t k user c (w : World S) rounded :
  inv w -> (Z.of_nat (w_ticks w) + 3 < 2 ^ 63)%Z ->
  try_get_pending_flow (w_pending w) k = None ->
  fe_duration_round t (frc_awaiting_step fe_run_config) = Ok rounded ->
  exists st w', trigger_manual_flow t k user c w = (Ok st, w') /\
    new_flow_made k (FlowTrigger_Manual (mkFlowTriggerManual rounded user))
      (Some (throttling_boundary (run_stats w k) rounded)) w st w'.
Proof.
  intros Hi Hn Hp Hr. unfold trigger_manual_flow.
  erewrite bind_ok by (unfold round_time, lift; rewrite Hr; reflexivity).
  destruct (trigger_unconditional_exec k (FlowTrigger_Manual (mkFlowTriggerManual rounded user)) c w
              Hi Hn Hp) as (st & w' & Ht & Hm & _). eauto.
Qed.

Lemma manual_trigger_plans_flow_witness :
  exists st w', @trigger_manual_flow _ _ (demo_env 5) 60 transform_key user_id None demo_triggered = (Ok st, w') /\
    @new_flow_made _ _ _ transform_key (FlowTrigger_Manual (mkFlowTriggerManual 60 user_id))
      (Some (@throttling_boundary (demo_env 5) (run_stats demo_triggered transform_key) 60)) demo_triggered st w'.
Proof.
  apply (manual_trigger_plans_flow (demo_env 5)); [apply demo_inv|by vm_compute..].
Defined.

(** A flow triggered by an input, for a key with no pending flow, starts as
    its transform rule says: not yet when nothing was accumulated; at once when
    enough records came, the deadline has passed or an input was compacted; at
    the deadline otherwise.  The throttling period may shift the start. *)
Theorem batching_rule_decides_start {S} `{LawfulFlowEventStore S} (Env : FlowEnvironment)
    k tr rule acc c (w : World S) :
  inv w -> (Z.of_nat (w_ticks w) + 3 < 2 ^ 63)%Z ->
  try_get_pending_flow (w_pending w) k = None -> may_batch k = true ->
  scan_triggers (mkAccumulated 0 false false) [tr] = Ok acc ->
  let t := FlowTrigger_trigger_time tr in
  exists st w', trigger_flow_common k tr (FlowTriggerContext_Batching rule) c w = (Ok st, w') /\
    new_flow_made k tr (batching_plan rule acc t t (throttling_boundary (run_stats w k) t)) w st w'.
Proof.
  intros Hi Hn Hp Hb Hs t.
  destruct (trigger_batching_exec k tr rule acc c w Hi Hn Hp Hb Hs) as (st & w' & Ht & Hm & _). eauto.
Qed.

Definition demo_hash : Multihash := mkMultihash [] 0 Multicodec_Sha3_256.
Definition demo_input : FlowTrigger :=
  FlowTrigger_InputDatasetFlow (mkFlowTriggerInputDatasetFlow 70 root_id DatasetFlowType_Ingest 0
    (FlowResult_DatasetUpdate (FlowResultDatasetUpdate_Changed
       (mkFlowResultDatasetUpdateChanged None demo_hash)))).
Definition demo_rule : TransformRule := mkTransformRule 10 1000.

(** Five records of ten came: the flow starts at the deadline. *)
Lemma batching_rule_decides_start_witness :
  exists st w', @trigger_flow_common _ _ (demo_env 5) transform_key demo_input
      (FlowTriggerContext_Batching demo_rule) None demo_triggered = (Ok st, w') /\
    @new_flow_made _ _ _ transform_key demo_input (Some 1070%Z) demo_triggered st w'.
Proof.
  assert (Hplan : batching_plan demo_rule (mkAccumulated 5 false false) 70 70
            (@throttling_boundary (demo_env 5) (run_stats demo_triggered transform_key) 70) = Some 1070%Z).
  { by vm_compute. }
  rewrite <- Hplan. apply (batching_rule_decides_start (demo_env 5) transform_key demo_input demo_rule
    (mkAccumulated 5 false false)); [apply demo_inv|by vm_compute..].
Defined.

(** C35.  When the nearest moment of the time wheel has come, one turn of the main
    loop hands every flow that waits for it, and can be scheduled, to the task
    system: a task with the flow's plan is queued for the executor, the flow
    waits for that task, and the service knows to which flow it belongs.
    Failures on other flows of the same moment do not prevent it. *)
Theorem due_flows_get_tasks {S} `{LawfulFlowEventStore S} (Env : FlowEnvironment)
    n (w : World S) f plan :
  inv w -> nearest_activation_moment (w_wheel w) = Some n -> (n <= fe_now (w_ticks w))%Z ->
  (Z.of_nat (w_ticks w + 1 + length (take_nearest_planned_flows (w_wheel w)).1) < 2 ^ 63)%Z ->
  wheel_waiting (w_wheel w) !! f = Some n -> ready f plan w ->
  exists tid, handed_over f plan tid (run_iteration w).2.
Proof. exact (run_iteration_exec n w f plan). Qed.

Definition demo_state : FlowState :=
  mkFlowState 0 ingest_key [FlowTrigger_Manual (mkFlowTriggerManual 50 user_id)] None
    (mkFlowTimingRecords None None None) [] None None.

Lemma demo_stored : flow_at (w_store demo_triggered) 0 (Some demo_state).
Proof. vm_compute. reflexivity. Qed.

Lemma due_flows_get_tasks_witness :
  exists tid, handed_over 0 (LogicalPlan_UpdateDataset (mkUpdateDataset root_id false)) tid
    (@run_iteration _ _ (demo_env 5) demo_triggered).2.
Proof.
  apply (due_flows_get_tasks (demo_env 5) 50); [apply demo_inv|by vm_compute..|].
  exists demo_state. split; [apply demo_stored|]. by vm_compute.
Defined.


(** A root dataset with an ingest schedule, whose first flow is being run. *)
Definition demo_schedule : Schedule := Schedule_TimeDelta (mkScheduleTimeDelta 500).
Definition demo_configured : World InMemoryFlowEventStore :=
  (@consume_configuration_updated _ _ (demo_env 5)
     (mkFlowConfigurationUpdatedMessage 50 ingest_key false
        (FlowConfigurationRule_IngestRule (mkIngestRule false demo_schedule))) demo_started).2.
Definition demo_scheduled : World InMemoryFlowEventStore :=
  (@run_iteration _ _ (demo_env 5) demo_configured).2.
Definition demo_running : World InMemoryFlowEventStore :=
  (@consume_task_progress _ _ (demo_env 5)
     (TaskProgressMessage_Running (mkTaskProgressMessageRunning 110 0)) demo_scheduled).2.

Lemma demo_running_reachable : service_reachable World_new demo_running.
Proof.
  do 4 (eapply service_reachable_step;
        [|first [apply (step_task_progress demo_scheduled (demo_env 5))
                |apply (step_run_iteration demo_configured (demo_env 5))
                |apply (step_configuration demo_started (demo_env 5))
                |apply (step_run_start World_new (demo_env 5) 40)]]).
  constructor.
Qed.

Lemma demo_running_inv : inv demo_running.
Proof.
  eapply (service_reachable_inv World_new); [intros _; apply inv_new|apply demo_running_reachable|].
  by vm_compute.
Qed.

Definition demo_running_state : FlowState :=
  mkFlowState 0 ingest_key [FlowTrigger_AutoPolling (mkFlowTriggerAutoPolling 50)] None
    (mkFlowTimingRecords (Some 50%Z) (Some 110%Z) None) [0%Z] None
    (Some (FlowConfigurationSnapshot_Ingest (mkIngestRule false demo_schedule))).

Lemma demo_running_stored : flow_at (w_store demo_running) 0 (Some demo_running_state).
Proof. vm_compute. reflexivity. Qed.

Definition demo_success : TaskProgressMessageFinished :=
  mkTaskProgressMessageFinished 130 0 (TaskOutcome_Success TaskResult_Empty).


(** Pausing a configuration whose flow still waits for its moment succeeds:
    the configuration is no longer active, the flow is aborted, and it leaves the
    time wheel and the registry; other flows stay pending. *)
Theorem pause_aborts_waiting_flow {S} `{LawfulFlowEventStore S} (Env : FlowEnvironment)
    m id st t (w : World S) :
  inv w -> not_exhausted (tick w) -> fcu_paused m = true -> fsv_running (w_state w) = true ->
  try_get_pending_flow (w_pending w) (fcu_flow_key m) = Some id ->
  planned_at w id = Some t -> fl_at (w_store w) id (Some st) -> fs_outcome st = None ->
  fs_task_ids st = [] ->
  exists st' w', consume_configuration_updated m w = (Ok tt, w') /\
    fl_at (w_store w') id (Some st') /\ fs_outcome st' = Some FlowOutcome_Aborted /\
    planned_at w' id = None /\
    (forall k, try_get_pending_flow (w_pending w') k =
       if decide (fcu_flow_key m = k) then None else try_get_pending_flow (w_pending w) k) /\
    w_configs w' = drop_flow_config (w_configs w) (fcu_flow_key m).
Proof. exact (pause_exec m id st t w). Qed.

Definition demo_pause (k : FlowKey) : FlowConfigurationUpdatedMessage :=
  mkFlowConfigurationUpdatedMessage 80 k true
    (FlowConfigurationRule_IngestRule (mkIngestRule false demo_schedule)).

Lemma pause_aborts_waiting_flow_witness :
  exists st' w', @consume_configuration_updated _ _ (demo_env 5) (demo_pause ingest_key) demo_triggered = (Ok tt, w') /\
    fl_at (w_store w') 0 (Some st') /\ fs_outcome st' = Some FlowOutcome_Aborted /\
    planned_at w' 0 = None /\
    (forall k, try_get_pending_flow (w_pending w') k =
       if decide (ingest_key = k) then None else try_get_pending_flow (w_pending demo_triggered) k) /\
    w_configs w' = drop_flow_config (w_configs demo_triggered) ingest_key.
Proof.
  apply (pause_aborts_waiting_flow (demo_env 5) (demo_pause ingest_key) 0 demo_state 50 demo_triggered);
    [apply demo_inv|by vm_compute|by vm_compute|by vm_compute|by vm_compute|by vm_compute|
     apply demo_stored|done|done].
Defined.

(** A flow that a user cancelled stays pending under its key, although it has
    ended: afterwards every new trigger for that key, by hand, by schedule or by
    an input, is refused with an internal error. *)
Theorem cancelled_flow_blocks_its_key {S} `{LawfulFlowEventStore S} (Env : FlowEnvironment)
    k id st (w w' : World S) tr ctx c :
  inv w -> not_exhausted w' -> try_get_pending_flow (w_pending w) k = Some id ->
  cancel_scheduled_tasks id w = (Ok st, w') ->
  FlowTrigger_is_unique_vs tr (fs_triggers st) = true ->
  is_Some (fs_outcome st) /\ try_get_pending_flow (w_pending w') k = Some id /\
  (trigger_flow_common k tr ctx c w').1 = Err mkInternalError.
Proof.
  intros Hi Hn Hp Hc Hu. destruct (cancel_exec id w st w' Hi Hn Hc) as (Ho & Hat & Hpend & _).
  pose proof (cancel_scheduled_tasks_keeps id w (fun _ => Hi)) as Hi'. rewrite Hc in Hi'.
  rewrite Hpend. split_and!; [done..|].
  rewrite (trigger_ended_pending k id st tr ctx c w' (Hi' Hn)); try done. by rewrite Hpend.
Qed.

Definition demo_cancelled : World InMemoryFlowEventStore :=
  (@cancel_scheduled_tasks _ _ (demo_env 5) 0%Z demo_triggered).2.
Definition demo_cancelled_state : FlowState :=
  with_outcome demo_state None (mkFlowTimingRecords None None (Some 101%Z)) FlowOutcome_Aborted.

Lemma cancelled_flow_blocks_its_key_witness :
  is_Some (fs_outcome demo_cancelled_state) /\
  try_get_pending_flow (w_pending demo_cancelled) ingest_key = Some 0%Z /\
  (@trigger_flow_common _ _ (demo_env 5) ingest_key
     (FlowTrigger_Manual (mkFlowTriggerManual 200 user_id)) FlowTriggerContext_Unconditional None
     demo_cancelled).1 = Err mkInternalError.
Proof.
  apply (cancelled_flow_blocks_its_key (demo_env 5) ingest_key 0 demo_cancelled_state demo_triggered);
    [apply demo_inv|by vm_compute|by vm_compute| |by vm_compute].
  apply injective_projections; [by vm_compute|reflexivity].
Defined.

(** A flow that waits for inputs, none of which has brought anything yet, is
    pending but not planned.  Triggering it by hand panics; pausing its
    configuration fails half-way: the configuration and the registry entry are
    dropped, but the flow is not aborted. *)
Theorem unplanned_flow_is_not_handled {S} `{LawfulFlowEventStore S} (Env : FlowEnvironment)
    k id st (w : World S) tr c m :
  inv w -> fsv_running (w_state w) = true -> try_get_pending_flow (w_pending w) k = Some id ->
  fl_at (w_store w) id (Some st) -> fs_outcome st = None -> planned_at w id = None ->
  fcu_paused m = true -> fcu_flow_key m = k ->
  (trigger_flow_common k tr FlowTriggerContext_Unconditional c w).1 = Panic /\
  exists w', consume_configuration_updated m w = (Err mkInternalError, w') /\
    fl_at (w_store w') id (Some st) /\ try_get_pending_flow (w_pending w') k = None.
Proof.
  intros Hi Hrun Hp Hst Ho Hpl Hpa <-. split; [by eapply trigger_unplanned|].
  destruct (pause_unplanned m id w Hpa Hrun Hp Hpl) as (w' & Hc & Hs & Hn & _).
  exists w'. by rewrite Hs.
Qed.

(** The inputs brought no records. *)
Definition demo_unplanned : World InMemoryFlowEventStore :=
  (@trigger_flow_common _ _ (demo_env 0) transform_key demo_input
     (FlowTriggerContext_Batching demo_rule) None demo_started).2.
Definition demo_unplanned_state : FlowState :=
  mkFlowState 0 transform_key [demo_input]
    (Some (FlowStartCondition_Batching (mkFlowStartConditionBatching demo_rule 1070)))
    (mkFlowTimingRecords None None None) [] None None.

Lemma unplanned_flow_is_not_handled_witness :
  (@trigger_flow_common _ _ (demo_env 0) transform_key
     (FlowTrigger_Manual (mkFlowTriggerManual 80 user_id)) FlowTriggerContext_Unconditional None
     demo_unplanned).1 = Panic /\
  exists w', @consume_configuration_updated _ _ (demo_env 0) (demo_pause transform_key) demo_unplanned =
      (Err mkInternalError, w') /\
    fl_at (w_store w') 0 (Some demo_unplanned_state) /\
    try_get_pending_flow (w_pending w') transform_key = None.
Proof.
  apply (unplanned_flow_is_not_handled (demo_env 0) transform_key 0 demo_unplanned_state demo_unplanned);
    [|by vm_compute|by vm_compute|by vm_compute|by vm_compute|by vm_compute|done|done].
  assert (Hi : inv demo_started).
  { eapply (service_reachable_inv World_new); [intros _; apply inv_new| |by vm_compute].
    eapply service_reachable_step; [constructor|apply (step_run_start _ (demo_env 5) 40%Z)]. }
  refine (spec_keeps _ _ (@spec_trigger_common _ _ _ (demo_env 0) transform_key demo_input
    (FlowTriggerContext_Batching demo_rule) None) _ demo_started (fun _ => Hi) _); [done|by vm_compute].
Defined.

(** Listing the flows of a dataset is exact in every reachable state: the page
    has the flows that pass the filters, newest first and in their current
    state, and the total counts all of them. *)
Theorem flow_listing_is_exact (w : World InMemoryFlowEventStore) d filters p :
  service_reachable World_new w -> not_exhausted w ->
  let started := dataset_flows d (fss_events (ifs_inner (w_store w))) in
  exists sel sts,
    (forall id st, flow_at (w_store w) id (Some st) -> sel id = true <-> dataset_filter filters st) /\
    list_all_flows_by_dataset d filters p (w_store w) =
      mkFlowStateListing (sts, Ok tt) (length (List.filter sel started)) /\
    map fs_flow_id sts = page p (List.filter sel (rev started)) /\
    Forall (fun st => flow_at (w_store w) (fs_flow_id st) (Some st)) sts.
Proof.
  intros Hr Hn started.
  pose proof (sv_store _ (service_reachable_inv World_new w (fun _ => inv_new) Hr Hn)) as Hok.
  exists (matches_dataset_flow (ifs_inner (w_store w)) filters).
  destruct (dataset_listing (w_store w) d filters p Hok) as [Hids Hcount].
  destruct (load_listed_flows_ok (w_store w) (get_all_flow_ids_by_dataset (w_store w) d filters p))
    as (sts & Hl & Hm & Hall).
  { intros id Hid. rewrite Hids in Hid. apply page_elem in Hid.
    apply (dataset_flow_at (w_store w) d); [done|]. fold started in Hid |- *.
    rewrite list_elem_of_In, filter_In, <- in_rev in Hid. apply list_elem_of_In, (proj1 Hid). }
  exists sts. split; [intros id st Hst; by apply matches_dataset_spec|].
  unfold list_all_flows_by_dataset. cbn [fes_get_all_flow_ids_by_dataset fes_get_count_flows_by_dataset
    inmem_flow_event_store]. rewrite Hl, Hcount. split; [done|]. by rewrite Hm, Hids.
Qed.

Lemma flow_listing_is_exact_witness :
  let started := dataset_flows root_id (fss_events (ifs_inner (w_store demo_triggered))) in
  exists sel sts,
    (forall id st, flow_at (w_store demo_triggered) id (Some st) ->
       sel id = true <-> dataset_filter (mkDatasetFlowFilters None None None) st) /\
    list_all_flows_by_dataset root_id (mkDatasetFlowFilters None None None)
      (mkFlowPaginationOpts 0 10) (w_store demo_triggered) =
      mkFlowStateListing (sts, Ok tt) (length (List.filter sel started)) /\
    map fs_flow_id sts = page (mkFlowPaginationOpts 0 10) (List.filter sel (rev started)) /\
    Forall (fun st => flow_at (w_store demo_triggered) (fs_flow_id st) (Some st)) sts.
Proof. apply (flow_listing_is_exact demo_triggered); [apply demo_reachable|by vm_compute]. Defined.

(** The loop that collects the flows of several datasets, with its counters
    and its early exit, computes the page of the selected flows, newest first; it
    does not panic. *)
Theorem datasets_listing_loop_is_page (store : InMemoryFlowEventStore) ids filters p :
  flow_store_ok store ->
  get_all_flow_ids_by_datasets store ids filters p =
  Ok (page p (List.filter (in_datasets (ifs_inner store) ids filters)
                (rev (map fst (initiated (fss_events (ifs_inner store))))))).
Proof. exact (by_datasets_listing store ids filters p). Qed.

Lemma datasets_listing_loop_is_page_witness :
  get_all_flow_ids_by_datasets (w_store demo_triggered) {[root_id]} (mkDatasetFlowFilters None None None)
    (mkFlowPaginationOpts 0 5) =
  Ok (page (mkFlowPaginationOpts 0 5)
        (List.filter (in_datasets (ifs_inner (w_store demo_triggered)) {[root_id]}
                        (mkDatasetFlowFilters None None None))
           (rev (map fst (initiated (fss_events (ifs_inner (w_store demo_triggered)))))))).
Proof. apply datasets_listing_loop_is_page. apply (sv_store _ demo_inv). Defined.

(** The run statistics kept by the store are those of its events: the time of
    the last finished run of the flows with a key, and of the last successful one. *)
Theorem run_statistics_are_current (w : World InMemoryFlowEventStore) k :
  service_reachable World_new w -> not_exhausted w ->
  run_stats w k = last_run_stats (runs (fss_events (ifs_inner (w_store w))) k).
Proof.
  intros Hr Hn.
  pose proof (sv_store _ (service_reachable_inv World_new w (fun _ => inv_new) Hr Hn)) as Hok.
  pose proof (fso_index _ Hok) as Hag. destruct k as [[d t]|[t]].
  - exact (ia_dataset_stats _ _ Hag (mkFlowKeyDataset d t)).
  - exact (ia_system_stats _ _ Hag t).
Qed.

Lemma run_statistics_are_current_witness :
  run_stats demo_running ingest_key =
  last_run_stats (runs (fss_events (ifs_inner (w_store demo_running))) ingest_key).
Proof. apply run_statistics_are_current; [apply demo_running_reachable|by vm_compute]. Defined.
