(* ===== verification/PlatformProperties.v ===== *)
(** Properties of the services around datasets: flow configurations and the
    messaging outbox. *)

From S2P Require Import Prelude Multiformats Identity Dtos EventSourcing TaskSystem FlowSystem Outbox OutboxLaws OutboxRelay Messages FlowConfig.

(** * Flow configurations *)

(** The configuration service refines a map from flow keys to configurations:
    whatever requests to set, pause and resume configurations and news of deleted
    datasets it gets, it serves each of them, afterwards the stored events of every
    key replay to the configuration the map has, and exactly the changes of present
    configurations were announced, in their order. *)
Theorem config_service_refines clock outbox_post rs w :
  (forall m, outbox_post m = Ok tt) -> config_store_ok (cw_store w) ->
  exists w', for_each (serve clock outbox_post) rs w = (Ok tt, w') /\
    config_store_ok (cw_store w') /\
    (forall k, configs w' k = after_requests rs (configs w) k) /\
    cw_posted w' = cw_posted w ++ announced_all rs (configs w).
Proof. intros Hp Hok. exact (serve_all_served clock outbox_post Hp rs w Hok). Qed.

Definition config_key : FlowKey := FlowKey_System (mkFlowKeySystem SystemFlowType_GC).
Definition config_rule : FlowConfigurationRule := FlowConfigurationRule_ResetRule
  (mkResetRule None None false).

Definition config_requests : list ConfigRequest :=
  [ ConfigRequest_Set 1 config_key false config_rule; ConfigRequest_PauseSystem 2 None;
    ConfigRequest_Resume 3 config_key ].

Lemma config_service_refines_witness :
  exists w', for_each (serve Z.of_nat (fun _ => Ok tt)) config_requests ConfigWorld_new = (Ok tt, w') /\
    config_store_ok (cw_store w') /\
    (forall k, configs w' k = after_requests config_requests (configs ConfigWorld_new) k) /\
    cw_posted w' = cw_posted ConfigWorld_new ++ announced_all config_requests (configs ConfigWorld_new).
Proof. apply config_service_refines; [done|apply config_store_ok_new]. Defined.

(** The enabled configurations the service lists, from which the flow service
    starts, are exactly the active ones. *)
Theorem enabled_configurations_exact w :
  config_store_ok (cw_store w) ->
  exists l, list_enabled_configurations w = (Ok l, w) /\
    forall s, s ∈ l <-> configs w (fcs_flow_key s) = Some s /\ FlowConfigurationState_is_active s = true.
Proof. exact (list_enabled_exact w). Qed.

Definition config_world : ConfigWorld :=
  (for_each (serve Z.of_nat (fun _ => Ok tt)) config_requests ConfigWorld_new).2.

Lemma config_world_ok : config_store_ok (cw_store config_world).
Proof.
  destruct (serve_all_served Z.of_nat (fun _ => Ok tt) (fun _ => eq_refl) config_requests ConfigWorld_new
              config_store_ok_new) as (w' & Hw' & Hok & _).
  unfold config_world. by rewrite Hw'.
Qed.

Lemma enabled_configurations_exact_witness :
  exists l, list_enabled_configurations config_world = (Ok l, config_world) /\
    forall s, s ∈ l <-> configs config_world (fcs_flow_key s) = Some s /\
      FlowConfigurationState_is_active s = true.
Proof. apply enabled_configurations_exact, config_world_ok. Defined.

(** * The outbox *)

(** The durable routes of the application. *)
Definition kamu_routes : list (string * string) :=
  List.flat_map (fun meta => map (fun p => (mcm_consumer_name meta, p)) (mcm_feeding_producers meta))
    [flow_configuration_meta; flow_service_meta; rebac_meta].

Definition kamu_route (c p : string) : Prop := (c, p) ∈ kamu_routes.

(** The keys of these routes in the in-memory repository differ. *)
Lemma kamu_keys_differ c p c' p' :
  kamu_route c p -> kamu_route c' p' -> make_key c p = make_key c' p' -> c = c' /\ p = p'.
Proof.
  assert (Hall : forallb (fun x => forallb (fun y =>
            negb (bool_decide (make_key x.1 x.2 = make_key y.1 y.2)) || bool_decide (x = y))
            kamu_routes) kamu_routes = true) by (by vm_compute).
  intros H1%list_elem_of_In H2%list_elem_of_In Hk. rewrite forallb_forall in Hall.
  specialize (Hall _ H1). rewrite forallb_forall in Hall. specialize (Hall _ H2). simpl in Hall.
  rewrite bool_decide_eq_true_2 in Hall by done. apply bool_decide_eq_true in Hall. naive_solver.
Qed.


(** C40.  Nothing is held back for ever: when no consumer fails, the relay succeeds,
    and after [n] iterations every durable consumer of a producer has consumed at
    least the first [n] batches of its messages. *)
Theorem relay_catches_up {Json MType Msg C R B} `{OutboxMessageRepository Json R}
    `{OutboxMessageConsumptionRepository B} `{!OutboxEnvironment Json MType Msg C}
    `{!LawfulMessageRepository Json R} {valid} `{!LawfulConsumptionRepository B valid}
    (proc : OutboxTransactionalProcessor MType) n (w w' : OutboxWorld C R B) x :
  (forall job, job ∈ producer_relay_jobs proc -> consumers_valid (valid := valid) job) ->
  (0 < oc_batch_size (otp_config proc))%Z ->
  relay_works (Json := Json) (R := R) (valid := valid) proc ->
  relay_ok (Json := Json) (valid := valid) w -> all_bounded (valid := valid) proc w ->
  relay_iterations (Json := Json) proc n w = (x, w') -> ids_left w' ->
  x = Ok tt /\
  forall job c, job ∈ producer_relay_jobs proc -> c ∈ prj_consumer_names job ->
    Nat.min (n * Z.to_nat (oc_batch_size (otp_config proc)))
      (length (sent (Json := Json) w (prj_producer_name job))) <=
    length (consumed w' c (prj_producer_name job)).
Proof.
  intros Hr Hb Hw Hok Hbd Hi Hids.
  destruct (iterations_progress proc Hr Hb Hw n w x w' (fun p => length (sent w p)) 0 Hok Hbd Hi Hids)
    as (Hx & _ & _ & Hall); [done|simpl; lia|]. split; [done|]. exact Hall.
Qed.

(** ** The outbox of the application *)

(** The consumers note what they get; messages are numbers. *)
Definition noting (meta : MessageConsumerMeta)
    : ConsumerBuilder nat KamuMessageType nat (list (string * nat)) :=
  mkConsumerBuilder [meta] (fun _ => Some (fun m cs => (Ok tt, cs ++ [(mcm_consumer_name meta, m)], []))).

#[local] Instance kamu_outbox : OutboxEnvironment nat KamuMessageType nat (list (string * nat)) := {|
  oe_catalog := map noting [dataset_ownership_meta; dependency_graph_meta; flow_configuration_meta;
                            flow_service_meta; rebac_meta];
  oe_parse _ json := Some json;
  oe_has_transactions := false;
  oe_rollback_components _ c := c
|}.

#[local] Instance kamu_boundaries
  : LawfulConsumptionRepository InMemoryOutboxMessageConsumptionRepository kamu_route :=
  inmem_boundaries_lawful kamu_route kamu_keys_differ.

Definition kamu_processor : OutboxTransactionalProcessor KamuMessageType :=
  match OutboxTransactionalProcessor_new (mkOutboxConfig 1 2) kamu_dispatchers with
  | Ok p => p
  | _ => mkOutboxTransactionalProcessor (mkOutboxConfig 1 2) ∅ ∅
  end.

Lemma kamu_jobs_routes job :
  job ∈ producer_relay_jobs kamu_processor -> consumers_valid (valid := kamu_route) job.
Proof.
  assert (Hall : forallb (fun job => forallb (fun c => bool_decide ((c, prj_producer_name job) ∈ kamu_routes))
            (prj_consumer_names job)) (producer_relay_jobs kamu_processor) = true) by (by vm_compute).
  intros Hj c Hc. rewrite forallb_forall in Hall. apply list_elem_of_In, Hall in Hj.
  rewrite forallb_forall in Hj. apply list_elem_of_In, Hj, bool_decide_eq_true in Hc. exact Hc.
Qed.

Abbreviation KamuWorld := (OutboxWorld (list (string * nat)) (InMemoryOutboxMessageRepository nat)
  InMemoryOutboxMessageConsumptionRepository).

Definition kamu_empty : KamuWorld :=
  mkOutboxWorld InMemoryOutboxMessageRepository_new InMemoryOutboxMessageConsumptionRepository_new [] [] 0.

Lemma kamu_empty_ok : relay_ok (valid := kamu_route) kamu_empty.
Proof. split; [apply messages_ok_new|apply boundaries_ok_new|done|done]. Qed.

(** Three messages of the dataset service are posted, and the processor starts. *)
Definition kamu_post (n : nat) (w : KamuWorld) : KamuWorld :=
  (transactional_post (Z.of_nat n) MESSAGE_PRODUCER_KAMU_CORE_DATASET_SERVICE n w).2.
Definition kamu_posted : KamuWorld := kamu_post 3 (kamu_post 2 (kamu_post 1 kamu_empty)).
Definition kamu_started : KamuWorld := (init_consumption_records kamu_processor kamu_posted).2.

Lemma kamu_started_reachable :
  relay_reachable kamu_processor (mkRelayState kamu_empty []) (mkRelayState kamu_started []).
Proof.
  assert (Hpost : forall n w, relay_step kamu_processor (mkRelayState w []) (mkRelayState (kamu_post n w) [])).
  { intros n w. eapply relay_post. apply surjective_pairing. }
  eapply relay_reachable_step; [|eapply relay_init; apply surjective_pairing].
  eapply relay_reachable_step; [|apply Hpost]. eapply relay_reachable_step; [|apply Hpost].
  eapply relay_reachable_step; [|apply Hpost]. constructor.
Qed.

Lemma kamu_started_ok : relay_ok (valid := kamu_route) kamu_started.
Proof.
  apply (rso_world _ (relay_reachable_ok kamu_processor kamu_jobs_routes eq_refl
           (mkRelayState kamu_empty []) (mkRelayState kamu_started [])
           (idle_state_ok _ kamu_empty_ok) kamu_started_reachable eq_refl)).
Qed.

(** An iteration starts, its only job loads a batch, and the flow service is the
    first to consume a message. *)
Definition kamu_latest : gmap string OutboxMessageID :=
  foldl (fun m '(producer_name, id) => <[producer_name := id]> m) ∅
    (map_to_list (ms_latest_message_id_by_producer (imr_state (ow_messages kamu_started)))).
Definition kamu_bounds : gmap string (gmap string OutboxMessageID) :=
  organize_boundaries (map snd (map_to_list (icr_consumption_boundaries (ow_boundaries kamu_started)))).
Definition kamu_tasks := prepare_tasks kamu_latest kamu_bounds (producer_relay_jobs kamu_processor).

Definition kamu_message (n : nat) : OutboxMessage nat :=
  mkOutboxMessage (Z.of_nat n) MESSAGE_PRODUCER_KAMU_CORE_DATASET_SERVICE n (Z.of_nat n).

Definition kamu_consumed : KamuWorld :=
  (invoke_consumer kamu_processor MESSAGE_CONSUMER_KAMU_FLOW_SERVICE (kamu_message 1) kamu_started).2.

Definition kamu_ready : bool :=
  match kamu_tasks with
  | [(job, latest, b)] =>
      bool_decide (determine_processed_boundary_id None (prj_consumer_names job) b = Some 0%Z) &&
      bool_decide (0 < latest)%Z &&
      bool_decide (prj_producer_name job = MESSAGE_PRODUCER_KAMU_CORE_DATASET_SERVICE) &&
      bool_decide (MESSAGE_CONSUMER_KAMU_FLOW_SERVICE ∈ consumer_tasks job b (kamu_message 1))
  | _ => false
  end.

Lemma kamu_invoked :
  invoke_consumer kamu_processor MESSAGE_CONSUMER_KAMU_FLOW_SERVICE (kamu_message 1) kamu_started =
  (Ok tt, kamu_consumed).
Proof.
  apply injective_projections; [by vm_compute|done].
Qed.

Lemma kamu_loaded job :
  prj_producer_name job = MESSAGE_PRODUCER_KAMU_CORE_DATASET_SERVICE ->
  load_messages_above job 0%Z 2 kamu_started = (Ok [kamu_message 1; kamu_message 2], kamu_started).
Proof.
  intros Hp. unfold load_messages_above, transactional. rewrite Hp.
  assert (omr_get_producer_messages (ow_messages kamu_started) MESSAGE_PRODUCER_KAMU_CORE_DATASET_SERVICE 0%Z 2
          = Ok [kamu_message 1; kamu_message 2]) as -> by (by vm_compute). done.
Qed.

Lemma kamu_consumed_reachable :
  exists jobs, relay_reachable kamu_processor (mkRelayState kamu_empty []) (mkRelayState kamu_consumed jobs).
Proof.
  assert (Hr : kamu_ready = true) by (by vm_compute). unfold kamu_ready in Hr.
  destruct kamu_tasks as [|[[job latest] b] [|]] eqn:Ht; [done| |done].
  rewrite !andb_true_iff, !bool_decide_eq_true in Hr. destruct Hr as [[[Hd Hl] Hp] Hc].
  assert (Hn : usize_of_i64 (E := InternalError) (oc_batch_size (otp_config kamu_processor)) = Ok 2)
    by (by vm_compute).
  eexists. eapply relay_reachable_step.
  { eapply relay_reachable_step.
    { eapply relay_reachable_step; [apply kamu_started_reachable|].
      exact (relay_begin kamu_processor kamu_latest kamu_bounds kamu_started kamu_started kamu_started
               eq_refl eq_refl). }
    fold kamu_tasks. rewrite Ht.
    exact (relay_load kamu_processor job latest b 0%Z 2 _ _ _ [] [] Hd Hl Hn (kamu_loaded job Hp)). }
  exact (relay_invoke kamu_processor job (kamu_message 1) _ _ _ _ _ [] [] Hc kamu_invoked).
Qed.


(** The consumers of the catalog never fail. *)
Lemma for_each_noting (message : nat) consumers (w : KamuWorld) :
  Forall (fun consume => forall m cs, exists cs', consume m cs = (Ok tt, cs', [])) consumers ->
  (for_each (fun consume => run_consumer (Json := nat) consume message) consumers w).1 = Ok tt.
Proof.
  intros Hall. revert w. induction Hall as [|consume l Hc _ IH]; intros w; [done|]. simpl.
  unfold mbind, action_bind, run_consumer. destruct (Hc message (ow_components w)) as [cs' ->]. simpl. apply IH.
Qed.

Lemma noting_consumers ty c :
  Forall (fun consume => forall m cs, exists cs', consume m cs = (Ok tt, cs', [])) (particular_consumers_for ty c).
Proof.
  apply Forall_forall. intros consume Hin. unfold particular_consumers_for in Hin.
  apply list_elem_of_omap in Hin as (b & Hb & Hbuild).
  simpl in Hb. set_unfold in Hb. destruct_or!; subst; case_match; simplify_eq/=; intros; by eexists.
Qed.

Lemma kamu_works : relay_works (Json := nat) (R := InMemoryOutboxMessageRepository nat)
  (B := InMemoryOutboxMessageConsumptionRepository) (valid := kamu_route) kamu_processor.
Proof.
  split.
  - intros r. by eexists.
  - intros r p b n. by eexists.
  - intros bs. by eexists.
  - intros bs c p id Hok Hv [b Hb]. simpl. unfold inmem_update_consumption_boundary. simpl in *.
    unfold inmem_boundary in Hb. by destruct (icr_consumption_boundaries bs !! make_key c p).
  - intros job c json w Hj.
    assert (Hd : forall job, job ∈ producer_relay_jobs kamu_processor ->
              is_Some (otp_dispatchers kamu_processor !! prj_producer_name job)).
    { intros job0 Hj0. assert (Hall : forallb (fun job => bool_decide (is_Some
          (otp_dispatchers kamu_processor !! prj_producer_name job))) (producer_relay_jobs kamu_processor) = true)
        by (by vm_compute). rewrite forallb_forall in Hall. apply list_elem_of_In, Hall in Hj0.
      by apply bool_decide_eq_true in Hj0. }
    destruct (Hd job Hj) as [d Hd']. exists d. split; [done|].
    unfold dispatch_message, consume_deserialized_message. simpl.
    unfold mbind, action_bind, lift. simpl. apply for_each_noting, noting_consumers.
  - intros job Hj. assert (Hall : forallb (fun job => bool_decide (NoDup (prj_consumer_names job)))
      (producer_relay_jobs kamu_processor) = true) by (by vm_compute).
    rewrite forallb_forall in Hall. apply list_elem_of_In, Hall in Hj. by apply bool_decide_eq_true in Hj.
Qed.

Lemma kamu_started_bounded : all_bounded (valid := kamu_route) kamu_processor kamu_started.
Proof.
  assert (Hall : forallb (fun job => forallb (fun c => bool_decide (is_Some
            (boundary (valid := kamu_route) kamu_started c (prj_producer_name job))))
            (prj_consumer_names job)) (producer_relay_jobs kamu_processor) = true) by (by vm_compute).
  intros job Hj c Hc. rewrite forallb_forall in Hall. apply list_elem_of_In, Hall in Hj.
  rewrite forallb_forall in Hj. apply list_elem_of_In, Hj, bool_decide_eq_true in Hc. exact Hc.
Qed.

Lemma relay_catches_up_witness :
  (relay_iterations (Json := nat) kamu_processor 2 kamu_started).1 = Ok tt /\
  forall job c, job ∈ producer_relay_jobs kamu_processor -> c ∈ prj_consumer_names job ->
    Nat.min 4 (length (sent (Json := nat) kamu_started (prj_producer_name job))) <=
    length (consumed (relay_iterations (Json := nat) kamu_processor 2 kamu_started).2 c (prj_producer_name job)).
Proof.
  exact (relay_catches_up kamu_processor 2 kamu_started _ _ kamu_jobs_routes eq_refl kamu_works
           kamu_started_ok kamu_started_bounded (surjective_pairing _) eq_refl).
Defined.
