(* ===== verification/IdentityProperties.v ===== *)
(** Properties of the text forms of identities: names, identifiers, references and
    patterns. *)

From S2P Require Import Prelude Multiformats Grammar Dids Identity References ReferenceFacts TextCodecsExample.
From Stdlib Require Import Ascii String.

Local Open Scope char_scope.

(** C37.  The parsers of names and of name patterns accept exactly the language of the
    grammar, [Subdomain ("." Subdomain)*] and [StartElement? ("%"+ MiddleElement)*
    "%"+ EndElement?], although they take as much as they can and never go back;
    what they accept is kept as it is written. *)
Theorem name_parsers_match_grammar s :
  (forall n, DatasetName_from_str s = Ok n <-> hostname s /\ text (dn_str n) = s) /\
  (forall p, DatasetNamePattern_from_str s = Ok p <->
     (hostname_pattern s \/ hostname s) /\ text (dnp_str p) = s).
Proof. split; intros; [apply dataset_name_parse|apply name_pattern_parse]. Qed.

(** Text is parsed as an alias, a remote alias or an alias pattern exactly if it
    is that value as printed and every name in it is one. *)
Theorem alias_parsers_invert_printers s :
  (forall a, DatasetAlias_from_str s = Ok a <-> s = DatasetAlias_fmt a /\ alias_ok a) /\
  (forall a, DatasetAliasRemote_from_str s = Ok a <-> s = DatasetAliasRemote_fmt a /\ remote_alias_ok a) /\
  (forall p, DatasetAliasPattern_from_str s = Ok p <-> s = alias_pattern_fmt p /\ alias_pattern_ok p).
Proof. split_and!; intros; [apply alias_parse|apply remote_alias_parse|apply alias_pattern_parse]. Qed.

(** C38.  Printing a reference never panics, and whoever parses the text and knows which
    names are repositories finds the same local or remote dataset: identifiers,
    names and URLs come back as they were and a handle as its alias. *)
Theorem references_roundtrip `{LawfulTextCodecs} {Url} `{LawfulUrlCrate Url}
    (is_repo : RepoName -> bool) (r : DatasetRefAny Url) :
  any_ref_ok r -> knows is_repo r ->
  exists s r', DatasetRefAny_fmt r = Ok s /\ DatasetRefAny_from_str s = Ok r' /\
    DatasetRefAny_into_local_ref is_repo r' =
      map_err reread_remote (map_ok reread (DatasetRefAny_into_local_ref is_repo r)).
Proof.
  intros Hr Hk. destruct (any_ref_text_inverse r Hr) as (s & Hf & Hp).
  exists s, (reread_any r). split_and!; [done|done|]. by apply reread_local.
Qed.

Definition example_ref : DatasetRefAny str :=
  DatasetRefAny_LocalAlias (Some (mkAccountName "kamu")) (mkDatasetName "net.example-1").

Lemma example_host s : match match_hostname (text s) with Some (h, []) => true | _ => false end = true ->
  name_ok s.
Proof.
  destruct (match_hostname (text s)) as [[h [|]]|] eqn:Hm; [|done..]. by apply match_hostname_all in Hm as [_ ?].
Qed.

Lemma references_roundtrip_witness :
  exists s r', DatasetRefAny_fmt example_ref = Ok s /\ DatasetRefAny_from_str s = Ok r' /\
    DatasetRefAny_into_local_ref (fun _ => false) r' =
      Ok (DatasetRef_Alias (mkDatasetAlias (Some (mkAccountName "kamu")) (mkDatasetName "net.example-1"))).
Proof.
  apply (references_roundtrip (fun _ => false) example_ref); [|done].
  split; apply example_host; reflexivity.
Defined.

(** Local and remote references as well come back from their text. *)
Theorem local_and_remote_references_roundtrip `{LawfulTextCodecs} {Url} `{LawfulUrlCrate Url}
    (l : DatasetRef) (r : DatasetRefRemote Url) :
  ref_ok l -> remote_ref_ok r ->
  (exists s, DatasetRef_fmt l = Ok s /\ DatasetRef_from_str s = Ok (reread l)) /\
  (exists s, DatasetRefRemote_fmt r = Ok s /\ DatasetRefRemote_from_str s = Ok (reread_remote r)).
Proof. intros Hl Hr. split; [by apply ref_text_inverse|by apply remote_ref_text_inverse]. Qed.

Lemma local_and_remote_references_roundtrip_witness :
  (exists s, DatasetRef_fmt (DatasetRef_ID example_id) = Ok s /\
     DatasetRef_from_str s = Ok (DatasetRef_ID example_id)) /\
  (exists s, DatasetRefRemote_fmt (DatasetRefRemote_ID (Some (mkRepoName "repo")) example_id) = Ok s /\
     DatasetRefRemote_from_str (Url := str) s =
       Ok (DatasetRefRemote_ID (Some (mkRepoName "repo")) example_id)).
Proof.
  apply (local_and_remote_references_roundtrip (Url := str) (DatasetRef_ID example_id)
           (DatasetRefRemote_ID (Some (mkRepoName "repo")) example_id)); [apply example_id_ok|].
  split; [apply example_host; reflexivity|apply example_id_ok].
Defined.

(** The text of a hash or of a key fits into the fixed buffers, so printing never
    panics, for both encodings, and reading it gives the hash or key back. *)
Theorem text_forms_fit `{LawfulTextCodecs} h d encoding :
  Multihash_bytes_ok h -> DidKey_ok (do_did d) ->
  (exists s, MultihashFmt_fmt (MultihashFmt_new h encoding) = Ok s /\ Multihash_from_multibase s = Ok h) /\
  (exists s, DidKeyFmt_fmt (do_did d) encoding = Ok s /\ DidKey_from_did_str s = Ok (do_did d)) /\
  (exists s, DidOdfFmt_fmt (do_did d) encoding = Ok s /\ DidOdf_from_did_str s = Ok d).
Proof.
  intros Hh Hd. split_and!; [by apply multihash_text_inverse|by apply did_key_text_inverse|].
  destruct (did_odf_text_inverse d encoding Hd) as (m & Hf & Hp & _). eauto.
Qed.

Definition example_hash : Multihash := mkMultihash (replicate 32 9%Z) 32 Multicodec_ODFMetadataBlock.

Lemma text_forms_fit_witness :
  (exists s, MultihashFmt_fmt (MultihashFmt_new example_hash Multibase_Base58Btc) = Ok s /\
     Multihash_from_multibase s = Ok example_hash) /\
  (exists s, DidKeyFmt_fmt (do_did (did_did example_id)) Multibase_Base58Btc = Ok s /\
     DidKey_from_did_str s = Ok (do_did (did_did example_id))) /\
  (exists s, DidOdfFmt_fmt (do_did (did_did example_id)) Multibase_Base58Btc = Ok s /\
     DidOdf_from_did_str s = Ok (did_did example_id)).
Proof.
  apply (text_forms_fit example_hash (did_did example_id) Multibase_Base58Btc); [|apply example_id_ok].
  split; [split; [done|split; [unfold MAX_MULTIHASH_DIGEST_LEN; simpl; lia|done]]|].
  apply Forall_take, Forall_replicate. split; lia.
Defined.

(** Malformed identifiers can abort the program: the parser of local references
    panics on [did:odf:] without a key, and reading any bytes of an Ed25519 key of
    another length than 32 panics. *)
Theorem malformed_did_panics `{LawfulTextCodecs} (key : list u8) :
  List.length key <> MAX_DID_KEY_LEN ->
  DatasetRef_from_str odf_prefix = Panic /\
  DidKey_from_bytes (uvar_encode_u32 (Multicodec_as_u32 Multicodec_Ed25519Pub) ++ key) = Panic.
Proof.
  intros Hk. split; [apply empty_did_panics|]. unfold DidKey_from_bytes.
  rewrite uvar_u32_law by apply Multicodec_u32_range. rewrite Multicodec_u32_inverse.
  unfold DidKey_new. rewrite decide_False by tauto. by rewrite decide_False.
Qed.

Lemma malformed_did_panics_witness :
  DatasetRef_from_str odf_prefix = Panic /\
  DidKey_from_bytes (uvar_encode_u32 (Multicodec_as_u32 Multicodec_Ed25519Pub) ++ [1%Z]) = Panic.
Proof. by apply (malformed_did_panics [1%Z]). Defined.
