(* ===== verification/SyncProperties.v ===== *)
(** Properties of the synchronization of datasets. *)

From S2P Require Import Prelude Multiformats Grammar Dids Identity References Dtos ChainRepos ObjectRepoFs.
From S2P Require Import MetadataChain ChainComparator ChainVisitors ChainValidators ChainRules ChainAppend.
From S2P Require Import ChainInvariants ChainExample Dataset Sync SyncFacts TextCodecsExample.

Section Properties.
Context {C : BlockCodec} {TC : TextCodecs} {Url : Type}
        {BR1 RR1 DR1 CR1 IR1 BR RR DR CR IR : Type}
        `{!MetadataBlockRepository BR1} `{!ReferenceRepository RR1}
        `{!ObjectRepository DR1} `{!ObjectRepository CR1}
        `{!MetadataBlockRepository BR} `{!ReferenceRepository RR}
        `{!ObjectRepository DR} `{!ObjectRepository CR}
        `{!LawfulBlockRepo BR, !LawfulRefRepo RR, !LawfulStreamRepo DR, !LawfulStreamRepo CR}.

Implicit Types (src : DatasetImpl BR1 RR1 DR1 CR1 IR1) (dst : DatasetImpl BR RR DR CR IR)
  (l blocks : list HashedMetadataBlock) (src_ref : DatasetRefAny Url).

(** The result of an exchange and the chain of the destination after it. *)
Definition sync_outcome (force : bool) l (x : res (SyncError Url) SyncResult) l' : Prop :=
  match x with
  | Ok (SyncResult_Updated old_head new_head num_blocks) =>
      old_head = head_hash l /\ head_hash l' = Some new_head /\
      exists xs base, l' = xs ++ base /\ num_blocks = Z.of_nat (length xs) /\
        (base = l \/ force = true /\ base = [])
  | _ => l' = l
  end.

(** A source cannot pretend to be ahead of a chain that it does not contain: the
    sequence numbers of valid blocks tell. *)
Lemma valid_not_too_few xs h1 b1 l (m : Z) :
  valid_chain xs -> (forall x, x ∈ xs -> in_u64 (mb_sequence_number x.2)) ->
  xs = (h1, b1) :: l -> (0 <= m < mb_sequence_number b1)%Z ->
  ~ length xs <= Z.to_nat (u64_sub (mb_sequence_number b1) m).
Proof.
  intros Hv Hu -> Hm Hle.
  pose proof (sequence_number_position [] (h1, b1) l Hv Hu) as Hpos. simpl in Hpos.
  assert (Hr : in_u64 (mb_sequence_number b1)) by (by apply (Hu (h1, b1)); left).
  unfold in_u64 in Hr. unfold u64_sub in Hle. rewrite Z.mod_small in Hle by lia. simpl in Hle.
  pose proof (Z.mod_le (Z.of_nat (length l)) two64 ltac:(lia) ltac:(done)). lia.
Qed.

Section Untrusted.
Variables (src : DatasetImpl BR1 RR1 DR1 CR1 IR1) (dst : DatasetImpl BR RR DR CR IR)
  (l : list HashedMetadataBlock).
Hypothesis Hst : dataset_state dst l.
Hypothesis Hsu : forall h b, get_block (meta_block_repo (dsi_metadata_chain src)) h = Ok b ->
  in_u64 (mb_sequence_number b).
Hypothesis Hdu : forall hb, hb ∈ l -> in_u64 (mb_sequence_number hb.2).
Hypothesis Hcol : forall h b b', get_block (meta_block_repo (dsi_metadata_chain src)) h = Ok b ->
  acceptable (BR := BR) false h b ->
  get_block (meta_block_repo (dsi_metadata_chain dst)) h = Ok b' -> b' = b.

(** The blocks are read from the source, up to the chain of the destination, up to
    the first block, or they claim too much. *)
Lemma selected_blocks fuel src_head force r blocks :
  resolve_ref (dsi_metadata_chain src) BlockRef_Head = Ok src_head ->
  compare_chains fuel (dsi_metadata_chain src) src_head (dsi_metadata_chain dst) (head_hash l) = Some (Ok r) ->
  select_blocks (Url := Url) fuel (dsi_metadata_chain src) src_head (head_hash l) force r
    = Some (Ok (inr blocks)) ->
  exists base, reads (meta_block_repo (dsi_metadata_chain src)) (Some src_head) blocks (head_hash base) /\
    (base = l \/ base = [] /\ (force = true \/ ~ valid_chain blocks)).
Proof.
  intros Hsh Hcmp Hsel. destruct (select_blocks_ok _ _ _ _ _ _ _ Hsh Hsel) as [->|[-> Hr]].
  2:{ exists []. auto. }
  destruct (compare_ahead _ _ _ _ _ _ Hcmp) as (o' & Hr & [->|(-> & Hne & h2 & b1 & b2 & Ho & Hb1 & Hb2 & Hlt & Hle)]).
  { exists l. auto. }
  exists []. split; [done|]. right. split; [done|]. right. intros Hv.
  destruct l as [|[h2' b2'] l'] eqn:Hl; [done|]. injection Ho as ->.
  assert (b2' = b2) as ->.
  { pose proof (cs_linked _ _ (dst_chain _ _ Hst)) as Hk. inversion Hk. congruence. }
  inversion Hr as [|h b xs' o'' Hb Hr']; subst.
  assert (b = b1) as -> by congruence.
  eapply (valid_not_too_few _ _ _ _ (mb_sequence_number b2) Hv); [|done| |done].
  - intros [h b] Hin. eapply Hsu, (reads_lookup _ _ _ _ _ _ Hr Hin).
  - specialize (Hdu (h2, b2) ltac:(left)). unfold in_u64 in Hdu. simpl in Hdu. lia.
Qed.

Lemma transfer_outcome fuel limit schedule src_head force r blocks stats log y t :
  resolve_ref (dsi_metadata_chain src) BlockRef_Head = Ok src_head -> Multihash_wf src_head ->
  compare_chains fuel (dsi_metadata_chain src) src_head (dsi_metadata_chain dst) (head_hash l) = Some (Ok r) ->
  select_blocks (Url := Url) fuel (dsi_metadata_chain src) src_head (head_hash l) force r
    = Some (Ok (inr blocks)) ->
  synchronize_blocks (Url := Url) fuel limit schedule blocks src dst src_head (head_hash l)
    AppendValidation_Full false stats log = Some (y, t) ->
  exists dst' l', ex_dst (mkExchange (Some (tf_dst t)) (tf_log t)) = Some dst' /\ dataset_state dst' l' /\
    sync_outcome force l
      (let! _ := y in Ok (SyncResult_Updated (head_hash l) src_head (Z.of_nat (length blocks)))) l'.
Proof.
  intros Hsh Hwf Hcmp Hsel Hsy.
  destruct (selected_blocks _ _ _ _ _ Hsh Hcmp Hsel) as (base & Hr & Hbase).
  assert (Hu : unambiguous false (meta_block_repo (dsi_metadata_chain dst)) blocks).
  { split; intros h b b' Hin.
    - apply Hcol. by eapply reads_lookup.
    - intros Hin'. apply (reads_lookup _ _ _ _ _ _ Hr) in Hin, Hin'. congruence. }
  destruct (is_ok y) eqn:Hy.
  2:{ exists (tf_dst t), l. split_and!; [done|exact (synchronize_failed_state _ _ _ _ _ _ _ _ _ _ _ _ _ _ _ Hu Hsy Hy Hst)|by destruct y]. }
  destruct y as [[]| |]; [|done..]. apply synchronize_run in Hsy as (dst2 & Hc); [|done].
  destruct (reads_stacked _ _ _ _ Hr) as [Hh Hs].
  assert (Hok : linked (meta_block_repo (dsi_metadata_chain dst)) (head_hash base) base /\ valid_chain base /\
                forall hb, hb ∈ base -> objects_present dst (mb_event hb.2)).
  { destruct Hbase as [->|[-> _]]; [split_and!; apply Hst|].
    split_and!; [constructor..|by intros ? ?%elem_of_nil]. }
  destruct Hok as (Hl & Hv & Ho).
  assert (Hd : dataset_state (tf_dst t) (blocks ++ base)) by (apply (committed_state _ _ _ _ _ _ _ _ base Hc); auto).
  exists (tf_dst t), (blocks ++ base). split_and!; [done..|]. simpl. split_and!; [done..|].
  exists blocks, base. split_and!; [done..|].
  destruct Hbase as [->|[-> [->|Hn]]]; [by left|by right|].
  destruct Hn. rewrite app_nil_r in Hd. apply Hd.
Qed.
End Untrusted.


(** ** Two stored chains *)

Section Related.
Variables (src : DatasetImpl BR1 RR1 DR1 CR1 IR1) (dst : DatasetImpl BR RR DR CR IR)
  (ls ld : list HashedMetadataBlock) (h : Multihash) (fuel : nat).
Hypothesis Hsrc : chain_state (dsi_metadata_chain src) ls.
Hypothesis Hh : head_hash ls = Some h.
Hypothesis Hdst : dataset_state dst ld.
Hypothesis Hu : forall x, x ∈ ls ++ ld -> in_u64 (mb_sequence_number x.2).
Hypothesis Hfs : length ls < fuel.
Hypothesis Hfd : length ld < fuel.
Hypothesis Hws : (Z.of_nat (length ls) < two64)%Z.
Hypothesis Hwd : (Z.of_nat (length ld) < two64)%Z.

Lemma source_head : resolve_ref (dsi_metadata_chain src) BlockRef_Head = Ok h.
Proof. apply head_is_resolve. rewrite <- Hh. apply Hsrc. Qed.

Lemma source_linked : linked (meta_block_repo (dsi_metadata_chain src)) (Some h) ls.
Proof. rewrite <- Hh. apply Hsrc. Qed.

(** What the exchange does depends on how the chains are related. *)
Lemma sync_related limit schedule counts src_ref f v trust force :
  agree ls ld ->
  exists r, compare_spec ls ld r /\
    sync fuel limit schedule counts src_ref src (Some dst) f v trust force =
    after_comparison fuel limit schedule counts src dst v trust force h (head_hash ld) r.
Proof.
  intros Hag.
  destruct (compare_chains_ok fuel (dsi_metadata_chain src) h (dsi_metadata_chain dst) (head_hash ld) ls ld)
    as (r & Hr & Hspec); try done; [apply source_linked|apply Hdst|..].
  1,2: apply valid_positions; [apply Hsrc || apply Hdst|set_solver|done].
  exists r. split; [done|]. apply sync_compared; [apply source_head|apply Hdst|done].
Qed.
End Related.

(** Without [force] the history of the destination is never dropped: if the
    chain of the source does not extend it, nothing changes, and the error tells by
    how many blocks the destination is ahead, or how many blocks each side has that
    the other has not. *)
Theorem sync_refuses_to_drop_history src dst ls ld h fuel limit schedule counts src_ref f v trust :
  chain_state (dsi_metadata_chain src) ls -> head_hash ls = Some h -> dataset_state dst ld ->
  (forall x, x ∈ ls ++ ld -> in_u64 (mb_sequence_number x.2)) ->
  length ls < fuel -> length ld < fuel ->
  (Z.of_nat (length ls) < two64)%Z -> (Z.of_nat (length ld) < two64)%Z -> agree ls ld ->
  (forall xs, ls <> xs ++ ld) ->
  exists hd err, head_hash ld = Some hd /\
    sync fuel limit schedule counts src_ref src (Some dst) f v trust false
      = Some (Err err, mkExchange (Some dst) []) /\
    ((exists xs, xs <> [] /\ ld = xs ++ ls /\
        err = SyncError_DestinationAhead (mkDestinationAheadError h hd (length xs))) \/
     (exists xs ys common, ls = xs ++ common /\ ld = ys ++ common /\ xs <> [] /\ ys <> [] /\ apart xs ys /\
        err = SyncError_DatasetsDiverged (mkDatasetsDivergedError h hd
                (Some (mkDatasetsDivergedErrorDetail (Z.of_nat (length xs)) (Z.of_nat (length ys))))))).
Proof.
  intros Hsrc Hh Hdst Hu Hfs Hfd Hws Hwd Hag Hno.
  destruct (sync_related src dst ls ld h fuel Hsrc Hh Hdst Hu Hfs Hfd Hws Hwd
    limit schedule counts src_ref f v trust false Hag) as (r & Hspec & ->).
  assert (exists hd, head_hash ld = Some hd) as [hd Hhd].
  { destruct ld as [|[hd b] l]; [|eauto]. destruct (Hno ls). by rewrite app_nil_r. }
  exists hd. unfold after_comparison. rewrite Hhd.
  destruct r as [|xs|xs|n m]; simpl in *.
  - by destruct (Hno []).
  - destruct Hspec as [_ Heq]. by destruct (Hno xs).
  - destruct Hspec as [Hne Heq]. eexists. split_and!; [done..|]. left. by exists xs.
  - destruct Hspec as (xs & ys & common & Hl & Hr & Hx & Hy & Hap & -> & ->).
    eexists. split_and!; [done..|]. right. by exists xs, ys, common.
Qed.

(** C12.  Synchronizing two stored, valid datasets whose stores take what they are
    given succeeds, for every interleaving of the downloads, whenever the source
    extends the destination or [force] is set: afterwards the destination has
    exactly the chain of the source and all objects it names, and the result tells
    the old and the new head and the number of blocks that were transferred. *)
Theorem sync_makes_destination_equal src dst ls ld h fuel limit schedule counts src_ref f v trust force :
  chain_state (dsi_metadata_chain src) ls -> head_hash ls = Some h -> dataset_state dst ld ->
  (forall x, x ∈ ls ++ ld -> in_u64 (mb_sequence_number x.2)) ->
  length ls < fuel -> length ld < fuel ->
  (Z.of_nat (length ls) < two64)%Z -> (Z.of_nat (length ld) < two64)%Z ->
  (forall g b b', (g, b) ∈ ls -> get_block (meta_block_repo (dsi_metadata_chain dst)) g = Ok b' -> b' = b) ->
  transferable (Url := Url) src dst trust ls ->
  head_writable (dsi_metadata_chain dst) -> Multihash_wf h ->
  (force = true \/ exists xs, ls = xs ++ ld) ->
  exists x e dst', sync fuel limit schedule counts src_ref src (Some dst) f v trust force = Some (x, e) /\
    ex_dst e = Some dst' /\ dataset_state dst' ls /\
    ((ls = ld /\ x = Ok SyncResult_UpToDate /\ dst' = dst) \/
     exists xs base, ls = xs ++ base /\ xs <> [] /\ (base = ld \/ (base = [] /\ forall ys, ls <> ys ++ ld)) /\
       x = Ok (SyncResult_Updated (head_hash ld) h (Z.of_nat (length xs)))).
Proof.
  intros Hsrc Hh Hdst Hu Hfs Hfd Hws Hwd Hua Ht Hw Hwf Hcond.
  assert (Hag : agree ls ld).
  { intros g b b' Hb Hb'. symmetry. eapply Hua; [done|]. eapply linked_lookup; [apply Hdst|done]. }
  pose proof (source_head src ls h Hsrc Hh) as Hsh. pose proof (source_linked src ls h Hsrc Hh) as Hsl.
  destruct (sync_related src dst ls ld h fuel Hsrc Hh Hdst Hu Hfs Hfd Hws Hwd
    limit schedule counts src_ref f v trust force Hag) as (r & Hspec & ->).
  assert (Hgo : forall xs base, ls = xs ++ base -> base = ld \/ base = [] ->
    exists t, synchronize_blocks (Url := Url) fuel limit schedule xs src dst h (head_hash ld) v trust
        (into_status counts) [] = Some (Ok tt, t) /\ dataset_state (tf_dst t) ls).
  { intros xs base -> Hbase. apply synchronize_complete; try done; [..|apply Hsrc|by eapply transferable_app|apply Hdst].
    - split; [intros g b b' Hin _; apply Hua; set_solver|].
      intros g b b' Hb Hb'. assert (Hb1 : (g, b) ∈ xs ++ base) by (apply elem_of_app; by left).
      assert (Hb2 : (g, b') ∈ xs ++ base) by (apply elem_of_app; by left).
      exact (linked_listed _ _ _ _ _ _ Hsl Hb1 Hb2).
    - destruct Hbase as [->| ->]; [apply Hdst|constructor].
    - exact (linked_stacked _ _ _ _ Hsl).
    - destruct Hbase as [->| ->]; [apply Hdst|by intros ? ?%elem_of_nil]. }
  unfold after_comparison. destruct r as [|xs|xs|n m]; simpl in *.
  - subst ld. exists (Ok SyncResult_UpToDate), (mkExchange (Some dst) []), dst. split_and!; [done..|]. by left.
  - destruct Hspec as [Hne Heq]. destruct (Hgo xs ld Heq) as (t & -> & Hd); [by left|].
    eexists _, _, _. split_and!; [done..|]. right. exists xs, ld. auto.
  - destruct Hspec as [Hne Heq].
    assert (Hnot : forall ys, ls <> ys ++ ld).
    { intros ys Hys. apply (f_equal length) in Heq, Hys. rewrite length_app in Heq, Hys. by destruct xs; simpl in *; [|lia]. }
    destruct Hcond as [->|[ys Hys]]; [|by destruct (Hnot ys)]. simpl. rewrite (iter_blocks_all _ _ _ _ Hsh Hsl Hfs).
    destruct (Hgo ls [] ltac:(by rewrite app_nil_r)) as (t & -> & Hd); [by right|].
    eexists _, _, _. split_and!; [done..|]. right. exists ls, []. rewrite app_nil_r. split_and!; try done; [|by right].
    intros ->. done.
  - destruct Hspec as (xs & ys & common & Hl & Hr & Hx & Hy & Hap & -> & ->).
    assert (Hnot : forall zs, ls <> zs ++ ld).
    { intros zs Hz. rewrite Hz, Hr, app_assoc in Hl. apply app_inv_tail in Hl.
      destruct ys as [|y ys]; [done|]. apply (Hap y y); [rewrite <- Hl; set_solver|set_solver|done]. }
    destruct Hcond as [->|[zs Hz]]; [|by destruct (Hnot zs)]. simpl. rewrite (iter_blocks_all _ _ _ _ Hsh Hsl Hfs).
    destruct (Hgo ls [] ltac:(by rewrite app_nil_r)) as (t & -> & Hd); [by right|].
    eexists _, _, _. split_and!; [done..|]. right. exists ls, []. rewrite app_nil_r. split_and!; try done; [|by right].
    intros ->. done.
Qed.

(** If the head of the destination moves after it was read, however late, the
    exchange transfers what it has to, finds the head changed and gives up with
    [UpdatedConcurrently], telling both heads: the other update stays. *)
Theorem sync_notices_concurrent_update src dst l blocks base fuel limit schedule src_head dst_head v trust stats log :
  dataset_state dst l -> dst_head <> head_hash l ->
  unambiguous trust (meta_block_repo (dsi_metadata_chain dst)) blocks ->
  linked (meta_block_repo (dsi_metadata_chain dst)) (head_hash base) base -> stacked (rev blocks) base ->
  length (blocks ++ base) < fuel -> valid_chain (blocks ++ base) ->
  transferable (Url := Url) src dst trust blocks ->
  exists t, synchronize_blocks (Url := Url) fuel limit schedule blocks src dst src_head dst_head v trust stats log
      = Some (Err (SyncError_UpdatedConcurrently (mkRefCASError BlockRef_Head dst_head (head_hash l))), t) /\
    dataset_state (tf_dst t) l.
Proof.
  intros Hst Hne Hu Hl Hs Hf Hv Ht.
  destruct (synchronize_return (Url := Url) fuel limit schedule blocks src dst src_head dst_head v trust stats log base
    Hu Hl Hs Hf) as [[x t] Hsy].
  destruct (synchronize_succeed _ _ _ _ _ _ _ _ _ _ _ _ _ _ base Hu Hl Hs Hf Hv Ht Hsy) as (t0 & Hp & Hm).
  assert (Hh : head_is (dsi_metadata_chain (tf_dst t0)) (head_hash l)).
  { unfold head_is. rewrite (proj1 (prepared_chain _ _ _ Hp)). apply Hst. }
  pose proof (move_head_stale (Url := Url) src_head dst_head t0 _ Hh Hne) as Hx.
  rewrite <- Hm in Hx. simpl in Hx. subst x. exists t. split; [done|].
  exact (synchronize_failed_state _ _ _ _ _ _ _ _ _ _ _ _ _ _ _ Hu Hsy eq_refl Hst).
Qed.

(** When the transfer of files is over, the status reported last counts, for any
    interleaving, every data slice and checkpoint once, with its records and bytes,
    which is exactly what was estimated from the metadata; the statuses reported
    while blocks are committed count none of the files. *)
Theorem transfer_is_counted src dst blocks fuel limit schedule src_head dst_head v trust stats log t :
  synchronize_blocks (Url := Url) fuel limit schedule blocks src dst src_head dst_head v trust stats log
    = Some (Ok tt, t) ->
  exists before s after, tf_log t = before ++ (SyncStage_TransferData, s) :: after /\
    sst_src s = party_total download_read (sst_src stats) (block_download_tasks blocks) /\
    sst_src_estimated s = party_total download_read (sst_src_estimated stats) (block_download_tasks blocks) /\
    sst_dst s = party_total download_written (sst_dst stats) (block_download_tasks blocks) /\
    sst_dst_estimated s =
      SyncPartyStats_add (party_total download_written (sst_dst_estimated stats) (block_download_tasks blocks))
        (blocks_written (Z.of_nat (length blocks))) /\
    length after = length blocks /\
    Forall (fun p => p.1 = SyncStage_CommitBlocks /\ sst_src p.2 = sst_src stats) after.
Proof.
  unfold synchronize_blocks.
  destruct (try_for_each_concurrent _ _ _ _ _ _ _ _) as [[[[]| |] t1]|] eqn:Hd; [|done..].
  pose proof (downloads_run _ _ _ _ _ _ _ _ _ _ (Forall_nil_2 _) Hd) as [_ Hend].
  destruct (Hend eq_refl) as (order & Ho & Hst & _).
  apply downloads_log in Hd as Hlog; [|done|by simpl; rewrite last_snoc].
  destruct (commit_blocks _ _ _ _ _) as [[[[]| |] t2]|] eqn:Hb; [|done..].
  apply commit_blocks_log in Hb as (l2 & Hl2 & Hn & Hall). simpl in *.
  intros [= Hm]. assert (tf_log t = tf_log t2) as ->.
  { unfold move_head in Hm. destruct (set_ref _ _ _ _). by injection Hm as _ <-. }
  apply last_Some in Hlog as [l1 Hl1]. exists l1, (tf_stats t1), l2.
  rewrite Hl2, Hl1, <- app_assoc. simpl. split; [done|].
  rewrite Hst, count_downloads_total, estimate_total in *. simpl in *.
  rewrite !(party_total_perm _ _ _ _ Ho). split_and!; try done. by rewrite Hn, length_rev.
Qed.

(** If the destination does not exist it is created from the seed block of the
    source, by a factory that stores this block under the hash it has in the source,
    and the remaining blocks follow: afterwards it has the chain of the source and
    the objects it names, and the result counts all blocks. *)
Theorem sync_creates_destination src ls xs h0 b0 h f r fuel limit schedule counts src_ref v trust force :
  chain_state (dsi_metadata_chain src) ls -> ls = xs ++ [(h0, b0)] -> head_hash ls = Some h -> length ls < fuel ->
  (forall seed, into_typed b0 = Some seed -> f seed = Ok r) -> cdr_head r = h0 ->
  dataset_state (cdr_dataset r) [(h0, b0)] ->
  (forall g b b', (g, b) ∈ xs ->
     get_block (meta_block_repo (dsi_metadata_chain (cdr_dataset r))) g = Ok b' -> b' = b) ->
  transferable (Url := Url) src (cdr_dataset r) trust xs ->
  head_writable (dsi_metadata_chain (cdr_dataset r)) -> Multihash_wf h ->
  exists e dst', sync fuel limit schedule counts src_ref src None (Some f) v trust force
      = Some (Ok (SyncResult_Updated None h (Z.of_nat (length ls))), e) /\
    ex_dst e = Some dst' /\ dataset_state dst' ls.
Proof.
  intros Hsrc Hls Hh Hf Hfac Hr0 Hd Hua Ht Hw Hwf.
  pose proof (source_head src ls h Hsrc Hh) as Hsh. pose proof (source_linked src ls h Hsrc Hh) as Hsl.
  assert (Hseed : is_seed (mb_event b0)).
  { assert (Hv : valid_chain (xs ++ [(h0, b0)])) by (rewrite <- Hls; apply Hsrc).
    by apply (proj2 (seed_is_first xs (h0, b0) [] Hv)). }
  assert (exists seed : MetadataBlockTyped Seed, into_typed b0 = Some seed) as [seed Hs].
  { revert Hseed. unfold into_typed. destruct (mb_event b0); intros Hseed; try (by destruct Hseed). simpl. eauto. }
  assert (Hb1 : exists b1, get_block (meta_block_repo (dsi_metadata_chain src)) h = Ok b1).
  { inversion Hsl; eauto. }
  destruct Hb1 as [b1 Hb1].
  destruct (synchronize_complete (Url := Url) fuel limit schedule xs src (cdr_dataset r) h (Some h0) v trust
    (into_status counts) [] [(h0, b0)]) as (t & Hsy & Hst); try (subst ls; done); [..|].
  - split; [intros g b b' Hin _; by apply Hua|].
    intros g b b' Hb Hb'. subst ls.
    assert (H1 : (g, b) ∈ xs ++ [(h0, b0)]) by (apply elem_of_app; by left).
    assert (H2 : (g, b') ∈ xs ++ [(h0, b0)]) by (apply elem_of_app; by left).
    exact (linked_listed _ _ _ _ _ _ Hsl H1 H2).
  - apply Hd.
  - subst ls. exact (linked_stacked _ _ _ _ Hsl).
  - apply Hd.
  - rewrite <- Hls. apply Hsrc.
  - apply Hd.
  - exists (mkExchange (Some (tf_dst t)) (tf_log t)), (tf_dst t). rewrite Hls in *. split_and!; [|done..].
    unfold sync. rewrite (proj2 (get_src_head_ok _ _ _) Hsh). unfold compare_chains.
    rewrite decide_False by done. rewrite Hb1, (iter_whole _ _ _ _ Hsl Hf). simpl.
    rewrite last_snoc, Hs, (Hfac _ Hs). simpl. by rewrite Hr0, removelast_last, Hsy.
Qed.
End Properties.

(** * Applications *)

(** A directory stays writable, and then it takes every stream. *)
Lemma lfs_steps_writable {C : BlockCodec} (r r' : ObjectRepositoryLocalFS) :
  stream_steps r r' -> lfs_writable r' = lfs_writable r.
Proof.
  induction 1 as [|r' s o x r'' _ IH Hi]; [done|]. rewrite <- IH. revert Hi. simpl.
  unfold lfs_insert_stream, lfs_insert, lfs_place.
  repeat case_match; intros; simplify_eq; simpl; congruence.
Qed.

Lemma lfs_takes {C : BlockCodec} (r : ObjectRepositoryLocalFS) data g hash size :
  lfs_writable r = true -> Multihash_from_digest sha3_256 Multicodec_Sha3_256 data = Ok g ->
  store_takes r (Some data) hash size true.
Proof.
  intros Hw Hg r' Hs. apply lfs_steps_writable in Hs. rewrite Hw in Hs. simpl.
  unfold lfs_insert_stream, write_stream_with_digest. rewrite Hs, Hg. simpl.
  unfold lfs_insert, lfs_place. simpl. rewrite decide_False by tauto. rewrite Hs. by destruct (_ !! _).
Qed.

Abbreviation ExDataset :=
  (DatasetImpl (MetadataBlockRepositoryImpl ObjectRepositoryInMemory)
     (ReferenceRepositoryImpl NamedObjectRepositoryInMemory)
     ObjectRepositoryLocalFS ObjectRepositoryLocalFS NamedObjectRepositoryInMemory).

Definition ex_dataset (c : ExChain) (files : gmap Multihash Bytes) : ExDataset :=
  mkDatasetImpl c (mkObjectRepositoryLocalFS files true) (mkObjectRepositoryLocalFS ∅ true)
    NamedObjectRepositoryInMemory_new.

Definition ex_file : Bytes := inr (ex_hash 7).
Definition ex_c2 : ExChain := ex_state [ex_seed; ex_schema].

(** A source with a slice of data, one with two blocks, and destinations with one
    and with two blocks. *)
Definition ex_src3 : ExDataset := ex_dataset ex_c3 {[ex_hash 101 := ex_file]}.
Definition ex_ds2 : ExDataset := ex_dataset ex_c2 ∅.
Definition ex_ds1 : ExDataset := ex_dataset ex_c1 ∅.
Definition ex_chain2 : list HashedMetadataBlock := [(ex_hash 1, ex_schema); (ex_hash 0, ex_seed)].
Definition ex_chain1 : list HashedMetadataBlock := [(ex_hash 0, ex_seed)].
Definition ex_ref : DatasetRefAny unit := DatasetRefAny_LocalAlias None (mkDatasetName "foo").
Definition ex_counts : CompareReads := mkCompareReads 0 0 0 0.

Lemma ex_ds2_state : dataset_state ex_ds2 ex_chain2.
Proof.
  split.
  - split.
    + vm_compute. reflexivity.
    + repeat (eapply linked_cons; [vm_compute; reflexivity|]). apply linked_nil.
    + apply valid_chain_b_sound. vm_compute. reflexivity.
  - intros hb Hin. unfold ex_chain2 in Hin. rewrite !elem_of_cons, elem_of_nil in Hin.
    by destruct Hin as [->|[->|[]]].
Qed.

Lemma ex_ds1_state : dataset_state ex_ds1 ex_chain1.
Proof.
  split.
  - split.
    + vm_compute. reflexivity.
    + repeat (eapply linked_cons; [vm_compute; reflexivity|]). apply linked_nil.
    + apply valid_chain_b_sound. vm_compute. reflexivity.
  - intros hb Hin. unfold ex_chain1 in Hin. rewrite elem_of_cons, elem_of_nil in Hin.
    by destruct Hin as [->|[]].
Qed.

Lemma ex_c1_blocks h b : get_block (meta_block_repo ex_c1) h = Ok b -> (h, b) ∈ ex_chain1.
Proof.
  destruct (decide (h = ex_hash 0)) as [->|H0]; [vm_compute; intros [= <-]; set_solver|].
  rewrite get_block_mem.
  change (blocks_by_hash (obj_repo (meta_block_repo ex_c1))) with
    (<[ex_hash 0 := inl ex_seed]> ∅ : gmap Multihash Bytes).
  by rewrite !lookup_insert_ne.
Qed.

Lemma ex_c2_blocks h b : get_block (meta_block_repo ex_c2) h = Ok b -> (h, b) ∈ ex_chain2.
Proof.
  destruct (decide (h = ex_hash 0)) as [->|H0]; [vm_compute; intros [= <-]; set_solver|].
  destruct (decide (h = ex_hash 1)) as [->|H1]; [vm_compute; intros [= <-]; set_solver|].
  rewrite get_block_mem.
  change (blocks_by_hash (obj_repo (meta_block_repo ex_c2))) with
    (<[ex_hash 1 := inl ex_schema]> (<[ex_hash 0 := inl ex_seed]> ∅) : gmap Multihash Bytes).
  by rewrite !lookup_insert_ne.
Qed.

(** Blocks of the examples have the sequence numbers of their hashes. *)
Lemma ex_chain_u64 x : x ∈ ex_chain -> in_u64 (mb_sequence_number x.2).
Proof.
  unfold ex_chain. rewrite !elem_of_cons, elem_of_nil.
  intros [->|[->|[->|[->|[]]]]]; vm_compute; done.
Qed.

Lemma ex_chain2_sub x : x ∈ ex_chain2 -> x ∈ ex_chain.
Proof. unfold ex_chain2, ex_chain. rewrite !elem_of_cons. tauto. Qed.

Lemma ex_chain1_sub x : x ∈ ex_chain1 -> x ∈ ex_chain.
Proof. unfold ex_chain1, ex_chain. rewrite !elem_of_cons. tauto. Qed.

Lemma ex_chain_functional h b b' : (h, b) ∈ ex_chain -> (h, b') ∈ ex_chain -> b' = b.
Proof.
  assert (Hl : linked (meta_block_repo ex_c4) (head_hash ex_chain) ex_chain).
  { repeat (eapply linked_cons; [vm_compute; reflexivity|]). apply linked_nil. }
  intros Hb Hb'. exact (linked_listed _ _ _ _ _ _ Hl Hb Hb').
Qed.


(** The source is one block behind. *)
Lemma sync_refuses_to_drop_history_witness :
  exists hd err,
    sync 10 0 [] ex_counts ex_ref ex_ds1 (Some ex_ds2) None AppendValidation_None true false
      = Some (Err err, mkExchange (Some ex_ds2) []) /\ hd = ex_hash 1 /\
    err = SyncError_DestinationAhead (mkDestinationAheadError (ex_hash 0) hd 1).
Proof.
  destruct (sync_refuses_to_drop_history ex_ds1 ex_ds2 ex_chain1 ex_chain2 (ex_hash 0) 10 0 [] ex_counts ex_ref
    None AppendValidation_None true) as (hd & err & Hh & Hs & He).
  - apply ex_ds1_state.
  - done.
  - apply ex_ds2_state.
  - intros x [Hx|Hx]%elem_of_app; apply ex_chain_u64; [by apply ex_chain1_sub|by apply ex_chain2_sub].
  - simpl. lia.
  - simpl. lia.
  - done.
  - done.
  - intros h b b' Hb%ex_chain1_sub Hb'%ex_chain2_sub. symmetry. by eapply ex_chain_functional.
  - intros xs Hx. apply (f_equal length) in Hx. rewrite length_app in Hx. simpl in Hx. lia.
  - injection Hh as <-. exists (ex_hash 1), err. split_and!; [exact Hs|done|].
    destruct He as [(xs & _ & Hl & ->)|(xs & ys & common & Hl & Hr & Hx & Hy & Hap & _)].
    + apply (f_equal length) in Hl. rewrite length_app in Hl. simpl in Hl.
      by replace (length xs) with 1 by lia.
    + exfalso. destruct xs as [|x [|? ?]]; [done| |done]. injection Hl as <- Hc.
      destruct common as [|? ?]; [|done]. rewrite app_nil_r in Hr. subst ys.
      apply (Hap (ex_hash 0, ex_seed) (ex_hash 0, ex_seed)); [by left|by right; left|done].
Defined.

Lemma ex_storable r h b : (h, b) ∈ ex_chain -> storable (BR := MetadataBlockRepositoryImpl ObjectRepositoryInMemory) true r (h, b).
Proof.
  intros Hin r' _. unfold ex_chain in Hin. rewrite !elem_of_cons, elem_of_nil in Hin.
  destruct Hin as [[= -> ->]|[[= -> ->]|[[= -> ->]|[[= -> ->]|[]]]]]; reflexivity.
Qed.

Lemma ex_writable c : head_writable (RR := ReferenceRepositoryImpl NamedObjectRepositoryInMemory)
    (BR := MetadataBlockRepositoryImpl ObjectRepositoryInMemory) c.
Proof. intros h. reflexivity. Qed.

(** The blocks and the file of the source can be transferred anywhere. *)
Lemma ex_transferable (c : ExChain) files xs base :
  tail ex_chain = xs ++ base -> transferable (Url := unit) ex_src3 (ex_dataset c files) true xs.
Proof.
  intros Hx. apply (transferable_app _ _ _ _ base). rewrite <- Hx. split.
  - apply Forall_cons; split; [|constructor]. exists (Some ex_file). split; [vm_compute; reflexivity|].
    apply (lfs_takes _ _ (ex_hash 0)); [done|vm_compute; reflexivity].
  - apply Forall_forall. intros [h b] Hin. apply ex_storable. by right.
Qed.

Lemma ex_src3_u64 x : x ∈ tail ex_chain ++ ex_chain1 -> in_u64 (mb_sequence_number x.2).
Proof. intros [Hx|Hx]%elem_of_app; apply ex_chain_u64; [by right|by apply ex_chain1_sub]. Qed.

(** The schema, a block of data and its file are transferred. *)
Lemma sync_makes_destination_equal_witness :
  exists x e dst',
    sync 10 1 [3; 1] ex_counts ex_ref ex_src3 (Some ex_ds1) None AppendValidation_Full true false = Some (x, e) /\
    ex_dst e = Some dst' /\ dataset_state dst' (tail ex_chain) /\
    x = Ok (SyncResult_Updated (Some (ex_hash 0)) (ex_hash 2) 2).
Proof.
  destruct (sync_makes_destination_equal ex_src3 ex_ds1 (tail ex_chain) ex_chain1 (ex_hash 2) 10 1 [3; 1] ex_counts
    ex_ref None AppendValidation_Full true false) as (x & e & dst' & Hs & He & Hd & Hx).
  - apply ex_c3_state.
  - done.
  - apply ex_ds1_state.
  - apply ex_src3_u64.
  - simpl. lia.
  - simpl. lia.
  - done.
  - done.
  - intros g b b' Hb Hb'%ex_c1_blocks%ex_chain1_sub. eapply ex_chain_functional; [by right|done].
  - apply (ex_transferable _ _ _ []). by rewrite app_nil_r.
  - apply ex_writable.
  - vm_compute. done.
  - right. by exists [(ex_hash 2, ex_data1); (ex_hash 1, ex_schema)].
  - exists x, e, dst'. split_and!; [exact Hs|exact He|exact Hd|].
    destruct Hx as [(Hl & _)|(xs & base & Hl & _ & [->|[_ Hn]] & ->)]; [done| |].
    + apply (f_equal length) in Hl. rewrite length_app in Hl. simpl in Hl.
      by replace (length xs) with 2 by lia.
    + by destruct (Hn [(ex_hash 2, ex_data1); (ex_hash 1, ex_schema)]).
Defined.

(** Meanwhile another writer has appended the same block. *)
Lemma sync_notices_concurrent_update_witness :
  exists t, synchronize_blocks (Url := unit) 10 1 [] [(ex_hash 1, ex_schema)] ex_src3 ex_ds2 (ex_hash 1)
      (Some (ex_hash 0)) AppendValidation_Full true SyncStats_default []
      = Some (Err (SyncError_UpdatedConcurrently
                (mkRefCASError BlockRef_Head (Some (ex_hash 0)) (Some (ex_hash 1)))), t) /\
    dataset_state (tf_dst t) ex_chain2.
Proof.
  apply (sync_notices_concurrent_update ex_src3 ex_ds2 ex_chain2 [(ex_hash 1, ex_schema)] ex_chain1).
  - apply ex_ds2_state.
  - done.
  - split.
    + intros h b b' Hb _ Hb'%ex_c2_blocks%ex_chain2_sub. eapply ex_chain_functional; [|done].
      apply ex_chain2_sub. apply list_elem_of_singleton in Hb. rewrite Hb. by left.
    + intros h b b' Hb Hb'. apply list_elem_of_singleton in Hb, Hb'. congruence.
  - repeat (eapply linked_cons; [vm_compute; reflexivity|]). apply linked_nil.
  - done.
  - simpl. lia.
  - apply valid_chain_b_sound. vm_compute. reflexivity.
  - split; [constructor|]. apply Forall_forall. intros [h b] Hb. apply list_elem_of_singleton in Hb.
    rewrite Hb. apply ex_storable. apply ex_chain2_sub. by left.
Defined.

(** One slice with its ten records is counted. *)
Lemma transfer_is_counted_witness :
  exists t before s after,
    synchronize_blocks (Url := unit) 10 1 [] [(ex_hash 2, ex_data1); (ex_hash 1, ex_schema)] ex_src3 ex_ds1
      (ex_hash 2) (Some (ex_hash 0)) AppendValidation_Full true SyncStats_default [] = Some (Ok tt, t) /\
    tf_log t = before ++ (SyncStage_TransferData, s) :: after /\
    sps_data_slices_written (sst_dst s) = 1%Z /\ sps_data_records_written (sst_dst s) = 10%Z /\
    length after = 2.
Proof.
  destruct (synchronize_blocks (Url := unit) 10 1 [] [(ex_hash 2, ex_data1); (ex_hash 1, ex_schema)] ex_src3 ex_ds1
      (ex_hash 2) (Some (ex_hash 0)) AppendValidation_Full true SyncStats_default []) as [[x t]|] eqn:Hs.
  - assert (Hok : option_map (fun p => is_ok p.1) (Some (x, t)) = Some true)
      by (rewrite <- Hs; vm_compute; reflexivity).
    injection Hok as Hok. destruct x as [[]| |]; [|done..].
    destruct (transfer_is_counted _ _ _ _ _ _ _ _ _ _ _ _ _ Hs) as (before & s & after & Hl & _ & _ & Hd & _ & Hn & _).
    exists t, before, s, after. split_and!; [done|exact Hl|rewrite Hd; vm_compute; reflexivity..|exact Hn].
  - exfalso.
    assert (Hok : option_map (fun p => is_ok p.1) (synchronize_blocks (Url := unit) 10 1 []
      [(ex_hash 2, ex_data1); (ex_hash 1, ex_schema)] ex_src3 ex_ds1
      (ex_hash 2) (Some (ex_hash 0)) AppendValidation_Full true SyncStats_default []) = Some true)
      by (vm_compute; reflexivity).
    rewrite Hs in Hok. done.
Defined.

Definition ex_handle : DatasetHandle := mkDatasetHandle (ex_id 1) (mkDatasetAlias None (mkDatasetName "foo")).
Definition ex_created : CreateDatasetResult := mkCreateDatasetResult ex_handle ex_ds1 (ex_hash 0).

Lemma sync_creates_destination_witness :
  exists e dst',
    sync 10 0 [] ex_counts ex_ref ex_src3 None (Some (fun _ => Ok ex_created)) AppendValidation_Full true false
      = Some (Ok (SyncResult_Updated None (ex_hash 2) 3), e) /\
    ex_dst e = Some dst' /\ dataset_state dst' (tail ex_chain).
Proof.
  apply (sync_creates_destination ex_src3 (tail ex_chain) [(ex_hash 2, ex_data1); (ex_hash 1, ex_schema)]
    (ex_hash 0) ex_seed (ex_hash 2) (fun _ => Ok ex_created) ex_created).
  - apply ex_c3_state.
  - done.
  - done.
  - simpl. lia.
  - done.
  - done.
  - apply ex_ds1_state.
  - intros g b b' Hb Hb'%ex_c1_blocks%ex_chain1_sub. eapply ex_chain_functional; [|done].
    right. rewrite !elem_of_cons, elem_of_nil in Hb. simpl. rewrite !elem_of_cons. tauto.
  - by apply (ex_transferable _ _ _ [(ex_hash 0, ex_seed)]).
  - apply ex_writable.
  - vm_compute. done.
Defined.

(** ** The head of a new dataset *)

(** A source that serves its only block under a wrong hash. *)
Definition ex_lying_src : ExDataset :=
  ex_dataset
    (mkMetadataChainImpl
       (mkMetadataBlockRepositoryImpl (mkObjectRepositoryInMemory {[ex_hash 9 := inl ex_seed]}))
       (mkReferenceRepositoryImpl (mkNamedObjectRepositoryInMemory {["head" := inr (ex_hash 9)]})))
    ∅.

(** Although nothing is trusted the new dataset gets a head that it does not store:
    the seed block is not compared with its hash and the head is set unchecked. *)
Example created_head_is_not_checked :
  match sync 10 0 [] ex_counts ex_ref ex_lying_src None (Some (fun _ => Ok ex_created))
          AppendValidation_Full false false with
  | Some (Ok (SyncResult_Updated None h 1), e) =>
      match ex_dst e with
      | Some dst => bool_decide (h = ex_hash 9) &&
          match resolve_ref (dsi_metadata_chain dst) BlockRef_Head with
          | Ok h' => bool_decide (h' = h)
          | _ => false
          end &&
          negb (is_ok (get_block (meta_block_repo (dsi_metadata_chain dst)) h))
      | None => false
      end
  | _ => false
  end = true.
Proof. vm_compute. reflexivity. Qed.
