(* ===== verification/ServiceProperties.v ===== *)
(** The properties of the services that work on datasets: increments between
    heads, resets of the head, access control, the dependency graph and the
    owners of datasets, each with an application to concrete data. *)

From S2P Require Import Prelude Multiformats Identity Dtos FlowService ChainRepos MetadataChain.
From S2P Require Import ChainVisitors ChainValidators ChainRules ChainAppend ChainInvariants.
From S2P Require Import ChainExample Dataset DatasetChanges.
From S2P Require Import Grammar Dids TextCodecsExample EventSourcing TaskSystem FlowSystem Messages Rebac.
From S2P Require Import FlowTimeWheel FlowStore DependencyGraph DependencyGraphExample DatasetOwnership.

Section Changes.
Context {C : BlockCodec} {BR RR : Type} `{!MetadataBlockRepository BR} `{!ReferenceRepository RR}.

Implicit Types (c : MetadataChainImpl BR RR) (l xs ys rest : list HashedMetadataBlock).

(** The increments of a dataset are exact and add up.  With the blocks
    [xs] on top of [ys] on top of [rest] in a valid chain (any of them may be
    missing), the increment since the head of [rest], that between the two older
    heads, and that since the head of [ys] are those of the blocks between: their
    number, the number of records they add, and the new watermark exactly if it
    differs from the one before.  Adding the later increment to the earlier one
    gives the increment of both. *)
Theorem increments_are_exact (find : DatasetRef -> res GetDatasetError (MetadataChainImpl BR RR))
    fuel c id xs ys rest mid :
  find (DatasetRef_ID id) = Ok c -> chain_state c (xs ++ ys ++ rest) ->
  head_hash (ys ++ rest) = Some mid -> length (xs ++ ys ++ rest) < fuel ->
  get_increment_since find fuel id (head_hash rest) = Some (Ok (increment_of (xs ++ ys) rest)) /\
  get_increment_between find fuel id (head_hash rest) mid = Some (Ok (increment_of ys rest)) /\
  get_increment_since find fuel id (Some mid) = Some (Ok (increment_of xs (ys ++ rest))) /\
  increment_of (xs ++ ys) rest =
    DatasetIntervalIncrement_add_assign (increment_of ys rest) (increment_of xs (ys ++ rest)).
Proof.
  intros Hc Hst Hm Hf.
  assert (Hne : xs ++ ys ++ rest <> []) by (destruct (ys ++ rest); [done|by destruct xs]).
  destruct (chain_state_head _ _ Hst Hne) as (h & Hh & _ & Hl).
  pose proof (cs_valid _ _ Hst) as Hv. rewrite length_app in Hf. split_and!.
  - rewrite (increment_since_chain _ _ _ _ _ _ Hc Hh).
    rewrite (make_increment_exact fuel c h (xs ++ ys) rest); rewrite <- ?app_assoc; [done..|].
    rewrite length_app. lia.
  - rewrite (increment_between_chain _ _ _ _ _ _ Hc).
    rewrite (make_increment_exact fuel c mid ys rest); [done|..|lia].
    + rewrite <- Hm. apply (linked_suffix _ xs), Hst.
    + by eapply valid_chain_app.
  - rewrite (increment_since_chain _ _ _ _ _ _ Hc Hh), <- Hm.
    rewrite (make_increment_exact fuel c h xs (ys ++ rest)); [done..|].
    rewrite length_app. lia.
  - by apply increments_add.
Qed.

(** There is no increment since a head the chain does not contain (as
    after a reset or a forced push): the call fails with an internal error and
    does not report a wrong number.  A dataset that is not found, or has no
    head, is reported as such. *)
Theorem increments_need_known_heads (find : DatasetRef -> res GetDatasetError (MetadataChainImpl BR RR))
    fuel id old :
  (forall c l, find (DatasetRef_ID id) = Ok c -> chain_state c l -> l <> [] -> length l < fuel ->
     old ∉ l.*1 ->
     get_increment_since find fuel id (Some old) =
       Some (Err (GetIncrementError_Internal mkInternalError))) /\
  (forall e, find (DatasetRef_ID id) = Err (GetDatasetError_NotFound e) ->
     get_increment_since find fuel id (Some old) = Some (Err (GetIncrementError_DatasetNotFound e))) /\
  (forall c e, find (DatasetRef_ID id) = Ok c ->
     rr_get (ref_repo c) BlockRef_Head = Err (GetRefError_NotFound e) ->
     get_increment_since find fuel id (Some old) = Some (Err (GetIncrementError_RefNotFound e))).
Proof.
  split_and!.
  - intros c l Hc Hst Hne Hf Ho. destruct (chain_state_head _ _ Hst Hne) as (h & Hh & _ & Hl).
    rewrite (increment_since_chain _ _ _ _ _ _ Hc Hh).
    by rewrite (make_increment_unknown _ _ _ _ _ Hl Hf Ho).
  - intros e He. unfold get_increment_since, resolve_dataset_by_id. by rewrite He.
  - intros c e Hc He. unfold get_increment_since, resolve_dataset_by_id, resolve_dataset_head.
    rewrite Hc. simpl. by rewrite He.
Qed.

(** C31.  Resetting a dataset returns, and does exactly one of these: it refuses,
    with nothing changed, when the user may not write or the head is not the
    one the caller saw; or the head moves to the given block, or to the seed,
    and the chain is what was there at that block; or moving the head fails and
    nothing changes.  No block is removed in any case. *)
Theorem reset_is_exact `{!LawfulRefRepo RR}
    (allowed : DatasetHandle -> DatasetAction -> res DatasetActionUnauthorizedError unit)
    fuel c l handle new old :
  chain_state c l -> l <> [] -> length l < fuel -> (forall x, x ∈ l -> Multihash_wf x.1) ->
  (forall h, new = Some h -> h ∈ l.*1) ->
  exists x c', reset_dataset allowed fuel c handle new old = Some (x, c') /\
    meta_block_repo c' = meta_block_repo c /\
    match allowed handle DatasetAction_Write, old with
    | Ok _, Some o =>
        if decide (Some o <> head_hash l)
        then c' = c /\ exists current, head_hash l = Some current /\
          x = Err (ResetError_OldHeadMismatch (mkOldHeadMismatchError current o))
        else is_ok x = false /\ c' = c \/ exists l1 h b l2, l = l1 ++ (h, b) :: l2 /\ x = Ok h /\
          (new = Some h \/ new = None /\ l2 = []) /\ chain_state c' ((h, b) :: l2)
    | Ok _, None =>
        is_ok x = false /\ c' = c \/ exists l1 h b l2, l = l1 ++ (h, b) :: l2 /\ x = Ok h /\
          (new = Some h \/ new = None /\ l2 = []) /\ chain_state c' ((h, b) :: l2)
    | Err e, _ => c' = c /\ x = Err (ResetError_from_Unauthorized e)
    | Panic, _ => c' = c /\ x = Panic
    end.
Proof.
  intros Hst Hne Hf Hwf Hnew.
  destruct (allowed handle DatasetAction_Write) as [[]|e|] eqn:Ha.
  2,3: unfold reset_dataset, reset_prepare; rewrite Ha; simpl; eauto 6.
  destruct (reset_prepare_allowed allowed fuel c l handle new old Hst Hne Hf Ha) as (h & Hh & Hp).
  destruct (head_hash_nonempty _ Hne) as [current Hcur].
  assert (exists l1 b l2, l = l1 ++ (h, b) :: l2 /\ (new = Some h \/ new = None /\ l2 = []))
    as (l1 & b & l2 & -> & Hn).
  { destruct Hh as [->|(-> & l1 & b & ->)]; [|by eauto 7].
    destruct (proj1 (list_elem_of_fmap _ _ _) (Hnew h eq_refl)) as ([h' b] & Heq & Hin).
    simpl in Heq; subst. apply list_elem_of_split in Hin as (l1 & l2 & ->). eauto 7. }
  assert (Hmove : exists x c', reset_move_head c h = (x, c') /\ meta_block_repo c' = meta_block_repo c /\
    (is_ok x = false /\ c' = c \/ exists l1' h' b' l2', l1 ++ (h, b) :: l2 = l1' ++ (h', b') :: l2' /\
       x = Ok h' /\ (new = Some h' \/ new = None /\ l2' = []) /\ chain_state c' ((h', b') :: l2'))).
  { destruct (reset_move_head c h) as [x c'] eqn:Hm. exists x, c'.
    destruct (reset_move_head_state c l1 h b l2 x c' Hst) as [Hr [[-> Hs]|[Hx ->]]]; [|done|..].
    - apply (Hwf (h, b)). set_solver.
    - split_and!; [done..|]. right. eauto 9.
    - split_and!; [done..|]. by left. }
  destruct Hmove as (x & c' & Hm & Hr & Hx). unfold reset_dataset. rewrite Hp, Hcur.
  destruct old as [o|]; cbn beta iota; [|by rewrite Hm; eauto].
  destruct (decide (o <> current)).
  - exists (Err (ResetError_OldHeadMismatch (mkOldHeadMismatchError current o))), c.
    rewrite decide_True by congruence. eauto 6.
  - rewrite Hm. exists x, c'. rewrite decide_False by (intros Hd; apply Hd; f_equal; by apply dec_stable). auto.
Qed.
End Changes.

(** * Concrete data *)

Definition ex_find (_ : DatasetRef) : res GetDatasetError ExChain := Ok ex_c4.
Definition ex_handle : DatasetHandle := mkDatasetHandle (ex_id 1) (mkDatasetAlias None (mkDatasetName "events")).

Lemma ex_c4_state : chain_state ex_c4 ex_chain.
Proof.
  split.
  - vm_compute. reflexivity.
  - repeat (econstructor; [vm_compute; reflexivity|]). constructor.
  - apply ex_chain_valid.
Qed.

Lemma ex_hashes_wf x : x ∈ ex_chain -> Multihash_wf x.1.
Proof.
  intros Hx. repeat (apply elem_of_cons in Hx as [->|Hx]; [|]); [..|by apply elem_of_nil in Hx];
    (split; [reflexivity|]; split; [unfold MAX_MULTIHASH_DIGEST_LEN; simpl; lia|reflexivity]).
Qed.

(** Two data blocks, of ten and five records, that raised the watermark from
    nothing to 5 and then to 7. *)
Lemma increments_are_exact_witness :
  get_increment_since ex_find 10 (ex_id 1) (Some (ex_hash 1)) =
    Some (Ok (mkDatasetIntervalIncrement 2 15 (Some 7%Z))) /\
  get_increment_since ex_find 10 (ex_id 1) (Some (ex_hash 2)) =
    Some (Ok (mkDatasetIntervalIncrement 1 5 (Some 7%Z))).
Proof.
  destruct (increments_are_exact ex_find 10 ex_c4 (ex_id 1) [(ex_hash 3, ex_data2)]
    [(ex_hash 2, ex_data1)] [(ex_hash 1, ex_schema); (ex_hash 0, ex_seed)] (ex_hash 2)
    eq_refl ex_c4_state eq_refl ltac:(simpl; lia)) as (H1 & _ & H2 & _).
  split; [refine (eq_trans H1 _)|refine (eq_trans H2 _)]; vm_compute; reflexivity.
Defined.

Lemma increments_need_known_heads_witness :
  get_increment_since ex_find 10 (ex_id 1) (Some (ex_hash 9)) =
    Some (Err (GetIncrementError_Internal mkInternalError)).
Proof.
  apply (proj1 (increments_need_known_heads ex_find 10 (ex_id 1) (ex_hash 9)) ex_c4 ex_chain eq_refl
    ex_c4_state); [done|simpl; lia|]. vm_compute. set_solver.
Defined.

Lemma reset_is_exact_witness :
  exists x c', reset_dataset (fun _ _ => Ok tt) 10 ex_c4 ex_handle None (Some (ex_hash 2)) = Some (x, c') /\
    c' = ex_c4 /\ is_ok x = false.
Proof.
  destruct (reset_is_exact (fun _ _ => Ok tt) 10 ex_c4 ex_chain ex_handle None (Some (ex_hash 2))
    ex_c4_state ltac:(done) ltac:(simpl; lia) ex_hashes_wf ltac:(done)) as (x & c' & Hr & _ & Hx).
  exists x, c'. split; [done|]. rewrite decide_True in Hx by (vm_compute; congruence).
  destruct Hx as (-> & current & _ & ->). split; reflexivity.
Defined.

(** The head is compared before it is moved, and moved without being compared
    again: a reset that was prepared when the chain ended in block 2 drops block
    3, which was appended in between, though the caller named block 2 as the
    head it saw. *)
Example reset_drops_concurrent_append :
  reset_prepare (fun _ _ => Ok tt) 10 ex_c3 ex_handle (Some (ex_hash 1)) (Some (ex_hash 2)) =
    Some (Ok (ex_hash 1)) /\
  append 10 ex_c3 ex_data2 AppendOpts_default = Some (Ok (ex_hash 3), ex_c4) /\
  (reset_move_head ex_c4 (ex_hash 1)).1 = Ok (ex_hash 1) /\
  resolve_ref (reset_move_head ex_c4 (ex_hash 1)).2 BlockRef_Head = Ok (ex_hash 1).
Proof. split_and!; [vm_compute; reflexivity|apply ex_append_data2|vm_compute; reflexivity..]. Qed.

(** * Access control *)

Section Access.
Context `{LawfulTextCodecs}.

(** The access-control service, on any repository that keeps the
    interface's promises, is a map from entities and property names to values
    with a set of relations.  A request either does exactly what the map's
    operation does, where removing what is absent and adding what is present are
    successes, or fails internally and changes nothing; repeating a request
    changes nothing more; and the properties and relations that are read are
    those of the map, each once. *)
Theorem rebac_service_refines_access_map {R : Type} `{!RebacRepository R, !LawfulRebacRepository R}
    (r : R) :
  (forall req x r', request_ids_ok req -> service_request req r = (x, r') ->
     (x = Ok tt /\ access_map r' = request_spec req (access_map r) \/
      x = Err mkInternalError /\ access_map r' = access_map r) /\
     request_spec req (request_spec req (access_map r)) = request_spec req (access_map r)) /\
  (forall id l, DidKey_ok (do_did (did_did id)) -> get_dataset_properties r id = Ok l ->
     lists l (fun x => am_properties (access_map r) !! (dataset_entity_of id, x.1) = Some x.2)) /\
  (forall id l, DidKey_ok (do_did (ac_did id)) -> get_account_properties r id = Ok l ->
     lists l (fun x => am_properties (access_map r) !! (account_entity_of id, x.1) = Some x.2)) /\
  (forall id l, DidKey_ok (do_did (ac_did id)) -> get_account_dataset_relations r id = Ok l ->
     lists l (fun x => (account_entity_of id, ewr_relation x, ewr_entity x)
                         ∈ am_relations (access_map r))).
Proof.
  split_and!.
  - intros req x r' Hok Hx. split; [by eapply service_request_refines|].
    apply request_spec_idempotent.
  - intros id l Hok. unfold get_dataset_properties. rewrite dataset_entity_ok by done.
    apply get_entity_properties_law.
  - intros id l Hok. unfold get_account_properties. rewrite account_entity_ok by done.
    apply get_entity_properties_law.
  - intros id l Hok. unfold get_account_dataset_relations. rewrite account_entity_ok by done.
    apply get_subject_entity_relations_law.
Qed.

(** With the in-memory repository, consuming any sequence of dataset
    life-cycle messages succeeds, and afterwards the visibility property that is
    read for a dataset is the one its last message gave it: its visibility when
    it was created, and none after it was deleted.  A message that is delivered
    twice in a row has the same effect as once. *)
Theorem visibility_follows_lifecycle ms :
  Forall message_ids_ok ms ->
  exists r, for_each consume_message ms InMemoryRebacRepository_new = (Ok tt, r) /\
    forall id, DidKey_ok (do_did (did_did id)) ->
      (exists l, get_dataset_properties r id = Ok l /\
         forall v, (PropertyName_Dataset DatasetPropertyName_AllowsPublicRead, v) ∈ l <->
           visibility_after id ms None = Some v) /\
      (forall ms1 m ms2 o, ms = ms1 ++ m :: ms2 ->
         visibility_after id (ms1 ++ m :: m :: ms2) o = visibility_after id ms o).
Proof.
  intros Hms. destruct (inmem_consume_all_total ms InMemoryRebacRepository_new Hms) as [r Hr].
  exists r. split; [done|]. intros id Hid. split.
  - destruct (consume_all_visibility ms _ _ id Hid Hms Hr) as [Hv _].
    unfold get_dataset_properties. rewrite dataset_entity_ok by done. simpl.
    destruct (inmem_get_entity_properties r (dataset_entity_of id)) as [l|[e]|] eqn:Hl.
    2,3: unfold inmem_get_entity_properties in Hl; by case_match.
    exists l. split; [done|]. intros v.
    pose proof (proj2 (get_entity_properties_law (R := InMemoryRebacRepository) r
      (dataset_entity_of id)) l) as Hin. destruct (Hin Hl) as [_ Hv'].
    rewrite Hv'. unfold public_read_of in Hv. cbn [fst snd]. rewrite Hv. simpl.
    by rewrite lookup_map_uncurry.
  - intros ms1 m ms2 o ->. unfold visibility_after. rewrite !fold_left_app. simpl. f_equal.
    unfold visibility_step. destruct m; repeat case_decide; done.
Qed.
End Access.

(** A dataset is created as public, created again by a repeated message, and
    another one is deleted. *)
Definition ex_created : DatasetLifecycleMessage :=
  DatasetLifecycleMessage_Created
    (mkDatasetLifecycleMessageCreated example_id (mkAccountID (did_did example_id))
       DatasetVisibility_Public).

Lemma ex_created_ok : message_ids_ok ex_created.
Proof. intros req [= <-]. exact example_id_ok. Qed.

Lemma rebac_service_refines_access_map_witness :
  exists r', service_request (RebacRequest_SetDatasetProperty example_id
      DatasetPropertyName_AllowsAnonymousRead "true") InMemoryRebacRepository_new = (Ok tt, r') /\
    access_map r' = request_spec (RebacRequest_SetDatasetProperty example_id
      DatasetPropertyName_AllowsAnonymousRead "true") (mkAccessMap ∅ ∅).
Proof.
  destruct (service_request (RebacRequest_SetDatasetProperty example_id
    DatasetPropertyName_AllowsAnonymousRead "true") InMemoryRebacRepository_new) as [x r'] eqn:Hr.
  exists r'. destruct (proj1 (rebac_service_refines_access_map InMemoryRebacRepository_new)
    (RebacRequest_SetDatasetProperty example_id DatasetPropertyName_AllowsAnonymousRead "true")
    x r' example_id_ok Hr) as [[[-> Hm]|[-> _]] _]; [done|].
  assert (Hx : is_ok (service_request (RebacRequest_SetDatasetProperty example_id
    DatasetPropertyName_AllowsAnonymousRead "true") InMemoryRebacRepository_new).1 = true)
    by (vm_compute; reflexivity).
  rewrite Hr in Hx. discriminate Hx.
Defined.

Lemma visibility_follows_lifecycle_witness :
  exists r l, for_each consume_message [ex_created; ex_created] InMemoryRebacRepository_new = (Ok tt, r) /\
    get_dataset_properties r example_id = Ok l /\
    (PropertyName_Dataset DatasetPropertyName_AllowsPublicRead, "true") ∈ l.
Proof.
  destruct (visibility_follows_lifecycle [ex_created; ex_created]) as (r & Hr & Hv).
  - by repeat constructor; apply ex_created_ok.
  - destruct (Hv example_id example_id_ok) as [(l & Hl & Hin) _].
    exists r, l. split; [done|]. split; [done|]. apply Hin. vm_compute. reflexivity.
Defined.

(** Deleting a dataset removes its properties and leaves the relations accounts
    have with it. *)
Example relations_outlive_datasets :
  let a := mkAccountID (did_did example_id) in
  let r := (service_request (RebacRequest_InsertRelation a AccountToDatasetRelation_Reader example_id)
              InMemoryRebacRepository_new).2 in
  let r' := (consume_message (DatasetLifecycleMessage_Deleted (mkDatasetLifecycleMessageDeleted example_id)) r).2 in
  get_account_dataset_relations r' a =
    Ok [mkEntityWithRelation (dataset_entity_of example_id)
          (Relation_AccountToDataset AccountToDatasetRelation_Reader)].
Proof. vm_compute. reflexivity. Qed.

(** Once the last property of an entity was removed, removing them all still
    succeeds in memory, where a table without a row reports "not found". *)
Example emptied_entity_is_found :
  let e := Entity_new_dataset [] in
  let p := PropertyName_Dataset DatasetPropertyName_AllowsPublicRead in
  let r := (inmem_set_entity_property e p "true" InMemoryRebacRepository_new).2 in
  let r' := (inmem_delete_entity_property e p r).2 in
  inmem_get_entity_properties r' e = Ok [] /\
  (inmem_delete_entity_properties e r').1 = Ok tt /\
  is_ok (inmem_delete_entity_properties e InMemoryRebacRepository_new).1 = false.
Proof. vm_compute. auto. Qed.

(** * Dependencies *)

Section Dependencies.
Context {G Ix Ex : Type} `{Countable Ix} `{!DiGraph G Ix Ex} `{!LawfulDiGraph G Ix Ex}.

(** C32.  The dependency graph service is a set of datasets and of dependencies.
    It starts empty; the initial scan adds what the repository lists, up to the
    first error in the list; a message creates a dataset, deletes one with its
    dependencies, or replaces the dependencies of one, and is refused with
    nothing changed when that dataset is not known; and the direct upstream and
    downstream datasets that are listed are exactly those of the set, each
    once. *)
Theorem dependency_graph_refines_map :
  represents (G := G) (Ix := Ix) State_default dm_empty /\
  (forall (st : DependencyGraphState G Ix) m, represents st m ->
     (forall s, dgs_initially_scanned st = false -> Forall (fun x => x <> Panic) s ->
        exists st', eager_initialization s st = (Ok tt, st') /\ dgs_initially_scanned st' = true /\
          represents st' (foldl (fun m d => dm_scan d m) m (scanned_items s))) /\
     (forall message, exists x st', dg_consume_message message st = (x, st') /\
        dgs_initially_scanned st' = dgs_initially_scanned st /\
        if decide (message_known message m)
        then x = Ok tt /\ represents st' (message_spec message m)
        else x = Err mkInternalError /\ st' = st) /\
     (forall repository id, dgs_initially_scanned st = true ->
        if decide (id ∈ dm_nodes m) then
          (exists l, get_downstream_dependencies repository id st = (Ok l, st) /\ lists l (depends m id)) /\
          (exists l, get_upstream_dependencies repository id st = (Ok l, st) /\
             lists l (fun up => depends m up id))
        else
          get_downstream_dependencies repository id st =
            (Err (GetDependenciesError_DatasetNotFound (mkDatasetNodeNotFoundError id)), st) /\
          get_upstream_dependencies repository id st =
            (Err (GetDependenciesError_DatasetNotFound (mkDatasetNodeNotFoundError id)), st))).
Proof.
  split; [apply represents_default|]. intros st m Hr. split_and!.
  - intros s Hs Hp. by apply eager_initialization_spec.
  - intros message. by apply consume_message_refines.
  - intros repository id Hs.
    unfold get_downstream_dependencies, get_upstream_dependencies, mbind, action_bind,
      scanned_or_error, ensure_datasets_initially_scanned, read, neighbor_ids, get_dataset_node.
    rewrite Hs. simpl. case_decide as Hid; rewrite (rp_nodes _ _ Hr) in Hid.
    + destruct Hid as [i Hi]. rewrite Hi. simpl.
      destruct (neighbors_spec (E := GetDependenciesError) st m id i Direction_Outgoing Hr Hi) as (l & -> & Hl).
      destruct (neighbors_spec (E := GetDependenciesError) st m id i Direction_Incoming Hr Hi) as (l' & -> & Hl').
      eauto 6.
    + apply eq_None_not_Some in Hid. by rewrite Hid.
Qed.

(** The recursive queries list all datasets downstream of the given ones, or
    all upstream of them, the given ones included, each once.  In the downstream
    list a dataset comes after all datasets that depend on it (unless they
    depend on each other), so that deleting in that order never removes a dataset
    that is still needed.  If one of the given datasets is not known, the query
    fails with that. *)
Theorem recursive_dependencies_exact (st : DependencyGraphState G Ix) m repository ids :
  represents st m -> dgs_initially_scanned st = true ->
  (Forall (.∈ dm_nodes m) ids ->
     (exists l, get_recursive_downstream_dependencies repository ids st = (Ok l, st) /\
        lists l (fun w => exists a, a ∈ ids /\ rtc (depends m) a w) /\
        forall u v, u ∈ l -> depends m u v -> ~ rtc (depends m) v u -> before l v u) /\
     (exists l, get_recursive_upstream_dependencies repository ids st = (Ok l, st) /\
        lists l (fun w => exists a, a ∈ ids /\ rtc (depends m) w a))) /\
  (forall id, id ∈ ids -> ~ id ∈ dm_nodes m -> exists e,
     get_recursive_downstream_dependencies repository ids st =
       (Err (GetDependenciesError_DatasetNotFound e), st) /\
     get_recursive_upstream_dependencies repository ids st =
       (Err (GetDependenciesError_DatasetNotFound e), st)).
Proof.
  intros Hr Hs.
  unfold get_recursive_downstream_dependencies, get_recursive_upstream_dependencies, mbind,
    action_bind, scanned_or_panic, ensure_datasets_initially_scanned, read. rewrite Hs. split.
  - intros Hids. destruct (depth_first_spec st m ids Hr Hids) as (l & -> & Hl).
    destruct (breadth_first_spec st m ids Hr Hids) as (l' & -> & Hl'). eauto 6.
  - intros id Hin Hn. destruct (proj2 (get_nodes_spec st m ids Hr) id Hin Hn) as [e He]. exists e.
    unfold run_recursive_depth_first_search, run_recursive_reversed_breadth_first_search.
    by rewrite He.
Qed.
End Dependencies.

(** Dataset 2 is derived from 1, and 3 from both. *)
Definition ex_dependencies : DatasetDependenciesIDStream :=
  [Ok (mkDatasetDependencies (ex_id 1) []); Ok (mkDatasetDependencies (ex_id 2) [ex_id 1]);
   Ok (mkDatasetDependencies (ex_id 3) [ex_id 1; ex_id 2])].

Definition ex_graph : DependencyGraphState SimpleGraph nat :=
  (eager_initialization ex_dependencies State_default).2.
Definition ex_map : DependencyMap :=
  foldl (fun m d => dm_scan d m) dm_empty (scanned_items ex_dependencies).

Lemma ex_dependencies_ok : Forall (fun x => x <> Panic) ex_dependencies.
Proof. by repeat constructor. Qed.

Lemma ex_graph_represents : dgs_initially_scanned ex_graph = true /\ represents ex_graph ex_map.
Proof.
  destruct (eager_initialization_spec ex_dependencies State_default dm_empty represents_default eq_refl
    ex_dependencies_ok) as (st' & Hst & Hs & Hr).
  unfold ex_graph. by rewrite Hst.
Qed.

Lemma dependency_graph_refines_map_witness :
  exists l, get_downstream_dependencies None (ex_id 1) ex_graph = (Ok l, ex_graph) /\
    ex_id 2 ∈ l /\ ex_id 3 ∈ l.
Proof.
  destruct ex_graph_represents as [Hs Hr].
  pose proof (proj2 (proj2 (proj2 dependency_graph_refines_map ex_graph ex_map Hr)) None (ex_id 1) Hs) as Hq.
  rewrite decide_True in Hq by (vm_compute; reflexivity).
  destruct Hq as [(l & Hl & _ & Hin) _]. exists l. split; [done|].
  split; apply Hin; vm_compute; reflexivity.
Defined.

(** Three is listed before two, and two before one. *)
Lemma recursive_dependencies_exact_witness :
  exists l, get_recursive_downstream_dependencies None [ex_id 1] ex_graph = (Ok l, ex_graph) /\
    lists l (fun w => exists a, a ∈ [ex_id 1] /\ rtc (depends ex_map) a w).
Proof.
  destruct ex_graph_represents as [Hs Hr].
  destruct (proj1 (recursive_dependencies_exact ex_graph ex_map None [ex_id 1] Hr Hs)) as [(l & Hl & Hlist & _) _].
  - constructor; [vm_compute; reflexivity|constructor].
  - exists l. done.
Defined.

Example recursive_downstream_order :
  (get_recursive_downstream_dependencies None [ex_id 1] ex_graph).1 = Ok [ex_id 3; ex_id 2; ex_id 1].
Proof. vm_compute. reflexivity. Qed.

(** An error in the list ends the scan silently: the datasets after it are not
    known, and will not be scanned again. *)
Example scan_stops_at_error :
  let st := (eager_initialization (Ok (mkDatasetDependencies (ex_id 1) []) :: Err mkInternalError ::
               ex_dependencies) (State_default (G := SimpleGraph) (Ix := nat))).2 in
  dgs_initially_scanned st = true /\
  (get_downstream_dependencies (Some ex_dependencies) (ex_id 2) st).1 =
    Err (GetDependenciesError_DatasetNotFound (mkDatasetNodeNotFoundError (ex_id 2))).
Proof. vm_compute. split; reflexivity. Qed.

(** * Owners *)

(** As long as every dataset is created by its owner, the two indexes of
    the ownership service agree: after the initial scan and any messages, the
    owner of a dataset, the datasets of an account and the ownership test all
    answer from one set of existing datasets, which grows with a creation and
    shrinks with a deletion.  Before the scan, every query and every deletion is
    refused. *)
Theorem ownership_follows_lifecycle owner_of (st : DatasetOwnershipState) live :
  owns owner_of st live ->
  (dos_initially_scanned st = true ->
     (forall message, owner_message owner_of message -> exists st',
        do_consume_message message st = (Ok tt, st') /\
        owns owner_of st' (live_after message live) /\ dos_initially_scanned st' = true) /\
     (forall d, get_dataset_owners st d = Ok (if decide (d ∈ live) then [owner_of d] else [])) /\
     (forall a, exists l, get_owned_datasets st a = Ok l /\
        lists l (fun d => d ∈ live /\ owner_of d = a)) /\
     (forall d a, is_dataset_owned_by st d a = Ok (bool_decide (d ∈ live /\ owner_of d = a)))) /\
  (dos_initially_scanned st = false ->
     (forall d a, get_dataset_owners st d = Err mkInternalError /\
        get_owned_datasets st a = Err mkInternalError /\
        is_dataset_owned_by st d a = Err mkInternalError /\
        do_consume_message (DatasetLifecycleMessage_Deleted (mkDatasetLifecycleMessageDeleted d)) st =
          (Err mkInternalError, st)) /\
     (forall subject find s os, (forall a b, AccountName_eq a b = true -> find a = find b) ->
        Forall (fun x => x <> Panic) s ->
        Forall2 (handle_owner owner_of subject find) (scanned_handles s) os ->
        exists st', do_eager_initialization subject find s st = (Ok tt, st') /\
          dos_initially_scanned st' = true /\
          owns owner_of st' (list_to_set (owned_ids (scanned_handles s) os) ∪ live))).
Proof.
  intros Hst. split; intros Hs; [split|split].
  - intros message Hm. by apply consume_ownership.
  - by apply ownership_queries.
  - intros d a. unfold get_dataset_owners, get_owned_datasets, is_dataset_owned_by, do_consume_message,
      get_dataset_owners, check_has_initialized. by rewrite Hs.
  - intros subject find s os Hf Hp Hos.
    destruct (scan_owners_spec owner_of subject find Hf s ∅ st live os) as (st' & Hr & Hst'); try done.
    unfold do_eager_initialization. rewrite Hs, Hr. eexists. split_and!; [done..|].
    by apply owns_scanned.
Qed.

Definition ex_account : AccountID := mkAccountID (mkDidOdf (mkDidKey [9%Z])).

Lemma ownership_follows_lifecycle_witness :
  exists st, do_eager_initialization
      (CurrentAccountSubject_Logged (mkLoggedAccount ex_account (mkAccountName "kamu") false))
      (fun _ => Ok (Some ex_account)) [Ok ex_handle] DatasetOwnershipState_default = (Ok tt, st) /\
    owns (fun _ => ex_account) st ({[ex_id 1]} ∪ ∅ ∪ ∅).
Proof.
  destruct (proj2 (proj2 (ownership_follows_lifecycle (fun _ => ex_account) DatasetOwnershipState_default ∅
    (owns_default _)) eq_refl)
    (CurrentAccountSubject_Logged (mkLoggedAccount ex_account (mkAccountName "kamu") false))
    (fun _ => Ok (Some ex_account)) [Ok ex_handle] [Some ex_account]) as (st & Hr & _ & Hst).
  - done.
  - by repeat constructor.
  - repeat constructor. exists (mkAccountName "kamu"). split_and!; [done..|]. by intros a [= <-].
  - exists st. split; [done|]. exact Hst.
Defined.

(** A dataset that is created again by another account stays in the first
    account's index. *)
Example changed_owner_is_kept :
  let other := mkAccountID (mkDidOdf (mkDidKey [8%Z])) in
  let st := insert_dataset_record (ex_id 1) other
              (insert_dataset_record (ex_id 1) ex_account (mkDatasetOwnershipState ∅ ∅ true)) in
  get_dataset_owners st (ex_id 1) = Ok [other] /\ get_owned_datasets st ex_account = Ok [ex_id 1].
Proof. vm_compute. split; reflexivity. Qed.
