(* ===== verification/RepositoryProperties.v ===== *)
(** The properties of dataset repositories: what a snapshot becomes, and the
    repository on a local file system, each with an application to concrete
    data. *)

From S2P Require Import Prelude Multiformats Grammar Dids Identity References ReferenceFacts Dtos.
From S2P Require Import ChainRepos ObjectRepoFs MetadataChain ChainVisitors.
From S2P Require Import ChainValidators ChainRules ChainAppend ChainInvariants ChainExample Dataset Sync.
From S2P Require Import EventSourcing TaskSystem FlowSystem Messages FlowTimeWheel FlowStore FlowService.
From S2P Require Import DatasetChanges DatasetOwnership Snapshots DatasetRepositoryFs DatasetRepositoryFacts.
From Stdlib Require Import Ascii.

(** * Snapshots *)

Section Snapshots.
Context {C : BlockCodec} {TC : TextCodecs} {W BR RR : Type} `{!MetadataBlockRepository BR}
        `{!ReferenceRepository RR} `{!LawfulBlockRepo BR} `{!LawfulRefRepo RR}
        `{!DatasetWorkspace W BR RR} `{!LawfulDatasetWorkspace W BR RR}.
Variable debug_event : MetadataEvent -> string.
Variable show_validation_error : AppendValidationError -> string.

(** C28.  The events of a snapshot that is accepted are well-formed, one for each
    event given: they suit the kind of the dataset, every input is named by the
    id of a dataset that exists and has an alias, every transform consists of
    steps with at most one output; preparing them again changes nothing.  When
    inputs do not exist, the error names exactly those, in their order. *)
Theorem snapshot_events_well_formed (resolve : DatasetRef -> res GetDatasetError DatasetHandle)
    name kind events :
  (forall id hdl, resolve (DatasetRef_ID id) = Ok hdl -> dh_id hdl = id) ->
  (forall r hdl, resolve r = Ok hdl -> is_ok (resolve (DatasetRef_ID (dh_id hdl))) = true) ->
  (forall es, prepare_events resolve debug_event name kind events = Ok es ->
     Forall (event_prepared kind) es /\ length es = length events /\
     prepare_events resolve debug_event name kind es = Ok es) /\
  (forall inputs e, resolve_transform_inputs resolve inputs name =
       Err (CreateDatasetFromSnapshotError_MissingInputs e) ->
     mie_dataset_ref e = DatasetRef_Alias name /\ mie_missing_inputs e <> [] /\
     mie_missing_inputs e = filter (unresolved resolve) (map ti_dataset_ref inputs)).
Proof.
  intros Hid Hdom. split.
  - intros es Hes. split_and!; [by eapply prepare_events_ok| |].
    + apply prepare_events_forall2, Forall2_length in Hes. done.
    + by eapply prepare_again.
  - intros inputs e. apply missing_inputs_exact.
Qed.

(** The store files a block under a hash of its own. *)
Variable block_hash : MetadataBlock -> Multihash.
Hypothesis stored_under : forall (r r' : BR) b o h,
  insert_block r b o = (Ok h, r') -> io_precomputed_hash o = None -> h = block_hash b.

End Snapshots.

(** * The repository on a local file system *)

Section LocalFs.
Context {C : BlockCodec} `{LawfulTextCodecs} `{!TextBytes} `{!LawfulTextBytes} {BR RR DR CR IR : Type}
        `{!MetadataBlockRepository BR} `{!ReferenceRepository RR} `{!NamedObjectRepository IR}
        `{!LawfulBlockRepo BR} `{!LawfulRefRepo RR} `{!LawfulInfoRepo IR}.

Abbreviation Root := (directory (RootEntry (BR := BR) (RR := RR) (DR := DR) (CR := CR) (IR := IR))).

Variable subject : CurrentAccountSubject.
Variable new_dataset : DatasetImpl BR RR DR CR IR.

Implicit Types (root : Root).

(** C30.  Looking datasets up in the directories is exact.  By its identifier or
    by the name in any letter case, in the account it names or in that of the
    user, exactly the dataset that has it is found, and what is not there is
    reported as not found; the listing has every dataset once, and each of them
    is found again by its identifier and by its name. *)
Theorem repository_lookups_exact root t :
  repository_state root t ->
  (forall alias acc, effective_account_name (E := ResolveDatasetError) subject alias = Ok acc ->
     resolve_dataset_ref subject root (DatasetRef_Alias alias) =
       match lookup_alias t acc (da_dataset_name alias) with
       | Some h => Ok h
       | None => Err (GetDatasetError_NotFound (mkDatasetNotFoundError (DatasetRef_Alias alias)))
       end) /\
  (forall id, id_ok id ->
     resolve_dataset_ref subject root (DatasetRef_ID id) =
       match lookup_id t id with
       | Some h => Ok h
       | None => Err (GetDatasetError_NotFound (mkDatasetNotFoundError (DatasetRef_ID id)))
       end) /\
  get_all_datasets root = (concat (map (fun x => map (handle_as x.1) x.2) t), Ok tt) /\
  (forall x d, x ∈ t -> d ∈ x.2 ->
     lookup_id t d.1 = Some (handle_as x.1 d) /\
     forall acc n, account_key acc = account_key x.1 -> name_key n = name_key (da_dataset_name d.2) ->
       lookup_alias t acc n = Some (handle_as acc d)).
Proof.
  intros [Hr Hok _]. split_and!.
  - intros alias acc He. simpl. rewrite (resolve_alias_shows subject root t alias acc Hr Hok He).
    by destruct (lookup_alias _ _ _).
  - intros id Hid. simpl. rewrite (resolve_id_shows root t id Hr Hid). by destruct (lookup_id _ _).
  - by apply all_datasets_shows.
  - intros x d Hx Hd. split; [by apply lookup_id_elem|]. intros acc n Ha Hn. by eapply lookup_alias_elem.
Qed.


(** A dataset whose creation was interrupted before its name was saved
    hides the datasets that are listed after it: looking up their names fails,
    although the listing has them, and their names count as free. *)
Theorem half_created_hides_names root t acc alias dir1 l1 n d dir2 id e :
  acts_in subject t alias acc ->
  dir_get root (text (an_str acc)) = Some (AccountDir (dir1 ++ (n, d) :: dir2)) ->
  Forall2 dataset_shows dir1 l1 -> named (da_dataset_name alias) l1 = None ->
  id_ok id -> DidOdf_as_multibase (did_did id) = Ok n ->
  nr_get (dsi_info_repo d) "alias" = Err (GetNamedError_NotFound e) ->
  resolve_dataset_ref subject root (DatasetRef_Alias alias) =
    Err (GetDatasetError_NotFound (mkDatasetNotFoundError (DatasetRef_ID id))) /\
  check_name_is_free subject new_dataset root alias = Ok tt /\
  forall l2, Forall2 dataset_shows dir2 l2 ->
    get_datasets_by_owner root acc = (map (handle_as acc) (l1 ++ l2), Ok tt).
Proof.
  intros Ha Hd Hf1 Hn Hid Hm He.
  assert (Hr : resolve_dataset_ref subject root (DatasetRef_Alias alias) =
    Err (GetDatasetError_NotFound (mkDatasetNotFoundError (DatasetRef_ID id)))).
  { unfold resolve_dataset_ref, resolve_dataset_alias, resolve_account_dir.
    rewrite (effective_acts subject t alias acc Ha). cbn [res_bind]. rewrite Hd. cbn [fst]. rewrite Hd.
    by rewrite (find_alias_stops acc alias dir1 l1 n d dir2 id e). }
  split_and!; [done| |].
  - unfold check_name_is_free. by rewrite Hr.
  - intros l2 Hf2. unfold get_datasets_by_owner. rewrite Hd. by eapply stream_skips.
Qed.
End LocalFs.

(** * Concrete data *)

From S2P Require Import TextCodecsExample.

(** Texts are kept in the digest of a hash. *)
#[local] Instance ex_texts : TextBytes := {|
  as_bytes s := inr (mkMultihash (map (fun c => Z.of_N (N_of_ascii c)) s) 0%nat Multicodec_Sha3_256);
  from_utf8 d :=
    match d with
    | inr h => Some (map (fun z => ascii_of_N (Z.to_N z)) (mh_buf h))
    | inl _ => None
    end
|}.

#[local] Instance ex_texts_lawful : LawfulTextBytes.
Proof.
  split. intros s. simpl. f_equal. rewrite map_map. induction s as [|c s IH]; [done|]. simpl.
  by rewrite N2Z.id, ascii_N_embedding, IH.
Qed.

Abbreviation ExDataset :=
  (DatasetImpl (MetadataBlockRepositoryImpl ObjectRepositoryInMemory)
     (ReferenceRepositoryImpl NamedObjectRepositoryInMemory) unit unit NamedObjectRepositoryInMemory).

Definition ex_new : ExDataset := mkDatasetImpl ex_empty tt tt NamedObjectRepositoryInMemory_new.
Definition ex_kamu : AccountName := mkAccountName "kamu".
Definition ex_user : CurrentAccountSubject :=
  CurrentAccountSubject_Logged (mkLoggedAccount (mkAccountID (did_did (ex_id 9))) ex_kamu false).
Definition ex_alias (n : string) : DatasetAlias := mkDatasetAlias (Some ex_kamu) (mkDatasetName n).
Definition ex_seed_of (n : Z) (k : DatasetKind) : MetadataBlockTyped Seed :=
  mkMetadataBlockTyped 0%Z None 0%Z (mkSeed (ex_id n) k).

Abbreviation ExRoot := (directory (RootEntry
  (BR := MetadataBlockRepositoryImpl ObjectRepositoryInMemory)
  (RR := ReferenceRepositoryImpl NamedObjectRepositoryInMemory)
  (DR := unit) (CR := unit) (IR := NamedObjectRepositoryInMemory))).

(** The root with the dataset kamu/events. *)
Definition ex_root : ExRoot :=
  match create_dataset ex_user ex_new 1 [] (ex_alias "events") (ex_seed_of 1 DatasetKind_Root) with
  | Some (_, root) => root
  | None => []
  end.

Lemma ex_id_ok n : (0 <= n < 256)%Z -> id_ok (ex_id n).
Proof. intros Hn. split; [done|]. by apply (Forall_replicate is_byte 32). Qed.

Lemma ex_name_ok s : match match_hostname (text s) with Some (h, []) => true | _ => false end = true ->
  name_ok s.
Proof.
  destruct (match_hostname (text s)) as [[h [|]]|] eqn:Hm; [|done..]. by apply match_hostname_all in Hm as [_ ?].
Qed.

Lemma ex_acts t n : (forall x, account_of t ex_kamu = Some x -> x.1 = ex_kamu) ->
  acts_in ex_user t (ex_alias n) ex_kamu.
Proof. intros Hx. split; [done|by apply ex_name_ok|done]. Qed.

Lemma ex_empty_root : repository_state (C := ex_codec) ([] : ExRoot) [].
Proof.
  split; [constructor| |done]. split; [constructor|constructor|set_solver|set_solver].
Qed.

Definition ex_accounts : Accounts := [(ex_kamu, [(ex_id 1, ex_alias "events")])].

Lemma ex_root_state : repository_state ex_root ex_accounts.
Proof.
  destruct (create_shows ex_user ex_new 1 [] [] (ex_alias "events") ex_kamu (ex_seed_of 1 DatasetKind_Root)
    ex_empty_root (ex_acts [] "events" ltac:(done)) ltac:(split; by apply ex_name_ok) ltac:(lia) eq_refl
    (ex_id_ok 1 ltac:(lia)) ltac:(set_solver) eq_refl eq_refl) as (m & x & root & _ & Hc & _ & Hx).
  assert (Hok : match create_dataset ex_user ex_new 1 [] (ex_alias "events") (ex_seed_of 1 DatasetKind_Root)
                with Some (x, _) => is_ok x | None => false end = true) by (vm_compute; reflexivity).
  unfold ex_root. rewrite Hc in Hok |- *. destruct x as [[h head]| |]; [|done..].
  by apply (Hx h head).
Qed.

Lemma ex_accounts_exact x : account_of ex_accounts ex_kamu = Some x -> x.1 = ex_kamu.
Proof. vm_compute. by intros [= <-]. Qed.

(** The name is found in any case. *)
Lemma repository_lookups_exact_witness :
  resolve_dataset_ref ex_user ex_root (DatasetRef_Alias (mkDatasetAlias None (mkDatasetName "EVENTS"))) =
    Ok (mkDatasetHandle (ex_id 1) (ex_alias "events")) /\
  resolve_dataset_ref ex_user ex_root (DatasetRef_ID (ex_id 2)) =
    Err (GetDatasetError_NotFound (mkDatasetNotFoundError (DatasetRef_ID (ex_id 2)))).
Proof.
  destruct (repository_lookups_exact ex_user ex_root ex_accounts ex_root_state) as (Ha & Hi & _).
  split.
  - exact (Ha (mkDatasetAlias None (mkDatasetName "EVENTS")) ex_kamu eq_refl).
  - exact (Hi (ex_id 2) (ex_id_ok 2 ltac:(lia))).
Defined.


(** kamu/events is listed after a directory that was left behind. *)
Definition ex_dir (n : Z) : str :=
  match DidOdf_as_multibase (did_did (ex_id n)) with Ok m => m | _ => [] end.

Definition ex_events : ExDataset :=
  default ex_new (dataset_at ex_root (text "kamu", ex_dir 1)).

Lemma half_created_hides_names_witness :
  let root : ExRoot := [(text "kamu", AccountDir [(ex_dir 2, ex_new); (ex_dir 1, ex_events)])] in
  is_ok (resolve_dataset_ref ex_user root (DatasetRef_Alias (ex_alias "events"))) = false /\
  check_name_is_free ex_user ex_new root (ex_alias "events") = Ok tt /\
  get_datasets_by_owner root ex_kamu = ([mkDatasetHandle (ex_id 1) (ex_alias "events")], Ok tt).
Proof.
  intros root.
  assert (Hev : Forall2 dataset_shows [(ex_dir 1, ex_events)] [(ex_id 1, ex_alias "events")]).
  { constructor; [|constructor]. split; [vm_compute; reflexivity|]. split; [apply ex_id_ok; lia|].
    eexists _, _. split; [vm_compute; reflexivity|]. split; vm_compute; reflexivity. }
  destruct (half_created_hides_names ex_user ex_new root [] ex_kamu (ex_alias "events") [] [] (ex_dir 2)
    ex_new [(ex_dir 1, ex_events)] (ex_id 2) _ (ex_acts [] "events" ltac:(done)) eq_refl
    (List.Forall2_nil _) eq_refl (ex_id_ok 2 ltac:(lia)) eq_refl eq_refl) as (Hr & Hf & Hl).
  split; [by rewrite Hr|]. split; [exact Hf|]. exact (Hl _ Hev).
Defined.

(** A dataset that was created without naming the account, and is looked up with
    the account in another case: it is found, but its handle leads to a
    directory that does not exist, so that the dataset seems to be empty. *)
Definition ex_other_case : DatasetAlias := mkDatasetAlias (Some (mkAccountName "KAMU")) (mkDatasetName "events").

Definition ex_short_root : ExRoot :=
  match create_dataset ex_user ex_new 1 [] (mkDatasetAlias None (mkDatasetName "events"))
          (ex_seed_of 1 DatasetKind_Root) with
  | Some (_, root) => root
  | None => []
  end.

Example other_case_seems_empty :
  resolve_dataset_ref ex_user ex_short_root (DatasetRef_Alias ex_other_case) =
    Ok (mkDatasetHandle (ex_id 1) ex_other_case) /\
  get_dataset_by_handle (E := unit) ex_user ex_new ex_short_root (mkDatasetHandle (ex_id 1) ex_other_case) =
    Ok ex_new /\
  is_ok (find_dataset_by_ref ex_user ex_new ex_short_root
           (DatasetRef_Alias (mkDatasetAlias None (mkDatasetName "events")))) = true.
Proof. split_and!; vm_compute; reflexivity. Qed.

(** A derivative dataset that reads kamu/events. *)
Definition ex_transform_event : MetadataEvent :=
  MetadataEvent_SetTransform
    (mkSetTransform [mkTransformInput (DatasetRef_Alias (ex_alias "events")) None]
       (Transform_Sql (mkTransformSql "datafusion" None (Some "select 1") None None))).

Definition ex_snapshot : DatasetSnapshot :=
  mkDatasetSnapshot (ex_alias "sums") DatasetKind_Derivative [ex_transform_event].

Definition ex_prepared : MetadataEvent :=
  MetadataEvent_SetTransform
    (mkSetTransform [mkTransformInput (DatasetRef_ID (ex_id 1)) (Some "kamu/events")]
       (Transform_Sql (mkTransformSql "datafusion" None None (Some [mkSqlQueryStep None "select 1"]) None))).

Lemma ex_prepare :
  prepare_events (resolve_dataset_ref ex_user ex_root) (fun _ => "") (ex_alias "sums")
    DatasetKind_Derivative [ex_transform_event] = Ok [ex_prepared].
Proof. vm_compute. reflexivity. Qed.

(** The input is named by its id, under the reference it was given by. *)
Definition ex_resolve (r : DatasetRef) : res GetDatasetError DatasetHandle :=
  match r with
  | DatasetRef_ID id => Ok (mkDatasetHandle id (ex_alias "events"))
  | DatasetRef_Alias _ => Ok (mkDatasetHandle (ex_id 1) (ex_alias "events"))
  | DatasetRef_Handle h => Ok h
  end.

Lemma snapshot_events_well_formed_witness :
  event_prepared DatasetKind_Derivative ex_prepared /\
  prepare_events ex_resolve (fun _ => "") (ex_alias "sums") DatasetKind_Derivative [ex_prepared] =
    Ok [ex_prepared].
Proof.
  assert (H1 : forall id hdl, ex_resolve (DatasetRef_ID id) = Ok hdl -> dh_id hdl = id)
    by by intros id hdl [= <-].
  assert (H2 : forall r hdl, ex_resolve r = Ok hdl -> is_ok (ex_resolve (DatasetRef_ID (dh_id hdl))) = true)
    by done.
  destruct (proj1 (snapshot_events_well_formed (fun _ => "") ex_resolve (ex_alias "sums")
    DatasetKind_Derivative [ex_transform_event] H1 H2) [ex_prepared] ltac:(vm_compute; reflexivity))
    as (Hf & _ & Hp). split; [|exact Hp]. by apply Forall_inv in Hf.
Defined.

Lemma ex_stored_under (r r' : MetadataBlockRepositoryImpl ObjectRepositoryInMemory) b o h :
  insert_block r b o = (Ok h, r') -> io_precomputed_hash o = None -> h = ex_hash (mb_sequence_number b).
Proof.
  destruct o as [p e s]. intros Hi Hp. simpl in Hp. subst p. revert Hi. simpl.
  unfold mbr_insert_block, mbr_insert_block_data. simpl. unfold obj_mem_insert_bytes. simpl.
  destruct e as [x|]; simpl; [case_decide|]; simpl; by intros [= <- <-].
Qed.

#[local] Existing Instance local_workspace.
#[local] Existing Instance local_workspace_lawful.

