(* ===== verification/UseCaseProperties.v ===== *)
(** The properties of the use cases that change datasets: what is deleted, what
    is appended, and that the announcements keep the dependency graph in step
    with the chains, each with an application to concrete data. *)

From S2P Require Import Prelude Multiformats Grammar Dids Identity References ReferenceFacts Dtos.
From S2P Require Import ChainRepos ObjectRepoFs MetadataChain ChainVisitors ChainValidators ChainRules.
From S2P Require Import ChainAppend ChainInvariants ChainExample Dataset EventSourcing TaskSystem FlowSystem.
From S2P Require Import Messages FlowTimeWheel FlowStore FlowService Sync SyncFacts DatasetChanges.
From S2P Require Import DependencyGraph DependencyGraphExample DatasetOwnership Snapshots.
From S2P Require Import DatasetRepositoryFs DatasetRepositoryFacts UseCases.

(** * Datasets of a repository *)

Section Repository.
Context {C : BlockCodec} {TC : TextCodecs} {W BR RR : Type} `{!MetadataBlockRepository BR}
        `{!ReferenceRepository RR} `{!DatasetWorkspace W BR RR}.
Context {G Ix Ex : Type} `{Countable Ix} `{!DiGraph G Ix Ex} `{!LawfulDiGraph G Ix Ex}.

Variable outbox_post : DatasetLifecycleMessage -> res InternalError unit.
Variable check_action_allowed : DatasetHandle -> DatasetAction -> res DatasetActionUnauthorizedError unit.

Abbreviation delete := (delete_execute_via_handle outbox_post check_action_allowed).

(** C24.  A dataset that others read is not deleted.  With a graph that was
    scanned: without the permission, for a dataset the graph does not know, and
    for one that others depend on, nothing at all changes and the deletion fails;
    in the last case it names exactly the dependents, provided the repository
    finds them.  Otherwise the repository deletes the dataset, and if it does so
    the deletion is announced, or fails because that fails.  Once the announcement
    is consumed the graph has lost only what the deleted dataset itself reads. *)
Theorem deletion_protects_dependents dependencies hdl (repo : W) (st : DependencyGraphState G Ix) m posted :
  represents st m -> dgs_initially_scanned st = true ->
  let w := mkUseCaseWorld (repo, st) posted in
  let deleted := message_deleted (dh_id hdl) in
  exists x w', delete dependencies hdl w = (x, w') /\
    (is_ok (check_action_allowed hdl DatasetAction_Write) = false \/ ~ dh_id hdl ∈ dm_nodes m \/
     (exists down, depends m (dh_id hdl) down) -> is_ok x = false /\ w' = w) /\
    (check_action_allowed hdl DatasetAction_Write = Ok tt -> forall down, depends m (dh_id hdl) down ->
     (forall id, is_ok (dw_resolve_dataset_ref repo (DatasetRef_ID id)) = true) ->
     exists ids children, lists ids (depends m (dh_id hdl)) /\
       Forall2 (fun id child => dw_resolve_dataset_ref repo (DatasetRef_ID id) = Ok child) ids children /\
       x = Err (DeleteDatasetError_DanglingReference (mkDanglingReferenceError hdl children))) /\
    (check_action_allowed hdl DatasetAction_Write = Ok tt -> dh_id hdl ∈ dm_nodes m ->
     (forall down, ~ depends m (dh_id hdl) down) ->
     ucw_state w' = ((dw_delete_dataset hdl repo).2, st) /\
     match (dw_delete_dataset hdl repo).1, outbox_post deleted with
     | Ok _, Ok _ => x = Ok tt /\ ucw_posted w' = posted ++ [deleted] /\
         exists st', dg_consume_message deleted st = (Ok tt, st') /\ represents st' (dm_delete (dh_id hdl) m) /\
           forall up down, down <> dh_id hdl -> depends (dm_delete (dh_id hdl) m) up down <-> depends m up down
     | _, _ => is_ok x = false /\ ucw_posted w' = posted
     end).
Proof.
  intros Hr Hs w deleted.
  destruct (downstream_spec dependencies st m (dh_id hdl) Hr Hs) as (y & Hd & Hy).
  unfold delete_execute_via_handle, ensure_no_dangling_references, delete_in_repo, with_error, lift, mbind, action_bind.
  destruct (check_action_allowed hdl DatasetAction_Write) as [[]|e|]; simpl;
    [|eexists _, _; split; [done|]; split_and!; done..].
  rewrite Hd. simpl. destruct y as [ids|e|]; simpl; [| |done].
  2: { eexists _, _. split; [done|]. split_and!; [done| |done]. intros _ down Hdep. exfalso. apply Hy.
       apply (rp_edges _ _ Hr) in Hdep as (i & j & Hi & _). apply (rp_nodes _ _ Hr). by exists i. }
  destruct Hy as [Hk Hl]. destruct ids as [|i ids].
  - assert (Hnone : forall down, ~ depends m (dh_id hdl) down) by (intros ? ?%Hl; set_solver). simpl.
    destruct (dw_delete_dataset hdl repo) as [[[]|e|] repo']; simpl;
      [|eexists _, _; split; [done|]; split_and!; naive_solver..].
    unfold post_message. fold deleted. destruct (outbox_post deleted) as [[]|e|]; simpl;
      [|eexists _, _; split; [done|]; split_and!; naive_solver..].
    destruct (consume_known st m deleted Hr Hk) as (st' & Hc & Hr').
    eexists _, _. split; [done|]. split_and!; [naive_solver..|]. intros _ _ _. split_and!; try done.
    exists st'. split_and!; [done..|]. intros up down Hne. rewrite depends_delete. naive_solver.
  - pose proof (resolve_children_spec repo (i :: ids)) as Hch.
    assert (Hi : depends m (dh_id hdl) i) by (apply Hl; by left).
    destruct (resolve_children repo (i :: ids)) as [children|e|]; simpl; eexists _, _; (split; [done|]);
      split_and!; try naive_solver.
    all: intros _ down _ Hall; destruct Hch as [_ (id & _ & Hf)] || destruct Hch as (id & _ & Hf);
      specialize (Hall id); rewrite Hf in Hall; done.
Qed.
End Repository.

Section Creation.
Context {C : BlockCodec} {TC : TextCodecs} {W BR RR : Type} `{!MetadataBlockRepository BR}
        `{!ReferenceRepository RR} `{!LawfulBlockRepo BR} `{!LawfulRefRepo RR}
        `{!DatasetWorkspace W BR RR} `{!LawfulDatasetWorkspace W BR RR}.
Context {G Ix Ex : Type} `{Countable Ix} `{!DiGraph G Ix Ex} `{!LawfulDiGraph G Ix Ex}.

Variable outbox_post : DatasetLifecycleMessage -> res InternalError unit.
Variable debug_event : MetadataEvent -> string.
Variable show_validation_error : AppendValidationError -> string.
Variable block_hash : MetadataBlock -> Multihash.
Hypothesis stored_under : forall (r r' : BR) b o h,
  insert_block r b o = (Ok h, r') -> io_precomputed_hash o = None -> h = block_hash b.

(** A dataset that a logged in user creates from a snapshot is announced
    with its owner, and with its inputs if it has any.  Creation returns and does
    not panic; when it succeeds the chain is that of the snapshot, and consuming
    what was posted makes a graph that did not know the dataset know exactly what
    the new chain reads, and changes nothing for other datasets.  When the
    repository fails nothing is announced. *)
Theorem creation_is_announced account visibility fuel id snapshot t (w w1 : W) events hdl head posted :
  let s := mkMetadataBlockTyped t None 0%Z (mkSeed id (dsn_kind snapshot)) in
  let l := snapshot_chain block_hash t 1 events [(head, seed_block s)] in
  prepare_events (dw_resolve_dataset_ref w) debug_event (dsn_name snapshot) (dsn_kind snapshot)
    (dsn_metadata snapshot) = Ok events ->
  dw_create_dataset (dsn_name snapshot) s w = (Ok (hdl, head), w1) ->
  length events < fuel -> NoDup l.*1 ->
  (forall message, outbox_post message <> Panic) ->
  exists x w', create_dataset_from_snapshot_execute (CurrentAccountSubject_Logged account) outbox_post
      debug_event show_validation_error fuel id t snapshot visibility (mkUseCaseWorld w posted) = Some (x, w') /\
    match x with
    | Ok r =>
        r = mkCreateDatasetFromSnapshotResult hdl (default head (head_hash l)) (chain_dependencies l) /\
        chain_state (dw_chain (ucw_state w') hdl) l /\
        ucw_posted w' = posted ++ message_created id (la_account_id account) visibility ::
          announced id (chain_dependencies l) /\
        forall (st : DependencyGraphState G Ix) m, represents st m -> ~ id ∈ dm_nodes m ->
          exists st' m', for_each dg_consume_message (drop (length posted) (ucw_posted w')) st = (Ok tt, st') /\
            represents st' m' /\ tracks m' id l /\ same_but id m m'
    | Err _ =>
        ucw_posted w' = posted \/
        chain_state (dw_chain (ucw_state w') hdl) l /\
          ucw_posted w' = posted ++ [message_created id (la_account_id account) visibility]
    | Panic => False
    end.
Proof.
  intros s l Hp Hc Hf Hnd Hout.
  destruct (snapshot_outcome debug_event show_validation_error block_hash stored_under fuel id snapshot t w w1
    events hdl head Hp Hc Hf Hnd) as (x & w' & Hx & Hres). fold s l in Hres.
  destruct (dw_created (dsn_name snapshot) s w hdl head w1 eq_refl Hc) as (_ & Hid & _).
  assert (Hdep : chain_dependencies l = last_upstream events []).
  { unfold l. by rewrite snapshot_dependencies. }
  unfold create_dataset_from_snapshot_execute. cbn [ucw_state ucw_posted]. rewrite Hx.
  destruct x as [r|e|]; [|eexists _, _; split; [done|by left]|done].
  destruct Hres as ((head' & Hh & ->) & Hst & _). rewrite <- Hdep.
  unfold announce_created, creator_id, with_error, lift, mbind, action_bind, post_message at 1.
  simpl. fold s in Hid. rewrite Hid. simpl.
  pose proof (Hout (message_created id (la_account_id account) visibility)) as Hnp.
  destruct (outbox_post (message_created _ _ _)) as [[]|e|]; simpl; [|eexists _, _; split; [done|by left]|done].
  destruct (post_dependencies _ _ _ _) as [y w2] eqn:Hy.
  pose proof (post_dependencies_spec _ _ _ _ _ _ Hy) as [Hs2 Hpost]. simpl in Hs2, Hpost.
  assert (Hyp : y <> Panic).
  { revert Hy. unfold post_dependencies, post_message. destruct (chain_dependencies l); [by intros [= <- <-]|].
    destruct (outbox_post _) eqn:He; [..|by apply Hout in He]; by intros [= <- <-]. }
  destruct Hpost as [[-> Hpost]|(Hok & Hpost & _)].
  - eexists _, _. split; [done|]. rewrite Hs2, Hpost, <- app_assoc, Hh, drop_app_length.
    do 3 (split; [done|]). intros st m Hr Hn. by apply created_tracks.
  - destruct y as [|e|]; [done| |done]. eexists _, _. split; [done|]. right. by rewrite Hs2.
Qed.
End Creation.

(** * One dataset *)

Section OneDataset.
Context {C : BlockCodec} {SC : SummaryCodec} {BR RR DR CR IR : Type}
        `{!MetadataBlockRepository BR} `{!ReferenceRepository RR} `{!ObjectRepository DR}
        `{!ObjectRepository CR} `{!NamedObjectRepository IR} `{!LawfulBlockRepo BR} `{!LawfulRefRepo RR}
        `{!SummaryCodecLaws SC} `{!LawfulInfoRepo IR}.
Context {G Ix Ex : Type} `{Countable Ix} `{!DiGraph G Ix Ex} `{!LawfulDiGraph G Ix Ex}.

Variable outbox_post : DatasetLifecycleMessage -> res InternalError unit.

Implicit Types (d : DatasetImpl BR RR DR CR IR) (l bs : list HashedMetadataBlock)
  (st : DependencyGraphState G Ix).

(** C25.  A batch of consecutive blocks is appended as a whole or not at all, on
    top of the head or, with force, of an older block of the chain.  The use case
    returns; if it fails before the head is moved the chain is the old one and
    nothing is posted.  Otherwise the chain is valid and has exactly the blocks of
    the batch above that block, and, unless posting fails, the message that was
    posted brings a graph that knew the dependencies of the old chain to those of
    the new one.  (This is assumed of a forced batch only if it sets a transform,
    or if the blocks it drops did not.) *)
Theorem batches_append_whole fuel d l1 l2 bs force posted prev id :
  chain_state (dsi_metadata_chain d) (l1 ++ l2) -> chain_id (l1 ++ l2) = Some id -> l2 <> [] -> bs <> [] ->
  consecutive (head_hash l2) bs -> Forall (fun hb => supported hb.2) bs -> length l2 + length bs < fuel ->
  NoDup (rev bs ++ l1 ++ l2).*1 -> (forall x, x ∈ l2 -> Multihash_wf x.1) ->
  read_summary d = Ok prev -> summary_valid prev (rev bs ++ l2) ->
  exists x w', append_metadata_batch_execute outbox_post fuel bs force (mkUseCaseWorld d posted) = Some (x, w') /\
    ((is_ok x = false /\ chain_state (dsi_metadata_chain (ucw_state w')) (l1 ++ l2) /\ ucw_posted w' = posted) \/
     ((force = true \/ l1 = []) /\ chain_state (dsi_metadata_chain (ucw_state w')) (rev bs ++ l2) /\
      (is_ok x = false /\ ucw_posted w' = posted /\ batch_inputs [] bs <> [] \/
       x = Ok tt /\ exists messages, ucw_posted w' = posted ++ messages /\
         forall st m, represents st m -> tracks m id (l1 ++ l2) ->
           batch_inputs [] bs <> [] \/ chain_dependencies l2 = chain_dependencies (l1 ++ l2) ->
           exists st' m', for_each dg_consume_message messages st = (Ok tt, st') /\
             represents st' m' /\ tracks m' id (rev bs ++ l2) /\ same_but id m m'))).
Proof.
  intros Hst Hid Hne2 Hne Hc Hs Hf Hnd Hwf Hread Hsum.
  destruct (batch_appended outbox_post fuel d l1 l2 bs force posted prev Hst Hne2 Hne Hc Hs Hf Hnd Hwf Hread Hsum)
    as (x & w' & Hx & Hres).
  exists x, w'. split; [exact Hx|]. destruct Hres as [Hkept|(Hforce & Hst' & s & Hsm & Hpost)]; [by left|].
  right. split_and!; [|done|].
  { destruct Hforce as [|Hh]; [by left|right]. apply (same_head l1 l2); [|done].
    rewrite fmap_app in Hnd. by apply NoDup_app in Hnd as (_ & _ & ?). }
  assert (dsu_id s = id) as Hsid.
  { apply summary_chain_id in Hsm. rewrite chain_id_app in Hsm by (done || apply Hst').
    rewrite chain_id_app in Hid by (done || apply Hst). congruence. }
  rewrite Hsid in Hpost. destruct Hpost as [[-> Hpost]|?]; [right|by left]. split; [done|].
  eexists. split; [exact Hpost|]. intros st m Hr Ht Hcov. apply (announced_tracks st m id (l1 ++ l2)); [done..|].
  rewrite batch_dependencies by apply Hst'. destruct (batch_inputs [] bs); [|done].
  by destruct Hcov as [|<-].
Qed.

Variable check_action_allowed : DatasetHandle -> DatasetAction -> res DatasetActionUnauthorizedError unit.

(** C26.  Committing an event through the use case needs the permission to write,
    without which nothing changes.  It returns, and the dataset stays consistent;
    if it succeeds the event is on top of the chain, and what was posted brings a
    graph that knew the dependencies of the dataset to those of the new chain.
    When the announcement fails the use case fails although the event was
    committed. *)
Theorem commits_are_announced fuel d l now hdl event opts posted :
  dataset_state d l -> length l < fuel -> cmo_update_block_ref opts = true -> prev_in_chain l opts ->
  commit_fresh d opts -> (cmo_check_object_refs opts = true \/ objects_present d event) ->
  let w := mkUseCaseWorld d posted in
  exists x w', commit_event_execute outbox_post check_action_allowed fuel now hdl event opts w = Some (x, w') /\
    (is_ok (check_action_allowed hdl DatasetAction_Write) = false -> is_ok x = false /\ w' = w) /\
    match x with
    | Ok r => exists b messages, mb_event b = event /\ dataset_state (ucw_state w') ((cmr_new_head r, b) :: l) /\
        ucw_posted w' = posted ++ messages /\
        forall st m, represents st m -> tracks m (dh_id hdl) l ->
          exists st' m', for_each dg_consume_message messages st = (Ok tt, st') /\
            represents st' m' /\ tracks m' (dh_id hdl) ((cmr_new_head r, b) :: l) /\ same_but (dh_id hdl) m m'
    | _ => ucw_posted w' = posted /\
        (dataset_state (ucw_state w') l \/
         exists h b, mb_event b = event /\ dataset_state (ucw_state w') ((h, b) :: l))
    end.
Proof.
  intros Hst Hf Hu Hprev Hfresh Hobj w. unfold commit_event_execute.
  destruct (check_action_allowed hdl DatasetAction_Write) as [[]|e|]; simpl;
    [|eexists _, _; split; [done|]; by auto..].
  destruct (commit_event_returns fuel d l now event opts (dst_chain _ _ Hst) Hf Hprev) as (y & d' & Hy).
  pose proof (commit_event_state fuel d l now event opts y d' Hst Hf Hu Hfresh Hobj Hy) as Hc.
  rewrite Hy. destruct y as [r|e|]; [|eexists _, _; split; [done|]; split; [done|]; split; [done|]; by left..].
  destruct Hc as (b & He & Hp & Hold & Hst').
  assert (Hids : cmr_new_upstream_ids r = commit_upstream_ids opts event).
  { revert Hy. unfold commit_event. destruct (commit_block _ _ _ _); [|done..].
    destruct (append _ _ _ _) as [[[] ?]|]; [|done..]. by intros [= <- <-]. }
  unfold with_error, mbind, action_bind. destruct (post_dependencies _ _ _ _) as [z w2] eqn:Hz.
  pose proof (post_dependencies_spec _ _ _ _ _ _ Hz) as [Hs2 Hpost]. simpl in Hs2, Hpost.
  destruct Hpost as [[-> Hpost]|(Hok & Hpost & _)]; simpl.
  - eexists _, _. split; [done|]. split; [done|]. eexists b, _. rewrite Hs2. split_and!; [done|done|exact Hpost|].
    intros st m Hr Ht. apply (announced_tracks st m _ l); [done..|].
    rewrite dependencies_cons, Hids, He. unfold commit_upstream_ids. rewrite Hu.
    destruct event as [| | | |t| | | | | | | |]; try done. simpl.
    pose proof (valid_inputs _ _ _ _ (cs_valid _ _ (dst_chain _ _ Hst')) He) as Hne.
    unfold dependencies_of in Hne. by destruct (omap _ (st_inputs t)).
  - destruct z as [|e|]; [done| |]; (eexists _, _; split; [done|]; split; [done|]; split; [done|]; right;
      rewrite Hs2; by eauto).
Qed.
End OneDataset.

(** * Concrete repositories *)

From S2P Require Import TextCodecsExample ServiceProperties RepositoryProperties.

#[local] Existing Instance ex_texts.
#[local] Existing Instance ex_texts_lawful.
#[local] Existing Instance local_workspace.
#[local] Existing Instance local_workspace_lawful.

Definition ex_post (message : DatasetLifecycleMessage) : res InternalError unit := Ok tt.
Definition ex_allow (hdl : DatasetHandle) (action : DatasetAction) : res DatasetActionUnauthorizedError unit :=
  Ok tt.

(** The graph with datasets 1 and 2, which read nothing. *)
Definition ex_apart : DatasetDependenciesIDStream :=
  [Ok (mkDatasetDependencies (ex_id 1) []); Ok (mkDatasetDependencies (ex_id 2) [])].
Definition ex_apart_graph : DependencyGraphState SimpleGraph nat :=
  (eager_initialization ex_apart State_default).2.
Definition ex_apart_map : DependencyMap :=
  foldl (fun m d => dm_scan d m) dm_empty (scanned_items ex_apart).

Lemma ex_apart_represents :
  dgs_initially_scanned ex_apart_graph = true /\ represents ex_apart_graph ex_apart_map.
Proof.
  destruct (eager_initialization_spec ex_apart State_default dm_empty represents_default eq_refl
    ltac:(by repeat constructor)) as (st' & Hst & Hs & Hr).
  unfold ex_apart_graph. by rewrite Hst.
Qed.

Lemma ex_apart_depends up down : ~ depends ex_apart_map up down.
Proof.
  assert (He : dm_edges ex_apart_map = ∅) by (vm_compute; reflexivity).
  unfold depends. rewrite He. set_solver.
Qed.

Definition ex_events_handle : DatasetHandle := mkDatasetHandle (ex_id 1) (ex_alias "events").

(** kamu/events is kept while dataset 2 reads it, and deleted if nothing does. *)
Lemma deletion_protects_dependents_witness :
  let ws := local_workspace (C := ex_codec) ex_user ex_new in
  let delete st := delete_execute_via_handle (DatasetWorkspace0 := ws) ex_post ex_allow None ex_events_handle
                     (mkUseCaseWorld (ex_root, st) []) in
  (exists x, delete ex_graph = (x, mkUseCaseWorld (ex_root, ex_graph) []) /\ is_ok x = false) /\
  (exists w', delete ex_apart_graph = (Ok tt, w') /\ ucw_posted w' = [message_deleted (ex_id 1)] /\
     resolve_dataset_ref ex_user (ucw_state w').1 (DatasetRef_Alias (ex_alias "events")) =
       Err (GetDatasetError_NotFound (mkDatasetNotFoundError (DatasetRef_Alias (ex_alias "events"))))).
Proof.
  intros ws delete. split.
  - destruct ex_graph_represents as [Hs Hr].
    destruct (deletion_protects_dependents (DatasetWorkspace0 := ws) ex_post ex_allow None ex_events_handle
      ex_root ex_graph ex_map [] Hr Hs) as (x & w' & Hx & Hno & _).
    destruct Hno as [Hno ->].
    { right. right. exists (ex_id 2). vm_compute. reflexivity. }
    exists x. split; [exact Hx|exact Hno].
  - destruct ex_apart_represents as [Hs Hr].
    destruct (deletion_protects_dependents (DatasetWorkspace0 := ws) ex_post ex_allow None ex_events_handle
      ex_root ex_apart_graph ex_apart_map [] Hr Hs) as (x & w' & Hx & _ & _ & Hyes).
    destruct (Hyes eq_refl ltac:(vm_compute; reflexivity) (fun down => ex_apart_depends _ down)) as [Hst Hres].
    assert (Hd : (dw_delete_dataset (DatasetWorkspace := ws) ex_events_handle ex_root).1 = Ok tt)
      by (vm_compute; reflexivity).
    rewrite Hd in Hres. destruct Hres as (-> & Hp & _). exists w'. split; [exact Hx|]. split; [exact Hp|].
    rewrite Hst. vm_compute. reflexivity.
Defined.

Definition ex_account : LoggedAccount := mkLoggedAccount (mkAccountID (did_did (ex_id 9))) ex_kamu false.

(** The graph with dataset 1. *)
Definition ex_one : DatasetDependenciesIDStream := [Ok (mkDatasetDependencies (ex_id 1) [])].
Definition ex_one_map : DependencyMap := foldl (fun m d => dm_scan d m) dm_empty (scanned_items ex_one).

Lemma ex_one_represents : exists st : DependencyGraphState SimpleGraph nat, represents st ex_one_map.
Proof.
  destruct (eager_initialization_spec (G := SimpleGraph) ex_one State_default dm_empty represents_default eq_refl
    ltac:(by repeat constructor)) as (st' & _ & _ & Hr). by exists st'.
Qed.

(** Dataset 2 is created and reads dataset 1, which the graph then knows. *)
Lemma creation_is_announced_witness :
  let ws := local_workspace (C := ex_codec) ex_user ex_new in
  exists r w', create_dataset_from_snapshot_execute (DatasetWorkspace0 := ws)
      (CurrentAccountSubject_Logged ex_account) ex_post (fun _ => "") (fun _ => "") 5 (ex_id 2) 0%Z ex_snapshot
      DatasetVisibility_Private (mkUseCaseWorld ex_root []) = Some (Ok r, w') /\
    ucw_posted w' = [message_created (ex_id 2) (la_account_id ex_account) DatasetVisibility_Private;
                     message_dependencies_updated (ex_id 2) [ex_id 1]] /\
    exists (st : DependencyGraphState SimpleGraph nat) m', represents st m' /\ depends m' (ex_id 1) (ex_id 2).
Proof.
  intros ws.
  assert (Hcr : (dw_create_dataset (DatasetWorkspace := ws) (ex_alias "sums")
      (ex_seed_of 2 DatasetKind_Derivative) ex_root).1
    = Ok (mkDatasetHandle (ex_id 2) (ex_alias "sums"), ex_hash 0)) by (vm_compute; reflexivity).
  assert (Hok : match create_dataset_from_snapshot_execute (DatasetWorkspace0 := ws)
      (CurrentAccountSubject_Logged ex_account) ex_post (fun _ => "") (fun _ => "") 5 (ex_id 2) 0%Z ex_snapshot
      DatasetVisibility_Private (mkUseCaseWorld ex_root []) with
    Some (x, _) => is_ok x | None => false end = true) by (vm_compute; reflexivity).
  destruct (dw_create_dataset (DatasetWorkspace := ws) (ex_alias "sums")
    (ex_seed_of 2 DatasetKind_Derivative) ex_root) as [y w1] eqn:Hw. simpl in Hcr. subst y.
  destruct (creation_is_announced (DatasetWorkspace0 := ws)
    (LawfulDatasetWorkspace0 := local_workspace_lawful ex_user ex_new) (G := SimpleGraph)
    ex_post (fun _ => "") (fun _ => "") (fun b => ex_hash (mb_sequence_number b)) ex_stored_under ex_account
    DatasetVisibility_Private 5 (ex_id 2) ex_snapshot 0%Z ex_root w1 [ex_prepared]
    (mkDatasetHandle (ex_id 2) (ex_alias "sums")) (ex_hash 0) [] ex_prepare Hw ltac:(simpl; lia))
    as (x & w' & Hc & Hx); [|done|].
  { simpl. apply NoDup_cons. split; [|apply NoDup_singleton]. intros Hin%list_elem_of_singleton. discriminate Hin. }
  rewrite Hc in Hok. destruct x as [r| |]; [|discriminate Hok..].
  destruct Hx as (_ & _ & Hp & Hg). exists r, w'. split; [exact Hc|]. split; [exact Hp|].
  destruct ex_one_represents as [st Hr].
  destruct (Hg st ex_one_map Hr ltac:(intros Hin; vm_compute in Hin; discriminate Hin))
    as (st' & m' & _ & Hr' & [_ Ht] & _).
  exists st', m'. split; [exact Hr'|]. apply Ht. vm_compute. left.
Defined.

(** * Concrete datasets *)

From S2P Require Import DatasetProperties.

(** The derivative dataset 2 with its seed, and the block that sets its
    transform. *)
Definition ex_d_seeded : DatasetProperties.ExDataset :=
  default ex_d_empty
    (ex_d_run ex_d_empty 0 [MetadataEvent_Seed (mkSeed (ex_id 2) DatasetKind_Derivative)]).
Definition ex_d_seeded_chain : list HashedMetadataBlock := drop 4 ex_derivative.
Definition ex_transform_block : HashedMetadataBlock :=
  (ex_hash 1, ex_block 1 (MetadataEvent_SetTransform ex_transform)).

Lemma ex_d_seeded_state : dataset_state ex_d_seeded ex_d_seeded_chain.
Proof.
  split.
  - split.
    + vm_compute. reflexivity.
    + repeat (eapply linked_cons; [vm_compute; reflexivity|]). apply linked_nil.
    + apply valid_chain_b_sound. vm_compute. reflexivity.
  - intros hb Hin. change ex_d_seeded_chain with
      [(ex_hash 0, ex_block 0 (MetadataEvent_Seed (mkSeed (ex_id 2) DatasetKind_Derivative)))] in Hin.
    apply list_elem_of_singleton in Hin as ->. by intros s.
Qed.

Lemma ex_apart_tracks : tracks ex_apart_map (ex_id 2) ex_d_seeded_chain.
Proof.
  split; [vm_compute; reflexivity|]. intros up. split; [by intros ?%ex_apart_depends|].
  change (chain_dependencies ex_d_seeded_chain) with ([] : list DatasetID). by intros ?%elem_of_nil.
Qed.

Lemma batches_append_whole_witness :
  exists w', append_metadata_batch_execute ex_post 5 [ex_transform_block] false
      (mkUseCaseWorld ex_d_seeded []) = Some (Ok tt, w') /\
    chain_state (dsi_metadata_chain (ucw_state w')) (ex_transform_block :: ex_d_seeded_chain) /\
    exists st' m', for_each dg_consume_message (ucw_posted w') ex_apart_graph = (Ok tt, st') /\
      represents st' m' /\ depends m' (ex_id 1) (ex_id 2).
Proof.
  destruct (batches_append_whole (G := SimpleGraph) ex_post 5 ex_d_seeded [] ex_d_seeded_chain
    [ex_transform_block] false [] None (ex_id 2) (dst_chain _ _ ex_d_seeded_state) eq_refl ltac:(done)
    ltac:(done) (conj eq_refl I) ltac:(by repeat constructor) ltac:(simpl; lia)) as (x & w' & Hx & Hres).
  { simpl. apply NoDup_cons. split; [|apply NoDup_singleton]. intros Hin%list_elem_of_singleton. discriminate Hin. }
  { intros y Hy. apply list_elem_of_singleton in Hy as ->. repeat (constructor || done). }
  { vm_compute. reflexivity. }
  { done. }
  assert (Hok : match append_metadata_batch_execute ex_post 5 [ex_transform_block] false
      (mkUseCaseWorld ex_d_seeded []) with Some (y, _) => is_ok y | None => false end = true)
    by (vm_compute; reflexivity).
  rewrite Hx in Hok. destruct Hres as [[Hno _]|(_ & Hst & [[Hno _]|(-> & messages & Hp & Hg)])];
    [congruence..|].
  exists w'. split; [exact Hx|]. split; [exact Hst|]. simpl in Hp. rewrite Hp.
  destruct (Hg ex_apart_graph ex_apart_map (proj2 ex_apart_represents) ex_apart_tracks (or_intror eq_refl))
    as (st' & m' & Hc & Hr & [_ Ht] & _).
  exists st', m'. split; [exact Hc|]. split; [exact Hr|]. apply Ht. vm_compute. left.
Defined.

Definition ex_sums_handle : DatasetHandle := mkDatasetHandle (ex_id 2) (ex_alias "sums").

Definition ex_commit (event : MetadataEvent) (w : UseCaseWorld DatasetProperties.ExDataset)
    : UseCaseWorld DatasetProperties.ExDataset :=
  match commit_event_execute ex_post ex_allow 5 1%Z ex_sums_handle event CommitOpts_default w with
  | Some (Ok _, w') => w'
  | _ => w
  end.

Lemma ex_d_seeded_fresh : commit_fresh ex_d_seeded CommitOpts_default.
Proof.
  intros [t p n e] Hp Hn h b'. simpl in *.
  assert (p = Some (ex_hash 0)) as -> by (vm_compute in Hp; by injection Hp as <-).
  assert (n = 1%Z) as -> by (vm_compute in Hn; by injection Hn as <-).
  vm_compute. intros [= <-]. vm_compute. done.
Qed.

Lemma commits_are_announced_witness :
  exists r w', commit_event_execute ex_post ex_allow 5 1%Z ex_sums_handle
      (MetadataEvent_SetTransform ex_transform) CommitOpts_default (mkUseCaseWorld ex_d_seeded []) =
      Some (Ok r, w') /\
    exists st' m', for_each dg_consume_message (ucw_posted w') ex_apart_graph = (Ok tt, st') /\
      represents st' m' /\ depends m' (ex_id 1) (ex_id 2).
Proof.
  destruct (commits_are_announced (G := SimpleGraph) ex_post ex_allow 5 ex_d_seeded ex_d_seeded_chain 1%Z
    ex_sums_handle (MetadataEvent_SetTransform ex_transform) CommitOpts_default [] ex_d_seeded_state
    ltac:(simpl; lia) eq_refl ltac:(done) ex_d_seeded_fresh (or_introl eq_refl)) as (x & w' & Hx & _ & Hres).
  assert (Hok : match commit_event_execute ex_post ex_allow 5 1%Z ex_sums_handle
      (MetadataEvent_SetTransform ex_transform) CommitOpts_default (mkUseCaseWorld ex_d_seeded []) with
    Some (y, _) => is_ok y | None => false end = true) by (vm_compute; reflexivity).
  rewrite Hx in Hok. destruct x as [r| |]; [|discriminate Hok..].
  destruct Hres as (b & messages & He & Hst & Hp & Hg). exists r, w'. split; [exact Hx|].
  simpl in Hp. rewrite Hp.
  destruct (Hg ex_apart_graph ex_apart_map (proj2 ex_apart_represents) ex_apart_tracks)
    as (st' & m' & Hc & Hr & [_ Ht] & _).
  exists st', m'. split; [exact Hc|]. split; [exact Hr|]. apply Ht. rewrite dependencies_cons, He. left.
Defined.

(** Resets are not announced.  Dataset 2 reads dataset 1, then dataset 3 instead,
    and is reset to the block before that: it reads dataset 1 again, but the graph,
    which consumed every message, has no dependents of dataset 1, so that nothing
    prevents its deletion. *)
Definition ex_transform3 : SetTransform :=
  mkSetTransform [mkTransformInput (DatasetRef_ID (ex_id 3)) (Some "in")] (st_transform ex_transform).

Definition ex_changed : UseCaseWorld DatasetProperties.ExDataset :=
  ex_commit (MetadataEvent_SetTransform ex_transform3)
    (ex_commit (MetadataEvent_SetTransform ex_transform) (mkUseCaseWorld ex_d_seeded [])).

Definition ex_changed_graph : DependencyGraphState SimpleGraph nat :=
  (for_each dg_consume_message (ucw_posted ex_changed) ex_apart_graph).2.

Example resets_are_not_announced :
  match reset_dataset ex_allow 5 (dsi_metadata_chain (ucw_state ex_changed)) ex_sums_handle
          (Some (ex_hash 1)) None with
  | Some (Ok _, c) =>
      resolve_ref c BlockRef_Head = Ok (ex_hash 1) /\
      option_map mb_event (match get_block (meta_block_repo c) (ex_hash 1) with Ok b => Some b | _ => None end) =
        Some (MetadataEvent_SetTransform ex_transform) /\
      (get_downstream_dependencies None (ex_id 1) ex_changed_graph).1 = Ok [] /\
      (get_downstream_dependencies None (ex_id 3) ex_changed_graph).1 = Ok [ex_id 2]
  | _ => False
  end.
Proof. vm_compute. auto. Qed.
