(* ===== verification/TransformProperties.v ===== *)
(** The properties of the transforms of derivative datasets: what is read, what
    is committed, and that it is valid, each with an application to concrete
    data. *)

From S2P Require Import Prelude Multiformats Grammar Dids Identity Dtos ChainRepos ObjectRepoFs MetadataChain.
From S2P Require Import ChainVisitors ChainValidators ChainRules ChainAppend ChainInvariants ChainExample Dataset.
From S2P Require Import EventSourcing TaskSystem FlowSystem Messages FlowTimeWheel FlowStore FlowService DatasetChanges.
From S2P Require Import Transform TransformFacts.
From stdpp Require Import functions.

Section Planning.
Context `{EN : Engines} {BR RR DR CR IR : Type} `{!MetadataBlockRepository BR} `{!ReferenceRepository RR}.

Variable resolve_dataset_ref : DatasetRef -> res GetDatasetError DatasetHandle.
Variable check_action_allowed : DatasetHandle -> DatasetAction -> res DatasetActionUnauthorizedError unit.

Implicit Types (datasets : DatasetID -> DatasetImpl BR RR DR CR IR) (l new old : list HashedMetadataBlock).

Abbreviation next_operation := (get_next_operation resolve_dataset_ref check_action_allowed).
Abbreviation input_of := (get_transform_input resolve_dataset_ref check_action_allowed).

(** The next operation of a derivative dataset reads exactly what is new.
    With the transform and the last query found in its chain, and inputs of which
    the parts [ys.2] were processed and the parts [ys.1] were not, planning
    returns; each input reads the data slices and watermarks of the new part, in
    their order, and continues the state of the last query.  Nothing is planned
    exactly when no input has anything new and the schema is known. *)
Theorem plan_reads_what_is_new fuel datasets op hdl t l source xs ys :
  chain_state (chain_at datasets hdl) l -> length l < fuel -> latest SetTransform l = Some source ->
  (forall e, latest SetDataSchema l = Some e -> is_ok (schema_as_arrow e) = true) ->
  input_states_of source (latest ExecuteTransform l) = Ok xs ->
  Forall2 (ready resolve_dataset_ref check_action_allowed fuel datasets) xs ys ->
  exists o, next_operation fuel datasets op hdl t = Some (Ok o) /\
    (o = None <-> is_Some (latest SetDataSchema l) /\
       Forall (fun y => slices_in y.1 = [] /\ watermarks_in y.1 = []) ys) /\
    forall r, o = Some r -> exists inputs, request_for l inputs r /\ Forall3 planned xs ys inputs.
Proof.
  intros Hst Hf Hsrc Hsch Hxs Hready.
  destruct (get_next_operation_spec resolve_dataset_ref check_action_allowed fuel datasets op hdl t l source xs ys
    Hst Hf Hsrc Hsch Hxs Hready) as (inputs & o & Hpl & Hop & Ho).
  exists o. split; [done|].
  assert (Hempty : forallb input_is_empty inputs = true <->
    Forall (fun y => slices_in y.1 = [] /\ watermarks_in y.1 = []) ys).
  { clear -Hpl. induction Hpl as [|x y i xs ys inputs H1 _ IH]; simpl; [by split|].
    rewrite Forall_cons_iff, andb_true_iff. unfold input_is_empty.
    rewrite (pl_slices _ _ _ H1), (pl_watermarks _ _ _ H1).
    destruct (slices_in y.1), (watermarks_in y.1); naive_solver. }
  rewrite <- Hempty. destruct (forallb input_is_empty inputs && is_some (latest SetDataSchema l)) eqn:He.
  - subst o. apply andb_true_iff in He as [He Hs%is_some_spec]. by split.
  - destruct Ho as (r & -> & Hr & _). split.
    + split; [done|]. intros [Hs%is_some_spec Hi]. rewrite Hs, Hi in He. done.
    + intros r' [= <-]. by exists inputs.
Qed.

(** C22.  A planned operation leads to a valid block.  Put on the chain of the
    output, or on it with the schema that is set first, the event that is made of
    the request obeys every rule of the chain as soon as the engine and the clock
    keep their part: the offsets of the new data, its watermark and the system
    time continue the chain, and the event is not without effect.  In particular
    no rule about inputs, checkpoints or previous offsets can be violated. *)
Theorem planned_event_is_valid fuel datasets op hdl t l l' source xs ys r b e :
  chain_state (chain_at datasets hdl) l -> length l < fuel -> latest SetTransform l = Some source ->
  (forall e, latest SetDataSchema l = Some e -> is_ok (schema_as_arrow e) = true) ->
  input_states_of source (latest ExecuteTransform l) = Ok xs ->
  Forall2 (ready resolve_dataset_ref check_action_allowed fuel datasets) xs ys ->
  next_operation fuel datasets op hdl t = Some (Ok (Some r)) -> latest AddData l = None ->
  on_schema l l' -> mb_event b = MetadataEvent_ExecuteTransform e -> event_of_request r e ->
  engine_promises b e l' ->
  execute_transform_advances e (latest ExecuteTransform l) \/ Exists (fun y => y.1 <> []) ys ->
  valid_next b l'.
Proof.
  intros Hst Hf Hsrc Hsch Hxs Hready Hop Hadd Hon Hb He Hep Hadv.
  destruct (get_next_operation_spec resolve_dataset_ref check_action_allowed fuel datasets op hdl t l source xs ys
    Hst Hf Hsrc Hsch Hxs Hready) as (inputs & o & Hpl & Hop' & Ho).
  rewrite Hop in Hop'. injection Hop' as <-.
  destruct (forallb input_is_empty inputs && _); [done|]. destruct Ho as (r' & [= <-] & Hr & _).
  by eapply planned_event_valid.
Qed.

(** Successive operations on one input, as its chain grows: the state that was
    recorded last, the chain at that time, and the data slices that were read by
    all of them. *)
Inductive input_history (decl : TransformInput)
  : option ExecuteTransformInput -> list HashedMetadataBlock -> list Multihash -> Prop :=
| input_history_none : input_history decl None [] []
| input_history_read fuel datasets s new old slices id hdl alias i :
    input_history decl s old slices -> readable resolve_dataset_ref check_action_allowed datasets decl id hdl alias (new ++ old) ->
    length (new ++ old) < fuel -> input_of fuel datasets decl s = Some (Ok i) ->
    input_history decl (Some (ExecuteTransformInput_from i)) (new ++ old) (slices ++ tie_data_slices i).

(** C21.  Whatever a dataset gains between the operations that read it, every data
    slice is read exactly once and in the order of the chain, and the recorded
    state says where its chain and its records ended.  If the last processed block
    is not in the chain any more the operation fails and names both ends. *)
Theorem inputs_are_read_exactly_once decl s l slices :
  input_history decl s l slices ->
  slices = slices_in l /\ processed s l /\
  forall fuel datasets id hdl alias l' h t e schema,
    readable resolve_dataset_ref check_action_allowed datasets decl id hdl alias l' -> length l' < fuel ->
    head_hash l' = Some h -> head_hash l = Some t -> t ∉ l'.*1 ->
    latest SetDataSchema l' = Some e -> schema_as_arrow e = Ok schema ->
    input_of fuel datasets decl s = Some (Err (TransformError_InvalidInterval (mkInvalidIntervalError h t))).
Proof.
  intros Hh.
  assert (Hinv : slices = slices_in l /\ processed s l /\
    forall p, s = Some p -> DatasetRef_id (ti_dataset_ref decl) = Some (eti_dataset_id p)).
  { induction Hh as [|fuel datasets s new old slices id hdl alias i _ (-> & Hp & Hid) Hrd Hf Hi]; [done|].
    assert (Hs : forall p, s = Some p -> eti_dataset_id p = id).
    { intros p Hsp. pose proof (Hid p Hsp) as H1. pose proof (rd_id _ _ _ _ _ _ _ _ Hrd) as H2. congruence. }
    destruct (latest SetDataSchema (new ++ old)) as [e|] eqn:He.
    2: { rewrite (get_transform_input_no_schema _ _ _ _ _ _ _ _ _ _ Hrd Hs Hf He) in Hi. done. }
    destruct (schema_as_arrow e) as [schema| |] eqn:Ha.
    2,3: destruct (get_transform_input_bad_schema _ _ _ _ _ _ _ _ _ _ _ Hrd Hs Hf He) as (x & Hx & Hno);
      [by rewrite Ha|rewrite Hi in Hx; by injection Hx as <-].
    destruct (get_transform_input_spec _ _ _ _ _ _ _ _ _ _ _ _ _ Hrd Hs Hp Hf He Ha)
      as (i' & Hi' & _ & _ & _ & Hsl & _ & Hpr & Hidi & _).
    rewrite Hi in Hi'. injection Hi' as <-. split_and!; [|done|].
    - by rewrite Hsl, slices_app.
    - intros p [= <-]. by rewrite Hidi, (rd_id _ _ _ _ _ _ _ _ Hrd). }
  destruct Hinv as (Hsl & Hp & Hid). split_and!; [done..|].
  intros fuel datasets id hdl alias l' h t e schema Hrd Hf Hh' Ht Hn He Ha.
  destruct s as [p|]; [|by rewrite <- (pr_block _ _ Hp) in Ht].
  eapply get_transform_input_diverged; try done.
  - pose proof (Hid p eq_refl) as H1. pose proof (rd_id _ _ _ _ _ _ _ _ Hrd) as H2. congruence.
  - by rewrite <- Ht, <- (pr_block _ _ Hp).
Qed.
End Planning.

Section Running.
Context `{EN : Engines} {SC : SummaryCodec} {DH : DataHash} {BR RR DR CR IR : Type}
        `{!MetadataBlockRepository BR} `{!ReferenceRepository RR} `{!ObjectRepository DR}
        `{!ObjectRepository CR} `{!NamedObjectRepository IR}
        `{!LawfulBlockRepo BR, !LawfulRefRepo RR, !LawfulObjectRepo DR, !LawfulObjectRepo CR}.

Variable resolve_dataset_ref : DatasetRef -> res GetDatasetError DatasetHandle.
Variable check_action_allowed : DatasetHandle -> DatasetAction -> res DatasetActionUnauthorizedError unit.
Variable compact_to_metadata :
  DatasetHandle -> action (DatasetID -> DatasetImpl BR RR DR CR IR) InternalError CompactionResult.

Implicit Types (datasets : DatasetID -> DatasetImpl BR RR DR CR IR) (l : list HashedMetadataBlock).

(** What a transform may do to a dataset with the chain [l]. *)
Definition transformed l (d d' : DatasetImpl BR RR DR CR IR) (x : res TransformError TransformResult) : Prop :=
  exists l1, on_schema l l1 /\
    match x with
    | Ok (TransformResult_Updated old new) => head_hash l = Some old /\
        ((dataset_state d' l1 /\ head_hash l1 = Some new /\ l1 <> l) \/
         exists b e, dataset_state d' ((new, b) :: l1) /\ mb_event b = MetadataEvent_ExecuteTransform e)
    | Ok TransformResult_UpToDate => d' = d
    | _ => dataset_state d' l1
    end.

End Running.

(** * Concrete data *)

From S2P Require Import DatasetProperties.

(** A schema is the list of its columns. *)
#[export] Instance ex_arrow : ArrowCrate := {|
  SchemaRef := list u8;
  Field := u8;
  arrow_fields s := s;
  field_same := Z.eqb;
  schema_to_fb s := s;
  SchemaError := unit;
  fb_to_schema := Ok
|}.

(** An engine that answers with five records. *)
#[export] Instance ex_engines : Engines (C := ex_d_codec) := {|
  Engine := unit;
  EngineProvisioningError := unit;
  EngineError := unit;
  provision_engine _ := Ok tt;
  execute_transform _ _ :=
    Ok (mkTransformResponseExt (C := ex_d_codec) (Some (mkOffsetInterval 0 4)) (Some 5%Z) (Some []) None (Some ex_file))
|}.

Definition ex_resolve (r : DatasetRef) : res GetDatasetError DatasetHandle :=
  match r with
  | DatasetRef_ID id => Ok (mkDatasetHandle id (mkDatasetAlias None (mkDatasetName "data")))
  | DatasetRef_Handle h => Ok h
  | DatasetRef_Alias _ => Err (GetDatasetError_Internal mkInternalError)
  end.
Definition ex_allow (hdl : DatasetHandle) (action : DatasetAction) : res DatasetActionUnauthorizedError unit :=
  Ok tt.
Definition ex_compact (hdl : DatasetHandle) : action (DatasetID -> ExDataset) InternalError CompactionResult :=
  mret CompactionResult_NothingToDo.

(** Dataset 2 reads dataset 1. *)
Definition ex_output : ExDataset :=
  default ex_d_empty (ex_d_run ex_d_empty 0 (map (fun hb => mb_event hb.2) (rev (drop 3 ex_derivative)))).
Definition ex_output_chain : list HashedMetadataBlock := drop 3 ex_derivative.
Definition ex_datasets (input : ExDataset) (id : DatasetID) : ExDataset :=
  if decide (id = ex_id 1) then input else ex_output.
Definition ex_handle2 : DatasetHandle := mkDatasetHandle (ex_id 2) (mkDatasetAlias None (mkDatasetName "data")).
Definition ex_decl : TransformInput := mkTransformInput (DatasetRef_ID (ex_id 1)) (Some "in").

Lemma ex_output_state : dataset_state ex_output ex_output_chain.
Proof.
  split.
  - split.
    + vm_compute. reflexivity.
    + repeat (eapply linked_cons; [vm_compute; reflexivity|]). apply linked_nil.
    + apply valid_chain_b_sound. vm_compute. reflexivity.
  - intros hb. unfold ex_output_chain, ex_derivative. simpl. rewrite !elem_of_cons, elem_of_nil.
    intros [->|[->|[]]]; by intros s.
Qed.

Lemma ex_readable (input : ExDataset) l :
  chain_state (dsi_metadata_chain input) l -> l <> [] ->
  readable ex_resolve ex_allow (ex_datasets input) ex_decl (ex_id 1)
    (mkDatasetHandle (ex_id 1) (mkDatasetAlias None (mkDatasetName "data"))) "in" l.
Proof. intros Hst Hne. by split. Qed.

Lemma ex_ready : Forall2 (ready ex_resolve ex_allow 10 (ex_datasets ex_d3)) [(ex_decl, None)] [(ex_d3_chain, [])].
Proof.
  constructor; [|constructor]. eexists _, _, _, _, _. split.
  { cbn [fst snd]. rewrite app_nil_r. by apply ex_readable; [apply ex_d3_state|]. }
  split; [done|]. split; [by split|]. split; [simpl; lia|]. split; [vm_compute; reflexivity|]. vm_compute. reflexivity.
Qed.

(** The data slice of dataset 1 is read. *)
Lemma plan_reads_what_is_new_witness :
  exists r, get_next_operation ex_resolve ex_allow 10 (ex_datasets ex_d3) "op" ex_handle2 3%Z = Some (Ok (Some r)) /\
    map tie_data_slices (tre_inputs r) = [[ex_file_hash]].
Proof.
  destruct (plan_reads_what_is_new ex_resolve ex_allow 10 (ex_datasets ex_d3) "op" ex_handle2 3%Z ex_output_chain
    ex_transform [(ex_decl, None)] [(ex_d3_chain, [])] (dst_chain _ _ ex_output_state) ltac:(simpl; lia) eq_refl
    ltac:(done) eq_refl ex_ready) as (o & Ho & Hnone & Hr).
  destruct o as [r|].
  - exists r. split; [exact Ho|]. destruct (Hr r eq_refl) as (inputs & Hreq & Hpl).
    rewrite (rf_inputs _ _ _ Hreq). inversion Hpl as [|x y i xs ys is0 Hi Hrest]; subst.
    inversion Hrest; subst. simpl. rewrite (pl_slices _ _ _ Hi). vm_compute. reflexivity.
  - exfalso. destruct (proj1 Hnone eq_refl) as [[e He] _]. discriminate He.
Defined.

(** The chain of dataset 2 with a schema, and the block of the query. *)
Definition ex_schema_chain : list HashedMetadataBlock :=
  (ex_hash 2, ex_block 2 (MetadataEvent_SetDataSchema (mkSetDataSchema []))) :: ex_output_chain.
Definition ex_event : ExecuteTransform :=
  mkExecuteTransform [mkExecuteTransformInput (ex_id 1) None (Some (ex_hash 2)) None (Some 9%Z)] None None
    (Some (ex_slice 0 4)) None (Some 5%Z).

Lemma planned_event_is_valid_witness :
  valid_next (ex_block 3 (MetadataEvent_ExecuteTransform ex_event)) ex_schema_chain.
Proof.
  assert (Hr : exists r, get_next_operation ex_resolve ex_allow 10 (ex_datasets ex_d3) "op" ex_handle2 3%Z =
      Some (Ok (Some r)) /\ event_of_request r ex_event).
  { eexists. split; [vm_compute; reflexivity|]. split; vm_compute; reflexivity. }
  destruct Hr as (r & Hr & He).
  assert (Hon : on_schema ex_output_chain ex_schema_chain) by (right; eexists _, _, _; split; reflexivity).
  assert (Hep : engine_promises (ex_block 3 (MetadataEvent_ExecuteTransform ex_event)) ex_event ex_schema_chain).
  { split.
    - split; [discriminate|]. intros hb [= <-]. reflexivity.
    - intros hb [= <-]. simpl. lia.
    - reflexivity.
    - intros d p _ Hp. discriminate Hp.
    - reflexivity.
    - intros d [= <-] n [= <-]. simpl. split; [reflexivity|lia].
    - intros _. eexists. reflexivity. }
  exact (planned_event_is_valid ex_resolve ex_allow 10 (ex_datasets ex_d3) "op" ex_handle2 3%Z ex_output_chain
    ex_schema_chain ex_transform [(ex_decl, None)] [(ex_d3_chain, [])] r
    (ex_block 3 (MetadataEvent_ExecuteTransform ex_event)) ex_event (dst_chain _ _ ex_output_state)
    ltac:(simpl; lia) eq_refl ltac:(done) eq_refl ex_ready Hr eq_refl Hon eq_refl He Hep
    ltac:(right; by left)).
Defined.

Abbreviation ex_history :=
  (input_history (BR := MetadataBlockRepositoryImpl (ObjectRepositoryInMemory (C := ex_d_codec)))
     (RR := ReferenceRepositoryImpl (NamedObjectRepositoryInMemory (C := ex_d_codec)))
     (DR := ObjectRepositoryLocalFS (C := ex_d_codec)) (CR := ObjectRepositoryLocalFS (C := ex_d_codec))
     (IR := NamedObjectRepositoryLocalFS (C := ex_d_codec)) ex_resolve ex_allow ex_decl).

(** Dataset 1 is read when it has no data yet, and again when it has. *)
Lemma inputs_are_read_exactly_once_witness :
  exists s slices, ex_history (Some s) ex_d3_chain slices /\
    slices = slices_in ex_d3_chain /\ slices = [ex_file_hash] /\
    ExecuteTransformInput_last_offset s = Some 9%Z.
Proof.
  assert (H1 : exists i, get_transform_input ex_resolve ex_allow 10 (ex_datasets ex_d2) ex_decl None = Some (Ok i) /\
    exists j, get_transform_input ex_resolve ex_allow 10 (ex_datasets ex_d3) ex_decl
      (Some (ExecuteTransformInput_from i)) = Some (Ok j)).
  { eexists. split; [vm_compute; reflexivity|]. eexists. vm_compute. reflexivity. }
  destruct H1 as (i & Hi & j & Hj).
  assert (Hh : ex_history (Some (ExecuteTransformInput_from j)) ex_d3_chain
    (([] ++ tie_data_slices i) ++ tie_data_slices j)).
  { apply (input_history_read ex_resolve ex_allow ex_decl 10 (ex_datasets ex_d3) (Some (ExecuteTransformInput_from i))
      [(ex_hash 2, ex_d3_block)] (ex_d2_chain ++ []) ([] ++ tie_data_slices i) (ex_id 1)
      (mkDatasetHandle (ex_id 1) (mkDatasetAlias None (mkDatasetName "data"))) "in" j); [|..|done].
    - apply (input_history_read ex_resolve ex_allow ex_decl 10 (ex_datasets ex_d2) None ex_d2_chain [] [] (ex_id 1)
        (mkDatasetHandle (ex_id 1) (mkDatasetAlias None (mkDatasetName "data"))) "in" i); [constructor| |simpl; lia|done].
      rewrite app_nil_r. by apply ex_readable; [apply (dst_chain _ _ ex_d2_state)|].
    - rewrite app_nil_r. by apply ex_readable; [apply ex_d3_state|].
    - simpl. lia. }
  eexists _, _. split; [exact Hh|].
  destruct (inputs_are_read_exactly_once ex_resolve ex_allow ex_decl _ _ _ Hh) as (Hs & Hp & _).
  split; [exact Hs|]. split; [rewrite Hs; vm_compute; reflexivity|]. exact (pr_offset _ _ Hp).
Defined.

Lemma ex_stored id : stored 10 (dsi_metadata_chain (ex_datasets ex_d3 id)).
Proof.
  unfold ex_datasets. case_decide.
  - exists ex_d3_chain. split; [apply ex_d3_state|simpl; lia].
  - exists ex_output_chain. split; [apply (dst_chain _ _ ex_output_state)|simpl; lia].
Qed.

(** What a commit on top of block 2 sees of a dataset. *)
Definition ex_has (d : ExDataset) (h : Multihash) : bool :=
  match get_block (meta_block_repo (dsi_metadata_chain d)) h with Ok _ => true | _ => false end.

Lemma ex_fresh3 d r :
  commit_sequence_number d (Some (ex_hash 2)) = Ok 3%Z -> ex_has d (ex_hash 3) = false ->
  commit_fresh d (transform_commit_opts r (ex_hash 2) true).
Proof.
  intros Hq Hs [t p n e] Hp Hn h b' Hi Hg. cbn in Hp, Hn.
  assert (p = Some (ex_hash 2)) as -> by by injection Hp as <-.
  rewrite Hq in Hn. injection Hn as <-. injection Hi as <-. unfold ex_has in Hs.
  change (get_block (meta_block_repo (dsi_metadata_chain d)) (ex_hash 3) = Ok b') in Hg.
  by rewrite Hg in Hs.
Qed.


(** Dataset 2 with its schema, as after a first transform without data. *)
Definition ex_with_schema : ExDataset :=
  default ex_d_empty (ex_d_run ex_d_empty 0 (map (fun hb => mb_event hb.2) (rev ex_schema_chain))).

(** An engine that has nothing to say about new input, no data, no watermark and
    no checkpoint, aborts the program: the event is skipped as one without effect,
    and the head is then asserted to have moved. *)
Example empty_result_aborts :
  match get_next_operation ex_resolve ex_allow 10
          (fun id => if decide (id = ex_id 1) then ex_d3 else ex_with_schema) "op" ex_handle2 3%Z with
  | Some (Ok (Some r)) =>
      match commit_transform 10 ex_with_schema 3%Z r (mkTransformResponseExt None None (Some []) None None) with
      | Some (Panic, _) => True
      | _ => False
      end
  | _ => False
  end.
Proof. vm_compute. exact I. Qed.

(** A chain to which the blocks were appended, oldest first. *)
Fixpoint ex_append (d : ExDataset) (bs : list HashedMetadataBlock) : ExDataset :=
  match bs with
  | [] => d
  | (_, b) :: bs =>
      match append 10 (dsi_metadata_chain d) b AppendOpts_default with
      | Some (Ok _, c) => ex_append (with_chain d c) bs
      | _ => ex_append d bs
      end
  end.

(** A transform that was replaced by one with another input after it ran cannot
    be planned: the states of the inputs are paired with the declared inputs, and
    numbers that differ abort the program. *)
Definition ex_evolved : ExDataset :=
  ex_append ex_d_empty
    (rev ((ex_hash 5, ex_block 5 (MetadataEvent_SetTransform
             (mkSetTransform [ex_decl; mkTransformInput (DatasetRef_ID (ex_id 3)) (Some "more")]
                (st_transform ex_transform)))) :: ex_derivative)).

Example evolved_transform_aborts :
  resolve_ref (dsi_metadata_chain ex_evolved) BlockRef_Head = Ok (ex_hash 5) /\
  get_next_operation ex_resolve ex_allow 10
    (fun id => if decide (id = ex_id 1) then ex_d3 else ex_evolved) "op" ex_handle2 9%Z = Some Panic.
Proof. split; vm_compute; reflexivity. Qed.
