(* ===== verification/VerificationProperties.v ===== *)
(** The properties of the verification of datasets, each with an application to
    concrete data. *)

From S2P Require Import Prelude Multiformats Grammar Dids Identity Dtos ChainRepos ObjectRepoFs MetadataChain.
From S2P Require Import ChainVisitors ChainValidators ChainRules ChainAppend ChainInvariants ChainExample Dataset Sync.
From S2P Require Import EventSourcing TaskSystem FlowSystem Messages FlowTimeWheel FlowStore FlowService DatasetChanges.
From S2P Require Import Snapshots Transform TransformFacts Verification VerificationFacts.
From stdpp Require Import functions.

Section Properties.
Context `{EN : Engines} {CL : CodecLaws C} {SC : SummaryCodec} {DH : DataHash} {BR RR DR CR IR : Type}
        `{!MetadataBlockRepository BR} `{!ReferenceRepository RR} `{!ObjectRepository DR}
        `{!ObjectRepository CR} `{!NamedObjectRepository IR}.

Implicit Types (datasets : DatasetID -> DatasetImpl BR RR DR CR IR) (l : list HashedMetadataBlock).

(** C18.  The check of the metadata decides whether a stored chain is valid.  The
    chain is read and built anew in memory, which returns: it succeeds exactly when
    every block obeys the rules of the chain with respect to the blocks below it.
    Otherwise it fails with an internal error, unless a block disables a source.
    A range that leaves out the first block is never accepted. *)
Theorem metadata_integrity_decides_validity fuel datasets hdl h l :
  stored_chain fuel (chain_at datasets hdl) h l -> writable l ->
  (exists x, check_metadata_integrity fuel datasets hdl (None, None) =
       Some (phase_calls VerificationPhase_MetadataIntegrity [] x, x) /\
     (x = Ok tt <-> valid_chain l) /\
     (x = Ok tt \/ x = Err (VerificationError_Internal mkInternalError) \/ exists hb, hb ∈ l /\ ~ supported hb.2)) /\
  forall l1 t b l2, l = l1 ++ (t, b) :: l2 -> l1 <> [] ->
    exists x, check_metadata_integrity fuel datasets hdl (Some t, None) =
        Some ([Listener_begin_phase VerificationPhase_MetadataIntegrity], x) /\ is_ok x = false.
Proof.
  intros Hst Hw. split; [by apply (check_metadata_spec fuel datasets hdl h l)|].
  intros l1 t b l2 -> Hne. destruct Hst as [Hh Hl Hf].
  destruct (exists_last Hne) as (l1' & [h1 b1] & ->). rewrite <- app_assoc in *. cbn [app] in *.
  destruct (rebuild_not_first fuel h1 b1 (rev l1') t) as (x & Hx & Hno).
  { lia. }
  { apply (Hw (h1, b1)). set_solver. }
  { by apply linked_prev in Hl. }
  exists x. split; [|done]. unfold check_metadata_integrity, range_head. cbn [fst snd]. rewrite Hh. cbn.
  replace (l1' ++ (h1, b1) :: (t, b) :: l2) with ((l1' ++ [(h1, b1)]) ++ (t, b) :: l2) in Hl, Hf
    by by rewrite <- app_assoc.
  rewrite length_app in Hf.
  destruct (iter_interval_found fuel (chain_at datasets hdl) h (l1' ++ [(h1, b1)]) t b l2 false Hl ltac:(lia)) as [-> _].
  cbn. rewrite rev_app_distr. cbn [rev app]. rewrite Hx. by destruct x.
Qed.


Variable resolve_dataset_ref : DatasetRef -> res GetDatasetError DatasetHandle.
Variable check_action_allowed : DatasetHandle -> DatasetAction -> res DatasetActionUnauthorizedError unit.
Variable operation_id : Multihash -> string.

(** C20.  Replaying a query reads what the query has read.  Of the inputs a
    transform has planned to read, the recorded states lead, after the inputs have
    grown in whatever way, to exactly the same data slices and watermarks in the
    same order, and to the same states. *)
Theorem replays_read_the_same_data fuel fuel' datasets datasets' xs ys inputs :
  Forall2 (fun x y => grown resolve_dataset_ref check_action_allowed fuel fuel' datasets datasets' x.1 y) xs ys ->
  get_transform_inputs resolve_dataset_ref check_action_allowed fuel datasets xs = Some (Ok inputs) ->
  exists aliases vocabs inputs',
    input_aliases (map fst xs) ∅ = Ok aliases /\
    input_vocabs fuel' resolve_dataset_ref datasets' (map fst xs) ∅ = Some (Ok vocabs) /\
    step_inputs fuel' resolve_dataset_ref check_action_allowed datasets' aliases vocabs
      (map ExecuteTransformInput_from inputs) = Some (Ok inputs') /\
    Forall2 same_reading inputs inputs'.
Proof.
  intros Hg Hin.
  destruct (input_aliases_ok (map fst xs) ∅) as (aliases & Ha & _ & Hal).
  { clear -Hg. induction Hg as [|x y xs ys (id & hdl & alias & e & schema & Hrd & _) _ IH]; constructor; [|done].
    rewrite (rd_id _ _ _ _ _ _ _ _ Hrd), (rd_alias _ _ _ _ _ _ _ _ Hrd). eauto. }
  destruct (input_vocabs_ok resolve_dataset_ref check_action_allowed fuel' datasets' (map fst xs) ∅) as (vocabs & Hv & _ & Hvl).
  { clear -Hg. induction Hg as [|x y xs ys (id & hdl & alias & e & schema & _ & _ & Hrd & Hf & _) _ IH]; constructor; [|done].
    by exists id, hdl, alias, (y.1 ++ y.2). }
  destruct (step_inputs_again _ _ _ _ _ _ _ _ _ aliases vocabs Hg Hin Hal Hvl) as (inputs' & Hi & Hs).
  by exists aliases, vocabs, inputs'.
Qed.

End Properties.

(** * Concrete data *)

From S2P Require Import DatasetProperties TransformProperties.

Definition ex_handle1 : DatasetHandle := mkDatasetHandle (ex_id 1) (mkDatasetAlias None (mkDatasetName "data")).

Lemma ex_hashes_writable l : Forall (fun hb : HashedMetadataBlock => exists i, hb.1 = ex_hash i) l -> writable l.
Proof.
  intros H hb Hin%list_elem_of_In. split; [|done]. by apply (proj1 (List.Forall_forall _ _) H) in Hin as (i & ->).
Qed.

Lemma ex_d3_stored : stored_chain 10 (chain_at (ex_datasets ex_d3) ex_handle1) (ex_hash 2) ex_d3_chain.
Proof. split; [vm_compute; reflexivity|apply (cs_linked _ _ ex_d3_state)|simpl; lia]. Qed.

Lemma ex_d3_writable : writable ex_d3_chain.
Proof.
  apply ex_hashes_writable. repeat constructor; eexists; reflexivity.
Qed.

(** Dataset 1 is accepted, and a range of it is not. *)
Lemma metadata_integrity_decides_validity_witness :
  (exists calls, check_metadata_integrity 10 (ex_datasets ex_d3) ex_handle1 (None, None) = Some (calls, Ok tt)) /\
  exists calls x, check_metadata_integrity 10 (ex_datasets ex_d3) ex_handle1 (Some (ex_hash 0), None) = Some (calls, x) /\
    is_ok x = false.
Proof.
  destruct (metadata_integrity_decides_validity 10 (ex_datasets ex_d3) ex_handle1 (ex_hash 2) ex_d3_chain
    ex_d3_stored ex_d3_writable) as [(x & Hx & Hiff & _) Htail]. split.
  - eexists. rewrite (proj2 Hiff (cs_valid _ _ ex_d3_state)) in Hx. exact Hx.
  - destruct (Htail (firstn 2 ex_d3_chain) (ex_hash 0) ex_seed [] eq_refl ltac:(discriminate)) as (y & Hy & Hno).
    eexists _, y. split; [exact Hy|exact Hno].
Defined.

(** Dataset 1 with another file in place of its data. *)
Definition ex_damaged : ExDataset :=
  mkDatasetImpl (dsi_metadata_chain ex_d3)
    (mkObjectRepositoryLocalFS {[ ex_file_hash := (inl (inl ex_seed) : Bytes (BlockCodec := ex_d_codec)) ]} true)
    (dsi_checkpoint_repo ex_d3) (dsi_info_repo ex_d3).


(** Dataset 1 with one more block, and the chain it has then. *)
Definition ex_vocab : MetadataEvent := MetadataEvent_SetVocab (mkSetVocab (Some "o") None None None).
Definition ex_d4 : ExDataset := dataset_after (commit_event 10 ex_d3 3 ex_vocab CommitOpts_default).
Definition ex_d4_chain : list HashedMetadataBlock := (ex_hash 3, ex_block 3 ex_vocab) :: ex_d3_chain.

Lemma ex_d4_state : chain_state (dsi_metadata_chain ex_d4) ex_d4_chain.
Proof.
  split.
  - vm_compute. reflexivity.
  - repeat (eapply linked_cons; [vm_compute; reflexivity|]). apply linked_nil.
  - apply valid_chain_b_sound. vm_compute. reflexivity.
Qed.

(** What dataset 2 has read of dataset 1 is read again after it has grown. *)
Lemma replays_read_the_same_data_witness :
  exists inputs inputs' aliases vocabs,
    get_transform_inputs ex_resolve ex_allow 10 (ex_datasets ex_d3) [(ex_decl, None)] = Some (Ok inputs) /\
    step_inputs 10 ex_resolve ex_allow (ex_datasets ex_d4) aliases vocabs (map ExecuteTransformInput_from inputs) =
      Some (Ok inputs') /\
    map tie_data_slices inputs' = [[ex_file_hash]].
Proof.
  assert (Hg : Forall2 (fun x y => grown ex_resolve ex_allow 10 10 (ex_datasets ex_d3) (ex_datasets ex_d4) x.1 y)
    [(ex_decl, None : option ExecuteTransformInput)] [([(ex_hash 3, ex_block 3 ex_vocab)], ex_d3_chain)]).
  { constructor; [|constructor]. exists (ex_id 1), ex_handle1, "in", (mkSetDataSchema []), []. cbn [fst snd app].
    split; [by apply ex_readable; [apply ex_d3_state|]|]. split; [simpl; lia|].
    split; [by apply ex_readable; [apply ex_d4_state|]|]. split; [simpl; lia|]. split; vm_compute; reflexivity. }
  assert (Hi : exists i, get_transform_inputs ex_resolve ex_allow 10 (ex_datasets ex_d3) [(ex_decl, None)] = Some (Ok [i]) /\
    tie_data_slices i = [ex_file_hash]).
  { eexists. split; vm_compute; reflexivity. }
  destruct Hi as (i & Hi & Hsl).
  destruct (replays_read_the_same_data ex_resolve ex_allow 10 10 (ex_datasets ex_d3) (ex_datasets ex_d4) _ _ _ Hg Hi)
    as (aliases & vocabs & inputs' & _ & _ & Hs & Hsame).
  exists [i], inputs', aliases, vocabs. split; [exact Hi|]. split; [exact Hs|].
  inversion Hsame as [|? i' ? rest Hsr Hrest]; subst. inversion Hrest; subst. simpl. by rewrite (sr_slices _ _ Hsr), Hsl.
Defined.

(** The datasets after dataset 2 was transformed, and its chain. *)
Definition ex_after : DatasetID -> ExDataset :=
  match transform_impl 10 ex_resolve ex_allow ex_compact (mkTransformOptions false) "op" "op2" 3%Z 4%Z
          (DatasetRef_ID (ex_id 2)) (ex_datasets ex_d3) with
  | Some (_, datasets) => datasets
  | None => ex_datasets ex_d3
  end.
Definition ex_answer : ExecuteTransform :=
  mkExecuteTransform [ex_input None (Some 2) None (Some 9)]%Z None None
    (Some (mkDataSlice (ex_hash 201) ex_file_hash (mkOffsetInterval 0 4) 7)) None (Some 5%Z).
Definition ex_after_chain : list HashedMetadataBlock :=
  (ex_hash 3, mkMetadataBlock 3 (Some (ex_hash 2)) 3 (MetadataEvent_ExecuteTransform ex_answer)) ::
  (ex_hash 2, mkMetadataBlock 3 (Some (ex_hash 1)) 2 (MetadataEvent_SetDataSchema (mkSetDataSchema []))) ::
  ex_output_chain.

Lemma ex_after_stored : stored_chain 10 (chain_at ex_after ex_handle2) (ex_hash 3) ex_after_chain.
Proof.
  split; [vm_compute; reflexivity| |simpl; lia].
  repeat (eapply linked_cons; [vm_compute; reflexivity|]). apply linked_nil.
Qed.

Lemma ex_after_writable : writable ex_after_chain.
Proof.
  apply ex_hashes_writable. repeat constructor; eexists; reflexivity.
Qed.

Lemma ex_resolves_ids : resolves_ids ex_resolve.
Proof. by intros id hdl [= <-]. Qed.

Definition ex_operation (h : Multihash) : string := "replay".


(** ** What verification does not do *)

(** A checkpoint that is committed without data is never looked at: here the file
    is not even there. *)
Definition ex_lone_checkpoint : ExDataset :=
  ex_append ex_d2 [(ex_hash 2, ex_block 2 (MetadataEvent_AddData
    (mkAddData None None None (Some (mkCheckpoint (ex_hash 77) 5)) (Some 5%Z) None)))].

Example lone_checkpoints_are_not_checked :
  or_contains (dsi_checkpoint_repo ex_lone_checkpoint) (ex_hash 77) = Ok false /\
  resolve_ref (dsi_metadata_chain ex_lone_checkpoint) BlockRef_Head = Ok (ex_hash 2) /\
  match verify 10 ex_resolve ex_allow ex_operation (fun _ => ex_lone_checkpoint) (DatasetRef_ID (ex_id 1)) (None, None)
          VerificationOptions_default with
  | Some (_, r, _) => vr_outcome r = Ok tt
  | None => False
  end.
Proof. split_and!; vm_compute; reflexivity. Qed.

(** A derivative dataset that recorded other answers than the engine gives. *)
Definition ex_recorded (id : DatasetID) : ExDataset :=
  if decide (id = ex_id 1) then ex_d3 else ex_append ex_d_empty (take 4 (rev ex_derivative)).

Definition error_calls (log : list ListenerCall) : nat :=
  length (List.filter (fun c => match c with Listener_error _ => true | _ => false end) log).

(** A query that is not reproduced is reported twice to the listener. *)
Example not_reproducible_is_reported_twice :
  match verify 10 ex_resolve ex_allow ex_operation ex_recorded (DatasetRef_ID (ex_id 2)) (None, None)
          (mkVerificationOptions false false true) with
  | Some (log, r, _) =>
      error_calls log = 2 /\
      match vr_outcome r with Err (VerificationError_DataNotReproducible e) => dnr_block_hash e = ex_hash 3 | _ => False end
  | None => False
  end.
Proof. vm_compute. auto. Qed.

(** The replay of a range that starts at a block below all queries is refused, and
    the end of the range is ignored: the query is replayed although the range ends
    below it. *)
Example replay_ignores_the_range :
  get_verification_plan 10 ex_resolve ex_allow ex_operation ex_after ex_handle2 (Some (ex_hash 0), None) =
    Some (Err (VerificationError_InvalidInterval (mkInvalidIntervalError (ex_hash 3) (ex_hash 0)))) /\
  match get_verification_plan 10 ex_resolve ex_allow ex_operation ex_after ex_handle2 (None, Some (ex_hash 1)) with
  | Some (Ok plan) => map vs_expected_hash plan = [ex_hash 3]
  | _ => False
  end.
Proof. split; vm_compute; reflexivity. Qed.

(** A query that was made before the transform dropped one of its inputs cannot be
    replayed: the alias of the input is not found, which aborts the program. *)
Definition ex_dropped_input (id : DatasetID) : ExDataset :=
  if decide (id = ex_id 2)
  then ex_append ex_d_empty
    (take 4 (rev ex_derivative) ++ [(ex_hash 4, ex_block 4 (MetadataEvent_SetTransform
       (mkSetTransform [mkTransformInput (DatasetRef_ID (ex_id 3)) (Some "other")] (st_transform ex_transform))))])
  else ex_d3.

Example dropped_input_aborts_replay :
  resolve_ref (dsi_metadata_chain (ex_dropped_input (ex_id 2))) BlockRef_Head = Ok (ex_hash 4) /\
  get_verification_plan 10 ex_resolve ex_allow ex_operation ex_dropped_input ex_handle2 (None, None) = Some Panic.
Proof. split; vm_compute; reflexivity. Qed.
