(* ===== verification/PullProperties.v ===== *)
(** The properties of remote aliases, pulling and pushing, each with an
    application to concrete data. *)

From S2P Require Import Prelude Multiformats Grammar Dids Identity References Dtos ChainRepos ObjectRepoFs.
From S2P Require Import MetadataChain ChainComparator ChainVisitors ChainValidators ChainRules ChainAppend ChainInvariants.
From S2P Require Import Dataset Sync EventSourcing TaskSystem FlowSystem Messages FlowTimeWheel FlowStore.
From S2P Require Import FlowService DatasetChanges DatasetOwnership Transform RemoteAliases PullService PushService.
From S2P Require Import PullFacts TextCodecsExample.
From stdpp Require Import sorting.

(** * Remote aliases *)

Section Aliases.
Context {C : BlockCodec} {Url : Type} `{!UrlCrate Url} {CC : ConfigCodec Url} {CL : ConfigCodecLaws CC}
        {BR RR DR CR IR : Type} `{!NamedObjectRepository IR} `{!LawfulInfoRepo IR}.

Abbreviation Impl := (RemoteAliasesImpl (Url := Url) (BR := BR) (RR := RR) (DR := DR) (CR := CR) (IR := IR)).
Abbreviation keys kind a := (alias_keys kind (rai_config a)).

(** The lists are stored, and have no alias twice. *)
Definition stored (a : Impl) : Prop :=
  config_ok (rai_config a) /\ read_config (rai_dataset a) = Ok (rai_config a).

Lemma add_to_set (a : Impl) r kind b a' : stored a -> aliases_add r kind a = (Ok b, a') ->
  stored a' /\ (b = true <-> ~ remote_key r ∈ keys kind a) /\
  forall kind' x, x ∈ keys kind' a' <-> x ∈ keys kind' a \/ (kind' = kind /\ x = remote_key r).
Proof.
  intros [Hok Hread]. unfold aliases_add. destruct (contains_ref _ r) eqn:Hc.
  { apply contains_ref_key in Hc. intros [= <- <-]. split_and!; [done|done|].
    intros kind' x. split; [auto|]. intros [?|[-> ->]]; done. }
  assert (Hn : ~ remote_key r ∈ keys kind a) by (intros H%contains_ref_key; congruence).
  intros (-> & Hcfg & Hr)%save_aliases_spec. unfold stored, config_ok, alias_keys in *. rewrite Hcfg in *.
  setoid_rewrite aliases_of_with. split_and!; [|done|done|].
  - intros kind'. case_decide; [subst|by apply Hok]. rewrite fmap_app. apply NoDup_app.
    split_and!; [by apply Hok| |apply NoDup_singleton]. by intros x Hx ->%list_elem_of_singleton.
  - intros kind' x. case_decide; [subst|naive_solver].
    rewrite fmap_app, elem_of_app. simpl. rewrite list_elem_of_singleton. naive_solver.
Qed.

Lemma delete_from_set (a : Impl) r kind b a' : stored a -> aliases_delete r kind a = (Ok b, a') ->
  stored a' /\ (b = true <-> remote_key r ∈ keys kind a) /\
  forall kind' x, x ∈ keys kind' a' <-> x ∈ keys kind' a /\ ~ (kind' = kind /\ x = remote_key r).
Proof.
  intros [Hok Hread]. unfold aliases_delete.
  pose proof (remove_first_spec (aliases_of kind (rai_config a)) r) as Hs. destruct (remove_first _ r) as [l|].
  - destruct Hs as (l1 & y & l2 & Hl & -> & Hy). intros (-> & Hcfg & Hr)%save_aliases_spec.
    pose proof (Hok kind) as Hnd. unfold stored, config_ok, alias_keys in *. rewrite Hcfg in *.
    setoid_rewrite aliases_of_with. rewrite Hl, fmap_app, fmap_cons, <- Hy in *.
    apply NoDup_app in Hnd as (Hn1 & Hd & [Hy2 Hn2]%NoDup_cons). split_and!; [|done| |].
    + intros kind'. case_decide; [subst|by apply Hok]. rewrite fmap_app. apply NoDup_app.
      split_and!; [done| |done]. intros x Hx. specialize (Hd x Hx). set_solver.
    + split; [intros _|done]. apply elem_of_app. right. left.
    + intros kind' x. case_decide; [subst kind'|naive_solver].
      rewrite Hl, !fmap_app, fmap_cons, !elem_of_app, elem_of_cons.
      assert (remote_key y ∉ remote_key <$> l1) by set_solver. set_solver.
  - intros [= <- <-]. split_and!; [done|done|]. intros kind' x. split; [|by intros [? _]].
    intros Hx. split; [done|]. by intros [-> ->].
Qed.

Lemma clear_set (a : Impl) kind n a' : stored a -> aliases_clear kind a = (Ok n, a') ->
  stored a' /\ n = length (keys kind a) /\
  forall kind' x, x ∈ keys kind' a' <-> x ∈ keys kind' a /\ kind' <> kind.
Proof.
  intros [Hok Hread]. unfold aliases_clear. destruct (aliases_of kind (rai_config a)) as [|y l] eqn:Hl.
  - intros [= <- <-]. unfold alias_keys at 1. rewrite Hl. split_and!; [done|done|].
    intros kind' x. split; [|by intros [? _]]. intros Hx. split; [done|]. intros ->.
    unfold alias_keys in Hx. rewrite Hl in Hx. by apply elem_of_nil in Hx.
  - intros (-> & Hcfg & Hr)%save_aliases_spec. unfold stored, config_ok, alias_keys in *. rewrite Hcfg in *.
    setoid_rewrite aliases_of_with. split_and!; [|done|by rewrite Hl, length_fmap|].
    + intros kind'. case_decide; [constructor|by apply Hok].
    + intros kind' x. case_decide; [subst|naive_solver]. split; [by intros ?%elem_of_nil|by intros [_ ?]].
Qed.

End Aliases.

(** * Pulling *)

Section Pulling.
Context `{EN : Engines} {Url W : Type} `{!UrlCrate Url} `{!UrlParts Url} {PW : PullWorkspace Url W}
        {PS : PullServices Url W}.

Variable subject : CurrentAccountSubject.

Abbreviation Options := (PullMultiOptions (Url := Url) (W := W)).

(** C13.  The plan of a pull, when the datasets do not depend on themselves: it has an
    item for every request, and one item per name; an item that is transformed has
    all it reads earlier in the plan and at a lower depth; items of one depth do
    not read each other, so a level can be pulled in parallel; and no depth
    overflows. *)
Theorem plan_orders_dependencies fuel (w : W) rank requests (options : Options) plan :
  acyclic w rank -> collect_pull_graph subject fuel w requests options = Some (Ok (plan, [])) ->
  (forall r, r ∈ requests -> exists lh a x, resolve_target subject w r options = Ok (lh, a) /\
     x ∈ plan /\ item_is x a /\ explicitly_requested x) /\
  (forall x y a, x ∈ plan -> y ∈ plan -> item_is x a -> item_is y a -> x = y) /\
  (forall i x a, plan !! i = Some x -> item_reads w x a ->
     exists j y, plan !! j = Some y /\ item_is y a /\ j < i /\ (pi_depth y < pi_depth x)%Z) /\
  (forall x y a, x ∈ plan -> y ∈ plan -> pi_depth x = pi_depth y -> item_reads w x a -> ~ item_is y a) /\
  Forall (fun x => 0 <= pi_depth x < 2 ^ 31)%Z plan.
Proof.
  intros Hac (v & Hv & Hplan & Hperm & Hsort)%collect_pull_graph_visited.
  destruct (visit_requests_ok _ _ _ _ Hac _ _ _ _ _ _ (graph_ok_nil w rank) Hv) as (Hok & _ & Hreq).
  destruct (Hreq eq_refl) as [_ Hreq'].
  assert (Hun : forall x y a, x ∈ plan -> y ∈ plan -> item_is x a -> item_is y a -> x = y).
  { intros x y a. rewrite Hperm. by apply (item_is_unique _ _ _ Hok). }
  assert (Hbelow : forall x a, x ∈ plan -> item_reads w x a ->
            exists y, y ∈ plan /\ item_is y a /\ (pi_depth y < pi_depth x)%Z).
  { intros x a. rewrite Hperm. intros Hx Hr. destruct (reads_below _ _ _ Hok _ _ Hx Hr) as (y & Hy & ?).
    exists y. by rewrite Hperm. }
  split_and!; [|done| | |].
  - intros r (lh & a & x & Ht & Hx & He)%Hreq'. exists lh, a, x. split_and!; [done| | |done].
    + rewrite Hperm. apply visited_get_some in Hx as (k & Hk & _). by apply (list_elem_of_fmap_2 snd v (k, x)).
    + by apply (visited_get_is _ _ _ Hok).
  - intros i x a Hi Hr. destruct (Hbelow x a (list_elem_of_lookup_2 _ _ _ Hi) Hr) as (y & Hy & His & Hlt).
    apply list_elem_of_lookup_1 in Hy as (j & Hj). exists j, y. split_and!; [done..| |done].
    destruct (decide (j < i)) as [|Hge]; [done|].
    pose proof (sorted_depths _ _ _ _ _ Hsort Hi Hj ltac:(lia)). lia.
  - intros x y a Hx Hy Heq Hr His. destruct (Hbelow x a Hx Hr) as (z & Hz & Hisz & Hlt).
    rewrite (Hun z y a Hz Hy Hisz His) in Hlt. lia.
  - apply Forall_forall. intros x Hx. rewrite Hperm in Hx. destruct (visited_elem_get _ _ _ Hok _ Hx) as (a & Ha).
    destruct (go_item _ _ _ Hok _ _ Ha) as (_ & Hd & _). pose proof (ac_bound _ _ Hac a). lia.
Qed.

(** The plan does not depend on the order in which the hash map of visited
    datasets is read: sorting any permutation of its values gives the plan. *)
Theorem plan_ignores_hash_order fuel (w : W) rank requests (options : Options) v errors p :
  acyclic w rank -> visit_requests subject fuel w requests options [] [] = Some (Ok (v, errors)) ->
  p ≡ₚ v.*2 ->
  collect_pull_graph subject fuel w requests options = Some (Ok (merge_sort PullItem_le p, errors)).
Proof.
  intros Hac Hv Hp. unfold collect_pull_graph. rewrite Hv.
  destruct (visit_requests_ok _ _ _ _ Hac _ _ _ _ _ _ (graph_ok_nil w rank) Hv) as (Hok & _).
  by rewrite (sorted_values_unique _ _ _ Hok p Hp).
Qed.

(** C15.  Planning ends when the datasets do not depend on themselves, and then
    pulling does: every level takes at least one item off the plan. *)
Theorem pull_ends fuel (w : W) rank requests (options : Options) :
  acyclic w rank -> (forall a, S (rank a) < fuel) ->
  is_Some (collect_pull_graph subject fuel w requests options) /\
  is_Some (pull_multi_ext subject fuel requests options w).
Proof.
  intros Hac Hf.
  assert (Hc : forall requests, is_Some (collect_pull_graph subject fuel w requests options)).
  { intros rs. unfold collect_pull_graph.
    destruct (visit_requests_ends subject w rank options Hac fuel rs [] [] Hf) as [[[v errs]| |] ->]; by eexists. }
  split; [done|]. unfold pull_multi_ext. destruct subject; [|by eexists].
  destruct (all_requests _ _ _ _) as [rs| |]; [|by eexists..].
  destruct (Hc rs) as [[[plan [|e errors]]| |] ->]; [|by eexists..]. by apply run_levels_ends.
Qed.

(** C14.  What a pull does.  When some request cannot be planned nothing is pulled
    and the responses are the errors of those requests.  Otherwise the items of the
    plan, restricted to the requested ones unless it is recursive, are answered in
    order; all of them unless one fails; and a dataset is pulled only after
    everything the plan has of what it reads was pulled without error. *)
Theorem pull_runs_inputs_first fuel (w : W) rank requests (options : Options) rs w' :
  acyclic w rank -> pull_multi_ext subject fuel requests options w = Some (Ok rs, w') ->
  (w' = w /\ rs <> [] /\ Forall failed rs) \/
  exists l requests' plan ran rest, subject = CurrentAccountSubject_Logged l /\
    all_requests w requests options (la_account_name l) = Ok requests' /\
    collect_pull_graph subject fuel w requests' options = Some (Ok (plan, [])) /\
    retained_plan plan options = ran ++ rest /\ Forall2 answers ran rs /\
    (rest <> [] -> exists r, r ∈ rs /\ failed r) /\
    (forall i x a j y, ran !! i = Some x -> item_reads w x a -> (ran ++ rest) !! j = Some y -> item_is y a ->
       j < i /\ exists r, rs !! j = Some r /\ is_ok (prs_result r) = true).
Proof.
  intros Hac. unfold pull_multi_ext. destruct subject as [l|] eqn:Hsub; [|done].
  destruct (all_requests _ _ _ _) as [requests'| |] eqn:Hall; [|done..].
  destruct (collect_pull_graph _ fuel w requests' options) as [[[plan [|e errors]]| |]|] eqn:Hc; [| |done..].
  2: { intros [= <- <-]. left. split_and!; [done..|].
       apply collect_pull_graph_visited in Hc as (v & Hv & _). by apply (visit_requests_failed _ _ _ _ _ _ _ _ _ Hv). }
  intros (ran & rest & new & Hret & -> & Hans & Hrest & Hstop)%run_levels_spec. right.
  exists l, requests', plan, ran, rest. split_and!; [done..|].
  destruct (collect_pull_graph_visited _ _ _ _ _ _ _ Hc) as (v & Hv & _ & Hperm & Hsort).
  destruct (visit_requests_ok _ _ _ _ Hac _ _ _ _ _ _ (graph_ok_nil w rank) Hv) as (Hok & _).
  intros i x a j y Hi Hr Hj His.
  assert (Hx : x ∈ v.*2).
  { rewrite <- Hperm. apply (retained_elem plan options). rewrite Hret. apply elem_of_app. left.
    by eapply list_elem_of_lookup_2. }
  assert (Hy : y ∈ v.*2).
  { rewrite <- Hperm. apply (retained_elem plan options). rewrite Hret. by eapply list_elem_of_lookup_2. }
  destruct (reads_below _ _ _ Hok _ _ Hx Hr) as (z & Hz & Hisz & Hlt).
  rewrite (item_is_unique _ _ _ Hok a z y Hz Hy Hisz His) in Hlt.
  assert (Hji : j < i).
  { destruct (decide (j < i)) as [|Hge]; [done|].
    apply retained_sorted with (options := options) in Hsort. rewrite Hret in Hsort.
    pose proof (sorted_depths _ i j x y Hsort ltac:(by apply lookup_app_l_Some) Hj ltac:(lia)). lia. }
  split; [done|]. pose proof (lookup_lt_Some _ _ _ Hi). rewrite lookup_app_l in Hj by lia.
  destruct (Forall2_lookup_l _ _ _ _ _ Hans Hj) as (r & Hrj & _). exists r. split; [done|].
  destruct (is_ok (prs_result r)) eqn:Hf; [done|].
  pose proof (Hstop _ _ _ _ _ Hj Hrj Hf Hi ltac:(lia)). lia.
Qed.

(** Pulling a single dataset gives the one response to its request: the
    assertion on the number of responses holds whatever the services do. *)
Theorem single_pull_has_one_response fuel (w : W) request (options : PullOptions (Url := Url) (W := W)) rs w' :
  pull_multi_ext subject fuel [request] (single_options options) w = Some (Ok rs, w') ->
  exists r, rs = [r] /\ prs_original_request r = Some request /\
    pull_ext subject fuel request options w = Some (prs_result r, w').
Proof.
  intros Hp. cut (exists r, rs = [r] /\ prs_original_request r = Some request).
  { intros (r & -> & Hr). exists r. split_and!; [done..|]. unfold pull_ext. by rewrite Hp. }
  revert Hp. unfold pull_multi_ext. destruct subject as [l|]; [|done]. unfold all_requests. cbn [negb pmo_all single_options].
  unfold collect_pull_graph. cbn [visit_requests].
  destruct (collect_pull_graph_depth_first _ fuel w request true _ []) as [[[d|e|] v]|] eqn:Hc; [| |done..].
  2: { simpl. intros [= <- <-]. by eexists. }
  apply collect_requests_one in Hc as (pi & Hf & Ho).
  assert (Hret : retained_plan (merge_sort PullItem_le v.*2) (single_options options) = [pi]).
  { unfold retained_plan. simpl. apply Permutation_singleton_r.
    rewrite (merge_sort_Permutation PullItem_le). by rewrite Hf. }
  rewrite Hret. intros (ran & rest & new & Hran & -> & Hans & Hrest & _)%run_levels_spec.
  destruct ran as [|x [|y ran]]; simpl in Hran; simplify_eq.
  - exfalso. inversion Hans; subst. destruct Hrest as (r & Hr & _); [done|]. by apply elem_of_nil in Hr.
  - inversion Hans as [|? r ? new' [Hr _] Hnil]; subst. inversion Hnil; subst. exists r. by rewrite Hr.
Qed.

End Pulling.

(** * Remembering the other end *)

Section Remembering.
Context `{EN : Engines} {Url W : Type} `{!UrlCrate Url} `{!UrlParts Url} {PW : PullWorkspace Url W}
        {PS : PullServices Url W} {LA : LawfulAliases PW}.

Definition pulled_from (r : PullResponse (Url := Url) (W := W)) : option (DatasetRef * DatasetRefRemote Url) :=
  match prs_result r, prs_local_ref r, prs_remote_ref r with
  | Ok (PullResult_Updated None _), Some l, Some x => Some (l, x)
  | _, _, _ => None
  end.

Definition pushed_to (r : PushRequest Url) : option (DatasetRef * DatasetRefRemote Url) :=
  match psq_local_ref r, psq_remote_ref r with Some l, Some x => Some (l, x) | _, _ => None end.

Lemma collect_plan_failed (w : W) (items : list (PushRequest Url)) plan errors :
  collect_plan w items = Ok (plan, errors) -> Forall (fun r => is_ok (psr_result r) = false) errors.
Proof.
  revert plan errors. induction items as [|r items IH]; intros plan errors; simpl; [by intros [= _ <-]|].
  assert (Hitem : forall e, collect_plan_item w r = Err e -> is_ok (psr_result e) = false).
  { intros e. unfold collect_plan_item, push_failed. destruct (psq_local_ref r), (psq_remote_ref r); try done.
    - destruct (pw_resolve_dataset_ref w d); [done| |done]. by intros [= <-].
    - destruct (pw_resolve_dataset_ref w d); [| |done]; [|by intros [= <-]].
      destruct (resolve_push_alias w a); [done| |done]. by intros [= <-].
    - destruct (inverse_lookup_dataset_by_push_alias w d); [done| |done]. by intros [= <-]. }
  destruct (collect_plan_item w r) as [item|e|]; [| |done];
    (destruct (collect_plan w items) as [[plan' errors']| |]; [|done..]); intros [= <- <-];
    [|constructor; [by apply Hitem|]]; by eapply IH.
Qed.

(** The other end is remembered.  After a batch of datasets was pulled from
    remotes, with the option to do so, every dataset that the batch created has the
    remote it came from among its pull aliases.  After a push that succeeded, every
    request that named both ends has left the remote among the push aliases of
    the dataset. *)
Theorem remote_ends_are_remembered :
  (forall batch options (w : W) rs w', sync_multi batch options w = (Ok rs, w') -> pmo_add_aliases options = true ->
   forall r x new_head, r ∈ rs -> prs_result r = Ok (PullResult_Updated None new_head) -> prs_remote_ref r = Some x ->
     exists l, prs_local_ref r = Some l /\ alias_listed w' l x RemoteAliasKind_Pull) /\
  (forall requests options (w : W) rs w', push_multi_ext requests options w = (Ok rs, w') ->
   pso_add_aliases options = true -> Forall (fun r => is_ok (psr_result r) = true) rs ->
   forall r l x, r ∈ requests -> psq_local_ref r = Some l -> psq_remote_ref r = Some x ->
     alias_listed w' l x RemoteAliasKind_Push).
Proof.
  split.
  - intros batch options w rs w' Hs Hopt r x h Hr Hres Hx.
    assert (Hl : exists l, prs_local_ref r = Some l).
    { pose proof (run_level_answers 0 true batch options w rs w' Hs) as Hans.
      apply list_elem_of_lookup_1 in Hr as (i & Hi).
      destruct (Forall2_lookup_r _ _ _ _ _ Hans Hi) as (pi & _ & _ & l & Hl & _). by exists l. }
    destruct Hl as (l & Hl). exists l. split; [done|]. revert Hs. unfold sync_multi.
    destruct (sync_requests batch); [|done..]. destruct (svc_sync_multi _ _ w) as [results w1].
    destruct (zip_responses _ _ batch results) as [rs1| |]; [|done..]. rewrite Hopt.
    unfold mbind, action_bind. destruct (for_each remember_source rs1 w1) as [[u| |] w2] eqn:Hf; [|done..].
    intros [= -> ->].
    apply (for_each_registers _ pulled_from RemoteAliasKind_Pull) in Hf as [Hin _].
    + apply (Hin r); [done|]. unfold pulled_from. by rewrite Hres, Hl, Hx.
    + clear. intros r w u w'. unfold remember_source, pulled_from, mret, action_ret, panic.
      destruct (prs_result r) as [[|[|] ?]| |]; try (intros [= _ <-]; by destruct (prs_local_ref r)).
      destruct (prs_remote_ref r), (prs_local_ref r); try done; by intros [= _ <-].
  - intros requests options w rs w' Hp Hopt Hall r l x Hr Hl Hx. revert Hp. unfold push_multi_ext.
    destruct (pso_recursive options); [done|]. destruct (pso_all options); [done|].
    destruct (collect_plan w requests) as [[plan [|e errors]]| |] eqn:Hc; [| |done..].
    2: { intros [= <- <-]. apply collect_plan_failed in Hc. inversion Hc; inversion Hall. congruence. }
    destruct (svc_sync_multi _ _ w) as [results w1]. destruct (zip_push plan results) as [rs1| |]; [|done..].
    rewrite Hopt. simpl. destruct (forallb _ rs1) eqn:Hok.
    + unfold mbind, action_bind. destruct (for_each remember_target requests w1) as [[u| |] w2] eqn:Hf; [|done..].
      intros [= -> ->].
      apply (for_each_registers _ pushed_to RemoteAliasKind_Push) in Hf as [Hin _].
      * apply (Hin r); [done|]. unfold pushed_to. by rewrite Hl, Hx.
      * clear. intros r w u w'. unfold remember_target, pushed_to.
        destruct (psq_local_ref r), (psq_remote_ref r); try (by intros [= _ <-]).
        by destruct (register_alias _ _ _ w) as [[| |] ?].
    + intros [= -> ->]. apply not_true_iff_false in Hok. exfalso. apply Hok, forallb_forall. intros y Hy.
      rewrite Forall_forall in Hall. apply Hall. by apply list_elem_of_In.
Qed.

End Remembering.

(** * Watermarks *)

(** A watermark is only written to a local root dataset that the caller may
    write to; in every other case nothing changes, and a dataset that is pulled
    from elsewhere or derived is reported as such. *)
Theorem watermark_is_for_local_roots {Url W} {PW : PullWorkspace Url W} check scan write dataset_ref
    new_watermark now (w : W) :
  let '(x, w') := set_watermark check scan write dataset_ref new_watermark now w in
  (is_ok x = false /\ w' = w) \/
  exists aliases hdl summary, get_remote_aliases w dataset_ref = Ok aliases /\
    ra_is_empty aliases RemoteAliasKind_Pull = true /\ pw_resolve_dataset_ref w dataset_ref = Ok hdl /\
    check hdl DatasetAction_Write = Ok tt /\ pw_get_summary w hdl = Ok summary /\
    dsu_kind summary = DatasetKind_Root /\
    x = set_watermark_result (write hdl new_watermark now w).1 /\ w' = (write hdl new_watermark now w).2.
Proof.
  unfold set_watermark, set_watermark_target.
  destruct (get_remote_aliases w dataset_ref) as [aliases| |] eqn:Hal; [|by left..]. simpl.
  destruct (ra_is_empty aliases RemoteAliasKind_Pull) eqn:Hemp; [|by left]. simpl.
  destruct (pw_resolve_dataset_ref w dataset_ref) as [hdl| |] eqn:Hres; [|by left..]. simpl.
  destruct (check hdl DatasetAction_Write) as [[]| |] eqn:Hchk; [|by left..]. simpl.
  destruct (pw_get_summary w hdl) as [summary| |] eqn:Hsum; [|by left..]. simpl.
  destruct (dsu_kind summary) eqn:Hkind; [|by left].
  destruct (scan w hdl) as [u| |] eqn:Hscan; [|by left..]. simpl.
  destruct (write hdl new_watermark now w) as [y w1] eqn:Hw. right. exists aliases, hdl, summary. by rewrite Hw.
Qed.

(** * Concrete data *)

(** Blocks, hashes and configurations are kept as they are. *)
#[local] Instance ex_p_codec : BlockCodec := {|
  Bytes := MetadataBlock + Multihash + Manifest (DatasetConfig str);
  bytes_len := fun _ => 7%Z;
  write_manifest := fun b => Ok (inl (inl b));
  read_manifest := fun d => match d with inl (inl b) => Ok b | _ => Err SerdeError_Other end;
  sha3_256 := fun _ => replicate 32 200%Z;
  to_multibase := fun h => inl (inr h);
  from_multibase := fun d => match d with inl (inr h) => Ok h | _ => Err tt end
|}.

#[local] Instance ex_config_codec : ConfigCodec str := {|
  config_to_yaml := fun m => Ok (inr m);
  config_from_yaml := fun d => match d with inr m => Ok m | _ => Err tt end
|}.

#[local] Instance ex_config_codec_laws : ConfigCodecLaws ex_config_codec.
Proof. split. by intros m d [= <-]. Qed.

#[local] Instance ex_p_arrow : ArrowCrate := {|
  SchemaRef := unit; Field := unit; arrow_fields _ := []; field_same _ _ := true;
  schema_to_fb _ := []; SchemaError := unit; fb_to_schema _ := Ok tt
|}.

#[local] Instance ex_p_engines : Engines := {|
  Engine := unit; EngineProvisioningError := unit; EngineError := unit;
  provision_engine _ := Ok tt; execute_transform _ _ := Err tt
|}.

(** A URL has one segment, its text. *)
#[local] Instance ex_url_parts : UrlParts str := {|
  Url_path_segments u := Some [u];
  Url_host_domain _ := None
|}.

Abbreviation ExDataset := (DatasetImpl unit unit unit unit NamedObjectRepositoryInMemory).
Abbreviation ExStore := (DatasetID -> ExDataset).

Definition ex_blank : ExDataset :=
  mkDatasetImpl (mkMetadataChainImpl tt tt) tt tt NamedObjectRepositoryInMemory_new.
Definition ex_key (n : Z) : DatasetID := mkDatasetID (mkDidOdf (mkDidKey [n])).
Definition ex_name (s : string) : DatasetAlias := mkDatasetAlias None (mkDatasetName s).
Definition ex_url (s : string) : DatasetRefRemote str := DatasetRefRemote_Url (text s).

(** ** Aliases *)

Definition ex_aliases := mkRemoteAliasesImpl ex_blank (DatasetConfig_default (Url := str)).


(** ** Four datasets

    [c] reads [a], [b] and [d], [b] reads [a], and [d] is pulled from a remote. *)

Definition ex_handles : list DatasetHandle :=
  [mkDatasetHandle (ex_key 1) (ex_name "a"); mkDatasetHandle (ex_key 2) (ex_name "b");
   mkDatasetHandle (ex_key 3) (ex_name "c"); mkDatasetHandle (ex_key 4) (ex_name "d")].

Definition ex_find (r : DatasetRef) : res GetDatasetError DatasetHandle :=
  let matches h := match r with
                   | DatasetRef_ID id => bool_decide (id = dh_id h)
                   | DatasetRef_Alias a => DatasetAlias_eq a (dh_alias h)
                   | DatasetRef_Handle h' => bool_decide (dh_id h' = dh_id h)
                   end in
  match List.find matches ex_handles with
  | Some h => Ok h
  | None => Err (GetDatasetError_NotFound (mkDatasetNotFoundError r))
  end.

Definition ex_deps (h : DatasetHandle) : list DatasetID :=
  if DatasetAlias_eq (dh_alias h) (ex_name "b") then [ex_key 1]
  else if DatasetAlias_eq (dh_alias h) (ex_name "c") then [ex_key 1; ex_key 2; ex_key 4]
  else [].

Definition ex_head : Multihash := mkMultihash [] 0 Multicodec_Sha3_256.
Definition ex_summary (deps : list DatasetID) (h : DatasetHandle) : DatasetSummary :=
  mkDatasetSummary (dh_id h) DatasetKind_Derivative ex_head deps None 0 0 0.

(** The workspace, given what datasets depend on. *)
Definition ex_workspace (deps : DatasetHandle -> list DatasetID) : PullWorkspace str ExStore :=
  store_workspace false ex_find (fun _ _ => (ex_handles, Ok tt)) (fun _ => (ex_handles, Ok tt))
    (fun _ h => Ok (ex_summary (deps h) h)).

(** Ingest and transforms find nothing new; what is synchronized is new. *)
#[local] Instance ex_services : PullServices str ExStore := {|
  PollingIngestOptions := unit;
  PollingIngestError := unit;
  svc_ingest_multi refs _ w := ((fun r => (r, Ok (PollingIngestResult_UpToDate false false))) <$> refs, w);
  svc_sync_multi requests _ w :=
    ((fun r => mkSyncResultMulti (srq_src r) (srq_dst r) (Ok (SyncResult_Updated None ex_head 1))) <$> requests, w);
  svc_transform_multi refs _ w := ((fun r => (r, Ok TransformResult_UpToDate)) <$> refs, w)
|}.

(** [d] has the remote as its pull alias. *)
Definition ex_config : Manifest (DatasetConfig str) :=
  mkManifest "DatasetConfig" 1 (mkDatasetConfig [ex_url "odf+http://d"] []).
Definition ex_store : ExStore := fun id =>
  if bool_decide (id = ex_key 4)
  then mkDatasetImpl (mkMetadataChainImpl tt tt) tt tt (mkNamedObjectRepositoryInMemory {["config" := inr ex_config]})
  else ex_blank.

Definition ex_rank (a : DatasetAlias) : nat :=
  if DatasetAlias_eq a (ex_name "b") then 1 else if DatasetAlias_eq a (ex_name "c") then 2 else 0.

Definition ex_account : CurrentAccountSubject :=
  CurrentAccountSubject_Logged (mkLoggedAccount (mkAccountID (did_did (ex_key 9))) (mkAccountName "kamu") false).

Definition ex_options (recursive : bool) : PullMultiOptions (PS := ex_services) :=
  mkPullMultiOptions (PS := ex_services) recursive false true tt SyncOptions_default false.

Definition ex_request (s : string) : PullRequest str := mkPullRequest (Some (DatasetRef_Alias (ex_name s))) None.

#[local] Instance ex_ws : PullWorkspace str ExStore := ex_workspace ex_deps.

Lemma ex_acyclic : acyclic ex_store ex_rank.
Proof.
  split.
  - intros a b H%DatasetAlias_eq_key. unfold ex_rank.
    assert (He : forall x, DatasetAlias_eq a x = DatasetAlias_eq b x).
    { intros x. apply eq_true_iff_eq. rewrite !DatasetAlias_eq_key. by rewrite H. }
    by rewrite !He.
  - intros h s id h' [= <-]. simpl. unfold ex_rank, ex_deps.
    destruct (DatasetAlias_eq (dh_alias h) (ex_name "b")); [|destruct (DatasetAlias_eq (dh_alias h) (ex_name "c"))].
    3: by intros ?%elem_of_nil.
    all: rewrite ?elem_of_cons, elem_of_nil; intros Hid Hres; destruct_or! Hid; try done; subst id;
      vm_compute in Hres; injection Hres as <-; vm_compute; lia.
  - intros a. unfold ex_rank. repeat case_match; lia.
Qed.

Lemma ex_fuel a : S (ex_rank a) < 4.
Proof. unfold ex_rank. repeat case_match; lia. Qed.

(** The plan for [c] with its dependencies. *)
Definition ex_item (n : nat) (depth : Z) (remote : option (DatasetRefRemote str)) (request : option (PullRequest str))
    : PullItem :=
  mkPullItem depth (DatasetRef_Handle (nth n ex_handles (mkDatasetHandle (ex_key 0) (ex_name "?")))) remote request.
Definition ex_plan : list PullItem :=
  [ex_item 3 0 (Some (ex_url "odf+http://d")) None; ex_item 0 0 None None; ex_item 1 1 None None;
   ex_item 2 2 None (Some (ex_request "c"))].

Lemma ex_planned :
  collect_pull_graph ex_account 4 ex_store [ex_request "c"] (ex_options true) = Some (Ok (ex_plan, [])).
Proof. vm_compute. reflexivity. Qed.

Lemma ex_c_reads_a : item_reads ex_store (ex_item 2 2 None (Some (ex_request "c"))) (ex_name "a").
Proof.
  exists (mkDatasetHandle (ex_key 3) (ex_name "c")), (ex_summary [ex_key 1; ex_key 2; ex_key 4] (mkDatasetHandle (ex_key 3) (ex_name "c"))),
    (ex_key 1), (mkDatasetHandle (ex_key 1) (ex_name "a")).
  split_and!; try reflexivity. left.
Qed.

Lemma plan_orders_dependencies_witness :
  acyclic ex_store ex_rank /\
  collect_pull_graph ex_account 4 ex_store [ex_request "c"] (ex_options true) = Some (Ok (ex_plan, [])) /\
  exists j y, ex_plan !! j = Some y /\ item_is y (ex_name "a") /\ j < 3 /\ (pi_depth y < 2)%Z.
Proof.
  split; [exact ex_acyclic|]. split; [exact ex_planned|].
  destruct (plan_orders_dependencies ex_account 4 ex_store ex_rank [ex_request "c"] (ex_options true) ex_plan
              ex_acyclic ex_planned) as (_ & _ & H & _).
  exact (H 3 _ _ eq_refl ex_c_reads_a).
Defined.

Definition ex_visited :=
  match visit_requests ex_account 4 ex_store [ex_request "c"] (ex_options true) [] [] with
  | Some (Ok (v, _)) => v
  | _ => []
  end.

Lemma plan_ignores_hash_order_witness :
  acyclic ex_store ex_rank /\ length ex_visited = 4 /\
  collect_pull_graph ex_account 4 ex_store [ex_request "c"] (ex_options true) =
    Some (Ok (merge_sort PullItem_le (rev ex_visited.*2), [])).
Proof.
  split; [exact ex_acyclic|]. split; [vm_compute; reflexivity|].
  apply (plan_ignores_hash_order ex_account 4 ex_store ex_rank [ex_request "c"] (ex_options true) ex_visited [] _ ex_acyclic).
  - vm_compute. reflexivity.
  - symmetry. apply Permutation_rev.
Defined.

Lemma pull_ends_witness :
  acyclic ex_store ex_rank /\
  is_Some (pull_multi_ext ex_account 4 [ex_request "c"; ex_request "d"] (ex_options true) ex_store).
Proof.
  split; [exact ex_acyclic|].
  exact (proj2 (pull_ends ex_account 4 ex_store ex_rank [ex_request "c"; ex_request "d"] (ex_options true)
                  ex_acyclic ex_fuel)).
Defined.

(** What pulling [c] recursively gives, and the state afterwards. *)
Definition ex_run :=
  match pull_multi_ext ex_account 4 [ex_request "c"] (ex_options true) ex_store with
  | Some (Ok rs, w) => (rs, w)
  | _ => ([], ex_store)
  end.

Lemma ex_ran : pull_multi_ext ex_account 4 [ex_request "c"] (ex_options true) ex_store = Some (Ok ex_run.1, ex_run.2).
Proof. vm_compute. reflexivity. Qed.

(** What is read is answered first: [d] is synchronized, [a] ingested, then [b] and
    [c] are transformed. *)
Lemma pull_runs_inputs_first_witness :
  acyclic ex_store ex_rank /\ length ex_run.1 = 4 /\
  exists ran rest, ran ++ rest = ex_plan /\ Forall2 answers ran ex_run.1.
Proof.
  split; [exact ex_acyclic|]. split; [vm_compute; reflexivity|].
  destruct (pull_runs_inputs_first ex_account 4 ex_store ex_rank [ex_request "c"] (ex_options true) ex_run.1 ex_run.2
              ex_acyclic ex_ran) as [(_ & _ & Hf)|(l & rs & plan & ran & rest & Hl & Hall & Hc & Hret & Hans & _)].
  - exfalso. vm_compute in Hf. apply Forall_inv in Hf. discriminate Hf.
  - exists ran, rest. split; [|exact Hans]. rewrite <- Hret. injection Hall as <-.
    rewrite ex_planned in Hc. injection Hc as <-. reflexivity.
Defined.

Definition ex_single : PullOptions (PS := ex_services) := mkPullOptions (PS := ex_services) true tt SyncOptions_default false.

Lemma single_pull_has_one_response_witness :
  exists rs w', pull_multi_ext ex_account 4 [ex_request "c"] (single_options ex_single) ex_store = Some (Ok rs, w') /\
    exists r, rs = [r] /\ pull_ext ex_account 4 (ex_request "c") ex_single ex_store = Some (prs_result r, w').
Proof.
  assert (H : exists rs w', pull_multi_ext ex_account 4 [ex_request "c"] (single_options ex_single) ex_store = Some (Ok rs, w')).
  { eexists _, _. vm_compute. reflexivity. }
  destruct H as (rs & w' & H). exists rs, w'. split; [exact H|].
  destruct (single_pull_has_one_response ex_account 4 ex_store (ex_request "c") ex_single rs w' H) as (r & Hr & _ & Hx).
  exists r. split; assumption.
Defined.

(** An item to synchronize; the service answers that the dataset is new. *)
Definition ex_new_item : PullItem :=
  mkPullItem 0 (DatasetRef_Alias (ex_name "a")) (Some (ex_url "odf+http://a")) None.

Definition ex_synced :=
  match sync_multi [ex_new_item] (ex_options true) ex_store with (Ok rs, w) => (rs, w) | _ => ([], ex_store) end.

Lemma remote_ends_are_remembered_witness :
  alias_listed ex_synced.2 (DatasetRef_Alias (ex_name "a")) (ex_url "odf+http://a") RemoteAliasKind_Pull /\
  ~ alias_listed ex_store (DatasetRef_Alias (ex_name "a")) (ex_url "odf+http://a") RemoteAliasKind_Pull.
Proof.
  split.
  - destruct (remote_ends_are_remembered (PW := ex_ws) (PS := ex_services)) as [Hpull _].
    destruct (Hpull [ex_new_item] (ex_options true) ex_store ex_synced.1 ex_synced.2) with
      (r := mkPullResponse (PS := ex_services) None (Some (DatasetRef_Alias (ex_name "a"))) (Some (ex_url "odf+http://a"))
              (Ok (PullResult_Updated None ex_head)))
      (x := ex_url "odf+http://a") (new_head := ex_head) as (l & [= <-] & Hl).
    + vm_compute. reflexivity.
    + reflexivity.
    + vm_compute. left.
    + reflexivity.
    + reflexivity.
    + exact Hl.
  - intros (aliases & Ha & Hc). vm_compute in Ha. injection Ha as <-. vm_compute in Hc. discriminate Hc.
Defined.

(** ** Corner cases *)

(** A request that names both ends is not always followed: once the dataset was
    reached as a dependency of an earlier request, the remote is ignored and the
    dataset is ingested; in the other order it is synchronized. *)
Definition ex_both : PullRequest str :=
  mkPullRequest (Some (DatasetRef_Alias (ex_name "a"))) (Some (ex_url "odf+http://a")).

Example requested_remote_is_ignored :
  match collect_pull_graph ex_account 4 ex_store [ex_request "b"; ex_both] (ex_options false),
        collect_pull_graph ex_account 4 ex_store [ex_both; ex_request "b"] (ex_options false) with
  | Some (Ok ([x; _], [])), Some (Ok ([y; _], [])) =>
      pi_original_request x = Some ex_both /\ pi_remote_ref x = None /\
      pi_original_request y = Some ex_both /\ pi_remote_ref y = Some (ex_url "odf+http://a")
  | _, _ => False
  end.
Proof. vm_compute. split_and!; reflexivity. Qed.

(** A dataset that reads itself is descended into for ever. *)
Definition ex_self (h : DatasetHandle) : list DatasetID := [dh_id h].

Example cyclic_dependencies_never_end (fuel : nat) :
  collect_pull_graph (PW := ex_workspace ex_self) ex_account fuel ex_store [ex_request "a"] (ex_options false) = None.
Proof.
  assert (H : forall fuel expl request, request = ex_request "a" \/ request = dependency_request (ex_key 1) ->
    collect_pull_graph_depth_first (PW := ex_workspace ex_self) ex_account fuel ex_store request expl (ex_options false) [] = None).
  { clear. intros fuel. induction fuel as [|fuel IH]; [done|]. intros expl request Hr.
    cbn [collect_pull_graph_depth_first]. unfold visit_node.
    replace (resolve_target (PW := ex_workspace ex_self) ex_account ex_store request (ex_options false))
      with (@Ok (PullError (PS := ex_services)) _ (Some (mkDatasetHandle (ex_key 1) (ex_name "a")), ex_name "a"))
      by (destruct Hr as [-> | ->]; vm_compute; reflexivity).
    cbn [visited_get].
    replace (resolve_remote (PW := ex_workspace ex_self) ex_store request (Some (mkDatasetHandle (ex_key 1) (ex_name "a"))))
      with (@Ok (PullError (PS := ex_services)) (option (DatasetRefRemote str)) None)
      by (destruct Hr as [-> | ->]; vm_compute; reflexivity).
    unfold plan_item. cbn [ex_workspace store_workspace pw_get_summary ex_summary ex_self dsu_dependencies dh_id visit_dependencies].
    by rewrite IH by auto. }
  unfold collect_pull_graph. cbn [visit_requests]. by rewrite H by auto.
Qed.

(** A single dataset is not pulled when an input of it has two pull aliases,
    although the input is not going to be pulled. *)
Definition ex_ambiguous : ExStore := fun id =>
  if bool_decide (id = ex_key 1)
  then mkDatasetImpl (mkMetadataChainImpl tt tt) tt tt
         (mkNamedObjectRepositoryInMemory
            {["config" := inr (mkManifest "DatasetConfig" 1
                                 (mkDatasetConfig [ex_url "odf+http://a"; ex_url "odf+http://b"] []))]})
  else ex_blank.

Example ambiguous_input_blocks_a_pull :
  option_map fst (pull_ext ex_account 4 (ex_request "b") ex_single ex_ambiguous) = Some (Err PullError_AmbiguousSource).
Proof. vm_compute. reflexivity. Qed.

(** Recursive pushes panic. *)
Example recursive_push_panics requests :
  (push_multi_ext requests (mkPushMultiOptions true false true SyncOptions_default) ex_store).1 = Panic.
Proof. reflexivity. Qed.
